(* ===== verification/_CoqProject ===== *)
-Q . S2P
Prelude.v
Rules.v
Sorting.v
GoText.v
Proto.v
Glob.v
Asker.v
Policy.v
Ssh.v
Sshsig.v
Wire.v
Classify.v
SessionBind.v
Identity.v
GitObject.v
Prompt.v
Grants.v
Inflight.v
Engine.v
EngineSpec.v
Vault.v
VaultSpec.v
Cpace.v
Base64.v
Rpc.v
PairingProto.v
Trust.v
Armour.v
Pairings.v
Window.v
Regions.v
Settle.v
Pairing.v
Converge.v
Parked.v
ParkedSpec.v
KnownHosts.v
Agent.v
AgentSpec.v
AgentEngine.v
Access.v
Promises.v
PromisesSpec.v
Wakeups.v
WakeupsSpec.v
Holder.v
HolderSpec.v
HolderEngine.v
Lenders.v
LendersSpec.v
Inbox.v
InboxSpec.v
Collect.v
CollectSpec.v
Raise.v
RaiseSpec.v
Paths.v
PathsSpec.v
Borrower.v
BorrowerSpec.v
Relay.v
RelaySpec.v
Threads.v
Lock.v
LockSpec.v
LocalApi.v
LocalApiSpec.v
LocalApiEngine.v
Diff.v
DiffSpec.v
SignCli.v
SignCliSpec.v
SignCliRuns.v
Keyring.v
KeyringSpec.v
