(* ===== verification/Prelude.v ===== *)
(** * Ladulas: a verification library for the distributed approval service

    Ladulas is an SSH agent whose every signature is approved first: a request
    arrives (from a local SSH client, from the commit signer, or from another
    machine), is classified from the bytes it would sign, checked against a
    policy and against promises made earlier, and otherwise put in front of
    every approver that may answer it, here and on paired machines; the first
    decision wins, is signed, and is written to an audit log.  This library
    models that core in Rocq and proves what makes it correct.

    ** The parts, and where they are modelled

    - [Prelude], [GoText]: errors, results and explicit state; the Go string,
      number, time and hashing operations the source uses ([strings], [strconv],
      [bytes], [time], [encoding/binary]).
    - [Proto]: the messages of [proto/ladulas/v1] as records, with the
      nil-safe getters as [m ⇢ field].
    - [Glob], [Policy] ([pkg/approval/policy.go]): the pattern matcher, as the
      backtracking loop it is, and the evaluation of a policy document.
    - [Asker] ([pkg/approval/asker.go]): what is known of the process that asks.
    - [Ssh], [Sshsig], [Armour] ([pkg/sshsig]): keys and signatures as the
      interface of [golang.org/x/crypto/ssh], the SSHSIG format over it, and
      its text form.
    - [Wire], [Classify], [SessionBind] ([pkg/agent/wire.go], [classify.go],
      [sessionbind.go]): reading the agent protocol's blobs, deciding what a
      sign request asks for, and the session binds of a connection.
    - [Identity] ([pkg/identity]): every artifact the identity key signs --
      approvals, delegations, endorsements, retractions, relay calls -- and its
      verification.
    - [GitObject] ([pkg/gitctx]): parsing a commit or tag and checking the
      context shown against the digest that will be signed.
    - [Prompt] ([pkg/approval/prompt.go]): the card a human decides on.
    - [Grants] ([pkg/approval/grants.go]): what a promise covers, making one and
      extending one.
    - [Inflight] ([pkg/approval/inflight.go] and the asking half of
      [engine.go]): the requests out with approvers.
    - [Engine], [EngineSpec] ([pkg/approval/engine.go], [delegations.go],
      [endorsements.go], [quiet.go]): submitting and deciding, and the theorems
      about it.
    - [Vault], [VaultSpec] ([pkg/keystore/vault.go], [delegations.go],
      [endorsements.go]): the promises the store keeps, and the theorems about
      them.
    - [Cpace] ([internal/cpace]): the password-authenticated key exchange.
    - [Base64], [Trust] ([pkg/trust]): pairing codes, PINs and secrets, the
      older proof, intents and directions, trust records.
    - [PairingProto]: the messages of a pairing.
    - [Pairings] ([pkg/keystore/pairings.go], [peers.go]): the trust records and
      the pairings under way, as the store keeps them.
    - [Window] ([pairingWindow] of [pkg/peer/pairing.go]): a code on screen, its
      attempts and the exchanges in hand.
    - [Regions] ([pkg/peer/wakeup.go]): which relays a peer may name.
    - [Settle] ([pkg/peer/pending.go], [refusal.go], [tunnel.go], [peer.go] and
      the settling half of [pairing.go]): both users' answers, the two ends of
      the settlement, held refusals, the tunnel's allowlist and its gate.
    - [Pairing] ([pkg/peer/pairing.go], [pake.go]): the handlers of the machine
      that displays a code, and the joining side.
    - [Converge] ([pkg/peer/pending.go], [refusal.go]): the calls that take an
      answer to the peer, and the loop that makes them again.
    - [Rules], [Sorting]: the rules of explicit state shared by the proofs, and
      the stable sort.
    - [Parked], [ParkedSpec] ([pkg/agent/local.go]): the keys programs park in
      the agent.  [KnownHosts] ([knownhosts.go]): names for host keys.
    - [Agent], [AgentSpec] ([pkg/agent/agent.go]): one connection to the agent,
      over the classes [KeyStore], [Approver], [RemoteKeys], [Process] and
      [HostSystem]; [AgentEngine] puts the engine behind it.
    - [Rpc], [Access] ([pkg/peer/peer.go], [handover.go], [projects.go],
      [load.go]): who a call comes from, what it may do and how many of its
      decisions may run.
    - [Promises], [PromisesSpec] ([pkg/peer/delegations.go],
      [endorsements.go]): promises between two machines.
    - [Holder], [HolderSpec] ([pkg/peer/keys.go], [service.go], [collect.go]):
      the key holder's side of a borrowed signature; [HolderEngine] puts the
      engine behind it.
    - [Wakeups], [WakeupsSpec] ([pkg/keystore/wakeups.go],
      [pkg/peer/wakeup.go]): the routes peers announce, and knocking.
    - [Lenders], [LendersSpec] ([pkg/keystore/borrowed.go], [peer.go],
      [keys.go], [announcekeys.go], [link.go]): who can be asked for which key.
    - [Inbox], [InboxSpec] ([pkg/peer/inbox.go]): requests parked for approvers
      that collect.  [Collect], [CollectSpec] ([collect.go]): what a collecting
      approver does with them.
    - [Raise], [RaiseSpec] ([pkg/peer/raise.go], [tunnel.go]): the tunnel to a
      peer.  [Paths], [PathsSpec] ([path.go], [route.go], [dial.go], [link.go],
      [dialer.go]): the order in which the ways to a peer are tried.
    - [Borrower], [BorrowerSpec] ([pkg/peer/keys.go], [approver.go],
      [diff.go]): asking other machines, for a signature or a decision.
    - [Relay], [RelaySpec] ([pkg/relay]): the wake-up relay, its throttle and
      its two stores of registrations, and the caller's half.
    - [Threads]: calls as programs of single steps, and what holds in every
      interleaving of them.  [Lock], [LockSpec] ([internal/app/lock.go],
      [app.go], [listen.go]): sealing and unsealing an instance, who waits for
      it, and the approvers registered with it.
    - [Diff], [DiffSpec] ([pkg/gitctx/diff.go], [collect.go]): reading the
      diff of a commit under limits, and the context collected for a request.
    - [LocalApi], [LocalApiSpec] ([internal/localapi/server.go]): the signing
      service for programs on this machine; [LocalApiEngine] puts the engine
      behind it.
    - [SignCli], [SignCliSpec] ([internal/signcli]): the program git runs to
      sign; [SignCliRuns] puts the signing service behind its socket.
    - [Keyring], [KeyringSpec] ([pkg/keystore/sshkeys.go], [handover.go],
      [opensshcomment.go], [gate.go]): the SSH keys the store holds, those on
      their way to a peer and those peers have offered.

    ** How they interact

    [Engine] calls [GitObject], [Policy], [Prompt], [Grants] and [Identity]
    directly, and reaches its stores through the classes [GrantStore],
    [GrantUses], [DelegationStore] and [EndorsementStore], which are the
    interfaces of the source.  [GrantStoreLaws] states what a grant store
    promises; [EngineSpec.held_promise_approves] is proved against it, and
    [VaultSpec], which proves that the vault keeps it, draws [promise_kept]
    from both.  [Engine.prompt] takes the
    verdict of the race as an argument; [Inflight] is the race itself, as a
    transition system over single steps of its goroutines, so that its theorems
    hold in every interleaving.

    A pairing goes through [Pairing] (which calls [Window], [Cpace], [Trust] and
    writes with [Settle.recordPending]) and then [Settle] and [Converge] on
    [Pairings]' store.  Calls between machines go through the classes
    [PairingServiceClient] and [Network], whose state is whatever is at the far
    end; the theorems about two machines instantiate them with the other
    machine's own handlers ([Pairing.listener], [Converge.wire]).

    The agent and the holder of a lent key ask through the classes [Approver]
    (with [ApproverLaws]) and [PeerEngine]; [AgentEngine] and [HolderEngine]
    discharge both with [Engine.submit], and their theorems speak of the log
    the engine keeps.  The handlers a peer calls work on [Access.node], which
    is the vault with whatever part of the node the component adds; the calls
    they make in turn are the classes [InboxPeers], [KeyPeers], [WakePeers],
    [KeyListPeers], [Requesters] and [FarSide], which act on the state here
    too, since other calls come in while one is out.  [FarSideLaws] says what
    of that state they leave in order.

    A signature of a commit goes from [SignCli] through the class [Machine]
    to [LocalApi], and from there through the classes of [Agent] and
    [SignedApprover]: [InstanceLaws] is what the program relies on,
    [over_the_socket_signs] discharges it from [RemoteLaws] and [StoreLaws],
    [BorrowerSpec.RemoteSign_signs] is the law of the borrowed half, and
    [LocalApiEngine] discharges the approver with [Engine.submit].

    What is one step where calls interleave is a stretch the source runs under
    one lock: in [Inflight] an offer to a late approver reads the handlers,
    reads the flights, looks at each and joins it in steps of their own, and in
    [Inbox] an entry is written down and its peer's polls woken in two.  The
    exceptions are two neighbouring locks where nothing can tell: landing a
    flight, which marks it settled and takes it out of the map (either of which
    keeps it from being joined), and a knock at the [Relay], which reads the
    registration and then pays.  One submission of [Engine] holds the policy,
    the handlers and the soft lock as they are while it runs.

    The calls of [Lock] run beside each other: each is a [Threads.prog], a run
    is a list of turns, and the theorems are about every such list.

    Stateful code is explicit state passing ([state W A]).  The engine's world
    and the vault read the clock, the source of randomness and the outcome of
    writing the encrypted document from streams, one element per call, so two
    readings of the clock are two values.  What the engine does to the outside
    (audit entries, notifications, uses recorded) is a trace in its world.

    ** What the theorems show

    - Deciding ([EngineSpec]): [approval_provenance] (every approval has a
      reason), [hard_rules] (what nobody can approve), [submit_accounted]
      (the log has the request first and the returned, signed decision last),
      [promises_follow_the_key], [grant_request_is_no_use],
      [ExtendGrant_spec], [QuietUntil_spec].
    - The race ([Inflight]): [race_invariant], [nobody_left_honest],
      [late_joiner].
    - The store ([VaultSpec]): [promise_kept] (a grant approves what it covers
      while it runs, whatever else is done to the store), [retraction_final]
      (for as long as a retraction is remembered) and [revoked_is_gone], over
      every later run of operations, [vault_wf_run] (bounds and uniqueness),
      [UsableEndorsements_spec], [UsableDelegations_spec],
      [RecordGrantUses_once].
    - What is shown and what is signed: [GitObject.Verify_spec],
      [splitObject_print], [Prompt.git_prompt_proven], [prompt_warns],
      [Classify_auth_strict], [Classify_auth_complete],
      [Classify_SigningBlob], [parseSessionBind_verified],
      [bindings_invariant], [context_spec].
    - Artifacts: [verified_artifacts], [signed_artifacts_verify],
      [prefixed_domains], [Sign_Verify].
    - Pairing: [Cpace.exchange_agrees] and [confirmation_binds] (the exchange
      completes, and an accepted confirmation binds everything it should),
      [typed_codes_read_back], [full_code_reads_back], [DecodeCode_valid],
      [proof_binds], [intent_settles_both] (codes and what they decide),
      [window_accounts], [spent_code_stays_spent], [attempts_run_out] (five
      guesses and no more), [nothing_before_proof], [pin_pairing_meets] (what a
      caller can do before and after it proved the code), [store_wf_run],
      [PutPendingPairing_spec], [SetPeerDirections_spec] (the store),
      [no_pairing_without_consent] (no trust record unless both said yes),
      [answers_meet], [last_answer_pairs], [one_turn_pairs],
      [refusal_is_delivered], [asked_is_told], [unreachable_changes_nothing]
      (the two sides converge), [tunnel_door], [relay_checked].
    - The agent ([ParkedSpec], [KnownHosts], [AgentSpec], [AgentEngine]):
      [parked_set_accounted], [parked_leaves_wiped], [LocalKeys_Take_spec],
      [expiry_spec], [parseKnownHosts_spec], [signature_only_when_approved],
      [login_context_proven], [agent_refines_parked],
      [signature_in_the_log] (what is signed stands in the log as approved),
      [forwarded_login_asks].
    - Between machines: [promises_come_signed], [report_touches_own],
      [reconcile_agrees], [retraction_reaches] ([PromisesSpec]);
      [one_peer_at_most_sixteen], [borrowed_signature_in_the_log]
      ([HolderSpec], [HolderEngine]); [announced_everywhere],
      [identifier_follows_the_relay] ([WakeupsSpec]); [Reconcile_spec],
      [SetBorrowedKeys_spec], [offered_can_be_asked] ([LendersSpec]);
      [waiters_are_polls], [parked_is_heard], [answers_are_the_approvers]
      ([InboxSpec]); [decided_once] ([CollectSpec]);
      [raised_clients_accounted], [failed_tunnel_held_back],
      [raises_are_paced] ([RaiseSpec]); [arrange_order], [callOver_reports]
      ([PathsSpec]); [borrowed_signature_sound], [first_decision_stands]
      ([BorrowerSpec]); [first_key_owns_the_id], [knocks_are_apart],
      [knock_gets_through] and [file_store_reopens] ([RelaySpec]).
    - An instance ([LockSpec]): [lock_refines] (the lock, seen from outside,
      is a small machine of states, in every interleaving),
      [calls_leave_no_trace], [approvers_follow_the_store],
      [a_lost_store_is_not_found].
    - A commit, from git's command line to the signature beside it:
      [finished_is_signed], [only_gits_lines_are_handed_over],
      [handed_over_reads_back] ([SignCliSpec]); [payload_is_what_is_signed]
      ([LocalApiSpec]); [commit_shown_is_commit_signed] ([LocalApiEngine]);
      [Parse_Armored] ([Armour]); [collected_context_verifies],
      [unmarked_diff_is_whole], [change_reads_back], [diff_stays_within]
      ([DiffSpec]).
    - The keys of the store ([KeyringSpec]): [ring_ok_run] (one key a
      fingerprint and a label, and bounded offers, in every run),
      [an_offer_is_no_key], [AcceptKeyOffer_spec], [bodyComment_reads_back].
    - Policy and promises: [globMatchBytes_correct],
      [globMatchBytes_terminates], [Evaluate_first_match],
      [destination_rule_needs_destination], [SetSignTimeout_spec],
      [MaxGrantTTL_spec], [promise_covers_exactly], [withRequestedTTL_spec],
      [extendPromise_spec].

    Where the code does not do what it means to, an [Example] evaluates the
    run that shows it: [registered_in_the_gap] and [same_identifier]
    ([Inflight]), [asserted_subject_is_unmarked] ([Prompt]),
    [long_report_counted_twice] and [revocation_lost_to_extension]
    ([VaultSpec]), [seventeenth_is_lost] and [shadowed_by_name] ([Pairings]),
    [unspecified_with_a_zone] ([Regions]), [called_off_on_one_side],
    [new_pairing_overwritten] and [old_client_key_stays] ([Settle]),
    [far_certificate_goes_at_once] and [promotion_leaves_a_copy]
    ([ParkedSpec]), [held_and_offered] and [named_like_a_fingerprint]
    ([KeyringSpec]), [forgotten_key_still_signs]
    ([AgentEngine]), [collected_uses_go_anywhere], [expired_account_is_lost],
    [revoking_loses_the_account], [delivered_revocation_stays_pending] and
    [finished_without_being_told] ([PromisesSpec]),
    [lost_withdrawal_is_never_repeated] and [dead_answer_forgets_new_route]
    ([WakeupsSpec]), [two_lenders_rewrite_every_time],
    [hidden_key_stays_offered], [moved_text_is_not_news] and
    [emptied_list_is_never_said_again] ([LendersSpec]),
    [parked_after_the_last_look] ([InboxSpec]), [two_deliveries_under_way] and
    [another_requester_gets_the_answer] ([CollectSpec]),
    [backoff_outlives_the_dwell] ([RaiseSpec]), [one_reader_at_a_time]
    ([BorrowerSpec]), [two_claims_of_one_id], [captured_call_pushes_again] and
    [newer_registration_is_forgotten] ([RelaySpec]),
    [seal_under_a_soft_lock], [seal_under_an_unlock], [locked_with_prompts],
    [second_store_is_never_wiped], [parked_through_the_seal] and
    [serving_a_node_that_is_gone] ([LockSpec]),
    [hunk_left_out_without_a_note], [path_taken_apart] and [totals_wrap]
    ([DiffSpec]), [second_file_is_dropped], [nothing_left_to_sign] and
    [dashed_file_becomes_a_flag] ([SignCliRuns]).

    ** Fuel and bounds

    The glob loop runs under [glob_fuel], quadratic in the pattern and the
    value; [globMatchBytes_terminates] proves that it always returns within it.
    The length prefix of [Cpace.leb128] runs under [leb_fuel], proved enough by
    [leb_fuel_enough], and reading an IPv6 address takes at most eight turns.
    A known_hosts file is read by [parse_lines] under its own length
    ([parse_lines_enough]), and [b32_groups] runs under the number of bits.
    The armour is wrapped under the number of its characters, which is more
    lines than it has.  Every other recursion is structural.  Lengths on the wire are read as 32-bit
    numbers, counters wrap at 2^32 as in the source, and durations and times are
    whole nanoseconds in [Z].

    ** Parameters

    Protobuf encoding is the class [Codec] and the SSH library the class [Ssh]
    (keys, fingerprints, signatures), each with its documented laws as separate
    classes; [Toy] instances of all of them make every theorem's witness a
    closed evaluation.  [Unicode] stands for the tables of package unicode and
    [LocalTime] for how a moment reads in the local time zone.  [Ristretto] is
    the group ristretto255 with its laws [RistrettoLaws] ([ToyGroup] instantiates
    it), [Hashes] the hash functions, and reading the JSON of a relay region list
    is an argument of the definitions that use it.  So are the parser of one
    line of a known_hosts file ([KnownHostsParser]), what the operating system
    says of a process ([HostSystem], [Process]), the private keys of the SSH
    library ([PrivateKeys]), the URL parser ([UrlParser]) and a relay's answer
    ([Relay]), the push services and the disk of the relay itself
    ([DeviceStore]), what reads and writes private keys as files
    ([KeyFiles]) and the device's own gate ([SignGate]), the output of git for
    a list of arguments - [DiffSpec.git_diff] describes, as git documents them,
    the diffs [change_reads_back] is about -, and the files,
    the socket and the program handed over to around a run of the signing
    program ([Machine]).  How opening and creating the store and starting the
    listener end is given to each call of [Lock].  What happens during the race for a path is a list of events,
    and what comes in while a request is parked a list of calls.

    ** What is not modelled

    User interfaces and the mobile bridge; network transport, discovery and
    tunnels beyond who is let in and how they are raised and preferred; the
    presence stream that moves a link from path to path; the encryption of the
    store, how key files are parsed and encrypted, hardware keys, and the calls
    between machines that carry a key; reading and rendering project files;
    generated code.  A project that an outgoing request would publish on its
    way is left out of [Borrower.outgoing], and the line a slow answer makes
    the signing program print out of [SignCli]. *)

From Stdlib Require Export String Ascii.
From Stdlib Require Export Strings.Byte.
From stdpp Require Export base tactics list gmap strings pretty.
From Stdlib Require Export ZArith Lia.

(** [naive_solver] clears hypotheses it has already consumed. *)
#[export] Set Warnings "-clear-no-such-hyp".

Declare Scope ladulas_scope.
Delimit Scope ladulas_scope with L.

(** ** Go values with an error

    A Go error is what a caller can observe of it: the text [Error()] renders
    and the sentinels [errors.Is] finds in its [Unwrap] tree. *)

Record error := mk_error {
  e_msg : string;
  e_is : list string
}.

#[export] Instance error_eq_dec : EqDecision error.
Proof. solve_decision. Defined.

(** [errors.New] of a message that nobody compares with [errors.Is]. *)
Definition errors_New (msg : string) : error := mk_error msg [].

(** A package-level sentinel: [var ErrX = errors.New(msg)]. *)
Definition sentinel (name msg : string) : error := mk_error msg [name].

(** [fmt.Errorf(pre + "%w" + post, err)]. *)
Definition wrap_w (pre : string) (e : error) (post : string) : error :=
  mk_error (pre +:+ e_msg e +:+ post) (e_is e).

(** [fmt.Errorf("%w" + mid + "%w", err1, err2)]. *)
Definition wrap_ww (e1 : error) (mid : string) (e2 : error) : error :=
  mk_error (e_msg e1 +:+ mid +:+ e_msg e2) (e_is e1 ++ e_is e2).

(** [errors.Is(err, target)] for a sentinel target. *)
Definition errors_Is (e target : error) : bool :=
  match e_is target with
  | [n] => bool_decide (n ∈ e_is e)
  | _ => bool_decide (e = target)
  end.

Inductive result (A : Type) : Type :=
| Ok (a : A)
| Err (e : error).
Arguments Ok {A} a.
Arguments Err {A} e.

#[export] Instance result_ret : MRet result := fun A a => Ok a.
#[export] Instance result_bind : MBind result := fun A B f r =>
  match r with Ok a => f a | Err e => Err e end.
#[export] Instance result_fmap : FMap result := fun A B f r =>
  match r with Ok a => Ok (f a) | Err e => Err e end.

(** Turn the error of a call into a wrapped one: the ubiquitous
    [if err != nil { return nil, fmt.Errorf("ctx: %w", err) }]. *)
Definition err_ctx {A} (pre : string) (r : result A) : result A :=
  match r with Ok a => Ok a | Err e => Err (wrap_w pre e EmptyString) end.

Definition is_ok {A} (r : result A) : bool :=
  match r with Ok _ => true | Err _ => false end.

Lemma result_bind_Ok {A B} (f : A -> result B) (r : result A) b :
  r ≫= f = Ok b <-> exists a, r = Ok a /\ f a = Ok b.
Proof.
  destruct r; split; [eauto| |intros [=]|]; cbn; intros (? & [=] & ?).
  by subst.
Qed.

Lemma err_ctx_Ok {A} pre (r : result A) a : err_ctx pre r = Ok a <-> r = Ok a.
Proof. destruct r; cbn; naive_solver. Qed.

(** ** Explicit state *)

Definition state (W A : Type) : Type := W -> A * W.

#[export] Instance state_ret W : MRet (state W) := fun A a w => (a, w).
#[export] Instance state_bind W : MBind (state W) := fun A B f m w =>
  let '(a, w') := m w in f a w'.
#[export] Instance state_fmap W : FMap (state W) := fun A B f m w =>
  let '(a, w') := m w in (f a, w').

Definition gets {W A} (f : W -> A) : state W A := fun w => (f w, w).
Definition modify {W} (f : W -> W) : state W unit := fun w => (tt, f w).
Definition when {W} (b : bool) (m : state W unit) : state W unit :=
  if b then m else mret tt.

Lemma state_bind_unfold {W A B} (m : state W A) (f : A -> state W B) w :
  (m ≫= f) w = f (m w).1 (m w).2.
Proof. unfold mbind, state_bind. by destruct (m w). Qed.

(** A run, by what it answers. *)
Lemma first_is {A B} (x : A * B) a : x.1 = a -> x = (a, x.2).
Proof. intros <-. apply surjective_pairing. Qed.

(** Two states side by side: what runs here, and what runs at the far end. *)
Definition here {W V A} (m : state W A) : state (W * V) A := fun '(w, v) =>
  let '(a, w') := m w in (a, (w', v)).
Definition there {W V A} (m : state V A) : state (W * V) A := fun '(w, v) =>
  let '(a, v') := m v in (a, (w, v')).

Lemma here_at {W V A} (m : state W A) w (v : V) a w' :
  m w = (a, w') -> here m (w, v) = (a, (w', v)).
Proof. intros Hm. unfold here. by rewrite Hm. Qed.
Lemma there_at {W V A} (m : state V A) (w : W) v a v' :
  m v = (a, v') -> there m (w, v) = (a, (w, v')).
Proof. intros Hm. unfold there. by rewrite Hm. Qed.

(** ** Tactics *)

(** Split a boolean conjunction or disjunction in a hypothesis into
    propositions. *)
Ltac bool_prop :=
  repeat match goal with
  | H : _ && _ = true |- _ => apply andb_true_iff in H as [? ?]
  | H : _ || _ = false |- _ => apply orb_false_iff in H as [? ?]
  | H : negb _ = true |- _ => apply negb_true_iff in H
  | H : negb _ = false |- _ => apply negb_false_iff in H
  | H : bool_decide _ = true |- _ => apply bool_decide_eq_true in H
  | H : bool_decide _ = false |- _ => apply bool_decide_eq_false in H
  | H : ~ (_ <> _) |- _ => apply dec_stable in H
  | H : (_ <? _)%Z = true |- _ => apply Z.ltb_lt in H
  | H : (_ <? _)%Z = false |- _ => apply Z.ltb_ge in H
  | H : (_ <=? _)%Z = true |- _ => apply Z.leb_le in H
  | H : (_ <=? _)%Z = false |- _ => apply Z.leb_gt in H
  | H : (_ =? _)%Z = true |- _ => apply Z.eqb_eq in H
  | H : (_ =? _)%Z = false |- _ => apply Z.eqb_neq in H
  end.

(** [lia] with division and modulo by constants. *)
Ltac euclid := Z.to_euclidean_division_equations; lia.

(** Case on every match of the goal, keeping the equations. *)
Ltac cases := repeat (case_match; simplify_eq/=; try done).

(** Run a block of [state] down to what it does to the state. *)
Ltac run_state :=
  cbv [mbind state_bind mret state_ret gets modify when]; cbn.

(** Invert a chain of [result] binds that returned a value. *)
Ltac ok_inv :=
  repeat match goal with
  | H : (_ ≫= _) = Ok _ |- _ => apply result_bind_Ok in H as (? & ? & ?)
  | H : err_ctx _ _ = Ok _ |- _ => apply err_ctx_Ok in H
  | H : Ok _ = Ok _ |- _ => injection H as H
  | H : Err _ = Ok _ |- _ => discriminate H
  | H : mret _ = Ok _ |- _ => injection H as H
  end.

Create HintDb ladulas discriminated.
Create Rewrite HintDb ladulas.

(** ** Lists *)

Section Lists.
Context {A : Type}.
Implicit Types (l : list A) (p : A -> bool).

(** The first element a boolean test accepts: the shape of every
    [for _, x := range xs { if ... { return x } }] of the source. *)
Fixpoint find_first p l : option A :=
  match l with
  | [] => None
  | x :: l' => if p x then Some x else find_first p l'
  end.

Lemma find_first_Some p l x :
  find_first p l = Some x <->
  exists l1 l2, l = l1 ++ x :: l2 /\ p x = true /\ Forall (fun y => p y = false) l1.
Proof.
  revert x. induction l as [|y l IH]; intros x; cbn.
  { split; [done|]. intros (l1 & l2 & H & _). by destruct l1. }
  destruct (p y) eqn:Hy.
  - split.
    + intros [= ->]. exists [], l. eauto.
    + intros ([|z l1] & l2 & [=] & Hx & Hf); subst; [done|].
      apply Forall_cons in Hf as [? _]. congruence.
  - rewrite IH. split.
    + intros (l1 & l2 & -> & Hx & Hf). exists (y :: l1), l2. auto.
    + intros ([|z l1] & l2 & [=] & Hx & Hf); subst; [congruence|].
      apply Forall_cons in Hf as [_ ?]. eauto 10.
Qed.

Lemma find_first_None p l :
  find_first p l = None <-> Forall (fun y => p y = false) l.
Proof.
  induction l as [|y l IH]; cbn; [split; [constructor|done]|].
  rewrite Forall_cons. destruct (p y); [|naive_solver].
  split; [done|]. by intros [[=] _].
Qed.

Lemma find_first_elem p l x : find_first p l = Some x -> x ∈ l /\ p x = true.
Proof.
  intros (l1 & l2 & -> & Hp & _)%find_first_Some. split; [|done].
  apply elem_of_app. right. left.
Qed.

Lemma find_first_snoc p l x :
  find_first p (l ++ [x]) = match find_first p l with Some y => Some y | None => if p x then Some x else None end.
Proof. induction l as [|y l IH]; cbn; [done|]. by destruct (p y). Qed.

Lemma elem_of_filter_bool p l x : x ∈ List.filter p l <-> x ∈ l /\ p x = true.
Proof. by rewrite !list_elem_of_In, filter_In. Qed.

Lemma filter_all p l : existsb (fun x => negb (p x)) l = false -> List.filter p l = l.
Proof.
  induction l as [|x l IH]; cbn; [done|]. intros Hx. apply orb_false_iff in Hx as [Hn Hx]. apply negb_false_iff in Hn. by rewrite Hn, IH.
Qed.

Lemma forallb_elem p l : forallb p l = true <-> forall x, x ∈ l -> p x = true.
Proof.
  rewrite forallb_forall. setoid_rewrite list_elem_of_In. done.
Qed.

Lemma existsb_elem p l : existsb p l = true <-> exists x, x ∈ l /\ p x = true.
Proof.
  rewrite existsb_exists. setoid_rewrite list_elem_of_In. done.
Qed.

End Lists.

#[export] Hint Resolve find_first_elem : ladulas.
