(* ===== verification/Rules.v ===== *)
(** * Rules: program logic for what a computation leaves alone

    Many facts about a stateful operation relate the state it starts in to the
    state it ends in by a relation that is reflexive and transitive: a field
    unchanged, a log that only grows, a component that moved only by its own
    operations.  [respects R m] says so of a computation; its rules follow the
    structure of the computation, and the tactic [follow] applies them, leaving
    the operations with lemmas of their own to the hint database [respects]. *)

From S2P Require Import Prelude.

Section Respects.
Context {W : Type} (R : relation W).

Definition respects {A} (m : state W A) : Prop := forall w, R w (m w).2.

Context `{!PreOrder R}.

Lemma respects_ret {A} (a : A) : respects (mret a).
Proof. intros w. reflexivity. Qed.

Lemma respects_gets {A} (f : W -> A) : respects (gets f).
Proof. intros w. reflexivity. Qed.

Lemma respects_bind {A B} (m : state W A) (f : A -> state W B) :
  respects m -> (forall a, respects (f a)) -> respects (m ≫= f).
Proof. intros Hm Hf w. rewrite state_bind_unfold. etrans; [apply Hm|apply Hf]. Qed.

Lemma respects_when b (m : state W unit) : respects m -> respects (when b m).
Proof. destruct b; [done|]. intros _. apply respects_ret. Qed.

Lemma respects_modify (f : W -> W) : (forall w, R w (f w)) -> respects (modify f).
Proof. intros Hf w. apply Hf. Qed.

End Respects.

Lemma respects_mono {W A} (R R' : relation W) (m : state W A) :
  (forall w w', R w w' -> R' w w') -> respects R m -> respects R' m.
Proof. intros Hr Hm w. apply Hr, Hm. Qed.

Lemma respects_both {W A} (R R' : relation W) (m : state W A) :
  respects R m -> respects R' m -> respects (fun w w' => R w w' /\ R' w w') m.
Proof. intros Hm Hm' w. split; [apply Hm|apply Hm']. Qed.

(** A field that does not change. *)
Definition same {W B} (f : W -> B) : relation W := fun w w' => f w' = f w.

#[export] Instance same_preorder {W B} (f : W -> B) : PreOrder (same f).
Proof. split; unfold same; [done|]. intros x y z Hxy Hyz. by rewrite Hyz. Qed.

(** A log that only grows. *)
Definition grows {W E} (f : W -> list E) : relation W := fun w w' => f w `prefix_of` f w'.

#[export] Instance grows_preorder {W E} (f : W -> list E) : PreOrder (grows f).
Proof. split; unfold grows; [intros x; reflexivity|]. intros x y z Hxy Hyz. by etrans. Qed.

Create HintDb respects.
#[export] Hint Resolve respects_ret respects_gets respects_when : respects.
#[export] Hint Extern 1 (respects _ (modify _)) => apply respects_modify; intros ?; reflexivity : respects.

(** Follow a computation through its binds and branches. *)
Ltac follow :=
  repeat match goal with
  | |- respects _ (_ ≫= _) => apply respects_bind; [try apply _|..|intros ?]
  | |- respects _ (when _ _) => apply respects_when; [try apply _|]
  | |- respects _ (match ?x with _ => _ end) => destruct x
  | |- respects _ (if ?x then _ else _) => destruct x
  | |- respects _ _ => solve [eauto with respects typeclass_instances]
  end.
