(* ===== verification/Sorting.v ===== *)
(** * Sorting: [sort.SliceStable] and [sort.Slice]

    The standard library's sorts, by their contract: a stable insertion sort.
    [sort.Slice] may put equals in any order; the model keeps theirs, and no
    theorem depends on it. *)

From S2P Require Import Prelude.
From stdpp Require Import sorting.

Section StableSort.
Context {A : Type} (less : A -> A -> bool).

(** [x] goes in front of the first element it is not above, so that equals
    keep their order when the list is sorted from the right. *)
Fixpoint sort_insert (x : A) (l : list A) : list A :=
  match l with
  | [] => [x]
  | y :: l' => if less y x then y :: sort_insert x l' else x :: l
  end.

Definition SliceStable (l : list A) : list A := foldr sort_insert [] l.

Lemma sort_insert_perm x l : sort_insert x l ≡ₚ x :: l.
Proof.
  induction l as [|y l IH]; cbn; [done|]. destruct (less y x); [|done].
  rewrite IH. apply Permutation_swap.
Qed.

Lemma SliceStable_perm l : SliceStable l ≡ₚ l.
Proof. induction l as [|x l IH]; cbn; [done|]. by rewrite sort_insert_perm, IH. Qed.

(** The order of a sorted list: nothing later is below. *)
Definition not_above (x y : A) : Prop := less y x = false.

Lemma sort_insert_sorted `{!Transitive not_above} x l :
  (forall x y, less x y = true -> not_above x y) ->
  StronglySorted not_above l -> StronglySorted not_above (sort_insert x l).
Proof.
  intros Hasym. induction 1 as [|y l Hl IH Hy]; cbn; [by repeat constructor|].
  destruct (less y x) eqn:E.
  - constructor; [done|]. apply Forall_forall. intros z Hz.
    rewrite sort_insert_perm in Hz. apply elem_of_cons in Hz as [->|Hz]; [by apply Hasym|].
    by eapply Forall_forall in Hy.
  - constructor; [by constructor|]. constructor; [done|]. eapply Forall_impl; [exact Hy|].
    intros z Hz. by transitivity y.
Qed.

Lemma SliceStable_sorted `{!Transitive not_above} l :
  (forall x y, less x y = true -> not_above x y) -> StronglySorted not_above (SliceStable l).
Proof.
  intros Hasym. induction l as [|x l IH]; cbn; [constructor|]. by apply sort_insert_sorted.
Qed.

End StableSort.
