(* ===== verification/GoText.v ===== *)
(** * GoText: the parts of the Go language and standard library the source
    relies on

    Byte slices are [bytes], Go strings are [string] (a Go string is a byte
    sequence, and so is a Rocq [string]).  The file holds the conversions
    between them, [range]-style rune decoding, the functions of package
    [strings] and [strconv] the modelled code calls, fixed-width integers,
    and [time.Duration] / [time.Time].

    The Unicode tables of package [unicode] are the only part taken as an
    interface (the class [Unicode]): every theorem holds for any table that
    treats ASCII the way ASCII is treated. *)

From S2P Require Import Prelude.

Local Open Scope Z_scope.

(** ** Fixed-width integers *)

Definition u8 (z : Z) : Z := z mod 2 ^ 8.
Definition u32 (z : Z) : Z := z mod 2 ^ 32.
Definition wrap_signed (w z : Z) : Z := (z + 2 ^ (w - 1)) mod 2 ^ w - 2 ^ (w - 1).
Definition i32 (z : Z) : Z := wrap_signed 32 z.
Definition i64 (z : Z) : Z := wrap_signed 64 z.

Lemma wrap_signed_id w z :
  0 < w -> - 2 ^ (w - 1) <= z < 2 ^ (w - 1) -> wrap_signed w z = z.
Proof.
  intros Hw Hz. unfold wrap_signed.
  assert (2 ^ w = 2 * 2 ^ (w - 1)) by (rewrite <- Z.pow_succ_r; [f_equal|]; lia).
  rewrite Z.mod_small; lia.
Qed.

Lemma i32_small z : - 2 ^ 31 <= z < 2 ^ 31 -> i32 z = z.
Proof. intros. by apply wrap_signed_id. Qed.

Lemma i64_small z : - 2 ^ 63 <= z < 2 ^ 63 -> i64 z = z.
Proof. intros. by apply wrap_signed_id. Qed.

(** ** Time

    A [time.Duration] is an int64 of nanoseconds.  A [time.Time] is the
    number of nanoseconds since the Unix epoch, unbounded: the year range of
    Go's representation is never reached.  The zero [time.Time] is the year
    1, and a nil protobuf timestamp reads as the epoch. *)

Definition duration := Z.
Definition time := Z.

Definition Nanosecond : duration := 1.
Definition Millisecond : duration := 1000000.
Definition Second : duration := 1000000000.
Definition Minute : duration := 60 * Second.
Definition Hour : duration := 60 * Minute.

Definition zero_time : time := - (62135596800 * Second).
Definition IsZero (t : time) : bool := t =? zero_time.
(** [t.After(u)]. *)
Definition After (t u : time) : bool := u <? t.
Definition Add (t : time) (d : duration) : time := t + d.
(** [t.Sub(u)] saturates at the ends of the int64 range. *)
Definition Sub (t u : time) : duration :=
  Z.max (- 2 ^ 63) (Z.min (2 ^ 63 - 1) (t - u)).
Definition Unix (t : time) : Z := t / Second.

(** [AsTime] and [AsDuration] on a possibly nil message. *)
Definition AsTime (t : option time) : time := default 0 t.
Definition AsDuration (d : option duration) : duration := default 0 d.

Lemma After_spec t u : After t u = true <-> u < t.
Proof. apply Z.ltb_lt. Qed.

(** ** Bytes and strings *)

Abbreviation bytes := (list byte).

Definition byte_val (b : byte) : Z := Z.of_N (Byte.to_N b).
Definition byte_of (z : Z) : byte :=
  match Byte.of_N (Z.to_N (z mod 256)) with Some b => b | None => x00 end.

Lemma byte_val_range b : 0 <= byte_val b < 256.
Proof. unfold byte_val. pose proof (Byte.to_N_bounded b). lia. Qed.

Lemma byte_of_val b : byte_of (byte_val b) = b.
Proof.
  unfold byte_of. rewrite Z.mod_small by apply byte_val_range.
  unfold byte_val. rewrite N2Z.id, Byte.of_to_N. done.
Qed.

Lemma byte_val_of z : byte_val (byte_of z) = z mod 256.
Proof.
  unfold byte_of, byte_val. pose proof (Z.mod_pos_bound z 256 eq_refl).
  destruct (Byte.of_N _) as [b|] eqn:Hb.
  - apply Byte.to_of_N in Hb. rewrite Hb. lia.
  - apply Byte.of_N_None_iff in Hb. lia.
Qed.

Lemma byte_of_eq_val z b : byte_val b = z -> b = byte_of z.
Proof. intros <-. by rewrite byte_of_val. Qed.

(** [string(b)] and [[]byte(s)]. *)
Definition to_string : bytes -> string := string_of_list_byte.
Definition of_string : string -> bytes := list_byte_of_string.

Lemma to_of_string s : to_string (of_string s) = s.
Proof. apply string_of_list_byte_of_string. Qed.

Lemma of_to_string b : of_string (to_string b) = b.
Proof. apply list_byte_of_string_of_list_byte. Qed.

#[export] Hint Rewrite to_of_string of_to_string : ladulas.

#[export] Instance to_string_inj : Inj (=) (=) to_string.
Proof. intros a b H. by rewrite <- (of_to_string a), H, of_to_string. Qed.

#[export] Instance byte_eq_dec : EqDecision byte := Byte.byte_eq_dec.

(** The double quote, the new line and the empty string as values. *)
Definition dquote : string := String (ascii_of_N 34) EmptyString.
Definition nl : string := String (ascii_of_N 10) EmptyString.
Definition emp : string := EmptyString.

(** [fmt.Sprintf("%d", n)]. *)
Definition itoa (n : Z) : string := pretty n.

(** A byte in lower-case hexadecimal, [%x] of a slice. *)
Definition hex_digit (n : Z) : ascii :=
  ascii_of_N (Z.to_N (if n <? 10 then 48 + n else 87 + n)).
Definition hex_byte (b : byte) : string :=
  String (hex_digit (byte_val b / 16)) (String (hex_digit (byte_val b mod 16)) EmptyString).
Definition hex (b : bytes) : string := foldr (fun x s => hex_byte x +:+ s) emp b.

(** ** Runes *)

Definition rune := Z.
Definition RuneError : rune := 65533.

Definition is_cont (b : Z) : bool := (128 <=? b) && (b <=? 191).
Definition in_range (lo hi b : Z) : bool := (lo <=? b) && (b <=? hi).

(** One pass of [for _, r := range s]: each rune with the bytes it was read
    from.  An invalid byte reads as U+FFFD and consumes one byte; the second
    byte of three- and four-byte sequences is restricted so that surrogates,
    overlong forms and values past U+10FFFF are invalid. *)
Fixpoint segments (l : bytes) : list (rune * bytes) :=
  match l with
  | [] => []
  | a :: l1 =>
    let x := byte_val a in
    if x <? 128 then (x, [a]) :: segments l1 else
    match l1 with
    | b :: l2 =>
      let y := byte_val b in
      if in_range 194 223 x && is_cont y
      then (Z.lor (Z.shiftl (Z.land x 31) 6) (Z.land y 63), [a; b]) :: segments l2 else
      match l2 with
      | c :: l3 =>
        let z := byte_val c in
        if ((x =? 224) && in_range 160 191 y || in_range 225 236 x && is_cont y
            || (x =? 237) && in_range 128 159 y || in_range 238 239 x && is_cont y)
           && is_cont z
        then (Z.lor (Z.shiftl (Z.land x 15) 12)
               (Z.lor (Z.shiftl (Z.land y 63) 6) (Z.land z 63)), [a; b; c]) :: segments l3 else
        match l3 with
        | d :: l4 =>
          let w := byte_val d in
          if ((x =? 240) && in_range 144 191 y || in_range 241 243 x && is_cont y
              || (x =? 244) && in_range 128 143 y)
             && is_cont z && is_cont w
          then (Z.lor (Z.shiftl (Z.land x 7) 18)
                 (Z.lor (Z.shiftl (Z.land y 63) 12)
                   (Z.lor (Z.shiftl (Z.land z 63) 6) (Z.land w 63))), [a; b; c; d]) :: segments l4
          else (RuneError, [a]) :: segments l1
        | [] => (RuneError, [a]) :: segments l1
        end
      | [] => (RuneError, [a]) :: segments l1
      end
    | [] => (RuneError, [a]) :: segments l1
    end
  end.

(** [[]rune(s)]. *)
Definition runes (s : string) : list rune := map fst (segments (of_string s)).

Definition cont_byte (r shift : Z) : byte := byte_of (Z.lor 128 (Z.land (Z.shiftr r shift) 63)).

(** [utf8.AppendRune]: surrogates and out-of-range runes encode U+FFFD. *)
Definition encode_rune (r : rune) : bytes :=
  let r := if (r <? 0) || in_range 55296 57343 r || (1114111 <? r) then RuneError else r in
  if r <? 128 then [byte_of r]
  else if r <? 2048 then [byte_of (Z.lor 192 (Z.shiftr r 6)); cont_byte r 0]
  else if r <? 65536
  then [byte_of (Z.lor 224 (Z.shiftr r 12)); cont_byte r 6; cont_byte r 0]
  else [byte_of (Z.lor 240 (Z.shiftr r 18)); cont_byte r 12; cont_byte r 6; cont_byte r 0].

(** A string that is pure ASCII decodes to its bytes. *)
Definition ascii_only (l : bytes) : Prop := Forall (fun b => byte_val b < 128) l.

Lemma segments_ascii l :
  ascii_only l -> segments l = map (fun b => (byte_val b, [b])) l.
Proof.
  induction 1 as [|b l Hb _ IH]; [done|]. cbn [segments map].
  rewrite (proj2 (Z.ltb_lt _ _) Hb). by rewrite IH.
Qed.

Lemma encode_rune_ascii r : 0 <= r < 128 -> encode_rune r = [byte_of r].
Proof.
  intros Hr. unfold encode_rune, in_range, RuneError.
  destruct (r <? 0) eqn:?; [lia|]. destruct (1114111 <? r) eqn:?; [lia|].
  destruct (55296 <=? r) eqn:?; [lia|]. cbn.
  by rewrite (proj2 (Z.ltb_lt _ _) (proj2 Hr)).
Qed.

(** ** Package [unicode] *)

Definition ascii_lower (r : rune) : rune := if in_range 65 90 r then r + 32 else r.

(** The tables of package [unicode] the source reaches through [strings] and
    [strconv]; the laws say they agree with ASCII where ASCII applies. *)
Class Unicode := {
  uni_lower : rune -> rune;
  uni_is_print : rune -> bool;
  (** one rune of each orbit of [unicode.SimpleFold] *)
  uni_fold : rune -> rune;
  uni_fold_ascii r : 0 <= r < 128 -> uni_fold r = ascii_lower r;
  uni_lower_ascii r : 0 <= r < 128 -> uni_lower r = ascii_lower r;
  uni_is_print_ascii r : 0 <= r < 128 -> uni_is_print r = in_range 32 126 r
}.

(** An instance that knows nothing past ASCII, for concrete evaluation. *)
#[export] Program Instance AsciiUnicode : Unicode | 100 := {|
  uni_lower := ascii_lower;
  uni_is_print := in_range 32 126;
  uni_fold := ascii_lower
|}.
Solve Obligations with done.

Definition is_space (r : rune) : bool :=
  in_range 9 13 r || (r =? 32) || (r =? 133) || (r =? 160) || (r =? 5760)
  || in_range 8192 8202 r || (r =? 8232) || (r =? 8233) || (r =? 8239)
  || (r =? 8287) || (r =? 12288).

(** ** Package [strings] *)

Definition seg_bytes (l : list (rune * bytes)) : bytes := concat (map snd l).

Fixpoint drop_while {A} (p : A -> bool) (l : list A) : list A :=
  match l with
  | [] => []
  | x :: l' => if p x then drop_while p l' else l
  end.

(** [strings.TrimSpace]. *)
Definition TrimSpace (s : string) : string :=
  let sp (x : rune * bytes) := is_space x.1 in
  to_string (seg_bytes (rev (drop_while sp (rev (drop_while sp (segments (of_string s))))))).

(** [strings.ToLower]. *)
Definition ToLower `{Unicode} (s : string) : string :=
  to_string (concat (map (fun x => encode_rune (uni_lower x.1)) (segments (of_string s)))).

(** [strings.EqualFold]. *)
Definition EqualFold `{Unicode} (s t : string) : bool :=
  bool_decide (map uni_fold (runes s) = map uni_fold (runes t)).

Fixpoint HasPrefix (s prefix : string) : bool :=
  match prefix, s with
  | EmptyString, _ => true
  | String a p, String b s' => bool_decide (a = b) && HasPrefix s' p
  | _, EmptyString => false
  end.

(** [strings.TrimPrefix]. *)
Fixpoint TrimPrefix_ (s prefix : string) : string :=
  match prefix, s with
  | EmptyString, _ => s
  | String _ p, String _ s' => TrimPrefix_ s' p
  | _, EmptyString => s
  end.
Definition TrimPrefix (s prefix : string) : string :=
  if HasPrefix s prefix then TrimPrefix_ s prefix else s.

(** [strings.Cut] at a one-byte separator. *)
Fixpoint Cut (s : string) (sep : ascii) : option (string * string) :=
  match s with
  | EmptyString => None
  | String c s' =>
    if bool_decide (c = sep) then Some (EmptyString, s')
    else '(a, b) ← Cut s' sep; Some (String c a, b)
  end.

(** [len(s)], [s[i:]] and [s[:i]]. *)
Definition str_len (s : string) : Z := Z.of_nat (String.length s).
Definition from_ (i : nat) (s : string) : string := String.substring i (String.length s - i) s.
Definition upto (i : nat) (s : string) : string := String.substring 0 i s.

(** [s[:i]] and [s[i:]] for [i = strings.Index(s, sub)]. *)
Fixpoint CutAt (s sub : string) : option (string * string) :=
  if HasPrefix s sub then Some (emp, s)
  else
    match s with
    | EmptyString => None
    | String c s' => '(a, b) ← CutAt s' sub; Some (String c a, b)
    end.

(** [strings.Split] at a one-byte separator: always at least one piece. *)
Fixpoint Split (s : string) (sep : ascii) : list string :=
  match s with
  | EmptyString => [EmptyString]
  | String c s' =>
    if bool_decide (c = sep) then EmptyString :: Split s' sep
    else match Split s' sep with
         | p :: ps => String c p :: ps
         | [] => [String c EmptyString]
         end
  end.

(** [strings.Join]. *)
Definition Join (l : list string) (sep : string) : string :=
  match l with
  | [] => EmptyString
  | x :: l' => x +:+ foldr (fun y acc => sep +:+ y +:+ acc) EmptyString l'
  end.

(** Split at the last occurrence of a byte: [s[:i]] and [s[i+1:]] for
    [i = strings.LastIndex(s, sep)]. *)
Fixpoint CutLast (s : string) (sep : ascii) : option (string * string) :=
  match s with
  | EmptyString => None
  | String c s' =>
    match CutLast s' sep with
    | Some (a, b) => Some (String c a, b)
    | None => if bool_decide (c = sep) then Some (EmptyString, s') else None
    end
  end.

(** [strings.Fields]: runs of non-space runes. *)
Fixpoint fields_aux (l : list (rune * bytes)) (cur : bytes) : list string :=
  match l with
  | [] => match cur with [] => [] | _ => [to_string cur] end
  | (r, b) :: l' =>
    if is_space r
    then match cur with [] => fields_aux l' [] | _ => to_string cur :: fields_aux l' [] end
    else fields_aux l' (cur ++ b)
  end.
Definition Fields (s : string) : list string := fields_aux (segments (of_string s)) [].

(** ** Package [strconv] *)

Definition hex_fixed (n : nat) (v : Z) : string :=
  foldr (fun k acc => String (hex_digit (Z.land (Z.shiftr v (4 * Z.of_nat k)) 15)) acc)
    EmptyString (rev (seq 0 n)).

(** One rune of [strconv.Quote]. *)
Definition quote_rune `{Unicode} (x : rune * bytes) : string :=
  let '(r, b) := x in
  let esc (c : string) := String (ascii_of_N 92) c in
  if (r =? RuneError) && bool_decide (length b = 1%nat)
  then esc ("x" +:+ hex b)
  else if (r =? 34) || (r =? 92) then esc (to_string b)
  else if uni_is_print r then to_string b
  else if r =? 7 then esc "a" else if r =? 8 then esc "b"
  else if r =? 12 then esc "f" else if r =? 10 then esc "n"
  else if r =? 13 then esc "r" else if r =? 9 then esc "t"
  else if r =? 11 then esc "v"
  else if (r <? 32) || (r =? 127) then esc ("x" +:+ hex_fixed 2 r)
  else if r <? 65536 then esc ("u" +:+ hex_fixed 4 r)
  else esc ("U" +:+ hex_fixed 8 r).

(** [fmt.Sprintf("%q", s)]. *)
Definition quote `{Unicode} (s : string) : string :=
  dquote +:+ foldr (fun x acc => quote_rune x +:+ acc) EmptyString (segments (of_string s))
  +:+ dquote.

(** [strconv.ParseInt(s, 10, 64)]: an optional sign, at least one digit, and
    nothing else. *)
Definition is_digit (c : ascii) : bool := (48 <=? N_of_ascii c)%N && (N_of_ascii c <=? 57)%N.

Definition ErrSyntax : error := sentinel "strconv.ErrSyntax" "invalid syntax".
Definition ErrRange : error := sentinel "strconv.ErrRange" "value out of range".

(** [strconv.ParseUint(s, 10, 64)] past the empty check: the first character
    that is no digit, or the first that takes the value past 64 bits, decides
    the error. *)
Fixpoint digits_val (s : string) (acc : Z) : result Z :=
  match s with
  | EmptyString => Ok acc
  | String c s' =>
    if is_digit c
    then
      let acc' := 10 * acc + (Z.of_N (N_of_ascii c) - 48) in
      if acc' <? 2 ^ 64 then digits_val s' acc' else Err ErrRange
    else Err ErrSyntax
  end.

Definition ParseInt64 `{Unicode} (s : string) : result Z :=
  let fail e := Err (wrap_w ("strconv.ParseInt: parsing " +:+ quote s +:+ ": ") e emp) in
  let '(neg, digits) :=
    match s with
    | String c s' =>
      if bool_decide (c = "-"%char) then (true, s')
      else if bool_decide (c = "+"%char) then (false, s') else (false, s)
    | EmptyString => (false, s)
    end in
  if bool_decide (digits = EmptyString) then fail ErrSyntax
  else
    match digits_val digits 0 with
    | Err e => fail e
    | Ok n =>
      let z := if neg then - n else n in
      if (- 2 ^ 63 <=? z) && (z <? 2 ^ 63) then Ok z else fail ErrRange
    end.

(** Big-endian uint32, [binary.BigEndian.PutUint32] and [Uint32]. *)
Definition put_u32 (n : Z) : bytes :=
  [byte_of (Z.shiftr n 24); byte_of (Z.shiftr n 16); byte_of (Z.shiftr n 8); byte_of n].

Definition get_u32 (b : bytes) : Z :=
  match b with
  | [b0; b1; b2; b3] =>
    Z.lor (Z.shiftl (byte_val b0) 24) (Z.lor (Z.shiftl (byte_val b1) 16)
      (Z.lor (Z.shiftl (byte_val b2) 8) (byte_val b3)))
  | _ => 0
  end.

(** ** [time.Duration.String] *)

Definition digit (n : Z) : string := String (ascii_of_N (Z.to_N (48 + n))) EmptyString.

(** The digits of a fraction, most significant first, without its trailing
    zeros. *)
Fixpoint frac_digits (prec : nat) (f : Z) : string :=
  match prec with
  | O => EmptyString
  | S p =>
    if f =? 0 then EmptyString
    else digit (f / 10 ^ Z.of_nat p) +:+ frac_digits p (f mod 10 ^ Z.of_nat p)
  end.

Definition fmt_frac (v : Z) (prec : nat) : string :=
  let f := v mod 10 ^ Z.of_nat prec in
  itoa (v / 10 ^ Z.of_nat prec) +:+
  (if f =? 0 then EmptyString else "." +:+ frac_digits prec f).

Definition Duration_String (d : duration) : string :=
  let u := Z.abs d in
  let body :=
    if u <? Second then
      if u =? 0 then "0s"%string
      else if u <? 1000 then fmt_frac u 0 +:+ "ns"
      else if u <? 1000000 then fmt_frac u 3 +:+ "µs"
      else fmt_frac u 6 +:+ "ms"
    else
      let secs := fmt_frac (u mod Minute) 9 +:+ "s" in
      let mins := u / Minute in
      if mins =? 0 then secs
      else
        let mpart := itoa (mins mod 60) +:+ "m" +:+ secs in
        let hours := mins / 60 in
        if hours =? 0 then mpart else itoa hours +:+ "h" +:+ mpart in
  if d <? 0 then "-" +:+ body else body.

Example duration_string_90s : Duration_String (90 * Second) = "1m30s"%string.
Proof. vm_compute. reflexivity. Qed.
Example duration_string_frac : Duration_String (1500 * Millisecond) = "1.5s"%string.
Proof. vm_compute. reflexivity. Qed.

(** ** [filepath.Base], on a system whose separator is the slash *)

Definition SLASH : ascii := ascii_of_N 47.

(** [strings.TrimRight(s, "/")] for a single ASCII character. *)
Fixpoint TrimRightChar (s : string) (c : ascii) : string :=
  match s with
  | EmptyString => EmptyString
  | String a s' =>
    match TrimRightChar s' c with
    | EmptyString => if bool_decide (a = c) then EmptyString else String a EmptyString
    | t => String a t
    end
  end.

Definition Base (path : string) : string :=
  if bool_decide (path = EmptyString) then "."%string
  else
    let path := TrimRightChar path SLASH in
    let path := match CutLast path SLASH with Some (_, b) => b | None => path end in
    if bool_decide (path = EmptyString) then "/"%string else path.

(** ** Cutting, splitting and joining *)

Lemma string_app_cons c (a b : string) : String c a +:+ b = String c (a +:+ b).
Proof. done. Qed.

Lemma string_app_nil_r (s : string) : s +:+ EmptyString = s.
Proof. induction s as [|c s IH]; [done|]. by rewrite string_app_cons, IH. Qed.

Lemma string_app_assoc (a b c : string) : a +:+ (b +:+ c) = (a +:+ b) +:+ c.
Proof. induction a as [|x a IH]; [done|]. by rewrite string_app_cons, IH. Qed.

Lemma of_string_app a b : of_string (a +:+ b) = of_string a ++ of_string b.
Proof. induction a as [|c a IH]; [done|]. rewrite string_app_cons. cbn. f_equal. apply IH. Qed.

Lemma Cut_app n v sep :
  Cut n sep = None -> Cut (n +:+ String sep v) sep = Some (n, v).
Proof.
  induction n as [|c n IH]; [|rewrite string_app_cons]; cbn [Cut].
  - intros _. change (EmptyString +:+ ?x) with x. cbn [Cut]. by rewrite bool_decide_eq_true_2.
  - case_bool_decide; [done|]. destruct (Cut n sep) as [[]|]; [done|].
    intros _. by rewrite IH.
Qed.

Lemma Split_nonempty s sep : Split s sep <> [].
Proof. destruct s as [|c s]; cbn; [done|]. case_bool_decide; [done|]. by destruct (Split s sep). Qed.

Lemma Join_cons x y l sep : Join (x :: y :: l) sep = x +:+ sep +:+ Join (y :: l) sep.
Proof. cbn. done. Qed.

Lemma Join_Split s c : Join (Split s c) (String c EmptyString) = s.
Proof.
  induction s as [|d s IH]; [done|]. cbn [Split].
  pose proof (Split_nonempty s c) as Hne.
  case_bool_decide as Hd.
  - subst. destruct (Split s c) as [|x l]; [done|]. rewrite Join_cons, IH. done.
  - destruct (Split s c) as [|x l]; [done|]. rewrite <- IH. done.
Qed.

Lemma Split_free s c :
  Forall (fun l => byte_of_ascii c ∉ of_string l) (Split s c).
Proof.
  induction s as [|d s IH]; cbn [Split]; [by repeat constructor; apply not_elem_of_nil|].
  case_bool_decide as Hd; [by constructor; [apply not_elem_of_nil|]|].
  assert (byte_of_ascii c <> byte_of_ascii d) as Hb.
  { intros He. apply Hd. by rewrite <- (ascii_of_byte_of_ascii d), <- He, ascii_of_byte_of_ascii. }
  destruct (Split s c) as [|x l].
  - constructor; [|done]. apply not_elem_of_cons. split; [done|apply not_elem_of_nil].
  - apply Forall_cons in IH as [? ?]. constructor; [|done].
    change (of_string (String d x)) with (byte_of_ascii d :: of_string x).
    by apply not_elem_of_cons.
Qed.

Lemma Split_none s c : byte_of_ascii c ∉ of_string s -> Split s c = [s].
Proof.
  induction s as [|d s IH]; [done|].
  change (of_string (String d s)) with (byte_of_ascii d :: of_string s).
  intros [Hd Hs]%not_elem_of_cons. cbn [Split].
  rewrite bool_decide_eq_false_2 by congruence. by rewrite IH.
Qed.

Lemma Split_app a s c :
  byte_of_ascii c ∉ of_string a ->
  Split (a +:+ String c s) c = a :: Split s c.
Proof.
  induction a as [|d a IH]; [|rewrite string_app_cons].
  - intros _. change (EmptyString +:+ ?x) with x. cbn [Split]. by rewrite bool_decide_eq_true_2.
  - change (of_string (String d a)) with (byte_of_ascii d :: of_string a).
    intros [Hd Hs]%not_elem_of_cons. cbn [Split].
    rewrite bool_decide_eq_false_2 by congruence. by rewrite IH.
Qed.

Lemma Split_Join l c :
  l <> [] -> Forall (fun x => byte_of_ascii c ∉ of_string x) l ->
  Split (Join l (String c EmptyString)) c = l.
Proof.
  destruct l as [|x l]; [done|]. intros _ Hf. revert x Hf.
  induction l as [|y l IH]; intros x [Hx Hl]%Forall_cons.
  - cbn [Join foldr]. rewrite string_app_nil_r. by apply Split_none.
  - rewrite Join_cons, string_app_cons. change (EmptyString +:+ ?x) with x. rewrite Split_app by done. by rewrite IH.
Qed.

Lemma HasPrefix_nil s : HasPrefix s EmptyString = true.
Proof. by destruct s. Qed.

Lemma HasPrefix_app p s : HasPrefix (p +:+ s) p = true.
Proof.
  induction p as [|c p IH]; [by destruct s|]. rewrite string_app_cons. cbn.
  by rewrite bool_decide_eq_true_2.
Qed.

Lemma TrimPrefix_app p s : TrimPrefix (p +:+ s) p = s.
Proof.
  unfold TrimPrefix. rewrite HasPrefix_app. induction p as [|c p IH]; [by destruct s|].
  rewrite string_app_cons. exact IH.
Qed.

Lemma length_of_string s : length (of_string s) = String.length s.
Proof. induction s as [|c s IH]; [done|]. cbn. by rewrite <- IH. Qed.

Lemma substring_bytes n m s : of_string (String.substring n m s) = take m (drop n (of_string s)).
Proof.
  revert n m. induction s as [|c s IH]; intros n m.
  - change (of_string emp) with (@nil byte). by destruct n, m.
  - change (of_string (String c s)) with (byte_of_ascii c :: of_string s). destruct n as [|n]; cbn [drop String.substring].
    + destruct m as [|m]; [done|]. change (byte_of_ascii c :: of_string (String.substring 0 m s) = byte_of_ascii c :: take m (of_string s)).
      f_equal. by rewrite IH, drop_0.
    + apply IH.
Qed.

Lemma of_string_upto i s : of_string (upto i s) = take i (of_string s).
Proof. unfold upto. by rewrite substring_bytes, drop_0. Qed.
Lemma of_string_from i s : of_string (from_ i s) = drop i (of_string s).
Proof. unfold from_. rewrite substring_bytes, <- length_of_string, <- length_drop. by rewrite firstn_all. Qed.

Lemma of_string_inj a b : of_string a = of_string b -> a = b.
Proof. intros He. by rewrite <- (to_of_string a), He, to_of_string. Qed.

Lemma from_app a b : from_ (String.length a) (a +:+ b) = b.
Proof. apply of_string_inj. by rewrite of_string_from, of_string_app, <- length_of_string, drop_app_length. Qed.

Lemma CutAt_here sub s : CutAt (sub +:+ s) sub = Some (emp, sub +:+ s).
Proof. pose proof (HasPrefix_app sub s) as Hp. destruct (sub +:+ s); cbn [CutAt]; by rewrite Hp. Qed.

(** The first character of what is looked for is nowhere before it. *)
Lemma CutAt_after a c sub s : byte_of_ascii c ∉ of_string a ->
  CutAt (a +:+ String c sub +:+ s) (String c sub) = Some (a, String c sub +:+ s).
Proof.
  induction a as [|d a IH]; [intros _; apply (CutAt_here (String c sub))|].
  change (of_string (String d a)) with (byte_of_ascii d :: of_string a). intros [Hd Ha]%not_elem_of_cons.
  rewrite string_app_cons. cbn [CutAt HasPrefix]. rewrite bool_decide_eq_false_2 by congruence. cbn [andb].
  by rewrite IH.
Qed.

(** [strings.Fields] and [strings.Join] without a separator: ASCII loses its
    white space. *)
Lemma Join_all x l : Join (x :: l) emp = x +:+ Join l emp.
Proof.
  cbn. f_equal. destruct l as [|y l]; [done|]. cbn. f_equal.
Qed.

(** [strings.TrimSuffix]. *)
Definition TrimSuffix (s suffix : string) : string :=
  let n := (String.length s - String.length suffix)%nat in
  if bool_decide (String.length suffix <= String.length s)%nat
     && bool_decide (String.substring n (String.length suffix) s = suffix)
  then String.substring 0 n s else s.

(** [s[strings.LastIndexAny(s, chars)+1:]]: what follows the last character
    of a set, or all of [s]. *)
Fixpoint after_last (p : ascii -> bool) (s : string) : option string :=
  match s with
  | EmptyString => None
  | String c s' =>
    match after_last p s' with
    | Some t => Some t
    | None => if p c then Some s' else None
    end
  end.

(** ** [time.Time.Format("2006-01-02 15:04:05")] in UTC *)

(** Year, month and day of a day number since the Unix epoch, in the
    proleptic Gregorian calendar. *)
Definition civil (days : Z) : Z * Z * Z :=
  let z := days + 719468 in
  let era := z / 146097 in
  let doe := z mod 146097 in
  let yoe := (doe - doe / 1460 + doe / 36524 - doe / 146096) / 365 in
  let doy := doe - (365 * yoe + yoe / 4 - yoe / 100) in
  let mp := (5 * doy + 2) / 153 in
  let d := doy - (153 * mp + 2) / 5 + 1 in
  let m := if mp <? 10 then mp + 3 else mp - 9 in
  (yoe + era * 400 + (if m <=? 2 then 1 else 0), m, d).

Definition pad_zero (width : nat) (n : Z) : string :=
  let s := itoa (Z.abs n) in
  (if n <? 0 then "-" else emp) +:+
  string_of_list_byte (replicate (width - String.length s) x30) +:+ s.

Definition FormatDateTime (t : time) : string :=
  let secs := Unix t in
  let '(y, m, d) := civil (secs / 86400) in
  let s := secs mod 86400 in
  pad_zero 4 y +:+ "-" +:+ pad_zero 2 m +:+ "-" +:+ pad_zero 2 d +:+ " " +:+
  pad_zero 2 (s / 3600) +:+ ":" +:+ pad_zero 2 (s / 60 mod 60) +:+ ":" +:+ pad_zero 2 (s mod 60).

Example FormatDateTime_demo : FormatDateTime (1786209283 * Second) = "2026-08-08 17:14:43"%string.
Proof. vm_compute. reflexivity. Qed.

(** ** Arithmetic of the big-endian encoding *)

Lemma byte_of_eq z b : z mod 256 = byte_val b -> byte_of z = b.
Proof.
  intros H. rewrite <- (byte_of_val b), <- H. unfold byte_of. by rewrite Zmod_mod.
Qed.

Lemma lor_shiftl_add a b k :
  0 <= k -> 0 <= b < 2 ^ k -> Z.lor (Z.shiftl a k) b = a * 2 ^ k + b.
Proof.
  intros Hk Hb. rewrite <- Z.shiftl_mul_pow2 by done.
  assert (Z.land (Z.shiftl a k) b = 0) as Hl.
  { apply Z.bits_inj'. intros n Hn. rewrite Z.land_spec, Z.bits_0.
    destruct (Z.lt_ge_cases n k) as [Hnk|Hnk].
    - by rewrite Z.shiftl_spec_low.
    - destruct (Z.eq_dec b 0) as [->|]; [by rewrite Z.bits_0, andb_false_r|].
      rewrite (Z.bits_above_log2 b n), andb_false_r; [done|lia|].
      apply Z.log2_lt_pow2; [lia|]. eapply Z.lt_le_trans; [apply Hb|].
      by apply Z.pow_le_mono_r. }
  by rewrite Z.add_nocarry_lxor, <- Z.lxor_lor.
Qed.

Lemma get_u32_sum b0 b1 b2 b3 :
  get_u32 [b0; b1; b2; b3] =
  byte_val b0 * 2 ^ 24 + (byte_val b1 * 2 ^ 16 + (byte_val b2 * 2 ^ 8 + byte_val b3)).
Proof.
  pose proof (byte_val_range b0). pose proof (byte_val_range b1).
  pose proof (byte_val_range b2). pose proof (byte_val_range b3).
  unfold get_u32. rewrite (lor_shiftl_add _ (byte_val b3)) by lia.
  rewrite (lor_shiftl_add _ _ 16) by lia. rewrite lor_shiftl_add by lia. done.
Qed.

Lemma get_u32_range b : length b = 4%nat -> 0 <= get_u32 b < 2 ^ 32.
Proof.
  destruct b as [|b0 [|b1 [|b2 [|b3 [|]]]]]; try done. intros _. rewrite get_u32_sum.
  pose proof (byte_val_range b0). pose proof (byte_val_range b1).
  pose proof (byte_val_range b2). pose proof (byte_val_range b3). lia.
Qed.

Lemma put_get_u32 b : length b = 4%nat -> put_u32 (get_u32 b) = b.
Proof.
  destruct b as [|b0 [|b1 [|b2 [|b3 [|]]]]]; try done. intros _. rewrite get_u32_sum.
  pose proof (byte_val_range b0). pose proof (byte_val_range b1).
  pose proof (byte_val_range b2). pose proof (byte_val_range b3).
  unfold put_u32. rewrite !Z.shiftr_div_pow2 by done.
  repeat f_equal; apply byte_of_eq; euclid.
Qed.

Lemma get_put_u32 n : 0 <= n < 2 ^ 32 -> get_u32 (put_u32 n) = n.
Proof.
  intros Hn. unfold put_u32. rewrite get_u32_sum, !byte_val_of.
  rewrite !Z.shiftr_div_pow2 by done. euclid.
Qed.

Lemma length_put_u32 n : length (put_u32 n) = 4%nat.
Proof. done. Qed.
