(* ===== verification/Proto.v ===== *)
(** * Proto: the messages of [proto/ladulas/v1] the modelled code exchanges

    A message is a [Record] with the fields of the generated Go struct, an
    enum an [Inductive] with its values, a [oneof] an [Inductive] with one
    constructor per member.  A message-typed field is an [option]; the
    generated nil-safe getters are [m ⇢ f], which reads the zero value of the
    field's type through a nil pointer.  A [*timestamppb.Timestamp] is the
    [option time] its [AsTime] reads, a [*durationpb.Duration] the
    [option duration] its [AsDuration] reads. *)

From S2P Require Import Prelude.
From S2P Require Import GoText.

(** ** Zero values and nil-safe getters *)

Class Zero (A : Type) := zero : A.
#[export] Instance zero_Z : Zero Z := 0%Z.
#[export] Instance zero_bool : Zero bool := false.
#[export] Instance zero_string : Zero string := EmptyString.
#[export] Instance zero_list A : Zero (list A) := [].
#[export] Instance zero_option A : Zero (option A) := None.

Definition getter {M A} `{Zero A} (m : option M) (f : M -> A) : A :=
  match m with Some m => f m | None => zero end.
Notation "m ⇢ f" := (getter m f) (at level 1, left associativity, f at level 0) : ladulas_scope.
Open Scope ladulas_scope.

(** ** Enums of approval.proto and policy.proto *)

Inductive RequestKind :=
| KIND_UNSPECIFIED | KIND_SSH_AUTH | KIND_GIT_SIGN | KIND_SSHSIG
| KIND_OPAQUE_SIGN | KIND_KEY_LIST | KIND_PAIRING.

Inductive Decision := DECISION_UNSPECIFIED | DECISION_APPROVE | DECISION_DENY.

Inductive DecisionSource :=
| SOURCE_UNSPECIFIED | SOURCE_USER | SOURCE_POLICY | SOURCE_GRANT
| SOURCE_HARD_RULE | SOURCE_TIMEOUT | SOURCE_CANCELLED | SOURCE_NO_APPROVER
| SOURCE_ERROR.

Inductive Action := ACTION_UNSPECIFIED | ACTION_PROMPT | ACTION_APPROVE | ACTION_DENY.

Inductive Tristate := TRISTATE_ANY | TRISTATE_TRUE | TRISTATE_FALSE.

Inductive AuditEvent :=
| EVENT_UNSPECIFIED | EVENT_REQUEST | EVENT_DECISION | EVENT_SIGNATURE
| EVENT_ERROR | EVENT_GRANT | EVENT_LIFECYCLE | EVENT_KEY_TRANSFER
| EVENT_KEY_LOCAL.

#[export] Instance RequestKind_eq_dec : EqDecision RequestKind.
Proof. solve_decision. Defined.
#[export] Instance Decision_eq_dec : EqDecision Decision.
Proof. solve_decision. Defined.
#[export] Instance DecisionSource_eq_dec : EqDecision DecisionSource.
Proof. solve_decision. Defined.
#[export] Instance Action_eq_dec : EqDecision Action.
Proof. solve_decision. Defined.
#[export] Instance Tristate_eq_dec : EqDecision Tristate.
Proof. solve_decision. Defined.
#[export] Instance AuditEvent_eq_dec : EqDecision AuditEvent.
Proof. solve_decision. Defined.

#[export] Instance zero_RequestKind : Zero RequestKind := KIND_UNSPECIFIED.
#[export] Instance zero_Action : Zero Action := ACTION_UNSPECIFIED.
#[export] Instance zero_Tristate : Zero Tristate := TRISTATE_ANY.

(** ** What a request carries *)

Record KeyRef := mk_KeyRef {
  kr_fingerprint : string;
  kr_algorithm : string;
  kr_public_key : bytes;
  kr_comment : string;
  kr_label : string;
  kr_agent_use : option bool
}.

Record HostKey := mk_HostKey {
  hk_blob : bytes;
  hk_algorithm : string;
  hk_fingerprint : string;
  hk_known_hosts_names : list string;
  hk_known : bool
}.

Record SessionBinding := mk_SessionBinding {
  sb_host_key : option HostKey;
  sb_session_id : bytes;
  sb_is_forwarding : bool;
  sb_signature_verified : bool;
  sb_hop : Z
}.

Record ProcessAncestor := mk_ProcessAncestor {
  pa_pid : Z;
  pa_executable : string;
  pa_command_line : string;
  pa_session_leader : bool;
  pa_started_session : bool
}.

Record ClientProcess := mk_ClientProcess {
  cp_pid : Z;
  cp_uid : Z;
  cp_gid : Z;
  cp_executable : string;
  cp_command_line : string;
  cp_user_name : string;
  cp_session_id : Z;
  cp_ancestry : list ProcessAncestor
}.

Record RequesterInfo := mk_RequesterInfo {
  ri_instance_id : string;
  ri_name : string;
  ri_local : bool;
  ri_headless : bool;
  ri_remote_address : string;
  ri_process : option ClientProcess
}.

Record SshAuthRequest := mk_SshAuthRequest {
  sa_username : string;
  sa_service : string;
  sa_method : string;
  sa_session_id : bytes;
  sa_bound : bool;
  sa_forwarded : bool;
  sa_destination : option HostKey;
  sa_binding_chain : list SessionBinding;
  sa_destination_label : string;
  sa_forwarded_hops : Z;
  sa_payload_destination : option HostKey
}.

Record GitIdentity := mk_GitIdentity {
  gi_name : string;
  gi_email : string;
  gi_time : option time;
  gi_timezone : string
}.

Record GitHeader := mk_GitHeader { gh_name : string; gh_value : string }.

Record GitObject := mk_GitObject {
  go_type : string;
  go_tree : string;
  go_parents : list string;
  go_author : option GitIdentity;
  go_committer : option GitIdentity;
  go_tagged_object : string;
  go_tagged_type : string;
  go_tag : string;
  go_tagger : option GitIdentity;
  go_subject : string;
  go_message : string;
  go_extra_headers : list GitHeader
}.

Inductive GitDiffLineKind := LINE_UNSPECIFIED | LINE_CONTEXT | LINE_ADDED | LINE_REMOVED | LINE_NOTE.

Record GitDiffLine := mk_GitDiffLine { dl_kind : GitDiffLineKind; dl_text : string }.
Record GitDiffHunk := mk_GitDiffHunk { dh_header : string; dh_lines : list GitDiffLine }.

Record GitDiffFile := mk_GitDiffFile {
  gf_old_path : string;
  gf_new_path : string;
  gf_status : string;
  gf_insertions : Z;
  gf_deletions : Z;
  gf_binary : bool;
  gf_mode_change : string;
  gf_hunks : list GitDiffHunk;
  gf_truncated : bool
}.

Record GitDiff := mk_GitDiff {
  gd_files : list GitDiffFile;
  gd_files_changed : Z;
  gd_insertions : Z;
  gd_deletions : Z;
  gd_truncated : bool;
  gd_truncation_note : string;
  gd_range : string;
  gd_error : string
}.

Record GitContext := mk_GitContext {
  gc_repository_path : string;
  gc_origin_url : string;
  gc_branch : string;
  gc_operation : string;
  gc_diff : option GitDiff;
  gc_project_id : string;
  gc_object_type : string;
  gc_object : bytes;
  gc_parsed : option GitObject;
  gc_verified_against_payload : bool;
  gc_verification_error : string
}.

Record SshsigRequest := mk_SshsigRequest {
  sg_namespace : string;
  sg_hash_algorithm : string;
  sg_message_digest : bytes;
  sg_git_context : option GitContext
}.

Record OpaqueSignRequest := mk_OpaqueSignRequest {
  os_payload_length : Z;
  os_payload_sha256 : bytes;
  os_reason : string;
  os_prefix : bytes
}.

Record PairingAttempt := mk_PairingAttempt {
  pa_source : string;
  pa_at : option time;
  pa_outcome : string
}.

(** A pairing's confirmation; its attributes are left out, since nothing in the
    source sets or reads them. *)
Record PairingRequest := mk_PairingRequest {
  pr_peer_name : string;
  pr_peer_fingerprint : string;
  pr_remote_address : string;
  pr_peer_may_approve : bool;
  pr_peer_may_request : bool;
  pr_local_fingerprint : string;
  pr_local_name : string;
  pr_initiated_locally : bool;
  pr_peer_addresses : list string;
  pr_key_from_code : bool;
  pr_failed_attempts : list PairingAttempt
}.

Record LocalKey := mk_LocalKey {
  lk_added_by : option ClientProcess;
  lk_added_at : option time;
  lk_expires_at : option time;
  lk_confirm : bool
}.

Inductive Operation :=
| OpNone
| OpSshAuth (a : SshAuthRequest)
| OpSshsig (s : SshsigRequest)
| OpOpaqueSign (o : OpaqueSignRequest)
| OpPairing (p : PairingRequest)
| OpKeyList (purpose : string).

Record ApprovalRequest := mk_ApprovalRequest {
  rq_request_id : string;
  rq_created_at : option time;
  rq_requester : option RequesterInfo;
  rq_kind : RequestKind;
  rq_key : option KeyRef;
  rq_timeout : option duration;
  rq_signature_flags : Z;
  rq_signature_algorithm : string;
  rq_payload_sha256 : bytes;
  rq_grant_only : bool;
  rq_requested_grant_ttl : option duration;
  rq_local_key : option LocalKey;
  rq_operation : Operation
}.

Definition rq_ssh_auth (r : ApprovalRequest) : option SshAuthRequest :=
  match rq_operation r with OpSshAuth a => Some a | _ => None end.
Definition rq_sshsig (r : ApprovalRequest) : option SshsigRequest :=
  match rq_operation r with OpSshsig s => Some s | _ => None end.
Definition rq_opaque_sign (r : ApprovalRequest) : option OpaqueSignRequest :=
  match rq_operation r with OpOpaqueSign o => Some o | _ => None end.
Definition rq_pairing (r : ApprovalRequest) : option PairingRequest :=
  match rq_operation r with OpPairing p => Some p | _ => None end.

(** The fields of the request that are written in place by the engine. *)
Definition set_request_id (i : string) (r : ApprovalRequest) : ApprovalRequest :=
  mk_ApprovalRequest i (rq_created_at r) (rq_requester r) (rq_kind r) (rq_key r)
    (rq_timeout r) (rq_signature_flags r) (rq_signature_algorithm r)
    (rq_payload_sha256 r) (rq_grant_only r) (rq_requested_grant_ttl r)
    (rq_local_key r) (rq_operation r).
Definition set_created_at (t : option time) (r : ApprovalRequest) : ApprovalRequest :=
  mk_ApprovalRequest (rq_request_id r) t (rq_requester r) (rq_kind r) (rq_key r)
    (rq_timeout r) (rq_signature_flags r) (rq_signature_algorithm r)
    (rq_payload_sha256 r) (rq_grant_only r) (rq_requested_grant_ttl r)
    (rq_local_key r) (rq_operation r).
Definition set_operation (o : Operation) (r : ApprovalRequest) : ApprovalRequest :=
  mk_ApprovalRequest (rq_request_id r) (rq_created_at r) (rq_requester r) (rq_kind r)
    (rq_key r) (rq_timeout r) (rq_signature_flags r) (rq_signature_algorithm r)
    (rq_payload_sha256 r) (rq_grant_only r) (rq_requested_grant_ttl r)
    (rq_local_key r) o.

(** ** Promises *)

Record GrantScope := mk_GrantScope {
  gs_key_fingerprint : string;
  gs_kind : RequestKind;
  gs_destination : string;
  gs_repository : string;
  gs_requester_instance_id : string;
  gs_username : string;
  gs_destination_fingerprint : string;
  gs_session_id : Z
}.

Record GrantUse := mk_GrantUse {
  gu_grant_id : string;
  gu_request_id : string;
  gu_used_at : option time;
  gu_reported_at : option time;
  gu_kind : RequestKind;
  gu_subject : string
}.

Record Grant := mk_Grant {
  gr_grant_id : string;
  gr_scope : option GrantScope;
  gr_created_at : option time;
  gr_expires_at : option time;
  gr_origin_request_id : string;
  gr_description : string;
  gr_promise_subject : string;
  gr_delegated : bool;
  gr_delegate_fingerprint : string;
  gr_delegate_name : string;
  gr_use_count : Z;
  gr_recent_uses : list GrantUse;
  gr_revoke_pending : bool;
  gr_revoke_requested_at : option time;
  gr_endorsed : bool;
  gr_published_to : list string;
  gr_unreached_holders : list string
}.

Record Delegation := mk_Delegation {
  dl_delegation_id : string;
  dl_scope : option GrantScope;
  dl_created_at : option time;
  dl_expires_at : option time;
  dl_origin_request_id : string;
  dl_description : string;
  dl_approver_fingerprint : string;
  dl_approver_name : string;
  dl_requester_fingerprint : string
}.

Record Endorsement := mk_Endorsement {
  en_endorsement_id : string;
  en_scope : option GrantScope;
  en_created_at : option time;
  en_expires_at : option time;
  en_origin_request_id : string;
  en_description : string;
  en_issuer_fingerprint : string;
  en_issuer_name : string;
  en_requester_fingerprint : string;
  en_requester_name : string;
  en_key_fingerprint : string
}.

Record Retraction := mk_Retraction {
  rt_retraction_id : string;
  rt_key_fingerprint : string;
  rt_endorsement_id : string;
  rt_issued_before : option time;
  rt_issued_at : option time;
  rt_remember_until : option time;
  rt_issuer_fingerprint : string;
  rt_issuer_name : string;
  rt_reason : string
}.

Record SignedDelegation := mk_SignedDelegation {
  sd_delegation : bytes;
  sd_approver_public_key : bytes;
  sd_approver_fingerprint : string;
  sd_signature_algorithm : string;
  sd_signature : bytes
}.

Record SignedEndorsement := mk_SignedEndorsement {
  se_endorsement : bytes;
  se_issuer_public_key : bytes;
  se_issuer_fingerprint : string;
  se_signature_algorithm : string;
  se_signature : bytes;
  se_key_signature : bytes
}.

Record SignedRetraction := mk_SignedRetraction {
  sr_retraction : bytes;
  sr_issuer_public_key : bytes;
  sr_issuer_fingerprint : string;
  sr_signature_algorithm : string;
  sr_signature : bytes;
  sr_key_signature : bytes
}.

(** ** Decisions *)

Record ApproverInfo := mk_ApproverInfo {
  ai_instance_id : string;
  ai_name : string;
  ai_local : bool
}.

Record ApprovalResponse := mk_ApprovalResponse {
  rs_request_id : string;
  rs_request_digest : bytes;
  rs_decision : Decision;
  rs_source : DecisionSource;
  rs_decided_at : option time;
  rs_approver : option ApproverInfo;
  rs_reason : string;
  rs_grant : option Grant;
  rs_delegation : option SignedDelegation;
  rs_endorsement : option SignedEndorsement;
  rs_notify_only : bool
}.

Record SignedApproval := mk_SignedApproval {
  sap_response : bytes;
  sap_approver_public_key : bytes;
  sap_approver_fingerprint : string;
  sap_signature_algorithm : string;
  sap_signature : bytes
}.

Record PresentedProject := mk_PresentedProject {
  pp_peer_fingerprint : string;
  pp_project_id : string;
  pp_name : string;
  pp_note : string;
  pp_stale : bool;
  pp_known : bool
}.

(** ** The policy document *)

Record Match := mk_Match {
  mt_kinds : list RequestKind;
  mt_key_fingerprints : list string;
  mt_key_labels : list string;
  mt_destinations : list string;
  mt_usernames : list string;
  mt_repositories : list string;
  mt_namespaces : list string;
  mt_requester_instances : list string;
  mt_executables : list string;
  mt_forwarded : Tristate;
  mt_bound : Tristate;
  mt_local : Tristate
}.

Record Rule := mk_Rule {
  rl_name : string;
  rl_description : string;
  rl_match : option Match;
  rl_action : Action;
  rl_notify : option bool
}.

Record Defaults := mk_Defaults {
  df_unbound_ssh_auth : Action;
  df_fallback : Action;
  df_ssh_auth_timeout : option duration;
  df_sign_timeout : option duration;
  df_grant_ttl_options : list duration
}.

Record PolicyDocument := mk_PolicyDocument {
  pd_version : Z;
  pd_defaults : option Defaults;
  pd_rules : list Rule
}.

(** ** The wake-up relay *)

Inductive PushPlatform := PUSH_PLATFORM_UNSPECIFIED | PUSH_PLATFORM_APNS | PUSH_PLATFORM_FCM.
Inductive WakeStyle := WAKE_STYLE_UNSPECIFIED | WAKE_STYLE_ALERT | WAKE_STYLE_SILENT.
Inductive WakeSubject := WAKE_SUBJECT_UNSPECIFIED | WAKE_SUBJECT_APPROVAL | WAKE_SUBJECT_KEY_OFFER.
Inductive WakeOutcome :=
| WAKE_OUTCOME_UNSPECIFIED | WAKE_OUTCOME_DELIVERED | WAKE_OUTCOME_THROTTLED
| WAKE_OUTCOME_UNKNOWN | WAKE_OUTCOME_UNREGISTERED.

Record DeviceRegistration := mk_DeviceRegistration {
  dr_platform : PushPlatform;
  dr_device_token : string
}.

Record Wake := mk_Wake { wk_style : WakeStyle; wk_subject : WakeSubject }.

Inductive RelayOperation :=
| RelayNone
| RelayRegister (r : DeviceRegistration)
| RelayWake (w : Wake).

Record RelayCall := mk_RelayCall {
  rc_issued_at : option time;
  rc_nonce : string;
  rc_instance_id : string;
  rc_operation : RelayOperation
}.

Definition rc_register (c : RelayCall) : option DeviceRegistration :=
  match rc_operation c with RelayRegister r => Some r | _ => None end.
Definition rc_wake (c : RelayCall) : option Wake :=
  match rc_operation c with RelayWake w => Some w | _ => None end.

Record SignedRelayCall := mk_SignedRelayCall {
  src_call : bytes;
  src_public_key : bytes;
  src_signature_algorithm : string;
  src_signature : bytes
}.

#[export] Instance PushPlatform_eq_dec : EqDecision PushPlatform.
Proof. solve_decision. Defined.
#[export] Instance WakeStyle_eq_dec : EqDecision WakeStyle.
Proof. solve_decision. Defined.
#[export] Instance WakeSubject_eq_dec : EqDecision WakeSubject.
Proof. solve_decision. Defined.
#[export] Instance DeviceRegistration_eq_dec : EqDecision DeviceRegistration.
Proof. solve_decision. Defined.
#[export] Instance Wake_eq_dec : EqDecision Wake.
Proof. solve_decision. Defined.
#[export] Instance RelayOperation_eq_dec : EqDecision RelayOperation.
Proof. solve_decision. Defined.
#[export] Instance RelayCall_eq_dec : EqDecision RelayCall.
Proof. solve_decision. Defined.
#[export] Instance zero_PushPlatform : Zero PushPlatform := PUSH_PLATFORM_UNSPECIFIED.
#[export] Instance zero_WakeStyle : Zero WakeStyle := WAKE_STYLE_UNSPECIFIED.
#[export] Instance zero_WakeSubject : Zero WakeSubject := WAKE_SUBJECT_UNSPECIFIED.

#[export] Instance GrantScope_eq_dec : EqDecision GrantScope.
Proof. solve_decision. Defined.
#[export] Instance GrantUse_eq_dec : EqDecision GrantUse.
Proof. solve_decision. Defined.
#[export] Instance Grant_eq_dec : EqDecision Grant.
Proof. solve_decision. Defined.
#[export] Instance Delegation_eq_dec : EqDecision Delegation.
Proof. solve_decision. Defined.
#[export] Instance Endorsement_eq_dec : EqDecision Endorsement.
Proof. solve_decision. Defined.
#[export] Instance Retraction_eq_dec : EqDecision Retraction.
Proof. solve_decision. Defined.
#[export] Instance SignedDelegation_eq_dec : EqDecision SignedDelegation.
Proof. solve_decision. Defined.
#[export] Instance SignedEndorsement_eq_dec : EqDecision SignedEndorsement.
Proof. solve_decision. Defined.
#[export] Instance SignedRetraction_eq_dec : EqDecision SignedRetraction.
Proof. solve_decision. Defined.
#[export] Instance ApproverInfo_eq_dec : EqDecision ApproverInfo.
Proof. solve_decision. Defined.
#[export] Instance ApprovalResponse_eq_dec : EqDecision ApprovalResponse.
Proof. solve_decision. Defined.

(** The fields of a grant written in place. *)
Definition set_grant_term (expires : option time) (description : string) (g : Grant) : Grant :=
  mk_Grant (gr_grant_id g) (gr_scope g) (gr_created_at g) expires (gr_origin_request_id g)
    description (gr_promise_subject g) (gr_delegated g) (gr_delegate_fingerprint g)
    (gr_delegate_name g) (gr_use_count g) (gr_recent_uses g) (gr_revoke_pending g)
    (gr_revoke_requested_at g) (gr_endorsed g) (gr_published_to g) (gr_unreached_holders g).
Definition set_grant_uses (count : Z) (recent : list GrantUse) (g : Grant) : Grant :=
  mk_Grant (gr_grant_id g) (gr_scope g) (gr_created_at g) (gr_expires_at g)
    (gr_origin_request_id g) (gr_description g) (gr_promise_subject g) (gr_delegated g)
    (gr_delegate_fingerprint g) (gr_delegate_name g) count recent (gr_revoke_pending g)
    (gr_revoke_requested_at g) (gr_endorsed g) (gr_published_to g) (gr_unreached_holders g).
Definition set_grant_endorsed (g : Grant) : Grant :=
  mk_Grant (gr_grant_id g) (gr_scope g) (gr_created_at g) (gr_expires_at g)
    (gr_origin_request_id g) (gr_description g) (gr_promise_subject g) (gr_delegated g)
    (gr_delegate_fingerprint g) (gr_delegate_name g) (gr_use_count g) (gr_recent_uses g)
    (gr_revoke_pending g) (gr_revoke_requested_at g) true (gr_published_to g)
    (gr_unreached_holders g).
Definition set_grant_revoke (requested : option time) (g : Grant) : Grant :=
  mk_Grant (gr_grant_id g) (gr_scope g) (gr_created_at g) (gr_expires_at g)
    (gr_origin_request_id g) (gr_description g) (gr_promise_subject g) (gr_delegated g)
    (gr_delegate_fingerprint g) (gr_delegate_name g) (gr_use_count g) (gr_recent_uses g)
    true requested (gr_endorsed g) (gr_published_to g) (gr_unreached_holders g).
Definition set_grant_reach (published unreached : list string) (g : Grant) : Grant :=
  mk_Grant (gr_grant_id g) (gr_scope g) (gr_created_at g) (gr_expires_at g)
    (gr_origin_request_id g) (gr_description g) (gr_promise_subject g) (gr_delegated g)
    (gr_delegate_fingerprint g) (gr_delegate_name g) (gr_use_count g) (gr_recent_uses g)
    (gr_revoke_pending g) (gr_revoke_requested_at g) (gr_endorsed g) published unreached.

(** ** What the store keeps: [store.proto] *)

Record HeldDelegation := mk_HeldDelegation {
  kd_signed : option SignedDelegation;
  kd_delegation : option Delegation;
  kd_received_at : option time;
  kd_unreported_uses : list GrantUse;
  kd_use_count : Z
}.

Record HeldEndorsement := mk_HeldEndorsement {
  ke_signed : option SignedEndorsement;
  ke_endorsement : option Endorsement;
  ke_received_at : option time;
  ke_published : bool;
  ke_unreported_uses : list GrantUse;
  ke_use_count : Z
}.

Record HeldRetraction := mk_HeldRetraction {
  kr_signed : option SignedRetraction;
  kr_retraction : option Retraction;
  kr_received_at : option time;
  kr_gossiped_to : list string
}.

(** [TunnelOffer] of [service.proto]. *)
Record TunnelOffer := mk_TunnelOffer {
  to_versions : list Z;
  to_server_address : string;
  to_client_key : bytes
}.

(** A trust record; its attributes are left out, since nothing modelled reads
    them. *)
Record TrustRecord := mk_TrustRecord {
  tr_fingerprint : string;
  tr_name : string;
  tr_identity_public_key : bytes;
  tr_addresses : list string;
  tr_may_approve : bool;
  tr_may_request : bool;
  tr_allowed_key_fingerprints : list string;
  tr_paired_at : option time;
  tr_we_initiated : bool;
  tr_may_use_all_keys : bool;
  tr_pairing_session_id : string;
  tr_tunnel : option TunnelOffer;
  tr_tunnel_updated_at : option time
}.

#[export] Instance TunnelOffer_eq_dec : EqDecision TunnelOffer.
Proof. solve_decision. Defined.
#[export] Instance TrustRecord_eq_dec : EqDecision TrustRecord.
Proof. solve_decision. Defined.
