(* ===== verification/Glob.v ===== *)
(** * Glob: the pattern matcher of the policy, [pkg/approval/policy.go]

    [globMatchBytes] is the source's iterative backtracking loop over two
    rune slices, with its four loop variables; [glob] is the declarative
    meaning of a pattern.  The loop terminates, is sound for every value, and
    decides [glob] for every value without a literal star. *)

From S2P Require Import Prelude.
From S2P Require Import GoText.

Local Open Scope nat_scope.

Definition STAR : rune := 42%Z.
Definition QUESTION : rune := 63%Z.

(** What a pattern means: a star stands for any run of runes, a question mark
    for any one rune, anything else for itself. *)
Inductive glob : list rune -> list rune -> Prop :=
| glob_nil : glob [] []
| glob_any p c v : glob p v -> glob (QUESTION :: p) (c :: v)
| glob_char c p v : glob p v -> c <> STAR -> glob (c :: p) (c :: v)
| glob_star p v1 v2 : glob p v2 -> glob (STAR :: p) (v1 ++ v2).

(** ** The loop *)

Record glob_state := mk_glob_state {
  gl_p : nat;
  gl_v : nat;
  gl_star : option nat;
  gl_valueAtStar : nat
}.

(** One turn of the first loop: continue with a new state, or the function's
    early [return false]. *)
Definition glob_step (pat val : list rune) (s : glob_state) : option glob_state :=
  let backtrack :=
    match gl_star s with
    | Some star =>
      let vas := S (gl_valueAtStar s) in
      Some (mk_glob_state (S star) vas (Some star) vas)
    | None => None
    end in
  match pat !! gl_p s, val !! gl_v s with
  | Some c, Some x =>
    if bool_decide (c = QUESTION) || bool_decide (c = x)
    then Some (mk_glob_state (S (gl_p s)) (S (gl_v s)) (gl_star s) (gl_valueAtStar s))
    else if bool_decide (c = STAR)
    then Some (mk_glob_state (S (gl_p s)) (gl_v s) (Some (gl_p s)) (gl_v s))
    else backtrack
  | _, _ => backtrack
  end.

(** The second loop skips trailing stars. *)
Definition only_stars (l : list rune) : bool :=
  forallb (fun c => bool_decide (c = STAR)) l.

Fixpoint glob_run (fuel : nat) (pat val : list rune) (s : glob_state) : option bool :=
  if bool_decide (length val <= gl_v s) then Some (only_stars (drop (gl_p s) pat))
  else match fuel with
  | O => None
  | S fuel =>
    match glob_step pat val s with
    | Some s' => glob_run fuel pat val s'
    | None => Some false
    end
  end.

Definition glob_init : glob_state := mk_glob_state 0 0 None 0.

(** Enough turns for any pattern and value: [glob_run_total]. *)
Definition glob_fuel (pat val : list rune) : nat :=
  (length pat + length val) * S (length val) + length val.

Definition globMatchRunes (pat val : list rune) : bool :=
  default false (glob_run (glob_fuel pat val) pat val glob_init).

Definition globMatchBytes (pattern value : string) : bool :=
  globMatchRunes (runes pattern) (runes value).

Definition globMatch `{Unicode} (pattern value : string) (fold : bool) : bool :=
  if fold then globMatchBytes (ToLower pattern) (ToLower value)
  else globMatchBytes pattern value.

(** ** Facts about the meaning *)

Lemma glob_star_extend p v1 v2 : glob (STAR :: p) v2 -> glob (STAR :: p) (v1 ++ v2).
Proof.
  inversion 1 as [| |? ? ? ? Hc|? w1 w2 Hw]; subst; [done|].
  rewrite app_assoc. by apply glob_star.
Qed.

Lemma glob_star_drop p v j k :
  j <= k -> glob (STAR :: p) (drop k v) -> glob (STAR :: p) (drop j v).
Proof.
  intros Hjk H. replace (drop j v) with (take (k - j) (drop j v) ++ drop k v).
  - by apply glob_star_extend.
  - rewrite <- (take_drop (k - j) (drop j v)) at 2. rewrite drop_drop.
    by replace (j + (k - j)) with k by lia.
Qed.

Lemma glob_nil_inv v : glob [] v -> v = [].
Proof. by inversion 1. Qed.

Lemma glob_only_stars p : glob p [] <-> only_stars p = true.
Proof.
  unfold only_stars. induction p as [|c p IH]; cbn.
  { split; [done|constructor]. }
  rewrite andb_true_iff, bool_decide_eq_true, <- IH. split.
  - inversion 1 as [| | |? v1 v2 Hv Heq Heq2]; subst.
    apply app_eq_nil in Heq2 as [-> ->]. done.
  - intros [-> Hp]. by apply (glob_star p [] []).
Qed.

Lemma glob_star_cases p c v :
  glob (STAR :: p) (c :: v) -> glob p (c :: v) \/ glob (STAR :: p) v.
Proof.
  inversion 1 as [| |? ? ? ? Hc|? v1 v2 Hv Heq Heq2]; subst; [done|].
  destruct v1 as [|x v1]; cbn in *; simplify_eq; [by left|].
  right. by apply glob_star.
Qed.

(** A star-free stretch of a pattern consumes exactly its own length. *)
Lemma glob_starfree_drop q p v :
  Forall (fun c => c <> STAR) q -> glob (q ++ p) v ->
  length q <= length v /\ glob p (drop (length q) v).
Proof.
  intros Hq. revert v. induction Hq as [|c q Hc _ IH]; intros v H.
  { split; [cbn; lia|]. by rewrite drop_0. }
  inversion H as [|? x w Hw|? ? w Hw|]; subst; [..|done];
    apply IH in Hw as [? ?]; cbn; split; (lia || done).
Qed.

(** ** The loop invariant *)

Section Run.
Context (pat val : list rune).
Implicit Types s : glob_state.

(** Positions stay inside the slices and in order. *)
Record glob_wf s : Prop := {
  gw_p : gl_p s <= length pat;
  gw_v : gl_v s <= length val;
  gw_vas : gl_valueAtStar s <= gl_v s;
  gw_star : forall k, gl_star s = Some k -> k < gl_p s /\ pat !! k = Some STAR
}.

(** Whatever the loop still has in hand is a match of the whole. *)
Definition glob_sound_inv s : Prop :=
  (glob (drop (gl_p s) pat) (drop (gl_v s) val) -> glob pat val) /\
  (forall k j, gl_star s = Some k -> gl_valueAtStar s <= j ->
    glob (drop (S k) pat) (drop j val) -> glob pat val).

(** A match of the whole is still in hand, and since the last star the
    pattern has been matched rune for rune. *)
Definition glob_complete_inv s : Prop :=
  (glob pat val ->
     glob (drop (gl_p s) pat) (drop (gl_v s) val) \/
     exists k j, gl_star s = Some k /\ gl_valueAtStar s < j <= length val /\
       glob (drop (S k) pat) (drop j val)) /\
  (forall k, gl_star s = Some k ->
     gl_v s = gl_valueAtStar s + (gl_p s - S k) /\
     Forall (fun c => c <> STAR) (take (gl_p s - S k) (drop (S k) pat))).

(** The number of turns left. *)
Definition glob_measure s : nat :=
  (length pat - from_option S 0 (gl_star s) + (length val - gl_valueAtStar s))
    * S (length val) + (length val - gl_v s).

Lemma glob_step_wf s s' :
  glob_wf s -> gl_v s < length val -> glob_step pat val s = Some s' -> glob_wf s'.
Proof.
  intros [Hp Hv Hvas Hstar] Hlt Hs. unfold glob_step in Hs.
  assert (forall k, gl_star s = Some k ->
    glob_wf (mk_glob_state (S k) (S (gl_valueAtStar s)) (Some k) (S (gl_valueAtStar s)))) as Hb.
  { intros k Hk. destruct (Hstar k Hk). constructor; cbn; try lia.
    intros ? [= <-]. split; [lia|done]. }
  destruct (pat !! gl_p s) as [c|] eqn:Hc; [|destruct (gl_star s) eqn:?; simplify_eq; by apply Hb].
  pose proof (lookup_lt_Some _ _ _ Hc).
  destruct (val !! gl_v s) as [x|] eqn:Hx; [|destruct (gl_star s) eqn:?; simplify_eq; by apply Hb].
  repeat case_match; simplify_eq; try (by apply Hb); constructor; cbn; try lia.
  - intros k Hk. destruct (Hstar k Hk). split; [lia|done].
  - bool_prop. subst. intros ? [= <-]. split; [lia|done].
Qed.

Lemma glob_step_measure s s' :
  glob_wf s -> gl_v s < length val -> glob_step pat val s = Some s' ->
  glob_measure s' < glob_measure s.
Proof.
  intros [Hp Hv Hvas Hstar] Hlt Hs. unfold glob_step in Hs.
  assert (forall k, gl_star s = Some k ->
    glob_measure (mk_glob_state (S k) (S (gl_valueAtStar s)) (Some k) (S (gl_valueAtStar s)))
      < glob_measure s) as Hb.
  { intros k Hk. destruct (Hstar k Hk). unfold glob_measure. rewrite Hk. cbn [from_option gl_star gl_v gl_valueAtStar].
    replace (length pat - S k + (length val - gl_valueAtStar s))
      with (S (length pat - S k + (length val - S (gl_valueAtStar s)))) by lia.
    cbn [Nat.mul]. lia. }
  destruct (pat !! gl_p s) as [c|] eqn:Hc; [|destruct (gl_star s) eqn:?; simplify_eq; by apply Hb].
  pose proof (lookup_lt_Some _ _ _ Hc).
  destruct (val !! gl_v s) as [x|] eqn:Hx; [|destruct (gl_star s) eqn:?; simplify_eq; by apply Hb].
  repeat case_match; simplify_eq; try (by apply Hb); unfold glob_measure;
    cbn [from_option gl_star gl_v gl_valueAtStar]; [lia|].
  assert (from_option S 0 (gl_star s) <= gl_p s).
  { destruct (gl_star s) as [k|] eqn:Hk; cbn; [|lia]. destruct (Hstar k eq_refl). lia. }
  assert (length pat - S (gl_p s) + (length val - gl_v s) <
    length pat - from_option S 0 (gl_star s) + (length val - gl_valueAtStar s)) as Hm by lia.
  nia.
Qed.

Lemma drop_lookup (l : list rune) k c : l !! k = Some c -> drop k l = c :: drop (S k) l.
Proof. intros. by apply drop_S. Qed.

Lemma glob_step_sound s s' :
  glob_wf s -> gl_v s < length val -> glob_step pat val s = Some s' ->
  glob_sound_inv s -> glob_sound_inv s'.
Proof.
  intros [Hp Hv Hvas Hstar] Hlt Hs [Hmain Hback]. unfold glob_step in Hs.
  assert (forall k, gl_star s = Some k -> glob_sound_inv
    (mk_glob_state (S k) (S (gl_valueAtStar s)) (Some k) (S (gl_valueAtStar s)))) as Hb.
  { intros k Hk. split; cbn.
    - apply Hback; [done|lia].
    - intros ? j [= <-] Hj. apply Hback; [done|lia]. }
  destruct (pat !! gl_p s) as [c|] eqn:Hc; [|destruct (gl_star s) eqn:?; simplify_eq; by apply Hb].
  destruct (val !! gl_v s) as [x|] eqn:Hx; [|destruct (gl_star s) eqn:?; simplify_eq; by apply Hb].
  rewrite (drop_lookup pat _ _ Hc), (drop_lookup val _ _ Hx) in Hmain.
  repeat case_match; simplify_eq; try (by apply Hb); split; cbn; try done.
  - intros Hg. apply Hmain. apply orb_true_iff in H as [H|H]; bool_prop; subst; [by constructor|].
    destruct (decide (x = STAR)) as [->|]; [|by apply glob_char].
    by apply (glob_star _ [STAR]).
  - bool_prop; subst. intros Hg. apply Hmain. rewrite <- (drop_lookup val _ _ Hx).
    by apply (glob_star _ []).
  - bool_prop; subst. intros ? j [= <-] Hj Hg. apply Hmain. rewrite <- (drop_lookup val _ _ Hx).
    apply (glob_star_drop _ _ _ j); [done|]. by apply (glob_star _ []).
Qed.

(** The three ways one turn keeps the invariant, for a star-free value. *)
Lemma glob_complete_back s k :
  ~ glob (drop (gl_p s) pat) (drop (gl_v s) val) ->
  gl_star s = Some k -> glob_complete_inv s ->
  glob_complete_inv (mk_glob_state (S k) (S (gl_valueAtStar s)) (Some k) (S (gl_valueAtStar s))).
Proof.
  intros Hno Hk [Hmain _]. split; cbn.
  - intros Hg. destruct (Hmain Hg) as [?|(k' & j & Hk' & Hj & Hgj)]; [done|].
    rewrite Hk in Hk'. injection Hk' as <-.
    destruct (decide (j = S (gl_valueAtStar s))) as [->|]; [by left|].
    right. exists k, j. repeat split; auto; lia.
  - intros ? [= <-]. rewrite Nat.sub_diag. split; [lia|]. by rewrite take_0.
Qed.

Lemma glob_complete_char s c x :
  glob_wf s -> pat !! gl_p s = Some c -> val !! gl_v s = Some x -> c <> STAR ->
  glob_complete_inv s ->
  glob_complete_inv (mk_glob_state (S (gl_p s)) (S (gl_v s)) (gl_star s) (gl_valueAtStar s)).
Proof.
  intros [Hp Hv Hvas Hstar] Hc Hx Hcs [Hmain Hsync].
  rewrite (drop_lookup pat _ _ Hc), (drop_lookup val _ _ Hx) in Hmain. split; cbn.
  - intros Hg. destruct (Hmain Hg) as [Hm|?]; [left|by right]. inversion Hm; by subst.
  - intros k Hk. destruct (Hsync k Hk) as [-> Hf]. destruct (Hstar k Hk).
    split; [lia|]. replace (gl_p s - k) with (S (gl_p s - S k)) by lia.
    rewrite (take_S_r _ _ c); [|rewrite lookup_drop; rewrite <- Hc; f_equal; lia].
    apply Forall_app. auto.
Qed.

(** A later star makes the alternatives of the earlier one redundant. *)
Lemma glob_complete_star s :
  glob_wf s -> pat !! gl_p s = Some STAR -> glob_complete_inv s ->
  glob_complete_inv (mk_glob_state (S (gl_p s)) (gl_v s) (Some (gl_p s)) (gl_v s)).
Proof.
  intros [Hp Hv Hvas Hstar] Hc [Hmain Hsync].
  rewrite (drop_lookup pat _ _ Hc) in Hmain.
  split; cbn; [|intros ? [= <-]; rewrite Nat.sub_diag; split; [lia|by rewrite take_0]].
  intros Hg. assert (glob (STAR :: drop (S (gl_p s)) pat) (drop (gl_v s) val)) as Hall.
  { destruct (Hmain Hg) as [Hm|(k & j & Hk & Hj & Hgj)]; [done|].
    destruct (Hsync k Hk) as [Hvk Hf]. destruct (Hstar k Hk).
    rewrite <- (take_drop (gl_p s - S k) (drop (S k) pat)) in Hgj.
    apply glob_starfree_drop in Hgj as [_ Hgj]; [|done].
    rewrite drop_drop in Hgj. replace (S k + (gl_p s - S k)) with (gl_p s) in Hgj by lia.
    rewrite (drop_lookup pat _ _ Hc), drop_drop, length_take, length_drop in Hgj.
    eapply (glob_star_drop _ _ (gl_v s)), Hgj. lia. }
  inversion Hall as [| |? ? ? ? ?|? v1 v2 Hv2 Heq Heq2]; subst; [done|].
  destruct v1 as [|y v1]; [left; by cbn in *; subst|].
  right. exists (gl_p s), (gl_v s + length (y :: v1)). split; [done|].
  pose proof (f_equal length Heq2) as Hl. rewrite length_drop, length_app in Hl.
  split; [cbn in *; lia|]. rewrite <- drop_drop, <- Heq2. by rewrite drop_app_length.
Qed.

Lemma glob_step_complete s s' :
  Forall (fun c => c <> STAR) val ->
  glob_wf s -> gl_v s < length val -> glob_step pat val s = Some s' ->
  glob_complete_inv s -> glob_complete_inv s'.
Proof.
  intros Hval Hwf Hlt Hs Hinv. unfold glob_step in Hs.
  destruct (val !! gl_v s) as [x|] eqn:Hx; [|apply lookup_ge_None in Hx; lia].
  assert (x <> STAR) as Hxs by (by eapply Forall_lookup_1 in Hval).
  destruct (pat !! gl_p s) as [c|] eqn:Hc; cycle 1.
  { destruct (gl_star s) as [k|] eqn:Hk; simplify_eq. apply glob_complete_back; try done.
    apply lookup_ge_None in Hc. rewrite (drop_ge pat) by done.
    intros Hnil%glob_nil_inv%(f_equal length). rewrite length_drop in Hnil.
    cbn in Hnil. lia. }
  destruct (bool_decide (c = QUESTION) || bool_decide (c = x)) eqn:Hcase.
  { simplify_eq. eapply glob_complete_char; eauto.
    apply orb_true_iff in Hcase as [?|?]; bool_prop; by subst. }
  apply orb_false_iff in Hcase as [Hq Hcx]. bool_prop.
  destruct (bool_decide (c = STAR)) eqn:Hcs; bool_prop.
  { simplify_eq. by apply glob_complete_star. }
  destruct (gl_star s) as [k|] eqn:Hk; simplify_eq. apply glob_complete_back; try done.
  rewrite (drop_lookup pat _ _ Hc), (drop_lookup val _ _ Hx). inversion 1; by subst.
Qed.

Lemma glob_step_None s :
  gl_v s < length val -> glob_step pat val s = None ->
  gl_star s = None /\ ~ glob (drop (gl_p s) pat) (drop (gl_v s) val).
Proof.
  intros Hlt Hs. unfold glob_step in Hs.
  destruct (val !! gl_v s) as [x|] eqn:Hx; [|apply lookup_ge_None in Hx; lia].
  destruct (pat !! gl_p s) as [c|] eqn:Hc; cycle 1.
  { destruct (gl_star s); simplify_eq. split; [done|].
    apply lookup_ge_None in Hc. rewrite (drop_ge pat) by done.
    intros Hnil%glob_nil_inv%(f_equal length). rewrite length_drop in Hnil.
    cbn in Hnil. lia. }
  rewrite (drop_lookup pat _ _ Hc), (drop_lookup val _ _ Hx).
  destruct (bool_decide _ || bool_decide _) eqn:Hcase; [done|].
  apply orb_false_iff in Hcase as [??]. bool_prop.
  destruct (bool_decide (c = STAR)) eqn:?; [done|]. bool_prop.
  destruct (gl_star s); simplify_eq. split; [done|]. inversion 1; by subst.
Qed.

(** Every run ends within its measure. *)
Lemma glob_run_total fuel s :
  glob_wf s -> glob_measure s <= fuel -> is_Some (glob_run fuel pat val s).
Proof.
  revert s. induction fuel as [|fuel IH]; intros s Hwf Hm; cbn [glob_run];
    (case_bool_decide as Hle; [done|]).
  - unfold glob_measure in Hm. nia.
  - destruct (glob_step pat val s) as [s'|] eqn:Hs; [|done].
    assert (gl_v s < length val) as Hlt by lia.
    apply IH; [by eapply glob_step_wf|].
    pose proof (glob_step_measure _ _ Hwf Hlt Hs). lia.
Qed.

Lemma glob_run_sound fuel s :
  glob_wf s -> glob_sound_inv s -> glob_run fuel pat val s = Some true -> glob pat val.
Proof.
  revert s. induction fuel as [|fuel IH]; intros s Hwf Hinv; cbn [glob_run];
    (case_bool_decide as Hle; [intros [= Ho]|]); try done.
  1,2: apply (proj1 Hinv); rewrite (drop_ge val) by done; by apply glob_only_stars.
  destruct (glob_step pat val s) as [s'|] eqn:Hs; [|done]. apply IH.
  - eapply glob_step_wf; eauto; lia.
  - eapply glob_step_sound; eauto; lia.
Qed.

(** When the value is used up, no other reading of the last star is left. *)
Lemma glob_complete_end s :
  glob_wf s -> glob_complete_inv s -> length val <= gl_v s -> glob pat val ->
  only_stars (drop (gl_p s) pat) = true.
Proof.
  intros Hwf [Hmain Hsync] Hle Hg. apply glob_only_stars.
  destruct (Hmain Hg) as [Hm|(k & j & Hk & Hj & Hgj)].
  { by rewrite (drop_ge val) in Hm. }
  destruct (Hsync k Hk) as [Hv Hf]. destruct (gw_star _ Hwf k Hk).
  rewrite <- (take_drop (gl_p s - S k) (drop (S k) pat)) in Hgj.
  apply glob_starfree_drop in Hgj as [Hlen _]; [|done].
  rewrite length_take, !length_drop in Hlen. pose proof (gw_p _ Hwf). lia.
Qed.

Lemma glob_run_complete fuel s :
  Forall (fun c => c <> STAR) val ->
  glob_wf s -> glob_complete_inv s -> glob_run fuel pat val s = Some false -> ~ glob pat val.
Proof.
  intros Hval. revert s. induction fuel as [|fuel IH]; intros s Hwf Hinv; cbn [glob_run];
    (case_bool_decide as Hle; [intros [= Ho] Hg; by rewrite (glob_complete_end s) in Ho|]);
    try done.
  destruct (glob_step pat val s) as [s'|] eqn:Hs.
  - apply IH; [eapply glob_step_wf|eapply glob_step_complete]; eauto; lia.
  - intros _ Hg. apply glob_step_None in Hs as [Hk Hno]; [|lia].
    destruct (proj1 Hinv Hg) as [?|(k & j & Hk' & _)]; congruence.
Qed.

Lemma glob_init_wf : glob_wf glob_init.
Proof. constructor; cbn; (lia || done). Qed.

Lemma glob_init_sound : glob_sound_inv glob_init.
Proof. split; [done|]. by intros. Qed.

Lemma glob_init_complete : glob_complete_inv glob_init.
Proof. split; [by left|]. by intros. Qed.

End Run.

(** ** The matcher *)

Lemma globMatchRunes_run pat val :
  glob_run (glob_fuel pat val) pat val glob_init = Some (globMatchRunes pat val).
Proof.
  unfold globMatchRunes.
  destruct (glob_run_total pat val (glob_fuel pat val) glob_init) as [b ->]; [..|done].
  - apply glob_init_wf.
  - unfold glob_measure, glob_fuel. cbn [from_option gl_star gl_v gl_valueAtStar glob_init].
    by rewrite !Nat.sub_0_r.
Qed.

Lemma globMatchRunes_sound pat val : globMatchRunes pat val = true -> glob pat val.
Proof.
  intros H. pose proof (globMatchRunes_run pat val) as Hr. rewrite H in Hr.
  eapply glob_run_sound; eauto using glob_init_wf, glob_init_sound.
Qed.

Lemma globMatchRunes_complete pat val :
  Forall (fun c => c <> STAR) val -> glob pat val -> globMatchRunes pat val = true.
Proof.
  intros Hval Hg. destruct (globMatchRunes pat val) eqn:H; [done|].
  pose proof (globMatchRunes_run pat val) as Hr. rewrite H in Hr.
  exfalso. eapply glob_run_complete; eauto using glob_init_wf, glob_init_complete.
Qed.

(** C34. The matcher's backtracking loop always ends: with [glob_fuel]
    turns it returns, for every pattern and value, and that result is
    [globMatchBytes]'s. *)
Theorem globMatchBytes_terminates pattern value :
  exists b, glob_run (glob_fuel (runes pattern) (runes value)) (runes pattern) (runes value)
    glob_init = Some b /\ globMatchBytes pattern value = b.
Proof. eexists. split; [apply globMatchRunes_run|done]. Qed.

(** C33. The matcher agrees with the declarative meaning of a pattern: what
    it accepts is a match, and it accepts every match of a value that
    contains no literal star. *)
Theorem globMatchBytes_correct pattern value :
  (globMatchBytes pattern value = true -> glob (runes pattern) (runes value)) /\
  (Forall (fun c => c <> STAR) (runes value) ->
   glob (runes pattern) (runes value) -> globMatchBytes pattern value = true).
Proof. split; [apply globMatchRunes_sound|apply globMatchRunes_complete]. Qed.

Lemma globMatchBytes_correct_witness :
  globMatchBytes "git@*:team/?epo*" "git@example.com:team/repo.git" = true /\
  globMatchBytes "*b" "aab" = true.
Proof.
  split; [vm_compute; reflexivity|].
  apply (globMatchBytes_correct "*b" "aab").
  - vm_compute. repeat constructor; discriminate.
  - apply (glob_star _ (runes "aa") (runes "b")). apply glob_char; [constructor|discriminate].
Defined.

(** The condition on the value is needed: the literal comparison is
    tried before the star, so a star in the pattern facing a star in the
    value is consumed as a literal and its wildcard meaning is lost.  The
    pattern [*] does not match the value [*x], which it means to match. *)
Theorem globMatchBytes_literal_star :
  globMatchBytes "*" "*x" = false /\ glob (runes "*") (runes "*x").
Proof.
  split; [vm_compute; reflexivity|].
  apply (glob_star [] (runes "*x") []). constructor.
Qed.
