(* ===== verification/Asker.v ===== *)
(** * Asker: [pkg/approval/asker.go], and the wording of lengths

    Who is asking, in the words a prompt and a promise use, whether two
    processes share a session, and how a length reads. *)

From S2P Require Import Prelude.
From S2P Require Import GoText.
From S2P Require Import Proto.

Local Open Scope Z_scope.

(** ** Wording of numbers, from [prompt.go] and [grants.go] *)

Definition plural (n : Z) (one many : string) : string :=
  if n =? 1 then itoa n +:+ " " +:+ one else itoa n +:+ " " +:+ many.

Definition HumanDuration (d : duration) : string :=
  if d <? Minute then Duration_String d
  else
    let hours := Z.quot d Hour in
    let minutes := Z.quot (Z.rem d Hour) Minute in
    if hours =? 0 then plural (i32 minutes) "minute" "minutes"
    else if minutes =? 0 then plural (i32 hours) "hour" "hours"
    else plural (i32 hours) "hour" "hours" +:+ " " +:+ plural (i32 minutes) "minute" "minutes".

(** ** The session behind a process *)

Definition programName (executable : string) : string :=
  if bool_decide (executable = EmptyString) then EmptyString else Base executable.

Definition sessionLeader (proc : option ClientProcess) : option ProcessAncestor :=
  find_first pa_session_leader proc⇢cp_ancestry.

Definition sessionCreator (proc : option ClientProcess) : option ProcessAncestor :=
  find_first pa_started_session proc⇢cp_ancestry.

Definition AskerName (proc : option ClientProcess) : string :=
  match sessionCreator proc with
  | Some creator => programName (pa_executable creator)
  | None =>
    match sessionLeader proc with
    | Some leader => programName (pa_executable leader)
    | None =>
      if negb (proc⇢cp_session_id =? 0) && (proc⇢cp_pid =? proc⇢cp_session_id)
      then programName proc⇢cp_executable else EmptyString
    end
  end.

(** ** Who a promise is made to *)

Inductive GrantReach := GrantReachSession | GrantReachMachine.
#[export] Instance GrantReach_eq_dec : EqDecision GrantReach.
Proof. solve_decision. Defined.

Definition GrantSubject (req : ApprovalRequest) : string :=
  let proc := (rq_requester req)⇢ri_process in
  if proc⇢cp_session_id =? 0 then EmptyString
  else
    match sessionCreator proc with
    | Some creator => "this " +:+ programName (pa_executable creator) +:+ " window"
    | None =>
      match sessionLeader proc with
      | Some leader => programName (pa_executable leader)
      | None => programName proc⇢cp_executable
      end
    end.

Definition GrantMachine (req : ApprovalRequest) : string :=
  let name := (rq_requester req)⇢ri_name in
  if bool_decide (name <> EmptyString) then name
  else if (rq_requester req)⇢ri_local then "this machine" else "that machine".

Definition GrantPromise (req : ApprovalRequest) (reach : GrantReach) : string :=
  match reach with
  | GrantReachMachine => "any session on " +:+ GrantMachine req
  | GrantReachSession => GrantSubject req
  end.

(** ** Lines of a prompt *)

Definition AskerDetail (proc : option ClientProcess) : string :=
  let name := AskerName proc in
  if bool_decide (name = EmptyString) then EmptyString
  else name +:+ " (session " +:+ itoa proc⇢cp_session_id +:+ ")".

Definition AskerChain (proc : option ClientProcess) : string :=
  let names := map (fun above =>
    let name := programName (pa_executable above) in
    if bool_decide (name = EmptyString) then "pid " +:+ itoa (pa_pid above) else name)
    proc⇢cp_ancestry in
  Join names " ← ".

(** ** The parked-key question *)

Definition SameSession (a b : option ClientProcess) : bool :=
  match a, b with
  | Some a, Some b => negb (cp_session_id a =? 0) && (cp_session_id a =? cp_session_id b)
  | _, _ => false
  end.

Lemma SameSession_spec a b :
  SameSession a b = true <->
  exists p q, a = Some p /\ b = Some q /\ cp_session_id p <> 0 /\
    cp_session_id p = cp_session_id q.
Proof.
  unfold SameSession. destruct a as [p|], b as [q|]; [|naive_solver..].
  rewrite andb_true_iff, negb_true_iff, Z.eqb_neq, Z.eqb_eq. naive_solver.
Qed.
