(* ===== verification/Policy.v ===== *)
(** * Policy: [pkg/approval/policy.go]

    The policy document, the facts rules match against, first-match
    evaluation, the timeouts and the lengths of promises. *)

From S2P Require Import Prelude.
From S2P Require Import GoText.
From S2P Require Import Proto.
From S2P Require Import Glob.
From S2P Require Import Asker.

Local Open Scope Z_scope.

(** ** Constants *)

Definition DefaultSSHAuthTimeout : duration := 90 * Second.
Definition DefaultSignTimeout : duration := Hour.
Definition MinSignTimeout : duration := 30 * Second.
Definition MaxSignTimeout : duration := 24 * Hour.
Definition DefaultGrantTTLs : list duration := [15 * Minute; Hour; 3 * Hour; 8 * Hour].

(** ** The document *)

Definition DefaultPolicy : PolicyDocument :=
  mk_PolicyDocument 1 (Some (mk_Defaults ACTION_PROMPT ACTION_PROMPT None None [])) [].

Definition NewPolicy (doc : option PolicyDocument) : PolicyDocument :=
  match doc with Some d => d | None => DefaultPolicy end.

(** ** Durations *)

Definition durationOr (d : option duration) (fallback : duration) : duration :=
  match d with
  | None => fallback
  | Some v => if v <=? 0 then fallback else v
  end.

Definition GrantRequestTimeout (p : PolicyDocument) : duration :=
  durationOr (pd_defaults p)⇢df_sign_timeout DefaultSignTimeout.

Definition Timeout (p : PolicyDocument) (kind : RequestKind) : duration :=
  match kind with
  | KIND_SSH_AUTH => durationOr (pd_defaults p)⇢df_ssh_auth_timeout DefaultSSHAuthTimeout
  | KIND_PAIRING => 0
  | _ => durationOr (pd_defaults p)⇢df_sign_timeout DefaultSignTimeout
  end.

Definition GrantTTLs (p : PolicyDocument) : list duration :=
  match (pd_defaults p)⇢df_grant_ttl_options with
  | [] => DefaultGrantTTLs
  | options => options
  end.

Definition longest (l : list duration) : duration :=
  fold_left (fun acc ttl => if acc <? ttl then ttl else acc) l 0.

Definition MaxGrantTTL (p : PolicyDocument) : duration :=
  let l := longest (GrantTTLs p) in
  if l <=? 0 then List.last DefaultGrantTTLs 0 else l.

Definition sign_timeout_error : error :=
  errors_New ("a signing request waits for at least " +:+ HumanDuration MinSignTimeout +:+
    " and at most " +:+ HumanDuration MaxSignTimeout).

Definition SetSignTimeout (p : PolicyDocument) (d : duration) : result PolicyDocument :=
  if (d <? MinSignTimeout) || (MaxSignTimeout <? d)
  then Err sign_timeout_error
  else
    let df := match pd_defaults p with
              | Some df => df
              | None => mk_Defaults ACTION_UNSPECIFIED ACTION_UNSPECIFIED None None []
              end in
    Ok (mk_PolicyDocument (pd_version p)
      (Some (mk_Defaults (df_unbound_ssh_auth df) (df_fallback df)
        (df_ssh_auth_timeout df) (Some d) (df_grant_ttl_options df)))
      (pd_rules p)).

(** ** Facts and matching *)

Record facts := mk_facts {
  f_kind : RequestKind;
  f_keyFingerprint : string;
  f_keyLabel : string;
  f_destination : list string;
  f_username : string;
  f_repository : list string;
  f_namespace : string;
  f_requesterInstance : string;
  f_executable : string;
  f_forwarded : bool;
  f_bound : bool;
  f_local : bool
}.

Definition nonempty (s : string) : bool := negb (bool_decide (s = EmptyString)).

Definition factsFor (req : ApprovalRequest) : facts :=
  let auth := rq_ssh_auth req in
  let git := (rq_sshsig req)⇢sg_git_context in
  let label := auth⇢sa_destination_label in
  mk_facts (rq_kind req) (rq_key req)⇢kr_fingerprint (rq_key req)⇢kr_label
    ((if nonempty label && auth⇢sa_bound then [label] else []) ++
     match auth⇢sa_destination with
     | Some host => hk_known_hosts_names host ++ [hk_fingerprint host]
     | None => []
     end)
    auth⇢sa_username
    ((if nonempty git⇢gc_repository_path then [git⇢gc_repository_path] else []) ++
     (if nonempty git⇢gc_origin_url then [git⇢gc_origin_url] else []))
    (rq_sshsig req)⇢sg_namespace
    (rq_requester req)⇢ri_instance_id
    (rq_requester req)⇢ri_process⇢cp_executable
    auth⇢sa_forwarded auth⇢sa_bound (rq_requester req)⇢ri_local.

Definition tristateMatches (want : Tristate) (value : bool) : bool :=
  match want with
  | TRISTATE_TRUE => value
  | TRISTATE_FALSE => negb value
  | TRISTATE_ANY => true
  end.

Section Evaluate.
Context `{Unicode}.

Definition anyMatch (patterns values : list string) (fold : bool) : bool :=
  existsb (fun pattern =>
    existsb (fun value => nonempty value && globMatch pattern value fold) values) patterns.

(** One row of the table of checks: no patterns means no constraint. *)
Definition check (patterns values : list string) (fold : bool) : bool :=
  match patterns with [] => true | _ => anyMatch patterns values fold end.

Definition matches (m : option Match) (f : facts) : bool :=
  match m with
  | None => true
  | Some m =>
    match mt_kinds m with [] => true | kinds => bool_decide (f_kind f ∈ kinds) end
    && check (mt_key_fingerprints m) [f_keyFingerprint f] false
    && check (mt_key_labels m) [f_keyLabel f] true
    && check (mt_destinations m) (f_destination f) true
    && check (mt_usernames m) [f_username f] false
    && check (mt_repositories m) (f_repository f) false
    && check (mt_namespaces m) [f_namespace f] false
    && check (mt_requester_instances m) [f_requesterInstance f] false
    && check (mt_executables m) [f_executable f] false
    && tristateMatches (mt_forwarded m) (f_forwarded f)
    && tristateMatches (mt_bound m) (f_bound f)
    && tristateMatches (mt_local m) (f_local f)
  end.

(** ** Evaluation *)

Record Evaluation := mk_Evaluation {
  ev_Action : Action;
  ev_Rule : string;
  ev_Notify : bool
}.

Definition actionOr (action fallback : Action) : Action :=
  match action with ACTION_UNSPECIFIED => fallback | _ => action end.

(** What a rule that matched says. *)
Definition rule_evaluation (rule : Rule) : Evaluation :=
  let name := if nonempty (rl_name rule) then rl_name rule else "unnamed rule"%string in
  mk_Evaluation (rl_action rule) name
    (match rl_notify rule with Some b => b | None => true end).

(** What the defaults say when no rule matched. *)
Definition default_evaluation (p : PolicyDocument) (req : ApprovalRequest) : Evaluation :=
  let defaults := pd_defaults p in
  if bool_decide (rq_kind req = KIND_SSH_AUTH) && negb (rq_ssh_auth req)⇢sa_bound
  then mk_Evaluation (actionOr defaults⇢df_unbound_ssh_auth ACTION_PROMPT)
         "default for unbound SSH authentication" true
  else mk_Evaluation (actionOr defaults⇢df_fallback ACTION_PROMPT) "default" true.

Fixpoint evaluate_rules (rules : list Rule) (f : facts) : option Evaluation :=
  match rules with
  | [] => None
  | rule :: rules' =>
    if matches (rl_match rule) f then Some (rule_evaluation rule)
    else evaluate_rules rules' f
  end.

Definition Evaluate (p : PolicyDocument) (req : ApprovalRequest) : Evaluation :=
  match evaluate_rules (pd_rules p) (factsFor req) with
  | Some ev => ev
  | None => default_evaluation p req
  end.

End Evaluate.

(** ** First match wins *)

Section EvaluateFacts.
Context `{Unicode}.

Lemma evaluate_rules_find rules f :
  evaluate_rules rules f =
  rule_evaluation <$> find_first (fun r => matches (rl_match r) f) rules.
Proof. induction rules as [|r rules IH]; cbn; [done|]. by case_match. Qed.

(** Rules are read in order and the first one that matches decides;
    when none matches, the default for the kind of request does. *)
Theorem Evaluate_first_match p req ev :
  Evaluate p req = ev <->
  (exists l1 r l2, pd_rules p = l1 ++ r :: l2 /\
     matches (rl_match r) (factsFor req) = true /\
     Forall (fun r' => matches (rl_match r') (factsFor req) = false) l1 /\
     ev = rule_evaluation r) \/
  (Forall (fun r => matches (rl_match r) (factsFor req) = false) (pd_rules p) /\
     ev = default_evaluation p req).
Proof.
  unfold Evaluate. rewrite evaluate_rules_find.
  destruct (find_first _ _) as [r|] eqn:Hf; cbn.
  - pose proof Hf as (l1 & l2 & Hl & Hm & Hn)%find_first_Some. split.
    + intros <-. left. exists l1, r, l2. auto.
    + intros [(l1' & r' & l2' & Hl' & Hm' & Hn' & ->)|[Hall _]].
      * enough (find_first (fun r => matches (rl_match r) (factsFor req)) (pd_rules p)
          = Some r') by congruence.
        apply find_first_Some. eauto.
      * apply find_first_None in Hall. congruence.
  - apply find_first_None in Hf. split; [by right; eauto|].
    intros [(l1' & r' & l2' & Hl' & Hm' & _)|[_ ->]]; [|done].
    rewrite Hl', Forall_app, Forall_cons in Hf. destruct Hf as (_ & ? & _). congruence.
Qed.

(** A constraint whose facts are all empty is not met. *)
Lemma check_no_values patterns values fold :
  patterns <> [] -> Forall (fun v => v = EmptyString) values ->
  check patterns values fold = false.
Proof.
  intros Hp Hv. unfold check. destruct patterns as [|p ps]; [done|].
  apply not_true_is_false. unfold anyMatch. rewrite existsb_elem.
  intros (pat & _ & (v & Hin & Hm)%existsb_elem).
  rewrite Forall_forall in Hv. specialize (Hv v Hin). by subst.
Qed.

(** A rule that names destinations never matches a login whose
    destination is unknown: no host key and no bound label.  So no rule for
    known hosts can approve, or deny, an unbound login. *)
Theorem destination_rule_needs_destination m req :
  mt_destinations m <> [] ->
  (rq_ssh_auth req)⇢sa_bound = false ->
  (rq_ssh_auth req)⇢sa_destination = None ->
  matches (Some m) (factsFor req) = false.
Proof.
  intros Hd Hb Hn. unfold matches, factsFor. cbn [f_destination].
  rewrite Hb, Hn, andb_false_r. cbn [app].
  rewrite (check_no_values (mt_destinations m)) by (done || constructor).
  by rewrite !andb_false_r.
Qed.

End EvaluateFacts.

(** A login with nothing in it but its kind. *)
Definition blank_auth : SshAuthRequest :=
  mk_SshAuthRequest "git" "ssh-connection" "publickey" [] false false None [] EmptyString 0 None.
Definition blank_request (kind : RequestKind) (op : Operation) : ApprovalRequest :=
  mk_ApprovalRequest EmptyString None None kind None None 0 EmptyString [] false None None op.
Definition host_match : Match :=
  mk_Match [] [] [] ["*"%string] [] [] [] [] [] TRISTATE_ANY TRISTATE_ANY TRISTATE_ANY.

Lemma destination_rule_needs_destination_witness :
  matches (Some host_match) (factsFor (blank_request KIND_SSH_AUTH (OpSshAuth blank_auth))) = false.
Proof. apply destination_rule_needs_destination; [discriminate|reflexivity..]. Defined.

(** ** Durations *)

Lemma durationOr_pos d fallback : 0 < fallback -> 0 < durationOr d fallback.
Proof. unfold durationOr. intros. destruct d; [|done]. case_match; bool_prop; lia. Qed.

(** A request of every kind but a pairing has a deadline, and a
    request for a promise alone has one too; a pairing has none. *)
Theorem Timeout_zero_pairing p kind :
  0 < GrantRequestTimeout p /\
  0 <= Timeout p kind /\ (Timeout p kind = 0 <-> kind = KIND_PAIRING).
Proof.
  assert (0 < GrantRequestTimeout p) by (apply durationOr_pos; reflexivity).
  assert (0 < durationOr (pd_defaults p)⇢df_ssh_auth_timeout DefaultSSHAuthTimeout)
    by (apply durationOr_pos; reflexivity).
  unfold GrantRequestTimeout in *. split; [done|].
  destruct kind; cbn; (split; [lia|]); split; (lia || done).
Qed.

(** Setting the signing budget is refused outside thirty seconds
    to a day; inside it, the new budget is what signing requests and requests
    for a promise wait, and nothing else of the policy changes. *)
Theorem SetSignTimeout_spec p d :
  match SetSignTimeout p d with
  | Ok p' =>
    MinSignTimeout <= d <= MaxSignTimeout /\
    GrantRequestTimeout p' = d /\
    (forall kind, Timeout p' kind =
      match kind with KIND_SSH_AUTH | KIND_PAIRING => Timeout p kind | _ => d end) /\
    GrantTTLs p' = GrantTTLs p /\ pd_rules p' = pd_rules p
  | Err e => e = sign_timeout_error /\ (d < MinSignTimeout \/ MaxSignTimeout < d)
  end.
Proof.
  unfold SetSignTimeout. destruct (_ || _) eqn:Hb.
  { apply orb_true_iff in Hb as [?|?]; bool_prop; auto. }
  bool_prop. assert (durationOr (Some d) DefaultSignTimeout = d) as Hd.
  { unfold durationOr. case_match; [bool_prop|done]. unfold MinSignTimeout, Second in *. lia. }
  repeat split; cbn; auto.
  - intros []; cbn; auto. by destruct (pd_defaults p).
  - unfold GrantTTLs. cbn. by destruct (pd_defaults p).
Qed.

(** The maximum of a list of lengths, started at zero. *)
Lemma longest_acc l acc :
  let m := fold_left (fun acc ttl => if acc <? ttl then ttl else acc) l acc in
  acc <= m /\ Forall (fun x => x <= m) l /\ (m = acc \/ m ∈ l).
Proof.
  revert acc. induction l as [|x l IH]; intros acc; cbn.
  { split; [lia|]. auto. }
  destruct (IH (if acc <? x then x else acc)) as (Hle & Hall & Hin).
  set (m := fold_left _ _ _) in *. destruct (acc <? x) eqn:?; bool_prop.
  all: split; [lia|]; split; [constructor; [lia|done]|].
  all: destruct Hin as [->|]; [|by right; right].
  - right. left.
  - by left.
Qed.

(** The longest promise this instance makes is positive, is at
    least as long as every length a prompt offers, and is itself an offered
    length (or the longest default one, when no offered length is
    positive). *)
Theorem MaxGrantTTL_spec p :
  0 < MaxGrantTTL p /\
  Forall (fun ttl => ttl <= MaxGrantTTL p) (GrantTTLs p) /\
  (MaxGrantTTL p ∈ GrantTTLs p \/
   (Forall (fun ttl => ttl <= 0) (GrantTTLs p) /\ MaxGrantTTL p = 8 * Hour)).
Proof.
  unfold MaxGrantTTL. destruct (longest_acc (GrantTTLs p) 0) as (H0 & Hall & Hin).
  fold (longest (GrantTTLs p)) in *. destruct (longest (GrantTTLs p) <=? 0) eqn:He; bool_prop.
  - assert (Forall (fun ttl => ttl <= 0) (GrantTTLs p)) as Hz.
    { eapply Forall_impl; [exact Hall|]. cbn. lia. }
    split; [reflexivity|]. split; [|by right].
    eapply Forall_impl; [exact Hz|]. intros x Hx. etrans; [exact Hx|]. vm_compute. discriminate.
  - split; [lia|]. split; [done|]. left. destruct Hin as [Hin|Hin]; [lia|done].
Qed.
