(* ===== verification/Ssh.v ===== *)
(** * Ssh: the interface of [golang.org/x/crypto/ssh], the hash functions and
    the protobuf codec

    None of these is code of the repository, so they are parameters: a class
    of operations each, with the documented behaviour the modelled code
    relies on as separate classes of laws, assumed only by the theorems that
    need them. *)

From S2P Require Import Prelude.
From S2P Require Import GoText.

Local Open Scope Z_scope.

(** ** Digests: [crypto/sha256], [crypto/sha512], [crypto/hmac] *)

Class Hashes := {
  sha256 : bytes -> bytes;
  sha512 : bytes -> bytes;
  hmac_sha256 : bytes -> bytes -> bytes;
  hmac_sha512 : bytes -> bytes -> bytes
}.

(** The sizes the packages document. *)
Class HashLaws `{Hashes} : Prop := {
  sha256_length m : length (sha256 m) = 32%nat;
  sha512_length m : length (sha512 m) = 64%nat
}.

(** ** Keys and signatures *)

Record Signature := mk_Signature { sig_Format : string; sig_Blob : bytes; sig_Rest : bytes }.

(** The structs the repository passes to [ssh.Marshal]. *)
Record blobBody := mk_blobBody {
  bb_Namespace : string;
  bb_Reserved : string;
  bb_HashAlgorithm : string;
  bb_Hash : string
}.

Record wire := mk_wire {
  wi_Version : Z;
  wi_PublicKey : string;
  wi_Namespace : string;
  wi_Reserved : string;
  wi_HashAlgorithm : string;
  wi_Signature : string
}.

Class Ssh := {
  PublicKey : Type;
  ssh_Marshal : PublicKey -> bytes;
  ssh_Type : PublicKey -> string;
  FingerprintSHA256 : PublicKey -> string;
  ParsePublicKey : bytes -> result PublicKey;
  (** [pub.Verify(data, sig)]: [None] is a nil error. *)
  ssh_Verify : PublicKey -> bytes -> Signature -> option error;
  MarshalSignature : Signature -> bytes;
  UnmarshalSignature : bytes -> result Signature;
  MarshalBlobBody : blobBody -> bytes;
  MarshalWire : wire -> bytes;
  UnmarshalWire : bytes -> result wire
}.

(** A signer: its public half, its plain [Sign], and [SignWithAlgorithm] for
    the signers that have it. *)
Record Signer `{Ssh} := mk_Signer {
  signer_PublicKey : PublicKey;
  signer_Sign : bytes -> result Signature;
  signer_SignWithAlgorithm : option (bytes -> string -> result Signature)
}.

(** The encoding of a string field, RFC 4251 section 5. *)
Definition put_string (b : bytes) : bytes := put_u32 (Z.of_nat (length b)) ++ b.

Class SshLaws `{Ssh} : Prop := {
  ParsePublicKey_Marshal k : ParsePublicKey (ssh_Marshal k) = Ok k;
  UnmarshalSignature_Marshal s : UnmarshalSignature (MarshalSignature s) = Ok s;
  UnmarshalWire_Marshal w : UnmarshalWire (MarshalWire w) = Ok w;
  (** [ssh.Marshal] of a struct of strings writes its fields in order. *)
  MarshalBlobBody_spec b : MarshalBlobBody b =
    put_string (of_string (bb_Namespace b)) ++ put_string (of_string (bb_Reserved b)) ++
    put_string (of_string (bb_HashAlgorithm b)) ++ put_string (of_string (bb_Hash b))
}.

(** A signer whose signatures its own public key accepts. *)
Definition sound_signer `{Ssh} (s : Signer) : Prop :=
  (forall m sig, signer_Sign s m = Ok sig -> ssh_Verify (signer_PublicKey s) m sig = None) /\
  (forall f m alg sig, signer_SignWithAlgorithm s = Some f -> f m alg = Ok sig ->
     ssh_Verify (signer_PublicKey s) m sig = None).

(** ** [google.golang.org/protobuf/proto] for one message type *)

Class Codec (M : Type) := {
  Marshal : M -> result bytes;
  Unmarshal : bytes -> result M
}.

Class CodecLaws (M : Type) `{Codec M} : Prop := {
  Unmarshal_Marshal m b : Marshal m = Ok b -> Unmarshal b = Ok m
}.

(** ** A concrete instance

    A self-consistent interpretation of the interfaces, used to evaluate
    definitions on concrete inputs and to show that the laws can hold.  Keys
    are byte strings, a signature is the key followed by what it signs, and
    structured values are written with each byte marked and an end mark. *)

Module Toy.

(** A string followed by anything: a mark before each byte, and one after. *)
Fixpoint esc (b : bytes) : bytes :=
  match b with [] => [x00] | x :: b' => x01 :: x :: esc b' end.

Fixpoint unesc (b : bytes) : option (bytes * bytes) :=
  match b with
  | x00 :: b' => Some ([], b')
  | x01 :: x :: b' => '(s, r) ← unesc b'; Some (x :: s, r)
  | _ => None
  end.

Lemma unesc_esc s r : unesc (esc s ++ r) = Some (s, r).
Proof. induction s as [|x s IH]; cbn; [done|]. by rewrite IH. Qed.

Definition esc_strings (l : list string) : bytes := concat (map (fun s => esc (of_string s)) l).

Fixpoint unesc_strings (n : nat) (b : bytes) : option (list string) :=
  match n with
  | O => match b with [] => Some [] | _ => None end
  | S n' => '(s, r) ← unesc b; l ← unesc_strings n' r; Some (to_string s :: l)
  end.

Lemma unesc_esc_strings l : unesc_strings (length l) (esc_strings l) = Some l.
Proof.
  induction l as [|s l IH]; [done|]. unfold esc_strings. cbn [map concat length unesc_strings].
  rewrite unesc_esc. cbn [mbind option_bind]. fold (esc_strings l). rewrite IH.
  cbn [mbind option_bind]. by rewrite to_of_string.
Qed.

(** Integers in unary, with the sign first. *)
Definition z_string (z : Z) : string :=
  to_string ((if z <? 0 then x01 else x00) :: replicate (Z.to_nat (Z.abs z)) x00).
Definition string_z (s : string) : Z :=
  match of_string s with
  | x01 :: l => - Z.of_nat (length l)
  | _ :: l => Z.of_nat (length l)
  | [] => 0
  end.

Lemma string_z_string z : string_z (z_string z) = z.
Proof.
  unfold string_z, z_string. rewrite of_to_string.
  destruct (z <? 0) eqn:Hz; rewrite length_replicate; lia.
Qed.

(** A codec for a finite table of messages. *)
Fixpoint table_Marshal `{EqDecision A} (l : list A) (a : A) : result bytes :=
  match l with
  | [] => Err (errors_New "not in the table")
  | x :: l' => if decide (a = x) then Ok [x01] else b ← table_Marshal l' a; Ok (x00 :: b)
  end.

Fixpoint table_Unmarshal {A} (l : list A) (b : bytes) : result A :=
  match l, b with
  | x :: _, [x01] => Ok x
  | _ :: l', x00 :: b' => table_Unmarshal l' b'
  | _, _ => Err (errors_New "not in the table")
  end.

Definition table `{EqDecision A} (l : list A) : Codec A := {|
  Marshal := table_Marshal l; Unmarshal := table_Unmarshal l |}.

Lemma table_laws `{EqDecision A} (l : list A) : @CodecLaws A (table l).
Proof.
  constructor. cbn [Marshal Unmarshal table].
  induction l as [|x l IH]; intros m b; cbn [table_Marshal]; [done|].
  destruct (decide (m = x)) as [->|]; [by intros [= <-]|].
  destruct (table_Marshal l m) as [b'|] eqn:E; [|done]. intros [= <-]. cbn. eauto.
Qed.

Definition pad (n : nat) (b : bytes) : bytes := take n (b ++ replicate n x00).

Lemma length_pad n b : length (pad n b) = n.
Proof. unfold pad. rewrite length_take, length_app, length_replicate. lia. Qed.

#[export] Instance hashes : Hashes := {|
  sha256 := pad 32; sha512 := pad 64;
  hmac_sha256 k m := pad 32 (k ++ m); hmac_sha512 k m := pad 64 (k ++ m) |}.

#[export] Instance hash_laws : HashLaws.
Proof. constructor; intros; apply length_pad. Qed.

#[export] Instance ssh : Ssh := {|
  PublicKey := bytes;
  ssh_Marshal k := k;
  ssh_Type _ := "toy"%string;
  FingerprintSHA256 k := "SHA256:" +:+ to_string k;
  ParsePublicKey b := Ok b;
  ssh_Verify k m s :=
    if bool_decide (sig_Blob s = k ++ m) then None else Some (errors_New "bad signature");
  MarshalSignature s :=
    esc_strings [sig_Format s; to_string (sig_Blob s); to_string (sig_Rest s)];
  UnmarshalSignature b :=
    match unesc_strings 3 b with
    | Some [f; x; y] => Ok (mk_Signature f (of_string x) (of_string y))
    | _ => Err (errors_New "not a signature")
    end;
  MarshalBlobBody b := put_string (of_string (bb_Namespace b)) ++
    put_string (of_string (bb_Reserved b)) ++ put_string (of_string (bb_HashAlgorithm b)) ++
    put_string (of_string (bb_Hash b));
  MarshalWire w :=
    esc_strings [z_string (wi_Version w); wi_PublicKey w; wi_Namespace w; wi_Reserved w;
      wi_HashAlgorithm w; wi_Signature w];
  UnmarshalWire b :=
    match unesc_strings 6 b with
    | Some [v; k; n; r; h; s] => Ok (mk_wire (string_z v) k n r h s)
    | _ => Err (errors_New "not a wire signature")
    end
|}.

#[export] Instance ssh_laws : SshLaws.
Proof.
  constructor; cbn [ParsePublicKey ssh_Marshal UnmarshalSignature MarshalSignature
    UnmarshalWire MarshalWire MarshalBlobBody ssh]; [done| | |done].
  - intros [f x y]. rewrite (unesc_esc_strings [_; _; _]).
    cbn [sig_Format sig_Blob sig_Rest]. by rewrite !of_to_string.
  - intros [v k n r h s]. rewrite (unesc_esc_strings [_; _; _; _; _; _]).
    cbn [wi_Version wi_PublicKey wi_Namespace wi_Reserved wi_HashAlgorithm wi_Signature].
    by rewrite string_z_string.
Qed.

Definition signer (k : bytes) : Signer :=
  mk_Signer _ k (fun m => Ok (mk_Signature "toy" (k ++ m) [])) None.

Lemma signer_sound k : sound_signer (signer k).
Proof.
  split; [|done]. intros m sig [= <-]. cbn. by rewrite bool_decide_eq_true_2.
Qed.

End Toy.
