(* ===== verification/Sshsig.v ===== *)
(** * Sshsig: [pkg/sshsig/sshsig.go]

    The SSHSIG blob that gets signed, signing and verifying a message, and
    the binary signature. *)

From S2P Require Import Prelude.
From S2P Require Import GoText.
From S2P Require Import Ssh.

Local Open Scope Z_scope.

Definition Magic : string := "SSHSIG".
Definition Version : Z := 1.
Definition HashSHA512 : string := "sha512".
Definition HashSHA256 : string := "sha256".
Definition DefaultHash : string := HashSHA512.
Definition GitNamespace : string := "git".
Definition KeyAlgoRSA : string := "ssh-rsa".
Definition KeyAlgoRSASHA512 : string := "rsa-sha2-512".

Definition ErrNotSSHSIG : error := sentinel "ErrNotSSHSIG" "sshsig: not an SSHSIG signature".

Section Sshsig.
Context `{Unicode} `{Hashes} `{Ssh}.

Definition Hash (algorithm : string) (message : bytes) : result bytes :=
  if bool_decide (algorithm = HashSHA512) || bool_decide (algorithm = EmptyString)
  then Ok (sha512 message)
  else if bool_decide (algorithm = HashSHA256) then Ok (sha256 message)
  else Err (errors_New ("sshsig: unsupported hash algorithm " +:+ quote algorithm)).

Definition NormaliseHash (algorithm : string) : string :=
  if bool_decide (algorithm = EmptyString) then DefaultHash else algorithm.

Definition SigningBlob (namespace hashAlgorithm : string) (digest : bytes) : bytes :=
  of_string Magic ++
  MarshalBlobBody (mk_blobBody namespace EmptyString (NormaliseHash hashAlgorithm)
    (to_string digest)).

Definition SigningBlobFor (namespace hashAlgorithm : string) (message : bytes) : result bytes :=
  digest ← Hash hashAlgorithm message;
  Ok (SigningBlob namespace hashAlgorithm digest).

(** [sshsig.Signature]. *)
Record SshSignature := mk_SshSignature {
  ss_PublicKey : PublicKey;
  ss_Namespace : string;
  ss_HashAlgorithm : string;
  ss_Signature : Signature
}.

Definition Signature_Marshal (s : SshSignature) : bytes :=
  of_string Magic ++
  MarshalWire (mk_wire Version (to_string (ssh_Marshal (ss_PublicKey s))) (ss_Namespace s)
    EmptyString (NormaliseHash (ss_HashAlgorithm s))
    (to_string (MarshalSignature (ss_Signature s)))).

Definition SignBlob (signer : Signer) (blob : bytes) : result Signature :=
  if bool_decide (ssh_Type (signer_PublicKey signer) <> KeyAlgoRSA)
  then err_ctx "sign: " (signer_Sign signer blob)
  else
    match signer_SignWithAlgorithm signer with
    | None => Err (errors_New
        "sshsig: an RSA key that cannot sign with rsa-sha2-512 is not usable here")
    | Some sign => err_ctx "sign with rsa-sha2-512: " (sign blob KeyAlgoRSASHA512)
    end.

Definition Sign (signer : Signer) (namespace hashAlgorithm : string) (message : bytes)
    : result SshSignature :=
  if bool_decide (namespace = EmptyString)
  then Err (errors_New "sshsig: empty namespace")
  else
    blob ← SigningBlobFor namespace hashAlgorithm message;
    sig ← SignBlob signer blob;
    Ok (mk_SshSignature (signer_PublicKey signer) namespace (NormaliseHash hashAlgorithm) sig).

Definition ParseBinary (body : bytes) : result SshSignature :=
  if bool_decide (length body < String.length Magic)%nat
     || bool_decide (to_string (take (String.length Magic) body) <> Magic)
  then Err ErrNotSSHSIG
  else
    w ← err_ctx "sshsig: parse signature: " (UnmarshalWire (drop (String.length Magic) body));
    if bool_decide (wi_Version w <> Version)
    then Err (errors_New ("sshsig: unsupported version " +:+ itoa (wi_Version w)))
    else
      pub ← err_ctx "sshsig: parse public key: " (ParsePublicKey (of_string (wi_PublicKey w)));
      sig ← err_ctx "sshsig: parse inner signature: "
              (UnmarshalSignature (of_string (wi_Signature w)));
      Ok (mk_SshSignature pub (wi_Namespace w) (wi_HashAlgorithm w) sig).

(** [Verify]: the error, or [None]. *)
Definition Signature_Verify (s : SshSignature) (namespace : string) (message : bytes)
    : option error :=
  if bool_decide (ss_Namespace s <> namespace)
  then Some (errors_New ("sshsig: signature namespace " +:+ quote (ss_Namespace s) +:+
         ", want " +:+ quote namespace))
  else
    match SigningBlobFor (ss_Namespace s) (ss_HashAlgorithm s) message with
    | Err e => Some e
    | Ok blob =>
      match ssh_Verify (ss_PublicKey s) blob (ss_Signature s) with
      | Some e => Some (wrap_w "sshsig: verify: " e EmptyString)
      | None => None
      end
    end.

(** ** Signing, serialising and verifying agree *)

Lemma Hash_normalise alg m : Hash (NormaliseHash alg) m = Hash alg m.
Proof. unfold NormaliseHash. case_bool_decide; by subst. Qed.

Lemma NormaliseHash_idemp alg : NormaliseHash (NormaliseHash alg) = NormaliseHash alg.
Proof. unfold NormaliseHash. repeat case_bool_decide; done. Qed.

Lemma SigningBlobFor_normalise ns alg m :
  SigningBlobFor ns (NormaliseHash alg) m = SigningBlobFor ns alg m.
Proof.
  unfold SigningBlobFor. rewrite Hash_normalise. unfold SigningBlob.
  by rewrite NormaliseHash_idemp.
Qed.

Lemma SignBlob_sound signer blob sig :
  sound_signer signer -> SignBlob signer blob = Ok sig ->
  ssh_Verify (signer_PublicKey signer) blob sig = None.
Proof.
  intros [Hs Ha] H3. unfold SignBlob in H3. case_bool_decide.
  - apply err_ctx_Ok in H3. eauto.
  - destruct (signer_SignWithAlgorithm signer) eqn:?; [|done].
    apply err_ctx_Ok in H3. eauto.
Qed.

Lemma Sign_fields signer ns alg m s :
  Sign signer ns alg m = Ok s ->
  ss_PublicKey s = signer_PublicKey signer /\ ss_Namespace s = ns /\
  ss_HashAlgorithm s = NormaliseHash alg.
Proof.
  unfold Sign. case_bool_decide; [done|]. intros H3. ok_inv. by subst.
Qed.

Lemma Sign_verifies signer ns alg m s :
  sound_signer signer -> Sign signer ns alg m = Ok s -> Signature_Verify s ns m = None.
Proof.
  intros Hsound Hsign. destruct (Sign_fields _ _ _ _ _ Hsign) as (Hk & Hn & Ha).
  unfold Sign in Hsign. case_bool_decide; [done|]. ok_inv.
  unfold Signature_Verify. rewrite Hn, Ha, Hk, SigningBlobFor_normalise.
  case_bool_decide; [done|].
  match goal with H : SigningBlobFor _ _ _ = Ok _ |- _ => rewrite H end.
  subst. cbn. by erewrite SignBlob_sound.
Qed.

Lemma ParseBinary_ours `{!SshLaws} s :
  ParseBinary (Signature_Marshal s) =
  Ok (mk_SshSignature (ss_PublicKey s) (ss_Namespace s) (NormaliseHash (ss_HashAlgorithm s))
        (ss_Signature s)).
Proof.
  unfold ParseBinary, Signature_Marshal.
  change (String.length Magic) with (length (of_string Magic)).
  rewrite length_app, take_app_length, drop_app_length, to_of_string, UnmarshalWire_Marshal.
  rewrite bool_decide_eq_false_2 by lia.
  cbn [err_ctx mbind result_bind wi_Version wi_PublicKey wi_Signature wi_Namespace wi_HashAlgorithm].
  rewrite !of_to_string. by rewrite ParsePublicKey_Marshal, UnmarshalSignature_Marshal.
Qed.

(** A signature made by [Sign] verifies over the same message and
    namespace and under no other namespace, and its binary form parses back
    to it. *)
Theorem Sign_Verify `{!SshLaws} signer ns alg m s :
  sound_signer signer -> Sign signer ns alg m = Ok s ->
  Signature_Verify s ns m = None /\
  (forall ns', ns' <> ns -> is_Some (Signature_Verify s ns' m)) /\
  ParseBinary (Signature_Marshal s) = Ok s.
Proof.
  intros Hsound Hsign. destruct (Sign_fields _ _ _ _ _ Hsign) as (Hk & Hn & Ha).
  split_and!.
  - by apply (Sign_verifies signer ns alg).
  - intros ns' Hne. unfold Signature_Verify. rewrite Hn.
    rewrite bool_decide_eq_true_2 by done. eauto.
  - rewrite ParseBinary_ours, Ha, NormaliseHash_idemp, <- Ha. by destruct s.
Qed.

End Sshsig.

Import Toy.

Definition toy_signature : SshSignature :=
  mk_SshSignature (of_string "k") "git" HashSHA512
    (mk_Signature "toy" (of_string "k" ++ SigningBlob "git" "sha512" (sha512 (of_string "hi"))) []).

Lemma Sign_Verify_witness :
  Signature_Verify toy_signature "git" (of_string "hi") = None /\
  (forall ns', ns' <> "git"%string -> is_Some (Signature_Verify toy_signature ns' (of_string "hi"))) /\
  ParseBinary (Signature_Marshal toy_signature) = Ok toy_signature.
Proof.
  refine ((Sign_Verify (signer (of_string "k")) "git" EmptyString (of_string "hi")
    toy_signature _ _)).
  - apply signer_sound.
  - vm_compute. reflexivity.
Defined.
