(* ===== verification/Wire.v ===== *)
(** * Wire: [pkg/agent/wire.go]

    The strict reader of the SSH wire encoding: each method takes the
    remaining buffer and returns the value with what is left of it. *)

From S2P Require Import Prelude.
From S2P Require Import GoText.
From S2P Require Import Ssh.

Local Open Scope Z_scope.

Definition errShortRead : error := sentinel "errShortRead" "truncated SSH wire encoding".

Definition reader (A : Type) : Type := bytes -> result (A * bytes).

#[export] Instance reader_ret : MRet reader := fun A a buf => Ok (a, buf).
#[export] Instance reader_bind : MBind reader := fun A B f m buf =>
  match m buf with Ok (a, buf') => f a buf' | Err e => Err e end.

(** A read with the context its caller wraps an error in. *)
Definition rd_ctx {A} (pre : string) (m : reader A) : reader A := fun buf => err_ctx pre (m buf).
Definition rd_fail {A} (e : error) : reader A := fun _ => Err e.

Definition rd_bytes (n : Z) : reader bytes := fun buf =>
  if (n <? 0) || (Z.of_nat (length buf) <? n) then Err errShortRead
  else Ok (take (Z.to_nat n) buf, drop (Z.to_nat n) buf).

Definition byteValue : reader byte :=
  b ← rd_bytes 1;
  match b with x :: _ => mret x | [] => rd_fail errShortRead end.

Definition boolValue : reader bool :=
  b ← byteValue; mret (negb (byte_val b =? 0)).

Definition uint32Value : reader Z :=
  b ← rd_bytes 4; mret (get_u32 b).

(** The length is compared with what is left before it is used as an [int]. *)
Definition rd_counted (n : Z) : reader bytes := fun buf =>
  if Z.of_nat (length buf) <? n then Err errShortRead else rd_bytes n buf.

Definition stringValue : reader bytes := n ← uint32Value; rd_counted n.

Definition text : reader string := b ← stringValue; mret (to_string b).

(** The check every caller ends with: the whole buffer was consumed. *)
Definition rd_end : reader unit := fun buf =>
  match buf with
  | [] => Ok (tt, [])
  | _ => Err (errors_New (itoa (Z.of_nat (length buf)) +:+ " trailing bytes"))
  end.

(** ** The reader inverts the encoding, and accepts nothing else *)

Lemma rd_bind_Ok {A B} (m : reader A) (f : A -> reader B) buf b rest :
  (m ≫= f) buf = Ok (b, rest) <->
  exists a buf', m buf = Ok (a, buf') /\ f a buf' = Ok (b, rest).
Proof.
  unfold mbind, reader_bind. destruct (m buf) as [[a buf']|e]; naive_solver.
Qed.

Lemma rd_ctx_Ok {A} pre (m : reader A) buf x : rd_ctx pre m buf = Ok x <-> m buf = Ok x.
Proof. apply err_ctx_Ok. Qed.

Lemma rd_bytes_Ok n buf b rest :
  rd_bytes n buf = Ok (b, rest) <-> buf = b ++ rest /\ n = Z.of_nat (length b).
Proof.
  unfold rd_bytes. split.
  - destruct (_ || _) eqn:Hb; [done|]. bool_prop. intros [= <- <-].
    rewrite take_drop, length_take. split; [done|lia].
  - intros [-> ->]. rewrite length_app, Nat2Z.id, take_app_length, drop_app_length.
    destruct (_ || _) eqn:Hb; [|done]. apply orb_true_iff in Hb as [?|?]; bool_prop; lia.
Qed.

Lemma uint32Value_Ok buf n rest :
  uint32Value buf = Ok (n, rest) <-> buf = put_u32 n ++ rest /\ 0 <= n < 2 ^ 32.
Proof.
  unfold uint32Value. rewrite rd_bind_Ok. split.
  - intros (b & buf' & [-> Hl]%rd_bytes_Ok & [= <- <-]).
    assert (length b = 4%nat) by lia.
    split; [by rewrite put_get_u32|by apply get_u32_range].
  - intros [-> Hn]. exists (put_u32 n), rest. split; [by apply rd_bytes_Ok|].
    unfold mret, reader_ret. by rewrite get_put_u32.
Qed.

(** Lengths that fit the four-byte prefix. *)
Definition wire_len (b : bytes) : Prop := Z.of_nat (length b) < 2 ^ 32.

Lemma stringValue_Ok buf b rest :
  stringValue buf = Ok (b, rest) <-> buf = put_string b ++ rest /\ wire_len b.
Proof.
  unfold stringValue, rd_counted, wire_len, put_string. rewrite rd_bind_Ok. split.
  - intros (n & buf' & [-> Hn]%uint32Value_Ok & H). case_match; [done|].
    apply rd_bytes_Ok in H as [-> ->]. split; [by rewrite app_assoc|lia].
  - intros [-> Hl]. exists (Z.of_nat (length b)), (b ++ rest). split.
    + apply uint32Value_Ok. rewrite app_assoc. split; [done|lia].
    + rewrite length_app. case_match; bool_prop; [lia|]. by apply rd_bytes_Ok.
Qed.

Lemma text_Ok buf s rest :
  text buf = Ok (s, rest) <-> buf = put_string (of_string s) ++ rest /\ wire_len (of_string s).
Proof.
  unfold text. rewrite rd_bind_Ok. split.
  - intros (b & buf' & Hb%stringValue_Ok & [= <- <-]). by rewrite of_to_string.
  - intros H. exists (of_string s), rest. split; [by apply stringValue_Ok|].
    unfold mret, reader_ret. by rewrite to_of_string.
Qed.

Lemma byteValue_Ok buf b rest : byteValue buf = Ok (b, rest) <-> buf = b :: rest.
Proof.
  unfold byteValue. rewrite rd_bind_Ok. split.
  - intros ([|x [|y l]] & buf' & [-> Hl]%rd_bytes_Ok & H); cbn in *; [lia| |lia].
    by injection H as <- <-.
  - intros ->. exists [b], rest. by rewrite rd_bytes_Ok.
Qed.

Lemma boolValue_Ok buf f rest :
  boolValue buf = Ok (f, rest) <->
  exists b, buf = b :: rest /\ f = negb (byte_val b =? 0).
Proof.
  unfold boolValue. rewrite rd_bind_Ok. split.
  - intros (b & buf' & ->%byteValue_Ok & [= <- <-]). eauto.
  - intros (b & -> & ->). exists b, rest. by rewrite byteValue_Ok.
Qed.

Lemma rd_end_Ok buf x rest : rd_end buf = Ok (x, rest) <-> buf = [] /\ rest = [].
Proof. destruct buf, x; cbn; naive_solver. Qed.

(** Invert every step of a successful read. *)
Ltac rd_inv :=
  repeat match goal with
  | H : (_ ≫= _) _ = Ok _ |- _ => apply rd_bind_Ok in H as (? & ? & ? & ?)
  | H : rd_ctx _ _ _ = Ok _ |- _ => apply rd_ctx_Ok in H
  | H : stringValue _ = Ok _ |- _ => apply stringValue_Ok in H as [? ?]
  | H : text _ = Ok _ |- _ => apply text_Ok in H as [? ?]
  | H : byteValue _ = Ok _ |- _ => apply byteValue_Ok in H
  | H : boolValue _ = Ok _ |- _ => apply boolValue_Ok in H as (? & ? & ?)
  | H : rd_end _ = Ok _ |- _ => apply rd_end_Ok in H as [? ?]
  | H : rd_fail _ _ = Ok _ |- _ => discriminate H
  | H : mret _ _ = Ok _ |- _ => injection H as ? ?
  end.

(** The forward direction, one step of the reader at a time. *)
Lemma rd_bind_step {A B} (m : reader A) (f : A -> reader B) buf a buf' :
  m buf = Ok (a, buf') -> (m ≫= f) buf = f a buf'.
Proof. intros H. unfold mbind, reader_bind. by rewrite H. Qed.

Lemma rd_string pre b rest :
  wire_len b -> rd_ctx pre stringValue (put_string b ++ rest) = Ok (b, rest).
Proof. intros. apply rd_ctx_Ok. by apply stringValue_Ok. Qed.

Lemma rd_text pre s rest :
  wire_len (of_string s) -> rd_ctx pre text (put_string (of_string s) ++ rest) = Ok (s, rest).
Proof. intros. apply rd_ctx_Ok. by apply text_Ok. Qed.

(** ** The errors of a reader carry no sentinel but [errShortRead] *)

Definition rd_short {A} (m : reader A) : Prop :=
  forall buf e, m buf = Err e -> forall n, n ∈ e_is e -> n = "errShortRead"%string.

Lemma rd_short_ret {A} (a : A) : rd_short (mret a).
Proof. intros buf e [=]. Qed.

Lemma rd_short_bind {A B} (m : reader A) (f : A -> reader B) :
  rd_short m -> (forall a, rd_short (f a)) -> rd_short (m ≫= f).
Proof.
  intros Hm Hf buf e. unfold mbind, reader_bind.
  destruct (m buf) as [[a buf']|e'] eqn:Hb; [apply Hf|].
  intros [= <-]. by eapply Hm.
Qed.

Lemma rd_short_ctx {A} pre (m : reader A) : rd_short m -> rd_short (rd_ctx pre m).
Proof.
  intros Hm buf e. unfold rd_ctx, err_ctx. destruct (m buf) eqn:Hb; [done|].
  intros [= <-] n. apply (Hm _ _ Hb).
Qed.

Lemma rd_short_fail {A} msg : rd_short (@rd_fail A (errors_New msg)).
Proof. intros buf e [= <-] n Hn. by apply elem_of_nil in Hn. Qed.

Lemma rd_short_bytes n : rd_short (rd_bytes n).
Proof.
  intros buf e. unfold rd_bytes. case_match; [|done]. intros [= <-] m Hm.
  by apply list_elem_of_singleton in Hm.
Qed.

Lemma rd_short_counted n : rd_short (rd_counted n).
Proof.
  intros buf e. unfold rd_counted. case_match; [|apply rd_short_bytes].
  intros [= <-] m Hm. by apply list_elem_of_singleton in Hm.
Qed.

Lemma rd_short_end : rd_short rd_end.
Proof.
  intros [|b buf] e; unfold rd_end; [done|]. intros [= <-] n Hn.
  by apply elem_of_nil in Hn.
Qed.

#[export] Hint Resolve rd_short_ret rd_short_bind rd_short_ctx rd_short_fail
  rd_short_bytes rd_short_counted rd_short_end : ladulas.

Lemma rd_short_byte : rd_short byteValue.
Proof.
  apply rd_short_bind; auto with ladulas. intros [|]; auto with ladulas.
  intros buf e [= <-] m Hm. by apply list_elem_of_singleton in Hm.
Qed.

Lemma rd_short_bool : rd_short boolValue.
Proof. apply rd_short_bind; auto using rd_short_byte with ladulas. Qed.

Lemma rd_short_string : rd_short stringValue.
Proof. apply rd_short_bind; auto with ladulas. apply rd_short_bind; auto with ladulas. Qed.

Lemma rd_short_text : rd_short text.
Proof. apply rd_short_bind; auto using rd_short_string with ladulas. Qed.

#[export] Hint Resolve rd_short_byte rd_short_bool rd_short_string rd_short_text : ladulas.

Lemma rd_byte pre b rest : rd_ctx pre byteValue (b :: rest) = Ok (b, rest).
Proof. apply rd_ctx_Ok. by apply byteValue_Ok. Qed.

Lemma rd_bool pre b rest :
  rd_ctx pre boolValue (b :: rest) = Ok (negb (byte_val b =? 0), rest).
Proof. apply rd_ctx_Ok, boolValue_Ok. eauto. Qed.
