(* ===== verification/Classify.v ===== *)
(** * Classify: [pkg/agent/classify.go]

    What a sign request is asking for, decided from the bytes alone. *)

From S2P Require Import Prelude.
From S2P Require Import GoText.
From S2P Require Import Proto.
From S2P Require Import Ssh.
From S2P Require Import Sshsig.
From S2P Require Import Wire.

Local Open Scope Z_scope.

Definition gitNamespace : string := GitNamespace.
Definition msgUserauthRequest : Z := 50.
Definition MethodPublicKey : string := "publickey".
Definition MethodHostbound : string := "publickey-hostbound-v00@openssh.com".
Definition maxOpaquePrefix : nat := 64.

Definition errNotSshsig : error := sentinel "errNotSshsig" "no SSHSIG preamble".

Record Classification := mk_Classification {
  cl_Kind : RequestKind;
  cl_SSHAuth : option SshAuthRequest;
  cl_Sshsig : option SshsigRequest;
  cl_Opaque : option OpaqueSignRequest
}.

Section Classify.
Context `{Unicode} `{Hashes} `{Ssh}.

Definition read_sshsig : reader SshsigRequest :=
  namespace ← rd_ctx "namespace: " text;
  _ ← rd_ctx "reserved: " stringValue;
  hashAlgorithm ← rd_ctx "hash algorithm: " text;
  digest ← rd_ctx "message digest: " stringValue;
  _ ← rd_end;
  if bool_decide (namespace = EmptyString)
  then rd_fail (errors_New "empty namespace")
  else mret (mk_SshsigRequest namespace hashAlgorithm digest None).

Definition parseSshsig (payload : bytes) : result SshsigRequest :=
  if bool_decide (length payload < String.length Magic)%nat
     || bool_decide (to_string (take (String.length Magic) payload) <> Magic)
  then Err errNotSshsig
  else fst <$> read_sshsig (drop (String.length Magic) payload).

(** The server host key of the hostbound method. *)
Definition read_host_key (method : string) : reader (option HostKey) :=
  if bool_decide (method = MethodHostbound) then
    hostKey ← rd_ctx "server host key: " stringValue;
    match ParsePublicKey hostKey with
    | Err e => rd_fail (wrap_w "server host key: " e EmptyString)
    | Ok pub => mret (Some (mk_HostKey (ssh_Marshal pub) (ssh_Type pub)
                  (FingerprintSHA256 pub) [] false))
    end
  else mret None.

Definition read_auth : reader SshAuthRequest :=
  sessionID ← rd_ctx "session identifier: " stringValue;
  if bool_decide (sessionID = []) then rd_fail (errors_New "empty session identifier") else
  msgType ← rd_ctx "message type: " byteValue;
  if negb (byte_val msgType =? msgUserauthRequest)
  then rd_fail (errors_New ("message type " +:+ itoa (byte_val msgType) +:+
         ", want SSH_MSG_USERAUTH_REQUEST (" +:+ itoa msgUserauthRequest +:+ ")")) else
  username ← rd_ctx "user name: " text;
  service ← rd_ctx "service name: " text;
  method ← rd_ctx "method name: " text;
  if bool_decide (method <> MethodPublicKey) && bool_decide (method <> MethodHostbound)
  then rd_fail (errors_New ("method " +:+ quote method +:+ ", want " +:+ MethodPublicKey +:+
         " or " +:+ MethodHostbound)) else
  hasSignature ← rd_ctx "signature flag: " boolValue;
  if negb hasSignature then rd_fail (errors_New "signature flag is false") else
  _ ← rd_ctx "public key algorithm: " stringValue;
  _ ← rd_ctx "public key blob: " stringValue;
  host ← read_host_key method;
  _ ← rd_end;
  mret (mk_SshAuthRequest username service method sessionID false false None []
          EmptyString 0 host).

Definition parseAuthBlob (payload : bytes) : result SshAuthRequest :=
  fst <$> read_auth payload.

Definition opaque (payload : bytes) (reason : string) : Classification :=
  mk_Classification KIND_OPAQUE_SIGN None None
    (Some (mk_OpaqueSignRequest (u32 (Z.of_nat (length payload))) (sha256 payload) reason
       (take maxOpaquePrefix payload))).

Definition Classify (payload : bytes) : Classification :=
  match parseSshsig payload with
  | Ok sig =>
    let kind := if bool_decide (sg_namespace sig = gitNamespace)
                then KIND_GIT_SIGN else KIND_SSHSIG in
    mk_Classification kind None (Some sig) None
  | Err err =>
    if negb (errors_Is err errNotSshsig)
    then opaque payload ("malformed SSHSIG payload: " +:+ e_msg err)
    else
      match parseAuthBlob payload with
      | Err err => opaque payload ("not an SSH authentication blob: " +:+ e_msg err)
      | Ok auth => mk_Classification KIND_SSH_AUTH (Some auth) None None
      end
  end.

(** ** The encodings the parsers accept *)

Definition sshsig_payload (namespace reserved hashAlgorithm : string) (digest : bytes) : bytes :=
  of_string Magic ++ put_string (of_string namespace) ++ put_string (of_string reserved) ++
  put_string (of_string hashAlgorithm) ++ put_string digest.

Definition auth_payload (sessionID : bytes) (username service method : string) (flag : byte)
    (algorithm keyblob : bytes) (hostkey : option bytes) : bytes :=
  put_string sessionID ++ byte_of msgUserauthRequest :: put_string (of_string username) ++
  put_string (of_string service) ++ put_string (of_string method) ++
  flag :: put_string algorithm ++ put_string keyblob ++
  match hostkey with Some k => put_string k | None => [] end.

(** The preamble test of both SSHSIG readers. *)
Definition no_magic (payload : bytes) : bool :=
  bool_decide (length payload < String.length Magic)%nat
  || bool_decide (to_string (take (String.length Magic) payload) <> Magic).

Lemma no_magic_app rest : no_magic (of_string Magic ++ rest) = false.
Proof.
  unfold no_magic. change (String.length Magic) with (length (of_string Magic)).
  rewrite length_app, take_app_length, to_of_string.
  apply orb_false_iff. split; apply bool_decide_eq_false; [lia|auto].
Qed.

Lemma no_magic_false payload :
  no_magic payload = false -> payload = of_string Magic ++ drop (String.length Magic) payload.
Proof.
  unfold no_magic. intros [_ Ht]%orb_false_iff. apply bool_decide_eq_false in Ht.
  apply dec_stable, (f_equal of_string) in Ht. rewrite of_to_string in Ht.
  by rewrite <- Ht, take_drop.
Qed.

Lemma read_sshsig_short : rd_short read_sshsig.
Proof.
  unfold read_sshsig. repeat (apply rd_short_bind; [by auto with ladulas|intros ?]).
  case_match; auto with ladulas.
Qed.

Lemma parseSshsig_no_magic payload e :
  parseSshsig payload = Err e -> errors_Is e errNotSshsig = no_magic payload.
Proof.
  unfold parseSshsig. fold (no_magic payload). destruct (no_magic payload) eqn:Hm.
  { intros [= <-]. reflexivity. }
  destruct (read_sshsig _) as [[]|e'] eqn:Hr; [done|]. cbn. intros [= <-].
  apply bool_decide_eq_false. intros Hin.
  apply (read_sshsig_short _ _ Hr) in Hin. discriminate.
Qed.

Lemma parseSshsig_sound payload sig :
  parseSshsig payload = Ok sig ->
  exists reserved, payload = sshsig_payload (sg_namespace sig) reserved
    (sg_hash_algorithm sig) (sg_message_digest sig) /\
  sg_namespace sig <> EmptyString /\ sg_git_context sig = None.
Proof.
  unfold parseSshsig. fold (no_magic payload).
  destruct (no_magic payload) eqn:Hm; [done|]. apply no_magic_false in Hm.
  destruct (read_sshsig _) as [[sig' rest]|] eqn:Hr; [|done]. intros [= ->].
  unfold read_sshsig in Hr. rd_inv. case_bool_decide; rd_inv. subst.
  match goal with
  | H : drop _ payload = _ ++ put_string ?r ++ _ |- _ =>
    exists (to_string r); rewrite H in Hm
  end.
  unfold sshsig_payload. by rewrite of_to_string, Hm, app_nil_r.
Qed.

Lemma parseSshsig_complete namespace reserved alg digest :
  wire_len (of_string namespace) -> wire_len (of_string reserved) ->
  wire_len (of_string alg) -> wire_len digest -> namespace <> EmptyString ->
  parseSshsig (sshsig_payload namespace reserved alg digest) =
  Ok (mk_SshsigRequest namespace alg digest None).
Proof.
  intros Hn Hr Ha Hd Hne. unfold parseSshsig, sshsig_payload.
  fold (no_magic (of_string Magic ++ put_string (of_string namespace) ++
    put_string (of_string reserved) ++ put_string (of_string alg) ++ put_string digest)).
  rewrite no_magic_app. change (String.length Magic) with (length (of_string Magic)).
  rewrite drop_app_length. unfold read_sshsig.
  erewrite rd_bind_step by (by apply rd_text). erewrite rd_bind_step by (by apply rd_string).
  erewrite rd_bind_step by (by apply rd_text).
  erewrite rd_bind_step by (rewrite <- (app_nil_r (put_string digest)); by apply rd_string).
  erewrite rd_bind_step by reflexivity. by rewrite bool_decide_eq_false_2.
Qed.

Lemma read_host_key_Ok method buf host rest :
  read_host_key method buf = Ok (host, rest) ->
  if bool_decide (method = MethodHostbound) then
    exists k pub, buf = put_string k ++ rest /\ ParsePublicKey k = Ok pub /\
      host = Some (mk_HostKey (ssh_Marshal pub) (ssh_Type pub) (FingerprintSHA256 pub) [] false)
  else host = None /\ buf = rest.
Proof.
  unfold read_host_key. case_bool_decide; intros Hr.
  - rd_inv. destruct (ParsePublicKey _) as [pub|] eqn:Hp; rd_inv. subst. eauto 10.
  - by injection Hr as <- <-.
Qed.

(** The fields a successful authentication parse reports, and the bytes it
    must have read. *)
Lemma parseAuthBlob_sound payload auth :
  parseAuthBlob payload = Ok auth ->
  exists flag algorithm keyblob hostkey,
    payload = auth_payload (sa_session_id auth) (sa_username auth) (sa_service auth)
      (sa_method auth) flag algorithm keyblob hostkey /\
    byte_val flag <> 0 /\ sa_session_id auth <> [] /\
    (sa_method auth = MethodPublicKey /\ hostkey = None /\ sa_payload_destination auth = None \/
     sa_method auth = MethodHostbound /\ exists k pub, hostkey = Some k /\
       ParsePublicKey k = Ok pub /\ sa_payload_destination auth =
         Some (mk_HostKey (ssh_Marshal pub) (ssh_Type pub) (FingerprintSHA256 pub) [] false)).
Proof.
  unfold parseAuthBlob. destruct (read_auth payload) as [[a rest]|] eqn:Hr; [|done].
  intros [= ->]. unfold read_auth in Hr. rd_inv. case_bool_decide; rd_inv.
  case_match; rd_inv. case_match; rd_inv. case_match; rd_inv. subst. bool_prop. subst.
  match goal with H : read_host_key _ ?b = _ |- _ => apply read_host_key_Ok in H end.
  match goal with Hb : byte_val ?b = msgUserauthRequest |- _ =>
    apply byte_of_eq_val in Hb; subst b end.
  unfold auth_payload.
  cbn [sa_session_id sa_username sa_service sa_method sa_payload_destination].
  match goal with Hf : byte_val ?f <> 0 |- context [?f :: put_string ?alg ++ put_string ?kb ++ _] =>
    exists f, alg, kb end.
  case_bool_decide as Hm.
  - destruct H19 as (k & pub & -> & Hp & ->). exists (Some k). rewrite app_nil_r.
    repeat (split; [done|]). right. eauto 10.
  - destruct H19 as [-> ->]. exists None. repeat (split; [done|]). left.
    match goal with H : _ && _ = false |- _ => apply andb_false_iff in H as [H|H] end;
      apply bool_decide_eq_false, dec_stable in H14; [done|by destruct Hm].
Qed.

Lemma no_magic_auth sessionID rest :
  Z.of_nat (length sessionID) < 2 ^ 30 -> no_magic (put_string sessionID ++ rest) = true.
Proof.
  intros Hl. apply not_false_is_true. intros Hm%no_magic_false.
  unfold put_string, put_u32 in Hm. cbn [app] in Hm.
  apply (f_equal (fun l => from_option byte_val 0 (head l))) in Hm. cbn [head from_option] in Hm.
  rewrite byte_val_of, Z.shiftr_div_pow2 in Hm by done.
  change (from_option byte_val 0 _) with 83 in Hm. revert Hm. euclid.
Qed.

Lemma parseAuthBlob_complete sessionID username service method flag alg kb hostkey host :
  sessionID <> [] -> wire_len sessionID -> wire_len (of_string username) ->
  wire_len (of_string service) -> byte_val flag <> 0 -> wire_len alg -> wire_len kb ->
  (method = MethodPublicKey /\ hostkey = None /\ host = None \/
   method = MethodHostbound /\ exists k pub, hostkey = Some k /\ wire_len k /\
     ParsePublicKey k = Ok pub /\ host =
       Some (mk_HostKey (ssh_Marshal pub) (ssh_Type pub) (FingerprintSHA256 pub) [] false)) ->
  parseAuthBlob (auth_payload sessionID username service method flag alg kb hostkey) =
  Ok (mk_SshAuthRequest username service method sessionID false false None [] EmptyString 0 host).
Proof.
  intros Hs Hsl Hu Hsv Hf Ha Hk Hmethod. unfold parseAuthBlob, auth_payload, read_auth.
  erewrite rd_bind_step by (by apply rd_string). rewrite bool_decide_eq_false_2 by done.
  erewrite rd_bind_step by apply rd_byte.
  change (byte_val (byte_of msgUserauthRequest) =? msgUserauthRequest) with true. cbn [negb].
  assert (wire_len (of_string method)) by (by destruct Hmethod as [[-> _]|[-> _]]).
  do 3 erewrite rd_bind_step by (by apply rd_text).
  replace (_ && _) with false; cycle 1.
  { symmetry. by destruct Hmethod as [[-> _]|[-> _]]. }
  erewrite rd_bind_step by apply rd_bool.
  rewrite (proj2 (Z.eqb_neq _ _) Hf). cbn [negb].
  do 2 erewrite rd_bind_step by (by apply rd_string). unfold read_host_key.
  destruct Hmethod as [(-> & -> & ->)|(-> & k & pub & -> & Hkl & Hp & ->)]; [reflexivity|].
  rewrite bool_decide_eq_true_2 by done.
  rewrite <- (app_nil_r (put_string k)).
  erewrite rd_bind_step; cycle 1.
  { erewrite rd_bind_step by (by apply rd_string). rewrite Hp. reflexivity. }
  reflexivity.
Qed.

(** ** Properties *)

(** A classification carries exactly the operation its kind names, and
    an opaque one keeps at most 64 bytes of the payload. *)
Theorem Classify_shape payload :
  match Classify payload with
  | mk_Classification KIND_SSH_AUTH (Some _) None None => True
  | mk_Classification KIND_GIT_SIGN None (Some s) None => sg_namespace s = gitNamespace
  | mk_Classification KIND_SSHSIG None (Some s) None => sg_namespace s <> gitNamespace
  | mk_Classification KIND_OPAQUE_SIGN None None (Some o) =>
    (length (os_prefix o) <= maxOpaquePrefix)%nat /\ os_prefix o `prefix_of` payload
  | _ => False
  end.
Proof.
  assert (forall r, match opaque payload r with
    | mk_Classification KIND_OPAQUE_SIGN None None (Some o) =>
      (length (os_prefix o) <= maxOpaquePrefix)%nat /\ os_prefix o `prefix_of` payload
    | _ => False end) as Hop.
  { intros r. unfold opaque, os_prefix. split; [rewrite length_take; lia|apply prefix_take]. }
  unfold Classify. destruct (parseSshsig payload) as [sig|err].
  - by case_bool_decide.
  - destruct (negb _); [apply Hop|]. destruct (parseAuthBlob payload); [done|apply Hop].
Qed.

(** What classifies as a login is exactly one encoded authentication
    blob: a non-empty session, one of the two methods, a set signature flag,
    a host key exactly in the hostbound method, and no byte more.  In
    particular it does not start with the SSHSIG preamble. *)
Theorem Classify_auth_strict payload auth :
  Classify payload = mk_Classification KIND_SSH_AUTH (Some auth) None None ->
  no_magic payload = true /\
  exists flag algorithm keyblob hostkey,
    payload = auth_payload (sa_session_id auth) (sa_username auth) (sa_service auth)
      (sa_method auth) flag algorithm keyblob hostkey /\
    byte_val flag <> 0 /\ sa_session_id auth <> [] /\
    (sa_method auth = MethodPublicKey /\ hostkey = None /\ sa_payload_destination auth = None \/
     sa_method auth = MethodHostbound /\ exists k pub, hostkey = Some k /\
       ParsePublicKey k = Ok pub /\ sa_payload_destination auth =
         Some (mk_HostKey (ssh_Marshal pub) (ssh_Type pub) (FingerprintSHA256 pub) [] false)).
Proof.
  unfold Classify. destruct (parseSshsig payload) as [sig|err] eqn:Hs; [done|].
  destruct (negb _) eqn:Hm; [done|]. apply negb_false_iff in Hm.
  rewrite (parseSshsig_no_magic _ _ Hs) in Hm.
  destruct (parseAuthBlob payload) eqn:Ha; [|done]. intros [= ->].
  split; [done|]. by apply parseAuthBlob_sound.
Qed.

(** Every well-formed authentication blob, in either method, classifies
    as the login it encodes. *)
Theorem Classify_auth_complete sessionID username service method flag alg kb hostkey host :
  sessionID <> [] -> Z.of_nat (length sessionID) < 2 ^ 30 -> wire_len (of_string username) ->
  wire_len (of_string service) -> byte_val flag <> 0 -> wire_len alg -> wire_len kb ->
  (method = MethodPublicKey /\ hostkey = None /\ host = None \/
   method = MethodHostbound /\ exists k pub, hostkey = Some k /\ wire_len k /\
     ParsePublicKey k = Ok pub /\ host =
       Some (mk_HostKey (ssh_Marshal pub) (ssh_Type pub) (FingerprintSHA256 pub) [] false)) ->
  Classify (auth_payload sessionID username service method flag alg kb hostkey) =
  mk_Classification KIND_SSH_AUTH (Some (mk_SshAuthRequest username service method sessionID
    false false None [] EmptyString 0 host)) None None.
Proof.
  intros Hs Hsl Hu Hsv Hf Ha Hk Hmethod. unfold Classify.
  destruct (parseSshsig _) as [sig|err] eqn:Hsig.
  - apply parseSshsig_sound in Hsig as (r & Hp & _).
    pose proof (no_magic_auth sessionID (byte_of msgUserauthRequest ::
      put_string (of_string username) ++ put_string (of_string service) ++
      put_string (of_string method) ++ flag :: put_string alg ++ put_string kb ++
      match hostkey with Some k => put_string k | None => [] end) Hsl) as Hm.
    unfold auth_payload in Hp. rewrite Hp in Hm. unfold sshsig_payload in Hm.
    by rewrite no_magic_app in Hm.
  - rewrite (parseSshsig_no_magic _ _ Hsig). unfold auth_payload at 1.
    rewrite no_magic_auth by done. cbn [negb].
    rewrite (parseAuthBlob_complete _ _ _ _ _ _ _ _ host); try done. unfold wire_len. lia.
Qed.

(** The blob this program builds to sign a message is classified as a
    signature over that very digest: as a git signature in git's namespace,
    as an SSHSIG one in any other. *)
Theorem Classify_SigningBlob `{!SshLaws} namespace alg digest :
  namespace <> EmptyString -> wire_len (of_string namespace) ->
  wire_len (of_string (NormaliseHash alg)) -> wire_len digest ->
  Classify (SigningBlob namespace alg digest) =
  mk_Classification (if bool_decide (namespace = gitNamespace) then KIND_GIT_SIGN else KIND_SSHSIG)
    None (Some (mk_SshsigRequest namespace (NormaliseHash alg) digest None)) None.
Proof.
  intros Hne Hn Ha Hd.
  assert (SigningBlob namespace alg digest =
    sshsig_payload namespace EmptyString (NormaliseHash alg) digest) as ->.
  { unfold SigningBlob, sshsig_payload. rewrite MarshalBlobBody_spec. cbn [bb_Namespace
      bb_Reserved bb_HashAlgorithm bb_Hash]. by rewrite of_to_string. }
  unfold Classify. by rewrite parseSshsig_complete.
Qed.

End Classify.

(** ** Witnesses, in the concrete instance *)

Import Toy.

Definition toy_session : bytes := of_string "session".
Definition toy_hostbound : bytes :=
  auth_payload toy_session "git" "ssh-connection" MethodHostbound x01
    (of_string "ssh-ed25519") (of_string "key") (Some (of_string "host")).
Definition toy_host : HostKey :=
  mk_HostKey (of_string "host") "toy" "SHA256:host" [] false.
Definition toy_auth : SshAuthRequest :=
  mk_SshAuthRequest "git" "ssh-connection" MethodHostbound toy_session false false None []
    EmptyString 0 (Some toy_host).

Lemma Classify_auth_strict_witness :
  Classify toy_hostbound = mk_Classification KIND_SSH_AUTH (Some toy_auth) None None /\
  no_magic toy_hostbound = true.
Proof.
  split; [vm_compute; reflexivity|].
  apply (Classify_auth_strict toy_hostbound toy_auth). vm_compute. reflexivity.
Defined.

Lemma Classify_auth_complete_witness :
  Classify toy_hostbound = mk_Classification KIND_SSH_AUTH (Some toy_auth) None None.
Proof.
  unfold toy_hostbound, toy_auth.
  refine (Classify_auth_complete toy_session "git" "ssh-connection" MethodHostbound x01
    (of_string "ssh-ed25519") (of_string "key") (Some (of_string "host")) (Some toy_host)
    _ _ _ _ _ _ _ _).
  8: { right. split; [reflexivity|]. exists (of_string "host"), (of_string "host").
       split; [reflexivity|]. split; [vm_compute; reflexivity|]. split; reflexivity. }
  1,5: discriminate.
  all: vm_compute; reflexivity.
Defined.

Lemma Classify_SigningBlob_witness :
  Classify (SigningBlob "git" EmptyString (sha512 (of_string "commit"))) =
  mk_Classification KIND_GIT_SIGN None
    (Some (mk_SshsigRequest "git" "sha512" (sha512 (of_string "commit")) None)) None.
Proof. apply (Classify_SigningBlob "git"); discriminate || (vm_compute; reflexivity). Defined.
