(* ===== verification/SessionBind.v ===== *)
(** * SessionBind: [pkg/agent/sessionbind.go]

    The session-bind extension: the strict parse of its payload with the
    host's signature over the session, the bounded list of bindings of one
    agent connection, and what the list says about a login. *)

From S2P Require Import Prelude.
From S2P Require Import GoText.
From S2P Require Import Proto.
From S2P Require Import Ssh.
From S2P Require Import Wire.

Local Open Scope Z_scope.

Definition maxBindings : nat := 32.

Section Parse.
Context `{Ssh}.

Definition read_bind : reader (bytes * bytes * bytes * bool) :=
  hostKeyBlob ← rd_ctx "host key: " stringValue;
  sessionID ← rd_ctx "session identifier: " stringValue;
  signature ← rd_ctx "signature: " stringValue;
  isForwarding ← rd_ctx "is_forwarding: " boolValue;
  _ ← rd_end;
  mret (hostKeyBlob, sessionID, signature, isForwarding).

Definition parseSessionBind (contents : bytes) : result (PublicKey * bytes * bool) :=
  match read_bind contents with
  | Err e => Err e
  | Ok (hostKeyBlob, sessionID, signature, isForwarding, _) =>
    if bool_decide (sessionID = []) then Err (errors_New "empty session identifier")
    else
      pub ← err_ctx "parse host key: " (ParsePublicKey hostKeyBlob);
      sig ← err_ctx "parse signature: " (UnmarshalSignature signature);
      match ssh_Verify pub sessionID sig with
      | Some e => Err (wrap_w
          "host key signature over the session identifier does not verify: " e EmptyString)
      | None => Ok (pub, sessionID, isForwarding)
      end
  end.

(** A binding is accepted only with a signature by the host key it
    names over the session it names, from a payload that is exactly the four
    encoded fields. *)
Theorem parseSessionBind_verified contents pub sessionID fwd :
  parseSessionBind contents = Ok (pub, sessionID, fwd) ->
  sessionID <> [] /\
  exists blob signature sig flag,
    contents = put_string blob ++ put_string sessionID ++ put_string signature ++ [flag] /\
    fwd = negb (byte_val flag =? 0) /\
    ParsePublicKey blob = Ok pub /\ UnmarshalSignature signature = Ok sig /\
    ssh_Verify pub sessionID sig = None.
Proof.
  unfold parseSessionBind.
  destruct (read_bind contents) as [[[[[blob sid] sigb] f] rest]|] eqn:Hr; [|done].
  case_bool_decide as Hne; [done|]. intros Hok. ok_inv.
  destruct (ssh_Verify _ _ _) eqn:Hv; ok_inv. simplify_eq.
  unfold read_bind in Hr. rd_inv. simplify_eq. split; [done|].
  eexists blob, sigb, _, _. repeat (split; [done|]). eauto.
Qed.

End Parse.

(** ** The list of one connection *)

Abbreviation bindings := (list SessionBinding).

Definition set_hop (n : Z) (b : SessionBinding) : SessionBinding :=
  mk_SessionBinding (sb_host_key b) (sb_session_id b) (sb_is_forwarding b)
    (sb_signature_verified b) n.

Definition too_many_bindings : error :=
  errors_New ("more than " +:+ itoa (Z.of_nat maxBindings) +:+
    " session bindings on one connection").

Definition bindings_add (b : bindings) (binding : SessionBinding) : result bindings :=
  if bool_decide (maxBindings <= length b)%nat then Err too_many_bindings
  else Ok (b ++ [set_hop (i32 (Z.of_nat (length b))) binding]).

Record bindContext := mk_bindContext {
  bc_binding : option SessionBinding;
  bc_forwarded : bool;
  bc_hops : Z;
  bc_chain : list SessionBinding
}.

(** The walk of [context]: everything up to the matched entry contributes.
    A nil session identifier is [None]. *)
Fixpoint context_walk (l : bindings) (sessionID : option bytes) (fwd : bool) (hops : Z)
    : option SessionBinding * bool * Z :=
  match l with
  | [] => (None, fwd, hops)
  | binding :: l' =>
    let fwd' := if sb_is_forwarding binding then true else fwd in
    let hops' := if sb_is_forwarding binding then i32 (hops + 1) else hops in
    if bool_decide (sessionID = Some (sb_session_id binding))
    then (Some binding, fwd', hops')
    else context_walk l' sessionID fwd' hops'
  end.

Definition snapshot (b : bindings) : list SessionBinding := b.

Definition context (b : bindings) (sessionID : option bytes) : bindContext :=
  let '(binding, fwd, hops) := context_walk b sessionID false 0 in
  mk_bindContext binding fwd hops (snapshot b).

(** The lists a connection can reach. *)
Inductive bindings_reachable : bindings -> Prop :=
| br_nil : bindings_reachable []
| br_add b x b' : bindings_reachable b -> bindings_add b x = Ok b' -> bindings_reachable b'.

(** What the list promises: at most 32 entries, numbered by position. *)
Definition bindings_ok (b : bindings) : Prop :=
  (length b <= maxBindings)%nat /\
  forall i x, b !! i = Some x -> sb_hop x = Z.of_nat i.

Lemma bindings_add_ok b x b' : bindings_ok b -> bindings_add b x = Ok b' -> bindings_ok b'.
Proof.
  intros [Hlen Hhop]. unfold bindings_add, maxBindings in *. case_bool_decide as Hmax; [done|].
  intros [= <-]. split.
  - rewrite length_app. cbn [length]. unfold maxBindings. lia.
  - intros i y [Hi|[Hi Hy]]%lookup_app_Some; [by apply Hhop|].
    apply list_lookup_singleton_Some in Hy as [Hz <-]. cbn [sb_hop set_hop].
      assert (i = length b) as -> by lia. apply i32_small. lia.
Qed.

(** However many binds a client sends, a connection holds at most 32,
    and the hop of each is its position. *)
Theorem bindings_invariant b : bindings_reachable b -> bindings_ok b.
Proof.
  induction 1 as [|b x b' _ IH Hadd]; [|by eapply bindings_add_ok].
  split; [cbn; lia|]. intros i x Hi. by rewrite lookup_nil in Hi.
Qed.

Definition fwd_count (l : bindings) : Z :=
  Z.of_nat (length (filter (fun x => sb_is_forwarding x = true) l)).

Lemma fwd_count_cons x l :
  fwd_count (x :: l) = (if sb_is_forwarding x then 1 else 0) + fwd_count l.
Proof.
  unfold fwd_count. rewrite filter_cons. destruct (sb_is_forwarding x) eqn:?; case_decide;
    try congruence; cbn; lia.
Qed.

Lemma context_walk_spec l sid fwd hops :
  0 <= hops -> hops + Z.of_nat (length l) < 2 ^ 31 ->
  exists seen rest,
    l = seen ++ rest /\
    context_walk l sid fwd hops =
      (find_first (fun x => bool_decide (sid = Some (sb_session_id x))) l,
       fwd || (0 <? fwd_count seen), hops + fwd_count seen) /\
    (forall x, find_first (fun x => bool_decide (sid = Some (sb_session_id x))) l = Some x ->
       last seen = Some x) /\
    (find_first (fun x => bool_decide (sid = Some (sb_session_id x))) l = None -> rest = []).
Proof.
  revert fwd hops. induction l as [|x l IH]; intros fwd hops Hh Hl; cbn [context_walk find_first].
  { exists [], []. cbn. by rewrite orb_false_r, Z.add_0_r. }
  cbn [length] in Hl. case_bool_decide as Hsid.
  - exists [x], l. split; [done|]. rewrite fwd_count_cons. unfold fwd_count at 1 2. cbn [filter].
    split; [|split; [by intros ? [= ->]|done]].
    destruct (sb_is_forwarding x); cbn; rewrite ?i32_small, ?orb_true_r, ?orb_false_r by lia;
      repeat f_equal; lia.
  - destruct (IH (if sb_is_forwarding x then true else fwd)
      (if sb_is_forwarding x then i32 (hops + 1) else hops)) as (seen & rest & -> & Hw & Hs & Hn).
    1,2: destruct (sb_is_forwarding x); rewrite ?i32_small; lia.
    exists (x :: seen), rest. split; [done|]. rewrite Hw, fwd_count_cons.
    split; [|split; [|done]].
    + assert (0 <= fwd_count seen) by (unfold fwd_count; lia).
      destruct (sb_is_forwarding x); [|done]. rewrite i32_small by lia. f_equal; [|lia].
      rewrite (proj2 (Z.ltb_lt _ (1 + _))) by lia. by rewrite orb_true_r.
    + intros y Hy. specialize (Hs y Hy). rewrite last_cons. by rewrite Hs.
Qed.

(** The context of a login names the first binding of its session, and
    counts as forwarded exactly the forwarding hops up to and including that
    binding, or all of them when none matches. *)
Theorem context_spec b sessionID :
  bindings_ok b ->
  exists seen rest, b = seen ++ rest /\
    let c := context b sessionID in
    bc_binding c = find_first (fun x => bool_decide (sessionID = Some (sb_session_id x))) b /\
    bc_hops c = fwd_count seen /\ bc_forwarded c = (0 <? fwd_count seen) /\ bc_chain c = b /\
    match bc_binding c with Some x => last seen = Some x | None => rest = [] end.
Proof.
  intros [Hlen _]. unfold maxBindings in Hlen.
  destruct (context_walk_spec b sessionID false 0) as (seen & rest & Hb & Hw & Hs & Hn); [lia..|].
  exists seen, rest. split; [done|]. unfold context. rewrite Hw.
  cbn [bc_binding bc_hops bc_forwarded bc_chain]. repeat (split; [done|]).
  destruct (find_first _ b) eqn:Hf; auto.
Qed.

Definition demo_bindings : bindings :=
  [mk_SessionBinding None [x01] true true 0; mk_SessionBinding None [x02] false true 1;
   mk_SessionBinding None [x03] true true 2].

Lemma demo_bindings_reachable : bindings_reachable demo_bindings.
Proof.
  apply (br_add (take 2 demo_bindings) (mk_SessionBinding None [x03] true true 9)); [|reflexivity].
  apply (br_add (take 1 demo_bindings) (mk_SessionBinding None [x02] false true 9)); [|reflexivity].
  apply (br_add [] (mk_SessionBinding None [x01] true true 9)); [constructor|reflexivity].
Defined.

Lemma bindings_invariant_witness : bindings_ok demo_bindings.
Proof. apply bindings_invariant. exact demo_bindings_reachable. Defined.

Lemma demo_bindings_ok : bindings_ok demo_bindings.
Proof.
  split; [cbn; unfold maxBindings; lia|].
  intros [|[|[|i]]] x Hx; simplify_eq/=; reflexivity.
Defined.

Lemma context_spec_witness :
  bc_hops (context demo_bindings (Some [x02])) = 1 /\
  exists seen rest, demo_bindings = seen ++ rest /\
    bc_hops (context demo_bindings (Some [x02])) = fwd_count seen.
Proof.
  split; [reflexivity|].
  destruct (context_spec demo_bindings (Some [x02]) demo_bindings_ok)
    as (seen & rest & Hb & _ & Hh & _).
  exists seen, rest. split; assumption.
Defined.

Import Toy.

Definition toy_bind : bytes :=
  put_string (of_string "host") ++ put_string (of_string "sid") ++
  put_string (MarshalSignature (mk_Signature "toy" (of_string "hostsid") [])) ++ [x01].

Lemma parseSessionBind_verified_witness :
  @parseSessionBind Toy.ssh toy_bind = Ok (of_string "host", of_string "sid", true) /\
  of_string "sid" <> [].
Proof.
  split; [vm_compute; reflexivity|].
  apply (@parseSessionBind_verified Toy.ssh toy_bind (of_string "host") (of_string "sid") true).
  vm_compute. reflexivity.
Defined.
