(* ===== verification/Identity.v ===== *)
(** * Identity: [pkg/identity]

    The signed artifacts: approvals, delegations, endorsements, retractions
    and relay calls.  Each is the exact serialized message, signed by the
    identity key under a prefix of its own; endorsements and retractions carry
    a second signature, an SSHSIG by the key they are about.  Generating and
    loading identity keys is left to [crypto/ed25519] and
    [golang.org/x/crypto/ssh]; an identity here is its name and its signer. *)

From S2P Require Import Prelude.
From S2P Require Import GoText.
From S2P Require Import Proto.
From S2P Require Import Ssh.
From S2P Require Import Sshsig.

Local Open Scope Z_scope.

Definition NUL : string := String Ascii.zero EmptyString.

Definition approvalSigningPrefix : string := "ladulas-approval-v1" +:+ NUL.
Definition delegationSigningPrefix : string := "ladulas-delegation-v1" +:+ NUL.
Definition endorsementSigningPrefix : string := "ladulas-endorsement-v1" +:+ NUL.
Definition retractionSigningPrefix : string := "ladulas-retraction-v1" +:+ NUL.
Definition relaySigningPrefix : string := "ladulas-relay-v1" +:+ NUL.

Definition EndorsementNamespace : string := "endorsement@ladulas".
Definition RetractionNamespace : string := "retraction@ladulas".

Definition prefixed (prefix : string) (body : bytes) : bytes := of_string prefix ++ body.

Definition signingInput (body : bytes) : bytes := prefixed approvalSigningPrefix body.
Definition delegationInput (body : bytes) : bytes := prefixed delegationSigningPrefix body.
Definition endorsementInput (body : bytes) : bytes := prefixed endorsementSigningPrefix body.
Definition retractionInput (body : bytes) : bytes := prefixed retractionSigningPrefix body.
Definition relayInput (body : bytes) : bytes := prefixed relaySigningPrefix body.

(** ** Request identifiers *)

Fixpoint bits_of (n : nat) (v : Z) : list bool :=
  match n with O => [] | S n' => Z.testbit v (Z.of_nat n') :: bits_of n' v end.

Fixpoint bits_val (l : list bool) (acc : Z) : Z :=
  match l with [] => acc | b :: l' => bits_val l' (2 * acc + Z.b2z b) end.

Definition base32_char (v : Z) : ascii :=
  ascii_of_N (Z.to_N (if v <? 26 then 65 + v else 24 + v)).

(** Five bits a character, most significant first, the last group padded with
    zero bits: [base32.StdEncoding.WithPadding(base32.NoPadding)]. *)
Fixpoint base32_groups (l : list bool) : string :=
  match l with
  | a :: b :: c :: d :: e :: l' => String (base32_char (bits_val [a; b; c; d; e] 0)) (base32_groups l')
  | [] => EmptyString
  | _ => String (base32_char (bits_val (take 5 (l ++ replicate 5 false)) 0)) EmptyString
  end.

Definition base32_Encode (b : bytes) : string :=
  base32_groups (concat (map (fun x => bits_of 8 (byte_val x)) b)).

Section Identity.
Context `{Unicode} `{Hashes} `{Ssh}.

Record Identity := mk_Identity {
  id_name : string;
  id_signer : Signer
}.

Implicit Types (i : Identity) (key : Signer) (pub : PublicKey).

Definition Digest (b : bytes) : bytes := sha256 b.

(** [random] is what [rand.Read] fills the ten-byte buffer with. *)
Definition NewRequestID (random : bytes) : string := ToLower (base32_Encode (take 10 random)).

Definition Identity_PublicKey i : PublicKey := signer_PublicKey (id_signer i).

Definition Fingerprint i : string := FingerprintSHA256 (Identity_PublicKey i).

Definition Identity_ApproverInfo i (local : bool) : ApproverInfo :=
  mk_ApproverInfo (Fingerprint i) (id_name i) local.

Definition Identity_RequesterInfo i (local : bool) : RequesterInfo :=
  mk_RequesterInfo (Fingerprint i) (id_name i) local false EmptyString None.

(** ** Approvals *)

Definition SignApproval `{Codec ApprovalResponse} i (resp : option ApprovalResponse)
    : result SignedApproval :=
  match resp with
  | None => Err (errors_New "nil response")
  | Some resp =>
    body ← err_ctx "marshal response: " (Marshal resp);
    sig ← err_ctx "sign response: " (signer_Sign (id_signer i) (signingInput body));
    Ok (mk_SignedApproval body (ssh_Marshal (Identity_PublicKey i)) (Fingerprint i)
          (sig_Format sig) (MarshalSignature sig))
  end.

(** [fmt.Errorf("... %q does not match public key %q", want, got)] *)
Definition fingerprint_mismatch (who want got : string) : error :=
  errors_New (who +:+ " fingerprint " +:+ quote want +:+ " does not match public key "
    +:+ quote got).

(** [if err := f; err != nil { return fmt.Errorf(ctx + "%w", err) }] for a
    call that returns an error alone. *)
Definition check_err (ctx : string) (e : option error) : result unit :=
  match e with Some e => Err (wrap_w ctx e EmptyString) | None => Ok tt end.

Definition VerifyApproval `{Codec ApprovalResponse} (sa : option SignedApproval)
    : result (ApprovalResponse * PublicKey) :=
  match sa with
  | None => Err (errors_New "nil approval")
  | Some sa =>
    pub ← err_ctx "parse approver public key: " (ParsePublicKey (sap_approver_public_key sa));
    if bool_decide (FingerprintSHA256 pub <> sap_approver_fingerprint sa)
    then Err (fingerprint_mismatch "approver" (sap_approver_fingerprint sa)
                (FingerprintSHA256 pub))
    else
      sig ← err_ctx "parse signature: " (UnmarshalSignature (sap_signature sa));
      _ ← check_err "verify approval signature: "
            (ssh_Verify pub (signingInput (sap_response sa)) sig);
      resp ← err_ctx "unmarshal response: " (Unmarshal (sap_response sa));
      Ok (resp, pub)
  end.

(** ** Delegations *)

Definition SignDelegation `{Codec Delegation} i (d : option Delegation)
    : result SignedDelegation :=
  match d with
  | None => Err (errors_New "nil delegation")
  | Some d =>
    body ← err_ctx "marshal delegation: " (Marshal d);
    sig ← err_ctx "sign delegation: " (signer_Sign (id_signer i) (delegationInput body));
    Ok (mk_SignedDelegation body (ssh_Marshal (Identity_PublicKey i)) (Fingerprint i)
          (sig_Format sig) (MarshalSignature sig))
  end.

Definition VerifyDelegation `{Codec Delegation} (sd : option SignedDelegation)
    : result (Delegation * PublicKey) :=
  match sd with
  | None => Err (errors_New "nil delegation")
  | Some sd =>
    pub ← err_ctx "parse approver public key: " (ParsePublicKey (sd_approver_public_key sd));
    if bool_decide (FingerprintSHA256 pub <> sd_approver_fingerprint sd)
    then Err (fingerprint_mismatch "approver" (sd_approver_fingerprint sd)
                (FingerprintSHA256 pub))
    else
      sig ← err_ctx "parse signature: " (UnmarshalSignature (sd_signature sd));
      _ ← check_err "verify delegation signature: "
            (ssh_Verify pub (delegationInput (sd_delegation sd)) sig);
      d ← err_ctx "unmarshal delegation: " (Unmarshal (sd_delegation sd));
      if bool_decide (dl_approver_fingerprint d <> sd_approver_fingerprint sd)
      then Err (errors_New ("the delegation names approver " +:+
             quote (dl_approver_fingerprint d) +:+ " and was signed by " +:+
             quote (sd_approver_fingerprint sd)))
      else Ok (d, pub)
  end.

(** ** Endorsements and retractions *)

Definition SignEndorsement `{Codec Endorsement} i (e : option Endorsement)
    (key : option Signer) : result SignedEndorsement :=
  match e, key with
  | None, _ => Err (errors_New "nil endorsement")
  | _, None => Err (errors_New "no key to endorse with")
  | Some e, Some key =>
    let got := FingerprintSHA256 (signer_PublicKey key) in
    if bool_decide (got <> en_key_fingerprint e)
    then Err (errors_New ("the endorsement is about " +:+ en_key_fingerprint e +:+
           " and would be signed by " +:+ got))
    else
      body ← err_ctx "marshal endorsement: " (Marshal e);
      sig ← err_ctx "sign endorsement: " (signer_Sign (id_signer i) (endorsementInput body));
      keySig ← err_ctx "sign endorsement with the key: "
                 (Sign key EndorsementNamespace "sha512" body);
      Ok (mk_SignedEndorsement body (ssh_Marshal (Identity_PublicKey i)) (Fingerprint i)
            (sig_Format sig) (MarshalSignature sig) (Signature_Marshal keySig))
  end.

Definition verifyIdentityHalf (publicKey : bytes) (fingerprint : string)
    (signature input : bytes) : result unit :=
  pub ← err_ctx "parse issuer public key: " (ParsePublicKey publicKey);
  if bool_decide (FingerprintSHA256 pub <> fingerprint)
  then Err (fingerprint_mismatch "issuer" fingerprint (FingerprintSHA256 pub))
  else
    sig ← err_ctx "parse issuer signature: " (UnmarshalSignature signature);
    check_err "verify issuer signature: " (ssh_Verify pub input sig).

Definition verifyKeyHalf (signature : bytes) (namespace : string) (body : bytes)
    : result string :=
  sig ← err_ctx "parse the key signature: " (ParseBinary signature);
  _ ← check_err "verify the key signature: " (Signature_Verify sig namespace body);
  Ok (FingerprintSHA256 (ss_PublicKey sig)).

Definition VerifyEndorsement `{Codec Endorsement} (se : option SignedEndorsement)
    : result Endorsement :=
  match se with
  | None => Err (errors_New "nil endorsement")
  | Some se =>
    let body := se_endorsement se in
    _ ← verifyIdentityHalf (se_issuer_public_key se) (se_issuer_fingerprint se)
          (se_signature se) (endorsementInput body);
    keyPrint ← verifyKeyHalf (se_key_signature se) EndorsementNamespace body;
    e ← err_ctx "unmarshal endorsement: " (Unmarshal body);
    if bool_decide (en_issuer_fingerprint e <> se_issuer_fingerprint se)
    then Err (errors_New ("the endorsement names issuer " +:+
           quote (en_issuer_fingerprint e) +:+ " and was signed by " +:+
           quote (se_issuer_fingerprint se)))
    else if bool_decide (en_key_fingerprint e <> keyPrint)
    then Err (errors_New ("the endorsement is about " +:+ quote (en_key_fingerprint e) +:+
           " and was signed by " +:+ quote keyPrint))
    else if bool_decide ((en_scope e)⇢gs_key_fingerprint <> keyPrint)
    then Err (errors_New ("the endorsement's scope is about " +:+
           quote ((en_scope e)⇢gs_key_fingerprint) +:+ " and it was signed by " +:+
           quote keyPrint))
    else Ok e
  end.

Definition SignRetraction `{Codec Retraction} i (r : option Retraction)
    (key : option Signer) : result SignedRetraction :=
  match r, key with
  | None, _ => Err (errors_New "nil retraction")
  | _, None => Err (errors_New "no key to retract with")
  | Some r, Some key =>
    let got := FingerprintSHA256 (signer_PublicKey key) in
    if bool_decide (got <> rt_key_fingerprint r)
    then Err (errors_New ("the retraction is about " +:+ rt_key_fingerprint r +:+
           " and would be signed by " +:+ got))
    else
      body ← err_ctx "marshal retraction: " (Marshal r);
      sig ← err_ctx "sign retraction: " (signer_Sign (id_signer i) (retractionInput body));
      keySig ← err_ctx "sign retraction with the key: "
                 (Sign key RetractionNamespace "sha512" body);
      Ok (mk_SignedRetraction body (ssh_Marshal (Identity_PublicKey i)) (Fingerprint i)
            (sig_Format sig) (MarshalSignature sig) (Signature_Marshal keySig))
  end.

Definition VerifyRetraction `{Codec Retraction} (sr : option SignedRetraction)
    : result Retraction :=
  match sr with
  | None => Err (errors_New "nil retraction")
  | Some sr =>
    let body := sr_retraction sr in
    _ ← verifyIdentityHalf (sr_issuer_public_key sr) (sr_issuer_fingerprint sr)
          (sr_signature sr) (retractionInput body);
    keyPrint ← verifyKeyHalf (sr_key_signature sr) RetractionNamespace body;
    r ← err_ctx "unmarshal retraction: " (Unmarshal body);
    if bool_decide (rt_issuer_fingerprint r <> sr_issuer_fingerprint sr)
    then Err (errors_New ("the retraction names issuer " +:+
           quote (rt_issuer_fingerprint r) +:+ " and was signed by " +:+
           quote (sr_issuer_fingerprint sr)))
    else if bool_decide (rt_key_fingerprint r <> keyPrint)
    then Err (errors_New ("the retraction is about " +:+ quote (rt_key_fingerprint r) +:+
           " and was signed by " +:+ quote keyPrint))
    else
      let byID := bool_decide (rt_endorsement_id r <> EmptyString) in
      let byTime := bool_decide (rt_issued_before r <> None) in
      if Bool.eqb byID byTime
      then Err (errors_New
        "a retraction names one endorsement or one moment, not both and not neither")
      else Ok r
  end.

(** ** Calls to the wake-up relay *)

Definition RelayClockSkew : duration := 5 * Minute.

Definition SignRelayCall `{Codec RelayCall} i (call : option RelayCall)
    : result SignedRelayCall :=
  match call with
  | None => Err (errors_New "nil relay call")
  | Some call =>
    body ← err_ctx "marshal relay call: " (Marshal call);
    sig ← err_ctx "sign relay call: " (signer_Sign (id_signer i) (relayInput body));
    Ok (mk_SignedRelayCall body (ssh_Marshal (Identity_PublicKey i)) (sig_Format sig)
          (MarshalSignature sig))
  end.

Definition VerifyRelayCall `{Codec RelayCall} (src : option SignedRelayCall)
    : result (RelayCall * PublicKey) :=
  match src with
  | None => Err (errors_New "nil relay call")
  | Some src =>
    pub ← err_ctx "parse caller public key: " (ParsePublicKey (src_public_key src));
    sig ← err_ctx "parse signature: " (UnmarshalSignature (src_signature src));
    _ ← check_err "verify relay call signature: "
          (ssh_Verify pub (relayInput (src_call src)) sig);
    call ← err_ctx "unmarshal relay call: " (Unmarshal (src_call src));
    Ok (call, pub)
  end.

Definition NewRelayCall (now : time) (random : bytes) (instanceID : string) : RelayCall :=
  mk_RelayCall (Some now) (NewRequestID random) instanceID RelayNone.

(** ** What a verified artifact establishes *)

Lemma check_err_Ok ctx e u : check_err ctx e = Ok u -> e = None.
Proof. by destruct e. Qed.

(** An identity signature over an input by the key with a fingerprint. *)
Definition identity_signed (k : bytes) (fp : string) (sig input : bytes) : Prop :=
  exists pub s, ParsePublicKey k = Ok pub /\ FingerprintSHA256 pub = fp /\
    UnmarshalSignature sig = Ok s /\ ssh_Verify pub input s = None.

Lemma verifyIdentityHalf_Ok k fp sig input u :
  verifyIdentityHalf k fp sig input = Ok u <-> identity_signed k fp sig input.
Proof.
  unfold verifyIdentityHalf, identity_signed. split.
  - intros Hv. ok_inv. case_bool_decide as Hf; [done|]. ok_inv.
    match goal with H : check_err _ _ = _ |- _ => apply check_err_Ok in H end.
    repeat eexists; eauto.
  - intros (pub & s & -> & Hf & -> & Hv). cbn. rewrite bool_decide_eq_false_2 by auto.
    rewrite Hv. by destruct u.
Qed.

(** A key signature: an SSHSIG by the key over the body, under the namespace. *)
Definition key_signed (sig : bytes) (ns : string) (body : bytes) (fp : string) : Prop :=
  exists ks, ParseBinary sig = Ok ks /\ ss_Namespace ks = ns /\
    Signature_Verify ks ns body = None /\ FingerprintSHA256 (ss_PublicKey ks) = fp.

Lemma Signature_Verify_namespace s ns m :
  Signature_Verify s ns m = None -> ss_Namespace s = ns.
Proof.
  unfold Signature_Verify. by case_bool_decide.
Qed.

Lemma verifyKeyHalf_Ok sig ns body fp :
  verifyKeyHalf sig ns body = Ok fp <-> key_signed sig ns body fp.
Proof.
  unfold verifyKeyHalf, key_signed. split.
  - intros Hv. ok_inv.
    match goal with H : check_err _ _ = _ |- _ => apply check_err_Ok in H as Hs end.
    pose proof (Signature_Verify_namespace _ _ _ Hs). eauto 10.
  - intros (ks & -> & _ & Hs & <-). cbn. by rewrite Hs.
Qed.

Lemma VerifyDelegation_Ok `{Codec Delegation} sd d pub :
  VerifyDelegation (Some sd) = Ok (d, pub) ->
  ParsePublicKey (sd_approver_public_key sd) = Ok pub /\
  identity_signed (sd_approver_public_key sd) (FingerprintSHA256 pub) (sd_signature sd)
    (delegationInput (sd_delegation sd)) /\
  Unmarshal (sd_delegation sd) = Ok d /\
  dl_approver_fingerprint d = FingerprintSHA256 pub /\
  sd_approver_fingerprint sd = FingerprintSHA256 pub.
Proof.
  cbn [VerifyDelegation]. intros Hv. ok_inv. case_bool_decide as Hf; [done|]. ok_inv.
  case_bool_decide as Hg; [done|]. ok_inv. simplify_eq.
  match goal with H : check_err _ _ = _ |- _ => apply check_err_Ok in H end.
  unfold identity_signed. rewrite Hg, <- Hf. split_and!; eauto 10.
Qed.

Lemma VerifyEndorsement_Ok `{Codec Endorsement} se e :
  VerifyEndorsement (Some se) = Ok e ->
  identity_signed (se_issuer_public_key se) (en_issuer_fingerprint e) (se_signature se)
    (endorsementInput (se_endorsement se)) /\
  key_signed (se_key_signature se) EndorsementNamespace (se_endorsement se)
    (en_key_fingerprint e) /\
  (en_scope e)⇢gs_key_fingerprint = en_key_fingerprint e /\
  se_issuer_fingerprint se = en_issuer_fingerprint e /\
  Unmarshal (se_endorsement se) = Ok e.
Proof.
  cbn [VerifyEndorsement]. intros Hv. ok_inv.
  case_bool_decide as Hf; [done|]. case_bool_decide as Hg; [done|].
  case_bool_decide as Hh; [done|]. ok_inv. simplify_eq.
  match goal with H : verifyIdentityHalf _ _ _ _ = _ |- _ => apply verifyIdentityHalf_Ok in H end.
  match goal with H : verifyKeyHalf _ _ _ = _ |- _ => apply verifyKeyHalf_Ok in H end.
  split_and!; congruence.
Qed.

Lemma VerifyRetraction_Ok `{Codec Retraction} sr r :
  VerifyRetraction (Some sr) = Ok r ->
  identity_signed (sr_issuer_public_key sr) (rt_issuer_fingerprint r) (sr_signature sr)
    (retractionInput (sr_retraction sr)) /\
  key_signed (sr_key_signature sr) RetractionNamespace (sr_retraction sr)
    (rt_key_fingerprint r) /\
  (rt_endorsement_id r <> EmptyString <-> rt_issued_before r = None) /\
  Unmarshal (sr_retraction sr) = Ok r.
Proof.
  cbn [VerifyRetraction]. intros Hv. ok_inv.
  case_bool_decide as Hf; [done|]. case_bool_decide as Hg; [done|].
  destruct (Bool.eqb _ _) eqn:Hh; [done|]. ok_inv. simplify_eq.
  match goal with H : verifyIdentityHalf _ _ _ _ = _ |- _ => apply verifyIdentityHalf_Ok in H end.
  match goal with H : verifyKeyHalf _ _ _ = _ |- _ => apply verifyKeyHalf_Ok in H end.
  split_and!; try congruence.
  apply eqb_false_iff in Hh. destruct (rt_issued_before r);
    repeat case_bool_decide; naive_solver.
Qed.

(** C27. A verified artifact is what it claims to be: a delegation
    was signed, under the delegation prefix, by the key whose fingerprint it
    names as its approver; an endorsement was signed by the identity it names
    as its issuer and, under the endorsement namespace, by the key it and its
    scope are about; a retraction carries both signatures under its own
    prefix and namespace and names exactly one target; and what is returned is
    in each case what the signed bytes decode to. *)
Theorem verified_artifacts `{Codec Delegation} `{Codec Endorsement} `{Codec Retraction} :
  (forall sd d pub, VerifyDelegation (Some sd) = Ok (d, pub) ->
     identity_signed (sd_approver_public_key sd) (dl_approver_fingerprint d)
       (sd_signature sd) (delegationInput (sd_delegation sd)) /\
     FingerprintSHA256 pub = dl_approver_fingerprint d /\
     Unmarshal (sd_delegation sd) = Ok d) /\
  (forall se e, VerifyEndorsement (Some se) = Ok e ->
     identity_signed (se_issuer_public_key se) (en_issuer_fingerprint e) (se_signature se)
       (endorsementInput (se_endorsement se)) /\
     key_signed (se_key_signature se) EndorsementNamespace (se_endorsement se)
       (en_key_fingerprint e) /\
     (en_scope e)⇢gs_key_fingerprint = en_key_fingerprint e /\
     Unmarshal (se_endorsement se) = Ok e) /\
  (forall sr r, VerifyRetraction (Some sr) = Ok r ->
     identity_signed (sr_issuer_public_key sr) (rt_issuer_fingerprint r) (sr_signature sr)
       (retractionInput (sr_retraction sr)) /\
     key_signed (sr_key_signature sr) RetractionNamespace (sr_retraction sr)
       (rt_key_fingerprint r) /\
     (rt_endorsement_id r <> EmptyString <-> rt_issued_before r = None) /\
    Unmarshal (sr_retraction sr) = Ok r).
Proof.
  split_and!.
  - intros sd d pub (? & ? & ? & -> & ?)%VerifyDelegation_Ok. done.
  - intros se e (? & ? & ? & ? & ?)%VerifyEndorsement_Ok. done.
  - intros sr r (? & ? & ? & ?)%VerifyRetraction_Ok. done.
Qed.

(** ** Signing and verifying agree *)

Section RoundTrip.
Context `{!SshLaws}.

Lemma parse_own_key i : ParsePublicKey (ssh_Marshal (Identity_PublicKey i)) = Ok (Identity_PublicKey i).
Proof. apply ParsePublicKey_Marshal. Qed.

Lemma identity_half_own i body sig :
  sound_signer (id_signer i) -> signer_Sign (id_signer i) body = Ok sig ->
  verifyIdentityHalf (ssh_Marshal (Identity_PublicKey i)) (Fingerprint i)
    (MarshalSignature sig) body = Ok tt.
Proof.
  intros [Hs _] Hsig. apply verifyIdentityHalf_Ok. eexists _, _.
  split_and!; [apply ParsePublicKey_Marshal|done|apply UnmarshalSignature_Marshal|].
  by apply Hs.
Qed.

Lemma key_half_own key ns body ks :
  sound_signer key -> Sign key ns "sha512" body = Ok ks ->
  verifyKeyHalf (Signature_Marshal ks) ns body = Ok (FingerprintSHA256 (signer_PublicKey key)).
Proof.
  intros Hs Hk. apply verifyKeyHalf_Ok. unfold key_signed.
  destruct (Sign_fields _ _ _ _ _ Hk) as (Hp & Hn & Ha).
  eexists. split; [apply ParseBinary_ours|]. cbn. rewrite Hp, Hn, Ha.
  split_and!; [done| |done]. rewrite <- (Sign_verifies _ _ _ _ _ Hs Hk).
  by destruct ks; simplify_eq/=.
Qed.

Lemma SignRelayCall_verifies `{CodecLaws RelayCall} i c sc :
  sound_signer (id_signer i) -> SignRelayCall i (Some c) = Ok sc -> VerifyRelayCall (Some sc) = Ok (c, Identity_PublicKey i).
Proof.
  intros [Hs _] Hsc. cbn [SignRelayCall] in Hsc. ok_inv. subst sc. cbn.
  rewrite parse_own_key. cbn. rewrite UnmarshalSignature_Marshal. cbn.
  erewrite Hs by done. cbn. by erewrite Unmarshal_Marshal by done.
Qed.

(** What an identity signs verifies, and reads back as what was
    signed: an approval and a relay call always; a delegation, an endorsement
    and a retraction when they name their signers truthfully, and for a
    retraction when it names one target. *)
Theorem signed_artifacts_verify
    `{CodecLaws ApprovalResponse} `{CodecLaws Delegation} `{CodecLaws Endorsement}
    `{CodecLaws Retraction} `{CodecLaws RelayCall} i key :
  sound_signer (id_signer i) -> sound_signer key ->
  (forall r sa, SignApproval i (Some r) = Ok sa ->
     VerifyApproval (Some sa) = Ok (r, Identity_PublicKey i)) /\
  (forall c sc, SignRelayCall i (Some c) = Ok sc ->
     VerifyRelayCall (Some sc) = Ok (c, Identity_PublicKey i)) /\
  (forall d sd, dl_approver_fingerprint d = Fingerprint i ->
     SignDelegation i (Some d) = Ok sd ->
     VerifyDelegation (Some sd) = Ok (d, Identity_PublicKey i)) /\
  (forall e se, en_issuer_fingerprint e = Fingerprint i ->
     (en_scope e)⇢gs_key_fingerprint = en_key_fingerprint e ->
     SignEndorsement i (Some e) (Some key) = Ok se -> VerifyEndorsement (Some se) = Ok e) /\
  (forall r sr, rt_issuer_fingerprint r = Fingerprint i ->
     (rt_endorsement_id r <> EmptyString <-> rt_issued_before r = None) ->
     SignRetraction i (Some r) (Some key) = Ok sr -> VerifyRetraction (Some sr) = Ok r).
Proof.
  intros Hi Hk. pose proof Hi as [Hs _].
  split_and!.
  - intros r sa Hsa. cbn [SignApproval] in Hsa. ok_inv. subst sa. cbn [VerifyApproval].
    cbn. rewrite parse_own_key. cbn. rewrite bool_decide_eq_false_2 by (cbn; auto).
    rewrite UnmarshalSignature_Marshal. cbn. erewrite Hs by done. cbn.
    by erewrite Unmarshal_Marshal by done.
  - intros c sc. by apply SignRelayCall_verifies.
  - intros d sd Hd Hsd. cbn [SignDelegation] in Hsd. ok_inv. subst sd. cbn.
    rewrite parse_own_key. cbn. rewrite bool_decide_eq_false_2 by (cbn; auto).
    rewrite UnmarshalSignature_Marshal. cbn. erewrite Hs by done. cbn.
    erewrite Unmarshal_Marshal by done. cbn. by rewrite bool_decide_eq_false_2 by auto.
  - intros e se He Hsc Hse. cbn [SignEndorsement] in Hse. case_bool_decide as Hf; [done|].
    ok_inv. subst se.
    cbn [VerifyEndorsement se_issuer_public_key se_issuer_fingerprint se_signature
      se_endorsement se_key_signature].
    erewrite identity_half_own by done. cbn [mbind result_bind].
    erewrite key_half_own by done. cbn [mbind result_bind].
    erewrite Unmarshal_Marshal by done. cbn [mbind result_bind err_ctx].
    rewrite !bool_decide_eq_false_2 by (rewrite ?He, ?Hsc, ?Hf; auto). done.
  - intros r sr Hr Ht Hsr. cbn [SignRetraction] in Hsr. case_bool_decide as Hf; [done|].
    ok_inv. subst sr.
    cbn [VerifyRetraction sr_issuer_public_key sr_issuer_fingerprint sr_signature
      sr_retraction sr_key_signature].
    erewrite identity_half_own by done. cbn [mbind result_bind].
    erewrite key_half_own by done. cbn [mbind result_bind].
    erewrite Unmarshal_Marshal by done. cbn [mbind result_bind err_ctx].
    rewrite (bool_decide_eq_false_2 (rt_issuer_fingerprint r <> _)) by (rewrite ?Hr; auto).
    rewrite (bool_decide_eq_false_2 (rt_key_fingerprint r <> _)) by (rewrite ?Hf; auto).
    destruct (rt_issued_before r); repeat case_bool_decide; cbn; naive_solver.
Qed.

End RoundTrip.

(** ** Domain separation *)

Definition signing_prefixes : list string :=
  [approvalSigningPrefix; delegationSigningPrefix; endorsementSigningPrefix;
   retractionSigningPrefix; relaySigningPrefix].

(** Domain separation: an input the identity key signs determines
    which artifact it is and its body, and is never an SSHSIG signing blob
    (whatever digest, namespace and algorithm that blob has). *)
Theorem prefixed_domains :
  (forall p q a b, p ∈ signing_prefixes -> q ∈ signing_prefixes ->
     prefixed p a = prefixed q b -> p = q /\ a = b) /\
  (forall p a ns alg digest, p ∈ signing_prefixes ->
     prefixed p a <> SigningBlob ns alg digest).
Proof.
  split.
  - intros p q a b Hp Hq Heq. unfold signing_prefixes in Hp, Hq.
    repeat (apply elem_of_cons in Hp as [->|Hp]);
      repeat (apply elem_of_cons in Hq as [->|Hq]);
      try (by apply not_elem_of_nil in Hp); try (by apply not_elem_of_nil in Hq);
      solve [discriminate Heq | split; [done|]; by apply app_inv_head in Heq].
  - intros p a ns alg digest Hp. unfold signing_prefixes in Hp.
    repeat (apply elem_of_cons in Hp as [->|Hp]); [..|by apply not_elem_of_nil in Hp];
      discriminate.
Qed.

End Identity.

(** ** A concrete identity *)

Import Toy.

Definition toy_identity : Identity := mk_Identity "desk" (signer (of_string "i")).
Definition toy_key : Signer := signer (of_string "k").

Definition toy_scope : GrantScope :=
  mk_GrantScope "SHA256:k" KIND_GIT_SIGN EmptyString "/src/repo" "SHA256:box" EmptyString
    EmptyString 7.
Definition toy_delegation : Delegation :=
  mk_Delegation "d1" (Some toy_scope) (Some 0) (Some (15 * Minute)) "req1" "desc"
    "SHA256:i" "desk" "SHA256:box".
Definition toy_endorsement : Endorsement :=
  mk_Endorsement "e1" (Some toy_scope) (Some 0) (Some (15 * Minute)) "req1" "desc"
    "SHA256:i" "desk" "SHA256:box" "box" "SHA256:k".
Definition toy_retraction : Retraction :=
  mk_Retraction "r1" "SHA256:k" "e1" None (Some 0) (Some Hour) "SHA256:i" "desk" "lost".

#[export] Instance toy_delegations : Codec Delegation := table [toy_delegation].
#[export] Instance toy_delegations_laws : CodecLaws Delegation := table_laws _.
#[export] Instance toy_endorsements : Codec Endorsement := table [toy_endorsement].
#[export] Instance toy_endorsements_laws : CodecLaws Endorsement := table_laws _.
#[export] Instance toy_retractions : Codec Retraction := table [toy_retraction].
#[export] Instance toy_retractions_laws : CodecLaws Retraction := table_laws _.
#[export] Instance toy_responses : Codec ApprovalResponse := table [].
#[export] Instance toy_responses_laws : CodecLaws ApprovalResponse := table_laws _.
#[export] Instance toy_calls : Codec RelayCall := table [].
#[export] Instance toy_calls_laws : CodecLaws RelayCall := table_laws _.

Definition ok_or {A} (d : A) (r : result A) : A := match r with Ok a => a | Err _ => d end.

Definition toy_signed_endorsement : SignedEndorsement :=
  ok_or (mk_SignedEndorsement [] [] emp emp [] [])
    (SignEndorsement toy_identity (Some toy_endorsement) (Some toy_key)).

Lemma signed_artifacts_verify_witness :
  VerifyEndorsement (Some toy_signed_endorsement) = Ok toy_endorsement.
Proof.
  refine (proj1 (proj2 (proj2 (proj2 (signed_artifacts_verify toy_identity toy_key
    (signer_sound _) (signer_sound _))))) toy_endorsement toy_signed_endorsement _ _ _).
  all: vm_compute; exact eq_refl.
Defined.
