(* ===== verification/GitObject.v ===== *)
(** * GitObject: [pkg/gitctx/object.go] and [pkg/gitctx/verify.go]

    Parsing the commit or tag object git hands to its signing program, and
    checking the context of a signing request against the payload.  The
    context is a message both functions write into, so they return it with
    what they return. *)

From S2P Require Import Prelude.
From S2P Require Import GoText.
From S2P Require Import Proto.
From S2P Require Import Ssh.
From S2P Require Import Sshsig.

Local Open Scope Z_scope.

Definition TypeCommit : string := "commit".
Definition TypeTag : string := "tag".

Definition ErrNotAGitObject : error :=
  sentinel "ErrNotAGitObject" "gitctx: not a git commit or tag object".
Definition ErrContextMismatch : error :=
  sentinel "ErrContextMismatch" "gitctx: the commit shown is not the one being signed".

Definition LF : ascii := ascii_of_N 10.
Definition SP : ascii := ascii_of_N 32.

(** ** Splitting the object *)

Record header := mk_header { h_name : string; h_value : string }.

#[export] Instance header_eq_dec : EqDecision header.
Proof. solve_decision. Defined.

(** [bytes.Index(payload, "\n\n")], with what is before and after it. *)
Fixpoint cut_blank (b : bytes) : option (bytes * bytes) :=
  match b with
  | [] => None
  | x :: b' =>
    match b' with
    | y :: rest =>
      if bool_decide (x = x0a) && bool_decide (y = x0a) then Some ([], rest)
      else '(p, q) ← cut_blank b'; Some (x :: p, q)
    | [] => None
    end
  end.

Section GitObject.
Context `{Unicode} `{Hashes}.

(** One line of the header block; [acc] holds the headers read so far, the
    last one first. *)
Definition header_line (acc : list header) (line : string) : result (list header) :=
  match line with
  | String c rest =>
    if bool_decide (c = SP)
    then
      match acc with
      | [] => Err (wrap_w emp ErrNotAGitObject ": a continuation line before any header")
      | h :: acc' => Ok (mk_header (h_name h) (h_value h +:+ nl +:+ rest) :: acc')
      end
    else
      match Cut line SP with
      | Some (name, value) => Ok (mk_header name value :: acc)
      | None => Err (wrap_w emp ErrNotAGitObject (": header line " +:+ quote line +:+ " has no value"))
      end
  | EmptyString =>
      Err (wrap_w emp ErrNotAGitObject (": header line " +:+ quote line +:+ " has no value"))
  end.

Fixpoint header_lines (acc : list header) (lines : list string) : result (list header) :=
  match lines with
  | [] => Ok (rev acc)
  | l :: ls => acc' ← header_line acc l; header_lines acc' ls
  end.

Definition splitObject (payload : bytes) : result (list header * string) :=
  match cut_blank payload with
  | None => Err (wrap_w emp ErrNotAGitObject
      ": no blank line separating headers from the message")
  | Some (block, message) =>
    headers ← header_lines [] (Split (to_string block) LF);
    if bool_decide (headers = [])
    then Err (wrap_w emp ErrNotAGitObject ": no headers")
    else Ok (headers, to_string message)
  end.

(** ** Headers *)

Definition ParseIdentity (line : string) : result GitIdentity :=
  let none := Err (wrap_w emp ErrNotAGitObject (": no email address in " +:+ quote line)) in
  match CutLast line ">"%char with
  | None => none
  | Some (before, after) =>
    match CutLast before "<"%char with
    | None => none
    | Some (name, email) =>
      match Fields after with
      | [] => Ok (mk_GitIdentity (TrimSpace name) email None emp)
      | secs :: rest =>
        match ParseInt64 secs with
        | Err e => Err (wrap_ww (wrap_w emp ErrNotAGitObject
            (": timestamp " +:+ quote secs)) ": " e)
        | Ok seconds =>
          Ok (mk_GitIdentity (TrimSpace name) email (Some (seconds * Second))
            (default emp (head rest)))
        end
      end
    end
  end.

Definition subjectOf (message : string) : string :=
  TrimSpace (match Cut message LF with Some (line, _) => line | None => message end).

Definition applyHeader (o : GitObject) (h : header) : result GitObject :=
  let '(mk_GitObject ty tr ps au co ob ot tg ta su me ex) := o in
  let v := h_value h in
  if bool_decide (h_name h = "tree"%string) then Ok (mk_GitObject ty v ps au co ob ot tg ta su me ex)
  else if bool_decide (h_name h = "parent"%string)
  then Ok (mk_GitObject ty tr (ps ++ [v]) au co ob ot tg ta su me ex)
  else if bool_decide (h_name h = "object"%string)
  then Ok (mk_GitObject ty tr ps au co v ot tg ta su me ex)
  else if bool_decide (h_name h = "type"%string)
  then Ok (mk_GitObject ty tr ps au co ob v tg ta su me ex)
  else if bool_decide (h_name h = "tag"%string)
  then Ok (mk_GitObject ty tr ps au co ob ot v ta su me ex)
  else if bool_decide (h_name h = "author"%string)
          || bool_decide (h_name h = "committer"%string)
          || bool_decide (h_name h = "tagger"%string)
  then
    id ← err_ctx (h_name h +:+ " header: ") (ParseIdentity v);
    Ok (if bool_decide (h_name h = "author"%string)
        then mk_GitObject ty tr ps (Some id) co ob ot tg ta su me ex
        else if bool_decide (h_name h = "committer"%string)
        then mk_GitObject ty tr ps au (Some id) ob ot tg ta su me ex
        else mk_GitObject ty tr ps au co ob ot tg (Some id) su me ex)
  else Ok (mk_GitObject ty tr ps au co ob ot tg ta su me (ex ++ [mk_GitHeader (h_name h) v])).

Fixpoint applyHeaders (o : GitObject) (hs : list header) : result GitObject :=
  match hs with
  | [] => Ok o
  | h :: hs' => o' ← applyHeader o h; applyHeaders o' hs'
  end.

Definition set_type (ty : string) (o : GitObject) : GitObject :=
  mk_GitObject ty (go_tree o) (go_parents o) (go_author o) (go_committer o)
    (go_tagged_object o) (go_tagged_type o) (go_tag o) (go_tagger o) (go_subject o)
    (go_message o) (go_extra_headers o).

Definition ParseObject (payload : bytes) : result GitObject :=
  '(headers, message) ← splitObject payload;
  object ← applyHeaders
    (mk_GitObject emp emp [] None None emp emp emp None (subjectOf message) message []) headers;
  if bool_decide (go_tree object <> emp) && bool_decide (go_tag object = emp)
  then Ok (set_type TypeCommit object)
  else if bool_decide (go_tagged_object object <> emp) && bool_decide (go_tag object <> emp)
  then Ok (set_type TypeTag object)
  else Err (wrap_w emp ErrNotAGitObject ": no tree header and no tag header").

(** ** Describing and verifying a context *)

Definition gc_described (ty : string) (parsed : option GitObject) (g : GitContext) : GitContext :=
  mk_GitContext (gc_repository_path g) (gc_origin_url g) (gc_branch g) (gc_operation g)
    (gc_diff g) (gc_project_id g) ty (gc_object g) parsed
    (gc_verified_against_payload g) (gc_verification_error g).

Definition gc_verdict (verified : bool) (problem : string) (g : GitContext) : GitContext :=
  mk_GitContext (gc_repository_path g) (gc_origin_url g) (gc_branch g) (gc_operation g)
    (gc_diff g) (gc_project_id g) (gc_object_type g) (gc_object g) (gc_parsed g)
    verified problem.

Definition Describe (git : option GitContext) : option GitContext * option error :=
  match git with
  | None => (None, Some (errors_New "gitctx: no context"))
  | Some git =>
    let git := gc_described emp None git in
    match ParseObject (gc_object git) with
    | Err e => (Some git, Some e)
    | Ok object => (Some (gc_described (go_type object) (Some object) git), None)
    end
  end.

Definition Verify (git : option GitContext) (hashAlgorithm : string) (digest : bytes)
    : option GitContext * option error :=
  match git with
  | None => (None, None)
  | Some git =>
    let git := gc_verdict false emp git in
    let object := gc_object git in
    if bool_decide (object = []) then (Some git, None)
    else if bool_decide (digest = [])
    then (Some (gc_verdict false "there was no payload digest to check the commit against" git),
          Some (wrap_w emp ErrContextMismatch ": no digest"))
    else
      match Hash hashAlgorithm object with
      | Err e =>
        (Some (gc_verdict false
           ("the commit could not be checked against the payload: " +:+ e_msg e) git),
         Some (wrap_ww ErrContextMismatch ": " e))
      | Ok computed =>
        if bool_decide (computed <> digest)
        then (Some (gc_verdict false "the commit shown is not the one that would be signed" git),
              Some ErrContextMismatch)
        else
          match Describe (Some git) with
          | (git, Some e) =>
            (gc_verdict false ("the payload does not parse as a git object: " +:+ e_msg e) <$> git,
             Some (wrap_ww ErrContextMismatch ": " e))
          | (git, None) => (gc_verdict true emp <$> git, None)
          end
      end
  end.

(** The request with its git context replaced: what writing through
    [sig.GetGitContext()] does. *)
Definition set_git_context (git : option GitContext) (req : ApprovalRequest) : ApprovalRequest :=
  match rq_operation req with
  | OpSshsig s =>
    set_operation (OpSshsig (mk_SshsigRequest (sg_namespace s) (sg_hash_algorithm s)
      (sg_message_digest s) git)) req
  | _ => req
  end.

Definition VerifyRequest (req : ApprovalRequest) : ApprovalRequest * string :=
  match rq_sshsig req with
  | None => (req, emp)
  | Some sig =>
    match sg_git_context sig with
    | None => (req, emp)
    | Some git =>
      let '(git', err) := Verify (Some git) (sg_hash_algorithm sig) (sg_message_digest sig) in
      let req := set_git_context git' req in
      match err with
      | Some e =>
        let problem := git' ⇢ gc_verification_error in
        (req, if bool_decide (problem <> emp) then problem else e_msg e)
      | None => (req, emp)
      end
    end
  end.

(** ** Objects read back

    [print_object] writes an object the way git does: a line per header, the
    further lines of a value indented by one space, an empty line, the
    message. *)

Definition lf_free (s : string) : Prop := x0a ∉ of_string s.

Definition print_header (h : header) : list string :=
  match Split (h_value h) LF with
  | v :: vs => (h_name h +:+ " " +:+ v) :: map (String SP) vs
  | [] => []
  end.

Definition print_object (hs : list header) (message : string) : string :=
  Join (concat (map print_header hs)) nl +:+ nl +:+ nl +:+ message.

(** What git writes as a header name. *)
Definition wf_name (n : string) : Prop :=
  n <> emp /\ lf_free n /\ Cut n SP = None.

Lemma header_line_first acc n v :
  wf_name n -> header_line acc (n +:+ " " +:+ v) = Ok (mk_header n v :: acc).
Proof.
  intros (Hne & _ & Hc). destruct n as [|c n]; [done|]. rewrite string_app_cons. cbn [header_line].
  assert (c <> SP) as Hs by (intros ->; discriminate Hc).
  rewrite bool_decide_eq_false_2 by done.
  change (String c (n +:+ " " +:+ v)) with (String c n +:+ String SP v).
  by rewrite (Cut_app _ _ _ Hc).
Qed.

Lemma header_lines_app acc ls ls' :
  header_lines acc (ls ++ ls') =
  (hs ← header_lines acc ls; header_lines (rev hs) ls').
Proof.
  revert acc. induction ls as [|l ls IH]; intros acc; cbn.
  - by rewrite rev_involutive.
  - destruct (header_line acc l); cbn; [apply IH|done].
Qed.

Lemma header_lines_more acc n v vs :
  header_lines (mk_header n v :: acc) (map (String SP) vs) =
  Ok (rev acc ++ [mk_header n (Join (v :: vs) nl)]).
Proof.
  revert v. induction vs as [|w vs IH]; intros v; cbn [map header_lines].
  - cbn. by rewrite string_app_nil_r.
  - cbn [header_line]. rewrite bool_decide_eq_true_2 by done.
    cbn [mbind result_bind h_name h_value]. rewrite IH. do 4 f_equal.
    cbn [Join foldr]. by rewrite <- !string_app_assoc.
Qed.

Lemma header_lines_print hs acc :
  Forall (fun h => wf_name (h_name h)) hs ->
  header_lines acc (concat (map print_header hs)) = Ok (rev acc ++ hs).
Proof.
  intros Hf. revert acc. induction Hf as [|h hs Hn Hf IH]; intros acc.
  { cbn. by rewrite app_nil_r. }
  cbn [map concat]. rewrite header_lines_app.
  assert (exists v vs, Split (h_value h) LF = v :: vs /\
    print_header h = (h_name h +:+ " " +:+ v) :: map (String SP) vs) as (v & vs & Hv & ->).
  { unfold print_header. destruct (Split (h_value h) LF) eqn:E; [|eauto].
    by apply Split_nonempty in E. }
  cbn [header_lines]. rewrite header_line_first by done. cbn [mbind result_bind].
  rewrite header_lines_more. cbn [mbind result_bind].
  rewrite rev_app_distr. cbn [rev app]. rewrite IH. cbn [rev]. rewrite rev_involutive.
  rewrite <- Hv, Join_Split, <- app_assoc. by destruct h.
Qed.

Lemma print_header_lines h :
  wf_name (h_name h) -> Forall (fun l => l <> emp /\ lf_free l) (print_header h).
Proof.
  intros (Hne & Hl & _). unfold print_header.
  pose proof (Split_free (h_value h) LF) as Hf.
  destruct (Split (h_value h) LF) as [|v vs]; [constructor|].
  apply Forall_cons in Hf as [Hv Hvs]. constructor.
  - split; [by destruct (h_name h)|]. unfold lf_free in *.
    rewrite !of_string_app, !elem_of_app. intros [?|[?|?]]; [done| |done].
    by apply list_elem_of_singleton in H1.
  - apply Forall_map. eapply Forall_impl; [exact Hvs|]. intros w Hw. split; [done|].
    unfold lf_free. change (of_string (String SP w)) with (x20 :: of_string w).
    rewrite elem_of_cons. by intros [?|?].
Qed.

Lemma cut_blank_line s r :
  lf_free s -> cut_blank (of_string s ++ r) = ('(p, q) ← cut_blank r; Some (of_string s ++ p, q)).
Proof.
  unfold lf_free. generalize (of_string s) as l. intros l. induction l as [|x l IH]; intros Hl.
  { cbn. by destruct (cut_blank r) as [[]|]. }
  apply not_elem_of_cons in Hl as [Hx Hl]. cbn [app cut_blank].
  rewrite bool_decide_eq_false_2 by done. cbn [andb].
  destruct (l ++ r) as [|y rest] eqn:Hlr.
  - apply app_eq_nil in Hlr as [-> ->]. done.
  - rewrite (IH Hl). by destruct (cut_blank r) as [[]|].
Qed.

Lemma cut_blank_lines ls m :
  ls <> [] -> Forall (fun l => l <> emp /\ lf_free l) ls ->
  cut_blank (of_string (Join ls nl) ++ x0a :: x0a :: m) = Some (of_string (Join ls nl), m).
Proof.
  destruct ls as [|l ls]; [done|]. intros _ Hf. revert l Hf.
  induction ls as [|l' ls IH]; intros l [[Hl Hf] Hls]%Forall_cons.
  - cbn [Join foldr]. rewrite string_app_nil_r, cut_blank_line by done. cbn [cut_blank].
    rewrite !bool_decide_eq_true_2 by done. cbn. by rewrite app_nil_r.
  - rewrite Join_cons, !of_string_app, <- !app_assoc, cut_blank_line by done.
    specialize (IH l' Hls). apply Forall_cons in Hls as [[Hne' Hf'] _].
    change (of_string nl) with [x0a]. cbn [app cut_blank].
    destruct (of_string (Join (l' :: ls) nl) ++ x0a :: x0a :: m) as [|y rest] eqn:Hy.
    { by apply app_eq_nil in Hy as [_ ?]. }
    assert (y <> x0a) as Hyn.
    { destruct l' as [|c l']; [done|]. intros ->. apply Hf'.
      cbn [Join] in Hy. rewrite string_app_cons in Hy. injection Hy as Hc _.
      change (of_string (String c l')) with (byte_of_ascii c :: of_string l').
      rewrite Hc. left. }
    rewrite (bool_decide_eq_false_2 (y = x0a)), andb_false_r by done.
    rewrite IH. done.
Qed.

(** Headers read back: an object whose header names are words, with
    any values (an embedded new line included) and any message, splits into
    exactly those headers and that message. *)
Theorem splitObject_print hs message :
  hs <> [] -> Forall (fun h => wf_name (h_name h)) hs ->
  splitObject (of_string (print_object hs message)) = Ok (hs, message).
Proof.
  intros Hne Hf. unfold splitObject, print_object.
  set (ls := concat (map print_header hs)).
  assert (Forall (fun l => l <> emp /\ lf_free l) ls) as Hls.
  { apply Forall_concat, Forall_map. eapply Forall_impl; [exact Hf|].
    intros h. apply print_header_lines. }
  assert (ls <> []) as Hln.
  { destruct hs as [|h hs]; [done|]. cbn. unfold print_header at 1.
    destruct (Split (h_value h) LF) eqn:Hv; [by apply Split_nonempty in Hv|done]. }
  rewrite !of_string_app. change (of_string nl) with [x0a]. cbn [app].
  rewrite cut_blank_lines by done. rewrite !to_of_string.
  change nl with (String LF EmptyString). rewrite Split_Join; [|done|].
  - unfold ls. rewrite header_lines_print by done. cbn [rev app mbind result_bind].
    by rewrite bool_decide_eq_false_2.
  - eapply Forall_impl; [exact Hls|]. by intros l [_ ?].
Qed.

(** ** What verification establishes *)

(** The parts of a context that come from the requester and stay as they are. *)
Definition asserted_part (g : GitContext) :=
  (gc_repository_path g, gc_origin_url g, gc_branch g, gc_operation g, gc_diff g,
   gc_project_id g, gc_object g).

(** When the object of a context is the one whose digest will be signed. *)
Definition object_signed (g : GitContext) (alg : string) (digest : bytes) (o : GitObject) : Prop :=
  gc_object g <> [] /\ digest <> [] /\ Hash alg (gc_object g) = Ok digest /\
  ParseObject (gc_object g) = Ok o.

Lemma Verify_cases g alg digest :
  exists g' err, Verify (Some g) alg digest = (Some g', err) /\
    asserted_part g' = asserted_part g /\
    ((gc_object g = [] /\ err = None /\ g' = gc_verdict false emp g) \/
     (gc_object g <> [] /\ is_Some err /\ gc_verified_against_payload g' = false /\
      gc_verification_error g' <> emp /\ ~ exists o, object_signed g alg digest o) \/
     (exists o, object_signed g alg digest o /\ err = None /\
      g' = gc_verdict true emp (gc_described (go_type o) (Some o) g))).
Proof.
  unfold Verify. cbn [gc_verdict gc_object].
  case_bool_decide as Ho; [eexists _, _; split; [done|]; split; [done|]; by left|].
  assert (forall e : error, is_Some (Some e)) as Hs by eauto.
  case_bool_decide as Hd.
  { eexists _, _; split; [done|]; split; [done|]. right; left. split_and!; try done.
    intros (o & _ & ? & _). done. }
  destruct (Hash alg (gc_object g)) as [computed|e] eqn:Hh.
  2: { eexists _, _; split; [done|]; split; [done|]. right; left. split_and!; try done.
       intros (o & _ & _ & ? & _). congruence. }
  case_bool_decide as Hc.
  { eexists _, _; split; [done|]; split; [done|]. right; left. split_and!; try done.
    intros (o & _ & _ & ? & _). congruence. }
  subst computed. unfold Describe.
  change (gc_object (gc_described _ _ (gc_verdict _ _ g))) with (gc_object g).
  destruct (ParseObject (gc_object g)) as [o|e] eqn:Hp.
  - eexists _, _; split; [done|]; split; [done|]. right; right. exists o. split_and!; try done.
  - eexists _, _; split; [done|]; split; [done|]. right; left. split_and!; try done.
    intros (o & _ & _ & _ & ?). congruence.
Qed.

Lemma Verify_outcome g alg digest :
  exists g' err, Verify (Some g) alg digest = (Some g', err) /\
    asserted_part g' = asserted_part g /\
    (gc_verified_against_payload g' = true <-> exists o, object_signed g alg digest o) /\
    (forall o, object_signed g alg digest o ->
       gc_parsed g' = Some o /\ gc_object_type g' = go_type o) /\
    (err = None <-> gc_object g = [] \/ exists o, object_signed g alg digest o) /\
    (gc_verification_error g' = emp <-> err = None).
Proof.
  destruct (Verify_cases g alg digest) as (g' & err & HV & Ha & Hc).
  exists g', err. split; [done|]. split; [done|].
  destruct Hc as [(Ho & -> & ->)|[(Ho & [e ->] & Hv & Hve & Hn)|(o & Hs & -> & ->)]];
    cbn [gc_verdict gc_described gc_verified_against_payload gc_verification_error
      gc_parsed gc_object_type].
  - split_and!; try done.
    + split; [done|]. intros (o & Hne & _). done.
    + intros o (Hne & _). done.
    + split; auto.
  - split_and!.
    + rewrite Hv. split; [done|]. intros. by exfalso.
    + intros o Hs. exfalso. eauto.
    + split; [done|]. intros [?|?]; by exfalso.
    + done.
  - split_and!; try done.
    + split; eauto.
    + intros o' (_ & _ & _ & Hp'). destruct Hs as (_ & _ & _ & Hp). split; congruence.
    + split; eauto.
Qed.

(** C24. A git context comes out of [Verify] marked as verified exactly
    when its object hashes to the digest being signed and parses, and then
    everything the prompt shows of the commit is the parse of those bytes; an
    object that fails any check is an error with a problem recorded; what the
    requester merely asserts is left as it was. *)
Theorem Verify_spec g alg digest :
  exists g' err, Verify (Some g) alg digest = (Some g', err) /\
    asserted_part g' = asserted_part g /\
    (gc_verified_against_payload g' = true <-> exists o, object_signed g alg digest o) /\
    (forall o, object_signed g alg digest o ->
       gc_parsed g' = Some o /\ gc_object_type g' = go_type o) /\
    (err = None <-> gc_object g = [] \/ exists o, object_signed g alg digest o) /\
    (gc_verification_error g' = emp <-> err = None).
Proof. apply Verify_outcome. Qed.

End GitObject.

Definition demo_headers : list header :=
  [mk_header "tree" "4b825dc6"; mk_header "parent" "9fceb02d";
   mk_header "author" "Ada <ada@example.org> 1786209283 +0200";
   mk_header "mergetag" ("object 1" +:+ nl +:+ nl +:+ "two")].

Lemma splitObject_print_witness :
  splitObject (of_string (print_object demo_headers "subject")) = Ok (demo_headers, "subject"%string).
Proof.
  apply splitObject_print; [discriminate|].
  repeat constructor; try discriminate; try (vm_compute; reflexivity);
    unfold lf_free; apply (bool_decide_unpack _); vm_compute; exact I.
Defined.

Example ParseObject_demo :
  (fun o => (go_type o, go_subject o, gi_time <$> go_author o, length (go_extra_headers o))) <$>
    ParseObject (of_string (print_object demo_headers "subject")) =
  Ok (TypeCommit, "subject"%string, Some (Some (1786209283 * Second)), 1%nat).
Proof. vm_compute. reflexivity. Qed.
