(* ===== verification/Prompt.v ===== *)
(** * Prompt: [pkg/approval/prompt.go]

    A request rendered for a human: a title, a subject, labelled details each
    marked when only the requester vouches for it, and warnings.  The one
    thing taken as a parameter is how a moment reads in the local time zone. *)

From S2P Require Import Prelude.
From S2P Require Import GoText.
From S2P Require Import Proto.
From S2P Require Import Asker.
From S2P Require Import Ssh.
From S2P Require Import GitObject.

Local Open Scope Z_scope.

(** [t.Local().Format(time.RFC1123)]: depends on the machine's time zone. *)
Class LocalTime := Local_RFC1123 : time -> string.

Record Detail := mk_Detail { d_label : string; d_value : string; d_asserted : bool }.

Record Prompt := mk_Prompt {
  p_title : string;
  p_subject : string;
  p_details : list Detail;
  p_warnings : list string
}.

Definition with_title (t : string) (p : Prompt) : Prompt :=
  mk_Prompt t (p_subject p) (p_details p) (p_warnings p).
Definition with_subject (s : string) (p : Prompt) : Prompt :=
  mk_Prompt (p_title p) s (p_details p) (p_warnings p).
Definition add_details (d : list Detail) (p : Prompt) : Prompt :=
  mk_Prompt (p_title p) (p_subject p) (p_details p ++ d) (p_warnings p).
Definition add_warnings (w : list string) (p : Prompt) : Prompt :=
  mk_Prompt (p_title p) (p_subject p) (p_details p) (p_warnings p ++ w).

(** ** Plain text, for the audit log *)

Definition Text (p : Prompt) : string :=
  p_title p +:+
  (if bool_decide (p_subject p <> emp) then " — " +:+ p_subject p else emp) +:+
  foldr (fun d acc => nl +:+ "  " +:+ d_label d +:+ ": " +:+ d_value d +:+
    (if d_asserted d then " (reported by the requester, unverified)" else emp) +:+ acc) emp
    (p_details p) +:+
  foldr (fun w acc => nl +:+ "  ! " +:+ w +:+ acc) emp (p_warnings p).

(** ** Small renderings *)

Definition DisplayHost (host : option HostKey) : string :=
  match host with
  | None => "unknown"
  | Some h => match hk_known_hosts_names h with n :: _ => n | [] => hk_fingerprint h end
  end.

Definition pluralHops (hops : Z) : string :=
  if hops =? 1 then "1 forwarded agent hop" else itoa hops +:+ " forwarded agent hops".

Definition shortHex (b : bytes) : string :=
  if bool_decide (8 < length b)%nat then hex (take 8 b) +:+ "…" else hex b.

Definition GitIdentityString (id : option GitIdentity) : string :=
  match id with
  | None => emp
  | Some id =>
    let who :=
      if bool_decide (gi_email id <> emp)
      then if bool_decide (gi_name id = emp) then gi_email id
           else gi_name id +:+ " <" +:+ gi_email id +:+ ">"
      else gi_name id in
    match gi_time id with
    | None => who
    | Some t =>
      let when := FormatDateTime t +:+
        (if bool_decide (gi_timezone id <> emp) then " " +:+ gi_timezone id else emp) in
      if bool_decide (who = emp) then when else who +:+ ", " +:+ when
    end
  end.

Definition committerIfDifferent (object : option GitObject) : string :=
  let committer := GitIdentityString object⇢go_committer in
  if bool_decide (committer = GitIdentityString object⇢go_author) then emp else committer.

Definition DiffSummary (diff : option GitDiff) : string :=
  match diff with
  | None => emp
  | Some d =>
    if bool_decide (gd_error d <> emp) then "not available: " +:+ gd_error d
    else if gd_files_changed d =? 0 then "no files changed"
    else
      plural (gd_files_changed d) "file" "files" +:+ " changed, " +:+
      plural (gd_insertions d) "insertion" "insertions" +:+ ", " +:+
      plural (gd_deletions d) "deletion" "deletions" +:+
      (if gd_truncated d then " (truncated)" else emp)
  end.

Definition repositoryName (git : option GitContext) : string :=
  let name := TrimRightChar git⇢gc_repository_path SLASH in
  let name := if bool_decide (name = emp)
    then TrimSuffix (TrimRightChar git⇢gc_origin_url SLASH) ".git" else name in
  default name (after_last (fun c => bool_decide (c = SLASH) || bool_decide (c = ":"%char)) name).

Definition gitTitle (title : string) (req : ApprovalRequest) (git : option GitContext) : string :=
  let title :=
    match rq_requester req with
    | Some who =>
      if negb (ri_local who) && bool_decide (ri_name who <> emp)
      then title +:+ " for " +:+ ri_name who else title
    | None => title
    end in
  let repo := repositoryName git in
  if bool_decide (repo <> emp) then title +:+ " in " +:+ repo else title.

(** ** The kinds *)

Definition renderSSHAuth (p : Prompt) (req : ApprovalRequest) : Prompt :=
  let auth := rq_ssh_auth req in
  let user := auth⇢sa_username in
  let title := if rq_grant_only req
    then if bool_decide (user <> emp) then "Allow SSH logins as " +:+ user else "Allow SSH logins"
    else if bool_decide (user <> emp) then "SSH login as " +:+ user else "SSH login" in
  let p := with_subject auth⇢sa_destination_label (with_title title p) in
  let p :=
    match auth⇢sa_destination with
    | None => p
    | Some host =>
      let value := hk_fingerprint host +:+
        (if hk_known host then ", matched in known_hosts" else ", not in known_hosts") in
      let value :=
        match auth⇢sa_payload_destination with
        | Some payload =>
          if bool_decide (hk_fingerprint payload = hk_fingerprint host)
          then value +:+ (if rq_grant_only req
            then "; read from the server now, and matched against the signed payload when a login actually happens"
            else "; named in the signed payload")
          else value
        | None => value
        end in
      add_details [mk_Detail "Host key" value false] p
    end in
  let p := if negb auth⇢sa_bound && bool_decide (auth⇢sa_payload_destination = None)
    then add_warnings
      ["the client did not say where it is connecting, so the destination is unknown"%string] p
    else p in
  let p := if auth⇢sa_forwarded
    then add_warnings ["this request arrived through " +:+ pluralHops auth⇢sa_forwarded_hops +:+
           " and always needs confirmation"] p
    else p in
  let chain := auth⇢sa_binding_chain in
  if bool_decide (1 < length chain)%nat
  then add_details [mk_Detail "Path"
         (Join (map (fun b => DisplayHost (sb_host_key b)) chain) " → ") false] p
  else p.

Definition renderGitSign (p : Prompt) (req : ApprovalRequest) : Prompt :=
  let git := (rq_sshsig req)⇢sg_git_context in
  let p :=
    match git with
    | None =>
      add_details [mk_Detail "Digest" (shortHex (rq_sshsig req)⇢sg_message_digest) false]
        (with_subject "a git object" (with_title "Git signature" p))
    | Some g =>
      let object := gc_parsed g in
      let title := if bool_decide (object⇢go_type = TypeTag)
        then "Git tag signature" else "Git signature" in
      let proven := negb (gc_verified_against_payload g) in
      let details :=
        [mk_Detail "Repository" (gc_repository_path g) true;
         mk_Detail "Branch" (gc_branch g) true;
         mk_Detail "Author" (GitIdentityString object⇢go_author) proven;
         mk_Detail "Committer" (committerIfDifferent object) proven;
         mk_Detail "Tagger" (GitIdentityString object⇢go_tagger) proven;
         mk_Detail "Tag" object⇢go_tag proven;
         mk_Detail "Changes" (DiffSummary (gc_diff g)) true] in
      let p := with_subject object⇢go_subject (with_title title p) in
      let p := add_details (List.filter (fun d => bool_decide (d_value d <> emp)) details) p in
      let problem := gc_verification_error g in
      if bool_decide (problem <> emp) then add_warnings [problem] p else p
    end in
  with_title (gitTitle (p_title p) req git) p.

Definition renderParkedKey `{LocalTime} (p : Prompt) (parked : option LocalKey) : Prompt :=
  match parked with
  | None => p
  | Some parked =>
    let proc := lk_added_by parked in
    let by_ :=
      match proc with
      | None => "a program"%string
      | Some pr =>
        let asker := AskerDetail proc in
        let by_ := if bool_decide (asker <> emp) then asker
          else if bool_decide (cp_executable pr <> emp) then cp_executable pr
          else "a program"%string in
        let chain := AskerChain proc in
        if bool_decide (chain <> emp) then by_ +:+ ", via " +:+ chain else by_
      end in
    let p := add_details [mk_Detail "Key parked by" by_ false] p in
    let p :=
      match lk_expires_at parked with
      | Some t => add_details [mk_Detail "Key expires" (Local_RFC1123 t) false] p
      | None => p
      end in
    add_warnings
      ["this key was put in the agent by a program, not made or imported here"%string] p
  end.

Definition renderRequester (p : Prompt) (requester : option RequesterInfo) : Prompt :=
  match requester with
  | None => p
  | Some r =>
    if negb (ri_local r)
    then
      let name := if bool_decide (ri_name r = emp) then ri_instance_id r else ri_name r in
      add_details [mk_Detail "Requested by" name false] p
    else
      match ri_process r with
      | None => p
      | Some proc =>
        let value := if bool_decide (cp_executable proc = emp)
          then "pid " +:+ itoa (cp_pid proc)
          else cp_executable proc +:+ " (pid " +:+ itoa (cp_pid proc) +:+ ")" in
        let p := add_details [mk_Detail "Program" value false] p in
        let asker := AskerDetail (Some proc) in
        let p := if bool_decide (asker <> emp)
          then add_details [mk_Detail "Asked by" asker false] p else p in
        let chain := AskerChain (Some proc) in
        if bool_decide (chain <> emp)
        then add_details [mk_Detail "Started by" chain false] p else p
      end
  end.

Section RenderPrompt.
Context `{Unicode} `{LocalTime}.

Definition RenderPrompt (req : ApprovalRequest) : Prompt :=
  let p := mk_Prompt "Signing request" emp [] [] in
  let p :=
    match rq_kind req with
    | KIND_SSH_AUTH => renderSSHAuth p req
    | KIND_GIT_SIGN => renderGitSign p req
    | KIND_SSHSIG =>
      with_subject ("namespace " +:+ quote (rq_sshsig req)⇢sg_namespace)
        (with_title "Signature request" p)
    | KIND_OPAQUE_SIGN =>
      add_warnings [(rq_opaque_sign req)⇢os_reason]
        (with_subject "the payload is neither an SSH login nor a signature"
          (with_title "Unrecognised signing request" p))
    | KIND_PAIRING =>
      with_subject (rq_pairing req)⇢pr_peer_name (with_title "Pairing request" p)
    | KIND_KEY_LIST => with_title "Key listing request" p
    | KIND_UNSPECIFIED => with_title "Unclassified request" p
    end in
  let p :=
    match rq_key req with
    | None => p
    | Some key =>
      let label := kr_label key in
      let label :=
        if bool_decide (kr_comment key <> emp) && bool_decide (kr_comment key <> label)
        then label +:+ " (" +:+ kr_comment key +:+ ")" else label in
      let label := if bool_decide (label = emp) then "(no label)"%string else label in
      add_details [mk_Detail "Key" label false;
                   mk_Detail "Fingerprint" (kr_fingerprint key) false] p
    end in
  renderRequester (renderParkedKey p (rq_local_key req)) (rq_requester req).

(** ** What is drawn comes from where it says it does *)

(** [q] extends [p]: the same title and subject, more details with labels
    from a list, more warnings. *)
Definition extends (labels : list string) (p q : Prompt) : Prop :=
  p_title q = p_title p /\ p_subject q = p_subject p /\
  (exists l, p_details q = p_details p ++ l /\ Forall (fun d => d_label d ∈ labels) l) /\
  exists w, p_warnings q = p_warnings p ++ w.

Lemma extends_refl ls p : extends ls p p.
Proof. split_and!; try done; exists []; by rewrite app_nil_r. Qed.

Lemma extends_trans ls p q r : extends ls p q -> extends ls q r -> extends ls p r.
Proof.
  intros (Ht & Hs & (l & Hl & Hf) & w & Hw) (Ht' & Hs' & (l' & Hl' & Hf') & w' & Hw').
  split_and!; [congruence..| |].
  - exists (l ++ l'). rewrite Hl', Hl, app_assoc. split; [done|]. by apply Forall_app.
  - exists (w ++ w'). by rewrite Hw', Hw, app_assoc.
Qed.

Lemma extends_details ls p l :
  Forall (fun d => d_label d ∈ ls) l -> extends ls p (add_details l p).
Proof. intros Hf. split_and!; try done; [by exists l|]. exists []. cbn. by rewrite app_nil_r. Qed.

Lemma extends_warnings ls p w : extends ls p (add_warnings w p).
Proof. split_and!; try done; [exists []; cbn; by rewrite app_nil_r|]. by exists w. Qed.

(** Walk a chain of conditional additions. *)
Ltac extend :=
  repeat first
    [ apply extends_refl
    | eapply extends_trans; [|apply extends_warnings]
    | eapply extends_trans;
        [|apply extends_details; repeat constructor; cbn [d_label]; set_solver]
    | case_match ].

Ltac in_list :=
  solve [repeat first [apply list_elem_of_here | apply list_elem_of_further]].

Definition side_labels : list string :=
  ["Key parked by"; "Key expires"; "Requested by"; "Program"; "Asked by"; "Started by";
   "Key"; "Fingerprint"].

Lemma renderParkedKey_extends p k : extends side_labels p (renderParkedKey p k).
Proof. unfold renderParkedKey. extend. Qed.

Lemma renderRequester_extends p r : extends side_labels p (renderRequester p r).
Proof. unfold renderRequester. extend. Qed.

(** The prompt of a kind, before the key and the requester are added. *)
Lemma RenderPrompt_kind req :
  exists p0, extends side_labels p0 (RenderPrompt req) /\
    match rq_kind req with
    | KIND_SSH_AUTH => p0 = renderSSHAuth (mk_Prompt "Signing request" emp [] []) req
    | KIND_GIT_SIGN => p0 = renderGitSign (mk_Prompt "Signing request" emp [] []) req
    | KIND_OPAQUE_SIGN => p_warnings p0 = [(rq_opaque_sign req)⇢os_reason]
    | _ => True
    end.
Proof.
  unfold RenderPrompt. eexists. split.
  - eapply extends_trans; [|apply renderRequester_extends].
    eapply extends_trans; [|apply renderParkedKey_extends].
    instantiate (1 := match rq_kind req with _ => _ end).
    case_match; [|apply extends_refl].
    apply extends_details. repeat constructor; cbn [d_label]; set_solver.
  - by destruct (rq_kind req).
Qed.

(** ** The rows of a commit *)

Definition commit_labels : list string := ["Author"; "Committer"; "Tagger"; "Tag"].

(** What a row of a prompt says when it is read from a parsed object. *)
Definition commit_row (label : string) (o : option GitObject) : string :=
  if bool_decide (label = "Author"%string) then GitIdentityString o⇢go_author
  else if bool_decide (label = "Committer"%string) then committerIfDifferent o
  else if bool_decide (label = "Tagger"%string) then GitIdentityString o⇢go_tagger
  else o⇢go_tag.

Lemma labels_disjoint x : x ∈ commit_labels -> x ∉ side_labels.
Proof.
  revert x. apply Forall_forall. apply (bool_decide_unpack _). vm_compute. exact I.
Qed.

Lemma renderGitSign_rows req g d :
  (rq_sshsig req)⇢sg_git_context = Some g ->
  d ∈ p_details (renderGitSign (mk_Prompt "Signing request" emp [] []) req) ->
  d_label d ∈ commit_labels ->
  d_asserted d = negb (gc_verified_against_payload g) /\
  d_value d = commit_row (d_label d) (gc_parsed g).
Proof.
  intros Hg Hd Hl. unfold renderGitSign in Hd. rewrite Hg in Hd.
  assert (d ∈ [mk_Detail "Repository" (gc_repository_path g) true;
         mk_Detail "Branch" (gc_branch g) true;
         mk_Detail "Author" (GitIdentityString (gc_parsed g)⇢go_author)
           (negb (gc_verified_against_payload g));
         mk_Detail "Committer" (committerIfDifferent (gc_parsed g))
           (negb (gc_verified_against_payload g));
         mk_Detail "Tagger" (GitIdentityString (gc_parsed g)⇢go_tagger)
           (negb (gc_verified_against_payload g));
         mk_Detail "Tag" (gc_parsed g)⇢go_tag (negb (gc_verified_against_payload g));
         mk_Detail "Changes" (DiffSummary (gc_diff g)) true]) as Hin.
  { apply list_elem_of_In in Hd. apply list_elem_of_In.
    destruct (bool_decide (gc_verification_error g <> emp));
      cbn [with_title add_warnings add_details with_subject p_details app] in Hd;
      by apply filter_In in Hd as [? _]. }
  clear Hd. unfold commit_labels in Hl.
  repeat (apply elem_of_cons in Hin as [->|Hin]; [try done|]);
    [cbn in Hl; set_solver..|]. by apply not_elem_of_nil in Hin.
Qed.

Lemma renderGitSign_warning req g :
  (rq_sshsig req)⇢sg_git_context = Some g -> gc_verification_error g <> emp ->
  gc_verification_error g ∈
    p_warnings (renderGitSign (mk_Prompt "Signing request" emp [] []) req).
Proof.
  intros Hg He. unfold renderGitSign. rewrite Hg.
  rewrite (bool_decide_eq_true_2 (gc_verification_error g <> emp)) by done. left.
Qed.

Lemma VerifyRequest_git `{Hashes} req sig g :
  rq_sshsig req = Some sig -> sg_git_context sig = Some g ->
  exists g' err, Verify (Some g) (sg_hash_algorithm sig) (sg_message_digest sig) = (Some g', err) /\
    (rq_sshsig (VerifyRequest req).1)⇢sg_git_context = Some g' /\
    rq_kind (VerifyRequest req).1 = rq_kind req /\
    (gc_verification_error g' = emp <-> err = None) /\
    (VerifyRequest req).2 = match err with Some _ => gc_verification_error g' | None => emp end.
Proof.
  intros Hs Hg.
  destruct (Verify_outcome g (sg_hash_algorithm sig) (sg_message_digest sig))
    as (g' & err & HV & _ & _ & _ & _ & He).
  exists g', err. split; [done|]. unfold VerifyRequest, rq_sshsig in *.
  destruct (rq_operation req) eqn:Ho; try done. injection Hs as ->. rewrite Hg, HV.
  assert (forall e : error, err = Some e -> gc_verification_error g' <> emp) as Hne.
  { intros e -> Hn. by apply He in Hn. }
  unfold set_git_context. rewrite Ho.
  destruct err as [e|]; cbn [fst snd set_operation rq_operation rq_kind getter sg_git_context].
  - rewrite bool_decide_eq_true_2 by eauto. done.
  - done.
Qed.

(** C28. A git signing request that has been through [VerifyRequest]
    draws the author, committer, tagger and tag as facts only when they are
    read from the object whose digest will be signed; a problem found is
    always among the warnings. *)
Theorem git_prompt_proven `{Hashes} req sig g :
  rq_kind req = KIND_GIT_SIGN -> rq_sshsig req = Some sig -> sg_git_context sig = Some g ->
  let '(req', problem) := VerifyRequest req in
  (forall d, d ∈ p_details (RenderPrompt req') -> d_label d ∈ commit_labels ->
     d_asserted d = false ->
     exists o, object_signed g (sg_hash_algorithm sig) (sg_message_digest sig) o /\
       d_value d = commit_row (d_label d) (Some o)) /\
  (problem <> emp -> problem ∈ p_warnings (RenderPrompt req')).
Proof.
  intros Hk Hs Hg.
  destruct (VerifyRequest_git req sig g Hs Hg) as (g' & err & HV & Hg' & Hk' & He & Hp).
  destruct (Verify_outcome g (sg_hash_algorithm sig) (sg_message_digest sig))
    as (g'' & err' & HV' & _ & Hver & Hpar & _).
  rewrite HV' in HV. injection HV as -> ->.
  destruct (VerifyRequest req) as [req' problem]. cbn [fst snd] in *.
  destruct (RenderPrompt_kind req') as (p0 & (_ & _ & (l & Hl & Hf) & w & Hw) & Hp0).
  rewrite Hk', Hk in Hp0. subst p0. split.
  - intros d Hd Hlab Hass. rewrite Hl in Hd. apply elem_of_app in Hd as [Hd|Hd].
    + destruct (renderGitSign_rows _ _ _ Hg' Hd Hlab) as [Ha Hv].
      rewrite Hass in Ha. symmetry in Ha. apply negb_false_iff in Ha.
      apply Hver in Ha as [o Ho]. exists o. split; [done|].
      destruct (Hpar o Ho) as [Hpo _]. by rewrite Hv, Hpo.
    + exfalso. rewrite Forall_forall in Hf. specialize (Hf _ Hd).
      revert Hlab Hf. by apply labels_disjoint.
  - intros Hne. rewrite Hw. apply elem_of_app. left.
    destruct err; [|congruence]. rewrite Hp in *. by apply renderGitSign_warning.
Qed.

(** What should make somebody look twice is always on the
    prompt: a login whose destination is unknown, one that came through a
    forwarded agent, a payload that could not be read, a parked key. *)
Theorem prompt_warns req :
  (rq_kind req = KIND_SSH_AUTH -> (rq_ssh_auth req)⇢sa_bound = false ->
   (rq_ssh_auth req)⇢sa_payload_destination = None ->
   "the client did not say where it is connecting, so the destination is unknown"%string
     ∈ p_warnings (RenderPrompt req)) /\
  (rq_kind req = KIND_SSH_AUTH -> (rq_ssh_auth req)⇢sa_forwarded = true ->
   "this request arrived through " +:+ pluralHops (rq_ssh_auth req)⇢sa_forwarded_hops +:+
     " and always needs confirmation" ∈ p_warnings (RenderPrompt req)) /\
  (rq_kind req = KIND_OPAQUE_SIGN ->
   (rq_opaque_sign req)⇢os_reason ∈ p_warnings (RenderPrompt req)) /\
  (is_Some (rq_local_key req) ->
   "this key was put in the agent by a program, not made or imported here"%string
     ∈ p_warnings (RenderPrompt req)).
Proof.
  destruct (RenderPrompt_kind req) as (p0 & (_ & _ & _ & w & Hw) & Hp0).
  split_and!.
  - intros Hk Hb Hd. rewrite Hk in Hp0. subst p0. rewrite Hw. apply elem_of_app. left.
    unfold renderSSHAuth. rewrite Hb, Hd. cbn [negb andb]. rewrite (bool_decide_eq_true_2 (None = None)) by done.
    repeat case_match; cbn [add_warnings add_details with_title with_subject p_warnings app];
      in_list.
  - intros Hk Hf. rewrite Hk in Hp0. subst p0. rewrite Hw. apply elem_of_app. left.
    unfold renderSSHAuth. rewrite Hf.
    repeat case_match; cbn [add_warnings add_details with_title with_subject p_warnings app];
      in_list.
  - intros Hk. rewrite Hk in Hp0. rewrite Hw, Hp0. apply elem_of_app. left. left.
  - intros [k Hk]. unfold RenderPrompt. rewrite Hk.
    match goal with |- _ ∈ p_warnings (renderRequester ?p ?r) =>
      destruct (renderRequester_extends p r) as (_ & _ & _ & w' & ->) end.
    apply elem_of_app. left. unfold renderParkedKey. cbn [add_warnings p_warnings].
    apply elem_of_app. right. left.
Qed.

End RenderPrompt.

(** ** A concrete request *)

Import Toy.

Definition demo_local : LocalTime := fun _ => "now"%string.
#[local] Existing Instance demo_local.

Definition demo_object : bytes := of_string (print_object demo_headers "Fix the build").

Definition demo_git (object : bytes) (parsed : option GitObject) : GitContext :=
  mk_GitContext "/src/repo" emp "main" emp None emp emp object parsed false emp.

Definition demo_sig (g : GitContext) : SshsigRequest :=
  mk_SshsigRequest "git" "sha512" (sha512 demo_object) (Some g).

Definition demo_request (g : GitContext) : ApprovalRequest :=
  mk_ApprovalRequest "r1" None (Some (mk_RequesterInfo "SHA256:box" "box" false false emp None))
    KIND_GIT_SIGN None None 0 emp [] false None None (OpSshsig (demo_sig g)).

Lemma git_prompt_proven_witness :
  let '(req', problem) := VerifyRequest (demo_request (demo_git demo_object None)) in
  (forall d, d ∈ p_details (RenderPrompt req') -> d_label d ∈ commit_labels ->
     d_asserted d = false ->
     exists o, object_signed (demo_git demo_object None) "sha512" (sha512 demo_object) o /\
       d_value d = commit_row (d_label d) (Some o)) /\
  (problem <> emp -> problem ∈ p_warnings (RenderPrompt req')).
Proof.
  apply (git_prompt_proven (demo_request (demo_git demo_object None))
    (demo_sig (demo_git demo_object None))); reflexivity.
Defined.

#[local] Instance Detail_eq_dec : EqDecision Detail.
Proof. solve_decision. Defined.

Example verified_author_is_a_fact :
  mk_Detail "Author" "Ada <ada@example.org>, 2026-08-08 17:14:43 +0200" false ∈
    p_details (RenderPrompt (VerifyRequest (demo_request (demo_git demo_object None))).1).
Proof. apply (bool_decide_unpack _). vm_compute. exact I. Qed.

(** The subject line is the exception: with no object to check, whatever the
    requester put in [parsed] is drawn as the subject, unmarked. *)
Definition claimed : GitObject :=
  mk_GitObject "commit" "t" [] None None emp emp emp None "Fix a typo" "Fix a typo" [].

Example asserted_subject_is_unmarked :
  let '(req', problem) := VerifyRequest (demo_request (demo_git [] (Some claimed))) in
  problem = emp /\ p_warnings (RenderPrompt req') = [] /\
  p_subject (RenderPrompt req') = "Fix a typo"%string.
Proof. vm_compute. done. Qed.
