(* ===== verification/Grants.v ===== *)
(** * Grants: [pkg/approval/grants.go]

    The scope a request falls under, when a promise covers a request, and what
    a promise looks like when it is made and when it is given more time. *)

From stdpp Require Import sorting.
From S2P Require Import Prelude.
From S2P Require Import GoText.
From S2P Require Import Proto.
From S2P Require Import Asker.
From S2P Require Import Ssh.
From S2P Require Import Identity.
From S2P Require Import Prompt.

Local Open Scope Z_scope.

(** ** Scopes *)

Definition scopeFor (req : ApprovalRequest) : GrantScope :=
  let auth := rq_ssh_auth req in
  let payload := auth⇢sa_payload_destination in
  let label := auth⇢sa_destination_label in
  let fp := payload⇢hk_fingerprint in
  let destination :=
    match payload with
    | Some _ => if bool_decide (label = emp) then fp else label
    | None => emp
    end in
  mk_GrantScope (rq_key req)⇢kr_fingerprint (rq_kind req) destination
    ((rq_sshsig req)⇢sg_git_context)⇢gc_repository_path
    (rq_requester req)⇢ri_instance_id auth⇢sa_username fp
    ((rq_requester req)⇢ri_process)⇢cp_session_id.

Definition AssertedScope (req : ApprovalRequest) : list Detail :=
  let repo := ((rq_sshsig req)⇢sg_git_context)⇢gc_repository_path in
  if bool_decide (repo <> emp) then [mk_Detail "Repository" repo true] else [].

Definition covers (scope : option GrantScope) (req : ApprovalRequest) : bool :=
  let want := scopeFor req in
  if bool_decide (scope⇢gs_key_fingerprint <> gs_key_fingerprint want)
     || bool_decide (scope⇢gs_kind <> gs_kind want)
     || bool_decide (scope⇢gs_destination_fingerprint <> gs_destination_fingerprint want)
     || bool_decide (scope⇢gs_repository <> gs_repository want)
     || bool_decide (scope⇢gs_requester_instance_id <> gs_requester_instance_id want)
     || bool_decide (scope⇢gs_username <> gs_username want)
  then false
  else if scope⇢gs_session_id =? 0 then true
  else scope⇢gs_session_id =? gs_session_id want.

Definition findGrant (grants : list Grant) (req : ApprovalRequest) (now : time) : option Grant :=
  find_first (fun g => After (AsTime (gr_expires_at g)) now && covers (gr_scope g) req) grants.

Definition grantScopeFor (req : ApprovalRequest) (reach : GrantReach) : GrantScope :=
  let scope := scopeFor req in
  match reach with
  | GrantReachMachine =>
    mk_GrantScope (gs_key_fingerprint scope) (gs_kind scope) (gs_destination scope)
      (gs_repository scope) (gs_requester_instance_id scope) (gs_username scope)
      (gs_destination_fingerprint scope) 0
  | GrantReachSession => scope
  end.

(** ** The lengths a prompt offers *)

Definition withRequestedTTL (ttls : list duration) (requested maxTTL : duration)
    : list duration :=
  if (requested <=? 0) || (maxTTL <? requested) then ttls
  else if bool_decide (requested ∈ ttls) then ttls
  else merge_sort Z.le (ttls ++ [requested]).

(** ** Promises in words and in records *)

Definition DescribeScope (scope : option GrantScope) (subject : string) (ttl : duration) : string :=
  let what :=
    match scope⇢gs_kind with
    | KIND_SSH_AUTH =>
      if bool_decide (scope⇢gs_destination_fingerprint <> emp)
      then "SSH logins as " +:+ scope⇢gs_username +:+ " to " +:+ scope⇢gs_destination
      else "SSH logins to unidentified destinations"
    | KIND_GIT_SIGN =>
      if bool_decide (scope⇢gs_repository <> emp)
      then "git signing in " +:+ scope⇢gs_repository else "git signing"
    | KIND_SSHSIG => "SSHSIG signing"
    | _ => "requests"
    end in
  if bool_decide (subject <> emp)
  then what +:+ " with this key from " +:+ subject +:+ ", for " +:+ HumanDuration ttl
  else what +:+ " with this key, for " +:+ HumanDuration ttl.

(** [id] is what [identity.NewRequestID()] answers. *)
Definition newGrant (id : string) (req : ApprovalRequest) (ttl : duration) (reach : GrantReach)
    (now : time) : Grant :=
  let scope := grantScopeFor req reach in
  let promise := GrantPromise req reach in
  mk_Grant id (Some scope) (Some now) (Some (Add now ttl)) (rq_request_id req)
    (DescribeScope (Some scope) promise ttl) promise false emp emp 0 [] false None false [] [].

Definition extendedGrant (grant : Grant) (extra : duration) (now : time) : Grant :=
  set_grant_term (Some (Add now extra))
    (DescribeScope (gr_scope grant) (gr_promise_subject grant) extra) grant.

Definition ErrGrantTooLong : error :=
  sentinel "ErrGrantTooLong" "approval: not a length this instance promises".

Section Extend.
Context `{Unicode} `{Hashes} `{Ssh} `{Codec Delegation}.

(** The artifact an extension of a handed-over promise is signed as. *)
Definition extension (i : Identity) (grant amended : Grant) : Delegation :=
  mk_Delegation (gr_grant_id grant) (gr_scope grant) (gr_created_at grant)
    (gr_expires_at amended) (gr_origin_request_id grant) (gr_description amended)
    (Fingerprint i) (id_name i) (gr_delegate_fingerprint grant).

Definition extendPromise (i : Identity) (grant : Grant) (extra max : duration) (now : time)
    : result (Grant * option SignedDelegation) :=
  if extra <? Minute
  then Err (wrap_w emp ErrGrantTooLong ": a promise is at least a minute long")
  else if (0 <? max) && (max <? extra)
  then Err (wrap_w emp ErrGrantTooLong (": " +:+ HumanDuration max +:+ " is the longest"))
  else
    let amended := extendedGrant grant extra now in
    if negb (gr_delegated grant) then Ok (amended, None)
    else
      signed ← err_ctx "sign the extended delegation: "
        (SignDelegation i (Some (extension i grant amended)));
      Ok (amended, Some signed).

End Extend.

(** ** What a promise covers *)

(** Two requests alike in everything a promise is matched on. *)
Definition same_matter (a b : ApprovalRequest) : Prop :=
  (rq_key a)⇢kr_fingerprint = (rq_key b)⇢kr_fingerprint /\
  rq_kind a = rq_kind b /\
  ((rq_ssh_auth a)⇢sa_payload_destination)⇢hk_fingerprint =
    ((rq_ssh_auth b)⇢sa_payload_destination)⇢hk_fingerprint /\
  ((rq_sshsig a)⇢sg_git_context)⇢gc_repository_path =
    ((rq_sshsig b)⇢sg_git_context)⇢gc_repository_path /\
  (rq_requester a)⇢ri_instance_id = (rq_requester b)⇢ri_instance_id /\
  (rq_ssh_auth a)⇢sa_username = (rq_ssh_auth b)⇢sa_username.

Definition session_of (r : ApprovalRequest) : Z := ((rq_requester r)⇢ri_process)⇢cp_session_id.

Lemma covers_spec s req :
  covers s req = true <->
  s⇢gs_key_fingerprint = gs_key_fingerprint (scopeFor req) /\
  s⇢gs_kind = gs_kind (scopeFor req) /\
  s⇢gs_destination_fingerprint = gs_destination_fingerprint (scopeFor req) /\
  s⇢gs_repository = gs_repository (scopeFor req) /\
  s⇢gs_requester_instance_id = gs_requester_instance_id (scopeFor req) /\
  s⇢gs_username = gs_username (scopeFor req) /\
  (s⇢gs_session_id = 0 \/ s⇢gs_session_id = gs_session_id (scopeFor req)).
Proof.
  unfold covers. split.
  - destruct (_ || _) eqn:Hf; [done|]. bool_prop.
    destruct (s⇢gs_session_id =? 0) eqn:Hs; intros; bool_prop; split_and!; auto.
  - intros (-> & -> & -> & -> & -> & -> & Hs).
    rewrite !bool_decide_eq_false_2 by auto. cbn [orb].
    destruct (_ =? 0) eqn:Hz; [done|]. apply Z.eqb_eq. bool_prop. by destruct Hs.
Qed.

Lemma covers_promise a b reach :
  covers (Some (grantScopeFor a reach)) b = true <->
  same_matter a b /\
  (reach = GrantReachMachine \/ session_of a = 0 \/ session_of a = session_of b).
Proof.
  rewrite covers_spec. unfold same_matter, session_of, grantScopeFor.
  destruct reach; cbn [getter gs_key_fingerprint gs_kind gs_destination_fingerprint gs_repository
    gs_requester_instance_id gs_username gs_session_id scopeFor]; naive_solver.
Qed.

(** A promise made on one request covers another exactly when they
    agree on the key, the kind, the host key proven in the signed payload, the
    repository, the requesting instance and the login name, and the promise
    either names no session or names the session of the other; a machine-wide
    promise names none.  What a prompt calls the destination plays no part. *)
Theorem promise_covers_exactly a b reach :
  covers (Some (grantScopeFor a reach)) b = true <->
  same_matter a b /\
  (reach = GrantReachMachine \/ session_of a = 0 \/ session_of a = session_of b).
Proof. apply covers_promise. Qed.

Lemma findGrant_Some grants req now g :
  findGrant grants req now = Some g <->
  exists l1 l2, grants = l1 ++ g :: l2 /\ now < AsTime (gr_expires_at g) /\
    covers (gr_scope g) req = true /\
    Forall (fun x => AsTime (gr_expires_at x) <= now \/ covers (gr_scope x) req = false) l1.
Proof.
  unfold findGrant. rewrite find_first_Some. split.
  - intros (l1 & l2 & -> & Hg & Hf). bool_prop. exists l1, l2. split_and!; try done.
    + by apply After_spec.
    + eapply Forall_impl; [exact Hf|]. intros x Hx. apply andb_false_iff in Hx as [Hx|]; [|by right].
      left. unfold After in Hx. bool_prop. done.
  - intros (l1 & l2 & -> & He & Hc & Hf). exists l1, l2. split_and!; [done| |].
    + rewrite Hc, andb_true_r. by apply After_spec.
    + eapply Forall_impl; [exact Hf|]. intros x [Hx| ->]; [|by rewrite andb_false_r].
      unfold After. rewrite (proj2 (Z.ltb_ge _ _)) by done. done.
Qed.

(** The lengths a card offers: the policy's own, and the requested
    one exactly when it is positive and within the instance's bound; the list
    stays sorted and without repetition. *)
Theorem withRequestedTTL_spec ttls requested maxTTL :
  (forall x, x ∈ withRequestedTTL ttls requested maxTTL <->
     x ∈ ttls \/ (x = requested /\ 0 < requested <= maxTTL)) /\
  (Sorted Z.le ttls -> Sorted Z.le (withRequestedTTL ttls requested maxTTL)) /\
  (NoDup ttls -> NoDup (withRequestedTTL ttls requested maxTTL)).
Proof.
  unfold withRequestedTTL. destruct (_ || _) eqn:Hb.
  { split_and!; [|done..]. intros x. apply orb_true_iff in Hb as [?|?]; bool_prop; naive_solver lia. }
  bool_prop. case_bool_decide as Hin.
  { split_and!; [|done..]. naive_solver. }
  pose proof (merge_sort_Permutation Z.le (ttls ++ [requested])) as Hp.
  split_and!.
  - intros x. rewrite Hp, elem_of_app, list_elem_of_singleton. intuition.
  - intros _. apply Sorted_merge_sort. intros a b. lia.
  - intros Hn. rewrite Hp. apply NoDup_app. split_and!; [done| |].
    + intros x Hx ->%list_elem_of_singleton. done.
    + apply NoDup_singleton.
Qed.

Section ExtendFacts.
Context `{Unicode} `{Hashes} `{Ssh} `{Codec Delegation}.

Lemma extendPromise_terms i grant extra max now :
  match extendPromise i grant extra max now with
  | Ok (g', signed) =>
    Minute <= extra /\ (0 < max -> extra <= max) /\ g' = extendedGrant grant extra now /\
    match signed with
    | None => gr_delegated grant = false
    | Some sd => gr_delegated grant = true /\
        SignDelegation i (Some (extension i grant g')) = Ok sd
    end
  | Err _ => True
  end.
Proof.
  unfold extendPromise. destruct (extra <? Minute) eqn:Hm; [done|].
  destruct ((0 <? max) && (max <? extra)) eqn:Hx; [done|].
  assert (Minute <= extra /\ (0 < max -> extra <= max)) as [? ?].
  { bool_prop. split; [done|]. intros. apply andb_false_iff in Hx as [?|?]; bool_prop; lia. }
  destruct (gr_delegated grant) eqn:Hd; cbn [negb]; [|done].
  by destruct (SignDelegation i _) as [sd|e] eqn:Hs.
Qed.

(** An extension is between a minute and the longest promise, runs
    from now, and changes nothing of the promise but its end and its
    sentence; a handed-over promise comes with an artifact the instance signed
    with the same identifier, scope, holder and end, and no other promise
    comes with one. *)
Theorem extendPromise_spec i grant extra max now :
  match extendPromise i grant extra max now with
  | Ok (g', signed) =>
    Minute <= extra /\ (0 < max -> extra <= max) /\
    g' = set_grant_term (Some (Add now extra)) (gr_description g') grant /\
    match signed with
    | None => gr_delegated grant = false
    | Some sd =>
      gr_delegated grant = true /\
      SignDelegation i (Some (extension i grant g')) = Ok sd /\
      dl_delegation_id (extension i grant g') = gr_grant_id g' /\
      dl_scope (extension i grant g') = gr_scope g' /\
      dl_expires_at (extension i grant g') = Some (Add now extra) /\
      dl_requester_fingerprint (extension i grant g') = gr_delegate_fingerprint g'
    end
  | Err e =>
    (errors_Is e ErrGrantTooLong = true /\ (extra < Minute \/ 0 < max < extra)) \/
    (gr_delegated grant = true /\
     ~ is_ok (SignDelegation i (Some (extension i grant (extendedGrant grant extra now)))))
  end.
Proof.
  unfold extendPromise. destruct (extra <? Minute) eqn:Hm.
  { left. bool_prop. split; [done|]. by left. }
  destruct ((0 <? max) && (max <? extra)) eqn:Hx.
  { left. bool_prop. split; [done|by right]. }
  assert (Minute <= extra /\ (0 < max -> extra <= max)) as Hb.
  { bool_prop. split; [done|]. intros. apply andb_false_iff in Hx as [?|?]; bool_prop; lia. }
  destruct (gr_delegated grant) eqn:Hd; cbn [negb]; [|naive_solver].
  destruct (SignDelegation i _) as [sd|e] eqn:Hs; cbn [err_ctx mbind result_bind].
  - destruct Hb. split_and!; done.
  - right. split; [done|]. by intros [].
Qed.

End ExtendFacts.
