(* ===== verification/Inflight.v ===== *)
(** * Inflight: who is asked, and the race between the approvers

    [pkg/approval/inflight.go] and the fan-out of [pkg/approval/engine.go]:
    which handlers may answer, the requests out with approvers, late joiners,
    and the loop that takes the first decision.

    Goroutines interleave, so the file is a transition system: every
    operation is a function on the state of one request in flight (or on the
    engine's handlers and flights), an [event] names one atomic step, and a
    run is a list of events.  A step that is not enabled is [None]. *)

From S2P Require Import Prelude.
From S2P Require Import GoText.
From S2P Require Import Proto.
From S2P Require Import Asker.

Local Open Scope Z_scope.

(** ** Approvers and their answers *)

Inductive Origin := OriginLocal | OriginPeer | OriginPeerSigning.
#[export] Instance Origin_eq_dec : EqDecision Origin.
Proof. solve_decision. Defined.

(** A handler: the pointer that identifies it, the name it logs, and which of
    the marker interfaces it implements. *)
Record Handler := mk_Handler {
  hd_ptr : Z;
  hd_ID : string;
  hd_remote : bool;        (** implements [RemoteHandler] *)
  hd_local_prompt : bool;  (** implements [LocalPrompt] *)
  hd_notifier : bool       (** implements [Notifier] *)
}.
#[export] Instance Handler_eq_dec : EqDecision Handler.
Proof. solve_decision. Defined.

Record Answer := mk_Answer {
  an_Decision : Decision;
  an_Reason : string;
  an_GrantTTL : duration;
  an_GrantReach : GrantReach;
  an_Approver : option ApproverInfo;
  an_Source : DecisionSource;
  an_Signed : option SignedApproval
}.

Definition mayAnswerLocked (softLocked : bool) (h : Handler) (origin : Origin) : bool :=
  if hd_remote h && bool_decide (origin <> OriginLocal) then false
  else if hd_local_prompt h && softLocked then false
  else true.

Definition eligible (handlers : list Handler) (softLocked : bool) (origin : Origin)
    : list Handler :=
  List.filter (fun h => mayAnswerLocked softLocked h origin) handlers.

Definition HasLocalApprover (handlers : list Handler) (softLocked : bool) : bool :=
  if softLocked then false else existsb (fun h => negb (hd_remote h)) handlers.

Definition declined (h : Handler) (answer : option Answer) : bool :=
  if negb (hd_remote h) then false
  else
    match answer with
    | None => false
    | Some a =>
      bool_decide (an_Decision a <> DECISION_APPROVE) &&
      bool_decide (an_Source a = SOURCE_NO_APPROVER)
    end.

(** ** One request out with approvers *)

Inductive ctx_state := Live | DeadlineExceeded | Canceled.
#[export] Instance ctx_state_eq_dec : EqDecision ctx_state.
Proof. solve_decision. Defined.

(** Where the goroutine running [ask] for a handler is. *)
Inductive turn :=
| Asking (h : Handler)
| SendingResult (h : Handler) (a : option Answer)
| SendingFailure (h : Handler).

Definition turn_handler (t : turn) : Handler :=
  match t with Asking h | SendingResult h _ | SendingFailure h => h end.

(** What the loop of [prompt] returned with. *)
Inductive verdict :=
| Answered (h : Handler) (a : option Answer)
| NobodyLeft
| TimedOut
| Withdrawn.

Record inflight := mk_inflight {
  f_request : string;                        (** [req.Msg.GetRequestId()] *)
  f_origin : Origin;
  f_ctx : ctx_state;
  f_results : list (Handler * option Answer);
  f_failures : nat;
  f_cap : nat;                               (** the capacity of both channels *)
  f_asked : list Handler;
  f_count : Z;
  f_settled : bool;
  f_turns : list turn;                       (** the goroutines still running *)
  f_failed : Z;                              (** the loop's tally *)
  f_out : option verdict
}.

Definition set_ctx (c : ctx_state) (f : inflight) : inflight :=
  mk_inflight (f_request f) (f_origin f) c (f_results f) (f_failures f) (f_cap f) (f_asked f)
    (f_count f) (f_settled f) (f_turns f) (f_failed f) (f_out f).
Definition set_queues (rs : list (Handler * option Answer)) (n : nat) (f : inflight) : inflight :=
  mk_inflight (f_request f) (f_origin f) (f_ctx f) rs n (f_cap f) (f_asked f) (f_count f)
    (f_settled f) (f_turns f) (f_failed f) (f_out f).
Definition set_turns (ts : list turn) (f : inflight) : inflight :=
  mk_inflight (f_request f) (f_origin f) (f_ctx f) (f_results f) (f_failures f) (f_cap f)
    (f_asked f) (f_count f) (f_settled f) ts (f_failed f) (f_out f).
Definition set_tally (n : Z) (f : inflight) : inflight :=
  mk_inflight (f_request f) (f_origin f) (f_ctx f) (f_results f) (f_failures f) (f_cap f)
    (f_asked f) (f_count f) (f_settled f) (f_turns f) n (f_out f).
Definition set_out (v : verdict) (f : inflight) : inflight :=
  mk_inflight (f_request f) (f_origin f) (f_ctx f) (f_results f) (f_failures f) (f_cap f)
    (f_asked f) (f_count f) (f_settled f) (f_turns f) (f_failed f) (Some v).
Definition set_asked (hs : list Handler) (n : Z) (f : inflight) : inflight :=
  mk_inflight (f_request f) (f_origin f) (f_ctx f) (f_results f) (f_failures f) (f_cap f) hs n
    (f_settled f) (f_turns f) (f_failed f) (f_out f).
Definition set_settled (f : inflight) : inflight :=
  mk_inflight (f_request f) (f_origin f) (f_ctx f) (f_results f) (f_failures f) (f_cap f)
    (f_asked f) (f_count f) true (f_turns f) (f_failed f) (f_out f).

(** [takeoff] and the fan-out after it: a goroutine per handler. *)
Definition takeoff (id : string) (origin : Origin) (handlers : list Handler) : inflight :=
  mk_inflight id origin Live [] 0 (length handlers) (remove_dups handlers)
    (Z.of_nat (length handlers)) false (map Asking handlers) 0 None.

(** [join]: refused once settled, once the context is done, or when asked
    already. *)
Definition join (h : Handler) (f : inflight) : inflight :=
  if f_settled f || bool_decide (f_ctx f <> Live) || bool_decide (h ∈ f_asked f) then f
  else set_turns (f_turns f ++ [Asking h]) (set_asked (h :: f_asked f) (f_count f + 1) f).

(** [land], and the deferred [cancel] after it. *)
Definition land (f : inflight) : inflight :=
  let f := set_settled f in
  if bool_decide (f_ctx f = Live) then set_ctx Canceled f else f.

Definition allGone (failed : Z) (f : inflight) : bool := f_count f <=? failed.

(** One more approver gone without deciding. *)
Definition gone (f : inflight) : inflight :=
  let failed := f_failed f + 1 in
  let f := set_tally failed f in
  if allGone failed f then set_out NobodyLeft f else f.

(** ** The steps *)

Inductive flight_event :=
| EDecided (i : nat) (r : result (option Answer))  (** [h.Decide] returned *)
| EVanish (i : nat)                                (** [ask] found the context done *)
| ESend (i : nat)                                  (** a send went through *)
| EGiveUp (i : nat)                                (** a send gave up on the context *)
| EResult                                          (** the loop read a result *)
| EFailure                                         (** the loop read a failure *)
| EDone                                            (** the loop saw the context done *)
| EExpire                                          (** the deadline passed *)
| EWithdraw.                                       (** the caller's context ended *)

Definition remove_turn (i : nat) (f : inflight) : inflight :=
  set_turns (delete i (f_turns f)) f.

Definition flight_step (e : flight_event) (f : inflight) : option inflight :=
  match e with
  | EDecided i r =>
    match f_turns f !! i with
    | Some (Asking h) =>
      let t := match r with Ok a => SendingResult h a | Err _ => SendingFailure h end in
      Some (set_turns (<[i := t]> (f_turns f)) f)
    | _ => None
    end
  | EVanish i =>
    match f_turns f !! i with
    | Some (Asking h) => if bool_decide (f_ctx f = Live) then None else Some (remove_turn i f)
    | _ => None
    end
  | ESend i =>
    match f_turns f !! i with
    | Some (SendingResult h a) =>
      if bool_decide (length (f_results f) < f_cap f)%nat
      then Some (remove_turn i (set_queues (f_results f ++ [(h, a)]) (f_failures f) f))
      else None
    | Some (SendingFailure h) =>
      if bool_decide (f_failures f < f_cap f)%nat
      then Some (remove_turn i (set_queues (f_results f) (S (f_failures f)) f))
      else None
    | _ => None
    end
  | EGiveUp i =>
    match f_turns f !! i with
    | Some (SendingResult _ _) | Some (SendingFailure _) =>
      if bool_decide (f_ctx f = Live) then None else Some (remove_turn i f)
    | _ => None
    end
  | EResult =>
    match f_out f, f_results f with
    | None, (h, a) :: rest =>
      let f := set_queues rest (f_failures f) f in
      if declined h a then Some (gone f)
      else Some (set_out (Answered h a)
             (if bool_decide (f_ctx f = Live) then set_ctx Canceled f else f))
    | _, _ => None
    end
  | EFailure =>
    match f_out f, f_failures f with
    | None, S n => Some (gone (set_queues (f_results f) n f))
    | _, _ => None
    end
  | EDone =>
    match f_out f, f_ctx f with
    | None, DeadlineExceeded => Some (set_out TimedOut f)
    | None, Canceled => Some (set_out Withdrawn f)
    | _, _ => None
    end
  | EExpire => if bool_decide (f_ctx f = Live) then Some (set_ctx DeadlineExceeded f) else None
  | EWithdraw => if bool_decide (f_ctx f = Live) then Some (set_ctx Canceled f) else None
  end.

(** ** The engine around the flights *)

(** Where a goroutine that runs [offer] or [offerLocal] is: before it has read
    the handlers, before it has read the flights, with flights left to look
    at, or having found that a handler may be asked and not yet joined.
    [later] are the handlers [offerLocal] has still to offer. *)
Inductive offering :=
| ReadsHandlers
| ReadsFlights (h : Handler) (later : list Handler)
| LooksAt (h : Handler) (flights : list nat) (later : list Handler)
| Joins (h : Handler) (n : nat) (flights : list nat) (later : list Handler).

Record race := mk_race {
  r_handlers : list Handler;
  r_softLocked : bool;
  r_flights : gmap string nat;                 (** [e.flights]: request id to flight *)
  r_table : gmap nat inflight;                 (** every flight there has been *)
  r_started : gmap nat (string * Origin * list Handler);
    (** calls of [prompt] between [eligible] and [takeoff] *)
  r_offers : list offering                     (** calls of [offer] and [offerLocal] under way *)
}.

Definition upd_table (g : gmap nat inflight -> gmap nat inflight) (r : race) : race :=
  mk_race (r_handlers r) (r_softLocked r) (r_flights r) (g (r_table r)) (r_started r) (r_offers r).
Definition set_offers (os : list offering) (r : race) : race :=
  mk_race (r_handlers r) (r_softLocked r) (r_flights r) (r_table r) (r_started r) os.

Definition waiting (r : race) : list nat := map snd (map_to_list (r_flights r)).

(** The loop of [offerLocal]. *)
Definition offerLocal (handlers : list Handler) : option offering :=
  match List.filter hd_local_prompt handlers with [] => None | h :: later => Some (ReadsFlights h later) end.

(** A step of [offer], each under a lock of its own: every waiting request is
    looked at, in any order - that of a range over a map -, and is joined when
    this handler may answer it.  [None] for the goroutine is its end. *)
Definition offer (n : nat) (o : offering) (r : race) : option (option offering * race) :=
  match o with
  | ReadsHandlers => Some (offerLocal (r_handlers r), r)
  | ReadsFlights h later => Some (Some (LooksAt h (waiting r) later), r)
  | LooksAt h [] later => Some (offerLocal later, r)
  | LooksAt h flights later =>
    if bool_decide (n ∈ flights)
    then
      f ← r_table r !! n;
      let flights := List.filter (fun m => negb (bool_decide (m = n))) flights in
      Some (Some (if mayAnswerLocked (r_softLocked r) h (f_origin f) then Joins h n flights later
                  else LooksAt h flights later), r)
    else None
  | Joins h n flights later => Some (Some (LooksAt h flights later), upd_table (alter (join h) n) r)
  end.

Definition Register (h : Handler) (r : race) : race :=
  mk_race (r_handlers r ++ [h]) (r_softLocked r) (r_flights r) (r_table r) (r_started r)
    (r_offers r ++ [ReadsFlights h []]).

(** The function [Register] returns: the first occurrence goes. *)
Fixpoint remove_first (h : Handler) (l : list Handler) : list Handler :=
  match l with
  | [] => []
  | x :: l' => if bool_decide (x = h) then l' else x :: remove_first h l'
  end.
Definition Unregister (h : Handler) (r : race) : race :=
  mk_race (remove_first h (r_handlers r)) (r_softLocked r) (r_flights r) (r_table r) (r_started r) (r_offers r).

Definition SuspendLocalPrompts (suspended : bool) (r : race) : race :=
  mk_race (r_handlers r) suspended (r_flights r) (r_table r) (r_started r)
    (if suspended then r_offers r else r_offers r ++ [ReadsHandlers]).

Inductive event :=
| EvRegister (h : Handler)
| EvUnregister (h : Handler)
| EvSuspend (suspended : bool)
| EvOffer (k n : nat)              (** the [k]-th offering moves, by way of flight [n] if it has to choose one *)
| EvEligible (n : nat) (id : string) (origin : Origin)
| EvTakeoff (n : nat)
| EvFlight (n : nat) (e : flight_event)
| EvLand (n : nat).

Definition step (ev : event) (r : race) : option race :=
  match ev with
  | EvRegister h => Some (Register h r)
  | EvUnregister h => Some (Unregister h r)
  | EvSuspend b => Some (SuspendLocalPrompts b r)
  | EvOffer k n =>
    o ← r_offers r !! k;
    '(o', r') ← offer n o r;
    Some (set_offers (match o' with Some o' => <[k := o']> (r_offers r) | None => delete k (r_offers r) end) r')
  | EvEligible n id origin =>
    match r_table r !! n, r_started r !! n with
    | None, None =>
      let hs := eligible (r_handlers r) (r_softLocked r) origin in
      Some (mk_race (r_handlers r) (r_softLocked r) (r_flights r) (r_table r)
        (<[n := (id, origin, hs)]> (r_started r)) (r_offers r))
    | _, _ => None
    end
  | EvTakeoff n =>
    match r_table r !! n, r_started r !! n with
    | None, Some (id, origin, (_ :: _) as hs) =>
      Some (mk_race (r_handlers r) (r_softLocked r) (<[id := n]> (r_flights r))
        (<[n := takeoff id origin hs]> (r_table r)) (delete n (r_started r)) (r_offers r))
    | _, _ => None
    end
  | EvFlight n e =>
    f ← r_table r !! n; f' ← flight_step e f; Some (upd_table (insert n f') r)
  | EvLand n =>
    f ← r_table r !! n;
    match f_out f, f_settled f with
    | Some _, false =>
      Some (mk_race (r_handlers r) (r_softLocked r) (delete (f_request f) (r_flights r))
        (<[n := land f]> (r_table r)) (r_started r) (r_offers r))
    | _, _ => None
    end
  end.

Definition no_flights (handlers : list Handler) : race := mk_race handlers false ∅ ∅ ∅ [].

Fixpoint run (evs : list event) (r : race) : option race :=
  match evs with
  | [] => Some r
  | ev :: evs' => r' ← step ev r; run evs' r'
  end.

Inductive reachable : race -> Prop :=
| reach_start hs : reachable (no_flights hs)
| reach_step r ev r' : reachable r -> step ev r = Some r' -> reachable r'.

(** ** The invariant of a flight *)

Definition outstanding (f : inflight) : Z :=
  f_failed f + Z.of_nat (length (f_results f)) + Z.of_nat (f_failures f)
  + Z.of_nat (length (f_turns f)).

Definition may_be_asked (origin : Origin) (h : Handler) : Prop :=
  hd_remote h = true -> origin = OriginLocal.

Record flight_ok (f : inflight) : Prop := {
  ok_count : outstanding f <= f_count f;
  ok_exact : f_ctx f = Live -> f_out f = None -> outstanding f = f_count f;
  ok_waiting : f_out f = None -> f_failed f < f_count f;
  ok_turns : Forall (fun t => turn_handler t ∈ f_asked f) (f_turns f);
  ok_results : Forall (fun r => r.1 ∈ f_asked f) (f_results f);
  ok_asked : Forall (may_be_asked (f_origin f)) (f_asked f);
  ok_answered : match f_out f with
    | Some (Answered h a) => h ∈ f_asked f /\ declined h a = false
    | _ => True
    end
}.

Lemma mayAnswerLocked_origin locked h origin :
  mayAnswerLocked locked h origin = true -> may_be_asked origin h.
Proof.
  unfold mayAnswerLocked, may_be_asked. intros Hm Hr. rewrite Hr in Hm. cbn [andb] in Hm.
  by case_bool_decide.
Qed.

Lemma takeoff_ok id origin hs :
  hs <> [] -> Forall (may_be_asked origin) hs -> flight_ok (takeoff id origin hs).
Proof.
  intros Hne Hf.
  split; unfold outstanding; cbn [takeoff f_count f_failed f_results f_failures f_turns
    f_ctx f_out f_asked f_origin length]; rewrite ?length_map; try lia; try done.
  - destruct hs; [done|]. cbn. lia.
  - apply Forall_map, Forall_forall. intros h Hh. by apply elem_of_remove_dups.
  - apply Forall_forall. intros h Hh. apply (proj1 (elem_of_remove_dups _ _)) in Hh.
    rewrite Forall_forall in Hf. by apply Hf.
Qed.

Lemma delete_turn i f t :
  f_turns f !! i = Some t ->
  Z.of_nat (length (delete i (f_turns f))) = Z.of_nat (length (f_turns f)) - 1.
Proof.
  intros Hi. rewrite length_delete by eauto. apply lookup_lt_Some in Hi. lia.
Qed.

Lemma join_ok h f :
  may_be_asked (f_origin f) h -> flight_ok f -> flight_ok (join h f).
Proof.
  intros Hm Hok. unfold join. destruct (_ || _) eqn:Hj; [done|]. destruct Hok.
  split; unfold outstanding in *; cbn [set_turns set_asked f_count f_failed f_results f_failures
    f_turns f_ctx f_out f_asked f_origin]; rewrite ?length_app; cbn [length].
  - lia.
  - intros Hc Ho. specialize (ok_exact0 Hc Ho). lia.
  - intros Ho. specialize (ok_waiting0 Ho). lia.
  - apply Forall_app. split; [|apply Forall_singleton; cbn; left].
    eapply Forall_impl; [exact ok_turns0|]. set_solver.
  - eapply Forall_impl; [exact ok_results0|]. set_solver.
  - by constructor.
  - destruct (f_out f) as [[]|]; set_solver.
Qed.

Lemma land_ok f : flight_ok f -> is_Some (f_out f) -> flight_ok (land f).
Proof.
  intros [] [v Hv]. unfold land. case_bool_decide; split;
    cbn [set_settled set_ctx f_count f_failed f_results f_failures f_turns f_ctx f_out f_asked
      f_origin]; try done; congruence.
Qed.

(** Removing a goroutine, whatever happened to it. *)
Lemma remove_turn_ok i t f rs n :
  flight_ok f -> f_turns f !! i = Some t -> f_out f = f_out f ->
  Forall (fun r => r.1 ∈ f_asked f) rs ->
  outstanding (set_queues rs n f) <= outstanding f + 1 ->
  (f_ctx f = Live -> outstanding (set_queues rs n f) = outstanding f + 1) ->
  flight_ok (remove_turn i (set_queues rs n f)).
Proof.
  intros [] Hi _ Hrs Hle Heq. pose proof (delete_turn _ _ _ Hi) as Hd.
  split; unfold outstanding, remove_turn in *; cbn [set_turns set_queues f_count f_failed
    f_results f_failures f_turns f_ctx f_out f_asked f_origin] in *; try done; try lia.
  - intros Hc Ho. specialize (ok_exact0 Hc Ho). specialize (Heq Hc). lia.
  - by apply Forall_delete.
Qed.

Lemma gone_ok f :
  f_out f = None ->
  (f_failed f + 1 + Z.of_nat (length (f_results f)) + Z.of_nat (f_failures f)
     + Z.of_nat (length (f_turns f)) <= f_count f) ->
  (f_ctx f = Live -> f_failed f + 1 + Z.of_nat (length (f_results f))
     + Z.of_nat (f_failures f) + Z.of_nat (length (f_turns f)) = f_count f) ->
  Forall (fun t => turn_handler t ∈ f_asked f) (f_turns f) ->
  Forall (fun r => r.1 ∈ f_asked f) (f_results f) ->
  Forall (may_be_asked (f_origin f)) (f_asked f) ->
  flight_ok (gone f).
Proof.
  intros Ho Hc He Ht Hr Ha. unfold gone, allGone.
  destruct (f_count _ <=? _) eqn:Hall;
    cbn [set_tally set_out f_count] in Hall; bool_prop;
    split; unfold outstanding; cbn [set_tally set_out f_count f_failed f_results f_failures
      f_turns f_ctx f_out f_asked f_origin]; try done; try (intros; lia).
  - intros Hl _. specialize (He Hl). lia.
  - by rewrite Ho.
Qed.

Lemma flight_step_ok e f f' : flight_ok f -> flight_step e f = Some f' -> flight_ok f'.
Proof.
  intros Hok Hs. pose proof Hok as [].
  destruct e; cbn [flight_step] in Hs.
  - destruct (f_turns f !! i) as [[h| |]|] eqn:Hi; try done. injection Hs as <-.
    split; unfold outstanding in *; cbn [set_turns f_count f_failed f_results f_failures
      f_turns f_ctx f_out f_asked f_origin]; rewrite ?length_insert; try done.
    apply Forall_insert; [done|].
    eapply Forall_lookup_1 in ok_turns0; [|exact Hi]. by destruct r.
  - destruct (f_turns f !! i) as [[h| |]|] eqn:Hi; try done.
    case_bool_decide as Hl; [done|]. injection Hs as <-.
    change (remove_turn i f) with (remove_turn i (set_queues (f_results f) (f_failures f) f)).
    eapply remove_turn_ok; try done; unfold outstanding; cbn; lia.
  - destruct (f_turns f !! i) as [[h|h a|h]|] eqn:Hi; try done;
      case_bool_decide as Hl; try done; injection Hs as <-;
      eapply remove_turn_ok; try done; unfold outstanding;
      cbn [set_queues f_failed f_results f_failures f_turns]; rewrite ?length_app; cbn [length];
      try lia.
    apply Forall_app. split; [done|]. repeat constructor. cbn.
    by eapply Forall_lookup_1 in ok_turns0; [|exact Hi].
  - destruct (f_turns f !! i) as [[h|h a|h]|] eqn:Hi; try done;
      case_bool_decide as Hl; try done; injection Hs as <-;
      change (remove_turn i f) with (remove_turn i (set_queues (f_results f) (f_failures f) f));
      eapply remove_turn_ok; try done; unfold outstanding; cbn; lia.
  - destruct (f_out f) eqn:Ho; [done|]. destruct (f_results f) as [|[h a] rest] eqn:Hr; [done|].
    unfold outstanding in *. rewrite Hr in *. cbn [length] in *.
    apply Forall_cons in ok_results0 as [Hh Hrest].
    destruct (declined h a) eqn:Hd; injection Hs as <-.
    + apply gone_ok; cbn [set_queues f_count f_failed f_results f_failures f_turns f_ctx f_out
        f_asked f_origin]; try done; try lia.
      intros Hl. specialize (ok_exact0 Hl eq_refl). lia.
    + case_bool_decide; split; unfold outstanding; cbn [set_queues set_out set_ctx f_count
        f_failed f_results f_failures f_turns f_ctx f_out f_asked f_origin]; try done; lia.
  - destruct (f_out f) eqn:Ho; [done|]. destruct (f_failures f) as [|n] eqn:Hf; [done|].
    injection Hs as <-. unfold outstanding in *. rewrite Hf in *.
    apply gone_ok; cbn [set_queues f_count f_failed f_results f_failures f_turns f_ctx f_out
      f_asked f_origin]; try done; try lia.
    intros Hl. specialize (ok_exact0 Hl eq_refl). lia.
  - destruct (f_out f) eqn:Ho; [done|].
    destruct (f_ctx f) eqn:Hc; [done| |]; injection Hs as <-;
      split; unfold outstanding in *; cbn [set_out f_count f_failed f_results f_failures f_turns
        f_ctx f_out f_asked f_origin]; try done.
  - case_bool_decide; [|done]. injection Hs as <-.
    split; unfold outstanding in *; cbn [set_ctx f_count f_failed f_results f_failures f_turns
        f_ctx f_out f_asked f_origin]; done.
  - case_bool_decide; [|done]. injection Hs as <-.
    split; unfold outstanding in *; cbn [set_ctx f_count f_failed f_results f_failures f_turns
        f_ctx f_out f_asked f_origin]; done.
Qed.

Lemma flight_step_keeps e f f' :
  flight_step e f = Some f' ->
  f_request f' = f_request f /\ f_settled f' = f_settled f /\ f_asked f' = f_asked f /\
  f_count f' = f_count f /\ f_origin f' = f_origin f.
Proof.
  intros Hs. destruct e; cbn [flight_step] in Hs; unfold gone in Hs; repeat case_match; by simplify_eq/=.
Qed.

(** ** The invariant of the engine *)

Lemma join_keeps h f :
  f_origin (join h f) = f_origin f /\ f_request (join h f) = f_request f /\
  f_settled (join h f) = f_settled f /\ f_ctx (join h f) = f_ctx f /\ f_out (join h f) = f_out f.
Proof. unfold join. by case_match. Qed.

Lemma join_refused h f :
  f_settled f = true \/ f_ctx f <> Live \/ h ∈ f_asked f -> join h f = f.
Proof.
  unfold join. intros [->|[Hc|Ha]]; [done| |].
  - by rewrite (bool_decide_eq_true_2 _ Hc), orb_true_r.
  - by rewrite (bool_decide_eq_true_2 _ Ha), orb_true_r.
Qed.

Lemma join_accepted h f :
  f_settled f = false -> f_ctx f = Live -> h ∉ f_asked f ->
  h ∈ f_asked (join h f) /\ Asking h ∈ f_turns (join h f) /\ f_count (join h f) = f_count f + 1.
Proof.
  unfold join. intros -> -> Ha. rewrite (bool_decide_eq_false_2 _ Ha). cbn.
  split_and!; [left|set_solver|done].
Qed.

(** A handler about to join a flight is one that may be asked about it. *)
Definition offer_may_join (t : gmap nat inflight) (o : offering) : Prop :=
  match o with
  | Joins h n _ _ => exists f, t !! n = Some f /\ may_be_asked (f_origin f) h
  | _ => True
  end.

(** No flight is forgotten or takes another origin. *)
Definition keeps_origins (t t' : gmap nat inflight) : Prop :=
  forall n f, t !! n = Some f -> exists f', t' !! n = Some f' /\ f_origin f' = f_origin f.

Lemma keeps_origins_refl t : keeps_origins t t.
Proof. intros n f Hn. eauto. Qed.

Lemma keeps_origins_insert n f t :
  (forall f0, t !! n = Some f0 -> f_origin f = f_origin f0) -> keeps_origins t (<[n := f]> t).
Proof.
  intros Hf m f0 Hm. destruct (decide (n = m)) as [->|Hne].
  - exists f. rewrite lookup_insert_eq. auto.
  - exists f0. by rewrite lookup_insert_ne.
Qed.

Lemma keeps_offers t t' os :
  keeps_origins t t' -> Forall (offer_may_join t) os -> Forall (offer_may_join t') os.
Proof.
  intros Hk Hos. eapply Forall_impl; [exact Hos|]. intros [| | |h n fl later]; cbn; try done.
  intros (f & Hn & Hm). destruct (Hk n f Hn) as (f' & Hn' & Ho). exists f'. by rewrite Ho.
Qed.

Lemma waiting_spec r n : n ∈ waiting r <-> exists id, r_flights r !! id = Some n.
Proof.
  unfold waiting. rewrite list_elem_of_fmap. split.
  - intros ([id m] & -> & Hm). exists id. by apply elem_of_map_to_list in Hm.
  - intros [id Hid]. exists (id, n). split; [done|]. by apply elem_of_map_to_list.
Qed.

Record race_ok (r : race) : Prop := {
  ok_table n f : r_table r !! n = Some f -> flight_ok f;
  ok_started n id origin hs : r_started r !! n = Some (id, origin, hs) ->
    Forall (may_be_asked origin) hs;
  ok_flights id n : r_flights r !! id = Some n ->
    exists f, r_table r !! n = Some f /\ f_request f = id /\ f_settled f = false;
  ok_offers : Forall (offer_may_join (r_table r)) (r_offers r)
}.

(** A step that writes one flight, and neither its origin nor its request nor
    whether it is settled. *)
Lemma write_ok n f f' r :
  race_ok r -> r_table r !! n = Some f -> flight_ok f' ->
  f_request f' = f_request f -> f_settled f' = f_settled f -> f_origin f' = f_origin f ->
  race_ok (upd_table (insert n f') r).
Proof.
  intros [Ht Hs Hf Ho] Hn Hok Hq Hset Horig. split; cbn [upd_table r_table r_started r_flights r_offers]; [|done| |].
  - intros m f0 [[<- <-]|[_ Hm]]%lookup_insert_Some; [done|by eapply Ht].
  - intros id m Hid. destruct (Hf _ _ Hid) as (f0 & Hm & Hr & Hse). destruct (decide (m = n)) as [->|Hne].
    + exists f'. rewrite lookup_insert_eq. simplify_eq. by rewrite Hq, Hset.
    + exists f0. by rewrite lookup_insert_ne.
  - eapply keeps_offers; [|exact Ho]. apply keeps_origins_insert. intros f0 Hf0. by simplify_eq.
Qed.

Lemma offers_replaced_ok os r : race_ok r -> Forall (offer_may_join (r_table r)) os -> race_ok (set_offers os r).
Proof. intros [Ht Hs Hf _] Hos. by split. Qed.

Lemma offerLocal_may_join t hs o : offerLocal hs = Some o -> offer_may_join t o.
Proof. unfold offerLocal. case_match; [done|]. by intros [= <-]. Qed.

Lemma offer_ok n o r o' r' : race_ok r -> offer_may_join (r_table r) o -> offer n o r = Some (o', r') ->
  race_ok r' /\ r_offers r' = r_offers r /\ match o' with Some o' => offer_may_join (r_table r') o' | None => True end.
Proof.
  intros Hr Ho Hs. destruct o as [|h later|h [|m fl] later|h m fl later]; cbn [offer] in Hs.
  - injection Hs as <- <-. split_and!; [done|done|]. case_match; [by eapply offerLocal_may_join|done].
  - by injection Hs as <- <-.
  - injection Hs as <- <-. split_and!; [done|done|]. case_match; [by eapply offerLocal_may_join|done].
  - case_bool_decide; [|done]. destruct (r_table r !! n) as [f|] eqn:Hn; [|done]. cbn [mbind option_bind] in Hs.
    injection Hs as <- <-. split_and!; [done|done|]. case_match eqn:Hm; [|done].
    exists f. split; [done|by eapply mayAnswerLocked_origin].
  - injection Hs as <- <-. split_and!; [|done|done]. destruct Ho as (f & Hn & Hm).
    destruct (join_keeps h f) as (Ho & Hq & Hse & _ & _). assert (upd_table (alter (join h) m) r = upd_table (insert m (join h f)) r) as ->.
    { unfold upd_table. f_equal. apply map_eq. intros i. destruct (decide (i = m)) as [->|Hne].
      - by rewrite lookup_alter_eq, Hn, lookup_insert_eq.
      - by rewrite lookup_alter_ne, lookup_insert_ne. }
    apply (write_ok m f (join h f)); try done. apply join_ok; [done|]. by eapply (ok_table _ Hr).
Qed.

Lemma eligible_asked hs locked origin : Forall (may_be_asked origin) (eligible hs locked origin).
Proof.
  unfold eligible. apply Forall_forall. intros h Hh.
  apply list_elem_of_In, filter_In in Hh as [_ Hm]. by eapply mayAnswerLocked_origin.
Qed.

Lemma step_ok ev r r' : race_ok r -> step ev r = Some r' -> race_ok r'.
Proof.
  intros Hr Hs. pose proof Hr as [Ht Hst Hf Ho].
  destruct ev; cbn [step] in Hs.
  - injection Hs as <-. split; cbn; try done. apply Forall_app. by repeat constructor.
  - injection Hs as <-. by split.
  - injection Hs as <-. split; cbn; try done. destruct suspended; [done|]. apply Forall_app. by repeat constructor.
  - destruct (r_offers r !! k) as [o|] eqn:Hk; [|done]. cbn [mbind option_bind] in Hs.
    destruct (offer n o r) as [[o' r1]|] eqn:Hof; [|done]. cbn in Hs. injection Hs as <-.
    apply offer_ok in Hof as (Hr1 & Hos & Hj); [|done|by eapply Forall_lookup_1].
    apply offers_replaced_ok; [done|]. pose proof (ok_offers _ Hr1) as Ho1. rewrite Hos in Ho1.
    destruct o' as [o'|]; [by apply Forall_insert|by apply Forall_delete].
  - destruct (r_table r !! n) eqn:Hn, (r_started r !! n) eqn:Hsn; try done.
    injection Hs as <-. split; cbn; [done| |done|done].
    intros m id' o hs [[<- [= <- <- <-]]|[Hne Hm]]%lookup_insert_Some; [|by eapply Hst].
    apply eligible_asked.
  - destruct (r_table r !! n) eqn:Hn; [done|].
    destruct (r_started r !! n) as [[[id origin] [|h hs]]|] eqn:Hsn; try done.
    injection Hs as <-. split; cbn [r_table r_started r_flights r_offers].
    + intros m f [[<- <-]|[Hne Hm]]%lookup_insert_Some; [|by eapply Ht].
      apply takeoff_ok; [done|]. by eapply Hst.
    + intros m id' o hs' [_ Hm]%lookup_delete_Some. by eapply Hst.
    + intros id' m [[<- <-]|[Hne Hm]]%lookup_insert_Some.
      * exists (takeoff id origin (h :: hs)). by rewrite lookup_insert_eq.
      * destruct (Hf _ _ Hm) as (f & Hfm & ? & ?). exists f.
        rewrite lookup_insert_ne; [done|]. congruence.
    + eapply keeps_offers; [|exact Ho]. apply keeps_origins_insert. congruence.
  - destruct (r_table r !! n) as [f|] eqn:Hn; [|done]. cbn [mbind option_bind] in Hs.
    destruct (flight_step e f) as [f'|] eqn:He; [|done]. injection Hs as <-.
    destruct (flight_step_keeps e f f' He) as (Hq & Hse & _ & _ & Hor).
    apply (write_ok n f f'); try done. eapply flight_step_ok; [by eapply Ht|done].
  - destruct (r_table r !! n) as [f|] eqn:Hn; [|done]. cbn [mbind option_bind] in Hs.
    destruct (f_out f) eqn:Hout; [|done]. destruct (f_settled f) eqn:Hse; [done|].
    injection Hs as <-. split; cbn [r_table r_started r_flights r_offers]; [|done| |].
    + intros m f0 [[<- <-]|[Hne Hm]]%lookup_insert_Some; [|by eapply Ht].
      apply land_ok; [by eapply Ht|eauto].
    + intros id m [Hne Hid]%lookup_delete_Some. destruct (Hf _ _ Hid) as (f0 & Hm & Hq & Hset).
      exists f0. rewrite lookup_insert_ne; [done|]. congruence.
    + eapply keeps_offers; [|exact Ho]. apply keeps_origins_insert. intros f0 Hf0. simplify_eq.
      unfold land. by case_bool_decide.
Qed.

Lemma reachable_ok r : reachable r -> race_ok r.
Proof. induction 1; [by split|by eapply step_ok]. Qed.

(** ** What the race guarantees *)

(** C22. Every request out with approvers, in every interleaving: a peer is
    only ever asked about a request that began here; the decision taken came
    from an approver that was asked and is never a peer's report that it has
    nobody to ask; and a request nobody has decided is never waiting on
    nothing, because an answer is queued or an approver is still being asked
    until the context ends. *)
Theorem race_invariant r n f :
  reachable r -> r_table r !! n = Some f ->
  Forall (fun h => hd_remote h = true -> f_origin f = OriginLocal) (f_asked f) /\
  (forall h a, f_out f = Some (Answered h a) -> h ∈ f_asked f /\ declined h a = false) /\
  (f_out f = None -> f_ctx f = Live ->
     f_results f <> [] \/ (0 < f_failures f)%nat \/ f_turns f <> []).
Proof.
  intros Hr Hn. destruct (ok_table _ (reachable_ok _ Hr) _ _ Hn). split_and!.
  - done.
  - intros h a Ho. by rewrite Ho in ok_answered0.
  - intros Ho Hl. specialize (ok_exact0 Hl Ho). specialize (ok_waiting0 Ho).
    unfold outstanding in *. destruct (f_results f); [|by left].
    destruct (f_failures f); [|right; left; lia].
    destruct (f_turns f); [|by right; right]. cbn in *. lia.
Qed.

(** "No approver could be reached" is said only when it is true:
    at the step that says it, every approver the request was put in front of,
    late joiners included, has gone, with no answer queued and none still
    being asked. *)
Theorem nobody_left_honest r n f e f' :
  reachable r -> r_table r !! n = Some f -> f_out f = None ->
  flight_step e f = Some f' -> f_out f' = Some NobodyLeft ->
  f_failed f' = f_count f' /\ f_results f' = [] /\ f_failures f' = 0%nat /\ f_turns f' = [].
Proof.
  intros Hr Hn Ho Hs Ho'. pose proof (ok_table _ (reachable_ok _ Hr) _ _ Hn) as Hok.
  pose proof (ok_count _ (flight_step_ok _ _ _ Hok Hs)) as Hc.
  assert (f_count f' <= f_failed f') as Hge.
  { destruct e; cbn [flight_step] in Hs; unfold gone, allGone in Hs;
      repeat case_match; simplify_eq/=; bool_prop; try congruence; lia. }
  unfold outstanding in Hc.
  destruct (f_results f'), (f_turns f'); cbn in *; try lia. split_and!; [lia|done|lia|done].
Qed.

(** What becomes of a flight looked at for a handler, with nothing in between. *)
Definition looked_at (h : Handler) (r : race) (t : gmap nat inflight) (n : nat) : gmap nat inflight :=
  alter (fun f => if mayAnswerLocked (r_softLocked r) h (f_origin f) then join h f else f) n t.

Lemma looks_at_one h n fl later k r r' f :
  r_offers r !! k = Some (LooksAt h fl later) -> n ∈ fl -> r_table r !! n = Some f ->
  r' = set_offers (<[k := LooksAt h (List.filter (fun m => negb (bool_decide (m = n))) fl) later]> (r_offers r))
         (upd_table (fun t => looked_at h r t n) r) ->
  run [EvOffer k n] r = Some r' \/ run [EvOffer k n; EvOffer k n] r = Some r'.
Proof.
  intros Hk Hin Hn ->. cbn [run step]. rewrite Hk. cbn [mbind option_bind offer].
  destruct fl as [|m fl]; [by apply elem_of_nil in Hin|]. rewrite (bool_decide_eq_true_2 _ Hin), Hn. cbn [mbind option_bind].
  unfold looked_at. destruct (mayAnswerLocked (r_softLocked r) h (f_origin f)) eqn:Hm; [right|left].
  - cbn [set_offers r_offers]. rewrite list_lookup_insert_eq by (by eapply lookup_lt_Some). cbn [mbind option_bind offer].
    unfold set_offers, upd_table. cbn. rewrite list_insert_insert_eq. do 2 f_equal.
    apply map_eq. intros i. destruct (decide (i = n)) as [->|Hne]; [|by rewrite !lookup_alter_ne].
    rewrite !lookup_alter_eq, Hn. cbn. by rewrite Hm.
  - unfold set_offers, upd_table. cbn. do 2 f_equal.
    apply map_eq. intros i. destruct (decide (i = n)) as [->|Hne]; [|by rewrite !lookup_alter_ne].
    rewrite !lookup_alter_eq, Hn. cbn. by rewrite Hm.
Qed.

(** An approver that registers is offered, and reads the flights that wait; by
    two steps of the offer at most it is put in front of a waiting request it
    may answer, has not been asked about and whose context is live, and leaves
    any other as it is: a request that is over raises no card. *)
Theorem late_joiner r r1 k h n m later f :
  r_offers r !! k = Some (ReadsFlights h later) -> step (EvOffer k m) r = Some r1 ->
  n ∈ waiting r -> r_table r !! n = Some f ->
  exists evs r2 f', (length evs <= 2)%nat /\ Forall (eq (EvOffer k n)) evs /\ run evs r1 = Some r2 /\
    r_table r2 !! n = Some f' /\
    (mayAnswerLocked (r_softLocked r) h (f_origin f) = true ->
     f_settled f = false -> f_ctx f = Live -> h ∉ f_asked f ->
     h ∈ f_asked f' /\ Asking h ∈ f_turns f' /\ f_count f' = f_count f + 1) /\
    (mayAnswerLocked (r_softLocked r) h (f_origin f) = false \/ f_settled f = true \/ f_ctx f <> Live \/
       h ∈ f_asked f -> f' = f).
Proof.
  intros Hk Hs Hin Hn. cbn [step] in Hs. rewrite Hk in Hs. cbn [mbind option_bind offer] in Hs. injection Hs as <-.
  set (r1 := set_offers _ r). set (f' := if mayAnswerLocked (r_softLocked r) h (f_origin f) then join h f else f).
  edestruct (looks_at_one h n (waiting r) later k r1) as [Hrun|Hrun]; [|exact Hin|exact Hn|reflexivity| |].
  { apply list_lookup_insert_eq. by eapply lookup_lt_Some. }
  all: eexists _, _, f'; split; [|split; [|split; [exact Hrun|split_and!]]]; [cbn; lia|repeat constructor| | |];
    [cbn; unfold looked_at; by rewrite lookup_alter_eq, Hn| |]; unfold f'.
  1, 3: intros ->; apply join_accepted.
  all: intros [->|Hrest]; [done|]; case_match; [by apply join_refused|done].
Qed.

(** ** Concrete runs *)

Definition desk : Handler := mk_Handler 1 "tray" false true true.
Definition phone : Handler := mk_Handler 2 "phone" true false false.
Definition terminal : Handler := mk_Handler 3 "terminal" false true false.

Definition yes : Answer :=
  mk_Answer DECISION_APPROVE emp 0 GrantReachSession None SOURCE_UNSPECIFIED None.
Definition nobody_there : Answer :=
  mk_Answer DECISION_DENY emp 0 GrantReachSession None SOURCE_NO_APPROVER None.

Definition asked_both : list event :=
  [EvEligible 0 "r" OriginLocal; EvTakeoff 0].

Definition race_at (evs : list event) (hs : list Handler) : race :=
  default (no_flights []) (run evs (no_flights hs)).
Definition flight_at (evs : list event) (hs : list Handler) : inflight :=
  default (takeoff emp OriginLocal []) (r_table (race_at evs hs) !! 0%nat).

Lemma run_reachable evs r r' : reachable r -> run evs r = Some r' -> reachable r'.
Proof.
  revert r. induction evs as [|ev evs IH]; intros r Hr; cbn; [by intros [= <-]|].
  destruct (step ev r) as [r1|] eqn:Hs; [|done]. apply IH. by eapply reach_step.
Defined.

Definition phone_has_nobody : list event :=
  asked_both ++ map (EvFlight 0) [EDecided 1 (Ok (Some nobody_there)); ESend 1; EResult].

(** A peer with nobody to ask does not settle the request... *)
Example peer_veto_ignored : f_out (flight_at phone_has_nobody [desk; phone]) = None.
Proof. vm_compute. reflexivity. Qed.

(** ... and the desktop's answer does. *)
Example desk_answers :
  f_out (flight_at (phone_has_nobody ++
    map (EvFlight 0) [EDecided 0 (Ok (Some yes)); ESend 0; EResult]) [desk; phone]) =
  Some (Answered desk (Some yes)).
Proof. vm_compute. reflexivity. Qed.

Lemma race_invariant_witness :
  exists f, r_table (race_at phone_has_nobody [desk; phone]) !! 0%nat = Some f /\
    (f_results f <> [] \/ (0 < f_failures f)%nat \/ f_turns f <> []).
Proof.
  exists (flight_at phone_has_nobody [desk; phone]). split; [vm_compute; reflexivity|].
  refine (proj2 (proj2 (race_invariant (race_at phone_has_nobody [desk; phone]) 0 _ _ _)) _ _).
  - apply (run_reachable phone_has_nobody (no_flights [desk; phone])); [constructor|].
    vm_compute. reflexivity.
  - vm_compute. reflexivity.
  - vm_compute. reflexivity.
  - vm_compute. reflexivity.
Defined.

Definition desk_fails : list event :=
  phone_has_nobody ++ map (EvFlight 0) [EDecided 0 (Err (errors_New "closed")); ESend 0].

Lemma nobody_left_honest_witness :
  f_turns (flight_at (desk_fails ++ [EvFlight 0 EFailure]) [desk; phone]) = [].
Proof.
  refine (proj2 (proj2 (proj2 (nobody_left_honest (race_at desk_fails [desk; phone]) 0
    (flight_at desk_fails [desk; phone]) EFailure _ _ _ _ _ _)))).
  - apply (run_reachable desk_fails (no_flights [desk; phone])); [constructor|].
    vm_compute. reflexivity.
  - vm_compute. reflexivity.
  - vm_compute. reflexivity.
  - vm_compute. reflexivity.
  - vm_compute. reflexivity.
Defined.

(** The handler offered by [EvRegister], when it is the only one. *)
Definition offered : list event := [EvOffer 0 0; EvOffer 0 0; EvOffer 0 0].

Example terminal_joins :
  let r := race_at (phone_has_nobody ++ EvRegister terminal :: offered ++ [EvOffer 0 0]) [desk; phone] in
  f_asked <$> r_table r !! 0%nat = Some [terminal; desk; phone] /\ r_offers r = [].
Proof. vm_compute. done. Qed.

(** A decision between finding that a handler may answer and joining it: no
    card is raised. *)
Example decided_before_the_join :
  let r := race_at (asked_both ++ [EvRegister terminal; EvOffer 0 0; EvOffer 0 0] ++
    map (EvFlight 0) [EDecided 0 (Ok (Some yes)); ESend 0; EResult] ++ [EvOffer 0 0]) [desk; phone] in
  f_asked <$> r_table r !! 0%nat = Some [desk; phone].
Proof. vm_compute. done. Qed.

(** A handler that registers between [eligible] and [takeoff] is asked by
    neither. *)
Example registered_in_the_gap :
  let r := race_at [EvEligible 0 "r" OriginLocal; EvRegister terminal; EvOffer 0 0; EvOffer 0 0; EvTakeoff 0] [desk] in
  r_handlers r = [desk; terminal] /\ f_asked <$> r_table r !! 0%nat = Some [desk].
Proof. vm_compute. done. Qed.

(** Two requests out at once under one identifier: only the later one can be
    joined. *)
Example same_identifier :
  let r := race_at [EvEligible 0 "r" OriginPeer; EvTakeoff 0;
                    EvEligible 1 "r" OriginPeer; EvTakeoff 1; EvRegister terminal; EvOffer 0 1; EvOffer 0 1; EvOffer 0 1] [desk] in
  f_asked <$> r_table r !! 0%nat = Some [desk] /\
  f_asked <$> r_table r !! 1%nat = Some [terminal; desk].
Proof. vm_compute. done. Qed.
