(* ===== verification/Engine.v ===== *)
(** * Engine: [pkg/approval/engine.go], [delegations.go], [endorsements.go] and [quiet.go]

    Deciding a request.  The engine's operations are state-passing functions
    over a [world]: the stores behind their interfaces, a clock and a source
    of randomness that are read one value at a time, and the trace of
    everything the engine did that somebody else can see.  What the race of
    [Inflight] came to is an argument of [prompt].

    A submission is one function of the world it starts from: the policy, the
    handlers and the soft lock, which the source reads under a lock each, and
    what other calls write to the stores meanwhile, are held as they are for
    as long as it runs.  Handlers that come, go or are suspended while a
    question is out are in [Inflight]. *)

From S2P Require Import Prelude.
From S2P Require Import GoText.
From S2P Require Import Proto.
From S2P Require Import Asker.
From S2P Require Import Policy.
From S2P Require Import Ssh.
From S2P Require Import Identity.
From S2P Require Import GitObject.
From S2P Require Import Prompt.
From S2P Require Import Grants.
From S2P Require Import Inflight.

Local Open Scope Z_scope.

(** ** The interfaces of the stores

    [GrantStore], [GrantUses], [DelegationStore] and [EndorsementStore]: what
    the engine asks of [keystore.Vault], over whatever state implements
    them. *)

Class GrantStore (S : Type) := {
  st_Grants : S -> result (list Grant) * S;
  st_AddGrant : Grant -> S -> option error * S;
  st_ReplaceGrant : Grant -> S -> option error * S
}.
Class GrantUses (S : Type) := {
  st_RecordGrantUses : list GrantUse -> S -> option error * S
}.
Class DelegationStore (S : Type) := {
  st_UsableDelegations : S -> result (list Delegation) * S;
  st_RecordDelegationUse : GrantUse -> S -> option error * S
}.
Class EndorsementStore (S : Type) := {
  st_UsableEndorsements : S -> result (list Endorsement) * S;
  st_RecordEndorsementUse : GrantUse -> S -> option error * S
}.

(** *** What the grant store promises the engine

    The abstract view of a store is the list of promises it holds.  Reading
    answers the ones that are live by the store's own clock and may forget the
    rest, adding and replacing do what they say when they do not fail, and
    recording uses changes no promise. *)

(** The part of a grant that is the promise rather than its ledger. *)
Definition promise_of (g : Grant) := (gr_grant_id g, gr_scope g, gr_expires_at g, gr_description g).

Class GrantStoreLaws (S : Type) `{GrantStore S} `{GrantUses S} := {
  st_held : S -> list Grant;
  st_now : S -> time;
  st_Grants_live s gs s' : st_Grants s = (Ok gs, s') ->
    gs = List.filter (fun g => After (AsTime (gr_expires_at g)) (st_now s)) (st_held s) /\
    (forall g, g ∈ gs -> g ∈ st_held s');
  st_AddGrant_held g s s' : st_AddGrant g s = (None, s') -> st_held s' = st_held s ++ [g];
  st_ReplaceGrant_held g s s' : st_ReplaceGrant g s = (None, s') ->
    exists l1 x l2, st_held s = l1 ++ x :: l2 /\ gr_grant_id x = gr_grant_id g /\
      Forall (fun y => gr_grant_id y <> gr_grant_id g) l1 /\
      st_held s' = l1 ++ set_grant_uses (gr_use_count x) (gr_recent_uses x) g :: l2;
  st_RecordGrantUses_promises us s :
    map promise_of (st_held (st_RecordGrantUses us s).2) = map promise_of (st_held s)
}.

(** ** The request an approver is shown *)

Record Request := mk_Request {
  q_Msg : ApprovalRequest;
  q_Prompt : Prompt;
  q_GrantTTLs : list duration;
  q_GrantMaxTTL : duration;
  q_GrantSubject : string;
  q_GrantMachine : string;
  q_Origin : Origin;
  q_Body : bytes;
  q_Display : bytes
}.

Definition set_q_prompt (p : Prompt) (q : Request) : Request :=
  mk_Request (q_Msg q) p (q_GrantTTLs q) (q_GrantMaxTTL q) (q_GrantSubject q)
    (q_GrantMachine q) (q_Origin q) (q_Body q) (q_Display q).

(** ** The audit log's entries *)

Record AuditEntry := mk_AuditEntry {
  ae_event : AuditEvent;
  ae_request_id : string;
  ae_request : option ApprovalRequest;
  ae_response : option ApprovalResponse;
  ae_signed_approval : option SignedApproval;
  ae_remote_approval : option SignedApproval;
  ae_prompt_shown : string;
  ae_project_shown : option PresentedProject;
  ae_detail : string;
  ae_key_fingerprint : string;
  ae_grant : option Grant
}.

Definition entry_request (msg : ApprovalRequest) : AuditEntry :=
  mk_AuditEntry EVENT_REQUEST (rq_request_id msg) (Some msg) None None None emp None emp emp None.
Definition entry_decision (msg : ApprovalRequest) (resp : ApprovalResponse)
    (signed remote : option SignedApproval) (shown : string) (project : option PresentedProject)
    : AuditEntry :=
  mk_AuditEntry EVENT_DECISION (rq_request_id msg) (Some msg) (Some resp) signed remote shown
    project emp emp None.
Definition entry_grant (id : string) (g : Grant) (detail : string) : AuditEntry :=
  mk_AuditEntry EVENT_GRANT id None None None None emp None detail emp (Some g).

(** ** What others can see the engine do *)

Inductive effect :=
| EfAudit (e : AuditEntry)
| EfNotify (h : Handler) (resp : ApprovalResponse)
| EfAddGrant (g : Grant) (err : option error)
| EfReplaceGrant (g : Grant) (err : option error)
| EfOwnUse (use : GrantUse) (err : option error)
| EfDelegatedUse (use : GrantUse) (err : option error)
| EfEndorsedUse (use : GrantUse) (err : option error)
| EfReport (approver : string)
| EfPublish (signed : SignedEndorsement)
| EfRenew (holder : string) (signed : SignedDelegation) (err : option error).

(** ** Responses *)

Definition approve (source : DecisionSource) (reason : string) : ApprovalResponse :=
  mk_ApprovalResponse emp [] DECISION_APPROVE source None None reason None None None false.
Definition deny (source : DecisionSource) (reason : string) : ApprovalResponse :=
  mk_ApprovalResponse emp [] DECISION_DENY source None None reason None None None false.

Definition set_notify (b : bool) (r : ApprovalResponse) : ApprovalResponse :=
  mk_ApprovalResponse (rs_request_id r) (rs_request_digest r) (rs_decision r) (rs_source r)
    (rs_decided_at r) (rs_approver r) (rs_reason r) (rs_grant r) (rs_delegation r)
    (rs_endorsement r) b.
Definition set_approver (a : option ApproverInfo) (r : ApprovalResponse) : ApprovalResponse :=
  mk_ApprovalResponse (rs_request_id r) (rs_request_digest r) (rs_decision r) (rs_source r)
    (rs_decided_at r) a (rs_reason r) (rs_grant r) (rs_delegation r) (rs_endorsement r)
    (rs_notify_only r).
Definition set_promise (g : option Grant) (d : option SignedDelegation)
    (e : option SignedEndorsement) (r : ApprovalResponse) : ApprovalResponse :=
  mk_ApprovalResponse (rs_request_id r) (rs_request_digest r) (rs_decision r) (rs_source r)
    (rs_decided_at r) (rs_approver r) (rs_reason r) g d e (rs_notify_only r).
Definition set_binding (id : string) (digest : bytes) (r : ApprovalResponse) : ApprovalResponse :=
  mk_ApprovalResponse id digest (rs_decision r) (rs_source r) (rs_decided_at r) (rs_approver r)
    (rs_reason r) (rs_grant r) (rs_delegation r) (rs_endorsement r) (rs_notify_only r).
Definition set_decided_at (t : option time) (r : ApprovalResponse) : ApprovalResponse :=
  mk_ApprovalResponse (rs_request_id r) (rs_request_digest r) (rs_decision r) (rs_source r) t
    (rs_approver r) (rs_reason r) (rs_grant r) (rs_delegation r) (rs_endorsement r)
    (rs_notify_only r).

Definition grantable (kind : RequestKind) : bool :=
  match kind with KIND_PAIRING | KIND_KEY_LIST => false | _ => true end.

(** The enum's names. *)
Definition RequestKind_String (k : RequestKind) : string :=
  match k with
  | KIND_UNSPECIFIED => "REQUEST_KIND_UNSPECIFIED"
  | KIND_SSH_AUTH => "REQUEST_KIND_SSH_AUTH"
  | KIND_GIT_SIGN => "REQUEST_KIND_GIT_SIGN"
  | KIND_SSHSIG => "REQUEST_KIND_SSHSIG"
  | KIND_OPAQUE_SIGN => "REQUEST_KIND_OPAQUE_SIGN"
  | KIND_KEY_LIST => "REQUEST_KIND_KEY_LIST"
  | KIND_PAIRING => "REQUEST_KIND_PAIRING"
  end.

Definition ErrNoSuchGrant : error :=
  sentinel "approval.ErrNoSuchGrant" "approval: no live grant with that id".

Section Engine.
Context `{Unicode} `{LocalTime} `{Hashes} `{Ssh}.
Context `{Codec ApprovalRequest} `{Codec ApprovalResponse} `{Codec Delegation} `{Codec Endorsement}.
Context {S : Type} `{GrantStore S} `{GrantUses S} `{DelegationStore S} `{EndorsementStore S}.

(** [Options], and the callbacks installed after construction: a field that is
    nil in Go is [false] or [None]. *)
Record Options := mk_Options {
  op_Identity : Identity;
  op_Grants : bool;
  op_Delegations : bool;
  op_Endorsements : bool;
  op_KeySigner : option (string -> result Signer);
  op_GrantUses : bool;
  op_reportUse : bool;
  op_renewDelegation : option (string -> SignedDelegation -> option error);
  op_publishEndorsement : bool
}.

Record world := mk_world {
  w_store : S;
  w_policy : PolicyDocument;
  w_handlers : list Handler;
  w_softLocked : bool;
  w_clock : nat -> time;      (** what each reading of the clock answers *)
  w_ticks : nat;
  w_random : nat -> bytes;    (** what each draw of ten random bytes answers *)
  w_draws : nat;
  w_trace : list effect       (** oldest first *)
}.

Implicit Types (w : world) (msg : ApprovalRequest) (req : Request) (resp : ApprovalResponse).

Definition now : state world time := fun w =>
  (w_clock w (w_ticks w),
   mk_world (w_store w) (w_policy w) (w_handlers w) (w_softLocked w) (w_clock w)
     (Datatypes.S (w_ticks w)) (w_random w) (w_draws w) (w_trace w)).

Definition new_request_id : state world string := fun w =>
  (NewRequestID (w_random w (w_draws w)),
   mk_world (w_store w) (w_policy w) (w_handlers w) (w_softLocked w) (w_clock w) (w_ticks w)
     (w_random w) (Datatypes.S (w_draws w)) (w_trace w)).

Definition emit (e : effect) : state world unit := modify (fun w =>
  mk_world (w_store w) (w_policy w) (w_handlers w) (w_softLocked w) (w_clock w) (w_ticks w)
    (w_random w) (w_draws w) (w_trace w ++ [e])).

(** A call on a store. *)
Definition on_store {A} (f : S -> A * S) : state world A := fun w =>
  let '(a, s) := f (w_store w) in
  (a, mk_world s (w_policy w) (w_handlers w) (w_softLocked w) (w_clock w) (w_ticks w)
        (w_random w) (w_draws w) (w_trace w)).

Context (e : Options).

Definition logEntry (entry : AuditEntry) : state world unit := emit (EfAudit entry).

Fixpoint notify_all (hs : list Handler) resp : state world unit :=
  match hs with
  | [] => mret tt
  | h :: hs' => _ ← when (hd_notifier h) (emit (EfNotify h resp)); notify_all hs' resp
  end.

Definition notify resp : state world unit :=
  if negb (rs_notify_only resp) then mret tt
  else handlers ← gets w_handlers; notify_all handlers resp.

(** ** The account of what promises covered *)

Definition grantUse (grantID : string) msg : state world GrantUse :=
  t ← now;
  mret (mk_GrantUse grantID (rq_request_id msg) (Some t) None (rq_kind msg)
    (p_subject (RenderPrompt msg))).

Definition recordOwnUse (grantID : string) msg : state world unit :=
  if negb (op_GrantUses e) then mret tt
  else
    use ← grantUse grantID msg;
    err ← on_store (st_RecordGrantUses [use]);
    emit (EfOwnUse use err).

Definition recordDelegatedUse msg (d : Delegation) : state world unit :=
  use ← grantUse (dl_delegation_id d) msg;
  err ← on_store (st_RecordDelegationUse use);
  _ ← emit (EfDelegatedUse use err);
  match err with
  | Some _ => mret tt
  | None => when (op_reportUse e) (emit (EfReport (dl_approver_fingerprint d)))
  end.

Definition recordEndorsedUse msg (en : Endorsement) : state world unit :=
  if negb (op_Endorsements e) then mret tt
  else
    use ← grantUse (en_endorsement_id en) msg;
    err ← on_store (st_RecordEndorsementUse use);
    _ ← emit (EfEndorsedUse use err);
    match err with
    | Some _ => mret tt
    | None => when (op_reportUse e) (emit (EfReport (en_issuer_fingerprint en)))
    end.

(** ** Matching promises *)

Definition matchGrant msg : state world (option Grant) :=
  if negb (op_Grants e) then mret None
  else
    grants ← on_store st_Grants;
    match grants with
    | Err _ => mret None
    | Ok grants => t ← now; mret (findGrant grants msg t)
    end.

Definition findDelegation (held : list Delegation) msg (t : time) : option Delegation :=
  find_first (fun d => After (AsTime (dl_expires_at d)) t && covers (dl_scope d) msg) held.

Definition matchDelegation msg : state world (option Delegation) :=
  if negb (op_Delegations e) then mret None
  else
    held ← on_store st_UsableDelegations;
    match held with
    | Err _ => mret None
    | Ok held => t ← now; mret (findDelegation held msg t)
    end.

(** The test [matchEndorsement] puts each promise to. *)
Definition endorsement_answers (requester : string) (t ceiling : time) msg (en : Endorsement)
    : bool :=
  bool_decide (en_requester_fingerprint en = requester) &&
  (After (AsTime (en_expires_at en)) t && negb (After (AsTime (en_expires_at en)) ceiling)) &&
  covers (en_scope en) msg.

Definition matchEndorsement req (policy : PolicyDocument) : state world (option Endorsement) :=
  if negb (op_Endorsements e) then mret None
  else
    let requester := (rq_requester (q_Msg req))⇢ri_instance_id in
    if bool_decide (requester = emp) then mret None
    else
      held ← on_store st_UsableEndorsements;
      match held with
      | Err _ => mret None
      | Ok held =>
        t ← now;
        mret (find_first (endorsement_answers requester t (Add t (MaxGrantTTL policy)) (q_Msg req))
          held)
      end.

Definition parkedBySession req : state world bool :=
  match rq_local_key (q_Msg req) with
  | None => mret false
  | Some parked =>
    if bool_decide (q_Origin req <> OriginLocal) then mret false
    else
      locked ← gets w_softLocked;
      if (locked : bool) then mret false
      else mret (SameSession (lk_added_by parked) (rq_requester (q_Msg req))⇢ri_process)
  end.

(** ** Making promises *)

Definition createGrant msg (ttl : duration) (reach : GrantReach) : state world (option Grant) :=
  if negb (op_Grants e) then mret None
  else
    t ← now;
    id ← new_request_id;
    let grant := newGrant id msg ttl reach t in
    err ← on_store (st_AddGrant grant);
    _ ← emit (EfAddGrant grant err);
    match err with
    | Some _ => mret None
    | None =>
      _ ← logEntry (entry_grant (rq_request_id msg) grant (gr_description grant));
      _ ← when (negb (rq_grant_only msg)) (recordOwnUse (gr_grant_id grant) msg);
      mret (Some grant)
    end.

(** The artifact a delegation is, and this instance's record of it. *)
Definition delegation_of (id : string) msg (ttl : duration) (reach : GrantReach) (t : time)
    : Delegation :=
  let scope := grantScopeFor msg reach in
  mk_Delegation id (Some scope) (Some t) (Some (Add t ttl)) (rq_request_id msg)
    (DescribeScope (Some scope) (GrantPromise msg reach) ttl) (Fingerprint (op_Identity e))
    (id_name (op_Identity e)) (rq_requester msg)⇢ri_instance_id.

Definition delegated_grant (id : string) msg (ttl : duration) (reach : GrantReach) (t : time)
    : Grant :=
  let scope := grantScopeFor msg reach in
  mk_Grant id (Some scope) (Some t) (Some (Add t ttl)) (rq_request_id msg)
    (dl_description (delegation_of id msg ttl reach t)) (GrantPromise msg reach) true
    (rq_requester msg)⇢ri_instance_id (rq_requester msg)⇢ri_name 0 [] false None false [] [].

Definition delegate msg (ttl : duration) (reach : GrantReach)
    : state world (option SignedDelegation * option Grant) :=
  t ← now;
  id ← new_request_id;
  match SignDelegation (op_Identity e) (Some (delegation_of id msg ttl reach t)) with
  | Err _ => mret (None, None)
  | Ok signed =>
    let grant := delegated_grant id msg ttl reach t in
    if negb (op_Grants e) then mret (Some signed, None)
    else
      err ← on_store (st_AddGrant grant);
      _ ← emit (EfAddGrant grant err);
      match err with
      | Some _ => mret (Some signed, None)
      | None =>
        _ ← logEntry (entry_grant (rq_request_id msg) grant
              ("delegated to " +:+ (rq_requester msg)⇢ri_name));
        _ ← when (negb (rq_grant_only msg)) (recordOwnUse id msg);
        mret (Some signed, Some grant)
      end
  end.

Definition shouldDelegate req : bool :=
  if bool_decide (q_Origin req <> OriginPeer) then false
  else bool_decide ((rq_requester (q_Msg req))⇢ri_instance_id <> emp).

Definition shouldEndorse req : bool :=
  if bool_decide (q_Origin req <> OriginPeerSigning) then false
  else
    match op_KeySigner e with
    | None => false
    | Some _ => bool_decide ((rq_requester (q_Msg req))⇢ri_instance_id <> emp)
    end.

Definition endorsement_of msg (grant : Grant) : Endorsement :=
  mk_Endorsement (gr_grant_id grant) (gr_scope grant) (gr_created_at grant) (gr_expires_at grant)
    (gr_origin_request_id grant) (gr_description grant) (Fingerprint (op_Identity e))
    (id_name (op_Identity e)) (rq_requester msg)⇢ri_instance_id (rq_requester msg)⇢ri_name
    (gr_scope grant)⇢gs_key_fingerprint.

(** [endorse] marks the grant it is handed, so it answers the grant too.  It is
    called only where [shouldEndorse] found a key signer, so the branch
    without one (a call through a nil interface) is never reached. *)
Definition endorse msg (grant : option Grant)
    : state world (option Grant * option SignedEndorsement) :=
  match grant, op_KeySigner e with
  | None, _ => mret (None, None)
  | Some grant, None => mret (Some grant, None)
  | Some grant, Some portableSigner =>
    match portableSigner (gr_scope grant)⇢gs_key_fingerprint with
    | Err _ => mret (Some grant, None)
    | Ok signer =>
      match SignEndorsement (op_Identity e) (Some (endorsement_of msg grant)) (Some signer) with
      | Err _ => mret (Some grant, None)
      | Ok signed =>
        let grant := set_grant_endorsed grant in
        err ← on_store (st_ReplaceGrant grant);
        _ ← emit (EfReplaceGrant grant err);
        _ ← when (op_publishEndorsement e) (emit (EfPublish signed));
        mret (Some grant, Some signed)
      end
    end
  end.

(** ** Turning an answer into a response *)

Definition answerToResponse req (handler : Handler) (answer : option Answer)
    : state world (ApprovalResponse * option SignedApproval) :=
  match answer with
  | None => mret (deny SOURCE_ERROR "the approver returned nothing", None)
  | Some a =>
    let reason := if bool_decide (an_Reason a = emp)
      then "answered by " +:+ hd_ID handler else an_Reason a in
    let source := if bool_decide (an_Source a = SOURCE_UNSPECIFIED)
      then SOURCE_USER else an_Source a in
    if bool_decide (an_Decision a <> DECISION_APPROVE)
    then mret (set_approver (an_Approver a) (deny source reason), an_Signed a)
    else if rq_grant_only (q_Msg req) && (an_GrantTTL a <=? 0)
    then mret (deny SOURCE_ERROR "a grant request can only be approved for a length of time", None)
    else
      let resp := set_approver (an_Approver a) (approve source reason) in
      if (0 <? an_GrantTTL a) && (0 <? q_GrantMaxTTL req)
      then
        if shouldDelegate req
        then
          '(signed, grant) ← delegate (q_Msg req) (an_GrantTTL a) (an_GrantReach a);
          mret (set_promise grant signed None resp, an_Signed a)
        else
          grant ← createGrant (q_Msg req) (an_GrantTTL a) (an_GrantReach a);
          if shouldEndorse req
          then
            '(grant, endorsement) ← endorse (q_Msg req) grant;
            mret (set_promise grant None endorsement resp, an_Signed a)
          else mret (set_promise grant None None resp, an_Signed a)
      else mret (resp, an_Signed a)
  end.

(** ** Asking *)

(** The budget of a question. *)
Definition prompt_timeout (policy : PolicyDocument) msg : duration :=
  let timeout := if rq_grant_only msg then GrantRequestTimeout policy
    else Timeout policy (rq_kind msg) in
  match rq_timeout msg with
  | Some requested => if 0 <? requested then requested else timeout
  | None => timeout
  end.

(** [outcome] is what the race between the approvers came to. *)
Definition prompt req (policy : PolicyDocument) (outcome : verdict)
    : state world (ApprovalResponse * option SignedApproval) :=
  handlers ← gets w_handlers;
  locked ← gets w_softLocked;
  match eligible handlers locked (q_Origin req) with
  | [] =>
    mret (deny SOURCE_NO_APPROVER
      (if (locked : bool) then "this instance is locked and no paired approver could answer"
       else "no approver is available to answer"), None)
  | _ :: _ =>
    match outcome with
    | Answered h a => answerToResponse req h a
    | NobodyLeft => mret (deny SOURCE_NO_APPROVER "no approver could be reached", None)
    | TimedOut =>
      mret (deny SOURCE_TIMEOUT ("nobody answered within " +:+
        Duration_String (prompt_timeout policy (q_Msg req))), None)
    | Withdrawn => mret (deny SOURCE_CANCELLED "the request was withdrawn", None)
    end
  end.

(** ** Deciding *)

Definition mustPrompt msg : string :=
  if (rq_ssh_auth msg)⇢sa_forwarded then "requests through a forwarded agent always ask"
  else if bool_decide (rq_kind msg = KIND_PAIRING) then "pairing changes always ask"
  else if (rq_local_key msg)⇢lk_confirm
  then "the program that parked this key asked for every use to be confirmed"
  else emp.

(** The answers that need nobody: a parked key's own session, the policy, a
    grant, a delegation, an endorsement, in that order. *)
Definition answer_unasked req (policy : PolicyDocument) (eval : Evaluation)
    : state world (option ApprovalResponse) :=
  let msg := q_Msg req in
  parked ← parkedBySession req;
  if (parked : bool)
  then
    let resp := set_notify true (approve SOURCE_POLICY
      "the session that parked this key in the agent is using it") in
    _ ← notify resp; mret (Some resp)
  else if bool_decide (ev_Action eval = ACTION_APPROVE)
  then
    let resp := set_notify (ev_Notify eval) (approve SOURCE_POLICY (ev_Rule eval)) in
    _ ← notify resp; mret (Some resp)
  else
    grant ← matchGrant msg;
    match grant with
    | Some grant =>
      let resp := set_notify true (approve SOURCE_GRANT (gr_description grant)) in
      _ ← when (negb (rq_grant_only msg)) (recordOwnUse (gr_grant_id grant) msg);
      _ ← notify resp; mret (Some resp)
    | None =>
      d ← (if bool_decide (q_Origin req = OriginLocal) then matchDelegation msg else mret None);
      match d with
      | Some d =>
        let resp := set_notify true (approve SOURCE_GRANT (dl_description d)) in
        _ ← when (negb (rq_grant_only msg)) (recordDelegatedUse msg d);
        _ ← notify resp; mret (Some resp)
      | None =>
        en ← (if bool_decide (q_Origin req = OriginPeerSigning)
              then matchEndorsement req policy else mret None);
        match en with
        | Some en =>
          let resp := set_notify true (approve SOURCE_GRANT (en_description en)) in
          _ ← recordEndorsedUse msg en;
          _ ← notify resp; mret (Some resp)
        | None => mret None
        end
      end
    end.

(** The response, the answering peer's artifact, and the request as the
    approver finally saw it. *)
Definition decide req (policy : PolicyDocument) (contextProblem : string) (outcome : verdict)
    : state world (ApprovalResponse * option SignedApproval * Request) :=
  let msg := q_Msg req in
  if bool_decide (rq_kind msg = KIND_OPAQUE_SIGN)
  then mret (deny SOURCE_HARD_RULE
    "the payload is neither an SSH authentication blob nor an SSHSIG signature", None, req)
  else if bool_decide (contextProblem <> emp)
  then mret (deny SOURCE_HARD_RULE contextProblem, None, req)
  else if rq_grant_only msg && bool_decide (q_Origin req <> OriginLocal)
  then mret (deny SOURCE_HARD_RULE
    "a grant request can only be made on the machine it is about", None, req)
  else
    let must := mustPrompt msg in
    let eval := Evaluate policy msg in
    if bool_decide (ev_Action eval = ACTION_DENY)
    then mret (deny SOURCE_POLICY (ev_Rule eval), None, req)
    else
      unasked ← (if bool_decide (must = emp) then answer_unasked req policy eval else mret None);
      match unasked with
      | Some resp => mret (resp, None, req)
      | None =>
        let req := if bool_decide (must <> emp) && bool_decide (ev_Action eval = ACTION_APPROVE)
          then set_q_prompt (add_warnings
            ["policy would auto-approve this, but " +:+ must] (q_Prompt req)) req
          else req in
        '(resp, remote) ← prompt req policy outcome;
        mret (resp, remote, req)
      end.

(** ** Submitting *)

(** [shown] is what the host that drew the card recorded through [Presented]. *)
Definition submit (msg : option ApprovalRequest) (body : option bytes) (origin : Origin)
    (outcome : verdict) (shown : option PresentedProject)
    : state world (result (ApprovalResponse * option SignedApproval)) :=
  match msg with
  | None => mret (Err (errors_New "approval: nil request"))
  | Some msg =>
    msg ← (if bool_decide (rq_request_id msg = emp)
           then id ← new_request_id; mret (set_request_id id msg) else mret msg);
    msg ← (match rq_created_at msg with
           | None => t ← now; mret (set_created_at (Some t) msg)
           | Some _ => mret msg
           end);
    let '(msg, contextProblem) := VerifyRequest msg in
    match Marshal msg with
    | Err err => mret (Err (wrap_w "serialize request: " err emp))
    | Ok display =>
      let body := default display body in
      policy ← gets w_policy;
      let ttls := if grantable (rq_kind msg)
        then withRequestedTTL (GrantTTLs policy) (AsDuration (rq_requested_grant_ttl msg))
          (MaxGrantTTL policy)
        else [] in
      let req := mk_Request msg (RenderPrompt msg) ttls
        (if grantable (rq_kind msg) then MaxGrantTTL policy else 0)
        (GrantSubject msg) (GrantMachine msg) origin body display in
      _ ← logEntry (entry_request msg);
      '(resp, remote, req) ← decide req policy contextProblem outcome;
      let resp := set_binding (rq_request_id msg) (Digest body) resp in
      let own := Some (Identity_ApproverInfo (op_Identity e) true) in
      let resp := match rs_approver resp with None => set_approver own resp | Some _ => resp end in
      resp ← (match rs_decided_at resp with
              | None => t ← now; mret (set_decided_at (Some t) resp)
              | Some _ => mret resp
              end);
      '(resp, signed, remote) ←
        (match SignApproval (op_Identity e) (Some resp) with
         | Ok signed => mret (resp, Some signed, remote)
         | Err _ =>
           t ← now;
           mret (set_decided_at (Some t) (set_approver own (set_binding (rq_request_id msg)
             (Digest body) (deny SOURCE_ERROR "the decision could not be signed"))), None, None)
         end);
      _ ← logEntry (entry_decision msg resp signed remote (Text (q_Prompt req)) shown);
      mret (Ok (resp, signed))
    end
  end.

Definition SubmitSigned msg (outcome : verdict) (shown : option PresentedProject) :=
  submit (Some msg) None OriginLocal outcome shown.
Definition SubmitPeer msg (body : bytes) (outcome : verdict) (shown : option PresentedProject) :=
  submit (Some msg) (Some body) OriginPeer outcome shown.
Definition SubmitPeerSigning msg (body : bytes) (outcome : verdict)
    (shown : option PresentedProject) :=
  submit (Some msg) (Some body) OriginPeerSigning outcome shown.

(** ** What was done about a decision *)

Definition Signed msg (key : option KeyRef) : state world unit :=
  logEntry (mk_AuditEntry EVENT_SIGNATURE (rq_request_id msg) None None None None emp None
    (RequestKind_String (rq_kind msg)) key⇢kr_fingerprint None).

(** A decision made, and acted on, somewhere else. *)
Definition Delegated msg resp (remote : option SignedApproval) : state world unit :=
  _ ← logEntry (entry_request msg);
  let signed := match SignApproval (op_Identity e) (Some resp) with Ok signed => Some signed | Err _ => None end in
  logEntry (entry_decision msg resp signed remote (Text (RenderPrompt msg)) None).

(** ** Extending a promise *)

Definition ExtendGrant (id : string) (extra : duration) : state world (result Grant) :=
  if negb (op_Grants e) then mret (Err (errors_New "this instance keeps no grants"))
  else
    grants ← on_store st_Grants;
    match grants with
    | Err err => mret (Err (wrap_w "read the grants: " err emp))
    | Ok grants =>
      t ← now;
      match find_first (fun g => bool_decide (gr_grant_id g = id)) grants with
      | Some grant =>
        if negb (After (AsTime (gr_expires_at grant)) t)
        then mret (Err (wrap_w emp ErrNoSuchGrant (": " +:+ id)))
        else if gr_revoke_pending grant
        then mret (Err (errors_New
          "this promise has been revoked and is waiting to be taken back from the machine holding it"))
        else
          policy ← gets w_policy;
          match extendPromise (op_Identity e) grant extra (MaxGrantTTL policy) t with
          | Err err => mret (Err err)
          | Ok (amended, signed) =>
            failed ←
              (match signed with
               | None => mret None
               | Some sd =>
                 match op_renewDelegation e with
                 | None => mret (Some (errors_New
                     "this promise is held by another machine and there is no way to reach it from here"))
                 | Some renew =>
                   let err := renew (gr_delegate_fingerprint grant) sd in
                   _ ← emit (EfRenew (gr_delegate_fingerprint grant) sd err);
                   mret ((fun x => wrap_w "hand over the extended promise: " x emp) <$> err)
                 end
               end);
            match failed with
            | Some err => mret (Err err)
            | None =>
              err ← on_store (st_ReplaceGrant amended);
              _ ← emit (EfReplaceGrant amended err);
              match err with
              | Some err => mret (Err (wrap_w "store the extended promise: " err emp))
              | None =>
                _ ← logEntry (entry_grant (gr_origin_request_id grant) amended
                      ("extended to run for " +:+ HumanDuration extra +:+ " from now"));
                mret (Ok amended)
              end
            end
          end
      | None => mret (Err (wrap_w emp ErrNoSuchGrant (": " +:+ id)))
      end
    end.

(** ** Wake-ups *)

(** One turn of the loop over the grants. *)
Definition quiet_latest (requester : string) (t latest : time) (g : Grant) : time :=
  if gr_delegated g then latest
  else if bool_decide ((gr_scope g)⇢gs_requester_instance_id <> requester) then latest
  else
    let expires := AsTime (gr_expires_at g) in
    if negb (After expires t) then latest
    else if After expires latest then expires else latest.

Definition QuietUntil (requester : string) : state world time :=
  if negb (op_Grants e) || bool_decide (requester = emp) then mret zero_time
  else
    grants ← on_store st_Grants;
    match grants with
    | Err _ => mret zero_time
    | Ok grants =>
      t ← now;
      mret (foldl (quiet_latest requester t) zero_time grants)
    end.

End Engine.

Definition RememberUntil (target : time) (maxTTL : duration) : option time :=
  Some (Add target maxTTL).
