(* ===== verification/EngineSpec.v ===== *)
(** * EngineSpec: what the engine promises

    Theorems about [Engine]: the rules nothing can override, where every
    approval comes from, what the log says, and how promises are made and
    extended.  The stores are any implementation of their interfaces. *)

From S2P Require Import Prelude.
From S2P Require Import GoText.
From S2P Require Import Proto.
From S2P Require Import Asker.
From S2P Require Import Policy.
From S2P Require Import Ssh.
From S2P Require Import Identity.
From S2P Require Import GitObject.
From S2P Require Import Prompt.
From S2P Require Import Grants.
From S2P Require Import Inflight.
From S2P Require Import Engine.

Local Open Scope Z_scope.

Section EngineSpec.
Context `{Unicode} `{LocalTime} `{Hashes} `{Ssh}.
Context `{Codec ApprovalRequest} `{Codec ApprovalResponse} `{Codec Delegation} `{Codec Endorsement}.
Context {S : Type} `{GrantStore S} `{GrantUses S} `{DelegationStore S} `{EndorsementStore S}.

Abbreviation world := (world (S := S)).

Implicit Types (w : world) (msg : ApprovalRequest) (req : Request) (resp : ApprovalResponse).

(** ** Operations only ever add to the trace *)

Definition emits {A} (P : effect -> Prop) (m : state world A) : Prop :=
  forall w, exists l, w_trace (m w).2 = w_trace w ++ l /\ Forall P l.

Lemma emits_ret {A} P (a : A) : emits P (mret a).
Proof. intros w. exists []. by rewrite app_nil_r. Qed.

Lemma emits_bind {A B} P (m : state world A) (f : A -> state world B) :
  emits P m -> (forall a, emits P (f a)) -> emits P (m ≫= f).
Proof.
  intros Hm Hf w. rewrite state_bind_unfold.
  destruct (Hm w) as (l & Hl & Hp). destruct (Hf (m w).1 (m w).2) as (l' & Hl' & Hp').
  exists (l ++ l'). rewrite Hl', Hl, app_assoc. split; [done|]. by apply Forall_app.
Qed.

Lemma emits_gets {A} P (f : world -> A) : emits P (gets f).
Proof. intros w. exists []. by rewrite app_nil_r. Qed.

Lemma emits_emit (P : effect -> Prop) ef : P ef -> emits P (emit (S := S) ef).
Proof. intros Hp w. exists [ef]. split; [done|]. by apply Forall_singleton. Qed.

Lemma emits_now P : emits P (now (S := S)).
Proof. intros w. exists []. by rewrite app_nil_r. Qed.

Lemma emits_new_request_id P : emits P (new_request_id (S := S)).
Proof. intros w. exists []. by rewrite app_nil_r. Qed.

Lemma emits_on_store {A} P (f : S -> A * S) : emits P (on_store f).
Proof. intros w. unfold on_store. destruct (f _). exists []. by rewrite app_nil_r. Qed.

Lemma emits_when P b (m : state world unit) : (b = true -> emits P m) -> emits P (when b m).
Proof. destruct b; cbn; [auto|intros _; apply emits_ret]. Qed.

Lemma emits_impl {A} (P Q : effect -> Prop) (m : state world A) :
  (forall ef, P ef -> Q ef) -> emits P m -> emits Q m.
Proof.
  intros Hpq Hm w. destruct (Hm w) as (l & Hl & Hp). exists l. split; [done|].
  by eapply Forall_impl.
Qed.

Create HintDb emits discriminated.
Hint Resolve emits_ret emits_gets emits_now emits_new_request_id emits_on_store : emits.

Context (e : Options).

(** Effects that are not a line in an account of uses. *)
Definition no_use (ef : effect) : Prop :=
  match ef with EfOwnUse _ _ | EfDelegatedUse _ _ | EfEndorsedUse _ _ => False | _ => True end.

Definition any_effect (_ : effect) : Prop := True.

Lemma emits_notify P resp :
  (forall h, P (EfNotify h resp)) -> emits P (notify (S := S) resp).
Proof.
  intros Hp. unfold notify. case_match; [apply emits_ret|].
  apply emits_bind; [apply emits_gets|]. intros hs. induction hs as [|h hs IH]; cbn [notify_all].
  - apply emits_ret.
  - apply emits_bind; [|done]. apply emits_when. intros. by apply emits_emit.
Qed.

(** Walk a computation down to its effects. *)
Ltac emits_tac :=
  repeat first
    [ progress eauto 2 with emits nocore
    | apply emits_notify; intros
    | apply emits_bind; intros
    | apply emits_emit
    | apply emits_when; intros
    | case_match ].

Lemma emits_answerToResponse req h a :
  rq_grant_only (q_Msg req) = true -> emits no_use (answerToResponse e req h a).
Proof.
  intros Hg. unfold answerToResponse, delegate, createGrant, endorse, logEntry. rewrite Hg.
  cbn [negb andb]. emits_tac; try done; by destruct (negb true).
Qed.

Lemma emits_answerToResponse_any req h a : emits any_effect (answerToResponse e req h a).
Proof.
  unfold answerToResponse, delegate, createGrant, endorse, recordOwnUse, grantUse, logEntry.
  emits_tac; done.
Qed.

Lemma emits_prompt P req policy v :
  (forall h a, emits P (answerToResponse e req h a)) -> emits P (prompt e req policy v).
Proof. intros Ha. unfold prompt. emits_tac; eauto. Qed.

Lemma emits_uses P msg :
  (forall u err, P (EfOwnUse u err)) -> (forall u err, P (EfDelegatedUse u err)) ->
  (forall u err, P (EfEndorsedUse u err)) -> (forall fp, P (EfReport fp)) ->
  (forall id, emits P (recordOwnUse e id msg)) /\
  (forall d, emits P (recordDelegatedUse e msg d)) /\
  (forall en, emits P (recordEndorsedUse e msg en)).
Proof.
  intros Ho Hd He Hr.
  split_and!; intros; unfold recordOwnUse, recordDelegatedUse, recordEndorsedUse, grantUse;
    emits_tac; auto.
Qed.

Lemma emits_match P msg req policy :
  emits P (matchGrant e msg) /\ emits P (matchDelegation e msg) /\
  emits P (matchEndorsement e req policy) /\ emits P (parkedBySession (S := S) req).
Proof.
  split_and!; unfold matchGrant, matchDelegation, matchEndorsement, parkedBySession; emits_tac.
Qed.

Lemma emits_tell {A} P resp (a : A) :
  (forall h r, P (EfNotify h r)) -> emits P (_ ← notify (S := S) resp; mret a).
Proof.
  intros Hn. apply emits_bind; [by apply emits_notify|]. intros. apply emits_ret.
Qed.

Lemma emits_unasked P req policy eval :
  (forall h r, P (EfNotify h r)) ->
  (rq_grant_only (q_Msg req) = false -> forall id, emits P (recordOwnUse e id (q_Msg req))) ->
  (rq_grant_only (q_Msg req) = false -> forall d, emits P (recordDelegatedUse e (q_Msg req) d)) ->
  (q_Origin req = OriginPeerSigning -> forall en, emits P (recordEndorsedUse e (q_Msg req) en)) ->
  emits P (answer_unasked e req policy eval).
Proof.
  intros Hn Ho Hd He. unfold answer_unasked.
  destruct (emits_match P (q_Msg req) req policy) as (Hg & Hm & Hen & Hp).
  apply emits_bind; [done|]. intros [].
  { by apply emits_tell. }
  case_bool_decide; [by apply emits_tell|].
  apply emits_bind; [done|]. intros [g|].
  { apply emits_bind; [apply emits_when; intros; apply Ho; by apply negb_true_iff|].
    intros. by apply emits_tell. }
  apply emits_bind; [case_match; [done|apply emits_ret]|]. intros [d|].
  { apply emits_bind; [apply emits_when; intros; apply Hd; by apply negb_true_iff|].
    intros. by apply emits_tell. }
  case_bool_decide as Hor.
  - apply emits_bind; [done|]. intros [en|]; [|apply emits_ret].
    apply emits_bind; [by apply He|]. intros. by apply emits_tell.
  - intros w. rewrite state_bind_unfold. apply emits_ret.
Qed.

Lemma emits_decide P req policy problem v :
  (forall h r, P (EfNotify h r)) ->
  (rq_grant_only (q_Msg req) = false -> forall id, emits P (recordOwnUse e id (q_Msg req))) ->
  (rq_grant_only (q_Msg req) = false -> forall d, emits P (recordDelegatedUse e (q_Msg req) d)) ->
  (rq_grant_only (q_Msg req) = false -> forall en, emits P (recordEndorsedUse e (q_Msg req) en)) ->
  (forall req' h a, q_Msg req' = q_Msg req -> emits P (answerToResponse e req' h a)) ->
  emits P (decide e req policy problem v).
Proof.
  intros Hn Ho Hd He Ha. unfold decide.
  case_match; [apply emits_ret|]. case_match; [apply emits_ret|].
  destruct (rq_grant_only (q_Msg req) && _) eqn:Hgo; [apply emits_ret|].
  case_match; [apply emits_ret|].
  apply emits_bind.
  - case_match; [|apply emits_ret]. apply emits_unasked; try done.
    intros Hor. apply He. apply andb_false_iff in Hgo as [?|Hb]; [done|].
    rewrite Hor in Hb. done.
  - intros [resp|]; [apply emits_ret|].
    apply emits_bind; [|intros [? ?]; apply emits_ret].
    apply emits_prompt. intros h a. apply Ha. by case_match.
Qed.

(** A request that only asks for a promise signs nothing, and is
    never counted as a use of one: whatever is decided and however, no line is
    added to any account of what promises covered. *)
Theorem grant_request_is_no_use req policy problem v w :
  rq_grant_only (q_Msg req) = true ->
  exists l, w_trace (decide e req policy problem v w).2 = w_trace w ++ l /\ Forall no_use l.
Proof.
  intros Hg. apply (emits_decide no_use req policy problem v); try done; try congruence.
  intros req' h a Hq. apply emits_answerToResponse. by rewrite Hq.
Qed.

(** ** Rules nothing can override *)

(** C2. An unreadable payload, a commit that is not the one being signed,
    a request for a promise from another machine and a policy that denies are
    refused whatever else is true, without asking anybody, spending a promise
    or telling anybody. *)
Theorem hard_rules req policy problem v w :
  rq_kind (q_Msg req) = KIND_OPAQUE_SIGN \/ problem <> emp \/
  (rq_grant_only (q_Msg req) = true /\ q_Origin req <> OriginLocal) \/
  ev_Action (Evaluate policy (q_Msg req)) = ACTION_DENY ->
  let '((resp, remote, req'), w') := decide e req policy problem v w in
  rs_decision resp = DECISION_DENY /\ rs_grant resp = None /\ rs_delegation resp = None /\
  rs_endorsement resp = None /\ remote = None /\ req' = req /\ w' = w.
Proof.
  intros Hh. unfold decide.
  case_bool_decide as K1; [done|]. case_bool_decide as K2; [done|].
  destruct (rq_grant_only (q_Msg req)) eqn:Hg; cbn [andb].
  - case_bool_decide as K3; [done|]. case_bool_decide as K4; [done|]. naive_solver.
  - case_bool_decide as K4; [done|]. naive_solver.
Qed.

(** ** Where an approval comes from *)

Lemma matchGrant_Some msg w g w' :
  matchGrant e msg w = (Some g, w') ->
  op_Grants e = true /\ exists gs,
    (st_Grants (w_store w)).1 = Ok gs /\ findGrant gs msg (w_clock w (w_ticks w)) = Some g.
Proof.
  unfold matchGrant, on_store, now, mbind, state_bind, mret, state_ret.
  destruct (op_Grants e); cbn [negb]; [|done].
  destruct (st_Grants (w_store w)) as [[gs|] s]; [|done].
  cbn. intros [= Hf _]. eauto.
Qed.

Lemma matchDelegation_Some msg w d w' :
  matchDelegation e msg w = (Some d, w') ->
  op_Delegations e = true /\ exists ds,
    (st_UsableDelegations (w_store w)).1 = Ok ds /\
    findDelegation ds msg (w_clock w (w_ticks w)) = Some d.
Proof.
  unfold matchDelegation, on_store, now, mbind, state_bind, mret, state_ret.
  destruct (op_Delegations e); cbn [negb]; [|done].
  destruct (st_UsableDelegations (w_store w)) as [[ds|] s]; [|done].
  cbn. intros [= Hf _]. eauto.
Qed.

Lemma matchEndorsement_Some req policy w en w' :
  matchEndorsement e req policy w = (Some en, w') ->
  op_Endorsements e = true /\ (rq_requester (q_Msg req))⇢ri_instance_id <> emp /\ exists ens,
    (st_UsableEndorsements (w_store w)).1 = Ok ens /\ en ∈ ens /\
    endorsement_answers (rq_requester (q_Msg req))⇢ri_instance_id (w_clock w (w_ticks w))
      (Add (w_clock w (w_ticks w)) (MaxGrantTTL policy)) (q_Msg req) en = true.
Proof.
  unfold matchEndorsement, on_store, now, mbind, state_bind, mret, state_ret.
  destruct (op_Endorsements e); cbn [negb]; [|done]. case_bool_decide as Hr; [done|].
  destruct (st_UsableEndorsements (w_store w)) as [[ens|] s]; [|done].
  cbn. intros [= Hf _]. apply find_first_elem in Hf as [? ?]. split; [done|]. eauto.
Qed.

Lemma parkedBySession_true req w w' :
  parkedBySession req w = (true, w') ->
  q_Origin req = OriginLocal /\ w_softLocked w = false /\
  exists k, rq_local_key (q_Msg req) = Some k /\
    SameSession (lk_added_by k) (rq_requester (q_Msg req))⇢ri_process = true.
Proof.
  unfold parkedBySession, mbind, state_bind, mret, state_ret, gets.
  destruct (rq_local_key (q_Msg req)) as [k|]; [|done]. case_bool_decide as Ho; [done|].
  destruct (w_softLocked w) eqn:Hl; [done|]. intros [= Hs _]. eauto.
Qed.

(** Grants are read first, from the store as it is and against the first
    reading of the clock; what is read after them finds the store as reading
    them left it, and the clock one reading on if they could be read. *)
Definition store_then w : S := if op_Grants e then (st_Grants (w_store w)).2 else w_store w.
Definition clock_then w : time :=
  w_clock w (if op_Grants e && is_ok (st_Grants (w_store w)).1 then Datatypes.S (w_ticks w) else w_ticks w).

Lemma matchGrant_None msg w w' :
  matchGrant e msg w = (None, w') ->
  w_store w' = store_then w /\ w_clock w' (w_ticks w') = clock_then w /\
  w_handlers w' = w_handlers w /\ w_softLocked w' = w_softLocked w.
Proof.
  unfold matchGrant, store_then, clock_then, on_store, now, mbind, state_bind, mret, state_ret.
  destruct (op_Grants e); cbn [negb andb]; [|by intros [= <-]].
  destruct (st_Grants (w_store w)) as [[gs|] s]; cbn [fst snd is_ok]; intros Heq.
  - cbn in Heq. injection Heq as _ <-. done.
  - by injection Heq as <-.
Qed.

(** Why a request was approved without anybody being asked: what was there,
    and live, when it was decided. *)
Inductive unasked_reason req (policy : PolicyDocument) w : Prop :=
| by_parked_session k :
    q_Origin req = OriginLocal -> w_softLocked w = false ->
    rq_local_key (q_Msg req) = Some k ->
    SameSession (lk_added_by k) (rq_requester (q_Msg req))⇢ri_process = true ->
    unasked_reason req policy w
| by_policy : ev_Action (Evaluate policy (q_Msg req)) = ACTION_APPROVE -> unasked_reason req policy w
| by_grant gs g :
    op_Grants e = true -> (st_Grants (w_store w)).1 = Ok gs -> g ∈ gs ->
    w_clock w (w_ticks w) < AsTime (gr_expires_at g) ->
    covers (gr_scope g) (q_Msg req) = true -> unasked_reason req policy w
| by_delegation ds d :
    q_Origin req = OriginLocal -> op_Delegations e = true ->
    (st_UsableDelegations (store_then w)).1 = Ok ds -> d ∈ ds ->
    clock_then w < AsTime (dl_expires_at d) -> covers (dl_scope d) (q_Msg req) = true ->
    unasked_reason req policy w
| by_endorsement ens en :
    q_Origin req = OriginPeerSigning -> op_Endorsements e = true ->
    (st_UsableEndorsements (store_then w)).1 = Ok ens -> en ∈ ens ->
    en_requester_fingerprint en = (rq_requester (q_Msg req))⇢ri_instance_id ->
    en_requester_fingerprint en <> emp ->
    clock_then w < AsTime (en_expires_at en) <= clock_then w + MaxGrantTTL policy ->
    covers (en_scope en) (q_Msg req) = true -> unasked_reason req policy w.

Lemma parkedBySession_same req w : (parkedBySession (S := S) req w).2 = w.
Proof. unfold parkedBySession, gets, mbind, state_bind, mret, state_ret. repeat case_match; done. Qed.

Lemma answer_unasked_Some req policy w resp w' :
  answer_unasked e req policy (Evaluate policy (q_Msg req)) w = (Some resp, w') ->
  unasked_reason req policy w.
Proof.
  unfold answer_unasked. rewrite state_bind_unfold.
  pose proof (parkedBySession_same req w) as Hsame.
  destruct (parkedBySession req w) as [b w1] eqn:Hp. cbn [fst snd] in *. subst w1. destruct b.
  { intros _. apply parkedBySession_true in Hp as (? & ? & k & ? & ?).
    by eapply by_parked_session. }
  case_bool_decide as Ha; [intros _; by apply by_policy|].
  rewrite state_bind_unfold. destruct (matchGrant e (q_Msg req) w) as [[g|] w2] eqn:Hg;
    cbn [fst snd].
  { intros _. apply matchGrant_Some in Hg as (? & gs & Hgs & Hf).
    apply findGrant_Some in Hf as (l1 & l2 & -> & Hexp & Hcov & _).
    eapply by_grant; [done|exact Hgs| |exact Hexp|exact Hcov]. apply elem_of_app. right. left. }
  apply matchGrant_None in Hg as (Hst & Hck & _).
  rewrite state_bind_unfold. case_bool_decide as Ho.
  - destruct (matchDelegation e (q_Msg req) w2) as [[d|] w3] eqn:Hd; cbn [fst snd].
    { intros _. apply matchDelegation_Some in Hd as (? & ds & Hds & Hf). rewrite Hst in Hds. rewrite Hck in Hf.
      unfold findDelegation in Hf. apply find_first_elem in Hf as [Hin Hf]. bool_prop.
      eapply by_delegation; [done|done|exact Hds|exact Hin| |done]. by apply After_spec. }
    rewrite Ho. rewrite state_bind_unfold. done.
  - cbn [mret state_ret fst snd]. rewrite state_bind_unfold. case_bool_decide as Hs; [|done].
    destruct (matchEndorsement e req policy w2) as [[en|] w3] eqn:Hen; cbn [fst snd]; [|done].
    intros _. apply matchEndorsement_Some in Hen as (? & Hr & ens & Hens & Hin & Hans).
    rewrite Hst in Hens. rewrite Hck in Hans. unfold endorsement_answers, After, Add in Hans. bool_prop.
    apply (by_endorsement _ _ _ ens en); try done; first [congruence|lia].
Qed.

Lemma approve_by_answer req h a w resp remote w' :
  answerToResponse e req h a w = ((resp, remote), w') -> rs_decision resp = DECISION_APPROVE ->
  exists an, a = Some an /\ an_Decision an = DECISION_APPROVE /\
    (rq_grant_only (q_Msg req) = true -> 0 < an_GrantTTL an).
Proof.
  destruct a as [an|]; cbn [answerToResponse]; [|by intros [= <- <- <-]].
  case_bool_decide as Hd; [by intros [= <- <- <-]|].
  destruct (_ && (_ <=? 0)) eqn:Hg; [by intros [= <- <- <-]|].
  intros _ _. exists an. split_and!; try done.
  intros Hgo. rewrite Hgo in Hg. cbn in Hg. bool_prop. done.
Qed.

Lemma prompt_approves req policy v w resp remote w' :
  prompt e req policy v w = ((resp, remote), w') -> rs_decision resp = DECISION_APPROVE ->
  exists h an, v = Answered h (Some an) /\ an_Decision an = DECISION_APPROVE /\
    (rq_grant_only (q_Msg req) = true -> 0 < an_GrantTTL an) /\
    eligible (w_handlers w) (w_softLocked w) (q_Origin req) <> [].
Proof.
  unfold prompt, gets, mbind, state_bind, mret, state_ret.
  destruct (eligible _ _ _) as [|h0 hs] eqn:He; [by intros [= <- _ _]|].
  destruct v as [h a| | |]; [|by intros [= <- _ _]..].
  intros Ha Hd. apply approve_by_answer in Ha as (an & -> & ? & ?); [|done].
  by exists h, an.
Qed.

(** Asking nobody changes neither who could be asked nor the lock. *)
Lemma answer_unasked_None req policy eval w w' :
  answer_unasked e req policy eval w = (None, w') ->
  w_handlers w' = w_handlers w /\ w_softLocked w' = w_softLocked w.
Proof.
  unfold answer_unasked. rewrite state_bind_unfold. pose proof (parkedBySession_same req w) as Hp.
  destruct (parkedBySession req w) as [[] w1]; cbn [fst snd] in *; subst w1; [by rewrite state_bind_unfold|].
  case_bool_decide; [by rewrite state_bind_unfold|]. rewrite state_bind_unfold.
  destruct (matchGrant e (q_Msg req) w) as [[g|] w2] eqn:Hg; cbn [fst snd]; [by rewrite !state_bind_unfold|].
  apply matchGrant_None in Hg as (_ & _ & <- & <-). rewrite state_bind_unfold.
  assert ((forall msg w, w_handlers (matchDelegation e msg w).2 = w_handlers w /\ w_softLocked (matchDelegation e msg w).2 = w_softLocked w) /\
    (forall req w, w_handlers (matchEndorsement e req policy w).2 = w_handlers w /\
       w_softLocked (matchEndorsement e req policy w).2 = w_softLocked w)) as [Hd He].
  { unfold matchDelegation, matchEndorsement, on_store, now, mbind, state_bind, mret, state_ret.
    split; intros x w0; repeat case_match; simplify_eq/=; done. }
  assert (forall b w0 (x : option Delegation) w3, (if b : bool then matchDelegation e (q_Msg req) else mret None) w0 = (x, w3) ->
    w_handlers w3 = w_handlers w0 /\ w_softLocked w3 = w_softLocked w0) as Hd'.
  { intros b w0 x w3 Hr. specialize (Hd (q_Msg req) w0). destruct b; [by rewrite Hr in Hd|by injection Hr as <- <-]. }
  match goal with |- context [(?m w2).1] => destruct (m w2) as [[d|] w3] eqn:Hm end; cbn [fst snd]; apply Hd' in Hm as [<- <-].
  { by rewrite !state_bind_unfold. }
  rewrite state_bind_unfold. case_bool_decide; [|by intros [= <-]].
  specialize (He req w3). destruct (matchEndorsement e req policy w3) as [[en|] w4]; cbn [fst snd] in *.
  { by rewrite !state_bind_unfold. }
  by intros [= <-].
Qed.

(** C1. Every approval has a reason.  Either nobody had to be asked,
    in a request that does not insist on asking: the session that parked the
    key, the policy, a grant the store holds when it is read, still running by
    the clock read next, that covers the request; a delegation the store holds,
    running and covering, for a request that began here; or an endorsement the
    store holds about the machine that asks, running by that clock but ending
    no later than this instance's own bound from it, and covering, for a
    borrowed signature.  Or an answer of yes came out of the race while there
    was an approver that may be asked, naming a length when the request is for
    a promise. *)
Theorem approval_provenance req policy problem v w resp remote req' w' :
  decide e req policy problem v w = ((resp, remote, req'), w') ->
  rs_decision resp = DECISION_APPROVE ->
  (mustPrompt (q_Msg req) = emp /\ unasked_reason req policy w) \/
  (exists h an, v = Answered h (Some an) /\ an_Decision an = DECISION_APPROVE /\
     (rq_grant_only (q_Msg req) = true -> 0 < an_GrantTTL an) /\
     eligible (w_handlers w) (w_softLocked w) (q_Origin req) <> []).
Proof.
  unfold decide.
  destruct (bool_decide (rq_kind _ = _)); [by intros [= <- <- <- <-]|].
  destruct (bool_decide (problem <> emp)); [by intros [= <- <- <- <-]|].
  destruct (rq_grant_only _ && _); [by intros [= <- <- <- <-]|].
  destruct (bool_decide (ev_Action _ = ACTION_DENY)); [by intros [= <- <- <- <-]|].
  rewrite state_bind_unfold. case_bool_decide as Hm.
  - destruct (answer_unasked e req policy _ w) as [[r|] w1] eqn:Hu; cbn [fst snd].
    + intros _ _. left. split; [done|]. by eapply answer_unasked_Some.
    + rewrite (bool_decide_eq_false_2 (mustPrompt _ <> emp)) by auto. cbn [andb].
      rewrite state_bind_unfold. intros Hp Ha. right.
      destruct (prompt e req policy v w1) as [[r rem] w2] eqn:Hpr. cbn [fst snd] in Hp.
      injection Hp as <- <- <- <-. apply answer_unasked_None in Hu as [<- <-]. by eapply prompt_approves.
  - cbn [mret state_ret fst snd]. rewrite state_bind_unfold. intros Hp Ha. right.
    match type of Hp with context [prompt e ?q policy v w] =>
      destruct (prompt e q policy v w) as [[r rem] w2] eqn:Hpr;
      assert (q_Msg q = q_Msg req /\ q_Origin q = q_Origin req) as [Hq Hqo] by (destruct (_ && _); done) end.
    cbn [fst snd] in Hp. injection Hp as <- <- <- <-.
    rewrite <- Hq, <- Hqo. by eapply prompt_approves.
Qed.

(** ** What the log says *)

Lemma emits_silent {A} (m : state world A) a w w' :
  emits (fun _ => False) m -> m w = (a, w') -> w_trace w' = w_trace w.
Proof.
  intros Hm Hr. destruct (Hm w) as (l & Hl & Hp). rewrite Hr in Hl. cbn in Hl.
  destruct l as [|ef l]; [by rewrite Hl, app_nil_r|].
  apply Forall_cons in Hp as [[] _].
Qed.

Lemma emits_decide_any req policy problem v : emits any_effect (decide e req policy problem v).
Proof.
  destruct (emits_uses any_effect (q_Msg req)) as (Ho & Hd & He); try done.
  apply emits_decide; try done. intros. apply emits_answerToResponse_any.
Qed.

Lemma logEntry_run entry w :
  w_trace (logEntry (S := S) entry w).2 = w_trace w ++ [EfAudit entry].
Proof. done. Qed.

(** The request as [submit] leaves it: numbered and dated when it was not, then
    checked against what is signed. *)
Definition numbered w msg : ApprovalRequest :=
  let msg := if bool_decide (rq_request_id msg = emp) then set_request_id (NewRequestID (w_random w (w_draws w))) msg
             else msg in
  match rq_created_at msg with
  | None => set_created_at (Some (w_clock w (w_ticks w))) msg
  | Some _ => msg
  end.
Definition prepared w msg : ApprovalRequest := (VerifyRequest (numbered w msg)).1.

(** The two steps that make a request ready write nothing to the trace. *)
Lemma prepare_run msg w w1 msg1 w2 msg2 :
  (if bool_decide (rq_request_id msg = emp) then id ← new_request_id; mret (set_request_id id msg) else mret msg) w = (msg1, w1) ->
  (match rq_created_at msg1 with None => t ← now; mret (set_created_at (Some t) msg1) | Some _ => mret msg1 end) w1 = (msg2, w2) ->
  w_trace w2 = w_trace w /\ msg2 = numbered w msg.
Proof.
  unfold numbered. case_bool_decide; intros [= <- <-] Hm.
  - cbn [rq_created_at set_request_id fst snd] in *. destruct (rq_created_at msg); by injection Hm as <- <-.
  - destruct (rq_created_at msg); by injection Hm as <- <-.
Qed.

(** Two requests that differ at most in when they were made and in what is
    known of the commit they sign. *)
Definition same_request msg msg' : Prop :=
  rq_request_id msg' = rq_request_id msg /\ rq_requester msg' = rq_requester msg /\ rq_kind msg' = rq_kind msg /\
  rq_key msg' = rq_key msg /\ rq_local_key msg' = rq_local_key msg /\ rq_payload_sha256 msg' = rq_payload_sha256 msg /\
  rq_grant_only msg' = rq_grant_only msg /\ rq_ssh_auth msg' = rq_ssh_auth msg.

Lemma VerifyRequest_same msg : same_request msg (VerifyRequest msg).1.
Proof.
  unfold VerifyRequest. destruct (rq_sshsig msg) as [sig|] eqn:Es; [|done]. destruct (sg_git_context sig); [|done].
  destruct (Verify _ _ _) as [git' err]. assert (same_request msg (set_git_context git' msg)) as Hk.
  { unfold same_request, rq_sshsig, rq_ssh_auth, set_git_context in *. destruct (rq_operation msg) eqn:Eo; try done. }
  by destruct err.
Qed.

Lemma prepared_same w msg :
  same_request (if bool_decide (rq_request_id msg = emp) then set_request_id (NewRequestID (w_random w (w_draws w))) msg else msg)
    (prepared w msg).
Proof.
  unfold prepared. pose proof (VerifyRequest_same (numbered w msg)) as Hv. unfold same_request in *.
  destruct Hv as (-> & -> & -> & -> & -> & -> & -> & ->). unfold numbered.
  destruct (bool_decide _); cbn [set_request_id rq_created_at]; by destruct (rq_created_at msg).
Qed.

Lemma add_no_warnings p : add_warnings [] p = p.
Proof. unfold add_warnings. rewrite app_nil_r. by destruct p. Qed.

(** What the approver was shown at the end is what it was shown at first, with
    a warning more at most. *)
Lemma decide_shows req policy problem v w resp remote req' w' :
  decide e req policy problem v w = ((resp, remote, req'), w') ->
  exists warnings, q_Prompt req' = add_warnings warnings (q_Prompt req).
Proof.
  unfold decide. destruct (bool_decide (rq_kind _ = _)).
  { intros [= _ _ <- _]. exists []. by rewrite add_no_warnings. }
  destruct (bool_decide (problem <> emp)).
  { intros [= _ _ <- _]. exists []. by rewrite add_no_warnings. }
  destruct (rq_grant_only _ && _).
  { intros [= _ _ <- _]. exists []. by rewrite add_no_warnings. }
  destruct (bool_decide (ev_Action _ = ACTION_DENY)).
  { intros [= _ _ <- _]. exists []. by rewrite add_no_warnings. }
  rewrite state_bind_unfold.
  match goal with |- context [(?m w).1] => destruct (m w) as [[r|] w1] end; cbn [fst snd].
  { intros [= _ _ <- _]. exists []. by rewrite add_no_warnings. }
  rewrite state_bind_unfold. match goal with |- context [prompt e ?q policy v w1] => destruct (prompt e q policy v w1) as [[] w2] end.
  cbn [fst snd mret state_ret]. intros [= _ _ <- _].
  destruct (_ && _); cbn [set_q_prompt q_Prompt]; [by eexists|]. exists []. by rewrite add_no_warnings.
Qed.

(** C3. Every submission is accounted for.  What reaches the log is the
    request first and the decision last: the very request submitted, numbered
    and dated when it was not, with the same requester, kind, key and digest,
    and with what verifying it found of its commit; beside the decision stands
    the prompt of that request, with warnings added at most.  The decision
    logged is the one returned; it names the request and the digest of the
    bytes the request came in (or its own serialization), an approver and a
    time; it is returned with this instance's signature over it, and a decision
    that could not be signed is a denial that promises nothing. *)
Theorem submit_accounted msg body origin v shown w resp signed w' :
  submit e (Some msg) body origin v shown w = (Ok (resp, signed), w') ->
  exists display remote warnings mid,
    let msg' := prepared w msg in
    same_request (if bool_decide (rq_request_id msg = emp) then set_request_id (NewRequestID (w_random w (w_draws w))) msg
                  else msg) msg' /\
    Marshal msg' = Ok display /\
    w_trace w' = w_trace w ++ [EfAudit (entry_request msg')] ++ mid ++
      [EfAudit (entry_decision msg' resp signed remote (Text (add_warnings warnings (RenderPrompt msg'))) shown)] /\
    rs_request_id resp = rq_request_id msg' /\
    rs_request_digest resp = Digest (default display body) /\
    is_Some (rs_approver resp) /\ is_Some (rs_decided_at resp) /\
    match signed with
    | Some sa => SignApproval (op_Identity e) (Some resp) = Ok sa
    | None => rs_decision resp = DECISION_DENY /\ rs_grant resp = None /\
        rs_delegation resp = None /\ rs_endorsement resp = None /\ remote = None
    end.
Proof.
  unfold submit. rewrite state_bind_unfold.
  match goal with |- context [(?m w).1] => destruct (m w) as [msg1 w1] eqn:Hw1 end. cbn [fst snd].
  rewrite state_bind_unfold.
  match goal with |- context [(?m w1).1] => destruct (m w1) as [msg2 w2] eqn:Hw2 end. cbn [fst snd].
  destruct (prepare_run msg w w1 msg1 w2 msg2 Hw1 Hw2) as [Ht2 ->]. clear Hw1 Hw2.
  rewrite (surjective_pairing (VerifyRequest (numbered w msg))). fold (prepared w msg).
  pose proof (prepared_same w msg) as Hsame. set (msg' := prepared w msg) in *.
  destruct (Marshal msg') as [display|err] eqn:Hd; [|by intros [=]].
  rewrite state_bind_unfold. cbn [gets fst snd]. rewrite state_bind_unfold.
  match goal with |- context [logEntry (entry_request msg') w2] =>
    pose proof (logEntry_run (entry_request msg') w2) as Hlog;
    destruct (logEntry (entry_request msg') w2) as [[] w3] end.
  cbn [fst snd] in Hlog |- *. rewrite state_bind_unfold.
  match goal with |- context [decide e ?q ?p ?pr v w3] =>
    destruct (emits_decide_any q p pr v w3) as (mid & Hmid & _);
    pose proof (decide_shows q p pr v w3) as Hshows;
    destruct (decide e q p pr v w3) as [[[r0 rem0] req'] w4] end.
  destruct (Hshows _ _ _ _ eq_refl) as [warnings Hshown]. clear Hshows. cbn [q_Prompt] in Hshown.
  cbn [fst snd] in Hmid |- *. rewrite state_bind_unfold.
  match goal with |- context [(?m w4).1] => destruct (m w4) as [r1 w5] eqn:Hw5 end.
  assert (w_trace w5 = w_trace w4 /\ rs_request_id r1 = rq_request_id msg' /\
    rs_request_digest r1 = Digest (default display body) /\ is_Some (rs_approver r1) /\
    is_Some (rs_decided_at r1)) as (Ht5 & Hid & Hdig & Hap & Hde).
  { revert Hw5. repeat case_match; intros Hw5; unfold now, mbind, state_bind, mret, state_ret in Hw5;
      injection Hw5 as <- <-; simplify_eq/=; split_and!; eauto; congruence. }
  cbn [fst snd]. rewrite state_bind_unfold.
  destruct (SignApproval (op_Identity e) (Some r1)) as [sa|err] eqn:Hs.
  - cbn [mret state_ret fst snd]. rewrite state_bind_unfold.
    unfold mret, state_ret. intros Heq. injection Heq as <- <- <-.
    exists display, rem0, warnings, mid. cbv zeta. split; [exact Hsame|]. split_and!; try done.
    cbn [w_trace]. rewrite Ht5, Hmid, Hlog, Ht2, Hshown, <- !app_assoc. done.
  - unfold now at 1. unfold mbind at 1. cbn [state_bind mret state_ret fst snd].
    rewrite state_bind_unfold. unfold mret, state_ret. intros Heq. injection Heq as <- <- <-.
    exists display, None, warnings, mid. cbv zeta. split; [exact Hsame|]. split_and!; try done; eauto.
    cbn [fst snd w_trace]. rewrite Ht5, Hmid, Hlog, Ht2, Hshown, <- !app_assoc. done.
Qed.

(** ** Promises follow the key *)

(** The trace of a run, beginning with an effect. *)
Definition begins (w w' : world) (ef : effect) : Prop :=
  exists l, w_trace w' = w_trace w ++ ef :: l.

Lemma emits_more {A} P (m : state world A) w a w' ef w0 :
  emits P m -> m w = (a, w') -> begins w0 w ef -> begins w0 w' ef.
Proof.
  intros Hm Hr [l Hl]. destruct (Hm w) as (l' & Hl' & _). rewrite Hr in Hl'. cbn in Hl'.
  exists (l ++ l'). by rewrite Hl', Hl, <- app_assoc.
Qed.

(** What is done once a grant is in the store. *)
Lemma recorded_grant (after : state world unit) (g : Grant) w s err :
  emits any_effect after ->
  let w1 := mk_world s (w_policy w) (w_handlers w) (w_softLocked w) (w_clock w) (w_ticks w)
    (w_random w) (w_draws w) (w_trace w ++ [EfAddGrant g err]) in
  begins w (after w1).2 (EfAddGrant g err).
Proof.
  intros Ha w1. eapply (emits_more any_effect after w1 (after w1).1); [done| |by exists []].
  by destruct (after w1).
Qed.

Lemma createGrant_Some msg ttl reach w g w' :
  createGrant e msg ttl reach w = (Some g, w') ->
  begins w w' (EfAddGrant g None) /\ exists id t, g = newGrant id msg ttl reach t.
Proof.
  unfold createGrant. destruct (op_Grants e); cbn [negb]; [|done].
  unfold now, new_request_id, on_store, emit, modify, mbind, state_bind.
  cbn [w_clock w_ticks w_random w_draws w_store].
  destruct (st_AddGrant _ _) as [err s]. destruct err; [done|].
  match goal with |- context [when ?b ?m] =>
    assert (emits any_effect (when b m)) as Hrec end.
  { apply emits_when. intros _. destruct (emits_uses any_effect msg) as (Ho & _); done. }
  destruct (logEntry _ _) as [[] w1] eqn:Hlog. cbn [w_trace] in *.
  destruct (when _ _ w1) as [[] w2] eqn:Hw2. unfold mret, state_ret. intros Heq.
  injection Heq as <- <-. split; [|eauto].
  eapply emits_more; [exact Hrec|exact Hw2|]. unfold logEntry, emit, modify in Hlog.
  injection Hlog as <-. cbn [w_trace]. eexists. rewrite <- app_assoc. done.
Qed.

Lemma delegate_result msg ttl reach w sd g w' :
  delegate e msg ttl reach w = ((sd, g), w') ->
  exists id t,
    match sd with
    | Some sd => SignDelegation (op_Identity e) (Some (delegation_of e id msg ttl reach t)) = Ok sd
    | None => g = None
    end /\
    (forall g', g = Some g' ->
       g' = delegated_grant e id msg ttl reach t /\ begins w w' (EfAddGrant g' None)).
Proof.
  intros Heq. unfold delegate, now, new_request_id, mbind, state_bind in Heq.
  cbn [w_clock w_ticks w_random w_draws] in Heq.
  exists (NewRequestID (w_random w (w_draws w))), (w_clock w (w_ticks w)).
  destruct (SignDelegation _ _) as [sd'|err] eqn:Hs; [|injection Heq as <- <- <-; by split].
  destruct (op_Grants e); cbn [negb] in Heq; [|injection Heq as <- <- <-; by split].
  unfold on_store, emit, modify in Heq. cbn [w_store] in Heq.
  destruct (st_AddGrant _ _) as [err s]. destruct err; [injection Heq as <- <- <-; by split|].
  match type of Heq with context [when ?b ?m] =>
    assert (emits any_effect (when b m)) as Hrec end.
  { apply emits_when. intros _. destruct (emits_uses any_effect msg) as (Ho & _); done. }
  destruct (logEntry _ _) as [[] w1] eqn:Hlog. cbn [w_trace] in *.
  destruct (when _ _ w1) as [[] w2] eqn:Hw2. unfold mret, state_ret in Heq.
  injection Heq as <- <- <-.
  split; [done|]. intros g' [= <-]. split; [done|].
  eapply emits_more; [exact Hrec|exact Hw2|]. unfold logEntry, emit, modify in Hlog.
  injection Hlog as <-. cbn [w_trace]. eexists. rewrite <- app_assoc. done.
Qed.

Lemma endorse_result msg g w g' se w' :
  endorse e msg g w = ((g', se), w') ->
  (exists l, w_trace w' = w_trace w ++ l) /\
  match se with
  | None => g' = g
  | Some se => exists g0 sign key, g = Some g0 /\ g' = Some (set_grant_endorsed g0) /\
      op_KeySigner e = Some sign /\ sign (gr_scope g0)⇢gs_key_fingerprint = Ok key /\
      SignEndorsement (op_Identity e) (Some (endorsement_of e msg g0)) (Some key) = Ok se
  end.
Proof.
  intros Heq.
  assert (exists l, w_trace w' = w_trace w ++ l) as Htr.
  { assert (emits any_effect (endorse e msg g)) as Hem by (unfold endorse; emits_tac; done).
    destruct (Hem w) as (l & Hl & _). rewrite Heq in Hl. by exists l. }
  split; [done|]. unfold endorse in Heq.
  destruct g as [g0|]; [|by injection Heq as <- <- <-].
  destruct (op_KeySigner e) as [sign|]; [|by injection Heq as <- <- <-].
  destruct (sign _) as [key|] eqn:Hk; [|by injection Heq as <- <- <-].
  destruct (SignEndorsement _ _ _) as [signed|] eqn:Hs; [|by injection Heq as <- <- <-].
  unfold on_store, emit, modify, mbind, state_bind in Heq.
  destruct (st_ReplaceGrant _ _) as [err s]. destruct (when _ _ _) as [[] w2].
  injection Heq as <- <- <-. eauto 10.
Qed.

Ltac no_promise :=
  cbn; split_and!; [intros [[? [=]]|[[? [=]]|[? [=]]]] | done | done | done].

(** C19. Promises follow the key.  A response carries a promise only for
    an approval that named a length for a request that may be promised about.
    A delegation goes only to a peer that will sign for itself and is signed
    by this instance, about that peer and this request's scope.  A grant in
    the response was recorded before anything else happened.  An endorsement
    is only about a signature borrowed from here, by the key the grant is
    about, and repeats the recorded grant. *)
Theorem promises_follow_the_key req h a w resp remote w' :
  answerToResponse e req h a w = ((resp, remote), w') ->
  (is_Some (rs_grant resp) \/ is_Some (rs_delegation resp) \/ is_Some (rs_endorsement resp) ->
     rs_decision resp = DECISION_APPROVE /\ 0 < q_GrantMaxTTL req /\
     exists an, a = Some an /\ 0 < an_GrantTTL an) /\
  (forall sd, rs_delegation resp = Some sd ->
     q_Origin req = OriginPeer /\ (rq_requester (q_Msg req))⇢ri_instance_id <> emp /\
     exists an id t, a = Some an /\
       SignDelegation (op_Identity e) (Some (delegation_of e id (q_Msg req) (an_GrantTTL an)
         (an_GrantReach an) t)) = Ok sd) /\
  (forall g, rs_grant resp = Some g ->
     exists g0, begins w w' (EfAddGrant g0 None) /\ (g = g0 \/ g = set_grant_endorsed g0)) /\
  (forall se, rs_endorsement resp = Some se ->
     q_Origin req = OriginPeerSigning /\
     exists g0 sign key, rs_grant resp = Some (set_grant_endorsed g0) /\
       begins w w' (EfAddGrant g0 None) /\
       op_KeySigner e = Some sign /\ sign (gr_scope g0)⇢gs_key_fingerprint = Ok key /\
       SignEndorsement (op_Identity e) (Some (endorsement_of e (q_Msg req) g0)) (Some key) = Ok se).
Proof.
  unfold answerToResponse.
  destruct a as [an|]; [|intros [= <- <- <-]; no_promise].
  case_bool_decide; [intros [= <- <- <-]; no_promise|].
  destruct (_ && (_ <=? 0)); [intros [= <- <- <-]; no_promise|].
  destruct (_ && _) eqn:Hask; [|intros [= <- <- <-]; no_promise].
  bool_prop.
  destruct (shouldDelegate req) eqn:Hdel.
  - unfold shouldDelegate in Hdel. case_bool_decide as Ho; [done|]. bool_prop.
    rewrite state_bind_unfold. destruct (delegate e _ _ _ w) as [[sd g] w1] eqn:Hd.
    cbn [fst snd]. intros [= <- <- <-]. apply delegate_result in Hd as (id & t & Hsd & Hg).
    cbn. split_and!; [eauto| | |done].
    + intros sd' ->. split_and!; try done. eauto.
    + intros g' Hg'. destruct (Hg g' Hg'). eauto.
  - rewrite state_bind_unfold. destruct (createGrant e _ _ _ w) as [g w1] eqn:Hg. cbn [fst snd].
    destruct (shouldEndorse e req) eqn:Hen.
    + unfold shouldEndorse in Hen. case_bool_decide as Ho; [done|].
      rewrite state_bind_unfold. destruct (endorse e _ g w1) as [[g' se] w2] eqn:He. cbn [fst snd].
      intros [= <- <- <-]. apply endorse_result in He as ([l Hl] & He). cbn.
      assert (forall g0, g = Some g0 -> begins w w2 (EfAddGrant g0 None)) as Hb.
      { intros g0 ->. apply createGrant_Some in Hg as [[l' Hl'] _].
        exists (l' ++ l). by rewrite Hl, Hl', <- app_assoc. }
      split_and!; [eauto|done| |].
      * intros g1 ->. destruct se as [se|].
        -- destruct He as (g0 & _ & _ & -> & [= ->] & _). eauto.
        -- eauto.
      * intros se' ->. split; [done|].
        destruct He as (g0 & sign & key & -> & -> & ? & ? & ?). eauto 10.
    + intros [= <- <- <-]. cbn. split_and!; [eauto|done| |done].
      intros g' ->. apply createGrant_Some in Hg as [? _]. eauto.
Qed.

(** ** Extending a promise *)

(** Extending succeeds only for a live, unrevoked promise of
    that identifier; the new end is within the instance's bound and counted
    from now; a promise held elsewhere reached its holder before the record
    here changed, and an extension that could not be delivered changes no
    record at all. *)
Theorem ExtendGrant_spec id extra w r w' :
  ExtendGrant e id extra w = (r, w') ->
  (forall g', r = Ok g' -> exists grants g t,
     (st_Grants (w_store w)).1 = Ok grants /\ g ∈ grants /\ gr_grant_id g = id /\
     t < AsTime (gr_expires_at g) /\ gr_revoke_pending g = false /\
     Minute <= extra /\ (0 < MaxGrantTTL (w_policy w) -> extra <= MaxGrantTTL (w_policy w)) /\
     g' = extendedGrant g extra t /\
     exists pre, w_trace w' = w_trace w ++ pre ++ [EfReplaceGrant g' None;
         EfAudit (entry_grant (gr_origin_request_id g) g'
           ("extended to run for " +:+ HumanDuration extra +:+ " from now"))] /\
       match pre with
       | [] => gr_delegated g = false
       | ef :: rest => gr_delegated g = true /\ rest = [] /\ exists sd,
           SignDelegation (op_Identity e) (Some (extension (op_Identity e) g g')) = Ok sd /\
           ef = EfRenew (gr_delegate_fingerprint g) sd None
       end) /\
  (forall err holder sd x, r = Err err -> EfRenew holder sd (Some x) ∉ w_trace w ->
     EfRenew holder sd (Some x) ∈ w_trace w' ->
     forall g y, EfReplaceGrant g y ∉ w_trace w -> EfReplaceGrant g y ∉ w_trace w').
Proof.
  intros Heq. unfold ExtendGrant in Heq.
  destruct (op_Grants e); cbn [negb] in Heq; [|injection Heq as <- <-; by split].
  unfold on_store, now, gets, emit, modify, logEntry, mbind, state_bind, mret, state_ret in Heq.
  destruct (st_Grants (w_store w)) as [[grants|err] s] eqn:Hgs;
    [|injection Heq as <- <-; by split].
  cbn [w_clock w_ticks w_policy w_trace w_store] in Heq.
  destruct (find_first _ grants) as [g|] eqn:Hf; [|injection Heq as <- <-; by split].
  apply find_first_elem in Hf as [Hin Hid]. bool_prop.
  destruct (After _ _) eqn:Hlive; cbn [negb] in Heq; [|injection Heq as <- <-; by split].
  destruct (gr_revoke_pending g) eqn:Hrev; [injection Heq as <- <-; by split|].
  pose proof (extendPromise_terms (op_Identity e) g extra (MaxGrantTTL (w_policy w))
    (w_clock w (w_ticks w))) as Hspec.
  destruct (extendPromise _ _ _ _ _) as [[amended signed]|err]; [|injection Heq as <- <-; by split].
  destruct Hspec as (Hmin & Hmax & Ham & Hsig).
  destruct signed as [sd|].
  - destruct Hsig as [Hdel Hsign].
    destruct (op_renewDelegation e) as [renew|]; [|injection Heq as <- <-; by split].
    destruct (renew _ _) as [rerr|] eqn:Hren; cbn [fmap option_fmap option_map w_store w_trace] in Heq.
    + injection Heq as <- <-. split; [done|]. cbn [w_trace].
      intros err holder sd' x _ Hn Hi g' y Hr Hc. apply elem_of_app in Hc as [?|Hc]; [done|].
      by apply list_elem_of_singleton in Hc.
    + destruct (st_ReplaceGrant _ _) as [[err|] s2]; injection Heq as <- <-; cbn [w_trace].
      * split; [done|]. intros err' holder sd' x _ Hn Hi g' y Hr Hc.
        rewrite !elem_of_app, !list_elem_of_singleton in Hi.
        by destruct Hi as [[?|?]|?].
      * split; [|done]. intros g' [= <-]. eexists grants, g, _.
        split_and!; try done; [by apply After_spec|].
        exists [EfRenew (gr_delegate_fingerprint g) sd None].
        rewrite <- !app_assoc. split; [done|]. split_and!; eauto.
  - destruct (st_ReplaceGrant _ _) as [[err|] s2]; injection Heq as <- <-; cbn [w_trace].
    + split; [done|]. intros err' holder sd' x _ Hn Hi g' y Hr Hc.
      rewrite !elem_of_app, !list_elem_of_singleton in Hi. by destruct Hi as [?|?].
    + split; [|done]. intros g' [= <-]. eexists grants, g, _.
      split_and!; try done; [by apply After_spec|]. exists [].
      rewrite <- !app_assoc. done.
Qed.

(** ** Answering quietly *)

Definition quiet_for (requester : string) (t : time) (g : Grant) : Prop :=
  gr_delegated g = false /\ (gr_scope g)⇢gs_requester_instance_id = requester /\
  t < AsTime (gr_expires_at g).

Lemma quiet_fold requester t gs acc :
  let out := foldl (quiet_latest requester t) acc gs in
  acc <= out /\
  (forall g, g ∈ gs -> quiet_for requester t g -> AsTime (gr_expires_at g) <= out) /\
  (out = acc \/ exists g, g ∈ gs /\ quiet_for requester t g /\ out = AsTime (gr_expires_at g)).
Proof.
  revert acc. induction gs as [|g gs IH]; intros acc; cbn [foldl].
  { split_and!; [lia| |by left]. by intros g Hg%not_elem_of_nil. }
  set (acc' := quiet_latest requester t acc g).
  assert (acc <= acc' /\ (quiet_for requester t g -> AsTime (gr_expires_at g) <= acc') /\
    (acc' = acc \/ (quiet_for requester t g /\ acc' = AsTime (gr_expires_at g)))) as (Hle & Hq & Hor).
  { unfold acc', quiet_latest, quiet_for, After. clear acc' IH.
    destruct (gr_delegated g); [split_and!; [lia|by intros (? & _)|by left]|].
    case_bool_decide; [split_and!; [lia|by intros (_ & ? & _)|by left]|].
    cbn zeta. destruct (t <? _) eqn:Ht; cbn [negb]; bool_prop;
      [|split_and!; [lia|intros (_ & _ & ?); lia|by left]].
    destruct (acc <? _) eqn:Ha; bool_prop; (split_and!; [lia|lia|]); auto. }
  destruct (IH acc') as (Hle' & Hall & Hout). split_and!.
  - lia.
  - intros g' [->|Hin]%elem_of_cons Hg'; [|by apply Hall].
    specialize (Hq Hg'). lia.
  - destruct Hout as [->|(g' & Hin & Hg' & ->)].
    + destruct Hor as [->|[Hg ->]]; [by left|]. right. exists g. split; [left|done].
    + right. exists g'. split; [by right|done].
Qed.

(** Until when a request would be answered quietly: the latest end
    among the live promises kept here for that requester, handed-over ones
    left out, or never. *)
Theorem QuietUntil_spec requester w gs :
  op_Grants e = true -> requester <> emp -> (st_Grants (w_store w)).1 = Ok gs ->
  let t := w_clock w (w_ticks w) in
  let out := (QuietUntil e requester w).1 in
  (forall g, g ∈ gs -> quiet_for requester t g -> AsTime (gr_expires_at g) <= out) /\
  (out = zero_time \/
   exists g, g ∈ gs /\ quiet_for requester t g /\ out = AsTime (gr_expires_at g)).
Proof.
  intros Hop Hne Hgs. unfold QuietUntil. rewrite Hop. cbn [negb orb].
  rewrite bool_decide_eq_false_2 by done.
  unfold on_store, now, mbind, state_bind, mret, state_ret.
  destruct (st_Grants (w_store w)) as [r s]. cbn in Hgs. subst r. cbn [fst w_clock w_ticks].
  apply quiet_fold.
Qed.

(** ** A promise is kept *)

Section Kept.
Context `{!GrantStoreLaws S}.

(** Filing a use leaves the promises as they are. *)
Lemma recordOwnUse_held id msg w :
  map promise_of (st_held (w_store (recordOwnUse e id msg w).2)) = map promise_of (st_held (w_store w)).
Proof.
  unfold recordOwnUse. destruct (negb (op_GrantUses e)); [done|]. rewrite state_bind_unfold.
  assert (w_store (grantUse id msg w).2 = w_store w) as Hg by done. rewrite <- Hg.
  destruct (grantUse id msg w) as [use w1]. cbn [fst snd]. rewrite state_bind_unfold. unfold on_store.
  rewrite <- (st_RecordGrantUses_promises [use] (w_store w1)). by destruct (st_RecordGrantUses [use] (w_store w1)).
Qed.

Lemma createGrant_held msg ttl reach w g w1 :
  createGrant e msg ttl reach w = (Some g, w1) ->
  op_Grants e = true /\ promise_of g ∈ map promise_of (st_held (w_store w1)).
Proof.
  unfold createGrant. destruct (op_Grants e); cbn [negb]; [|done]. rewrite state_bind_unfold.
  set (t := (now w).1). assert (w_store (now w).2 = w_store w) as Hs1 by done. rewrite state_bind_unfold.
  destruct (new_request_id (now w).2) as [id w2] eqn:Hi. cbn [fst snd].
  assert (w_store w2 = w_store w) as Hs2 by (by injection Hi as <- <-). clear Hi.
  rewrite state_bind_unfold. set (grant := newGrant id msg ttl reach t).
  destruct (on_store (st_AddGrant grant) w2) as [err w2'] eqn:Hst. unfold on_store in Hst.
  destruct (st_AddGrant grant (w_store w2)) as [err' s] eqn:Hadd. injection Hst as -> Hst. cbn [fst snd]. rewrite state_bind_unfold.
  set (w3 := (emit (EfAddGrant grant err) w2').2). assert (w_store w3 = s) as Hs3 by (by subst w2'). clearbody w3.
  destruct err; [done|]. apply st_AddGrant_held in Hadd. rewrite state_bind_unfold.
  set (w4 := (logEntry _ w3).2). assert (w_store w4 = s) as Hs4 by done. clearbody w4. rewrite state_bind_unfold.
  intros [= <- <-]. split; [done|].
  assert (promise_of grant ∈ map promise_of (st_held (w_store w4))) as Hin.
  { rewrite Hs4, Hadd, map_app. apply elem_of_app. right. left. }
  unfold when. destruct (negb (rq_grant_only msg)); [|done]. by rewrite recordOwnUse_held.
Qed.

Lemma findGrant_is_Some grants msg t g :
  g ∈ grants -> t < AsTime (gr_expires_at g) -> covers (gr_scope g) msg = true ->
  is_Some (findGrant grants msg t).
Proof.
  intros Hin Ht Hc. destruct (findGrant grants msg t) eqn:Hf; [eauto|].
  unfold findGrant in Hf. apply find_first_None in Hf. rewrite Forall_forall in Hf.
  specialize (Hf _ Hin). cbn in Hf. rewrite Hc, andb_true_r in Hf.
  unfold After in Hf. bool_prop. lia.
Qed.

Lemma matchGrant_kept msg w g :
  op_Grants e = true -> promise_of g ∈ map promise_of (st_held (w_store w)) ->
  is_ok (st_Grants (w_store w)).1 = true ->
  st_now (w_store w) < AsTime (gr_expires_at g) ->
  w_clock w (w_ticks w) < AsTime (gr_expires_at g) ->
  covers (gr_scope g) msg = true -> is_Some (matchGrant e msg w).1.
Proof.
  intros Hop Hin Hok Hs Ht Hc. unfold matchGrant. rewrite Hop. cbn [negb].
  unfold on_store, now, mbind, state_bind, mret, state_ret.
  destruct (st_Grants (w_store w)) as [[gs|] s'] eqn:Hg; [|done].
  apply st_Grants_live in Hg as [-> _]. cbn [fst w_clock w_ticks].
  apply list_elem_of_fmap in Hin as (g' & Hp & Hin). unfold promise_of in Hp.
  injection Hp as Hid Hsc Hexp Hde.
  apply (findGrant_is_Some _ _ _ g'); rewrite <- ?Hexp, <- ?Hsc; try done.
  apply list_elem_of_In, filter_In. split; [by apply list_elem_of_In|].
  rewrite <- Hexp. by apply After_spec.
Qed.

Lemma answer_unasked_kept req policy eval w g :
  op_Grants e = true -> promise_of g ∈ map promise_of (st_held (w_store w)) ->
  is_ok (st_Grants (w_store w)).1 = true ->
  st_now (w_store w) < AsTime (gr_expires_at g) ->
  w_clock w (w_ticks w) < AsTime (gr_expires_at g) ->
  covers (gr_scope g) (q_Msg req) = true ->
  exists resp w', answer_unasked e req policy eval w = (Some resp, w') /\
    rs_decision resp = DECISION_APPROVE /\ rs_source resp <> SOURCE_USER.
Proof.
  intros Hop Hin Hok Hs Ht Hc. unfold answer_unasked. rewrite state_bind_unfold.
  pose proof (parkedBySession_same req w) as Hw.
  destruct (parkedBySession req w) as [b w1]. cbn [fst snd] in *. subst w1.
  destruct b; [rewrite state_bind_unfold; eexists _, _; split; [done|done]|].
  case_bool_decide; [rewrite state_bind_unfold; eexists _, _; split; [done|done]|].
  rewrite state_bind_unfold.
  destruct (matchGrant_kept (q_Msg req) w g) as [g' Hg']; try done.
  destruct (matchGrant e (q_Msg req) w) as [m w1]. cbn [fst snd] in *. subst m.
  rewrite !state_bind_unfold. eexists _, _. split; [done|done].
Qed.

(** A promise the store holds is kept, whatever store it is: a request it
    covers is approved while it runs, whatever anybody would have answered, as
    long as no hard rule, policy denial or insistence on asking stands in the
    way and the store can be read. *)
Lemma held_promise_approves g req policy v w :
  op_Grants e = true -> promise_of g ∈ map promise_of (st_held (w_store w)) ->
  covers (gr_scope g) (q_Msg req) = true ->
  is_ok (st_Grants (w_store w)).1 = true ->
  st_now (w_store w) < AsTime (gr_expires_at g) ->
  w_clock w (w_ticks w) < AsTime (gr_expires_at g) ->
  rq_kind (q_Msg req) <> KIND_OPAQUE_SIGN ->
  rq_grant_only (q_Msg req) = false -> mustPrompt (q_Msg req) = emp ->
  ev_Action (Evaluate policy (q_Msg req)) <> ACTION_DENY ->
  exists resp w', decide e req policy emp v w = ((resp, None, req), w') /\
    rs_decision resp = DECISION_APPROVE /\ rs_source resp <> SOURCE_USER.
Proof.
  intros Hop Hin Hc Hok Hs Ht Hk Hgo Hmust Hev.
  unfold decide. rewrite (bool_decide_eq_false_2 (rq_kind _ = _)) by done.
  rewrite (bool_decide_eq_false_2 (emp <> emp)) by auto. rewrite Hgo. cbn [andb].
  rewrite (bool_decide_eq_false_2 (ev_Action _ = _)) by done.
  rewrite state_bind_unfold, (bool_decide_eq_true_2 (mustPrompt _ = _)) by done.
  destruct (answer_unasked_kept req policy (Evaluate policy (q_Msg req)) w _ Hop Hin Hok Hs Ht Hc)
    as (resp & w' & -> & Hd & Hsrc).
  exists resp, w'. done.
Qed.

End Kept.

End EngineSpec.

(** ** A concrete instance *)

Import Toy.

Record toy_store := mk_toy_store {
  ts_grants : list Grant;
  ts_delegations : list Delegation;
  ts_endorsements : list Endorsement
}.

#[export] Instance toy_grant_store : GrantStore toy_store := {|
  st_Grants s := (Ok (ts_grants s), s);
  st_AddGrant g s :=
    (None, mk_toy_store (ts_grants s ++ [g]) (ts_delegations s) (ts_endorsements s));
  st_ReplaceGrant g s :=
    (None, mk_toy_store (map (fun x => if bool_decide (gr_grant_id x = gr_grant_id g) then g else x)
       (ts_grants s)) (ts_delegations s) (ts_endorsements s))
|}.
#[export] Instance toy_grant_uses : GrantUses toy_store := {| st_RecordGrantUses _ s := (None, s) |}.
#[export] Instance toy_delegation_store : DelegationStore toy_store := {|
  st_UsableDelegations s := (Ok (ts_delegations s), s);
  st_RecordDelegationUse _ s := (None, s) |}.
#[export] Instance toy_endorsement_store : EndorsementStore toy_store := {|
  st_UsableEndorsements s := (Ok (ts_endorsements s), s);
  st_RecordEndorsementUse _ s := (None, s) |}.

(** Codecs that answer one fixed body, for runs that never read one back. *)
Definition toy_any {M} : Codec M := {|
  Marshal _ := Ok [x01]; Unmarshal _ := Err (errors_New "not read") |}.
#[local] Instance any_request : Codec ApprovalRequest | 0 := toy_any.
#[local] Instance any_response : Codec ApprovalResponse | 0 := toy_any.
#[local] Instance any_delegation : Codec Delegation | 0 := toy_any.
#[local] Instance any_endorsement : Codec Endorsement | 0 := toy_any.

#[export] Instance toy_local : LocalTime := fun _ => "now"%string.

Definition toy_options : @Options Toy.ssh :=
  mk_Options toy_identity true true true (Some (fun _ => Ok toy_key)) true true None true.

(** A git signature asked for by [box], over a key with fingerprint [SHA256:k]. *)
Definition toy_msg (grant_only : bool) : ApprovalRequest :=
  mk_ApprovalRequest "r1" (Some 0) (Some (mk_RequesterInfo "SHA256:box" "box" false false emp None))
    KIND_GIT_SIGN (Some (mk_KeyRef "SHA256:k" "toy" [] emp emp None)) None 0 emp [] grant_only None None
    (OpSshsig (mk_SshsigRequest "git" "sha512" (sha512 demo_object)
      (Some (demo_git demo_object None)))).

Definition toy_request (grant_only : bool) (origin : Origin) : Request :=
  mk_Request (toy_msg grant_only) (RenderPrompt (toy_msg grant_only)) [] Hour emp "box" origin [] [].

Definition toy_grant : Grant :=
  newGrant "g1" (toy_msg false) Hour GrantReachMachine 0.

Definition toy_world (grants : list Grant) : world :=
  mk_world (mk_toy_store grants [] []) DefaultPolicy [desk; phone] false (fun n => Z.of_nat n) 0
    (fun n => of_string "0123456789") 0 [].

Definition for_an_hour : Answer :=
  mk_Answer DECISION_APPROVE emp Hour GrantReachSession None SOURCE_UNSPECIFIED None.

Lemma grant_request_is_no_use_witness :
  exists l, w_trace (decide toy_options (toy_request true OriginLocal) DefaultPolicy emp
      (Answered desk (Some for_an_hour)) (toy_world [])).2 = l /\ Forall no_use l.
Proof.
  apply (grant_request_is_no_use toy_options (toy_request true OriginLocal) DefaultPolicy emp
    (Answered desk (Some for_an_hour)) (toy_world [])).
  reflexivity.
Defined.

Lemma hard_rules_witness :
  let '((resp, remote, req'), w') := decide toy_options (toy_request true OriginPeer) DefaultPolicy
    emp (Answered desk (Some for_an_hour)) (toy_world []) in
  rs_decision resp = DECISION_DENY /\ rs_grant resp = None /\ rs_delegation resp = None /\
  rs_endorsement resp = None /\ remote = None /\ req' = toy_request true OriginPeer /\
  w' = toy_world [].
Proof.
  apply (hard_rules toy_options (toy_request true OriginPeer) DefaultPolicy emp
    (Answered desk (Some for_an_hour)) (toy_world [])).
  right. right. left. split; [reflexivity|discriminate].
Defined.

Definition toy_decided (grants : list Grant) (origin : Origin) :=
  decide toy_options (toy_request false origin) DefaultPolicy emp
    (Answered desk (Some for_an_hour)) (toy_world grants).

Lemma approval_provenance_witness :
  (mustPrompt (toy_msg false) = emp /\
     unasked_reason toy_options (toy_request false OriginPeerSigning) DefaultPolicy (toy_world [toy_grant])) \/
  (exists h an, Answered desk (Some for_an_hour) = Answered h (Some an) /\
     an_Decision an = DECISION_APPROVE /\ (false = true -> 0 < an_GrantTTL an) /\
     eligible (w_handlers (toy_world [toy_grant])) (w_softLocked (toy_world [toy_grant])) OriginPeerSigning <> []).
Proof.
  apply (approval_provenance toy_options (toy_request false OriginPeerSigning) DefaultPolicy emp
    (Answered desk (Some for_an_hour)) (toy_world [toy_grant])
    (toy_decided [toy_grant] OriginPeerSigning).1.1.1
    (toy_decided [toy_grant] OriginPeerSigning).1.1.2
    (toy_decided [toy_grant] OriginPeerSigning).1.2
    (toy_decided [toy_grant] OriginPeerSigning).2).
  - destruct (toy_decided [toy_grant] OriginPeerSigning) as [[[r rem] q] w'] eqn:E.
    exact E.
  - vm_compute. reflexivity.
Defined.

Definition toy_submitted :=
  submit toy_options (Some (toy_msg false)) (Some (of_string "body")) OriginPeer
    (Answered desk (Some for_an_hour)) None (toy_world []).

#[local] Strategy expand [toy_submitted].

(** The submission is approved, signed, and hands over a promise. *)
Example toy_submitted_approved :
  match toy_submitted.1 with
  | Ok (resp, Some _) => rs_decision resp = DECISION_APPROVE /\ is_Some (rs_delegation resp)
  | _ => False
  end.
Proof. vm_compute. split; [reflexivity|eauto]. Qed.

Lemma is_some_true {A} (o : option A) :
  (match o with Some _ => true | None => false end) = true -> is_Some o.
Proof. destruct o; [eauto|done]. Qed.

(** The parts of a run that ended well. *)
Definition run_resp {W} (x : result (ApprovalResponse * option SignedApproval) * W) :=
  match x.1 with Ok (resp, _) => resp | Err _ => deny SOURCE_ERROR emp end.
Definition run_signed {W} (x : result (ApprovalResponse * option SignedApproval) * W) :=
  match x.1 with Ok (_, s) => s | Err _ => None end.
Lemma run_ok {W} (x : result (ApprovalResponse * option SignedApproval) * W) :
  is_ok x.1 = true -> x = (Ok (run_resp x, run_signed x), x.2).
Proof. by destruct x as [[[]|] ?]. Qed.

Definition toy_response : ApprovalResponse := run_resp toy_submitted.
Definition toy_signed : option SignedApproval := run_signed toy_submitted.

Lemma submit_accounted_witness :
  exists display remote warnings mid,
    let msg' := prepared (toy_world []) (toy_msg false) in
    Marshal msg' = Ok display /\
    w_trace toy_submitted.2 = [] ++ [EfAudit (entry_request msg')] ++ mid ++
      [EfAudit (entry_decision msg' toy_response toy_signed remote (Text (add_warnings warnings (RenderPrompt msg'))) None)].
Proof.
  destruct (submit_accounted toy_options (toy_msg false) (Some (of_string "body")) OriginPeer
    (Answered desk (Some for_an_hour)) None (toy_world []) toy_response toy_signed
    toy_submitted.2) as (display & remote & warnings & mid & _ & Hm & Ht & _).
  - refine (run_ok toy_submitted _). vm_compute. reflexivity.
  - exists display, remote, warnings, mid. split; [exact Hm|exact Ht].
Defined.

Definition toy_answered :=
  answerToResponse toy_options (toy_request false OriginPeer) desk (Some for_an_hour) (toy_world []).

#[local] Strategy expand [toy_answered].

Lemma promises_follow_the_key_witness :
  is_Some (rs_delegation toy_answered.1.1) /\
  exists an, Some for_an_hour = Some an /\ 0 < an_GrantTTL an.
Proof.
  split; [refine (is_some_true _ _); vm_compute; reflexivity|].
  apply (promises_follow_the_key toy_options (toy_request false OriginPeer) desk
    (Some for_an_hour) (toy_world []) toy_answered.1.1 toy_answered.1.2 toy_answered.2).
  - refine (_ : toy_answered = _). destruct toy_answered as [[r rem] w']. reflexivity.
  - right. left. refine (is_some_true _ _). vm_compute. reflexivity.
Defined.

Definition toy_extended := ExtendGrant toy_options "g1" (2 * Hour) (toy_world [toy_grant]).

#[local] Strategy expand [toy_extended].

Lemma ExtendGrant_spec_witness :
  exists g', toy_extended.1 = Ok g' /\ Minute <= 2 * Hour /\
    exists t, g' = extendedGrant toy_grant (2 * Hour) t.
Proof.
  destruct (ExtendGrant_spec toy_options "g1" (2 * Hour) (toy_world [toy_grant])
    toy_extended.1 toy_extended.2) as [Hok _].
  - refine (_ : toy_extended = _). destruct toy_extended as [r w']. reflexivity.
  - destruct toy_extended.1 as [g'|err] eqn:E.
    + exists g'. split; [reflexivity|].
      destruct (Hok g' eq_refl) as (gs & g & t & Hgs & Hin & _ & _ & _ & Hmin & _ & Hg & _).
      split; [exact Hmin|]. exists t.
      assert (Hq : [toy_grant] = gs)
        by exact (f_equal (fun r => match r with Ok x => x | Err _ => [] end) Hgs).
      subst gs.
      apply list_elem_of_singleton in Hin. subst g. exact Hg.
    + exfalso. assert (match toy_extended.1 with Ok _ => True | Err _ => False end) as Hx
        by (vm_compute; exact I). rewrite E in Hx. exact Hx.
Defined.

Lemma QuietUntil_spec_witness :
  AsTime (gr_expires_at toy_grant) <=
    (QuietUntil toy_options "SHA256:box" (toy_world [toy_grant])).1.
Proof.
  apply (QuietUntil_spec toy_options "SHA256:box" (toy_world [toy_grant]) [toy_grant]).
  - reflexivity.
  - discriminate.
  - reflexivity.
  - left.
  - split; [reflexivity|]. split; [reflexivity|]. vm_compute. reflexivity.
Defined.
