(* ===== verification/Vault.v ===== *)
(** * Vault: the promises the store keeps

    [pkg/keystore/delegations.go], [endorsements.go] and the grants of
    [vault.go]: grants this instance made, delegations and endorsements it was
    given, retractions, and the ledgers of what each covered.  The store
    implements the interfaces of [Engine] at the end of the file.

    A vault here is the part of the document those operations read and write,
    with two streams for what they take from outside: what each reading of
    the clock answers, and what each [save] of the encrypted document comes
    to.  A failed [save] leaves the change in memory, as in the source. *)

From S2P Require Import Prelude.
From S2P Require Import GoText.
From S2P Require Import Proto.
From S2P Require Import Engine.

Local Open Scope Z_scope.

Record vault := mk_vault {
  v_grants : list Grant;
  v_held_delegations : list HeldDelegation;
  v_held_endorsements : list HeldEndorsement;
  v_retractions : list HeldRetraction;
  v_peers : list TrustRecord;    (** what [v.Peers()] answers *)
  v_keys : list string;          (** the fingerprints of [v.Keys()] *)
  v_clock : nat -> time;
  v_ticks : nat;
  v_disk : nat -> option error;
  v_writes : nat
}.

Definition set_grants (l : list Grant) (v : vault) : vault :=
  mk_vault l (v_held_delegations v) (v_held_endorsements v) (v_retractions v) (v_peers v)
    (v_keys v) (v_clock v) (v_ticks v) (v_disk v) (v_writes v).
Definition set_held_delegations (l : list HeldDelegation) (v : vault) : vault :=
  mk_vault (v_grants v) l (v_held_endorsements v) (v_retractions v) (v_peers v)
    (v_keys v) (v_clock v) (v_ticks v) (v_disk v) (v_writes v).
Definition set_held_endorsements (l : list HeldEndorsement) (v : vault) : vault :=
  mk_vault (v_grants v) (v_held_delegations v) l (v_retractions v) (v_peers v)
    (v_keys v) (v_clock v) (v_ticks v) (v_disk v) (v_writes v).
Definition set_retractions (l : list HeldRetraction) (v : vault) : vault :=
  mk_vault (v_grants v) (v_held_delegations v) (v_held_endorsements v) l (v_peers v)
    (v_keys v) (v_clock v) (v_ticks v) (v_disk v) (v_writes v).

(** [time.Now()]. *)
Definition Now : state vault time := fun v =>
  (v_clock v (v_ticks v),
   mk_vault (v_grants v) (v_held_delegations v) (v_held_endorsements v) (v_retractions v)
     (v_peers v) (v_keys v) (v_clock v) (S (v_ticks v)) (v_disk v) (v_writes v)).

Definition save : state vault (option error) := fun v =>
  (v_disk v (v_writes v),
   mk_vault (v_grants v) (v_held_delegations v) (v_held_endorsements v) (v_retractions v)
     (v_peers v) (v_keys v) (v_clock v) (v_ticks v) (v_disk v) (S (v_writes v))).

Definition ErrNoSuchGrant : error :=
  sentinel "keystore.ErrNoSuchGrant" "keystore: no live grant with that id".
Definition ErrRetracted : error :=
  sentinel "keystore.ErrRetracted" "keystore: the endorsement has been retracted".

Definition maxUnreportedUses : nat := 256.
Definition maxRecentUses : nat := 64.

(** The last [n] of a list: [l[len(l)-n:]] when it is longer. *)
Definition last_n {A} (n : nat) (l : list A) : list A := drop (length l - n) l.

(** ** Grants *)

Definition Grants : state vault (result (list Grant)) :=
  now ← Now;
  grants ← gets v_grants;
  let live := List.filter (fun g => After (AsTime (gr_expires_at g)) now) grants in
  let changed := existsb (fun g => negb (After (AsTime (gr_expires_at g)) now)) grants in
  if changed
  then
    _ ← modify (set_grants live);
    err ← save;
    match err with Some e => mret (Err e) | None => mret (Ok live) end
  else mret (Ok live).

Definition AddGrant (g : Grant) : state vault (option error) :=
  grants ← gets v_grants;
  _ ← modify (set_grants (grants ++ [g]));
  save.

Definition revoke (id : string) : state vault (result bool) :=
  grants ← gets v_grants;
  let found := existsb (fun g => bool_decide (gr_grant_id g = id)) grants in
  _ ← modify (set_grants (List.filter (fun g => bool_decide (gr_grant_id g <> id)) grants));
  err ← save;
  match err with Some e => mret (Err e) | None => mret (Ok found) end.

Definition RevokeGrant (id : string) : state vault (option error) :=
  r ← revoke id;
  match r with Err e => mret (Some e) | Ok _ => mret None end.

Definition no_such_grant (id : string) : error := wrap_w emp ErrNoSuchGrant (": " +:+ id).

Definition RevokeLiveGrant (id : string) : state vault (option error) :=
  r ← revoke id;
  match r with
  | Err e => mret (Some e)
  | Ok found => if (found : bool) then mret None else mret (Some (no_such_grant id))
  end.

Definition LiveGrant (id : string) : state vault (result Grant) :=
  now ← Now;
  grants ← gets v_grants;
  match find_first (fun g => bool_decide (gr_grant_id g = id)) grants with
  | Some g =>
    if negb (After (AsTime (gr_expires_at g)) now) then mret (Err (no_such_grant id))
    else mret (Ok g)
  | None => mret (Err (no_such_grant id))
  end.

(** Rewrite the first element a test accepts; [None] when there is none. *)
Fixpoint update_first {A} (p : A -> bool) (f : A -> A) (l : list A) : option (list A) :=
  match l with
  | [] => None
  | x :: l' => if p x then Some (f x :: l') else cons x <$> update_first p f l'
  end.

Definition has_grant_id (id : string) (g : Grant) : bool := bool_decide (gr_grant_id g = id).

Definition ReplaceGrant (g : Grant) : state vault (option error) :=
  grants ← gets v_grants;
  match update_first (has_grant_id (gr_grant_id g))
          (fun existing => set_grant_uses (gr_use_count existing) (gr_recent_uses existing) g)
          grants with
  | Some grants => _ ← modify (set_grants grants); save
  | None => mret (Some (no_such_grant (gr_grant_id g)))
  end.

Definition MarkRevokePending (id : string) (at_ : time) : state vault (option error) :=
  grants ← gets v_grants;
  match find_first (has_grant_id id) grants with
  | None => mret (Some (no_such_grant id))
  | Some g =>
    if gr_revoke_pending g then mret None
    else
      _ ← modify (set_grants
            (default grants (update_first (has_grant_id id) (set_grant_revoke (Some at_)) grants)));
      save
  end.

Definition PendingRevocations (fingerprint : string) : state vault (list string) :=
  gets (fun v => map gr_grant_id (List.filter (fun g =>
    gr_revoke_pending g && gr_delegated g &&
    bool_decide (gr_delegate_fingerprint g = fingerprint)) (v_grants v))).

(** *** The ledger of a grant *)

Definition hasUse (uses : list GrantUse) (requestID : string) : bool :=
  existsb (fun u => bool_decide (gu_request_id u = requestID)) uses.

(** One use filed against the grant that allowed it. *)
Definition file_use (g : Grant) (use : GrantUse) : Grant :=
  if hasUse (gr_recent_uses g) (gu_request_id use) then g
  else set_grant_uses (u32 (gr_use_count g + 1))
         (last_n maxRecentUses (gr_recent_uses g ++ [use])) g.

(** The turn of the outer loop for one use: the grants after it, and whether
    anything changed. *)
Definition record_use (acc : list Grant * bool) (use : GrantUse) : list Grant * bool :=
  let '(grants, changed) := acc in
  match find_first (has_grant_id (gu_grant_id use)) grants with
  | None => (grants, changed)
  | Some g =>
    if hasUse (gr_recent_uses g) (gu_request_id use) then (grants, changed)
    else (default grants (update_first (has_grant_id (gu_grant_id use)) (fun g => file_use g use)
            grants), true)
  end.

Definition RecordGrantUses (uses : list GrantUse) : state vault (option error) :=
  match uses with
  | [] => mret None
  | _ :: _ =>
    grants ← gets v_grants;
    let '(grants, changed) := foldl record_use (grants, false) uses in
    if (changed : bool) then _ ← modify (set_grants grants); save else mret None
  end.

(** *** Where an endorsed grant was announced *)

Definition NoteEndorsementReach (grantID : string) (told unreached : list string)
    : state vault (option error) :=
  grants ← gets v_grants;
  match update_first (has_grant_id grantID)
          (fun g => set_grant_reach told unreached (set_grant_endorsed g)) grants with
  | Some grants => _ ← modify (set_grants grants); save
  | None => mret None
  end.

(** ** Who may approve, and which keys are here *)

Definition is_approver (v : vault) (fingerprint : string) : bool :=
  existsb (fun r => tr_may_approve r && bool_decide (tr_fingerprint r = fingerprint)) (v_peers v).

Definition HoldsKey (v : vault) (fingerprint : string) : bool :=
  if bool_decide (fingerprint = emp) then false
  else existsb (fun k => bool_decide (k = fingerprint)) (v_keys v).

(** ** Delegations this instance was given *)

Definition liveDelegations (all : list HeldDelegation) (now : time) : list HeldDelegation * bool :=
  let live h := After (AsTime (kd_delegation h)⇢dl_expires_at) now in
  (List.filter live all, existsb (fun h => negb (live h)) all).

Definition Delegations : state vault (result (list HeldDelegation)) :=
  now ← Now;
  all ← gets v_held_delegations;
  let '(live, changed) := liveDelegations all now in
  if (changed : bool)
  then
    _ ← modify (set_held_delegations live);
    err ← save;
    match err with Some e => mret (Err e) | None => mret (Ok live) end
  else mret (Ok live).

(** A nil delegation in the list would be handed to the engine as nil; the
    store never holds one. *)
Definition UsableDelegations : state vault (result (list Delegation)) :=
  held ← Delegations;
  match held with
  | Err e => mret (Err e)
  | Ok held =>
    approves ← gets is_approver;
    mret (Ok (omap kd_delegation (List.filter (fun h =>
      approves (kd_delegation h)⇢dl_approver_fingerprint) held)))
  end.

Definition has_delegation_id (id : string) (h : HeldDelegation) : bool :=
  bool_decide ((kd_delegation h)⇢dl_delegation_id = id).

Definition AddDelegation (signed : option SignedDelegation) (d : Delegation)
    : state vault (option error) :=
  now ← Now;
  all ← gets v_held_delegations;
  let same := has_delegation_id (dl_delegation_id d) in
  let held := foldl (fun held existing =>
      if same existing
      then mk_HeldDelegation (kd_signed held) (kd_delegation held) (kd_received_at held)
             (kd_unreported_uses existing) (kd_use_count existing)
      else held) (mk_HeldDelegation signed (Some d) (Some now) [] 0) all in
  _ ← modify (set_held_delegations (List.filter (fun h => negb (same h)) all ++ [held]));
  save.

(** The shape of every [Drop...]: forget what a test accepts and count it. *)
Definition DropDelegations_if (drop_ : HeldDelegation -> bool) : state vault (result Z) :=
  all ← gets v_held_delegations;
  let dropped := Z.of_nat (length (List.filter drop_ all)) in
  if dropped =? 0 then mret (Ok 0)
  else
    _ ← modify (set_held_delegations (List.filter (fun h => negb (drop_ h)) all));
    err ← save;
    match err with Some e => mret (Err e) | None => mret (Ok dropped) end.

Definition DropDelegations (ids : list string) : state vault (result Z) :=
  match ids with
  | [] => mret (Ok 0)
  | _ :: _ => DropDelegations_if (fun h => bool_decide ((kd_delegation h)⇢dl_delegation_id ∈ ids))
  end.

Definition DropDelegationsFrom (approverFingerprint : string) : state vault (result Z) :=
  DropDelegations_if (fun h =>
    bool_decide ((kd_delegation h)⇢dl_approver_fingerprint = approverFingerprint)).

Section Uses.
Context `{Unicode}.

Definition count_delegation_use (use : GrantUse) (h : HeldDelegation) : HeldDelegation :=
  mk_HeldDelegation (kd_signed h) (kd_delegation h) (kd_received_at h)
    (last_n maxUnreportedUses (kd_unreported_uses h ++ [use])) (u32 (kd_use_count h + 1)).

Definition RecordDelegationUse (use : GrantUse) : state vault (option error) :=
  all ← gets v_held_delegations;
  match update_first (has_delegation_id (gu_grant_id use)) (count_delegation_use use) all with
  | Some all => _ ← modify (set_held_delegations all); save
  | None => mret (Some (errors_New ("no delegation " +:+ quote (gu_grant_id use) +:+
      " to record a use against")))
  end.

End Uses.

Definition UnreportedUses (approverFingerprint : string) : state vault (list GrantUse) :=
  gets (fun v => concat (map kd_unreported_uses (List.filter (fun h =>
    bool_decide (approverFingerprint = emp) ||
    bool_decide ((kd_delegation h)⇢dl_approver_fingerprint = approverFingerprint))
    (v_held_delegations v)))).

Definition drop_acknowledged (ids : list string) (uses : list GrantUse) : list GrantUse :=
  List.filter (fun u => negb (bool_decide (gu_request_id u ∈ ids))) uses.

Definition AcknowledgeUses (requestIDs : list string) : state vault (option error) :=
  match requestIDs with
  | [] => mret None
  | _ :: _ =>
    all ← gets v_held_delegations;
    let changed := existsb (fun h =>
      existsb (fun u => bool_decide (gu_request_id u ∈ requestIDs)) (kd_unreported_uses h)) all in
    _ ← modify (set_held_delegations (map (fun h =>
          mk_HeldDelegation (kd_signed h) (kd_delegation h) (kd_received_at h)
            (drop_acknowledged requestIDs (kd_unreported_uses h)) (kd_use_count h)) all));
    if changed then save else mret None
  end.

(** ** Endorsements and retractions *)

Definition retractionCovers (r : option Retraction) (e : option Endorsement) : bool :=
  if bool_decide (r⇢rt_key_fingerprint <> e⇢en_key_fingerprint) then false
  else if bool_decide (r⇢rt_endorsement_id <> emp)
  then bool_decide (r⇢rt_endorsement_id = e⇢en_endorsement_id)
  else
    match r⇢rt_issued_before with
    | None => false
    | Some before => negb (After (AsTime e⇢en_created_at) before)
    end.

(** [retractions.covers]. *)
Definition retractions_cover (rs : list (option Retraction)) (e : option Endorsement) : bool :=
  existsb (fun r => retractionCovers r e) rs.

Definition remembered (now : time) (h : HeldRetraction) : bool :=
  After (AsTime (kr_retraction h)⇢rt_remember_until) now.

Definition retractionIndex : state vault (list (option Retraction)) :=
  now ← Now;
  all ← gets v_retractions;
  mret (map kr_retraction (List.filter (remembered now) all)).

Definition liveEndorsements (all : list HeldEndorsement) (now : time)
    : list HeldEndorsement * bool :=
  let live h := After (AsTime (ke_endorsement h)⇢en_expires_at) now in
  (List.filter live all, existsb (fun h => negb (live h)) all).

Definition Endorsements : state vault (result (list HeldEndorsement)) :=
  now ← Now;
  all ← gets v_held_endorsements;
  let '(live, changed) := liveEndorsements all now in
  if (changed : bool)
  then
    _ ← modify (set_held_endorsements live);
    err ← save;
    match err with Some e => mret (Err e) | None => mret (Ok live) end
  else mret (Ok live).

Definition usable_endorsement (v : vault) (rs : list (option Retraction)) (h : HeldEndorsement)
    : bool :=
  let e := ke_endorsement h in
  HoldsKey v e⇢en_key_fingerprint && is_approver v e⇢en_issuer_fingerprint
  && negb (retractions_cover rs e).

Definition UsableEndorsements : state vault (result (list Endorsement)) :=
  held ← Endorsements;
  match held with
  | Err e => mret (Err e)
  | Ok held =>
    retracted ← retractionIndex;
    usable ← gets usable_endorsement;
    mret (Ok (omap ke_endorsement (List.filter (usable retracted) held)))
  end.

Definition InertBecause (e : option Endorsement) : state vault string :=
  holds ← gets HoldsKey;
  if negb (holds e⇢en_key_fingerprint) then mret "this instance does not hold that key"%string
  else
    retracted ← retractionIndex;
    if retractions_cover retracted e then mret "it has been retracted"%string
    else
      peers ← gets v_peers;
      match find_first (fun r => bool_decide (tr_fingerprint r = e⇢en_issuer_fingerprint)) peers with
      | None => mret "the machine that issued it is not paired with this one"%string
      | Some record =>
        if negb (tr_may_approve record)
        then mret "the machine that issued it does not approve for this one"%string
        else mret emp
      end.

Definition has_endorsement_id (id : string) (h : HeldEndorsement) : bool :=
  bool_decide ((ke_endorsement h)⇢en_endorsement_id = id).

Definition AddEndorsement (signed : option SignedEndorsement) (e : Endorsement) (published : bool)
    : state vault (option error) :=
  index ← retractionIndex;
  if retractions_cover index (Some e)
  then mret (Some (wrap_w emp ErrRetracted (": " +:+ en_endorsement_id e)))
  else
    now ← Now;
    all ← gets v_held_endorsements;
    let same := has_endorsement_id (en_endorsement_id e) in
    let held := foldl (fun held existing =>
        if same existing
        then mk_HeldEndorsement (ke_signed held) (ke_endorsement held) (ke_received_at held)
               (ke_published held || ke_published existing)
               (ke_unreported_uses existing) (ke_use_count existing)
        else held) (mk_HeldEndorsement signed (Some e) (Some now) published [] 0) all in
    _ ← modify (set_held_endorsements (List.filter (fun h => negb (same h)) all ++ [held]));
    save.

Definition dropEndorsements (match_ : option Endorsement -> bool) : state vault (result Z) :=
  all ← gets v_held_endorsements;
  let dropped := Z.of_nat (length (List.filter (fun h => match_ (ke_endorsement h)) all)) in
  if dropped =? 0 then mret (Ok 0)
  else
    _ ← modify (set_held_endorsements (List.filter (fun h => negb (match_ (ke_endorsement h))) all));
    err ← save;
    match err with Some e => mret (Err e) | None => mret (Ok dropped) end.

Definition DropEndorsementsFrom (issuer : string) : state vault (result Z) :=
  dropEndorsements (fun e => bool_decide (e⇢en_issuer_fingerprint = issuer)).
Definition DropEndorsementsAbout (requester : string) : state vault (result Z) :=
  dropEndorsements (fun e => bool_decide (e⇢en_requester_fingerprint = requester)).
Definition DropEndorsementsForKey (fingerprint : string) : state vault (result Z) :=
  dropEndorsements (fun e => bool_decide (e⇢en_key_fingerprint = fingerprint)).

Section EndorsementUses.
Context `{Unicode}.

Definition count_endorsement_use (use : GrantUse) (h : HeldEndorsement) : HeldEndorsement :=
  mk_HeldEndorsement (ke_signed h) (ke_endorsement h) (ke_received_at h) (ke_published h)
    (last_n maxUnreportedUses (ke_unreported_uses h ++ [use])) (u32 (ke_use_count h + 1)).

Definition RecordEndorsementUse (use : GrantUse) : state vault (option error) :=
  all ← gets v_held_endorsements;
  match update_first (has_endorsement_id (gu_grant_id use)) (count_endorsement_use use) all with
  | Some all => _ ← modify (set_held_endorsements all); save
  | None => mret (Some (errors_New ("no endorsement " +:+ quote (gu_grant_id use) +:+
      " to record a use against")))
  end.

End EndorsementUses.

Definition UnreportedEndorsementUses (issuerFingerprint : string) : state vault (list GrantUse) :=
  gets (fun v => concat (map ke_unreported_uses (List.filter (fun h =>
    bool_decide ((ke_endorsement h)⇢en_issuer_fingerprint = issuerFingerprint))
    (v_held_endorsements v)))).

Definition AcknowledgeEndorsementUses (requestIDs : list string) : state vault (option error) :=
  match requestIDs with
  | [] => mret None
  | _ :: _ =>
    all ← gets v_held_endorsements;
    let changed := existsb (fun h =>
      existsb (fun u => bool_decide (gu_request_id u ∈ requestIDs)) (ke_unreported_uses h)) all in
    _ ← modify (set_held_endorsements (map (fun h =>
          mk_HeldEndorsement (ke_signed h) (ke_endorsement h) (ke_received_at h) (ke_published h)
            (drop_acknowledged requestIDs (ke_unreported_uses h)) (ke_use_count h)) all));
    if changed then save else mret None
  end.

Definition Retractions : state vault (result (list HeldRetraction)) :=
  now ← Now;
  all ← gets v_retractions;
  let live := List.filter (remembered now) all in
  if existsb (fun h => negb (remembered now h)) all
  then
    _ ← modify (set_retractions live);
    err ← save;
    match err with Some e => mret (Err e) | None => mret (Ok live) end
  else mret (Ok live).

(** Whether it was news, and what saving it came to. *)
Definition AddRetraction (signed : option SignedRetraction) (r : Retraction)
    : state vault (bool * option error) :=
  all ← gets v_retractions;
  if existsb (fun h =>
       bool_decide ((kr_retraction h)⇢rt_retraction_id = rt_retraction_id r)) all
  then mret (false, None)
  else
    now ← Now;
    _ ← modify (set_retractions (all ++ [mk_HeldRetraction signed (Some r) (Some now) []]));
    held ← gets v_held_endorsements;
    _ ← modify (set_held_endorsements
          (List.filter (fun h => negb (retractionCovers (Some r) (ke_endorsement h))) held));
    err ← save;
    mret (true, err).

Definition RetractionsForKey (keyFingerprint : string) : state vault (list (option SignedRetraction)) :=
  held ← Retractions;
  match held with
  | Err _ => mret []
  | Ok held =>
    mret (map kr_signed (List.filter (fun h =>
      bool_decide ((kr_retraction h)⇢rt_key_fingerprint = keyFingerprint)) held))
  end.

Definition NoteGossiped (retractionID peerFingerprint : string) : state vault (option error) :=
  all ← gets v_retractions;
  let this := fun h => bool_decide ((kr_retraction h)⇢rt_retraction_id = retractionID) in
  match find_first this all with
  | None => mret None
  | Some h =>
    if bool_decide (peerFingerprint ∈ kr_gossiped_to h) then mret None
    else
      _ ← modify (set_retractions (default all (update_first this (fun h =>
            mk_HeldRetraction (kr_signed h) (kr_retraction h) (kr_received_at h)
              (kr_gossiped_to h ++ [peerFingerprint])) all)));
      save
  end.

(** ** The vault implements the engine's interfaces *)

#[export] Instance vault_grants : GrantStore vault := {|
  st_Grants := Grants; st_AddGrant := AddGrant; st_ReplaceGrant := ReplaceGrant |}.
#[export] Instance vault_grant_uses : GrantUses vault := {|
  st_RecordGrantUses := RecordGrantUses |}.
#[export] Instance vault_delegations `{Unicode} : DelegationStore vault := {|
  st_UsableDelegations := UsableDelegations; st_RecordDelegationUse := RecordDelegationUse |}.
#[export] Instance vault_endorsements `{Unicode} : EndorsementStore vault := {|
  st_UsableEndorsements := UsableEndorsements;
  st_RecordEndorsementUse := RecordEndorsementUse |}.
