(* ===== verification/VaultSpec.v ===== *)
(** * VaultSpec: what the store of promises guarantees

    The theorems about [Vault]: it keeps the promises the engine relies on
    ([GrantStoreLaws]), a retraction that was taken in is final for as long as
    it is remembered, a revoked grant is gone, what is usable is exactly what
    is live, held and asserted by an approver, and the ledgers stay within
    their bounds and count nothing twice. *)

From S2P Require Import Prelude.
From S2P Require Import GoText.
From S2P Require Import Proto.
From S2P Require Import Ssh.
From S2P Require Import Wire.
From S2P Require Import Identity.
From S2P Require Import GitObject.
From S2P Require Import Asker.
From S2P Require Import Policy.
From S2P Require Import Prompt.
From S2P Require Import Grants.
From S2P Require Import Inflight.
From S2P Require Import Engine.
From S2P Require Import EngineSpec.
From S2P Require Import Vault.

Local Open Scope Z_scope.

(** Run the operations of a goal one after the other. *)
Ltac vault_run :=
  repeat (rewrite ?state_bind_unfold;
    cbn [Now save gets modify mret state_ret fst snd
         set_grants set_held_delegations set_held_endorsements set_retractions
         v_grants v_held_delegations v_held_endorsements v_retractions v_peers v_keys
         v_clock v_ticks v_disk v_writes]).

(** ** Rewriting the first of a list *)

Section UpdateFirst.
Context {A B : Type} (p : A -> bool) (f : A -> A).

Lemma update_first_Some l l' :
  update_first p f l = Some l' ->
  exists l1 x l2, l = l1 ++ x :: l2 /\ Forall (fun y => p y = false) l1 /\ p x = true /\
    l' = l1 ++ f x :: l2.
Proof.
  revert l'. induction l as [|y l IH]; intros l'; cbn; [done|].
  destruct (p y) eqn:Hy.
  - intros [= <-]. by exists [], y, l.
  - intros (l'' & Heq & ->)%fmap_Some. destruct (IH _ Heq) as (l1 & x & l2 & -> & Hf & Hx & ->).
    exists (y :: l1), x, l2. split_and!; [done|by constructor|done|done].
Qed.

Lemma update_first_map (h : A -> B) l l' :
  (forall x, h (f x) = h x) -> update_first p f l = Some l' -> map h l' = map h l.
Proof.
  intros Hh (l1 & x & l2 & -> & _ & _ & ->)%update_first_Some.
  rewrite !map_app. cbn. by rewrite Hh.
Qed.

Lemma update_first_Forall (P : A -> Prop) l l' :
  (forall x, P x -> P (f x)) -> update_first p f l = Some l' -> Forall P l -> Forall P l'.
Proof.
  intros Hf (l1 & x & l2 & -> & _ & _ & ->)%update_first_Some.
  rewrite !Forall_app, !Forall_cons. naive_solver.
Qed.

Lemma update_first_default_Forall (P : A -> Prop) l :
  (forall x, P x -> P (f x)) -> Forall P l -> Forall P (default l (update_first p f l)).
Proof.
  intros Hf Hl. destruct (update_first p f l) eqn:E; [|done]. cbn.
  by eapply update_first_Forall.
Qed.

Lemma update_first_default_map (h : A -> B) l :
  (forall x, h (f x) = h x) -> map h (default l (update_first p f l)) = map h l.
Proof.
  intros Hh. destruct (update_first p f l) eqn:E; [|done]. cbn. by eapply update_first_map.
Qed.

End UpdateFirst.

Lemma Forall_filter_keep {A} (P : A -> Prop) (p : A -> bool) l :
  Forall P l -> Forall P (List.filter p l).
Proof.
  rewrite !Forall_forall. intros Hl x Hx. apply Hl.
  apply list_elem_of_In, filter_In in Hx as [Hx _]. by apply list_elem_of_In.
Qed.

(** ** The grants are a promise store *)

Definition vault_now (v : vault) : time := v_clock v (v_ticks v).

Lemma Grants_live v gs v' :
  Grants v = (Ok gs, v') ->
  gs = List.filter (fun g => After (AsTime (gr_expires_at g)) (vault_now v)) (v_grants v) /\
  v_grants v' = gs.
Proof.
  unfold Grants, vault_now. vault_run.
  set (p := fun g => After (AsTime (gr_expires_at g)) (v_clock v (v_ticks v))).
  fold p. destruct (existsb _ _) eqn:Hex; vault_run.
  - destruct (v_disk v (v_writes v)); [done|]. by intros [= <- <-].
  - intros [= <- <-]. split; [done|]. cbn. symmetry. by apply filter_all.
Qed.

Lemma AddGrant_held g v v' : AddGrant g v = (None, v') -> v_grants v' = v_grants v ++ [g].
Proof. unfold AddGrant. vault_run. by intros [= _ <-]. Qed.

Lemma ReplaceGrant_held g v v' :
  ReplaceGrant g v = (None, v') ->
  exists l1 x l2, v_grants v = l1 ++ x :: l2 /\ gr_grant_id x = gr_grant_id g /\
    Forall (fun y => gr_grant_id y <> gr_grant_id g) l1 /\
    v_grants v' = l1 ++ set_grant_uses (gr_use_count x) (gr_recent_uses x) g :: l2.
Proof.
  unfold ReplaceGrant. vault_run. destruct (update_first _ _ _) as [l|] eqn:Hup; [|done].
  vault_run. intros [= _ <-].
  apply update_first_Some in Hup as (l1 & x & l2 & -> & Hf & Hx & ->).
  exists l1, x, l2. unfold has_grant_id in *. bool_prop. split_and!; try done.
  eapply Forall_impl; [exact Hf|]. cbn. intros y Hy. by bool_prop.
Qed.

Lemma promise_of_file_use g use : promise_of (file_use g use) = promise_of g.
Proof. unfold file_use. by destruct (hasUse _ _). Qed.

Lemma record_use_promises acc use :
  map promise_of (record_use acc use).1 = map promise_of acc.1.
Proof.
  destruct acc as [grants changed]. unfold record_use.
  destruct (find_first _ grants); [|done]. destruct (hasUse _ _); [done|]. cbn [fst].
  apply update_first_default_map. intros x. apply promise_of_file_use.
Qed.

Lemma record_uses_promises us acc :
  map promise_of (foldl record_use acc us).1 = map promise_of acc.1.
Proof.
  revert acc. induction us as [|x us IH]; intros acc; [done|]. cbn [foldl].
  by rewrite IH, record_use_promises.
Qed.

Lemma record_uses_ids us acc :
  map gr_grant_id (foldl record_use acc us).1 = map gr_grant_id acc.1.
Proof.
  pose proof (f_equal (map (fun p => p.1.1.1)) (record_uses_promises us acc)) as Hp.
  by rewrite !map_map in Hp.
Qed.

Lemma RecordGrantUses_promises us v :
  map promise_of (v_grants (RecordGrantUses us v).2) = map promise_of (v_grants v).
Proof.
  unfold RecordGrantUses. destruct us as [|u us]; [done|]. vault_run.
  pose proof (record_uses_promises (u :: us) (v_grants v, false)) as Hfold.
  destruct (foldl _ _ _) as [grants changed]. cbn [fst] in Hfold.
  destruct changed; vault_run; [exact Hfold|done].
Qed.

Lemma vault_Grants_law v gs v' :
  Grants v = (Ok gs, v') ->
  gs = List.filter (fun g => After (AsTime (gr_expires_at g)) (vault_now v)) (v_grants v) /\
  (forall g, g ∈ gs -> g ∈ v_grants v').
Proof. intros H. apply Grants_live in H as [-> Hv']. split; [done|]. intros g. by rewrite Hv'. Qed.

#[export] Instance vault_keeps_grants : GrantStoreLaws vault := {|
  st_held := v_grants;
  st_now := vault_now;
  st_Grants_live := vault_Grants_law;
  st_AddGrant_held := AddGrant_held;
  st_ReplaceGrant_held := ReplaceGrant_held;
  st_RecordGrantUses_promises := RecordGrantUses_promises
|}.

(** ** Runs of the store *)

(** Everything that can happen to the document, one operation at a time: each
    operation of the store, and the pairings and keys changing under it. *)
Inductive vault_op :=
| OpNow
| OpGrants
| OpAddGrant (g : Grant)
| OpRevokeGrant (id : string)
| OpReplaceGrant (g : Grant)
| OpMarkRevokePending (id : string) (at_ : time)
| OpRecordGrantUses (uses : list GrantUse)
| OpNoteEndorsementReach (id : string) (told unreached : list string)
| OpDelegations
| OpAddDelegation (signed : option SignedDelegation) (d : Delegation)
| OpDropDelegations (ids : list string)
| OpDropDelegationsFrom (approver : string)
| OpRecordDelegationUse (use : GrantUse)
| OpAcknowledgeUses (ids : list string)
| OpEndorsements
| OpAddEndorsement (signed : option SignedEndorsement) (e : Endorsement) (published : bool)
| OpDropEndorsementsFrom (issuer : string)
| OpDropEndorsementsAbout (requester : string)
| OpDropEndorsementsForKey (fingerprint : string)
| OpRecordEndorsementUse (use : GrantUse)
| OpAcknowledgeEndorsementUses (ids : list string)
| OpRetractions
| OpAddRetraction (signed : option SignedRetraction) (r : Retraction)
| OpNoteGossiped (id peer : string)
| OpPeers (peers : list TrustRecord)
| OpKeys (keys : list string).

Definition with_surroundings (peers : list TrustRecord) (keys : list string) (v : vault) : vault :=
  mk_vault (v_grants v) (v_held_delegations v) (v_held_endorsements v) (v_retractions v)
    peers keys (v_clock v) (v_ticks v) (v_disk v) (v_writes v).

(** Unfold one operation and case on what it branches on. *)
Ltac step_cases :=
  unfold Grants, AddGrant, RevokeGrant, revoke, ReplaceGrant, MarkRevokePending, RecordGrantUses,
    NoteEndorsementReach, Delegations, liveDelegations, AddDelegation, DropDelegations,
    DropDelegationsFrom, DropDelegations_if, RecordDelegationUse, AcknowledgeUses,
    Endorsements, liveEndorsements, AddEndorsement, retractionIndex, DropEndorsementsFrom,
    DropEndorsementsAbout, DropEndorsementsForKey, dropEndorsements, RecordEndorsementUse,
    AcknowledgeEndorsementUses, Retractions, AddRetraction, NoteGossiped, with_surroundings;
  repeat (vault_run; match goal with
    | |- context [match ?x with _ => _ end] =>
        lazymatch x with
        | context [match _ with _ => _ end] => fail
        | _ => let E := fresh "E" in destruct x eqn:E
        end
    end); vault_run.

Section Runs.
Context `{Unicode}.

Definition vault_step (v : vault) (o : vault_op) : vault :=
  match o with
  | OpNow => (Now v).2
  | OpGrants => (Grants v).2
  | OpAddGrant g => (AddGrant g v).2
  | OpRevokeGrant id => (RevokeGrant id v).2
  | OpReplaceGrant g => (ReplaceGrant g v).2
  | OpMarkRevokePending id at_ => (MarkRevokePending id at_ v).2
  | OpRecordGrantUses uses => (RecordGrantUses uses v).2
  | OpNoteEndorsementReach id told unreached => (NoteEndorsementReach id told unreached v).2
  | OpDelegations => (Delegations v).2
  | OpAddDelegation signed d => (AddDelegation signed d v).2
  | OpDropDelegations ids => (DropDelegations ids v).2
  | OpDropDelegationsFrom a => (DropDelegationsFrom a v).2
  | OpRecordDelegationUse use => (RecordDelegationUse use v).2
  | OpAcknowledgeUses ids => (AcknowledgeUses ids v).2
  | OpEndorsements => (Endorsements v).2
  | OpAddEndorsement signed e published => (AddEndorsement signed e published v).2
  | OpDropEndorsementsFrom i => (DropEndorsementsFrom i v).2
  | OpDropEndorsementsAbout r => (DropEndorsementsAbout r v).2
  | OpDropEndorsementsForKey k => (DropEndorsementsForKey k v).2
  | OpRecordEndorsementUse use => (RecordEndorsementUse use v).2
  | OpAcknowledgeEndorsementUses ids => (AcknowledgeEndorsementUses ids v).2
  | OpRetractions => (Retractions v).2
  | OpAddRetraction signed r => (AddRetraction signed r v).2
  | OpNoteGossiped id peer => (NoteGossiped id peer v).2
  | OpPeers peers => with_surroundings peers (v_keys v) v
  | OpKeys keys => with_surroundings (v_peers v) keys v
  end.

Definition vault_run_ops (v : vault) (os : list vault_op) : vault := foldl vault_step v os.

Lemma step_clock v o :
  v_clock (vault_step v o) = v_clock v /\ (v_ticks v <= v_ticks (vault_step v o))%nat.
Proof. destruct o; cbn [vault_step]; step_cases; (split; [reflexivity|lia]). Qed.

Lemma run_clock v os :
  v_clock (vault_run_ops v os) = v_clock v /\ (v_ticks v <= v_ticks (vault_run_ops v os))%nat.
Proof.
  revert v. induction os as [|o os IH]; intros v; [done|].
  change (vault_run_ops v (o :: os)) with (vault_run_ops (vault_step v o) os).
  destruct (IH (vault_step v o)) as [-> Hle]. destruct (step_clock v o) as [-> Hle']. split; [done|lia].
Qed.

(** *** Retractions *)

(** The retraction is on file, and nothing held is covered by it. *)
Definition in_force (r : Retraction) (v : vault) : Prop :=
  Exists (fun h => kr_retraction h = Some r) (v_retractions v) /\
  Forall (fun h => retractionCovers (Some r) (ke_endorsement h) = false) (v_held_endorsements v).

(** No reading of the clock so far has reached the end of a retraction. *)
Definition still_remembered (r : Retraction) (v : vault) : Prop :=
  forall n, (n < v_ticks v)%nat -> v_clock v n < AsTime (rt_remember_until r).

Lemma still_remembered_before r v os :
  still_remembered r (vault_run_ops v os) -> still_remembered r v.
Proof.
  intros Hs n Hn. destruct (run_clock v os) as [Hc Hle]. rewrite <- Hc. apply Hs. lia.
Qed.

Lemma remembered_Exists r now l :
  now < AsTime (rt_remember_until r) ->
  Exists (fun h => kr_retraction h = Some r) l ->
  Exists (fun h => kr_retraction h = Some r) (List.filter (remembered now) l).
Proof.
  intros Hn (h & Hin & Hh)%Exists_exists. apply Exists_exists. exists h. split; [|done].
  apply elem_of_filter_bool. split; [done|]. unfold remembered. rewrite Hh. cbn.
  by apply After_spec.
Qed.

Lemma covered_by_index r now l e :
  now < AsTime (rt_remember_until r) ->
  Exists (fun h => kr_retraction h = Some r) l -> retractionCovers (Some r) e = true ->
  retractions_cover (map kr_retraction (List.filter (remembered now) l)) e = true.
Proof.
  intros Hn Hl Hc. apply (remembered_Exists r now) in Hl; [|exact Hn].
  apply Exists_exists in Hl as (h & Hin & Hh).
  unfold retractions_cover. apply existsb_elem. exists (Some r). split; [|done].
  apply list_elem_of_fmap. by exists h.
Qed.

Lemma endorsement_fold_kept signed e published now (same : HeldEndorsement -> bool) all :
  ke_endorsement (foldl (fun held existing =>
    if same existing
    then mk_HeldEndorsement (ke_signed held) (ke_endorsement held) (ke_received_at held)
           (ke_published held || ke_published existing)
           (ke_unreported_uses existing) (ke_use_count existing)
    else held) (mk_HeldEndorsement signed (Some e) now published [] 0) all) = Some e.
Proof.
  assert (forall h0, ke_endorsement h0 = Some e -> ke_endorsement (foldl (fun held existing =>
    if same existing
    then mk_HeldEndorsement (ke_signed held) (ke_endorsement held) (ke_received_at held)
           (ke_published held || ke_published existing)
           (ke_unreported_uses existing) (ke_use_count existing)
    else held) h0 all) = Some e) as Hf; [|by apply Hf].
  induction all as [|x all IH]; intros h0 Hh0; [done|]. cbn. apply IH. by destruct (same x).
Qed.

(** An endorsement a remembered retraction covers is refused, and the
    document is left alone. *)
Lemma AddEndorsement_retracted r signed e published v :
  Exists (fun h => kr_retraction h = Some r) (v_retractions v) ->
  vault_now v < AsTime (rt_remember_until r) ->
  retractionCovers (Some r) (Some e) = true ->
  exists err, (AddEndorsement signed e published v).1 = Some err /\
    errors_Is err ErrRetracted = true /\
    v_held_endorsements (AddEndorsement signed e published v).2 = v_held_endorsements v.
Proof.
  intros Hex Hn Hc. unfold AddEndorsement, retractionIndex. vault_run.
  rewrite (covered_by_index r) by done. vault_run. eexists. split_and!; [done|reflexivity|done].
Qed.

Lemma step_retractions r v o :
  (forall n, (n < v_ticks (vault_step v o))%nat -> v_clock v n < AsTime (rt_remember_until r)) ->
  Exists (fun h => kr_retraction h = Some r) (v_retractions v) ->
  Exists (fun h => kr_retraction h = Some r) (v_retractions (vault_step v o)).
Proof.
  intros Hn Hex. destruct o; revert Hn; cbn [vault_step]; step_cases; intros Hn; try exact Hex.
  - apply remembered_Exists; [|done]. apply Hn. lia.
  - apply remembered_Exists; [|done]. apply Hn. lia.
  - apply Exists_app. by left.
  - apply Exists_exists in Hex as (hr & Hin & Hh).
    assert (Some r ∈ map kr_retraction (v_retractions v)) as Hm.
    { rewrite <- Hh. by apply list_elem_of_fmap_2. }
    erewrite <- update_first_default_map in Hm; [|shelve].
    apply list_elem_of_fmap in Hm as (h' & Hh' & Hin'). apply Exists_exists. eauto.
    Unshelve. all: done.
Qed.

Lemma in_force_step r v o :
  (forall n, (n < v_ticks (vault_step v o))%nat -> v_clock v n < AsTime (rt_remember_until r)) ->
  in_force r v -> in_force r (vault_step v o).
Proof.
  intros Hn [Hex Hun]. split; [by apply step_retractions|].
  destruct o; revert Hn; cbn [vault_step]; step_cases; intros Hn; try exact Hun;
    try (by apply Forall_filter_keep);
    try (apply Forall_filter_keep, Forall_filter_keep; exact Hun);
    try (rewrite Forall_map; exact Hun).
  - (* a new endorsement is one no remembered retraction covers *)
    apply Forall_app. split; [by apply Forall_filter_keep|]. apply Forall_singleton.
    rewrite endorsement_fold_kept. apply not_true_is_false. intros Hc.
    match goal with E : retractions_cover _ _ = false |- _ =>
      rewrite (covered_by_index r) in E; [discriminate E|apply Hn; lia|done|done] end.
  - eapply update_first_Forall; [|eassumption|exact Hun]. done.
Qed.

Lemma in_force_run r v os :
  still_remembered r (vault_run_ops v os) -> in_force r v -> in_force r (vault_run_ops v os).
Proof.
  revert v. induction os as [|o os IH]; intros v Hs Hf; [done|].
  change (vault_run_ops v (o :: os)) with (vault_run_ops (vault_step v o) os) in *.
  apply IH; [done|]. apply in_force_step; [|done].
  apply still_remembered_before in Hs. intros n Hn. destruct (step_clock v o) as [<- _]. by apply Hs.
Qed.

Lemma AddRetraction_in_force signed r v err v' :
  AddRetraction signed r v = ((true, err), v') -> in_force r v'.
Proof.
  unfold AddRetraction. vault_run. destruct (existsb _ _); vault_run; [done|].
  intros [= _ <-]. split; cbn.
  - apply Exists_app. right. by apply Exists_cons_hd.
  - apply Forall_forall. intros h [_ Hh]%elem_of_filter_bool. by bool_prop.
Qed.

(** C23. A retraction holds for as long as it is remembered.  Once it was news to
    this store -- even when writing it down failed -- then whatever is done to
    the store next, as long as no reading of its clock reached the day the
    retraction is remembered until, no endorsement it covers is held or usable,
    and installing one before that day is refused with [ErrRetracted] and
    changes nothing held.  From that day on it may be forgotten, and nothing is
    said. *)
Theorem retraction_final signed r v err v1 os :
  AddRetraction signed r v = ((true, err), v1) ->
  let v2 := vault_run_ops v1 os in
  still_remembered r v2 ->
  (forall h, h ∈ v_held_endorsements v2 ->
     retractionCovers (Some r) (ke_endorsement h) = false) /\
  (forall es v3, UsableEndorsements v2 = (Ok es, v3) ->
     forall e, e ∈ es -> retractionCovers (Some r) (Some e) = false) /\
  (forall se e published, vault_now v2 < AsTime (rt_remember_until r) ->
     retractionCovers (Some r) (Some e) = true ->
     exists err', (AddEndorsement se e published v2).1 = Some err' /\
       errors_Is err' ErrRetracted = true /\
       v_held_endorsements (AddEndorsement se e published v2).2 = v_held_endorsements v2).
Proof.
  intros Hadd v2 Hs. apply AddRetraction_in_force in Hadd.
  apply (in_force_run r v1 os) in Hadd as [Hex Hun]; [|done]. fold v2 in Hex, Hun.
  rewrite Forall_forall in Hun. split_and!; [done| |].
  - intros es v3 Hu e He.
    assert (exists h, h ∈ v_held_endorsements v2 /\ ke_endorsement h = Some e) as (h & Hin & Hh).
    { revert Hu. unfold UsableEndorsements, Endorsements, liveEndorsements. vault_run.
      destruct (existsb _ _); vault_run; [destruct (v_disk _ _); vault_run; [done|]|];
        unfold retractionIndex; vault_run; intros [= <- _];
        apply list_elem_of_omap in He as (h & [[Hin _]%elem_of_filter_bool _]%elem_of_filter_bool & Hh);
        by exists h. }
    specialize (Hun h Hin). by rewrite Hh in Hun.
  - intros se e published Hn Hc. by apply (AddEndorsement_retracted r).
Qed.

(** ** What is usable *)

Lemma UsableEndorsements_list v es v' :
  UsableEndorsements v = (Ok es, v') ->
  es = omap ke_endorsement (List.filter
    (usable_endorsement v
       (map kr_retraction (List.filter (remembered (v_clock v (S (v_ticks v)))) (v_retractions v))))
    (List.filter (fun h => After (AsTime (ke_endorsement h)⇢en_expires_at) (vault_now v))
       (v_held_endorsements v))).
Proof.
  unfold UsableEndorsements, Endorsements, liveEndorsements, vault_now. vault_run.
  destruct (existsb _ _) eqn:Hex; vault_run; [destruct (v_disk _ _); vault_run; [done|]|];
    unfold retractionIndex; vault_run; by intros [= <- _].
Qed.

Lemma not_covered_spec v now e :
  HoldsKey v (en_key_fingerprint e) = true ->
  retractions_cover (map kr_retraction (List.filter (remembered now) (v_retractions v))) (Some e)
    = false <->
  (forall hr r, hr ∈ v_retractions v -> kr_retraction hr = Some r ->
     now < AsTime (rt_remember_until r) -> retractionCovers (Some r) (Some e) = false).
Proof.
  intros Hk. unfold retractions_cover. rewrite <- not_true_iff_false, existsb_elem. split.
  - intros Hnone hr r Hin Hr Hn. apply not_true_is_false. intros Hc. apply Hnone.
    exists (Some r). split; [|done]. apply list_elem_of_fmap. exists hr. split; [done|].
    apply elem_of_filter_bool. split; [done|]. unfold remembered. rewrite Hr. by apply After_spec.
  - intros Hall ([r|] & Hin & Hc); apply list_elem_of_fmap in Hin as (hr & Hr & [Hin Hn]%elem_of_filter_bool).
    + unfold remembered in Hn. rewrite <- Hr in Hn. apply After_spec in Hn.
      by rewrite (Hall hr r) in Hc.
    + unfold retractionCovers in Hc. cbn in Hc. case_bool_decide as Hne; [done|].
      unfold HoldsKey in Hk. by rewrite <- Hne in Hk.
Qed.

(** An endorsement the store hands to the engine is exactly one
    that is held and running, over a key this instance holds, made by a peer
    that may approve for it, and that no remembered retraction covers. *)
Theorem UsableEndorsements_spec v es v' :
  UsableEndorsements v = (Ok es, v') ->
  forall e, e ∈ es <-> exists h, h ∈ v_held_endorsements v /\ ke_endorsement h = Some e /\
    v_clock v (v_ticks v) < AsTime (en_expires_at e) /\
    HoldsKey v (en_key_fingerprint e) = true /\ is_approver v (en_issuer_fingerprint e) = true /\
    (forall hr r, hr ∈ v_retractions v -> kr_retraction hr = Some r ->
       v_clock v (S (v_ticks v)) < AsTime (rt_remember_until r) ->
       retractionCovers (Some r) (Some e) = false).
Proof.
  intros ->%UsableEndorsements_list e. rewrite list_elem_of_omap.
  setoid_rewrite elem_of_filter_bool. setoid_rewrite elem_of_filter_bool.
  apply exist_proper. intros h. unfold usable_endorsement, vault_now. split.
  - intros [[[Hin Hl] Hu] Hh]. rewrite Hh in *. cbn in Hu, Hl. bool_prop. apply After_spec in Hl.
    split_and!; try done. by apply (not_covered_spec v _ e).  
  - intros (Hin & Hh & Hl & Hk & Ha & Hr). rewrite Hh. cbn. rewrite Hk, Ha. cbn.
    split; [split; [split; [done|by apply After_spec]|]|done].
    apply negb_true_iff. by apply (not_covered_spec v _ e Hk).
Qed.

(** A delegation the store hands to the engine is exactly one that
    is held and running and was made by a peer that may still approve. *)
Theorem UsableDelegations_spec v ds v' :
  UsableDelegations v = (Ok ds, v') ->
  forall d, d ∈ ds <-> exists h, h ∈ v_held_delegations v /\ kd_delegation h = Some d /\
    v_clock v (v_ticks v) < AsTime (dl_expires_at d) /\
    is_approver v (dl_approver_fingerprint d) = true.
Proof.
  intros Hu d.
  assert (ds = omap kd_delegation (List.filter
    (fun h => is_approver v (kd_delegation h)⇢dl_approver_fingerprint)
    (List.filter (fun h => After (AsTime (kd_delegation h)⇢dl_expires_at) (v_clock v (v_ticks v)))
       (v_held_delegations v)))) as ->.
  { revert Hu. unfold UsableDelegations, Delegations, liveDelegations. vault_run.
    destruct (existsb _ _); vault_run; [destruct (v_disk _ _); vault_run; [done|]|];
      by intros [= <- _]. }
  rewrite list_elem_of_omap. setoid_rewrite elem_of_filter_bool.
  setoid_rewrite elem_of_filter_bool. apply exist_proper. intros h. split.
  - intros [[[Hin Hl] Hu'] Hh]. rewrite Hh in *. cbn in Hu', Hl. by apply After_spec in Hl.
  - intros (Hin & Hh & Hl & Ha). rewrite Hh. cbn. split; [|done]. split; [|done].
    split; [done|by apply After_spec].
Qed.

(** ** The ledgers *)

Definition grant_ledger_ok (g : Grant) : Prop :=
  (length (gr_recent_uses g) <= maxRecentUses)%nat /\
  NoDup (map gu_request_id (gr_recent_uses g)) /\ 0 <= gr_use_count g < 2 ^ 32.

Definition held_delegation_id (h : HeldDelegation) : string := (kd_delegation h)⇢dl_delegation_id.
Definition held_endorsement_id (h : HeldEndorsement) : string :=
  (ke_endorsement h)⇢en_endorsement_id.
Definition held_retraction_id (h : HeldRetraction) : string :=
  (kr_retraction h)⇢rt_retraction_id.

(** What every document this code writes satisfies. *)
Definition vault_wf (v : vault) : Prop :=
  Forall grant_ledger_ok (v_grants v) /\
  Forall (fun h => length (kd_unreported_uses h) <= maxUnreportedUses)%nat (v_held_delegations v) /\
  NoDup (map held_delegation_id (v_held_delegations v)) /\
  Forall (fun h => length (ke_unreported_uses h) <= maxUnreportedUses)%nat (v_held_endorsements v) /\
  NoDup (map held_endorsement_id (v_held_endorsements v)) /\
  NoDup (map held_retraction_id (v_retractions v)).

(** Grants arrive with a ledger in order; every other operation may be given
    anything. *)
Definition op_ok (o : vault_op) : Prop :=
  match o with OpAddGrant g => grant_ledger_ok g | _ => True end.

Lemma last_n_length {A} n (l : list A) : (length (last_n n l) <= n)%nat.
Proof. unfold last_n. rewrite length_drop. lia. Qed.

Lemma NoDup_map_last_n {A B} (f : A -> B) n l : NoDup (map f l) -> NoDup (map f (last_n n l)).
Proof.
  unfold last_n. rewrite <- (take_drop (length l - n) l) at 1. rewrite map_app.
  by intros (_ & _ & ?)%NoDup_app.
Qed.

Lemma NoDup_map_filter {A B} (f : A -> B) p l : NoDup (map f l) -> NoDup (map f (List.filter p l)).
Proof.
  induction l as [|x l IH]; cbn; [done|]. intros [Hx Hl]%NoDup_cons.
  destruct (p x); cbn; [|by apply IH]. apply NoDup_cons. split; [|by apply IH].
  intros (y & Hy & [Hin _]%elem_of_filter_bool)%list_elem_of_fmap. apply Hx.
  rewrite Hy. by apply list_elem_of_fmap_2.
Qed.

Lemma NoDup_map_snoc {A B} (f : A -> B) l x :
  NoDup (map f l) -> ~ (f x ∈ map f l) -> NoDup (map f (l ++ [x])).
Proof.
  intros Hl Hx. rewrite map_app. apply NoDup_app. split_and!; [done| |apply NoDup_singleton].
  intros y Hy ->%list_elem_of_singleton. done.
Qed.

(** Forget what has an identifier, then add something that has it. *)
Lemma NoDup_map_replace {A} (f : A -> string) l x :
  NoDup (map f l) ->
  NoDup (map f (List.filter (fun y => negb (bool_decide (f y = f x))) l ++ [x])).
Proof.
  intros Hl. apply NoDup_map_snoc; [by apply NoDup_map_filter|].
  intros (y & Hy & [_ Hne]%elem_of_filter_bool)%list_elem_of_fmap. by bool_prop.
Qed.

Lemma hasUse_false uses id : hasUse uses id = false -> ~ (id ∈ map gu_request_id uses).
Proof.
  unfold hasUse. rewrite <- not_true_iff_false, existsb_elem. intros Hn (u & -> & Hin)%list_elem_of_fmap.
  apply Hn. exists u. split; [done|]. by apply bool_decide_eq_true.
Qed.

Lemma file_use_ok g use : grant_ledger_ok g -> grant_ledger_ok (file_use g use).
Proof.
  unfold file_use. destruct (hasUse _ _) eqn:Hu; [done|]. intros (_ & Hd & _).
  split_and!; cbn [set_grant_uses gr_recent_uses gr_use_count].
  - apply last_n_length.
  - apply NoDup_map_last_n, NoDup_map_snoc; [done|]. by apply hasUse_false.
  - unfold u32. pose proof (Z.mod_pos_bound (gr_use_count g + 1) (2 ^ 32)). lia.
  - unfold u32. pose proof (Z.mod_pos_bound (gr_use_count g + 1) (2 ^ 32)). lia.
Qed.

Lemma record_uses_ok us acc :
  Forall grant_ledger_ok acc.1 -> Forall grant_ledger_ok (foldl record_use acc us).1.
Proof.
  revert acc. induction us as [|u us IH]; intros acc Hacc; [done|]. cbn [foldl]. apply IH.
  destruct acc as [grants changed]. cbn [record_use].
  destruct (find_first _ grants); [|done]. destruct (hasUse _ _); [done|].
  apply update_first_default_Forall; [|done]. intros x. apply file_use_ok.
Qed.

Lemma drop_acknowledged_length ids us : (length (drop_acknowledged ids us) <= length us)%nat.
Proof. unfold drop_acknowledged. apply filter_length_le. Qed.

Lemma fold_inherit {A} (P : A -> Prop) (same : A -> bool) (f : A -> A -> A) all h0 :
  (forall held x, P held -> P x -> P (f held x)) -> Forall P all -> P h0 ->
  P (foldl (fun held x => if same x then f held x else held) h0 all).
Proof.
  intros Hf Hall. revert h0. induction Hall as [|x all Hx Hall IH]; intros h0 Hh; [done|].
  cbn. apply IH. destruct (same x); [by apply Hf|done].
Qed.

Lemma fold_keeps {A B} (h : A -> B) (same : A -> bool) (f : A -> A -> A) all h0 :
  (forall held x, h (f held x) = h held) ->
  h (foldl (fun held x => if same x then f held x else held) h0 all) = h h0.
Proof.
  intros Hf. revert h0. induction all as [|x all IH]; intros h0; [done|]. cbn. rewrite IH.
  by destruct (same x).
Qed.

Lemma grants_wf_step v o :
  op_ok o -> Forall grant_ledger_ok (v_grants v) -> Forall grant_ledger_ok (v_grants (vault_step v o)).
Proof.
  intros Ho Hg. destruct o; revert Ho; cbn [vault_step op_ok]; step_cases; intros Ho;
    try exact Hg; try (by apply Forall_filter_keep).
  - apply Forall_app. split; [done|by apply Forall_singleton].
  - match goal with E : update_first _ _ _ = Some _ |- _ =>
      apply update_first_Some in E as (l1 & x & l2 & Heq & _ & _ & ->) end.
    rewrite Heq in Hg. rewrite !Forall_app, !Forall_cons in *. naive_solver.
  - by apply update_first_default_Forall.
  - match goal with E : foldl record_use ?a ?us = _ |- _ =>
      pose proof (record_uses_ok us a Hg) as Hr; by rewrite E in Hr end.
  - eapply update_first_Forall; [|eassumption|exact Hg]. done.
Qed.

Lemma delegations_wf_step v o :
  Forall (fun h => length (kd_unreported_uses h) <= maxUnreportedUses)%nat (v_held_delegations v) ->
  NoDup (map held_delegation_id (v_held_delegations v)) ->
  Forall (fun h => length (kd_unreported_uses h) <= maxUnreportedUses)%nat
    (v_held_delegations (vault_step v o)) /\
  NoDup (map held_delegation_id (v_held_delegations (vault_step v o))).
Proof.
  intros Hl Hd. destruct o; cbn [vault_step]; step_cases; try (split; [exact Hl|exact Hd]);
    try (split; [by apply Forall_filter_keep|by apply NoDup_map_filter]).
  - split.
    + apply Forall_app. split; [by apply Forall_filter_keep|]. apply Forall_singleton.
      apply (fold_inherit (fun h => length (kd_unreported_uses h) <= maxUnreportedUses)%nat);
        cbn; [naive_solver|done|lia].
    + match goal with |- context [foldl ?f ?a ?l] => set (held := foldl f a l) end.
      assert (held_delegation_id held = dl_delegation_id d) as Hid.
      { unfold held. by rewrite (fold_keeps held_delegation_id). }
      unfold has_delegation_id. rewrite <- Hid. by apply NoDup_map_replace.
  - split.
    + eapply update_first_Forall; [|eassumption|exact Hl]. intros x _. apply last_n_length.
    + erewrite update_first_map; [exact Hd| |eassumption]. done.
  - split; [|by rewrite map_map]. rewrite Forall_map. eapply Forall_impl; [exact Hl|].
    cbn. intros x Hx. etrans; [apply drop_acknowledged_length|done].
  - split; [|by rewrite map_map]. rewrite Forall_map. eapply Forall_impl; [exact Hl|].
    cbn. intros x Hx. etrans; [apply drop_acknowledged_length|done].
Qed.

Lemma endorsements_wf_step v o :
  Forall (fun h => length (ke_unreported_uses h) <= maxUnreportedUses)%nat (v_held_endorsements v) ->
  NoDup (map held_endorsement_id (v_held_endorsements v)) ->
  Forall (fun h => length (ke_unreported_uses h) <= maxUnreportedUses)%nat
    (v_held_endorsements (vault_step v o)) /\
  NoDup (map held_endorsement_id (v_held_endorsements (vault_step v o))).
Proof.
  intros Hl Hd. destruct o; cbn [vault_step]; step_cases; try (split; [exact Hl|exact Hd]);
    try (split; [by apply Forall_filter_keep|by apply NoDup_map_filter]).
  - split.
    + apply Forall_app. split; [by apply Forall_filter_keep|]. apply Forall_singleton.
      apply (fold_inherit (fun h => length (ke_unreported_uses h) <= maxUnreportedUses)%nat);
        cbn; [naive_solver|done|lia].
    + match goal with |- context [foldl ?f ?a ?l] => set (held := foldl f a l) end.
      assert (held_endorsement_id held = en_endorsement_id e) as Hid.
      { unfold held. by rewrite (fold_keeps held_endorsement_id). }
      unfold has_endorsement_id. rewrite <- Hid. by apply NoDup_map_replace.
  - split.
    + eapply update_first_Forall; [|eassumption|exact Hl]. intros x _. apply last_n_length.
    + erewrite update_first_map; [exact Hd| |eassumption]. done.
  - split; [|by rewrite map_map]. rewrite Forall_map. eapply Forall_impl; [exact Hl|].
    cbn. intros x Hx. etrans; [apply drop_acknowledged_length|done].
  - split; [|by rewrite map_map]. rewrite Forall_map. eapply Forall_impl; [exact Hl|].
    cbn. intros x Hx. etrans; [apply drop_acknowledged_length|done].
Qed.

Lemma retractions_wf_step v o :
  NoDup (map held_retraction_id (v_retractions v)) ->
  NoDup (map held_retraction_id (v_retractions (vault_step v o))).
Proof.
  intros Hd. destruct o; cbn [vault_step]; step_cases; try exact Hd; try (by apply NoDup_map_filter).
  - apply NoDup_map_snoc; [done|].
    match goal with E : existsb _ _ = false |- _ => rename E into Hnew end.
    rewrite <- not_true_iff_false, existsb_elem in Hnew.
    intros (h & Hh & Hin)%list_elem_of_fmap. apply Hnew. exists h. split; [done|].
    by apply bool_decide_eq_true.
  - erewrite update_first_default_map; done.
Qed.

(** What is on file stays in order whatever is done to the store:
    the tail of a grant's uses holds at most 64 with no request twice, its
    count is a 32-bit number, at most 256 uses wait to be reported for each
    promise held, and no two delegations, endorsements or retractions share an
    identifier. *)
Theorem vault_wf_run v os :
  Forall op_ok os -> vault_wf v -> vault_wf (vault_run_ops v os).
Proof.
  intros Hos. revert v. induction Hos as [|o os Ho Hos IH]; intros v Hv; [done|].
  apply IH. destruct Hv as (Hg & Hl & Hd & Hel & Hed & Hr).
  destruct (delegations_wf_step v o Hl Hd), (endorsements_wf_step v o Hel Hed).
  split_and!; try done; [by apply grants_wf_step|by apply retractions_wf_step].
Qed.

End Runs.

(** ** A report is counted once *)

(** The grant a report with this identifier is filed against. *)
Definition filed_under (id : string) (l : list Grant) : option Grant :=
  find_first (has_grant_id id) l.

Definition uses_of (id : string) (us : list GrantUse) : list GrantUse :=
  List.filter (fun u => bool_decide (gu_grant_id u = id)) us.

Lemma filed_under_update id id' f l :
  (forall g, gr_grant_id (f g) = gr_grant_id g) ->
  filed_under id (default l (update_first (has_grant_id id') f l)) =
  (if bool_decide (id' = id) then f else fun g => g) <$> filed_under id l.
Proof.
  intros Hf. unfold filed_under. induction l as [|g l IH]; cbn; [done|].
  destruct (has_grant_id id' g) eqn:Hg'; cbn.
  - unfold has_grant_id in *. rewrite Hf. bool_prop. subst id'.
    repeat case_bool_decide; cbn; try done. by destruct (find_first _ l).
  - destruct (has_grant_id id g) eqn:Hg.
    + assert (id' <> id) as Hne.
      { intros ->. congruence. }
      rewrite bool_decide_eq_false_2 by done. destruct (update_first _ _ l); cbn; by rewrite Hg.
    + destruct (update_first (has_grant_id id') f l) eqn:E; cbn; rewrite Hg; exact IH.
Qed.

Lemma file_use_id g use : gr_grant_id (file_use g use) = gr_grant_id g.
Proof. unfold file_use. by destruct (hasUse _ _). Qed.

Lemma filed_under_record id acc use :
  filed_under id (record_use acc use).1 =
  (if bool_decide (gu_grant_id use = id) then (fun g => file_use g use) else fun g => g)
    <$> filed_under id acc.1.
Proof.
  destruct acc as [l changed]. cbn [record_use]. destruct (find_first _ l) as [g|] eqn:Hfind.
  - destruct (hasUse _ _) eqn:Hu; cbn [fst].
    + case_bool_decide as Hid; [|by destruct (filed_under id l)].
      subst id. unfold filed_under. rewrite Hfind. cbn. unfold file_use. by rewrite Hu.
    + apply filed_under_update. intros x. apply file_use_id.
  - cbn [fst]. case_bool_decide as Hid; [|by destruct (filed_under id l)].
    subst id. unfold filed_under. by rewrite Hfind.
Qed.

Lemma filed_under_records id us acc :
  filed_under id (foldl record_use acc us).1 =
  (fun g => foldl file_use g (uses_of id us)) <$> filed_under id acc.1.
Proof.
  revert acc. induction us as [|u us IH]; intros acc; cbn; [by destruct (filed_under _ _)|].
  rewrite IH, filed_under_record. case_bool_decide; by destruct (filed_under id acc.1).
Qed.

Lemma record_uses_changed us acc :
  (foldl record_use acc us).2 = false -> foldl record_use acc us = acc.
Proof.
  assert (forall l a, a.2 = true -> (foldl record_use a l).2 = true) as Htrue.
  { induction l as [|x l IH]; intros [gs c]; [done|]. intros Hc. apply IH. cbn in *. subst c.
    destruct (find_first _ gs); [|done]. by destruct (hasUse _ _). }
  revert acc. induction us as [|u us IH]; intros [gs c]; [done|]. cbn [foldl]. intros Hf.
  destruct (record_use (gs, c) u) as [gs' c'] eqn:E. revert E. cbn [record_use].
  destruct (find_first _ gs) as [g|]; [|intros [= <- <-]; by apply IH].
  destruct (hasUse _ _); [intros [= <- <-]; by apply IH|]. intros [= _ <-].
  by rewrite Htrue in Hf.
Qed.

(** Nothing changes when every use is already on file. *)
Lemma record_uses_known us l :
  (forall u g, u ∈ us -> filed_under (gu_grant_id u) l = Some g ->
     hasUse (gr_recent_uses g) (gu_request_id u) = true) ->
  foldl record_use (l, false) us = (l, false).
Proof.
  induction us as [|u us IH]; intros Hu; [done|]. cbn.
  destruct (find_first _ l) as [g|] eqn:Hf; [|apply IH; intros; eapply Hu; [by right|done]].
  rewrite (Hu u g); [|left|done]. apply IH. intros ? ? ?. apply Hu. by right.
Qed.

Lemma last_n_app_suffix {A} n (l1 l2 : list A) :
  (length l2 <= n)%nat -> last_n n (l1 ++ l2) = last_n (n - length l2) l1 ++ l2.
Proof.
  intros Hl. unfold last_n. rewrite length_app.
  rewrite drop_app_le by lia. f_equal. f_equal. lia.
Qed.

Lemma last_n_last_n {A} n (l : list A) (x : A) :
  (0 < n)%nat -> last_n n (last_n n l ++ [x]) = last_n n (l ++ [x]).
Proof.
  intros Hn. rewrite !last_n_app_suffix by (cbn; lia). f_equal. unfold last_n. cbn.
  rewrite drop_drop, length_drop. f_equal. lia.
Qed.

Lemma hasUse_elem uses id : hasUse uses id = true <-> id ∈ map gu_request_id uses.
Proof.
  unfold hasUse. rewrite existsb_elem, list_elem_of_fmap. split.
  - intros (u & Hin & Hu). bool_prop. eauto.
  - intros (u & -> & Hin). exists u. split; [done|]. by apply bool_decide_eq_true.
Qed.

Lemma file_uses_spec g us :
  grant_ledger_ok g ->
  (forall u, u ∈ us -> hasUse (gr_recent_uses g) (gu_request_id u) = false) ->
  (length us <= maxRecentUses)%nat ->
  exists news, NoDup (map gu_request_id news) /\ (length news <= length us)%nat /\
    (forall i, i ∈ map gu_request_id news <-> i ∈ map gu_request_id us) /\
    gr_recent_uses (foldl file_use g us) = last_n maxRecentUses (gr_recent_uses g ++ news) /\
    gr_use_count (foldl file_use g us) = u32 (gr_use_count g + Z.of_nat (length news)).
Proof.
  intros (Hlen & _ & Hcount). induction us as [|u us IH] using rev_ind; intros Hfresh Hus.
  { exists []. split_and!; [constructor|done|done| |].
    - cbn. rewrite app_nil_r. unfold last_n. by replace (_ - _)%nat with 0%nat by lia.
    - cbn. rewrite Z.add_0_r. unfold u32. by rewrite Z.mod_small. }
  rewrite length_app in Hus. cbn in Hus.
  destruct IH as (news & Hd & Hl & Hset & Hrec & Hc);
    [intros x Hx; apply Hfresh, elem_of_app; by left|lia|].
  rewrite foldl_app. cbn [foldl]. set (g1 := foldl file_use g us) in *. unfold file_use.
  assert (hasUse (gr_recent_uses g1) (gu_request_id u) =
    bool_decide (gu_request_id u ∈ map gu_request_id news)) as ->.
  { apply eq_true_iff_eq. rewrite hasUse_elem, bool_decide_eq_true, Hrec.
    rewrite last_n_app_suffix by (unfold maxRecentUses in *; lia). rewrite map_app, elem_of_app.
    split; [|by right]. intros [Hin|]; [|done]. exfalso.
    assert (hasUse (gr_recent_uses g) (gu_request_id u) = true) as Hu.
    { apply hasUse_elem. unfold last_n in Hin.
      rewrite <- (take_drop (length (gr_recent_uses g) - (maxRecentUses - length news))
        (gr_recent_uses g)).
      rewrite map_app. apply elem_of_app. by right. }
    rewrite Hfresh in Hu; [done|]. apply elem_of_app. right. left. }
  case_bool_decide as Hin.
  - exists news. rewrite length_app, map_app. split_and!; try done; [cbn; lia|].
    intros i. rewrite elem_of_app, Hset. cbn. split; [by left|].
    intros [?| ->%list_elem_of_singleton]; [done|]. by apply Hset.
  - exists (news ++ [u]). rewrite !length_app. split_and!.
    + by apply NoDup_map_snoc.
    + cbn. lia.
    + intros i. rewrite !map_app, !elem_of_app. by rewrite Hset.
    + cbn [set_grant_uses gr_recent_uses]. rewrite Hrec, app_assoc.
      apply last_n_last_n. unfold maxRecentUses. lia.
    + cbn [set_grant_uses gr_use_count]. rewrite Hc. unfold u32. cbn [length].
      rewrite Z.add_mod_idemp_l by done. f_equal. lia.
Qed.

(** A report of uses none of which is on file, short enough for the tail. *)
Definition fresh_report (us : list GrantUse) (v : vault) : Prop :=
  (length us <= maxRecentUses)%nat /\
  forall u g, u ∈ us -> filed_under (gu_grant_id u) (v_grants v) = Some g ->
    hasUse (gr_recent_uses g) (gu_request_id u) = false.

Lemma RecordGrantUses_grants us v :
  v_grants (RecordGrantUses us v).2 = (foldl record_use (v_grants v, false) us).1.
Proof.
  unfold RecordGrantUses. destruct us as [|u us]; [done|]. vault_run.
  pose proof (record_uses_changed (u :: us) (v_grants v, false)) as Hch.
  destruct (foldl record_use _ _) as [l c]. destruct c; vault_run; [done|].
  by injection (Hch eq_refl) as ->.
Qed.

Lemma filed_under_elem id l g : filed_under id l = Some g -> g ∈ l /\ gr_grant_id g = id.
Proof. intros [Hin Hid]%find_first_elem. split; [done|]. by apply bool_decide_eq_true in Hid. Qed.

Lemma uses_of_length id us : (length (uses_of id us) <= length us)%nat.
Proof. apply filter_length_le. Qed.

Lemma elem_of_uses_of id us u : u ∈ uses_of id us <-> u ∈ us /\ gu_grant_id u = id.
Proof. unfold uses_of. by rewrite elem_of_filter_bool, bool_decide_eq_true. Qed.

(** A report of at most 64 new uses is counted exactly once however
    often it is delivered: each grant's count grows by the number of distinct
    requests reported against it, and delivering the report again changes
    nothing, writes nothing and fails nothing. *)
Theorem RecordGrantUses_once us v :
  Forall grant_ledger_ok (v_grants v) -> fresh_report us v ->
  let v1 := (RecordGrantUses us v).2 in
  RecordGrantUses us v1 = (None, v1) /\
  (forall id g, filed_under id (v_grants v) = Some g ->
     exists g1 ids, filed_under id (v_grants v1) = Some g1 /\
       promise_of g1 = promise_of g /\ NoDup ids /\
       (forall i, i ∈ ids <-> exists u, u ∈ us /\ gu_grant_id u = id /\ gu_request_id u = i) /\
       gr_use_count g1 = u32 (gr_use_count g + Z.of_nat (length ids))).
Proof.
  intros Hok [Hlen Hfresh] v1.
  assert (forall id g, filed_under id (v_grants v) = Some g ->
    filed_under id (v_grants v1) = Some (foldl file_use g (uses_of id us)) /\
    grant_ledger_ok g /\
    (forall u, u ∈ uses_of id us -> hasUse (gr_recent_uses g) (gu_request_id u) = false)) as Hid.
  { intros id g Hg. unfold v1. rewrite RecordGrantUses_grants, filed_under_records. cbn [fst].
    rewrite Hg. split_and!; [done| |].
    - rewrite Forall_forall in Hok. by apply Hok, (filed_under_elem id).
    - intros u [Hu <-]%elem_of_uses_of. by apply Hfresh. }
  split.
  - assert (foldl record_use (v_grants v1, false) us = (v_grants v1, false)) as Hsame.
    { apply record_uses_known. intros u g1 Hu Hg1.
      destruct (filed_under (gu_grant_id u) (v_grants v)) as [g|] eqn:Hg.
      - destruct (Hid _ _ Hg) as (Hg1' & Hl & Hf). rewrite Hg1 in Hg1'. injection Hg1' as ->.
        pose proof (uses_of_length (gu_grant_id u) us) as Hle.
        destruct (file_uses_spec g _ Hl Hf) as (news & _ & Hn & Hset & -> & _); [lia|].
        apply hasUse_elem. rewrite last_n_app_suffix by lia. rewrite map_app, elem_of_app. right.
        apply Hset. apply list_elem_of_fmap. exists u. split; [done|]. by apply elem_of_uses_of.
      - unfold v1 in Hg1. rewrite RecordGrantUses_grants, filed_under_records in Hg1.
        cbn [fst] in Hg1. by rewrite Hg in Hg1. }
    unfold RecordGrantUses. destruct us as [|u us]; [done|]. vault_run. by rewrite Hsame.
  - intros id g Hg. destruct (Hid _ _ Hg) as (Hg1 & Hl & Hf).
    pose proof (uses_of_length id us) as Hle.
    destruct (file_uses_spec g _ Hl Hf) as (news & Hd & Hn & Hset & _ & Hc); [lia|].
    exists (foldl file_use g (uses_of id us)), (map gu_request_id news). split_and!; try done.
    + generalize (uses_of id us). intros l. clear. revert g.
      induction l as [|x l IH]; intros g; [done|]. cbn. by rewrite IH, promise_of_file_use.
    + intros i. rewrite Hset, list_elem_of_fmap. setoid_rewrite elem_of_uses_of. naive_solver.
    + by rewrite length_map.
Qed.

(** ** A revoked grant is gone *)

Section Revoked.
Context `{Unicode}.

Definition has_no_grant (id : string) (v : vault) : Prop :=
  Forall (fun g => gr_grant_id g <> id) (v_grants v).

Lemma has_no_grant_step id v o :
  (forall g, o = OpAddGrant g -> gr_grant_id g <> id) ->
  has_no_grant id v -> has_no_grant id (vault_step v o).
Proof.
  unfold has_no_grant. intros Ho Hg.
  assert (forall l, map gr_grant_id l = map gr_grant_id (v_grants v) ->
    Forall (fun g => gr_grant_id g <> id) l) as Hsame.
  { intros l Hl. rewrite <- (Forall_map gr_grant_id (fun i => i <> id)) in *. by rewrite Hl. }
  destruct o; revert Ho; cbn [vault_step]; step_cases; intros Ho;
    try exact Hg; try (by apply Forall_filter_keep).
  - apply Forall_app. split; [done|]. apply Forall_singleton. by apply Ho.
  - match goal with E : update_first _ _ _ = Some _ |- _ =>
      apply update_first_Some in E as (l1 & x & l2 & Heq & _ & Hx & ->) end.
    unfold has_grant_id in Hx. bool_prop. apply Hsame. rewrite Heq, !map_app. cbn. by rewrite Hx.
  - apply Hsame. by apply update_first_default_map.
  - match goal with E : foldl record_use ?a ?us = _ |- _ =>
      pose proof (record_uses_ids us a) as Hr; rewrite E in Hr end. by apply Hsame.
  - apply Hsame. eapply update_first_map; [|eassumption]. done.
Qed.

(** A revoked promise is gone, even when writing that down failed:
    whatever is done to the store next, short of adding a grant under the same
    identifier again, it is not among the live grants, cannot be looked up or
    revoked as live, and extending it is refused with [ErrNoSuchGrant]. *)
Theorem revoked_is_gone id v os :
  (forall g, OpAddGrant g ∈ os -> gr_grant_id g <> id) ->
  let v1 := vault_run_ops (RevokeGrant id v).2 os in
  (forall gs v2 g, Grants v1 = (Ok gs, v2) -> g ∈ gs -> gr_grant_id g <> id) /\
  (LiveGrant id v1).1 = Err (no_such_grant id) /\
  (forall g, gr_grant_id g = id -> ReplaceGrant g v1 = (Some (no_such_grant id), v1)) /\
  (forall at_, MarkRevokePending id at_ v1 = (Some (no_such_grant id), v1)).
Proof.
  intros Hos v1.
  assert (has_no_grant id v1) as Hno.
  { assert (has_no_grant id (RevokeGrant id v).2) as H0.
    { unfold has_no_grant, RevokeGrant, revoke. vault_run.
      destruct (v_disk v (v_writes v)); vault_run;
        apply Forall_forall; intros g [_ Hg]%elem_of_filter_bool; by bool_prop. }
    unfold v1. revert H0. generalize ((RevokeGrant id v).2). clear v1.
    induction os as [|o os IH]; intros w Hw; [done|]. apply IH.
    - intros g Hg. apply Hos. by right.
    - apply has_no_grant_step; [|done]. intros g ->. apply Hos. left. }
  assert (find_first (has_grant_id id) (v_grants v1) = None) as Hfind.
  { apply find_first_None. eapply Forall_impl; [exact Hno|]. cbn. intros g Hg.
    by apply bool_decide_eq_false. }
  split_and!.
  - intros gs v2 g [-> _]%Grants_live [Hin _]%elem_of_filter_bool.
    unfold has_no_grant in Hno. rewrite Forall_forall in Hno. by apply Hno.
  - unfold LiveGrant. vault_run. unfold has_grant_id in Hfind. by rewrite Hfind.
  - intros g Hg. unfold ReplaceGrant. vault_run. rewrite Hg.
    destruct (update_first _ _ _) as [l|] eqn:E; [|done].
    apply update_first_Some in E as (l1 & x & l2 & Heq & _ & Hx & _).
    apply find_first_None in Hfind. rewrite Heq, Forall_app, Forall_cons in Hfind.
    destruct Hfind as (_ & Hf & _). congruence.
  - intros at_. unfold MarkRevokePending. vault_run. by rewrite Hfind.
Qed.

End Revoked.

(** ** A promise is kept *)

Section Kept.
Context `{Unicode} `{LocalTime} `{Hashes} `{Ssh}.
Context `{Codec ApprovalRequest} `{Codec ApprovalResponse} `{Codec Delegation} `{Codec Endorsement}.
Context (e : Options).

(** What may happen to the store without touching a grant: anything but taking
    it back or writing another promise under its identifier. *)
Definition leaves (g : Grant) (o : vault_op) : Prop :=
  match o with
  | OpRevokeGrant id => id <> gr_grant_id g
  | OpReplaceGrant g' => gr_grant_id g' = gr_grant_id g -> promise_of g' = promise_of g
  | _ => True
  end.

(** No reading of the store's clock so far, and not the next one either, has
    reached the end of a grant. *)
Definition still_runs (g : Grant) (v : vault) : Prop :=
  forall n, (n <= v_ticks v)%nat -> v_clock v n < AsTime (gr_expires_at g).

Lemma update_first_promise id (f : Grant -> Grant) g l l' :
  (forall x, promise_of (f x) = promise_of x) -> promise_of g ∈ map promise_of l ->
  update_first (has_grant_id id) f l = Some l' -> promise_of g ∈ map promise_of l'.
Proof. intros Hf Hin Hu. by erewrite update_first_map. Qed.

Lemma kept_step g v o :
  leaves g o -> (forall n, (n < v_ticks (vault_step v o))%nat -> v_clock v n < AsTime (gr_expires_at g)) ->
  promise_of g ∈ map promise_of (v_grants v) -> promise_of g ∈ map promise_of (v_grants (vault_step v o)).
Proof.
  intros Hl Hn Hin. destruct o; revert Hn; cbn [vault_step].
  all: try (step_cases; intros Hn; exact Hin).
  - (* reading them forgets those that have ended *)
    assert (promise_of g ∈ map promise_of (List.filter (fun g => After (AsTime (gr_expires_at g)) (vault_now v)) (v_grants v)) \/
      AsTime (gr_expires_at g) <= vault_now v) as [Hkept|Hend].
    { apply list_elem_of_fmap in Hin as (g' & Hp & Hin). unfold promise_of in Hp. injection Hp as Hid Hsc Hex Hde.
      destruct (After (AsTime (gr_expires_at g')) (vault_now v)) eqn:Ha.
      - left. apply list_elem_of_fmap. exists g'. split; [unfold promise_of; congruence|]. by apply elem_of_filter_bool.
      - right. unfold After in Ha. rewrite Hex. by bool_prop. }
    + unfold Grants. vault_run. destruct (existsb _ _); vault_run; [|done]. intros _. destruct (v_disk _ _); exact Hkept.
    + unfold Grants. vault_run. destruct (existsb _ _); vault_run; [|intros _; exact Hin].
      intros Hn. specialize (Hn (v_ticks v)). unfold vault_now in Hend. destruct (v_disk _ _); cbn in Hn; lia.
  - intros _. unfold AddGrant. vault_run. rewrite map_app. apply elem_of_app. by left.
  - intros _. cbn [leaves] in Hl. unfold RevokeGrant, revoke. vault_run. assert (promise_of g ∈ map promise_of
      (List.filter (fun g => bool_decide (gr_grant_id g <> id)) (v_grants v))) as Hkept.
    { apply list_elem_of_fmap in Hin as (g' & Hp & Hin). apply list_elem_of_fmap. exists g'. split; [done|].
      apply elem_of_filter_bool. split; [done|]. unfold promise_of in Hp. injection Hp as Hid _ _ _.
      apply bool_decide_eq_true. congruence. }
    destruct (v_disk _ _); exact Hkept.
  - intros _. cbn [leaves] in Hl. unfold ReplaceGrant. vault_run. destruct (update_first _ _ _) as [l|] eqn:Hu; vault_run; [|exact Hin].
    apply update_first_Some in Hu as (l1 & x & l2 & El & _ & Hx & ->). unfold has_grant_id in Hx. bool_prop.
    rewrite El, map_app in Hin. rewrite map_app. cbn [map] in *. apply elem_of_app. apply elem_of_app in Hin as [?|Hin]; [by left|right].
    apply elem_of_cons in Hin as [Hp|?]; [|by right]. apply elem_of_cons. left. unfold promise_of in Hp. injection Hp as Hid _ _ _.
    rewrite <- Hl by congruence. done.
  - intros _. unfold MarkRevokePending. vault_run. destruct (find_first _ _); [|exact Hin]. destruct (gr_revoke_pending _); [exact Hin|].
    vault_run. by rewrite update_first_default_map.
  - intros _. by rewrite RecordGrantUses_promises.
  - intros _. unfold NoteEndorsementReach. vault_run. destruct (update_first _ _ _) eqn:Hu; vault_run; [|exact Hin].
    eapply update_first_promise; [|exact Hin|exact Hu]; done.
Qed.

Lemma kept_run g v os :
  Forall (leaves g) os -> still_runs g (vault_run_ops v os) ->
  promise_of g ∈ map promise_of (v_grants v) -> promise_of g ∈ map promise_of (v_grants (vault_run_ops v os)).
Proof.
  revert v. induction os as [|o os IH]; intros v Hl Hs Hin; [done|]. apply Forall_cons in Hl as [Ho Hl].
  change (vault_run_ops v (o :: os)) with (vault_run_ops (vault_step v o) os) in *. apply IH; [done|done|].
  apply kept_step; [done| |done]. intros n Hn. destruct (run_clock (vault_step v o) os) as [Hc Hle].
  destruct (step_clock v o) as [Hc' _]. rewrite <- Hc', <- Hc. apply Hs. lia.
Qed.

(** C25. A promise is kept.  Once a grant has been made, then whatever is done to the
    store - other promises made, extended, taken back or run out, uses filed,
    delegations, endorsements and retractions coming and going, peers and keys
    changing - short of taking this one back or writing another promise over
    it, a later request it covers is approved while it runs, by the clocks of
    the store and of the engine, whatever anybody would have answered, as long
    as no hard rule, policy denial or insistence on asking stands in the way
    and the store can be read. *)
Theorem promise_kept msg ttl reach (w w1 w2 : world (S := vault)) g os req policy v :
  createGrant e msg ttl reach w = (Some g, w1) ->
  w_store w2 = vault_run_ops (w_store w1) os -> Forall (leaves g) os ->
  still_runs g (w_store w2) -> w_clock w2 (w_ticks w2) < AsTime (gr_expires_at g) ->
  same_matter msg (q_Msg req) ->
  reach = GrantReachMachine \/ session_of msg = 0 \/ session_of msg = session_of (q_Msg req) ->
  is_ok (Grants (w_store w2)).1 = true ->
  rq_kind (q_Msg req) <> KIND_OPAQUE_SIGN ->
  rq_grant_only (q_Msg req) = false -> mustPrompt (q_Msg req) = emp ->
  ev_Action (Evaluate policy (q_Msg req)) <> ACTION_DENY ->
  exists resp w', decide e req policy emp v w2 = ((resp, None, req), w') /\
    rs_decision resp = DECISION_APPROVE /\ rs_source resp <> SOURCE_USER.
Proof.
  intros Hcg Hst Hl Hruns Ht Hm Hses Hok Hk Hgo Hmust Hev.
  destruct (createGrant_Some _ _ _ _ _ _ _ Hcg) as (_ & id & t & Hg).
  destruct (createGrant_held e msg ttl reach w g w1 Hcg) as [Hop Hin]. cbn [st_held vault_keeps_grants] in Hin. rewrite Hst in Hruns.
  apply (kept_run _ _ os Hl Hruns) in Hin. rewrite <- Hst in Hin, Hruns.
  apply (held_promise_approves e g); try done.
  - rewrite Hg. cbn [newGrant gr_scope]. by apply covers_promise.
  - apply Hruns. done.
Qed.

End Kept.

(** ** Concrete stores *)

Import Toy.

Definition toy_vault (grants : list Grant) (peers : list TrustRecord) : vault :=
  mk_vault grants [] [] [] peers ["SHA256:k"%string] (fun _ => 0) 0 (fun _ => None) 0.

Definition kept_world : world :=
  mk_world (toy_vault [] []) DefaultPolicy [desk; phone] false (fun n => Z.of_nat n) 0
    (fun n => of_string "0123456789") 0 [].

(** The engine over the real store makes a promise, and keeps it. *)
Definition kept_promise := createGrant toy_options (toy_msg false) Hour GrantReachMachine kept_world.

#[local] Strategy expand [kept_promise].

Definition some_grant (o : option Grant) : Grant := default toy_grant o.

(** What happens to the store in between: another promise is made, read, and
    taken back, and so is one nobody made; and a use is reported. *)
Definition in_between : list vault_op :=
  [OpAddGrant toy_grant; OpGrants; OpRevokeGrant "g1"; OpRevokeGrant "g2";
   OpRecordGrantUses [mk_GrantUse "g1" "r7" (Some 0) None KIND_GIT_SIGN "demo"]; OpKeys []].
Definition kept_later : world :=
  mk_world (vault_run_ops (w_store kept_promise.2) in_between) DefaultPolicy [] true (fun n => Z.of_nat n) 5
    (fun n => of_string "0123456789") 9 [].

#[local] Strategy expand [kept_later].

Lemma promise_kept_witness :
  exists resp w', decide toy_options (toy_request false OriginPeerSigning) DefaultPolicy emp
      (Answered desk None) kept_later = ((resp, None, toy_request false OriginPeerSigning), w') /\
    rs_decision resp = DECISION_APPROVE /\ rs_source resp <> SOURCE_USER.
Proof.
  apply (promise_kept toy_options (toy_msg false) Hour GrantReachMachine kept_world
    kept_promise.2 kept_later (some_grant kept_promise.1) in_between (toy_request false OriginPeerSigning) DefaultPolicy
    (Answered desk None)).
  - refine (_ : kept_promise = _).
    assert (is_Some kept_promise.1) as Hs by (refine (is_some_true _ _); vm_compute; reflexivity).
    destruct kept_promise as [[g|] w1]; [reflexivity|]. destruct Hs as [? Hs]. discriminate Hs.
  - reflexivity.
  - assert (forall id, bool_decide (id = gr_grant_id (some_grant kept_promise.1)) = false -> id <> gr_grant_id (some_grant kept_promise.1)) as Hne
      by (intros id Hid; by apply bool_decide_eq_false in Hid).
    repeat apply Forall_cons_2; try apply Forall_nil_2; try exact I; apply Hne; vm_compute; reflexivity.
  - intros n _. vm_compute. reflexivity.
  - vm_compute. reflexivity.
  - vm_compute. repeat split.
  - left. reflexivity.
  - vm_compute. reflexivity.
  - discriminate.
  - reflexivity.
  - vm_compute. reflexivity.
  - vm_compute. discriminate.
Defined.

Definition toy_endorsement (id : string) : Endorsement :=
  mk_Endorsement id None (Some 0) (Some Hour) "r1" "may sign" "SHA256:desk" "desk" "SHA256:box"
    "box" "SHA256:k".
Definition toy_retraction : Retraction :=
  mk_Retraction "t1" "SHA256:k" emp (Some Minute) (Some Minute) (Some Hour) "SHA256:desk" "desk" emp.
Definition toy_peer : TrustRecord :=
  mk_TrustRecord "SHA256:desk" "desk" [] [] true false [] None false false emp None None.

(** A store that held an endorsement when its retraction arrived, forgot it,
    and is asked to install it again. *)
Definition endorsed_vault : vault :=
  vault_run_ops (toy_vault [] [toy_peer]) [OpAddEndorsement None (toy_endorsement "e1") false].
Definition retraction_ops : list vault_op :=
  [OpRetractions; OpAddEndorsement None (toy_endorsement "e2") true; OpNoteGossiped "t1" "SHA256:box"].

Example endorsed_vault_offers :
  (UsableEndorsements endorsed_vault).1 = Ok [toy_endorsement "e1"].
Proof. vm_compute. reflexivity. Qed.

Lemma retraction_final_witness :
  let v1 := (AddRetraction None toy_retraction endorsed_vault).2 in
  let v2 := vault_run_ops v1 retraction_ops in
  (forall h, h ∈ v_held_endorsements v2 ->
     retractionCovers (Some toy_retraction) (ke_endorsement h) = false) /\
  v_held_endorsements v2 = [].
Proof.
  split; [|vm_compute; reflexivity].
  apply (retraction_final None toy_retraction endorsed_vault None
    (AddRetraction None toy_retraction endorsed_vault).2 retraction_ops).
  - vm_compute. reflexivity.
  - intros n _. vm_compute. reflexivity.
Defined.

Lemma UsableEndorsements_spec_witness :
  toy_endorsement "e1" ∈ [toy_endorsement "e1"] /\
  exists h, h ∈ v_held_endorsements endorsed_vault /\ ke_endorsement h = Some (toy_endorsement "e1").
Proof.
  split; [left|].
  destruct (UsableEndorsements_spec endorsed_vault [toy_endorsement "e1"]
    (UsableEndorsements endorsed_vault).2) with (e := toy_endorsement "e1") as [Hto _].
  - vm_compute. reflexivity.
  - destruct Hto as (h & Hin & Hh & _); [left|]. exists h. split; [exact Hin|exact Hh].
Defined.

Lemma UsableDelegations_spec_witness :
  let d := mk_Delegation "d1" None (Some 0) (Some Hour) "r1" "may sign" "SHA256:desk" "desk"
             "SHA256:box" in
  let v := vault_run_ops (toy_vault [] [toy_peer]) [OpAddDelegation None d] in
  exists h, h ∈ v_held_delegations v /\ kd_delegation h = Some d.
Proof.
  intros d v.
  destruct (UsableDelegations_spec v [d] (UsableDelegations v).2) with (d := d) as [Hto _].
  - vm_compute. reflexivity.
  - destruct Hto as (h & Hin & Hh & _); [left|]. exists h. split; [exact Hin|exact Hh].
Defined.

Definition toy_use (n : nat) : GrantUse :=
  mk_GrantUse "g1" ("u" +:+ pretty n) (Some 0) None KIND_GIT_SIGN "demo".

Definition ledger_ops : list vault_op :=
  [OpAddGrant toy_grant; OpRecordGrantUses (map toy_use (seq 0 65)); OpGrants].

Lemma vault_wf_run_witness :
  vault_wf (vault_run_ops (toy_vault [] []) ledger_ops) /\
  length (v_grants (vault_run_ops (toy_vault [] []) ledger_ops)) = 1%nat.
Proof.
  split; [|vm_compute; reflexivity].
  apply (vault_wf_run (toy_vault [] []) ledger_ops).
  - apply Forall_cons. split; [|apply Forall_cons; split; [exact I|apply Forall_cons; split;
      [exact I|apply Forall_nil; exact I]]].
    split; [vm_compute; lia|]. split; [apply NoDup_nil; exact I|vm_compute; split; congruence].
  - repeat split; constructor.
Defined.

Lemma RecordGrantUses_once_witness :
  let v1 := (RecordGrantUses (map toy_use (seq 0 64)) (toy_vault [toy_grant] [])).2 in
  RecordGrantUses (map toy_use (seq 0 64)) v1 = (None, v1) /\
  map gr_use_count (v_grants v1) = [64].
Proof.
  split; [|vm_compute; reflexivity].
  apply (RecordGrantUses_once (map toy_use (seq 0 64)) (toy_vault [toy_grant] [])).
  - apply Forall_singleton. split; [vm_compute; lia|].
    split; [apply NoDup_nil; exact I|vm_compute; split; congruence].
  - split; [vm_compute; lia|]. intros u g Hu Hg.
    assert (g = toy_grant) as ->; [|reflexivity].
    apply filed_under_elem in Hg as [Hg _]. by apply list_elem_of_singleton in Hg.
Defined.

(** A longer report is not: 65 uses delivered twice are counted as 130, since
    only the last 64 are remembered and each one counted again pushes out the
    next. *)
Example long_report_counted_twice :
  let report := RecordGrantUses (map toy_use (seq 0 65)) in
  let once := (report (toy_vault [toy_grant] [])).2 in
  map gr_use_count (v_grants once) = [65] /\ map gr_use_count (v_grants (report once).2) = [130].
Proof. vm_compute. split; reflexivity. Qed.

Lemma revoked_is_gone_witness :
  let v1 := vault_run_ops (RevokeGrant "g1" (toy_vault [toy_grant] [])).2 [OpGrants] in
  (LiveGrant "g1" v1).1 = Err (no_such_grant "g1").
Proof.
  apply (revoked_is_gone "g1" (toy_vault [toy_grant] []) [OpGrants]).
  intros g Hg. apply list_elem_of_singleton in Hg. discriminate Hg.
Defined.

(** An extension that read its promise before somebody revoked it writes the
    promise back without the revocation: the holder is never told. *)
Example revocation_lost_to_extension :
  let v := toy_vault [mk_Grant "g1" (gr_scope toy_grant) (Some 0) (Some Hour) "r1" "may sign" emp
    true "SHA256:box" "box" 0 [] false None false [] []] [] in
  match (LiveGrant "g1" v).1 with
  | Ok g =>
    let revoked := (MarkRevokePending "g1" Minute v).2 in
    let extended := (ReplaceGrant (extendedGrant g (2 * Hour) Minute) revoked).2 in
    (PendingRevocations "SHA256:box" revoked).1 = ["g1"%string] /\
    (PendingRevocations "SHA256:box" extended).1 = []
  | Err _ => False
  end.
Proof. vm_compute. split; reflexivity. Qed.
