(* ===== verification/Cpace.v ===== *)
(** * Cpace: [internal/cpace]

    The password-authenticated key exchange behind the pairing PIN.  The group
    is a parameter ([github.com/gtank/ristretto255]), as are the hashes; the
    framing, the generator string, the transcript and the key confirmation are
    the package's own.  A reader of randomness is the list of 32-byte blocks it
    will still give. *)

From S2P Require Import Prelude.
From S2P Require Import GoText.
From S2P Require Import Ssh.

Local Open Scope Z_scope.

(** ** [github.com/gtank/ristretto255] *)

Class Ristretto := {
  Element : Type;
  Scalar : Type;
  NewIdentityElement : Element;
  NewScalar : Scalar;
  ScalarMult : Scalar -> Element -> Element;
  Element_Bytes : Element -> bytes;
  SetUniformBytes : bytes -> result Element;
  Element_SetCanonicalBytes : bytes -> result Element;
  Scalar_SetCanonicalBytes : bytes -> result Scalar;
  Element_Equal : Element -> Element -> bool;
  Scalar_Equal : Scalar -> Scalar -> bool
}.

(** A commutative group action with a canonical encoding. *)
Class RistrettoLaws `{Ristretto} : Prop := {
  ScalarMult_comm a b g : ScalarMult a (ScalarMult b g) = ScalarMult b (ScalarMult a g);
  Element_decode e : Element_SetCanonicalBytes (Element_Bytes e) = Ok e;
  Element_encode b e : Element_SetCanonicalBytes b = Ok e -> Element_Bytes e = b;
  Element_Equal_spec a b : Element_Equal a b = true <-> a = b
}.

Definition DSI : string := "CPaceRistretto255".
Definition sInBytes : Z := 128.
Definition fieldSizeBytes : nat := 32.

Definition ErrInvalidShare : error := sentinel "cpace.ErrInvalidShare"
  "cpace: the other side's share is not a valid group element".
Definition ErrNoSessionID : error := sentinel "cpace.ErrNoSessionID"
  "cpace: a session id is required".
Definition ErrSpent : error := sentinel "cpace.ErrSpent"
  "cpace: this exchange has already finished".

(** ** Framing *)

(** The loop of [prependLen]: seven bits at a time, low ones first. *)
Fixpoint leb128 (fuel : nat) (length : Z) : bytes :=
  match fuel with
  | O => []
  | S fuel' =>
    let b := if length <? 128 then byte_of length
             else byte_of (Z.lor (Z.land length 127) 128) in
    let length := Z.shiftr length 7 in
    b :: (if length =? 0 then [] else leb128 fuel' length)
  end.

Definition leb_fuel (n : Z) : nat := S (Z.to_nat (Z.log2 n)).

Definition prependLen (data : bytes) : bytes :=
  let n := Z.of_nat (length data) in leb128 (leb_fuel n) n ++ data.

Definition LVCat (parts : list bytes) : bytes := concat (map prependLen parts).

Definition generatorString (dsi prs ci sid : bytes) (sInBytes : Z) : bytes :=
  let zpad := Z.max 0 (sInBytes - 1 - Z.of_nat (length (prependLen prs))
                         - Z.of_nat (length (prependLen dsi))) in
  LVCat [dsi; prs; replicate (Z.to_nat zpad) x00; ci; sid].

Record Inputs := mk_Inputs { in_PRS : bytes; in_CI : bytes; in_SID : bytes }.

Record Session := mk_Session {
  ss_isk : bytes;
  ss_macKey : bytes;
  ss_ownMsg : bytes;
  ss_peerMsg : bytes
}.

Section Cpace.
Context `{Hashes} `{Ristretto}.

Record Initiator := mk_Initiator {
  ci_in : Inputs;
  ci_y : option Scalar;
  ci_share : bytes;
  ci_ad : bytes;
  ci_done : bool
}.

(** ** The group operations *)

(** Clear the bits from 252 upward. *)
Definition clear_top (buf : bytes) : bytes :=
  alter (fun b => byte_of (Z.land (byte_val b) 15)) 31%nat buf.

Fixpoint sampleScalar (random : list bytes) : result (Scalar * list bytes) :=
  match random with
  | [] => Err (errors_New "cpace: no randomness for a scalar")
  | buf :: random' =>
    match Scalar_SetCanonicalBytes (clear_top buf) with
    | Err e => Err (wrap_w "cpace: sample a scalar: " e emp)
    | Ok s => if Scalar_Equal s NewScalar then sampleScalar random' else Ok (s, random')
    end
  end.

Definition calculateGenerator (prs ci sid : bytes) : result Element :=
  let sum := sha512 (generatorString (of_string DSI) prs ci sid sInBytes) in
  err_ctx "cpace: derive the generator: " (SetUniformBytes (take (2 * fieldSizeBytes) sum)).

Definition scalarMult (y : Scalar) (g : Element) : bytes := Element_Bytes (ScalarMult y g).

Definition scalarMultVfy (y : option Scalar) (encoded : bytes) : result bytes :=
  match y with
  | None => Err ErrSpent
  | Some y =>
    match Element_SetCanonicalBytes encoded with
    | Err _ => Err ErrInvalidShare
    | Ok x =>
      let k := ScalarMult y x in
      if Element_Equal k NewIdentityElement then Err ErrInvalidShare else Ok (Element_Bytes k)
    end
  end.

(** ** Sessions *)

Definition newSession (sid k ownMsg peerMsg msgA msgB : bytes) : Session :=
  let isk := sha512 (LVCat [of_string (DSI +:+ "_ISK"); sid; k] ++ msgA ++ msgB) in
  mk_Session isk (sha512 (of_string "CPaceMac" ++ sid ++ isk)) ownMsg peerMsg.

Definition tag (key msg : bytes) : bytes := hmac_sha512 key msg.

Definition Confirmation (s : Session) : bytes := tag (ss_macKey s) (ss_ownMsg s).

Definition Session_Verify (s : Session) (peerTag : bytes) : bool :=
  bool_decide (tag (ss_macKey s) (ss_peerMsg s) = peerTag).

(** ** The two roles *)

Definition newInitiator (i : Inputs) (ad : bytes) (random : list bytes)
    : result (Initiator * list bytes) :=
  if bool_decide (in_SID i = []) then Err ErrNoSessionID
  else
    '(y, random) ← sampleScalar random;
    g ← calculateGenerator (in_PRS i) (in_CI i) (in_SID i);
    Ok (mk_Initiator i (Some y) (scalarMult y g) ad false, random).

(** The result, and the initiator afterwards. *)
Definition Finish (a : Initiator) (peerShare peerAD : bytes) : result Session * Initiator :=
  if ci_done a then (Err ErrSpent, a)
  else
    let a' := mk_Initiator (ci_in a) None (ci_share a) (ci_ad a) true in
    match scalarMultVfy (ci_y a) peerShare with
    | Err e => (Err e, a')
    | Ok k =>
      let ownMsg := LVCat [ci_share a; ci_ad a] in
      let peerMsg := LVCat [peerShare; peerAD] in
      (Ok (newSession (in_SID (ci_in a)) k ownMsg peerMsg ownMsg peerMsg), a')
    end.

Definition respond (i : Inputs) (ad peerShare peerAD : bytes) (random : list bytes)
    : result (bytes * Session * list bytes) :=
  if bool_decide (in_SID i = []) then Err ErrNoSessionID
  else
    '(y, random) ← sampleScalar random;
    g ← calculateGenerator (in_PRS i) (in_CI i) (in_SID i);
    let share := scalarMult y g in
    k ← scalarMultVfy (Some y) peerShare;
    let ownMsg := LVCat [share; ad] in
    let peerMsg := LVCat [peerShare; peerAD] in
    Ok (share, newSession (in_SID i) k ownMsg peerMsg peerMsg ownMsg, random).

End Cpace.

(** ** The framing reads back *)

Fixpoint unleb (b : bytes) : option (Z * bytes) :=
  match b with
  | [] => None
  | x :: b' =>
    if byte_val x <? 128 then Some (byte_val x, b')
    else '(n, r) ← unleb b'; Some (byte_val x - 128 + 128 * n, r)
  end.

Lemma leb_byte n : 128 <= n -> byte_val (byte_of (Z.lor (Z.land n 127) 128)) = n mod 128 + 128.
Proof.
  intros Hn. rewrite byte_val_of. change 127 with (Z.ones 7). rewrite Z.land_ones by lia.
  change 128 with (Z.shiftl 1 7) at 1. rewrite Z.lor_comm, lor_shiftl_add by (change (2 ^ 7) with 128; euclid).
  change (2 ^ 7) with 128. euclid.
Qed.

Lemma unleb_leb fuel n r :
  0 <= n -> n < 2 ^ Z.of_nat fuel -> (0 < fuel)%nat -> unleb (leb128 fuel n ++ r) = Some (n, r).
Proof.
  revert n. induction fuel as [|fuel IH]; intros n H0 Hn Hf; [lia|]. cbn [leb128].
  rewrite Z.shiftr_div_pow2 by lia. change (2 ^ 7) with 128.
  destruct (n <? 128) eqn:Hlt; bool_prop.
  - rewrite (Z.div_small n 128) by lia. cbn. rewrite byte_val_of, Z.mod_small by lia.
    by rewrite (proj2 (Z.ltb_lt n 128)) by lia.
  - assert (n / 128 <> 0) as Hd by euclid. rewrite (proj2 (Z.eqb_neq _ _)) by done.
    cbn [app unleb]. rewrite leb_byte by lia. rewrite (proj2 (Z.ltb_ge _ _)) by euclid.
    rewrite Nat2Z.inj_succ, Z.pow_succ_r in Hn by lia.
    rewrite IH; [cbn; f_equal; f_equal; euclid|euclid|euclid|].
    destruct fuel; [|lia]. cbn in Hn. lia.
Qed.

(** Enough fuel for the loop to end: any length is below its own power of two. *)
Lemma leb_fuel_enough n : 0 <= n -> n < 2 ^ Z.of_nat (leb_fuel n) /\ (0 < leb_fuel n)%nat.
Proof.
  intros Hn. unfold leb_fuel. split; [|lia].
  destruct (decide (n = 0)) as [->|]; [done|].
  pose proof (Z.log2_spec n). rewrite Nat2Z.inj_succ, Z2Nat.id by apply Z.log2_nonneg. lia.
Qed.

Lemma prependLen_inj a b r r' : prependLen a ++ r = prependLen b ++ r' -> a = b /\ r = r'.
Proof.
  unfold prependLen. rewrite <- !app_assoc. intros He.
  assert (forall x s, unleb (leb128 (leb_fuel (Z.of_nat (length x))) (Z.of_nat (length x)) ++ x ++ s)
    = Some (Z.of_nat (length x), x ++ s)) as Hread.
  { intros x s. pose proof (leb_fuel_enough (Z.of_nat (length x))). apply unleb_leb; lia. }
  pose proof (Hread a r) as Ha. rewrite He, Hread in Ha. injection Ha as Hlen Happ.
  apply app_inj_1 in Happ; [naive_solver|lia].
Qed.

Lemma LVCat_cons x l : LVCat (x :: l) = prependLen x ++ LVCat l.
Proof. done. Qed.

Lemma LVCat_inj l l' r r' :
  length l = length l' -> LVCat l ++ r = LVCat l' ++ r' -> l = l' /\ r = r'.
Proof.
  revert l'. induction l as [|x l IH]; intros [|y l'] Hlen He; try done.
  rewrite !LVCat_cons, <- !app_assoc in He. apply prependLen_inj in He as [-> He].
  cbn in Hlen. injection Hlen as Hlen. destruct (IH l' Hlen He) as [-> ->]. done.
Qed.

(** Every input is recoverable from the generator string. *)
Lemma generatorString_inj dsi prs ci sid dsi' prs' ci' sid' n :
  generatorString dsi prs ci sid n = generatorString dsi' prs' ci' sid' n ->
  dsi = dsi' /\ prs = prs' /\ ci = ci' /\ sid = sid'.
Proof.
  unfold generatorString. cbn zeta. intros He.
  apply (f_equal (fun l => l ++ [])) in He. apply LVCat_inj in He as [He _]; [|done].
  by injection He as -> -> _ -> ->.
Qed.

(** ** What the exchange guarantees *)

Section Agreement.
Context `{Hashes} `{Ristretto}.

(** Everything a session hashes: the input of its key, and of its MAC key. *)
Definition hashed (sid k a b : bytes) : list bytes :=
  let isk := LVCat [of_string (DSI +:+ "_ISK"); sid; k] ++ a ++ b in
  [isk; of_string "CPaceMac" ++ sid ++ sha512 isk].

(** Two different inputs, one hashed by each of two sessions, with one image;
    and two different pairs of a key and a message with one tag. *)
Definition sha512_collision (l l' : list bytes) : Prop :=
  exists m m', m ∈ l /\ m' ∈ l' /\ m <> m' /\ sha512 m = sha512 m'.
Definition hmac_collision (s s' : bytes * bytes) : Prop :=
  s <> s' /\ hmac_sha512 s.1 s.2 = hmac_sha512 s'.1 s'.2.

Lemma scalarMultVfy_Ok y share k :
  scalarMultVfy (Some y) share = Ok k <->
  exists x, Element_SetCanonicalBytes share = Ok x /\
    Element_Equal (ScalarMult y x) NewIdentityElement = false /\
    k = Element_Bytes (ScalarMult y x).
Proof.
  unfold scalarMultVfy. destruct (Element_SetCanonicalBytes share) as [x|e]; [|naive_solver].
  cbn zeta. split.
  - destruct (Element_Equal _ _) eqn:E; [done|]. intros [= <-]. by exists x.
  - intros (x' & Hx & Hne & ->). injection Hx as <-. by rewrite Hne.
Qed.

Lemma newInitiator_Ok i ad rnd a rnd' :
  newInitiator i ad rnd = Ok (a, rnd') ->
  exists y g, sampleScalar rnd = Ok (y, rnd') /\
    calculateGenerator (in_PRS i) (in_CI i) (in_SID i) = Ok g /\
    a = mk_Initiator i (Some y) (scalarMult y g) ad false.
Proof.
  unfold newInitiator. case_bool_decide; [done|].
  intros ([y r] & Hy & (g & Hg & [= <- <-])%result_bind_Ok)%result_bind_Ok. eauto 10.
Qed.

Lemma respond_Ok i ad share peerAD rnd share' s rnd' :
  respond i ad share peerAD rnd = Ok (share', s, rnd') ->
  exists y g k, sampleScalar rnd = Ok (y, rnd') /\
    calculateGenerator (in_PRS i) (in_CI i) (in_SID i) = Ok g /\ share' = scalarMult y g /\
    scalarMultVfy (Some y) share = Ok k /\
    s = newSession (in_SID i) k (LVCat [share'; ad]) (LVCat [share; peerAD])
          (LVCat [share; peerAD]) (LVCat [share'; ad]).
Proof.
  unfold respond. case_bool_decide; [done|].
  intros ([y r] & Hy & (g & Hg & (k & Hk & [= <- <- <-])%result_bind_Ok)%result_bind_Ok)%result_bind_Ok.
  eauto 10.
Qed.

Lemma finish_agrees `{!RistrettoLaws} i adA adB rndA rndB a rndA' shareB sB rndB' :
  newInitiator i adA rndA = Ok (a, rndA') ->
  respond i adB (ci_share a) adA rndB = Ok (shareB, sB, rndB') ->
  exists sA a', Finish a shareB adB = (Ok sA, a') /\ ss_isk sA = ss_isk sB /\
    Session_Verify sA (Confirmation sB) = true /\ Session_Verify sB (Confirmation sA) = true /\
    ci_done a' = true.
Proof.
  intros (yA & g & _ & Hg & ->)%newInitiator_Ok (yB & g' & k & _ & Hg' & -> & Hk & ->)%respond_Ok.
  rewrite Hg in Hg'. injection Hg' as <-. cbn [ci_share] in *.
  apply scalarMultVfy_Ok in Hk as (x & Hx & Hne & ->).
  unfold scalarMult in Hx. rewrite Element_decode in Hx. injection Hx as <-.
  rewrite ScalarMult_comm in Hne.
  assert (scalarMultVfy (Some yA) (scalarMult yB g) = Ok (Element_Bytes (ScalarMult yA (ScalarMult yB g))))
    as Hv.
  { apply scalarMultVfy_Ok. exists (ScalarMult yB g). unfold scalarMult.
    by rewrite Element_decode. }
  unfold Finish. cbn [ci_done ci_y ci_share ci_ad ci_in]. rewrite Hv, (ScalarMult_comm yB yA).
  eexists _, _. split; [done|]. unfold Session_Verify, Confirmation, newSession.
  cbn [ss_isk ss_macKey ss_ownMsg ss_peerMsg]. split_and!; try done;
    by apply bool_decide_eq_true_2.
Qed.

(** The exchange completes.  When the responder, from the same
    password, channel and session id, has answered the initiator's share, the
    initiator finishes too; both hold the same session key, and each accepts
    the other's confirmation. *)
Theorem exchange_agrees `{!RistrettoLaws} i adA adB rndA rndB a rndA' shareB sB rndB' :
  newInitiator i adA rndA = Ok (a, rndA') ->
  respond i adB (ci_share a) adA rndB = Ok (shareB, sB, rndB') ->
  exists sA a', Finish a shareB adB = (Ok sA, a') /\ ss_isk sA = ss_isk sB /\
    Session_Verify sA (Confirmation sB) = true /\ Session_Verify sB (Confirmation sA) = true /\
    (forall share ad, (Finish a' share ad).1 = Err ErrSpent).
Proof.
  intros Ha Hb. destruct (finish_agrees _ _ _ _ _ _ _ _ _ _ Ha Hb) as (sA & a' & Hf & Hi & Hv & Hw & Hd).
  exists sA, a'. split_and!; try done. intros share ad. unfold Finish. by rewrite Hd.
Qed.

Lemma newSession_binds `{!HashLaws} sid k own peer a b sid' k' own' peer' a' b' s1 s2 s1' s2' :
  a = LVCat [s1; s2] -> a' = LVCat [s1'; s2'] ->
  ss_macKey (newSession sid k own peer a b) = ss_macKey (newSession sid' k' own' peer' a' b') ->
  sha512_collision (hashed sid k a b) (hashed sid' k' a' b') \/
  (sid = sid' /\ k = k' /\ a = a' /\ b = b').
Proof.
  intros -> -> Hm. unfold newSession in Hm. cbn [ss_macKey] in Hm. unfold hashed.
  set (m := LVCat [of_string (DSI +:+ "_ISK"); sid; k] ++ LVCat [s1; s2] ++ b) in *.
  set (m' := LVCat [of_string (DSI +:+ "_ISK"); sid'; k'] ++ LVCat [s1'; s2'] ++ b') in *.
  destruct (decide (of_string "CPaceMac" ++ sid ++ sha512 m =
    of_string "CPaceMac" ++ sid' ++ sha512 m')) as [Heq|Hne]; [|left; eexists _, _; split_and!; [..|exact Hne|exact Hm]; set_solver].
  apply (inj (of_string "CPaceMac" ++.)) in Heq.
  apply app_inj_2 in Heq as [<- Hisk]; [|by rewrite !sha512_length].
  destruct (decide (m = m')) as [Hmm|Hne]; [|left; eexists _, _; split_and!; [..|exact Hne|exact Hisk]; set_solver].
  right.
  unfold m, m' in Hmm. apply LVCat_inj in Hmm as [Hl Hr]; [|done]. injection Hl as <-.
  apply LVCat_inj in Hr as [Hl' ->]; [|done]. by rewrite Hl'.
Qed.

(** A confirmation the initiator accepts binds both sides: unless two
    of the very inputs these two sessions hash or authenticate collide, the
    responder it came from had the same session id and the same group key, saw
    the share and label the initiator sent, and sent exactly the share and
    label the initiator got -- so nothing in between was changed. *)
Theorem confirmation_binds `{!HashLaws} a shareB adB sA a' i adR shareR peerAD rnd shareR' sB rnd' :
  ci_done a = false -> Finish a shareB adB = (Ok sA, a') ->
  respond i adR shareR peerAD rnd = Ok (shareR', sB, rnd') ->
  Session_Verify sA (Confirmation sB) = true ->
  exists k yB k', scalarMultVfy (ci_y a) shareB = Ok k /\ scalarMultVfy (Some yB) shareR = Ok k' /\
    (sha512_collision
       (hashed (in_SID (ci_in a)) k (LVCat [ci_share a; ci_ad a]) (LVCat [shareB; adB]))
       (hashed (in_SID i) k' (LVCat [shareR; peerAD]) (LVCat [shareR'; adR])) \/
     hmac_collision (ss_macKey sA, ss_peerMsg sA) (ss_macKey sB, ss_ownMsg sB) \/
     (in_SID (ci_in a) = in_SID i /\ k = k' /\ ci_share a = shareR /\ ci_ad a = peerAD /\
      shareB = shareR' /\ adB = adR)).
Proof.
  intros Hd HF (y & g & k' & _ & _ & _ & Hk' & ->)%respond_Ok Hv. unfold Finish in HF.
  rewrite Hd in HF. destruct (scalarMultVfy (ci_y a) shareB) as [k|] eqn:Hk; [|done].
  assert (sA = newSession (in_SID (ci_in a)) k (LVCat [ci_share a; ci_ad a]) (LVCat [shareB; adB])
    (LVCat [ci_share a; ci_ad a]) (LVCat [shareB; adB])) as -> by congruence.
  exists k, y, k'. split_and!; [done..|]. unfold Session_Verify, Confirmation, tag in Hv.
  apply bool_decide_eq_true in Hv.
  match goal with |- _ \/ hmac_collision ?s ?s' \/ _ =>
    destruct (decide (s = s')) as [Heq|Hne]; [|right; left; by split] end.
  pose proof (f_equal fst Heq) as Hkey. cbn [fst] in Hkey.
  apply (newSession_binds _ _ _ _ _ _ _ _ _ _ _ _ (ci_share a) (ci_ad a) shareR peerAD) in Hkey
    as [Hc|(Hsid & -> & Ha & Hb)]; [by left| |done..].
  right. right. apply (f_equal (fun l => l ++ [])) in Ha. apply LVCat_inj in Ha as [Ha _]; [|done].
  injection Ha as Hsh Had.
  apply (f_equal (fun l => l ++ [])) in Hb. apply LVCat_inj in Hb as [Hb _]; [|done].
  by injection Hb as Hsh' Had'.
Qed.

End Agreement.

(** ** A concrete group *)

Import Toy.

Module ToyGroup.

Definition decode (b : bytes) : result Z :=
  let z := Toy.string_z (to_string b) in
  if bool_decide (of_string (Toy.z_string z) = b) then Ok z else Err (errors_New "not canonical").

(** The integers under addition, every scalar an integer. *)
#[export] Instance group : Ristretto := {|
  Element := Z; Scalar := Z; NewIdentityElement := 0; NewScalar := 0;
  ScalarMult := Z.mul;
  Element_Bytes e := of_string (Toy.z_string e);
  SetUniformBytes b := Ok (1 + foldr (fun x n => byte_val x + n) 0 b mod 7);
  Element_SetCanonicalBytes := decode;
  Scalar_SetCanonicalBytes b := Ok (match b with x :: _ => byte_val x | [] => 0 end);
  Element_Equal := Z.eqb; Scalar_Equal := Z.eqb |}.

#[export] Instance group_laws : RistrettoLaws.
Proof.
  constructor; cbn [ScalarMult Element_Bytes Element_SetCanonicalBytes Element_Equal group].
  - intros. cbn in *. lia.
  - intros e. unfold decode. rewrite to_of_string, Toy.string_z_string.
    by rewrite bool_decide_eq_true_2.
  - intros b e. unfold decode. case_bool_decide as Hb; [|done]. by intros [= <-].
  - intros a b. apply Z.eqb_eq.
Qed.

Definition inputs : Inputs := mk_Inputs (of_string "123456") (of_string "channel") (of_string "sid").
Definition block (n : Z) : bytes := byte_of n :: replicate 31 x00.

Definition alice := newInitiator inputs (of_string "a") [block 0; block 3].
Definition the_initiator : Initiator :=
  match alice with Ok (a, _) => a | Err _ => mk_Initiator inputs None [] [] true end.
Definition bob := respond inputs (of_string "b") (ci_share the_initiator) (of_string "a") [block 5].

Definition no_session : Session := mk_Session [] [] [] [].
Definition bob_share : bytes := match bob with Ok (x, _, _) => x | Err _ => [] end.
Definition bob_session : Session := match bob with Ok (_, s, _) => s | Err _ => no_session end.
Definition alice_finished := Finish the_initiator bob_share (of_string "b").
Definition alice_session : Session :=
  match alice_finished.1 with Ok s => s | Err _ => no_session end.

Example alice_starts : alice = Ok (the_initiator, []).
Proof. vm_cast_no_check (eq_refl alice). Qed.
Example bob_answers : bob = Ok (bob_share, bob_session, []).
Proof. vm_cast_no_check (eq_refl bob). Qed.
Example alice_finishes : alice_finished = (Ok alice_session, alice_finished.2).
Proof. vm_cast_no_check (eq_refl alice_finished). Qed.

End ToyGroup.

Import ToyGroup.

Lemma exchange_agrees_witness :
  exists sA, alice_finished.1 = Ok sA /\ ss_isk sA = ss_isk bob_session.
Proof.
  destruct (exchange_agrees inputs (of_string "a") (of_string "b") [block 0; block 3] [block 5]
    the_initiator [] bob_share bob_session []) as (sA & a' & HF & Hi & _).
  - exact alice_starts.
  - exact bob_answers.
  - exists sA. split; [exact (f_equal fst HF)|exact Hi].
Defined.

Lemma confirmation_binds_witness :
  Session_Verify alice_session (Confirmation bob_session) = true /\
  exists k, scalarMultVfy (ci_y the_initiator) bob_share = Ok k.
Proof.
  split; [vm_compute; reflexivity|].
  destruct (confirmation_binds the_initiator bob_share (of_string "b") alice_session
    alice_finished.2 inputs (of_string "b") (ci_share the_initiator) (of_string "a") [block 5]
    bob_share bob_session []) as (k & _ & _ & Hk & _).
  - vm_compute. reflexivity.
  - exact alice_finishes.
  - exact bob_answers.
  - vm_compute. reflexivity.
  - exists k. exact Hk.
Defined.
