(* ===== verification/Base64.v ===== *)
(** * Base64: [encoding/base64] with [RawURLEncoding]

    The encoding of a pairing code, as the standard library does it: the URL
    alphabet, no padding, new lines skipped when decoding, and the bits past
    the last whole byte not checked. *)

From S2P Require Import Prelude.
From S2P Require Import GoText.

Local Open Scope Z_scope.

(** The 64 characters: upper case, lower case, digits, minus, underscore. *)
Definition b64_char (d : Z) : byte :=
  byte_of (if d <? 26 then 65 + d
           else if d <? 52 then 71 + d
           else if d <? 62 then d - 4
           else if d =? 62 then 45 else 95).

Definition b64_digit (b : byte) : option Z :=
  let c := byte_val b in
  if in_range 65 90 c then Some (c - 65)
  else if in_range 97 122 c then Some (c - 71)
  else if in_range 48 57 c then Some (c + 4)
  else if c =? 45 then Some 62
  else if c =? 95 then Some 63 else None.

(** ** Encoding *)

Fixpoint b64_split (b : bytes) : list Z :=
  match b with
  | [] => []
  | [x] => let v := Z.shiftl (byte_val x) 16 in [Z.land (Z.shiftr v 18) 63; Z.land (Z.shiftr v 12) 63]
  | [x; y] =>
    let v := Z.lor (Z.shiftl (byte_val x) 16) (Z.shiftl (byte_val y) 8) in
    [Z.land (Z.shiftr v 18) 63; Z.land (Z.shiftr v 12) 63; Z.land (Z.shiftr v 6) 63]
  | x :: y :: z :: b' =>
    let v := Z.lor (Z.shiftl (byte_val x) 16) (Z.lor (Z.shiftl (byte_val y) 8) (byte_val z)) in
    Z.land (Z.shiftr v 18) 63 :: Z.land (Z.shiftr v 12) 63 :: Z.land (Z.shiftr v 6) 63
      :: Z.land v 63 :: b64_split b'
  end.

(** [EncodeToString]. *)
Definition b64_encode (b : bytes) : string := to_string (map b64_char (b64_split b)).

(** ** Decoding *)

(** [CorruptInputError(pos)]. *)
Definition CorruptInputError (pos : Z) : error :=
  errors_New ("illegal base64 data at input byte " +:+ itoa pos).

(** The digits of the input from position [pos] on: new lines are skipped, and
    the first character outside the alphabet is an error at its position. *)
Fixpoint b64_scan (pos : Z) (s : bytes) : result (list Z) :=
  match s with
  | [] => Ok []
  | b :: s' =>
    match b64_digit b with
    | Some d => ds ← b64_scan (pos + 1) s'; Ok (d :: ds)
    | None =>
      if (byte_val b =? 10) || (byte_val b =? 13) then b64_scan (pos + 1) s'
      else Err (CorruptInputError pos)
    end
  end.

(** Quanta of four digits to three bytes; [None] for one digit left over. *)
Fixpoint b64_join (ds : list Z) : option bytes :=
  match ds with
  | [] => Some []
  | [_] => None
  | [d0; d1] =>
    let v := Z.lor (Z.shiftl d0 18) (Z.shiftl d1 12) in Some [byte_of (Z.shiftr v 16)]
  | [d0; d1; d2] =>
    let v := Z.lor (Z.shiftl d0 18) (Z.lor (Z.shiftl d1 12) (Z.shiftl d2 6)) in
    Some [byte_of (Z.shiftr v 16); byte_of (Z.shiftr v 8)]
  | d0 :: d1 :: d2 :: d3 :: ds' =>
    let v := Z.lor (Z.shiftl d0 18) (Z.lor (Z.shiftl d1 12) (Z.lor (Z.shiftl d2 6) d3)) in
    b ← b64_join ds';
    Some (byte_of (Z.shiftr v 16) :: byte_of (Z.shiftr v 8) :: byte_of v :: b)
  end.

(** [DecodeString]. *)
Definition b64_decode (s : string) : result bytes :=
  ds ← b64_scan 0 (of_string s);
  match b64_join ds with
  | Some b => Ok b
  | None => Err (CorruptInputError (Z.of_nat (length (of_string s)) - 1))
  end.

(** ** Reading back *)

Definition b64_ok (d : Z) : Prop := 0 <= d < 64.

Lemma b64_digit_char d : b64_ok d -> b64_digit (b64_char d) = Some d.
Proof.
  intros Hd.
  assert (Forall (fun n => b64_digit (b64_char (Z.of_nat n)) = Some (Z.of_nat n)) (seq 0 64)) as Hall
    by (apply (bool_decide_unpack _); vm_compute; reflexivity).
  rewrite Forall_forall in Hall. specialize (Hall (Z.to_nat d)).
  rewrite Z2Nat.id in Hall by apply Hd. apply Hall, elem_of_seq. unfold b64_ok in Hd. lia.
Qed.

Lemma b64_scan_chars pos ds : Forall b64_ok ds -> b64_scan pos (map b64_char ds) = Ok ds.
Proof.
  intros Hds. revert pos. induction Hds as [|d ds Hd _ IH]; intros pos; [done|].
  cbn [map b64_scan]. rewrite b64_digit_char by done. by rewrite IH.
Qed.

Lemma land_63 v : Z.land v 63 = v mod 64.
Proof. change 63 with (Z.ones 6). by rewrite Z.land_ones by lia. Qed.

(** Arithmetic for the shifts of one quantum. *)
Lemma quantum_join d0 d1 d2 d3 :
  b64_ok d0 -> b64_ok d1 -> b64_ok d2 -> b64_ok d3 ->
  Z.lor (Z.shiftl d0 18) (Z.lor (Z.shiftl d1 12) (Z.lor (Z.shiftl d2 6) d3)) =
  d0 * 262144 + d1 * 4096 + d2 * 64 + d3.
Proof.
  unfold b64_ok. intros. rewrite (lor_shiftl_add d2) by (cbn; lia).
  rewrite (lor_shiftl_add d1) by (cbn; lia). rewrite (lor_shiftl_add d0) by (cbn; lia). lia.
Qed.

Lemma quantum_split x y z :
  0 <= x < 256 -> 0 <= y < 256 -> 0 <= z < 256 ->
  Z.lor (Z.shiftl x 16) (Z.lor (Z.shiftl y 8) z) = x * 65536 + y * 256 + z.
Proof.
  intros. rewrite (lor_shiftl_add y) by (cbn; lia). rewrite (lor_shiftl_add x) by (cbn; lia). lia.
Qed.

Lemma byte_of_val_mod v b : v mod 256 = byte_val b -> byte_of v = b.
Proof. apply byte_of_eq. Qed.

(** One rule for induction three bytes at a time. *)
Lemma bytes_ind3 (P : bytes -> Prop) :
  P [] -> (forall x, P [x]) -> (forall x y, P [x; y]) ->
  (forall x y z l, P l -> P (x :: y :: z :: l)) -> forall l, P l.
Proof.
  intros H0 H1 H2 H3. fix IH 1. intros [|x [|y [|z l]]]; [done|apply H1|apply H2|apply H3, IH].
Qed.

Lemma land_63_ok v : b64_ok (Z.land v 63).
Proof. rewrite land_63. unfold b64_ok. apply Z.mod_pos_bound. lia. Qed.

Lemma b64_split_ok b : Forall b64_ok (b64_split b).
Proof.
  induction b using bytes_ind3; cbn [b64_split]; repeat (constructor; [apply land_63_ok|]); done.
Qed.

Lemma quantum_join1 d0 d1 :
  b64_ok d0 -> b64_ok d1 -> Z.lor (Z.shiftl d0 18) (Z.shiftl d1 12) = d0 * 262144 + d1 * 4096.
Proof.
  intros H0 H1. pose proof (quantum_join d0 d1 0 0 H0 H1) as Hj.
  rewrite Z.shiftl_0_l, !Z.lor_0_r in Hj. unfold b64_ok in Hj. lia.
Qed.

Lemma quantum_join2 d0 d1 d2 :
  b64_ok d0 -> b64_ok d1 -> b64_ok d2 ->
  Z.lor (Z.shiftl d0 18) (Z.lor (Z.shiftl d1 12) (Z.shiftl d2 6)) =
  d0 * 262144 + d1 * 4096 + d2 * 64.
Proof.
  intros H0 H1 H2. pose proof (quantum_join d0 d1 d2 0 H0 H1 H2) as Hj.
  rewrite Z.lor_0_r in Hj. unfold b64_ok in Hj. lia.
Qed.

(** Shifts to the right as divisions by numerals. *)
Ltac shifts :=
  rewrite ?land_63, ?Z.shiftr_div_pow2, ?Z.shiftl_mul_pow2 by lia;
  change (2 ^ 18) with 262144; change (2 ^ 16) with 65536; change (2 ^ 12) with 4096;
  change (2 ^ 8) with 256; change (2 ^ 6) with 64.

Lemma b64_join_split b : b64_join (b64_split b) = Some b.
Proof.
  induction b as [|x|x y|x y z b IH] using bytes_ind3; [done| | |].
  - pose proof (byte_val_range x). cbn [b64_split b64_join].
    rewrite quantum_join1 by apply land_63_ok. shifts.
    repeat f_equal; apply byte_of_val_mod; euclid.
  - pose proof (byte_val_range x). pose proof (byte_val_range y). cbn [b64_split b64_join].
    rewrite quantum_join2 by apply land_63_ok.
    rewrite (lor_shiftl_add (byte_val x)) by (shifts; lia). shifts.
    repeat f_equal; apply byte_of_val_mod; euclid.
  - pose proof (byte_val_range x). pose proof (byte_val_range y). pose proof (byte_val_range z).
    cbn [b64_split b64_join]. rewrite IH. cbn [mbind option_bind].
    rewrite quantum_join by apply land_63_ok. rewrite quantum_split by lia. shifts.
    repeat f_equal; apply byte_of_val_mod; euclid.
Qed.

(** Decoding inverts encoding. *)
Lemma b64_decode_encode b : b64_decode (b64_encode b) = Ok b.
Proof.
  unfold b64_decode, b64_encode. rewrite of_to_string.
  rewrite b64_scan_chars by apply b64_split_ok. cbn [mbind result_bind].
  by rewrite b64_join_split.
Qed.

Example b64_encode_hello : b64_encode (of_string "hello?>") = "aGVsbG8_Pg"%string.
Proof. reflexivity. Qed.
Example b64_decode_newline :
  b64_decode ("aGVs" +:+ nl +:+ "bG8") = Ok (of_string "hello").
Proof. reflexivity. Qed.
Example b64_decode_padded :
  b64_decode "aGVsbG8=" = Err (CorruptInputError 7).
Proof. reflexivity. Qed.
Example b64_decode_leftover : b64_decode "aGVsb" = Err (CorruptInputError 4).
Proof. reflexivity. Qed.
