(* ===== verification/Rpc.v ===== *)
(** * Rpc: what a handler is told of its caller, and how it refuses

    The parts of [connectrpc.com/connect] and [pkg/transport] that every
    handler of the peer service uses: the codes, the error that carries one,
    and the identity the channel authenticated. *)

From S2P Require Import Prelude.
From S2P Require Import Ssh.

Inductive Code :=
| CodeAlreadyExists | CodeResourceExhausted | CodePermissionDenied | CodeFailedPrecondition
| CodeInvalidArgument | CodeUnauthenticated | CodeInternal | CodeUnimplemented | CodeNotFound
| CodeUnknown | CodeUnavailable | CodeDeadlineExceeded.

#[export] Instance Code_eq_dec : EqDecision Code.
Proof. solve_decision. Defined.

(** [connect.Code.String]. *)
Definition Code_String (c : Code) : string :=
  match c with
  | CodeAlreadyExists => "already_exists"
  | CodeResourceExhausted => "resource_exhausted"
  | CodePermissionDenied => "permission_denied"
  | CodeFailedPrecondition => "failed_precondition"
  | CodeInvalidArgument => "invalid_argument"
  | CodeUnauthenticated => "unauthenticated"
  | CodeInternal => "internal"
  | CodeUnimplemented => "unimplemented"
  | CodeNotFound => "not_found"
  | CodeUnknown => "unknown"
  | CodeUnavailable => "unavailable"
  | CodeDeadlineExceeded => "deadline_exceeded"
  end.

(** [connect.Error]: its code, and the error it carries. *)
Record rpc_error := mk_rpc_error { re_code : Code; re_err : error }.

(** The same as an [error]: the code in front of the message. *)
Definition rpc_as_error (e : rpc_error) : error := wrap_w (Code_String (re_code e) +:+ ": ") (re_err e) EmptyString.

Definition unauthenticated : rpc_error :=
  mk_rpc_error CodeUnauthenticated (errors_New "the connection is not authenticated").

(** [transport.PeerIdentity]. *)
Record PeerIdentity `{Ssh} := mk_PeerIdentity {
  pi_PublicKey : PublicKey;
  pi_Fingerprint : string;
  pi_RemoteAddr : string
}.
Arguments mk_PeerIdentity {_} _ _ _.

(** A call that answers or refuses. *)
Abbreviation reply A := (A + rpc_error)%type.

(** What becomes of a call: it gets there and the answer comes back, the
    answer is lost, or it never arrives. *)
Inductive fate := Arrived | AnswerLost | NeverArrived.

Definition unavailable : error := errors_New "unavailable".
