(* ===== verification/PairingProto.v ===== *)
(** * PairingProto: the messages of a pairing

    [PairingCode], the calls of the pairing service and what the store keeps of
    a pairing under way, from [service.proto], [approval.proto] and
    [store.proto]. *)

From S2P Require Import Prelude.
From S2P Require Import GoText.
From S2P Require Import Proto.

Inductive PairingAnswer :=
| ANSWER_UNSPECIFIED | ANSWER_ACCEPTED | ANSWER_DECLINED | ANSWER_WITHDRAWN.

Inductive PairingRecordState :=
| RECORD_STATE_UNSPECIFIED | RECORD_STATE_PENDING | RECORD_STATE_PAIRED | RECORD_STATE_GONE.

Inductive PairingIntent :=
| PAIRING_INTENT_UNSPECIFIED | PAIRING_INTENT_PEER_APPROVES | PAIRING_INTENT_PEER_REQUESTS
| PAIRING_INTENT_MUTUAL.

#[export] Instance PairingAnswer_eq_dec : EqDecision PairingAnswer.
Proof. solve_decision. Defined.
#[export] Instance PairingRecordState_eq_dec : EqDecision PairingRecordState.
Proof. solve_decision. Defined.
#[export] Instance PairingIntent_eq_dec : EqDecision PairingIntent.
Proof. solve_decision. Defined.
#[export] Instance zero_PairingAnswer : Zero PairingAnswer := ANSWER_UNSPECIFIED.

Record PairingCode := mk_PairingCode {
  pc_version : Z;
  pc_secret : string;
  pc_identity_public_key : bytes;
  pc_addresses : list string;
  pc_instance_name : string;
  pc_expires_at : option time;
  pc_pin : string;
  pc_tunnel_address : string;
  pc_tunnel_version : Z
}.

#[export] Instance PairingCode_eq_dec : EqDecision PairingCode.
Proof. solve_decision. Defined.

(** [code.Pin = pin] and [code.Secret = secret]. *)
Definition set_pin (pin : string) (c : PairingCode) : PairingCode :=
  mk_PairingCode (pc_version c) (pc_secret c) (pc_identity_public_key c) (pc_addresses c)
    (pc_instance_name c) (pc_expires_at c) pin (pc_tunnel_address c) (pc_tunnel_version c).
Definition set_secret (secret : string) (c : PairingCode) : PairingCode :=
  mk_PairingCode (pc_version c) secret (pc_identity_public_key c) (pc_addresses c)
    (pc_instance_name c) (pc_expires_at c) (pc_pin c) (pc_tunnel_address c) (pc_tunnel_version c).

#[export] Instance PairingAttempt_eq_dec : EqDecision PairingAttempt.
Proof. solve_decision. Defined.

Record PairRequest := mk_PairRequest {
  pq_proof : bytes;
  pq_instance_name : string;
  pq_identity_public_key : bytes;
  pq_listen_addresses : list string;
  pq_tunnel : option TunnelOffer
}.

Record PairResponse := mk_PairResponse {
  pp_accepted : bool;
  pp_session_id : string;
  pp_instance_name : string;
  pp_identity_public_key : bytes;
  pp_may_approve : bool;
  pp_may_request : bool;
  pp_listen_addresses : list string;
  pp_confirmation : bytes;
  pp_reason : string;
  pp_tunnel : option TunnelOffer
}.

Record PairStartResponse := mk_PairStartResponse {
  ps_session_id : bytes;
  ps_share : bytes
}.

Record PairFinishRequest := mk_PairFinishRequest {
  fq_session_id : bytes;
  fq_share : bytes;
  fq_confirmation : bytes;
  fq_instance_name : string;
  fq_listen_addresses : list string;
  fq_tunnel : option TunnelOffer
}.

Record PairFinishResponse := mk_PairFinishResponse {
  fp_confirmation : bytes;
  fp_session_id : string;
  fp_instance_name : string;
  fp_may_approve : bool;
  fp_may_request : bool;
  fp_listen_addresses : list string;
  fp_tunnel : option TunnelOffer
}.

Record SettlePairingRequest := mk_SettlePairingRequest {
  sq_session_id : string;
  sq_answer : PairingAnswer;
  sq_reason : string
}.

Record SettlePairingResponse := mk_SettlePairingResponse {
  sp_state : PairingRecordState;
  sp_answer : PairingAnswer;
  sp_reason : string
}.

(** What the store keeps of a pairing that is not settled. *)
Record PendingPairing := mk_PendingPairing {
  pg_session_id : string;
  pg_fingerprint : string;
  pg_name : string;
  pg_identity_public_key : bytes;
  pg_addresses : list string;
  pg_may_approve : bool;
  pg_may_request : bool;
  pg_we_dialled : bool;
  pg_key_from_code : bool;
  pg_remote_address : string;
  pg_our_answer : PairingAnswer;
  pg_their_answer : PairingAnswer;
  pg_started_at : option time;
  pg_answered_at : option time;
  pg_confirmation_request_id : string;
  pg_failed_attempts : list PairingAttempt;
  pg_tunnel : option TunnelOffer
}.

#[export] Instance PendingPairing_eq_dec : EqDecision PendingPairing.
Proof. solve_decision. Defined.

Definition set_our_answer (a : PairingAnswer) (at_ : option time) (p : PendingPairing)
    : PendingPairing :=
  mk_PendingPairing (pg_session_id p) (pg_fingerprint p) (pg_name p) (pg_identity_public_key p)
    (pg_addresses p) (pg_may_approve p) (pg_may_request p) (pg_we_dialled p) (pg_key_from_code p)
    (pg_remote_address p) a (pg_their_answer p) (pg_started_at p) at_
    (pg_confirmation_request_id p) (pg_failed_attempts p) (pg_tunnel p).
Definition set_their_answer (a : PairingAnswer) (p : PendingPairing) : PendingPairing :=
  mk_PendingPairing (pg_session_id p) (pg_fingerprint p) (pg_name p) (pg_identity_public_key p)
    (pg_addresses p) (pg_may_approve p) (pg_may_request p) (pg_we_dialled p) (pg_key_from_code p)
    (pg_remote_address p) (pg_our_answer p) a (pg_started_at p) (pg_answered_at p)
    (pg_confirmation_request_id p) (pg_failed_attempts p) (pg_tunnel p).
Definition set_confirmation_request (id : string) (p : PendingPairing) : PendingPairing :=
  mk_PendingPairing (pg_session_id p) (pg_fingerprint p) (pg_name p) (pg_identity_public_key p)
    (pg_addresses p) (pg_may_approve p) (pg_may_request p) (pg_we_dialled p) (pg_key_from_code p)
    (pg_remote_address p) (pg_our_answer p) (pg_their_answer p) (pg_started_at p)
    (pg_answered_at p) id (pg_failed_attempts p) (pg_tunnel p).
