(* ===== verification/Trust.v ===== *)
(** * Trust: [pkg/trust]

    Pairing codes ([code.go]): the PIN, the older secret with its proof, and
    the full code; what a pairing is for and what a record permits
    ([trust.go]); and whether a peer can be dialled ([reach.go]). *)

From S2P Require Import Prelude.
From S2P Require Import GoText.
From S2P Require Import Proto.
From S2P Require Import PairingProto.
From S2P Require Import Ssh.
From S2P Require Import Base64.

Local Open Scope Z_scope.

(** ** [code.go] *)

Definition CodeValidity : duration := 5 * Minute.
Definition MaxAttempts : nat := 5.
Definition PINLength : nat := 6.
Definition secretLength : nat := 10.
Definition codeVersion : Z := 1.
Definition codePrefix : string := "ladulas-pair-v1.".
Definition secretAlphabet : string := "0123456789abcdefghjkmnpqrstvwxyz".

Definition ErrBadCode : error :=
  sentinel "trust.ErrBadCode" "trust: the pairing code is not readable".
Definition ErrCodeExpired : error :=
  sentinel "trust.ErrCodeExpired" "trust: the pairing code has expired".
Definition ErrBadPIN : error := sentinel "trust.ErrBadPIN" "trust: a pairing PIN is six digits".

(** [len(s)], in bytes. *)
Definition len (s : string) : nat := length (of_string s).
(** [s[i:j]] within bounds. *)
Definition slice (i j : nat) (s : string) : string :=
  to_string (take (j - i) (drop i (of_string s))).

(** [NewPIN] for the number drawn below a million. *)
Definition NewPIN (n : Z) : string := pad_zero 6 n.

Definition PIN_Display (p : string) : string :=
  if bool_decide (len p <> PINLength) then p
  else slice 0 3 p +:+ " " +:+ slice 3 (len p) p.

(** [NewSecret] for the random bytes read. *)
Definition NewSecret (buf : bytes) : string :=
  to_string (map (fun b =>
    nth (Z.to_nat (Z.land (byte_val b) 31)) (of_string secretAlphabet) x00) (take secretLength buf)).

Definition Secret_Display (s : string) : string :=
  if bool_decide (len s <> secretLength) then s
  else slice 0 5 s +:+ "-" +:+ slice 5 (len s) s.

(** [hmac.Equal] and [subtle.ConstantTimeCompare]. *)
Definition Secret_Equal (s other : string) : bool := bool_decide (s = other).

Section Codes.
Context `{Unicode}.

(** [%q] of a rune: single quotes, and the double quote needs no escape. *)
Definition quoteRune (r : rune) : string :=
  "'" +:+ (if r =? 39 then String (ascii_of_N 92) "'"
           else if r =? 34 then dquote else quote_rune (r, encode_rune r)) +:+ "'".

(** The loop over the runes of a typed PIN. *)
Fixpoint pin_digits (rs : list rune) : result bytes :=
  match rs with
  | [] => Ok []
  | r :: rs' =>
    if (r =? 32) || (r =? 45) || (r =? 9) then pin_digits rs'
    else if (r <? 48) || (57 <? r)
    then Err (wrap_w emp ErrBadPIN (": " +:+ quoteRune r +:+ " is not a digit"))
    else ds ← pin_digits rs'; Ok (encode_rune r ++ ds)
  end.

Definition ParsePIN (text : string) : result string :=
  b ← pin_digits (runes (TrimSpace text));
  if bool_decide (length b <> PINLength)
  then Err (wrap_w emp ErrBadPIN (", and this is " +:+ itoa (Z.of_nat (length b))))
  else Ok (to_string b).

(** What a misread character stands for. *)
Definition unconfuse (r : rune) : rune :=
  if (r =? 105) || (r =? 108) then 49
  else if r =? 111 then 48
  else if r =? 117 then 118 else r.

(** The loop over the runes of a typed secret. *)
Fixpoint secret_chars (rs : list rune) : result bytes :=
  match rs with
  | [] => Ok []
  | r :: rs' =>
    if (r =? 45) || (r =? 32) || (r =? 9) then secret_chars rs'
    else
      let r := unconfuse r in
      if negb (bool_decide (r ∈ runes secretAlphabet))
      then Err (wrap_w emp ErrBadCode (": " +:+ quoteRune r +:+ " is not part of a pairing code"))
      else cs ← secret_chars rs'; Ok (encode_rune r ++ cs)
  end.

Definition ParseSecret (text : string) : result string :=
  b ← secret_chars (runes (ToLower (TrimSpace text)));
  if bool_decide (length b <> secretLength)
  then Err (wrap_w emp ErrBadCode (": a pairing code is " +:+ itoa (Z.of_nat secretLength)
         +:+ " characters, this one is " +:+ itoa (Z.of_nat (length b))))
  else Ok (to_string b).

(** *** The older proof *)

Definition proofPrefix : string := "ladulas-pairing-v1".
Definition confirmationPrefix : string := "ladulas-pairing-v1-response".

Context `{Hashes} `{Ssh}.

Definition key_blob (key : option PublicKey) : bytes :=
  match key with Some k => ssh_Marshal k | None => [] end.

Definition mac_input (prefix : string) (listener dialler : option PublicKey) : bytes :=
  of_string prefix ++ [x00] ++
  concat (map (fun key =>
    put_u32 (u32 (Z.of_nat (length (key_blob key)))) ++ key_blob key) [listener; dialler]).

Definition mac (secret prefix : string) (listener dialler : option PublicKey) : bytes :=
  hmac_sha256 (of_string secret) (mac_input prefix listener dialler).

Definition Proof_ (secret : string) (listener dialler : option PublicKey) : bytes :=
  mac secret proofPrefix listener dialler.
Definition Confirmation (secret : string) (listener dialler : option PublicKey) : bytes :=
  mac secret confirmationPrefix listener dialler.
Definition VerifyProof (secret : string) (listener dialler : option PublicKey) (proof : bytes)
    : bool := bool_decide (Proof_ secret listener dialler = proof).
Definition VerifyConfirmation (secret : string) (listener dialler : option PublicKey)
    (confirmation : bytes) : bool :=
  bool_decide (Confirmation secret listener dialler = confirmation).

(** *** The full code *)

Context `{Codec PairingCode}.

Definition EncodeCode (code : PairingCode) : result string :=
  body ← err_ctx "trust: encode the pairing code: " (Marshal code);
  Ok (codePrefix +:+ b64_encode body).

Definition NewCode (pin secret name : string) (pub : PublicKey) (addresses : list string)
    (expires : time) : PairingCode :=
  mk_PairingCode codeVersion secret (ssh_Marshal pub) addresses name (Some expires) pin emp 0.

(** A code with nothing in it but what was typed. *)
Definition typed_code (pin secret : string) : PairingCode :=
  mk_PairingCode codeVersion secret [] [] emp None pin emp 0.

(** [fmt.Errorf("%w: %w", ErrBadCode, err)] on the way out of a call. *)
Definition bad_code {A} (r : result A) : result A :=
  match r with Ok a => Ok a | Err e => Err (wrap_ww ErrBadCode ": " e) end.

Definition DecodeCode (text : string) (now : time) : result PairingCode :=
  let text := TrimSpace text in
  if negb (HasPrefix text codePrefix) then
    match ParsePIN text with
    | Ok pin => Ok (typed_code pin emp)
    | Err _ =>
      match ParseSecret text with
      | Ok secret => Ok (typed_code emp secret)
      | Err _ => Err (wrap_w emp ErrBadCode
          ": it is neither a six-digit PIN nor a ten-character code")
      end
    end
  else
    body ← bad_code (b64_decode (TrimPrefix text codePrefix));
    code ← bad_code (Unmarshal (M := PairingCode) body);
    if bool_decide (pc_version code <> codeVersion)
    then Err (wrap_w emp ErrBadCode (": it is version " +:+ itoa (pc_version code)
           +:+ " and this build speaks " +:+ itoa codeVersion))
    else if bool_decide (pc_pin code = emp) && bool_decide (pc_secret code = emp)
    then Err (wrap_w emp ErrBadCode ": it carries neither a PIN nor a secret")
    else
      code ← (if bool_decide (pc_pin code <> emp)
              then pin ← bad_code (ParsePIN (pc_pin code)); Ok (set_pin pin code) else Ok code);
      code ← (if bool_decide (pc_secret code <> emp)
              then secret ← ParseSecret (pc_secret code); Ok (set_secret secret code)
              else Ok code);
      match pc_expires_at code with
      | Some expires => if negb (After expires now) then Err ErrCodeExpired else Ok code
      | None => Ok code
      end.

(** [None] is a nil key with a nil error. *)
Definition CodeKey (code : PairingCode) : result (option PublicKey) :=
  match pc_identity_public_key code with
  | [] => Ok None
  | blob =>
    match ParsePublicKey blob with
    | Ok pub => Ok (Some pub)
    | Err e => Err (mk_error (e_msg ErrBadCode +:+ ": the identity key does not parse: " +:+ e_msg e)
                 (e_is ErrBadCode ++ e_is e))
    end
  end.

(** ** [trust.go] *)

Definition ErrNoSuchPeer : error := sentinel "trust.ErrNoSuchPeer" "trust: no such peer".

(** [trust.PublicKey]: the key of a record, when its two halves agree. *)
Definition RecordKey (record : TrustRecord) : result PublicKey :=
  pub ← err_ctx ("trust: unusable identity key for " +:+ quote (tr_name record) +:+ ": ")
          (ParsePublicKey (tr_identity_public_key record));
  let got := FingerprintSHA256 pub in
  if bool_decide (got <> tr_fingerprint record)
  then Err (errors_New ("trust: record for " +:+ quote (tr_name record) +:+ " claims "
         +:+ tr_fingerprint record +:+ " but holds " +:+ got))
  else Ok pub.

Definition NewRecord (now : time) (name : string) (pub : PublicKey) (addresses : list string)
    (mayApprove mayRequest weInitiated : bool) : TrustRecord :=
  mk_TrustRecord (FingerprintSHA256 pub) name (ssh_Marshal pub) addresses mayApprove mayRequest []
    (Some now) weInitiated false emp None None.

End Codes.

Record Directions := mk_Directions {
  di_MayApprove : bool;
  di_MayRequest : bool;
  di_AllowedKeys : list string;
  di_AllKeys : bool
}.

Inductive Intent :=
| IntentUnspecified | IntentPeerApproves | IntentPeerRequests | IntentMutual.

#[export] Instance Intent_eq_dec : EqDecision Intent.
Proof. solve_decision. Defined.

Definition ParseIntent `{Unicode} (text : string) : result Intent :=
  let t := ToLower (TrimSpace text) in
  if bool_decide (t = "approver"%string) then Ok IntentPeerApproves
  else if bool_decide (t = "requester"%string) then Ok IntentPeerRequests
  else if bool_decide (t = "mutual"%string) || bool_decide (t = "both"%string) then Ok IntentMutual
  else Err (errors_New ("trust: " +:+ quote text +:+ " is not what a pairing can be for; " +:+
         "use approver, requester or mutual")).

Definition IntentOf (mayApprove mayRequest : bool) : Intent :=
  if mayApprove && mayRequest then IntentMutual
  else if mayApprove then IntentPeerApproves
  else if mayRequest then IntentPeerRequests else IntentUnspecified.

Definition PeerMayApprove (i : Intent) : bool :=
  bool_decide (i = IntentPeerApproves) || bool_decide (i = IntentMutual).
Definition PeerMayRequest (i : Intent) : bool :=
  bool_decide (i = IntentPeerRequests) || bool_decide (i = IntentMutual).

Definition Mirror (i : Intent) : Intent :=
  match i with
  | IntentPeerApproves => IntentPeerRequests
  | IntentPeerRequests => IntentPeerApproves
  | IntentMutual | IntentUnspecified => i
  end.

Definition Intent_String (i : Intent) : string :=
  match i with
  | IntentPeerApproves => "approver"
  | IntentPeerRequests => "requester"
  | IntentMutual => "mutual"
  | IntentUnspecified => "none"
  end.

Definition Describe (mayApprove mayRequest : bool) : string :=
  if mayApprove && mayRequest
  then "may approve signing requests for this instance, and may ask this instance to approve its own"
  else if mayApprove then "may approve signing requests for this instance"
  else if mayRequest then "may ask this instance to approve its signing requests"
  else "may do nothing until a direction is granted".

Definition DescribeShort (mayApprove mayRequest : bool) : string :=
  if mayApprove && mayRequest then "Approves and asks"
  else if mayApprove then "Approves for this instance"
  else if mayRequest then "Asks this instance to approve"
  else "No direction yet".

Definition Intent_Describe (i : Intent) : string := Describe (PeerMayApprove i) (PeerMayRequest i).

Definition IntentFromWire (i : PairingIntent) : Intent :=
  match i with
  | PAIRING_INTENT_PEER_APPROVES => IntentPeerApproves
  | PAIRING_INTENT_PEER_REQUESTS => IntentPeerRequests
  | PAIRING_INTENT_MUTUAL => IntentMutual
  | PAIRING_INTENT_UNSPECIFIED => IntentUnspecified
  end.

Definition IntentToWire (i : Intent) : PairingIntent :=
  match i with
  | IntentPeerApproves => PAIRING_INTENT_PEER_APPROVES
  | IntentPeerRequests => PAIRING_INTENT_PEER_REQUESTS
  | IntentMutual => PAIRING_INTENT_MUTUAL
  | IntentUnspecified => PAIRING_INTENT_UNSPECIFIED
  end.

Definition DirectionsOf (record : TrustRecord) : Directions :=
  mk_Directions (tr_may_approve record) (tr_may_request record)
    (tr_allowed_key_fingerprints record) (tr_may_use_all_keys record).

Definition Applied (d : Directions) (record : TrustRecord) : TrustRecord :=
  mk_TrustRecord (tr_fingerprint record) (tr_name record) (tr_identity_public_key record)
    (tr_addresses record) (di_MayApprove d) (di_MayRequest d) (di_AllowedKeys d)
    (tr_paired_at record) (tr_we_initiated record) (di_AllKeys d) (tr_pairing_session_id record)
    (tr_tunnel record) (tr_tunnel_updated_at record).

Definition Renamed (record : TrustRecord) (name : string) : TrustRecord :=
  mk_TrustRecord (tr_fingerprint record) name (tr_identity_public_key record)
    (tr_addresses record) (tr_may_approve record) (tr_may_request record)
    (tr_allowed_key_fingerprints record) (tr_paired_at record) (tr_we_initiated record)
    (tr_may_use_all_keys record) (tr_pairing_session_id record) (tr_tunnel record)
    (tr_tunnel_updated_at record).

Definition Readdressed (record : TrustRecord) (addresses : list string) : TrustRecord :=
  mk_TrustRecord (tr_fingerprint record) (tr_name record) (tr_identity_public_key record)
    addresses (tr_may_approve record) (tr_may_request record)
    (tr_allowed_key_fingerprints record) (tr_paired_at record) (tr_we_initiated record)
    (tr_may_use_all_keys record) (tr_pairing_session_id record) (tr_tunnel record)
    (tr_tunnel_updated_at record).

Definition MayUseKey (record : option TrustRecord) (fingerprint : string) : bool :=
  if record⇢tr_may_use_all_keys then true
  else existsb (fun allowed => bool_decide (allowed = fingerprint))
         record⇢tr_allowed_key_fingerprints.

Definition DescribeKeys (record : TrustRecord) : string :=
  if tr_may_use_all_keys record then "all"
  else if bool_decide (tr_allowed_key_fingerprints record = []) then "none"
  else itoa (Z.of_nat (length (tr_allowed_key_fingerprints record))).

Definition MatchesRef `{Unicode} (record : TrustRecord) (ref : string) : bool :=
  bool_decide (tr_fingerprint record = ref) || EqualFold (tr_name record) ref.

(** ** [reach.go] *)

Definition PathDirect : string := "direct".
Definition PathTunnelDirect : string := "tunnel direct".
Definition PathTunnelRelayed : string := "tunnel relayed".

Definition COLON : ascii := ascii_of_N 58.
Definition has_byte (c : ascii) (s : string) : bool :=
  match Cut s c with Some _ => true | None => false end.

(** [net.SplitHostPort]: nothing for every error it can return. *)
Definition SplitHostPort (hostport : string) : option (string * string) :=
  match CutLast hostport COLON with
  | None => None
  | Some (before, port) =>
    match hostport with
    | String "[" rest =>
      '(host, tail) ← Cut rest "]";
      match tail with
      | String c port' =>
        if negb (bool_decide (c = COLON)) || has_byte COLON port' then None
        else if has_byte "[" rest || has_byte "]" tail then None
        else Some (host, port')
      | EmptyString => None
      end
    | _ =>
      if has_byte COLON before then None
      else if has_byte "[" hostport || has_byte "]" hostport then None
      else Some (before, port)
    end
  end.

Definition IsDirectAddress (address : string) : bool :=
  match SplitHostPort address with
  | Some (_, port) => bool_decide (port <> emp)
  | None => false
  end.

Definition DirectAddresses (addresses : list string) : list string :=
  List.filter IsDirectAddress addresses.

Definition TunnelServes (offer : option TunnelOffer) : bool :=
  (0 <? Z.of_nat (length offer⇢to_versions)) && bool_decide (offer⇢to_server_address <> emp).

(** [uint32(ours)] of a positive version is the version itself. *)
Definition TunnelRaisable (offer : option TunnelOffer) (ours : Z) : bool :=
  (0 <? ours) && TunnelServes offer && bool_decide (u32 ours ∈ offer⇢to_versions).

Definition Dialable (record : option TrustRecord) (ours : Z) : bool :=
  (0 <? Z.of_nat (length record⇢tr_addresses)) || TunnelRaisable record⇢tr_tunnel ours.

Definition PendingDialable (pending : PendingPairing) (ours : Z) : bool :=
  (0 <? Z.of_nat (length (pg_addresses pending))) || TunnelRaisable (pg_tunnel pending) ours.

Definition TunnelPath (relayed : bool) (region : string) : string :=
  if negb relayed then PathTunnelDirect
  else if bool_decide (region <> emp) then PathTunnelRelayed +:+ " " +:+ region
  else PathTunnelRelayed.

Definition IsTunnelPath (path : string) : bool :=
  bool_decide (path = PathTunnelDirect) || HasPrefix path PathTunnelRelayed.

(** ** What a typed code reads back as *)

Definition pin_ok (p : string) : Prop :=
  len p = PINLength /\ Forall (fun b => 48 <= byte_val b <= 57) (of_string p).

Definition in_alphabet (b : byte) : Prop := b ∈ of_string secretAlphabet.
Definition secret_ok (s : string) : Prop := len s = secretLength /\ Forall in_alphabet (of_string s).

Definition visible (b : byte) : Prop := 33 <= byte_val b < 127.

Lemma alphabet_cases (P : Z -> Prop) b :
  Forall P (map byte_val (of_string secretAlphabet)) -> in_alphabet b -> P (byte_val b).
Proof. rewrite Forall_forall. intros HP Hb. apply HP. by apply list_elem_of_fmap_2. Qed.

(** Facts about the 32 characters, by looking at each. *)
Ltac each_char := apply (bool_decide_unpack _); vm_compute; reflexivity.

Lemma alphabet_range b : in_alphabet b -> 48 <= byte_val b <= 122.
Proof. apply (alphabet_cases (fun v => 48 <= v <= 122)). each_char. Qed.

Lemma alphabet_lower b : in_alphabet b -> ascii_lower (byte_val b) = byte_val b.
Proof. apply (alphabet_cases (fun v => ascii_lower v = v)). each_char. Qed.

Lemma alphabet_clear b : in_alphabet b -> unconfuse (byte_val b) = byte_val b.
Proof. apply (alphabet_cases (fun v => unconfuse v = v)). each_char. Qed.

Lemma alphabet_rune b : in_alphabet b -> byte_val b ∈ runes secretAlphabet.
Proof. apply (alphabet_cases (fun v => v ∈ runes secretAlphabet)). each_char. Qed.

Lemma space_spec v : 0 <= v < 128 -> is_space v = in_range 9 13 v || (v =? 32).
Proof.
  intros Hv. unfold is_space, in_range.
  repeat match goal with |- context [?x =? ?y] => destruct (Z.eqb_spec x y); try lia end;
  destruct (Z.leb_spec 8192 v); try lia; cbn; by rewrite ?orb_false_r.
Qed.

Lemma drop_while_id {A} (p : A -> bool) l :
  (forall x, head l = Some x -> p x = false) -> drop_while p l = l.
Proof. destruct l as [|x l]; [done|]. intros Hp. cbn. by rewrite (Hp x eq_refl). Qed.

(** Visible ASCII at both ends is not trimmed. *)
Lemma TrimSpace_id s :
  ascii_only (of_string s) ->
  (forall b, head (of_string s) = Some b -> visible b) ->
  (forall b, last (of_string s) = Some b -> visible b) ->
  TrimSpace s = s.
Proof.
  intros Ha Hh Hl. unfold TrimSpace. rewrite segments_ascii by done.
  assert (forall b, visible b -> is_space (byte_val b) = false) as Hv.
  { intros b Hb. unfold visible in Hb. rewrite space_spec by lia. unfold in_range.
    destruct (Z.leb_spec (byte_val b) 13); [lia|]. rewrite andb_false_r.
    destruct (Z.eqb_spec (byte_val b) 32); [lia|done]. }
  rewrite (drop_while_id _ (map _ (of_string s))).
  - rewrite drop_while_id.
    + rewrite rev_involutive. unfold seg_bytes. rewrite map_map. cbn.
      assert (forall l : bytes, concat (map (fun b => [b]) l) = l) as ->.
      { induction l as [|x l IH]; [done|]. cbn. by rewrite IH. }
      apply to_of_string.
    + intros x Hx. rewrite <- map_rev in Hx.
      destruct (rev (of_string s)) as [|y l] eqn:E; [done|]. injection Hx as <-. cbn.
      apply Hv, Hl. rewrite <- (rev_involutive (of_string s)), E. cbn. by rewrite last_snoc.
  - intros x Hx. destruct (of_string s) as [|b l]; [done|]. injection Hx as <-. cbn. by apply Hv, Hh.
Qed.

(** Prove one [Forall] from another, element by element. *)
Ltac weaken := let H := fresh in intros H; eapply Forall_impl; [exact H|]; cbn.

Lemma TrimSpace_parts l1 m l2 :
  Forall visible l1 -> ascii_only m -> Forall visible l2 -> l1 <> [] -> l2 <> [] ->
  TrimSpace (to_string (l1 ++ m ++ l2)) = to_string (l1 ++ m ++ l2).
Proof.
  intros H1 Hm H2 Hn1 Hn2. assert (forall l, Forall visible l -> ascii_only l) as Hasc.
  { intros l. weaken. unfold visible. lia. }
  apply TrimSpace_id; rewrite of_to_string.
  - unfold ascii_only. rewrite !Forall_app. split_and!; [by apply Hasc|done|by apply Hasc].
  - destruct l1 as [|x l1]; [done|]. intros b [= <-]. by apply Forall_cons in H1 as [? _].
  - intros b. rewrite !last_app. destruct (last l2) as [y|] eqn:E.
    + intros [= <-]. rewrite Forall_forall in H2. by apply H2, last_Some_elem_of.
    + by apply last_None in E.
Qed.

Section TypedCodes.
Context `{Unicode}.

Lemma runes_ascii l : ascii_only l -> runes (to_string l) = map byte_val l.
Proof.
  intros Hl. unfold runes. rewrite of_to_string, segments_ascii by done. by rewrite map_map.
Qed.

Lemma encode_byte b : byte_val b < 128 -> encode_rune (byte_val b) = [b].
Proof.
  intros Hb. pose proof (byte_val_range b). rewrite encode_rune_ascii by lia. by rewrite byte_of_val.
Qed.

Definition pin_byte (b : byte) : Prop := 48 <= byte_val b <= 57.

Lemma pin_digits_app l rs :
  Forall pin_byte l -> pin_digits (map byte_val l ++ rs) = ds ← pin_digits rs; Ok (l ++ ds).
Proof.
  induction 1 as [|b l Hb _ IH]; cbn [map app pin_digits]; [by destruct (pin_digits rs)|].
  unfold pin_byte in Hb.
  rewrite (proj2 (Z.eqb_neq _ 32)), (proj2 (Z.eqb_neq _ 45)), (proj2 (Z.eqb_neq _ 9)) by lia.
  cbn [orb]. rewrite (proj2 (Z.ltb_ge _ 48)), (proj2 (Z.ltb_ge 57 _)) by lia. cbn [orb].
  rewrite IH, encode_byte by lia. by destruct (pin_digits rs).
Qed.

Lemma pin_digits_only rs b : pin_digits rs = Ok b -> Forall pin_byte b.
Proof.
  revert b. induction rs as [|r rs IH]; intros b; cbn; [intros [= <-]; constructor|].
  destruct ((r =? 32) || (r =? 45) || (r =? 9)); [apply IH|].
  destruct ((r <? 48) || (57 <? r)) eqn:Hr; [done|]. bool_prop.
  intros (ds & Hds & [= <-])%result_bind_Ok. rewrite encode_rune_ascii by lia.
  constructor; [|by apply IH]. unfold pin_byte. rewrite byte_val_of, Z.mod_small; lia.
Qed.

Lemma ParsePIN_ok text p : ParsePIN text = Ok p -> pin_ok p.
Proof.
  unfold ParsePIN. intros (b & Hb & Hlen)%result_bind_Ok. case_bool_decide as Hne; [done|].
  injection Hlen as <-. unfold pin_ok, len. rewrite of_to_string.
  split; [done|]. by apply pin_digits_only in Hb.
Qed.

Lemma pin_visible l : Forall pin_byte l -> Forall visible l.
Proof. weaken. unfold pin_byte, visible. lia. Qed.

(** A separator the two typed forms may have in the middle. *)
Definition separator (l : bytes) : Prop := l = [] \/ l = [x20] \/ l = [x2d].

Lemma separator_ascii l : separator l -> ascii_only l.
Proof. intros [-> |[-> | ->]]; repeat constructor. Qed.

Lemma visible_ascii l : Forall visible l -> ascii_only l.
Proof. weaken. unfold visible. lia. Qed.

Lemma pin_parse l1 l2 sep :
  Forall pin_byte l1 -> Forall pin_byte l2 -> l1 <> [] -> l2 <> [] -> separator sep ->
  ParsePIN (to_string (l1 ++ sep ++ l2)) =
  if bool_decide (length (l1 ++ l2) <> PINLength)
  then Err (wrap_w emp ErrBadPIN (", and this is " +:+ itoa (Z.of_nat (length (l1 ++ l2)))))
  else Ok (to_string (l1 ++ l2)).
Proof.
  intros H1 H2 Hn1 Hn2 Hsep. pose proof (pin_visible _ H1). pose proof (pin_visible _ H2).
  pose proof (separator_ascii _ Hsep) as Hs.
  unfold ParsePIN. rewrite TrimSpace_parts by done. rewrite runes_ascii.
  - rewrite !map_app, pin_digits_app by done.
    assert (pin_digits (map byte_val sep ++ map byte_val l2) = Ok l2) as ->; [|done].
    pose proof (pin_digits_app l2 [] H2) as Hp. rewrite app_nil_r in Hp. cbn in Hp.
    rewrite app_nil_r in Hp. by destruct Hsep as [-> |[-> | ->]].
  - unfold ascii_only. rewrite !Forall_app.
    split_and!; [by apply visible_ascii|done|by apply visible_ascii].
Qed.

(** *** The older secret *)

Lemma secret_chars_app l rs :
  Forall in_alphabet l -> secret_chars (map byte_val l ++ rs) = ds ← secret_chars rs; Ok (l ++ ds).
Proof.
  induction 1 as [|b l Hb _ IH]; cbn [map app secret_chars]; [by destruct (secret_chars rs)|].
  pose proof (alphabet_range b Hb).
  rewrite (proj2 (Z.eqb_neq _ 45)), (proj2 (Z.eqb_neq _ 32)), (proj2 (Z.eqb_neq _ 9)) by lia.
  cbn [orb]. cbn zeta. rewrite alphabet_clear by done.
  rewrite bool_decide_eq_true_2 by (by apply alphabet_rune). cbn [negb].
  rewrite IH, encode_byte by lia. by destruct (secret_chars rs).
Qed.

Lemma alphabet_of_rune r : r ∈ runes secretAlphabet -> exists b, encode_rune r = [b] /\ in_alphabet b.
Proof.
  assert (runes secretAlphabet = map byte_val (of_string secretAlphabet)) as -> by (vm_compute; reflexivity).
  intros (b & -> & Hb)%list_elem_of_fmap. exists b. split; [|done].
  apply encode_byte. pose proof (alphabet_range b Hb). lia.
Qed.

Lemma secret_chars_only rs b : secret_chars rs = Ok b -> Forall in_alphabet b.
Proof.
  revert b. induction rs as [|r rs IH]; intros b; cbn; [intros [= <-]; constructor|].
  destruct ((r =? 45) || (r =? 32) || (r =? 9)); [apply IH|].
  case_bool_decide as Hr; [|done]. cbn [negb].
  intros (ds & Hds & [= <-])%result_bind_Ok.
  apply alphabet_of_rune in Hr as (x & -> & Hx). constructor; [done|by apply IH].
Qed.

Lemma ParseSecret_ok text p : ParseSecret text = Ok p -> secret_ok p.
Proof.
  unfold ParseSecret. intros (b & Hb & Hlen)%result_bind_Ok. case_bool_decide as Hne; [done|].
  injection Hlen as <-. unfold secret_ok, len. rewrite of_to_string.
  split; [done|]. by apply secret_chars_only in Hb.
Qed.

Lemma ToLower_id l :
  ascii_only l -> Forall (fun b => ascii_lower (byte_val b) = byte_val b) l ->
  ToLower (to_string l) = to_string l.
Proof.
  intros Ha Hl. unfold ToLower. rewrite of_to_string, segments_ascii by done. f_equal.
  rewrite map_map. induction Hl as [|b l Hb _ IH]; [done|].
  apply Forall_cons in Ha as [Hb' Ha]. cbn [map concat fst].
  pose proof (byte_val_range b). rewrite uni_lower_ascii, Hb, encode_byte by lia.
  cbn. f_equal. by apply IH.
Qed.

Lemma alphabet_visible l : Forall in_alphabet l -> Forall visible l.
Proof. weaken. intros b Hb%alphabet_range. unfold visible. lia. Qed.

Lemma secret_parse l1 l2 sep :
  Forall in_alphabet l1 -> Forall in_alphabet l2 -> l1 <> [] -> l2 <> [] -> separator sep ->
  length (l1 ++ l2) = secretLength ->
  ParseSecret (to_string (l1 ++ sep ++ l2)) = Ok (to_string (l1 ++ l2)).
Proof.
  intros H1 H2 Hn1 Hn2 Hsep Hlen. pose proof (alphabet_visible _ H1). pose proof (alphabet_visible _ H2).
  pose proof (separator_ascii _ Hsep) as Hs.
  assert (ascii_only (l1 ++ sep ++ l2)) as Ha.
  { unfold ascii_only. rewrite !Forall_app.
    split_and!; [by apply visible_ascii|done|by apply visible_ascii]. }
  unfold ParseSecret. rewrite TrimSpace_parts by done. rewrite ToLower_id; [|done|].
  - rewrite runes_ascii by done. rewrite !map_app, secret_chars_app by done.
    assert (secret_chars (map byte_val sep ++ map byte_val l2) = Ok l2) as ->.
    { pose proof (secret_chars_app l2 [] H2) as Hp. rewrite app_nil_r in Hp. cbn in Hp.
      rewrite app_nil_r in Hp. by destruct Hsep as [-> |[-> | ->]]. }
    cbn [mbind result_bind]. rewrite bool_decide_eq_false_2; [done|]. rewrite Hlen. auto.
  - rewrite !Forall_app. split_and!; [| |].
    + eapply Forall_impl; [exact H1|]. apply alphabet_lower.
    + destruct Hsep as [-> |[-> | ->]]; repeat constructor.
    + eapply Forall_impl; [exact H2|]. apply alphabet_lower.
Qed.

End TypedCodes.

Section Pairing.
Context `{Unicode} `{Hashes} `{Ssh} `{Codec PairingCode}.

Lemma to_string_app a b : to_string (a ++ b) = to_string a +:+ to_string b.
Proof.
  rewrite <- (to_of_string (to_string a +:+ to_string b)). by rewrite of_string_app, !of_to_string.
Qed.

(** A displayed code in its two groups. *)
Lemma display_split k sep s :
  (k <= len s)%nat ->
  slice 0 k s +:+ to_string sep +:+ slice k (len s) s =
  to_string (take k (of_string s) ++ sep ++ drop k (of_string s)).
Proof.
  intros Hk. unfold slice, len in *. rewrite Nat.sub_0_r, drop_0, !to_string_app.
  do 2 f_equal. by rewrite take_ge by (rewrite length_drop; lia).
Qed.

Lemma code_halves (P : byte -> Prop) k s :
  Forall P (of_string s) -> (0 < k < len s)%nat ->
  Forall P (take k (of_string s)) /\ Forall P (drop k (of_string s)) /\
  take k (of_string s) <> [] /\ drop k (of_string s) <> [].
Proof.
  intros HP Hk. rewrite <- (take_drop k (of_string s)), Forall_app in HP. destruct HP as [Ht Hd].
  unfold len in Hk. split_and!; [done|done| |]; intros He; apply (f_equal length) in He;
    rewrite ?length_take, ?length_drop in He; cbn in He; lia.
Qed.

Lemma pin_display_parses p : pin_ok p -> ParsePIN (PIN_Display p) = Ok p.
Proof.
  intros [Hl Hp]. unfold PIN_Display. rewrite bool_decide_eq_false_2 by auto.
  rewrite (display_split 3 [x20]) by (rewrite Hl; unfold PINLength; lia).
  destruct (code_halves pin_byte 3 p Hp) as (K1 & K2 & Kn1 & Kn2);
    [rewrite Hl; unfold PINLength; lia|].
  rewrite pin_parse by (try done; right; by left). rewrite take_drop.
  rewrite bool_decide_eq_false_2, to_of_string; [done|]. unfold len in Hl. auto.
Qed.

Lemma secret_display_parses s : secret_ok s -> ParseSecret (Secret_Display s) = Ok s.
Proof.
  intros [Hl Hs]. unfold Secret_Display. rewrite bool_decide_eq_false_2 by auto.
  rewrite (display_split 5 [x2d]) by (rewrite Hl; unfold secretLength; lia).
  destruct (code_halves in_alphabet 5 s Hs) as (K1 & K2 & Kn1 & Kn2);
    [rewrite Hl; unfold secretLength; lia|].
  rewrite secret_parse; [by rewrite take_drop, to_of_string|done..|right; by right|].
  rewrite take_drop. exact Hl.
Qed.

(** Every character of a secret is a digit of the PIN loop or ends it. *)
Lemma pin_digits_alphabet l rs ds :
  Forall in_alphabet l -> pin_digits (map byte_val l ++ rs) = Ok ds ->
  exists ds', ds = l ++ ds' /\ pin_digits rs = Ok ds'.
Proof.
  intros Hl. revert ds. induction Hl as [|b l Hb _ IH]; intros ds; cbn [map app pin_digits]; [eauto|].
  pose proof (alphabet_range b Hb).
  rewrite (proj2 (Z.eqb_neq _ 32)), (proj2 (Z.eqb_neq _ 45)), (proj2 (Z.eqb_neq _ 9)) by lia.
  cbn [orb]. destruct (_ || _) eqn:Hr; [done|]. intros (d & Hd & [= <-])%result_bind_Ok.
  destruct (IH _ Hd) as (ds' & -> & Hds'). exists ds'. split; [|done].
  rewrite encode_byte by lia. done.
Qed.

Lemma secret_is_no_pin s : secret_ok s -> exists e, ParsePIN (Secret_Display s) = Err e.
Proof.
  intros [Hl Hs]. unfold Secret_Display. rewrite bool_decide_eq_false_2 by auto.
  rewrite (display_split 5 [x2d]) by (rewrite Hl; unfold secretLength; lia).
  destruct (code_halves in_alphabet 5 s Hs) as (K1 & K2 & Kn1 & Kn2);
    [rewrite Hl; unfold secretLength; lia|].
  set (l1 := take 5 (of_string s)) in *. set (l2 := drop 5 (of_string s)) in *.
  assert (length (l1 ++ l2) = secretLength) as Hlen by (unfold l1, l2; by rewrite take_drop).
  assert (separator [x2d]) as Hsep by (right; by right).
  pose proof (alphabet_visible _ K1). pose proof (alphabet_visible _ K2).
  unfold ParsePIN. rewrite TrimSpace_parts by (try done; by apply separator_ascii).
  rewrite runes_ascii.
  - destruct (pin_digits _) as [ds|e] eqn:E; [|by exists e]. cbn [mbind result_bind].
    rewrite !map_app in E. apply pin_digits_alphabet in E as (ds' & -> & E); [|done].
    cbn [map app] in E. change (pin_digits (map byte_val l2) = Ok ds') in E.
    rewrite <- (app_nil_r (map byte_val l2)) in E.
    apply pin_digits_alphabet in E as (ds'' & -> & E); [|done]. cbn in E. injection E as <-.
    rewrite app_nil_r. rewrite bool_decide_eq_true_2; [by eexists|]. rewrite Hlen. done.
  - unfold ascii_only. rewrite !Forall_app.
    split_and!; [by apply visible_ascii|by apply separator_ascii|by apply visible_ascii].
Qed.

Lemma display_no_prefix l1 m l2 :
  Forall in_alphabet l1 -> length l1 = 3%nat \/ length l1 = 5%nat ->
  m = [x20] \/ m = [x2d] ->
  HasPrefix (to_string (l1 ++ m ++ l2)) codePrefix = false.
Proof.
  intros _ Hl Hm. destruct Hl as [Hl|Hl]; destruct Hm as [-> | ->];
    repeat (destruct l1 as [|? l1]; try discriminate Hl);
    unfold to_string; cbn; repeat (case_bool_decide; cbn); done.
Qed.

(** A displayed code as its three parts, with no space around it. *)
Lemma pin_display_trim p : pin_ok p ->
  TrimSpace (PIN_Display p) = PIN_Display p /\ HasPrefix (PIN_Display p) codePrefix = false.
Proof.
  intros [Hl Hp]. unfold PIN_Display. rewrite bool_decide_eq_false_2 by auto.
  rewrite (display_split 3 [x20]) by (rewrite Hl; unfold PINLength; lia).
  destruct (code_halves pin_byte 3 p Hp) as (K1 & K2 & Kn1 & Kn2);
    [rewrite Hl; unfold PINLength; lia|].
  split; [apply TrimSpace_parts; try done; by (apply pin_visible || (repeat constructor))|].
  apply display_no_prefix; [|left|by left].
  - eapply Forall_impl; [exact K1|]. intros b Hb. unfold in_alphabet, pin_byte in *.
    assert (b ∈ take 10 (of_string secretAlphabet)) as Hin.
    { apply list_elem_of_lookup. exists (Z.to_nat (byte_val b - 48)).
      assert (byte_val b - 48 = 0 \/ byte_val b - 48 = 1 \/ byte_val b - 48 = 2 \/
        byte_val b - 48 = 3 \/ byte_val b - 48 = 4 \/ byte_val b - 48 = 5 \/ byte_val b - 48 = 6 \/
        byte_val b - 48 = 7 \/ byte_val b - 48 = 8 \/ byte_val b - 48 = 9) as Hc by lia.
      destruct Hc as [Hc|[Hc|[Hc|[Hc|[Hc|[Hc|[Hc|[Hc|[Hc|Hc]]]]]]]]]; rewrite Hc; cbn; f_equal;
        rewrite <- (byte_of_val b); replace (byte_val b) with (byte_val b - 48 + 48) by lia;
        rewrite Hc; reflexivity. }
    rewrite <- (take_drop 10 (of_string secretAlphabet)). apply elem_of_app. by left.
  - rewrite length_take. unfold len, PINLength in Hl. lia.
Qed.

Lemma secret_display_trim s : secret_ok s ->
  TrimSpace (Secret_Display s) = Secret_Display s /\ HasPrefix (Secret_Display s) codePrefix = false.
Proof.
  intros [Hl Hs]. unfold Secret_Display. rewrite bool_decide_eq_false_2 by auto.
  rewrite (display_split 5 [x2d]) by (rewrite Hl; unfold secretLength; lia).
  destruct (code_halves in_alphabet 5 s Hs) as (K1 & K2 & Kn1 & Kn2);
    [rewrite Hl; unfold secretLength; lia|].
  split; [apply TrimSpace_parts; try done; by (apply alphabet_visible || (repeat constructor))|].
  apply display_no_prefix; [done|right|by right].
  rewrite length_take. unfold len, secretLength in Hl. lia.
Qed.

(** What a window displays is what a joiner types: the PIN and the
    older secret as displayed each read back as a code with exactly that in it
    and nothing else, and never as each other. *)
Theorem typed_codes_read_back p s now :
  pin_ok p -> secret_ok s ->
  DecodeCode (PIN_Display p) now = Ok (typed_code p emp) /\
  DecodeCode (Secret_Display s) now = Ok (typed_code emp s).
Proof.
  intros Hp Hs. unfold DecodeCode. split.
  - destruct (pin_display_trim p Hp) as [-> ->]. cbn [negb]. by rewrite pin_display_parses.
  - destruct (secret_display_trim s Hs) as [-> ->]. cbn [negb].
    destruct (secret_is_no_pin s Hs) as [e ->]. by rewrite secret_display_parses.
Qed.

Lemma pin_ok_parse p : pin_ok p -> ParsePIN p = Ok p.
Proof.
  intros [Hl Hp]. rewrite <- (to_of_string p) at 1. rewrite <- (take_drop 3 (of_string p)).
  destruct (code_halves pin_byte 3 p Hp) as (K1 & K2 & Kn1 & Kn2);
    [rewrite Hl; unfold PINLength; lia|].
  pose proof (pin_parse _ _ [] K1 K2 Kn1 Kn2 (or_introl eq_refl)) as Hq.
  rewrite app_nil_l in Hq. rewrite Hq, take_drop.
  rewrite bool_decide_eq_false_2, to_of_string; [done|]. unfold len in Hl. auto.
Qed.

Lemma secret_ok_parse s : secret_ok s -> ParseSecret s = Ok s.
Proof.
  intros [Hl Hs]. rewrite <- (to_of_string s) at 1. rewrite <- (take_drop 5 (of_string s)).
  destruct (code_halves in_alphabet 5 s Hs) as (K1 & K2 & Kn1 & Kn2);
    [rewrite Hl; unfold secretLength; lia|].
  assert (length (take 5 (of_string s) ++ drop 5 (of_string s)) = secretLength) as Hlen
    by (rewrite take_drop; exact Hl).
  pose proof (secret_parse _ _ [] K1 K2 Kn1 Kn2 (or_introl eq_refl) Hlen) as Hq.
  rewrite app_nil_l in Hq. by rewrite Hq, take_drop, to_of_string.
Qed.

Lemma b64_char_visible d : b64_ok d -> visible (b64_char d).
Proof.
  intros Hd. unfold visible, b64_char. rewrite byte_val_of. unfold b64_ok in Hd.
  repeat case_match; rewrite Z.mod_small; lia.
Qed.

(** What a code may carry: one of a PIN and a secret at least, each well
    formed, and an end that has not come. *)
Definition code_valid (code : PairingCode) (now : time) : Prop :=
  pc_version code = codeVersion /\
  (pc_pin code = emp \/ pin_ok (pc_pin code)) /\
  (pc_secret code = emp \/ secret_ok (pc_secret code)) /\
  ~ (pc_pin code = emp /\ pc_secret code = emp) /\
  (forall t, pc_expires_at code = Some t -> now < t).

Lemma full_code_trim body :
  body <> [] ->
  TrimSpace (codePrefix +:+ b64_encode body) = codePrefix +:+ b64_encode body.
Proof.
  intros Hb. unfold b64_encode.
  assert (codePrefix +:+ to_string (map b64_char (b64_split body)) =
    to_string (of_string codePrefix ++ [] ++ map b64_char (b64_split body))) as ->.
  { by rewrite to_string_app, to_of_string. }
  apply TrimSpace_parts; [|constructor| |done|].
  - apply (bool_decide_unpack _). vm_compute. reflexivity.
  - rewrite Forall_map. eapply Forall_impl; [apply b64_split_ok|]. apply b64_char_visible.
  - destruct body as [|x [|y [|z body]]]; done.
Qed.

Lemma bind_Ok {A B} (a : A) (f : A -> result B) : Ok a ≫= f = f a.
Proof. done. Qed.

(** A full code reads back: what was encoded decodes to the very same
    code while it is valid. *)
Theorem full_code_reads_back `{!CodecLaws PairingCode} code text now :
  EncodeCode code = Ok text -> (forall b, Marshal code = Ok b -> b <> []) ->
  code_valid code now -> DecodeCode text now = Ok code.
Proof.
  intros (body & Hbody & [= <-])%result_bind_Ok Hne (Hv & Hpin & Hsec & Hsome & Hexp).
  apply err_ctx_Ok in Hbody. unfold DecodeCode. rewrite full_code_trim by (by apply Hne).
  rewrite HasPrefix_app, TrimPrefix_app, b64_decode_encode. cbn [negb bad_code].
  rewrite bind_Ok, (Unmarshal_Marshal _ _ Hbody). cbn [bad_code]. rewrite bind_Ok.
  rewrite bool_decide_eq_false_2 by auto.
  assert (bool_decide (pc_pin code = emp) && bool_decide (pc_secret code = emp) = false) as ->.
  { apply not_true_iff_false. rewrite andb_true_iff, !bool_decide_eq_true. exact Hsome. }
  assert ((if bool_decide (pc_pin code <> emp)
      then pin ← bad_code (ParsePIN (pc_pin code)); Ok (set_pin pin code) else Ok code) = Ok code)
    as ->.
  { case_bool_decide as Hp; [|done]. destruct Hpin as [?|Hpin]; [done|].
    rewrite pin_ok_parse by done. by destruct code. }
  rewrite bind_Ok. assert ((if bool_decide (pc_secret code <> emp)
      then secret ← ParseSecret (pc_secret code); Ok (set_secret secret code) else Ok code) = Ok code)
    as ->.
  { case_bool_decide as Hp; [|done]. destruct Hsec as [?|Hsec]; [done|].
    rewrite secret_ok_parse by done. by destruct code. }
  rewrite bind_Ok. destruct (pc_expires_at code) as [t|] eqn:Ht; [|done].
  by rewrite (proj2 (After_spec t now)) by (by apply Hexp).
Qed.

(** C32. Whatever text is given, a code that comes out of it is valid:
    of this version, with a well-formed PIN or secret or both, and not
    expired; everything else is refused as unreadable or expired. *)
Theorem DecodeCode_valid text now code :
  DecodeCode text now = Ok code -> code_valid code now.
Proof.
  unfold DecodeCode. destruct (HasPrefix _ _); cbn [negb].
  - intros (body & _ & (c & _ & Hc)%result_bind_Ok)%result_bind_Ok.
    case_bool_decide as Hv; [done|].
    destruct (_ && _) eqn:Hsome; [done|].
    apply not_true_iff_false in Hsome. rewrite andb_true_iff, !bool_decide_eq_true in Hsome.
    apply result_bind_Ok in Hc as (c1 & Hc1 & Hc). apply result_bind_Ok in Hc as (c2 & Hc2 & Hc).
    assert (code = c2 /\ (forall t, pc_expires_at c2 = Some t -> now < t)) as [-> Hexp].
    { destruct (pc_expires_at c2) as [t|]; [|by injection Hc as ->].
      destruct (After t now) eqn:Ha; [|done]. injection Hc as ->. split; [done|].
      intros t' [= <-]. by apply After_spec. }
    assert (pc_version c1 = codeVersion /\ pc_secret c1 = pc_secret c /\
      (pc_pin c1 = emp \/ pin_ok (pc_pin c1)) /\ (pc_pin c1 = emp -> pc_pin c = emp)) as
      (Hv1 & Hs1 & Hp1 & He1).
    { destruct (bool_decide (pc_pin c <> emp)) eqn:Hpin; bool_prop.
      - apply result_bind_Ok in Hc1 as (p & Hp & [= <-]). destruct (ParsePIN _) eqn:E; [|done].
        injection Hp as ->. apply ParsePIN_ok in E. cbn. split_and!; [done|done|by right|].
        intros ->. by destruct E as [E _].
      - injection Hc1 as ->. rewrite Hpin. tauto. }
    destruct (bool_decide (pc_secret c1 <> emp)) eqn:Hsec; bool_prop.
    + apply result_bind_Ok in Hc2 as (s & Hs & [= <-]). apply ParseSecret_ok in Hs.
      unfold code_valid. cbn. split_and!; try done; [by right|].
      intros [_ ->]. by destruct Hs as [Hs _].
    + injection Hc2 as ->. unfold code_valid.
      split_and!; try done; [by left|]. intros [Hp _]. apply Hsome. split; [by apply He1|congruence].
  - destruct (ParsePIN _) as [pin|] eqn:E.
    + intros [= <-]. apply ParsePIN_ok in E. unfold code_valid. cbn.
      split_and!; try done; [by right|by left|]. intros [-> _]. by destruct E as [E _].
    + destruct (ParseSecret _) as [s|] eqn:E'; [|done]. intros [= <-]. apply ParseSecret_ok in E'.
      unfold code_valid. cbn. split_and!; try done; [by left|by right|].
      intros [_ ->]. by destruct E' as [E' _].
Qed.

(** *** The older proof binds what it is about *)

(** Two different pairs of a key and a message with one tag. *)
Definition hmac_sha256_collision (s s' : bytes * bytes) : Prop :=
  s <> s' /\ hmac_sha256 s.1 s.2 = hmac_sha256 s'.1 s'.2.

(** What the two MACs are computed over. *)
Definition proof_input (secret : string) (l d : PublicKey) : bytes * bytes :=
  (of_string secret, mac_input proofPrefix (Some l) (Some d)).
Definition confirmation_input (secret : string) (l d : PublicKey) : bytes * bytes :=
  (of_string secret, mac_input confirmationPrefix (Some l) (Some d)).

(** A key whose encoding fits the length prefix. *)
Definition short_key (k : PublicKey) : Prop := Z.of_nat (length (ssh_Marshal k)) < 2 ^ 32.

Lemma framed_inj (a b r r' : bytes) :
  Z.of_nat (length a) < 2 ^ 32 -> Z.of_nat (length b) < 2 ^ 32 ->
  (put_u32 (u32 (Z.of_nat (length a))) ++ a) ++ r = (put_u32 (u32 (Z.of_nat (length b))) ++ b) ++ r' ->
  a = b /\ r = r'.
Proof.
  intros Ha Hb. unfold u32. rewrite !Z.mod_small by lia. rewrite <- !app_assoc. intros He.
  apply app_inj_1 in He as [Hl He]; [|by rewrite !length_put_u32].
  apply (f_equal get_u32) in Hl. rewrite !get_put_u32 in Hl by lia.
  apply app_inj_1 in He; [done|lia].
Qed.

Lemma mac_input_inj `{!SshLaws} prefix l d l' d' :
  short_key l -> short_key d -> short_key l' -> short_key d' ->
  mac_input prefix (Some l) (Some d) = mac_input prefix (Some l') (Some d') -> l = l' /\ d = d'.
Proof.
  intros Hl Hd Hl' Hd' He. unfold mac_input in He. apply app_inv_head, app_inv_head in He.
  cbn [map concat key_blob] in He. apply framed_inj in He as [Hle He]; [|done..].
  apply framed_inj in He as [Hde _]; [|done..].
  assert (forall k k', ssh_Marshal k = ssh_Marshal k' -> k = k') as Hinj.
  { intros k k' Hk. apply (f_equal ParsePublicKey) in Hk. rewrite !ParsePublicKey_Marshal in Hk.
    by injection Hk. }
  split; by apply Hinj.
Qed.

Lemma mac_inputs_apart l d l' d' :
  mac_input proofPrefix l d <> mac_input confirmationPrefix l' d'.
Proof.
  intros He. apply (f_equal (fun m => nth 18 m x01)) in He. revert He.
  unfold mac_input. vm_compute. discriminate.
Qed.

(** An older proof is good for one code and one pair of identities in
    their roles: unless the two inputs at hand collide under the MAC, a proof
    that verifies was made with the same secret over the same listener and joiner,
    and a confirmation never verifies as a proof, so neither can be relayed or
    turned round. *)
Theorem proof_binds `{!SshLaws} secret secret' l d l' d' :
  short_key l -> short_key d -> short_key l' -> short_key d' ->
  (VerifyProof secret (Some l) (Some d) (Proof_ secret' (Some l') (Some d')) = true ->
     hmac_sha256_collision (proof_input secret l d) (proof_input secret' l' d') \/
     (secret = secret' /\ l = l' /\ d = d')) /\
  (VerifyProof secret (Some l) (Some d) (Confirmation secret' (Some l') (Some d')) = true ->
     hmac_sha256_collision (proof_input secret l d) (confirmation_input secret' l' d')).
Proof.
  intros Hl Hd Hl' Hd'. unfold VerifyProof, Proof_, Confirmation, mac. split; intros Hv; bool_prop.
  - destruct (decide (proof_input secret l d = proof_input secret' l' d')) as [He|Hne];
      [|left; by split].
    pose proof (f_equal fst He) as Hk. pose proof (f_equal snd He) as Hm. cbn [fst snd] in Hk, Hm.
    apply (f_equal to_string) in Hk. unfold proof_input in Hk. cbn [fst] in Hk.
    rewrite !to_of_string in Hk. apply mac_input_inj in Hm as [-> ->]; [|done..]. by right.
  - split; [|done]. intros He. apply (f_equal snd) in He. by apply mac_inputs_apart in He.
Qed.

End Pairing.

(** ** What a pairing is for *)

(** One declaration settles both records: what one side may do by
    an intent, the other side may do by its mirror; an intent is recovered from
    the two flags a record keeps, from the word that names it and from its wire
    form; and applying decisions to a record changes those and nothing else. *)
Theorem intent_settles_both `{Unicode} i d record :
  PeerMayApprove (Mirror i) = PeerMayRequest i /\
  PeerMayRequest (Mirror i) = PeerMayApprove i /\ Mirror (Mirror i) = i /\
  IntentOf (PeerMayApprove i) (PeerMayRequest i) = i /\
  IntentFromWire (IntentToWire i) = i /\
  ParseIntent (Intent_String i) =
    (if bool_decide (i = IntentUnspecified) then ParseIntent "none" else Ok i) /\
  DirectionsOf (Applied d record) = d /\
  Applied (DirectionsOf record) (Applied d record) = record.
Proof.
  assert (forall s, ascii_only (of_string s) -> Forall visible (of_string s) ->
    Forall (fun b => ascii_lower (byte_val b) = byte_val b) (of_string s) ->
    (1 < len s)%nat -> ToLower (TrimSpace s) = s) as Hword.
  { intros s Ha Hv Hl Hn. pose proof (code_halves visible 1 s Hv) as Hh.
    destruct Hh as (K1 & K2 & Kn1 & Kn2); [lia|].
    pose proof (TrimSpace_parts _ [] _ K1 (Forall_nil_2 _) K2 Kn1 Kn2) as Ht.
    rewrite app_nil_l, take_drop, to_of_string in Ht. rewrite Ht.
    rewrite <- (to_of_string s) at 1. rewrite ToLower_id by done. apply to_of_string. }
  destruct d, record. unfold ParseIntent.
  destruct i; split_and!; try reflexivity; cbn [Intent_String];
    rewrite Hword by (try (apply (bool_decide_unpack _); vm_compute; reflexivity); cbn; lia);
    reflexivity.
Qed.

(** ** Concrete codes *)

Import Toy.

Definition toy_code : PairingCode :=
  NewCode "123456" "0123456789" "box" (of_string "key") ["10.0.0.2:7777"%string] Minute.
#[local] Instance toy_codes : Codec PairingCode := table [toy_code].
#[local] Instance toy_codes_laws : CodecLaws PairingCode := table_laws [toy_code].

Example pin_displayed : PIN_Display "123456" = "123 456"%string.
Proof. reflexivity. Qed.
Example pin_drawn : NewPIN 42 = "000042"%string.
Proof. vm_compute. reflexivity. Qed.
Example secret_forgiven : ParseSecret " OIL5u-BCDEF" = Ok "0115vbcdef"%string.
Proof. vm_compute. reflexivity. Qed.
Example pin_with_letter :
  ParsePIN "12a456" = Err (wrap_w emp ErrBadPIN ": 'a' is not a digit").
Proof. vm_compute. reflexivity. Qed.
Example pin_too_long : ParsePIN "1234567" = Err (wrap_w emp ErrBadPIN ", and this is 7").
Proof. vm_compute. reflexivity. Qed.
Example split_ipv6 : SplitHostPort "[fe80::1]:22" = Some ("fe80::1"%string, "22"%string).
Proof. reflexivity. Qed.
Example not_direct : map IsDirectAddress ["tc1abc"; "host:"; "a:b:c"; "host:22"]%string =
  [false; false; false; true].
Proof. reflexivity. Qed.

Lemma toy_pin_ok : pin_ok "123456".
Proof. apply (bool_decide_unpack _). vm_compute. reflexivity. Qed.
Lemma toy_secret_ok : secret_ok "0123456789".
Proof. apply (bool_decide_unpack _). vm_compute. reflexivity. Qed.

Lemma typed_codes_read_back_witness :
  DecodeCode "123 456" 0 = Ok (typed_code "123456" emp) /\
  DecodeCode "01234-56789" 0 = Ok (typed_code emp "0123456789").
Proof. apply (typed_codes_read_back "123456" "0123456789" 0 toy_pin_ok toy_secret_ok). Defined.

Lemma full_code_reads_back_witness :
  DecodeCode "ladulas-pair-v1.AQ" 0 = Ok toy_code.
Proof.
  apply (full_code_reads_back toy_code "ladulas-pair-v1.AQ" 0).
  - vm_compute. reflexivity.
  - intros b Hb. vm_compute in Hb. injection Hb as <-. discriminate.
  - split; [reflexivity|]. split; [right; exact toy_pin_ok|]. split; [right; exact toy_secret_ok|].
    split; [intros [Hp _]; discriminate Hp|]. intros t [= <-]. reflexivity.
Defined.

Lemma DecodeCode_valid_witness : code_valid toy_code 0.
Proof. apply (DecodeCode_valid "ladulas-pair-v1.AQ" 0 toy_code). vm_compute. reflexivity. Defined.

Definition desk_key : PublicKey := of_string "desk".
Definition box_key : PublicKey := of_string "box".

Lemma proof_binds_witness :
  VerifyProof "0123456789" (Some desk_key) (Some box_key)
    (Proof_ "0123456789" (Some desk_key) (Some box_key)) = true /\
  (hmac_sha256_collision (proof_input "0123456789" desk_key box_key)
     (proof_input "0123456789" desk_key box_key) \/ desk_key = desk_key).
Proof.
  split; [vm_compute; reflexivity|].
  destruct (proof_binds "0123456789" "0123456789" desk_key box_key desk_key box_key)
    as [Hp _].
  1-4: vm_compute; reflexivity.
  destruct Hp as [Hc|(_ & Hl & _)]; [vm_compute; reflexivity|left; exact Hc|right; exact Hl].
Defined.
