(* ===== verification/Armour.v ===== *)
(** * Armour: the text form of a signature

    [Armored] and [Parse] of [pkg/sshsig/sshsig.go]: the binary signature in
    [encoding/base64] with [StdEncoding], wrapped at 70 characters between two
    marker lines; and the theorem that what is written is read back. *)

From S2P Require Import Prelude.
From S2P Require Import GoText.
From S2P Require Import Ssh.
From S2P Require Import Sshsig.
From S2P Require Import Base64.
From S2P Require Import Trust.

Local Open Scope Z_scope.
Local Open Scope ladulas_scope.

(** ** [base64.StdEncoding] *)

Definition std_char (d : Z) : byte :=
  if d =? 62 then x2b else if d =? 63 then x2f else b64_char d.
Definition std_digit (b : byte) : option Z :=
  let c := byte_val b in
  if c =? 43 then Some 62
  else if c =? 47 then Some 63
  else if (c =? 45) || (c =? 95) then None
  else b64_digit b.

Definition padChar : byte := x3d.

(** Digits to whole quanta of four characters. *)
Definition std_pad (n : nat) : bytes := replicate ((3 - n mod 3) mod 3) padChar.
Definition std_encode (b : bytes) : string :=
  to_string (map std_char (b64_split b) ++ std_pad (length b)).

Definition is_newline (b : byte) : bool := (byte_val b =? 10) || (byte_val b =? 13).

(** What follows the padding: new lines, and nothing else. *)
Fixpoint std_end (pos : Z) (s : bytes) : result (list Z) :=
  match s with
  | [] => Ok []
  | b :: s' => if is_newline b then std_end (pos + 1) s' else Err (CorruptInputError pos)
  end.

(** The second padding character of a quantum of two digits. *)
Fixpoint std_second (pos : Z) (s : bytes) : result (list Z) :=
  match s with
  | [] => Err (CorruptInputError pos)
  | b :: s' =>
    if is_newline b then std_second (pos + 1) s'
    else if bool_decide (b = padChar) then std_end (pos + 1) s'
    else Err (CorruptInputError (pos - 1))
  end.

(** The digits from position [pos] on, [j] into a quantum. *)
Fixpoint std_scan (pos j : Z) (s : bytes) : result (list Z) :=
  match s with
  | [] => if j =? 0 then Ok [] else Err (CorruptInputError (pos - j))
  | b :: s' =>
    match std_digit b with
    | Some d => ds ← std_scan (pos + 1) ((j + 1) mod 4) s'; Ok (d :: ds)
    | None =>
      if is_newline b then std_scan (pos + 1) j s'
      else if bool_decide (b <> padChar) then Err (CorruptInputError pos)
      else if j <? 2 then Err (CorruptInputError pos)
      else if j =? 2 then std_second (pos + 1) s'
      else std_end (pos + 1) s'
    end
  end.

Definition std_decode (s : string) : result bytes :=
  ds ← std_scan 0 0 (of_string s);
  match b64_join ds with
  | Some b => Ok b
  | None => Err (CorruptInputError (Z.of_nat (length (of_string s)) - 1))
  end.

Lemma std_digit_char d : b64_ok d -> std_digit (std_char d) = Some d.
Proof.
  intros Hd. unfold std_char. destruct (d =? 62) eqn:H62; [apply Z.eqb_eq in H62 as ->; reflexivity|].
  destruct (d =? 63) eqn:H63; [apply Z.eqb_eq in H63 as ->; reflexivity|].
  unfold std_digit. rewrite (b64_digit_char d Hd). unfold b64_ok in Hd. apply Z.eqb_neq in H62, H63.
  assert (In d (map Z.of_nat (seq 0 62))) as Hin by (apply in_map_iff; exists (Z.to_nat d); split; [lia|apply in_seq; lia]).
  revert Hin. cbn [seq map In]. intros Hin. repeat destruct Hin as [<-|Hin]; try reflexivity. done.
Qed.

Lemma std_scan_chars pos j ds s : 0 <= j < 4 -> Forall b64_ok ds ->
  std_scan pos j (map std_char ds ++ s) =
  (fun tl => ds ++ tl) <$> std_scan (pos + Z.of_nat (length ds)) ((j + Z.of_nat (length ds)) mod 4) s.
Proof.
  intros Hj Hds. revert pos j Hj. induction Hds as [|d ds Hd Hds IH]; intros pos j Hj.
  - cbn. rewrite !Z.add_0_r, Z.mod_small by lia. by destruct (std_scan pos j s).
  - cbn [map app std_scan]. rewrite std_digit_char by done. rewrite IH by (apply Z.mod_pos_bound; lia).
    rewrite Zplus_mod_idemp_l. cbn [length]. rewrite Nat2Z.inj_succ.
    replace (pos + 1 + Z.of_nat (length ds)) with (pos + Z.succ (Z.of_nat (length ds))) by lia.
    replace (j + 1 + Z.of_nat (length ds)) with (j + Z.succ (Z.of_nat (length ds))) by lia.
    by destruct (std_scan _ _ s).
Qed.

Lemma split_left_over b :
  Z.of_nat (length (b64_split b)) mod 4 = match (length b mod 3)%nat with O => 0 | S O => 2 | _ => 3 end.
Proof.
  induction b as [|x|x y|x y z b IH] using bytes_ind3; try reflexivity.
  cbn [b64_split length]. replace (Z.of_nat (S (S (S (S (length (b64_split b)))))))
    with (Z.of_nat (length (b64_split b)) + 1 * 4) by lia.
  rewrite Z.mod_add by done. rewrite IH. replace (S (S (S (length b)))) with (length b + 1 * 3)%nat by lia.
  by rewrite Nat.Div0.mod_add.
Qed.

Lemma std_scan_pad pos b : std_scan pos (Z.of_nat (length (b64_split b)) mod 4) (std_pad (length b)) = Ok [].
Proof.
  rewrite split_left_over. unfold std_pad. pose proof (Nat.mod_upper_bound (length b) 3).
  destruct (length b mod 3)%nat as [|[|[|n]]]; [reflexivity|reflexivity|reflexivity|lia].
Qed.

Lemma std_decode_encode b : std_decode (std_encode b) = Ok b.
Proof.
  unfold std_decode, std_encode. rewrite of_to_string, std_scan_chars by (apply b64_split_ok || lia).
  rewrite Z.add_0_l, std_scan_pad. cbn [fmap result_fmap mbind result_bind]. by rewrite app_nil_r, b64_join_split.
Qed.

(** ** The armour *)

Definition armorBegin : string := "-----BEGIN SSH SIGNATURE-----".
Definition armorEnd : string := "-----END SSH SIGNATURE-----".
Definition armorWidth : nat := 70.

(** The body in lines of [armorWidth]; as many rounds as it has characters are
    enough. *)
Fixpoint wrapped (fuel : nat) (encoded : string) : string :=
  match fuel with
  | O => encoded
  | S n =>
    if bool_decide (armorWidth < String.length encoded)%nat
    then upto armorWidth encoded +:+ nl +:+ wrapped n (from_ armorWidth encoded)
    else encoded
  end.

Definition unarmor (armored : string) : result bytes :=
  match CutAt (TrimSpace armored) armorBegin with
  | None => Err ErrNotSSHSIG
  | Some (_, rest) =>
    let rest := from_ (String.length armorBegin) rest in
    match CutAt rest armorEnd with
    | None => Err (wrap_w emp ErrNotSSHSIG ": no end marker")
    | Some (inner, _) => err_ctx "sshsig: decode armour: " (std_decode (Join (Fields inner) emp))
    end
  end.

Section Armour.
Context `{Ssh}.

Definition Armored (s : SshSignature) : string :=
  let encoded := std_encode (Signature_Marshal s) in
  armorBegin +:+ nl +:+ wrapped (String.length encoded) encoded +:+ nl +:+ armorEnd +:+ nl.

Definition Parse (armored : string) : result SshSignature :=
  body ← unarmor armored; ParseBinary body.

End Armour.

(** ** Reading the armour back *)

Definition dark (b : byte) : bool := negb (is_space (byte_val b)).

Lemma Join_fields l cur :
  Join (fields_aux (map (fun b => (byte_val b, [b])) l) cur) emp = to_string (cur ++ List.filter dark l).
Proof.
  revert cur. induction l as [|b l IH]; intros cur.
  - rewrite app_nil_r. cbn [map fields_aux]. destruct cur; [done|]. cbn [Join foldr]. apply string_app_nil_r.
  - cbn [map fields_aux List.filter]. unfold dark at 1. destruct (is_space (byte_val b)); cbn [negb].
    + destruct cur as [|c cur]; [apply IH|]. rewrite Join_all, IH. apply of_string_inj.
      by rewrite of_string_app, !of_to_string.
    + rewrite IH. by rewrite <- app_assoc.
Qed.

Lemma Join_Fields s : ascii_only (of_string s) -> Join (Fields s) emp = to_string (List.filter dark (of_string s)).
Proof. intros Ha. unfold Fields. rewrite segments_ascii by done. apply (Join_fields _ []). Qed.

Lemma dark_visible b : visible b -> dark b = true.
Proof.
  intros Hb. unfold dark, visible in *. rewrite space_spec by lia. unfold in_range.
  destruct (Z.leb_spec (byte_val b) 13); [lia|]. rewrite andb_false_r.
  by destruct (Z.eqb_spec (byte_val b) 32); [lia|].
Qed.

Lemma filter_dark l : Forall visible l -> List.filter dark l = l.
Proof. induction 1 as [|b l Hb Hl IH]; [done|]. cbn [List.filter]. by rewrite (dark_visible b Hb), IH. Qed.

Lemma wrapped_bytes n e : Forall visible (of_string e) ->
  List.filter dark (of_string (wrapped n e)) = of_string e /\
  Forall (fun b => b ∈ of_string e \/ b = x0a) (of_string (wrapped n e)).
Proof.
  assert (forall e, Forall (fun b => b ∈ of_string e \/ b = x0a) (of_string e)) as Hself.
  { intros e'. apply Forall_forall. by left. }
  revert e. induction n as [|n IH]; intros e He; cbn [wrapped]; [by rewrite filter_dark|].
  case_bool_decide as Hl; [|by rewrite filter_dark].
  destruct (IH (from_ armorWidth e)) as [Hf Ha]; [rewrite of_string_from; by apply Forall_drop|].
  rewrite !of_string_app, of_string_upto. rewrite of_string_from in Hf, Ha. split.
  - rewrite !List.filter_app, Hf, filter_dark by by apply Forall_take. apply (take_drop armorWidth).
  - rewrite !Forall_app. split_and!; [eapply Forall_take, Hself|apply Forall_singleton; by right|].
    eapply Forall_impl; [exact Ha|]. intros b [Hb|Hb]; [left|by right]. by eapply subseteq_drop.
Qed.

(** Every character of an encoding can be seen. *)
Lemma std_char_visible d : b64_ok d -> visible (std_char d) /\ std_char d <> x2d.
Proof.
  intros Hd. unfold b64_ok in Hd.
  assert (In d (map Z.of_nat (seq 0 64))) as Hin by (apply in_map_iff; exists (Z.to_nat d); split; [lia|apply in_seq; lia]).
  assert (forallb (fun d => (33 <=? byte_val (std_char d)) && (byte_val (std_char d) <? 127) && negb (bool_decide (std_char d = x2d)))
    (map Z.of_nat (seq 0 64)) = true) as Hall by (vm_compute; reflexivity).
  rewrite forallb_forall in Hall. specialize (Hall d Hin). bool_prop. unfold visible. split; [lia|done].
Qed.

Lemma std_encode_visible b : Forall (fun c => visible c /\ c <> x2d) (of_string (std_encode b)).
Proof.
  unfold std_encode. rewrite of_to_string. apply Forall_app. split.
  - apply Forall_map. eapply Forall_impl; [apply b64_split_ok|]. intros d Hd. by apply std_char_visible.
  - unfold std_pad. apply Forall_replicate. split; [unfold visible; vm_compute; split; congruence|done].
Qed.

Lemma TrimSpace_line s : Forall visible (take 1 (of_string s)) -> ascii_only (of_string s) ->
  (forall b, last (of_string s) = Some b -> visible b) -> of_string s <> [] ->
  TrimSpace (s +:+ nl) = s.
Proof.
  intros Hh Ha Hl Hne. rewrite <- (TrimSpace_id s) at 2; [|done| |done].
  - unfold TrimSpace. rewrite of_string_app, !segments_ascii by (done || (apply Forall_app; split; [done|by repeat constructor])).
    destruct (of_string s) as [|x l] eqn:E; [done|]. apply Forall_cons in Hh as [Hx _].
    assert (is_space (byte_val x) = false) as Hs by (pose proof (dark_visible x Hx) as Hd; by apply negb_true_iff in Hd).
    cbn [map app drop_while fst]. rewrite Hs, map_app.
    change (map (fun b : byte => (byte_val b, [b])) (of_string nl)) with [(10, [x0a])].
    rewrite app_comm_cons, rev_app_distr. done.
  - intros b. destruct (of_string s); [done|]. intros [= <-]. by apply Forall_cons in Hh as [? _].
Qed.

Lemma unarmor_wrapped e : Forall (fun c => visible c /\ c <> x2d) (of_string e) ->
  unarmor (armorBegin +:+ nl +:+ wrapped (String.length e) e +:+ nl +:+ armorEnd +:+ nl) =
  err_ctx "sshsig: decode armour: " (std_decode e).
Proof.
  intros He. assert (Forall visible (of_string e)) as Hv by (eapply Forall_impl; [exact He|by intros ? []]).
  destruct (wrapped_bytes (String.length e) e Hv) as [Hf Ha].
  set (w := wrapped (String.length e) e) in *. set (inner := nl +:+ w +:+ nl).
  assert (Forall (fun b => byte_val b < 128 /\ b <> x2d) (of_string inner)) as Hi.
  { unfold inner. rewrite !of_string_app, !Forall_app. split_and!; [by repeat constructor| |by repeat constructor].
    eapply Forall_impl; [exact Ha|]. rewrite Forall_forall in He. intros b [Hb | ->]; [|done].
    destruct (He b Hb) as [Hvb Hd]. unfold visible in Hvb. split; [lia|done]. }
  assert (ascii_only (of_string inner)) as Hasc by (eapply Forall_impl; [exact Hi|by intros ? []]).
  assert (List.filter dark (of_string inner) = of_string e) as Hin.
  { unfold inner. rewrite !of_string_app, !List.filter_app, Hf. apply app_nil_r. }
  replace (armorBegin +:+ nl +:+ w +:+ nl +:+ armorEnd +:+ nl) with ((armorBegin +:+ inner +:+ armorEnd) +:+ nl)
    by (unfold inner; by rewrite <- !string_app_assoc).
  unfold unarmor. rewrite TrimSpace_line.
  - rewrite CutAt_here, from_app. pose proof (CutAt_after inner "-"%char "----END SSH SIGNATURE-----" emp) as Hc.
    rewrite string_app_nil_r in Hc. change (String "-" "----END SSH SIGNATURE-----") with armorEnd in Hc. rewrite Hc.
    + by rewrite Join_Fields, Hin, to_of_string.
    + intros Hx. rewrite Forall_forall in Hi. by destruct (Hi _ Hx).
  - rewrite of_string_app. cbn [take]. by repeat constructor.
  - rewrite !of_string_app. unfold ascii_only. rewrite !Forall_app. split_and!; [by repeat constructor|done|by repeat constructor].
  - rewrite !of_string_app, !last_app. intros b. cbn. intros [= <-]. done.
  - by rewrite of_string_app.
Qed.

(** What [Armored] writes is read back: the signature itself, with an empty
    hash algorithm made explicit. *)
Theorem Parse_Armored `{Ssh} `{!SshLaws} s :
  Parse (Armored s) =
  Ok (mk_SshSignature (ss_PublicKey s) (ss_Namespace s) (NormaliseHash (ss_HashAlgorithm s)) (ss_Signature s)).
Proof.
  unfold Parse, Armored. rewrite unarmor_wrapped by apply std_encode_visible. rewrite std_decode_encode.
  cbn [err_ctx mbind result_bind]. apply ParseBinary_ours.
Qed.

Import Toy.

(** A signature in armour takes two lines between its marks, and without an
    end mark it is none. *)
Example armour_wraps :
  let s := mk_SshSignature (of_string "k") "git" "" (mk_Signature "toy" (of_string "a signature") []) in
  length (Split (Armored s) (ascii_of_N 10)) = 5%nat /\ is_ok (Parse (Armored s)) = true /\
  is_ok (Parse (armorBegin +:+ "AAAA")) = false.
Proof. vm_compute. done. Qed.
