(* ===== verification/Pairings.v ===== *)
(** * Pairings: the trust records and the pairings under way

    [pkg/keystore/peers.go] and [pairings.go]: who this instance has paired
    with, what each peer may do, and the pairings that are not settled yet.

    A store here is the part of the encrypted document those operations read
    and write, with a stream for what each [save] of it comes to.  A failed
    [save] leaves the change in memory, as in the source. *)

From S2P Require Import Prelude.
From S2P Require Import Sorting.
From S2P Require Import GoText.
From S2P Require Import Proto.
From S2P Require Import PairingProto.
From S2P Require Import Trust.
From stdpp Require Import sorting.

Local Open Scope Z_scope.

Record store := mk_store {
  sd_peers : list TrustRecord;
  sd_pending : list PendingPairing;
  sd_keys : list (string * string);   (** fingerprint and label of each key *)
  sd_disk : nat -> option error;
  sd_writes : nat
}.

Definition set_peers (l : list TrustRecord) (s : store) : store :=
  mk_store l (sd_pending s) (sd_keys s) (sd_disk s) (sd_writes s).
Definition set_pending (l : list PendingPairing) (s : store) : store :=
  mk_store (sd_peers s) l (sd_keys s) (sd_disk s) (sd_writes s).

Definition save : state store (option error) := fun s =>
  (sd_disk s (sd_writes s),
   mk_store (sd_peers s) (sd_pending s) (sd_keys s) (sd_disk s) (S (sd_writes s))).

(** ** The pairings under way *)

Definition ErrNoSuchPairing : error :=
  sentinel "keystore.ErrNoSuchPairing" "keystore: no such pending pairing".
Definition MaxPendingPairings : nat := 16.
Definition pairingAnsweredBonus : Z := 100 * 365 * 24 * 60 * 60.

Definition PendingPairings : state store (list PendingPairing) :=
  pending ← gets sd_pending;
  mret (SliceStable (fun a b => AsTime (pg_started_at a) <? AsTime (pg_started_at b)) pending).

Section Matching.
Context `{Unicode}.

Definition matchesPairing (ref : string) (pending : PendingPairing) : bool :=
  bool_decide (pg_session_id pending = ref) || bool_decide (pg_fingerprint pending = ref)
  || EqualFold (pg_name pending) ref.

Definition PendingPairing_ (ref : string) : state store (option PendingPairing) :=
  gets (fun s => find_first (matchesPairing ref) (sd_pending s)).

Definition pairingWeight (pending : PendingPairing) : Z :=
  Unix (AsTime (pg_started_at pending)) +
  (if bool_decide (pg_our_answer pending <> ANSWER_UNSPECIFIED) then pairingAnsweredBonus else 0).

Definition boundPairings (pairings : list PendingPairing) : list PendingPairing :=
  if (length pairings <=? MaxPendingPairings)%nat then pairings
  else take MaxPendingPairings
         (SliceStable (fun a b => pairingWeight b <? pairingWeight a) pairings).

(** Whether an entry is held for the session or the identity of another. *)
Definition same_pairing (stored existing : PendingPairing) : bool :=
  bool_decide (pg_session_id existing = pg_session_id stored)
  || bool_decide (pg_fingerprint existing = pg_fingerprint stored).

Definition PutPendingPairing (pending : PendingPairing) : state store (option error) :=
  if bool_decide (pg_session_id pending = emp)
  then mret (Some (errors_New "keystore: a pending pairing needs a session id"))
  else if bool_decide (pg_fingerprint pending = emp)
  then mret (Some (errors_New "keystore: a pending pairing needs a fingerprint"))
  else
    all ← gets sd_pending;
    _ ← modify (set_pending (boundPairings
          (List.filter (fun e => negb (same_pairing pending e)) all ++ [pending])));
    save.

(** What is left of a list without the first element a test accepts, and that
    element. *)
Fixpoint remove_first {A} (p : A -> bool) (l : list A) : option A * list A :=
  match l with
  | [] => (None, [])
  | x :: l' =>
    if p x then (Some x, l') else let '(r, kept) := remove_first p l' in (r, x :: kept)
  end.

Definition RemovePendingPairing (ref : string) : state store (result PendingPairing) :=
  all ← gets sd_pending;
  let '(removed, kept) := remove_first (matchesPairing ref) all in
  match removed with
  | None => mret (Err (wrap_w emp ErrNoSuchPairing (": " +:+ ref)))
  | Some removed =>
    _ ← modify (set_pending kept);
    err ← save;
    match err with Some e => mret (Err e) | None => mret (Ok removed) end
  end.

(** ** The trust records *)

Definition Peers : state store (list TrustRecord) := gets sd_peers.

Definition Peer (ref : string) : state store (option TrustRecord) :=
  gets (fun s => find_first (fun r => MatchesRef r ref) (sd_peers s)).

Definition replace_peer (record : TrustRecord) (all : list TrustRecord) : list TrustRecord :=
  match list_find (fun e => tr_fingerprint e = tr_fingerprint record) all with
  | Some (i, _) => <[i := record]> all
  | None => all ++ [record]
  end.

Definition PutPeer (record : TrustRecord) : state store (option error) :=
  if bool_decide (tr_fingerprint record = emp)
  then mret (Some (errors_New "keystore: a trust record needs a fingerprint"))
  else
    all ← gets sd_peers;
    _ ← modify (set_peers (replace_peer record all));
    save.

(** One turn of [RemovePeer]'s loop: what was removed and what is kept so far.
    A record without a fingerprint leaves [removed] empty. *)
Definition remove_peer_step (ref : string) (acc : string * list TrustRecord) (record : TrustRecord)
    : string * list TrustRecord :=
  let '(removed, kept) := acc in
  if bool_decide (removed = emp) && MatchesRef record ref then (tr_fingerprint record, kept)
  else (removed, kept ++ [record]).

Definition no_such_peer (ref : string) : error := wrap_w emp ErrNoSuchPeer (": " +:+ ref).

Definition RemovePeer (ref : string) : state store (result string) :=
  all ← gets sd_peers;
  let '(removed, kept) := foldl (remove_peer_step ref) (emp, []) all in
  if bool_decide (removed = emp) then mret (Err (no_such_peer ref))
  else
    _ ← modify (set_peers kept);
    err ← save;
    match err with Some e => mret (Err e) | None => mret (Ok removed) end.

Definition ErrNoSuchKey : error := sentinel "keystore.ErrNoSuchKey" "keystore: no such key".

Definition keyFingerprint (keys : list (string * string)) (ref : string) : result string :=
  match find_first (fun k => bool_decide (k.1 = ref) || EqualFold k.2 ref) keys with
  | Some k => Ok k.1
  | None => Err (wrap_w emp ErrNoSuchKey (": " +:+ ref))
  end.

(** The loop that resolves the key references of a decision. *)
Fixpoint resolve_keys (keys : list (string * string)) (refs resolved : list string)
    : result (list string) :=
  match refs with
  | [] => Ok resolved
  | ref :: refs' =>
    fingerprint ← keyFingerprint keys ref;
    resolve_keys keys refs'
      (if bool_decide (fingerprint ∈ resolved) then resolved else resolved ++ [fingerprint])
  end.

(** [for i, record := range peers { if !MatchesRef(record, ref) continue ... }] *)
Definition find_peer (ref : string) (all : list TrustRecord) : option (nat * TrustRecord) :=
  list_find (fun r => MatchesRef r ref = true) all.

Definition SetPeerDirections (ref : string) (d : Directions) : state store (result TrustRecord) :=
  keys ← gets sd_keys;
  match resolve_keys keys (di_AllowedKeys d) [] with
  | Err e => mret (Err e)
  | Ok resolved =>
    let d := mk_Directions (di_MayApprove d) (di_MayRequest d) resolved (di_AllKeys d) in
    all ← gets sd_peers;
    match find_peer ref all with
    | None => mret (Err (no_such_peer ref))
    | Some (i, record) =>
      let revised := Applied d record in
      _ ← modify (set_peers (<[i := revised]> all));
      err ← save;
      match err with Some e => mret (Err e) | None => mret (Ok revised) end
    end
  end.

Definition RenamePeer (ref name : string) : state store (result TrustRecord) :=
  all ← gets sd_peers;
  match find_peer ref all with
  | None => mret (Err (no_such_peer ref))
  | Some (i, record) =>
    if existsb (fun other => EqualFold (tr_name other) name) (delete i all)
    then mret (Err (errors_New ("keystore: the name " +:+ quote name +:+ " is already taken")))
    else
      let revised := Renamed record name in
      _ ← modify (set_peers (<[i := revised]> all));
      err ← save;
      match err with Some e => mret (Err e) | None => mret (Ok revised) end
  end.

End Matching.

(** ** What the store keeps of it *)

Section Spec.
Context `{Unicode}.

Record store_wf (s : store) : Prop := mk_store_wf {
  wf_peers : NoDup (map tr_fingerprint (sd_peers s));
  wf_peers_named : Forall (fun r => tr_fingerprint r <> emp) (sd_peers s);
  wf_sessions : NoDup (map pg_session_id (sd_pending s));
  wf_identities : NoDup (map pg_fingerprint (sd_pending s));
  wf_pending_named :
    Forall (fun p => pg_session_id p <> emp /\ pg_fingerprint p <> emp) (sd_pending s);
  wf_pending_bound : (length (sd_pending s) <= MaxPendingPairings)%nat
}.

(** Everything that changes the store. *)
Inductive store_op :=
| OpPutPendingPairing (pending : PendingPairing)
| OpRemovePendingPairing (ref : string)
| OpPutPeer (record : TrustRecord)
| OpRemovePeer (ref : string)
| OpSetPeerDirections (ref : string) (d : Directions)
| OpRenamePeer (ref name : string).

Definition store_step (op : store_op) (s : store) : store :=
  match op with
  | OpPutPendingPairing pending => (PutPendingPairing pending s).2
  | OpRemovePendingPairing ref => (RemovePendingPairing ref s).2
  | OpPutPeer record => (PutPeer record s).2
  | OpRemovePeer ref => (RemovePeer ref s).2
  | OpSetPeerDirections ref d => (SetPeerDirections ref d s).2
  | OpRenamePeer ref name => (RenamePeer ref name s).2
  end.

Definition store_run (ops : list store_op) (s : store) : store :=
  foldl (fun s op => store_step op s) s ops.

(** *** Lists *)

Lemma filter_sublist {A} (p : A -> bool) l : sublist (List.filter p l) l.
Proof.
  induction l as [|x l IH]; cbn; [constructor|]. destruct (p x); by constructor.
Qed.

Lemma remove_first_sublist {A} (p : A -> bool) l : sublist (remove_first p l).2 l.
Proof.
  induction l as [|x l IH]; cbn; [constructor|]. destruct (p x); cbn; [by constructor|].
  destruct (remove_first p l). by constructor.
Qed.

Lemma remove_first_find {A} (p : A -> bool) l : (remove_first p l).1 = find_first p l.
Proof.
  induction l as [|x l IH]; cbn; [done|]. destruct (p x); [done|].
  by destruct (remove_first p l).
Qed.

Lemma NoDup_map_sublist {A B} (f : A -> B) l k : sublist l k -> NoDup (map f k) -> NoDup (map f l).
Proof. intros Hs Hk. eapply sublist_NoDup; [exact Hk|]. by apply (fmap_sublist f). Qed.

Lemma Forall_sublist_of {A} (P : A -> Prop) l k : sublist l k -> Forall P k -> Forall P l.
Proof. rewrite !Forall_forall. intros Hs HP x Hx. by eapply HP, elem_of_sublist. Qed.

Lemma NoDup_map_insert {A B} (f : A -> B) l i x y :
  l !! i = Some x -> f y = f x -> map f (<[i := y]> l) = map f l.
Proof.
  intros Hx Hf. etransitivity; [apply (list_fmap_insert f)|]. apply list_insert_id.
  rewrite list_lookup_fmap, Hx. cbn. by rewrite Hf.
Qed.

(** *** The bound of the pending set *)

Lemma boundPairings_perm l : exists dropped, boundPairings l ++ dropped ≡ₚ l.
Proof.
  unfold boundPairings. case_match; [exists []; by rewrite app_nil_r|].
  set (k := SliceStable _ l). exists (drop MaxPendingPairings k).
  rewrite take_drop. apply SliceStable_perm.
Qed.

Lemma boundPairings_length l : length (boundPairings l) = (length l `min` MaxPendingPairings)%nat.
Proof.
  unfold boundPairings. destruct (_ <=? _)%nat eqn:E; [apply Nat.leb_le in E; lia|].
  rewrite length_take, (Permutation_length (SliceStable_perm _ _)). lia.
Qed.

Lemma boundPairings_heaviest l kept dropped :
  boundPairings l ++ dropped ≡ₚ l -> kept ∈ boundPairings l ->
  Forall (fun d => pairingWeight d <= pairingWeight kept) dropped.
Proof.
  unfold boundPairings. destruct (_ <=? _)%nat eqn:E.
  { intros Hp _. apply Permutation_length in Hp. rewrite length_app in Hp.
    destruct dropped; [done|cbn in Hp; lia]. }
  intros Hp Hk. set (k := SliceStable _ l) in *.
  assert (dropped ≡ₚ drop MaxPendingPairings k) as ->.
  { apply (Permutation_app_inv_l (take MaxPendingPairings k)). rewrite take_drop, Hp.
    symmetry. apply SliceStable_perm. }
  assert (StronglySorted (not_above (fun a b => pairingWeight b <? pairingWeight a)) k) as Hs.
  { apply SliceStable_sorted; unfold not_above.
    - intros x y z. rewrite !Z.ltb_ge. lia.
    - intros x y. rewrite Z.ltb_lt, Z.ltb_ge. lia. }
  rewrite <- (take_drop MaxPendingPairings k) in Hs.
  apply Forall_forall. intros d Hd. eapply StronglySorted_app_1_elem_of in Hs; [|done..].
  unfold not_above in Hs. by rewrite Z.ltb_ge in Hs.
Qed.

Lemma boundPairings_NoDup {B} (f : PendingPairing -> B) l :
  NoDup (map f l) -> NoDup (map f (boundPairings l)).
Proof.
  intros Hn. destruct (boundPairings_perm l) as [dropped Hp]. apply (Permutation_map f) in Hp.
  rewrite <- Hp, map_app in Hn. by apply NoDup_app in Hn as [? _].
Qed.

Lemma boundPairings_Forall (P : PendingPairing -> Prop) l :
  Forall P l -> Forall P (boundPairings l).
Proof.
  intros HP. destruct (boundPairings_perm l) as [dropped Hp].
  rewrite <- Hp in HP. by apply Forall_app in HP as [? _].
Qed.

Lemma others_NoDup {B} (f : PendingPairing -> B) p all :
  NoDup (map f all) -> (forall e, same_pairing p e = false -> f e <> f p) ->
  NoDup (map f (List.filter (fun e => negb (same_pairing p e)) all ++ [p])).
Proof.
  intros Hn Hf. rewrite map_app. apply NoDup_app. split_and!.
  - eapply NoDup_map_sublist; [apply filter_sublist|done].
  - intros x Hx Hp%list_elem_of_singleton. apply list_elem_of_In, in_map_iff in Hx as (e & He & Hin).
    apply filter_In in Hin as [_ Hin]. bool_prop. apply Hf in Hin. congruence.
  - apply NoDup_singleton.
Qed.

(** *** The invariant *)

Lemma save_doc s : sd_peers (save s).2 = sd_peers s /\ sd_pending (save s).2 = sd_pending s.
Proof. done. Qed.

Lemma remove_peer_fold ref all removed kept :
  removed <> emp -> foldl (remove_peer_step ref) (removed, kept) all = (removed, kept ++ all).
Proof.
  intros Hr. revert kept. induction all as [|r all IH]; intros kept; [by rewrite app_nil_r|].
  cbn [foldl remove_peer_step]. rewrite bool_decide_eq_false_2 by done. cbn [andb].
  by rewrite IH, <- app_assoc.
Qed.

(** On named records the loop removes the first that answers, and no other. *)
Lemma remove_peer_spec ref all kept :
  Forall (fun r => tr_fingerprint r <> emp) all ->
  foldl (remove_peer_step ref) (emp, kept) all =
  (match find_first (fun r => MatchesRef r ref) all with Some r => tr_fingerprint r | None => emp end,
   kept ++ (remove_first (fun r => MatchesRef r ref) all).2).
Proof.
  intros Hn. revert kept. induction Hn as [|r all Hr Hn IH]; intros kept;
    [cbn; by rewrite app_nil_r|].
  cbn [foldl remove_peer_step find_first remove_first].
  rewrite bool_decide_eq_true_2 by done. cbn [andb]. destruct (MatchesRef r ref).
  - by rewrite remove_peer_fold.
  - rewrite IH, <- app_assoc. by destruct (remove_first _ all).
Qed.

Lemma replace_peer_wf record all :
  NoDup (map tr_fingerprint all) -> Forall (fun r => tr_fingerprint r <> emp) all ->
  tr_fingerprint record <> emp ->
  NoDup (map tr_fingerprint (replace_peer record all)) /\
  Forall (fun r => tr_fingerprint r <> emp) (replace_peer record all).
Proof.
  intros Hn Hf Hr. unfold replace_peer. destruct (list_find _ all) as [[i x]|] eqn:E.
  - apply list_find_Some in E as (Hi & Hx & _).
    rewrite (NoDup_map_insert tr_fingerprint _ _ x) by done. split; [done|].
    by apply Forall_insert.
  - rewrite list_find_None in E. split; [|apply Forall_app_2; [done|by constructor]].
    rewrite map_app. apply NoDup_app. split_and!; [done| |apply NoDup_singleton].
    intros x Hx Hone%list_elem_of_singleton. apply list_elem_of_In, in_map_iff in Hx as (e & He & Hin).
    apply list_elem_of_In in Hin. eapply Forall_forall in E; [|done]. congruence.
Qed.

Lemma insert_peer_wf i r revised all :
  NoDup (map tr_fingerprint all) -> Forall (fun r => tr_fingerprint r <> emp) all ->
  all !! i = Some r -> tr_fingerprint revised = tr_fingerprint r ->
  NoDup (map tr_fingerprint (<[i := revised]> all)) /\
  Forall (fun r => tr_fingerprint r <> emp) (<[i := revised]> all).
Proof.
  intros Hn Hf Hi Hr. rewrite (NoDup_map_insert tr_fingerprint _ _ r) by done. split; [done|].
  apply Forall_insert; [done|]. rewrite Hr. exact (Forall_lookup_1 _ _ _ _ Hf Hi).
Qed.

Lemma peers_store_wf s l :
  store_wf s -> NoDup (map tr_fingerprint l) -> Forall (fun r => tr_fingerprint r <> emp) l ->
  store_wf (save (set_peers l s)).2.
Proof. intros []. by constructor. Qed.

Lemma pending_store_wf s l :
  store_wf s -> NoDup (map pg_session_id l) -> NoDup (map pg_fingerprint l) ->
  Forall (fun p => pg_session_id p <> emp /\ pg_fingerprint p <> emp) l ->
  (length l <= MaxPendingPairings)%nat -> store_wf (save (set_pending l s)).2.
Proof. intros []. by constructor. Qed.

Lemma PutPendingPairing_wf p s : store_wf s -> store_wf (PutPendingPairing p s).2.
Proof.
  intros Hwf. pose proof Hwf as [Hp Hpn Hs Hi Hn Hb].
  unfold PutPendingPairing. case_bool_decide as Hne; [done|]. case_bool_decide as Hne'; [done|].
  cbn. apply (pending_store_wf s); [done|apply boundPairings_NoDup, others_NoDup; [done|]..| |].
  1-2: unfold same_pairing; intros e; intros; bool_prop; congruence.
  - apply boundPairings_Forall, Forall_app_2; [|by repeat constructor].
    eapply Forall_sublist_of; [apply filter_sublist|done].
  - rewrite boundPairings_length. lia.
Qed.

(** However the store is driven, whatever its writes come to: every
    trust record is filed under an identity of its own, every pairing under way
    under a session and an identity of its own, none without a name, and there
    are never more than sixteen pairings under way. *)
Theorem store_wf_run s ops : store_wf s -> store_wf (store_run ops s).
Proof.
  revert s. induction ops as [|op ops IH]; intros s Hwf; [done|]. apply IH. clear IH ops.
  pose proof Hwf as [Hp Hpn Hs Hi Hn Hb]. destruct op; cbn [store_step].
  - by apply PutPendingPairing_wf.
  - unfold RemovePendingPairing. run_state. pose proof (remove_first_sublist (matchesPairing ref) (sd_pending s)).
    destruct (remove_first _ _) as [[r|] kept]; [|done]. cbn in *.
    assert (store_wf (save (set_pending kept s)).2) as Hk; [|by destruct (sd_disk s (sd_writes s))].
    apply pending_store_wf; [done|by eapply NoDup_map_sublist..|by eapply Forall_sublist_of|].
    etransitivity; [by apply sublist_length|done].
  - unfold PutPeer. case_bool_decide as Hne; [done|]. cbn.
    destruct (replace_peer_wf record (sd_peers s)); [done..|]. by apply (peers_store_wf s).
  - unfold RemovePeer. run_state. rewrite remove_peer_spec by done. cbn.
    case_bool_decide; [done|].
    pose proof (remove_first_sublist (fun r => MatchesRef r ref) (sd_peers s)) as Hl.
    set (kept := (remove_first _ _).2) in *.
    assert (store_wf (save (set_peers kept s)).2) as Hk; [|by cbn; destruct (sd_disk s (sd_writes s))].
    apply peers_store_wf; [done|by eapply NoDup_map_sublist|by eapply Forall_sublist_of].
  - unfold SetPeerDirections. run_state. destruct (resolve_keys _ _ _); [|done]. cbn.
    destruct (find_peer _ _) as [[i r]|] eqn:E; [|done]. apply list_find_Some in E as (E & _ & _).
    cbn. set (revised := Applied _ r).
    destruct (insert_peer_wf i r revised (sd_peers s)) as [Ha Hf]; [done..|].
    pose proof (peers_store_wf s _ Hwf Ha Hf). by destruct (sd_disk s (sd_writes s)).
  - unfold RenamePeer. run_state. destruct (find_peer _ _) as [[i r]|] eqn:E; [|done].
    apply list_find_Some in E as (E & _ & _). destruct (existsb _ _); [done|].
    cbn. destruct (insert_peer_wf i r (Renamed r name) (sd_peers s)) as [Ha Hf]; [done..|].
    pose proof (peers_store_wf s _ Hwf Ha Hf). by destruct (sd_disk s (sd_writes s)).
Qed.

Lemma PutPendingPairing_room p s :
  pg_session_id p <> emp -> pg_fingerprint p <> emp ->
  (length (List.filter (fun e => negb (same_pairing p e)) (sd_pending s)) < MaxPendingPairings)%nat ->
  (PutPendingPairing p s).1 = sd_disk s (sd_writes s) /\
  sd_pending (PutPendingPairing p s).2 =
    List.filter (fun e => negb (same_pairing p e)) (sd_pending s) ++ [p].
Proof.
  intros Hs Hf Hl. unfold PutPendingPairing. rewrite !bool_decide_eq_false_2 by done. run_state.
  split; [done|]. unfold boundPairings. rewrite length_app. cbn.
  by rewrite (proj2 (Nat.leb_le (_ + 1) MaxPendingPairings)) by lia.
Qed.

(** Writing a pairing down replaces what was held for the same
    session or identity and nothing else, as long as there is room; when there
    is not, exactly sixteen stay, they are the heaviest, and what was dropped
    weighs no more than anything kept. *)
Theorem PutPendingPairing_spec p s :
  pg_session_id p <> emp -> pg_fingerprint p <> emp ->
  let others := List.filter (fun e => negb (same_pairing p e)) (sd_pending s) in
  let after := sd_pending (PutPendingPairing p s).2 in
  (PutPendingPairing p s).1 = sd_disk s (sd_writes s) /\
  sd_peers (PutPendingPairing p s).2 = sd_peers s /\
  ((length others < MaxPendingPairings)%nat -> after = others ++ [p]) /\
  ((MaxPendingPairings <= length others)%nat -> length after = MaxPendingPairings /\
     exists dropped, after ++ dropped ≡ₚ others ++ [p] /\
       forall d e, d ∈ dropped -> e ∈ after -> pairingWeight d <= pairingWeight e).
Proof.
  intros Hs Hf others after. subst others after. unfold PutPendingPairing. rewrite !bool_decide_eq_false_2 by done. run_state.
  set (others := List.filter _ _). split_and!; [done..| |]; intros Hl.
  - pose proof (PutPendingPairing_room p s Hs Hf Hl) as [_ Hr]. revert Hr.
    unfold PutPendingPairing. by rewrite !bool_decide_eq_false_2 by done.
  - split; [rewrite boundPairings_length, length_app; cbn; lia|].
    destruct (boundPairings_perm (others ++ [p])) as [dropped Hp]. exists dropped. split; [done|].
    intros d e Hd He. eapply boundPairings_heaviest in He; [|done]. by eapply Forall_forall in He.
Qed.

(** *** Directions *)

Lemma resolve_keys_spec keys refs resolved out :
  resolve_keys keys refs resolved = Ok out -> NoDup resolved ->
  NoDup out /\ (forall fp, fp ∈ out <-> fp ∈ resolved \/
    exists ref, ref ∈ refs /\ keyFingerprint keys ref = Ok fp) /\
  (forall ref, ref ∈ refs -> exists fp, keyFingerprint keys ref = Ok fp).
Proof.
  revert resolved. induction refs as [|ref refs IH]; intros resolved; cbn [resolve_keys].
  { intros [= <-] Hn. split_and!; [done| |set_solver]. set_solver. }
  intros (fp & Hfp & Hr)%result_bind_Ok Hn. apply IH in Hr as (Hno & Hin & Hall).
  - split_and!; [done| |].
    + intros x. rewrite Hin. setoid_rewrite elem_of_cons. case_bool_decide as Hd; split.
      * naive_solver.
      * intros [Hx|(r & [->|Hr] & Hk)]; [by left| |by eauto].
        rewrite Hfp in Hk. injection Hk as <-. by left.
      * rewrite elem_of_app, list_elem_of_singleton.
        intros [[Hx| ->]|(r & Hr & Hk)]; [by left|by eauto|by eauto].
      * rewrite elem_of_app, list_elem_of_singleton.
        intros [Hx|(r & [->|Hr] & Hk)]; [by left; left| |by eauto].
        rewrite Hfp in Hk. injection Hk as <-. by left; right.
    + intros r [->|Hr]%elem_of_cons; [by eauto|by apply Hall].
  - case_bool_decide; [done|]. apply NoDup_app. split_and!; [done| |apply NoDup_singleton].
    intros x Hx ->%list_elem_of_singleton. done.
Qed.

(** Changing what a peer may do changes the directions and the
    keys of the first record that answers, to what was decided, and nothing
    else of it or of any other record; the keys it ends with are fingerprints
    of keys held here, each once, one for every reference given. *)
Theorem SetPeerDirections_spec ref d s revised s' :
  SetPeerDirections ref d s = (Ok revised, s') ->
  exists i record, find_peer ref (sd_peers s) = Some (i, record) /\
    sd_peers s' = <[i := revised]> (sd_peers s) /\ sd_pending s' = sd_pending s /\
    Applied (DirectionsOf record) revised = record /\
    tr_may_approve revised = di_MayApprove d /\ tr_may_request revised = di_MayRequest d /\
    tr_may_use_all_keys revised = di_AllKeys d /\
    NoDup (tr_allowed_key_fingerprints revised) /\
    (forall fp, fp ∈ tr_allowed_key_fingerprints revised ->
       exists key, key ∈ sd_keys s /\ key.1 = fp) /\
    (forall r, r ∈ di_AllowedKeys d ->
       exists fp, keyFingerprint (sd_keys s) r = Ok fp /\ fp ∈ tr_allowed_key_fingerprints revised).
Proof.
  unfold SetPeerDirections. run_state. destruct (resolve_keys _ _ _) as [keys|] eqn:Hk; [|done].
  run_state. destruct (find_peer _ _) as [[i record]|] eqn:E; [|done]. cbn.
  destruct (sd_disk s (sd_writes s)); [done|]. intros [= <- <-]. exists i, record.
  apply resolve_keys_spec in Hk as (Hn & Hin & Hall); [|constructor]. cbn.
  split_and!; try done.
  - by destruct record.
  - intros fp [Hfp|(r & _ & Hf)]%Hin; [by apply not_elem_of_nil in Hfp|].
    unfold keyFingerprint in Hf. destruct (find_first _ _) as [key|] eqn:Hkey; [|done].
    injection Hf as <-. apply find_first_elem in Hkey as [? _]. by exists key.
  - intros r Hr. destruct (Hall r Hr) as [fp Hf]. exists fp. split; [done|].
    apply Hin. right. by exists r.
Qed.

(** A record can be looked up by its identity, unless the name of another is
    that identity. *)
Lemma Peer_PutPeer record s :
  tr_fingerprint record <> emp ->
  Forall (fun r => tr_fingerprint r <> tr_fingerprint record ->
    EqualFold (tr_name r) (tr_fingerprint record) = false) (sd_peers s) ->
  (Peer (tr_fingerprint record) (PutPeer record s).2).1 = Some record.
Proof.
  intros Hne Hnames. unfold PutPeer. rewrite bool_decide_eq_false_2 by done. run_state.
  unfold replace_peer. destruct (list_find _ (sd_peers s)) as [[i x]|] eqn:E; apply find_first_Some.
  - apply list_find_Some in E as (Hi & Hx & Hbefore).
    exists (take i (sd_peers s)), (drop (S i) (sd_peers s)). split_and!.
    + apply insert_take_drop. by apply lookup_lt_Some in Hi.
    + unfold MatchesRef. by rewrite bool_decide_eq_true_2.
    + apply Forall_forall. intros r (j & Hj & Hlt)%elem_of_take. specialize (Hbefore j r Hj Hlt).
      eapply Forall_lookup_1 in Hnames; [|exact Hj]. unfold MatchesRef.
      by rewrite bool_decide_eq_false_2, Hnames.
  - rewrite list_find_None in E. exists (sd_peers s), []. split_and!; [done| |].
    + unfold MatchesRef. by rewrite bool_decide_eq_true_2.
    + apply Forall_forall. intros r Hr. eapply Forall_forall in E; [|done].
      eapply Forall_forall in Hnames; [|done]. unfold MatchesRef.
      by rewrite bool_decide_eq_false_2, Hnames.
Qed.

Lemma remove_first_gone {A B} (p : A -> bool) (f : A -> B) l x :
  find_first p l = Some x -> NoDup (map f l) -> f x ∉ map f (remove_first p l).2.
Proof.
  intros Hx Hn. revert Hx. induction l as [|y l IH]; cbn; [done|]. apply NoDup_cons in Hn as [Hy Hn].
  destruct (p y); cbn; [by intros [= <-]|]. intros Hx. specialize (IH Hn Hx).
  pose proof (find_first_elem _ _ _ Hx) as [Hxl _].
  pose proof (remove_first_find p l) as Hr. destruct (remove_first p l) as [r kept]. cbn in *.
  intros [He|Hk]%elem_of_cons; [|done]. apply Hy. rewrite <- He.
  apply list_elem_of_In, in_map, list_elem_of_In. done.
Qed.

(** A forgotten peer has no record left. *)
Lemma RemovePeer_gone ref s fp s' :
  store_wf s -> RemovePeer ref s = (Ok fp, s') ->
  (fp ∉ map tr_fingerprint (sd_peers s')) /\ sublist (sd_peers s') (sd_peers s) /\
  exists record, find_first (fun r => MatchesRef r ref) (sd_peers s) = Some record /\
    tr_fingerprint record = fp.
Proof.
  intros []. unfold RemovePeer. run_state. rewrite remove_peer_spec by done. cbn.
  destruct (find_first _ _) as [record|] eqn:E; [|done]. case_bool_decide; [done|]. cbn.
  destruct (sd_disk s (sd_writes s)); [done|]. intros [= <- <-]. split_and!; [|apply remove_first_sublist|eauto].
  by apply remove_first_gone.
Qed.

End Spec.

(** ** Concrete stores *)

Definition no_store : store := mk_store [] [] [("SHA256:k"%string, "Work"%string)] (fun _ => None) 0.

Definition toy_pending (session fp name : string) (answer : PairingAnswer) (at_ : time)
    : PendingPairing :=
  mk_PendingPairing session fp name [] [] true false false false emp answer ANSWER_UNSPECIFIED
    (Some at_) None emp [] None.

Definition toy_record (fp name : string) : TrustRecord :=
  mk_TrustRecord fp name [] [] true false [] None false false emp None None.

(** Sixteen pairings answered here and waiting for the other side. *)
Definition full_store : store :=
  set_pending (map (fun n => toy_pending (itoa n) ("SHA256:" +:+ itoa n) "box" ANSWER_ACCEPTED (n * Second))
    (map Z.of_nat (seq 1 16))) no_store.

(** A seventeenth is dropped as it is written down, and the write says that it
    worked: an entry nobody has answered is lighter than every answered one. *)
Example seventeenth_is_lost :
  let new := toy_pending "17" "SHA256:17" "desk" ANSWER_UNSPECIFIED (60 * Second) in
  let '(err, s) := PutPendingPairing new full_store in
  err = None /\ (PendingPairing_ "17" s).1 = None /\ length (sd_pending s) = 16%nat.
Proof. vm_compute. repeat split. Qed.

(** A record named like the identity of another answers for it. *)
Definition shadowed_store : store :=
  set_peers [toy_record "SHA256:x" "SHA256:y"; toy_record "SHA256:y" "desk"] no_store.

Example shadowed_by_name :
  tr_fingerprint <$> (Peer "SHA256:y" shadowed_store).1 = Some "SHA256:x"%string /\
  (RemovePeer "SHA256:y" shadowed_store).1 = Ok "SHA256:x"%string.
Proof. vm_compute. repeat split. Qed.

Lemma no_store_wf : store_wf no_store.
Proof. constructor; cbn; try constructor. lia. Qed.

Definition toy_run : list store_op :=
  [OpPutPendingPairing (toy_pending "s" "SHA256:x" "box" ANSWER_ACCEPTED 0);
   OpPutPeer (toy_record "SHA256:x" "box"); OpRemovePendingPairing "s"; OpRenamePeer "box" "desk"].

Lemma store_wf_run_witness : store_wf (store_run toy_run no_store).
Proof. exact (store_wf_run no_store toy_run no_store_wf). Defined.

Definition seventeenth : PendingPairing :=
  toy_pending "17" "SHA256:17" "desk" ANSWER_ACCEPTED (60 * Second).

Lemma PutPendingPairing_spec_witness :
  length (sd_pending (PutPendingPairing seventeenth full_store).2) = MaxPendingPairings.
Proof.
  apply (PutPendingPairing_spec seventeenth full_store); [discriminate..|].
  vm_compute. lia.
Defined.

Definition one_peer : store := set_peers [toy_record "SHA256:x" "box"] no_store.
Definition toy_directions : Directions := mk_Directions false true ["work"; "SHA256:k"]%string false.
Definition directed : TrustRecord :=
  mk_TrustRecord "SHA256:x" "box" [] [] false true ["SHA256:k"%string] None false false emp None None.

Lemma SetPeerDirections_spec_witness :
  SetPeerDirections "BOX" toy_directions one_peer =
    (Ok directed, (SetPeerDirections "BOX" toy_directions one_peer).2) /\
  tr_may_request directed = di_MayRequest toy_directions.
Proof.
  split; [vm_compute; reflexivity|].
  destruct (SetPeerDirections_spec "BOX" toy_directions one_peer directed
    (SetPeerDirections "BOX" toy_directions one_peer).2) as (i & r & _ & _ & _ & _ & _ & Hr & _).
  - vm_compute. reflexivity.
  - exact Hr.
Defined.

