(* ===== verification/Window.v ===== *)
(** * Window: the attempts a displayed code allows

    [pkg/peer/pairing.go], the [pairingWindow]: the code on the screen, the
    attempts charged to it, and the exchanges under way.  Each operation is one
    critical section of the window's mutex, so a run of operations is an
    interleaving of the handlers, the timers and the screen.

    A channel that is only ever closed is a [signal], which remembers being
    closed twice (a panic); a buffered channel is the list of what is in it;
    an exchange's timer is armed or stopped.  A timer that was stopped may have
    fired already, so [abandon] is never held back by it. *)

From S2P Require Import Prelude.
From S2P Require Import GoText.
From S2P Require Import Ssh.
From S2P Require Import Proto.
From S2P Require Import PairingProto.
From S2P Require Import Cpace.
From S2P Require Import Trust.

Local Open Scope Z_scope.

Inductive signal := Waiting | Closed | ClosedTwice.

Definition close_signal (c : signal) : signal :=
  match c with Waiting => Closed | Closed | ClosedTwice => ClosedTwice end.

#[export] Instance signal_eq_dec : EqDecision signal.
Proof. solve_decision. Defined.

Definition errPairingSpent : error :=
  sentinel "peer.errPairingSpent" "this pairing code has already been used".
Definition errPairingClosed : error :=
  sentinel "peer.errPairingClosed" "no pairing is in progress on this instance".
Definition errPairingExhausted : error :=
  sentinel "peer.errPairingExhausted" "this pairing code has had all the attempts it allows".
Definition errNoExchange : error :=
  sentinel "peer.errNoExchange" "that pairing exchange is not open here; start again".
Definition errExchangeOwner : error :=
  sentinel "peer.errExchangeOwner" "that pairing exchange was started by another identity".

Section Window.
Context `{Hashes} `{Ristretto}.

Record pinExchange := mk_pinExchange {
  px_fingerprint : string;
  px_remote : string;
  px_initiator : Initiator;
  px_timer : bool;
  px_taken : bool
}.

Record pairingWindow := mk_pairingWindow {
  w_pin : string;
  w_secret : string;
  w_expires : time;
  w_intent : Intent;
  w_arrived : list string;
  w_attempted : list PairingAttempt;
  w_exhausted : signal;
  w_spent : signal;
  w_done : signal;
  w_charged : Z;
  w_proving : Z;
  w_failures : list PairingAttempt;
  w_exchanges : gmap string pinExchange;
  w_closed : bool;
  w_settled : bool;
  w_tired : bool
}.

(** The fields assigned one at a time. *)
Definition set_arrived (l : list string) (w : pairingWindow) : pairingWindow :=
  mk_pairingWindow (w_pin w) (w_secret w) (w_expires w) (w_intent w) l (w_attempted w)
    (w_exhausted w) (w_spent w) (w_done w) (w_charged w) (w_proving w) (w_failures w)
    (w_exchanges w) (w_closed w) (w_settled w) (w_tired w).
Definition set_charged (n : Z) (w : pairingWindow) : pairingWindow :=
  mk_pairingWindow (w_pin w) (w_secret w) (w_expires w) (w_intent w) (w_arrived w) (w_attempted w)
    (w_exhausted w) (w_spent w) (w_done w) n (w_proving w) (w_failures w)
    (w_exchanges w) (w_closed w) (w_settled w) (w_tired w).
Definition set_proving (n : Z) (w : pairingWindow) : pairingWindow :=
  mk_pairingWindow (w_pin w) (w_secret w) (w_expires w) (w_intent w) (w_arrived w) (w_attempted w)
    (w_exhausted w) (w_spent w) (w_done w) (w_charged w) n (w_failures w)
    (w_exchanges w) (w_closed w) (w_settled w) (w_tired w).
Definition set_exchanges (m : gmap string pinExchange) (w : pairingWindow) : pairingWindow :=
  mk_pairingWindow (w_pin w) (w_secret w) (w_expires w) (w_intent w) (w_arrived w) (w_attempted w)
    (w_exhausted w) (w_spent w) (w_done w) (w_charged w) (w_proving w) (w_failures w)
    m (w_closed w) (w_settled w) (w_tired w).
Definition set_closed (w : pairingWindow) : pairingWindow :=
  mk_pairingWindow (w_pin w) (w_secret w) (w_expires w) (w_intent w) (w_arrived w) (w_attempted w)
    (w_exhausted w) (w_spent w) (if w_closed w then w_done w else close_signal (w_done w))
    (w_charged w) (w_proving w) (w_failures w) (w_exchanges w) true (w_settled w) (w_tired w).
Definition set_settled (w : pairingWindow) : pairingWindow :=
  mk_pairingWindow (w_pin w) (w_secret w) (w_expires w) (w_intent w) (w_arrived w) (w_attempted w)
    (w_exhausted w) (close_signal (w_spent w)) (w_done w) (w_charged w) (w_proving w)
    (w_failures w) (w_exchanges w) (w_closed w) true (w_tired w).
Definition set_tired (w : pairingWindow) : pairingWindow :=
  mk_pairingWindow (w_pin w) (w_secret w) (w_expires w) (w_intent w) (w_arrived w) (w_attempted w)
    (close_signal (w_exhausted w)) (close_signal (w_spent w)) (w_done w) (w_charged w)
    (w_proving w) (w_failures w) (w_exchanges w) (w_closed w) (w_settled w) true.
Definition add_failure (a : PairingAttempt) (w : pairingWindow) : pairingWindow :=
  mk_pairingWindow (w_pin w) (w_secret w) (w_expires w) (w_intent w) (w_arrived w)
    (if bool_decide (length (w_attempted w) < 4 * MaxAttempts)%nat then w_attempted w ++ [a]
     else w_attempted w)
    (w_exhausted w) (w_spent w) (w_done w) (w_charged w) (w_proving w) (w_failures w ++ [a])
    (w_exchanges w) (w_closed w) (w_settled w) (w_tired w).

Definition stop_timer (x : pinExchange) : pinExchange :=
  mk_pinExchange (px_fingerprint x) (px_remote x) (px_initiator x) false (px_taken x).
Definition stop_timers (w : pairingWindow) : pairingWindow :=
  set_exchanges (stop_timer <$> w_exchanges w) w.

Definition newPairingWindow (pin secret : string) (intent : Intent) (now : time) : pairingWindow :=
  mk_pairingWindow pin secret (Add now CodeValidity) intent [] [] Waiting Waiting Waiting
    0 0 [] ∅ false false false.

(** ** The operations *)

Definition settle (session : string) : state pairingWindow unit :=
  arrived ← gets w_arrived;
  when (bool_decide (arrived = [])) (modify (set_arrived [session])).

Definition admits (w : pairingWindow) (now : time) : bool :=
  negb (w_closed w) && (now <? w_expires w).

Definition closeLocked : state pairingWindow unit :=
  _ ← modify set_closed;
  modify stop_timers.

Definition close : state pairingWindow unit := closeLocked.

Definition chargeLocked : state pairingWindow (option error) := fun w =>
  if w_settled w then (Some errPairingSpent, w)
  else if w_closed w then (Some errPairingClosed, w)
  else if w_tired w || (Z.of_nat MaxAttempts <=? w_charged w) then (Some errPairingExhausted, w)
  else (None, set_charged (w_charged w + 1) w).

Definition failLocked (now : time) (source outcome : string) : state pairingWindow unit :=
  _ ← modify (add_failure (mk_PairingAttempt source (Some now) outcome));
  w ← gets id;
  when ((Z.of_nat MaxAttempts <=? w_charged w) && bool_decide (w_exchanges w = ∅)
        && (w_proving w =? 0) && negb (w_settled w) && negb (w_tired w))
    (modify set_tired).

Definition claimLocked : state pairingWindow bool :=
  _ ← modify (fun w => if 0 <? w_charged w then set_charged (w_charged w - 1) w else w);
  w ← gets id;
  if w_settled w || w_closed w || w_tired w then mret false
  else
    _ ← modify set_settled;
    _ ← modify stop_timers;
    mret true.

Definition chargeProof : state pairingWindow (option error) :=
  err ← chargeLocked;
  match err with
  | Some e => mret (Some e)
  | None => _ ← modify (fun w => set_proving (w_proving w + 1) w); mret None
  end.

Definition failProof (now : time) (source outcome : string) : state pairingWindow unit :=
  _ ← modify (fun w => set_proving (w_proving w - 1) w);
  failLocked now source outcome.

Definition passProof : state pairingWindow bool :=
  _ ← modify (fun w => set_proving (w_proving w - 1) w);
  claimLocked.

Definition failedAttempts (w : pairingWindow) : list PairingAttempt := w_failures w.

(** An exchange of [fingerprint] whose second round has not come. *)
Definition replaceable (fingerprint : string) (x : pinExchange) : bool :=
  bool_decide (px_fingerprint x = fingerprint) && negb (px_taken x).

(** The turn of [startExchange]'s loop for one entry of the map. *)
Definition restart (now : time) (fingerprint : string) (entry : string * pinExchange)
    (w : pairingWindow) : pairingWindow :=
  if replaceable fingerprint entry.2
  then (failLocked now (px_remote entry.2) "started again before finishing"
          (set_exchanges (delete entry.1 (w_exchanges w)) w)).2
  else w.

Definition startExchange (now : time) (id : string) (x : pinExchange)
    : state pairingWindow (option error) :=
  _ ← modify (fun w => foldl (fun w entry => restart now (px_fingerprint x) entry w) w
                         (map_to_list (w_exchanges w)));
  err ← chargeLocked;
  match err with
  | Some e => mret (Some e)
  | None =>
    let x := mk_pinExchange (px_fingerprint x) (px_remote x) (px_initiator x) true (px_taken x) in
    _ ← modify (fun w => set_exchanges (<[id := x]> (w_exchanges w)) w);
    mret None
  end.

Definition abandon (now : time) (id : string) : state pairingWindow unit :=
  exchanges ← gets w_exchanges;
  match exchanges !! id with
  | None => mret tt
  | Some x =>
    if px_taken x then mret tt
    else
      _ ← modify (set_exchanges (delete id exchanges));
      failLocked now (px_remote x) "started and never finished"
  end.

Definition takeExchange (id fingerprint : string) : state pairingWindow (result pinExchange) :=
  exchanges ← gets w_exchanges;
  match exchanges !! id with
  | None => mret (Err errNoExchange)
  | Some x =>
    if px_taken x then mret (Err errNoExchange)
    else if bool_decide (px_fingerprint x <> fingerprint) then mret (Err errExchangeOwner)
    else
      let x := mk_pinExchange (px_fingerprint x) (px_remote x) (px_initiator x) false true in
      _ ← modify (set_exchanges (<[id := x]> exchanges));
      mret (Ok x)
  end.

Definition failExchange (now : time) (id source outcome : string) : state pairingWindow unit :=
  _ ← modify (fun w => set_exchanges (delete id (w_exchanges w)) w);
  failLocked now source outcome.

Definition passExchange (id : string) : state pairingWindow bool :=
  _ ← modify (fun w => set_exchanges (delete id (w_exchanges w)) w);
  claimLocked.

(** ** Runs

    A window, the older proofs being checked, and how many callers were told
    that they used the code.  A handler resolves exactly what it charged or
    took, and a session id is fresh: those are the guards. *)

Record run := mk_run { r_window : pairingWindow; r_proofs : nat; r_claims : nat }.

Inductive window_op :=
| WChargeProof
| WFailProof (now : time) (source outcome : string)
| WPassProof
| WStart (now : time) (id : string) (x : pinExchange)
| WAbandon (now : time) (id : string)
| WTake (id fingerprint : string)
| WFailExchange (now : time) (id source outcome : string)
| WPassExchange (id : string)
| WClose
| WSettle (session : string).

Definition taken_exchange (id : string) (w : pairingWindow) : bool :=
  match w_exchanges w !! id with Some x => px_taken x | None => false end.

Definition count (b : bool) : nat := if b then 1%nat else 0%nat.

Definition window_do (op : window_op) (r : run) : option run :=
  let '(mk_run w proofs claims) := r in
  match op with
  | WChargeProof =>
    let '(err, w) := chargeProof w in Some (mk_run w (proofs + count (bool_decide (err = None))) claims)
  | WFailProof now source outcome =>
    if (proofs =? 0)%nat then None else Some (mk_run (failProof now source outcome w).2 (proofs - 1) claims)
  | WPassProof =>
    if (proofs =? 0)%nat then None
    else let '(won, w) := passProof w in Some (mk_run w (proofs - 1) (claims + count won))
  | WStart now id x =>
    if bool_decide (w_exchanges w !! id = None) && negb (px_taken x)
    then Some (mk_run (startExchange now id x w).2 proofs claims) else None
  | WAbandon now id => Some (mk_run (abandon now id w).2 proofs claims)
  | WTake id fingerprint => Some (mk_run (takeExchange id fingerprint w).2 proofs claims)
  | WFailExchange now id source outcome =>
    if taken_exchange id w then Some (mk_run (failExchange now id source outcome w).2 proofs claims)
    else None
  | WPassExchange id =>
    if taken_exchange id w
    then let '(won, w) := passExchange id w in Some (mk_run w proofs (claims + count won))
    else None
  | WClose => Some (mk_run (close w).2 proofs claims)
  | WSettle session => Some (mk_run (settle session w).2 proofs claims)
  end.

Fixpoint window_run (ops : list window_op) (r : run) : option run :=
  match ops with
  | [] => Some r
  | op :: ops' => r' ← window_do op r; window_run ops' r'
  end.

Definition opened (pin secret : string) (intent : Intent) (now : time) : run :=
  mk_run (newPairingWindow pin secret intent now) 0 0.

(** ** The accounts of a window *)

Definition closed_when (b : bool) : signal := if b then Closed else Waiting.

(** [inhand] is the attempts an operation has taken out of the books and not
    filed yet. *)
Record accounts (inhand : Z) (proofs claims : nat) (w : pairingWindow) : Prop := mk_accounts {
  ac_charged : w_charged w =
    Z.of_nat (length (w_failures w)) + Z.of_nat (size (w_exchanges w)) + w_proving w + inhand;
  ac_bound : w_charged w <= Z.of_nat MaxAttempts;
  ac_proofs : w_proving w = Z.of_nat proofs;
  ac_claims : claims = count (w_settled w);
  ac_tired : w_tired w = true -> w_exchanges w = ∅ /\ w_proving w = 0 /\ inhand = 0 /\
    w_charged w = Z.of_nat MaxAttempts /\ w_settled w = false;
  ac_exhausted : w_exhausted w = closed_when (w_tired w);
  ac_spent : w_spent w = closed_when (w_settled w || w_tired w);
  ac_done : w_done w = closed_when (w_closed w);
  ac_heard : w_attempted w = w_failures w;
  ac_idle : inhand = 0 -> w_charged w = Z.of_nat MaxAttempts -> w_exchanges w = ∅ ->
    w_proving w = 0 -> w_settled w = true \/ w_tired w = true
}.

Lemma accounts_new pin secret intent now : accounts 0 0 0 (newPairingWindow pin secret intent now).
Proof. constructor; cbn; intros; try done; lia. Qed.

Lemma failLocked_accounts now source outcome proofs claims w :
  accounts 1 proofs claims w -> accounts 0 proofs claims (failLocked now source outcome w).2.
Proof.
  intros [Hc Hb Hp Hcl Ht He Hs Hd Hh Hi]. unfold failLocked. run_state.
  assert (w_tired w = false) as Htf.
  { destruct (w_tired w); [|done]. by destruct Ht as (_ & _ & [=] & _). }
  assert (length (w_attempted w) < 4 * MaxAttempts)%nat as Hroom.
  { rewrite Hh. unfold MaxAttempts in *. lia. }
  unfold add_failure. rewrite (bool_decide_eq_true_2 (length _ < _)%nat) by done.
  destruct (w_settled w) eqn:Hset, (bool_decide (w_exchanges w = ∅)) eqn:Hex; bool_prop;
    rewrite Htf in *; rewrite ?andb_true_r, ?andb_false_r.
  1,2,4: constructor; cbn; rewrite ?Htf, ?Hset, ?Hh, ?length_app; cbn; try done; try lia; auto.
  destruct (_ && _) eqn:E; bool_prop.
  - constructor; cbn; rewrite ?Hset, ?Hh, ?He, ?Hs, ?length_app; cbn; try done; try lia; auto.
    intros _. split_and!; try done; lia.
  - constructor; cbn; rewrite ?Hset, ?Hh, ?Htf, ?length_app; cbn; try done; try lia.
Qed.

Lemma claimLocked_accounts proofs claims w :
  accounts 1 proofs claims w ->
  accounts 0 proofs (claims + count (claimLocked w).1) (claimLocked w).2.
Proof.
  intros [Hc Hb Hp -> Ht He Hs Hd Hh Hi]. unfold claimLocked. run_state.
  assert (w_tired w = false) as Htf.
  { destruct (w_tired w); [|done]. by destruct Ht as (_ & _ & [=] & _). }
  rewrite (proj2 (Z.ltb_lt 0 (w_charged w))) by lia. cbn. rewrite Htf, orb_false_r in *.
  destruct (w_settled w) eqn:Hset; cbn; [|destruct (w_closed w) eqn:Hcd; cbn].
  1,2: constructor; cbn; rewrite ?Hset, ?Hcd, ?Htf; cbn; try done; try lia.
  constructor; cbn; rewrite ?Htf, ?Hs, ?Hcd, ?map_size_fmap; cbn; try done; try lia.
Qed.

Lemma chargeLocked_accounts proofs claims w :
  accounts 0 proofs claims w ->
  ((chargeLocked w).1 = None /\ accounts 1 proofs claims (chargeLocked w).2 /\
     w_exchanges (chargeLocked w).2 = w_exchanges w) \/
  ((chargeLocked w).1 <> None /\ (chargeLocked w).2 = w).
Proof.
  intros [Hc Hb Hp Hcl Ht He Hs Hd Hh Hi]. unfold chargeLocked.
  destruct (w_settled w) eqn:Hset; [by right|]. destruct (w_closed w) eqn:Hcd; [by right|].
  destruct (w_tired w || _) eqn:E; [by right|]. left. bool_prop.
  split_and!; [done| |done].
  constructor; cbn; rewrite ?Hset, ?Hcd; try done; try lia. intros; congruence.
Qed.

Lemma failLocked_exchanges now source outcome w :
  w_exchanges (failLocked now source outcome w).2 = w_exchanges w.
Proof. unfold failLocked. run_state. by destruct (_ && _ && _ && _ && _). Qed.

(** Taking an attempt out of the books, one way or the other. *)
Lemma accounts_delete id x proofs claims w :
  w_exchanges w !! id = Some x -> accounts 0 proofs claims w ->
  accounts 1 proofs claims (set_exchanges (delete id (w_exchanges w)) w).
Proof.
  intros Hx [Hc Hb Hp Hcl Ht He Hs Hd Hh Hi].
  assert (size (w_exchanges w) <> 0%nat) as Hne.
  { intros Hz%map_size_empty_iff. rewrite Hz in Hx. done. }
  constructor; cbn; try done; try lia.
  - rewrite map_size_delete, Hx. lia.
  - intros Htf. destruct (Ht Htf) as [Hz _]. rewrite Hz in Hx. done.
Qed.

Lemma accounts_proof proofs claims w :
  proofs <> 0%nat -> accounts 0 proofs claims w ->
  accounts 1 (proofs - 1) claims (set_proving (w_proving w - 1) w).
Proof.
  intros Hn [Hc Hb Hp Hcl Ht He Hs Hd Hh Hi]. constructor; cbn; try done; try lia.
  intros Htf. destruct (Ht Htf) as (_ & Hz & _). lia.
Qed.

(** Replacing an exchange by another in its place changes no account. *)
Lemma accounts_replace m proofs claims w :
  size m = size (w_exchanges w) -> accounts 0 proofs claims w ->
  accounts 0 proofs claims (set_exchanges m w).
Proof.
  intros Hm [Hc Hb Hp Hcl Ht He Hs Hd Hh Hi].
  assert (forall k : gmap string pinExchange, size k = 0%nat <-> k = ∅) as Hz.
  { intros k. apply map_size_empty_iff. }
  constructor; cbn; try done; rewrite <- ?Hz, ?Hm, ?Hz; done.
Qed.

Lemma accounts_proving proofs claims w :
  accounts 1 proofs claims w -> accounts 0 (S proofs) claims (set_proving (w_proving w + 1) w).
Proof.
  intros [Hc Hb Hp Hcl Ht He Hs Hd Hh Hi]. constructor; cbn; try done; try lia.
  intros Htf. destruct (Ht Htf) as (_ & _ & [=] & _).
Qed.

Lemma accounts_insert id x proofs claims w :
  w_exchanges w !! id = None -> accounts 1 proofs claims w ->
  accounts 0 proofs claims (set_exchanges (<[id := x]> (w_exchanges w)) w).
Proof.
  intros Hx [Hc Hb Hp Hcl Ht He Hs Hd Hh Hi]. constructor; cbn; try done; try lia.
  - rewrite map_size_insert, Hx. lia.
  - intros Htf. destruct (Ht Htf) as (_ & _ & [=] & _).
  - intros _ _ Hz. by apply insert_non_empty in Hz.
Qed.

Lemma restart_exchanges now fp e w id x :
  w_exchanges (restart now fp e w) !! id = Some x <->
  w_exchanges w !! id = Some x /\ ~ (replaceable fp e.2 = true /\ e.1 = id).
Proof.
  unfold restart. destruct (replaceable fp e.2) eqn:Hr; [|naive_solver].
  rewrite failLocked_exchanges. cbn. rewrite lookup_delete_Some. naive_solver.
Qed.

Lemma restart_accounts now fp l proofs claims w :
  NoDup l.*1 -> (forall e, e ∈ l -> w_exchanges w !! e.1 = Some e.2) -> accounts 0 proofs claims w ->
  let w' := foldl (fun w e => restart now fp e w) w l in
  accounts 0 proofs claims w' /\
  forall id x, w_exchanges w' !! id = Some x <->
    w_exchanges w !! id = Some x /\ ~ (exists y, (id, y) ∈ l /\ replaceable fp y = true).
Proof.
  revert w. induction l as [|e l IH]; intros w Hn Hl Ha; cbn; [set_solver|].
  apply NoDup_cons in Hn as [He Hn]. destruct (IH (restart now fp e w)) as [Ha' Hx]; [done| | |].
  - intros e' He'. apply restart_exchanges. split; [apply Hl; by right|].
    intros [_ Heq]. apply He. rewrite Heq. by apply list_elem_of_fmap_2.
  - unfold restart. destruct (replaceable _ _); [|done]. apply failLocked_accounts.
    eapply accounts_delete; [|done]. apply Hl. by left.
  - split; [done|]. intros id x. rewrite Hx, restart_exchanges. destruct e as [id' y]. cbn.
    setoid_rewrite elem_of_cons. split.
    + intros [[H1 H2] H3]. split; [done|]. intros (z & [[= -> ->]|Hz] & Hr); [by apply H2|eauto].
    + intros [H1 H2]. split_and!; [done| |].
      * intros [Hr <-]. apply H2. eauto.
      * intros (z & Hz & Hr). apply H2. eauto.
Qed.

(** One exchange an identity, apart from those being verified. *)
Definition one_each (w : pairingWindow) : Prop := forall id id' x x',
  w_exchanges w !! id = Some x -> w_exchanges w !! id' = Some x' ->
  px_taken x = false -> px_taken x' = false -> px_fingerprint x = px_fingerprint x' -> id = id'.

Definition window_inv (r : run) : Prop :=
  accounts 0 (r_proofs r) (r_claims r) (r_window r) /\ one_each (r_window r).

(** Fewer exchanges, or the same with their timers stopped. *)
Definition fewer (w w' : pairingWindow) : Prop := forall id x,
  w_exchanges w' !! id = Some x -> exists y, w_exchanges w !! id = Some y /\
    px_fingerprint x = px_fingerprint y /\ (px_taken x = false -> px_taken y = false).

Lemma one_each_fewer w w' : fewer w w' -> one_each w -> one_each w'.
Proof.
  intros Hf Ho id id' x x' Hx Hx' Ht Ht' Heq.
  apply Hf in Hx as (y & Hy & Hfy & Hty). apply Hf in Hx' as (y' & Hy' & Hfy' & Hty').
  apply (Ho id id' y y'); [done|done|by apply Hty|by apply Hty'|congruence].
Qed.

Lemma fewer_delete id w : fewer w (set_exchanges (delete id (w_exchanges w)) w).
Proof. intros id' x Hx. cbn in Hx. apply lookup_delete_Some in Hx as [_ Hx]. eauto. Qed.

Lemma fewer_stop w w' : w_exchanges w' = stop_timer <$> w_exchanges w -> fewer w w'.
Proof.
  intros He id x Hx. rewrite He, lookup_fmap in Hx.
  destruct (w_exchanges w !! id) as [y|]; [|done]. injection Hx as <-. by exists y.
Qed.

Lemma fewer_same w w' : w_exchanges w' = w_exchanges w -> fewer w w'.
Proof. intros He id x Hx. rewrite He in Hx. eauto. Qed.

Lemma claimLocked_fewer w : fewer w (claimLocked w).2.
Proof.
  unfold claimLocked. run_state.
  destruct (0 <? w_charged w); cbn; (destruct (_ || _); cbn; [by apply fewer_same|by apply fewer_stop]).
Qed.

Lemma fewer_trans w1 w2 w3 : fewer w1 w2 -> fewer w2 w3 -> fewer w1 w3.
Proof.
  intros H12 H23 id x (y & Hy & Hf & Ht)%H23. apply H12 in Hy as (z & Hz & Hf' & Ht').
  exists z. split_and!; [done|congruence|auto].
Qed.

Lemma startExchange_inv now id x proofs claims w :
  w_exchanges w !! id = None -> px_taken x = false -> accounts 0 proofs claims w -> one_each w ->
  accounts 0 proofs claims (startExchange now id x w).2 /\ one_each (startExchange now id x w).2.
Proof.
  intros Hid Hx Ha Ho. unfold startExchange. run_state.
  destruct (restart_accounts now (px_fingerprint x) (map_to_list (w_exchanges w)) proofs claims w)
    as [Ha' Hex]; [apply NoDup_fst_map_to_list|by intros [] ?%elem_of_map_to_list|done|].
  set (w' := foldl _ w _) in *.
  assert (forall i y, w_exchanges w' !! i = Some y <->
    w_exchanges w !! i = Some y /\ replaceable (px_fingerprint x) y = false) as Hex'.
  { intros i y. rewrite Hex. setoid_rewrite elem_of_map_to_list. split; intros [Hy Hn]; split; try done.
    - apply not_true_is_false. eauto.
    - intros (z & Hz & Hr). simplify_eq. congruence. }
  assert (fewer w w') as Hf by (intros i y [Hy _]%Hex'; eauto).
  pose proof (one_each_fewer _ _ Hf Ho) as Ho'.
  destruct (chargeLocked_accounts _ _ _ Ha') as [(He & Hch & Hsame)|[He Hsame]];
    destruct (chargeLocked w') as [err w'']; cbn in *.
  - subst err. cbn. split.
    + apply accounts_insert; [|done]. rewrite Hsame. destruct (w_exchanges w' !! id) eqn:E; [|done].
      apply Hex' in E as [E _]. congruence.
    + intros i i' y y'. cbn. rewrite Hsame, !lookup_insert_Some.
      assert (forall j z, w_exchanges w' !! j = Some z -> px_taken z = false ->
        px_fingerprint z = px_fingerprint x -> False) as Hno.
      { intros j z [_ Hr]%Hex' Ht Hfp. unfold replaceable in Hr.
        by rewrite Ht, bool_decide_eq_true_2 in Hr. }
      intros [[<- <-]|[_ Hy]] [[<- <-]|[_ Hy']] Ht Ht' Hfp; cbn in *; [done| | |by eapply Ho'].
      * by destruct (Hno _ _ Hy' Ht').
      * by destruct (Hno _ _ Hy Ht).
  - subst w''. destruct err; [|done]. by cbn.
Qed.

Lemma window_do_inv op r r' : window_do op r = Some r' -> window_inv r -> window_inv r'.
Proof.
  destruct r as [w proofs claims]. intros Hdo [Ha Ho]. cbn in Ha, Ho. destruct op; cbn in Hdo.
  - unfold chargeProof in Hdo. run_state. revert Hdo. cbv [mbind state_bind].
    destruct (chargeLocked_accounts _ _ _ Ha) as [(He & Hch & Hsame)|[He Hsame]];
      destruct (chargeLocked w) as [err w'']; cbn in *.
    + subst err. intros [= <-]. split; cbn; [rewrite Nat.add_1_r; by apply accounts_proving|].
      eapply one_each_fewer; [by apply fewer_same|done].
    + subst w''. destruct err; [|done]. intros [= <-]. split; [|done]. cbn. by rewrite Nat.add_0_r.
  - destruct (proofs =? 0)%nat eqn:E; [done|]. injection Hdo as <-. apply Nat.eqb_neq in E. split.
    + by apply failLocked_accounts, accounts_proof.
    + eapply one_each_fewer; [|exact Ho]. apply fewer_same.
      cbv [failProof mbind state_bind modify]. cbn [r_window]. by rewrite failLocked_exchanges.
  - destruct (proofs =? 0)%nat eqn:E; [done|]. apply Nat.eqb_neq in E.
    pose proof (claimLocked_accounts _ _ _ (accounts_proof _ _ _ E Ha)) as Hcl.
    pose proof (claimLocked_fewer (set_proving (w_proving w - 1) w)) as Hf.
    unfold passProof in Hdo. revert Hdo. cbv [mbind state_bind modify].
    destruct (claimLocked _) as [won w']. intros [= <-]. split; [done|]. by eapply one_each_fewer.
  - destruct (bool_decide _ && _) eqn:E; [|done]. injection Hdo as <-. bool_prop.
    by apply startExchange_inv.
  - injection Hdo as <-. unfold abandon. run_state. destruct (w_exchanges w !! id) as [x|] eqn:E; [|done].
    destruct (px_taken x); [done|]. split.
    + eapply failLocked_accounts, accounts_delete; done.
    + eapply one_each_fewer; [|exact Ho]. eapply fewer_trans; [apply (fewer_delete id)|].
      apply fewer_same. cbn [r_window]. by rewrite failLocked_exchanges.
  - injection Hdo as <-. unfold takeExchange. run_state.
    destruct (w_exchanges w !! id) as [x|] eqn:E; [|done]. destruct (px_taken x); [done|].
    case_bool_decide; [done|]. cbn. split; cbn.
    + apply accounts_replace; [|done]. by rewrite map_size_insert, E.
    + eapply one_each_fewer; [|exact Ho]. intros id' y. cbn. rewrite lookup_insert_Some.
      intros [[<- <-]|[_ Hy]]; [by exists x|eauto].
  - destruct (taken_exchange id w) eqn:E; [|done]. injection Hdo as <-. unfold taken_exchange in E.
    destruct (w_exchanges w !! id) as [x|] eqn:Ex; [|done]. split.
    + eapply failLocked_accounts, accounts_delete; done.
    + eapply one_each_fewer; [|exact Ho]. eapply fewer_trans; [apply (fewer_delete id)|].
      apply fewer_same. cbv [failExchange mbind state_bind modify]. cbn [r_window]. by rewrite failLocked_exchanges.
  - destruct (taken_exchange id w) eqn:E; [|done]. unfold taken_exchange in E.
    destruct (w_exchanges w !! id) as [x|] eqn:Ex; [|done].
    pose proof (claimLocked_accounts _ _ _ (accounts_delete _ _ _ _ _ Ex Ha)) as Hcl.
    pose proof (fewer_trans _ _ _ (fewer_delete id w) (claimLocked_fewer _)) as Hf.
    unfold passExchange in Hdo. revert Hdo. cbv [mbind state_bind modify].
    destruct (claimLocked _) as [won w']. intros [= <-]. split; [done|]. by eapply one_each_fewer.
  - injection Hdo as <-. unfold close, closeLocked. run_state. split; cbn.
    + destruct Ha as [Hc Hb Hp Hcl Ht He Hs Hd Hh Hi]. constructor; cbn; rewrite ?map_size_fmap; try done.
      * intros Htf. destruct (Ht Htf) as (Hz & ? & ? & ? & ?). by rewrite Hz, fmap_empty.
      * destruct (w_closed w); [done|]. by rewrite Hd.
      * rewrite fmap_empty_iff. done.
    + eapply one_each_fewer; [|exact Ho]. by apply fewer_stop.
  - injection Hdo as <-. unfold settle. run_state. destruct (bool_decide _); [|done]. split; cbn.
    + by destruct Ha; constructor.
    + eapply one_each_fewer; [|exact Ho]. by apply fewer_same.
Qed.

Lemma window_run_inv ops r r' : window_run ops r = Some r' -> window_inv r -> window_inv r'.
Proof.
  revert r. induction ops as [|op ops IH]; intros r; cbn; [by intros [= <-]|].
  destruct (window_do op r) as [r1|] eqn:E; [|done]. intros Hr Hi. eapply IH; [exact Hr|].
  by eapply window_do_inv.
Qed.

Lemma opened_inv pin secret intent now : window_inv (opened pin secret intent now).
Proof. split; [apply accounts_new|]. intros id id' x x'. cbn. by rewrite lookup_empty. Qed.

(** C26. Whatever arrives at a displayed code, in whatever order: what was
    charged to it and not given back is the failures written down, the
    exchanges under way and the older proofs being checked, never more than
    five together; at most one caller is told it used the code; the code is
    spent exactly when it was used or its attempts ran out, it never runs out
    under an attempt still in flight, and no signal is given twice; no failure
    is kept from the screen; and an identity has one exchange waiting at most. *)
Theorem window_accounts pin secret intent now ops r :
  window_run ops (opened pin secret intent now) = Some r ->
  let w := r_window r in
  w_charged w = Z.of_nat (length (w_failures w) + size (w_exchanges w) + r_proofs r) /\
  (length (w_failures w) + size (w_exchanges w) + r_proofs r <= MaxAttempts)%nat /\
  r_claims r = count (w_settled w) /\
  w_spent w = closed_when (w_settled w || w_tired w) /\
  w_exhausted w = closed_when (w_tired w) /\ w_done w = closed_when (w_closed w) /\
  (w_tired w = true -> w_exchanges w = ∅ /\ r_proofs r = 0%nat /\ w_settled w = false /\
     length (w_failures w) = MaxAttempts) /\
  w_attempted w = w_failures w /\ one_each w.
Proof.
  intros Hr. apply window_run_inv in Hr as [[Hc Hb Hp Hcl Ht He Hs Hd Hh Hi] Ho]; [|apply opened_inv].
  cbn. split_and!; try done; try lia. intros Htf. destruct (Ht Htf) as (Hz & Hpr & _ & Hch & Hset).
  rewrite Hz, map_size_empty in Hc. split_and!; [done|lia|done|lia].
Qed.

(** *** A spent code stays spent *)

Definition over (w : pairingWindow) : Prop :=
  w_settled w = true \/ w_closed w = true \/ w_tired w = true.

(** What an operation does to the three flags and to the attempts when the
    window is over. *)
Definition stays (w w' : pairingWindow) : Prop :=
  w_settled w' = w_settled w /\ (w_closed w = true -> w_closed w' = true) /\
  (w_tired w = true -> w_tired w' = true) /\ w_charged w' <= w_charged w.

Lemma stays_trans w1 w2 w3 : stays w1 w2 -> stays w2 w3 -> stays w1 w3.
Proof. unfold stays. intuition (congruence || lia || auto). Qed.

Lemma stays_over w w' : stays w w' -> over w -> over w'.
Proof. unfold stays, over. intuition congruence. Qed.

Lemma failLocked_stays now source outcome w : stays w (failLocked now source outcome w).2.
Proof. unfold failLocked. run_state. by destruct (_ && _ && _ && _ && _); repeat split. Qed.

Lemma chargeLocked_over w : over w -> (chargeLocked w).1 <> None /\ (chargeLocked w).2 = w.
Proof.
  unfold over, chargeLocked. destruct (w_settled w), (w_closed w), (w_tired w); cbn; try done; naive_solver.
Qed.

Lemma claimLocked_over w : over w -> (claimLocked w).1 = false /\ stays w (claimLocked w).2.
Proof.
  intros Ho. unfold claimLocked. run_state.
  assert (w_settled w || w_closed w || w_tired w = true) as Hf.
  { destruct Ho as [->|[->| ->]]; rewrite ?orb_true_r; done. }
  destruct (0 <? w_charged w) eqn:E; cbn; rewrite Hf; cbn; (split; [done|]); repeat split; cbn; try done; lia.
Qed.

Lemma restart_stays now fp l w : stays w (foldl (fun w e => restart now fp e w) w l).
Proof.
  revert w. induction l as [|e l IH]; intros w; cbn; [by repeat split|].
  eapply stays_trans; [|apply IH]. unfold restart. destruct (replaceable _ _); [|by repeat split].
  eapply stays_trans; [|apply failLocked_stays]. by repeat split.
Qed.

Lemma window_do_over op r r' :
  window_do op r = Some r' -> over (r_window r) ->
  over (r_window r') /\ r_claims r' = r_claims r /\ w_charged (r_window r') <= w_charged (r_window r).
Proof.
  intros Hdo Ho. destruct r as [w proofs claims]. cbn in Ho.
  enough (stays w (r_window r') /\ r_claims r' = claims) as [Hs ->].
  { split_and!; [by eapply stays_over|done|apply Hs]. }
  destruct op; cbn in Hdo.
  - revert Hdo. unfold chargeProof. cbv [mbind state_bind]. pose proof (chargeLocked_over w Ho) as [Hn Hw].
    destruct (chargeLocked w) as [[e|] w']; cbn in *; [|done]. intros [= <-]. subst w'. by repeat split.
  - destruct (proofs =? 0)%nat; [done|]. injection Hdo as <-. split; [|done].
    eapply stays_trans; [|apply failLocked_stays]. by repeat split.
  - destruct (proofs =? 0)%nat; [done|]. revert Hdo. unfold passProof. cbv [mbind state_bind modify].
    destruct (claimLocked_over (set_proving (w_proving w - 1) w)) as [Hc Hs]; [done|].
    destruct (claimLocked _) as [won w']. cbn in *. intros [= <-]. subst won. cbn. split; [exact Hs|lia].
  - destruct (bool_decide _ && _); [|done]. injection Hdo as <-. split; [|done]. cbn.
    unfold startExchange. run_state. pose proof (restart_stays now (px_fingerprint x)
      (map_to_list (w_exchanges w)) w) as Hs. set (w1 := foldl _ w _) in *.
    pose proof (chargeLocked_over w1 (stays_over _ _ Hs Ho)) as [Hn Hw].
    destruct (chargeLocked w1) as [[e|] w']; cbn in *; [|done]. by subst w'.
  - injection Hdo as <-. split; [|done]. cbn. unfold abandon. run_state.
    destruct (w_exchanges w !! id) as [x|]; [|by repeat split]. destruct (px_taken x); [by repeat split|].
    eapply stays_trans; [|apply failLocked_stays]. by repeat split.
  - injection Hdo as <-. split; [|done]. cbn. unfold takeExchange. run_state.
    destruct (w_exchanges w !! id) as [x|]; [|by repeat split]. destruct (px_taken x); [by repeat split|].
    case_bool_decide; by repeat split.
  - destruct (taken_exchange id w); [|done]. injection Hdo as <-. split; [|done].
    eapply stays_trans; [|apply failLocked_stays]. by repeat split.
  - destruct (taken_exchange id w); [|done]. revert Hdo. unfold passExchange. cbv [mbind state_bind modify].
    destruct (claimLocked_over (set_exchanges (delete id (w_exchanges w)) w)) as [Hc Hs]; [done|].
    destruct (claimLocked _) as [won w']. cbn in *. intros [= <-]. subst won. cbn. split; [exact Hs|lia].
  - injection Hdo as <-. split; [|done]. by repeat split.
  - injection Hdo as <-. split; [|done]. cbn. unfold settle. run_state.
    by destruct (bool_decide _); repeat split.
Qed.

(** Once a code has been used, or its attempts have run out, or its
    window was closed, nothing that happens later makes it good again: nobody
    else is told it used the code, no further attempt is admitted, and every
    new one is refused. *)
Theorem spent_code_stays_spent ops r r' :
  over (r_window r) -> window_run ops r = Some r' ->
  over (r_window r') /\ r_claims r' = r_claims r /\
  w_charged (r_window r') <= w_charged (r_window r) /\
  (chargeProof (r_window r')).1 <> None /\
  forall now id x, (startExchange now id x (r_window r')).1 <> None.
Proof.
  intros Ho Hr. enough (over (r_window r') /\ r_claims r' = r_claims r /\
    w_charged (r_window r') <= w_charged (r_window r)) as (Ho' & Hc & Hle).
  { split_and!; try done.
    - unfold chargeProof. cbv [mbind state_bind].
      destruct (chargeLocked_over _ Ho') as [Hn _]. by destruct (chargeLocked _) as [[]].
    - intros now id x. unfold startExchange. run_state.
      pose proof (restart_stays now (px_fingerprint x) (map_to_list (w_exchanges (r_window r')))
        (r_window r')) as Hs.
      destruct (chargeLocked_over _ (stays_over _ _ Hs Ho')) as [Hn _].
      by destruct (chargeLocked _) as [[]]. }
  revert r Ho Hr. induction ops as [|op ops IH]; intros r Ho; cbn; [by intros [= <-]|].
  destruct (window_do op r) as [r1|] eqn:E; [|done]. intros Hr.
  destruct (window_do_over _ _ _ E Ho) as (Ho1 & Hc1 & Hle1).
  destruct (IH r1 Ho1 Hr) as (? & ? & ?). split_and!; [done|congruence|lia].
Qed.

(** *** Every attempt ends *)

(** The worst end of everything in flight: the proofs fail, the exchanges that
    were taken fail, and the timers of the others go off. *)
Definition end_exchange (now : time) (e : string * pinExchange) : window_op :=
  if px_taken e.2 then WFailExchange now e.1 (px_remote e.2) "refused PIN" else WAbandon now e.1.
Definition drain (now : time) (r : run) : list window_op :=
  replicate (r_proofs r) (WFailProof now emp emp) ++
  map (end_exchange now) (map_to_list (w_exchanges (r_window r))).

Lemma window_run_app ops ops' r :
  window_run (ops ++ ops') r = (r' ← window_run ops r; window_run ops' r').
Proof.
  revert r. induction ops as [|op ops IH]; intros r; cbn; [done|].
  destruct (window_do op r); cbn; [apply IH|done].
Qed.

Lemma failLocked_charged now source outcome w :
  w_charged (failLocked now source outcome w).2 = w_charged w.
Proof. unfold failLocked. run_state. by destruct (_ && _ && _ && _ && _). Qed.

Lemma drain_proofs now n r :
  r_proofs r = n -> exists r', window_run (replicate n (WFailProof now emp emp)) r = Some r' /\
    r_proofs r' = 0%nat /\ w_exchanges (r_window r') = w_exchanges (r_window r) /\
    w_charged (r_window r') = w_charged (r_window r).
Proof.
  revert r. induction n as [|n IH]; intros [w proofs claims]; cbn [r_proofs]; [intros ->; by eexists|].
  intros ->. destruct (IH (mk_run (failProof now emp emp w).2 n claims)) as (r' & Hr & Hp & Hx & Hc);
    [done|]. exists r'. rewrite <- Hr. cbn [r_window] in Hx, Hc |- *. split_and!; [cbn; by rewrite Nat.sub_0_r|done|rewrite Hx|rewrite Hc];
    cbv [failProof mbind state_bind modify]; by rewrite ?failLocked_exchanges, ?failLocked_charged.
Qed.

Lemma end_exchange_do now e r :
  w_exchanges (r_window r) !! e.1 = Some e.2 ->
  exists r', window_do (end_exchange now e) r = Some r' /\ r_proofs r' = r_proofs r /\
    w_exchanges (r_window r') = delete e.1 (w_exchanges (r_window r)) /\
    w_charged (r_window r') = w_charged (r_window r).
Proof.
  destruct r as [w proofs claims], e as [id x]. cbn. intros Hx. unfold end_exchange. cbn [fst snd].
  destruct (px_taken x) eqn:Ht; cbn [window_do].
  - unfold taken_exchange. rewrite Hx, Ht. eexists. split_and!; [done..| |];
      cbn [r_window]; cbv [failExchange mbind state_bind modify];
      by rewrite ?failLocked_exchanges, ?failLocked_charged.
  - eexists. split_and!; [done..| |]; cbn [r_window]; unfold abandon; run_state; rewrite Hx, Ht;
      by rewrite ?failLocked_exchanges, ?failLocked_charged.
Qed.

Lemma drain_exchanges now l r :
  NoDup l.*1 -> (forall e, e ∈ l -> w_exchanges (r_window r) !! e.1 = Some e.2) ->
  exists r', window_run (map (end_exchange now) l) r = Some r' /\ r_proofs r' = r_proofs r /\
    w_exchanges (r_window r') = foldr (fun e => delete e.1) (w_exchanges (r_window r)) l /\
    w_charged (r_window r') = w_charged (r_window r).
Proof.
  revert r. induction l as [|e l IH]; intros r Hn Hl; cbn; [by eauto|].
  apply NoDup_cons in Hn as [He Hn].
  destruct (end_exchange_do now e r) as (r1 & -> & Hp & Hx & Hc); [apply Hl; by left|].
  destruct (IH r1 Hn) as (r' & Hr & Hp' & Hx' & Hc').
  { intros e' He'. rewrite Hx, lookup_delete_ne; [apply Hl; by right|].
    intros Heq. apply He. rewrite Heq. by apply list_elem_of_fmap_2. }
  exists r'. cbn. split_and!; [done|congruence| |congruence]. rewrite Hx', Hx.
  clear. induction l as [|e' l IH]; cbn; [done|]. by rewrite IH, delete_delete.
Qed.

Lemma delete_all {A} (m : gmap string A) : foldr (fun e => delete e.1) m (map_to_list m) = ∅.
Proof.
  apply map_empty. intros id. destruct (_ !! id) as [x|] eqn:E; [|done]. exfalso.
  assert (forall (l : list (string * A)) (m' : gmap string A), foldr (fun e => delete e.1) m' l !! id = Some x ->
    m' !! id = Some x /\ id ∉ l.*1) as Hd.
  { clear. induction l as [|e l IH]; intros m'; cbn; [set_solver|].
    intros [Hne (Hm & Hl)%IH]%lookup_delete_Some. set_solver. }
  apply Hd in E as [Hm Hl]. apply Hl. apply list_elem_of_fmap. exists (id, x).
  split; [done|]. by apply elem_of_map_to_list.
Qed.

(** Nothing is left hanging: from every state a window can be in, the
    attempts in flight can all be brought to an end, with their own operations,
    even if every one of them fails; and a window whose five attempts were
    charged then has been used, or says on the screen that its attempts ran
    out, with all five written down. *)
Theorem attempts_run_out pin secret intent now now' ops r :
  window_run ops (opened pin secret intent now) = Some r ->
  exists r', window_run (drain now' r) r = Some r' /\
    w_exchanges (r_window r') = ∅ /\ r_proofs r' = 0%nat /\
    w_charged (r_window r') = w_charged (r_window r) /\
    (w_charged (r_window r) = Z.of_nat MaxAttempts ->
     w_settled (r_window r') = true \/
     (w_tired (r_window r') = true /\ w_exhausted (r_window r') = Closed /\
      length (w_failures (r_window r')) = MaxAttempts)).
Proof.
  intros Hrun. apply window_run_inv in Hrun; [|apply opened_inv].
  destruct (drain_proofs now' _ r eq_refl) as (r1 & H1 & Hp1 & Hx1 & Hc1).
  destruct (drain_exchanges now' (map_to_list (w_exchanges (r_window r))) r1) as (r' & H2 & Hp2 & Hx2 & Hc2).
  { apply NoDup_fst_map_to_list. }
  { intros [id x]. rewrite Hx1. apply elem_of_map_to_list. }
  rewrite Hx1, delete_all in Hx2. exists r'. unfold drain. rewrite window_run_app, H1. cbn.
  split_and!; [done|done|congruence|congruence|]. intros Hfive.
  apply (window_run_inv _ _ _ H1) in Hrun. apply (window_run_inv _ _ _ H2) in Hrun as [Ha _].
  destruct Ha as [Hc Hb Hp Hcl Ht He Hs Hd Hh Hi].
  assert (w_proving (r_window r') = 0) as Hp0 by lia.
  destruct Hi as [Hset|Htf]; [done|congruence|done|done|by left|right].
  rewrite Hx2, map_size_empty in Hc. rewrite He, Htf. split_and!; [done|done|lia].
Qed.

End Window.

(** ** A window over the concrete group *)

Import Toy ToyGroup.

Definition toy_exchange (fp : string) : pinExchange :=
  mk_pinExchange fp "10.0.0.2" (mk_Initiator inputs (Some 3) [] [] false) false false.
Definition toy_opened : run := opened "123456" emp IntentMutual 0.

(** Four wrong PINs, and one exchange nobody finished. *)
Definition guess (id : string) : list window_op :=
  [WStart 1 id (toy_exchange id); WTake id id; WFailExchange 2 id "10.0.0.2" "refused PIN"].
Definition four_guesses : list window_op :=
  guess "a" ++ guess "b" ++ guess "c" ++ guess "d" ++ [WStart 3 "e" (toy_exchange "e")].

Definition run_of (ops : list window_op) : run := default toy_opened (window_run ops toy_opened).

Example fifth_attempt_in_flight :
  let w := r_window (run_of four_guesses) in
  w_charged w = 5 /\ w_tired w = false /\ (startExchange 4 "f" (toy_exchange "f") w).1 = Some errPairingExhausted.
Proof. vm_compute. repeat split. Qed.

(** The joiner that got it right after four that did not. *)
Definition right_after_four : list window_op :=
  four_guesses ++ [WTake "e" "e"; WPassExchange "e"].

Example right_pin_wins :
  let r := run_of right_after_four in
  w_settled (r_window r) = true /\ r_claims r = 1%nat /\
  (startExchange 4 "f" (toy_exchange "f") (r_window r)).1 = Some errPairingSpent.
Proof. vm_compute. repeat split. Qed.

Example another_identity_takes_nothing :
  let w := r_window (run_of four_guesses) in
  match (takeExchange "e" "a" w).1 with Err e => e | Ok _ => errNoExchange end = errExchangeOwner.
Proof. vm_compute. reflexivity. Qed.

Definition ran (ops : list window_op) : bool :=
  match window_run ops toy_opened with Some _ => true | None => false end.
Lemma runs ops : ran ops = true -> window_run ops toy_opened = Some (run_of ops).
Proof. unfold ran, run_of. by destruct (window_run ops toy_opened). Qed.

Lemma window_accounts_witness :
  (length (w_failures (r_window (run_of four_guesses))) <= MaxAttempts)%nat.
Proof.
  destruct (window_accounts "123456" emp IntentMutual 0 four_guesses (run_of four_guesses))
    as (_ & Hb & _).
  - apply runs. vm_compute. reflexivity.
  - cbv zeta in Hb. lia.
Defined.

Definition closed_after : run := default toy_opened (window_do WClose (run_of right_after_four)).
Lemma closes_after : window_run [WClose] (run_of right_after_four) = Some closed_after.
Proof. unfold closed_after. by destruct (run_of right_after_four). Qed.

Lemma spent_code_stays_spent_witness : r_claims closed_after = r_claims (run_of right_after_four).
Proof.
  destruct (spent_code_stays_spent [WClose] (run_of right_after_four) closed_after) as (_ & Hc & _).
  - left. vm_compute. reflexivity.
  - exact closes_after.
  - exact Hc.
Defined.

Lemma attempts_run_out_witness :
  exists r', window_run (drain 9 (run_of four_guesses)) (run_of four_guesses) = Some r' /\
    w_exchanges (r_window r') = ∅.
Proof.
  destruct (attempts_run_out "123456" emp IntentMutual 0 9 four_guesses (run_of four_guesses))
    as (r' & Hr & Hx & _).
  - apply runs. vm_compute. reflexivity.
  - exists r'. split; [exact Hr|exact Hx].
Defined.
