(* ===== verification/Regions.v ===== *)
(** * Regions: which relays a peer may make this instance connect to

    The region rule of [pkg/peer/wakeup.go] ([checkRelayRegion] and what it
    calls), over [net/netip].  An address is its bits; the parts of [netip] the
    rule uses -- [ParseAddr], [String], [Unmap], the [Is...] tests and
    [Prefix.Contains] -- are defined as the standard library defines them.
    Decoding the JSON of a region is a parameter. *)

From S2P Require Import Prelude.
From S2P Require Import GoText.

Local Open Scope Z_scope.

(** ** [net/netip] *)

Inductive Addr :=
| V4 (bits : Z)
| V6 (bits : Z) (zone : string).

#[export] Instance Addr_eq_dec : EqDecision Addr.
Proof. solve_decision. Defined.

Definition b_dot : Z := 46.
Definition b_colon : Z := 58.
Definition b_percent : Z := 37.

Definition digit_of (b : byte) : option Z :=
  let c := byte_val b in if in_range 48 57 c then Some (c - 48) else None.
Definition hex_of (b : byte) : option Z :=
  let c := byte_val b in
  if in_range 48 57 c then Some (c - 48)
  else if in_range 97 102 c then Some (c - 97 + 10)
  else if in_range 65 70 c then Some (c - 65 + 10) else None.

(** [parseIPv4Fields], from the byte at hand: [val] and [digLen] of the octet
    under way, the octets before it, and whether a dot may not come here. *)
Fixpoint v4_fields (s : bytes) (no_dot : bool) (val : Z) (digLen : nat) (fields : bytes)
    : option bytes :=
  match s with
  | [] => if (length fields <? 3)%nat then None else Some (fields ++ [byte_of val])
  | b :: s' =>
    match digit_of b with
    | Some d =>
      if (digLen =? 1)%nat && (val =? 0) then None
      else
        let val := val * 10 + d in
        if 255 <? val then None else v4_fields s' false val (S digLen) fields
    | None =>
      if byte_val b =? b_dot
      then
        if no_dot || bool_decide (s' = []) then None
        else if (length fields =? 3)%nat then None
        else v4_fields s' true 0 0 (fields ++ [byte_of val])
      else None
    end
  end.

Definition big_endian (l : bytes) : Z := foldl (fun n b => n * 256 + byte_val b) 0 l.

Definition parseIPv4 (s : bytes) : option Addr :=
  fields ← v4_fields s true 0 0 []; Some (V4 (big_endian fields)).

(** The hexadecimal digits at the front, their value and how many there are;
    none after more than four. *)
Fixpoint hex_group (s : bytes) (off : nat) (acc : Z) : option (bytes * nat * Z) :=
  match s with
  | [] => Some (s, off, acc)
  | b :: s' =>
    match hex_of b with
    | None => Some (s, off, acc)
    | Some d => if (3 <? off)%nat then None else hex_group s' (S off) (Z.shiftl acc 4 + d)
    end
  end.

Definition starts (c : Z) (s : bytes) : bool :=
  match s with b :: _ => byte_val b =? c | [] => false end.

(** The loop of [parseIPv6]: what is left, the bytes read and where the
    ellipsis was.  Every turn reads two bytes of sixteen, so eight turns are
    all there are. *)
Fixpoint v6_loop (turns : nat) (s : bytes) (ip : bytes) (ellipsis : option nat)
    : option (bytes * bytes * option nat) :=
  match turns with
  | O => Some (s, ip, ellipsis)
  | S turns' =>
    match hex_group s 0 0 with
    | None => None
    | Some (rest, off, acc) =>
      if (off =? 0)%nat then None
      else if starts b_dot rest
      then
        if bool_decide (ellipsis = None) && negb (length ip =? 12)%nat then None
        else if (16 <? length ip + 4)%nat then None
        else fields ← v4_fields s true 0 0 []; Some ([], ip ++ fields, ellipsis)
      else
        let ip := ip ++ [byte_of (Z.shiftr acc 8); byte_of acc] in
        match rest with
        | [] => Some ([], ip, ellipsis)
        | b :: more =>
          if negb (byte_val b =? b_colon) || bool_decide (more = []) then None
          else if starts b_colon more
          then
            if bool_decide (ellipsis <> None) then None
            else
              match drop 1 more with
              | [] => Some ([], ip, Some (length ip))
              | more => v6_loop turns' more ip (Some (length ip))
              end
          else v6_loop turns' more ip ellipsis
        end
    end
  end.

(** [s[:i]] and [s[i+1:]] around the first percent sign. *)
Fixpoint cut_zone (s : bytes) : bytes * option bytes :=
  match s with
  | [] => ([], None)
  | b :: s' =>
    if byte_val b =? b_percent then ([], Some s')
    else let '(a, z) := cut_zone s' in (b :: a, z)
  end.

Definition expand (ip : bytes) (ellipsis : option nat) : option bytes :=
  if (length ip <? 16)%nat
  then e ← ellipsis; Some (take e ip ++ replicate (16 - length ip) x00 ++ drop e ip)
  else match ellipsis with Some _ => None | None => Some ip end.

Definition parseIPv6 (s : bytes) : option Addr :=
  let '(s, zone) := cut_zone s in
  if bool_decide (zone = Some []) then None
  else
    let zone := to_string (default [] zone) in
    let leading := starts b_colon s && starts b_colon (drop 1 s) in
    let s := if leading then drop 2 s else s in
    if leading && bool_decide (s = []) then Some (V6 0 zone)
    else
      '(rest, ip, ellipsis) ← v6_loop 8 s [] (if leading then Some 0%nat else None);
      if bool_decide (rest <> []) then None
      else ip ← expand ip ellipsis; Some (V6 (big_endian ip) zone).

(** Which parser the first separator calls for. *)
Fixpoint parse_by (all s : bytes) : option Addr :=
  match s with
  | [] => None
  | b :: s' =>
    if byte_val b =? b_dot then parseIPv4 all
    else if byte_val b =? b_colon then parseIPv6 all
    else if byte_val b =? b_percent then None
    else parse_by all s'
  end.

Definition ParseAddr (s : string) : option Addr := parse_by (of_string s) (of_string s).

Definition v4_octet (n i : Z) : Z := Z.shiftr n (8 * (3 - i)) mod 256.
Definition v6u16 (n i : Z) : Z := Z.shiftr n (16 * (7 - i)) mod 65536.

Definition Unmap (a : Addr) : Addr :=
  match a with
  | V6 n _ => if Z.shiftr n 32 =? 65535 then V4 (n mod 2 ^ 32) else a
  | V4 _ => a
  end.

Definition IsPrivate (a : Addr) : bool :=
  match Unmap a with
  | V4 n => (v4_octet n 0 =? 10) || ((v4_octet n 0 =? 172) && (Z.land (v4_octet n 1) 240 =? 16))
            || ((v4_octet n 0 =? 192) && (v4_octet n 1 =? 168))
  | V6 n _ => Z.land (Z.shiftr (v6u16 n 0) 8) 254 =? 252
  end.
Definition IsLoopback (a : Addr) : bool :=
  match Unmap a with V4 n => v4_octet n 0 =? 127 | V6 n _ => n =? 1 end.
Definition IsLinkLocalUnicast (a : Addr) : bool :=
  match Unmap a with
  | V4 n => (v4_octet n 0 =? 169) && (v4_octet n 1 =? 254)
  | V6 n _ => Z.land (v6u16 n 0) 65472 =? 65152
  end.
Definition IsMulticast (a : Addr) : bool :=
  match Unmap a with
  | V4 n => Z.land (v4_octet n 0) 240 =? 224
  | V6 n _ => Z.shiftr (v6u16 n 0) 8 =? 255
  end.
Definition IsInterfaceLocalMulticast (a : Addr) : bool :=
  match Unmap a with V4 _ => false | V6 n _ => Z.land (v6u16 n 0) 65295 =? 65281 end.
Definition IsLinkLocalMulticast (a : Addr) : bool :=
  match Unmap a with
  | V4 n => (v4_octet n 0 =? 224) && (v4_octet n 1 =? 0) && (v4_octet n 2 =? 0)
  | V6 n _ => Z.land (v6u16 n 0) 65295 =? 65282
  end.
(** Equal to one of the two unspecified addresses, which have no zone. *)
Definition IsUnspecified (a : Addr) : bool := bool_decide (a = V4 0) || bool_decide (a = V6 0 emp).

(** [Prefix.Contains]: the same family, no zone, and the same leading bits. *)
Definition contains4 (net bits : Z) (a : Addr) : bool :=
  match a with V4 n => Z.shiftr n (32 - bits) =? Z.shiftr net (32 - bits) | V6 _ _ => false end.
Definition contains6 (net bits : Z) (a : Addr) : bool :=
  match a with
  | V6 n zone => bool_decide (zone = emp) && (Z.shiftr n (128 - bits) =? Z.shiftr net (128 - bits))
  | V4 _ => false
  end.

(** *** [Addr.String] *)

Definition dotted (n : Z) : string :=
  itoa (v4_octet n 0) +:+ "." +:+ itoa (v4_octet n 1) +:+ "." +:+ itoa (v4_octet n 2) +:+ "."
  +:+ itoa (v4_octet n 3).

(** [appendHex]: no leading zeros, one digit at least. *)
Definition hex16 (v : Z) : string :=
  let d k := String (hex_digit (Z.shiftr v (4 * k) mod 16)) emp in
  (if 4096 <=? v then d 3 else emp) +:+ (if 256 <=? v then d 2 else emp) +:+
  (if 16 <=? v then d 1 else emp) +:+ d 0.

(** The first longest run of at least two zero groups: where it starts, and
    its length. *)
Fixpoint zeros (l : list Z) : nat :=
  match l with v :: l' => if v =? 0 then S (zeros l') else O | [] => O end.
Fixpoint zero_run (i : nat) (l : list Z) (best : nat * nat) : nat * nat :=
  match l with
  | [] => best
  | _ :: l' =>
    let n := zeros l in
    zero_run (S i) l' (if (2 <=? n)%nat && (snd best <? n)%nat then (i, n) else best)
  end.

Definition groups (n : Z) : list Z := map (v6u16 n) [0; 1; 2; 3; 4; 5; 6; 7].

Definition append6 (n : Z) : string :=
  let g := groups n in
  let '(start, len) := zero_run 0 g (8, 0)%nat in
  let colons l := Join (map hex16 l) ":" in
  if (len =? 0)%nat then colons g
  else colons (take start g) +:+ "::" +:+ colons (drop (start + len) g).

Definition Addr_String (a : Addr) : string :=
  match a with
  | V4 n => dotted n
  | V6 n zone =>
    (if Z.shiftr n 32 =? 65535 then "::ffff:" +:+ dotted (n mod 2 ^ 32) else append6 n) +:+
    (if bool_decide (zone = emp) then emp else "%" +:+ zone)
  end.

(** ** The rule *)

Record relayNode := mk_relayNode {
  rn_Host : string;
  rn_IPv4 : string;
  rn_IPv6 : string;
  rn_DERPPort : Z;
  rn_STUNPort : Z;
  rn_CertName : string;
  rn_Insecure : bool
}.

Record relayRegion := mk_relayRegion { rr_ID : Z; rr_Nodes : list relayNode }.

#[export] Instance relayNode_eq_dec : EqDecision relayNode.
Proof. solve_decision. Defined.

Definition HasSuffix (s suffix : string) : bool :=
  let l := of_string s in let k := of_string suffix in
  (length k <=? length l)%nat && bool_decide (drop (length l - length k) l = k).

(** [strings.Contains(s, ".")]. *)
Definition has_dot (s : string) : bool :=
  match Cut s "." with Some _ => true | None => false end.

Definition isTailnet (host : string) : bool :=
  if HasSuffix host ".ts.net" then true
  else
    match ParseAddr host with
    | None => false
    | Some addr =>
      contains4 (Z.shiftl 25664 16) 10 addr
      || contains6 (Z.shiftl (Z.shiftl 64890 32 + Z.shiftl 4444 16 + 41440) 80) 48 addr
    end.

Definition publicRelayAddress (addr : Addr) : bool :=
  let addr := Unmap addr in
  negb (IsPrivate addr) && negb (IsLoopback addr) && negb (IsLinkLocalUnicast addr)
  && negb (IsLinkLocalMulticast addr) && negb (IsInterfaceLocalMulticast addr)
  && negb (IsMulticast addr) && negb (IsUnspecified addr) && negb (isTailnet (Addr_String addr)).

Section Rule.
Context `{Unicode}.

Definition checkRelayHostName (host : string) : string :=
  let name := ToLower (TrimSuffix host ".") in
  if bool_decide (name = "localhost"%string) || HasSuffix name ".localhost"
  then "that DERP region names a relay on this machine"
  else if negb (has_dot name) || HasSuffix name ".local" || HasSuffix name ".internal"
          || HasSuffix name ".lan" || HasSuffix name ".home.arpa"
  then "that DERP region names a relay at " +:+ host +:+ ", which is not a public name"
  else if isTailnet name then "that DERP region names a relay on the tailnet"
  else emp.

(** The turn of the loop over the two families for one field: what is refused,
    or how many literals there are with it. *)
Definition checkGiven (hostIsName : bool) (literals : nat) (given : string) : string + nat :=
  if bool_decide (given = "none"%string) then inr literals
  else if bool_decide (given = emp)
  then
    if hostIsName
    then inl ("that DERP region names a relay by host name alone, " +:+
           "which would be looked up rather than checked")%string
    else inr literals
  else
    match ParseAddr given with
    | None => inl ("that DERP region gives a relay address that is not one: " +:+ given)
    | Some addr =>
      if negb (publicRelayAddress addr)
      then inl ("that DERP region names a relay at " +:+ given +:+ ", which is not a public address")
      else inr (S literals)
    end.

Definition checkRelayNode (node : relayNode) : string :=
  if bool_decide (rn_Host node = emp) then "that DERP region names a relay with no host"
  else if rn_Insecure node then "that DERP region names a relay without TLS"
  else if bool_decide (rn_CertName node <> emp)
  then "that DERP region names a relay whose certificate is not its host's"
  else if negb (rn_DERPPort node =? 0) && negb (rn_DERPPort node =? 443)
  then "that DERP region names a relay on port " +:+ itoa (rn_DERPPort node)
  else if negb (rn_STUNPort node =? 0) && negb (rn_STUNPort node =? 3478)
          && negb (rn_STUNPort node =? -1)
  then "that DERP region names STUN on port " +:+ itoa (rn_STUNPort node)
  else
    let host := ParseAddr (rn_Host node) in
    let refused :=
      match host with
      | None => checkRelayHostName (rn_Host node)
      | Some addr =>
        if negb (publicRelayAddress addr)
        then "that DERP region names a relay at " +:+ rn_Host node +:+
               ", which is not a public address"
        else emp
      end in
    if bool_decide (refused <> emp) then refused
    else
      let isName := bool_decide (host = None) in
      match checkGiven isName 0 (rn_IPv4 node) with
      | inl refused => refused
      | inr literals =>
        match checkGiven isName literals (rn_IPv6 node) with
        | inl refused => refused
        | inr literals =>
          if isName && (literals =? 0)%nat
          then "that DERP region names a relay with no address to connect to"
          else emp
        end
      end.

Definition same_relay (node candidate : relayNode) : bool :=
  EqualFold (rn_Host node) (rn_Host candidate) && (rn_DERPPort node =? rn_DERPPort candidate)
  && (rn_STUNPort node =? rn_STUNPort candidate)
  && bool_decide (rn_CertName node = rn_CertName candidate)
  && eqb (rn_Insecure node) (rn_Insecure candidate)
  && (bool_decide (rn_IPv4 node = emp) || bool_decide (rn_IPv4 node = rn_IPv4 candidate))
  && (bool_decide (rn_IPv6 node = emp) || bool_decide (rn_IPv6 node = rn_IPv6 candidate)).

Definition regionWithin (region known : relayRegion) : bool :=
  forallb (fun node => existsb (same_relay node) (rr_Nodes known)) (rr_Nodes region).

(** The first sentence of a list of checks. *)
Fixpoint first_refusal {A} (check : A -> string) (l : list A) : string :=
  match l with
  | [] => emp
  | x :: l' => if bool_decide (check x <> emp) then check x else first_refusal check l'
  end.

Definition checkRelayRegion (ours : list relayRegion) (region : relayRegion) : string :=
  if bool_decide (rr_Nodes region = []) then emp
  else if existsb (regionWithin region) ours then emp
  else first_refusal checkRelayNode (rr_Nodes region).

(** [json.Unmarshal] into a [[]relayRegion]. *)
Context (unmarshal_regions : string -> result (list relayRegion)).

Definition checkRelayRegionJSON (regions known : string) : string :=
  match unmarshal_regions regions with
  | Err e => "that tunnel address names a DERP region this instance cannot read: " +:+ e_msg e
  | Ok embedded =>
    let ours :=
      if bool_decide (known = emp) then []
      else match unmarshal_regions known with Ok ours => ours | Err _ => [] end in
    first_refusal (checkRelayRegion ours) embedded
  end.

End Rule.

(** ** Concrete addresses *)

Example parses :
  map ParseAddr ["10.0.0.5"; "010.0.0.5"; "1.2.3"; "256.1.1.1"; "1.2.3.4.5"; "1..2.3"; "2001:db8::5";
    "::"; "::1"; "1::2::3"; "fe80::1%eth0"; "::ffff:10.0.0.5"; "1:2:3:4:5:6:7:8"; "1:2:3:4:5:6:7::";
    "::%lo"; "::1%"; "12345::"; "relay.example"; "1:2:3:4:5:6:7:8:9"; "1:2:3:4:5:6:7:"]%string =
  [Some (V4 167772165); None; None; None; None; None;
   Some (V6 42540766411282592856903984951653826565 emp); Some (V6 0 emp); Some (V6 1 emp); None;
   Some (V6 338288524927261089654018896841347694593 "eth0"); Some (V6 281470849515525 emp);
   Some (V6 5192455318486707404433266433261576 emp); Some (V6 5192455318486707404433266433261568 emp);
   Some (V6 0 "lo"); None; None; None; None; None].
Proof. vm_compute. reflexivity. Qed.

Example prints :
  map (fun s => Addr_String <$> ParseAddr s) ["100.64.0.1"; "2001:db8::5"; "::"; "::1"; "1:0:0:2::3";
    "::ffff:10.0.0.5"; "1:2:3:4:5:6:7::"; "fe80::1%eth0"]%string =
  map Some ["100.64.0.1"; "2001:db8::5"; "::"; "::1"; "1:0:0:2::3"; "::ffff:10.0.0.5";
    "1:2:3:4:5:6:7:0"; "fe80::1%eth0"]%string.
Proof. vm_compute. reflexivity. Qed.

Example not_public :
  map (fun s => publicRelayAddress <$> ParseAddr s) ["10.1.2.3"; "172.31.0.1"; "172.32.0.1"; "192.168.1.1";
    "127.0.0.1"; "169.254.169.254"; "100.100.1.1"; "100.128.0.1"; "0.0.0.0"; "::ffff:10.0.0.5"; "::1"; "::";
    "fd7a:115c:a1e0::1"; "fe80::1"; "ff02::1"; "9.9.9.9"; "2620:fe::9"]%string =
  map Some [false; false; true; false; false; false; false; true; false; false; false; false;
    false; false; false; true; true].
Proof. vm_compute. reflexivity. Qed.

(** [IsUnspecified] compares whole addresses, so the unspecified address with a
    zone is none of the things the rule refuses, and a relay may be at it. *)
Definition local_relay : relayNode := mk_relayNode "relay.example.com" "none" "::%lo" 0 (-1) emp false.

Example unspecified_with_a_zone :
  publicRelayAddress <$> ParseAddr "::%lo" = Some true /\ checkRelayNode local_relay = emp.
Proof. vm_compute. split; reflexivity. Qed.

(** ** What a relay that passes can be *)

Section Spec.

(** The digits of one octet. *)
Fixpoint v4_digits (s : bytes) (val : Z) (digLen : nat) : option (Z * nat) :=
  match s with
  | [] => Some (val, digLen)
  | b :: s' =>
    d ← digit_of b;
    if (digLen =? 1)%nat && (val =? 0) then None
    else let val := val * 10 + d in if 255 <? val then None else v4_digits s' val (S digLen)
  end.

Definition digits (s : bytes) : Prop := Forall (fun b => digit_of b <> None) s.

Lemma v4_fields_digits s rest no_dot val digLen fields :
  digits s ->
  v4_fields (s ++ rest) no_dot val digLen fields =
  match v4_digits s val digLen with
  | Some (val, digLen) => v4_fields rest (no_dot && bool_decide (s = [])) val digLen fields
  | None => None
  end.
Proof.
  intros Hd. revert no_dot val digLen. induction Hd as [|b s Hb Hd IH]; intros no_dot val digLen.
  { cbn. by rewrite andb_true_r. }
  cbn [app v4_fields v4_digits]. destruct (digit_of b) as [d|]; [|done]. cbn [mbind option_bind].
  destruct (_ && _); [done|]. cbn zeta. destruct (255 <? _); [done|]. rewrite IH.
  destruct (v4_digits s _ _) as [[]|]; [|done]. by rewrite !andb_false_r.
Qed.

Definition octet_bytes (v : Z) : bytes := of_string (itoa v).

Definition octet_ok (v : Z) : Prop :=
  digits (octet_bytes v) /\ octet_bytes v <> [] /\ fst <$> v4_digits (octet_bytes v) 0 0 = Some v.

#[local] Instance octet_ok_dec v : Decision (octet_ok v).
Proof. unfold octet_ok, digits. apply _. Defined.

Lemma octet_reads v : 0 <= v < 256 -> octet_ok v.
Proof.
  intros Hv.
  assert (Forall octet_ok (map Z.of_nat (seq 0 256))) as Hall.
  { apply (bool_decide_unpack _). vm_compute. reflexivity. }
  eapply Forall_forall in Hall; [exact Hall|]. apply list_elem_of_In, in_map_iff.
  exists (Z.to_nat v). split; [lia|]. apply in_seq. lia.
Qed.

Lemma v4_fields_octet v rest no_dot fields :
  0 <= v < 256 ->
  exists k, v4_fields (octet_bytes v ++ rest) no_dot 0 0 fields = v4_fields rest false v k fields.
Proof.
  intros Hv. destruct (octet_reads v Hv) as (Hd & Hne & Hval). rewrite v4_fields_digits by done.
  destruct (v4_digits _ 0 0) as [[w k]|]; [|done]. cbn in Hval. injection Hval as ->.
  exists k. by rewrite bool_decide_eq_false_2, andb_false_r.
Qed.

Lemma v4_fields_dot s val digLen fields :
  s <> [] -> (length fields < 3)%nat ->
  v4_fields (x2e :: s) false val digLen fields = v4_fields s true 0 0 (fields ++ [byte_of val]).
Proof.
  intros Hs Hf. cbn [v4_fields]. change (digit_of x2e) with (@None Z). cbn iota.
  change (byte_val x2e =? b_dot) with true. cbn iota. rewrite bool_decide_eq_false_2 by done.
  cbn [orb]. rewrite (proj2 (Nat.eqb_neq _ _)) by lia. done.
Qed.

Lemma parse_by_digits all s rest :
  digits s -> parse_by all (s ++ x2e :: rest) = parseIPv4 all.
Proof.
  induction 1 as [|b s Hb Hd IH]; [done|]. cbn [app parse_by]. unfold digit_of in Hb.
  destruct (in_range 48 57 (byte_val b)) eqn:Hr; [|done]. unfold in_range in Hr. bool_prop.
  unfold b_dot, b_colon, b_percent in *.
  rewrite !(proj2 (Z.eqb_neq (byte_val b) _)) by lia. done.
Qed.

Lemma dotted_bytes n : of_string (dotted n) =
  octet_bytes (v4_octet n 0) ++ x2e :: octet_bytes (v4_octet n 1) ++ x2e ::
  octet_bytes (v4_octet n 2) ++ x2e :: octet_bytes (v4_octet n 3).
Proof. unfold dotted. by rewrite !of_string_app. Qed.

(** [ParseAddr] reads back the dotted quad [String] prints. *)
Lemma ParseAddr_dotted n : 0 <= n < 2 ^ 32 -> ParseAddr (dotted n) = Some (V4 n).
Proof.
  intros Hn. unfold ParseAddr. set (all := of_string (dotted n)).
  assert (forall i, 0 <= v4_octet n i < 256) as Ho.
  { intros i. unfold v4_octet. apply Z.mod_pos_bound. lia. }
  unfold all at 2. rewrite dotted_bytes, parse_by_digits by apply octet_reads, Ho.
  unfold parseIPv4, all. rewrite dotted_bytes.
  assert (forall i, octet_bytes (v4_octet n i) <> []) as Hne.
  { intros i. by destruct (octet_reads (v4_octet n i) (Ho i)) as (_ & ? & _). }
  assert (forall i rest, octet_bytes (v4_octet n i) ++ rest <> []) as Hne'.
  { intros i rest [He _]%app_nil. by apply Hne in He. }
  do 3 (edestruct v4_fields_octet as [? ->]; [apply Ho|]; rewrite v4_fields_dot by (done || cbn; lia)).
  rewrite <- (app_nil_r (octet_bytes (v4_octet n 3))).
  edestruct v4_fields_octet as [k ->]; [apply Ho|]. cbn [app v4_fields length Nat.ltb Nat.leb mbind option_bind].
  do 2 f_equal. unfold big_endian. cbn [foldl]. rewrite !byte_val_of. unfold v4_octet.
  rewrite !Z.shiftr_div_pow2 by lia.
  change (2 ^ (8 * (3 - 0))) with 16777216. change (2 ^ (8 * (3 - 1))) with 65536.
  change (2 ^ (8 * (3 - 2))) with 256. change (2 ^ (8 * (3 - 3))) with 1.
  change (2 ^ 32) with 4294967296 in Hn. euclid.
Qed.

(** *** The ranges *)

(** Addresses no relay of a peer's may be at: a network and its prefix length. *)
Definition reserved4 : list (Z * Z) :=
  [(Z.shiftl 10 24, 8); (Z.shiftl 44048 16, 12); (Z.shiftl 49320 16, 16); (Z.shiftl 127 24, 8);
   (Z.shiftl 43518 16, 16); (Z.shiftl 224 24, 4); (Z.shiftl 25664 16, 10); (0, 32)].
Definition reserved6 : list (Z * Z) :=
  [(Z.shiftl 64512 112, 7); (Z.shiftl 65152 112, 10); (Z.shiftl 65280 112, 8); (1, 128)].

Definition within (width n : Z) (range : Z * Z) : Prop :=
  Z.shiftr n (width - range.2) = Z.shiftr range.1 (width - range.2).

Definition reserved (a : Addr) : Prop :=
  match Unmap a with
  | V4 n => Exists (within 32 n) reserved4
  | V6 n zone => Exists (within 128 n) reserved6 \/ (n = 0 /\ zone = emp)
  end.

Definition in_width (a : Addr) : Prop :=
  match a with V4 n => 0 <= n < 2 ^ 32 | V6 n _ => 0 <= n < 2 ^ 128 end.

Fixpoint all_from (p : Z -> bool) (n : nat) (z : Z) : bool :=
  match n with O => true | S n' => p z && all_from p n' (z + 1) end.

Lemma all_from_spec p n z x : all_from p n z = true -> z <= x < z + Z.of_nat n -> p x = true.
Proof.
  revert z. induction n as [|n IH]; intros z; cbn; [lia|]. intros [Hp Hr]%andb_true_iff Hx.
  destruct (decide (x = z)) as [->|]; [done|]. apply (IH (z + 1)); [done|lia].
Qed.

(** The masks of the tests, as divisions. *)
Lemma land_240 x : 0 <= x < 256 -> Z.land x 240 = 16 * (x / 16).
Proof.
  intros Hx. apply Z.eqb_eq.
  eapply (all_from_spec (fun x => Z.land x 240 =? 16 * (x / 16)) 256 0); [reflexivity|lia].
Qed.
Lemma land_254 x : 0 <= x < 256 -> Z.land x 254 = 2 * (x / 2).
Proof.
  intros Hx. apply Z.eqb_eq.
  eapply (all_from_spec (fun x => Z.land x 254 =? 2 * (x / 2)) 256 0); [reflexivity|lia].
Qed.
Lemma land_65472 x : 0 <= x < 65536 -> Z.land x 65472 = 64 * (x / 64).
Proof.
  intros Hx. apply Z.eqb_eq.
  eapply (all_from_spec (fun x => Z.land x 65472 =? 64 * (x / 64)) (Z.to_nat 65536) 0);
    [vm_compute; reflexivity|lia].
Qed.

Lemma v6u16_top n : 0 <= n < 2 ^ 128 -> v6u16 n 0 = Z.shiftr n 112.
Proof.
  intros Hn. unfold v6u16. change (16 * (7 - 0)) with 112. rewrite Z.shiftr_div_pow2 by lia.
  apply Z.mod_small. change 65536 with (2 ^ 16). split; [apply Z.div_pos; lia|].
  apply Z.div_lt_upper_bound; [lia|]. change (2 ^ 112 * 2 ^ 16) with (2 ^ 128). lia.
Qed.

Lemma Unmap_width a : in_width a -> in_width (Unmap a).
Proof.
  destruct a as [n|n z]; [done|]. intros Hn. cbn [Unmap]. destruct (_ =? 65535); [|done].
  cbn [in_width]. apply Z.mod_pos_bound. lia.
Qed.

Lemma Unmap_Unmap a : in_width a -> Unmap (Unmap a) = Unmap a.
Proof. destruct a as [n|n z]; [done|]. intros _. cbn [Unmap]. destruct (Z.shiftr n 32 =? 65535) eqn:E; cbn; [done|by rewrite E]. Qed.

Lemma octets n : 0 <= n < 2 ^ 32 ->
  v4_octet n 0 = n / 16777216 /\ v4_octet n 1 = n / 65536 mod 256.
Proof.
  intros Hn. unfold v4_octet. rewrite !(Z.shiftr_div_pow2 n) by lia. split; [|done].
  change (2 ^ (8 * (3 - 0))) with 16777216. change (2 ^ 32) with 4294967296 in Hn. euclid.
Qed.

Lemma within_div width n net bits : 0 <= width - bits ->
  within width n (net, bits) -> n / 2 ^ (width - bits) = Z.shiftr net (width - bits).
Proof. unfold within. cbn. intros Hb Hw. by rewrite <- Hw, Z.shiftr_div_pow2. Qed.

Lemma public_not_reserved4 n :
  0 <= n < 2 ^ 32 -> publicRelayAddress (V4 n) = true -> ~ Exists (within 32 n) reserved4.
Proof.
  intros Hn Hp Hex. unfold publicRelayAddress in Hp. cbn [Unmap] in Hp. bool_prop.
  assert (isTailnet (dotted n) = false) as Htail by done. unfold isTailnet in Htail.
  rewrite ParseAddr_dotted in Htail by done. destruct (HasSuffix (dotted n) _); [done|].
  unfold IsPrivate, IsLoopback, IsLinkLocalUnicast, IsMulticast, IsUnspecified in *. cbn [Unmap] in *.
  assert (forall i, 0 <= v4_octet n i < 256) as Ho.
  { intros i. unfold v4_octet. apply Z.mod_pos_bound. lia. }
  rewrite !land_240 in * by apply Ho. destruct (octets n Hn) as [Ho0 Ho1]. rewrite Ho0, Ho1 in *.
  assert (n <> 0) as Hz by (intros ->; done). cbn [contains4 contains6] in Htail.
  change (2 ^ 32) with 4294967296 in Hn.
  unfold reserved4 in Hex. rewrite !Exists_cons, Exists_nil in Hex.
  destruct Hex as [Hw|[Hw|[Hw|[Hw|[Hw|[Hw|[Hw|[Hw|[]]]]]]]]]; unfold within in Hw; cbn [fst snd] in Hw.
  all: bool_prop.
  all: repeat match goal with K : _ && _ = false |- _ => apply andb_false_iff in K end.
  all: rewrite ?Z.eqb_neq in *; try congruence.
  all: rewrite Z.shiftr_div_pow2 in Hw by lia.
  all: match type of Hw with ?m / ?a = ?b =>
    let a' := eval vm_compute in a in let b' := eval vm_compute in b in
    change (m / a' = b') in Hw end.
  all: clear -Hn Hw Hz H H11 H10 H6 H5 H2; euclid.
Qed.

Lemma public_not_reserved6 n zone :
  0 <= n < 2 ^ 128 -> Unmap (V6 n zone) = V6 n zone -> publicRelayAddress (V6 n zone) = true ->
  ~ Exists (within 128 n) reserved6 /\ ~ (n = 0 /\ zone = emp).
Proof.
  intros Hn Hu Hp. unfold publicRelayAddress in Hp. rewrite Hu in Hp. bool_prop.
  unfold IsPrivate, IsLoopback, IsLinkLocalUnicast, IsMulticast, IsUnspecified in *. rewrite Hu in *.
  rewrite v6u16_top in * by done. rewrite !Z.shiftr_div_pow2 in * by lia.
  split; [|by intros [-> ->]]. set (t := n / 2 ^ 112) in *.
  assert (0 <= t < 65536) as Ht.
  { unfold t. split; [apply Z.div_pos; lia|]. apply Z.div_lt_upper_bound; [lia|].
    change (2 ^ 112 * 65536) with (2 ^ 128). lia. }
  assert (forall k j v, 0 <= k -> 112 + k = j -> n / 2 ^ j = v -> t / 2 ^ k = v) as Hdiv.
  { intros k j v Hk <- <-. unfold t. rewrite Z.div_div by lia. by rewrite <- Z.pow_add_r by lia. }
  rewrite land_65472 in * by done. change (2 ^ 8) with 256 in *. rewrite land_254 in * by euclid.
  unfold reserved6. rewrite !Exists_cons, Exists_nil. unfold within. cbn [fst snd].
  intros [Hw|[Hw|[Hw|[Hw|[]]]]]; rewrite Z.shiftr_div_pow2 in Hw by lia.
  - apply (Hdiv 9 121 126) in Hw; [|lia..]. change (2 ^ 9) with 512 in Hw. bool_prop. euclid.
  - apply (Hdiv 6 118 1018) in Hw; [|lia..]. change (2 ^ 6) with 64 in Hw. bool_prop. euclid.
  - apply (Hdiv 8 120 255) in Hw; [|lia..]. change (2 ^ 8) with 256 in Hw. bool_prop. lia.
  - change (128 - 128) with 0 in Hw. change (2 ^ 0) with 1 in Hw. rewrite Z.div_1_r in Hw.
    change (Z.shiftr 1 0) with 1 in Hw. bool_prop. lia.
Qed.

Lemma publicRelayAddress_Unmap a :
  in_width a -> publicRelayAddress a = true -> ~ reserved a.
Proof.
  intros Hw Hp. pose proof (Unmap_width a Hw) as Hu. pose proof (Unmap_Unmap a Hw) as Huu.
  assert (publicRelayAddress (Unmap a) = true) as Hp' by (unfold publicRelayAddress; by rewrite Huu).
  unfold reserved. destruct (Unmap a) as [n|n zone].
  - by apply public_not_reserved4.
  - destruct (public_not_reserved6 n zone) as [H1 H2]; [done..|]. by intros [?|?].
Qed.

(** *** Parsed addresses fit *)

Lemma v4_fields_length s no_dot val digLen fields out :
  v4_fields s no_dot val digLen fields = Some out -> (length fields <= 3)%nat -> length out = 4%nat.
Proof.
  revert no_dot val digLen fields. induction s as [|b s IH]; intros no_dot val digLen fields; cbn [v4_fields].
  { destruct (_ <? _)%nat eqn:E; [done|]. intros [= <-] Hf. apply Nat.ltb_ge in E.
    rewrite length_app. cbn. lia. }
  destruct (digit_of b) as [d|].
  - destruct (_ && _); [done|]. cbn zeta. destruct (255 <? _); [done|]. apply IH.
  - destruct (_ =? b_dot); [|done]. destruct (_ || _); [done|].
    destruct (_ =? 3)%nat eqn:E; [done|]. intros Hs Hf. apply Nat.eqb_neq in E.
    apply IH in Hs; [done|]. rewrite length_app. cbn. lia.
Qed.

Lemma big_endian_range l : 0 <= big_endian l < 256 ^ Z.of_nat (length l).
Proof.
  unfold big_endian. enough (forall l n k, 0 <= n < 256 ^ k -> 0 <= k ->
    0 <= foldl (fun n b => n * 256 + byte_val b) n l < 256 ^ (k + Z.of_nat (length l))) as Hg.
  { specialize (Hg l 0 0). cbn in Hg. rewrite Z.add_0_l in Hg. apply Hg; lia. }
  clear. induction l as [|b l IH]; intros n k Hn Hk; cbn [foldl length].
  { by rewrite Z.add_0_r. }
  pose proof (byte_val_range b). destruct (IH (n * 256 + byte_val b) (k + 1)) as [H1 H2].
  - rewrite Z.pow_add_r by lia. lia.
  - lia.
  - replace (k + Z.of_nat (S (length l))) with (k + 1 + Z.of_nat (length l)) by lia. done.
Qed.

Lemma v6_loop_length turns s ip e rest ip' e' :
  v6_loop turns s ip e = Some (rest, ip', e') -> (length ip + 2 * turns = 16)%nat -> (length ip' <= 16)%nat.
Proof.
  revert s ip e. induction turns as [|turns IH]; intros s ip e; cbn [v6_loop].
  { intros [= _ <- _] Hl. lia. }
  destruct (hex_group s 0 0) as [[[r off] acc]|]; [|done]. destruct (off =? 0)%nat; [done|].
  destruct (starts b_dot r).
  - destruct (_ && _); [done|]. destruct (16 <? _)%nat eqn:E; [done|]. apply Nat.ltb_ge in E.
    destruct (v4_fields s true 0 0 []) as [f|] eqn:Ef; [|done]. cbn. intros [= _ <- _] Hl.
    apply v4_fields_length in Ef; [|cbn; lia]. rewrite length_app. lia.
  - cbn zeta. assert (length (ip ++ [byte_of (Z.shiftr acc 8); byte_of acc]) = (length ip + 2)%nat) as Hl2
      by (by rewrite length_app).
    destruct r as [|b more]; [intros [= _ <- _] Hl; lia|].
    destruct (_ || _); [done|]. destruct (starts b_colon more).
    + destruct (bool_decide _); [done|]. destruct (drop 1 more); [intros [= _ <- _] Hl; lia|].
      intros Hs Hl. apply IH in Hs; [done|lia].
    + intros Hs Hl. apply IH in Hs; [done|lia].
Qed.

Lemma ParseAddr_width s a : ParseAddr s = Some a -> in_width a.
Proof.
  unfold ParseAddr. generalize (of_string s) at 2. intros rest.
  induction rest as [|b rest IH]; cbn [parse_by]; [done|].
  destruct (_ =? b_dot); [|destruct (_ =? b_colon); [|by destruct (_ =? b_percent)]].
  - unfold parseIPv4. destruct (v4_fields _ _ _ _ _) as [f|] eqn:E; [|done]. intros [= <-].
    apply v4_fields_length in E; [|cbn; lia]. pose proof (big_endian_range f) as Hr. by rewrite E in Hr.
  - unfold parseIPv6. destruct (cut_zone _) as [k zone]. destruct (bool_decide _); [done|]. cbn zeta.
    destruct (_ && bool_decide _); [intros [= <-]; cbn; lia|].
    destruct (v6_loop _ _ _ _) as [[[r ip] e]|] eqn:E; [|done]. cbn [mbind option_bind].
    destruct (bool_decide _); [done|]. apply v6_loop_length in E; [|cbn; lia]. unfold expand.
    destruct (_ <? 16)%nat eqn:El.
    + apply Nat.ltb_lt in El. destruct e as [e|]; [|done]. cbn. intros [= <-].
      set (l := _ ++ _). assert (length l = 16%nat) as Hl.
      { unfold l. rewrite !length_app, length_take, length_replicate, length_drop. lia. }
      pose proof (big_endian_range l) as Hr. by rewrite Hl in Hr.
    + apply Nat.ltb_ge in El. destruct e; [done|]. cbn. intros [= <-].
      pose proof (big_endian_range ip) as Hr. by replace (length ip) with 16%nat in Hr by lia.
Qed.

(** *** The rule *)

Context `{Unicode}.

(** A field of a relay that leaves nothing to a lookup and gives no reserved
    address. *)
Definition sound_field (isName : bool) (given : string) : Prop :=
  given = "none"%string \/ (given = emp /\ isName = false) \/
  exists addr, ParseAddr given = Some addr /\ ~ reserved addr.

Lemma checkGiven_sound isName n given k :
  checkGiven isName n given = inr k ->
  sound_field isName given /\ (k = n \/ (k = S n /\ is_Some (ParseAddr given))).
Proof.
  unfold checkGiven, sound_field. case_bool_decide as Hn; [intros [= <-]; auto|].
  case_bool_decide as He; [destruct isName; [done|]; intros [= <-]; auto|].
  destruct (ParseAddr given) as [addr|] eqn:Ea; [|done].
  destruct (publicRelayAddress addr) eqn:Ep; cbn; [|done]. intros [= <-]. split; [|right; split; eauto].
  right. right. exists addr. split; [done|].
  exact (publicRelayAddress_Unmap _ (ParseAddr_width _ _ Ea) Ep).
Qed.

Lemma checkGiven_refuses isName n given r : checkGiven isName n given = inl r -> r <> emp.
Proof.
  unfold checkGiven. case_bool_decide; [done|]. case_bool_decide; [destruct isName; [by intros [= <-]|done]|].
  destruct (ParseAddr given) as [addr|]; [|by intros [= <-]].
  destruct (negb _); [by intros [= <-]|done].
Qed.

(** A relay a peer names that this instance's own map does not is
    connected to only over TLS, at the default ports, under its own name, and
    at addresses checked beforehand: every address given for it is a literal
    outside every private, loopback, link-local, multicast, tailnet and
    unspecified range, and a relay given by name has at least one, with
    neither family left to a lookup. *)
Theorem relay_checked ours region node :
  checkRelayRegion ours region = emp -> node ∈ rr_Nodes region ->
  existsb (regionWithin region) ours = false ->
  rn_Insecure node = false /\ rn_CertName node = emp /\
  rn_DERPPort node ∈ [0; 443] /\ rn_STUNPort node ∈ [0; 3478; -1] /\
  sound_field (bool_decide (ParseAddr (rn_Host node) = None)) (rn_IPv4 node) /\
  sound_field (bool_decide (ParseAddr (rn_Host node) = None)) (rn_IPv6 node) /\
  (forall addr, ParseAddr (rn_Host node) = Some addr -> ~ reserved addr) /\
  (ParseAddr (rn_Host node) = None ->
     is_Some (ParseAddr (rn_IPv4 node)) \/ is_Some (ParseAddr (rn_IPv6 node))).
Proof.
  intros Hr Hin Hours. unfold checkRelayRegion in Hr. rewrite Hours in Hr.
  case_bool_decide as Hnil; [by rewrite Hnil in Hin; apply not_elem_of_nil in Hin|].
  assert (checkRelayNode node = emp) as Hc.
  { clear Hours Hnil. revert Hr Hin. induction (rr_Nodes region) as [|x l IH]; cbn; [set_solver|].
    case_bool_decide as Hx; [done|]. intros Hr [->|Hin]%elem_of_cons; [done|by apply IH]. }
  unfold checkRelayNode in Hc. case_bool_decide; [done|]. destruct (rn_Insecure node); [done|].
  case_bool_decide; [done|]. destruct (negb (_ =? 0) && _) eqn:Hd; [done|].
  destruct (negb (rn_STUNPort node =? 0) && _ && _) eqn:Hs; [done|]. cbn zeta in Hc.
  case_bool_decide as Href; [done|].
  destruct (checkGiven _ 0 _) as [|n4] eqn:E4; [by apply checkGiven_refuses in E4|].
  destruct (checkGiven _ n4 _) as [|n6] eqn:E6; [by apply checkGiven_refuses in E6|].
  apply checkGiven_sound in E4 as [H4 K4], E6 as [H6 K6].
  split_and!; try done.
  - repeat match goal with K : _ && _ = false |- _ => apply andb_false_iff in K end.
    rewrite !elem_of_cons. destruct Hd; bool_prop; auto.
  - apply andb_false_iff in Hs as [Hs|Hs]; [apply andb_false_iff in Hs as [Hs|Hs]|]; bool_prop; set_solver.
  - intros addr Ha. rewrite Ha in Href. destruct (publicRelayAddress addr) eqn:Ep; [|done].
    exact (publicRelayAddress_Unmap _ (ParseAddr_width _ _ Ha) Ep).
  - intros Hnone. rewrite bool_decide_eq_true_2 in Hc by done.
    destruct K6 as [->|[-> ?]]; [|by right]. destruct K4 as [->|[-> ?]]; [done|by left].
Qed.

End Spec.

Definition good_relay : relayNode :=
  mk_relayNode "relay.example.com" "9.9.9.9" "none" 443 (-1) emp false.

Lemma relay_checked_witness : rn_Insecure good_relay = false.
Proof.
  apply (relay_checked [] (mk_relayRegion 0 [local_relay; good_relay]) good_relay).
  - vm_compute. reflexivity.
  - apply list_elem_of_further, list_elem_of_here.
  - reflexivity.
Defined.
