(* ===== verification/Settle.v ===== *)
(** * Settle: a pairing from the code to the trust record

    [pkg/peer/pending.go] and [refusal.go], the reconciliation half of
    [pairing.go], and what [tunnel.go] admits for it: a pairing written down on
    both sides, each user's answer, the exchange of answers, and the refusals
    held until the other side has heard them.

    A node here is what those functions share: the store, the held refusals,
    the tunnel with the client keys it admits, the prompts raised and the
    timers running.  Each operation is one critical section of [pairingMu]; the
    network is between them.  [recordPending] writes without that mutex, so it
    can come between the two halves of another operation
    ([new_pairing_overwritten] at the end of the file).  What a node does to
    the outside is a trace. *)

From S2P Require Import Prelude.
From S2P Require Import GoText.
From S2P Require Import Ssh.
From S2P Require Import Proto.
From S2P Require Import PairingProto.
From S2P Require Import Trust.
From S2P Require Import Pairings.
From S2P Require Import Regions.

Local Open Scope Z_scope.
Local Open Scope ladulas_scope.

(** ** The node *)

(** [Tunnel]: the parts of the interface used here. *)
Record Tunnel := mk_Tunnel {
  tn_Version : Z;
  tn_ClientKey : bytes;
  tn_RelayRegion : string -> result string;
  tn_KnownRelays : string;
  tn_allowed : gset string    (** the client keys [Admit] let in *)
}.

Record heldRefusal := mk_heldRefusal {
  hr_pending : PendingPairing;
  hr_reason : string;
  hr_key : option bytes;
  hr_at : time;
  hr_heard : bool
}.

Inductive pairingEvent :=
| pairingAnswered (message : string)
| pairingCompleted (record : TrustRecord)
| pairingEnded (message : string).

(** What a function left running with [time.AfterFunc]. *)
Inductive timer :=
| ReleaseRefusal (session : string)
| RevokeUnheld (key : bytes).

Inductive effect :=
| Lifecycle (text : string)
| Notified (session : string) (event : pairingEvent)
| PromptRaised (session : string)
| PromptCancelled (session : string)
| Poked
| Reconciled.

Record node := mk_node {
  n_store : store;
  n_refusals : gmap string heldRefusal;
  n_tunnel : option Tunnel;
  n_tunnelAddress : string;
  n_tunnelClientOnly : bool;
  n_tunnelClosed : bool;
  n_prompts : gset string;
  n_attempted : gmap string time;
  n_hasLocalApprover : bool;
  n_serving : bool;            (** [n.ctx != nil] *)
  n_retry : duration;
  n_timers : list timer;
  n_trace : list effect;
  n_clock : nat -> time;
  n_ticks : nat
}.

Definition set_store (s : store) (n : node) : node :=
  mk_node s (n_refusals n) (n_tunnel n) (n_tunnelAddress n) (n_tunnelClientOnly n)
    (n_tunnelClosed n) (n_prompts n) (n_attempted n) (n_hasLocalApprover n) (n_serving n)
    (n_retry n) (n_timers n) (n_trace n) (n_clock n) (n_ticks n).
Definition set_refusals (m : gmap string heldRefusal) (n : node) : node :=
  mk_node (n_store n) m (n_tunnel n) (n_tunnelAddress n) (n_tunnelClientOnly n)
    (n_tunnelClosed n) (n_prompts n) (n_attempted n) (n_hasLocalApprover n) (n_serving n)
    (n_retry n) (n_timers n) (n_trace n) (n_clock n) (n_ticks n).
Definition set_tunnel (t : option Tunnel) (n : node) : node :=
  mk_node (n_store n) (n_refusals n) t (n_tunnelAddress n) (n_tunnelClientOnly n)
    (n_tunnelClosed n) (n_prompts n) (n_attempted n) (n_hasLocalApprover n) (n_serving n)
    (n_retry n) (n_timers n) (n_trace n) (n_clock n) (n_ticks n).
Definition set_prompts (p : gset string) (n : node) : node :=
  mk_node (n_store n) (n_refusals n) (n_tunnel n) (n_tunnelAddress n) (n_tunnelClientOnly n)
    (n_tunnelClosed n) p (n_attempted n) (n_hasLocalApprover n) (n_serving n)
    (n_retry n) (n_timers n) (n_trace n) (n_clock n) (n_ticks n).
Definition set_attempted (m : gmap string time) (n : node) : node :=
  mk_node (n_store n) (n_refusals n) (n_tunnel n) (n_tunnelAddress n) (n_tunnelClientOnly n)
    (n_tunnelClosed n) (n_prompts n) m (n_hasLocalApprover n) (n_serving n)
    (n_retry n) (n_timers n) (n_trace n) (n_clock n) (n_ticks n).
Definition add_timer (t : timer) (n : node) : node :=
  mk_node (n_store n) (n_refusals n) (n_tunnel n) (n_tunnelAddress n) (n_tunnelClientOnly n)
    (n_tunnelClosed n) (n_prompts n) (n_attempted n) (n_hasLocalApprover n) (n_serving n)
    (n_retry n) (n_timers n ++ [t]) (n_trace n) (n_clock n) (n_ticks n).
Definition add_effect (e : effect) (n : node) : node :=
  mk_node (n_store n) (n_refusals n) (n_tunnel n) (n_tunnelAddress n) (n_tunnelClientOnly n)
    (n_tunnelClosed n) (n_prompts n) (n_attempted n) (n_hasLocalApprover n) (n_serving n)
    (n_retry n) (n_timers n) (n_trace n ++ [e]) (n_clock n) (n_ticks n).

Definition Now : state node time := fun n =>
  (n_clock n (n_ticks n),
   mk_node (n_store n) (n_refusals n) (n_tunnel n) (n_tunnelAddress n) (n_tunnelClientOnly n)
     (n_tunnelClosed n) (n_prompts n) (n_attempted n) (n_hasLocalApprover n) (n_serving n)
     (n_retry n) (n_timers n) (n_trace n) (n_clock n) (S (n_ticks n))).

(** An operation of the store, on the node's store. *)
Definition trust {A} (m : state store A) : state node A := fun n =>
  let '(a, s) := m (n_store n) in (a, set_store s n).

Definition emit (e : effect) : state node unit := modify (add_effect e).

(** [map[string]bool] keys of a byte string. *)
Definition key_string (key : bytes) : string := to_string key.

Definition heldRefusalCap : nat := 32.

Definition ErrNoPendingPairing : error :=
  sentinel "peer.ErrNoPendingPairing" "peer: no pairing is waiting under that name".
Definition ErrPairingAnswered : error :=
  sentinel "peer.ErrPairingAnswered" "peer: this pairing has already been answered here".

Definition refusal (answer : PairingAnswer) : bool :=
  bool_decide (answer = ANSWER_DECLINED) || bool_decide (answer = ANSWER_WITHDRAWN).

Definition refusalMessage (ours theirs : PairingAnswer) (reason : string) : string :=
  let message :=
    if bool_decide (ours = ANSWER_DECLINED) then "declined here"
    else if bool_decide (ours = ANSWER_WITHDRAWN) then "called off here"
    else if bool_decide (theirs = ANSWER_DECLINED) then "declined at the other end"
    else "called off at the other end" in
  (if bool_decide (reason <> emp) then message +:+ ": " +:+ reason else message)%string.

Definition refusedHere (pending : PendingPairing) : bool :=
  refusal (pg_our_answer pending) && negb (refusal (pg_their_answer pending)).

(** ** The tunnel's allowlist *)

Definition admissible (offer : option TunnelOffer) : option bytes :=
  if bool_decide (offer⇢to_versions = []) || bool_decide (offer⇢to_client_key = []) then None
  else Some offer⇢to_client_key.

Definition with_allowed (f : gset string -> gset string) (t : Tunnel) : Tunnel :=
  mk_Tunnel (tn_Version t) (tn_ClientKey t) (tn_RelayRegion t) (tn_KnownRelays t) (f (tn_allowed t)).

Definition change_allowed (f : gset string -> gset string) : state node unit :=
  t ← gets n_tunnel;
  match t with Some t => modify (set_tunnel (Some (with_allowed f t))) | None => mret tt end.

Definition admitKey (key : option bytes) : state node unit :=
  match key with
  | None | Some [] => mret tt
  | Some key => change_allowed (fun allowed => {[ key_string key ]} ∪ allowed)
  end.
Definition revokeKey (key : bytes) : state node unit :=
  match key with [] => mret tt | _ => change_allowed (fun allowed => allowed ∖ {[ key_string key ]}) end.

Definition tunnelVersion (n : node) : Z :=
  match n_tunnel n with None => 0 | Some t => Z.max (tn_Version t) 0 end.

Definition offer (n : node) : option TunnelOffer :=
  if n_tunnelClosed n then None
  else
    match n_tunnel n with
    | None => Some (mk_TunnelOffer [] emp [])
    | Some t =>
      let version := u32 (Z.max (tn_Version t) 0) in
      if n_tunnelClientOnly n then Some (mk_TunnelOffer [version] emp (tn_ClientKey t))
      else if bool_decide (n_tunnelAddress n = emp) then None
      else Some (mk_TunnelOffer [version] (n_tunnelAddress n) (tn_ClientKey t))
    end.

(** [heldRefusalKeys] and [admissibleKeys]. *)
Definition heldRefusalKeys (n : node) : list bytes :=
  omap hr_key (map snd (map_to_list (n_refusals n))).
Definition admissibleKeys (n : node) : gset string :=
  list_to_set (map key_string
    (omap (fun r => admissible (tr_tunnel r)) (sd_peers (n_store n)) ++
     omap (fun p => admissible (pg_tunnel p)) (sd_pending (n_store n)) ++ heldRefusalKeys n)).

Definition revokeUnheld (key : option bytes) : state node unit :=
  match key with
  | None => mret tt
  | Some key =>
    held ← gets admissibleKeys;
    if bool_decide (key_string key ∈ held) then mret tt else revokeKey key
  end.

(** [admitAll], for the tunnel being started: what is admitted, less what is
    no longer held by the second reading. *)
Definition admitAll (first second allowed : gset string) : gset string :=
  (first ∪ allowed) ∖ (first ∖ second).

Create HintDb safe discriminated.

Section Settle.
Context `{Unicode} `{Ssh}.
Context (unmarshal_regions : string -> result (list relayRegion)).

Definition checkOfferRegion (n : node) (address : string) : string :=
  match n_tunnel n with
  | None => emp
  | Some t =>
    match tn_RelayRegion t address with
    | Err e => "that tunnel address does not parse: " +:+ e_msg e
    | Ok region => checkRelayRegionJSON unmarshal_regions region (tn_KnownRelays t)
    end
  end.

Definition normalizeOffer (n : node) (o : option TunnelOffer) : option TunnelOffer :=
  match o with
  | None => None
  | Some o =>
    if bool_decide (to_versions o = []) then Some (mk_TunnelOffer [] emp [])
    else
      let refused := bool_decide (to_server_address o <> emp)
        && bool_decide (checkOfferRegion n (to_server_address o) <> emp) in
      Some (mk_TunnelOffer (to_versions o) (if refused then emp else to_server_address o)
              (to_client_key o))
  end.

Definition pendingOffer (o : option TunnelOffer) : state node (option TunnelOffer) :=
  wanted ← gets (fun n => normalizeOffer n o);
  if bool_decide (wanted⇢to_versions = []) then mret None
  else _ ← admitKey (admissible wanted); mret wanted.

Definition forgetPendingTunnel (pending : PendingPairing) : state node unit :=
  match admissible (pg_tunnel pending) with
  | None => mret tt
  | Some key => modify (add_timer (RevokeUnheld key))
  end.

(** ** Held refusals *)

(** The session whose refusal was made first, over what [range] visits. *)
Definition oldest_refusal (m : gmap string heldRefusal) : option (string * heldRefusal) :=
  foldl (fun oldest e =>
    match oldest with
    | None => Some e
    | Some o => if hr_at e.2 <? hr_at o.2 then Some e else oldest
    end) None (map_to_list m).

Definition holdRefusal (pending : PendingPairing) (reason : string) : state node unit :=
  at_ ← Now;
  refusals ← gets n_refusals;
  let held := mk_heldRefusal pending reason (admissible (pg_tunnel pending)) at_ false in
  let refusals := <[pg_session_id pending := held]> refusals in
  let evicted := if (heldRefusalCap <? size refusals)%nat then oldest_refusal refusals else None in
  match evicted with
  | None => modify (set_refusals refusals)
  | Some (session, old) =>
    _ ← modify (set_refusals (delete session refusals));
    revokeUnheld (hr_key old)
  end.

Definition heldRefusalOf (n : node) (fingerprint : string) : option heldRefusal :=
  foldl (fun found held =>
    if bool_decide (pg_fingerprint (hr_pending held) <> fingerprint) then found
    else
      match found with
      | None => Some held
      | Some f => if hr_at f <? hr_at held then Some held else found
      end) None (map snd (map_to_list (n_refusals n))).

Definition answerHeldRefusal (fingerprint session : string)
    : state node (option SettlePairingResponse) :=
  refusals ← gets n_refusals;
  match refusals !! session with
  | None => mret None
  | Some held =>
    if bool_decide (pg_fingerprint (hr_pending held) <> fingerprint) then mret None
    else
      _ ← modify (set_refusals (<[session := mk_heldRefusal (hr_pending held) (hr_reason held)
            (hr_key held) (hr_at held) true]> refusals));
      _ ← when (negb (hr_heard held)) (modify (add_timer (ReleaseRefusal session)));
      mret (Some (mk_SettlePairingResponse RECORD_STATE_GONE
              (pg_our_answer (hr_pending held)) (hr_reason held)))
  end.

Definition releaseRefusal (session : string) : state node unit :=
  refusals ← gets n_refusals;
  _ ← modify (set_refusals (delete session refusals));
  match refusals !! session with
  | Some held => revokeUnheld (hr_key held)
  | None => mret tt
  end.

(** The callback of a timer. *)
Definition fire (t : timer) : state node unit :=
  match t with
  | ReleaseRefusal session => releaseRefusal session
  | RevokeUnheld key => revokeUnheld (Some key)
  end.

(** ** The state machine *)

Definition notifyPairing (session : string) (event : pairingEvent) : state node unit :=
  emit (Notified session event).

Definition cancelPrompt (session : string) : state node unit :=
  prompts ← gets n_prompts;
  attempted ← gets n_attempted;
  _ ← modify (set_attempted (delete session attempted));
  when (bool_decide (session ∈ prompts)) (emit (PromptCancelled session)).

Definition raisePrompt (pending : PendingPairing) : state node unit :=
  n ← gets id;
  if negb (n_hasLocalApprover n) then mret tt
  else if negb (n_serving n) || bool_decide (pg_session_id pending ∈ n_prompts n) then mret tt
  else
    _ ← modify (set_prompts ({[ pg_session_id pending ]} ∪ n_prompts n));
    emit (PromptRaised (pg_session_id pending)).

Definition recordPending (pending : PendingPairing) : state node (option error) :=
  err ← trust (PutPendingPairing pending);
  match err with
  | Some e => mret (Some (wrap_w "write down the pending pairing: " e emp))
  | None =>
    _ ← raisePrompt pending;
    _ ← emit Poked;
    mret None
  end.

(** What became of the store's write is only logged when it fails. *)
Definition dropPending (pending : PendingPairing) (message reason : string) : state node unit :=
  _ ← trust (RemovePendingPairing (pg_session_id pending));
  _ ← cancelPrompt (pg_session_id pending);
  _ ← (if refusedHere pending then holdRefusal pending reason else forgetPendingTunnel pending);
  _ ← emit (Lifecycle ("the pairing with " +:+ quote (pg_name pending) +:+ ", " +:+
        pg_fingerprint pending +:+ ", ended: " +:+ message));
  notifyPairing (pg_session_id pending) (pairingEnded message).

(** [record.PairingSessionId = session], and the tunnel offer with its time. *)
Definition with_session (session : string) (tunnel : option TunnelOffer) (at_ : option time)
    (r : TrustRecord) : TrustRecord :=
  mk_TrustRecord (tr_fingerprint r) (tr_name r) (tr_identity_public_key r) (tr_addresses r)
    (tr_may_approve r) (tr_may_request r) (tr_allowed_key_fingerprints r) (tr_paired_at r)
    (tr_we_initiated r) (tr_may_use_all_keys r) session tunnel at_.

(** The clock is read for the record, and again when there is an offer. *)
Definition completed_record (pending : PendingPairing) (key : PublicKey) : state node TrustRecord :=
  now ← Now;
  let record := NewRecord now (pg_name pending) key (pg_addresses pending)
    (pg_may_approve pending) (pg_may_request pending) (pg_we_dialled pending) in
  match pg_tunnel pending with
  | None => mret (with_session (pg_session_id pending) None None record)
  | Some o => at_ ← Now; mret (with_session (pg_session_id pending) (Some o) (Some at_) record)
  end.

Definition completePending (pending : PendingPairing) : state node (result TrustRecord) :=
  match ParsePublicKey (pg_identity_public_key pending) with
  | Err e => mret (Err (wrap_w "read the peer's identity key: " e emp))
  | Ok key =>
    record ← completed_record pending key;
    err ← trust (PutPeer record);
    match err with
    | Some e => mret (Err (wrap_w "store the trust record: " e emp))
    | None =>
      _ ← trust (RemovePendingPairing (pg_session_id pending));
      _ ← cancelPrompt (pg_session_id pending);
      _ ← emit (Lifecycle ("paired with " +:+ quote (tr_name record) +:+ ", " +:+
            tr_fingerprint record +:+ ", which " +:+
            Describe (tr_may_approve record) (tr_may_request record)));
      _ ← notifyPairing (pg_session_id pending) (pairingCompleted record);
      _ ← emit Reconciled;
      mret (Ok record)
    end
  end.

Definition advance (pending : PendingPairing) (reason : string) (answeredHere : bool)
    : state node (PairingRecordState * option TrustRecord * option error) :=
  let ours := pg_our_answer pending in
  let theirs := pg_their_answer pending in
  if refusal ours || refusal theirs
  then
    _ ← dropPending pending (refusalMessage ours theirs reason) reason;
    mret (RECORD_STATE_GONE, None, None)
  else if bool_decide (ours = ANSWER_ACCEPTED) && bool_decide (theirs = ANSWER_ACCEPTED)
  then
    r ← completePending pending;
    match r with
    | Err e => mret (RECORD_STATE_PENDING, None, Some e)
    | Ok record => mret (RECORD_STATE_PAIRED, Some record, None)
    end
  else
    err ← trust (PutPendingPairing pending);
    match err with
    | Some e => mret (RECORD_STATE_PENDING, None, Some (wrap_w "update the pending pairing: " e emp))
    | None =>
      _ ← when answeredHere (notifyPairing (pg_session_id pending)
            (pairingAnswered "waiting for the other side"));
      mret (RECORD_STATE_PENDING, None, None)
    end.

(** The state, the entry as it was answered, and the record it may have become. *)
Definition answerPending (ref : string) (answer : PairingAnswer) (reason : string)
    : state node (PairingRecordState * option PendingPairing * option TrustRecord * option error) :=
  found ← trust (PendingPairing_ ref);
  match found with
  | None =>
    mret (RECORD_STATE_GONE, None, None, Some (wrap_w emp ErrNoPendingPairing (": " +:+ ref)))
  | Some pending =>
    if bool_decide (pg_our_answer pending <> ANSWER_UNSPECIFIED)
    then mret (RECORD_STATE_PENDING, Some pending, None, Some ErrPairingAnswered)
    else
      now ← Now;
      let pending := set_our_answer answer (Some now) pending in
      '(st, record, err) ← advance pending reason true;
      match err with
      | Some e => mret (st, None, None, Some e)
      | None => mret (st, Some pending, record, None)
      end
  end.

(** The part of [AnswerPending] that happens here; telling the peer follows. *)
Definition AnswerPending (ref : string) (accepted : bool) (reason : string) :=
  answerPending ref (if accepted then ANSWER_ACCEPTED else ANSWER_DECLINED) reason.

(** The part of [Withdraw] under the mutex; [tellPeer] follows. *)
Definition Withdraw (ref reason : string) : state node (result PendingPairing) :=
  found ← trust (PendingPairing_ ref);
  match found with
  | None => mret (Err (wrap_w emp ErrNoPendingPairing (": " +:+ ref)))
  | Some pending =>
    now ← Now;
    let pending := set_our_answer ANSWER_WITHDRAWN (Some now) pending in
    _ ← dropPending pending (refusalMessage ANSWER_WITHDRAWN ANSWER_UNSPECIFIED reason) reason;
    mret (Ok pending)
  end.

(** What [tellPeer] and [deliverRefusals] do once the call has been answered,
    whatever the answer was. *)
Definition told (session : string) : state node unit := releaseRefusal session.

(** ** The two ends of [SettlePairing] *)

Inductive settle_error := PermissionDenied (e : error) | Internal (e : error).

Definition settleAgainst (pending : PendingPairing) (msg : SettlePairingRequest)
    : state node (SettlePairingResponse + settle_error) :=
  let ours := pg_our_answer pending in
  let pending :=
    if bool_decide (sq_answer msg <> ANSWER_UNSPECIFIED) then set_their_answer (sq_answer msg) pending
    else pending in
  '(st, _, err) ← advance pending (sq_reason msg) false;
  match err with
  | Some e => mret (inr (Internal e))
  | None => mret (inl (mk_SettlePairingResponse st ours emp))
  end.

(** A session that is not pending here: completed, refused, or unknown. *)
Definition settle_finished (fingerprint session : string)
    : state node (SettlePairingResponse + settle_error) :=
  record ← trust (Peer fingerprint);
  if (match record with Some r => bool_decide (tr_pairing_session_id r = session) | None => false end)
     && bool_decide (session <> emp)
  then mret (inl (mk_SettlePairingResponse RECORD_STATE_PAIRED ANSWER_ACCEPTED "already paired here"))
  else
    held ← answerHeldRefusal fingerprint session;
    match held with
    | Some resp => mret (inl resp)
    | None => mret (inl (mk_SettlePairingResponse RECORD_STATE_GONE ANSWER_UNSPECIFIED
                "this instance has no record of that pairing"))
    end.

Definition settlePairingReply (fingerprint : string) (msg : SettlePairingRequest)
    : state node (SettlePairingResponse + settle_error) :=
  let session := sq_session_id msg in
  found ← trust (PendingPairing_ session);
  match found with
  | Some pending =>
    if bool_decide (pg_session_id pending <> session) then settle_finished fingerprint session
    else if bool_decide (pg_fingerprint pending <> fingerprint)
    then mret (inr (PermissionDenied (errors_New "that pairing belongs to another identity")))
    else settleAgainst pending msg
  | None => settle_finished fingerprint session
  end.

(** The request [callSettle] sends for a pending pairing. *)
Definition settle_request (pending : PendingPairing) (reason : string) : SettlePairingRequest :=
  mk_SettlePairingRequest (pg_session_id pending) (pg_our_answer pending) reason.

Definition applySettlement (session : string) (resp : SettlePairingResponse)
    : state node (option error) :=
  found ← trust (PendingPairing_ session);
  match found with
  | None => mret None
  | Some pending =>
    if bool_decide (pg_session_id pending <> session) then mret None
    else
      let answer := sp_answer resp in
      let go_on pending :=
        '(_, _, err) ← advance pending (sp_reason resp) false; mret err in
      match sp_state resp with
      | RECORD_STATE_PAIRED => go_on (set_their_answer ANSWER_ACCEPTED pending)
      | RECORD_STATE_GONE =>
        let pending' := if refusal answer then set_their_answer answer pending else pending in
        let message :=
          (if refusal answer then refusalMessage (pg_our_answer pending) answer (sp_reason resp)
           else "the other side has no record of this pairing")%string in
        _ ← dropPending pending' message emp;
        mret None
      | RECORD_STATE_PENDING | RECORD_STATE_UNSPECIFIED =>
        go_on (if bool_decide (answer <> ANSWER_UNSPECIFIED) then set_their_answer answer pending
               else pending)
      end
  end.

(** ** The loop *)

(** Whether a pairing is taken to its peer now. *)
Definition shouldSettle (pending : PendingPairing) : state node bool :=
  n ← gets id;
  if negb (PendingDialable pending (tunnelVersion n)) then mret false
  else
    recent ← (match n_attempted n !! pg_session_id pending with
              | Some last => now ← Now; mret (Sub now last <? n_retry n)
              | None => mret false
              end);
    if (recent : bool) then mret false
    else
      at_ ← Now;
      _ ← modify (set_attempted (<[pg_session_id pending := at_]> (n_attempted n)));
      mret true.

(** The refusals [deliverRefusals] would take to their peers. *)
Definition undelivered (n : node) : list heldRefusal :=
  List.filter (fun h => negb (hr_heard h)) (map snd (map_to_list (n_refusals n))).

Definition noteConfirmation (session requestID : string) : state node (option error) :=
  found ← trust (PendingPairing_ session);
  match found with
  | None => mret None
  | Some pending => trust (PutPendingPairing (set_confirmation_request requestID pending))
  end.

(** What [runPrompt] does with the engine's response: only a person's answer
    is one. *)
Definition promptAnswered (session : string) (by_user accepted : bool) (reason : string)
    : state node unit :=
  _ ← (if by_user then _ ← AnswerPending session accepted reason; mret tt else mret tt);
  prompts ← gets n_prompts;
  modify (set_prompts (prompts ∖ {[ session ]})).

(** ** Who is let in *)

Definition errNotPaired : error := sentinel "peer.errNotPaired" "peer: not paired".

Definition pending_of (n : node) (fingerprint : string) : option PendingPairing :=
  match fst (PendingPairing_ fingerprint (n_store n)) with
  | Some pending => if bool_decide (pg_fingerprint pending = fingerprint) then Some pending else None
  | None => None
  end.

(** [gate]: the bound listener's door; [window] is whether a pairing window is
    open. *)
Definition gate (n : node) (window : bool) (fingerprint : string) : option error :=
  match fst (Peer fingerprint (n_store n)) with
  | Some _ => None
  | None =>
    if window then None
    else
      match pending_of n fingerprint, heldRefusalOf n fingerprint with
      | Some _, _ | _, Some _ => None
      | None, None => Some (wrap_w emp errNotPaired (": " +:+ fingerprint +:+
                        " is not paired and no pairing is in progress"))
      end
  end.

Definition gate_matches (name : string) (o : option TunnelOffer) (clientKey : bytes) : option error :=
  match admissible o with
  | Some held =>
    if bool_decide (clientKey = []) || bool_decide (held <> clientKey)
    then Some (wrap_w emp errNotPaired (": " +:+ quote name +:+
                 " came through the tunnel with a client key it has not offered"))
    else None
  | None => Some (wrap_w emp errNotPaired (": " +:+ quote name +:+
                 " came through the tunnel with a client key it has not offered"))
  end.

(** [tunnelGate.Admit] and [tunnelGate.Permit]. *)
Definition Admit (n : node) (fingerprint : string) (clientKey : bytes) : option error :=
  match fst (Peer fingerprint (n_store n)) with
  | Some record => gate_matches (tr_name record) (tr_tunnel record) clientKey
  | None =>
    match pending_of n fingerprint with
    | Some pending => gate_matches (pg_name pending) (pg_tunnel pending) clientKey
    | None =>
      match heldRefusalOf n fingerprint with
      | Some held =>
        gate_matches (pg_name (hr_pending held)) (pg_tunnel (hr_pending held)) clientKey
      | None => Some (wrap_w emp errNotPaired (": " +:+ fingerprint +:+
                        " is not paired, and the tunnel does not pair"))
      end
    end
  end.

Definition PairingServiceName : string := "ladulas.v1.PairingService".
Definition settleProcedure : string := "/ladulas.v1.PairingService/SettlePairing".

Definition Permit (n : node) (fingerprint procedure : string) : option error :=
  if HasPrefix procedure ("/" +:+ PairingServiceName +:+ "/")
     && bool_decide (procedure <> settleProcedure)
  then Some (errors_New ("the tunnel listener does not pair; " +:+
               "pair on the local network or with the full code"))
  else
    match fst (Peer fingerprint (n_store n)) with
    | Some _ => None
    | None =>
      if bool_decide (procedure = settleProcedure) then None
      else Some (wrap_w emp errNotPaired (": a pairing that is still pending reaches only " +:+
                   "SettlePairing through the tunnel"))
    end.

(** ** Runs of one node

    Everything that can reach the state of a pairing, in any order: entries
    written down with no answer on them, answers and withdrawals of the user,
    calls of any identity, answers to this node's own calls, and timers. *)

Inductive settle_op :=
| SRecord (pending : PendingPairing)
| SOffer (o : option TunnelOffer)
| SAnswer (ref : string) (accepted : bool) (reason : string)
| SPrompt (session : string) (by_user accepted : bool) (reason : string)
| SWithdraw (ref reason : string)
| STold (session : string)
| SReply (fingerprint : string) (msg : SettlePairingRequest)
| SApply (session : string) (resp : SettlePairingResponse)
| SNote (session requestID : string)
| SPace (pending : PendingPairing)
| SFire (t : timer).

Definition settle_step (op : settle_op) (n : node) : node :=
  match op with
  | SRecord pending => (recordPending pending n).2
  | SOffer o => (pendingOffer o n).2
  | SAnswer ref accepted reason => (AnswerPending ref accepted reason n).2
  | SPrompt session by_user accepted reason => (promptAnswered session by_user accepted reason n).2
  | SWithdraw ref reason => (Withdraw ref reason n).2
  | STold session => (told session n).2
  | SReply fingerprint msg => (settlePairingReply fingerprint msg n).2
  | SApply session resp => (applySettlement session resp n).2
  | SNote session requestID => (noteConfirmation session requestID n).2
  | SPace pending => (shouldSettle pending n).2
  | SFire t => (fire t n).2
  end.

(** What was written down, what the user here said and what the peer said,
    each about a session with an identity. *)
Inductive consent :=
| Recorded (pending : PendingPairing)
| Said (session fingerprint : string) (answer : PairingAnswer)
| Heard (session fingerprint : string) (answer : PairingAnswer).

Definition lookup_pending (ref : string) (n : node) : option PendingPairing :=
  fst (PendingPairing_ ref (n_store n)).

(** The user's word about an entry; a second answer is not taken. *)
Definition said (ref : string) (answer : PairingAnswer) (n : node) : list consent :=
  match lookup_pending ref n with
  | Some p =>
    if bool_decide (pg_our_answer p = ANSWER_UNSPECIFIED) || bool_decide (answer = ANSWER_WITHDRAWN)
    then [Said (pg_session_id p) (pg_fingerprint p) answer] else []
  | None => []
  end.

Definition heard (session : string) (answer : PairingAnswer) (n : node) : list consent :=
  match lookup_pending session n with
  | Some p =>
    if bool_decide (pg_session_id p = session) then [Heard session (pg_fingerprint p) answer] else []
  | None => []
  end.

Definition answer_of (accepted : bool) : PairingAnswer :=
  if accepted then ANSWER_ACCEPTED else ANSWER_DECLINED.

(** What a response says the peer decided. *)
Definition response_answer (resp : SettlePairingResponse) : PairingAnswer :=
  match sp_state resp with RECORD_STATE_PAIRED => ANSWER_ACCEPTED | _ => sp_answer resp end.

(** What an operation adds to the history.  A call counts as the word of the
    identity its entry is filed under, which is the caller's ([settlePairingReply]
    refuses any other). *)
Definition consents (op : settle_op) (n : node) : list consent :=
  match op with
  | SRecord pending => [Recorded pending]
  | SAnswer ref accepted _ => said ref (answer_of accepted) n
  | SPrompt session true accepted _ => said session (answer_of accepted) n
  | SWithdraw ref _ => said ref ANSWER_WITHDRAWN n
  | SReply fingerprint msg =>
    match lookup_pending (sq_session_id msg) n with
    | Some p =>
      if bool_decide (pg_fingerprint p = fingerprint) then heard (sq_session_id msg) (sq_answer msg) n
      else []
    | None => []
    end
  | SApply session resp => heard session (response_answer resp) n
  | _ => []
  end.

(** An entry is written down with nobody's answer on it. *)
Definition admissible_op (op : settle_op) : Prop :=
  match op with
  | SRecord p => pg_our_answer p = ANSWER_UNSPECIFIED /\ pg_their_answer p = ANSWER_UNSPECIFIED
  | _ => True
  end.

Fixpoint settle_run (ops : list settle_op) (n : node) (history : list consent)
    : node * list consent :=
  match ops with
  | [] => (n, history)
  | op :: ops' => settle_run ops' (settle_step op n) (history ++ consents op n)
  end.

(** An entry without what changes about it. *)
Definition base (p : PendingPairing) : PendingPairing :=
  set_confirmation_request emp (set_their_answer ANSWER_UNSPECIFIED
    (set_our_answer ANSWER_UNSPECIFIED None p)).

Definition founded (h : list consent) (p : PendingPairing) : Prop :=
  (exists p0, Recorded p0 ∈ h /\ base p0 = base p) /\
  (pg_our_answer p <> ANSWER_UNSPECIFIED ->
     Said (pg_session_id p) (pg_fingerprint p) (pg_our_answer p) ∈ h) /\
  (pg_their_answer p <> ANSWER_UNSPECIFIED ->
     Heard (pg_session_id p) (pg_fingerprint p) (pg_their_answer p) ∈ h).

(** A record is what the entry it came from says. *)
Definition record_of (p : PendingPairing) (key : PublicKey) (r : TrustRecord) : Prop :=
  ParsePublicKey (pg_identity_public_key p) = Ok key /\
  tr_fingerprint r = FingerprintSHA256 key /\ tr_identity_public_key r = ssh_Marshal key /\
  tr_name r = pg_name p /\ tr_addresses r = pg_addresses p /\
  tr_may_approve r = pg_may_approve p /\ tr_may_request r = pg_may_request p /\
  tr_we_initiated r = pg_we_dialled p /\ tr_pairing_session_id r = pg_session_id p /\
  tr_tunnel r = pg_tunnel p /\ tr_allowed_key_fingerprints r = [] /\ tr_may_use_all_keys r = false.

Definition consented (h : list consent) (r : TrustRecord) : Prop :=
  exists p key, Recorded p ∈ h /\
    Said (pg_session_id p) (pg_fingerprint p) ANSWER_ACCEPTED ∈ h /\
    Heard (pg_session_id p) (pg_fingerprint p) ANSWER_ACCEPTED ∈ h /\ record_of p key r.

(** *** What an operation does to the store *)

Section Safe.
Context (h : list consent) (before : list TrustRecord).

Record founded_node (n : node) : Prop := mk_founded_node {
  fn_pending : Forall (founded h) (sd_pending (n_store n));
  fn_peers : Forall (fun r => r ∈ before \/ consented h r) (sd_peers (n_store n))
}.

Definition safe {A} (m : state node A) : Prop := forall n, founded_node n -> founded_node (m n).2.

Lemma safe_ret {A} (a : A) : safe (mret a).
Proof. by intros n. Qed.

Lemma safe_bind {A B} (m : state node A) (f : A -> state node B) :
  safe m -> (forall a, safe (f a)) -> safe (m ≫= f).
Proof. intros Hm Hf n Hn. rewrite state_bind_unfold. by apply Hf, Hm. Qed.

Lemma safe_same {A} (m : state node A) : (forall n, n_store (m n).2 = n_store n) -> safe m.
Proof. intros Hs n [Hp Hr]. constructor; by rewrite Hs. Qed.

Lemma safe_modify f : (forall n, n_store (f n) = n_store n) -> safe (modify f).
Proof. intros Hf. apply safe_same. intros n. apply Hf. Qed.

Lemma safe_gets {A} (f : node -> A) : safe (gets f).
Proof. by apply safe_same. Qed.

Lemma safe_Now : safe Now.
Proof. by apply safe_same. Qed.

Lemma safe_trust {A} (m : state store A) :
  (forall s, Forall (founded h) (sd_pending s) -> Forall (founded h) (sd_pending (m s).2)) ->
  (forall s, Forall (fun r => r ∈ before \/ consented h r) (sd_peers s) ->
     Forall (fun r => r ∈ before \/ consented h r) (sd_peers (m s).2)) -> safe (trust m).
Proof.
  intros Hp Hr n [Hn1 Hn2]. unfold trust. pose proof (Hp (n_store n) Hn1). pose proof (Hr (n_store n) Hn2).
  destruct (m (n_store n)) as [a s]. by constructor.
Qed.

Lemma PutPendingPairing_elem p s :
  sd_peers (PutPendingPairing p s).2 = sd_peers s /\
  forall x, x ∈ sd_pending (PutPendingPairing p s).2 -> x ∈ sd_pending s \/ x = p.
Proof.
  unfold PutPendingPairing. case_bool_decide; [by auto|]. case_bool_decide; [by auto|]. run_state.
  split; [done|]. intros x Hx. destruct (boundPairings_perm (List.filter
    (fun e => negb (same_pairing p e)) (sd_pending s) ++ [p])) as [dropped Hp].
  assert (x ∈ List.filter (fun e => negb (same_pairing p e)) (sd_pending s) ++ [p]) as Hin.
  { rewrite <- Hp. apply elem_of_app. by left. }
  apply elem_of_app in Hin as [Hin|Hin%list_elem_of_singleton]; [left|by right].
  eapply elem_of_sublist; [exact Hin|apply filter_sublist].
Qed.

Lemma RemovePendingPairing_elem ref s :
  sd_peers (RemovePendingPairing ref s).2 = sd_peers s /\
  sublist (sd_pending (RemovePendingPairing ref s).2) (sd_pending s).
Proof.
  unfold RemovePendingPairing. run_state.
  pose proof (remove_first_sublist (matchesPairing ref) (sd_pending s)).
  destruct (remove_first _ _) as [[r|] kept]; [|done]. by destruct (sd_disk s (sd_writes s)).
Qed.

Lemma PutPeer_elem r s :
  sd_pending (PutPeer r s).2 = sd_pending s /\
  forall x, x ∈ sd_peers (PutPeer r s).2 -> x ∈ sd_peers s \/ x = r.
Proof.
  unfold PutPeer. case_bool_decide; [by auto|]. run_state. split; [done|]. intros x.
  unfold replace_peer. destruct (list_find _ _) as [[i y]|] eqn:E.
  - intros [j Hj]%list_elem_of_lookup. apply list_lookup_insert_Some in Hj as [(_ & -> & _)|[_ Hj]];
      [by right|left]. apply list_elem_of_lookup. by exists j.
  - intros [Hx|Hx%list_elem_of_singleton]%elem_of_app; [by left|by right].
Qed.

Lemma safe_put p : founded h p -> safe (trust (PutPendingPairing p)).
Proof.
  intros Hp. apply safe_trust; intros s Hs; destruct (PutPendingPairing_elem p s) as [Hr Hx].
  - apply Forall_forall. intros x [Hin| ->]%Hx; [|done]. by eapply Forall_forall in Hs.
  - by rewrite Hr.
Qed.

Lemma safe_remove ref : safe (trust (RemovePendingPairing ref)).
Proof.
  apply safe_trust; intros s Hs; destruct (RemovePendingPairing_elem ref s) as [Hr Hx].
  - by eapply Forall_sublist_of.
  - by rewrite Hr.
Qed.

Lemma safe_put_peer r : consented h r -> safe (trust (PutPeer r)).
Proof.
  intros Hc. apply safe_trust; intros s Hs; destruct (PutPeer_elem r s) as [Hr Hx].
  - by rewrite Hr.
  - apply Forall_forall. intros x [Hin| ->]%Hx; [|by right]. by eapply Forall_forall in Hs.
Qed.

Hint Resolve safe_ret safe_gets safe_Now safe_remove : safe.
Hint Extern 1 (safe (modify _)) => apply safe_modify; done : safe.
Hint Extern 1 (safe (emit _)) => apply safe_modify; done : safe.

(** Blocks that only follow what is already known to be safe. *)
Ltac safely :=
  repeat first
    [ progress eauto 2 with safe nocore
    | apply safe_bind; [|intros]
    | progress unfold when, notifyPairing
    | case_match ].

Lemma safe_revokeUnheld key : safe (revokeUnheld key).
Proof. unfold revokeUnheld, revokeKey, change_allowed. safely. Qed.

Lemma safe_cancelPrompt session : safe (cancelPrompt session).
Proof. unfold cancelPrompt. safely. Qed.

Lemma safe_forget p : safe (forgetPendingTunnel p).
Proof. unfold forgetPendingTunnel. safely. Qed.

Hint Resolve safe_revokeUnheld safe_cancelPrompt safe_forget : safe.

Lemma safe_holdRefusal p reason : safe (holdRefusal p reason).
Proof. unfold holdRefusal. safely. Qed.

Hint Resolve safe_holdRefusal : safe.

Lemma safe_dropPending p message reason : safe (dropPending p message reason).
Proof. unfold dropPending. safely. Qed.

Lemma safe_raisePrompt p : safe (raisePrompt p).
Proof. unfold raisePrompt. safely. Qed.

Lemma safe_release session : safe (releaseRefusal session).
Proof. unfold releaseRefusal. safely. Qed.

Lemma safe_answerHeldRefusal fp session : safe (answerHeldRefusal fp session).
Proof. unfold answerHeldRefusal. safely. Qed.

Hint Resolve safe_dropPending safe_raisePrompt safe_release safe_answerHeldRefusal : safe.

Lemma base_founded p q : base p = base q ->
  pg_session_id p = pg_session_id q /\ pg_fingerprint p = pg_fingerprint q /\
  pg_name p = pg_name q /\ pg_identity_public_key p = pg_identity_public_key q /\
  pg_addresses p = pg_addresses q /\ pg_may_approve p = pg_may_approve q /\
  pg_may_request p = pg_may_request q /\ pg_we_dialled p = pg_we_dialled q /\
  pg_tunnel p = pg_tunnel q.
Proof. destruct p, q. unfold base. cbn. intros [=]. by subst. Qed.

Lemma completed_record_of p key n :
  ParsePublicKey (pg_identity_public_key p) = Ok key -> record_of p key (completed_record p key n).1.
Proof.
  intros Hk. unfold completed_record. run_state. destruct (pg_tunnel p) eqn:Et; cbn;
    by repeat split.
Qed.

Lemma record_of_base p q key r : base p = base q -> record_of q key r -> record_of p key r.
Proof.
  intros (Hs & Hf & Hn & Hi & Ha & Hm & Hr & Hw & Ht)%base_founded. unfold record_of.
  by rewrite Hs, Hn, Hi, Ha, Hm, Hr, Hw, Ht.
Qed.

Lemma safe_completePending p :
  founded h p -> pg_our_answer p = ANSWER_ACCEPTED -> pg_their_answer p = ANSWER_ACCEPTED ->
  safe (completePending p).
Proof.
  intros ((p0 & Hp0 & Hb) & Hs & Hh) Ho Ht. unfold completePending.
  destruct (ParsePublicKey _) as [key|] eqn:Hk; [|safely].
  intros n Hn. rewrite state_bind_unfold.
  assert (consented h (completed_record p key n).1) as Hc.
  { exists p0, key. pose proof (base_founded _ _ Hb) as (Hse & Hfp & _). rewrite Hse, Hfp.
    split_and!; [done| | |eapply record_of_base; [exact Hb|by apply completed_record_of]].
    - rewrite <- Ho. apply Hs. by rewrite Ho.
    - rewrite <- Ht. apply Hh. by rewrite Ht. }
  assert (safe (completed_record p key)) as Hcr by (unfold completed_record; safely).
  set (record := (completed_record p key n).1) in *.
  enough (safe (err ← trust (PutPeer record);
    match err with
    | Some e => mret (Err (wrap_w "store the trust record: " e emp))
    | None => _ ← trust (RemovePendingPairing (pg_session_id p));
      _ ← cancelPrompt (pg_session_id p);
      _ ← emit (Lifecycle ("paired with " +:+ quote (tr_name record) +:+ ", " +:+
            tr_fingerprint record +:+ ", which " +:+
            Describe (tr_may_approve record) (tr_may_request record)));
      _ ← notifyPairing (pg_session_id p) (pairingCompleted record);
      _ ← emit Reconciled;
      mret (Ok record)
    end)) as Hsafe by (apply Hsafe, Hcr, Hn).
  apply safe_bind; [by apply safe_put_peer|]. intros err. safely.
Qed.

Lemma safe_advance p reason here : founded h p -> safe (advance p reason here).
Proof.
  intros Hp. unfold advance. destruct (_ || _); [safely|].
  destruct (_ && _) eqn:E; bool_prop.
  - apply safe_bind; [by apply safe_completePending|]. intros r. safely.
  - apply safe_bind; [by apply safe_put|]. intros err. safely.
Qed.

End Safe.

Lemma founded_mono h h' p : h ⊆ h' -> founded h p -> founded h' p.
Proof. intros Hh ((p0 & Hp & Hb) & Hs & He). unfold founded. split_and!; eauto. Qed.

Lemma founded_node_mono h h' before n : h ⊆ h' -> founded_node h before n -> founded_node h' before n.
Proof.
  intros Hh [Hp Hr]. constructor.
  - eapply Forall_impl; [exact Hp|]. intros p. by apply founded_mono.
  - eapply Forall_impl; [exact Hr|]. intros r [?|(p & key & H1 & H2 & H3 & H4)]; [by left|right].
    exists p, key. split_and!; auto.
Qed.

Lemma lookup_pending_founded h before ref n p :
  founded_node h before n -> lookup_pending ref n = Some p -> p ∈ sd_pending (n_store n) /\ founded h p.
Proof.
  intros [Hp _] Hl. unfold lookup_pending, PendingPairing_, gets in Hl. cbn in Hl.
  apply find_first_elem in Hl as [Hin _]. split; [done|]. by eapply Forall_forall in Hp.
Qed.

Lemma founded_our h answer at_ p :
  founded h p -> Said (pg_session_id p) (pg_fingerprint p) answer ∈ h ->
  founded h (set_our_answer answer at_ p).
Proof. intros (Hb & Hs & He) Hin. by split_and!. Qed.

Lemma founded_their h answer p :
  founded h p -> Heard (pg_session_id p) (pg_fingerprint p) answer ∈ h ->
  founded h (set_their_answer answer p).
Proof. intros (Hb & Hs & He) Hin. by split_and!. Qed.

(** The entry an operation works on is the one its history line is about. *)
Lemma with_found {A} h before ref (f : option PendingPairing -> state node A) n :
  founded_node h before n ->
  (forall p, lookup_pending ref n = Some p -> founded h p -> safe h before (f (Some p))) ->
  safe h before (f None) ->
  founded_node h before ((found ← trust (PendingPairing_ ref); f found) n).2.
Proof.
  intros Hn Hs Hnone. rewrite state_bind_unfold.
  assert ((trust (PendingPairing_ ref) n).2 = n) as -> by (by destruct n).
  change (trust (PendingPairing_ ref) n).1 with (lookup_pending ref n).
  destruct (lookup_pending ref n) as [p|] eqn:E; [|by apply Hnone].
  apply Hs; [done| |done]. by eapply lookup_pending_founded in E as [_ ?].
Qed.

Lemma answer_safe h before ref answer reason n :
  founded_node h before n -> said ref answer n ⊆ h ->
  founded_node h before (answerPending ref answer reason n).2.
Proof.
  intros Hn Hs. unfold answerPending. apply with_found; [done| |apply safe_ret].
  intros p Hp Hf. unfold said in Hs. rewrite Hp in Hs.
  destruct (decide (pg_our_answer p = ANSWER_UNSPECIFIED)) as [Ha|Ha];
    [rewrite bool_decide_eq_false_2 by auto|rewrite bool_decide_eq_true_2 by done; apply safe_ret].
  rewrite Ha in Hs. cbn in Hs.
  apply safe_bind; [apply safe_Now|]. intros now.
  apply safe_bind; [|intros [[st record] [e|]]; apply safe_ret].
  apply safe_advance, founded_our; [done|]. apply Hs. by left.
Qed.

Lemma heard_in h session answer n p :
  heard session answer n ⊆ h -> lookup_pending session n = Some p -> pg_session_id p = session ->
  Heard (pg_session_id p) (pg_fingerprint p) answer ∈ h.
Proof.
  unfold heard. intros Hh Hl Hs. rewrite Hl, bool_decide_eq_true_2 in Hh by done. rewrite Hs.
  apply Hh. by left.
Qed.

Lemma settleAgainst_safe h before p msg :
  founded h p -> (sq_answer msg <> ANSWER_UNSPECIFIED ->
    Heard (pg_session_id p) (pg_fingerprint p) (sq_answer msg) ∈ h) ->
  safe h before (settleAgainst p msg).
Proof.
  intros Hp Hh. unfold settleAgainst.
  apply safe_bind; [|intros [[st record] [e|]]; apply safe_ret].
  apply safe_advance. case_bool_decide; [|done]. by apply founded_their; [|apply Hh].
Qed.

Lemma settle_finished_safe h before fp session : safe h before (settle_finished fp session).
Proof.
  unfold settle_finished. apply safe_bind; [by apply safe_same; intros []|]. intros record.
  case_match; [apply safe_ret|]. apply safe_bind; [apply safe_answerHeldRefusal|].
  intros [resp|]; apply safe_ret.
Qed.

Lemma settle_step_safe h before op n :
  admissible_op op -> founded_node h before n -> consents op n ⊆ h ->
  founded_node h before (settle_step op n).
Proof.
  intros Hop Hn Hc. destruct op; cbn [settle_step consents admissible_op] in *.
  - revert n Hn Hc. intros n Hn Hc. unfold recordPending.
    assert (founded h pending) as Hf.
    { destruct Hop as [Ho Ht]. unfold founded. rewrite Ho, Ht. split_and!; try done.
      exists pending. split; [apply Hc; by left|done]. }
    revert n Hn Hc. intros n Hn _. revert n Hn. apply safe_bind; [by apply safe_put|].
    intros [e|]; [apply safe_ret|]. apply safe_bind; [apply safe_raisePrompt|]. intros _.
    apply safe_bind; [by apply safe_modify|]. intros _. apply safe_ret.
  - revert n Hn Hc. intros n Hn _. revert n Hn. unfold pendingOffer, admitKey, change_allowed.
    apply safe_bind; [apply safe_gets|]. intros w. case_match; [apply safe_ret|].
    apply safe_bind; [|intros; apply safe_ret]. repeat case_match; try apply safe_ret.
    apply safe_bind; [apply safe_gets|]. intros [t|]; [by apply safe_modify|apply safe_ret].
  - by apply answer_safe.
  - assert (safe h before (prompts ← gets n_prompts; modify (set_prompts (prompts ∖ {[session]}))))
      as Hrest by (apply safe_bind; [apply safe_gets|intros; by apply safe_modify]).
    unfold promptAnswered. rewrite state_bind_unfold. apply Hrest. destruct by_user; [|done].
    rewrite state_bind_unfold. by apply answer_safe.
  - unfold Withdraw. apply with_found; [done| |apply safe_ret]. intros p Hp Hf.
    apply safe_bind; [apply safe_Now|]. intros now. apply safe_bind; [apply safe_dropPending|].
    intros _. apply safe_ret.
  - by apply safe_release.
  - unfold settlePairingReply. apply with_found; [done| |apply settle_finished_safe].
    intros p Hp Hf. rewrite Hp in Hc.
    destruct (decide (pg_session_id p = sq_session_id msg)) as [Hs|Hs];
      [rewrite bool_decide_eq_false_2 by auto
      |rewrite bool_decide_eq_true_2 by done; apply settle_finished_safe].
    destruct (decide (pg_fingerprint p = fingerprint)) as [Hfp|Hfp];
      [rewrite bool_decide_eq_false_2 by auto|rewrite bool_decide_eq_true_2 by done; apply safe_ret].
    rewrite bool_decide_eq_true_2 in Hc by done. apply settleAgainst_safe; [done|]. intros _.
    by eapply heard_in.
  - unfold applySettlement. apply with_found; [done| |apply safe_ret]. intros p Hp Hf.
    destruct (decide (pg_session_id p = session)) as [Hs|Hs];
      [rewrite bool_decide_eq_false_2 by auto|rewrite bool_decide_eq_true_2 by done; apply safe_ret].
    pose proof (heard_in _ _ _ _ _ Hc Hp Hs) as Hh. unfold response_answer in Hh.
    assert (forall q, founded h q -> safe h before ('(_, _, err) ← advance q (sp_reason resp) false;
      mret err)) as Hgo.
    { intros q Hq. apply safe_bind; [by apply safe_advance|]. intros [[st r] e]. apply safe_ret. }
    destruct (sp_state resp).
    1,2: apply Hgo; case_bool_decide; [by apply founded_their|done].
    + apply Hgo. by apply founded_their.
    + apply safe_bind; [apply safe_dropPending|]. intros _. apply safe_ret.
  - unfold noteConfirmation. apply with_found; [done| |apply safe_ret]. intros p Hp Hf.
    apply safe_put. destruct Hf as ((p0 & Hin & Hb) & Hs & He). unfold founded. split_and!; [|done..].
    by exists p0.
  - revert n Hn Hc. intros n Hn _. revert n Hn. unfold shouldSettle.
    apply safe_bind; [apply safe_gets|]. intros n. case_match; [apply safe_ret|].
    apply safe_bind; [case_match; [apply safe_bind; [apply safe_Now|intros; apply safe_ret]|apply safe_ret]|].
    intros [|]; [apply safe_ret|]. apply safe_bind; [apply safe_Now|]. intros t.
    apply safe_bind; [by apply safe_modify|]. intros _. apply safe_ret.
  - destruct t; cbn [fire]; [by apply safe_release|by apply safe_revokeUnheld].
Qed.

(** C20. However a node is driven -- whatever identities call, whatever
    its own calls are answered, in whatever order -- a trust record that was
    not there before comes from a pairing written down here that the user of
    this node accepted and that the identity it is with accepted; and what the
    record says of that identity, its name, its addresses and above all which
    way either may ask, is what was written down when the code was proved. *)
Theorem no_pairing_without_consent ops n :
  sd_pending (n_store n) = [] -> Forall admissible_op ops ->
  let '(n', history) := settle_run ops n [] in
  forall r, r ∈ sd_peers (n_store n') -> r ∈ sd_peers (n_store n) \/ consented history r.
Proof.
  intros Hp Hops.
  assert (founded_node [] (sd_peers (n_store n)) n) as Hn.
  { constructor; [by rewrite Hp; constructor|]. apply Forall_forall. auto. }
  clear Hp. revert Hn. generalize (sd_peers (n_store n)). intros before. revert n.
  generalize (@nil consent).
  induction Hops as [|op ops Hop Hops IH]; intros h n Hn; cbn [settle_run].
  { intros r Hr. destruct Hn as [_ Hn]. by eapply Forall_forall in Hn. }
  apply IH. apply settle_step_safe; [done| |set_solver].
  eapply founded_node_mono; [|exact Hn]. set_solver.
Qed.

(** ** Two nodes *)

Definition saves (n : node) : Prop := forall k, sd_disk (n_store n) k = None.

(** [n] holds [p] for [session], accepted here and with an identity key that
    reads as [key]. *)
Definition waiting (session : string) (p : PendingPairing) (key : PublicKey) (n : node) : Prop :=
  lookup_pending session n = Some p /\ pg_session_id p = session /\
  pg_our_answer p = ANSWER_ACCEPTED /\ ParsePublicKey (pg_identity_public_key p) = Ok key /\
  FingerprintSHA256 key <> emp.

(** [n] has completed [session] with the identity [fingerprint]. *)
Definition completed (session fingerprint : string) (n : node) : Prop :=
  lookup_pending session n = None /\ session <> emp /\
  exists r, fst (Peer fingerprint (n_store n)) = Some r /\ tr_pairing_session_id r = session.

Lemma cancelPrompt_store session n : n_store (cancelPrompt session n).2 = n_store n.
Proof. unfold cancelPrompt. run_state. by destruct (bool_decide _). Qed.

Lemma PutPeer_saved r s :
  tr_fingerprint r <> emp -> (forall k, sd_disk s k = None) ->
  (PutPeer r s).1 = None /\ r ∈ sd_peers (PutPeer r s).2.
Proof.
  intros Hr Hs. unfold PutPeer. rewrite bool_decide_eq_false_2 by done. run_state. split; [done|].
  unfold replace_peer. destruct (list_find _ _) as [[i y]|] eqn:E.
  - apply list_find_Some in E as (Hi & _ & _). apply list_elem_of_lookup. exists i.
    apply list_lookup_insert_eq. by apply lookup_lt_Some in Hi.
  - apply elem_of_app. right. apply list_elem_of_here.
Qed.

Lemma completePending_saved p key n :
  ParsePublicKey (pg_identity_public_key p) = Ok key -> FingerprintSHA256 key <> emp -> saves n ->
  exists r n', completePending p n = (Ok r, n') /\ record_of p key r /\
    n_store n' = (RemovePendingPairing (pg_session_id p) (PutPeer r (n_store n)).2).2.
Proof.
  intros Hk Hf Hs. unfold completePending. rewrite Hk.
  pose proof (completed_record_of p key n Hk) as Hr.
  assert (n_store (completed_record p key n).2 = n_store n) as Hst.
  { unfold completed_record. run_state. by destruct (pg_tunnel p). }
  rewrite state_bind_unfold. set (r := (completed_record p key n).1) in *.
  set (n1 := (completed_record p key n).2) in *. rewrite state_bind_unfold.
  assert (trust (PutPeer r) n1 = ((PutPeer r (n_store n)).1, set_store (PutPeer r (n_store n)).2 n1)) as ->.
  { unfold trust. rewrite Hst. by destruct (PutPeer r (n_store n)). }
  cbn [fst snd]. destruct (PutPeer_saved r (n_store n)) as [-> _].
  { destruct Hr as (_ & Hfp & _). by rewrite Hfp. } { exact Hs. }
  set (n2 := set_store _ n1). assert (n_store n2 = (PutPeer r (n_store n)).2) as H2 by done.
  assert (n_store (trust (RemovePendingPairing (pg_session_id p)) n2).2 =
    (RemovePendingPairing (pg_session_id p) (n_store n2)).2) as H3.
  { unfold trust. by destruct (RemovePendingPairing _ _). }
  rewrite state_bind_unfold. set (n3 := (trust _ n2).2) in *.
  pose proof (cancelPrompt_store (pg_session_id p) n3) as H4.
  rewrite state_bind_unfold. set (n4 := (cancelPrompt _ n3).2) in *.
  exists r. eexists. split; [reflexivity|]. split; [done|].
  cbn [n_store add_effect]. by rewrite H4, H3, H2.
Qed.

Lemma advance_accepted p key reason here n :
  pg_our_answer p = ANSWER_ACCEPTED -> pg_their_answer p = ANSWER_ACCEPTED ->
  ParsePublicKey (pg_identity_public_key p) = Ok key -> FingerprintSHA256 key <> emp -> saves n ->
  exists r n', advance p reason here n = ((RECORD_STATE_PAIRED, Some r, None), n') /\ record_of p key r /\
    n_store n' = (RemovePendingPairing (pg_session_id p) (PutPeer r (n_store n)).2).2.
Proof.
  intros Ho Ht Hk Hf Hs. destruct (completePending_saved p key n) as (r & n' & Hc & Hr & Hn); [done..|].
  exists r, n'. split; [|done]. unfold advance. rewrite Ho, Ht.
  change (refusal ANSWER_ACCEPTED) with false. rewrite !bool_decide_eq_true_2 by done.
  cbn [orb andb]. by rewrite state_bind_unfold, Hc.
Qed.

Lemma record_of_their p answer key r : record_of (set_their_answer answer p) key r -> record_of p key r.
Proof. done. Qed.

Lemma removed_first_gone ref s :
  NoDup (map pg_session_id (sd_pending s)) ->
  forall p, find_first (matchesPairing ref) (sd_pending s) = Some p ->
  (pg_session_id p) ∉ map pg_session_id (sd_pending (RemovePendingPairing ref s).2).
Proof.
  intros Hn p Hp. unfold RemovePendingPairing. run_state.
  pose proof (remove_first_gone _ pg_session_id _ _ Hp Hn) as Hg.
  pose proof (remove_first_find (matchesPairing ref) (sd_pending s)) as Hr. rewrite Hp in Hr.
  destruct (remove_first _ _) as [[q|] kept]; cbn in *; [|done]. by destruct (sd_disk s (sd_writes s)).
Qed.

(** Being told that the peer accepted, or has completed, completes it here. *)
Lemma applySettlement_paired session p key n resp :
  waiting session p key n -> saves n -> sp_state resp = RECORD_STATE_PAIRED ->
  exists r n', applySettlement session resp n = (None, n') /\ record_of p key r /\
    r ∈ sd_peers (n_store n') /\
    n_store n' = (RemovePendingPairing session (PutPeer r (n_store n)).2).2.
Proof.
  intros (Hl & Hse & Ho & Hk & Hf) Hs Hp. unfold applySettlement. rewrite state_bind_unfold.
  assert ((trust (PendingPairing_ session) n).2 = n) as -> by (by destruct n).
  change (trust (PendingPairing_ session) n).1 with (lookup_pending session n). rewrite Hl.
  rewrite bool_decide_eq_false_2 by auto. rewrite Hp.
  destruct (advance_accepted (set_their_answer ANSWER_ACCEPTED p) key (sp_reason resp) false n)
    as (r & n' & Ha & Hr & Hn); [done..|].
  exists r, n'. rewrite state_bind_unfold, Ha. split_and!; [done|by apply record_of_their in Hr| |].
  - rewrite Hn. destruct (RemovePendingPairing_elem (pg_session_id p) (PutPeer r (n_store n)).2) as [Hpe _].
    cbn [set_their_answer pg_session_id]. rewrite Hpe. apply PutPeer_saved; [|done].
    destruct Hr as (_ & Hfp & _). by rewrite Hfp.
  - rewrite Hn. cbn [set_their_answer pg_session_id]. by rewrite Hse.
Qed.

(** Nothing here is called like the session or like the identity of another. *)
Definition unmistaken (session fingerprint : string) (n : node) : Prop :=
  Forall (fun q => matchesPairing session q = true -> pg_session_id q = session)
    (sd_pending (n_store n)) /\
  Forall (fun r => tr_fingerprint r <> fingerprint -> EqualFold (tr_name r) fingerprint = false)
    (sd_peers (n_store n)).

Lemma completed_after_found session p key n r n' :
  lookup_pending session n = Some p -> pg_session_id p = session -> FingerprintSHA256 key <> emp -> record_of p key r -> saves n -> store_wf (n_store n) -> session <> emp ->
  unmistaken session (FingerprintSHA256 key) n ->
  n_store n' = (RemovePendingPairing session (PutPeer r (n_store n)).2).2 ->
  completed session (FingerprintSHA256 key) n'.
Proof.
  intros Hl Hse Hf Hr Hs Hwf Hne [Hq Hnames] Hn'.
  destruct (PutPeer_elem r (n_store n)) as [Hpend _].
  destruct (RemovePendingPairing_elem session (PutPeer r (n_store n)).2) as [Hpeers Hsub].
  rewrite Hpend in Hsub. pose proof Hr as (_ & Hfp & _ & _ & _ & _ & _ & _ & Hsess & _).
  split_and!; [|done|].
  - unfold lookup_pending, PendingPairing_, gets. cbn. rewrite Hn'. apply find_first_None, Forall_forall.
    intros q Hin. apply not_true_is_false. intros Hm.
    pose proof (elem_of_sublist _ _ _ Hin Hsub) as Hin'.
    assert (pg_session_id q = session) as Hqs.
    { rewrite Forall_forall in Hq. by apply Hq. }
    assert (pg_session_id p ∉ map pg_session_id
      (sd_pending (RemovePendingPairing session (PutPeer r (n_store n)).2).2)) as Hgone.
    { apply removed_first_gone; rewrite Hpend; [by apply wf_sessions|exact Hl]. }
    apply Hgone. rewrite Hse. apply list_elem_of_In, in_map_iff. exists q. split; [done|].
    by apply list_elem_of_In.
  - exists r. split; [|by rewrite Hsess]. rewrite Hn'. unfold Peer, gets. cbn. rewrite Hpeers.
    rewrite <- Hfp. apply (Peer_PutPeer r (n_store n)); [by rewrite Hfp|by rewrite Hfp].
Qed.

Lemma completed_after session p key n r n' :
  waiting session p key n -> record_of p key r -> saves n -> store_wf (n_store n) -> session <> emp ->
  unmistaken session (FingerprintSHA256 key) n ->
  n_store n' = (RemovePendingPairing session (PutPeer r (n_store n)).2).2 ->
  completed session (FingerprintSHA256 key) n'.
Proof. intros (Hl & Hse & _ & _ & Hf). by apply completed_after_found. Qed.

Lemma settlePairingReply_accepted session p key n msg :
  waiting session p key n -> saves n -> sq_session_id msg = session -> sq_answer msg = ANSWER_ACCEPTED ->
  exists resp r n', settlePairingReply (pg_fingerprint p) msg n = (inl resp, n') /\
    sp_state resp = RECORD_STATE_PAIRED /\ record_of p key r /\ r ∈ sd_peers (n_store n') /\
    n_store n' = (RemovePendingPairing session (PutPeer r (n_store n)).2).2.
Proof.
  intros (Hl & Hse & Ho & Hk & Hf) Hs Hm Hans. unfold settlePairingReply. rewrite state_bind_unfold, Hm.
  assert ((trust (PendingPairing_ session) n).2 = n) as -> by (by destruct n).
  change (trust (PendingPairing_ session) n).1 with (lookup_pending session n). rewrite Hl.
  rewrite !bool_decide_eq_false_2 by auto. unfold settleAgainst. rewrite Hans.
  rewrite bool_decide_eq_true_2 by done.
  destruct (advance_accepted (set_their_answer ANSWER_ACCEPTED p) key (sq_reason msg) false n)
    as (r & n' & Ha & Hr & Hn); [done..|].
  eexists _, r, n'. rewrite state_bind_unfold, Ha. split; [done|]. split_and!; [done|by apply record_of_their in Hr| |].
  - rewrite Hn. destruct (RemovePendingPairing_elem (pg_session_id p) (PutPeer r (n_store n)).2) as [Hpe _].
    cbn [set_their_answer pg_session_id]. rewrite Hpe. apply PutPeer_saved; [|done].
    destruct Hr as (_ & Hfp & _). by rewrite Hfp.
  - rewrite Hn. cbn [set_their_answer pg_session_id]. by rewrite Hse.
Qed.

Lemma settlePairingReply_completed session fingerprint n msg :
  completed session fingerprint n -> sq_session_id msg = session ->
  settlePairingReply fingerprint msg n =
    (inl (mk_SettlePairingResponse RECORD_STATE_PAIRED ANSWER_ACCEPTED "already paired here"), n).
Proof.
  intros (Hl & Hne & r & Hr & Hs) Hm. unfold settlePairingReply. rewrite state_bind_unfold, Hm.
  assert ((trust (PendingPairing_ session) n).2 = n) as -> by (by destruct n).
  change (trust (PendingPairing_ session) n).1 with (lookup_pending session n). rewrite Hl.
  unfold settle_finished. rewrite state_bind_unfold.
  assert ((trust (Peer fingerprint) n).2 = n) as -> by (by destruct n).
  change (trust (Peer fingerprint) n).1 with (fst (Peer fingerprint (n_store n))). rewrite Hr.
  by rewrite !bool_decide_eq_true_2 by done.
Qed.

(** Once both users have accepted, one call that gets through is
    enough, whichever side had heard what before: the side called completes if
    it had not, and says that it is paired; the side calling completes on
    hearing that; each has a trust record saying what it wrote down.  An answer
    that is lost costs nothing, since the side called stays completed and
    answers the next call the same way without changing. *)
Theorem answers_meet a b session pa ka pb kb reason :
  waiting session pa ka a -> saves a ->
  (waiting session pb kb b /\ pg_fingerprint pb = FingerprintSHA256 kb /\ saves b /\
     store_wf (n_store b) /\ session <> emp /\ unmistaken session (FingerprintSHA256 kb) b) \/
  completed session (FingerprintSHA256 kb) b ->
  exists resp b' ra a',
    settlePairingReply (FingerprintSHA256 kb) (settle_request pa reason) b = (inl resp, b') /\
    sp_state resp = RECORD_STATE_PAIRED /\ completed session (FingerprintSHA256 kb) b' /\
    (waiting session pb kb b -> exists rb, rb ∈ sd_peers (n_store b') /\ record_of pb kb rb) /\
    applySettlement session resp a = (None, a') /\
    ra ∈ sd_peers (n_store a') /\ record_of pa ka ra /\
    forall reason', exists resp',
      settlePairingReply (FingerprintSHA256 kb) (settle_request pa reason') b' = (inl resp', b') /\
      sp_state resp' = RECORD_STATE_PAIRED.
Proof.
  intros Ha Hsa Hb. pose proof Ha as (_ & Hse & Hans & _ & _).
  assert (exists resp b', settlePairingReply (FingerprintSHA256 kb) (settle_request pa reason) b = (inl resp, b') /\
    sp_state resp = RECORD_STATE_PAIRED /\ completed session (FingerprintSHA256 kb) b' /\
    (waiting session pb kb b -> exists rb, rb ∈ sd_peers (n_store b') /\ record_of pb kb rb))
    as (resp & b' & Hr & Hst & Hcomp & Hrec).
  { destruct Hb as [(Hw & Hfp & Hsb & Hwf & Hne & Hun)|Hc].
    - destruct (settlePairingReply_accepted session pb kb b (settle_request pa reason))
        as (resp & r & b' & Hr & Hst & Hrec & Hin & Hn); [done..|]. rewrite Hfp in Hr.
      exists resp, b'. split_and!; [done|done| |by eauto]. by eapply completed_after.
    - eexists _, b. split; [by apply (settlePairingReply_completed session)|].
      split_and!; [done|done|]. intros (Hl & _). destruct Hc as (Hl' & _). congruence. }
  destruct (applySettlement_paired session pa ka a resp) as (ra & a' & Happ & Hra & Hin & _); [done..|].
  exists resp, b', ra, a'. split_and!; try done. intros reason'. eexists.
  split; [by apply (settlePairingReply_completed session)|done].
Qed.

(** ** The tunnel's door *)

Lemma gate_matches_admits name o clientKey :
  gate_matches name o clientKey = None -> admissible o = Some clientKey /\ clientKey <> [].
Proof.
  unfold gate_matches. destruct (admissible o) as [key|]; [|done].
  destruct (_ || _) eqn:E; [done|]. intros _. bool_prop. by subst.
Qed.

Lemma heldRefusalOf_in n fingerprint held :
  heldRefusalOf n fingerprint = Some held ->
  pg_fingerprint (hr_pending held) = fingerprint /\ exists session, n_refusals n !! session = Some held.
Proof.
  unfold heldRefusalOf. intros Hf.
  enough (forall l found, foldl (fun found held =>
    if bool_decide (pg_fingerprint (hr_pending held) <> fingerprint) then found
    else match found with
         | None => Some held
         | Some f => if hr_at f <? hr_at held then Some held else found
         end) found l = Some held ->
    found = Some held \/ (held ∈ l /\ pg_fingerprint (hr_pending held) = fingerprint)) as Hg.
  { apply Hg in Hf as [[=]|[Hin Hfp]]. split; [done|].
    apply list_elem_of_In, in_map_iff in Hin as ([session h] & <- & Hin).
    exists session. by apply elem_of_map_to_list, list_elem_of_In. }
  clear Hf. induction l as [|x l IH]; intros found; cbn; [by left|]. intros [Hx|[Hin Hfp]]%IH; [|right; set_solver].
  case_bool_decide as Hne; [by left|]. destruct found as [f|].
  - destruct (hr_at f <? hr_at x); [injection Hx as ->; right; set_solver|by left].
  - injection Hx as ->. right. set_solver.
Qed.

(** What comes through the tunnel is let in only with the client key
    its identity offered, in a trust record, in a pairing under way or in a
    refusal it has not heard; without a trust record it reaches the one call
    that settles a pairing, and never another of the pairing service; and that
    call, about an entry of another identity, is refused and changes nothing. *)
Theorem tunnel_door n fingerprint clientKey procedure :
  Admit n fingerprint clientKey = None -> Permit n fingerprint procedure = None ->
  clientKey <> [] /\
  ((exists r, fst (Peer fingerprint (n_store n)) = Some r /\ admissible (tr_tunnel r) = Some clientKey) \/
   (procedure = settleProcedure /\
     ((exists p, p ∈ sd_pending (n_store n) /\ pg_fingerprint p = fingerprint /\
         admissible (pg_tunnel p) = Some clientKey) \/
      (exists session held, n_refusals n !! session = Some held /\
         pg_fingerprint (hr_pending held) = fingerprint /\
         admissible (pg_tunnel (hr_pending held)) = Some clientKey)))) /\
  (HasPrefix procedure ("/" +:+ PairingServiceName +:+ "/") = true -> procedure = settleProcedure) /\
  (forall msg p, lookup_pending (sq_session_id msg) n = Some p -> pg_session_id p = sq_session_id msg ->
     pg_fingerprint p <> fingerprint ->
     exists e, settlePairingReply fingerprint msg n = (inr (PermissionDenied e), n)).
Proof.
  intros Ha Hp. unfold Permit in Hp. destruct (HasPrefix _ _ && _) eqn:Hpre; [done|].
  assert (HasPrefix procedure ("/" +:+ PairingServiceName +:+ "/") = true ->
    procedure = settleProcedure) as Hproc.
  { intros Hh. rewrite Hh in Hpre. cbn in Hpre. by bool_prop. }
  assert (forall msg p, lookup_pending (sq_session_id msg) n = Some p ->
    pg_session_id p = sq_session_id msg -> pg_fingerprint p <> fingerprint ->
    exists e, settlePairingReply fingerprint msg n = (inr (PermissionDenied e), n)) as Hown.
  { intros msg p Hl Hs Hf. eexists. unfold settlePairingReply. rewrite state_bind_unfold.
    assert ((trust (PendingPairing_ (sq_session_id msg)) n).2 = n) as -> by (by destruct n).
    change (trust (PendingPairing_ (sq_session_id msg)) n).1 with (lookup_pending (sq_session_id msg) n).
    rewrite Hl, bool_decide_eq_false_2, bool_decide_eq_true_2 by auto. done. }
  unfold Admit in Ha. destruct (fst (Peer fingerprint (n_store n))) as [r|] eqn:Hr.
  { apply gate_matches_admits in Ha as [Ha Hne]. split_and!; [done| |done|done]. left. by exists r. }
  case_bool_decide as Hsettle; [|done].
  destruct (pending_of n fingerprint) as [p|] eqn:Hpend.
  { apply gate_matches_admits in Ha as [Ha Hne]. split_and!; [done| |done|done]. right. split; [done|].
    left. exists p. unfold pending_of, PendingPairing_, gets in Hpend. cbn in Hpend.
    destruct (find_first _ _) as [q|] eqn:Hq; [|done].
    destruct (bool_decide (pg_fingerprint q = fingerprint)) eqn:Hqf; [|done]. bool_prop.
    injection Hpend as ->. by apply find_first_elem in Hq as [? _]. }
  destruct (heldRefusalOf n fingerprint) as [held|] eqn:Hheld; [|done].
  apply gate_matches_admits in Ha as [Ha Hne]. apply heldRefusalOf_in in Hheld as [Hfp [session Hs]].
  split_and!; [done| |done|done]. right. split; [done|]. right. by exists session, held.
Qed.

End Settle.

(** ** Two concrete nodes *)

Import Toy.

Definition toy_regions : string -> result (list relayRegion) := fun _ => Ok [].

Definition toy_node (pending : list PendingPairing) : node :=
  mk_node (set_pending pending no_store) ∅ (Some (mk_Tunnel 1 (of_string "ck") (fun _ => Ok "[]"%string) emp ∅))
    "tc1server" false false ∅ ∅ false true (30 * Second) [] [] (fun k => Z.of_nat k * Second) 0.

(** The entry [name]'s machine holds about the other, with what is answered. *)
Definition toy_entry (other : string) (approve : bool) (ours theirs : PairingAnswer) : PendingPairing :=
  mk_PendingPairing "s1" ("SHA256:" +:+ other) other (of_string other) ["10.0.0.9:7777"%string]
    approve (negb approve) approve false emp ours theirs (Some 0) None emp []
    (Some (mk_TunnelOffer [1] emp (of_string ("key of " +:+ other)))).

(** The desk, where the box is to be an approver, and the box. *)
Definition desk (ours theirs : PairingAnswer) : node := toy_node [toy_entry "box" true ours theirs].
Definition box (ours theirs : PairingAnswer) : node := toy_node [toy_entry "desk" false ours theirs].

Definition paired_with (n : node) : list (string * bool * bool) :=
  map (fun r => (tr_fingerprint r, tr_may_approve r, tr_may_request r)) (sd_peers (n_store n)).

(** A whole pairing: each user answers, and the desk calls twice. *)
Example pairing_runs :
  let a := (AnswerPending "box" true emp (desk ANSWER_UNSPECIFIED ANSWER_UNSPECIFIED)).2 in
  let '(_, b) := settlePairingReply "SHA256:desk"
    (settle_request (toy_entry "box" true ANSWER_ACCEPTED ANSWER_UNSPECIFIED) emp)
    (box ANSWER_UNSPECIFIED ANSWER_UNSPECIFIED) in
  let b := (AnswerPending "s1" true emp b).2 in
  let '(r, b) := settlePairingReply "SHA256:desk"
    (settle_request (toy_entry "box" true ANSWER_ACCEPTED ANSWER_UNSPECIFIED) emp) b in
  let a := match r with inl resp => (applySettlement "s1" resp a).2 | inr _ => a end in
  (paired_with a, paired_with b) =
    ([("SHA256:box"%string, true, false)], [("SHA256:desk"%string, false, true)]).
Proof. vm_compute. reflexivity. Qed.

(** A pairing called off when the other side has completed it.  The box has
    accepted, and completes on the desk's call; the answer is lost, and the desk
    calls the pairing off.  Its refusal is answered with "paired", which is
    taken for its having been heard: nothing is held any more, and the box
    keeps a trust record the desk does not know about. *)
Example called_off_on_one_side :
  let accepted := toy_entry "box" true ANSWER_ACCEPTED ANSWER_UNSPECIFIED in
  let a := desk ANSWER_ACCEPTED ANSWER_UNSPECIFIED in
  let b := box ANSWER_ACCEPTED ANSWER_UNSPECIFIED in
  let '(_, b) := settlePairingReply "SHA256:desk" (settle_request accepted emp) b in
  let '(r, a) := Withdraw "s1" "changed my mind" a in
  let refused := match r with Ok p => p | Err _ => accepted end in
  let '(answer, b) := settlePairingReply "SHA256:desk" (settle_request refused "changed my mind") b in
  let a := (told "s1" a).2 in
  pg_our_answer refused = ANSWER_WITHDRAWN /\
  match answer with inl resp => sp_state resp = RECORD_STATE_PAIRED | inr _ => False end /\
  paired_with a = [] /\ n_refusals a = ∅ /\
  paired_with b = [("SHA256:desk"%string, false, true)].
Proof. vm_compute. repeat split. Qed.

(** An entry written down between the two halves of an answer is lost: the
    answer puts the entry it read back, for the same identity. *)
Example new_pairing_overwritten :
  let old := toy_entry "box" true ANSWER_UNSPECIFIED ANSWER_UNSPECIFIED in
  let new := mk_PendingPairing "s2" "SHA256:box" "box" (of_string "box") [] true false true false emp
    ANSWER_UNSPECIFIED ANSWER_UNSPECIFIED (Some 60) None emp [] None in
  let n := desk ANSWER_UNSPECIFIED ANSWER_UNSPECIFIED in
  let n := (recordPending new n).2 in
  let n := (advance (set_our_answer ANSWER_ACCEPTED (Some 61) old) emp true n).2 in
  map pg_session_id (sd_pending (n_store n)) = ["s1"%string].
Proof. vm_compute. reflexivity. Qed.

(** A machine that pairs again with a new client key leaves the old one on the
    allowlist, though nothing held here carries it. *)
Example old_client_key_stays :
  let offer key := Some (mk_TunnelOffer [1] emp (of_string key)) in
  let entry session key := mk_PendingPairing session "SHA256:box" "box" (of_string "box") [] true false
    true false emp ANSWER_UNSPECIFIED ANSWER_UNSPECIFIED (Some 0) None emp [] (offer key) in
  let n := (pendingOffer toy_regions (offer "old") (toy_node [])).2 in
  let n := (recordPending (entry "s1" "old") n).2 in
  let n := (pendingOffer toy_regions (offer "new") n).2 in
  let n := (recordPending (entry "s2" "new") n).2 in
  elements (admissibleKeys n) = ["new"%string] /\ n_timers n = [] /\
  option_map (fun t => bool_decide ("old"%string ∈ tn_allowed t)) (n_tunnel n) = Some true.
Proof. vm_compute. repeat split. Qed.

Definition toy_ops : list settle_op :=
  [SRecord (toy_entry "box" true ANSWER_UNSPECIFIED ANSWER_UNSPECIFIED); SAnswer "box" true emp;
   SApply "s1" (mk_SettlePairingResponse RECORD_STATE_PAIRED ANSWER_ACCEPTED emp)].

Example toy_ops_pair :
  paired_with (fst (settle_run toy_regions toy_ops (toy_node []) [])) =
    [("SHA256:box"%string, true, false)].
Proof. vm_compute. reflexivity. Qed.

Lemma no_pairing_without_consent_witness :
  let '(n', history) := settle_run toy_regions toy_ops (toy_node []) [] in
  forall r, r ∈ sd_peers (n_store n') -> r ∈ sd_peers (n_store (toy_node [])) \/ consented history r.
Proof.
  apply (no_pairing_without_consent toy_regions toy_ops (toy_node [])).
  - reflexivity.
  - repeat constructor.
Defined.

Definition the_desk_key : PublicKey := of_string "desk".
Definition the_box_key : PublicKey := of_string "box".

Definition desk_waits : node := desk ANSWER_ACCEPTED ANSWER_UNSPECIFIED.
Definition box_waits : node := box ANSWER_ACCEPTED ANSWER_UNSPECIFIED.

Lemma answers_meet_witness :
  exists resp b', settlePairingReply "SHA256:desk"
    (settle_request (toy_entry "box" true ANSWER_ACCEPTED ANSWER_UNSPECIFIED) emp) box_waits =
    (inl resp, b') /\ sp_state resp = RECORD_STATE_PAIRED.
Proof.
  destruct (answers_meet desk_waits box_waits "s1"
    (toy_entry "box" true ANSWER_ACCEPTED ANSWER_UNSPECIFIED) the_box_key
    (toy_entry "desk" false ANSWER_ACCEPTED ANSWER_UNSPECIFIED) the_desk_key emp)
    as (resp & b' & _ & _ & Hr & Hs & _).
  - split; [reflexivity|]. split; [reflexivity|]. split; [reflexivity|]. split; [reflexivity|discriminate].
  - intros k. reflexivity.
  - left. split; [|split; [reflexivity|split; [intros k; reflexivity|split; [|split; [discriminate|]]]]].
    + split; [reflexivity|]. split; [reflexivity|]. split; [reflexivity|]. split; [reflexivity|discriminate].
    + constructor; cbn; repeat constructor; try discriminate; try (intros Hin; by apply not_elem_of_nil in Hin).
    + split; cbn; repeat constructor.
  - exists resp, b'. split; [exact Hr|exact Hs].
Defined.

Definition key_of_box : bytes := of_string "key of box".

Lemma tunnel_door_witness : key_of_box <> [].
Proof.
  apply (tunnel_door desk_waits "SHA256:box" key_of_box settleProcedure); vm_compute; reflexivity.
Defined.
