(* ===== verification/Pairing.v ===== *)
(** * Pairing: the two machines exchanging a code

    [pkg/peer/pairing.go] and [pake.go] around the window: opening and closing
    one, the three handlers of the machine that displays a code, and the
    joining side.  A machine here is its windows (by reference, since handlers
    hold on to the window they found while another may replace it), its node,
    and the streams of randomness and identifiers it draws from; the
    connection's authenticated identity is an argument. *)

From S2P Require Import Prelude.
From S2P Require Import GoText.
From S2P Require Import Ssh.
From S2P Require Import Rpc.
From S2P Require Import Proto.
From S2P Require Import PairingProto.
From S2P Require Import Cpace.
From S2P Require Import Trust.
From S2P Require Import Pairings.
From S2P Require Import Window.
From S2P Require Import Regions.
From S2P Require Import Settle.

Local Open Scope Z_scope.
Local Open Scope ladulas_scope.

(** ** Refusals on the wire *)

Definition windowError (err : error) : rpc_error :=
  if errors_Is err errPairingSpent then mk_rpc_error CodeAlreadyExists err
  else if errors_Is err errPairingExhausted then mk_rpc_error CodeResourceExhausted err
  else if errors_Is err errExchangeOwner then mk_rpc_error CodePermissionDenied err
  else mk_rpc_error CodeFailedPrecondition err.

Definition ErrNoIntent : error :=
  sentinel "peer.ErrNoIntent" ("peer: say what the pairing is for: an approver for this instance, " +:+
    "an instance to approve for, or both").
Definition ErrCodeSpent : error := sentinel "peer.ErrCodeSpent"
  "another machine used this code — reject the pairing on the other screen".
Definition ErrPINRefused : error := sentinel "peer.ErrPINRefused"
  ("that machine refused the PIN — if you typed it correctly, " +:+
   "you may have picked the wrong machine or address").
Definition ErrPossibleImpostor : error := sentinel "peer.ErrPossibleImpostor"
  "the machine that answered may be an impostor".
Definition ErrAttemptsSpent : error := sentinel "peer.ErrAttemptsSpent"
  ("that machine has refused too many attempts at this code; " +:+ "ask for a new one").

Definition joinError (err : rpc_error) (pinned : bool) : error :=
  match re_code err with
  | CodeAlreadyExists => ErrCodeSpent
  | CodePermissionDenied => ErrPINRefused
  | CodeResourceExhausted => ErrAttemptsSpent
  | CodeUnimplemented =>
    if pinned
    then errors_New ("that machine is too old to take a PIN; " +:+
           "update it, or pair from it with its ten-character code")
    else wrap_w emp ErrPossibleImpostor (": it does not speak PIN pairing, which every " +:+
           "version that shows a PIN does — check the address, or use the " +:+
           "full code from the other screen")
  | _ => re_err err
  end.

Definition pakeVersion : string := "ladulas-pairing-v2".
Definition adListener : bytes := of_string (pakeVersion +:+ "/listener").
Definition adJoiner : bytes := of_string (pakeVersion +:+ "/joiner").
Definition pakeSessionIDSize : nat := 16.

Section Pairing.
Context `{Unicode} `{Hashes} `{Ristretto} `{Ssh}.
Context (unmarshal_regions : string -> result (list relayRegion)).

Record machine := mk_machine {
  m_node : node;
  m_windows : list pairingWindow;     (** every window there has been *)
  m_window : option nat;              (** [n.window] *)
  m_PublicKey : PublicKey;
  m_Name : string;
  m_Advertised : list string;
  m_random : list bytes;              (** what reading randomness will give *)
  m_ids : nat -> string;              (** what [identity.NewRequestID] will give *)
  m_id : nat
}.

Definition set_node (n : node) (m : machine) : machine :=
  mk_machine n (m_windows m) (m_window m) (m_PublicKey m) (m_Name m) (m_Advertised m) (m_random m)
    (m_ids m) (m_id m).
Definition set_windows (l : list pairingWindow) (m : machine) : machine :=
  mk_machine (m_node m) l (m_window m) (m_PublicKey m) (m_Name m) (m_Advertised m) (m_random m)
    (m_ids m) (m_id m).
Definition set_window (w : option nat) (m : machine) : machine :=
  mk_machine (m_node m) (m_windows m) w (m_PublicKey m) (m_Name m) (m_Advertised m) (m_random m)
    (m_ids m) (m_id m).
Definition set_random (r : list bytes) (m : machine) : machine :=
  mk_machine (m_node m) (m_windows m) (m_window m) (m_PublicKey m) (m_Name m) (m_Advertised m) r
    (m_ids m) (m_id m).

Definition NewRequestID : state machine string := fun m =>
  (m_ids m (m_id m),
   mk_machine (m_node m) (m_windows m) (m_window m) (m_PublicKey m) (m_Name m) (m_Advertised m)
     (m_random m) (m_ids m) (S (m_id m))).

(** An operation of the node, and one of the window [w] refers to. *)
Definition on_node {A} (op : state node A) : state machine A := fun m =>
  let '(a, n) := op (m_node m) in (a, set_node n m).
Definition window_at (m : machine) (w : nat) : option pairingWindow := m_windows m !! w.
Definition on_window {A} (w : nat) (absent : A) (op : state pairingWindow A) : state machine A :=
  fun m =>
    match m_windows m !! w with
    | None => (absent, m)
    | Some win => let '(a, win) := op win in (a, set_windows (<[w := win]> (m_windows m)) m)
    end.

Definition Now_ : state machine time := on_node Now.

(** ** The window on screen *)

Definition openWindow : state machine (option nat) :=
  m ← gets id;
  match m_window m with
  | None => mret None
  | Some w =>
    now ← Now_;
    if (match m_windows m !! w with Some win => admits win now | None => false end)
    then mret (Some w)
    else _ ← modify (set_window None); mret None
  end.

(** The PIN and the secret are drawn apart: [n] is the number drawn for the one
    and [buf] the bytes for the other. *)
Definition beginPairing (intent : Intent) (n : Z) (buf : bytes)
    : state machine (result (nat * string)) :=
  if bool_decide (intent = IntentUnspecified) then mret (Err ErrNoIntent)
  else
    let pin := NewPIN n in
    let secret := NewSecret buf in
    now ← Now_;
    let window := newPairingWindow pin secret intent now in
    m ← gets id;
    let w := length (m_windows m) in
    let previous := m_window m in
    _ ← modify (fun m => set_window (Some w) (set_windows (m_windows m ++ [window]) m));
    _ ← (match previous with Some p => on_window p tt close | None => mret tt end);
    mret (Ok (w, secret)).

Definition closeWindow (w : nat) : state machine unit :=
  spent ← on_window w true (win ← gets id;
            let spent := w_settled win || w_tired win in
            _ ← when (negb spent) closeLocked; mret spent);
  if (spent : bool) then mret tt
  else
    m ← gets id;
    when (bool_decide (m_window m = Some w)) (modify (set_window None)).

Definition pinInputs (pin : string) (joiner listener : PublicKey) (sid : bytes) : Inputs :=
  mk_Inputs (of_string pin) (LVCat [ssh_Marshal joiner; ssh_Marshal listener]) sid.

Definition newPAKESessionID : state machine (result bytes) :=
  m ← gets id;
  match m_random m with
  | [] => mret (Err (errors_New "peer: no randomness for a pairing exchange"))
  | sid :: random =>
    _ ← modify (set_random random);
    mret (Ok (take pakeSessionIDSize sid))
  end.

(** ** The machine that displays the code *)

Definition recordListened (w : nat) (peer : PeerIdentity) (name : string) (addresses : list string)
    (tunnel : option TunnelOffer) : state machine (string + rpc_error) :=
  session ← NewRequestID;
  now ← Now_;
  m ← gets id;
  let intent := match window_at m w with Some win => w_intent win | None => IntentUnspecified end in
  let failed := match window_at m w with Some win => failedAttempts win | None => [] end in
  offered ← on_node (pendingOffer unmarshal_regions tunnel);
  let pending := mk_PendingPairing session (pi_Fingerprint peer) name
    (ssh_Marshal (pi_PublicKey peer)) (DirectAddresses addresses) (PeerMayApprove intent)
    (PeerMayRequest intent) false false (pi_RemoteAddr peer) ANSWER_UNSPECIFIED ANSWER_UNSPECIFIED
    (Some now) None emp failed offered in
  err ← on_node (recordPending pending);
  match err with
  | Some e => mret (inr (mk_rpc_error CodeInternal e))
  | None => _ ← on_window w tt (settle session); mret (inl session)
  end.

Definition PairStart (peer : option PeerIdentity) : state machine (PairStartResponse + rpc_error) :=
  match peer with
  | None => mret (inr unauthenticated)
  | Some peer =>
    found ← openWindow;
    match found with
    | None => mret (inr (windowError errPairingClosed))
    | Some w =>
      sid ← newPAKESessionID;
      match sid with
      | Err e => mret (inr (mk_rpc_error CodeInternal e))
      | Ok sid =>
        m ← gets id;
        let pin := match window_at m w with Some win => w_pin win | None => emp end in
        match newInitiator (pinInputs pin (pi_PublicKey peer) (m_PublicKey m) sid) adListener
                (m_random m) with
        | Err e => mret (inr (mk_rpc_error CodeInternal e))
        | Ok (initiator, random) =>
          _ ← modify (set_random random);
          now ← Now_;
          err ← on_window w (Some errPairingClosed) (startExchange now (hex sid)
                  (mk_pinExchange (pi_Fingerprint peer) (pi_RemoteAddr peer) initiator false false));
          match err with
          | Some e => mret (inr (windowError e))
          | None => mret (inl (mk_PairStartResponse sid (ci_share initiator)))
          end
        end
      end
    end
  end.

Definition PairFinish (peer : option PeerIdentity) (req : PairFinishRequest)
    : state machine (PairFinishResponse + rpc_error) :=
  match peer with
  | None => mret (inr unauthenticated)
  | Some peer =>
    found ← openWindow;
    match found with
    | None => mret (inr (windowError errPairingClosed))
    | Some w =>
      let id := hex (fq_session_id req) in
      taken ← on_window w (Err errPairingClosed) (takeExchange id (pi_Fingerprint peer));
      match taken with
      | Err e => mret (inr (windowError e))
      | Ok exchange =>
        match fst (Finish (px_initiator exchange) (fq_share req) adJoiner) with
        | Err e =>
          now ← Now_;
          _ ← on_window w tt (failExchange now id (pi_RemoteAddr peer)
                "sent a share that is not a group element");
          mret (inr (mk_rpc_error CodeInvalidArgument e))
        | Ok session =>
          if negb (Session_Verify session (fq_confirmation req))
          then
            now ← Now_;
            _ ← on_window w tt (failExchange now id (pi_RemoteAddr peer) "refused PIN");
            mret (inr (mk_rpc_error CodePermissionDenied (errors_New "the PIN does not match")))
          else
            won ← on_window w false (passExchange id);
            if negb won then mret (inr (windowError errPairingSpent))
            else
              pairing ← recordListened w peer (fq_instance_name req) (fq_listen_addresses req)
                          (fq_tunnel req);
              match pairing with
              | inr e => mret (inr e)
              | inl pairing =>
                m ← gets Datatypes.id;
                let intent :=
                  match window_at m w with Some win => w_intent win | None => IntentUnspecified end in
                mret (inl (mk_PairFinishResponse (Cpace.Confirmation session) pairing (m_Name m)
                  (PeerMayApprove intent) (PeerMayRequest intent) (m_Advertised m)
                  (offer (m_node m))))
              end
        end
      end
    end
  end.

Definition Pair (peer : option PeerIdentity) (req : PairRequest)
    : state machine (PairResponse + rpc_error) :=
  match peer with
  | None => mret (inr unauthenticated)
  | Some peer =>
    found ← openWindow;
    match found with
    | None => mret (inr (windowError errPairingClosed))
    | Some w =>
      m ← gets id;
      let secret := match window_at m w with Some win => w_secret win | None => emp end in
      if bool_decide (pq_identity_public_key req <> [])
         && bool_decide (pq_identity_public_key req <> ssh_Marshal (pi_PublicKey peer))
      then mret (inr (mk_rpc_error CodeInvalidArgument
             (errors_New "the identity in the request is not the one on the connection")))
      else if bool_decide (secret = emp)
      then mret (inr (mk_rpc_error CodeFailedPrecondition
             (errors_New "this pairing takes the PIN; update the joining instance")))
      else
        charged ← on_window w (Some errPairingClosed) chargeProof;
        match charged with
        | Some e => mret (inr (windowError e))
        | None =>
          if negb (VerifyProof secret (Some (m_PublicKey m)) (Some (pi_PublicKey peer)) (pq_proof req))
          then
            now ← Now_;
            _ ← on_window w tt (failProof now (pi_RemoteAddr peer)
                  "refused an older ten-character code");
            mret (inr (mk_rpc_error CodePermissionDenied
                    (errors_New "the pairing code does not match")))
          else
            won ← on_window w false passProof;
            if negb won then mret (inr (windowError errPairingSpent))
            else
              session ← recordListened w peer (pq_instance_name req) (pq_listen_addresses req)
                          (pq_tunnel req);
              match session with
              | inr e => mret (inr e)
              | inl session =>
                m ← gets Datatypes.id;
                let intent :=
                  match window_at m w with Some win => w_intent win | None => IntentUnspecified end in
                mret (inl (mk_PairResponse true session (m_Name m) (ssh_Marshal (m_PublicKey m))
                  (PeerMayApprove intent) (PeerMayRequest intent) (m_Advertised m)
                  (Trust.Confirmation secret (Some (m_PublicKey m)) (Some (pi_PublicKey peer)))
                  emp (offer (m_node m))))
              end
        end
    end
  end.

(** ** The machine the code is typed into *)

(** What the joining machine reaches over its connection, as the client the
    protocol compiler generates: a state [W] of whatever is at the far end, and
    the three calls. *)
Class PairingServiceClient (W : Type) := {
  call_PairStart : state W (PairStartResponse + rpc_error);
  call_PairFinish : PairFinishRequest -> state W (PairFinishResponse + rpc_error);
  call_Pair : PairRequest -> state W (PairResponse + rpc_error)
}.

Record joinAnswer := mk_joinAnswer {
  ja_session : string;
  ja_name : string;
  ja_addresses : list string;
  ja_tunnel : option TunnelOffer;
  ja_mayApprove : bool;
  ja_mayRequest : bool
}.

(** A listener the pinned handshake reached; [rl_raw] when it went through a
    pairing server. *)
Record reachedListener := mk_reachedListener {
  rl_peer : PeerIdentity;
  rl_address : string;
  rl_raw : bool
}.

(** The results in the order they arrive: the first that completed, or else the
    first error. *)
Fixpoint handshakeFirst (arrivals : list (result reachedListener)) (first : option error)
    : result (option reachedListener) :=
  match arrivals with
  | [] => match first with Some e => Err e | None => Ok None end
  | Ok reached :: _ => Ok (Some reached)
  | Err e :: rest => handshakeFirst rest (match first with Some f => Some f | None => Some e end)
  end.

Section Reach.
(** What dialling the candidates brings back, in order of arrival, and what
    dialling the pairing server in the code does. *)
Context (dial : list string -> option PublicKey -> list (result reachedListener)).
Context (reachPairingServer : PairingCode -> option PublicKey -> result reachedListener).

Definition candidates (address : string) (code : PairingCode) (expected : option PublicKey)
    : list string :=
  if bool_decide (address <> emp) then [address]
  else if bool_decide (expected = None) then take 1 (pc_addresses code) else pc_addresses code.

Definition reachListener (address : string) (code : PairingCode) (expected : option PublicKey)
    : result reachedListener :=
  let cands := candidates address code expected in
  let tunnelled := bool_decide (address = emp) && bool_decide (pc_tunnel_address code <> emp)
                   && bool_decide (expected <> None) in
  if bool_decide (cands = []) && negb tunnelled
  then Err (errors_New "peer: no address to dial, and the code carries none")
  else
    let direct := if bool_decide (cands = []) then Ok None
                  else handshakeFirst (dial cands expected) None in
    match direct with
    | Ok (Some reached) => Ok reached
    | Err e =>
      if negb tunnelled then Err e
      else
        match reachPairingServer code expected with
        | Ok reached => Ok reached
        | Err e' => Err (wrap_ww e "; through the pairing server: " e')
        end
    | Ok None =>
      match reachPairingServer code expected with
      | Ok reached => Ok reached
      | Err e' => Err (wrap_w "peer: through the pairing server: " e' emp)
      end
    end.

Context {W : Type} `{client : PairingServiceClient W}.

Definition pairByPIN (peer : PeerIdentity) (pin : string) (pinned : bool)
    : state (machine * W) (result joinAnswer) :=
  start ← there call_PairStart;
  match start with
  | inr e => mret (Err (joinError e pinned))
  | inl start =>
    m ← here (gets id);
    match respond (pinInputs pin (m_PublicKey m) (pi_PublicKey peer) (ps_session_id start)) adJoiner
            (ps_share start) adListener (m_random m) with
    | Err e => mret (Err (wrap_w emp (wrap_ww ErrPossibleImpostor
                 ": it sent a share that is not a group element (" e) ")"))
    | Ok (share, session, random) =>
      _ ← here (modify (set_random random));
      finish ← there (call_PairFinish (mk_PairFinishRequest (ps_session_id start) share
                 (Cpace.Confirmation session) (m_Name m) (m_Advertised m) (offer (m_node m))));
      match finish with
      | inr e => mret (Err (joinError e pinned))
      | inl finish =>
        if negb (Session_Verify session (fp_confirmation finish))
        then mret (Err (wrap_w emp ErrPossibleImpostor
               (": it accepted the PIN without proving it " +:+ "knew it")))
        else mret (Ok (mk_joinAnswer (fp_session_id finish) (fp_instance_name finish)
               (fp_listen_addresses finish) (fp_tunnel finish) (fp_may_approve finish)
               (fp_may_request finish)))
      end
    end
  end.

Definition pairByProof (peer : PeerIdentity) (secret : string)
    : state (machine * W) (result joinAnswer) :=
  m ← here (gets id);
  let ours := m_PublicKey m in
  resp ← there (call_Pair (mk_PairRequest (Proof_ secret (Some (pi_PublicKey peer)) (Some ours))
           (m_Name m) (ssh_Marshal ours) (m_Advertised m) (offer (m_node m))));
  match resp with
  | inr e => mret (Err (if bool_decide (re_code e = CodeAlreadyExists) then ErrCodeSpent else re_err e))
  | inl resp =>
    if negb (pp_accepted resp)
    then mret (Err (errors_New (if bool_decide (pp_reason resp = emp)
                                then "the other side declined"%string else pp_reason resp)))
    else if negb (VerifyConfirmation secret (Some (pi_PublicKey peer)) (Some ours)
                    (pp_confirmation resp))
    then mret (Err (errors_New ("the instance answered without knowing the pairing code; " +:+
                     "check the address")))
    else if bool_decide (pp_identity_public_key resp <> [])
            && bool_decide (pp_identity_public_key resp <> ssh_Marshal (pi_PublicKey peer))
    then mret (Err (errors_New "the identity in the answer is not the one on the connection"))
    else mret (Ok (mk_joinAnswer (pp_session_id resp) (pp_instance_name resp)
           (pp_listen_addresses resp) (pp_tunnel resp) (pp_may_approve resp) (pp_may_request resp)))
  end.

Definition peerAddresses (advertised : list string) (dialled : string) : list string :=
  (if IsDirectAddress dialled then [dialled] else []) ++
  List.filter (fun address => bool_decide (address <> dialled)) (DirectAddresses advertised).

(** What is proved with: the PIN, or else the secret of an older code. *)
Definition typed (code : PairingCode) : result (string * string) :=
  if bool_decide (pc_pin code <> emp)
  then pin ← ParsePIN (pc_pin code); Ok (pin, emp)
  else secret ← ParseSecret (pc_secret code); Ok (emp, secret).

Definition recordJoined (peer : PeerIdentity) (dialled : string) (key_from_code : bool)
    (answer : joinAnswer) : state machine (result PendingPairing) :=
  if bool_decide (ja_session answer = emp)
  then mret (Err (errors_New "peer: the other instance named no pairing session"))
  else
    let intent := Mirror (IntentOf (ja_mayApprove answer) (ja_mayRequest answer)) in
    if bool_decide (intent = IntentUnspecified)
    then mret (Err (errors_New "peer: the other instance did not say what the pairing is for"))
    else
      now ← Now_;
      offered ← on_node (pendingOffer unmarshal_regions (ja_tunnel answer));
      let pending := mk_PendingPairing (ja_session answer) (pi_Fingerprint peer) (ja_name answer)
        (ssh_Marshal (pi_PublicKey peer)) (peerAddresses (ja_addresses answer) dialled)
        (PeerMayApprove intent) (PeerMayRequest intent) true key_from_code (pi_RemoteAddr peer)
        ANSWER_UNSPECIFIED ANSWER_UNSPECIFIED (Some now) None emp [] offered in
      err ← on_node (recordPending pending);
      match err with
      | Some e => mret (Err (wrap_w "peer: " e emp))
      | None => mret (Ok pending)
      end.

Definition PairWith (address : string) (code : PairingCode)
    : state (machine * W) (result PendingPairing) :=
  match (proof ← typed code; expected ← CodeKey code;
         reached ← reachListener address code expected; Ok (proof, expected, reached)) with
  | Err e => mret (Err e)
  | Ok ((pin, secret), expected, reached) =>
    let peer := rl_peer reached in
    let where_ := if rl_raw reached then "the machine through its pairing server"%string
                  else rl_address reached in
    let dialled := if rl_raw reached then emp else rl_address reached in
    let pinned := bool_decide (expected <> None) in
    answer ← (if bool_decide (pin <> emp) then pairByPIN peer pin pinned
              else pairByProof peer secret);
    match answer with
    | Err e => mret (Err (wrap_w ("peer: pair with " +:+ where_ +:+ ": ") e emp))
    | Ok answer => here (recordJoined peer dialled pinned answer)
    end
  end.

End Reach.

(** ** The card both sides confirm *)

Definition pendingConfirmation (pending : PendingPairing) : state machine ApprovalRequest :=
  id ← NewRequestID;
  now ← Now_;
  m ← gets Datatypes.id;
  let ours := FingerprintSHA256 (m_PublicKey m) in
  let requester :=
    if pg_we_dialled pending
    then mk_RequesterInfo ours (m_Name m) true false (pg_remote_address pending) None
    else mk_RequesterInfo (pg_fingerprint pending) (pg_name pending) false false
           (pg_remote_address pending) None in
  mret (mk_ApprovalRequest id (Some now) (Some requester) KIND_PAIRING None None 0 emp [] false None
    None (OpPairing (mk_PairingRequest (pg_name pending) (pg_fingerprint pending)
      (pg_remote_address pending) (pg_may_approve pending) (pg_may_request pending) ours (m_Name m)
      (pg_we_dialled pending) (pg_addresses pending) (pg_key_from_code pending)
      (pg_failed_attempts pending)))).

End Pairing.

(** ** Nothing is read before the code is proven *)

Section Unproven.
Context `{Unicode} `{Hashes} `{Ristretto} `{Ssh}.
Context (unmarshal_regions : string -> result (list relayRegion)).

(** The node with its clock read [k] times. *)
Definition at_tick (k : nat) (n : node) : node :=
  mk_node (n_store n) (n_refusals n) (n_tunnel n) (n_tunnelAddress n) (n_tunnelClientOnly n)
    (n_tunnelClosed n) (n_prompts n) (n_attempted n) (n_hasLocalApprover n) (n_serving n)
    (n_retry n) (n_timers n) (n_trace n) (n_clock n) k.

(** Nothing of the node changed but how often it read the clock. *)
Definition untouched (n n' : node) : Prop := n' = at_tick (n_ticks n') n.

#[local] Instance untouched_preorder : PreOrder untouched.
Proof.
  split; [by intros []|]. unfold untouched. intros a b c -> ->. done.
Qed.

Definition quiet {A} (op : state machine A) : Prop :=
  forall m, untouched (m_node m) (m_node (op m).2).

Lemma quiet_ret {A} (a : A) : quiet (mret a).
Proof. intros m. reflexivity. Qed.

Lemma quiet_bind {A B} (op : state machine A) (f : A -> state machine B) :
  quiet op -> (forall a, quiet (f a)) -> quiet (op ≫= f).
Proof.
  intros Ho Hf m. rewrite state_bind_unfold. etransitivity; [apply Ho|apply Hf].
Qed.

Lemma on_window_at {A} w (absent : A) op m win r win' :
  m_windows m !! w = Some win -> op win = (r, win') ->
  on_window w absent op m = (r, set_windows (<[w := win']> (m_windows m)) m).
Proof. intros Hw Ho. unfold on_window. by rewrite Hw, Ho. Qed.

Lemma quiet_on_window {A} w (absent : A) op : quiet (on_window w absent op).
Proof.
  intros m. unfold on_window. destruct (m_windows m !! w) as [win|]; [|reflexivity].
  by destruct (op win).
Qed.

Lemma quiet_same {A} (op : state machine A) : (forall m, m_node (op m).2 = m_node m) -> quiet op.
Proof. intros Hs m. by rewrite Hs. Qed.

Lemma quiet_Now : quiet Now_.
Proof. intros m. done. Qed.

Lemma openWindow_spec m found m' :
  openWindow m = (found, m') ->
  untouched (m_node m) (m_node m') /\ m_windows m' = m_windows m /\ m_random m' = m_random m /\
  m_PublicKey m' = m_PublicKey m /\
  match found with
  | None => True
  | Some w => m_window m' = Some w /\ m_window m = Some w /\
      exists win, m_windows m !! w = Some win /\ admits win (n_clock (m_node m) (n_ticks (m_node m))) = true
  end.
Proof.
  unfold openWindow. run_state. destruct (m_window m) as [w|] eqn:Ew; [|by intros [= <- <-]].
  cbn. destruct (m_windows m !! w) as [win|] eqn:Ewin; [destruct (admits win _) eqn:Ea|];
    intros [= <- <-]; cbn; split_and!; done || eauto.
Qed.

Lemma quiet_openWindow : quiet openWindow.
Proof. intros m. destruct (openWindow m) as [found m'] eqn:E. by apply openWindow_spec in E as [? _]. Qed.

Lemma quiet_PairStart peer : quiet (PairStart peer).
Proof.
  unfold PairStart. destruct peer as [peer|]; [|apply quiet_ret].
  apply quiet_bind; [apply quiet_openWindow|]. intros [w|]; [|apply quiet_ret].
  apply quiet_bind.
  { apply quiet_same. intros m. unfold newPAKESessionID. run_state. destruct (m_random m); reflexivity. }
  intros [sid|e]; [|apply quiet_ret]. apply quiet_bind; [by apply quiet_same|]. intros m.
  destruct (newInitiator _ _ _) as [[initiator random]|e]; [|apply quiet_ret].
  apply quiet_bind; [by apply quiet_same|]. intros _. apply quiet_bind; [apply quiet_Now|]. intros now.
  apply quiet_bind; [apply quiet_on_window|]. intros [e|]; apply quiet_ret.
Qed.

(** What the second round proved: an exchange this caller started in the window
    on screen, and the tag of somebody who typed its PIN. *)
Definition pin_proven (peer : option PeerIdentity) (req : PairFinishRequest) (m : machine) : Prop :=
  exists p w win x session,
    peer = Some p /\ m_window m = Some w /\ m_windows m !! w = Some win /\
    w_exchanges win !! hex (fq_session_id req) = Some x /\ px_taken x = false /\
    px_fingerprint x = pi_Fingerprint p /\ w_settled win = false /\ w_closed win = false /\
    fst (Finish (px_initiator x) (fq_share req) adJoiner) = Ok session /\
    Session_Verify session (fq_confirmation req) = true.

Definition secret_proven (peer : option PeerIdentity) (req : PairRequest) (m : machine) : Prop :=
  exists p w win,
    peer = Some p /\ m_window m = Some w /\ m_windows m !! w = Some win /\
    w_secret win <> emp /\ w_settled win = false /\ w_closed win = false /\
    VerifyProof (w_secret win) (Some (m_PublicKey m)) (Some (pi_PublicKey p)) (pq_proof req) = true.

(** Refused, with nothing of the node touched. *)
Definition turned_away {A} (m : machine) (out : (A + rpc_error) * machine) : Prop :=
  untouched (m_node m) (m_node out.2) /\ exists e, out.1 = inr e.

(** An operation that only refuses. *)
Definition refuses {A} (op : state machine (A + rpc_error)) : Prop :=
  quiet op /\ forall m, exists e, (op m).1 = inr e.

Lemma refuses_ret {A} (e : rpc_error) : refuses (mret (inr e) : state machine (A + rpc_error)).
Proof. split; [apply quiet_ret|]. intros m. by exists e. Qed.

Lemma refuses_bind {A B} (op : state machine B) (f : B -> state machine (A + rpc_error)) :
  quiet op -> (forall b, refuses (f b)) -> refuses (op ≫= f).
Proof.
  intros Ho Hf. split; [apply quiet_bind; [done|]; intros b; apply Hf|].
  intros m. rewrite state_bind_unfold. apply Hf.
Qed.

Lemma turned_away_by {A} m (op : state machine (A + rpc_error)) m0 :
  untouched (m_node m) (m_node m0) -> refuses op -> turned_away m (op m0).
Proof. intros Hm [Hq He]. split; [etransitivity; [exact Hm|apply Hq]|apply He]. Qed.

Lemma takeExchange_spec id fp win r win' :
  takeExchange id fp win = (r, win') ->
  match r with
  | Err e => win' = win
  | Ok x' => exists x, w_exchanges win !! id = Some x /\ px_taken x = false /\
      px_fingerprint x = fp /\ px_initiator x' = px_initiator x /\
      win' = set_exchanges (<[id := x']> (w_exchanges win)) win
  end.
Proof.
  unfold takeExchange. run_state. destruct (w_exchanges win !! id) as [x|]; [|by intros [= <- <-]].
  destruct (px_taken x) eqn:Et; [by intros [= <- <-]|].
  destruct (bool_decide _) eqn:Ef; intros [= <- <-]; bool_prop; [done|].
  eexists. by split_and!.
Qed.

Lemma claimLocked_won win win' : claimLocked win = (true, win') ->
  w_settled win = false /\ w_closed win = false /\ w_tired win = false /\ w_settled win' = true.
Proof.
  unfold claimLocked. run_state.
  destruct (0 <? w_charged win); cbn;
    destruct (w_settled win), (w_closed win), (w_tired win); cbn; try done; intros [= <-]; done.
Qed.

(** What a proven caller gets to do, and what it is told. *)
Lemma PairFinish_cases peer req m :
  turned_away m (PairFinish unmarshal_regions peer req m) \/ pin_proven peer req m.
Proof.
  unfold PairFinish. destruct peer as [p|]; [|left; apply turned_away_by; [reflexivity|apply refuses_ret]].
  rewrite state_bind_unfold. destruct (openWindow m) as [found m1] eqn:Eo.
  apply openWindow_spec in Eo as (H01 & Hw1 & _ & _ & Hf). cbn [fst snd].
  destruct found as [w|]; [|left; apply turned_away_by; [exact H01|apply refuses_ret]].
  destruct Hf as (_ & Hw & win & Hwin & Ha).
  destruct (takeExchange (hex (fq_session_id req)) (pi_Fingerprint p) win) as [r win2] eqn:Et.
  rewrite state_bind_unfold. erewrite on_window_at by (rewrite ?Hw1; eassumption).
  apply takeExchange_spec in Et. cbn [fst snd].
  destruct r as [x'|e]; [|left; apply turned_away_by; [exact H01|apply refuses_ret]].
  destruct Et as (x & Hx & Ht & Hfp & Hi & ->). rewrite Hi.
  destruct (Finish _ _ _).1 as [session|e] eqn:Ef.
  2: { left. apply turned_away_by; [exact H01|].
       apply refuses_bind; [apply quiet_Now|]. intros now.
       apply refuses_bind; [apply quiet_on_window|]. intros _. apply refuses_ret. }
  destruct (Session_Verify session _) eqn:Ev; cbn [negb].
  2: { left. apply turned_away_by; [exact H01|].
       apply refuses_bind; [apply quiet_Now|]. intros now.
       apply refuses_bind; [apply quiet_on_window|]. intros _. apply refuses_ret. }
  destruct (passExchange (hex (fq_session_id req)) (set_exchanges (<[hex (fq_session_id req) := x']>
    (w_exchanges win)) win)) as [won win3] eqn:Ep.
  rewrite state_bind_unfold. erewrite on_window_at; [|apply list_lookup_insert_eq; rewrite Hw1; by eapply lookup_lt_Some|exact Ep].
  cbn [fst snd].
  destruct won; cbn [negb]; [|left; apply turned_away_by; [exact H01|apply refuses_ret]].
  right. unfold passExchange in Ep. rewrite state_bind_unfold in Ep.
  apply claimLocked_won in Ep as (Hs & Hc & _ & _). cbn in Hs, Hc.
  exists p, w, win, x, session. by split_and!.
Qed.

Lemma Pair_cases peer req m :
  turned_away m (Pair unmarshal_regions peer req m) \/ secret_proven peer req m.
Proof.
  unfold Pair. destruct peer as [p|]; [|left; apply turned_away_by; [reflexivity|apply refuses_ret]].
  rewrite state_bind_unfold. destruct (openWindow m) as [found m1] eqn:Eo.
  apply openWindow_spec in Eo as (H01 & Hw1 & _ & Hk & Hf). cbn [fst snd].
  destruct found as [w|]; [|left; apply turned_away_by; [exact H01|apply refuses_ret]].
  destruct Hf as (_ & Hw & win & Hwin & Ha). rewrite state_bind_unfold.
  change (gets id m1) with (m1, m1). cbn [fst snd]. unfold window_at. rewrite Hw1, Hwin, Hk.
  destruct (_ && _); [left; apply turned_away_by; [exact H01|apply refuses_ret]|].
  destruct (bool_decide (w_secret win = emp)) eqn:Es;
    [left; apply turned_away_by; [exact H01|apply refuses_ret]|bool_prop].
  destruct (chargeProof win) as [charged win1] eqn:Ec.
  rewrite state_bind_unfold. erewrite on_window_at by (rewrite ?Hw1; eassumption). cbn [fst snd].
  destruct charged as [e|]; [left; apply turned_away_by; [exact H01|apply refuses_ret]|].
  destruct (VerifyProof _ _ _ _) eqn:Ev; cbn [negb].
  2: { left. apply turned_away_by; [exact H01|].
       apply refuses_bind; [apply quiet_Now|]. intros now.
       apply refuses_bind; [apply quiet_on_window|]. intros _. apply refuses_ret. }
  destruct (passProof win1) as [won win2] eqn:Ep.
  rewrite state_bind_unfold. erewrite on_window_at; [|apply list_lookup_insert_eq; rewrite Hw1; by eapply lookup_lt_Some|exact Ep].
  cbn [fst snd].
  destruct won; cbn [negb]; [|left; apply turned_away_by; [exact H01|apply refuses_ret]].
  right. unfold passProof in Ep. rewrite state_bind_unfold in Ep.
  apply claimLocked_won in Ep as (Hs & Hc & _ & _).
  unfold chargeProof, chargeLocked in Ec. rewrite state_bind_unfold in Ec.
  destruct (w_settled win) eqn:Hs'; [done|]. destruct (w_closed win) eqn:Hc'; [done|].
  exists p, w, win. by split_and!.
Qed.

(** Until the code is proven the machine that displays it learns
    nothing.  Starting an exchange changes nothing but the window; and a call
    that finishes one, or gives the older proof, either is refused with nothing
    of the node changed, or came from the very identity that started that
    exchange, in the unused window on screen, with a tag (a proof) that
    verifies for its code. *)
Theorem nothing_before_proof peer start finish older m :
  untouched (m_node m) (m_node (PairStart start m).2) /\
  (turned_away m (PairFinish unmarshal_regions peer finish m) \/ pin_proven peer finish m) /\
  (turned_away m (Pair unmarshal_regions peer older m) \/ secret_proven peer older m).
Proof. split_and!; [apply quiet_PairStart|apply PairFinish_cases|apply Pair_cases]. Qed.

End Unproven.

(** ** A pairing by PIN, end to end *)

Section Meeting.
Context `{Unicode} `{Hashes} `{Ristretto} `{Ssh}.
Context (unmarshal_regions : string -> result (list relayRegion)).

(** The far end of a joiner's connection: the machine with the code, which sees
    the joiner as [pj]. *)
Definition listener (pj : PeerIdentity) : PairingServiceClient machine := {|
  call_PairStart := PairStart (Some pj);
  call_PairFinish req := PairFinish unmarshal_regions (Some pj) req;
  call_Pair req := Pair unmarshal_regions (Some pj) req
|}.

(** There is room for one more pairing, and writing it down works. *)
Definition can_record (n : node) : Prop :=
  saves n /\ (length (sd_pending (n_store n)) < MaxPendingPairings)%nat.

(** The window [w] is on screen, for the three times the two calls read the
    clock to ask, and has an attempt left for the caller [fp]. *)
Record displays (fp : string) (m : machine) (w : nat) (win : pairingWindow) : Prop := {
  displays_window : m_window m = Some w;
  displays_at : m_windows m !! w = Some win;
  displays_open : w_closed win = false /\ w_settled win = false /\ w_tired win = false;
  displays_time : forall k, (k <= n_ticks (m_node m) + 2)%nat -> n_clock (m_node m) k < w_expires win;
  displays_left : w_charged win < Z.of_nat MaxAttempts;
  displays_fresh : forall id x, w_exchanges win !! id = Some x -> replaceable fp x = false
}.

Lemma on_node_at {A} (op : state node A) m a n :
  op (m_node m) = (a, n) -> on_node op m = (a, set_node n m).
Proof. intros Ho. unfold on_node. by rewrite Ho. Qed.

Lemma recordPending_writes p n :
  pg_session_id p <> emp -> pg_fingerprint p <> emp -> can_record n ->
  exists n', recordPending p n = (None, n') /\ p ∈ sd_pending (n_store n').
Proof.
  intros Hs Hf [Hd Hl]. unfold recordPending. rewrite state_bind_unfold.
  destruct (PutPendingPairing_room p (n_store n) Hs Hf) as [He Hp].
  { eapply Nat.le_lt_trans; [apply List.filter_length_le|exact Hl]. }
  unfold trust. destruct (PutPendingPairing p (n_store n)) as [e s'] eqn:E. cbn [fst snd] in *.
  rewrite He, Hd, state_bind_unfold. eexists. split; [reflexivity|].
  enough (n_store (raisePrompt p (set_store s' n)).2 = s') as Hr.
  { cbn [n_store add_effect]. cbn. rewrite Hr, Hp. apply elem_of_app. right. apply list_elem_of_here. }
  unfold raisePrompt. run_state. by repeat case_match.
Qed.

Lemma pendingOffer_quiet o n : n_store (pendingOffer unmarshal_regions o n).2 = n_store n.
Proof.
  unfold pendingOffer. run_state. case_bool_decide; [done|].
  unfold admitKey, change_allowed. run_state.
  destruct (admissible _) as [[|]|]; [done| |done]. by destruct (n_tunnel n).
Qed.

(** What the two sides write down about each other. *)
Definition pending_of_peer (session : string) (peer : PeerIdentity) (name : string) (intent : Intent)
    (dialled : bool) (p : PendingPairing) : Prop :=
  pg_session_id p = session /\ pg_fingerprint p = pi_Fingerprint peer /\ pg_name p = name /\
  pg_identity_public_key p = ssh_Marshal (pi_PublicKey peer) /\
  pg_may_approve p = PeerMayApprove intent /\ pg_may_request p = PeerMayRequest intent /\
  pg_we_dialled p = dialled /\ pg_our_answer p = ANSWER_UNSPECIFIED /\
  pg_their_answer p = ANSWER_UNSPECIFIED.

Lemma recordListened_writes w win peer name addresses tunnel m :
  m_windows m !! w = Some win -> can_record (m_node m) -> m_ids m (m_id m) <> emp ->
  pi_Fingerprint peer <> emp ->
  exists p m' win', recordListened unmarshal_regions w peer name addresses tunnel m =
      (inl (m_ids m (m_id m)), m') /\
    p ∈ sd_pending (n_store (m_node m')) /\
    pending_of_peer (m_ids m (m_id m)) peer name (w_intent win) false p /\
    m_windows m' !! w = Some win' /\ w_settled win' = w_settled win /\ w_intent win' = w_intent win /\
    m_Name m' = m_Name m /\ m_Advertised m' = m_Advertised m.
Proof.
  intros Hw Hc Hid Hfp. unfold recordListened. rewrite state_bind_unfold.
  destruct (NewRequestID m) as [session m1] eqn:E1. injection E1 as <- <-. cbn [fst snd].
  rewrite state_bind_unfold. set (m2 := (Now_ _).2). set (now := (Now_ _).1).
  assert (m_windows m2 !! w = Some win) as Hw2 by done. assert (can_record (m_node m2)) as Hc2 by done.
  rewrite state_bind_unfold. change (gets id m2) with (m2, m2). cbn [fst snd]. unfold window_at. rewrite Hw2.
  pose proof (pendingOffer_quiet tunnel (m_node m2)) as Hq.
  destruct (pendingOffer unmarshal_regions tunnel (m_node m2)) as [offered n3] eqn:Eo.
  rewrite state_bind_unfold, (on_node_at _ _ _ _ Eo). cbn [fst snd] in *.
  match goal with |- context [recordPending ?q] => set (p := q) end.
  destruct (recordPending_writes p n3) as (n4 & Hr & Hin); [done..|by unfold can_record, saves; rewrite Hq|].
  rewrite state_bind_unfold, (on_node_at _ (set_node n3 m2) _ _ Hr). cbn [fst snd].
  rewrite state_bind_unfold.
  destruct (settle (m_ids m (m_id m)) win) as [[] win'] eqn:Es.
  erewrite on_window_at; [|exact Hw2|exact Es]. cbn [fst snd].
  exists p. eexists _, win'. split; [reflexivity|]. cbn [m_node set_windows set_node m_windows].
  split; [exact Hin|]. split; [by split_and!|].
  split; [apply list_lookup_insert_eq; by eapply lookup_lt_Some|].
  unfold settle in Es. revert Es. run_state. by case_bool_decide; intros [= <-].
Qed.

Lemma restart_none now fp l w :
  (forall e, e ∈ l -> replaceable fp e.2 = false) ->
  foldl (fun w e => restart now fp e w) w l = w.
Proof.
  revert w. induction l as [|e l IH]; intros w Hl; [done|]. cbn [foldl].
  assert (restart now fp e w = w) as ->; [|apply IH; set_solver].
  unfold restart. by rewrite Hl by set_solver.
Qed.

Lemma startExchange_shown fp m w win now id x :
  displays fp m w win -> px_fingerprint x = fp ->
  exists win', startExchange now id x win = (None, win') /\
    w_exchanges win' = (<[id := mk_pinExchange fp (px_remote x) (px_initiator x) true (px_taken x)]>
      (w_exchanges win)) /\
    w_charged win' = w_charged win + 1 /\ w_closed win' = false /\ w_settled win' = false /\
    w_tired win' = false /\ w_expires win' = w_expires win /\ w_pin win' = w_pin win /\
    w_intent win' = w_intent win.
Proof.
  intros [_ _ (Hc & Hs & Ht) _ Hl Hf] <-. unfold startExchange. rewrite state_bind_unfold.
  unfold modify at 1 2. cbn [fst snd]. rewrite restart_none.
  2: { intros [id' x'] Hin. apply (Hf id'). by apply elem_of_map_to_list. }
  rewrite state_bind_unfold. unfold chargeLocked. rewrite Hs, Hc, Ht.
  rewrite (proj2 (Z.leb_gt _ _)) by done. cbn [orb fst snd].
  eexists. split; [reflexivity|]. by split_and!.
Qed.

Lemma openWindow_shown m w win :
  m_window m = Some w -> m_windows m !! w = Some win -> w_closed win = false ->
  n_clock (m_node m) (n_ticks (m_node m)) < w_expires win ->
  openWindow m = (Some w, set_node (at_tick (S (n_ticks (m_node m))) (m_node m)) m).
Proof.
  intros Hw Ha Hc He. unfold openWindow. run_state. rewrite Hw. cbn. rewrite Ha.
  unfold admits. by rewrite Hc, (proj2 (Z.ltb_lt _ _)).
Qed.

Lemma PairStart_shown pj m w win sid random ini random' :
  displays (pi_Fingerprint pj) m w win -> m_random m = sid :: random ->
  newInitiator (pinInputs (w_pin win) (pi_PublicKey pj) (m_PublicKey m) (take pakeSessionIDSize sid))
    adListener random = Ok (ini, random') ->
  exists m' win', PairStart (Some pj) m =
      (inl (mk_PairStartResponse (take pakeSessionIDSize sid) (ci_share ini)), m') /\
    m' = mk_machine (at_tick (S (S (n_ticks (m_node m)))) (m_node m)) (<[w := win']> (m_windows m)) (m_window m)
           (m_PublicKey m) (m_Name m) (m_Advertised m) random' (m_ids m) (m_id m) /\
    w_exchanges win' !! hex (take pakeSessionIDSize sid) =
      Some (mk_pinExchange (pi_Fingerprint pj) (pi_RemoteAddr pj) ini true false) /\
    w_closed win' = false /\ w_settled win' = false /\ w_tired win' = false /\
    w_expires win' = w_expires win /\ w_intent win' = w_intent win.
Proof.
  intros Hd Hr Hi. unfold PairStart.
  rewrite state_bind_unfold, (openWindow_shown m w win); [|destruct Hd as [? ? (? & ? & ?) Htime ? ?]; try done; apply Htime; lia..].
  cbn [fst snd]. set (m1 := set_node _ m).
  rewrite state_bind_unfold.
  assert (newPAKESessionID m1 = (Ok (take pakeSessionIDSize sid), set_random random m1)) as ->.
  { unfold newPAKESessionID. rewrite state_bind_unfold. cbn [gets id fst snd m_random m1 set_node]. by rewrite Hr. }
  cbn [fst snd]. rewrite state_bind_unfold. cbn [gets id fst snd]. unfold window_at.
  cbn [m_windows m_PublicKey m_random set_random set_node m1]. rewrite (displays_at _ _ _ _ Hd), Hi.
  set (x := mk_pinExchange _ _ ini false false).
  set (now := n_clock (m_node m) (S (n_ticks (m_node m)))).
  destruct (startExchange_shown _ _ _ _ now (hex (take pakeSessionIDSize sid)) x Hd eq_refl)
    as (win' & Hse & Hx & _ & Hc & Hs & Ht & He & _ & Hin).
  eexists _, win'. split.
  { rewrite !state_bind_unfold. erewrite on_window_at; [|exact (displays_at _ _ _ _ Hd)|exact Hse].
    reflexivity. }
  split; [reflexivity|]. rewrite Hx, lookup_insert_eq. by split_and!.
Qed.

Lemma claimLocked_open win :
  w_closed win = false -> w_settled win = false -> w_tired win = false ->
  exists win', claimLocked win = (true, win') /\ w_settled win' = true /\ w_intent win' = w_intent win.
Proof.
  intros Hc Hs Ht. unfold claimLocked. run_state.
  destruct (0 <? w_charged win); cbn; rewrite Hc, Hs, Ht; cbn; eauto.
Qed.

Lemma PairFinish_shown pj req m w win ini armed session :
  m_window m = Some w -> m_windows m !! w = Some win -> w_closed win = false ->
  w_settled win = false -> w_tired win = false ->
  n_clock (m_node m) (n_ticks (m_node m)) < w_expires win ->
  w_exchanges win !! hex (fq_session_id req) =
    Some (mk_pinExchange (pi_Fingerprint pj) (pi_RemoteAddr pj) ini armed false) ->
  fst (Finish ini (fq_share req) adJoiner) = Ok session ->
  Session_Verify session (fq_confirmation req) = true ->
  can_record (m_node m) -> m_ids m (m_id m) <> emp -> pi_Fingerprint pj <> emp ->
  exists p m' win', PairFinish unmarshal_regions (Some pj) req m =
      (inl (mk_PairFinishResponse (Cpace.Confirmation session) (m_ids m (m_id m)) (m_Name m)
         (PeerMayApprove (w_intent win)) (PeerMayRequest (w_intent win)) (m_Advertised m)
         (offer (m_node m'))), m') /\
    p ∈ sd_pending (n_store (m_node m')) /\
    pending_of_peer (m_ids m (m_id m)) pj (fq_instance_name req) (w_intent win) false p /\
    m_windows m' !! w = Some win' /\ w_settled win' = true.
Proof.
  intros Hw Ha Hc Hs Ht Htime Hx Hf Hv Hrec Hid Hfp. unfold PairFinish.
  rewrite state_bind_unfold, (openWindow_shown m w win) by done. cbn [fst snd].
  set (x := mk_pinExchange _ _ _ _ false) in Hx.
  set (x' := mk_pinExchange (pi_Fingerprint pj) (pi_RemoteAddr pj) ini false true).
  assert (takeExchange (hex (fq_session_id req)) (pi_Fingerprint pj) win =
    (Ok x', set_exchanges (<[hex (fq_session_id req) := x']> (w_exchanges win)) win)) as Htake.
  { unfold takeExchange. rewrite state_bind_unfold. unfold gets. cbn [fst snd]. rewrite Hx. cbn [px_taken x px_fingerprint].
    rewrite bool_decide_eq_false_2 by auto. done. }
  rewrite state_bind_unfold. erewrite on_window_at; [|exact Ha|exact Htake]. cbn [fst snd px_initiator x'].
  rewrite Hf, Hv. cbn [negb].
  set (win1 := set_exchanges _ win). destruct (claimLocked_open
    (set_exchanges (delete (hex (fq_session_id req)) (w_exchanges win1)) win1)) as (win2 & Hcl & Hs2 & Hi2); [done..|].
  assert (passExchange (hex (fq_session_id req)) win1 = (true, win2)) as Hpass.
  { unfold passExchange. rewrite state_bind_unfold. exact Hcl. }
  rewrite state_bind_unfold. erewrite on_window_at; [|apply list_lookup_insert_eq; by eapply lookup_lt_Some|exact Hpass].
  cbn [fst snd negb]. set (m2 := set_windows _ _).
  destruct (recordListened_writes w win2 pj (fq_instance_name req) (fq_listen_addresses req) (fq_tunnel req) m2)
    as (p & m' & win' & Hr & Hin & Hp & Hw' & Hs' & Hi' & Hn & Hadv);
    [apply list_lookup_insert_eq; cbn [m_windows set_windows set_node]; rewrite length_insert; by eapply lookup_lt_Some|exact Hrec|exact Hid|exact Hfp|].
  rewrite state_bind_unfold, Hr. cbn [fst snd]. rewrite state_bind_unfold. unfold gets. cbn [fst snd].
  unfold id, window_at. rewrite Hw', Hi', Hi2, Hn, Hadv. exists p, m', win'.
  split; [reflexivity|]. split; [exact Hin|]. rewrite Hi2 in Hp. split; [exact Hp|]. split; [done|].
  by rewrite Hs', Hs2.
Qed.

Lemma recordJoined_writes peer dialled from_code answer m intent :
  can_record (m_node m) -> ja_session answer <> emp -> pi_Fingerprint peer <> emp ->
  ja_mayApprove answer = PeerMayApprove intent -> ja_mayRequest answer = PeerMayRequest intent ->
  intent <> IntentUnspecified ->
  exists p m', recordJoined unmarshal_regions peer dialled from_code answer m = (Ok p, m') /\
    p ∈ sd_pending (n_store (m_node m')) /\
    pending_of_peer (ja_session answer) peer (ja_name answer) (Mirror intent) true p.
Proof.
  intros Hc Hs Hf Ha Hr Hi. unfold recordJoined. rewrite (bool_decide_eq_false_2 (ja_session answer = emp)) by done.
  rewrite Ha, Hr. assert (Mirror (IntentOf (PeerMayApprove intent) (PeerMayRequest intent)) = Mirror intent) as ->
    by (by destruct intent).
  rewrite bool_decide_eq_false_2 by (by destruct intent).
  rewrite state_bind_unfold. set (m1 := (Now_ m).2). set (now := (Now_ m).1).
  assert (can_record (m_node m1)) as Hc1 by done.
  pose proof (pendingOffer_quiet (ja_tunnel answer) (m_node m1)) as Hq.
  destruct (pendingOffer unmarshal_regions (ja_tunnel answer) (m_node m1)) as [offered n2] eqn:Eo.
  rewrite state_bind_unfold, (on_node_at _ _ _ _ Eo). cbn [fst snd] in *.
  match goal with |- context [recordPending ?q] => set (p := q) end.
  destruct (recordPending_writes p n2) as (n3 & Hw & Hin); [done..|by unfold can_record, saves; rewrite Hq|].
  rewrite state_bind_unfold, (on_node_at _ (set_node n2 m1) _ _ Hw). cbn [fst snd].
  exists p. eexists. split; [reflexivity|]. split; [exact Hin|]. by split_and!.
Qed.

Context (dial : list string -> option PublicKey -> list (result reachedListener)).
Context (reachPairingServer : PairingCode -> option PublicKey -> result reachedListener).

(** C21. A pairing by PIN meets.  When the PIN typed is the one on the
    listener's screen, each machine sees the other's key on its connection, an
    attempt is left and both can write to their stores, then the join succeeds:
    each side holds a pairing under the one session the listener named, filed
    under the other's identity and key, with the directions one side's mirror of
    the other's, unanswered on both; and the code is spent. *)
Theorem pin_pairing_meets `{!RistrettoLaws} J L pj pl w win address code expected reached
    sid random ini random' share session randomJ :
  pi_PublicKey pj = m_PublicKey J -> pi_PublicKey pl = m_PublicKey L ->
  pi_Fingerprint pj <> emp -> pi_Fingerprint pl <> emp ->
  can_record (m_node J) -> can_record (m_node L) -> m_ids L (m_id L) <> emp ->
  displays (pi_Fingerprint pj) L w win -> w_intent win <> IntentUnspecified -> w_pin win <> emp ->
  typed code = Ok (w_pin win, emp) -> CodeKey code = Ok expected ->
  reachListener dial reachPairingServer address code expected = Ok reached -> rl_peer reached = pl ->
  m_random L = sid :: random ->
  newInitiator (pinInputs (w_pin win) (m_PublicKey J) (m_PublicKey L) (take pakeSessionIDSize sid))
    adListener random = Ok (ini, random') ->
  respond (pinInputs (w_pin win) (m_PublicKey J) (m_PublicKey L) (take pakeSessionIDSize sid))
    adJoiner (ci_share ini) adListener (m_random J) = Ok (share, session, randomJ) ->
  exists a b J' L' win',
    PairWith unmarshal_regions dial reachPairingServer (client := listener pj) address code (J, L) =
      (Ok a, (J', L')) /\
    a ∈ sd_pending (n_store (m_node J')) /\ b ∈ sd_pending (n_store (m_node L')) /\
    pending_of_peer (m_ids L (m_id L)) pl (m_Name L) (Mirror (w_intent win)) true a /\
    pending_of_peer (m_ids L (m_id L)) pj (m_Name J) (w_intent win) false b /\
    m_windows L' !! w = Some win' /\ w_settled win' = true.
Proof.
  intros Hkj Hkl Hfj Hfl HJ HL Hid Hd Hint Hpin Htyped Hkey Hreach Hpeer Hrnd Hini Hresp.
  destruct (PairStart_shown pj L w win sid random ini random') as
    (L1 & win1 & Hstart & HL1 & Hx & Hc & Hs & Ht & Hexp & Hi); [done..|by rewrite Hkj|].
  destruct (finish_agrees _ _ _ _ _ _ _ _ _ _ Hini Hresp) as (sA & a' & Hfin & _ & HvL & HvJ & _).
  set (req := mk_PairFinishRequest (take pakeSessionIDSize sid) share (Cpace.Confirmation session)
    (m_Name J) (m_Advertised J) (offer (m_node J))).
  assert (w < length (m_windows L))%nat as Hlen by (eapply lookup_lt_Some, (displays_at _ _ _ _ Hd)).
  destruct (PairFinish_shown pj req L1 w win1 ini true sA) as (b & L2 & win2 & Hfinish & Hb & Hpb & Hw2 & Hs2);
    [subst L1; try done..|].
  { exact (displays_window _ _ _ _ Hd). }
  { by apply list_lookup_insert_eq. }
  { rewrite Hexp. apply (displays_time _ _ _ _ Hd). cbn. lia. }
  { cbn [fq_share req]. by rewrite Hfin. }
  set (answer := mk_joinAnswer (m_ids L (m_id L)) (m_Name L) (m_Advertised L) (offer (m_node L2))
    (PeerMayApprove (w_intent win)) (PeerMayRequest (w_intent win))).
  set (J1 := set_random randomJ J).
  assert (pairByPIN (client := listener pj) pl (w_pin win) (bool_decide (expected <> None)) (J, L) =
    (Ok answer, (J1, L2))) as Hjoin.
  { unfold pairByPIN. rewrite state_bind_unfold. erewrite there_at; [|exact Hstart]. cbn [fst snd].
    rewrite state_bind_unfold. erewrite here_at; [|reflexivity]. cbn [id fst snd].
    cbn [ps_session_id ps_share]. rewrite Hkl, Hresp. rewrite state_bind_unfold.
    erewrite here_at; [|reflexivity]. cbn [fst snd]. rewrite state_bind_unfold.
    erewrite there_at; [|exact Hfinish]. cbn [fst snd fp_confirmation].
    rewrite HvJ. cbn [negb]. subst L1. cbn [m_ids m_id m_Name m_Advertised fp_session_id fp_instance_name
      fp_listen_addresses fp_tunnel fp_may_approve fp_may_request]. by rewrite Hi. }
  destruct (recordJoined_writes pl (if rl_raw reached then emp else rl_address reached)
    (bool_decide (expected <> None)) answer J1 (w_intent win)) as (a & J2 & Hrec & Ha & Hpa); [done..|].
  exists a, b, J2, L2, win2. split.
  { unfold PairWith. rewrite Htyped, Hkey. cbn [mbind result_bind]. rewrite Hreach. cbn [mbind result_bind].
    rewrite (bool_decide_eq_true_2 (w_pin win <> emp)) by done. rewrite Hpeer, state_bind_unfold, Hjoin. cbn [fst snd].
    by erewrite here_at; [|exact Hrec]. }
  split_and!; try done.
  - subst L1. by rewrite Hi in Hpb.
Qed.

End Meeting.

(** ** Two concrete machines *)

Import Toy.
Import ToyGroup.

Definition toy_machine (windows : list pairingWindow) (key : PublicKey) (name : string)
    (random : list bytes) : machine :=
  mk_machine (toy_node []) windows (match windows with [] => None | _ => Some 0%nat end) key name
    [(name +:+ ":7777")%string] random (fun _ => "s1"%string) 0.

Definition on_screen : pairingWindow := newPairingWindow "123456" "0123456789" IntentPeerApproves 0.
Definition sid_block : bytes := of_string "session-id-bytes-and-more".
Definition toy_desk : machine :=
  toy_machine [on_screen] the_desk_key "desk" [sid_block; block 3; block 4].
Definition toy_box : machine := toy_machine [] the_box_key "box" [block 5].
Definition box_seen : PeerIdentity := mk_PeerIdentity the_box_key "SHA256:box" "10.0.0.9:4".
Definition desk_seen : PeerIdentity := mk_PeerIdentity the_desk_key "SHA256:desk" "10.0.0.1:7777".
Definition toy_dial : list string -> option PublicKey -> list (result reachedListener) :=
  fun l _ => map (fun a => Ok (mk_reachedListener desk_seen a false)) l.
Definition no_server : PairingCode -> option PublicKey -> result reachedListener :=
  fun _ _ => Err (errors_New "no pairing server").

Definition toy_inputs : Inputs :=
  pinInputs "123456" the_box_key the_desk_key (take pakeSessionIDSize sid_block).
Definition toy_start := newInitiator toy_inputs adListener [block 3; block 4].
Definition toy_ini : Initiator :=
  match toy_start with Ok (a, _) => a | Err _ => mk_Initiator toy_inputs None [] [] true end.
Definition toy_answer := respond toy_inputs adJoiner (ci_share toy_ini) adListener [block 5].
Definition toy_share : bytes := match toy_answer with Ok (x, _, _) => x | Err _ => [] end.
Definition toy_session : Session := match toy_answer with Ok (_, s, _) => s | Err _ => no_session end.

Example toy_starts : toy_start = Ok (toy_ini, [block 4]).
Proof. vm_cast_no_check (eq_refl toy_start). Qed.
Example toy_answers : toy_answer = Ok (toy_share, toy_session, []).
Proof. vm_cast_no_check (eq_refl toy_answer). Qed.

Definition meeting (typed_pin : string) :=
  PairWith toy_regions toy_dial no_server (client := listener toy_regions box_seen)
    "desk:7777" (typed_code typed_pin emp) (toy_box, toy_desk).

(** The right PIN, and a wrong one: nothing is written down on either side. *)
Definition written (m : machine) : list (string * bool * bool) :=
  map (fun p => (pg_fingerprint p, pg_may_approve p, pg_may_request p)) (sd_pending (n_store (m_node m))).
Example right_pin :
  let '(r, (b, d)) := meeting "123 456" in
  (written b, written d) =
  ([("SHA256:desk"%string, false, true)], [("SHA256:box"%string, true, false)]).
Proof. vm_compute. reflexivity. Qed.
Example wrong_pin :
  let '(r, (b, d)) := meeting "123457" in
  match r with Err e => errors_Is e ErrPINRefused | Ok _ => false end = true /\
  (written b, written d) = ([], []).
Proof. vm_compute. split; reflexivity. Qed.

Lemma toy_displays : displays "SHA256:box" toy_desk 0 on_screen.
Proof.
  constructor; [reflexivity|reflexivity|split_and!; reflexivity| |reflexivity|].
  - intros k Hk. do 3 (destruct k as [|k]; [reflexivity|]). exfalso. cbn in Hk. lia.
  - intros id x Hx. cbn in Hx. by rewrite lookup_empty in Hx.
Qed.

Lemma pin_pairing_meets_witness :
  exists a J' L', meeting "123456" = (Ok a, (J', L')) /\ pg_may_request a = true.
Proof.
  destruct (pin_pairing_meets toy_regions toy_dial no_server toy_box toy_desk box_seen desk_seen
    0 on_screen "desk:7777" (typed_code "123456" emp) None
    (mk_reachedListener desk_seen "desk:7777" false) sid_block [block 3; block 4] toy_ini [block 4]
    toy_share toy_session []) as (a & b & J' & L' & win' & Hw & _ & _ & Hp & _).
  - reflexivity.
  - reflexivity.
  - discriminate.
  - discriminate.
  - split; [intros k; reflexivity|]. cbn. unfold MaxPendingPairings. lia.
  - split; [intros k; reflexivity|]. cbn. unfold MaxPendingPairings. lia.
  - discriminate.
  - exact toy_displays.
  - discriminate.
  - discriminate.
  - vm_compute. reflexivity.
  - reflexivity.
  - vm_compute. reflexivity.
  - reflexivity.
  - reflexivity.
  - exact toy_starts.
  - exact toy_answers.
  - exists a, J', L'. split; [exact Hw|]. destruct Hp as (_ & _ & _ & _ & _ & Hp & _). exact Hp.
Defined.
