(* ===== verification/Converge.v ===== *)
(** * Converge: taking an answer to the peer, and asking again

    [pkg/peer/pending.go] and [refusal.go] around [Settle]: the call that takes
    this side's answer to its peer by the paths a pairing can be dialled on, and
    everything that makes it -- answering, withdrawing, the convergence loop and
    the prompt.  What is at the far end of a connection is the state [W] of the
    class [Network], so two nodes can be joined by making [W] the other node. *)

From S2P Require Import Prelude.
From S2P Require Import GoText.
From S2P Require Import Ssh.
From S2P Require Import Proto.
From S2P Require Import PairingProto.
From S2P Require Import Cpace.
From S2P Require Import Trust.
From S2P Require Import Pairings.
From S2P Require Import Regions.
From S2P Require Import Settle.
From S2P Require Import Pairing.

Local Open Scope Z_scope.
Local Open Scope ladulas_scope.

Definition ErrNoAddress : error :=
  sentinel "peer.ErrNoAddress" "peer: the peer advertises no address".

(** What a node reaches: whether the context of a call is over, the first of
    some addresses to answer, the settlement at an address of a given identity,
    and through a tunnel client raised for it; and whether a client for an
    identity can be made at all. *)
Class Network `{Ssh} (W : Type) := {
  net_over : state W bool;
  net_probe : list string -> state W string;
  net_settle : string -> PublicKey -> SettlePairingRequest -> state W (SettlePairingResponse + error);
  net_raise : string -> state W (option error);
  net_settle_raised : string -> PublicKey -> SettlePairingRequest ->
    state W (SettlePairingResponse + error);
  net_client : PublicKey -> option error
}.

Section Converge.
Context `{Unicode} `{Ssh}.
Context (unmarshal_regions : string -> result (list relayRegion)).
Context {W : Type} `{net : !Network W}.

(** ** The call *)

Definition settleThroughTunnel (pending : PendingPairing) (key : PublicKey)
    (msg : SettlePairingRequest) : state (node * W) (result SettlePairingResponse) :=
  n ← here (gets id);
  match n_tunnel n with
  | None => mret (Err (errors_New "settle the pairing through the tunnel: the tunnel is off here"))
  | Some _ =>
    let address := (pg_tunnel pending)⇢to_server_address in
    let refused := checkOfferRegion unmarshal_regions n address in
    if bool_decide (refused <> emp)
    then mret (Err (errors_New ("settle the pairing through the tunnel: " +:+ refused)))
    else
      raised ← there (net_raise address);
      match raised with
      | Some e => mret (Err (wrap_w "settle the pairing through the tunnel: " e emp))
      | None =>
        match net_client key with
        | Some e => mret (Err e)
        | None =>
          resp ← there (net_settle_raised address key msg);
          match resp with
          | inl resp => mret (Ok resp)
          | inr e => mret (Err (wrap_w "settle the pairing through the tunnel: " e emp))
          end
        end
      end
  end.

(** The addresses in turn: the answer, or the last error and whether the call's
    time is over. *)
Fixpoint settle_each (key : PublicKey) (msg : SettlePairingRequest) (addresses : list string)
    (last : option error) : state (node * W) (SettlePairingResponse + option error * bool) :=
  match addresses with
  | [] => mret (inr (last, false))
  | address :: rest =>
    resp ← there (net_settle address key msg);
    match resp with
    | inl resp => mret (inl resp)
    | inr e =>
      let e := wrap_w ("settle the pairing with " +:+ address +:+ ": ") e emp in
      over ← there net_over;
      if (over : bool) then mret (inr (Some e, true)) else settle_each key msg rest (Some e)
    end
  end.

(** With a tunnel to fall back on the addresses are probed first, and the one
    that answers is tried first. *)
Definition probed (tunnelled : bool) (addresses : list string) : state (node * W) (list string) :=
  if tunnelled && bool_decide (addresses <> [])
  then
    first ← there (net_probe addresses);
    mret (if bool_decide (first = emp) then []
          else first :: List.filter (fun a => bool_decide (a <> first)) addresses)
  else mret addresses.

Definition callSettle (pending : PendingPairing) (reason : string)
    : state (node * W) (result SettlePairingResponse) :=
  n ← here (gets id);
  if negb (PendingDialable pending (tunnelVersion n)) then mret (Err ErrNoAddress)
  else
    match ParsePublicKey (pg_identity_public_key pending) with
    | Err e => mret (Err (wrap_w "read the peer's identity key: " e emp))
    | Ok key =>
      match net_client key with
      | Some e => mret (Err e)
      | None =>
        let msg := settle_request pending reason in
        let tunnelled := TunnelRaisable (pg_tunnel pending) (tunnelVersion n) in
        addresses ← probed tunnelled (pg_addresses pending);
        direct ← settle_each key msg addresses None;
        match direct with
        | inl resp => mret (Ok resp)
        | inr (Some e, true) => mret (Err e)
        | inr (last, _) =>
          if tunnelled then settleThroughTunnel pending key msg
          else mret (Err (default ErrNoAddress last))
        end
      end
    end.

(** ** What makes it *)

(** The goroutine [nudgePeer] starts. *)
Definition nudgePeer (pending : PendingPairing) (reason : string) : state (node * W) unit :=
  n ← here (gets id);
  if negb (PendingDialable pending (tunnelVersion n)) || negb (n_serving n) then mret tt
  else
    resp ← callSettle pending reason;
    match resp with
    | Err _ => mret tt
    | Ok resp =>
      _ ← when (refusedHere pending) (here (releaseRefusal (pg_session_id pending)));
      _ ← here (applySettlement (pg_session_id pending) resp);
      mret tt
    end.

(** [AnswerPending] with the goroutine it starts run to its end. *)
Definition answerAndNudge (ref : string) (accepted : bool) (reason : string)
    : state (node * W) (PairingRecordState * option PendingPairing * option TrustRecord * option error) :=
  out ← here (AnswerPending ref accepted reason);
  match out with
  | (st, Some pending, record, None) =>
    _ ← nudgePeer pending reason;
    _ ← here (emit Poked);
    mret (st, Some pending, record, None)
  | (st, _, _, err) => mret (st, None, None, err)
  end.

Definition tellPeer (pending : PendingPairing) (reason : string) : state (node * W) bool :=
  n ← here (gets id);
  if negb (PendingDialable pending (tunnelVersion n)) then mret false
  else
    resp ← callSettle pending reason;
    match resp with
    | Err _ => mret false
    | Ok _ => _ ← here (told (pg_session_id pending)); mret true
    end.

Definition withdrawAndTell (ref reason : string) : state (node * W) (result (PendingPairing * bool)) :=
  out ← here (Withdraw ref reason);
  match out with
  | Err e => mret (Err e)
  | Ok pending => reached ← tellPeer pending reason; mret (Ok (pending, reached))
  end.

(** ** The loop *)

Fixpoint deliver_each (held : list heldRefusal) : state (node * W) unit :=
  match held with
  | [] => mret tt
  | refusal :: rest =>
    over ← there net_over;
    if (over : bool) then mret tt
    else
      go ← here (shouldSettle (hr_pending refusal));
      _ ← (if (go : bool)
           then
             resp ← callSettle (hr_pending refusal) (hr_reason refusal);
             match resp with
             | Err _ => mret tt
             | Ok _ => here (told (pg_session_id (hr_pending refusal)))
             end
           else mret tt);
      deliver_each rest
  end.

Definition deliverRefusals : state (node * W) unit :=
  held ← here (gets undelivered);
  deliver_each held.

Fixpoint converge_each (pendings : list PendingPairing) : state (node * W) unit :=
  match pendings with
  | [] => mret tt
  | pending :: rest =>
    over ← there net_over;
    if (over : bool) then mret tt
    else
      _ ← when (bool_decide (pg_our_answer pending = ANSWER_UNSPECIFIED)) (here (raisePrompt pending));
      go ← here (shouldSettle pending);
      _ ← (if (go : bool)
           then
             resp ← callSettle pending emp;
             match resp with
             | Err _ => mret tt
             | Ok resp => _ ← here (applySettlement (pg_session_id pending) resp); mret tt
             end
           else mret tt);
      converge_each rest
  end.

(** One turn of the loop, after the queued keys have been taken to their peers. *)
Definition convergeOnce : state (node * W) unit :=
  _ ← deliverRefusals;
  pendings ← here (trust PendingPairings);
  converge_each pendings.

End Converge.

(** ** The prompt *)

Section Prompting.
Context `{Unicode} `{Hashes} `{Ristretto} `{Ssh} {W : Type}.

(** [confirm] is the engine deciding the request; only a person's answer is
    one, and it is recorded with [AnswerPending]. *)
Definition runPrompt (confirm : ApprovalRequest -> state W (result ApprovalResponse))
    (pending : PendingPairing) : state (machine * W) unit :=
  let session := pg_session_id pending in
  msg ← here (pendingConfirmation pending);
  _ ← here (on_node (noteConfirmation session (rq_request_id msg)));
  resp ← there (confirm msg);
  here (on_node
    (match resp with
     | Err _ => promptAnswered session false false emp
     | Ok resp =>
       promptAnswered session (bool_decide (rs_source resp = SOURCE_USER))
         (bool_decide (rs_decision resp = DECISION_APPROVE)) (rs_reason resp)
     end)).

End Prompting.

(** ** A peer that cannot be reached *)

Section Unreachable.
Context `{Unicode} `{Ssh}.
Context (unmarshal_regions : string -> result (list relayRegion)).
Context {W : Type} `{net : !Network W}.

(** Nothing gets through. *)
Definition dead : Prop :=
  (forall a k m w, exists e w', net_settle a k m w = (inr e, w')) /\
  (forall a k m w, exists e w', net_settle_raised a k m w = (inr e, w')).

(** What a pairing is made of: the store, the refusals and the allowlist. *)
Definition same_pairings (n n' : node) : Prop :=
  n_store n' = n_store n /\ n_refusals n' = n_refusals n /\ n_tunnel n' = n_tunnel n.

Create HintDb idle discriminated.

#[local] Instance same_pairings_preorder : PreOrder same_pairings.
Proof.
  split; [by intros n|]. intros a b c (H1 & H2 & H3) (H4 & H5 & H6). unfold same_pairings. by rewrite H4, H5, H6.
Qed.

Definition idle {A} (op : state (node * W) A) : Prop :=
  forall n w, same_pairings n (op (n, w)).2.1.

Lemma idle_ret {A} (a : A) : idle (mret a).
Proof. intros n w. reflexivity. Qed.

Lemma idle_bind {A B} (op : state (node * W) A) (f : A -> state (node * W) B) :
  idle op -> (forall a, idle (f a)) -> idle (op ≫= f).
Proof.
  intros Ho Hf n w. rewrite state_bind_unfold. pose proof (Ho n w) as H1.
  destruct (op (n, w)) as [a [n' w']]. etransitivity; [exact H1|apply Hf].
Qed.

Lemma idle_there {A} (op : state W A) : idle (there op).
Proof. intros n w. unfold there. destruct (op w). reflexivity. Qed.

Lemma idle_here {A} (op : state node A) : (forall n, same_pairings n (op n).2) -> idle (here op).
Proof. intros Ho n w. unfold here. pose proof (Ho n). by destruct (op n). Qed.

Lemma idle_gets {A} (f : node -> A) : idle (here (gets f)).
Proof. by apply idle_here. Qed.

Lemma idle_raisePrompt p : idle (here (raisePrompt p)).
Proof. apply idle_here. intros n. unfold raisePrompt. run_state. by repeat case_match. Qed.

Lemma idle_shouldSettle p : idle (here (shouldSettle p)).
Proof.
  apply idle_here. intros n. unfold shouldSettle. run_state.
  destruct (negb _); [done|]. destruct (n_attempted n !! pg_session_id p); cbn; by repeat case_match.
Qed.

Lemma idle_when b (op : state (node * W) unit) : idle op -> idle (when b op).
Proof. intros Ho. destruct b; [done|apply idle_ret]. Qed.

Hint Resolve idle_ret idle_bind idle_there idle_gets idle_raisePrompt idle_shouldSettle idle_when : idle.

Ltac idly := repeat (first [lazymatch goal with |- idle (mbind _ (callSettle _ _ _)) => fail | |- idle (mbind _ _) => apply idle_bind end|apply idle_when|progress (eauto with idle)|lazymatch goal with |- forall _, _ => intros ? end|case_match]).

Lemma idle_settle_each key msg addresses last : idle (settle_each key msg addresses last).
Proof. revert last. induction addresses as [|a l IH]; intros last; cbn [settle_each]; idly. Qed.

Lemma idle_callSettle p reason : idle (callSettle unmarshal_regions p reason).
Proof.
  pose proof idle_settle_each. unfold callSettle, probed, settleThroughTunnel. idly.
Qed.

(** With nothing getting through, the call has no answer. *)
Lemma settle_each_dead key msg addresses last w :
  dead -> exists e over w', settle_each key msg addresses last w = (inr (e, over), w').
Proof.
  intros [Hd _]. revert last w. induction addresses as [|a l IH]; intros last [n w]; cbn [settle_each].
  { by eexists _, _, _. }
  rewrite state_bind_unfold. destruct (Hd a key msg w) as (e & w1 & He).
  erewrite there_at by exact He. cbn [fst snd]. rewrite state_bind_unfold.
  destruct (there net_over (n, w1)) as [[] nw]; cbn [fst snd]; [by eexists _, _, _|apply IH].
Qed.

Lemma callSettle_dead p reason nw :
  dead -> exists e nw', callSettle unmarshal_regions p reason nw = (Err e, nw').
Proof.
  intros Hd. unfold callSettle. rewrite state_bind_unfold. set (n := (here _ nw).1). set (nw1 := (here _ nw).2).
  destruct (negb _); [by eexists _, _|]. destruct (ParsePublicKey _) as [key|e]; [|by eexists _, _].
  destruct (net_client key); [by eexists _, _|]. rewrite state_bind_unfold.
  set (addresses := (probed _ _ nw1).1). set (nw2 := (probed _ _ nw1).2). rewrite state_bind_unfold.
  destruct (settle_each_dead key (settle_request p reason) addresses None nw2 Hd) as (e & over & [n3 w3] & ->).
  cbn [fst snd].
  assert (exists e' nw', settleThroughTunnel unmarshal_regions p key (settle_request p reason) (n3, w3) = (Err e', nw')) as Ht.
  { unfold settleThroughTunnel. rewrite state_bind_unfold. erewrite here_at by reflexivity. cbn [fst snd id].
    destruct (n_tunnel n3); [|by eexists _, _]. case_bool_decide; [by eexists _, _|].
    rewrite state_bind_unfold. destruct (there (net_raise _) _) as [[e'|] [n4 w4]]; cbn [fst snd]; [by eexists _, _|].
    destruct (net_client key); [by eexists _, _|]. rewrite state_bind_unfold. destruct Hd as [_ Hd].
    destruct (Hd ((pg_tunnel p)⇢to_server_address) key (settle_request p reason) w4) as (e' & w5 & He).
    erewrite there_at by exact He. by eexists _, _. }
  destruct e as [e|]; [destruct over; [by eexists _, _|]|]; (destruct (TunnelRaisable _ _); [exact Ht|by eexists _, _]).
Qed.

(** An operation that goes on from the answer of a call does nothing more. *)
Lemma idle_after_call p reason (f : result SettlePairingResponse -> state (node * W) unit) :
  dead -> (forall e, idle (f (Err e))) -> idle (callSettle unmarshal_regions p reason ≫= f).
Proof.
  intros Hd Hf n w. rewrite state_bind_unfold. pose proof (idle_callSettle p reason n w) as Hi.
  destruct (callSettle_dead p reason (n, w) Hd) as (e & [n' w'] & He). rewrite He in *.
  etransitivity; [exact Hi|apply Hf].
Qed.

Lemma idle_convergeOnce : dead -> idle (convergeOnce unmarshal_regions).
Proof.
  intros Hd. unfold convergeOnce, deliverRefusals. apply idle_bind; [|intros _].
  { apply idle_bind; [apply idle_gets|]. intros held. induction held as [|h l IH]; cbn [deliver_each]; idly.
    all: apply idle_after_call; [done|]; idly. }
  apply idle_bind; [apply idle_here|].
  { intros n. by destruct n. }
  intros l. induction l as [|q l IH]; cbn [converge_each]; idly.
  all: apply idle_after_call; [done|]; idly.
Qed.

(** A peer that cannot be reached costs nothing.  When no call
    gets through, taking an answer to the peer, telling it, and a whole turn of
    the loop leave the store, the held refusals and the tunnel's allowlist as
    they were: a pairing is neither lost nor moved on, and whoever was to be
    told is reported as not told. *)
Theorem unreachable_changes_nothing p reason n w :
  dead ->
  same_pairings n (nudgePeer unmarshal_regions p reason (n, w)).2.1 /\
  (tellPeer unmarshal_regions p reason (n, w)).1 = false /\
  same_pairings n (tellPeer unmarshal_regions p reason (n, w)).2.1 /\
  same_pairings n (convergeOnce unmarshal_regions (n, w)).2.1.
Proof.
  intros Hd. split_and!.
  - unfold nudgePeer. rewrite state_bind_unfold. erewrite here_at by reflexivity. cbn [fst snd].
    destruct (_ || _); [reflexivity|]. rewrite state_bind_unfold.
    pose proof (idle_callSettle p reason n w) as Hi. destruct (callSettle_dead p reason (n, w) Hd) as (e & nw & He).
    rewrite He in *. exact Hi.
  - unfold tellPeer. rewrite state_bind_unfold. erewrite here_at by reflexivity. cbn [fst snd].
    destruct (negb _); [reflexivity|]. rewrite state_bind_unfold.
    destruct (callSettle_dead p reason (n, w) Hd) as (e & nw & ->). done.
  - unfold tellPeer. rewrite state_bind_unfold. erewrite here_at by reflexivity. cbn [fst snd].
    destruct (negb _); [reflexivity|]. rewrite state_bind_unfold.
    pose proof (idle_callSettle p reason n w) as Hi. destruct (callSettle_dead p reason (n, w) Hd) as (e & nw & He).
    rewrite He in *. exact Hi.
  - by apply idle_convergeOnce.
Qed.

End Unreachable.

(** ** Two nodes on one network *)

Section Meeting.
Context `{Unicode} `{Ssh}.
Context (unmarshal_regions : string -> result (list relayRegion)).

(** The far end is the node that sees the caller as [fingerprint]. *)
Definition answers (fingerprint : string) (msg : SettlePairingRequest)
    : state node (SettlePairingResponse + error) := fun n =>
  let '(r, n) := settlePairingReply fingerprint msg n in
  (match r with inl resp => inl resp | inr (PermissionDenied e) | inr (Internal e) => inr e end, n).

Definition wire (fingerprint : string) : Network node := {|
  net_over := mret false;
  net_probe addresses := mret (hd emp addresses);
  net_settle _ _ msg := answers fingerprint msg;
  net_raise _ := mret None;
  net_settle_raised _ _ msg := answers fingerprint msg;
  net_client _ := None |}.

(** The caller has a direct address for the peer, and a key to expect. *)
Definition direct (p : PendingPairing) : Prop :=
  hd emp (pg_addresses p) <> emp /\ exists key, ParsePublicKey (pg_identity_public_key p) = Ok key.

Lemma callSettle_wire fingerprint p reason n b resp b' :
  direct p -> settlePairingReply fingerprint (settle_request p reason) b = (inl resp, b') ->
  callSettle unmarshal_regions (net := wire fingerprint) p reason (n, b) = (Ok resp, (n, b')).
Proof.
  intros [Ha [key Hk]] Hr. unfold callSettle. rewrite state_bind_unfold. erewrite here_at by reflexivity.
  cbn [fst snd id]. destruct (pg_addresses p) as [|a l] eqn:El; [done|]. cbn in Ha.
  assert (PendingDialable p (tunnelVersion n) = true) as ->.
  { unfold PendingDialable. by rewrite El. }
  cbn [negb]. rewrite Hk. cbn [net_client wire]. rewrite state_bind_unfold.
  assert (exists l', probed (net := wire fingerprint) (TunnelRaisable (pg_tunnel p) (tunnelVersion n)) (a :: l) (n, b) =
    (a :: l', (n, b))) as [l' ->].
  { unfold probed. destruct (_ && _); [|by exists l]. rewrite state_bind_unfold. eexists.
    erewrite there_at by reflexivity. cbn [hd fst snd]. by rewrite bool_decide_eq_false_2. }
  cbn [fst snd settle_each]. rewrite state_bind_unfold.
  assert (there (net_settle (Network := wire fingerprint) a key (settle_request p reason)) (n, b) = (inl resp, (n, b'))) as Ht.
  { apply there_at. cbn [net_settle wire]. unfold answers. by rewrite Hr. }
  rewrite state_bind_unfold, Ht. done.
Qed.

(** A pairing [session] accepted on this side, in a store that is in order. *)
Record ready (session : string) (p : PendingPairing) (key : PublicKey) (n : node) : Prop := {
  ready_waiting : waiting session p key n;
  ready_identity : pg_fingerprint p = FingerprintSHA256 key;
  ready_saves : saves n;
  ready_wf : store_wf (n_store n);
  ready_unmistaken : unmistaken session (FingerprintSHA256 key) n
}.

(** [n] completed it: the record says what the pending pairing did. *)
Definition paired (session : string) (p : PendingPairing) (key : PublicKey) (n : node) : Prop :=
  completed session (FingerprintSHA256 key) n /\ exists r, r ∈ sd_peers (n_store n) /\ record_of p key r.

Lemma ready_store session p key n n' : n_store n' = n_store n -> ready session p key n -> ready session p key n'.
Proof.
  intros Hs [(Hl & Hr) Hi Hsv Hw Hu]. constructor.
  - split; [|exact Hr]. unfold lookup_pending in *. by rewrite Hs.
  - done.
  - unfold saves. by rewrite Hs.
  - by rewrite Hs.
  - unfold unmistaken. by rewrite Hs.
Qed.

Lemma reply_pairs session p key n msg :
  ready session p key n -> session <> emp -> sq_session_id msg = session -> sq_answer msg = ANSWER_ACCEPTED ->
  exists resp n', settlePairingReply (FingerprintSHA256 key) msg n = (inl resp, n') /\
    sp_state resp = RECORD_STATE_PAIRED /\ paired session p key n'.
Proof.
  intros [Hw Hi Hs Hwf Hu] Hne Hm Ha.
  destruct (settlePairingReply_accepted session p key n msg) as (resp & r & n' & Hr & Hst & Hrec & Hin & Hn); [done..|].
  rewrite Hi in Hr. exists resp, n'. split_and!; [done|done|]. split; [by eapply completed_after|by exists r].
Qed.

Lemma apply_pairs session p key n resp :
  ready session p key n -> session <> emp -> sp_state resp = RECORD_STATE_PAIRED ->
  exists n', applySettlement session resp n = (None, n') /\ paired session p key n'.
Proof.
  intros [Hw Hi Hs Hwf Hu] Hne Hst.
  destruct (applySettlement_paired session p key n resp) as (r & n' & Ha & Hrec & Hin & Hn); [done..|].
  exists n'. split; [done|]. split; [by eapply completed_after|by exists r].
Qed.

(** One call that gets through, from whichever side. *)
Lemma nudge_pairs session pa ka pb kb reason a b :
  ready session pa ka a -> ready session pb kb b -> session <> emp -> direct pa ->
  n_serving a = true ->
  exists a' b', nudgePeer unmarshal_regions (net := wire (FingerprintSHA256 kb)) pa reason (a, b) = (tt, (a', b')) /\
    paired session pa ka a' /\ paired session pb kb b'.
Proof.
  intros Ha Hb Hne Hd Hsv. pose proof (ready_waiting _ _ _ _ Ha) as (_ & Hse & Hans & _ & _).
  destruct (reply_pairs session pb kb b (settle_request pa reason)) as (resp & b' & Hr & Hst & Hpb); [done..|].
  destruct (apply_pairs session pa ka a resp) as (a' & Happ & Hpa); [done..|].
  exists a', b'. split; [|done]. unfold nudgePeer. rewrite state_bind_unfold. erewrite here_at by reflexivity.
  cbn [fst snd id]. assert (PendingDialable pa (tunnelVersion a) = true) as ->.
  { destruct Hd as [Hd _]. unfold PendingDialable. by destruct (pg_addresses pa). }
  rewrite Hsv. cbn [negb orb]. rewrite state_bind_unfold.
  rewrite (callSettle_wire _ _ _ _ _ _ _ Hd Hr). cbn [fst snd].
  assert (refusedHere pa = false) as ->. { unfold refusedHere. by rewrite Hans. }
  cbn [when]. rewrite state_bind_unfold. cbn [mret state_ret fst snd]. rewrite state_bind_unfold, Hse.
  by rewrite (here_at _ _ _ _ _ Happ).
Qed.

End Meeting.

(** ** The last answer, and the loop *)

Section Answering.
Context `{Unicode} `{Ssh}.
Context (unmarshal_regions : string -> result (list relayRegion)).

(** A pairing [session] nobody here has answered, that the peer did not refuse. *)
Record unanswered (session : string) (p : PendingPairing) (key : PublicKey) (n : node) : Prop := {
  un_found : lookup_pending session n = Some p;
  un_session : pg_session_id p = session;
  un_ours : pg_our_answer p = ANSWER_UNSPECIFIED;
  un_theirs : refusal (pg_their_answer p) = false;
  un_key : ParsePublicKey (pg_identity_public_key p) = Ok key;
  un_named : FingerprintSHA256 key <> emp;
  un_identity : pg_fingerprint p = FingerprintSHA256 key;
  un_saves : saves n;
  un_wf : store_wf (n_store n);
  un_unmistaken : unmistaken session (FingerprintSHA256 key) n
}.

Definition accepted_at (t : time) (p : PendingPairing) : PendingPairing :=
  set_our_answer ANSWER_ACCEPTED (Some t) p.

Lemma record_of_accepted t p key r : record_of (accepted_at t p) key r <-> record_of p key r.
Proof. done. Qed.

(** An entry put back with another answer on it is found again. *)
Lemma put_back session p q s :
  find_first (matchesPairing session) (sd_pending s) = Some p ->
  pg_session_id p = session -> pg_session_id q = session -> pg_fingerprint q = pg_fingerprint p ->
  store_wf s ->
  Forall (fun e => matchesPairing session e = true -> pg_session_id e = session) (sd_pending s) ->
  let s' := (PutPendingPairing q s).2 in
  (PutPendingPairing q s).1 = sd_disk s (sd_writes s) /\ sd_peers s' = sd_peers s /\
  find_first (matchesPairing session) (sd_pending s') = Some q /\
  Forall (fun e => matchesPairing session e = true -> pg_session_id e = session) (sd_pending s').
Proof.
  intros Hf Hp Hq Hfp Hwf Hun s'. pose proof Hwf as [_ _ _ _ Hn Hb].
  apply find_first_elem in Hf as [Hin _]. assert (pg_session_id p <> emp /\ pg_fingerprint p <> emp) as [Hse Hfe].
  { rewrite Forall_forall in Hn. by apply Hn. }
  destruct (PutPendingPairing_room q s) as [He Hl]; [congruence|congruence| |].
  { eapply Nat.lt_le_trans; [|exact Hb]. apply list_elem_of_In in Hin.
    destruct (Nat.eq_dec (length (List.filter (fun e => negb (same_pairing q e)) (sd_pending s)))
      (length (sd_pending s))) as [Hlen|Hlen].
    - apply List.filter_length_forallb in Hlen. rewrite List.forallb_forall in Hlen.
      apply Hlen in Hin. unfold same_pairing in Hin. rewrite (bool_decide_eq_true_2 (pg_session_id p = _)) in Hin by congruence.
      done.
    - pose proof (List.filter_length_le (fun e => negb (same_pairing q e)) (sd_pending s)). lia. }
  assert (matchesPairing session q = true) as Hm.
  { unfold matchesPairing. by rewrite bool_decide_eq_true_2. }
  assert (sd_peers s' = sd_peers s) as Hpe.
  { unfold s', PutPendingPairing. by rewrite !bool_decide_eq_false_2 by congruence. }
  split_and!; [exact He|exact Hpe| |].
  - unfold s'. rewrite Hl. apply find_first_Some. eexists _, []. split; [reflexivity|]. split; [done|].
    apply Forall_forall. intros e He'. apply list_elem_of_In, filter_In in He' as [Hine Hne]. bool_prop.
    apply not_true_is_false. intros Hme. assert (pg_session_id e = session) as Hes.
    { rewrite Forall_forall in Hun. apply Hun; [by apply list_elem_of_In|done]. }
    unfold same_pairing in Hne. bool_prop. congruence.
  - unfold s'. rewrite Hl. apply Forall_app_2; [|by repeat constructor].
    eapply Forall_sublist_of; [apply filter_sublist|done].
Qed.

(** Whether the node is running is not for a pairing to change. *)
Definition steady {A} (m : state node A) : Prop := forall n, n_serving (m n).2 = n_serving n.

Lemma steady_ret {A} (a : A) : steady (mret a).
Proof. done. Qed.

Lemma steady_bind {A B} (m : state node A) (f : A -> state node B) :
  steady m -> (forall a, steady (f a)) -> steady (m ≫= f).
Proof. intros Hm Hf n. rewrite state_bind_unfold. by rewrite Hf, Hm. Qed.

Lemma steady_trust {A} (m : state store A) : steady (trust m).
Proof. intros n. unfold trust. by destruct (m (n_store n)). Qed.

Lemma steady_completePending p : steady (completePending p).
Proof.
  unfold completePending. destruct (ParsePublicKey _); [|apply steady_ret].
  apply steady_bind. { intros n. unfold completed_record. run_state. by destruct (pg_tunnel p). }
  intros r. apply steady_bind; [apply steady_trust|]. intros [e|]; [apply steady_ret|].
  apply steady_bind; [apply steady_trust|]. intros _.
  apply steady_bind. { intros n. unfold cancelPrompt. run_state. by destruct (bool_decide _). }
  intros _. by repeat (apply steady_bind; [done|intros _]).
Qed.

Lemma answer_accepts session p key reason n :
  unanswered session p key n -> session <> emp ->
  exists q t st r n', q = accepted_at t p /\ n_serving n' = n_serving n /\
    answerPending session ANSWER_ACCEPTED reason n = ((st, Some q, r, None), n') /\
    (ready session q key n' \/ paired session p key n').
Proof.
  intros Hu Hne. pose proof Hu as [Hf Hse Ho Ht Hk Hn Hi Hs Hwf Hun]. unfold answerPending. rewrite state_bind_unfold.
  assert ((trust (PendingPairing_ session) n).2 = n) as -> by (by destruct n).
  change (trust (PendingPairing_ session) n).1 with (lookup_pending session n). rewrite Hf.
  rewrite bool_decide_eq_false_2 by auto. rewrite state_bind_unfold. set (t := (Now n).1). set (n1 := (Now n).2).
  assert (n_store n1 = n_store n) as Hn1 by done. set (q := set_our_answer _ _ p).
  exists q, t. rewrite state_bind_unfold. unfold advance. cbn [pg_our_answer pg_their_answer set_our_answer q].
  rewrite Ht. change (refusal ANSWER_ACCEPTED) with false. cbn [orb]. rewrite bool_decide_eq_true_2 by done. cbn [andb].
  destruct (bool_decide (pg_their_answer p = ANSWER_ACCEPTED)) eqn:Hth.
  - destruct (completePending_saved q key n1) as (r & n' & Hc & Hr & Hst); [done|done| |].
    { unfold saves. by rewrite Hn1. }
    rewrite state_bind_unfold, Hc. cbn [fst snd mret state_ret]. exists RECORD_STATE_PAIRED, (Some r), n'.
    split_and!; [done| |done|right].
    { pose proof (steady_completePending q n1) as Hst'. rewrite Hc in Hst'. exact Hst'. }
    change (pg_session_id q) with (pg_session_id p) in Hst. rewrite Hse, Hn1 in Hst.
    assert (record_of p key r) as Hr' by exact Hr. destruct (PutPeer_saved r (n_store n)) as [_ Hin]; [|done|].
    { destruct Hr' as (_ & Hfp & _). by rewrite Hfp. }
    destruct (RemovePendingPairing_elem session (PutPeer r (n_store n)).2) as [Hpe _].
    split; [by eapply (completed_after_found session p key n)|exists r; split; [by rewrite Hst, Hpe|done]].
  - destruct (put_back session p q (n_store n)) as (He & Hpe & Hfind & Hall); [exact Hf|done..|exact (proj1 Hun)|].
    pose proof (PutPendingPairing_wf q (n_store n) Hwf) as Hwf'.
    destruct (PutPendingPairing q (n_store n)) as [e s'] eqn:Ep. cbn [fst snd] in *.
    assert (trust (PutPendingPairing q) n1 = (None, set_store s' n1)) as Htr.
    { unfold trust. by rewrite Hn1, Ep, He, Hs. }
    rewrite state_bind_unfold, Htr. cbn [fst snd].
    cbn [when notifyPairing]. eexists RECORD_STATE_PENDING, None, _. split_and!; [done| |reflexivity|left].
    { reflexivity. }
    constructor; cbn [n_store add_effect set_store].
    + split_and!; [exact Hfind|done..].
    + done.
    + intros k. change (n_store _) with s'.
      assert (sd_disk s' = sd_disk (n_store n)) as ->; [|apply Hs].
      revert Ep. unfold PutPendingPairing. repeat case_bool_decide; run_state; by intros [= _ <-].
    + exact Hwf'.
    + split; [exact Hall|]. change (n_store _) with s'. rewrite Hpe. exact (proj2 Hun).
Qed.

(** A call from a side that has completed changes nothing there. *)
Lemma nudge_tells session pa ka q pb kb reason a b :
  ready session pa ka a -> paired session pb kb b -> session <> emp -> direct q ->
  pg_session_id q = session -> pg_our_answer q = ANSWER_ACCEPTED -> n_serving b = true ->
  exists a', nudgePeer unmarshal_regions (net := wire (FingerprintSHA256 ka)) q reason (b, a) = (tt, (b, a')) /\
    paired session pa ka a'.
Proof.
  intros Ha [(Hl & _) _] Hne Hd Hse Hans Hsv.
  destruct (reply_pairs session pa ka a (settle_request q reason)) as (resp & a' & Hr & Hst & Hpa); [done..|].
  exists a'. split; [|done]. unfold nudgePeer. rewrite state_bind_unfold. erewrite here_at by reflexivity.
  cbn [fst snd id]. assert (PendingDialable q (tunnelVersion b) = true) as ->.
  { destruct Hd as [Hd _]. unfold PendingDialable. by destruct (pg_addresses q). }
  rewrite Hsv. cbn [negb orb]. rewrite state_bind_unfold.
  rewrite (callSettle_wire _ _ _ _ _ _ _ _ Hd Hr). cbn [fst snd].
  assert (refusedHere q = false) as ->. { unfold refusedHere. by rewrite Hans. }
  cbn [when]. rewrite state_bind_unfold. cbn [mret state_ret fst snd]. rewrite state_bind_unfold, Hse.
  assert (applySettlement session resp b = (None, b)) as Happ; [|by rewrite (here_at _ _ _ _ _ Happ)].
  unfold applySettlement. rewrite state_bind_unfold.
  assert ((trust (PendingPairing_ session) b).2 = b) as -> by (by destruct b).
  change (trust (PendingPairing_ session) b).1 with (lookup_pending session b). by rewrite Hl.
Qed.

(** The last answer completes the pairing on both machines.  When the
    peer has accepted already and the user here accepts, whether or not this
    side had heard of the peer's answer, then answering and the call that goes
    out with it leave both sides paired, each with a record that says what its
    own pairing said. *)
Theorem last_answer_pairs session pa ka pb kb reason a b :
  ready session pa ka a -> unanswered session pb kb b -> session <> emp ->
  direct pb -> n_serving b = true ->
  exists st q r b' a',
    answerAndNudge unmarshal_regions (net := wire (FingerprintSHA256 ka)) session true reason (b, a) =
      ((st, Some q, r, None), (b', a')) /\
    paired session pa ka a' /\ paired session pb kb b'.
Proof.
  intros Ha Hb Hne Hd Hsv. destruct (answer_accepts session pb kb reason b Hb Hne)
    as (q & t & st & r & b1 & -> & Hsv1 & Hans & Hout).
  set (q := accepted_at t pb) in *. assert (direct q) as Hdq by exact Hd.
  assert (exists b2 a', nudgePeer unmarshal_regions (net := wire (FingerprintSHA256 ka)) q reason (b1, a) =
    (tt, (b2, a')) /\ paired session pa ka a' /\ paired session pb kb b2) as (b2 & a' & Hn & Hpa & Hpb).
  { destruct Hout as [Hr|Hp].
    - destruct (nudge_pairs unmarshal_regions session q kb pa ka reason b1 a) as (b2 & a' & Hn & Hpb & Hpa);
        [done..|congruence|]. exists b2, a'. split; [exact Hn|]. split; [done|exact Hpb].
    - destruct (nudge_tells session pa ka q pb kb reason a b1) as (a' & Hn & Hpa); [done..| | |congruence|].
      + exact (un_session _ _ _ _ Hb).
      + done.
      + exists b1, a'. by split_and!. }
  exists st, q, r, (add_effect Poked b2), a'. split; [|split; [done|exact Hpb]].
  unfold answerAndNudge. rewrite state_bind_unfold. unfold AnswerPending.
  rewrite (here_at _ _ _ _ _ Hans). cbn [fst snd]. rewrite state_bind_unfold, Hn. done.
Qed.

(** One turn of the loop is enough.  When both users have accepted and
    one side, with nothing else in hand, gets through on a turn of its loop,
    both are paired afterwards: which side can dial, and what was heard before,
    does not matter. *)
Theorem one_turn_pairs session pa ka pb kb a b :
  ready session pa ka a -> ready session pb kb b -> session <> emp -> direct pa ->
  sd_pending (n_store a) = [pa] -> undelivered a = [] -> n_attempted a !! session = None ->
  exists a' b', convergeOnce unmarshal_regions (net := wire (FingerprintSHA256 kb)) (a, b) = (tt, (a', b')) /\
    paired session pa ka a' /\ paired session pb kb b'.
Proof.
  intros Ha Hb Hne Hd Hp Hu Hat. pose proof (ready_waiting _ _ _ _ Ha) as (_ & Hse & Hans & _ & _).
  assert (exists a1, shouldSettle pa a = (true, a1) /\ n_store a1 = n_store a) as (a1 & Hs1 & Hst1).
  { unfold shouldSettle. rewrite state_bind_unfold. cbn [gets id fst snd].
    assert (PendingDialable pa (tunnelVersion a) = true) as ->.
    { destruct Hd as [Hd _]. unfold PendingDialable. by destruct (pg_addresses pa). }
    rewrite Hse, Hat. cbn [negb]. eexists. split; [reflexivity|done]. }
  pose proof (ready_store _ _ _ _ _ Hst1 Ha) as Ha1.
  destruct (reply_pairs session pb kb b (settle_request pa emp)) as (resp & b' & Hr & Hst & Hpb); [done..|].
  destruct (apply_pairs session pa ka a1 resp) as (a' & Happ & Hpa); [done..|].
  exists a', b'. split; [|done]. unfold convergeOnce.
  assert (deliverRefusals unmarshal_regions (net := wire (FingerprintSHA256 kb)) (a, b) = (tt, (a, b))) as Hdel.
  { unfold deliverRefusals. rewrite state_bind_unfold. erewrite here_at by reflexivity. cbn [fst snd]. by rewrite Hu. }
  rewrite state_bind_unfold, Hdel. cbn [fst snd]. rewrite state_bind_unfold.
  assert (trust PendingPairings a = ([pa], a)) as Ht.
  { unfold trust, PendingPairings. run_state. rewrite Hp. by destruct a. }
  rewrite (here_at _ _ _ _ _ Ht). cbn [fst snd converge_each]. rewrite state_bind_unfold.
  erewrite there_at by reflexivity. cbn [fst snd]. rewrite state_bind_unfold.
  rewrite bool_decide_eq_false_2 by (by rewrite Hans). cbn [when mret state_ret fst snd].
  rewrite state_bind_unfold, (here_at _ _ _ _ _ Hs1). cbn [fst snd]. rewrite !state_bind_unfold.
  rewrite (callSettle_wire _ _ _ _ _ _ _ _ Hd Hr). cbn [fst snd]. rewrite Hse, state_bind_unfold.
  by rewrite (here_at _ _ _ _ _ Happ).
Qed.

End Answering.

(** ** Refusals *)

Section Refusing.
Context `{Unicode} `{Ssh}.
Context (unmarshal_regions : string -> result (list relayRegion)).

(** No pairing [session] is under way here. *)
Definition gone (session : string) (n : node) : Prop :=
  session ∉ map pg_session_id (sd_pending (n_store n)).

Lemma revokeUnheld_store key n : n_store (revokeUnheld key n).2 = n_store n.
Proof.
  unfold revokeUnheld, revokeKey, change_allowed. run_state. by repeat (case_match; cbn).
Qed.

Lemma dropPending_store p message reason n :
  n_store (dropPending p message reason n).2 = (RemovePendingPairing (pg_session_id p) (n_store n)).2.
Proof.
  unfold dropPending. rewrite state_bind_unfold. set (n1 := (trust _ n).2).
  assert (n_store n1 = (RemovePendingPairing (pg_session_id p) (n_store n)).2) as <-.
  { subst n1. unfold trust. by destruct (RemovePendingPairing _ _). }
  rewrite state_bind_unfold. rewrite <- (cancelPrompt_store (pg_session_id p) n1).
  set (n2 := (cancelPrompt _ n1).2). rewrite state_bind_unfold.
  match goal with |- context [(if refusedHere p then ?x else ?y) n2] => set (op := if refusedHere p then x else y) end.
  assert (n_store (op n2).2 = n_store n2) as <-; [|done]. subst op. destruct (refusedHere p).
  - unfold holdRefusal. rewrite state_bind_unfold. set (n3 := (Now n2).2).
    assert (n_store n3 = n_store n2) as <- by done. rewrite state_bind_unfold. cbn [gets fst snd].
    match goal with |- context [match ?e with None => _ | Some _ => _ end] => destruct e as [[s old]|] end; [|done].
    rewrite state_bind_unfold, revokeUnheld_store. done.
  - unfold forgetPendingTunnel. by destruct (admissible _).
Qed.

Lemma dropPending_gone session p q message reason n :
  lookup_pending session n = Some p -> pg_session_id p = session -> pg_session_id q = session ->
  store_wf (n_store n) ->
  gone session (dropPending q message reason n).2 /\
  sd_peers (n_store (dropPending q message reason n).2) = sd_peers (n_store n).
Proof.
  intros Hl Hp Hq Hwf. unfold gone. rewrite dropPending_store, Hq.
  destruct (RemovePendingPairing_elem session (n_store n)) as [Hpe _]. split; [|done].
  rewrite <- Hp at 1. apply removed_first_gone; [by apply wf_sessions|exact Hl].
Qed.

(** A call about a pairing refused here is answered with the refusal. *)
Lemma reply_refused session fingerprint msg h n :
  sq_session_id msg = session ->
  (forall p, lookup_pending session n = Some p -> pg_session_id p <> session) ->
  (forall r, fst (Peer fingerprint (n_store n)) = Some r -> tr_pairing_session_id r <> session) ->
  n_refusals n !! session = Some h -> pg_fingerprint (hr_pending h) = fingerprint ->
  exists n', settlePairingReply fingerprint msg n =
    (inl (mk_SettlePairingResponse RECORD_STATE_GONE (pg_our_answer (hr_pending h)) (hr_reason h)), n') /\
    n_refusals n' !! session =
      Some (mk_heldRefusal (hr_pending h) (hr_reason h) (hr_key h) (hr_at h) true) /\
    n_store n' = n_store n.
Proof.
  intros Hm Hl Hr Hh Hfp. unfold settlePairingReply. rewrite state_bind_unfold, Hm.
  assert ((trust (PendingPairing_ session) n).2 = n) as -> by (by destruct n).
  change (trust (PendingPairing_ session) n).1 with (lookup_pending session n).
  assert (exists n', settle_finished fingerprint session n =
    (inl (mk_SettlePairingResponse RECORD_STATE_GONE (pg_our_answer (hr_pending h)) (hr_reason h)), n') /\
    n_refusals n' !! session =
      Some (mk_heldRefusal (hr_pending h) (hr_reason h) (hr_key h) (hr_at h) true) /\
    n_store n' = n_store n) as Hs.
  { unfold settle_finished. rewrite state_bind_unfold.
    assert ((trust (Peer fingerprint) n).2 = n) as -> by (by destruct n).
    change (trust (Peer fingerprint) n).1 with (fst (Peer fingerprint (n_store n))).
    assert (match fst (Peer fingerprint (n_store n)) with
            | Some r => bool_decide (tr_pairing_session_id r = session) | None => false end = false) as ->.
    { destruct (fst (Peer fingerprint (n_store n))) as [r|]; [|done]. apply bool_decide_eq_false_2. by apply Hr. }
    cbn [andb]. rewrite state_bind_unfold. unfold answerHeldRefusal. rewrite state_bind_unfold.
    cbn [gets fst snd]. rewrite Hh. rewrite bool_decide_eq_false_2 by auto. run_state.
    destruct (hr_heard h); cbn; eexists; (split; [reflexivity|]); cbn; by rewrite lookup_insert_eq. }
  destruct (lookup_pending session n) as [p|] eqn:El; [|exact Hs].
  rewrite bool_decide_eq_true_2 by (by apply Hl). exact Hs.
Qed.

Lemma with_pending session p n {B} (f : option PendingPairing -> state node B) :
  lookup_pending session n = Some p -> (trust (PendingPairing_ session) ≫= f) n = f (Some p) n.
Proof.
  intros Hl. rewrite state_bind_unfold. assert ((trust (PendingPairing_ session) n).2 = n) as -> by (by destruct n).
  change (trust (PendingPairing_ session) n).1 with (lookup_pending session n). by rewrite Hl.
Qed.

(** Hearing that it is over ends it here, whatever was in hand. *)
Lemma applySettlement_gone session p resp n :
  lookup_pending session n = Some p -> pg_session_id p = session -> store_wf (n_store n) ->
  sp_state resp = RECORD_STATE_GONE ->
  exists n', applySettlement session resp n = (None, n') /\ gone session n' /\
    sd_peers (n_store n') = sd_peers (n_store n).
Proof.
  intros Hl Hp Hwf Hst. unfold applySettlement. rewrite (with_pending _ _ _ _ Hl).
  rewrite bool_decide_eq_false_2 by auto. rewrite Hst. rewrite state_bind_unfold. eexists. split; [reflexivity|].
  apply (dropPending_gone session p); [done..| |done]. by destruct (refusal (sp_answer resp)).
Qed.

(** Being told of a refusal ends it here and says so. *)
Lemma reply_gone session p fingerprint msg n :
  lookup_pending session n = Some p -> pg_session_id p = session -> pg_fingerprint p = fingerprint ->
  store_wf (n_store n) -> sq_session_id msg = session -> refusal (sq_answer msg) = true ->
  exists resp n', settlePairingReply fingerprint msg n = (inl resp, n') /\ gone session n' /\
    sd_peers (n_store n') = sd_peers (n_store n).
Proof.
  intros Hl Hp Hfp Hwf Hm Hr. unfold settlePairingReply. rewrite Hm, (with_pending _ _ _ _ Hl).
  rewrite !bool_decide_eq_false_2 by auto. unfold settleAgainst.
  assert (bool_decide (sq_answer msg <> ANSWER_UNSPECIFIED) = true) as ->.
  { apply bool_decide_eq_true_2. intros He. by rewrite He in Hr. }
  unfold advance. cbn [pg_our_answer pg_their_answer set_their_answer]. rewrite Hr, orb_true_r.
  rewrite !state_bind_unfold. cbn [mret state_ret fst snd]. eexists _, _. split; [reflexivity|].
  by apply (dropPending_gone session p).
Qed.

(** Whoever asks about a pairing refused here is told, and stops.  The
    side that refused while the other could not be reached answers the other's
    next call with the refusal; the caller drops its half, pairs with nobody,
    and the refusal is marked as heard and the store here left as it was. *)
Theorem asked_is_told session pa h fingerprint reason a b :
  lookup_pending session a = Some pa -> pg_session_id pa = session -> store_wf (n_store a) ->
  direct pa -> n_serving a = true -> refusal (pg_our_answer pa) = false ->
  gone session b -> n_refusals b !! session = Some h -> pg_fingerprint (hr_pending h) = fingerprint ->
  (forall r, fst (Peer fingerprint (n_store b)) = Some r -> tr_pairing_session_id r <> session) ->
  exists a' b' h', nudgePeer unmarshal_regions (net := wire fingerprint) pa reason (a, b) = (tt, (a', b')) /\
    gone session a' /\ sd_peers (n_store a') = sd_peers (n_store a) /\
    n_refusals b' !! session = Some h' /\ hr_heard h' = true /\ n_store b' = n_store b.
Proof.
  intros Hl Hp Hwf Hd Hsv Ho Hg Hh Hfp Hr.
  destruct (reply_refused session fingerprint (settle_request pa reason) h b) as (b' & Hrep & Hh' & Hst); [done| |done..|].
  { intros p Hlp He. apply Hg. rewrite <- He. apply list_elem_of_In, in_map, list_elem_of_In.
    by apply find_first_elem in Hlp as [? _]. }
  set (resp := mk_SettlePairingResponse _ _ _) in Hrep.
  destruct (applySettlement_gone session pa resp a) as (a' & Happ & Hga & Hpe); [done..|].
  eexists a', b', _. split_and!; [|done|done|exact Hh'|done|done]. unfold nudgePeer.
  rewrite state_bind_unfold. erewrite here_at by reflexivity. cbn [fst snd id].
  assert (PendingDialable pa (tunnelVersion a) = true) as ->.
  { destruct Hd as [Hd _]. unfold PendingDialable. by destruct (pg_addresses pa). }
  rewrite Hsv. cbn [negb orb]. rewrite state_bind_unfold.
  rewrite (callSettle_wire _ _ _ _ _ _ _ _ Hd Hrep). cbn [fst snd].
  assert (refusedHere pa = false) as ->. { unfold refusedHere. by rewrite Ho. }
  cbn [when]. rewrite state_bind_unfold. cbn [mret state_ret fst snd]. rewrite state_bind_unfold, Hp.
  by rewrite (here_at _ _ _ _ _ Happ).
Qed.

(** A refusal is delivered.  On the turn of the loop that gets
    through, the peer drops its half of a pairing refused here, with no trust
    record gained, and the hold that kept the refusal ends. *)
Theorem refusal_is_delivered session h fingerprint pb a b :
  undelivered a = [h] -> pg_session_id (hr_pending h) = session ->
  refusal (pg_our_answer (hr_pending h)) = true -> direct (hr_pending h) ->
  n_attempted a !! session = None ->
  lookup_pending session b = Some pb -> pg_session_id pb = session -> pg_fingerprint pb = fingerprint ->
  store_wf (n_store b) ->
  exists a' b', deliverRefusals unmarshal_regions (net := wire fingerprint) (a, b) = (tt, (a', b')) /\
    n_refusals a' !! session = None /\ gone session b' /\
    sd_peers (n_store b') = sd_peers (n_store b) /\ n_store a' = n_store a.
Proof.
  intros Hu Hse Hr Hd Hat Hl Hp Hfp Hwf.
  assert (exists a1, shouldSettle (hr_pending h) a = (true, a1) /\ n_store a1 = n_store a) as (a1 & Hs1 & Hst1).
  { unfold shouldSettle. rewrite state_bind_unfold. cbn [gets id fst snd].
    assert (PendingDialable (hr_pending h) (tunnelVersion a) = true) as ->.
    { destruct Hd as [Hd _]. unfold PendingDialable. by destruct (pg_addresses (hr_pending h)). }
    rewrite Hse, Hat. cbn [negb]. eexists. split; [reflexivity|done]. }
  destruct (reply_gone session pb fingerprint (settle_request (hr_pending h) (hr_reason h)) b)
    as (resp & b' & Hrep & Hg & Hpe); [done..|].
  assert (exists a', told session a1 = (tt, a') /\ n_refusals a' !! session = None /\ n_store a' = n_store a1)
    as (a' & Ht & Hn & Hst).
  { unfold told, releaseRefusal. rewrite state_bind_unfold. cbn [gets fst snd]. rewrite state_bind_unfold.
    set (a2 := (modify _ a1).2). assert (n_refusals a2 !! session = None) as Hd2 by apply lookup_delete_eq.
    destruct (n_refusals a1 !! session) as [held|]; [|by exists a2].
    exists (revokeUnheld (hr_key held) a2).2. split; [by destruct (revokeUnheld (hr_key held) a2) as [[] ?]|].
    split; [|by rewrite revokeUnheld_store]. rewrite <- Hd2. unfold revokeUnheld, revokeKey, change_allowed.
    run_state. by repeat (case_match; cbn). }
  exists a', b'. split; [|split_and!; [done..|by rewrite Hst]]. unfold deliverRefusals.
  rewrite state_bind_unfold. erewrite here_at by reflexivity. cbn [fst snd]. rewrite Hu. cbn [deliver_each].
  rewrite state_bind_unfold. erewrite there_at by reflexivity. cbn [fst snd].
  rewrite state_bind_unfold, (here_at _ _ _ _ _ Hs1). cbn [fst snd]. rewrite !state_bind_unfold.
  rewrite (callSettle_wire _ _ _ _ _ _ _ _ Hd Hrep). cbn [fst snd]. rewrite Hse.
  by rewrite (here_at _ _ _ _ _ Ht).
Qed.

End Refusing.

(** ** Concrete runs *)

Import Toy.

(** A network on which nothing answers. *)
Definition silence : Network unit := {|
  net_over := mret false;
  net_probe _ := mret emp;
  net_settle _ _ _ := mret (inr (errors_New "no route to host"));
  net_raise _ := mret None;
  net_settle_raised _ _ _ := mret (inr (errors_New "no route to host"));
  net_client _ := None |}.

Lemma silence_dead : dead (net := silence).
Proof. split; intros; by eexists _, _. Qed.

Lemma unreachable_changes_nothing_witness :
  (tellPeer toy_regions (net := silence) (toy_entry "box" true ANSWER_ACCEPTED ANSWER_UNSPECIFIED)
     emp (desk_waits, tt)).1 = false.
Proof.
  exact (proj1 (proj2 (unreachable_changes_nothing toy_regions (net := silence)
    (toy_entry "box" true ANSWER_ACCEPTED ANSWER_UNSPECIFIED) emp desk_waits tt silence_dead))).
Defined.

Definition desk_entry : PendingPairing := toy_entry "box" true ANSWER_ACCEPTED ANSWER_UNSPECIFIED.
Definition box_entry (ours theirs : PairingAnswer) : PendingPairing := toy_entry "desk" false ours theirs.

Lemma toy_store_wf p : pg_session_id p <> emp -> pg_fingerprint p <> emp ->
  store_wf (n_store (toy_node [p])).
Proof.
  intros Hs Hf. constructor; cbn.
  - constructor.
  - constructor.
  - apply NoDup_singleton.
  - apply NoDup_singleton.
  - by repeat constructor.
  - unfold MaxPendingPairings. lia.
Qed.

Lemma toy_unmistaken p fingerprint : pg_session_id p = "s1"%string ->
  unmistaken "s1" fingerprint (toy_node [p]).
Proof. intros Hp. split; cbn; [by repeat constructor|constructor]. Qed.

Lemma desk_ready : ready "s1" desk_entry the_box_key desk_waits.
Proof.
  constructor; [|reflexivity|by intros k|by apply toy_store_wf|by apply toy_unmistaken].
  split_and!; try reflexivity. discriminate.
Qed.

Lemma box_ready : ready "s1" (box_entry ANSWER_ACCEPTED ANSWER_UNSPECIFIED) the_desk_key box_waits.
Proof.
  constructor; [|reflexivity|by intros k|by apply toy_store_wf|by apply toy_unmistaken].
  split_and!; try reflexivity. discriminate.
Qed.

Lemma toy_direct other approve ours theirs : direct (toy_entry other approve ours theirs).
Proof. split; [discriminate|by eexists]. Qed.

Definition box_asked : node := box ANSWER_UNSPECIFIED ANSWER_UNSPECIFIED.
Lemma box_unanswered :
  unanswered "s1" (box_entry ANSWER_UNSPECIFIED ANSWER_UNSPECIFIED) the_desk_key box_asked.
Proof.
  constructor; try reflexivity; [discriminate|by intros k|by apply toy_store_wf|by apply toy_unmistaken].
Qed.

Lemma last_answer_pairs_witness :
  exists b' a', (answerAndNudge toy_regions (net := wire "SHA256:box") "s1" true emp (box_asked, desk_waits)).2 =
    (b', a') /\ completed "s1" "SHA256:box" a' /\ completed "s1" "SHA256:desk" b'.
Proof.
  destruct (last_answer_pairs toy_regions "s1" desk_entry the_box_key
    (box_entry ANSWER_UNSPECIFIED ANSWER_UNSPECIFIED) the_desk_key emp desk_waits box_asked)
    as (st & q & r & b' & a' & Hrun & [Ha _] & [Hb _]).
  - exact desk_ready.
  - exact box_unanswered.
  - discriminate.
  - apply toy_direct.
  - reflexivity.
  - exists b', a'. split; [exact (f_equal snd Hrun)|]. split; [exact Ha|exact Hb].
Defined.

Lemma one_turn_pairs_witness :
  exists a' b', convergeOnce toy_regions (net := wire "SHA256:desk") (desk_waits, box_waits) = (tt, (a', b')) /\
    completed "s1" "SHA256:box" a'.
Proof.
  destruct (one_turn_pairs toy_regions "s1" desk_entry the_box_key
    (box_entry ANSWER_ACCEPTED ANSWER_UNSPECIFIED) the_desk_key desk_waits box_waits)
    as (a' & b' & Hrun & [Ha _] & _).
  - exact desk_ready.
  - exact box_ready.
  - discriminate.
  - apply toy_direct.
  - reflexivity.
  - vm_compute. reflexivity.
  - apply lookup_empty.
  - exists a', b'. split; [exact Hrun|exact Ha].
Defined.

(** The box refused; the desk accepted and asks. *)
Definition refused_entry : PendingPairing := box_entry ANSWER_DECLINED ANSWER_UNSPECIFIED.
Definition box_refused : node :=
  (holdRefusal refused_entry "not now" (toy_node [])).2.

Lemma box_holds : n_refusals box_refused !! "s1"%string =
  Some (mk_heldRefusal refused_entry "not now" (Some (of_string "key of desk")) 0 false).
Proof. vm_compute. reflexivity. Qed.

Lemma asked_is_told_witness :
  exists a' b', nudgePeer toy_regions (net := wire "SHA256:desk") desk_entry emp (desk_waits, box_refused) =
    (tt, (a', b')) /\ gone "s1" a'.
Proof.
  destruct (asked_is_told toy_regions "s1" desk_entry
    (mk_heldRefusal refused_entry "not now" (Some (of_string "key of desk")) 0 false) "SHA256:desk" emp
    desk_waits box_refused) as (a' & b' & h' & Hrun & Hg & _).
  - reflexivity.
  - reflexivity.
  - by apply toy_store_wf.
  - apply toy_direct.
  - reflexivity.
  - reflexivity.
  - intros Hin. vm_compute in Hin. apply not_elem_of_nil in Hin. exact Hin.
  - exact box_holds.
  - reflexivity.
  - intros r Hr. vm_compute in Hr. discriminate Hr.
  - exists a', b'. split; [exact Hrun|exact Hg].
Defined.

Lemma refusal_is_delivered_witness :
  exists a' b', deliverRefusals toy_regions (net := wire "SHA256:box") (box_refused, desk_waits) =
    (tt, (a', b')) /\ n_refusals a' !! "s1"%string = None /\ gone "s1" b'.
Proof.
  destruct (refusal_is_delivered toy_regions "s1"
    (mk_heldRefusal refused_entry "not now" (Some (of_string "key of desk")) 0 false) "SHA256:box"
    desk_entry box_refused desk_waits) as (a' & b' & Hrun & Hn & Hg & _).
  - vm_compute. reflexivity.
  - reflexivity.
  - reflexivity.
  - apply toy_direct.
  - vm_compute. reflexivity.
  - reflexivity.
  - reflexivity.
  - reflexivity.
  - by apply toy_store_wf.
  - exists a', b'. split; [exact Hrun|]. split; [exact Hn|exact Hg].
Defined.
