(* ===== verification/Parked.v ===== *)
(** * Parked: the keys programs park in the agent

    [pkg/agent/local.go].  A private key is an object in memory that entries and
    signers refer to: dropping an entry wipes it in place where its type lets
    it, so the memory is part of the state and an entry holds the number of a
    cell.  A timer is the operation [expire], which may run at any time; what
    the audit log is told is a trace. *)

From S2P Require Import Prelude.
From S2P Require Import GoText.
From S2P Require Import Ssh.
From S2P Require Import Proto.
From S2P Require Import Prompt.

Local Open Scope Z_scope.
Local Open Scope ladulas_scope.

(** ** Private keys and certificates of [golang.org/x/crypto/ssh]

    [key_Public] is the public key of [ssh.NewSignerFromKey], which refuses the
    types it does not know, [key_Sign] what the signer made of a key does with
    the bytes the key holds when it signs, for the algorithm named or, when that
    is empty, its own; [NewCertSigner] gives the certificate as the key a signer
    lists. *)
Class PrivateKeys `{Ssh} := {
  PrivateKey : Type;
  key_Public : PrivateKey -> result PublicKey;
  key_Sign : PrivateKey -> bytes -> string -> result Signature;
  is_ed25519 : PrivateKey -> bool;
  zero_ed25519 : PrivateKey;
  Certificate : Type;
  cert_ValidBefore : Certificate -> Z;
  NewCertSigner : Certificate -> PublicKey -> result PublicKey
}.

(** [time.Unix(sec, 0)], whose seconds are counted from the year 1 in an int64. *)
Definition unixTime (sec : Z) : time := (i64 (sec + 62135596800) - 62135596800) * Second.
Definition CertTimeInfinity : Z := 2 ^ 64 - 1.

Definition DefaultLocalKeyLimit : Z := 64.

Definition ErrLocalKeysFull : error := sentinel "agent.ErrLocalKeysFull"
  "ladulas: the agent holds as many parked keys as it will take".
Definition ErrNoSuchLocalKey : error := sentinel "agent.ErrNoSuchLocalKey" "ladulas: no such parked key".
Definition ErrAmbiguousLocalKey : error := sentinel "agent.ErrAmbiguousLocalKey"
  "ladulas: the label names more than one parked key".

Inductive LocalKeyEventKind := LocalKeyAdded | LocalKeyExpired | LocalKeyForgotten | LocalKeyPromoted.

Definition LocalKeyEventKind_String (k : LocalKeyEventKind) : string :=
  match k with
  | LocalKeyAdded => "added"
  | LocalKeyExpired => "expired"
  | LocalKeyForgotten => "forgotten"
  | LocalKeyPromoted => "promoted"
  end.

Record LocalKeyInfo := mk_LocalKeyInfo {
  li_label : string;
  li_fingerprint : string;
  li_algorithm : string;
  li_key_fingerprint : string;
  li_public_key : bytes;
  li_certificate : bool;
  li_added_by : option ClientProcess;
  li_added_at : option time;
  li_expires_at : option time;
  li_confirm : bool
}.

Record LocalKeyEvent := mk_LocalKeyEvent {
  ev_Kind : LocalKeyEventKind;
  ev_Key : LocalKeyInfo;
  ev_By : option ClientProcess;
  ev_Reason : string
}.

Section Parked.
Context `{Unicode} `{keys : PrivateKeys}.

(** [sshagent.AddedKey]. *)
Record AddedKey := mk_AddedKey {
  ak_PrivateKey : PrivateKey;
  ak_Comment : string;
  ak_LifetimeSecs : Z;
  ak_Certificate : option Certificate;
  ak_ConfirmBeforeUse : bool
}.

(** An entry: [lk_listed] is the public key of its signer, [lk_private] the cell
    of the private key, and [lk_timer] how long its timer was set for. *)
Record localKey := mk_localKey {
  lk_info : LocalKeyInfo;
  lk_ref : KeyRef;
  lk_listed : PublicKey;
  lk_private : nat;
  lk_timer : option duration
}.

(** The set, the memory its private keys are in, what [Accept] says, the events
    reported, and the clock, which is read one value at a time. *)
Record LocalKeys := mk_LocalKeys {
  lo_Limit : Z;
  lo_Accept : option error;
  lo_keys : list localKey;
  lo_memory : list PrivateKey;
  lo_events : list LocalKeyEvent;
  lo_clock : nat -> time;
  lo_ticks : nat
}.

Definition set_keys (l : list localKey) (s : LocalKeys) : LocalKeys :=
  mk_LocalKeys (lo_Limit s) (lo_Accept s) l (lo_memory s) (lo_events s) (lo_clock s) (lo_ticks s).
Definition set_memory (m : list PrivateKey) (s : LocalKeys) : LocalKeys :=
  mk_LocalKeys (lo_Limit s) (lo_Accept s) (lo_keys s) m (lo_events s) (lo_clock s) (lo_ticks s).
Definition set_accept (e : option error) (s : LocalKeys) : LocalKeys :=
  mk_LocalKeys (lo_Limit s) e (lo_keys s) (lo_memory s) (lo_events s) (lo_clock s) (lo_ticks s).
Definition add_event (e : LocalKeyEvent) (s : LocalKeys) : LocalKeys :=
  mk_LocalKeys (lo_Limit s) (lo_Accept s) (lo_keys s) (lo_memory s) (lo_events s ++ [e]) (lo_clock s)
    (lo_ticks s).

Definition NewLocalKeys (limit : Z) (accept : option error) (clock : nat -> time) : LocalKeys :=
  mk_LocalKeys (if limit <=? 0 then DefaultLocalKeyLimit else limit) accept [] [] [] clock 0.

Definition clock_now : state LocalKeys time := fun s =>
  (lo_clock s (lo_ticks s),
   mk_LocalKeys (lo_Limit s) (lo_Accept s) (lo_keys s) (lo_memory s) (lo_events s) (lo_clock s)
     (S (lo_ticks s))).

Definition emit_event (e : LocalKeyEvent) : state LocalKeys unit := modify (add_event e).

(** A private key as it arrives: each message brings its own, so that the bare
    key and its certificate are in a cell each. *)
Definition receive (key : PrivateKey) : state LocalKeys nat := fun s =>
  (length (lo_memory s), set_memory (lo_memory s ++ [key]) s).

Definition wipePrivate (cell : nat) : state LocalKeys unit :=
  memory ← gets lo_memory;
  match memory !! cell with
  | Some key => when (is_ed25519 key) (modify (set_memory (<[cell := zero_ed25519]> memory)))
  | None => mret tt
  end.

Definition expiredLocked (k : localKey) : state LocalKeys bool :=
  match li_expires_at (lk_info k) with
  | None => mret false
  | Some expires => now ← clock_now; mret (negb (now <? expires))
  end.

Definition blob_of (k : localKey) : bytes := li_public_key (lk_info k).

Definition indexOfBlobLocked (blob : bytes) (l : list localKey) : option nat :=
  fst <$> list_find (fun k => blob_of k = blob) l.

Definition matches_ref (ref : string) (k : localKey) : bool :=
  let info := lk_info k in
  bool_decide (li_fingerprint info = ref) || bool_decide (li_key_fingerprint info = ref)
  || (bool_decide (li_label info <> emp) && EqualFold (li_label info) ref).

(** The indexes of the entries a test accepts, in order. *)
Definition indexes (p : localKey -> bool) (l : list localKey) : list nat :=
  List.filter (fun i => match l !! i with Some k => p k | None => false end) (seq 0 (length l)).

Definition matchLocked (ref : string) (l : list localKey) : list nat := indexes (matches_ref ref) l.

Definition dropLocked (i : nat) : state LocalKeys (list LocalKeyInfo) :=
  l ← gets lo_keys;
  match l !! i with
  | None => mret []
  | Some entry =>
    _ ← wipePrivate (lk_private entry);
    _ ← modify (set_keys (delete i l));
    mret [lk_info entry]
  end.

(** The entries below [i], from the last down. *)
Fixpoint prune_below (i : nat) : state LocalKeys (list LocalKeyInfo) :=
  match i with
  | O => mret []
  | S i' =>
    l ← gets lo_keys;
    dropped ← (match l !! i' with
               | None => mret []
               | Some k =>
                 expired ← expiredLocked k;
                 if (expired : bool) then dropLocked i' else mret []
               end);
    rest ← prune_below i';
    mret (dropped ++ rest)
  end.

Definition pruneLocked : state LocalKeys (list LocalKeyInfo) :=
  l ← gets lo_keys;
  prune_below (length l).

Fixpoint emit_each (kind : LocalKeyEventKind) (by_ : option ClientProcess) (reason : string)
    (l : list LocalKeyInfo) : state LocalKeys unit :=
  match l with
  | [] => mret tt
  | info :: l' =>
    _ ← emit_event (mk_LocalKeyEvent kind info by_ reason);
    emit_each kind by_ reason l'
  end.

Definition emitExpired (dropped : list LocalKeyInfo) : state LocalKeys unit :=
  emit_each LocalKeyExpired None "the lifetime it was parked with ran out" dropped.

(** ** Adding *)

(** When a key goes: the earlier of its lifetime and the end of its certificate,
    the zero time for never. *)
Definition expiry (now : time) (lifetime : Z) (cert : option Certificate) : time :=
  let expires := if 0 <? lifetime then Add now (lifetime * Second) else zero_time in
  match cert with
  | None => expires
  | Some cert =>
    let valid := cert_ValidBefore cert in
    if negb (valid =? CertTimeInfinity) && (0 <? valid)
    then
      let validBefore := unixTime (i64 valid) in
      if IsZero expires || (validBefore <? expires) then validBefore else expires
    else expires
  end.

Definition entry (added : AddedKey) (by_ : option ClientProcess) : state LocalKeys (result localKey) :=
  cell ← receive (ak_PrivateKey added);
  match key_Public (ak_PrivateKey added) with
  | Err e => mret (Err (wrap_w "ladulas: the key cannot be parked: " e emp))
  | Ok keyPub =>
    now ← clock_now;
    match (match ak_Certificate added with
           | None => Ok keyPub
           | Some cert => NewCertSigner cert keyPub
           end) with
    | Err e => mret (Err (wrap_w "ladulas: the certificate cannot be parked: " e emp))
    | Ok listed =>
      let expires := expiry now (ak_LifetimeSecs added) (ak_Certificate added) in
      let info := mk_LocalKeyInfo (ak_Comment added) (FingerprintSHA256 listed) (ssh_Type keyPub)
        (FingerprintSHA256 keyPub) (ssh_Marshal listed) (bool_decide (is_Some (ak_Certificate added)))
        by_ (Some now) (if IsZero expires then None else Some expires) (ak_ConfirmBeforeUse added) in
      mret (Ok (mk_localKey info
        (mk_KeyRef (li_fingerprint info) (ssh_Type listed) (li_public_key info) (ak_Comment added)
           (ak_Comment added) None) listed cell None))
    end
  end.

(** Setting the timer reads the clock for how long to wait. *)
Definition set_timer (k : localKey) : state LocalKeys localKey :=
  match li_expires_at (lk_info k) with
  | None => mret k
  | Some expires =>
    now ← clock_now;
    mret (mk_localKey (lk_info k) (lk_ref k) (lk_listed k) (lk_private k) (Some (Sub expires now)))
  end.

Definition parked_reason : string := "parked through the agent".
Definition parked_again : string := "parked through the agent again, replacing the earlier copy".

(** The end of [Add]: the entry with its timer, then what the log is told. *)
Definition park (k : localKey) (expired : list LocalKeyInfo) (by_ : option ClientProcess) (reason : string)
    : state LocalKeys unit :=
  k ← set_timer k;
  _ ← modify (fun s => set_keys (lo_keys s ++ [k]) s);
  _ ← emitExpired expired;
  emit_event (mk_LocalKeyEvent LocalKeyAdded (lk_info k) by_ reason).

Definition LocalKeys_Add (added : AddedKey) (by_ : option ClientProcess)
    : state LocalKeys (option error) :=
  refused ← gets lo_Accept;
  match refused with
  | Some e => mret (Some e)
  | None =>
    built ← entry added by_;
    match built with
    | Err e => mret (Some e)
    | Ok k =>
      expired ← pruneLocked;
      l ← gets lo_keys;
      limit ← gets lo_Limit;
      match indexOfBlobLocked (blob_of k) l with
      | Some i => _ ← dropLocked i; _ ← park k expired by_ parked_again; mret None
      | None =>
        if limit <=? Z.of_nat (length l)
        then
          _ ← emitExpired expired;
          _ ← wipePrivate (lk_private k);
          mret (Some ErrLocalKeysFull)
        else _ ← park k expired by_ parked_reason; mret None
      end
    end
  end.

(** ** Leaving *)

Definition LocalKeys_Remove (blob : bytes) (by_ : option ClientProcess) : state LocalKeys bool :=
  expired ← pruneLocked;
  l ← gets lo_keys;
  match indexOfBlobLocked blob l with
  | None => _ ← emitExpired expired; mret false
  | Some i =>
    dropped ← dropLocked i;
    _ ← emitExpired expired;
    _ ← emit_each LocalKeyForgotten by_ "removed through the agent" dropped;
    mret true
  end.

(** Entries by index, from the last of a list of indexes to the first. *)
Fixpoint drop_each (l : list nat) : state LocalKeys (list LocalKeyInfo) :=
  match l with
  | [] => mret []
  | i :: l' => d ← dropLocked i; rest ← drop_each l'; mret (d ++ rest)
  end.

Definition dropAll (by_ : option ClientProcess) (reason : string) : state LocalKeys Z :=
  expired ← pruneLocked;
  l ← gets lo_keys;
  dropped ← drop_each (reverse (seq 0 (length l)));
  _ ← emitExpired expired;
  _ ← emit_each LocalKeyForgotten by_ reason dropped;
  mret (Z.of_nat (length dropped)).

Definition LocalKeys_RemoveAll (by_ : option ClientProcess) : state LocalKeys Z :=
  dropAll by_ "removed through the agent".
Definition LocalKeys_Wipe (reason : string) : state LocalKeys Z := dropAll None reason.

Definition LocalKeys_Forget (ref : string) : state LocalKeys (result (list LocalKeyInfo)) :=
  expired ← pruneLocked;
  l ← gets lo_keys;
  match matchLocked ref l with
  | [] => _ ← emitExpired expired; mret (Err (wrap_w emp ErrNoSuchLocalKey (": " +:+ ref)))
  | matched =>
    dropped ← drop_each (reverse matched);
    _ ← emitExpired expired;
    _ ← emit_each LocalKeyForgotten None "forgotten" dropped;
    mret (Ok dropped)
  end.

(** [appendIndex]: the index at the end, then moved forward past the larger
    ones; the list is walked from its end. *)
Fixpoint bubble (i : nat) (l : list nat) : list nat :=
  match l with
  | [] => [i]
  | j :: l' => if (i <? j)%nat then j :: bubble i l' else i :: j :: l'
  end.
Definition appendIndex (l : list nat) (i : nat) : list nat :=
  if bool_decide (i ∈ l) then l else reverse (bubble i (reverse l)).

(** An entry taken out as it is. *)
Definition take_out (i : nat) : state LocalKeys (list LocalKeyInfo) :=
  l ← gets lo_keys;
  match l !! i with
  | None => mret []
  | Some entry => _ ← modify (set_keys (delete i l)); mret [lk_info entry]
  end.
Fixpoint take_each (l : list nat) : state LocalKeys (list LocalKeyInfo) :=
  match l with
  | [] => mret []
  | i :: l' => d ← take_out i; rest ← take_each l'; mret (d ++ rest)
  end.

Definition key_print (k : localKey) : string := li_key_fingerprint (lk_info k).
Definition print_at (l : list localKey) (i : nat) : option string := key_print <$> l !! i.

Definition LocalKeys_Take (ref : string) : state LocalKeys (result (nat * list LocalKeyInfo)) :=
  expired ← pruneLocked;
  l ← gets lo_keys;
  match matchLocked ref l with
  | [] => _ ← emitExpired expired; mret (Err (wrap_w emp ErrNoSuchLocalKey (": " +:+ ref)))
  | first :: others =>
    let print := print_at l first in
    if existsb (fun i => bool_decide (print_at l i <> print)) others
    then _ ← emitExpired expired; mret (Err (wrap_w emp ErrAmbiguousLocalKey (": " +:+ ref)))
    else
      let matched := foldl appendIndex (first :: others)
                       (indexes (fun k => bool_decide (Some (key_print k) = print)) l) in
      let private := default 0%nat (lk_private <$> (l !! default 0%nat (head matched))) in
      taken ← take_each (reverse matched);
      _ ← emitExpired expired;
      _ ← emit_each LocalKeyPromoted None "promoted into the store" taken;
      mret (Ok (private, taken))
  end.

(** ** Reading *)

Definition pruned {A} (f : list localKey -> A) : state LocalKeys A :=
  expired ← pruneLocked;
  l ← gets lo_keys;
  _ ← emitExpired expired;
  mret (f l).

Definition LocalKeys_List : state LocalKeys (list LocalKeyInfo) := pruned (map lk_info).
Definition LocalKeys_Len : state LocalKeys Z := pruned (fun l => Z.of_nat (length l)).
Definition LocalKeys_Refs : state LocalKeys (list KeyRef) := pruned (map lk_ref).
Definition LocalKeys_Has (ref : string) : state LocalKeys bool :=
  pruned (fun l => (0 <? length (matchLocked ref l))%nat).

Definition note_of (k : localKey) : LocalKey :=
  let info := lk_info k in
  mk_LocalKey (li_added_by info) (li_added_at info) (li_expires_at info) (li_confirm info).

(** The signer is the entry's: its public key, and the cell it signs from. *)
Definition lookup_parked (blob : bytes) : state LocalKeys (option (PublicKey * nat * KeyRef * LocalKey)) :=
  pruned (fun l =>
    match indexOfBlobLocked blob l with
    | None => None
    | Some i =>
      (fun k => (lk_listed k, lk_private k, lk_ref k, note_of k)) <$> l !! i
    end).

(** The first entry of the fingerprint that has expired; the clock is read for
    the entries of the fingerprint only. *)
Fixpoint expire_from (i : nat) (fingerprint : string) (l : list localKey)
    : state LocalKeys (list LocalKeyInfo) :=
  match l with
  | [] => mret []
  | k :: l' =>
    hit ← (if bool_decide (li_fingerprint (lk_info k) = fingerprint) then expiredLocked k else mret false);
    if (hit : bool) then dropLocked i else expire_from (S i) fingerprint l'
  end.

Definition expire (fingerprint : string) : state LocalKeys unit :=
  l ← gets lo_keys;
  dropped ← expire_from 0 fingerprint l;
  emitExpired dropped.

(** The signer of a parked key, as it signs with what the memory holds now. *)
Definition parked_signer (memory : list PrivateKey) (listed : PublicKey) (cell : nat) : Signer :=
  let key := default zero_ed25519 (memory !! cell) in
  mk_Signer _ listed (fun data => key_Sign key data emp) (Some (key_Sign key)).

(** ** In words *)

Definition LocalKeyDescription `{LocalTime} (info : LocalKeyInfo) : string :=
  let label := if bool_decide (li_label info = emp) then li_fingerprint info else li_label info in
  let label := if li_certificate info then label +:+ " (certificate)" else label in
  let by_ := match li_added_by info with
             | Some by_ => if bool_decide (cp_executable by_ <> emp) then ["parked by " +:+ cp_executable by_] else []
             | None => []
             end in
  let expires := match li_expires_at info with
                 | Some expires => ["expires " +:+ Local_RFC1123 expires]
                 | None => []
                 end in
  let confirm := if li_confirm info then ["confirm each use"] else [] in
  Join (label :: by_ ++ expires ++ confirm) ", ".

End Parked.
