(* ===== verification/ParkedSpec.v ===== *)
(** * ParkedSpec: what the parked set keeps, and what its operations promise

    The invariant of [Parked.LocalKeys] between operations - one entry per blob,
    never more than the limit, private halves intact, and a log that accounts
    for the set - with what lookups find, what promotion takes and what is
    wiped. *)

From Stdlib Require Import Sorting.Sorted.
From stdpp Require Import sorting.
From S2P Require Import Prelude.
From S2P Require Import Rules.
From S2P Require Import GoText.
From S2P Require Import Ssh.
From S2P Require Import Proto.
From S2P Require Import Parked.

Local Open Scope Z_scope.
Local Open Scope ladulas_scope.

Lemma list_filter_all {A} (P : A -> Prop) `{!forall x, base.Decision (P x)} l :
  Forall P l -> filter P l = l.
Proof. induction 1 as [|x l Hx Hl IH]; [done|]. rewrite filter_cons_True by done. by rewrite IH. Qed.


Section Keeping.
Context `{Unicode} `{keys : PrivateKeys}.
Variable bound : Z.

(** ** What the set keeps, and what the log is told *)

(** An entry describes its key, and its private half is what it was. *)
Definition sound_entry (memory : list PrivateKey) (k : localKey) : Prop :=
  (exists key pub, memory !! lk_private k = Some key /\ key_Public key = Ok pub /\
     key_print k = FingerprintSHA256 pub) /\
  blob_of k = ssh_Marshal (lk_listed k) /\ kr_public_key (lk_ref k) = blob_of k /\
  li_fingerprint (lk_info k) = FingerprintSHA256 (lk_listed k) /\
  kr_fingerprint (lk_ref k) = li_fingerprint (lk_info k).

(** The blobs parked by what the log says, oldest first. *)
Definition tell (l : list bytes) (e : LocalKeyEvent) : list bytes :=
  let blob := li_public_key (ev_Key e) in
  filter (.≠ blob) l ++ match ev_Kind e with LocalKeyAdded => [blob] | _ => [] end.
Definition story (events : list LocalKeyEvent) : list bytes := foldl tell [] events.

(** In the middle of an operation: [extra] is an entry that is not in the set,
    and the log has yet to be told that [d] went. *)
Record owed (extra : list localKey) (d : list LocalKeyInfo) (s : LocalKeys) : Prop := mk_owed {
  owed_blobs : NoDup (map blob_of (lo_keys s));
  owed_bound : lo_Limit s = bound;
  owed_limit : Z.of_nat (length (lo_keys s)) <= bound;
  owed_cells : NoDup (map lk_private (lo_keys s ++ extra));
  owed_sound : Forall (sound_entry (lo_memory s)) (lo_keys s ++ extra);
  owed_story : map blob_of (lo_keys s) = filter (.∉ map li_public_key d) (story (lo_events s))
}.

(** Between operations. *)
Definition parked_ok : LocalKeys -> Prop := owed [] [].

(** An operation that drops what it returns. *)
Definition sheds (op : state LocalKeys (list LocalKeyInfo)) : Prop :=
  forall extra d s, owed extra d s -> owed extra (d ++ (op s).1) (op s).2.

Lemma filter_notin_app (l l' x : list bytes) :
  filter (.∉ l ++ l') x = filter (.∉ l') (filter (.∉ l) x).
Proof.
  rewrite list_filter_filter. apply list_filter_iff. intros b. rewrite not_elem_of_app. naive_solver.
Qed.

Lemma delete_as_filter i k (l : list localKey) :
  NoDup (map blob_of l) -> l !! i = Some k ->
  map blob_of (delete i l) = filter (.∉ [blob_of k]) (map blob_of l).
Proof.
  revert i. induction l as [|x l IH]; intros [|i] Hn Hi; try done;
    cbn [map] in Hn; apply NoDup_cons in Hn as [Hx Hn].
  - injection Hi as ->. change (map blob_of l = filter (.∉ [blob_of k]) (blob_of k :: map blob_of l)).
    rewrite filter_cons_False by set_solver. symmetry. apply list_filter_all, Forall_forall. set_solver.
  - change (blob_of x :: map blob_of (delete i l) = filter (.∉ [blob_of k]) (blob_of x :: map blob_of l)).
    rewrite filter_cons_True.
    2: { intros Heq%list_elem_of_singleton. apply Hx. rewrite Heq. apply list_elem_of_fmap.
         exists k. split; [done|]. by eapply list_elem_of_lookup_2. }
    f_equal. by apply IH.
Qed.

Lemma wipe_run cell s :
  (wipePrivate cell s).2 = s \/
  exists key, lo_memory s !! cell = Some key /\ (wipePrivate cell s).2 = set_memory (<[cell := zero_ed25519]> (lo_memory s)) s.
Proof.
  unfold wipePrivate. run_state. destruct (lo_memory s !! cell) as [key|] eqn:E; [|by left].
  destruct (is_ed25519 key); [|by left]. right. by exists key.
Qed.

Lemma sound_wipe memory cell key k :
  lk_private k <> cell -> sound_entry memory k -> sound_entry (<[cell := key]> memory) k.
Proof.
  intros Hne [(pk & pub & Hm & Hp) Hr]. split; [|done]. exists pk, pub. split; [|done].
  by rewrite list_lookup_insert_ne.
Qed.

(** Wiping a key that no entry holds. *)
Lemma owed_wipe extra d cell s :
  Forall (fun k => lk_private k <> cell) (lo_keys s ++ extra) ->
  owed extra d s -> owed extra d (wipePrivate cell s).2.
Proof.
  intros Hf [Hb Hbd Hl Hc Hs Ht]. destruct (wipe_run cell s) as [->|(key & _ & ->)]; [by constructor|].
  constructor; try done. cbn. rewrite Forall_forall in Hf, Hs. apply Forall_forall. intros k Hk.
  apply sound_wipe; auto.
Qed.

(** Taking one out, told or not. *)
Lemma owed_delete extra d i k s :
  lo_keys s !! i = Some k -> owed extra d s ->
  owed extra (d ++ [lk_info k]) (set_keys (delete i (lo_keys s)) s) /\
  Forall (fun k' => lk_private k' <> lk_private k) (delete i (lo_keys s) ++ extra).
Proof.
  intros Hi [Hb Hbd Hl Hc Hs Ht]. pose proof (delete_Permutation _ _ _ Hi) as Hp.
  rewrite map_app, Hp in Hc. cbn in Hc. split.
  - constructor; cbn [lo_keys set_keys lo_memory lo_events lo_Limit].
    + rewrite (delete_as_filter _ _ _ Hb Hi). by apply NoDup_filter.
    + done.
    + apply Permutation_length in Hp. cbn in Hp. lia.
    + rewrite map_app. by apply NoDup_cons in Hc as [_ Hc].
    + rewrite Hp in Hs. cbn in Hs. by apply Forall_cons in Hs as [_ Hs].
    + rewrite (delete_as_filter _ _ _ Hb Hi), Ht, map_app, filter_notin_app. done.
  - apply NoDup_cons in Hc as [Hk _]. rewrite <- map_app in Hk. apply Forall_forall. intros k' Hk' Heq.
    apply Hk. rewrite <- Heq. apply list_elem_of_fmap. by exists k'.
Qed.

Lemma dropLocked_run i s :
  dropLocked i s =
  match lo_keys s !! i with
  | None => ([], s)
  | Some k => ([lk_info k], set_keys (delete i (lo_keys s)) (wipePrivate (lk_private k) s).2)
  end.
Proof.
  unfold dropLocked. rewrite state_bind_unfold. cbn [gets fst snd]. destruct (lo_keys s !! i); [|done].
  by rewrite state_bind_unfold.
Qed.

Lemma wipe_keys cell s : lo_keys (wipePrivate cell s).2 = lo_keys s.
Proof. by destruct (wipe_run cell s) as [->|(key & _ & ->)]. Qed.

Lemma set_keys_wipe l cell s :
  set_keys l (wipePrivate cell s).2 = (wipePrivate cell (set_keys l s)).2.
Proof.
  unfold wipePrivate. run_state. destruct (lo_memory s !! cell) as [key|]; [|done]. by destruct (is_ed25519 key).
Qed.

Lemma sheds_ret : sheds (mret []).
Proof. intros extra d s Ho. cbn. by rewrite app_nil_r. Qed.

Lemma sheds_dropLocked i : sheds (dropLocked i).
Proof.
  intros extra d s Ho. rewrite dropLocked_run. destruct (lo_keys s !! i) as [k|] eqn:Ei; cbn [fst snd].
  - destruct (owed_delete extra d i k s Ei Ho) as [Hd Hf]. rewrite set_keys_wipe. by apply owed_wipe.
  - by rewrite app_nil_r.
Qed.

Lemma sheds_take_out i : sheds (take_out i).
Proof.
  intros extra d s Ho. unfold take_out. run_state. destruct (lo_keys s !! i) as [k|] eqn:Ei; cbn [fst snd].
  - by destruct (owed_delete extra d i k s Ei Ho).
  - by rewrite app_nil_r.
Qed.

Lemma sheds_app op op' : sheds op -> sheds op' -> sheds (d ← op; rest ← op'; mret (d ++ rest)).
Proof.
  intros Ho Ho' extra d s Hs. rewrite !state_bind_unfold. cbn [mret state_ret fst snd]. rewrite app_assoc.
  by apply Ho', Ho.
Qed.

Lemma sheds_drop_each l : sheds (drop_each l).
Proof. induction l; [apply sheds_ret|]. apply sheds_app; [apply sheds_dropLocked|done]. Qed.
Lemma sheds_take_each l : sheds (take_each l).
Proof. induction l; [apply sheds_ret|]. apply sheds_app; [apply sheds_take_out|done]. Qed.

Lemma owed_clock extra d s : owed extra d s -> owed extra d (clock_now s).2.
Proof. by intros []. Qed.

Lemma expiredLocked_owed extra d k s : owed extra d s -> owed extra d (expiredLocked k s).2.
Proof. unfold expiredLocked. destruct (li_expires_at (lk_info k)); [|done]. apply owed_clock. Qed.

(** An operation that first reads. *)
Lemma sheds_after {A} (m : state LocalKeys A) (f : A -> state LocalKeys (list LocalKeyInfo)) :
  (forall extra d s, owed extra d s -> owed extra d (m s).2) -> (forall a, sheds (f a)) -> sheds (m ≫= f).
Proof. intros Hm Hf extra d s Hs. rewrite state_bind_unfold. by apply Hf, Hm. Qed.

Lemma sheds_prune_below i : sheds (prune_below i).
Proof.
  induction i as [|i IH]; [apply sheds_ret|]. cbn [prune_below]. apply sheds_after; [done|]. intros l.
  apply sheds_app; [|done]. destruct (l !! i) as [k|]; [|apply sheds_ret].
  apply sheds_after; [intros; by apply expiredLocked_owed|]. intros []; [apply sheds_dropLocked|apply sheds_ret].
Qed.

Lemma sheds_pruneLocked : sheds pruneLocked.
Proof. unfold pruneLocked. apply sheds_after; [done|]. intros l. apply sheds_prune_below. Qed.

Lemma sheds_expire_from fingerprint i l : sheds (expire_from i fingerprint l).
Proof.
  revert i. induction l as [|k l IH]; intros i; [apply sheds_ret|]. cbn [expire_from]. apply sheds_after.
  - intros extra d s. case_bool_decide; [apply expiredLocked_owed|done].
  - intros []; [apply sheds_dropLocked|apply IH].
Qed.

(** Telling the log. *)
Lemma emit_each_run kind by_ reason d s :
  (emit_each kind by_ reason d s).2 =
  mk_LocalKeys (lo_Limit s) (lo_Accept s) (lo_keys s) (lo_memory s)
    (lo_events s ++ map (fun info => mk_LocalKeyEvent kind info by_ reason) d) (lo_clock s) (lo_ticks s).
Proof.
  revert s. induction d as [|info d IH]; intros s; cbn [emit_each map].
  { rewrite app_nil_r. by destruct s. }
  rewrite state_bind_unfold, IH. cbn. by rewrite <- app_assoc.
Qed.

Lemma story_gone kind by_ reason d events :
  kind <> LocalKeyAdded ->
  story (events ++ map (fun info => mk_LocalKeyEvent kind info by_ reason) d) =
  filter (.∉ map li_public_key d) (story events).
Proof.
  intros Hk. unfold story. rewrite foldl_app. generalize (foldl tell [] events) as l. clear events.
  induction d as [|info d IH]; intros l; cbn [map foldl].
  { symmetry. apply list_filter_all, Forall_forall. intros b _. apply not_elem_of_nil. }
  rewrite IH. unfold tell. cbn [ev_Kind ev_Key]. assert (match kind with LocalKeyAdded => [li_public_key info] | _ => [] end = []) as ->
    by (by destruct kind). rewrite app_nil_r, list_filter_filter. apply list_filter_iff. intros b.
  rewrite not_elem_of_cons. naive_solver.
Qed.

Lemma owed_emit kind by_ reason extra d d' s :
  kind <> LocalKeyAdded -> owed extra (d ++ d') s -> owed extra d' (emit_each kind by_ reason d s).2.
Proof.
  intros Hk [Hb Hbd Hl Hc Hs Ht]. rewrite emit_each_run. constructor; cbn; try done.
  by rewrite story_gone, Ht, map_app, filter_notin_app by done.
Qed.


(** ** The entry that arrives *)

Lemma sound_memory memory key k : sound_entry memory k -> sound_entry (memory ++ [key]) k.
Proof.
  intros [(pk & pub & Hm & Hp) Hr]. split; [|done]. exists pk, pub. split; [|done]. by apply lookup_app_l_Some.
Qed.

Lemma owed_receive d key s : owed [] d s -> owed [] d (set_memory (lo_memory s ++ [key]) s).
Proof.
  intros [Hb Hbd Hl Hc Hs Ht]. constructor; try done. eapply Forall_impl; [exact Hs|]. intros k. apply sound_memory.
Qed.

(** A cell that is not in use yet is no entry's. *)
Lemma fresh_cell d s : owed [] d s -> length (lo_memory s) ∉ map lk_private (lo_keys s).
Proof.
  intros [_ _ _ _ Hs _]. rewrite app_nil_r, Forall_forall in Hs. intros (k & Hk & Hin)%list_elem_of_fmap.
  destruct (Hs k Hin) as [(key & pub & Hm & _) _]. apply lookup_lt_Some in Hm. lia.
Qed.

Lemma owed_arrives d key k s :
  owed [] d s -> lk_private k = length (lo_memory s) -> sound_entry (lo_memory s ++ [key]) k ->
  owed [k] d (set_memory (lo_memory s ++ [key]) s).
Proof.
  intros Ho Hk Hsk. pose proof (fresh_cell d s Ho) as Hf. destruct (owed_receive d key s Ho) as [Hb Hbd Hl Hc Hs Ht].
  rewrite app_nil_r in Hc, Hs. constructor; try done; cbn [lo_keys set_memory] in *.
  - rewrite map_app. apply NoDup_app. repeat split; [done| |apply NoDup_singleton].
    intros c Hin ->%list_elem_of_singleton. by rewrite Hk in Hin.
  - apply Forall_app. by rewrite Forall_singleton.
Qed.

(** What [entry] makes of a key it takes, and that it changes nothing else. *)
Lemma entry_run added by_ d s :
  owed [] d s ->
  match entry added by_ s with
  | (Err _, s') => owed [] d s'
  | (Ok k, s') => owed [k] d s' /\ lk_private k = length (lo_memory s) /\ lo_keys s' = lo_keys s
  end.
Proof.
  intros Ho. unfold entry. rewrite state_bind_unfold. cbn [receive fst snd].
  destruct (key_Public (ak_PrivateKey added)) as [pub|e] eqn:Ep; [|by apply owed_receive].
  rewrite state_bind_unfold. cbn [clock_now fst snd].
  destruct (match ak_Certificate added with Some _ => _ | None => _ end) as [listed|e] eqn:El; cbn [mret state_ret].
  2: { apply (owed_clock [] d), owed_receive, Ho. }
  split; [|done]. apply (owed_clock [_] d), owed_arrives; [done|done|].
  repeat split. exists (ak_PrivateKey added), pub. split; [|done]. cbn. by rewrite lookup_app_r, Nat.sub_diag by lia.
Qed.

Lemma set_timer_run k s :
  exists t, (set_timer k s).1 = mk_localKey (lk_info k) (lk_ref k) (lk_listed k) (lk_private k) t /\
  ((set_timer k s).2 = s \/ (set_timer k s).2 = (clock_now s).2).
Proof.
  unfold set_timer. destruct (li_expires_at (lk_info k)) as [e|].
  - exists (Some (Sub e (clock_now s).1)). split; [done|by right].
  - exists (lk_timer k). split; [by destruct k|by left].
Qed.

Lemma owed_timer extra d k k' s :
  lk_info k' = lk_info k -> lk_ref k' = lk_ref k -> lk_listed k' = lk_listed k -> lk_private k' = lk_private k ->
  owed (k :: extra) d s -> owed (k' :: extra) d s.
Proof.
  intros Hi Hr Hl Hp [Hb Hbd Hm Hc Hs Ht]. constructor; try done.
  - rewrite map_app in *. cbn in *. by rewrite Hp.
  - rewrite Forall_app, Forall_cons in *. destruct Hs as (? & Hk & ?). repeat split; try done.
    all: unfold sound_entry, blob_of, key_print in *; rewrite ?Hi, ?Hr, ?Hl, ?Hp; apply Hk.
Qed.

Lemma story_added events k by_ reason :
  story (events ++ [mk_LocalKeyEvent LocalKeyAdded (lk_info k) by_ reason]) =
  filter (.≠ blob_of k) (story events) ++ map blob_of [k].
Proof. unfold story. by rewrite foldl_app. Qed.

(** The entry joins the set and the log is told. *)
Lemma owed_joins d k by_ reason s :
  Forall (fun info => li_public_key info = blob_of k) d ->
  blob_of k ∉ map blob_of (lo_keys s) -> Z.of_nat (length (lo_keys s)) < bound ->
  owed [k] d s ->
  parked_ok (add_event (mk_LocalKeyEvent LocalKeyAdded (lk_info k) by_ reason) (set_keys (lo_keys s ++ [k]) s)).
Proof.
  intros Hd Hk Hlt [Hb Hbd Hl Hc Hs Ht]. constructor; cbn [lo_keys lo_Limit lo_memory lo_events add_event set_keys].
  - rewrite map_app. apply NoDup_app. repeat split; [done| |apply NoDup_singleton].
    by intros b Hin ->%list_elem_of_singleton.
  - done.
  - rewrite length_app. cbn. lia.
  - by rewrite app_nil_r.
  - by rewrite app_nil_r.
  - rewrite map_app, story_added. rewrite (list_filter_all (.∉ _)) by (apply Forall_forall; intros; apply not_elem_of_nil).
    f_equal. assert (map blob_of (lo_keys s) = filter (.≠ blob_of k) (map blob_of (lo_keys s))) as ->.
    { symmetry. apply list_filter_all, Forall_forall. by intros b Hin ->. }
    rewrite Ht, list_filter_filter. apply list_filter_iff. intros b. rewrite Forall_forall in Hd.
    split; [by intros []|]. intros Hb'. split; [done|].
    intros (info & -> & Hin)%list_elem_of_fmap. by apply Hb', Hd.
Qed.

Lemma park_run k expired d by_ reason s :
  Forall (fun info => li_public_key info = blob_of k) d ->
  blob_of k ∉ map blob_of (lo_keys s) -> Z.of_nat (length (lo_keys s)) < bound ->
  owed [k] (expired ++ d) s -> parked_ok (park k expired by_ reason s).2.
Proof.
  intros Hd Hk Hlt Ho. unfold park. rewrite state_bind_unfold.
  destruct (set_timer_run k s) as (t & -> & Hs). set (s1 := (set_timer k s).2) in *.
  rewrite state_bind_unfold. cbn [modify fst snd]. rewrite state_bind_unfold. unfold emitExpired. rewrite emit_each_run.
  set (k' := mk_localKey _ _ _ _ _).
  assert (owed [k'] (expired ++ d) s1) as Ho1.
  { apply (owed_timer [] _ k); try done. destruct Hs as [->| ->]; [done|by apply owed_clock]. }
  assert (lo_keys s1 = lo_keys s /\ lo_Limit s1 = lo_Limit s) as [Hkeys Hlim] by (by destruct Hs as [->| ->]).
  apply (owed_emit LocalKeyExpired None "the lifetime it was parked with ran out") in Ho1; [|done].
  rewrite emit_each_run in Ho1.
  apply (owed_joins d k' by_ reason) in Ho1; cbn [lo_keys lo_Limit] in *; [done|done| |]; by rewrite Hkeys, ?Hlim.
Qed.

(** ** The operations *)

Lemma index_of_blob blob l :
  match indexOfBlobLocked blob l with
  | None => blob ∉ map blob_of l
  | Some i => exists k, l !! i = Some k /\ blob_of k = blob
  end.
Proof.
  unfold indexOfBlobLocked. destruct (list_find _ l) as [[i k]|] eqn:E; cbn.
  - apply list_find_Some in E as (Hi & Hb & _). by exists k.
  - apply list_find_None in E. rewrite Forall_forall in E. intros (k & -> & Hk)%list_elem_of_fmap. by apply (E k).
Qed.

(** Every operation begins by pruning; what it drops is owed to the log. *)
Lemma pruned_ok s : parked_ok s -> owed [] (pruneLocked s).1 (pruneLocked s).2.
Proof. intros Ho. apply (sheds_pruneLocked [] [] s Ho). Qed.

Lemma emitExpired_ok d s : owed [] d s -> parked_ok (emitExpired d s).2.
Proof. intros Ho. apply owed_emit; [done|]. by rewrite app_nil_r. Qed.

Lemma emit_both_ok kind by_ reason expired d s :
  kind <> LocalKeyAdded -> owed [] (expired ++ d) s ->
  parked_ok (emit_each kind by_ reason d (emitExpired expired s).2).2.
Proof. intros Hk Ho. apply owed_emit; [done|]. rewrite app_nil_r. by apply owed_emit. Qed.

Lemma owed_forget_extra extra k d s :
  owed (k :: extra) d s ->
  owed extra d s /\ Forall (fun k' => lk_private k' <> lk_private k) (lo_keys s ++ extra).
Proof.
  intros [Hb Hbd Hl Hc Hs Ht]. rewrite <- Permutation_middle in Hc, Hs. cbn in Hc.
  apply NoDup_cons in Hc as [Hk Hc]. apply Forall_cons in Hs as [_ Hs]. split; [by constructor|].
  apply Forall_forall. intros k' Hin Heq. apply Hk. rewrite <- Heq. apply list_elem_of_fmap. by exists k'.
Qed.

Lemma replaced_ok k i expired by_ reason s x :
  lo_keys s !! i = Some x -> blob_of x = blob_of k -> owed [k] expired s ->
  parked_ok (park k expired by_ reason (dropLocked i s).2).2.
Proof.
  intros Hi Hx Ho. pose proof (sheds_dropLocked i _ _ _ Ho) as Hd. rewrite dropLocked_run, Hi in *. cbn [fst snd] in *.
  rewrite set_keys_wipe in *.
  eapply park_run; [|rewrite wipe_keys; cbn [lo_keys set_keys]| |exact Hd].
  - by rewrite Forall_singleton.
  - rewrite (delete_as_filter _ _ _ (owed_blobs _ _ _ Ho) Hi), Hx. intros [Hb _]%list_elem_of_filter. by apply Hb, list_elem_of_singleton.
  - rewrite wipe_keys. cbn [lo_keys set_keys]. pose proof (owed_limit _ _ _ Ho).
    pose proof (delete_Permutation _ _ _ Hi) as Hp%Permutation_length. cbn in *. lia.
Qed.

Lemma LocalKeys_Add_ok added by_ s : parked_ok s -> parked_ok (LocalKeys_Add added by_ s).2.
Proof.
  intros Ho. unfold LocalKeys_Add. rewrite state_bind_unfold. cbn [gets fst snd].
  destruct (lo_Accept s); [done|]. rewrite state_bind_unfold. pose proof (entry_run added by_ [] s Ho) as He.
  destruct (entry added by_ s) as [[k|e] s1]; cbn [fst snd]; [|done]. destruct He as (He & _ & _).
  rewrite state_bind_unfold. apply sheds_pruneLocked in He. cbn [app] in He.
  destruct (pruneLocked s1) as [expired s2]. cbn [fst snd] in *.
  rewrite !state_bind_unfold. cbn [gets fst snd].
  pose proof (index_of_blob (blob_of k) (lo_keys s2)) as Hi. destruct (indexOfBlobLocked _ _) as [i|].
  - destruct Hi as (x & Hi & Hx). rewrite !state_bind_unfold. cbn [mret state_ret snd]. by eapply replaced_ok.
  - pose proof (owed_bound _ _ _ He) as Hbd. case_match.
    + rewrite !state_bind_unfold. cbn [mret state_ret snd]. apply owed_forget_extra in He as [He Hf].
      apply owed_wipe; [|by apply emitExpired_ok]. unfold emitExpired. by rewrite emit_each_run.
    + rewrite state_bind_unfold. cbn [mret state_ret snd]. apply (park_run k expired [] by_ parked_reason); [done|done|lia|].
      by rewrite app_nil_r.
Qed.

Lemma pruned_f_ok {A} (f : list localKey -> A) s : parked_ok s -> parked_ok (pruned f s).2.
Proof.
  intros Ho%pruned_ok. unfold pruned. rewrite !state_bind_unfold. by apply emitExpired_ok.
Qed.

Lemma LocalKeys_Remove_ok blob by_ s : parked_ok s -> parked_ok (LocalKeys_Remove blob by_ s).2.
Proof.
  intros Ho%pruned_ok. unfold LocalKeys_Remove. rewrite !state_bind_unfold. cbn [gets fst snd].
  destruct (indexOfBlobLocked _ _) as [i|]; rewrite !state_bind_unfold; cbn [mret state_ret snd].
  - apply emit_both_ok; [done|]. by apply sheds_dropLocked.
  - by apply emitExpired_ok.
Qed.

Lemma dropAll_ok by_ reason s : parked_ok s -> parked_ok (dropAll by_ reason s).2.
Proof.
  intros Ho%pruned_ok. unfold dropAll. rewrite !state_bind_unfold. cbn [gets mret state_ret fst snd].
  apply emit_both_ok; [done|]. by apply sheds_drop_each.
Qed.

Lemma LocalKeys_Forget_ok ref s : parked_ok s -> parked_ok (LocalKeys_Forget ref s).2.
Proof.
  intros Ho%pruned_ok. unfold LocalKeys_Forget. rewrite !state_bind_unfold. cbn [gets fst snd].
  destruct (matchLocked _ _); rewrite !state_bind_unfold; cbn [mret state_ret fst snd]; [by apply emitExpired_ok|].
  apply emit_both_ok; [done|]. by apply sheds_drop_each.
Qed.

Lemma LocalKeys_Take_ok ref s : parked_ok s -> parked_ok (LocalKeys_Take ref s).2.
Proof.
  intros Ho%pruned_ok. unfold LocalKeys_Take. rewrite !state_bind_unfold. cbn [gets fst snd].
  destruct (matchLocked _ _); [rewrite !state_bind_unfold; by apply emitExpired_ok|].
  case_match; rewrite !state_bind_unfold; cbn [mret state_ret fst snd]; [by apply emitExpired_ok|].
  apply emit_both_ok; [done|]. by apply sheds_take_each.
Qed.

Lemma expire_ok fingerprint s : parked_ok s -> parked_ok (expire fingerprint s).2.
Proof.
  intros Ho. unfold expire. rewrite !state_bind_unfold. cbn [gets fst snd].
  apply emitExpired_ok, (sheds_expire_from _ _ _ [] [] s Ho).
Qed.

(** What may happen to the set: a program or a surface asks, a timer fires, the
    store is sealed or opened. *)
Inductive parked_op :=
  | LAdd (added : AddedKey) (by_ : option ClientProcess)
  | LRemove (blob : bytes) (by_ : option ClientProcess)
  | LRemoveAll (by_ : option ClientProcess)
  | LWipe (reason : string)
  | LForget (ref : string)
  | LTake (ref : string)
  | LList | LLen | LRefs
  | LHas (ref : string)
  | LLookup (blob : bytes)
  | LExpire (fingerprint : string)
  | LAccept (refused : option error).

Definition parked_step (op : parked_op) (s : LocalKeys) : LocalKeys :=
  match op with
  | LAdd added by_ => (LocalKeys_Add added by_ s).2
  | LRemove blob by_ => (LocalKeys_Remove blob by_ s).2
  | LRemoveAll by_ => (LocalKeys_RemoveAll by_ s).2
  | LWipe reason => (LocalKeys_Wipe reason s).2
  | LForget ref => (LocalKeys_Forget ref s).2
  | LTake ref => (LocalKeys_Take ref s).2
  | LList => (LocalKeys_List s).2
  | LLen => (LocalKeys_Len s).2
  | LRefs => (LocalKeys_Refs s).2
  | LHas ref => (LocalKeys_Has ref s).2
  | LLookup blob => (lookup_parked blob s).2
  | LExpire fingerprint => (expire fingerprint s).2
  | LAccept refused => set_accept refused s
  end.
Definition parked_run (ops : list parked_op) (s : LocalKeys) : LocalKeys := foldl (fun s op => parked_step op s) s ops.

Lemma parked_step_ok op s : parked_ok s -> parked_ok (parked_step op s).
Proof.
  destruct op; cbn [parked_step]; intros Ho; try (by apply pruned_f_ok).
  - by apply LocalKeys_Add_ok.
  - by apply LocalKeys_Remove_ok.
  - by apply dropAll_ok.
  - by apply dropAll_ok.
  - by apply LocalKeys_Forget_ok.
  - by apply LocalKeys_Take_ok.
  - by apply expire_ok.
  - by destruct Ho.
Qed.

Lemma parked_run_ok ops s : parked_ok s -> parked_ok (parked_run ops s).
Proof. revert s. induction ops as [|op ops IH]; intros s Ho; [done|]. by apply IH, parked_step_ok. Qed.

(** ** Lists of indexes *)

Lemma indexes_snoc (p : localKey -> bool) l x :
  indexes p (l ++ [x]) = indexes p l ++ if p x then [length l] else [].
Proof.
  unfold indexes. rewrite length_app, Nat.add_1_r, seq_S, List.filter_app. cbn [List.filter Nat.add].
  rewrite lookup_app_r, Nat.sub_diag by lia. cbn [lookup list_lookup]. f_equal. apply List.filter_ext_in.
  intros i Hi%in_seq. by rewrite lookup_app_l by lia.
Qed.

Lemma elem_of_indexes p l i : i ∈ indexes p l <-> exists k : localKey, l !! i = Some k /\ p k = true.
Proof.
  unfold indexes. rewrite list_elem_of_In, List.filter_In, in_seq. split.
  - intros [_ Hi]. destruct (l !! i) as [k|]; [by exists k|done].
  - intros (k & Hi & Hp). rewrite Hi. split; [apply lookup_lt_Some in Hi; lia|done].
Qed.

Lemma indexes_sorted p (l : list localKey) : StronglySorted gt (reverse (indexes p l)).
Proof.
  induction l as [|x l IH] using rev_ind; [constructor|]. rewrite indexes_snoc, reverse_app.
  destruct (p x); [|done]. cbn. constructor; [done|]. apply Forall_reverse, Forall_forall.
  intros i (k & Hi%lookup_lt_Some & _)%elem_of_indexes. lia.
Qed.

Lemma bubble_elem i l j : j ∈ bubble i l <-> j = i \/ j ∈ l.
Proof. induction l as [|x l IH]; cbn; [set_solver|]. case_match; set_solver. Qed.

Lemma bubble_sorted i l : i ∉ l -> StronglySorted gt l -> StronglySorted gt (bubble i l).
Proof.
  intros Hi. induction 1 as [|x l Hs IH Hx]; cbn [bubble]; [by repeat constructor|]. destruct (Nat.ltb_spec i x).
  - constructor; [apply IH; set_solver|]. rewrite Forall_forall in *. intros j [->|Hj]%bubble_elem; auto.
  - assert (i <> x) by set_solver. constructor; [by constructor|]. constructor; [lia|].
    rewrite Forall_forall in *. intros j Hj. specialize (Hx j Hj). lia.
Qed.

Lemma appendIndex_spec m i :
  StronglySorted gt (reverse m) ->
  StronglySorted gt (reverse (appendIndex m i)) /\ forall j, j ∈ appendIndex m i <-> j = i \/ j ∈ m.
Proof.
  intros Hs. unfold appendIndex. case_bool_decide as Hi; [split; [done|set_solver]|]. rewrite reverse_involutive. split.
  - apply bubble_sorted; [by rewrite elem_of_reverse|done].
  - intros j. by rewrite elem_of_reverse, bubble_elem, elem_of_reverse.
Qed.

Lemma appendIndex_all m l :
  StronglySorted gt (reverse m) ->
  StronglySorted gt (reverse (foldl appendIndex m l)) /\ forall j, j ∈ foldl appendIndex m l <-> j ∈ l \/ j ∈ m.
Proof.
  revert m. induction l as [|i l IH]; intros m Hs; cbn [foldl]; [set_solver|].
  destruct (appendIndex_spec m i Hs) as [Hs' He]. destruct (IH _ Hs') as [Hl Hj]. split; [done|].
  intros j. rewrite Hj, He. set_solver.
Qed.

#[local] Instance gt_antisymm : AntiSymm (=) gt.
Proof. intros x y. lia. Qed.

Lemma sorted_NoDup l : StronglySorted gt l -> NoDup l.
Proof.
  induction 1 as [|x l Hs IH Hx]; constructor; [|done]. rewrite Forall_forall in Hx. intros Hin%Hx. lia.
Qed.

Lemma sorted_ext l l' :
  StronglySorted gt (reverse l) -> StronglySorted gt (reverse l') -> (forall j, j ∈ l <-> j ∈ l') -> l = l'.
Proof.
  intros Hs Hs' He. apply (inj reverse). apply (StronglySorted_unique gt); [done|done|].
  apply NoDup_Permutation; [by apply sorted_NoDup|by apply sorted_NoDup|]. intros j. by rewrite !elem_of_reverse.
Qed.

(** Widening a list of matches to every entry of a test gives the test's list. *)
Lemma widen_matches p q (l : list localKey) :
  (forall k, k ∈ l -> p k = true -> q k = true) -> foldl appendIndex (indexes p l) (indexes q l) = indexes q l.
Proof.
  intros Hpq. destruct (appendIndex_all (indexes p l) (indexes q l) (indexes_sorted p l)) as [Hs He].
  apply sorted_ext; [done|apply indexes_sorted|]. intros j. rewrite He. split; [|by left].
  intros [Hj|Hj]; [done|]. apply elem_of_indexes in Hj as (k & Hj & Hp). apply elem_of_indexes. exists k.
  split; [done|]. apply Hpq; [by eapply list_elem_of_lookup_2|done].
Qed.

(** Taking and dropping by index, from the last down. *)
Lemma set_keys_set_keys (l l' : list localKey) s : set_keys l (set_keys l' s) = set_keys l s.
Proof. done. Qed.

Lemma delete_snoc {A} (l r : list A) x : delete (length l) ((l ++ [x]) ++ r) = l ++ r.
Proof. rewrite <- app_assoc. apply (delete_middle l r x). Qed.

Lemma take_each_run p l r s :
  lo_keys s = l ++ r ->
  take_each (reverse (indexes p l)) s =
    (reverse (map lk_info (List.filter p l)), set_keys (List.filter (fun k => negb (p k)) l ++ r) s).
Proof.
  revert r s. induction l as [|x l IH] using rev_ind; intros r s Hs.
  { cbn in *. rewrite <- Hs. by destruct s. }
  rewrite indexes_snoc, reverse_app, !List.filter_app. cbn [List.filter]. destruct (p x); cbn [negb].
  - cbn [reverse app rev_append take_each]. rewrite state_bind_unfold. unfold take_out at 1 2. run_state.
    rewrite Hs, lookup_app_l, lookup_app_r, Nat.sub_diag by (rewrite ?length_app; cbn; lia). cbn [lookup list_lookup].
    run_state. rewrite app_nil_r, map_app, reverse_app. cbn.
    rewrite (IH r) by (cbn [lo_keys set_keys]; apply delete_snoc). done.
  - rewrite app_nil_r. cbn [reverse app rev_append map]. rewrite (IH ([x] ++ r)) by (by rewrite Hs, <- app_assoc).
    by rewrite <- app_assoc.
Qed.

Lemma drop_each_run p l r s :
  lo_keys s = l ++ r ->
  (drop_each (reverse (indexes p l)) s).1 = reverse (map lk_info (List.filter p l)) /\
  lo_keys (drop_each (reverse (indexes p l)) s).2 = List.filter (fun k => negb (p k)) l ++ r.
Proof.
  revert r s. induction l as [|x l IH] using rev_ind; intros r s Hs; [done|].
  rewrite indexes_snoc, reverse_app, !List.filter_app. cbn [List.filter]. destruct (p x); cbn [negb].
  - cbn [reverse app rev_append drop_each]. rewrite state_bind_unfold, dropLocked_run.
    rewrite Hs, lookup_app_l, lookup_app_r, Nat.sub_diag by (rewrite ?length_app; cbn; lia). cbn [lookup list_lookup fst snd].
    rewrite state_bind_unfold. cbn [mret state_ret fst snd]. rewrite app_nil_r, map_app, reverse_app. cbn [map reverse rev_append app].
    match goal with |- context [drop_each _ ?s'] => destruct (IH r s') as [-> ->] end; [|done].
    cbn [lo_keys set_keys]. apply delete_snoc.
  - rewrite app_nil_r. cbn [reverse app rev_append map]. destruct (IH ([x] ++ r) s) as [-> ->]; [by rewrite Hs, <- app_assoc|].
    by rewrite ?app_nil_r, <- app_assoc.
Qed.


(** ** Expiry *)

(** Not expired, and expired, by a reading of the clock between two ticks. *)
Definition alive (clock : nat -> time) (n m : nat) (k : localKey) : Prop :=
  li_expires_at (lk_info k) = None \/
  exists e i, li_expires_at (lk_info k) = Some e /\ (n <= i < m)%nat /\ clock i < e.
Definition gone (clock : nat -> time) (n m : nat) (k : localKey) : Prop :=
  exists e i, li_expires_at (lk_info k) = Some e /\ (n <= i < m)%nat /\ e <= clock i.

Lemma alive_wider clock n m n' m' k : (n' <= n)%nat -> (m <= m')%nat -> alive clock n m k -> alive clock n' m' k.
Proof. intros Hn Hm [He|(e & i & He & Hi & Hlt)]; [by left|]. right. exists e, i. repeat split; [done|lia|lia|done]. Qed.
Lemma gone_wider clock n m n' m' k : (n' <= n)%nat -> (m <= m')%nat -> gone clock n m k -> gone clock n' m' k.
Proof. intros Hn Hm (e & i & He & Hi & Hlt). exists e, i. repeat split; [done|lia|lia|done]. Qed.

Lemma expiredLocked_run k s :
  expiredLocked k s =
  match li_expires_at (lk_info k) with
  | None => (false, s)
  | Some e => (negb (lo_clock s (lo_ticks s) <? e), (clock_now s).2)
  end.
Proof. unfold expiredLocked. by destruct (li_expires_at (lk_info k)). Qed.

Lemma wipe_state cell s :
  lo_keys (wipePrivate cell s).2 = lo_keys s /\ lo_clock (wipePrivate cell s).2 = lo_clock s /\
  lo_ticks (wipePrivate cell s).2 = lo_ticks s /\ lo_Accept (wipePrivate cell s).2 = lo_Accept s.
Proof. by destruct (wipe_run cell s) as [->|(key & _ & ->)]. Qed.

(** The keys at the indexes below [i] are looked at from the last, so a key is
    dropped where it stood and the ones below have not moved. *)
Lemma prune_below_run i l r s :
  length l = i -> lo_keys s = l ++ r ->
  exists l', lo_keys (prune_below i s).2 = l' ++ r /\ sublist l' l /\
    lo_clock (prune_below i s).2 = lo_clock s /\ (lo_ticks s <= lo_ticks (prune_below i s).2)%nat /\
    Forall (alive (lo_clock s) (lo_ticks s) (lo_ticks (prune_below i s).2)) l' /\
    forall k, k ∈ l -> k ∈ l' \/ gone (lo_clock s) (lo_ticks s) (lo_ticks (prune_below i s).2) k.
Proof.
  intros <-. revert r s. induction l as [|x l IH] using rev_ind; intros r s Hs.
  { exists []. cbn. set_solver. }
  rewrite length_app, Nat.add_1_r. cbn [prune_below]. rewrite state_bind_unfold. cbn [gets fst snd].
  rewrite Hs, lookup_app_l, lookup_app_r, Nat.sub_diag by (rewrite ?length_app; cbn; lia). cbn [lookup list_lookup].
  rewrite !state_bind_unfold, expiredLocked_run. cbn [mret state_ret fst snd].
  assert (forall s', lo_keys s' = (l ++ [x]) ++ r -> lo_clock s' = lo_clock s -> (lo_ticks s <= lo_ticks s')%nat ->
    alive (lo_clock s) (lo_ticks s) (lo_ticks s') x ->
    exists l', lo_keys (prune_below (length l) s').2 = l' ++ r /\ sublist l' (l ++ [x]) /\
      lo_clock (prune_below (length l) s').2 = lo_clock s /\ (lo_ticks s <= lo_ticks (prune_below (length l) s').2)%nat /\
      Forall (alive (lo_clock s) (lo_ticks s) (lo_ticks (prune_below (length l) s').2)) l' /\
      forall k, k ∈ l ++ [x] -> k ∈ l' \/ gone (lo_clock s) (lo_ticks s) (lo_ticks (prune_below (length l) s').2) k) as Hkeep.
  { intros s' Hs' Hc Ht Ha. destruct (IH ([x] ++ r) s') as (l' & Hk & Hsub & Hcl & Htk & Hal & Hg); [by rewrite Hs', <- app_assoc|].
    rewrite Hc in *. exists (l' ++ [x]). rewrite <- app_assoc. repeat split; [done|by apply sublist_app|done|lia| |].
    - apply Forall_app. split; [|apply Forall_singleton; eapply alive_wider; [..|done]; lia].
      eapply Forall_impl; [done|]. intros k. apply alive_wider; lia.
    - intros k [Hin|Hin]%elem_of_app; [|left; set_solver]. destruct (Hg k Hin) as [?|?]; [left; set_solver|].
      right. eapply gone_wider; [..|done]; lia. }
  destruct (li_expires_at (lk_info x)) as [e|] eqn:Ee; cbn [fst snd]; [|apply Hkeep; [done|done|done|by left]].
  destruct (Z.ltb_spec (lo_clock s (lo_ticks s)) e) as [Hlt|Hge]; cbn [negb].
  - apply Hkeep; [done|done|cbn; lia|]. right. exists e, (lo_ticks s). repeat split; [done|lia|cbn; lia|done].
  - rewrite dropLocked_run. cbn [clock_now snd lo_keys]. rewrite Hs, lookup_app_l, lookup_app_r, Nat.sub_diag by (rewrite ?length_app; cbn; lia).
    cbn [lookup list_lookup snd]. rewrite set_keys_wipe, delete_snoc.
    match goal with |- context [wipePrivate ?c ?s0] => set (s1 := s0); destruct (wipe_state c s1) as (Hk1 & Hc1 & Ht1 & _) end.
    destruct (IH r (wipePrivate (lk_private x) s1).2) as (l' & Hk & Hsub & Hcl & Htk & Hal & Hg); [by rewrite Hk1|].
    rewrite Hc1, Ht1 in *. cbn [s1 set_keys lo_clock lo_ticks] in *. exists l'. repeat split; [done| |done|lia| |].
    + by apply sublist_inserts_r.
    + eapply Forall_impl; [done|]. intros k. apply alive_wider; lia.
    + intros k [Hin|Hin%list_elem_of_singleton]%elem_of_app.
      * destruct (Hg k Hin) as [?|?]; [by left|]. right. eapply gone_wider; [..|done]; lia.
      * subst k. right. exists e, (lo_ticks s). repeat split; [done|lia|lia|done].
Qed.

Lemma pruneLocked_run s :
  let s' := (pruneLocked s).2 in
  sublist (lo_keys s') (lo_keys s) /\ lo_clock s' = lo_clock s /\ (lo_ticks s <= lo_ticks s')%nat /\
  Forall (alive (lo_clock s) (lo_ticks s) (lo_ticks s')) (lo_keys s') /\
  forall k, k ∈ lo_keys s -> k ∈ lo_keys s' \/ gone (lo_clock s) (lo_ticks s) (lo_ticks s') k.
Proof.
  cbn zeta. unfold pruneLocked. rewrite state_bind_unfold. cbn [gets fst snd].
  destruct (prune_below_run (length (lo_keys s)) (lo_keys s) [] s) as (l' & Hk & Hp); [done|by rewrite app_nil_r|].
  rewrite app_nil_r in Hk. by rewrite Hk.
Qed.

(** ** Wiping *)

(** A cell that holds nothing of an ed25519 key. *)
Definition scrubbed (cell : nat) (s : LocalKeys) : Prop :=
  forall key, lo_memory s !! cell = Some key -> is_ed25519 key = true -> key = zero_ed25519.

(** Between two states, an entry that left is wiped, and what is wiped stays
    so. *)
Record wipes (s s' : LocalKeys) : Prop := mk_wipes {
  wp_scrubbed c : (c < length (lo_memory s))%nat -> scrubbed c s -> scrubbed c s';
  wp_memory : (length (lo_memory s) <= length (lo_memory s'))%nat;
  wp_left k : k ∈ lo_keys s -> (lk_private k < length (lo_memory s))%nat ->
    k ∈ lo_keys s' \/ scrubbed (lk_private k) s'
}.

#[local] Instance wipes_preorder : PreOrder wipes.
Proof.
  split; [intros s; by constructor; [..|left]|]. intros s1 s2 s3 [Hc Hl Hk] [Hc' Hl' Hk']. constructor.
  - intros c Hlt Hs. apply Hc'; [lia|by apply Hc].
  - lia.
  - intros k Hin Hlt. destruct (Hk k Hin Hlt) as [Hin'|Hs]; [apply Hk'; [done|lia]|]. right. apply Hc'; [lia|done].
Qed.

Lemma scrubbed_wipe c cell s : scrubbed c s -> scrubbed c (wipePrivate cell s).2.
Proof.
  destruct (wipe_run cell s) as [->|(key & _ & ->)]; [done|]. intros Hs key' Hk He.
  cbn in Hk. apply list_lookup_insert_Some in Hk as [(_ & <- & _)|[_ Hk]]; [done|by apply Hs].
Qed.

Lemma wipe_scrubs cell s : scrubbed cell (wipePrivate cell s).2.
Proof.
  unfold wipePrivate. run_state. destruct (lo_memory s !! cell) as [key|] eqn:Ek.
  2: { intros key Hk. cbn in Hk. congruence. }
  destruct (is_ed25519 key) eqn:Ed; cbn.
  - intros key' Hk _. cbn in Hk. rewrite list_lookup_insert_eq in Hk by (by eapply lookup_lt_Some). congruence.
  - intros key' Hk He. cbn in Hk. congruence.
Qed.

(** What touches neither the keys nor the memory. *)
Lemma wipes_idle s s' : lo_keys s ⊆ lo_keys s' -> lo_memory s' = lo_memory s -> wipes s s'.
Proof. intros Hk Hm. constructor; unfold scrubbed; rewrite ?Hm; [done|done|]. intros k Hin _. left. by apply Hk. Qed.

Lemma wipes_wipe cell : respects wipes (wipePrivate cell).
Proof.
  intros s. constructor; [intros c _; by apply scrubbed_wipe| |].
  - destruct (wipe_run cell s) as [->|(key & _ & ->)]; [done|]. cbn. by rewrite length_insert.
  - intros k Hin _. left. by rewrite wipe_keys.
Qed.

Lemma wipes_dropLocked i : respects wipes (dropLocked i).
Proof.
  intros s. rewrite dropLocked_run. destruct (lo_keys s !! i) as [x|] eqn:Ei; cbn [snd]; [|reflexivity].
  rewrite set_keys_wipe. constructor.
  - intros c _ Hc. apply scrubbed_wipe. exact Hc.
  - apply (wp_memory _ _ (wipes_wipe (lk_private x) (set_keys (delete i (lo_keys s)) s))).
  - intros k Hin _. rewrite (delete_Permutation _ _ _ Ei) in Hin. apply elem_of_cons in Hin as [->|Hin].
    + right. apply wipe_scrubs.
    + left. by rewrite wipe_keys.
Qed.

Lemma wipes_emit_each kind by_ reason d : respects wipes (emit_each kind by_ reason d).
Proof. intros s. rewrite emit_each_run. by apply wipes_idle. Qed.
Lemma wipes_emitExpired d : respects wipes (emitExpired d).
Proof. apply wipes_emit_each. Qed.
Lemma wipes_expiredLocked k : respects wipes (expiredLocked k).
Proof. intros s. rewrite expiredLocked_run. destruct (li_expires_at (lk_info k)); [by apply wipes_idle|reflexivity]. Qed.
Lemma wipes_set_timer k : respects wipes (set_timer k).
Proof. intros s. destruct (set_timer_run k s) as (t & _ & [->| ->]); [reflexivity|by apply wipes_idle]. Qed.
Lemma wipes_receive key : respects wipes (receive key).
Proof.
  intros s. constructor; [|cbn; rewrite length_app; lia|by left]. intros c Hlt Hc key' Hk. cbn in Hk.
  rewrite lookup_app_l in Hk by done. by apply Hc.
Qed.
Lemma wipes_join k : respects wipes (modify (fun s => set_keys (lo_keys s ++ [k]) s)).
Proof. intros s. apply wipes_idle; [cbn; set_solver|done]. Qed.
Lemma wipes_emit_event e : respects wipes (emit_event e).
Proof. intros s. by apply wipes_idle. Qed.
Lemma wipes_clock : respects wipes clock_now.
Proof. intros s. by apply wipes_idle. Qed.
#[local] Hint Resolve wipes_emit_each wipes_emitExpired wipes_expiredLocked wipes_set_timer wipes_receive
  wipes_dropLocked wipes_wipe wipes_join wipes_emit_event wipes_clock : respects.

Lemma wipes_prune_below i : respects wipes (prune_below i).
Proof. induction i as [|i IH]; cbn [prune_below]; follow. Qed.
Lemma wipes_drop_each l : respects wipes (drop_each l).
Proof. induction l as [|i l IH]; cbn [drop_each]; follow. Qed.
Lemma wipes_expire_from fingerprint i l : respects wipes (expire_from i fingerprint l).
Proof. revert i. induction l as [|k l IH]; intros i; cbn [expire_from]; follow. Qed.
#[local] Hint Resolve wipes_prune_below wipes_drop_each wipes_expire_from : respects.

Lemma wipes_pruneLocked : respects wipes pruneLocked.
Proof. unfold pruneLocked. follow. Qed.
Lemma wipes_park k expired by_ reason : respects wipes (park k expired by_ reason).
Proof. unfold park. follow. Qed.
Lemma wipes_entry added by_ : respects wipes (entry added by_).
Proof. unfold entry. follow. Qed.
#[local] Hint Resolve wipes_pruneLocked wipes_park wipes_entry : respects.

Lemma wipes_pruned {A} (f : list localKey -> A) : respects wipes (pruned f).
Proof. unfold pruned. follow. Qed.
Lemma wipes_dropAll by_ reason : respects wipes (dropAll by_ reason).
Proof. unfold dropAll. follow. Qed.

Lemma parked_cell s k : parked_ok s -> k ∈ lo_keys s -> (lk_private k < length (lo_memory s))%nat.
Proof.
  intros [_ _ _ _ Hs _] Hin. rewrite app_nil_r, Forall_forall in Hs. destruct (Hs k Hin) as [(key & pub & Hm & _) _].
  by eapply lookup_lt_Some.
Qed.

Lemma wipes_step op s : match op with LTake _ => True | _ => wipes s (parked_step op s) end.
Proof.
  destruct op; cbn [parked_step]; try done; try apply wipes_pruned; try apply wipes_dropAll.
  - revert s. change (respects wipes (LocalKeys_Add added by_)). unfold LocalKeys_Add. follow.
  - revert s. change (respects wipes (LocalKeys_Remove blob by_)). unfold LocalKeys_Remove. follow.
  - revert s. change (respects wipes (LocalKeys_Forget ref)). unfold LocalKeys_Forget. follow.
  - revert s. change (respects wipes (expire fingerprint)). unfold expire. follow.
  - by apply wipes_idle.
Qed.

End Keeping.

(** ** The set between operations *)

(** The limit a set is made with. *)
Definition limit_of (limit : Z) : Z := if limit <=? 0 then DefaultLocalKeyLimit else limit.

Section Theorems.
Context `{Unicode} `{keys : PrivateKeys}.

Lemma started limit accept clock ops :
  parked_ok (limit_of limit) (parked_run ops (NewLocalKeys limit accept clock)).
Proof.
  apply parked_run_ok. unfold limit_of. constructor; cbn; try constructor. case_match; unfold DefaultLocalKeyLimit; lia.
Qed.

(** C29. Whatever programs, timers and the seal do to a parked set, in any order, it holds one
    entry for a listed key and never more than its limit; each entry describes
    its own private key, which no other entry shares and nothing has wiped; and
    the events the log was told, replayed, are exactly the set. *)
Theorem parked_set_accounted limit accept clock ops :
  let s := parked_run ops (NewLocalKeys limit accept clock) in
  NoDup (map blob_of (lo_keys s)) /\ Z.of_nat (length (lo_keys s)) <= limit_of limit /\
  NoDup (map lk_private (lo_keys s)) /\ Forall (sound_entry (lo_memory s)) (lo_keys s) /\
  map blob_of (lo_keys s) = story (lo_events s).
Proof.
  destruct (started limit accept clock ops) as [Hb _ Hl Hc Hs Ht]. rewrite app_nil_r in Hc, Hs.
  rewrite list_filter_all in Ht by (apply Forall_forall; intros; apply not_elem_of_nil). done.
Qed.

(** Whatever happens next to a set, other than a promotion, an entry that was in
    it and is not any more leaves nothing of an ed25519 key in memory. *)
Theorem parked_leaves_wiped limit accept clock ops op k :
  let s := parked_run ops (NewLocalKeys limit accept clock) in
  k ∈ lo_keys s ->
  match op with
  | LTake _ => True
  | _ => k ∈ lo_keys (parked_step op s) \/
         forall key, lo_memory (parked_step op s) !! lk_private k = Some key ->
           is_ed25519 key = true -> key = zero_ed25519
  end.
Proof.
  intros s Hin. pose proof (parked_cell _ s k (started limit accept clock ops) Hin) as Hlt.
  pose proof (wipes_step op s) as Hw. destruct op; try done; by apply (wp_left _ _ Hw).
Qed.

(** ** Removing *)

Lemma all_indexes (l : list localKey) : indexes (fun _ => true) l = seq 0 (length l).
Proof.
  induction l as [|x l IH] using rev_ind; [done|]. by rewrite indexes_snoc, IH, length_app, Nat.add_1_r, seq_S.
Qed.

Lemma dropAll_empty by_ reason s : lo_keys (dropAll by_ reason s).2 = [].
Proof.
  unfold dropAll, emitExpired. rewrite !state_bind_unfold. cbn [gets mret state_ret fst snd]. rewrite !emit_each_run.
  cbn [lo_keys]. rewrite <- all_indexes.
  destruct (drop_each_run (fun _ => true) (lo_keys (pruneLocked s).2) [] (pruneLocked s).2) as [_ ->]; [by rewrite app_nil_r|].
  rewrite app_nil_r. by induction (lo_keys (pruneLocked s).2).
Qed.

Lemma Remove_gone bound blob by_ s :
  parked_ok bound s -> blob ∉ map blob_of (lo_keys (LocalKeys_Remove blob by_ s).2).
Proof.
  intros Ho%pruned_ok. unfold LocalKeys_Remove, emitExpired. rewrite !state_bind_unfold. cbn [gets fst snd].
  pose proof (index_of_blob blob (lo_keys (pruneLocked s).2)) as Hi. destruct (indexOfBlobLocked _ _) as [i|].
  - destruct Hi as (k & Hi & <-). rewrite !state_bind_unfold. cbn [mret state_ret snd]. rewrite !emit_each_run. cbn [lo_keys].
    rewrite dropLocked_run, Hi. cbn [snd]. rewrite set_keys_wipe, wipe_keys. cbn [lo_keys set_keys].
    rewrite (delete_as_filter _ _ _ (owed_blobs _ _ _ _ Ho) Hi). intros [Hn _]%list_elem_of_filter.
    by apply Hn, list_elem_of_singleton.
  - rewrite !state_bind_unfold. cbn [mret state_ret snd]. by rewrite emit_each_run.
Qed.

(** ** Looking a key up *)

Lemma lookup_run blob s :
  (lookup_parked blob s).1 =
    (let l := lo_keys (pruneLocked s).2 in
     match indexOfBlobLocked blob l with
     | None => None
     | Some i => (fun k => (lk_listed k, lk_private k, lk_ref k, note_of k)) <$> l !! i
     end) /\
  lo_memory (lookup_parked blob s).2 = lo_memory (pruneLocked s).2 /\
  lo_keys (lookup_parked blob s).2 = lo_keys (pruneLocked s).2 /\
  lo_ticks (lookup_parked blob s).2 = lo_ticks (pruneLocked s).2.
Proof. unfold lookup_parked, pruned, emitExpired. rewrite !state_bind_unfold. cbn [gets fst snd mret state_ret]. by rewrite emit_each_run. Qed.

(** What a lookup finds: the entry of the blob, or that every entry of it has
    expired. *)
Definition found_parked (s s' : LocalKeys) (blob : bytes)
    (r : option (PublicKey * nat * KeyRef * LocalKey)) : Prop :=
  match r with
  | Some (listed, cell, ref, note) => exists k key pub,
      k ∈ lo_keys s /\ blob_of k = blob /\ alive (lo_clock s) (lo_ticks s) (lo_ticks s') k /\
      ssh_Marshal listed = blob /\ kr_public_key ref = blob /\ kr_fingerprint ref = FingerprintSHA256 listed /\
      note = note_of k /\
      lo_memory s' !! cell = Some key /\ key_Public key = Ok pub /\ FingerprintSHA256 pub = key_print k
  | None => forall k, k ∈ lo_keys s -> blob_of k = blob -> gone (lo_clock s) (lo_ticks s) (lo_ticks s') k
  end.

Lemma lookup_sound bound blob s :
  parked_ok bound s -> found_parked s (lookup_parked blob s).2 blob (lookup_parked blob s).1.
Proof.
  intros Ho. unfold found_parked. destruct (lookup_run blob s) as (-> & -> & _ & ->). cbn zeta.
  destruct (pruneLocked_run s) as (Hsub & _ & _ & Hal & Hg).
  apply pruned_ok in Ho as [_ _ _ _ Hs _]. rewrite app_nil_r in Hs.
  pose proof (index_of_blob blob (lo_keys (pruneLocked s).2)) as Hi. destruct (indexOfBlobLocked _ _) as [i|].
  - destruct Hi as (k & Hi & <-). rewrite Hi. cbn. pose proof (list_elem_of_lookup_2 _ _ _ Hi) as Hin.
    rewrite Forall_forall in Hal, Hs. destruct (Hs k Hin) as ((key & pub & Hm & Hp & Hf) & Hb & Hr & Hl & Hrf).
    exists k, key, pub. repeat split; try done; [by eapply sublist_subseteq|by apply Hal|by rewrite Hrf].
  - intros k Hin Hb. destruct (Hg k Hin) as [Hin'|?]; [|done]. destruct Hi. apply list_elem_of_fmap. by exists k.
Qed.

(** Looking up a blob finds its entry unless that has expired by a reading of the
    clock the lookup made: what it hands out is the entry's signer, with a
    public key and a reference of that blob, a private half in memory that is
    the entry's, and the note of who parked it and under what constraints. *)
Theorem lookup_parked_spec limit accept clock ops blob :
  let s := parked_run ops (NewLocalKeys limit accept clock) in
  found_parked s (lookup_parked blob s).2 blob (lookup_parked blob s).1.
Proof. cbn zeta. eapply lookup_sound, started. Qed.

(** ** Promotion *)

Lemma existsb_false_iff {A} (f : A -> bool) l : existsb f l = false <-> forall x, x ∈ l -> f x = false.
Proof.
  rewrite <- not_true_iff_false, existsb_exists. split.
  - intros Hn x Hx%list_elem_of_In. apply not_true_iff_false. intros Hf. apply Hn. by exists x.
  - intros Hf (x & Hx%list_elem_of_In & Ht). by rewrite Hf in Ht.
Qed.

Lemma match_from ref l i : i ∈ matchLocked ref l <-> exists k : localKey, l !! i = Some k /\ matches_ref ref k = true.
Proof. apply elem_of_indexes. Qed.

Lemma elem_of_filter_b {A} (f : A -> bool) l x : x ∈ List.filter f l <-> x ∈ l /\ f x = true.
Proof. by rewrite !list_elem_of_In, List.filter_In. Qed.

(** The entries a promotion takes are those of the one key the name is for. *)
Lemma take_matched ref (l : list localKey) first others k0 :
  matchLocked ref l = first :: others -> l !! first = Some k0 ->
  existsb (fun i => bool_decide (print_at l i <> print_at l first)) others = false ->
  let q := fun k => bool_decide (Some (key_print k) = print_at l first) in
  foldl appendIndex (first :: others) (indexes q l) = indexes q l /\
  (forall k, q k = true <-> key_print k = key_print k0) /\
  (forall k, k ∈ l -> matches_ref ref k = true -> q k = true).
Proof.
  intros Hm Hi0 He q. assert (print_at l first = Some (key_print k0)) as Hp by (unfold print_at; by rewrite Hi0).
  assert (forall k, q k = true <-> key_print k = key_print k0) as Hq.
  { intros k. unfold q. rewrite Hp, bool_decide_eq_true. split; [by intros [=]|by intros ->]. }
  assert (forall k, k ∈ l -> matches_ref ref k = true -> q k = true) as Hall.
  { intros k (i & Hi)%list_elem_of_lookup Hk. assert (i ∈ matchLocked ref l) as Hin by (apply match_from; by exists k).
    rewrite Hm in Hin. apply elem_of_cons in Hin as [->|Hin]; [apply Hq; congruence|].
    rewrite existsb_false_iff in He. specialize (He i Hin). apply bool_decide_eq_false, dec_stable in He.
    unfold q. apply bool_decide_eq_true. rewrite <- He. unfold print_at. by rewrite Hi. }
  split; [|done]. rewrite <- Hm. by apply widen_matches.
Qed.

Lemma head_of_indexes q (l : list localKey) i :
  i ∈ indexes q l -> exists k, l !! default 0%nat (head (indexes q l)) = Some k /\ q k = true.
Proof.
  intros Hi. destruct (indexes q l) as [|j js] eqn:E; [by apply elem_of_nil in Hi|].
  apply elem_of_indexes. rewrite E. cbn. left.
Qed.

(** What is taken and what is left, with [q] the test of the one key. *)
Lemma taken_entries ref fp q (l old : list localKey) (expired : localKey -> Prop) :
  (forall k, q k = true <-> key_print k = fp) ->
  (forall k, k ∈ l -> matches_ref ref k = true -> q k = true) ->
  (forall k, k ∈ old -> k ∈ l \/ expired k) ->
  let taken := reverse (map lk_info (List.filter q l)) in
  (forall k, k ∈ old -> matches_ref ref k = true \/ key_print k = fp -> lk_info k ∈ taken \/ expired k) /\
  Forall (fun info => li_key_fingerprint info = fp) taken /\
  Forall (fun k => matches_ref ref k = false /\ key_print k <> fp) (List.filter (fun k => negb (q k)) l).
Proof.
  intros Hq Hall Hg taken. repeat split.
  - intros k Hin Hk. destruct (Hg k Hin) as [Hin'|?]; [left|by right]. unfold taken. rewrite elem_of_reverse.
    apply list_elem_of_fmap. exists k. split; [done|]. apply elem_of_filter_b. split; [done|].
    destruct Hk as [Hk|Hk]; [by apply Hall|by apply Hq].
  - apply Forall_reverse, Forall_forall. intros info (k & -> & Hk)%list_elem_of_fmap.
    apply elem_of_filter_b in Hk as [_ Hk]. by apply Hq in Hk.
  - apply Forall_forall. intros k [Hin Hk%negb_true_iff]%elem_of_filter_b. split.
    + apply not_true_iff_false. intros Ht. assert (q k = true) as Hqk by (by apply Hall). congruence.
    + intros Heq. assert (q k = true) as Hqk by (by apply Hq). congruence.
Qed.

(** Promotion hands out a private key of the fingerprint that everything the name
    matches shares, whole in memory; every entry of that key leaves the set
    with it and is reported, unless it had expired, so that no copy stays
    parked.  A name for nothing, and a name for two different keys, is refused,
    and then nothing leaves but what has expired. *)
Theorem LocalKeys_Take_spec limit accept clock ops ref :
  let s := parked_run ops (NewLocalKeys limit accept clock) in
  let s' := (LocalKeys_Take ref s).2 in
  let expired := gone (lo_clock s) (lo_ticks s) (lo_ticks s') in
  match (LocalKeys_Take ref s).1 with
  | Ok (cell, taken) => exists key pub,
      lo_memory s' !! cell = Some key /\ key_Public key = Ok pub /\
      (exists k, k ∈ lo_keys s /\ matches_ref ref k = true /\ key_print k = FingerprintSHA256 pub) /\
      (forall k, k ∈ lo_keys s -> matches_ref ref k = true \/ key_print k = FingerprintSHA256 pub ->
         lk_info k ∈ taken \/ expired k) /\
      Forall (fun info => li_key_fingerprint info = FingerprintSHA256 pub) taken /\
      Forall (fun k => matches_ref ref k = false /\ key_print k <> FingerprintSHA256 pub) (lo_keys s')
  | Err e =>
      (forall k, k ∈ lo_keys s -> k ∈ lo_keys s' \/ expired k) /\
      (e = wrap_w emp ErrNoSuchLocalKey (": " +:+ ref) /\
         (forall k, k ∈ lo_keys s' -> matches_ref ref k = false) \/
       e = wrap_w emp ErrAmbiguousLocalKey (": " +:+ ref) /\
         exists k k', k ∈ lo_keys s' /\ k' ∈ lo_keys s' /\ matches_ref ref k = true /\ matches_ref ref k' = true /\
           key_print k <> key_print k')
  end.
Proof.
  cbn zeta. set (s := parked_run _ _). destruct (pruneLocked_run s) as (Hsub & _ & _ & _ & Hg).
  pose proof (pruned_ok _ _ (started limit accept clock ops)) as [_ _ _ _ Hs _]. fold s in Hs. rewrite app_nil_r in Hs.
  unfold LocalKeys_Take. rewrite !state_bind_unfold. cbn [gets fst snd].
  destruct (pruneLocked s) as [expired s1]. cbn [fst snd] in *. set (l := lo_keys s1) in *.
  assert (forall d, (emitExpired d s1).2 = (emit_each LocalKeyExpired None "the lifetime it was parked with ran out" d s1).2) as He by done.
  destruct (matchLocked ref l) as [|first others] eqn:Em.
  { rewrite state_bind_unfold, He, emit_each_run. cbn [mret state_ret fst snd lo_keys lo_ticks]. split; [exact Hg|]. left.
    split; [done|]. intros k (i & Hi)%list_elem_of_lookup. apply not_true_iff_false. intros Hk.
    assert (i ∈ matchLocked ref l) as Hin by (apply match_from; by exists k). rewrite Em in Hin. by apply elem_of_nil in Hin. }
  assert (first ∈ matchLocked ref l) as (k0 & Hi0 & Hk0)%match_from by (rewrite Em; left).
  destruct (existsb _ others) eqn:Ex.
  { rewrite state_bind_unfold, He, emit_each_run. cbn [mret state_ret fst snd lo_keys lo_ticks]. split; [exact Hg|]. right.
    split; [done|]. apply existsb_exists in Ex as (i & Hi%list_elem_of_In & Hne%bool_decide_eq_true).
    assert (i ∈ matchLocked ref l) as (k & Hik & Hk)%match_from by (rewrite Em; by right).
    exists k, k0. repeat split; try done; [by eapply list_elem_of_lookup_2|by eapply list_elem_of_lookup_2|].
    intros Heq. apply Hne. unfold print_at. rewrite Hik, Hi0. cbn. by rewrite Heq. }
  destruct (take_matched ref l first others k0 Em Hi0 Ex) as (-> & Hq & Hall). set (q := fun k : localKey => bool_decide _) in *.
  destruct (head_of_indexes q l first) as (k1 & Hk1 & Hqk1).
  { apply elem_of_indexes. exists k0. split; [done|by apply Hq]. }
  rewrite Hk1. rewrite !state_bind_unfold, (take_each_run q l [] s1) by (by rewrite app_nil_r). cbn [fst snd].
  unfold emitExpired. rewrite !emit_each_run. cbn [mret state_ret fst snd set_keys lo_memory lo_keys lo_ticks fmap option_fmap option_map default].
  rewrite app_nil_r. rewrite Forall_forall in Hs.
  destruct (Hs k1 (list_elem_of_lookup_2 _ _ _ Hk1)) as ((key & pub & Hm & Hp & Hf) & _).
  apply Hq in Hqk1. rewrite <- Hqk1, Hf in Hq. exists key, pub. split; [done|]. split; [done|].
  split; [|by apply taken_entries]. exists k0.
  split; [eapply sublist_subseteq; [done|by eapply list_elem_of_lookup_2]|]. split; [done|]. by rewrite <- Hf, Hqk1.
Qed.

(** ** When a key goes *)

Lemma wrap_signed_minus z : 2 ^ 63 <= z < 2 ^ 63 + 2 ^ 64 -> i64 z = z - 2 ^ 64.
Proof.
  intros Hz. unfold i64, wrap_signed. change (64 - 1) with 63.
  replace (z + 2 ^ 63) with (z - 2 ^ 63 + 1 * 2 ^ 64) by lia. rewrite Z_mod_plus_full, Z.mod_small; lia.
Qed.

Lemma far_unix_small v : 0 <= v < 2 ^ 63 - 62135596800 -> unixTime (i64 v) = v * Second.
Proof. intros Hv. unfold unixTime. rewrite (i64_small v), i64_small by lia. lia. Qed.

Lemma far_unix_past v now : 2 ^ 63 - 62135596800 <= v < 2 ^ 64 -> 0 <= now -> unixTime (i64 v) < now.
Proof.
  intros Hv Hn. unfold unixTime. assert (i64 (i64 v + 62135596800) < 62135596800); [|unfold Second; lia].
  destruct (Z.lt_ge_cases v (2 ^ 63)).
  - rewrite (i64_small v) by lia. replace (i64 _) with (v + 62135596800 - 2 ^ 64); [lia|].
    symmetry. apply wrap_signed_minus. lia.
  - assert (i64 v = v - 2 ^ 64) as -> by (apply wrap_signed_minus; lia). rewrite i64_small; lia.
Qed.

(** When a parked key goes, for a lifetime of 32 bits and a certificate whose end is
    64: the earlier of its lifetime and the end of its certificate, where no
    lifetime, and a certificate whose end is zero or the largest, do not count
    and the zero time stands for never.  An end of a certificate from
    [2^63 - 62135596800] up wraps round to a time before now. *)
Theorem expiry_spec now lifetime (cert : option Certificate) :
  0 <= now -> 0 <= lifetime < 2 ^ 32 ->
  (forall c, cert = Some c -> 0 <= cert_ValidBefore c < 2 ^ 64) ->
  let lived := if lifetime =? 0 then zero_time else now + lifetime * Second in
  let expires := expiry now lifetime cert in
  match cert_ValidBefore <$> cert with
  | None => expires = lived
  | Some valid =>
      if (valid =? 0) || (valid =? CertTimeInfinity) then expires = lived
      else if valid <? 2 ^ 63 - 62135596800
           then expires = if lifetime =? 0 then valid * Second else Z.min (now + lifetime * Second) (valid * Second)
           else expires < now
  end.
Proof.
  intros Hn Hl Hc. unfold expiry, Add. cbn zeta.
  assert ((0 <? lifetime) = negb (lifetime =? 0)) as ->
    by (destruct (Z.ltb_spec 0 lifetime), (Z.eqb_spec lifetime 0); lia || done).
  assert (lifetime <> 0 -> IsZero (now + lifetime * Second) = false) as Hz.
  { intros ?. apply Z.eqb_neq. unfold zero_time, Second. lia. }
  destruct cert as [c|]; cbn [fmap option_fmap option_map]; [|by destruct (lifetime =? 0)].
  specialize (Hc c eq_refl). set (v := cert_ValidBefore c) in *.
  destruct (Z.eqb_spec v 0) as [->|Hv0]; cbn [orb]; [rewrite andb_false_r; by destruct (lifetime =? 0)|].
  destruct (Z.eqb_spec v CertTimeInfinity) as [Hv|Hv]; cbn [negb andb]; [by destruct (lifetime =? 0)|].
  assert ((0 <? v) = true) as -> by lia. destruct (Z.ltb_spec v (2 ^ 63 - 62135596800)) as [Hs|Hb].
  - rewrite far_unix_small by lia. destruct (Z.eqb_spec lifetime 0) as [|Hne]; cbn [negb orb]; [done|].
    rewrite (Hz Hne). cbn [orb]. destruct (Z.ltb_spec (v * Second) (now + lifetime * Second)); lia.
  - assert (unixTime (i64 v) < now) as Ht by (apply far_unix_past; lia).
    destruct (Z.eqb_spec lifetime 0) as [|Hne]; cbn [negb orb]; [done|]. rewrite (Hz Hne). cbn [orb].
    destruct (Z.ltb_spec (unixTime (i64 v)) (now + lifetime * Second)); [done|]. unfold Second in *. lia.
Qed.

End Theorems.

(** ** Concrete sets *)

Module ToyKeys.

(** A private key is whether it is ed25519 and its public key; a certificate its
    end and the key it is over. *)
Import Toy.
#[export] Instance private_keys : PrivateKeys := {|
  PrivateKey := bool * bytes;
  key_Public k := Ok (k.2 : bytes);
  key_Sign k m _ := Ok (mk_Signature "toy" (k.2 ++ m) []);
  is_ed25519 := fst;
  zero_ed25519 := (true, [x00]);
  Certificate := Z * bytes;
  cert_ValidBefore := fst;
  NewCertSigner c k :=
    if bool_decide (c.2 = k) then Ok (x63 :: k) else Err (errors_New "not the certificate's key")
|}.

(** A clock that starts in 2024 and goes a second a reading. *)
Definition toy_clock (n : nat) : time := (1704067200 + Z.of_nat n) * Second.

Definition bare (seed : bytes) (comment : string) (lifetime : Z) : AddedKey :=
  mk_AddedKey (true, seed) comment lifetime None false.
Definition certified (seed : bytes) (comment : string) (until : Z) : AddedKey :=
  mk_AddedKey (true, seed) comment 0 (Some (until, seed)) false.

Definition toy_ops : list parked_op :=
  [LAdd (bare [x01] "tsh" 0) None; LAdd (certified [x01] "tsh" 1704070800) None; LAdd (bare [x02] "laptop" 3600) None].
Abbreviation toy_set := (parked_run toy_ops (NewLocalKeys 0 None toy_clock)).

End ToyKeys.
Import Toy.
Import ToyKeys.

(** A certificate and the bare key it is over are two entries of one key, which
    a promotion by their label, in any case, takes both of. *)
Example toy_promotion :
  (map blob_of (lo_keys toy_set), map blob_of (lo_keys (LocalKeys_Take "TSH" toy_set).2)) =
    ([[x01]; [x63; x01]; [x02]], [[x02]]) /\
  match (LocalKeys_Take "TSH" toy_set).1 with
  | Ok (cell, taken) => cell = 0%nat /\ map li_certificate taken = [true; false]
  | Err _ => False
  end.
Proof. split; [vm_compute; reflexivity|]. vm_compute. by split. Qed.

(** What a promotion hands out is one of two copies of the key: the one that came
    with the certificate is dropped as it is, and nothing can wipe it any
    more. *)
Example promotion_leaves_a_copy :
  let s := (LocalKeys_Take "tsh" toy_set).2 in
  map lk_private (lo_keys toy_set) = [0; 1; 2]%nat /\
  lo_memory s !! 1%nat = Some (true, [x01]) /\ map lk_private (lo_keys s) = [2]%nat.
Proof. vm_compute. done. Qed.

(** A certificate that ends in the year 292277026596 is gone at the next look. *)
Example far_certificate_goes_at_once :
  (LocalKeys_List (parked_step (LAdd (certified [x01] "far" (2 ^ 63)) None) (NewLocalKeys 0 None toy_clock))).1 = [].
Proof. vm_compute. reflexivity. Qed.

Lemma expiry_spec_witness :
  expiry (toy_clock 0) 60 (Some (2 ^ 63, [x01])) < toy_clock 0.
Proof.
  refine (expiry_spec (toy_clock 0) 60 (Some (2 ^ 63, [x01])) _ _ _); [done|done|].
  intros c [= <-]. vm_compute. done.
Defined.

(** The store is sealed: every key's memory is zero. *)
Lemma parked_leaves_wiped_witness :
  length (lo_keys toy_set) = 3%nat /\
  Forall (fun k => k ∈ lo_keys (parked_step (LWipe "sealed") toy_set) \/
    forall key, lo_memory (parked_step (LWipe "sealed") toy_set) !! lk_private k = Some key ->
      is_ed25519 key = true -> key = zero_ed25519) (lo_keys toy_set).
Proof.
  split; [vm_compute; reflexivity|]. apply Forall_forall. intros k Hk.
  exact (parked_leaves_wiped 0 None toy_clock toy_ops (LWipe "sealed") k Hk).
Defined.
