(* ===== verification/KnownHosts.v ===== *)
(** * KnownHosts: names for host keys

    [pkg/agent/knownhosts.go]: the reverse lookup of a host key in the
    known_hosts files, cached for half a minute.  Reading a file and the parser
    of one line are parameters. *)

From stdpp Require Import gmap strings.
From S2P Require Import Prelude.
From S2P Require Import GoText.
From S2P Require Import Ssh.
From S2P Require Import Proto.

Local Open Scope Z_scope.
Local Open Scope ladulas_scope.

(** The clock and the file system. *)
Class HostSystem (P : Type) := {
  sys_now : state P time;
  sys_ReadFile : string -> state P (result bytes)
}.

(** [ssh.ParseKnownHosts]: the marker, the hosts, the key and what follows the
    first entry. *)
Class KnownHostsParser `{Ssh} := ParseKnownHosts : bytes -> result (string * list string * PublicKey * bytes).

Definition reloadInterval : duration := 30 * Second.

Section KnownHosts.
Context `{KnownHostsParser}.

Record KnownHosts := mk_KnownHosts {
  kh_paths : list string;
  kh_loaded : time;
  kh_entries : option (gmap string (list string));
  kh_hashed : gset string
}.

Definition NewKnownHosts (paths : list string) : KnownHosts := mk_KnownHosts paths zero_time None ∅.

Definition appendUnique (l : list string) (value : string) : list string :=
  if bool_decide (value ∈ l) then l else l ++ [value].

Abbreviation known := (gmap string (list string) * gset string)%type.

Fixpoint add_hosts (blob : string) (hosts : list string) (st : known) : known :=
  match hosts with
  | [] => st
  | host :: hosts' =>
    let '(entries, hashed) := st in
    add_hosts blob hosts'
      (if HasPrefix host "|1|" then (entries, {[blob]} ∪ hashed)
       else (<[blob := appendUnique (default [] (entries !! blob)) host]> entries, hashed))
  end.

(** The lines of a file, with fuel; [None] is running out. *)
Fixpoint parse_lines (fuel : nat) (rest : bytes) (st : known) : option known :=
  match rest with
  | [] => Some st
  | _ :: _ =>
    match fuel with
    | O => None
    | S fuel' =>
      match ParseKnownHosts rest with
      | Err _ => Some st
      | Ok (marker, hosts, pubKey, remainder) =>
        if bool_decide (marker <> emp) then parse_lines fuel' remainder st
        else parse_lines fuel' remainder (add_hosts (to_string (ssh_Marshal pubKey)) hosts st)
      end
    end
  end.

Definition parseKnownHosts (body : bytes) (st : known) : known :=
  default st (parse_lines (length body) body st).

(** Every entry is parsed off the front of the file. *)
Definition consumes : Prop := forall rest marker hosts key remainder,
  ParseKnownHosts rest = Ok (marker, hosts, key, remainder) -> (length remainder < length rest)%nat.

(** ** What a file says *)

(** The entries of a file, up to the first that does not parse. *)
Inductive file_lines : bytes -> list (string * list string * PublicKey) -> Prop :=
| fl_end : file_lines [] []
| fl_stop rest e : rest <> [] -> ParseKnownHosts rest = Err e -> file_lines rest []
| fl_line rest marker hosts key remainder l :
    rest <> [] -> ParseKnownHosts rest = Ok (marker, hosts, key, remainder) -> file_lines remainder l ->
    file_lines rest ((marker, hosts, key) :: l).

Definition add_line (st : known) (line : string * list string * PublicKey) : known :=
  let '(marker, hosts, key) := line in
  if bool_decide (marker <> emp) then st else add_hosts (to_string (ssh_Marshal key)) hosts st.

Definition hashed_host (host : string) : bool := HasPrefix host "|1|".

(** The names the unmarked entries of a key give it in the clear, and whether
    one gives it a hashed name. *)
Definition line_hosts (blob : string) (line : string * list string * PublicKey) : list string :=
  let '(marker, hosts, key) := line in
  if bool_decide (marker = emp) && bool_decide (to_string (ssh_Marshal key) = blob) then hosts else [].
Definition names_of (blob : string) (l : list (string * list string * PublicKey)) : list string :=
  List.filter (fun host => negb (hashed_host host)) (concat (map (line_hosts blob) l)).
Definition hashed_in (blob : string) (l : list (string * list string * PublicKey)) : bool :=
  existsb hashed_host (concat (map (line_hosts blob) l)).

Lemma parse_lines_enough rest fuel st :
  consumes -> (length rest <= fuel)%nat ->
  exists l, file_lines rest l /\ parse_lines fuel rest st = Some (foldl add_line st l).
Proof.
  intros Hc. revert rest st. induction fuel as [|fuel IH]; intros [|b rest] st Hl; cbn [length] in Hl; try lia;
    try (exists []; split; [constructor|done]).
  cbn [parse_lines]. destruct (ParseKnownHosts (b :: rest)) as [[[[marker hosts] key] remainder]|e] eqn:Ep.
  - pose proof (Hc _ _ _ _ _ Ep) as Hlt. cbn [length] in Hlt.
    destruct (IH remainder (add_line st (marker, hosts, key))) as (l & Hf & Hr); [lia|].
    exists ((marker, hosts, key) :: l). split; [by econstructor|]. cbn [foldl]. rewrite <- Hr. cbn [add_line].
    by case_bool_decide.
  - exists []. split; [by econstructor|done].
Qed.

(** The names a run of hosts adds to those a key has. *)
Lemma add_hosts_run blob hosts (st : known) :
  forall blob',
    (add_hosts blob hosts st).1 !! blob' =
      (match List.filter (fun host => negb (hashed_host host)) (if bool_decide (blob = blob') then hosts else []) with
       | [] => st.1 !! blob'
       | names => Some (foldl appendUnique (default [] (st.1 !! blob')) names)
       end) /\
    (blob' ∈ (add_hosts blob hosts st).2 <->
       blob' ∈ st.2 \/ existsb hashed_host (if bool_decide (blob = blob') then hosts else []) = true).
Proof.
  revert st. induction hosts as [|host hosts IH]; intros [entries hashed] blob'; cbn [add_hosts].
  { case_bool_decide; cbn; split; [done|naive_solver|done|naive_solver]. }
  fold (hashed_host host). destruct (IH (if hashed_host host then (entries, {[blob]} ∪ hashed)
    else (<[blob := appendUnique (default [] (entries !! blob)) host]> entries, hashed)) blob') as [-> ->]. clear IH.
  destruct (decide (blob = blob')) as [<-|Hne].
  - rewrite !bool_decide_eq_true_2 by done. cbn [List.filter existsb]. destruct (hashed_host host); cbn [negb orb fst snd].
    + split; [done|]. set_solver.
    + rewrite lookup_insert_eq. cbn [default foldl]. split; [|done]. by destruct (List.filter _ hosts).
  - rewrite !bool_decide_eq_false_2 by done. cbn. destruct (hashed_host host); cbn; [set_solver|].
    by rewrite lookup_insert_ne.
Qed.

Lemma add_line_run line st blob :
  (add_line st line).1 !! blob =
    (match List.filter (fun host => negb (hashed_host host)) (line_hosts blob line) with
     | [] => st.1 !! blob
     | names => Some (foldl appendUnique (default [] (st.1 !! blob)) names)
     end) /\
  (blob ∈ (add_line st line).2 <-> blob ∈ st.2 \/ existsb hashed_host (line_hosts blob line) = true).
Proof.
  destruct line as [[marker hosts] key]. cbn [add_line line_hosts]. destruct (decide (marker = emp)) as [->|Hne].
  - rewrite (bool_decide_eq_false_2 (emp <> emp)), (bool_decide_eq_true_2 (emp = emp)) by (done || (intros ?; done)).
    cbn [andb]. apply add_hosts_run.
  - rewrite (bool_decide_eq_true_2 (marker <> emp)), (bool_decide_eq_false_2 (marker = emp)) by done. cbn.
    split; [done|naive_solver].
Qed.

Lemma add_lines_run l st blob :
  (foldl add_line st l).1 !! blob =
    (match names_of blob l with
     | [] => st.1 !! blob
     | names => Some (foldl appendUnique (default [] (st.1 !! blob)) names)
     end) /\
  (blob ∈ (foldl add_line st l).2 <-> blob ∈ st.2 \/ hashed_in blob l = true).
Proof.
  unfold names_of, hashed_in. revert st. induction l as [|line l IH]; intros st; cbn [foldl map concat].
  { cbn. split; [done|naive_solver]. }
  destruct (IH (add_line st line)) as [-> ->]. destruct (add_line_run line st blob) as [-> ->].
  rewrite List.filter_app, existsb_app. split.
  - destruct (List.filter _ (line_hosts blob line)) as [|n ns]; [done|].
    destruct (List.filter _ (concat _)) as [|n' ns']; [by rewrite app_nil_r|].
    cbn [default]. f_equal. symmetry. apply (foldl_app _ (n :: ns) (n' :: ns')).
  - rewrite orb_true_iff. naive_solver.
Qed.

(** Reading a file ends, having read its entries up to the first that does not
    parse; a key then has, beside the names it had, each name an unmarked entry
    of it gives in the clear, once, in the order of the file, and counts as
    hashed when such an entry gives it a hashed name. *)
Theorem parseKnownHosts_spec body st :
  consumes ->
  exists l, file_lines body l /\ forall blob,
    (parseKnownHosts body st).1 !! blob =
      (match names_of blob l with
       | [] => st.1 !! blob
       | names => Some (foldl appendUnique (default [] (st.1 !! blob)) names)
       end) /\
    (blob ∈ (parseKnownHosts body st).2 <-> blob ∈ st.2 \/ hashed_in blob l = true).
Proof.
  intros Hc. destruct (parse_lines_enough body (length body) st Hc) as (l & Hf & Hp); [lia|].
  exists l. split; [done|]. intros blob. unfold parseKnownHosts. rewrite Hp. apply add_lines_run.
Qed.

Context {P : Type} `{HostSystem P}.

Fixpoint read_paths (paths : list string) (st : known) : state P known :=
  match paths with
  | [] => mret st
  | path :: paths' =>
    body ← sys_ReadFile path;
    match body with
    | Err _ => read_paths paths' st
    | Ok body => read_paths paths' (parseKnownHosts body st)
    end
  end.

Definition load (k : KnownHosts) : state P KnownHosts :=
  fresh ← (match kh_entries k with
           | None => mret false
           | Some _ => t ← sys_now; mret (Sub t (kh_loaded k) <? reloadInterval)
           end);
  if (fresh : bool) then mret k
  else
    '(entries, hashed) ← read_paths (kh_paths k) (∅, ∅);
    t ← sys_now;
    mret (mk_KnownHosts (kh_paths k) t (Some entries) hashed).

Definition set_known (names : option (list string)) (h : HostKey) : HostKey :=
  mk_HostKey (hk_blob h) (hk_algorithm h) (hk_fingerprint h) (default (hk_known_hosts_names h) names) true.

Definition Annotate (k : KnownHosts) (hostKey : HostKey) : state P (KnownHosts * HostKey) :=
  k ← load k;
  let blob := to_string (hk_blob hostKey) in
  match default ∅ (kh_entries k) !! blob with
  | Some names => mret (k, set_known (Some names) hostKey)
  | None => mret (k, if bool_decide (blob ∈ kh_hashed k) then set_known None hostKey else hostKey)
  end.

Definition hostKeyMessage (k : KnownHosts) (pub : PublicKey) : state P (KnownHosts * HostKey) :=
  Annotate k (mk_HostKey (ssh_Marshal pub) (ssh_Type pub) (FingerprintSHA256 pub) [] false).

End KnownHosts.

Definition DisplayName (hostKey : option HostKey) : string :=
  match hostKey with
  | None => "unknown destination"
  | Some h =>
    match hk_known_hosts_names h with
    | name :: _ => name
    | [] =>
      if hk_known h then "a known host (" +:+ hk_fingerprint h +:+ ")"
      else "unknown host (" +:+ hk_fingerprint h +:+ ")"
    end
  end.

(** ** A concrete file *)

Import Toy.

(** A line is a host of one byte and a key of one byte. *)
#[export] Instance toy_lines : KnownHostsParser := fun rest =>
  match rest with
  | h :: k :: rest' => Ok (emp, [to_string [h]], [k], rest')
  | _ => Err (errors_New "short line")
  end.

Lemma toy_lines_consume : consumes.
Proof. intros [|h [|k rest]] marker hosts key remainder; cbn; try done. intros [= _ _ _ <-]. lia. Qed.

Lemma parseKnownHosts_spec_witness :
  (parseKnownHosts [x61; x01; x62; x02; x63; x01; x61; x01] (∅, ∅)).1 !! to_string [x01] = Some ["a"; "c"]%string /\
  exists l, file_lines [x61; x01] l.
Proof.
  split; [vm_compute; reflexivity|].
  destruct (parseKnownHosts_spec [x61; x01] (∅, ∅) toy_lines_consume) as (l & Hl & _). by exists l.
Defined.
