(* ===== verification/Agent.v ===== *)
(** * Agent: one connection to the agent socket

    [pkg/agent/agent.go], and from [server.go] what a connection uses of its
    server.  The interfaces the agent is built on - the store's keys, the
    approver, the keys of paired holders - are type classes over the state of
    the rest of the program; the parked keys and the known hosts are the
    components of [Parked] and [KnownHosts].  While an approver or a holder is
    asked, other connections run, so those calls act on the parked keys too. *)

From S2P Require Import Prelude.
From S2P Require Import GoText.
From S2P Require Import Proto.
From S2P Require Import Ssh.
From S2P Require Import Identity.
From S2P Require Import Classify.
From S2P Require Import SessionBind.
From S2P Require Import Parked.
From S2P Require Import KnownHosts.

Local Open Scope Z_scope.
Local Open Scope ladulas_scope.

Definition ErrMutationNotSupported : error := sentinel "agent.ErrMutationNotSupported"
  "ladulas: the agent does not accept key management requests; use ladulas keys".
Definition ErrManagedKey : error := sentinel "agent.ErrManagedKey"
  "ladulas: that key is managed by ladulas; remove it with ladulas keys remove".
Definition ErrDenied : error := sentinel "agent.ErrDenied" "ladulas: request denied".

(** [sshagent.ErrExtensionUnsupported] and the constants of the protocol. *)
Definition ErrExtensionUnsupported : error := sentinel "sshagent.ErrExtensionUnsupported"
  "agent: unsupported extension".
Definition SessionBindExtension : string := "session-bind@openssh.com".
Definition SignatureFlagRsaSha256 : Z := 2.
Definition SignatureFlagRsaSha512 : Z := 4.
Definition KeyAlgoRSA : string := "ssh-rsa".
Definition CertAlgoRSAv01 : string := "ssh-rsa-cert-v01@openssh.com".
Definition KeyAlgoRSASHA256 : string := "rsa-sha2-256".
Definition KeyAlgoRSASHA512 : string := "rsa-sha2-512".

(** The enum's names. *)
Definition DecisionSource_String (s : DecisionSource) : string :=
  match s with
  | SOURCE_UNSPECIFIED => "DECISION_SOURCE_UNSPECIFIED"
  | SOURCE_USER => "DECISION_SOURCE_USER"
  | SOURCE_POLICY => "DECISION_SOURCE_POLICY"
  | SOURCE_GRANT => "DECISION_SOURCE_GRANT"
  | SOURCE_HARD_RULE => "DECISION_SOURCE_HARD_RULE"
  | SOURCE_TIMEOUT => "DECISION_SOURCE_TIMEOUT"
  | SOURCE_CANCELLED => "DECISION_SOURCE_CANCELLED"
  | SOURCE_NO_APPROVER => "DECISION_SOURCE_NO_APPROVER"
  | SOURCE_ERROR => "DECISION_SOURCE_ERROR"
  end.

Record RemoteSignResponse := mk_RemoteSignResponse {
  rsr_signature : bytes;
  rsr_approval : option SignedApproval
}.

(** ** The interfaces *)

(** [KeyStore]: the keys to offer, and a signer by fingerprint. *)
Class KeyStore `{Ssh} (P : Type) := {
  ks_KeyRefs : P -> list KeyRef;
  ks_Signer : string -> P -> result Signer
}.

(** [Approver]: the answer, with the request as the approver leaves it, since
    both hold the same object. *)
Class Approver (Q : Type) :=
  ap_Submit : ApprovalRequest -> state Q (result ApprovalResponse * ApprovalRequest).

(** What an approver leaves alone. *)
Definition same_question (req req' : ApprovalRequest) : Prop :=
  rq_kind req' = rq_kind req /\ rq_key req' = rq_key req /\ rq_local_key req' = rq_local_key req /\
  rq_payload_sha256 req' = rq_payload_sha256 req /\
  rq_signature_algorithm req' = rq_signature_algorithm req /\
  rq_signature_flags req' = rq_signature_flags req.
Class ApproverLaws (Q : Type) `{Approver Q} : Prop :=
  ap_Submit_keeps req q : same_question req (ap_Submit req q).1.2.

(** [RemoteKeys]. *)
Class RemoteKeys (P Q : Type) := {
  rk_RemoteKeyRefs : P -> list KeyRef;
  rk_RefreshKeys : state P unit;
  rk_BorrowedKey : bytes -> P -> option KeyRef;
  rk_RemoteSign : ApprovalRequest -> bytes -> bool -> state Q (result RemoteSignResponse)
}.

(** What the process is asked for: its identity as a requester, and random
    bytes. *)
Class Process (P : Type) := {
  pc_identity : P -> option RequesterInfo;
  pc_random : state P bytes
}.

Definition RefAgentUse (ref : KeyRef) : bool :=
  match kr_agent_use ref with None => true | Some use => use end.

Definition holdsKey (refs : list KeyRef) (blob : bytes) : bool :=
  existsb (fun ref => bool_decide (kr_public_key ref = blob)) refs.
Definition findRemote (refs : list KeyRef) (blob : bytes) : option KeyRef :=
  find (fun ref => bool_decide (kr_public_key ref = blob)) refs.

Definition keyComment (ref : KeyRef) : string :=
  if bool_decide (kr_comment ref <> emp) then kr_comment ref else kr_label ref.

(** [sshagent.Key]. *)
Record Listed := mk_Listed { ls_Format : string; ls_Blob : bytes; ls_Comment : string }.

Definition algorithmForFlags (keyAlgorithm : string) (flags : Z) : string :=
  if bool_decide (keyAlgorithm <> KeyAlgoRSA) && bool_decide (keyAlgorithm <> CertAlgoRSAv01) then emp
  else if negb (Z.land flags SignatureFlagRsaSha512 =? 0) then KeyAlgoRSASHA512
  else if negb (Z.land flags SignatureFlagRsaSha256 =? 0) then KeyAlgoRSASHA256
  else emp.

Definition signWithAlgorithm `{Ssh} (signer : Signer) (data : bytes) (algorithm : string) : result Signature :=
  if bool_decide (algorithm = emp) then err_ctx "sign: " (signer_Sign signer data)
  else
    match signer_SignWithAlgorithm signer with
    | None => Err (errors_New ("ladulas: key does not support the requested algorithm " +:+ algorithm))
    | Some f => err_ctx ("sign with " +:+ algorithm +:+ ": ") (f data algorithm)
    end.

(** The key a request names: in the store, parked with the signer it had and the
    note, or on a peer. *)
Inductive foundKey `{Ssh} :=
| keyInStore (ref : KeyRef)
| keyParked (ref : KeyRef) (listed : PublicKey) (cell : nat) (note : LocalKey)
| keyOnPeer (ref : KeyRef).

Definition found_ref `{Ssh} (f : foundKey) : KeyRef :=
  match f with keyInStore ref | keyParked ref _ _ _ | keyOnPeer ref => ref end.
Definition found_note `{Ssh} (f : foundKey) : option LocalKey :=
  match f with keyParked _ _ _ note => Some note | _ => None end.

(** What [attachSessionContext] writes on an authentication request. *)
Definition set_session (bind : bindContext) (payload destination : option HostKey) (label : string)
    (a : SshAuthRequest) : SshAuthRequest :=
  mk_SshAuthRequest (sa_username a) (sa_service a) (sa_method a) (sa_session_id a)
    (bool_decide (is_Some (bc_binding bind))) (bc_forwarded bind) destination (bc_chain bind) label
    (bc_hops bind) payload.

Section Agent.
Context `{Unicode} `{Hashes} `{keys : PrivateKeys} `{Codec ApprovalResponse} `{lines : !KnownHostsParser}.
Context {P : Type} `{!HostSystem P} `{!Process P} `{store : !KeyStore P} `{peers : !RemoteKeys P (LocalKeys * P)}.
Context `{approver : !Approver (LocalKeys * P)}.

(** The server, as the connection sees it: whether it parks keys and whether
    it has peers; and the process on the other end. *)
Variables (parks remote : bool) (peer : option ClientProcess).

(** The connection's bindings with the server's known hosts and parked keys,
    the rest of the program, and what this connection reported: the signatures
    made, for the audit log, and the requests refused. *)
Record Agent := mk_Agent {
  ag_binds : bindings;
  ag_hosts : KnownHosts;
  ag_local : LocalKeys;
  ag_rest : P;
  ag_signed : list (ApprovalRequest * KeyRef);
  ag_refused : list (string * string)
}.

Definition set_binds (b : bindings) (s : Agent) : Agent :=
  mk_Agent b (ag_hosts s) (ag_local s) (ag_rest s) (ag_signed s) (ag_refused s).

Definition on_local {A} (m : state LocalKeys A) : state Agent A := fun s =>
  let '(a, l) := m (ag_local s) in
  (a, mk_Agent (ag_binds s) (ag_hosts s) l (ag_rest s) (ag_signed s) (ag_refused s)).
Definition on_rest {A} (m : state P A) : state Agent A := fun s =>
  let '(a, p) := m (ag_rest s) in
  (a, mk_Agent (ag_binds s) (ag_hosts s) (ag_local s) p (ag_signed s) (ag_refused s)).
Definition on_both {A} (m : state (LocalKeys * P) A) : state Agent A := fun s =>
  let '(a, (l, p)) := m (ag_local s, ag_rest s) in
  (a, mk_Agent (ag_binds s) (ag_hosts s) l p (ag_signed s) (ag_refused s)).
Definition on_hosts {A} (m : KnownHosts -> state P (KnownHosts * A)) : state Agent A := fun s =>
  let '((k, a), p) := m (ag_hosts s) (ag_rest s) in
  (a, mk_Agent (ag_binds s) k (ag_local s) p (ag_signed s) (ag_refused s)).

Definition signed (req : ApprovalRequest) (ref : KeyRef) : state Agent unit := modify (fun s =>
  mk_Agent (ag_binds s) (ag_hosts s) (ag_local s) (ag_rest s) (ag_signed s ++ [(req, ref)]) (ag_refused s)).
Definition refuseMutation (verb reason : string) (e : error) : state Agent (option error) :=
  _ ← modify (fun s => mk_Agent (ag_binds s) (ag_hosts s) (ag_local s) (ag_rest s) (ag_signed s)
                         (ag_refused s ++ [(verb, reason)]));
  mret (Some e).

(** ** Listing *)

(** The references whose keys are not listed yet, each added in turn. *)
Definition add_missing (out refs : list KeyRef) : list KeyRef :=
  foldl (fun out ref => if holdsKey out (kr_public_key ref) then out else out ++ [ref]) out refs.

Definition allKeys : state Agent (list KeyRef) :=
  own ← gets (fun s => ks_KeyRefs (ag_rest s));
  if negb remote && negb parks then mret own
  else
    out ← (if parks then refs ← on_local LocalKeys_Refs; mret (add_missing own refs) else mret own);
    if negb remote then mret out
    else
      refs ← gets (fun s => rk_RemoteKeyRefs (ag_rest s));
      mret (add_missing out refs).

Definition advertised : state Agent (list KeyRef) :=
  refs ← allKeys;
  mret (List.filter RefAgentUse refs).

Definition Agent_List : state Agent (list Listed) :=
  refs ← advertised;
  mret (map (fun ref => mk_Listed (kr_algorithm ref) (kr_public_key ref) (keyComment ref)) refs).

(** ** Signing *)

Definition no_key (key : PublicKey) : error :=
  errors_New ("ladulas: no key " +:+ FingerprintSHA256 key +:+ " here or on a paired instance").

(** The holders' offers, asked again when the key is not among them, then what
    is remembered. *)
Definition find_on_peer (key : PublicKey) : state Agent (result foundKey) :=
  let blob := ssh_Marshal key in
  refs ← gets (fun s => rk_RemoteKeyRefs (ag_rest s));
  match findRemote refs blob with
  | Some ref => mret (Ok (keyOnPeer ref))
  | None =>
    _ ← on_rest rk_RefreshKeys;
    refs ← gets (fun s => rk_RemoteKeyRefs (ag_rest s));
    match findRemote refs blob with
    | Some ref => mret (Ok (keyOnPeer ref))
    | None =>
      borrowed ← gets (fun s => rk_BorrowedKey blob (ag_rest s));
      match borrowed with
      | Some ref => mret (Ok (keyOnPeer ref))
      | None => mret (Err (no_key key))
      end
    end
  end.

Definition findKey (key : PublicKey) : state Agent (result foundKey) :=
  let blob := ssh_Marshal key in
  own ← gets (fun s => ks_KeyRefs (ag_rest s));
  match findRemote own blob with
  | Some ref => mret (Ok (keyInStore ref))
  | None =>
    parked ← (if parks then on_local (lookup_parked blob) else mret None);
    match parked with
    | Some (listed, cell, ref, note) => mret (Ok (keyParked ref listed cell note))
    | None => if remote then find_on_peer key else mret (Err (no_key key))
    end
  end.

Definition requesterInfo : state Agent RequesterInfo :=
  info ← gets (fun s => pc_identity (ag_rest s));
  let info := default (mk_RequesterInfo emp emp false false emp None) info in
  mret (mk_RequesterInfo (ri_instance_id info) (ri_name info) true (ri_headless info)
    (ri_remote_address info) peer).

Definition attachSessionContext (auth : SshAuthRequest) : state Agent SshAuthRequest :=
  binds ← gets ag_binds;
  let sid := sa_session_id auth in
  let bind := context binds (if bool_decide (sid = []) then None else Some sid) in
  match sa_payload_destination auth with
  | Some host =>
    host ← on_hosts (fun k => Annotate k host);
    mret (set_session bind (Some host) (Some host) (DisplayName (Some host)) auth)
  | None =>
    match bc_binding bind with
    | None => mret (set_session bind None (sa_destination auth) "unknown destination" auth)
    | Some b => mret (set_session bind None (sb_host_key b) (DisplayName (sb_host_key b)) auth)
    end
  end.

Definition buildRequest (found : foundKey) (data : bytes) (flags : Z) : state Agent ApprovalRequest :=
  let class := Classify data in
  let ref := found_ref found in
  random ← on_rest pc_random;
  t ← on_rest sys_now;
  info ← requesterInfo;
  op ← (match cl_SSHAuth class, cl_Sshsig class with
        | Some auth, _ => auth ← attachSessionContext auth; mret (OpSshAuth auth)
        | None, Some sig => mret (OpSshsig sig)
        | None, None => mret (match cl_Opaque class with Some o => OpOpaqueSign o | None => OpNone end)
        end);
  mret (mk_ApprovalRequest (NewRequestID random) (Some t) (Some info) (cl_Kind class) (Some ref) None
    (u32 flags) (algorithmForFlags (kr_algorithm ref) flags) (sha256 data) false None (found_note found) op).

Definition denied (resp : ApprovalResponse) : error :=
  let reason := if bool_decide (rs_reason resp = emp) then DecisionSource_String (rs_source resp)
                else rs_reason resp in
  wrap_w emp ErrDenied (": " +:+ reason).

Definition signRemotely (req : ApprovalRequest) (data : bytes) (ref : KeyRef) : state Agent (result Signature) :=
  resp ← on_both (rk_RemoteSign req data false);
  match resp with
  | Err e => mret (Err (wrap_w "remote signing: " e emp))
  | Ok resp =>
    match VerifyApproval (rsr_approval resp) with
    | Err e => mret (Err (wrap_w "remote signing: " e emp))
    | Ok (decision, _) =>
      if bool_decide (rs_decision decision <> DECISION_APPROVE) then mret (Err (denied decision))
      else
        match UnmarshalSignature (rsr_signature resp) with
        | Err e => mret (Err (wrap_w "remote signing: parse the signature: " e emp))
        | Ok sig => _ ← signed req ref; mret (Ok sig)
        end
    end
  end.

(** The signer once a request is approved: the store's is loaded then, a parked
    key's is the one that was found. *)
Definition load_signer (found : foundKey) : state Agent (result Signer) :=
  match found with
  | keyParked _ listed cell _ => gets (fun s => Ok (parked_signer (lo_memory (ag_local s)) listed cell))
  | keyInStore ref | keyOnPeer ref =>
    gets (fun s => err_ctx "load key: " (ks_Signer (kr_fingerprint ref) (ag_rest s)))
  end.

Definition sign_here (found : foundKey) (req : ApprovalRequest) (data : bytes) : state Agent (result Signature) :=
  '(resp, req) ← on_both (ap_Submit req);
  match resp with
  | Err e => mret (Err (wrap_w "approval: " e emp))
  | Ok resp =>
    if bool_decide (rs_decision resp <> DECISION_APPROVE) then mret (Err (denied resp))
    else
      signer ← load_signer found;
      match (signer ≫= fun signer => signWithAlgorithm signer data (rq_signature_algorithm req)) with
      | Err e => mret (Err e)
      | Ok sig => _ ← signed req (found_ref found); mret (Ok sig)
      end
  end.

Definition SignWithFlags (key : PublicKey) (data : bytes) (flags : Z) : state Agent (result Signature) :=
  found ← findKey key;
  match found with
  | Err e => mret (Err e)
  | Ok found =>
    req ← buildRequest found data flags;
    match found with
    | keyOnPeer ref => signRemotely req data ref
    | keyInStore _ | keyParked _ _ _ _ => sign_here found req data
    end
  end.

Definition Agent_Sign (key : PublicKey) (data : bytes) : state Agent (result Signature) :=
  SignWithFlags key data 0.

(** ** The rest of the protocol *)

Definition Extension (extensionType : string) (contents : bytes) : state Agent (result bytes) :=
  if bool_decide (extensionType <> SessionBindExtension) then mret (Err ErrExtensionUnsupported)
  else
    match parseSessionBind contents with
    | Err e => mret (Err (wrap_w "session-bind: " e emp))
    | Ok (pub, sessionID, isForwarding) =>
      hostKey ← on_hosts (fun k => hostKeyMessage k pub);
      binds ← gets ag_binds;
      match bindings_add binds (mk_SessionBinding (Some hostKey) sessionID isForwarding true 0) with
      | Err e => mret (Err (wrap_w "session-bind: " e emp))
      | Ok binds => _ ← modify (set_binds binds); mret (Ok [])
      end
    end.

Definition Agent_Add (key : AddedKey) : state Agent (option error) :=
  if negb parks then refuseMutation "add" "this agent parks no keys" ErrMutationNotSupported
  else
    match key_Public (ak_PrivateKey key) with
    | Err e => refuseMutation "add" (e_msg e) (wrap_w "ladulas: the key cannot be parked: " e emp)
    | Ok pub =>
      own ← gets (fun s => ks_KeyRefs (ag_rest s));
      if holdsKey own (ssh_Marshal pub) then mret None
      else
        failed ← on_local (LocalKeys_Add key peer);
        match failed with
        | Some e => refuseMutation "add" (e_msg e) e
        | None => mret None
        end
    end.

Definition Agent_Remove (key : PublicKey) : state Agent (option error) :=
  if negb parks then refuseMutation "remove" "this agent parks no keys" ErrMutationNotSupported
  else
    let blob := ssh_Marshal key in
    own ← gets (fun s => ks_KeyRefs (ag_rest s));
    if holdsKey own blob
    then refuseMutation "remove" "the key is managed; ladulas keys remove is how it leaves" ErrManagedKey
    else
      removed ← on_local (LocalKeys_Remove blob peer);
      if (removed : bool) then mret None
      else refuseMutation "remove" "no such parked key"
             (wrap_w emp ErrNoSuchLocalKey (": " +:+ FingerprintSHA256 key)).

Definition Agent_RemoveAll : state Agent (option error) :=
  if negb parks then refuseMutation "remove-all" "this agent parks no keys" ErrMutationNotSupported
  else _ ← on_local (LocalKeys_RemoveAll peer); mret None.

Definition Agent_Lock : state Agent (option error) :=
  refuseMutation "lock" "the store's lock state is not the agent's to change" ErrMutationNotSupported.
Definition Agent_Unlock : state Agent (option error) :=
  refuseMutation "unlock" "the store's lock state is not the agent's to change" ErrMutationNotSupported.
Definition Agent_Signers : state Agent (result (list Signer)) :=
  mret (Err (errors_New "ladulas: the agent does not expose signers; every signature needs approval")).

End Agent.
