(* ===== verification/AgentSpec.v ===== *)
(** * AgentSpec: what a connection to the agent may get out of it

    When a signature is made and what it says about the request, which key a
    request is for, what is listed, and what the rest of the protocol may
    change. *)

From S2P Require Import Prelude.
From S2P Require Import Rules.
From S2P Require Import GoText.
From S2P Require Import Proto.
From S2P Require Import Ssh.
From S2P Require Import Identity.
From S2P Require Import Wire.
From S2P Require Import Classify.
From S2P Require Import SessionBind.
From S2P Require Import Parked.
From S2P Require Import ParkedSpec.
From S2P Require Import KnownHosts.
From S2P Require Import Agent.

Local Open Scope Z_scope.
Local Open Scope ladulas_scope.

Section Signing.
Context `{Unicode} `{Hashes} `{keys : PrivateKeys} `{Codec ApprovalResponse} `{lines : !KnownHostsParser}.
Context {P : Type} `{!HostSystem P} `{!Process P} `{store : !KeyStore P} `{peers : !RemoteKeys P (LocalKeys * P)}.
Context `{approver : !Approver (LocalKeys * P)}.
Variables (parks remote : bool) (peer : option ClientProcess).

Abbreviation Conn := (Agent (P := P)).

(** ** What an operation may report *)

(** The pieces of an agent's state that operations on the others leave alone. *)
Lemma on_local_keeps {A B} (f : Conn -> B) (m : state LocalKeys A) :
  (forall s l, f (mk_Agent (ag_binds s) (ag_hosts s) l (ag_rest s) (ag_signed s) (ag_refused s)) = f s) ->
  respects (same f) (on_local m).
Proof. intros Hf s. unfold on_local. destruct (m (ag_local s)). apply Hf. Qed.
Lemma on_rest_keeps {A B} (f : Conn -> B) (m : state P A) :
  (forall s p, f (mk_Agent (ag_binds s) (ag_hosts s) (ag_local s) p (ag_signed s) (ag_refused s)) = f s) ->
  respects (same f) (on_rest m).
Proof. intros Hf s. unfold on_rest. destruct (m (ag_rest s)). apply Hf. Qed.
Lemma on_both_keeps {A B} (f : Conn -> B) (m : state (LocalKeys * P) A) :
  (forall s l p, f (mk_Agent (ag_binds s) (ag_hosts s) l p (ag_signed s) (ag_refused s)) = f s) ->
  respects (same f) (on_both m).
Proof. intros Hf s. unfold on_both. destruct (m (ag_local s, ag_rest s)) as [a [l p]]. apply Hf. Qed.
Lemma on_hosts_keeps {A B} (f : Conn -> B) (m : KnownHosts -> state P (KnownHosts * A)) :
  (forall s k p, f (mk_Agent (ag_binds s) k (ag_local s) p (ag_signed s) (ag_refused s)) = f s) ->
  respects (same f) (on_hosts m).
Proof. intros Hf s. unfold on_hosts. destruct (m (ag_hosts s) (ag_rest s)) as [[k a] p]. apply Hf. Qed.
Lemma refuse_keeps {B} (f : Conn -> B) verb reason e :
  (forall s r, f (mk_Agent (ag_binds s) (ag_hosts s) (ag_local s) (ag_rest s) (ag_signed s) r) = f s) ->
  respects (same f) (refuseMutation verb reason e).
Proof. intros Hf s. apply Hf. Qed.
Lemma signed_keeps {B} (f : Conn -> B) req ref :
  (forall s l, f (mk_Agent (ag_binds s) (ag_hosts s) (ag_local s) (ag_rest s) l (ag_refused s)) = f s) ->
  respects (same f) (signed req ref).
Proof. intros Hf s. apply Hf. Qed.
#[local] Hint Extern 1 (respects (same _) (on_local _)) => apply on_local_keeps; reflexivity : respects.
#[local] Hint Extern 1 (respects (same _) (on_rest _)) => apply on_rest_keeps; reflexivity : respects.
#[local] Hint Extern 1 (respects (same _) (on_both _)) => apply on_both_keeps; reflexivity : respects.
#[local] Hint Extern 1 (respects (same _) (on_hosts _)) => apply on_hosts_keeps; reflexivity : respects.
#[local] Hint Extern 1 (respects (same _) (refuseMutation _ _ _)) => apply refuse_keeps; reflexivity : respects.
#[local] Hint Extern 1 (respects (same _) (signed _ _)) => apply signed_keeps; reflexivity : respects.

(** It reports no signature. *)
Abbreviation reports_nothing := (respects (same (ag_signed (P := P)))).

Lemma silent_findKey key : reports_nothing (findKey parks remote key).
Proof. unfold findKey, find_on_peer. follow. Qed.
Lemma silent_buildRequest found data flags : reports_nothing (buildRequest peer found data flags).
Proof. unfold buildRequest, requesterInfo, attachSessionContext. follow. Qed.

(** ** The request *)

Lemma buildRequest_run found data flags s :
  let req := (buildRequest peer found data flags s).1 in
  rq_kind req = cl_Kind (Classify data) /\ rq_key req = Some (found_ref found) /\
  rq_payload_sha256 req = sha256 data /\ rq_signature_flags req = u32 flags /\
  rq_signature_algorithm req = algorithmForFlags (kr_algorithm (found_ref found)) flags /\
  rq_local_key req = found_note found /\ rq_grant_only req = false /\ is_Some (rq_created_at req).
Proof. cbn zeta. unfold buildRequest. rewrite !state_bind_unfold. cbn. by split_and!. Qed.

(** What a signature of a key found here is made of: the approver was asked, said
    yes, and the signer is what the program has when it said so.  [q] and [q']
    are the parked keys and the program before and after. *)
Definition signed_here (found : foundKey) (req req' : ApprovalRequest) (data : bytes) (sig : Signature)
    (q q' : LocalKeys * P) : Prop :=
  exists resp signer,
    ap_Submit req q = ((Ok resp, req'), q') /\ rs_decision resp = DECISION_APPROVE /\
    match found with
    | keyParked _ listed cell _ => signer = parked_signer (lo_memory q'.1) listed cell
    | keyInStore ref | keyOnPeer ref => ks_Signer (kr_fingerprint ref) q'.2 = Ok signer
    end /\
    signWithAlgorithm signer data (rq_signature_algorithm req') = Ok sig.

(** What one of a key on a peer is made of: a verified approval of its holder. *)
Definition signed_there (req : ApprovalRequest) (data : bytes) (sig : Signature) (q q' : LocalKeys * P) : Prop :=
  exists resp decision pub,
    rk_RemoteSign req data false q = (Ok resp, q') /\
    VerifyApproval (rsr_approval resp) = Ok (decision, pub) /\ rs_decision decision = DECISION_APPROVE /\
    UnmarshalSignature (rsr_signature resp) = Ok sig.

Definition around (s : Conn) : LocalKeys * P := (ag_local s, ag_rest s).

Lemma sign_here_run found req data s :
  match sign_here found req data s with
  | (Ok sig, s') => exists req', signed_here found req req' data sig (around s) (around s') /\
      ag_signed s' = ag_signed s ++ [(req', found_ref found)]
  | (Err _, s') => ag_signed s' = ag_signed s
  end.
Proof.
  unfold sign_here. rewrite state_bind_unfold. unfold on_both at 1 2.
  destruct (ap_Submit req (ag_local s, ag_rest s)) as [[r req'] [l p]] eqn:Es. cbn [fst snd].
  destruct r as [resp|e]; [|done]. case_bool_decide as Hd; [done|].
  rewrite state_bind_unfold.
  assert (forall s1, (load_signer found s1).2 = s1) as -> by (intros s1; by destruct found).
  destruct (load_signer found _).1 as [signer|e] eqn:El; cbn [mbind result_bind]; [|done].
  destruct (signWithAlgorithm signer data (rq_signature_algorithm req')) as [sig|e] eqn:Ew; [|done].
  exists req'. split; [|done]. exists resp, signer.
  repeat split; try done. destruct found; cbn in El.
  - by apply err_ctx_Ok in El.
  - by injection El as <-.
  - by apply err_ctx_Ok in El.
Qed.

Lemma signRemotely_run req data ref s :
  match signRemotely req data ref s with
  | (Ok sig, s') => signed_there req data sig (around s) (around s') /\ ag_signed s' = ag_signed s ++ [(req, ref)]
  | (Err _, s') => ag_signed s' = ag_signed s
  end.
Proof.
  unfold signRemotely. rewrite state_bind_unfold. unfold on_both at 1 2.
  destruct (rk_RemoteSign req data false (ag_local s, ag_rest s)) as [r [l p]] eqn:Es. cbn [fst snd].
  destruct r as [resp|e]; [|done]. destruct (VerifyApproval (rsr_approval resp)) as [[decision pub]|e] eqn:Ev; [|done].
  case_bool_decide as Hd; [done|].
  destruct (UnmarshalSignature (rsr_signature resp)) as [sig|e] eqn:Eu; [|done]. split; [|done].
  by exists resp, decision, pub.
Qed.

(** A signature, and the state it was asked for in. *)
Lemma SignWithFlags_run key data flags s :
  match SignWithFlags parks remote peer key data flags s with
  | (Ok sig, s') => exists found s1,
      findKey parks remote key s = (Ok found, s1) /\
      let '(req, s2) := buildRequest peer found data flags s1 in
      exists req', ag_signed s' = ag_signed s ++ [(req', found_ref found)] /\
      match found with
      | keyOnPeer _ => req' = req /\ signed_there req data sig (around s2) (around s')
      | keyInStore _ | keyParked _ _ _ _ => signed_here found req req' data sig (around s2) (around s')
      end
  | (Err _, s') => ag_signed s' = ag_signed s
  end.
Proof.
  unfold SignWithFlags. rewrite state_bind_unfold. pose proof (silent_findKey key s) as Hf. unfold same in Hf.
  destruct (findKey parks remote key s) as [[found|e] s1]; cbn [fst snd] in *; [|done].
  rewrite state_bind_unfold. pose proof (silent_buildRequest found data flags s1) as Hb. unfold same in Hb.
  destruct (buildRequest peer found data flags s1) as [req s2] eqn:Er. cbn [fst snd] in *.
  pose proof (sign_here_run found req data s2) as Hs.
  pose proof (signRemotely_run req data (found_ref found) s2) as Hr.
  destruct found as [ref|ref listed cell note|ref].
  - destruct (sign_here _ _ _ _) as [[sig|e] s3]; [|congruence]. destruct Hs as (req' & Hs & Hl).
    exists (keyInStore ref), s1. rewrite Er. split; [done|]. exists req'. by rewrite Hl, Hb, Hf.
  - destruct (sign_here _ _ _ _) as [[sig|e] s3]; [|congruence]. destruct Hs as (req' & Hs & Hl).
    exists (keyParked ref listed cell note), s1. rewrite Er. split; [done|]. exists req'. by rewrite Hl, Hb, Hf.
  - destruct (signRemotely _ _ _ _) as [[sig|e] s3]; [|cbn in Hr; congruence]. destruct Hr as (Hr & Hl).
    exists (keyOnPeer ref), s1. rewrite Er. split; [done|]. exists req. by rewrite Hl, Hb, Hf.
Qed.

(** A signature comes out of the agent only for a request that names the key, the
    digest and the kind of exactly the bytes signed, and only when that request
    was approved: by this instance's approver for a key in the store or parked,
    with a signature by the key as the program held it once the answer was in;
    by a verified approval of the holder for a key elsewhere.  Each is reported
    for the audit log once, and a refusal reports nothing. *)
Theorem signature_only_when_approved key data flags s :
  match SignWithFlags parks remote peer key data flags s with
  | (Ok sig, s') => exists found s1 req s2 req',
      findKey parks remote key s = (Ok found, s1) /\ buildRequest peer found data flags s1 = (req, s2) /\
      rq_kind req = cl_Kind (Classify data) /\ rq_key req = Some (found_ref found) /\
      rq_payload_sha256 req = sha256 data /\ rq_local_key req = found_note found /\
      rq_signature_algorithm req = algorithmForFlags (kr_algorithm (found_ref found)) flags /\
      ag_signed s' = ag_signed s ++ [(req', found_ref found)] /\
      match found with
      | keyOnPeer _ => req' = req /\ signed_there req data sig (around s2) (around s')
      | keyInStore _ | keyParked _ _ _ _ => signed_here found req req' data sig (around s2) (around s')
      end
  | (Err _, s') => ag_signed s' = ag_signed s
  end.
Proof.
  pose proof (SignWithFlags_run key data flags s) as Hs. destruct (SignWithFlags _ _ _ _ _ _ _) as [[sig|e] s']; [|done].
  destruct Hs as (found & s1 & Hf & Hs). destruct (buildRequest_run found data flags s1) as (Hk & Hkey & Hp & _ & Ha & Hn & _).
  destruct (buildRequest peer found data flags s1) as [req s2] eqn:Er. destruct Hs as (req' & Hl & Hs).
  exists found, s1, req, s2, req'. by repeat (split; [done|]).
Qed.

(** ** Which key *)

Lemma holdsKey_spec refs blob : holdsKey refs blob = true <-> exists ref, ref ∈ refs /\ kr_public_key ref = blob.
Proof.
  unfold holdsKey. rewrite existsb_exists. split.
  - intros (ref & Hin%list_elem_of_In & Hb%bool_decide_eq_true). by exists ref.
  - intros (ref & Hin & Hb). exists ref. split; [by apply list_elem_of_In|]. by apply bool_decide_eq_true.
Qed.

Lemma findRemote_Some refs blob ref : findRemote refs blob = Some ref -> ref ∈ refs /\ kr_public_key ref = blob.
Proof. intros [Hin Hb]%find_some. split; [by apply list_elem_of_In|]. by apply bool_decide_eq_true in Hb. Qed.

Lemma findRemote_None refs blob : findRemote refs blob = None -> holdsKey refs blob = false.
Proof.
  intros Hn. apply not_true_iff_false. intros (ref & Hin & Hb)%holdsKey_spec.
  pose proof (find_none _ _ Hn ref (proj1 (list_elem_of_In _ _) Hin)) as Hf. by apply bool_decide_eq_false in Hf.
Qed.

(** Who on the peers has a key: a holder that offers it, one that does when
    asked again, or one remembered. *)
Definition on_peers (key : PublicKey) (p : P) (r : result foundKey) : Prop :=
  let blob := ssh_Marshal key in
  let offered := rk_RemoteKeyRefs p in
  let p' := (rk_RefreshKeys p).2 in
  match findRemote offered blob with
  | Some ref => r = Ok (keyOnPeer ref)
  | None =>
    match findRemote (rk_RemoteKeyRefs p') blob with
    | Some ref => r = Ok (keyOnPeer ref)
    | None =>
      match rk_BorrowedKey blob p' with
      | Some ref => r = Ok (keyOnPeer ref)
      | None => r = Err (no_key key)
      end
    end
  end.

Lemma find_on_peer_run key (s : Conn) : on_peers key (ag_rest s) (find_on_peer key s).1.
Proof.
  unfold on_peers, find_on_peer. rewrite state_bind_unfold. cbn [gets fst snd].
  destruct (findRemote (rk_RemoteKeyRefs (ag_rest s)) _) as [ref|]; [done|].
  rewrite !state_bind_unfold. unfold on_rest. destruct (rk_RefreshKeys (ag_rest s)) as [u p'] eqn:E. cbn [gets fst snd ag_rest].
  destruct (findRemote (rk_RemoteKeyRefs p') _) as [ref|]; [done|].
  rewrite state_bind_unfold. cbn [gets fst snd ag_rest]. by destruct (rk_BorrowedKey _ p').
Qed.

Lemma on_local_run {A} (m : state LocalKeys A) (s : Conn) :
  on_local m s = ((m (ag_local s)).1, mk_Agent (ag_binds s) (ag_hosts s) (m (ag_local s)).2 (ag_rest s) (ag_signed s) (ag_refused s)).
Proof. unfold on_local. by destruct (m (ag_local s)). Qed.

(** Which key a request is for: the store's when it holds the blob, asking nobody;
    else the entry parked under it that has not expired; else, for a server
    with peers, a key a holder offers - asked again when nobody did - or is
    remembered to have offered; and otherwise there is no such key. *)
Theorem findKey_spec bound key (s : Conn) :
  parked_ok bound (ag_local s) ->
  let blob := ssh_Marshal key in
  let own := ks_KeyRefs (ag_rest s) in
  let looked := lookup_parked blob (ag_local s) in
  match findKey parks remote key s with
  | (Ok (keyInStore ref), s') => ref ∈ own /\ kr_public_key ref = blob /\ s' = s
  | (Ok (keyParked ref listed cell note), s') =>
      holdsKey own blob = false /\ parks = true /\ ag_local s' = looked.2 /\
      found_parked (ag_local s) looked.2 blob (Some (listed, cell, ref, note))
  | (found, s') =>
      holdsKey own blob = false /\ (parks = true -> found_parked (ag_local s) looked.2 blob None) /\
      (if remote then on_peers key (ag_rest s) found else found = Err (no_key key))
  end.
Proof.
  intros Ho blob own looked. pose proof (lookup_sound bound blob _ Ho) as Hl. fold looked in Hl.
  unfold findKey. rewrite state_bind_unfold. cbn [gets fst snd]. fold blob own.
  destruct (findRemote own blob) as [ref|] eqn:Ef; [by apply findRemote_Some in Ef as [? ?]|].
  apply findRemote_None in Ef. rewrite state_bind_unfold.
  assert (forall s1 : Conn, ag_rest s1 = ag_rest s -> (parks = true -> found_parked (ag_local s) looked.2 blob None) ->
    match (if remote then find_on_peer key else mret (Err (no_key key))) s1 with
    | (Ok (keyInStore _), _) | (Ok (keyParked _ _ _ _), _) => False
    | (found, s') => holdsKey own blob = false /\ (parks = true -> found_parked (ag_local s) looked.2 blob None) /\
        (if remote then on_peers key (ag_rest s) found else found = Err (no_key key))
    end) as Hp.
  { intros s1 Hr Hn. destruct remote; [|done]. pose proof (find_on_peer_run key s1) as Hp. rewrite Hr in Hp.
    destruct (find_on_peer key s1) as [[[ref|ref l c n|ref]|e] s2]; [| |done|done];
      unfold on_peers in Hp; cbn [fst] in Hp; repeat (case_match; simplify_eq/=). }
  destruct parks.
  - rewrite on_local_run. cbn [fst snd]. fold looked. destruct looked.1 as [[[[listed cell] ref] note]|]; [done|].
    specialize (Hp (mk_Agent (ag_binds s) (ag_hosts s) looked.2 (ag_rest s) (ag_signed s) (ag_refused s)) eq_refl (fun _ => Hl)).
    cbn [snd]. match type of Hp with context [(if remote then ?a else ?b) ?s1] =>
      destruct ((if remote then a else b) s1) as [[[]|] ?] end; done.
  - cbn [mret state_ret fst snd]. specialize (Hp s eq_refl ltac:(done)).
    match type of Hp with context [(if remote then ?a else ?b) ?s1] =>
      destruct ((if remote then a else b) s1) as [[[]|] ?] end; done.
Qed.

(** ** What is listed *)

Lemma findRemote_app l l' blob :
  findRemote (l ++ l') blob = match findRemote l blob with Some ref => Some ref | None => findRemote l' blob end.
Proof. unfold findRemote. induction l as [|ref l IH]; [done|]. cbn. by case_bool_decide. Qed.

Lemma holdsKey_find refs blob :
  holdsKey refs blob = match findRemote refs blob with Some _ => true | None => false end.
Proof. unfold holdsKey, findRemote. induction refs as [|ref refs IH]; [done|]. cbn. by case_bool_decide. Qed.

Lemma add_missing_find out refs blob :
  findRemote (add_missing out refs) blob =
  match findRemote out blob with Some ref => Some ref | None => findRemote refs blob end.
Proof.
  unfold add_missing. revert out. induction refs as [|ref refs IH]; intros out; cbn [foldl].
  { by destruct (findRemote out blob). }
  rewrite IH. destruct (holdsKey out (kr_public_key ref)) eqn:Eh.
  - destruct (findRemote out blob) as [r|] eqn:Ef; [done|]. cbn. case_bool_decide as Hb; [|done].
    by rewrite Hb, holdsKey_find, Ef in Eh.
  - rewrite findRemote_app. destruct (findRemote out blob); [done|]. cbn. by case_bool_decide.
Qed.

Lemma add_missing_NoDup out refs :
  NoDup (map kr_public_key out) -> NoDup (map kr_public_key (add_missing out refs)).
Proof.
  unfold add_missing. revert out. induction refs as [|ref refs IH]; intros out Hn; [done|]. cbn [foldl]. apply IH.
  destruct (holdsKey out (kr_public_key ref)) eqn:Eh; [done|]. rewrite map_app. apply NoDup_app.
  split; [done|]. split; [|apply NoDup_singleton]. intros b (r & -> & Hr)%list_elem_of_fmap Hb%list_elem_of_singleton.
  apply not_true_iff_false in Eh. apply Eh, holdsKey_spec. by exists r.
Qed.

Lemma find_unique refs ref blob :
  NoDup (map kr_public_key refs) -> (findRemote refs blob = Some ref <-> ref ∈ refs /\ kr_public_key ref = blob).
Proof.
  intros Hn. split; [apply findRemote_Some|]. intros [Hin <-]. induction refs as [|r refs IH]; [by apply elem_of_nil in Hin|].
  cbn in Hn. apply NoDup_cons in Hn as [Hr Hn]. cbn. case_bool_decide as Hb.
  - apply elem_of_cons in Hin as [->|Hin]; [done|]. destruct Hr. rewrite Hb. apply list_elem_of_fmap. by exists ref.
  - apply elem_of_cons in Hin as [->|Hin]; [done|]. by apply IH.
Qed.

(** The reference for a blob: the store's, then the parked one, then the first
    a peer offers. *)
Definition chosen (s : Conn) (blob : bytes) : option KeyRef :=
  match findRemote (ks_KeyRefs (ag_rest s)) blob with
  | Some ref => Some ref
  | None =>
    match (if parks then findRemote (LocalKeys_Refs (ag_local s)).1 blob else None) with
    | Some ref => Some ref
    | None => if remote then findRemote (rk_RemoteKeyRefs (ag_rest s)) blob else None
    end
  end.

Lemma allKeys_run s :
  NoDup (map kr_public_key (ks_KeyRefs (ag_rest s))) ->
  let refs := (allKeys parks remote s).1 in
  NoDup (map kr_public_key refs) /\ forall blob, findRemote refs blob = chosen s blob.
Proof.
  intros Hn. cbn zeta. unfold allKeys, chosen. rewrite state_bind_unfold. cbn [gets fst snd].
  destruct parks; cbn [negb andb]; [rewrite andb_false_r|rewrite andb_true_r].
  - rewrite !state_bind_unfold, on_local_run. cbn [mret state_ret fst snd].
    destruct remote; cbn [negb]; rewrite ?state_bind_unfold; cbn [gets mret state_ret fst snd ag_rest].
    + split; [by repeat apply add_missing_NoDup|]. intros blob. rewrite !add_missing_find.
      by destruct (findRemote (ks_KeyRefs _) _).
    + split; [by apply add_missing_NoDup|]. intros blob. rewrite add_missing_find.
      destruct (findRemote (ks_KeyRefs _) _); [done|]. by destruct (findRemote _ _).
  - destruct remote; cbn [negb].
    + rewrite !state_bind_unfold. cbn [gets mret state_ret fst snd ag_rest].
      split; [by apply add_missing_NoDup|]. intros blob. rewrite add_missing_find. by destruct (findRemote (ks_KeyRefs _) _).
    + split; [done|]. intros blob. cbn [mret state_ret fst]. by destruct (findRemote (ks_KeyRefs (ag_rest s)) blob).
Qed.

(** When the store lists no key twice, the agent lists none twice; and what it
    lists is, for every blob, the store's key, or else the parked one, or else
    the first a peer offers - unless the holder of that one does not want it
    offered, and then the blob is not listed at all. *)
Theorem List_spec s :
  NoDup (map kr_public_key (ks_KeyRefs (ag_rest s))) ->
  let listed := (Agent_List parks remote s).1 in
  NoDup (map ls_Blob listed) /\
  forall l, l ∈ listed <-> exists ref, chosen s (ls_Blob l) = Some ref /\ RefAgentUse ref = true /\
    l = mk_Listed (kr_algorithm ref) (kr_public_key ref) (keyComment ref).
Proof.
  intros Hn. destruct (allKeys_run s Hn) as [Hd Hf]. cbn zeta. unfold Agent_List, advertised.
  rewrite !state_bind_unfold. cbn [mret state_ret fst snd]. set (refs := (allKeys parks remote s).1) in *. split.
  - rewrite map_map. cbn. assert (forall p (l : list KeyRef), NoDup (map kr_public_key l) -> NoDup (map kr_public_key (List.filter p l))) as Hp.
    { intros p l. induction l as [|r l IH]; [done|]. cbn. intros [Hr Hl]%NoDup_cons. destruct (p r); [|by apply IH].
      cbn. apply NoDup_cons. split; [|by apply IH]. intros (r' & He & Hin)%list_elem_of_fmap. apply Hr.
      rewrite He. apply list_elem_of_fmap. exists r'. split; [done|]. by apply elem_of_filter_b in Hin as [? _]. }
    by apply Hp.
  - intros l. rewrite list_elem_of_fmap. split.
    + intros (ref & -> & [Hin Hu]%elem_of_filter_b). exists ref. cbn. rewrite <- Hf. by rewrite (find_unique _ _ _ Hd).
    + intros (ref & Hc & Hu & ->). exists ref. split; [done|]. rewrite <- Hf in Hc. apply findRemote_Some in Hc as [Hin _].
      by apply elem_of_filter_b.
Qed.

(** ** The rest of the protocol *)

(** Adding a key parks it through the set, for this connection's process; a key
    whose bare public half the store holds is answered with success and parked
    nowhere; what is refused is recorded with its reason, changes nothing
    else, and nothing reaches the store. *)
Theorem Agent_Add_spec added (s : Conn) :
  let result := Agent_Add parks peer added s in
  let own := ks_KeyRefs (ag_rest s) in
  ag_rest result.2 = ag_rest s /\ ag_binds result.2 = ag_binds s /\ ag_signed result.2 = ag_signed s /\
  match parks, key_Public (ak_PrivateKey added) with
  | false, _ => result.1 = Some ErrMutationNotSupported /\ ag_local result.2 = ag_local s
  | true, Err e => result.1 = Some (wrap_w "ladulas: the key cannot be parked: " e emp) /\ ag_local result.2 = ag_local s
  | true, Ok pub =>
      if holdsKey own (ssh_Marshal pub)
      then result.1 = None /\ ag_local result.2 = ag_local s
      else result.1 = (LocalKeys_Add added peer (ag_local s)).1 /\
           ag_local result.2 = (LocalKeys_Add added peer (ag_local s)).2
  end /\
  ag_refused result.2 = ag_refused s ++
    match result.1 with
    | None => []
    | Some e =>
      [("add", if parks then match key_Public (ak_PrivateKey added) with Err e' => e_msg e' | Ok _ => e_msg e end
               else "this agent parks no keys")]
    end.
Proof.
  cbn zeta. unfold Agent_Add, refuseMutation. destruct parks; cbn [negb]; [|done].
  destruct (key_Public (ak_PrivateKey added)) as [pub|e]; [|done].
  rewrite !state_bind_unfold. cbn [gets fst snd]. destruct (holdsKey _ _); [by rewrite app_nil_r|].
  rewrite state_bind_unfold, on_local_run. cbn [fst snd]. destruct (LocalKeys_Add added peer (ag_local s)).1 as [e|]; cbn; [done|].
  by rewrite app_nil_r.
Qed.

(** Removing drops the parked entry of the blob and only that, and never a key of
    the store, which is refused by name; removing all leaves nothing parked;
    and neither reaches the store. *)
Theorem Agent_Remove_spec bound key (s : Conn) :
  parked_ok bound (ag_local s) ->
  let result := Agent_Remove parks peer key s in
  let all := Agent_RemoveAll parks peer s in
  let blob := ssh_Marshal key in
  let removed := LocalKeys_Remove blob peer (ag_local s) in
  ag_rest result.2 = ag_rest s /\ ag_rest all.2 = ag_rest s /\
  match parks, holdsKey (ks_KeyRefs (ag_rest s)) blob with
  | false, _ => result.1 = Some ErrMutationNotSupported /\ all.1 = Some ErrMutationNotSupported /\
      ag_local result.2 = ag_local s /\ ag_local all.2 = ag_local s
  | true, held =>
      all.1 = None /\ lo_keys (ag_local all.2) = [] /\
      (if held then result.1 = Some ErrManagedKey /\ ag_local result.2 = ag_local s
      else ag_local result.2 = removed.2 /\ (blob ∉ map blob_of (lo_keys (ag_local result.2))) /\
           (result.1 = None <-> removed.1 = true))
  end.
Proof.
  intros Ho. cbn zeta. unfold Agent_Remove, Agent_RemoveAll, refuseMutation. destruct parks; cbn [negb]; [|done].
  rewrite !state_bind_unfold, on_local_run. cbn [gets mret state_ret fst snd ag_rest ag_local].
  split; [|split; [done|split; [done|split; [apply dropAll_empty|]]]].
  - destruct (holdsKey _ _); [done|]. rewrite state_bind_unfold, on_local_run. cbn [fst snd].
    by destruct (LocalKeys_Remove _ _ _).1.
  - destruct (holdsKey _ _); [done|]. rewrite state_bind_unfold, on_local_run. cbn [fst snd].
    pose proof (Remove_gone bound (ssh_Marshal key) peer _ Ho) as Hg.
    by destruct (LocalKeys_Remove _ _ _).1.
Qed.

(** ** A connection from its first request *)

Inductive agent_op :=
  | OList
  | OSign (key : PublicKey) (data : bytes) (flags : Z)
  | OExtension (extensionType : string) (contents : bytes)
  | OAdd (added : AddedKey)
  | ORemove (key : PublicKey)
  | ORemoveAll | OLock | OUnlock | OSigners.

Definition agent_step (op : agent_op) (s : Conn) : Conn :=
  match op with
  | OList => (Agent_List parks remote s).2
  | OSign key data flags => (SignWithFlags parks remote peer key data flags s).2
  | OExtension extensionType contents => (Extension extensionType contents s).2
  | OAdd added => (Agent_Add parks peer added s).2
  | ORemove key => (Agent_Remove parks peer key s).2
  | ORemoveAll => (Agent_RemoveAll parks peer s).2
  | OLock => (Agent_Lock s).2
  | OUnlock => (Agent_Unlock s).2
  | OSigners => (Agent_Signers s).2
  end.
Definition agent_run (ops : list agent_op) (s : Conn) : Conn := foldl (fun s op => agent_step op s) s ops.

(** Only an extension binds. *)
Lemma binds_step op s :
  match op with OExtension _ _ => True | _ => ag_binds (agent_step op s) = ag_binds s end.
Proof.
  destruct op as [|key data flags|ty contents|added|key| | | |]; cbn [agent_step]; try done; revert s.
  - change (respects (same (ag_binds (P := P))) (Agent_List parks remote)). unfold Agent_List, advertised, allKeys. follow.
  - change (respects (same (ag_binds (P := P))) (SignWithFlags parks remote peer key data flags)).
    unfold SignWithFlags, findKey, find_on_peer, buildRequest, requesterInfo, attachSessionContext, sign_here, signRemotely, load_signer.
    follow.
  - change (respects (same (ag_binds (P := P))) (Agent_Add parks peer added)). unfold Agent_Add. follow.
  - change (respects (same (ag_binds (P := P))) (Agent_Remove parks peer key)). unfold Agent_Remove. follow.
  - change (respects (same (ag_binds (P := P))) (Agent_RemoveAll parks peer)). unfold Agent_RemoveAll. follow.
Qed.

Lemma binds_findKey key s : ag_binds (findKey parks remote key s).2 = ag_binds s.
Proof. revert s. change (respects (same (ag_binds (P := P))) (findKey parks remote key)). unfold findKey, find_on_peer. follow. Qed.

(** ** What a binding is evidence of *)

(** The host key is the one the connection was bound to, named or not. *)
Definition names_key (h : HostKey) (pub : PublicKey) : Prop :=
  hk_blob h = ssh_Marshal pub /\ hk_algorithm h = ssh_Type pub /\ hk_fingerprint h = FingerprintSHA256 pub.

Lemma Annotate_run k h (p : P) :
  let h' := (Annotate k h p).1.2 in
  hk_blob h' = hk_blob h /\ hk_algorithm h' = hk_algorithm h /\ hk_fingerprint h' = hk_fingerprint h.
Proof.
  cbn zeta. unfold Annotate. rewrite state_bind_unfold. destruct (default ∅ _ !! _); [done|]. cbn. by case_bool_decide.
Qed.

(** A binding the connection was told of, with its host's signature. *)
Definition proven (ops : list agent_op) (b : SessionBinding) : Prop :=
  exists contents pub h, OExtension SessionBindExtension contents ∈ ops /\
    parseSessionBind contents = Ok (pub, sb_session_id b, sb_is_forwarding b) /\
    sb_host_key b = Some h /\ names_key h pub.

Lemma Extension_binds ty contents (s : Conn) :
  ag_binds (Extension ty contents s).2 = ag_binds s \/
  exists b, bindings_add (ag_binds s) b = Ok (ag_binds (Extension ty contents s).2) /\ proven [OExtension ty contents] b.
Proof.
  unfold Extension. case_bool_decide as Ht; [by left|]. rewrite Ht.
  destruct (parseSessionBind contents) as [[[pub sid] fwd]|e] eqn:Ep; [|by left].
  rewrite state_bind_unfold. unfold on_hosts at 1 2 3 4. pose proof (Annotate_run (ag_hosts s) (mk_HostKey (ssh_Marshal pub) (ssh_Type pub) (FingerprintSHA256 pub) [] false) (ag_rest s)) as Ha.
  unfold hostKeyMessage. destruct (Annotate _ _ _) as [[k h] p]. cbn [fst snd] in *. rewrite state_bind_unfold. cbn [gets fst snd ag_binds].
  destruct (bindings_add _ _) as [binds|e] eqn:Eb; [|by left]. right.
  exists (mk_SessionBinding (Some h) sid fwd true 0). split; [done|].
  exists contents, pub, h. split; [by apply list_elem_of_singleton|]. split; [done|]. done.
Qed.

Lemma proven_more ops ops' b : ops ⊆ ops' -> proven ops b -> proven ops' b.
Proof. intros Hs (contents & pub & h & Hin & Hr). exists contents, pub, h. split; [by apply Hs|done]. Qed.

Lemma proven_hop ops n b : proven ops b -> proven ops (set_hop n b).
Proof. done. Qed.

Lemma agent_binds ops (s : Conn) :
  ag_binds s = [] ->
  bindings_ok (ag_binds (agent_run ops s)) /\ Forall (proven ops) (ag_binds (agent_run ops s)).
Proof.
  intros Hb0. unfold agent_run. induction ops as [|op ops IH] using rev_ind.
  { cbn. rewrite Hb0. split; [|constructor]. split; [cbn; lia|]. intros i x. by rewrite lookup_nil. }
  rewrite foldl_app. cbn [foldl]. set (s1 := foldl _ s ops) in *. destruct IH as [Hok Hp].
  assert (Forall (proven (ops ++ [op])) (ag_binds s1)) as Hp'.
  { eapply Forall_impl; [exact Hp|]. intros b. apply proven_more. set_solver. }
  pose proof (binds_step op s1) as Hu. destruct op as [|key data flags|ty contents|added|key| | | |]; try (by rewrite Hu).
  cbn [agent_step]. destruct (Extension_binds ty contents s1) as [->|(b & Hadd & Hb)]; [done|].
  split; [by eapply bindings_add_ok|]. revert Hadd. unfold bindings_add. case_bool_decide; [done|]. intros [= <-].
  apply Forall_app. split; [done|]. apply Forall_singleton, proven_hop. eapply proven_more; [|exact Hb]. set_solver.
Qed.

(** ** What a login says about where it is going *)

Lemma Classify_auth data auth :
  cl_SSHAuth (Classify data) = Some auth -> sa_session_id auth <> [] /\ sa_destination auth = None.
Proof.
  unfold Classify. destruct (parseSshsig data) as [sig|err]; [done|]. destruct (negb _); [done|].
  destruct (parseAuthBlob data) as [a|e] eqn:Hp; [|done]. intros [= ->].
  unfold parseAuthBlob in Hp. destruct (read_auth data) as [[a rest]|] eqn:Hr; [|done]. injection Hp as ->.
  unfold read_auth in Hr. rd_inv. case_bool_decide as Hs; [done|]. rd_inv. repeat (case_match; [done|]; rd_inv).
  simplify_eq. done.
Qed.

Lemma attach_run auth (s : Conn) :
  sa_session_id auth <> [] -> sa_destination auth = None ->
  let bind := context (ag_binds s) (Some (sa_session_id auth)) in
  exists payload destination label,
    (attachSessionContext auth s).1 = set_session bind payload destination label auth /\
    match sa_payload_destination auth with
    | Some host => exists h, payload = Some h /\ destination = Some h /\ hk_blob h = hk_blob host /\
        hk_fingerprint h = hk_fingerprint host
    | None => payload = None /\
        match bc_binding bind with
        | Some b => destination = sb_host_key b
        | None => destination = None /\ label = "unknown destination"%string
        end
    end.
Proof.
  intros Hs Hd bind. unfold attachSessionContext. rewrite state_bind_unfold. cbn [gets fst snd].
  rewrite bool_decide_eq_false_2 by done. fold bind. destruct (sa_payload_destination auth) as [host|].
  - rewrite state_bind_unfold. unfold on_hosts. pose proof (Annotate_run (ag_hosts s) host (ag_rest s)) as (Hb & _ & Hf).
    destruct (Annotate _ _ _) as [[k h] p]. cbn in *. do 3 eexists. split; [done|]. by exists h.
  - destruct (bc_binding bind) as [b|]; do 3 eexists; by rewrite ?Hd.
Qed.

Lemma build_login found data flags (s : Conn) auth :
  cl_SSHAuth (Classify data) = Some auth ->
  exists s', ag_binds s' = ag_binds s /\
    rq_operation (buildRequest peer found data flags s).1 = OpSshAuth (attachSessionContext auth s').1.
Proof.
  intros Hc. unfold buildRequest, requesterInfo. rewrite Hc, !state_bind_unfold.
  eexists. split; [|cbn; reflexivity]. cbn [gets fst snd mret state_ret].
  rewrite (on_rest_keeps ag_binds sys_now) by done. by apply (on_rest_keeps ag_binds pc_random).
Qed.

(** The first binding of a session is one of that session. *)
Lemma first_binding binds sid :
  match find_first (fun x => bool_decide (Some sid = Some (sb_session_id x))) binds with
  | Some b => b ∈ binds /\ sb_session_id b = sid
  | None => forall b, b ∈ binds -> sb_session_id b <> sid
  end.
Proof.
  induction binds as [|x binds IH]; cbn [find_first]; [intros b Hb; by apply elem_of_nil in Hb|].
  case_bool_decide as Hs; [injection Hs as ->; split; [left|done]|].
  destruct (find_first _ binds) as [b|]; [split; [right|]; apply IH|].
  intros b [->|Hb]%elem_of_cons; [congruence|by apply IH].
Qed.

(** What a request for a login says of where it is going, on a connection from its
    first request: the payload's own host key when it names one; else the host
    of the first binding of its session; else an unknown destination.  A login
    marked bound was bound by a payload this connection sent, in which a host
    signed that session with that key; and the forwarding hops it counts are
    those of the bindings up to the one of its session, or all. *)
Theorem login_context_proven ops (s0 : Conn) found data flags auth auth' :
  ag_binds s0 = [] -> cl_SSHAuth (Classify data) = Some auth ->
  let s := agent_run ops s0 in
  rq_operation (buildRequest peer found data flags s).1 = OpSshAuth auth' ->
  sa_session_id auth' = sa_session_id auth /\ sa_username auth' = sa_username auth /\
  sa_binding_chain auth' = ag_binds s /\
  (exists seen rest, ag_binds s = seen ++ rest /\ sa_forwarded_hops auth' = fwd_count seen /\
     sa_forwarded auth' = (0 <? fwd_count seen) /\
     if sa_bound auth' then sb_session_id <$> last seen = Some (sa_session_id auth) else rest = []) /\
  (sa_bound auth' = true <-> exists b, b ∈ ag_binds s /\ sb_session_id b = sa_session_id auth) /\
  (sa_bound auth' = true -> exists contents pub fwd,
     OExtension SessionBindExtension contents ∈ ops /\
     parseSessionBind contents = Ok (pub, sa_session_id auth, fwd) /\
     (sa_payload_destination auth = None -> exists h, sa_destination auth' = Some h /\ names_key h pub)) /\
  match sa_payload_destination auth with
  | Some host => exists h, sa_destination auth' = Some h /\ sa_payload_destination auth' = Some h /\
      hk_blob h = hk_blob host /\ hk_fingerprint h = hk_fingerprint host
  | None => sa_payload_destination auth' = None /\
      (sa_bound auth' = false -> sa_destination auth' = None /\ sa_destination_label auth' = "unknown destination"%string)
  end.
Proof.
  intros Hb0 Hc s Hop. destruct (Classify_auth data auth Hc) as [Hsid Hdest].
  destruct (agent_binds ops s0 Hb0) as [Hok Hp]. fold s in Hok, Hp.
  destruct (build_login found data flags s auth Hc) as (s1 & Hs1 & Hr). rewrite Hr in Hop. injection Hop as <-. clear Hr.
  destruct (attach_run auth s1 Hsid Hdest) as (payload & dest & label & -> & Hd). rewrite Hs1 in *. clear Hs1.
  destruct (context_spec (ag_binds s) (Some (sa_session_id auth)) Hok) as (seen & rest & Hsplit & Hf & Hh & Hfw & Hch & Hl).
  pose proof (first_binding (ag_binds s) (sa_session_id auth)) as Hfirst. rewrite <- Hf in Hfirst.
  set (bind := context _ _) in *. cbn [set_session sa_session_id sa_username sa_binding_chain sa_bound sa_forwarded_hops
    sa_forwarded sa_destination sa_payload_destination sa_destination_label].
  split; [done|]. split; [done|]. split; [done|]. split; [|split; [|split]].
  - exists seen, rest. split; [done|]. split; [done|]. split; [done|].
    destruct (bc_binding bind) as [b|]; cbn; [|done]. rewrite Hl. cbn. f_equal. apply Hfirst.
  - rewrite bool_decide_eq_true. destruct (bc_binding bind) as [b|]; split.
    + intros _. exists b. exact Hfirst.
    + by eexists.
    + by intros [? [=]].
    + intros (b & Hin & Hb). by destruct (Hfirst b Hin).
  - rewrite bool_decide_eq_true. intros [b Hb]. rewrite Hb in *. destruct Hfirst as [Hin Hs].
    rewrite Forall_forall in Hp. destruct (Hp b Hin) as (contents & pub & h & Ho & Hparse & Hk & Hn).
    rewrite Hs in Hparse. exists contents, pub, (sb_is_forwarding b). split; [done|]. split; [done|].
    intros Hnone. rewrite Hnone in Hd. destruct Hd as [_ ->]. by exists h.
  - destruct (sa_payload_destination auth) as [host|].
    + destruct Hd as (h & -> & -> & ? & ?). by exists h.
    + destruct Hd as [-> Hd]. split; [done|]. rewrite bool_decide_eq_false. intros Hnb.
      destruct (bc_binding bind) as [b|]; [by destruct Hnb|]. done.
Qed.

(** ** The parked set, from here *)

(** The parked set moves by its own operations. *)
Definition by_runs (l l' : LocalKeys) : Prop := exists ops, l' = parked_run ops l.
Definition parked_moves (s s' : Conn) : Prop := by_runs (ag_local s) (ag_local s').

Lemma parked_run_app ops ops' s : parked_run (ops ++ ops') s = parked_run ops' (parked_run ops s).
Proof. unfold parked_run. apply foldl_app. Qed.

#[local] Instance parked_moves_preorder : PreOrder parked_moves.
Proof.
  split; [intros s; by exists []|]. intros s1 s2 s3 [ops Ho] [ops' Ho']. exists (ops ++ ops').
  by rewrite parked_run_app, <- Ho.
Qed.

Lemma moves_local {A} (m : state LocalKeys A) op :
  (forall l, (m l).2 = parked_step op l) -> respects parked_moves (on_local m).
Proof. intros Hm s. exists [op]. rewrite on_local_run. cbn. by rewrite Hm. Qed.
Lemma moves_both {A} (m : state (LocalKeys * P) A) :
  (forall q, by_runs q.1 (m q).2.1) -> respects parked_moves (on_both m).
Proof.
  intros Hm s. specialize (Hm (ag_local s, ag_rest s)). unfold parked_moves, on_both.
  by destruct (m (ag_local s, ag_rest s)) as [a [l p]].
Qed.
Lemma moves_still {A} (m : state Conn A) : respects (same ag_local) m -> respects parked_moves m.
Proof. apply respects_mono. intros s s' Hs. exists []. exact Hs. Qed.

(** While an approver or a holder is asked, the set changes by its operations. *)
Hypothesis submit_runs : forall req q, by_runs q.1 (ap_Submit req q).2.1.
Hypothesis remote_runs : forall req data wrap q, by_runs q.1 (rk_RemoteSign req data wrap q).2.1.

#[local] Hint Extern 1 (respects parked_moves (on_both (ap_Submit _))) => apply moves_both, submit_runs : respects.
#[local] Hint Extern 1 (respects parked_moves (on_both (rk_RemoteSign _ _ _))) => apply moves_both, remote_runs : respects.
#[local] Hint Extern 1 (respects parked_moves (on_local LocalKeys_Refs)) => by apply (moves_local _ LRefs) : respects.
#[local] Hint Extern 1 (respects parked_moves (on_local (lookup_parked ?b))) => by apply (moves_local _ (LLookup b)) : respects.
#[local] Hint Extern 1 (respects parked_moves (on_local (LocalKeys_Add ?a ?p))) => by apply (moves_local _ (LAdd a p)) : respects.
#[local] Hint Extern 1 (respects parked_moves (on_local (LocalKeys_Remove ?b ?p))) => by apply (moves_local _ (LRemove b p)) : respects.
#[local] Hint Extern 1 (respects parked_moves (on_local (LocalKeys_RemoveAll ?p))) => by apply (moves_local _ (LRemoveAll p)) : respects.
#[local] Hint Extern 2 (respects parked_moves _) => apply moves_still; solve [eauto with respects] : respects.

Lemma parked_moves_step op s : parked_moves s (agent_step op s).
Proof.
  destruct op as [|key data flags|ty contents|added|key| | | |]; cbn [agent_step]; revert s.
  - change (respects parked_moves (Agent_List parks remote)). unfold Agent_List, advertised, allKeys. follow.
  - change (respects parked_moves (SignWithFlags parks remote peer key data flags)).
    unfold SignWithFlags, findKey, find_on_peer, buildRequest, requesterInfo, attachSessionContext, sign_here, signRemotely, load_signer.
    follow.
  - change (respects parked_moves (Extension ty contents)). unfold Extension. follow.
  - change (respects parked_moves (Agent_Add parks peer added)). unfold Agent_Add. follow.
  - change (respects parked_moves (Agent_Remove parks peer key)). unfold Agent_Remove. follow.
  - change (respects parked_moves (Agent_RemoveAll parks peer)). unfold Agent_RemoveAll. follow.
  - change (respects parked_moves Agent_Lock). unfold Agent_Lock. follow.
  - change (respects parked_moves Agent_Unlock). unfold Agent_Unlock. follow.
  - change (respects parked_moves Agent_Signers). unfold Agent_Signers. follow.
Qed.

(** Whatever a connection asks, and whatever happens while somebody is asked
    about it, the parked set only ever changes by the operations of the set:
    every state of it a connection can reach is one of its own runs, so its
    invariant holds under any connection. *)
Theorem agent_refines_parked ops (s : Conn) bound :
  parked_ok bound (ag_local s) ->
  exists parked_ops, ag_local (agent_run ops s) = parked_run parked_ops (ag_local s) /\
    parked_ok bound (ag_local (agent_run ops s)).
Proof.
  intros Ho. assert (parked_moves s (agent_run ops s)) as (po & Hpo).
  { clear Ho. revert s. induction ops as [|op ops IH]; intros s; [reflexivity|].
    etrans; [apply parked_moves_step|apply IH]. }
  exists po. split; [done|]. rewrite Hpo. by apply parked_run_ok.
Qed.

End Signing.
