(* ===== verification/AgentEngine.v ===== *)
(** * AgentEngine: the agent over the approval engine

    The engine of [Engine] as the agent's approver: each request the agent
    submits is decided by [Engine.submit], with what the race between the
    approvers comes to, and what the other connections do to the parked keys
    meanwhile, given by an oracle.  The interface's law is discharged for it,
    and the guarantees of the two components are joined. *)

From S2P Require Import Prelude.
From S2P Require Import GoText.
From S2P Require Import Proto.
From S2P Require Import Ssh.
From S2P Require Import Identity.
From S2P Require Import GitObject.
From S2P Require Import Asker.
From S2P Require Import Grants.
From S2P Require Import Prompt.
From S2P Require Import Inflight.
From S2P Require Import Engine.
From S2P Require Import EngineSpec.
From S2P Require Import Classify.
From S2P Require Import SessionBind.
From S2P Require Import Parked.
From S2P Require Import ParkedSpec.
From S2P Require Import KnownHosts.
From S2P Require Import Agent.
From S2P Require Import AgentSpec.

Local Open Scope Z_scope.
Local Open Scope ladulas_scope.

Section AgentEngine.
Context `{Unicode} `{LocalTime} `{Hashes} `{keys : PrivateKeys} `{lines : !KnownHostsParser}.
Context `{Codec ApprovalRequest} `{response : Codec ApprovalResponse} `{Codec Delegation} `{Codec Endorsement}.
Context {S : Type} `{GrantStore S} `{GrantUses S} `{DelegationStore S} `{EndorsementStore S}.
Context {R : Type}.
Context (e : Options).

(** The program around a connection: the engine, the oracle, and the rest. *)
Record Program := mk_Program {
  pg_engine : world (S := S);
  pg_race : nat -> verdict;
  pg_shown : nat -> option PresentedProject;
  pg_meanwhile : nat -> list parked_op;
  pg_asked : nat;
  pg_rest : R
}.

Definition asked_once (w : world (S := S)) (p : Program) : Program :=
  mk_Program w (pg_race p) (pg_shown p) (pg_meanwhile p) (Datatypes.S (pg_asked p)) (pg_rest p).

#[export] Instance engine_approver : Approver (LocalKeys * Program) := fun req '(l, p) =>
  let n := pg_asked p in
  let '(r, w) := SubmitSigned e req (pg_race p n) (pg_shown p n) (pg_engine p) in
  ((fst <$> r, prepared (pg_engine p) req), (parked_run (pg_meanwhile p n) l, asked_once w p)).

Lemma VerifyRequest_keeps req :
  same_question req (VerifyRequest req).1 /\ rq_ssh_auth (VerifyRequest req).1 = rq_ssh_auth req.
Proof.
  unfold VerifyRequest. destruct (rq_sshsig req) as [sig|] eqn:Es; [|done]. destruct (sg_git_context sig); [|done].
  destruct (Verify _ _ _) as [git' err].
  assert (same_question req (set_git_context git' req) /\ rq_ssh_auth (set_git_context git' req) = rq_ssh_auth req) as Hk.
  { unfold rq_sshsig, rq_ssh_auth in *. unfold set_git_context. destruct (rq_operation req) eqn:Eo; try done. }
  by destruct err.
Qed.

Lemma prepared_keeps (w : world (S := S)) req :
  same_question req (prepared w req) /\ rq_ssh_auth (prepared w req) = rq_ssh_auth req.
Proof.
  unfold prepared. destruct (VerifyRequest_keeps (numbered w req)) as [Hq Ha].
  rewrite Ha. unfold numbered in *. split.
  - unfold same_question in *. destruct Hq as (-> & -> & -> & -> & -> & ->). repeat (case_bool_decide || case_match); done.
  - repeat (case_bool_decide || case_match); done.
Qed.

#[export] Instance engine_approver_laws : ApproverLaws (LocalKeys * Program).
Proof.
  intros req [l p]. unfold ap_Submit, engine_approver. destruct (SubmitSigned _ _ _ _ _) as [r w]. apply prepared_keeps.
Qed.

(** ** What a submission that approves is made of *)

(** What is done to a response once it is decided. *)
Lemma stamped_decision (r0 : ApprovalResponse) id digest own (w : world (S := S)) r1 w1 :
  (let resp := set_binding id digest r0 in
   let resp := match rs_approver resp with None => set_approver own resp | Some _ => resp end in
   match rs_decided_at resp with
   | None => t ← now; mret (set_decided_at (Some t) resp)
   | Some _ => mret resp
   end) w = (r1, w1) ->
  rs_decision r1 = rs_decision r0 /\ w_trace w1 = w_trace w.
Proof. cbn zeta. repeat case_match; intros Hr; unfold now, mbind, state_bind, mret, state_ret in Hr; by injection Hr as <- <-. Qed.

Lemma submit_run msg body origin v shown w resp signed w' :
  submit e (Some msg) body origin v shown w = (Ok (resp, signed), w') ->
  rs_decision resp = DECISION_APPROVE ->
  exists problem req policy w3 resp0 remote0 req' w4 remote text mid,
    problem = (VerifyRequest (numbered w msg)).2 /\ q_Msg req = prepared w msg /\ q_Origin req = origin /\
    decide e req policy problem v w3 = ((resp0, remote0, req'), w4) /\ rs_decision resp0 = DECISION_APPROVE /\
    w_trace w' = w_trace w ++ [EfAudit (entry_request (prepared w msg))] ++ mid ++
      [EfAudit (entry_decision (prepared w msg) resp signed remote text shown)].
Proof.
  intros Hs Hd. unfold submit in Hs. rewrite state_bind_unfold in Hs.
  match type of Hs with context [(?m w).1] => destruct (m w) as [msg1 w1] eqn:Hw1 end. cbn [fst snd] in Hs.
  rewrite state_bind_unfold in Hs.
  match type of Hs with context [(?m w1).1] => destruct (m w1) as [msg2 w2] eqn:Hw2 end. cbn [fst snd] in Hs.
  destruct (prepare_run msg w w1 msg1 w2 msg2 Hw1 Hw2) as [Ht2 ->]. clear Hw1 Hw2.
  pose proof (surjective_pairing (VerifyRequest (numbered w msg))) as Hp. fold (prepared w msg) in Hp. rewrite Hp in Hs. clear Hp.
  destruct (Marshal (prepared w msg)) as [display|err]; [|by injection Hs].
  rewrite state_bind_unfold in Hs. cbn [gets fst snd] in Hs. rewrite state_bind_unfold in Hs.
  match type of Hs with context [logEntry ?en w2] =>
    pose proof (logEntry_run en w2) as Hlog; destruct (logEntry en w2) as [[] w3] end.
  cbn [fst snd] in Hlog, Hs. rewrite state_bind_unfold in Hs.
  match type of Hs with context [decide e ?q ?p ?pr v w3] =>
    destruct (emits_decide_any e q p pr v w3) as (mid & Hmid & _);
    destruct (decide e q p pr v w3) as [[[r0 rem0] req'] w4] eqn:Hdec; set (req := q) in *; set (policy := p) in * end.
  cbn [fst snd] in Hmid, Hs. rewrite state_bind_unfold in Hs.
  match type of Hs with context [(?m w4).1] => destruct (m w4) as [r1 w5] eqn:Hw5 end.
  apply stamped_decision in Hw5 as [Hr1 Ht5]. cbn [fst snd] in Hs. rewrite state_bind_unfold in Hs.
  destruct (SignApproval (op_Identity e) (Some r1)) as [sa|err].
  - cbn [mret state_ret fst snd] in Hs. rewrite state_bind_unfold in Hs. injection Hs as <- <- <-.
    exists (VerifyRequest (numbered w msg)).2, req, policy, w3, r0, rem0, req', w4, rem0, (Text (q_Prompt req')), mid.
    split; [done|]. split; [done|]. split; [done|]. split; [exact Hdec|]. split; [congruence|].
    cbn [w_trace]. by rewrite Ht5, Hmid, Hlog, Ht2, <- !app_assoc.
  - exfalso. rewrite !state_bind_unfold in Hs. cbn in Hs. injection Hs as <- _ _. done.
Qed.

(** An approval that must not be given unasked was answered. *)
Lemma approved_by_answer req policy problem v w resp remote req' w' :
  decide e req policy problem v w = ((resp, remote, req'), w') ->
  rs_decision resp = DECISION_APPROVE ->
  rq_kind (q_Msg req) <> KIND_OPAQUE_SIGN /\
  (mustPrompt (q_Msg req) <> emp -> exists h an, v = Answered h (Some an) /\ an_Decision an = DECISION_APPROVE).
Proof.
  unfold decide. case_bool_decide as Hk; [by intros [= <- <- <- <-]|]. intros Hdec Ha. split; [done|]. intros Hm. revert Hdec.
  case_bool_decide; [by intros [= <- <- <- <-]|]. destruct (rq_grant_only _ && _); [by intros [= <- <- <- <-]|].
  case_bool_decide; [by intros [= <- <- <- <-]|]. rewrite (bool_decide_eq_false_2 (mustPrompt (q_Msg req) = emp)) by done.
  rewrite state_bind_unfold. cbn [mret state_ret fst snd]. rewrite state_bind_unfold.
  match goal with |- context [prompt e ?q policy v w] => destruct (prompt e q policy v w) as [[r rem] w2] eqn:Hpr end.
  cbn [fst snd mret state_ret]. intros [= <- <- <- <-]. apply prompt_approves in Hpr as (h & an & -> & Hd & _); [|done].
  by exists h, an.
Qed.

(** Nothing is approved that was found not to be what is signed. *)
Lemma approved_unproblematic req policy problem v w resp remote req' w' :
  decide e req policy problem v w = ((resp, remote, req'), w') -> rs_decision resp = DECISION_APPROVE -> problem = emp.
Proof.
  unfold decide. case_bool_decide; [by intros [= <- <- <- <-]|].
  case_bool_decide as Hp; [by intros [= <- <- <- <-]|]. done.
Qed.

(** ** The agent and the engine together *)

Context `{!HostSystem Program} `{!Process Program} `{!KeyStore Program} `{!RemoteKeys Program (LocalKeys * Program)}.
Variables (parks remote : bool) (peer : option ClientProcess).

(** The engine of the program around a connection. *)
Definition engine_of (s : Agent (P := Program)) : world (S := S) := pg_engine (ag_rest s).

(** Made with the key that was found: by the signer the store has for its
    fingerprint once the request was approved, or by the one a parked key's
    cell makes then; over these bytes, with the algorithm the request names. *)
Definition made_with (found : foundKey) (req' : ApprovalRequest) (data : bytes) (sig : Signature)
    (s' : Agent (P := Program)) : Prop :=
  exists signer,
    match found with
    | keyParked _ listed cell _ => signer = parked_signer (lo_memory (ag_local s')) listed cell
    | keyInStore ref | keyOnPeer ref => ks_Signer (kr_fingerprint ref) (ag_rest s') = Ok signer
    end /\
    signWithAlgorithm signer data (rq_signature_algorithm req') = Ok sig.

Lemma engine_signed found req req' data sig (s s' : Agent (P := Program)) :
  signed_here found req req' data sig (around s) (around s') ->
  made_with found req' data sig s' /\
  exists resp signed remote text mid,
    rs_decision resp = DECISION_APPROVE /\
    w_trace (engine_of s') = w_trace (engine_of s) ++ [EfAudit (entry_request req')] ++ mid ++
      [EfAudit (entry_decision req' resp signed remote text (pg_shown (ag_rest s) (pg_asked (ag_rest s))))] /\
    same_question req req' /\ rq_ssh_auth req' = rq_ssh_auth req /\ rq_kind req' <> KIND_OPAQUE_SIGN /\
    (mustPrompt req' <> emp -> exists h an,
       pg_race (ag_rest s) (pg_asked (ag_rest s)) = Answered h (Some an) /\ an_Decision an = DECISION_APPROVE).
Proof.
  intros (resp & signer & Hs & Hd & Hsigner & Hsig). split; [by exists signer|]. clear Hsigner Hsig.
  unfold ap_Submit, engine_approver, around in Hs.
  destruct (SubmitSigned _ _ _ _ _) as [[[resp0 signed]|err] w] eqn:Es; [|by injection Hs].
  cbn in Hs. injection Hs as <- <- Hl Hp. unfold engine_of. rewrite <- Hp. cbn [asked_once pg_engine].
  destruct (prepared_keeps (pg_engine (ag_rest s)) req) as [Hq Ha].
  destruct (submit_run _ _ _ _ _ _ _ _ _ Es Hd) as (problem & rq & policy & w3 & r0 & rem0 & rq' & w4 & remote0 & text & mid
    & _ & Hm & _ & Hdec & Hd0 & Ht).
  destruct (approved_by_answer _ _ _ _ _ _ _ _ _ Hdec Hd0) as [Hk Hans]. rewrite Hm in *.
  by exists resp0, signed, remote0, text, mid.
Qed.

(** C4. With the engine as its approver, a signature the agent makes with a key held
    here is made over the bytes it was given, by the signer of the key it was
    asked to sign with - of the store, or parked - and with the algorithm the
    flags ask for; and it stands in the engine's log as an approved decision on
    a request for that key, of the kind of those bytes and with their digest,
    logged while the signature was being made; and a request that must be put
    to somebody - forwarded, or for a key parked to be confirmed - was answered
    with yes. *)
Theorem signature_in_the_log key data flags sig (s s' : Agent (P := Program)) :
  SignWithFlags parks remote peer key data flags s = (Ok sig, s') ->
  exists found s1 s2 req',
    findKey parks remote key s = (Ok found, s1) /\ (buildRequest peer found data flags s1).2 = s2 /\
    ag_signed s' = ag_signed s ++ [(req', found_ref found)] /\
    rq_key req' = Some (found_ref found) /\ rq_payload_sha256 req' = sha256 data /\
    rq_kind req' = cl_Kind (Classify data) /\ rq_local_key req' = found_note found /\
    rq_signature_algorithm req' = algorithmForFlags (kr_algorithm (found_ref found)) flags /\
    match found with
    | keyOnPeer _ => signed_there req' data sig (around s2) (around s')
    | keyInStore _ | keyParked _ _ _ _ =>
        (forall bound, parked_ok bound (ag_local s) -> kr_public_key (found_ref found) = ssh_Marshal key) /\
        made_with found req' data sig s' /\
        rq_kind req' <> KIND_OPAQUE_SIGN /\
        (exists resp signed remote text mid,
           rs_decision resp = DECISION_APPROVE /\
           w_trace (engine_of s') = w_trace (engine_of s2) ++ [EfAudit (entry_request req')] ++ mid ++
             [EfAudit (entry_decision req' resp signed remote text (pg_shown (ag_rest s2) (pg_asked (ag_rest s2))))]) /\
        (mustPrompt req' <> emp -> exists h an,
           pg_race (ag_rest s2) (pg_asked (ag_rest s2)) = Answered h (Some an) /\ an_Decision an = DECISION_APPROVE)
    end.
Proof.
  intros Hs. pose proof (SignWithFlags_run parks remote peer key data flags s) as Hr. rewrite Hs in Hr.
  destruct Hr as (found & s1 & Hf & Hr). destruct (buildRequest_run peer found data flags s1) as (Hk & Hkey & Hp & _ & Halg & Hn & _).
  pose proof (fun bound => findKey_spec parks remote bound key s) as Hfind. cbv zeta in Hfind. rewrite Hf in Hfind.
  destruct (buildRequest peer found data flags s1) as [req s2] eqn:Eb. cbn [fst] in *.
  destruct Hr as (req' & Hl & Hr). exists found, s1, s2, req'. split; [done|]. split; [by rewrite Eb|]. split; [done|].
  assert (match found with keyOnPeer _ => req' = req | _ => same_question req req' end) as Hq.
  { destruct found; [| |by destruct Hr]; apply engine_signed in Hr as (_ & ? & ? & ? & ? & ? & _ & _ & Hq & _); exact Hq. }
  assert (rq_key req' = rq_key req /\ rq_payload_sha256 req' = rq_payload_sha256 req /\ rq_kind req' = rq_kind req /\
          rq_local_key req' = rq_local_key req /\ rq_signature_algorithm req' = rq_signature_algorithm req) as (-> & -> & -> & -> & ->).
  { destruct found; [| |by rewrite Hq]; destruct Hq as (-> & -> & -> & -> & -> & _); done. }
  do 5 (split; [done|]).
  assert (match found with keyOnPeer _ => True | _ => forall bound, parked_ok bound (ag_local s) ->
    kr_public_key (found_ref found) = ssh_Marshal key end) as Hpub.
  { destruct found; [| |done]; intros bound Hb; specialize (Hfind bound Hb); [by destruct Hfind as (_ & ? & _)|].
    by destruct Hfind as (_ & _ & _ & k & ky & p & _ & _ & _ & _ & ? & _). }
  destruct found; [| |by destruct Hr as [-> ?]];
    apply engine_signed in Hr as (Hmade & resp & signed & remote0 & text & mid & Hd & Ht & (Hqk & _) & _ & Hop & Hans);
    (split; [exact Hpub|]); (split; [exact Hmade|]);
    (split; [congruence|]); (split; [by exists resp, signed, remote0, text, mid|exact Hans]).
Qed.

(** C11. A login on a connection that is forwarded anywhere up to the session it is
    for, with a key held here, is signed only if somebody answered yes: not by
    a policy, not by a promise, not by the session that parked the key. *)
Theorem forwarded_login_asks key data flags auth sig (s s' : Agent (P := Program)) :
  cl_SSHAuth (Classify data) = Some auth ->
  bc_forwarded (context (ag_binds s) (Some (sa_session_id auth))) = true ->
  SignWithFlags parks remote peer key data flags s = (Ok sig, s') ->
  match findKey parks remote key s with
  | (Ok (keyOnPeer _), _) => True
  | (Ok found, s1) =>
      let s2 := (buildRequest peer found data flags s1).2 in
      exists h an, pg_race (ag_rest s2) (pg_asked (ag_rest s2)) = Answered h (Some an) /\
        an_Decision an = DECISION_APPROVE
  | (Err _, _) => False
  end.
Proof.
  intros Hc Hfw Hs. pose proof (SignWithFlags_run parks remote peer key data flags s) as Hr. rewrite Hs in Hr.
  destruct Hr as (found & s1 & Hf & Hr). rewrite Hf. pose proof (binds_findKey parks remote key s) as Hb. rewrite Hf in Hb.
  destruct (Classify_auth data auth Hc) as [Hsid Hdest].
  destruct (build_login peer found data flags s1 auth Hc) as (sa & Hsa & Hop).
  destruct (attach_run auth sa Hsid Hdest) as (payload & dest & label & Hat & _). rewrite Hsa in Hat. cbn [snd] in Hb. rewrite Hb in Hat.
  destruct (buildRequest peer found data flags s1) as [req s2]. cbn [fst snd] in *. destruct Hr as (req' & _ & Hr).
  assert (rq_ssh_auth req' = rq_ssh_auth req -> mustPrompt req' <> emp) as Hm.
  { intros Heq. unfold mustPrompt. rewrite Heq. unfold rq_ssh_auth at 1. rewrite Hop, Hat. cbn. by rewrite Hfw. }
  destruct found; [| |done]; apply engine_signed in Hr as (_ & ? & ? & ? & ? & ? & _ & _ & _ & Ha & _ & Hans);
    apply Hans, Hm, Ha.
Qed.

End AgentEngine.

(** ** A concrete program *)

Import Toy.
Import ToyKeys.

Module ToyAgent.

(** Codecs that answer one fixed body, for runs that never read one back. *)
#[export] Instance any_request : Codec ApprovalRequest | 0 := toy_any.
#[export] Instance any_response : Codec ApprovalResponse | 0 := toy_any.
#[export] Instance any_delegation : Codec Delegation | 0 := toy_any.
#[export] Instance any_endorsement : Codec Endorsement | 0 := toy_any.

Abbreviation program := (Program (S := toy_store) (R := unit)).

#[export] Instance no_known_hosts : KnownHostsParser := fun _ => Err (errors_New "no line").
#[export] Instance host_system : HostSystem program := {|
  sys_now p := (100, p);
  sys_ReadFile _ p := (Err (errors_New "no file"), p) |}.
#[export] Instance process : Process program := {|
  pc_identity _ := Some (mk_RequesterInfo "SHA256:me" "me" false false emp None);
  pc_random p := (of_string "0123456789", p) |}.

(** The store holds one key, and nobody lends any. *)
Definition stored : KeyRef := mk_KeyRef "SHA256:k" "toy" [x6b] "stored" emp None.
#[export] Instance key_store : KeyStore program := {|
  ks_KeyRefs _ := [stored];
  ks_Signer fp _ := if bool_decide (fp = "SHA256:k"%string) then Ok (Toy.signer [x6b]) else Err (errors_New "no key") |}.
#[export] Instance no_peers : RemoteKeys program (LocalKeys * program) := {|
  rk_RemoteKeyRefs _ := [];
  rk_RefreshKeys p := (tt, p);
  rk_BorrowedKey _ _ := None;
  rk_RemoteSign _ _ _ q := (Err (errors_New "nobody"), q) |}.

#[export] Instance engine : Approver (LocalKeys * program) := engine_approver toy_options.

Definition say_yes : Answer :=
  mk_Answer DECISION_APPROVE emp 0 GrantReachSession None SOURCE_UNSPECIFIED None.

(** Everything is asked of somebody at the desk, who says yes while the other
    connections do [meanwhile]. *)
Definition toy_program (meanwhile : list parked_op) : program :=
  mk_Program (toy_world []) (fun _ => Answered desk (Some say_yes)) (fun _ => None) (fun _ => meanwhile) 0 tt.

Definition connection (binds : bindings) (meanwhile : list parked_op) : Agent (P := program) :=
  mk_Agent binds (NewKnownHosts []) toy_set (toy_program meanwhile) [] [].

Definition pub (key : bytes) : PublicKey := key.

(** A forwarded connection to the session of the payload. *)
Definition forwarded_bind : SessionBinding := mk_SessionBinding None toy_session true true 0.

Definition sign_login (key : bytes) (binds : bindings) (meanwhile : list parked_op) :=
  SignWithFlags true false None key toy_hostbound 0 (connection binds meanwhile).

End ToyAgent.
Import ToyAgent.

(** A stored key signs what it is asked to, and the signature verifies. *)
Example stored_key_signs :
  match sign_login [x6b] [forwarded_bind] [] with
  | (Ok sig, s') => ssh_Verify ([x6b] : PublicKey) toy_hostbound sig = None /\ length (ag_signed s') = 1%nat
  | _ => False
  end.
Proof. vm_compute. split; reflexivity. Qed.

(** A parked key that is forgotten while the question is put is used all the
    same: the signer found before is kept, and what it signs with then is
    whatever the wiped memory holds.  The signature is no signature of the key,
    and it is reported as made. *)
Example forgotten_key_still_signs :
  match sign_login [x01] [] [LForget "tsh"] with
  | (Ok sig, s') => ssh_Verify ([x01] : PublicKey) toy_hostbound sig <> None /\
      map blob_of (lo_keys (ag_local s')) = [[x02]] /\ length (ag_signed s') = 1%nat
  | _ => False
  end.
Proof. vm_compute. split; [discriminate|split; reflexivity]. Qed.

(** A run that ended well, taken apart. *)
Definition run_value {A W} (d : A) (x : result A * W) : A := match x.1 with Ok a => a | Err _ => d end.
Lemma run_value_ok {A W} (d : A) (x : result A * W) : is_ok x.1 = true -> x = (Ok (run_value d x), x.2).
Proof. by destruct x as [[a|e] w]. Qed.
Definition no_signature : Signature := mk_Signature emp [] [].

Lemma signature_in_the_log_witness :
  let run := sign_login [x6b] [forwarded_bind] [] in
  exists (found : foundKey) req', ag_signed run.2 = [] ++ [(req', found_ref found)] /\
    rq_payload_sha256 req' = sha256 toy_hostbound.
Proof.
  destruct (signature_in_the_log toy_options true false None (pub [x6b]) toy_hostbound 0
    (run_value no_signature (sign_login [x6b] [forwarded_bind] [])) (connection [forwarded_bind] [])
    (sign_login [x6b] [forwarded_bind] []).2) as (found & s1 & s2 & req' & _ & _ & Hl & _ & Hp & _).
  - refine (run_value_ok no_signature (sign_login [x6b] [forwarded_bind] []) _). vm_compute. reflexivity.
  - exists found, req'. split; [exact Hl|exact Hp].
Defined.

Lemma forwarded_login_asks_witness :
  match findKey true false (pub [x6b]) (connection [forwarded_bind] []) with
  | (Ok (keyOnPeer _), _) => True
  | (Ok found, s1) =>
      let s2 := (buildRequest None found toy_hostbound 0 s1).2 in
      exists h an, pg_race (ag_rest s2) (pg_asked (ag_rest s2)) = Answered h (Some an) /\
        an_Decision an = DECISION_APPROVE
  | (Err _, _) => False
  end.
Proof.
  apply (forwarded_login_asks toy_options true false None (pub [x6b]) toy_hostbound 0 toy_auth
    (run_value no_signature (sign_login [x6b] [forwarded_bind] [])) (connection [forwarded_bind] [])
    (sign_login [x6b] [forwarded_bind] []).2).
  - vm_compute. reflexivity.
  - vm_compute. reflexivity.
  - refine (run_value_ok no_signature (sign_login [x6b] [forwarded_bind] []) _). vm_compute. reflexivity.
Defined.

(** ** Witnesses of [AgentSpec] *)

Definition is_parked (r : result foundKey) : bool := match r with Ok (keyParked _ _ _ _) => true | _ => false end.

Lemma findKey_spec_witness :
  is_parked (findKey true false (pub [x02]) (connection [] [])).1 = true /\
  match findKey true false (pub [x02]) (connection [] []) with
  | (Ok (keyParked ref _ _ _), _) => kr_public_key ref = [x02]
  | _ => True
  end.
Proof.
  split; [vm_compute; reflexivity|].
  pose proof (findKey_spec true false DefaultLocalKeyLimit (pub [x02]) (connection [] []) (started 0 None toy_clock toy_ops)) as Hf.
  cbv zeta in Hf. destruct (findKey true false (pub [x02]) (connection [] [])) as [[[ref|ref listed cell note|ref]|e] s']; try exact I.
  destruct Hf as (_ & _ & _ & k & key & p & _ & _ & _ & _ & Hk & _). exact Hk.
Defined.

Lemma List_spec_witness :
  NoDup (map ls_Blob (Agent_List true false (connection [] [])).1) /\
  length (Agent_List true false (connection [] [])).1 = 4%nat.
Proof.
  split; [|vm_compute; reflexivity].
  refine (proj1 (List_spec true false (connection [] []) _)). apply NoDup_singleton.
Defined.

Lemma Agent_Remove_spec_witness :
  (Agent_Remove true None (pub [x6b]) (connection [] [])).1 = Some ErrManagedKey /\
  [x02] ∉ map blob_of (lo_keys (ag_local (Agent_Remove true None (pub [x02]) (connection [] [])).2)).
Proof.
  destruct (Agent_Remove_spec true None DefaultLocalKeyLimit (pub [x6b]) (connection [] []) (started 0 None toy_clock toy_ops))
    as (_ & _ & _ & _ & Hs & _).
  destruct (Agent_Remove_spec true None DefaultLocalKeyLimit (pub [x02]) (connection [] []) (started 0 None toy_clock toy_ops))
    as (_ & _ & _ & _ & _ & Hn & _).
  split; [exact Hs|exact Hn].
Defined.

Definition bound_run : Agent (P := program) :=
  agent_run true false None [OExtension SessionBindExtension toy_bind] (connection [] []).
Definition bound_auth : SshAuthRequest :=
  match rq_operation (buildRequest None (keyInStore stored) toy_hostbound 0 bound_run).1 with
  | OpSshAuth a => a
  | _ => toy_auth
  end.

Lemma login_context_proven_witness :
  sa_session_id bound_auth = toy_session /\ length (sa_binding_chain bound_auth) = 1%nat.
Proof.
  split; [|vm_compute; reflexivity].
  refine (proj1 (login_context_proven true false None [OExtension SessionBindExtension toy_bind] (connection [] [])
    (keyInStore stored) toy_hostbound 0 toy_auth bound_auth _ _ _)); vm_compute; reflexivity.
Defined.

Lemma agent_refines_parked_witness :
  parked_ok DefaultLocalKeyLimit
    (ag_local (agent_run true false None [OSign (pub [x6b]) toy_hostbound 0; ORemove (pub [x02])] (connection [] [LForget "tsh"]))).
Proof.
  assert (forall req (q : LocalKeys * program), by_runs q.1 (ap_Submit req q).2.1) as Hs.
  { intros req [l p]. exists (pg_meanwhile p (pg_asked p)). unfold ap_Submit, engine, engine_approver.
    by destruct (SubmitSigned _ _ _ _ _). }
  assert (forall req data wrap (q : LocalKeys * program), by_runs q.1 (rk_RemoteSign req data wrap q).2.1) as Hr.
  { intros req data wrap q. by exists []. }
  destruct (agent_refines_parked true false None Hs Hr [OSign (pub [x6b]) toy_hostbound 0; ORemove (pub [x02])]
    (connection [] [LForget "tsh"]) DefaultLocalKeyLimit (started 0 None toy_clock toy_ops)) as (po & _ & Ho).
  exact Ho.
Defined.
