(* ===== verification/Access.v ===== *)
(** * Access: who a call comes from, and what it may do

    The chokepoints every handler of [pkg/peer] goes through: [authorize] and
    [pairedPeer] of [peer.go] and [handover.go], [publisherFor] of
    [projects.go], and the cap on decisions in flight of [load.go].

    A [node] here is the part of the source's node those handlers share: the
    store behind [n.trust], [n.delegations] and [n.endorsements], when each
    peer last spoke, the decisions each has in flight, the goroutines started
    to pass retractions on, and the rest of the program. *)

From S2P Require Import Prelude.
From S2P Require Import Rules.
From S2P Require Import GoText.
From S2P Require Import Proto.
From S2P Require Import Ssh.
From S2P Require Import Rpc.
From S2P Require Import Trust.
From S2P Require Import Vault.

Local Open Scope Z_scope.
Local Open Scope ladulas_scope.

Record node {P : Type} := mk_node {
  n_vault : vault;
  n_seen : gmap string time;
  n_load : gmap string Z;
  n_gossip : list (option SignedRetraction * Retraction);
  n_rest : P
}.
Arguments node : clear implicits.

Section Access.
Context `{Unicode} `{Ssh} {P : Type}.

Definition set_seen (m : gmap string time) (n : node P) : node P :=
  mk_node P (n_vault n) m (n_load n) (n_gossip n) (n_rest n).
Definition set_load (m : gmap string Z) (n : node P) : node P :=
  mk_node P (n_vault n) (n_seen n) m (n_gossip n) (n_rest n).

(** A call on the store. *)
Definition on_vault {A} (m : state vault A) : state (node P) A := fun n =>
  let '(a, v) := m (n_vault n) in (a, mk_node P v (n_seen n) (n_load n) (n_gossip n) (n_rest n)).

(** A call on the engine, which works on the store as well. *)
Definition on_engine {A} (m : state (vault * P) A) : state (node P) A := fun n =>
  let '(a, (v, p)) := m (n_vault n, n_rest n) in (a, mk_node P v (n_seen n) (n_load n) (n_gossip n) p).

(** [go n.gossipRetraction(...)]. *)
Definition go_gossip (signed : option SignedRetraction) (r : Retraction) : state (node P) unit := modify (fun n =>
  mk_node P (n_vault n) (n_seen n) (n_load n) (n_gossip n ++ [(signed, r)]) (n_rest n)).

(** [n.trust.Peer]. *)
Definition trust_Peer (ref : string) (v : vault) : option TrustRecord :=
  find_first (fun r => MatchesRef r ref) (v_peers v).

Definition saw (fingerprint : string) : state (node P) unit :=
  now ← on_vault Now;
  modify (fun n => set_seen (<[fingerprint := now]> (n_seen n)) n).

Definition not_paired (peer : PeerIdentity) : rpc_error :=
  mk_rpc_error CodePermissionDenied (errors_New (pi_Fingerprint peer +:+ " is not a paired peer")).

Definition pairedPeer (peer : option PeerIdentity) : state (node P) (reply (PeerIdentity * TrustRecord)) :=
  match peer with
  | None => mret (inr unauthenticated)
  | Some peer =>
    record ← gets (fun n => trust_Peer (pi_Fingerprint peer) (n_vault n));
    match record with
    | None => mret (inr (not_paired peer))
    | Some record => mret (inl (peer, record))
    end
  end.

Definition authorize (peer : option PeerIdentity) : state (node P) (reply (PeerIdentity * TrustRecord)) :=
  match peer with
  | None => mret (inr unauthenticated)
  | Some peer =>
    record ← gets (fun n => trust_Peer (pi_Fingerprint peer) (n_vault n));
    match record with
    | None => mret (inr (not_paired peer))
    | Some record =>
      if negb (tr_may_request record)
      then mret (inr (mk_rpc_error CodePermissionDenied (errors_New (quote (tr_name record) +:+
             " is paired, but " +:+ Describe (tr_may_approve record) (tr_may_request record)))))
      else _ ← saw (pi_Fingerprint peer); mret (inl (peer, record))
    end
  end.

Definition publisherFor (peer : option PeerIdentity) : state (node P) (reply (PeerIdentity * TrustRecord)) :=
  match peer with
  | None => mret (inr unauthenticated)
  | Some peer =>
    record ← gets (fun n => trust_Peer (pi_Fingerprint peer) (n_vault n));
    match record with
    | None => mret (inr (not_paired peer))
    | Some record =>
      if negb (tr_may_approve record)
      then mret (inr (mk_rpc_error CodePermissionDenied (errors_New (quote (tr_name record) +:+
             " does not approve for this instance, so it has no documentation of ours to read"))))
      else _ ← saw (pi_Fingerprint peer); mret (inl (peer, record))
    end
  end.

(** ** [load.go] *)

Definition maxDecisionsPerPeer : Z := 16.

Definition load_acquire (fingerprint : string) (m : gmap string Z) : bool * gmap string Z :=
  let count := default 0 (m !! fingerprint) in
  if maxDecisionsPerPeer <=? count then (false, m)
  else (true, <[fingerprint := count + 1]> m).

Definition load_release (fingerprint : string) (m : gmap string Z) : gmap string Z :=
  let count := default 0 (m !! fingerprint) in
  if count <=? 1 then delete fingerprint m else <[fingerprint := count - 1]> m.

Definition acquire (fingerprint : string) : state (node P) bool := fun n =>
  let '(b, m) := load_acquire fingerprint (n_load n) in (b, set_load m n).
Definition release (fingerprint : string) : state (node P) unit :=
  modify (fun n => set_load (load_release fingerprint (n_load n)) n).

Definition too_many : rpc_error :=
  mk_rpc_error CodeResourceExhausted (errors_New "too many requests are already pending from this peer").

(** ** What the chokepoints establish *)

Lemma trust_Peer_Some ref v r : trust_Peer ref v = Some r -> r ∈ v_peers v /\ MatchesRef r ref = true.
Proof. intros Hr. by apply find_first_elem in Hr. Qed.

(** Somebody let in is paired, in the direction asked for, and nothing but the
    time it was seen has changed. *)
Definition let_in (allowed : TrustRecord -> bool) (peer : option PeerIdentity) (id : PeerIdentity)
    (record : TrustRecord) (n n' : node P) : Prop :=
  peer = Some id /\ trust_Peer (pi_Fingerprint id) (n_vault n) = Some record /\ allowed record = true /\
  n' = mk_node P (Now (n_vault n)).2 (<[pi_Fingerprint id := (Now (n_vault n)).1]> (n_seen n)) (n_load n)
         (n_gossip n) (n_rest n).

Lemma authorize_let_in peer n id record n' :
  authorize peer n = (inl (id, record), n') -> let_in tr_may_request peer id record n n'.
Proof.
  unfold authorize. destruct peer as [peer|]; [|done]. rewrite state_bind_unfold. cbn [gets fst snd].
  destruct (trust_Peer _ _) as [r|] eqn:Er; [|done]. destruct (tr_may_request r) eqn:Em; [|done].
  cbn [negb]. rewrite state_bind_unfold. intros [= <- <- <-]. done.
Qed.

Lemma publisherFor_let_in peer n id record n' :
  publisherFor peer n = (inl (id, record), n') -> let_in tr_may_approve peer id record n n'.
Proof.
  unfold publisherFor. destruct peer as [peer|]; [|done]. rewrite state_bind_unfold. cbn [gets fst snd].
  destruct (trust_Peer _ _) as [r|] eqn:Er; [|done]. destruct (tr_may_approve r) eqn:Em; [|done].
  cbn [negb]. rewrite state_bind_unfold. intros [= <- <- <-]. done.
Qed.

(** A caller turned away has changed nothing. *)
Lemma authorize_refused peer n e n' : authorize peer n = (inr e, n') -> n' = n.
Proof.
  unfold authorize. destruct peer as [peer|]; [|by intros [= _ <-]]. rewrite state_bind_unfold. cbn [gets fst snd].
  destruct (trust_Peer _ _) as [r|] eqn:Er; [|by intros [= _ <-]].
  destruct (tr_may_request r) eqn:Em; cbn [negb]; [by rewrite state_bind_unfold|by intros [= _ <-]].
Qed.
Lemma publisherFor_refused peer n e n' : publisherFor peer n = (inr e, n') -> n' = n.
Proof.
  unfold publisherFor. destruct peer as [peer|]; [|by intros [= _ <-]]. rewrite state_bind_unfold. cbn [gets fst snd].
  destruct (trust_Peer _ _) as [r|] eqn:Er; [|by intros [= _ <-]].
  destruct (tr_may_approve r) eqn:Em; cbn [negb]; [by rewrite state_bind_unfold|by intros [= _ <-]].
Qed.

End Access.
