(* ===== verification/Promises.v ===== *)
(** * Promises: standing permissions crossing between machines

    [pkg/peer/delegations.go] and [endorsements.go]: what a machine does with a
    promise that arrives, how approver and requester reconcile what was done
    and what was taken back, and how endorsements and retractions travel
    between the holders of a key.  Both ends are here: the handlers a peer's
    call reaches, and the calls made to a peer, through [InboxPeers] and
    [KeyPeers]. *)

From S2P Require Import Prelude.
From S2P Require Import Rules.
From S2P Require Import GoText.
From S2P Require Import Proto.
From S2P Require Import Ssh.
From S2P Require Import Identity.
From S2P Require Import Rpc.
From S2P Require Import Trust.
From S2P Require Import Vault.
From S2P Require Import Access.

Local Open Scope Z_scope.
Local Open Scope ladulas_scope.

(** ** The messages of these calls, [service.proto] *)

Record ReconcileGrantsRequest := mk_ReconcileGrantsRequest {
  rg_revoked_delegation_ids : list string;
  rg_acknowledged_request_ids : list string;
  rg_renewed_delegations : list SignedDelegation
}.
Record ReconcileGrantsResponse := mk_ReconcileGrantsResponse {
  rr_uses : list GrantUse;
  rr_held_delegation_ids : list string
}.
Record PublishEndorsementResponse := mk_PublishEndorsementResponse {
  pe_accepted : bool;
  pe_reason : string;
  pe_retractions : list (option SignedRetraction)
}.
Record PublishRetractionResponse := mk_PublishRetractionResponse {
  pt_accepted : bool;
  pt_reason : string
}.

(** Calls to a peer through [n.call], for the inbox service.  While one is out
    the rest of this machine runs, so a call acts on the store here too. *)
Class InboxPeers (W : Type) := {
  ip_ReconcileGrants : TrustRecord -> ReconcileGrantsRequest -> state (vault * W) (result ReconcileGrantsResponse);
  ip_ReportGrantUse : TrustRecord -> list GrantUse -> state (vault * W) (result (list string))
}.

(** Calls to the holder of a key through its link, for the key service. *)
Class KeyPeers (W : Type) := {
  pp_PublishEndorsement : string -> SignedEndorsement -> state W (result PublishEndorsementResponse);
  pp_PublishRetraction : string -> option SignedRetraction -> state W (result PublishRetractionResponse)
}.

(** [KeyHolders] of the store: the machines it has reason to believe hold a
    key; and a signer for one held here. *)
Class KeyHolders `{Ssh} (P : Type) := {
  kh_KeyHolders : string -> P -> list string;
  kh_Signer : string -> P -> result Signer
}.


Section Promises.
Context `{Unicode} `{Hashes} `{Ssh} `{Codec Delegation} `{Codec Endorsement} `{Codec Retraction}.
Context {P : Type}.

(** [n.identity], and whether [n.delegations] and [n.endorsements] are set. *)
Context (self : Identity) (delegations endorsements : bool).

Implicit Types (record : TrustRecord) (peer : option PeerIdentity).

Definition me : string := Fingerprint self.

(** ** Keeping a delegation *)

Definition acceptDelegation record (key : PublicKey) (resp : ApprovalResponse) : state vault unit :=
  match rs_delegation resp with
  | None => mret tt
  | Some signed =>
    if negb delegations then mret tt
    else
      match VerifyDelegation (Some signed) with
      | Err _ => mret tt
      | Ok (d, pub) =>
        if bool_decide (ssh_Marshal pub <> ssh_Marshal key) then mret tt
        else if bool_decide (dl_requester_fingerprint d <> me) then mret tt
        else if negb (tr_may_approve record) then mret tt
        else _ ← AddDelegation (Some signed) d; mret tt
      end
  end.

(** A response with nothing but a delegation on it. *)
Definition only_delegation (signed : SignedDelegation) : ApprovalResponse :=
  mk_ApprovalResponse emp [] DECISION_UNSPECIFIED SOURCE_UNSPECIFIED None None emp None (Some signed) None false.

Definition acceptRenewedDelegation record (signed : SignedDelegation) : state vault unit :=
  match ParsePublicKey (tr_identity_public_key record) with
  | Err _ => mret tt
  | Ok key => acceptDelegation record key (only_delegation signed)
  end.

Fixpoint acceptRenewed record (l : list SignedDelegation) : state vault unit :=
  match l with
  | [] => mret tt
  | signed :: l' => _ ← acceptRenewedDelegation record signed; acceptRenewed record l'
  end.

(** ** The approver is told *)

Definition delegated_to (fingerprint : string) (g : Grant) : bool :=
  gr_delegated g && bool_decide (gr_delegate_fingerprint g = fingerprint).

Definition recordReported record (uses : list GrantUse) : state vault (result (list string)) :=
  match uses with
  | [] => mret (Ok [])
  | _ :: _ =>
    grants ← Grants;
    match grants with
    | Err e => mret (Err (wrap_w "read the grants: " e emp))
    | Ok grants =>
      let theirs := map gr_grant_id (List.filter (delegated_to (tr_fingerprint record)) grants) in
      let kept := List.filter (fun use => bool_decide (gu_grant_id use ∈ theirs)) uses in
      failed ← RecordGrantUses kept;
      match failed with
      | Some e => mret (Err (wrap_w ("record what " +:+ tr_name record +:+ " did: ") e emp))
      | None => mret (Ok (map gu_request_id kept))
      end
    end
  end.

Definition ReportGrantUse peer (uses : list GrantUse) : state (node P) (reply (list string)) :=
  found ← pairedPeer peer;
  match found with
  | inr e => mret (inr e)
  | inl (_, record) =>
    if negb delegations then mret (inl [])
    else
      recorded ← on_vault (recordReported record uses);
      match recorded with
      | Err e => mret (inr (mk_rpc_error CodeInternal e))
      | Ok ids => mret (inl ids)
      end
  end.

(** ** The requester reconciles *)

Definition dropRevoked record (ids : list string) : state vault (result Z) :=
  held ← Delegations;
  match held with
  | Err e => mret (Err (wrap_w "read the delegations: " e emp))
  | Ok held =>
    let mine := map (fun h => (kd_delegation h)⇢dl_delegation_id) (List.filter (fun h =>
      bool_decide ((kd_delegation h)⇢dl_approver_fingerprint = tr_fingerprint record)) held) in
    let theirs := List.filter (fun id => bool_decide (id ∈ mine)) ids in
    dropped ← DropDelegations theirs;
    mret (err_ctx "drop the delegations: " dropped)
  end.

(** What a requester answers with: the uses it has not reported and the
    delegations it holds from the peer that asked. *)
Definition account record : state vault (result ReconcileGrantsResponse) :=
  held ← Delegations;
  match held with
  | Err e => mret (Err e)
  | Ok held =>
    uses ← UnreportedUses (tr_fingerprint record);
    mret (Ok (mk_ReconcileGrantsResponse uses
      (map (fun h => (kd_delegation h)⇢dl_delegation_id) (List.filter (fun h =>
        bool_decide ((kd_delegation h)⇢dl_approver_fingerprint = tr_fingerprint record)) held))))
  end.

(** [ReconcileGrants] once the caller is known. *)
Definition reconciled record (req : ReconcileGrantsRequest) : state vault (result ReconcileGrantsResponse) :=
  dropped ← (match rg_revoked_delegation_ids req with
             | [] => mret (Ok 0)
             | ids => dropRevoked record ids
             end);
  match dropped with
  | Err e => mret (Err e)
  | Ok _ =>
    failed ← AcknowledgeUses (rg_acknowledged_request_ids req);
    match failed with
    | Some e => mret (Err e)
    | None => _ ← acceptRenewed record (rg_renewed_delegations req); account record
    end
  end.

Definition ReconcileGrants peer (req : ReconcileGrantsRequest)
    : state (node P) (reply ReconcileGrantsResponse) :=
  found ← publisherFor peer;
  match found with
  | inr e => mret (inr e)
  | inl (_, record) =>
    if negb delegations then mret (inl (mk_ReconcileGrantsResponse [] []))
    else
      answer ← on_vault (reconciled record req);
      match answer with
      | Err e => mret (inr (mk_rpc_error CodeInternal e))
      | Ok resp => mret (inl resp)
      end
  end.

(** Whether this instance owes a peer an account. *)
Definition HasGrantActivityFor (approver : string) : state vault bool :=
  if negb delegations then mret false
  else uses ← UnreportedUses approver; mret (negb (bool_decide (uses = []))).

(** ** The approver reconciles *)

Section Calls.
Context {W : Type} `{!InboxPeers W}.

Definition tellReconciled record (revoked acknowledged : list string) (renewed : list SignedDelegation)
    : state (vault * W) (option error) :=
  answer ← ip_ReconcileGrants record (mk_ReconcileGrantsRequest revoked acknowledged renewed);
  match answer with
  | Err e => mret (Some (wrap_w ("finish reconciling with " +:+ tr_name record +:+ ": ") e emp))
  | Ok _ => mret None
  end.

Fixpoint revoke_each (ids : list string) : state vault unit :=
  match ids with
  | [] => mret tt
  | id :: ids' => _ ← RevokeGrant id; revoke_each ids'
  end.

Definition finishPendingRevocations (fingerprint : string) : state vault unit :=
  ids ← PendingRevocations fingerprint;
  revoke_each ids.

(** The grants delegated to a peer that still stand. *)
Definition standing (fingerprint : string) (grants : list Grant) : list Grant :=
  List.filter (fun g => delegated_to fingerprint g && negb (gr_revoke_pending g)) grants.

Definition reconcileWith record : state (vault * W) (option error) :=
  if negb delegations then mret None
  else
    grants ← here Grants;
    match grants with
    | Err e => mret (Some (wrap_w "read the grants: " e emp))
    | Ok grants =>
      let standing := standing (tr_fingerprint record) grants in
      let live := map gr_grant_id standing in
      let acknowledged := concat (map (fun g => map gu_request_id (gr_recent_uses g)) standing) in
      answer ← ip_ReconcileGrants record (mk_ReconcileGrantsRequest [] acknowledged []);
      match answer with
      | Err e => mret (Some (wrap_w ("reconcile with " +:+ tr_name record +:+ ": ") e emp))
      | Ok resp =>
        let revoked := List.filter (fun id => negb (bool_decide (id ∈ live))) (rr_held_delegation_ids resp) in
        failed ← here (RecordGrantUses (rr_uses resp));
        match failed with
        | Some e => mret (Some (wrap_w ("record what " +:+ tr_name record +:+ " did: ") e emp))
        | None =>
          let received := map gu_request_id (rr_uses resp) in
          if bool_decide (revoked = []) && bool_decide (received = []) then mret None
          else
            told ← tellReconciled record revoked received [];
            match told with
            | Some e => mret (Some e)
            | None => _ ← here (finishPendingRevocations (tr_fingerprint record)); mret None
            end
        end
      end
    end.

(** Who holds a grant: the first record with its identifier says. *)
Definition RevokeDelegation (grantID : string) : state (vault * W) (result bool) :=
  if negb delegations then mret (Ok false)
  else
    grants ← here Grants;
    match grants with
    | Err e => mret (Err (wrap_w "read the grants: " e emp))
    | Ok grants =>
      match find_first (has_grant_id grantID) grants with
      | None => mret (Ok false)
      | Some g =>
        if negb (gr_delegated g) then mret (Ok false)
        else
          let holder := gr_delegate_fingerprint g in
          if bool_decide (holder = emp) then mret (Ok false)
          else
            peers ← here (gets v_peers);
            match find_first (fun r => bool_decide (tr_fingerprint r = holder)) peers with
            | Some record =>
              told ← tellReconciled record [grantID] [] [];
              match told with
              | Some e => mret (Err (wrap_w ("take the delegation back from " +:+ tr_name record +:+ ": ") e emp))
              | None => mret (Ok true)
              end
            | None => mret (Err (errors_New ("the delegation for " +:+ grantID +:+
                " is held by a peer this instance no longer knows")))
            end
      end
    end.

Definition RenewDelegation (holder : string) (signed : SignedDelegation) : state (vault * W) (option error) :=
  peers ← here (gets v_peers);
  match find_first (fun r => bool_decide (tr_fingerprint r = holder)) peers with
  | Some record =>
    told ← tellReconciled record [] [] [signed];
    mret ((fun e => wrap_w ("hand the extended promise to " +:+ tr_name record +:+ ": ") e emp) <$> told)
  | None => mret (Some (errors_New "the promise is held by a peer this instance no longer knows"))
  end.

(** What [PushGrantActivity] starts: report the uses, and forget the ones that
    were acknowledged. *)
Definition pushGrantActivity record (uses : list GrantUse) : state (vault * W) unit :=
  answer ← ip_ReportGrantUse record uses;
  match answer with
  | Err _ => mret tt
  | Ok acknowledged => _ ← here (AcknowledgeUses acknowledged); mret tt
  end.

(** [ours] is the tunnel version of this build. *)
Definition PushGrantActivity (ours : Z) (approver : string) : state (vault * W) unit :=
  if negb delegations || bool_decide (approver = emp) then mret tt
  else
    record ← here (gets (trust_Peer approver));
    match record with
    | None => mret tt
    | Some record =>
      if negb (Dialable (Some record) ours) then mret tt
      else
        uses ← here (UnreportedUses approver);
        match uses with [] => mret tt | _ :: _ => pushGrantActivity record uses end
    end.

End Calls.

(** ** Keeping an endorsement *)

(** The reason it could not be kept, empty when it was. *)
Definition keepEndorsement (signed : option SignedEndorsement) (e : Endorsement) (published : bool)
    : state vault string :=
  failed ← AddEndorsement signed e published;
  mret (match failed with Some err => e_msg err | None => emp end).

Definition accept_about (who : string) (signed : option SignedEndorsement) : state vault unit :=
  match signed with
  | None => mret tt
  | Some _ =>
    if negb endorsements then mret tt
    else
      match VerifyEndorsement signed with
      | Err _ => mret tt
      | Ok e =>
        if bool_decide (en_requester_fingerprint e <> who) then mret tt
        else _ ← keepEndorsement signed e false; mret tt
      end
  end.

Definition acceptEndorsement (signed : option SignedEndorsement) : state vault unit := accept_about me signed.
Definition acceptPresented (peerFingerprint : string) (signed : option SignedEndorsement) : state vault unit :=
  accept_about peerFingerprint signed.

Definition endorsementFor (keyFingerprint : string) : state vault (option SignedEndorsement) :=
  if negb endorsements || bool_decide (keyFingerprint = emp) then mret None
  else
    held ← Endorsements;
    match held with
    | Err _ => mret None
    | Ok held =>
      now ← Now;
      mret (match find_first (fun h =>
              bool_decide ((ke_endorsement h)⇢en_key_fingerprint = keyFingerprint) &&
              bool_decide ((ke_endorsement h)⇢en_requester_fingerprint = me) &&
              After (AsTime (ke_endorsement h)⇢en_expires_at) now) held with
            | Some h => ke_signed h
            | None => None
            end)
    end.

Definition PublishEndorsement peer (signed : option SignedEndorsement)
    : state (node P) (reply PublishEndorsementResponse) :=
  found ← authorize peer;
  match found with
  | inr e => mret (inr e)
  | inl _ =>
    if negb endorsements
    then mret (inl (mk_PublishEndorsementResponse false "this instance keeps no endorsements" []))
    else
      match VerifyEndorsement signed with
      | Err e => mret (inr (mk_rpc_error CodeInvalidArgument
                   (wrap_w "the endorsement does not verify: " e emp)))
      | Ok e =>
        reason ← on_vault (keepEndorsement signed e true);
        retractions ← on_vault (RetractionsForKey (en_key_fingerprint e));
        mret (inl (mk_PublishEndorsementResponse (bool_decide (reason = emp)) reason retractions))
      end
  end.

(** ** Taking one back *)

Definition PublishRetraction peer (signed : option SignedRetraction)
    : state (node P) (reply PublishRetractionResponse) :=
  found ← authorize peer;
  match found with
  | inr e => mret (inr e)
  | inl _ =>
    if negb endorsements
    then mret (inl (mk_PublishRetractionResponse false "this instance keeps no endorsements"))
    else
      match VerifyRetraction signed with
      | Err e => mret (inr (mk_rpc_error CodeInvalidArgument
                   (wrap_w "the retraction does not verify: " e emp)))
      | Ok r =>
        '(fresh, failed) ← on_vault (AddRetraction signed r);
        match failed with
        | Some e => mret (inr (mk_rpc_error CodeInternal (wrap_w "keep the retraction: " e emp)))
        | None =>
          _ ← when fresh (go_gossip signed r);
          mret (inl (mk_PublishRetractionResponse true emp))
        end
      end
  end.

Fixpoint keepRetractions (l : list (option SignedRetraction)) : state (node P) unit :=
  match l with
  | [] => mret tt
  | signed :: l' =>
    _ ← (match VerifyRetraction signed with
         | Err _ => mret tt
         | Ok r =>
           '(fresh, failed) ← on_vault (AddRetraction signed r);
           match failed with
           | Some _ => mret tt
           | None => when fresh (go_gossip signed r)
           end
         end);
    keepRetractions l'
  end.

(** *** Telling the other holders *)

Section Holders.
Context {W : Type} `{!KeyPeers W} `{!KeyHolders P}.

Definition holdersOf (keyFingerprint : string) (n : node P) : list string :=
  if negb endorsements then [] else kh_KeyHolders keyFingerprint (n_rest n).

(** The loop of [tellHolders]: those told and those not reached. *)
Fixpoint tell_each (skip : string) (call : string -> state (node P * W) (option error)) (holders : list string)
    : state (node P * W) (list string * list string) :=
  match holders with
  | [] => mret ([], [])
  | fingerprint :: holders' =>
    if bool_decide (fingerprint = skip) then tell_each skip call holders'
    else
      failed ← call fingerprint;
      '(told, unreached) ← tell_each skip call holders';
      mret (match failed with
            | Some _ => (told, fingerprint :: unreached)
            | None => (fingerprint :: told, unreached)
            end)
  end.

Definition tellHolders (keyFingerprint skip : string) (call : string -> state (node P * W) (option error))
    : state (node P * W) (list string * list string) :=
  holders ← here (gets (holdersOf keyFingerprint));
  tell_each skip call holders.

Definition call_retract (signed : option SignedRetraction) (fingerprint : string) : state (node P * W) (option error) :=
  answer ← there (pp_PublishRetraction fingerprint signed);
  mret (match answer with Err e => Some e | Ok _ => None end).

Definition call_endorse (signed : SignedEndorsement) (fingerprint : string) : state (node P * W) (option error) :=
  answer ← there (pp_PublishEndorsement fingerprint signed);
  match answer with
  | Err e => mret (Some e)
  | Ok resp => _ ← here (keepRetractions (pe_retractions resp)); mret None
  end.

(** [n.PublishEndorsement]: the issuing side. *)
Definition publish_endorsement (signed : SignedEndorsement) : state (node P * W) unit :=
  if negb endorsements then mret tt
  else
    match VerifyEndorsement (Some signed) with
    | Err _ => mret tt
    | Ok e =>
      '(told, unreached) ← tellHolders (en_key_fingerprint e) (en_requester_fingerprint e) (call_endorse signed);
      _ ← here (on_vault (NoteEndorsementReach (en_endorsement_id e) told unreached));
      mret tt
    end.

Fixpoint note_gossiped (id : string) (told : list string) : state vault unit :=
  match told with
  | [] => mret tt
  | fingerprint :: told' => _ ← NoteGossiped id fingerprint; note_gossiped id told'
  end.

Definition gossipRetraction (signed : option SignedRetraction) (r : Retraction) : state (node P * W) unit :=
  '(told, _) ← tellHolders (rt_key_fingerprint r) emp (call_retract signed);
  here (on_vault (note_gossiped (rt_retraction_id r) told)).

Definition endorsementExpiry (id : string) : state vault (option time) :=
  held ← Endorsements;
  mret (match held with
        | Err _ => None
        | Ok held =>
          (fun h => AsTime (ke_endorsement h)⇢en_expires_at) <$>
            find_first (fun h => bool_decide ((ke_endorsement h)⇢en_endorsement_id = id)) held
        end).

(** The retraction [Retract] signs: of one promise until an hour after it
    would have run out, or of every promise up to now for as long as the
    longest could run. *)
Definition retraction_for (id endorsementID keyFingerprint reason : string) (maxTTL : duration) (now : time)
    : state vault Retraction :=
  if bool_decide (endorsementID <> emp)
  then
    expires ← endorsementExpiry endorsementID;
    mret (mk_Retraction id keyFingerprint endorsementID None (Some now)
      (Some (default (now + maxTTL) expires + Hour)) me (id_name self) reason)
  else
    mret (mk_Retraction id keyFingerprint endorsementID (Some now) (Some now)
      (Some (now + maxTTL + Hour)) me (id_name self) reason).

Definition held_count (r : result (list HeldEndorsement)) : Z :=
  match r with Ok l => Z.of_nat (length l) | Err _ => 0 end.

(** [keys] says whether [n.keys] is set, [id] is what [identity.NewRequestID]
    drew. *)
Definition Retract (keys : bool) (id endorsementID keyFingerprint reason : string) (maxTTL : duration)
    : state (node P * W) (result (list string * list string * Z)) :=
  if negb endorsements || negb keys then mret (Err (errors_New "peer: this instance keeps no endorsements"))
  else
    now ← here (on_vault Now);
    r ← here (on_vault (retraction_for id endorsementID keyFingerprint reason maxTTL now));
    rest ← here (gets n_rest);
    match kh_Signer keyFingerprint rest with
    | Err e => mret (Err (wrap_w "peer: only a holder of the key can retract a promise about it: " e emp))
    | Ok signer =>
      match SignRetraction self (Some r) (Some signer) with
      | Err e => mret (Err (wrap_w "peer: sign the retraction: " e emp))
      | Ok signed =>
        before ← here (on_vault Endorsements);
        '(_, failed) ← here (on_vault (AddRetraction (Some signed) r));
        match failed with
        | Some e => mret (Err (wrap_w "peer: keep the retraction: " e emp))
        | None =>
          after ← here (on_vault Endorsements);
          '(told, unreached) ← tellHolders keyFingerprint emp (call_retract (Some signed));
          mret (Ok (told, unreached, held_count before - held_count after))
        end
      end
    end.

End Holders.

(** ** What revoking a pairing takes with it *)

Definition dropPeerDelegations record : state vault unit :=
  if negb delegations then mret tt
  else _ ← DropDelegationsFrom (tr_fingerprint record); mret tt.

Definition dropPeerEndorsements record : state vault unit :=
  if negb endorsements then mret tt
  else
    _ ← DropEndorsementsFrom (tr_fingerprint record);
    _ ← DropEndorsementsAbout (tr_fingerprint record);
    mret tt.

End Promises.
