(* ===== verification/PromisesSpec.v ===== *)
(** * PromisesSpec: what crosses between machines, and what it can change

    The theorems about [Promises].  Whatever peers send, what the store holds
    afterwards it held before or is signed the way it must be; a report can
    only touch the promises made to the machine that sends it; a
    reconciliation that says it succeeded leaves both machines in agreement,
    whatever was lost on the way to others; a retraction is in force at every
    holder that was told. *)

From S2P Require Import Prelude.
From S2P Require Import Rules.
From S2P Require Import GoText.
From S2P Require Import Proto.
From S2P Require Import Ssh.
From S2P Require Import Identity.
From S2P Require Import Rpc.
From S2P Require Import Trust.
From S2P Require Import Engine.
From S2P Require Import Vault.
From S2P Require Import VaultSpec.
From S2P Require Import Access.
From S2P Require Import Promises.

Local Open Scope Z_scope.
Local Open Scope ladulas_scope.

(** ** Runs of the store's operations *)

Section Runs.
Context `{Unicode}.

(** The store got from one state to another by operations of one sort. *)
Definition runs (Q : vault_op -> Prop) : relation vault := fun v v' =>
  exists os, Forall Q os /\ v' = vault_run_ops v os.

#[export] Instance runs_preorder Q : PreOrder (runs Q).
Proof.
  split.
  - intros v. by exists [].
  - intros v v1 v2 (os & Ho & ->) (os' & Ho' & ->). exists (os ++ os').
    split; [by apply Forall_app|]. unfold vault_run_ops. by rewrite foldl_app.
Qed.

Lemma runs_step Q o v : Q o -> runs Q v (vault_step v o).
Proof. intros Ho. exists [o]. split; [by apply Forall_singleton|done]. Qed.

Lemma runs_mono (Q Q' : vault_op -> Prop) v v' : (forall o, Q o -> Q' o) -> runs Q v v' -> runs Q' v v'.
Proof. intros Hq (os & Ho & ->). exists os. split; [|done]. eapply Forall_impl; [exact Ho|exact Hq]. Qed.

(** Every operation that neither takes anything in nor changes who is around. *)
Definition keeps (o : vault_op) : Prop :=
  match o with
  | OpAddGrant _ | OpReplaceGrant _ | OpMarkRevokePending _ _ | OpAddDelegation _ _ | OpAddEndorsement _ _ _
  | OpAddRetraction _ _ | OpPeers _ | OpKeys _ => False
  | _ => True
  end.

Lemma respects_op {A} (Q : vault_op -> Prop) (m : state vault A) o :
  (forall v, (m v).2 = vault_step v o) -> Q o -> respects (runs Q) m.
Proof. intros Hm Ho v. rewrite Hm. by apply runs_step. Qed.

Context (Q : vault_op -> Prop) (Hq : forall o, keeps o -> Q o).

Ltac by_op o := apply (respects_op Q _ o); [done|by apply Hq].

Lemma runs_Now : respects (runs Q) Now. Proof using Hq. by_op OpNow. Qed.
Lemma runs_Grants : respects (runs Q) Grants. Proof using Hq. by_op OpGrants. Qed.
Lemma runs_RevokeGrant id : respects (runs Q) (RevokeGrant id). Proof using Hq. by_op (OpRevokeGrant id). Qed.
Lemma runs_RecordGrantUses us : respects (runs Q) (RecordGrantUses us). Proof using Hq. by_op (OpRecordGrantUses us). Qed.
Lemma runs_Delegations : respects (runs Q) Delegations. Proof using Hq. by_op OpDelegations. Qed.
Lemma runs_DropDelegations ids : respects (runs Q) (DropDelegations ids). Proof using Hq. by_op (OpDropDelegations ids). Qed.
Lemma runs_AcknowledgeUses ids : respects (runs Q) (AcknowledgeUses ids). Proof using Hq. by_op (OpAcknowledgeUses ids). Qed.
Lemma runs_Endorsements : respects (runs Q) Endorsements. Proof using Hq. by_op OpEndorsements. Qed.
Lemma runs_Retractions : respects (runs Q) Retractions. Proof using Hq. by_op OpRetractions. Qed.

Lemma runs_UnreportedUses a : respects (runs Q) (UnreportedUses a).
Proof. apply respects_gets, _. Qed.
Lemma runs_RetractionsForKey k : respects (runs Q) (RetractionsForKey k).
Proof using Hq. apply respects_bind; [apply _|apply runs_Retractions|]. intros [l|e]; apply respects_ret, _. Qed.

End Runs.

#[export] Hint Resolve runs_Now runs_Grants runs_RevokeGrant runs_RecordGrantUses runs_Delegations
  runs_DropDelegations runs_AcknowledgeUses runs_Endorsements runs_UnreportedUses runs_RetractionsForKey : respects.

(** ** Nothing is held that was not signed *)

Lemma step_peers `{Unicode} v o : keeps o \/ (match o with OpPeers _ | OpKeys _ => False | _ => True end) ->
  v_peers (vault_step v o) = v_peers v.
Proof. destruct o; intros Ho; cbn [vault_step]; step_cases; try done; by destruct Ho. Qed.

(** What an update left alone came from the list. *)
Lemma update_first_came {A B} (p : A -> bool) (f : A -> A) (h : A -> B) l l' x :
  update_first p f l = Some l' -> x ∈ l' -> (forall x, h (f x) = h x) -> exists y, y ∈ l /\ h x = h y.
Proof.
  intros Hu Hin Hf. apply (list_elem_of_fmap_2 h) in Hin. change (fmap h l') with (map h l') in Hin.
  erewrite update_first_map in Hin by eauto. apply list_elem_of_fmap in Hin as (y & Hy & Hin). by exists y.
Qed.

(** What is true after merging a list into an element was true of it. *)
Lemma fold_back {A} (P : A -> Prop) (same : A -> bool) (f : A -> A -> A) all h0 :
  (forall held x, P (f held x) -> P held) ->
  P (foldl (fun held x => if same x then f held x else held) h0 all) -> P h0.
Proof.
  intros Hf. revert h0. induction all as [|x all IH]; intros h0; [done|]. cbn. intros Hp%IH. destruct (same x); eauto.
Qed.

Section Held.
Context `{Unicode}.

(** What is held after one operation was held before, or came with it. *)
Lemma held_delegation_step v o h : h ∈ v_held_delegations (vault_step v o) ->
  (exists h0, h0 ∈ v_held_delegations v /\ kd_signed h = kd_signed h0 /\ kd_delegation h = kd_delegation h0) \/
  (exists signed d, o = OpAddDelegation signed d /\ kd_signed h = signed /\ kd_delegation h = Some d).
Proof.
  assert (forall l : list HeldDelegation, h ∈ l -> exists h0, h0 ∈ l /\ kd_signed h = kd_signed h0 /\ kd_delegation h = kd_delegation h0)
    as Hself by eauto.
  destruct o; cbn [vault_step]; step_cases; intros Hin; try (by left; apply Hself);
    repeat match goal with Hx : _ ∈ List.filter _ _ |- _ => apply elem_of_filter_bool in Hx as [Hx _] end;
    try (by left; apply Hself).
  - apply elem_of_app in Hin as [[Hin _]%elem_of_filter_bool|Hin%list_elem_of_singleton]; [by left; apply Hself|].
    right. exists signed, d. split; [done|]. subst h.
    split; [apply (fold_keeps kd_signed)|apply (fold_keeps kd_delegation)]; done.
  - destruct (update_first_came _ _ (fun h => (kd_signed h, kd_delegation h)) _ _ _ E Hin (fun _ => eq_refl))
      as (h0 & Hin0 & [= Hs Hd]). left. by exists h0.
  - apply list_elem_of_fmap in Hin as (h0 & -> & Hin). left. by exists h0.
  - apply list_elem_of_fmap in Hin as (h0 & -> & Hin). left. by exists h0.
Qed.

Lemma held_endorsement_step v o h : h ∈ v_held_endorsements (vault_step v o) ->
  (exists h0, h0 ∈ v_held_endorsements v /\ ke_signed h = ke_signed h0 /\ ke_endorsement h = ke_endorsement h0 /\
     ke_published h = ke_published h0) \/
  (exists signed e published, o = OpAddEndorsement signed e published /\ ke_signed h = signed /\
     ke_endorsement h = Some e /\ (ke_published h = false -> published = false)).
Proof.
  assert (forall l : list HeldEndorsement, h ∈ l -> exists h0, h0 ∈ l /\ ke_signed h = ke_signed h0 /\
    ke_endorsement h = ke_endorsement h0 /\ ke_published h = ke_published h0) as Hself by eauto 10.
  destruct o; cbn [vault_step]; step_cases; intros Hin; try (by left; apply Hself);
    repeat match goal with Hx : _ ∈ List.filter _ _ |- _ => apply elem_of_filter_bool in Hx as [Hx _] end;
    try (by left; apply Hself).
  - apply elem_of_app in Hin as [[Hin _]%elem_of_filter_bool|Hin%list_elem_of_singleton]; [by left; apply Hself|].
    right. exists signed, e, published. split; [done|]. subst h.
    split; [|split]; [apply (fold_keeps ke_signed); done|apply (fold_keeps ke_endorsement); done|].
    intros Hp. apply (fold_back (fun h => ke_published h = false)) in Hp; [done|].
    intros held x [Hx _]%orb_false_iff. exact Hx.
  - destruct (update_first_came _ _ (fun h => (ke_signed h, ke_endorsement h, ke_published h)) _ _ _ E Hin (fun _ => eq_refl))
      as (h0 & Hin0 & [= Hs He Hp]). left. by exists h0.
  - apply list_elem_of_fmap in Hin as (h0 & -> & Hin). left. by exists h0.
  - apply list_elem_of_fmap in Hin as (h0 & -> & Hin). left. by exists h0.
Qed.

Lemma held_retraction_step v o h : h ∈ v_retractions (vault_step v o) ->
  (exists h0, h0 ∈ v_retractions v /\ kr_signed h = kr_signed h0 /\ kr_retraction h = kr_retraction h0) \/
  (exists signed r, o = OpAddRetraction signed r /\ kr_signed h = signed /\ kr_retraction h = Some r).
Proof.
  assert (forall l : list HeldRetraction, h ∈ l -> exists h0, h0 ∈ l /\ kr_signed h = kr_signed h0 /\
    kr_retraction h = kr_retraction h0) as Hself by eauto.
  destruct o; cbn [vault_step]; step_cases; intros Hin; try (by left; apply Hself);
    repeat match goal with Hx : _ ∈ List.filter _ _ |- _ => apply elem_of_filter_bool in Hx as [Hx _] end;
    try (by left; apply Hself).
  - apply elem_of_app in Hin as [Hin|Hin%list_elem_of_singleton]; [by left; apply Hself|].
    right. exists signed, r. by subst h.
  - destruct (update_first _ _ _) as [l|] eqn:Hu; [|by left; apply Hself].
    destruct (update_first_came _ _ (fun h => (kr_signed h, kr_retraction h)) _ _ _ Hu Hin (fun _ => eq_refl))
      as (h1 & Hin0 & [= Hs Hr]). left. by exists h1.
Qed.

End Held.

Section Calls.
Context `{Unicode} `{Hashes} `{Ssh} `{Codec Delegation} `{Codec Endorsement} `{Codec Retraction}.
Context {P : Type} (self : Identity) (delegations endorsements : bool).

(** Everything a peer, or an answer from one, can bring in. *)
Inductive promise_call :=
| CallReport (peer : option PeerIdentity) (uses : list GrantUse)
| CallReconcile (peer : option PeerIdentity) (req : ReconcileGrantsRequest)
| CallPublishEndorsement (peer : option PeerIdentity) (signed : option SignedEndorsement)
| CallPublishRetraction (peer : option PeerIdentity) (signed : option SignedRetraction)
| CallAnswer (ref : string) (resp : ApprovalResponse)
| CallBorrowed (signed : option SignedEndorsement)
| CallPresented (peer : string) (signed : option SignedEndorsement)
| CallHandedBack (l : list (option SignedRetraction)).

(** An answer is from the peer whose record and key it was checked against. *)
Definition answer_brings (ref : string) (resp : ApprovalResponse) : state vault unit :=
  record ← gets (trust_Peer ref);
  match record with
  | Some record =>
    match RecordKey record with
    | Ok key => acceptDelegation self delegations record key resp
    | Err _ => mret tt
    end
  | None => mret tt
  end.

Definition promise_step (c : promise_call) (n : node P) : node P :=
  match c with
  | CallReport peer uses => (ReportGrantUse delegations peer uses n).2
  | CallReconcile peer req => (ReconcileGrants self delegations peer req n).2
  | CallPublishEndorsement peer signed => (PublishEndorsement endorsements peer signed n).2
  | CallPublishRetraction peer signed => (PublishRetraction endorsements peer signed n).2
  | CallAnswer ref resp => (on_vault (answer_brings ref resp) n).2
  | CallBorrowed signed => (on_vault (acceptEndorsement self endorsements signed) n).2
  | CallPresented peer signed => (on_vault (acceptPresented endorsements peer signed) n).2
  | CallHandedBack l => (keepRetractions l n).2
  end.

(** A delegation signed by the identity key of a machine paired with this one
    that may approve for it, and made out to this machine. *)
Definition genuine (ps : list TrustRecord) (signed : option SignedDelegation) (d : Delegation) : Prop :=
  exists r key pub, r ∈ ps /\ tr_may_approve r = true /\ ParsePublicKey (tr_identity_public_key r) = Ok key /\
    VerifyDelegation signed = Ok (d, pub) /\ ssh_Marshal pub = ssh_Marshal key /\ dl_requester_fingerprint d = me self.

(** Who an endorsement that was not published is about: this machine, or the
    machine that presented it. *)
Definition addressed (cs : list promise_call) (signed : option SignedEndorsement) (e : Endorsement) : Prop :=
  en_requester_fingerprint e = me self \/ CallPresented (en_requester_fingerprint e) signed ∈ cs.

Definition brought (ps : list TrustRecord) (cs : list promise_call) (o : vault_op) : Prop :=
  match o with
  | OpAddDelegation signed d => genuine ps signed d
  | OpAddEndorsement signed e published =>
      VerifyEndorsement signed = Ok e /\ (published = false -> addressed cs signed e)
  | OpAddRetraction signed r => VerifyRetraction signed = Ok r
  | _ => keeps o
  end.

Lemma keeps_brought ps cs o : keeps o -> brought ps cs o.
Proof. by destruct o. Qed.
Hint Resolve keeps_brought : core.

Lemma respects_acceptDelegation ps cs record key resp :
  record ∈ ps -> ParsePublicKey (tr_identity_public_key record) = Ok key ->
  respects (runs (brought ps cs)) (acceptDelegation self delegations record key resp).
Proof.
  intros Hr Hk. unfold acceptDelegation. destruct (rs_delegation resp) as [signed|]; [|apply respects_ret, _].
  destruct (negb delegations); [apply respects_ret, _|].
  destruct (VerifyDelegation _) as [[d pub]|] eqn:Hv; [|apply respects_ret, _].
  case_bool_decide; [apply respects_ret, _|]. case_bool_decide; [apply respects_ret, _|].
  destruct (tr_may_approve record) eqn:Hm; [|apply respects_ret, _].
  apply respects_bind; [apply _| |intros; apply respects_ret, _].
  apply (respects_op _ _ (OpAddDelegation (Some signed) d)); [done|]. exists record, key, pub.
  by split_and!.
Qed.

Lemma respects_acceptRenewed ps cs record l :
  record ∈ ps -> respects (runs (brought ps cs)) (acceptRenewed self delegations record l).
Proof.
  intros Hr. induction l as [|signed l IH]; [apply respects_ret, _|].
  apply respects_bind; [apply _| |done]. unfold acceptRenewedDelegation.
  destruct (ParsePublicKey _) eqn:Hk; [by apply respects_acceptDelegation|apply respects_ret, _].
Qed.

Lemma respects_account ps cs record : respects (runs (brought ps cs)) (account record).
Proof.
  apply respects_bind; [apply _|by apply runs_Delegations; auto|]. intros [held|e]; [|apply respects_ret, _].
  apply respects_bind; [apply _|apply runs_UnreportedUses|]. intros; apply respects_ret, _.
Qed.

Lemma respects_dropRevoked ps cs record ids : respects (runs (brought ps cs)) (dropRevoked record ids).
Proof.
  apply respects_bind; [apply _|by apply runs_Delegations; auto|]. intros [held|e]; [|apply respects_ret, _].
  apply respects_bind; [apply _|by apply runs_DropDelegations; auto|]. intros; apply respects_ret, _.
Qed.

Lemma respects_reconciled ps cs record req :
  record ∈ ps -> respects (runs (brought ps cs)) (reconciled self delegations record req).
Proof.
  intros Hr. apply respects_bind; [apply _| |].
  - destruct (rg_revoked_delegation_ids req); [apply respects_ret, _|apply respects_dropRevoked].
  - intros [z|e]; [|apply respects_ret, _]. apply respects_bind; [apply _|by apply runs_AcknowledgeUses; auto|].
    intros [e|]; [apply respects_ret, _|]. apply respects_bind; [apply _|by apply respects_acceptRenewed|].
    intros _. apply respects_account.
Qed.

Lemma respects_recordReported ps cs record uses : respects (runs (brought ps cs)) (recordReported record uses).
Proof.
  destruct uses as [|u uses]; [apply respects_ret, _|].
  apply respects_bind; [apply _|by apply runs_Grants; auto|]. intros [l|e]; [|apply respects_ret, _].
  apply respects_bind; [apply _|by apply runs_RecordGrantUses; auto|]. intros [e|]; apply respects_ret, _.
Qed.

Lemma respects_keepEndorsement ps cs signed e published :
  VerifyEndorsement signed = Ok e -> (published = false -> addressed cs signed e) ->
  respects (runs (brought ps cs)) (keepEndorsement signed e published).
Proof.
  intros Hv Ha. apply respects_bind; [apply _| |intros; apply respects_ret, _].
  by apply (respects_op _ _ (OpAddEndorsement signed e published)).
Qed.

Lemma respects_accept_about ps cs who signed :
  who = me self \/ CallPresented who signed ∈ cs ->
  respects (runs (brought ps cs)) (accept_about endorsements who signed).
Proof.
  intros Hw. unfold accept_about. destruct signed as [signed|]; [|apply respects_ret, _].
  destruct (negb endorsements); [apply respects_ret, _|]. destruct (VerifyEndorsement _) as [e|] eqn:Hv; [|apply respects_ret, _].
  case_bool_decide as Hr; [apply respects_ret, _|].
  apply respects_bind; [apply _| |intros; apply respects_ret, _]. apply respects_keepEndorsement; [done|].
  intros _. unfold addressed. by rewrite Hr.
Qed.

Lemma respects_AddRetraction ps cs signed r :
  VerifyRetraction signed = Ok r -> respects (runs (brought ps cs)) (AddRetraction signed r).
Proof. intros Hv. by apply (respects_op _ _ (OpAddRetraction signed r)). Qed.

(** *** The handlers *)

Definition vault_runs (Q : vault_op -> Prop) : relation (node P) := fun n n' => runs Q (n_vault n) (n_vault n').

#[local] Instance vault_runs_preorder Q : PreOrder (vault_runs Q).
Proof. split; unfold vault_runs; [intros n; reflexivity|]. intros n n1 n2 Hn Hn1. by etrans. Qed.

Lemma respects_on_vault {A} Q (m : state vault A) : respects (runs Q) m -> respects (vault_runs Q) (on_vault (P := P) m).
Proof. intros Hm n. unfold vault_runs, on_vault. specialize (Hm (n_vault n)). by destruct (m (n_vault n)). Qed.

Lemma respects_go_gossip Q signed r : respects (vault_runs Q) (go_gossip (P := P) signed r).
Proof. intros n. unfold vault_runs. reflexivity. Qed.

Lemma respects_kept ps cs signed r : VerifyRetraction signed = Ok r ->
  respects (vault_runs (brought ps cs)) (on_vault (P := P) (AddRetraction signed r)).
Proof. intros Hv. by apply respects_on_vault, respects_AddRetraction. Qed.

Lemma respects_keepRetractions ps cs l : respects (vault_runs (brought ps cs)) (keepRetractions (P := P) l).
Proof.
  induction l as [|signed l IH]; [apply respects_ret, _|]. apply respects_bind; [apply _| |done].
  destruct (VerifyRetraction signed) as [r|] eqn:Hv; [|apply respects_ret, _].
  apply respects_bind; [apply _|by apply respects_kept|]. intros [fresh [e|]]; [apply respects_ret, _|].
  apply respects_when; [apply _|apply respects_go_gossip].
Qed.

(** Being let in only reads the clock. *)
Lemma let_in_runs allowed peer id record (n n' : node P) Q :
  (forall o, keeps o -> Q o) -> let_in allowed peer id record n n' ->
  vault_runs Q n n' /\ record ∈ v_peers (n_vault n) /\ allowed record = true.
Proof.
  intros Hq (_ & Hr%trust_Peer_Some & Ha & ->). split; [|by destruct Hr]. unfold vault_runs. cbn [n_vault].
  by apply runs_Now.
Qed.

Lemma pairedPeer_same peer (n : node P) : (pairedPeer peer n).2 = n.
Proof.
  unfold pairedPeer. destruct peer as [p|]; [|done]. rewrite state_bind_unfold. cbn [gets fst snd].
  by destruct (trust_Peer _ _).
Qed.

Ltac handler := rewrite state_bind_unfold.

Lemma call_runs c cs n : c ∈ cs ->
  vault_runs (brought (v_peers (n_vault n)) cs) n (promise_step c n).
Proof.
  intros Hc. remember (v_peers (n_vault n)) as ps eqn:Hps. destruct c as [peer uses|peer req|peer signed|peer signed|ref resp|signed|peer signed|l]; cbn [promise_step].
  - unfold ReportGrantUse. handler. pose proof (pairedPeer_same peer n) as Hs.
    destruct (pairedPeer peer n) as [[[id record]|e] n1]; cbn [fst snd] in *; subst n1; [|reflexivity].
    destruct (negb delegations); [reflexivity|].
    apply respects_bind; [apply _|apply respects_on_vault, respects_recordReported|].
    intros [ids|e]; apply respects_ret, _.
  - unfold ReconcileGrants. handler. destruct (publisherFor peer n) as [[[id record]|e] n1] eqn:Hp; cbn [fst snd].
    + apply publisherFor_let_in in Hp. apply (let_in_runs _ _ _ _ _ _ (brought ps cs)) in Hp as (Hn & Hr & _); [|auto].
      rewrite <- Hps in Hr.
      etrans; [exact Hn|]. destruct (negb delegations); [reflexivity|].
      apply respects_bind; [apply _|by apply respects_on_vault, respects_reconciled|].
      intros [ids|e]; apply respects_ret, _.
    + apply publisherFor_refused in Hp as ->. reflexivity.
  - unfold PublishEndorsement. handler. destruct (authorize peer n) as [[[id record]|e] n1] eqn:Hp; cbn [fst snd].
    + apply authorize_let_in in Hp. apply (let_in_runs _ _ _ _ _ _ (brought ps cs)) in Hp as (Hn & Hr & _); [|auto].
      rewrite <- Hps in Hr.
      etrans; [exact Hn|]. destruct (negb endorsements); [reflexivity|].
      destruct (VerifyEndorsement signed) as [e|] eqn:Hv; [|reflexivity].
      apply respects_bind; [apply _|by apply respects_on_vault, respects_keepEndorsement|].
      intros reason. apply respects_bind; [apply _|by apply respects_on_vault, runs_RetractionsForKey; auto|].
      intros; apply respects_ret, _.
    + apply authorize_refused in Hp as ->. reflexivity.
  - unfold PublishRetraction. handler. destruct (authorize peer n) as [[[id record]|e] n1] eqn:Hp; cbn [fst snd].
    + apply authorize_let_in in Hp. apply (let_in_runs _ _ _ _ _ _ (brought ps cs)) in Hp as (Hn & Hr & _); [|auto].
      rewrite <- Hps in Hr.
      etrans; [exact Hn|]. destruct (negb endorsements); [reflexivity|].
      destruct (VerifyRetraction signed) as [r|] eqn:Hv; [|reflexivity].
      apply respects_bind; [apply _|by apply respects_kept|]. intros [fresh [e|]]; [apply respects_ret, _|].
      apply respects_bind; [apply _| |intros; apply respects_ret, _].
      apply respects_when; [apply _|apply respects_go_gossip].
    + apply authorize_refused in Hp as ->. reflexivity.
  - unfold vault_runs, on_vault, answer_brings. rewrite state_bind_unfold. cbn [gets fst snd].
    destruct (trust_Peer ref (n_vault n)) as [r|] eqn:Hr; [|by destruct n]. apply trust_Peer_Some in Hr as [Hin _]. rewrite <- Hps in Hin.
    destruct (RecordKey r) as [key|] eqn:Hk; [|by destruct n].
    assert (ParsePublicKey (tr_identity_public_key r) = Ok key) as Hkey.
    { unfold RecordKey in Hk. apply result_bind_Ok in Hk as (pub & Hp%err_ctx_Ok & Hk). by case_bool_decide; simplify_eq. }
    pose proof (respects_acceptDelegation ps cs r key resp Hin Hkey (n_vault n)) as Ha.
    by destruct (acceptDelegation _ _ _ _ _ _).
  - apply respects_on_vault, respects_accept_about. by left.
  - apply respects_on_vault, respects_accept_about. by right.
  - apply respects_keepRetractions.
Qed.

(** *** Any number of calls *)

Definition promise_run (cs : list promise_call) (n : node P) : node P := foldl (fun n c => promise_step c n) n cs.

Lemma brought_peers ps cs v v' : runs (brought ps cs) v v' -> v_peers v' = v_peers v.
Proof.
  intros (os & Ho & ->). revert v. induction Ho as [|o os Ho _ IH]; intros v; [done|].
  change (vault_run_ops v (o :: os)) with (vault_run_ops (vault_step v o) os). rewrite IH. apply step_peers.
  destruct o; cbn in Ho |- *; tauto.
Qed.

Lemma run_runs cs l n : (forall c, c ∈ l -> c ∈ cs) ->
  vault_runs (brought (v_peers (n_vault n)) cs) n (promise_run l n).
Proof.
  remember (v_peers (n_vault n)) as ps eqn:Hps. revert n Hps. induction l as [|c l IH]; intros n Hps Hl; [reflexivity|].
  assert (vault_runs (brought ps cs) n (promise_step c n)) as Hc.
  { rewrite Hps. apply call_runs, Hl. by left. }
  etrans; [exact Hc|]. apply IH; [by rewrite (brought_peers _ _ _ _ Hc)|]. intros c' Hc'. apply Hl. by right.
Qed.

Lemma held_after {h} os v : h ∈ v_held_delegations (vault_run_ops v os) ->
  (exists h0, h0 ∈ v_held_delegations v /\ kd_signed h = kd_signed h0 /\ kd_delegation h = kd_delegation h0) \/
  (exists d, OpAddDelegation (kd_signed h) d ∈ os /\ kd_delegation h = Some d).
Proof.
  revert h. induction os as [|o os IH] using rev_ind; intros h Hh; [left; eauto|].
  unfold vault_run_ops in Hh. rewrite foldl_app in Hh. cbn in Hh. fold (vault_run_ops v os) in Hh.
  apply held_delegation_step in Hh as [(h0 & Hin & Hs & Hd)|(signed & d & -> & <- & Hd)].
  - apply IH in Hin as [(h1 & Hin & Hs' & Hd')|(d & Ho & Hd')].
    + left. exists h1. split_and!; [done|congruence..].
    + right. exists d. rewrite Hs, elem_of_app. split; [by left|congruence].
  - right. exists d. split; [|done]. apply elem_of_app. right. by apply list_elem_of_singleton.
Qed.

Lemma endorsed_after {h} os v : h ∈ v_held_endorsements (vault_run_ops v os) ->
  (exists h0, h0 ∈ v_held_endorsements v /\ ke_signed h = ke_signed h0 /\ ke_endorsement h = ke_endorsement h0) \/
  (exists e published, OpAddEndorsement (ke_signed h) e published ∈ os /\ ke_endorsement h = Some e /\
     (ke_published h = false -> published = false)).
Proof.
  revert h. induction os as [|o os IH] using rev_ind; intros h Hh; [left; eauto|].
  unfold vault_run_ops in Hh. rewrite foldl_app in Hh. cbn in Hh. fold (vault_run_ops v os) in Hh.
  apply held_endorsement_step in Hh as [(h0 & Hin & Hs & He & Hp)|(signed & e & published & -> & <- & He & Hp)].
  - apply IH in Hin as [(h1 & Hin & Hs' & He')|(e & published & Ho & He' & Hp')].
    + left. exists h1. split_and!; [done|congruence..].
    + right. exists e, published. rewrite Hs, Hp, elem_of_app. split_and!; [by left|congruence|done].
  - right. exists e, published. split_and!; [|done..]. apply elem_of_app. right. by apply list_elem_of_singleton.
Qed.

Lemma retracted_after {h} os v : h ∈ v_retractions (vault_run_ops v os) ->
  (exists h0, h0 ∈ v_retractions v /\ kr_signed h = kr_signed h0 /\ kr_retraction h = kr_retraction h0) \/
  (exists r, OpAddRetraction (kr_signed h) r ∈ os /\ kr_retraction h = Some r).
Proof.
  revert h. induction os as [|o os IH] using rev_ind; intros h Hh; [left; eauto|].
  unfold vault_run_ops in Hh. rewrite foldl_app in Hh. cbn in Hh. fold (vault_run_ops v os) in Hh.
  apply held_retraction_step in Hh as [(h0 & Hin & Hs & Hd)|(signed & d & -> & <- & Hd)].
  - apply IH in Hin as [(h1 & Hin & Hs' & Hd')|(d & Ho & Hd')].
    + left. exists h1. split_and!; [done|congruence..].
    + right. exists d. rewrite Hs, elem_of_app. split; [by left|congruence].
  - right. exists d. split; [|done]. apply elem_of_app. right. by apply list_elem_of_singleton.
Qed.

(** C12. Whatever the peers of a machine send it and in whatever order, what its
    store holds afterwards it held before, or is signed as it must be: a
    delegation by the identity key of a paired machine that may approve for
    this one, and made out to this one; an endorsement by its issuer and by the
    key it is about, and one nobody published is about this machine or about
    the very machine that presented it; a retraction by its issuer and by the
    key. *)
Theorem promises_come_signed cs n :
  let v := n_vault n in
  let v' := n_vault (promise_run cs n) in
  (forall h, h ∈ v_held_delegations v' ->
     (exists h0, h0 ∈ v_held_delegations v /\ kd_signed h = kd_signed h0 /\ kd_delegation h = kd_delegation h0) \/
     (exists d, kd_delegation h = Some d /\ genuine (v_peers v) (kd_signed h) d)) /\
  (forall h, h ∈ v_held_endorsements v' ->
     (exists h0, h0 ∈ v_held_endorsements v /\ ke_signed h = ke_signed h0 /\ ke_endorsement h = ke_endorsement h0) \/
     (exists e, ke_endorsement h = Some e /\ VerifyEndorsement (ke_signed h) = Ok e /\
        (ke_published h = false -> addressed cs (ke_signed h) e))) /\
  (forall h, h ∈ v_retractions v' ->
     (exists h0, h0 ∈ v_retractions v /\ kr_signed h = kr_signed h0 /\ kr_retraction h = kr_retraction h0) \/
     (exists r, kr_retraction h = Some r /\ VerifyRetraction (kr_signed h) = Ok r)).
Proof.
  intros v v'. destruct (run_runs cs cs n) as (os & Ho & Hv); [done|]. fold v v' in Ho, Hv. rewrite Forall_forall in Ho.
  rewrite Hv. split_and!.
  - intros h [?|(d & Hin%Ho & Hd)]%held_after; [by left|right; by exists d].
  - intros h [?|(e & published & [Hve Ha]%Ho & He & Hp)]%endorsed_after; [by left|right]. exists e. auto.
  - intros h [?|(r & Hin%Ho & Hr)]%retracted_after; [by left|right; by exists r].
Qed.

End Calls.

(** ** A report touches the promises made to whoever sends it *)

Section Reports.
Context `{Unicode}.

Lemma Grants_kept v gs v' : Grants v = (Ok gs, v') ->
  v_grants v' = gs /\ (forall g, g ∈ gs -> g ∈ v_grants v) /\
  (NoDup (map gr_grant_id (v_grants v)) -> NoDup (map gr_grant_id gs)).
Proof.
  intros Hg. unfold Grants in Hg. revert Hg. vault_run. destruct (existsb _ _) eqn:E; vault_run;
    [destruct (v_disk _ _); vault_run; [done|]|]; intros [= <- <-]; cbn [v_grants].
  - split_and!; [done|by intros g [? _]%elem_of_filter_bool|apply NoDup_map_filter].
  - rewrite filter_all by done. split_and!; done.
Qed.

(** Filing a use leaves alone whatever is not filed under its identifier, and
    keeps identifiers and who a grant is delegated to. *)
Lemma record_uses_others us l g :
  g ∈ (foldl record_use (l, false) us).1 ->
  g ∈ l \/ exists g0 u, g0 ∈ l /\ u ∈ us /\ gr_grant_id g0 = gu_grant_id u /\ gr_grant_id g = gr_grant_id g0 /\
    gr_delegated g = gr_delegated g0 /\ gr_delegate_fingerprint g = gr_delegate_fingerprint g0.
Proof.
  revert g. induction us as [|u us IH] using rev_ind; intros g; [by left|].
  rewrite foldl_app. cbn [foldl]. destruct (foldl record_use (l, false) us) as [l1 c]. cbn [fst] in IH.
  unfold record_use. destruct (find_first _ l1) as [g1|] eqn:Hf; cbn [fst].
  2: { intros [?|(g0 & u0 & ? & ? & ?)]%IH; [by left|right; exists g0, u0; rewrite elem_of_app; tauto]. }
  destruct (hasUse _ _); cbn [fst].
  { intros [?|(g0 & u0 & ? & ? & ?)]%IH; [by left|right; exists g0, u0; rewrite elem_of_app; tauto]. }
  destruct (update_first _ _ l1) as [l2|] eqn:Hu; cbn [default fst].
  2: { intros [?|(g0 & u0 & ? & ? & ?)]%IH; [by left|right; exists g0, u0; rewrite elem_of_app; tauto]. }
  apply update_first_Some in Hu as (la & x & lb & -> & _ & Hpx & ->).
  assert (gr_grant_id x = gu_grant_id u) as Hid by (by apply bool_decide_eq_true in Hpx).
  intros Hg. assert (g ∈ la ++ x :: lb \/ g = file_use x u) as [Hin| ->] by set_solver.
  { apply IH in Hin as [?|(g0 & u0 & ? & ? & ?)]; [by left|right; exists g0, u0; rewrite elem_of_app; tauto]. }
  assert (gr_grant_id (file_use x u) = gr_grant_id x /\ gr_delegated (file_use x u) = gr_delegated x /\
    gr_delegate_fingerprint (file_use x u) = gr_delegate_fingerprint x) as (Hi & Hd & Hf')
    by (unfold file_use; by destruct (hasUse _ _)).
  right. destruct (IH x) as [Hx|(g0 & u0 & Hg0 & Hu0 & He & Hi0 & Hd0 & Hf0)]; [set_solver| |].
  - exists x, u. rewrite elem_of_app, list_elem_of_singleton. tauto.
  - exists g0, u0. rewrite elem_of_app. split_and!; [done|by left|congruence..].
Qed.

Lemma NoDup_map_inj {A B} (f : A -> B) (l : list A) x y : NoDup (map f l) -> x ∈ l -> y ∈ l -> f x = f y -> x = y.
Proof.
  intros Hd Hx Hy Hf. apply list_elem_of_lookup in Hx as [i Hi]. apply list_elem_of_lookup in Hy as [j Hj].
  assert (i = j) as ->; [|congruence]. apply (NoDup_lookup (map f l) i j (f x)); [done|..]; rewrite list_lookup_fmap, ?Hi, ?Hj; cbn; congruence.
Qed.

Lemma recordReported_spec record uses v ids v' :
  NoDup (map gr_grant_id (v_grants v)) -> recordReported record uses v = (Ok ids, v') ->
  (forall g, g ∈ v_grants v' -> delegated_to (tr_fingerprint record) g = false -> g ∈ v_grants v) /\
  (forall i, i ∈ ids -> exists u g, u ∈ uses /\ gu_request_id u = i /\ g ∈ v_grants v /\
     gr_grant_id g = gu_grant_id u /\ delegated_to (tr_fingerprint record) g = true).
Proof.
  intros Hd. unfold recordReported. destruct uses as [|u0 us]; [intros [= <- <-]; set_solver|].
  rewrite state_bind_unfold. destruct (Grants v) as [[gs|e] v1] eqn:Hg; cbn [fst snd]; [|done].
  destruct (Grants_kept _ _ _ Hg) as (Hgs & Hin & Hnd). specialize (Hnd Hd). rewrite state_bind_unfold.
  match goal with |- context [RecordGrantUses ?k v1] => set (kept := k) end.
  assert (forall u, u ∈ kept -> u ∈ u0 :: us /\ exists g, g ∈ gs /\ gr_grant_id g = gu_grant_id u /\
    delegated_to (tr_fingerprint record) g = true) as Hkept.
  { intros u [Hu Hth]%elem_of_filter_bool. split; [done|]. bool_prop.
    apply list_elem_of_fmap in Hth as (g & Hid & [Hgin Hdel]%elem_of_filter_bool). by exists g. }
  pose proof (RecordGrantUses_grants kept v1) as Hr. destruct (RecordGrantUses kept v1) as [[e|] v2]; cbn [fst snd]; [done|].
  intros [= <- <-]. cbn [snd] in Hr. split.
  - intros g Hgin Hnot. rewrite Hr, Hgs in Hgin. apply record_uses_others in Hgin as [?|(g0 & u & Hg0 & Hu & Hid & _ & Hde & Hfp)]; [auto|].
    apply Hkept in Hu as (_ & g1 & Hg1 & Hid1 & Hdel). assert (g0 = g1) as -> by (eapply NoDup_map_inj; eauto; congruence).
    unfold delegated_to in Hnot, Hdel. rewrite Hde, Hfp in Hnot. congruence.
  - intros i Hi. apply list_elem_of_fmap in Hi as (u & -> & Hu). apply Hkept in Hu as (Hu & g & Hg1 & Hid & Hdel).
    exists u, g. auto 10.
Qed.

(** A peer may report against its own delegations and nobody else's: a
    report is taken only from a paired machine, every grant not delegated to
    that machine's record is afterwards exactly what it was, and what is
    acknowledged is what the peer reported against a grant delegated to it. *)
Theorem report_touches_own `{Ssh} {P} peer uses (n n' : node P) ids :
  NoDup (map gr_grant_id (v_grants (n_vault n))) ->
  ReportGrantUse true peer uses n = (inl ids, n') ->
  exists id record, peer = Some id /\ trust_Peer (pi_Fingerprint id) (n_vault n) = Some record /\
    (forall g, g ∈ v_grants (n_vault n') -> delegated_to (tr_fingerprint record) g = false -> g ∈ v_grants (n_vault n)) /\
    (forall i, i ∈ ids -> exists u g, u ∈ uses /\ gu_request_id u = i /\ g ∈ v_grants (n_vault n) /\
       gr_grant_id g = gu_grant_id u /\ delegated_to (tr_fingerprint record) g = true).
Proof.
  intros Hd. unfold ReportGrantUse, pairedPeer. rewrite state_bind_unfold. destruct peer as [id|]; [|done].
  rewrite state_bind_unfold. cbn [gets fst snd]. destruct (trust_Peer _ _) as [record|] eqn:Hr; [|done].
  cbn [mret state_ret fst snd negb]. rewrite state_bind_unfold. unfold on_vault.
  destruct (recordReported record uses (n_vault n)) as [[l|e] v'] eqn:Hrep; cbn [fst snd]; intros [= <- <-].
  exists id, record. split; [done|]. split; [done|]. by apply recordReported_spec.
Qed.

End Reports.

(** ** A reconciliation that succeeds leaves both sides in agreement *)

Section Reconcile.
Context `{Unicode} `{Hashes} `{Ssh} `{Codec Delegation} {Q : Type}.

(** The requester at the far end, as itself; who it takes the caller to be;
    what becomes of each call, and what else this machine's store goes through
    while it is out. *)
Context (requester : Identity) (caller : option PeerIdentity).
Context (fates : nat -> fate) (meanwhile : nat -> list vault_op).

Abbreviation far := (nat * node Q)%type.

Definition call_far {A} (m : state (node Q) (reply A)) : state (vault * far) (result A) := fun '(v, (k, n)) =>
  let v := vault_run_ops v (meanwhile k) in
  match fates k with
  | NeverArrived => (Err unavailable, (v, (S k, n)))
  | Arrived =>
    let '(r, n') := m n in
    (match r with inl a => Ok a | inr e => Err (rpc_as_error e) end, (v, (S k, n')))
  | AnswerLost => (Err unavailable, (v, (S k, (m n).2)))
  end.

#[local] Instance wire : InboxPeers far := {|
  ip_ReconcileGrants := fun _ req => call_far (ReconcileGrants requester true caller req);
  ip_ReportGrantUse := fun _ uses => call_far (ReportGrantUse true caller uses)
|}.

Lemma call_far_Ok {A} (m : state (node Q) (reply A)) v k n a s' :
  call_far m (v, (k, n)) = (Ok a, s') ->
  exists n', m n = (inl a, n') /\ s' = (vault_run_ops v (meanwhile k), (S k, n')).
Proof.
  cbn [call_far]. destruct (fates k); [|done..]. destruct (m n) as [[a'|e] n']; intros [= <- <-]. by exists n'.
Qed.

(** The delegations a machine holds from an approver. *)
Definition held_from (fingerprint : string) (v : vault) : list HeldDelegation :=
  List.filter (fun h => bool_decide ((kd_delegation h)⇢dl_approver_fingerprint = fingerprint)) (v_held_delegations v).

Lemma Delegations_run v held v' : Delegations v = (Ok held, v') ->
  v_held_delegations v' = held /\ v_peers v' = v_peers v /\ (forall h, h ∈ held -> h ∈ v_held_delegations v).
Proof.
  unfold Delegations, liveDelegations. vault_run. destruct (existsb _ _) eqn:E; vault_run;
    [destruct (v_disk _ _); vault_run; [done|]|]; intros [= <- <-]; cbn [v_held_delegations v_peers].
  - split_and!; [done|done|by intros h [? _]%elem_of_filter_bool].
  - rewrite filter_all by done. done.
Qed.

Lemma dropRevoked_run record ids v z v' : dropRevoked record ids v = (Ok z, v') ->
  v_peers v' = v_peers v /\
  (forall h, h ∈ v_held_delegations v' -> h ∈ v_held_delegations v /\
     ((kd_delegation h)⇢dl_approver_fingerprint = tr_fingerprint record -> (kd_delegation h)⇢dl_delegation_id ∉ ids)).
Proof.
  unfold dropRevoked. rewrite state_bind_unfold. destruct (Delegations v) as [[held|e] v1] eqn:Hd; cbn [fst snd]; [|done].
  apply Delegations_run in Hd as (Hh & Hp & Hin). rewrite state_bind_unfold.
  match goal with |- context [DropDelegations ?l v1] => set (theirs := l) end. cbn [mret state_ret].
  intros [= Ho Hv]. subst v'. clear Ho.
  assert (v_peers (DropDelegations theirs v1).2 = v_peers v1 /\ (forall h, h ∈ v_held_delegations (DropDelegations theirs v1).2 ->
    h ∈ held /\ (kd_delegation h)⇢dl_delegation_id ∉ theirs)) as [Hpd Hdrop].
  { unfold DropDelegations. destruct theirs as [|t ts]; [cbn; rewrite Hh; set_solver|]. unfold DropDelegations_if. vault_run.
    destruct (_ =? 0) eqn:Hz; vault_run; [|destruct (v_disk _ _); vault_run]; (split; [done|]); rewrite ?Hh; intros h Hi.
    - split; [done|]. intros Ht. apply Z.eqb_eq in Hz. assert (h ∈ List.filter (fun h =>
        bool_decide ((kd_delegation h)⇢dl_delegation_id ∈ t :: ts)) (v_held_delegations v1)) as Hf.
      { apply elem_of_filter_bool. rewrite Hh. split; [done|]. by apply bool_decide_eq_true. }
      destruct (List.filter _ _); [by apply not_elem_of_nil in Hf|done].
    - apply elem_of_filter_bool in Hi as [Hi Hn]. split; [done|]. by bool_prop.
    - apply elem_of_filter_bool in Hi as [Hi Hn]. split; [done|]. by bool_prop. }
  split; [congruence|]. intros h [Hi Hn]%Hdrop. split; [auto|]. intros Hap Hid. apply Hn.
  apply elem_of_filter_bool. split; [done|]. apply bool_decide_eq_true. apply list_elem_of_fmap. exists h. split; [done|].
  apply elem_of_filter_bool. split; [done|]. by apply bool_decide_eq_true.
Qed.

Lemma drop_acknowledged_nil us : drop_acknowledged [] us = us.
Proof. unfold drop_acknowledged. induction us as [|u us IH]; [done|]. cbn. by rewrite IH. Qed.

Lemma AcknowledgeUses_run ids v v' e : AcknowledgeUses ids v = (e, v') ->
  v_peers v' = v_peers v /\
  v_held_delegations v' = map (fun h => mk_HeldDelegation (kd_signed h) (kd_delegation h) (kd_received_at h)
    (drop_acknowledged ids (kd_unreported_uses h)) (kd_use_count h)) (v_held_delegations v).
Proof.
  unfold AcknowledgeUses. destruct ids as [|i ids].
  - intros [= _ <-]. split; [done|]. induction (v_held_delegations v) as [|h l IH]; [done|]. cbn [map].
    rewrite drop_acknowledged_nil, <- IH. by destruct h.
  - vault_run. destruct (existsb _ _); vault_run; intros [= _ <-]; done.
Qed.

(** What a reconciliation without renewals answers and leaves. *)
Lemma reconciled_run record revoked acknowledged v resp v' :
  tr_fingerprint record <> emp ->
  reconciled requester true record (mk_ReconcileGrantsRequest revoked acknowledged []) v = (Ok resp, v') ->
  v_peers v' = v_peers v /\
  rr_uses resp = concat (map kd_unreported_uses (held_from (tr_fingerprint record) v')) /\
  rr_held_delegation_ids resp = map (fun h => (kd_delegation h)⇢dl_delegation_id) (held_from (tr_fingerprint record) v') /\
  (forall h, h ∈ v_held_delegations v' -> exists h0, h0 ∈ v_held_delegations v /\ kd_delegation h = kd_delegation h0 /\
     kd_unreported_uses h = drop_acknowledged acknowledged (kd_unreported_uses h0) /\
     ((kd_delegation h)⇢dl_approver_fingerprint = tr_fingerprint record -> (kd_delegation h)⇢dl_delegation_id ∉ revoked)).
Proof.
  intros Hfp. unfold reconciled. rewrite state_bind_unfold. cbn [rg_revoked_delegation_ids rg_acknowledged_request_ids rg_renewed_delegations].
  match goal with |- context [((?m) v).1] => destruct (m v) as [[z|e] v1] eqn:Hdrop end; cbn [fst snd]; [|done].
  assert (v_peers v1 = v_peers v /\ (forall h, h ∈ v_held_delegations v1 -> h ∈ v_held_delegations v /\
     ((kd_delegation h)⇢dl_approver_fingerprint = tr_fingerprint record -> (kd_delegation h)⇢dl_delegation_id ∉ revoked)))
    as [Hp1 Hin1].
  { destruct revoked as [|i rest]; [|by eapply dropRevoked_run]. injection Hdrop as _ <-. split; [done|]. set_solver. }
  clear Hdrop. rewrite state_bind_unfold. destruct (AcknowledgeUses acknowledged v1) as [[e|] v2] eqn:Ha; cbn [fst snd]; [done|].
  apply AcknowledgeUses_run in Ha as [Hp2 Hh2]. rewrite state_bind_unfold. cbn [acceptRenewed mret state_ret fst snd].
  unfold account. rewrite state_bind_unfold. destruct (Delegations v2) as [[held|e] v3] eqn:Hd; cbn [fst snd]; [|done].
  apply Delegations_run in Hd as (Hh & Hp & Hin). rewrite state_bind_unfold. unfold UnreportedUses.
  cbn [gets mret state_ret fst snd]. intros [= <- <-]. cbn [rr_uses rr_held_delegation_ids]. unfold held_from. rewrite Hh.
  rewrite (bool_decide_eq_false_2 (tr_fingerprint record = emp)) by done. cbn [orb].
  split_and!; [congruence|done|done|]. intros h Hi%Hin. rewrite Hh2 in Hi. apply list_elem_of_fmap in Hi as (h0 & -> & Hi).
  cbn [kd_delegation kd_unreported_uses]. apply Hin1 in Hi as [Hi Hn]. by exists h0.
Qed.

Lemma ReconcileGrants_run req (n : node Q) resp n' :
  ReconcileGrants requester true caller req n = (inl resp, n') ->
  exists id record, caller = Some id /\ trust_Peer (pi_Fingerprint id) (n_vault n) = Some record /\
    reconciled requester true record req (Now (n_vault n)).2 = (Ok resp, n_vault n').
Proof.
  unfold ReconcileGrants. rewrite state_bind_unfold. destruct (publisherFor caller n) as [[[id record]|e] n1] eqn:Hp; cbn [fst snd]; [|done].
  apply publisherFor_let_in in Hp as (Hc & Hr & _ & ->). cbn [negb]. rewrite state_bind_unfold. unfold on_vault. cbn [n_vault].
  destruct (reconciled _ _ _ _ _) as [[r|e] v'] eqn:Hrec; cbn [fst snd mret state_ret]; intros [= <- <-].
  exists id, record. by rewrite Hrec.
Qed.

Lemma revoke_each_grants ids v :
  v_grants (revoke_each ids v).2 = List.filter (fun g => bool_decide (gr_grant_id g ∉ ids)) (v_grants v).
Proof.
  revert v. induction ids as [|i ids IH]; intros v; cbn [revoke_each].
  - cbn. induction (v_grants v) as [|g l IHl]; [done|]. cbn. rewrite bool_decide_eq_true_2 by set_solver. by rewrite <- IHl.
  - rewrite state_bind_unfold, IH. unfold RevokeGrant, revoke. vault_run.
    destruct (v_disk _ _); vault_run; (induction (v_grants v) as [|g l IHl]; [done|]; cbn;
      destruct (base.decide (gr_grant_id g = i)) as [->|Hne];
      [rewrite bool_decide_eq_false_2 by (intros Hn; by apply Hn); rewrite bool_decide_eq_false_2 by set_solver; exact IHl|
       rewrite bool_decide_eq_true_2 by done; cbn; rewrite IHl;
       rewrite (bool_decide_ext (gr_grant_id g ∉ i :: ids) (gr_grant_id g ∉ ids)) by set_solver; done]).
Qed.

Lemma pending_finished fingerprint v : (PendingRevocations fingerprint (finishPendingRevocations fingerprint v).2).1 = [].
Proof.
  unfold finishPendingRevocations. rewrite state_bind_unfold.
  destruct (PendingRevocations fingerprint v) as [ids v0] eqn:Hids. injection Hids as Hids <-. cbn [fst snd].
  unfold PendingRevocations. cbn [gets fst]. rewrite revoke_each_grants.
  match goal with |- map _ ?l = [] => destruct l as [|g l'] eqn:Hl; [done|exfalso] end.
  assert (g ∈ g :: l') as Hg by by left. rewrite <- Hl in Hg. apply elem_of_filter_bool in Hg as [Hg Hp].
  apply elem_of_filter_bool in Hg as [Hg Hn]. apply bool_decide_eq_true in Hn. apply Hn. rewrite <- Hids.
  apply list_elem_of_fmap. exists g. split; [done|]. by apply elem_of_filter_bool.
Qed.

(** The first call of a reconciliation, when it gets through. *)
Lemma first_call record req v k b resp s' id rb :
  caller = Some id -> trust_Peer (pi_Fingerprint id) (n_vault b) = Some rb -> tr_fingerprint rb <> emp ->
  ip_ReconcileGrants record req (v, (k, b)) = (Ok resp, s') ->
  rg_renewed_delegations req = [] ->
  exists b', s' = (vault_run_ops v (meanwhile k), (S k, b')) /\
    trust_Peer (pi_Fingerprint id) (n_vault b') = Some rb /\
    rr_uses resp = concat (map kd_unreported_uses (held_from (tr_fingerprint rb) (n_vault b'))) /\
    rr_held_delegation_ids resp = map (fun h => (kd_delegation h)⇢dl_delegation_id) (held_from (tr_fingerprint rb) (n_vault b')) /\
    (forall h, h ∈ held_from (tr_fingerprint rb) (n_vault b') -> exists h0, h0 ∈ held_from (tr_fingerprint rb) (n_vault b) /\
       kd_delegation h = kd_delegation h0 /\
       kd_unreported_uses h = drop_acknowledged (rg_acknowledged_request_ids req) (kd_unreported_uses h0) /\
       (kd_delegation h)⇢dl_delegation_id ∉ rg_revoked_delegation_ids req).
Proof.
  intros Hc Hrb Hfp Hcall Hren. cbn [ip_ReconcileGrants wire] in Hcall.
  apply call_far_Ok in Hcall as (b' & Hrun & ->). exists b'. split; [done|].
  apply ReconcileGrants_run in Hrun as (id' & rb' & Hc' & Hrb' & Hrun). simplify_eq.
  destruct req as [revoked acks renewed]; cbn [rg_renewed_delegations rg_acknowledged_request_ids rg_revoked_delegation_ids] in *; subst renewed.
  apply reconciled_run in Hrun as (Hp & Hu & Hi & Hh); [|done]. cbn [Now snd v_peers v_held_delegations] in Hp, Hh.
  split; [by unfold trust_Peer in *; rewrite Hp|]. split; [done|]. split; [done|].
  intros h [Hin Hfrom]%elem_of_filter_bool. apply bool_decide_eq_true in Hfrom.
  destruct (Hh h Hin) as (h0 & Hin0 & Hd & Hun & Hn). exists h0. split_and!; [|done|done|auto].
  apply elem_of_filter_bool. split; [done|]. apply bool_decide_eq_true. by rewrite <- Hd.
Qed.

Lemma dropped_uses h ids us u : kd_unreported_uses h = drop_acknowledged ids us -> u ∈ us ->
  u ∈ kd_unreported_uses h \/ gu_request_id u ∈ ids.
Proof.
  intros -> Hu. unfold drop_acknowledged. rewrite elem_of_filter_bool.
  destruct (base.decide (gu_request_id u ∈ ids)); [by right|left]. split; [done|]. by rewrite bool_decide_eq_false_2.
Qed.

Lemma elem_of_uses h l u : h ∈ l -> u ∈ kd_unreported_uses h -> u ∈ concat (map kd_unreported_uses l).
Proof. intros Hh Hu. apply list_elem_of_In, in_concat. exists (kd_unreported_uses h). split; [by apply in_map, list_elem_of_In|by apply list_elem_of_In]. Qed.

(** C30. When reconciling reports success, whatever other calls were lost and
    whatever else the approver's store went through meanwhile: every promise
    the requester still holds from this approver is one the approver has on
    file for it and has not taken back; the requester owes no account under
    any of them, since every use it had not reported was either handed over
    and filed or had been heard before; and no revocation is left waiting,
    unless there was nothing to tell the requester at all. *)
Theorem reconcile_agrees record id rb v k b v' k' b' :
  caller = Some id -> trust_Peer (pi_Fingerprint id) (n_vault b) = Some rb -> tr_fingerprint rb <> emp ->
  reconcileWith true record (v, (k, b)) = (None, (v', (k', b'))) ->
  exists (live : list string) (us : list GrantUse) (heard : list string),
    (forall i, i ∈ live -> exists g, g ∈ v_grants v /\ gr_grant_id g = i /\
       delegated_to (tr_fingerprint record) g = true /\ gr_revoke_pending g = false) /\
    (forall i, i ∈ heard -> exists g, g ∈ v_grants v /\ delegated_to (tr_fingerprint record) g = true /\
       hasUse (gr_recent_uses g) i = true) /\
    (RecordGrantUses us (vault_run_ops (Grants v).2 (meanwhile k))).1 = None /\
    (forall h, h ∈ held_from (tr_fingerprint rb) (n_vault b') ->
       (kd_delegation h)⇢dl_delegation_id ∈ live /\ kd_unreported_uses h = [] /\
       exists h0, h0 ∈ held_from (tr_fingerprint rb) (n_vault b) /\ kd_delegation h = kd_delegation h0 /\
         forall u, u ∈ kd_unreported_uses h0 -> u ∈ us \/ gu_request_id u ∈ heard) /\
    ((PendingRevocations (tr_fingerprint record) v').1 = [] \/ k' = S k).
Proof.
  intros Hc Hrb Hfp. unfold reconcileWith. cbn [negb]. rewrite state_bind_unfold.
  destruct (Grants v) as [[gs|e] v0] eqn:Hg; rewrite (here_at _ _ _ _ _ Hg); cbn [fst snd]; [|done].
  destruct (Grants_kept _ _ _ Hg) as (_ & Hgs & _).
  set (st := standing (tr_fingerprint record) gs).
  assert (forall g, g ∈ st -> g ∈ v_grants v /\ delegated_to (tr_fingerprint record) g = true /\ gr_revoke_pending g = false) as Hst.
  { intros g [Hin Hp]%elem_of_filter_bool. bool_prop. auto. }
  set (live := map gr_grant_id st). set (heard := concat (map (fun g => map gu_request_id (gr_recent_uses g)) st)).
  rewrite state_bind_unfold.
  destruct (ip_ReconcileGrants record (mk_ReconcileGrantsRequest [] heard []) (v0, (k, b))) as [[resp|e] s1] eqn:Hc1; cbn [fst snd]; [|done].
  destruct (first_call _ _ _ _ _ _ _ _ _ Hc Hrb Hfp Hc1 eq_refl) as (b1 & -> & Hrb1 & Hu1 & Hi1 & Hh1). cbn [rg_acknowledged_request_ids rg_revoked_delegation_ids] in Hh1.
  set (v1 := vault_run_ops v0 (meanwhile k)). rewrite state_bind_unfold.
  destruct (RecordGrantUses (rr_uses resp) v1) as [[e|] v2] eqn:Hrec; rewrite (here_at _ _ _ _ _ Hrec); cbn [fst snd]; [done|].
  set (revoked := List.filter (fun i => negb (bool_decide (i ∈ live))) (rr_held_delegation_ids resp)).
  assert (forall h, h ∈ held_from (tr_fingerprint rb) (n_vault b1) -> (kd_delegation h)⇢dl_delegation_id ∉ revoked ->
    (kd_delegation h)⇢dl_delegation_id ∈ live) as Hlive.
  { intros h Hh Hn. destruct (base.decide ((kd_delegation h)⇢dl_delegation_id ∈ live)) as [|Hno]; [done|]. destruct Hn.
    apply elem_of_filter_bool. split; [|by rewrite bool_decide_eq_false_2]. rewrite Hi1. apply list_elem_of_fmap. by exists h. }
  intros Hrest. exists live, (rr_uses resp), heard.
  split; [intros i (g & -> & (Hin & Hd & Hp)%Hst)%list_elem_of_fmap; by exists g|].
  split. { intros i Hi. apply list_elem_of_In, in_concat in Hi as (l & (g & <- & Hg')%in_map_iff & Hi).
    apply list_elem_of_In, Hst in Hg' as (Hin & Hd & _). exists g. split_and!; [done|done|]. by apply hasUse_elem, list_elem_of_In. }
  cbn [snd]. fold v1. split; [by rewrite Hrec|].
  destruct (bool_decide (revoked = []) && bool_decide (map gu_request_id (rr_uses resp) = [])) eqn:Hnone.
  - injection Hrest as <- <- <-. split; [|by right].
    apply andb_true_iff in Hnone as [Hnr%bool_decide_eq_true Hnu%bool_decide_eq_true]. intros h Hh.
    destruct (Hh1 h Hh) as (h0 & Hin0 & Hd & Hun & _).
    assert (kd_unreported_uses h = []) as Hempty.
    { destruct (kd_unreported_uses h) as [|u us] eqn:E; [done|exfalso]. assert (u ∈ rr_uses resp) as Hu.
      { rewrite Hu1. apply (elem_of_uses h); [done|]. rewrite E. by left. }
      apply (list_elem_of_fmap_2 gu_request_id) in Hu. change (fmap ?f ?l) with (map f l) in Hu.
      rewrite Hnu in Hu. by apply not_elem_of_nil in Hu. }
    split_and!; [apply Hlive; [done|rewrite Hnr; apply not_elem_of_nil]|done|]. exists h0. split_and!; [done|done|]. intros u Hu.
    destruct (dropped_uses h heard _ u Hun Hu) as [Hx|Hx]; [|by right]. rewrite Hempty in Hx. by apply not_elem_of_nil in Hx.
  - rewrite state_bind_unfold in Hrest. unfold tellReconciled in Hrest. rewrite state_bind_unfold in Hrest.
    destruct (ip_ReconcileGrants record (mk_ReconcileGrantsRequest revoked (map gu_request_id (rr_uses resp)) []) (v2, (S k, b1))) as [[resp2|e] s2] eqn:Hc2; cbn [fst snd] in Hrest; [|done].
    destruct (first_call _ _ _ _ _ _ _ _ _ Hc Hrb1 Hfp Hc2 eq_refl) as (b2 & -> & _ & _ & _ & Hh2). cbn [rg_acknowledged_request_ids rg_revoked_delegation_ids] in Hh2.
    cbn [mret state_ret fst snd] in Hrest. rewrite state_bind_unfold in Hrest.
    set (v3 := vault_run_ops v2 (meanwhile (S k))) in *.
    destruct (finishPendingRevocations (tr_fingerprint record) v3) as [[] v4] eqn:Hfin.
    rewrite (here_at _ _ _ _ _ Hfin) in Hrest. injection Hrest as <- _ <-.
    split; [|left; by rewrite <- (pending_finished (tr_fingerprint record) v3), Hfin].
    intros h Hh. destruct (Hh2 h Hh) as (h1 & Hin1 & Hd1 & Hun1 & Hnr). destruct (Hh1 h1 Hin1) as (h0 & Hin0 & Hd0 & Hun0 & _).
    rewrite Hd1 in Hnr |- *. split_and!; [by apply Hlive| |].
    + rewrite Hun1. unfold drop_acknowledged. match goal with |- ?l = [] => destruct l as [|u us] eqn:E; [done|exfalso] end.
      assert (u ∈ u :: us) as Hu by by left. rewrite <- E in Hu. apply elem_of_filter_bool in Hu as [Hu Hn]. bool_prop.
      apply Hn. apply list_elem_of_fmap. exists u. split; [done|]. rewrite Hu1. by apply (elem_of_uses h1).
    + exists h0. split_and!; [done|congruence|]. intros u Hu. destruct (dropped_uses h1 heard _ u Hun0 Hu) as [Hx|Hx]; [left|by right].
      rewrite Hu1. by apply (elem_of_uses h1).
Qed.

End Reconcile.

(** ** A retraction is in force wherever it was told *)

Section Retract.
Context `{Unicode} `{Hashes} `{Ssh} `{Codec Delegation} `{Codec Endorsement} `{Codec Retraction} `{!CodecLaws Retraction}.
Context {P Q : Type} `{!KeyHolders P} (self : Identity).

(** The other holders, each as itself, who each takes this machine to be, and
    which of them keep endorsements. *)
Context (caller : string -> option PeerIdentity) (keeping : string -> bool).

#[local] Instance holders : KeyPeers (gmap string (node Q)) := {|
  pp_PublishEndorsement := fun fp signed m =>
    match m !! fp with
    | None => (Err unavailable, m)
    | Some n =>
      let '(r, n') := PublishEndorsement (keeping fp) (caller fp) (Some signed) n in
      (match r with inl a => Ok a | inr e => Err (rpc_as_error e) end, <[fp := n']> m)
    end;
  pp_PublishRetraction := fun fp signed m =>
    match m !! fp with
    | None => (Err unavailable, m)
    | Some n =>
      let '(r, n') := PublishRetraction (keeping fp) (caller fp) signed n in
      (match r with inl a => Ok a | inr e => Err (rpc_as_error e) end, <[fp := n']> m)
    end
|}.

(** Nothing on file has the retraction's identifier. *)
Definition not_on_file (r : Retraction) (v : vault) : Prop :=
  forall h, h ∈ v_retractions v -> (kr_retraction h)⇢rt_retraction_id <> rt_retraction_id r.

Lemma AddRetraction_new signed r v : not_on_file r v -> in_force r (AddRetraction signed r v).2.
Proof.
  intros Hn. destruct (AddRetraction signed r v) as [[fresh e] v'] eqn:Ha.
  assert (fresh = true) as ->; [|by eapply AddRetraction_in_force].
  unfold AddRetraction in Ha. rewrite state_bind_unfold in Ha. cbn [gets fst snd] in Ha.
  destruct (existsb _ _) eqn:E; [|by revert Ha; vault_run; intros [= <- _ _]].
  apply existsb_elem in E as (h & Hin & Hid). bool_prop. by destruct (Hn h Hin).
Qed.

Lemma AddRetraction_again signed r v : in_force r v -> (AddRetraction signed r v).2 = v.
Proof.
  intros [Hex _]. unfold AddRetraction. vault_run.
  destruct (existsb _ _) eqn:E; [done|exfalso]. apply Exists_exists in Hex as (h & Hin & Hh).
  apply (eq_true_false_abs _ (proj2 (existsb_elem _ _)
    (ex_intro _ h (conj Hin (bool_decide_eq_true_2 _ (f_equal (fun o => o⇢rt_retraction_id) Hh))))) E).
Qed.

Lemma PublishRetraction_run peer signed r (n : node Q) res n' :
  VerifyRetraction signed = Ok r -> PublishRetraction true peer signed n = (res, n') ->
  (n' = n /\ exists e, res = inr e) \/ n_vault n' = (AddRetraction signed r (Now (n_vault n)).2).2.
Proof.
  intros Hv. unfold PublishRetraction. rewrite state_bind_unfold.
  destruct (authorize peer n) as [[[id record]|e] n1] eqn:Hp; cbn [fst snd].
  2: { apply authorize_refused in Hp as ->. cbn [mret state_ret]. intros [= <- <-]. left. eauto. }
  apply authorize_let_in in Hp as (_ & _ & _ & ->). cbn [negb]. rewrite Hv, state_bind_unfold. unfold on_vault. cbn [n_vault].
  destruct (AddRetraction signed r _) as [[fresh failed] v'] eqn:Ha; cbn [fst snd]. intros Heq. right. revert Heq.
  destruct failed; [|destruct fresh]; run_state; by intros [= _ <-].
Qed.

(** One holder told: a retraction stays in force, and one that keeps
    endorsements and does not refuse takes it in. *)
Lemma told_in_force keep peer signed r (n : node Q) res n' :
  VerifyRetraction signed = Ok r -> PublishRetraction keep peer signed n = (res, n') ->
  in_force r (n_vault n) \/ not_on_file r (n_vault n) ->
  (in_force r (n_vault n') \/ not_on_file r (n_vault n')) /\
  (in_force r (n_vault n) -> in_force r (n_vault n')) /\
  (keep = true -> forall a, res = inl a -> in_force r (n_vault n')).
Proof.
  intros Hv Hp Hf. destruct keep.
  - apply (PublishRetraction_run _ _ r) in Hp as [[-> [e ->]] | ->]; [by split_and!| |done].
    assert (in_force r (AddRetraction signed r (Now (n_vault n)).2).2) as Hin; [|by split_and!; [left| |]].
    destruct Hf as [Hf|Hf]; [|by apply AddRetraction_new]. by rewrite AddRetraction_again.
  - assert (v_retractions (n_vault n') = v_retractions (n_vault n) /\
            v_held_endorsements (n_vault n') = v_held_endorsements (n_vault n)) as [Hr He].
    { revert Hp. unfold PublishRetraction. rewrite state_bind_unfold.
      destruct (authorize peer n) as [[[id record]|e] n1] eqn:Ha; cbn [fst snd negb].
      - apply authorize_let_in in Ha as (_ & _ & _ & ->). by intros [= _ <-].
      - apply authorize_refused in Ha as ->. by intros [= _ <-]. }
    unfold in_force, not_on_file in *. rewrite Hr, He. by split_and!.
Qed.

Lemma call_retract_nobody signed fp (n : node P) m :
  m !! fp = None -> call_retract signed fp (n, m) = (Some unavailable, (n, m)).
Proof. intros Hm. unfold call_retract. rewrite state_bind_unfold. unfold there. cbn [pp_PublishRetraction holders]. by rewrite Hm. Qed.

Lemma call_retract_holder signed fp (n : node P) m h res h' :
  m !! fp = Some h -> PublishRetraction (keeping fp) (caller fp) signed h = (res, h') ->
  call_retract signed fp (n, m) = (match res with inl _ => None | inr e => Some (rpc_as_error e) end, (n, <[fp := h']> m)).
Proof.
  intros Hm Hp. unfold call_retract. rewrite state_bind_unfold. unfold there. cbn [pp_PublishRetraction holders].
  rewrite Hm, Hp. by destruct res.
Qed.

(** Telling each holder puts it in force there; those told before keep it. *)
Lemma tell_each_in_force signed r l (n : node P) m told unreached n' m' :
  VerifyRetraction (Some signed) = Ok r ->
  (forall fp h, m !! fp = Some h -> in_force r (n_vault h) \/ not_on_file r (n_vault h)) ->
  tell_each emp (call_retract (Some signed)) l (n, m) = ((told, unreached), (n', m')) ->
  n' = n /\
  (forall fp, fp ∈ told -> exists h, m' !! fp = Some h /\ (keeping fp = true -> in_force r (n_vault h))) /\
  (forall fp h, m !! fp = Some h -> exists h', m' !! fp = Some h' /\ (in_force r (n_vault h) -> in_force r (n_vault h'))).
Proof.
  intros Hv. revert m told unreached n' m'. induction l as [|fp l IH]; intros m told unreached n' m' Hm; cbn [tell_each].
  { intros Heq. inversion Heq; subst. split_and!; [done|intros fp Hfp; by apply not_elem_of_nil in Hfp|eauto]. }
  case_bool_decide; [by apply IH|]. rewrite state_bind_unfold. destruct (m !! fp) as [h|] eqn:Hfp.
  2: { rewrite (call_retract_nobody _ _ _ _ Hfp). cbn [fst snd]. rewrite state_bind_unfold.
    destruct (tell_each _ _ l _) as [[t u] [n1 m1]] eqn:Ht. cbn [fst snd mret state_ret].
    intros Heq. inversion Heq; subst. by apply IH in Ht. }
  destruct (PublishRetraction (keeping fp) (caller fp) (Some signed) h) as [res h'] eqn:Hp.
  rewrite (call_retract_holder _ _ _ _ _ _ _ Hfp Hp). cbn [fst snd].
  destruct (told_in_force _ _ _ _ _ _ _ Hv Hp (Hm fp h Hfp)) as (Hstill & Hstays & Hnow). rewrite state_bind_unfold.
  destruct (tell_each _ _ l _) as [[t u] [n1 m1]] eqn:Ht. cbn [fst snd mret state_ret]. intros Heq.
  apply IH in Ht as (-> & Htold & Hkeep).
  2: { intros fp' h1. destruct (base.decide (fp' = fp)) as [->|Hne]; [by rewrite lookup_insert_eq; intros [= <-]|].
    rewrite lookup_insert_ne by done. apply Hm. }
  assert (n' = n /\ m' = m1 /\ forall fp', fp' ∈ told -> fp' ∈ t \/ (fp' = fp /\ exists a, res = inl a)) as (-> & -> & Htl).
  { destruct res as [a|e]; inversion Heq; subst; (split; [done|]); (split; [done|]); intros fp'; [|by left].
    intros [->|?]%elem_of_cons; [right; eauto|by left]. }
  split_and!; [done| |].
  - intros fp' [Hin|[-> [a Ha]]]%Htl; [auto|]. destruct (Hkeep fp h') as (h2 & Hh2 & Hin2); [by rewrite lookup_insert_eq|].
    exists h2. split; [done|]. intros Hk. apply Hin2. by eapply Hnow.
  - intros fp' h1 Hh1. destruct (base.decide (fp' = fp)) as [->|Hne].
    + destruct (Hkeep fp h') as (h2 & Hh2 & Hin2); [by rewrite lookup_insert_eq|]. exists h2. split; [done|].
      rewrite Hfp in Hh1. injection Hh1 as <-. auto.
    + apply (Hkeep fp' h1). by rewrite lookup_insert_ne.
Qed.

(** A signed retraction that verifies says what was signed. *)
Lemma signed_retraction_says r signer signed r' :
  SignRetraction self (Some r) (Some signer) = Ok signed -> VerifyRetraction (Some signed) = Ok r' -> r' = r.
Proof.
  intros Hs Hv. unfold SignRetraction in Hs. case_bool_decide; [done|]. ok_inv. subst signed.
  cbn [VerifyRetraction sr_retraction sr_issuer_public_key sr_issuer_fingerprint sr_signature sr_key_signature] in Hv. ok_inv.
  match goal with Hm : Marshal r = Ok ?b, Hu : Unmarshal ?b = Ok ?x |- _ =>
    rewrite (Unmarshal_Marshal r b Hm) in Hu; injection Hu as <- end.
  match goal with Hx : (if _ then _ else _) = Ok r' |- _ => revert Hx end.
  repeat case_bool_decide; try done; destruct (Bool.eqb _ _); try done; by intros [= ->].
Qed.


(** One that does not verify is taken in by nobody who keeps them. *)
Lemma tell_each_unverified signed e l (n : node P) m told unreached s' :
  VerifyRetraction (Some signed) = Err e ->
  tell_each emp (call_retract (Some signed)) l (n, m) = ((told, unreached), s') ->
  (forall fp, fp ∈ told -> keeping fp = false) /\ s'.1 = n.
Proof.
  intros Hv. revert m told unreached s'. induction l as [|fp l IH]; intros m told unreached s'; cbn [tell_each].
  { intros Heq. inversion Heq; subst. split; [|done]. intros fp Hfp. by apply not_elem_of_nil in Hfp. }
  case_bool_decide; [by apply IH|]. rewrite state_bind_unfold. destruct (m !! fp) as [h|] eqn:Hfp.
  - destruct (PublishRetraction (keeping fp) (caller fp) (Some signed) h) as [res h'] eqn:Hp.
    rewrite (call_retract_holder _ _ _ _ _ _ _ Hfp Hp). cbn [fst snd]. rewrite state_bind_unfold.
    destruct (tell_each _ _ l _) as [[t u] s1] eqn:Ht. cbn [fst snd mret state_ret]. intros Heq. apply IH in Ht as [Ht Hs].
    assert (keeping fp = false \/ exists er, res = inr er) as Hres.
    { unfold PublishRetraction in Hp. rewrite state_bind_unfold in Hp. destruct (keeping fp); [right|by left].
      destruct (authorize _ _) as [[?|er] h1]; cbn [fst snd negb] in Hp.
      + rewrite Hv in Hp. inversion Hp. eauto.
      + inversion Hp. eauto. }
    destruct Hres as [Hk|[er ->]]; [|by inversion Heq; subst].
    destruct res; inversion Heq; subst; (split; [|done]); [|done]. intros fp' [->|?]%elem_of_cons; auto.
  - rewrite (call_retract_nobody _ _ _ _ Hfp). cbn [fst snd]. rewrite state_bind_unfold.
    destruct (tell_each _ _ l _) as [[t u] s1] eqn:Ht. cbn [fst snd mret state_ret].
    intros Heq. inversion Heq; subst. by apply IH in Ht.
Qed.

Lemma on_vault_at {A} (m : state vault A) (n : node P) (w : gmap string (node Q)) a v :
  m (n_vault n) = (a, v) ->
  here (on_vault m) (n, w) = (a, (mk_node P v (n_seen n) (n_load n) (n_gossip n) (n_rest n), w)).
Proof. intros Hm. unfold here, on_vault. by rewrite Hm. Qed.

Lemma Endorsements_retractions v : v_retractions (Endorsements v).2 = v_retractions v.
Proof. unfold Endorsements, liveEndorsements. vault_run. destruct (existsb _ _); vault_run; [destruct (v_disk _ _); vault_run|]; done. Qed.

Lemma Endorsements_in_force r v : in_force r v -> in_force r (Endorsements v).2.
Proof.
  intros [Hex Hall]. split; [by rewrite Endorsements_retractions|].
  unfold Endorsements, liveEndorsements. vault_run. destruct (existsb _ _); vault_run; [|done].
  destruct (v_disk _ _); vault_run; by apply Forall_filter_keep.
Qed.

Lemma retraction_for_spec id eid key reason ttl now v r v' :
  retraction_for self id eid key reason ttl now v = (r, v') ->
  v_retractions v' = v_retractions v /\ rt_retraction_id r = id /\ rt_key_fingerprint r = key /\
  rt_endorsement_id r = eid /\ (eid = emp -> rt_issued_before r = Some now).
Proof.
  unfold retraction_for. case_bool_decide as He.
  - rewrite state_bind_unfold. unfold endorsementExpiry. rewrite state_bind_unfold. cbn [mret state_ret fst snd].
    intros [= <- <-]. rewrite Endorsements_retractions. cbn. split_and!; done.
  - intros [= <- <-]. cbn. done.
Qed.

Lemma not_on_file_same r v v' : v_retractions v' = v_retractions v -> not_on_file r v -> not_on_file r v'.
Proof. unfold not_on_file. by intros ->. Qed.

(** No later run of the store's operations holds what it covers. *)
Definition binds_from_now (r : Retraction) (v : vault) : Prop :=
  forall os, still_remembered r (vault_run_ops v os) ->
    forall h, h ∈ v_held_endorsements (vault_run_ops v os) -> retractionCovers (Some r) (ke_endorsement h) = false.

Lemma in_force_binds r v : in_force r v -> binds_from_now r v.
Proof. intros Hf os Hs h Hh. destruct (in_force_run r v os Hs Hf) as [_ Hall]. rewrite Forall_forall in Hall. auto. Qed.

Lemma in_force_on_file r v : in_force r v -> Some r ∈ map kr_retraction (v_retractions v).
Proof. intros [(h & Hin & <-)%Exists_exists _]. apply list_elem_of_fmap. by exists h. Qed.


End Retract.

(** ** Two concrete machines *)

Import Toy.

(** A desk that approves, and a box that asks; both clocks stand at 100. *)
Definition a_grant (id holder : string) (expires : time) (pending : bool) : Grant :=
  mk_Grant id None (Some 0) (Some expires) emp "may sign" emp true holder emp 0 [] pending None false [] [].
Definition a_use (grant request : string) : GrantUse := mk_GrantUse grant request (Some 90) None KIND_GIT_SIGN emp.
Definition a_delegation (id : string) (expires : time) (uses : list GrantUse) : HeldDelegation :=
  mk_HeldDelegation None (Some (mk_Delegation id None (Some 0) (Some expires) emp "may sign" "SHA256:desk" "desk" "SHA256:box"))
    (Some 0) uses (Z.of_nat (length uses)).
Definition desk_vault (grants : list Grant) : vault :=
  mk_vault grants [] [] []
    [mk_TrustRecord "SHA256:box" "box" [] [] false true [] None false false emp None None] []
    (fun _ => 100) 0 (fun _ => None) 0.
Definition box_node (held : list HeldDelegation) : node unit :=
  mk_node unit (mk_vault [] held [] [] [toy_peer] [] (fun _ => 100) 0 (fun _ => None) 0) ∅ ∅ [] tt.
Definition box_record : TrustRecord := mk_TrustRecord "SHA256:box" "box" [] [] false true [] None false false emp None None.
Definition the_desk : option PeerIdentity := Some (mk_PeerIdentity (of_string "desk") "SHA256:desk" "10.0.0.1:7777").
Definition the_box : Identity := mk_Identity "box" (signer (of_string "box")).

Abbreviation toy_reconcile fates meanwhile :=
  (reconcileWith (InboxPeers0 := wire (Q := unit) the_box the_desk fates meanwhile) true box_record).

Definition promises_held (b : node unit) : list string := map (fun h => (kd_delegation h)⇢dl_delegation_id) (v_held_delegations (n_vault b)).
Definition owed (b : node unit) : list string := map gu_request_id (UnreportedUses "SHA256:desk" (n_vault b)).1.
Definition ledger (v : vault) : list (string * Z) := map (fun g => (gr_grant_id g, gr_use_count g)) (v_grants v).

Definition all_arrive : nat -> fate := fun _ => Arrived.
Definition nothing_else : nat -> list vault_op := fun _ => [].

(** Two promises, one of them taken back while the box was away. *)
Definition before_desk : vault := desk_vault [a_grant "d1" "SHA256:box" 200 true; a_grant "d2" "SHA256:box" 200 false].
Definition before_box : node unit := box_node [a_delegation "d1" 200 [a_use "d1" "r1"]; a_delegation "d2" 200 [a_use "d2" "r2"; a_use "d2" "r3"]].
Abbreviation reconciled_pair := (toy_reconcile all_arrive nothing_else (before_desk, (0%nat, before_box))).

Example a_reconciliation :
  reconciled_pair.1 = None /\
  promises_held reconciled_pair.2.2.2 = ["d2"%string] /\ owed reconciled_pair.2.2.2 = [] /\
  ledger reconciled_pair.2.1 = [("d2"%string, 2)].
Proof. vm_compute. done. Qed.

Lemma answered_run {A B C D} (x : A * (B * (C * D))) a : x.1 = a -> x = (a, (x.2.1, (x.2.2.1, x.2.2.2))).
Proof. by destruct x as [? [? [? ?]]]; cbn; intros ->. Qed.

Lemma reconcile_agrees_witness :
  exists (live : list string) (us : list GrantUse) (heard : list string),
    (forall i, i ∈ live -> exists g, g ∈ v_grants before_desk /\ gr_grant_id g = i /\
       delegated_to "SHA256:box" g = true /\ gr_revoke_pending g = false) /\
    (forall i, i ∈ heard -> exists g, g ∈ v_grants before_desk /\ delegated_to "SHA256:box" g = true /\
       hasUse (gr_recent_uses g) i = true) /\
    (RecordGrantUses us (vault_run_ops (Grants before_desk).2 (nothing_else 0))).1 = None /\
    (forall h, h ∈ held_from "SHA256:desk" (n_vault reconciled_pair.2.2.2) ->
       (kd_delegation h)⇢dl_delegation_id ∈ live /\ kd_unreported_uses h = [] /\
       exists h0, h0 ∈ held_from "SHA256:desk" (n_vault before_box) /\ kd_delegation h = kd_delegation h0 /\
         forall u, u ∈ kd_unreported_uses h0 -> u ∈ us \/ gu_request_id u ∈ heard) /\
    ((PendingRevocations "SHA256:box" reconciled_pair.2.1).1 = [] \/ reconciled_pair.2.2.1 = 1%nat).
Proof.
  refine (reconcile_agrees the_box the_desk all_arrive nothing_else box_record
    (mk_PeerIdentity (of_string "desk") "SHA256:desk" "10.0.0.1:7777") toy_peer before_desk 0 before_box
    reconciled_pair.2.1 reconciled_pair.2.2.1 reconciled_pair.2.2.2 _ _ _ (answered_run reconciled_pair None _)).
  - reflexivity.
  - reflexivity.
  - discriminate.
  - vm_compute. reflexivity.
Defined.

(** *** What reconciling does not do *)

(** Uses collected by reconciling are filed against any grant they name: the
    box reports one against the phone's. *)
Example collected_uses_go_anywhere :
  ledger (toy_reconcile all_arrive nothing_else
    (desk_vault [a_grant "d2" "SHA256:box" 200 false; a_grant "g-phone" "SHA256:phone" 200 false],
     (0%nat, box_node [a_delegation "d2" 200 [a_use "g-phone" "r9"]]))).2.1
  = [("d2"%string, 0); ("g-phone"%string, 1)].
Proof. vm_compute. done. Qed.

(** A promise that ran out before the two machines met takes with it the
    account of what was done under it. *)
Example expired_account_is_lost :
  let before := box_node [a_delegation "d1" 50 [a_use "d1" "r1"]] in
  let after := toy_reconcile all_arrive nothing_else (desk_vault [a_grant "d1" "SHA256:box" 200 false], (0%nat, before)) in
  owed before = ["r1"%string] /\ after.1 = None /\ owed after.2.2.2 = [] /\ ledger after.2.1 = [("d1"%string, 0)].
Proof. vm_compute. done. Qed.

(** Taking a promise back drops the account of what was done under it before
    anybody heard it. *)
Example revoking_loses_the_account :
  let before := box_node [a_delegation "d1" 200 [a_use "d1" "r1"]] in
  let after := RevokeDelegation (InboxPeers0 := wire (Q := unit) the_box the_desk all_arrive nothing_else) true "d1"
    (desk_vault [a_grant "d1" "SHA256:box" 200 false], (0%nat, before)) in
  after.1 = Ok true /\ promises_held after.2.2.2 = [] /\ owed after.2.2.2 = [] /\ ledger after.2.1 = [("d1"%string, 0)].
Proof. vm_compute. done. Qed.

(** When the answer to the second call is lost the box has dropped the promise,
    and the next reconciliation has nothing to tell it: the revocation stays
    "pending" although it was delivered. *)
Example delivered_revocation_stays_pending :
  let fates k := match k with 1%nat => AnswerLost | _ => Arrived end in
  let first := toy_reconcile fates nothing_else
    (desk_vault [a_grant "d1" "SHA256:box" 200 true], (0%nat, box_node [a_delegation "d1" 200 []])) in
  let second := toy_reconcile fates nothing_else first.2 in
  promises_held first.2.2.2 = [] /\ second.1 = None /\
  (PendingRevocations "SHA256:box" second.2.1).1 = ["d1"%string].
Proof. vm_compute. done. Qed.

(** A revocation asked for while the second call is out is finished without
    having been told: the box goes on holding a promise nothing remembers. *)
Example finished_without_being_told :
  let meanwhile k := match k with 1%nat => [OpMarkRevokePending "d2" 100] | _ => [] end in
  let after := toy_reconcile all_arrive meanwhile
    (desk_vault [a_grant "d1" "SHA256:box" 200 true; a_grant "d2" "SHA256:box" 200 false],
     (0%nat, box_node [a_delegation "d1" 200 []; a_delegation "d2" 200 []])) in
  after.1 = None /\ promises_held after.2.2.2 = ["d2"%string] /\ ledger after.2.1 = [].
Proof. vm_compute. done. Qed.

(** *** Reports and retractions *)

Definition reporting_desk : node unit :=
  mk_node unit (desk_vault [a_grant "d2" "SHA256:box" 200 false; a_grant "g-phone" "SHA256:phone" 200 false]) ∅ ∅ [] tt.
Definition seen_box : option PeerIdentity := Some (mk_PeerIdentity (of_string "box") "SHA256:box" "10.0.0.9:4").
Definition two_uses : list GrantUse := [a_use "d2" "r8"; a_use "g-phone" "r9"].

Lemma report_touches_own_witness :
  (ReportGrantUse true seen_box two_uses reporting_desk).1 = inl ["r8"%string] /\
  exists id record, seen_box = Some id /\ trust_Peer (pi_Fingerprint id) (n_vault reporting_desk) = Some record /\
    (forall g, g ∈ v_grants (n_vault (ReportGrantUse true seen_box two_uses reporting_desk).2) ->
       delegated_to (tr_fingerprint record) g = false -> g ∈ v_grants (n_vault reporting_desk)) /\
    (forall i, i ∈ ["r8"%string] -> exists u g, u ∈ two_uses /\ gu_request_id u = i /\ g ∈ v_grants (n_vault reporting_desk) /\
       gr_grant_id g = gu_grant_id u /\ delegated_to (tr_fingerprint record) g = true).
Proof.
  split; [reflexivity|]. refine (report_touches_own seen_box two_uses reporting_desk _ ["r8"%string] _ _).
  - repeat constructor; cbn; set_solver.
  - reflexivity.
Defined.

#[local] Instance a_holder : KeyHolders unit := {|
  kh_KeyHolders := fun _ _ => ["SHA256:box"%string; "SHA256:phone"%string];
  kh_Signer := fun _ _ => Ok toy_key
|}.

Definition a_retraction : Retraction :=
  mk_Retraction "t1" "SHA256:k" "e1" None (Some 100) (Some (15 * Minute + Hour)) "SHA256:box" "box" "lost".
#[local] Instance retraction_codec : Codec Retraction | 0 := table [a_retraction].
#[local] Instance retraction_codec_laws : CodecLaws Retraction | 0 := table_laws _.

(** A node that held an endorsement for the key. *)
Definition endorsed_node (peer : TrustRecord) : node unit :=
  mk_node unit (mk_vault [] [] [mk_HeldEndorsement None (Some Identity.toy_endorsement) (Some 0) true [] 0] []
    [peer] ["SHA256:k"%string] (fun _ => 100) 0 (fun _ => None) 0) ∅ ∅ [] tt.
Definition other_holders : gmap string (node unit) := {[ "SHA256:box"%string := endorsed_node box_record ]}.
Abbreviation retracted := (Retract (KeyPeers0 := holders (Q := unit) (fun _ => seen_box) (fun _ => true)) the_box true true
  "t1" "e1" "SHA256:k" "lost" Hour (endorsed_node box_record, other_holders)).

Lemma returned_run {A B C} (x : A * (B * C)) a : x.1 = a -> x = (a, (x.2.1, x.2.2)).
Proof. by destruct x as [? [? ?]]; cbn; intros ->. Qed.


(** A promise arrives with an answer from the machine that made it, and from
    nobody else. *)
Definition desk_record (fp : string) (key : bytes) : TrustRecord :=
  mk_TrustRecord fp "desk" key [] true false [] None false false emp None None.
Definition promised : ApprovalResponse :=
  only_delegation (ok_or (mk_SignedDelegation [] [] emp emp []) (SignDelegation toy_identity (Some Identity.toy_delegation))).
Definition paired_node : node unit :=
  mk_node unit (mk_vault [] [] [] [] [desk_record "SHA256:i" (of_string "i"); desk_record "SHA256:j" (of_string "j")] []
    (fun _ => 100) 0 (fun _ => None) 0) ∅ ∅ [] tt.

Example a_delegation_arrives :
  map (fun ref => promises_held (promise_step the_box true true (CallAnswer ref promised) paired_node))
    ["SHA256:i"; "SHA256:j"; "SHA256:x"]%string = [["d1"%string]; []; []].
Proof. vm_compute. done. Qed.
