(* ===== verification/Wakeups.v ===== *)
(** * Wakeups: how a machine that cannot be dialled is woken

    [pkg/keystore/wakeups.go] - the routes peers announced, and this
    instance's own settings - and the two sides of [pkg/peer/wakeup.go]: the
    requester that is told a route and knocks with it, and the approver that
    announces its own.  The store is the part of the document those operations
    read and write, with a stream for what each [save] comes to and one for
    what [crypto/rand] gives.  Parsing a URL is [net/url], the class
    [UrlParser]; the relay is the class [Relay]. *)

From S2P Require Import Prelude.
From S2P Require Import GoText.
From S2P Require Import Proto.
From S2P Require Import Ssh.
From S2P Require Import Rpc.
From S2P Require Import Trust.
From S2P Require Import Regions.
From S2P Require Import Vault.
From S2P Require Import Access.

Local Open Scope Z_scope.
Local Open Scope ladulas_scope.

(** ** Messages *)

Inductive WakeupKind := WAKEUP_KIND_UNSPECIFIED | WAKEUP_KIND_RELAY.
Record WakeupRoute := mk_WakeupRoute {
  wr_kind : WakeupKind;
  wr_relay_url : string;
  wr_instance_id : string
}.
Record PeerWakeup := mk_PeerWakeup {
  pw_peer_fingerprint : string;
  pw_route : option WakeupRoute;
  pw_announced_at : option time;
  pw_quiet_until : option time
}.
Record WakeupSettings := mk_WakeupSettings {
  ws_enabled : bool;
  ws_relay_url : string;
  ws_instance_id : string;
  ws_platform : PushPlatform;
  ws_device_token : string;
  ws_registered_at : option time
}.
Record AnnounceWakeupRequest := mk_AnnounceWakeupRequest {
  aw_route : option WakeupRoute;
  aw_quiet_until : option time
}.
Record AnnounceWakeupResponse := mk_AnnounceWakeupResponse { ar_accepted : bool; ar_reason : string }.

#[export] Instance WakeupKind_eq_dec : EqDecision WakeupKind.
Proof. solve_decision. Defined.
#[export] Instance WakeupRoute_eq_dec : EqDecision WakeupRoute.
Proof. solve_decision. Defined.
#[export] Instance WakeupSettings_eq_dec : EqDecision WakeupSettings.
Proof. solve_decision. Defined.

Definition no_settings : WakeupSettings := mk_WakeupSettings false emp emp PUSH_PLATFORM_UNSPECIFIED emp None.
Definition set_instance_id (id : string) (s : WakeupSettings) : WakeupSettings :=
  mk_WakeupSettings (ws_enabled s) (ws_relay_url s) id (ws_platform s) (ws_device_token s) (ws_registered_at s).

(** ** The store *)

Record wakeups := mk_wakeups {
  wk_routes : list PeerWakeup;
  wk_own : option WakeupSettings;
  wk_disk : nat -> option error;
  wk_writes : nat;
  wk_random : nat -> option bytes;   (** [rand.Read] of sixteen bytes *)
  wk_draws : nat
}.
Definition set_routes (l : list PeerWakeup) (w : wakeups) : wakeups :=
  mk_wakeups l (wk_own w) (wk_disk w) (wk_writes w) (wk_random w) (wk_draws w).
Definition set_own (s : WakeupSettings) (w : wakeups) : wakeups :=
  mk_wakeups (wk_routes w) (Some s) (wk_disk w) (wk_writes w) (wk_random w) (wk_draws w).

Definition wk_save : state wakeups (option error) := fun w =>
  (wk_disk w (wk_writes w),
   mk_wakeups (wk_routes w) (wk_own w) (wk_disk w) (S (wk_writes w)) (wk_random w) (wk_draws w)).

Definition of_peer (fingerprint : string) (w : PeerWakeup) : bool := bool_decide (pw_peer_fingerprint w = fingerprint).

Definition PeerWakeup_of (fingerprint : string) (w : wakeups) : option PeerWakeup :=
  find_first (of_peer fingerprint) (wk_routes w).

Definition sameRoute (a b : PeerWakeup) : bool :=
  bool_decide (pw_route a = pw_route b) && (AsTime (pw_quiet_until a) =? AsTime (pw_quiet_until b)).

(** The first entry of the peer, replaced; [None] when there is none. *)
Fixpoint replace_route (stored : PeerWakeup) (l : list PeerWakeup) : option (PeerWakeup * list PeerWakeup) :=
  match l with
  | [] => None
  | e :: l' =>
    if of_peer (pw_peer_fingerprint stored) e then Some (e, stored :: l')
    else '(old, l'') ← replace_route stored l'; Some (old, e :: l'')
  end.

Definition PutPeerWakeup (wakeup : PeerWakeup) : state wakeups (option error) :=
  if bool_decide (pw_peer_fingerprint wakeup = emp)
  then mret (Some (errors_New "keystore: a wake-up route names no peer"))
  else
    routes ← gets wk_routes;
    match replace_route wakeup routes with
    | Some (existing, replaced) =>
      if sameRoute existing wakeup then mret None
      else _ ← modify (set_routes replaced); wk_save
    | None => _ ← modify (set_routes (routes ++ [wakeup])); wk_save
    end.

Definition DropPeerWakeup (fingerprint : string) : state wakeups (result bool) :=
  routes ← gets wk_routes;
  if negb (existsb (of_peer fingerprint) routes) then mret (Ok false)
  else
    _ ← modify (set_routes (List.filter (fun w => negb (of_peer fingerprint w)) routes));
    failed ← wk_save;
    mret (match failed with Some e => Err e | None => Ok true end).

Definition WakeupSettings_of (w : wakeups) : WakeupSettings := default no_settings (wk_own w).

(** [encoding/base32] without padding: five bits a character, most significant
    first, the last one filled up with zeros; then in lower case. *)
Definition b32_char (d : Z) : byte := byte_of (if d <? 26 then 97 + d else 24 + d).
Definition byte_bits (b : byte) : list bool := map (fun i => Z.testbit (byte_val b) i) [7; 6; 5; 4; 3; 2; 1; 0].
Definition bits_val (l : list bool) : Z := foldl (fun v (b : bool) => 2 * v + (if b then 1 else 0)) 0 l.
Fixpoint b32_groups (fuel : nat) (l : list bool) : list Z :=
  match fuel, l with
  | S n, _ :: _ => bits_val (take 5 (l ++ repeat false 4)) :: b32_groups n (drop 5 l)
  | _, _ => []
  end.
Definition b32_lower (b : bytes) : string :=
  let l := concat (map byte_bits b) in to_string (map b32_char (b32_groups (length l) l)).

Definition NewWakeupInstanceID : state wakeups (result string) := fun w =>
  (match wk_random w (wk_draws w) with
   | Some b => Ok (b32_lower b)
   | None => Err (errors_New "keystore: no randomness for a wake-up identifier")
   end,
   mk_wakeups (wk_routes w) (wk_own w) (wk_disk w) (wk_writes w) (wk_random w) (S (wk_draws w))).

Definition store_settings (stored : WakeupSettings) : state wakeups (option error) :=
  current ← gets wk_own;
  if bool_decide (current = Some stored) then mret None
  else _ ← modify (set_own stored); wk_save.

Definition SetWakeupSettings (settings : option WakeupSettings) : state wakeups (option error) :=
  let stored := default no_settings settings in
  current ← gets WakeupSettings_of;
  if bool_decide (ws_instance_id stored <> emp) then store_settings stored
  else if bool_decide (ws_instance_id current <> emp) && bool_decide (ws_relay_url current = ws_relay_url stored)
  then store_settings (set_instance_id (ws_instance_id current) stored)
  else
    id ← NewWakeupInstanceID;
    match id with
    | Err e => mret (Some e)
    | Ok id => store_settings (set_instance_id id stored)
    end.

(** ** The requester *)

(** [url.Parse]: the scheme, the host with its port, and the host name. *)
Class UrlParser := url_Parse : string -> result (string * string * string).

Definition isLoopback (host : string) : bool :=
  bool_decide (host = "localhost"%string) || bool_decide (host = "127.0.0.1"%string) || bool_decide (host = "::1"%string).

Definition checkRelayURL `{UrlParser} (raw : string) : string :=
  match url_Parse raw with
  | Err e => "that relay URL does not parse: " +:+ e_msg e
  | Ok (scheme, host, hostname) =>
    if bool_decide (host = emp) then "that relay URL names no host"
    else if bool_decide (scheme = "https"%string) then emp
    else if bool_decide (scheme = "http"%string) && (isLoopback hostname || isTailnet hostname) then emp
    else "this instance sends wake-ups to an https relay, or to one on the tailnet"
  end.

Section Requester.
Context `{Unicode} `{Ssh} `{UrlParser} {R : Type}.
(** Whether [n.wakeups] is set. *)
Variable keeps : bool.

Definition on_wakeups {A} (m : state wakeups A) : state (node (wakeups * R)) A := fun n =>
  let '(a, p) := here m (n_rest n) in (a, mk_node _ (n_vault n) (n_seen n) (n_load n) (n_gossip n) p).

Definition AnnounceWakeup (peer : option PeerIdentity) (req : AnnounceWakeupRequest)
    : state (node (wakeups * R)) (reply AnnounceWakeupResponse) :=
  found ← publisherFor peer;
  match found with
  | inr e => mret (inr e)
  | inl (id, _) =>
    if negb keeps then mret (inl (mk_AnnounceWakeupResponse false "this instance does not send wake-ups"))
    else
      match aw_route req with
      | None =>
        dropped ← on_wakeups (DropPeerWakeup (pi_Fingerprint id));
        mret (match dropped with
              | Err e => inr (mk_rpc_error CodeInternal e)
              | Ok _ => inl (mk_AnnounceWakeupResponse true emp)
              end)
      | Some route =>
        let refusal := checkRelayURL (wr_relay_url route) in
        if bool_decide (refusal <> emp) then mret (inl (mk_AnnounceWakeupResponse false refusal))
        else if bool_decide (wr_instance_id route = emp)
        then mret (inl (mk_AnnounceWakeupResponse false "the route names no instance at the relay"))
        else
          now ← on_vault Now;
          failed ← on_wakeups (PutPeerWakeup (mk_PeerWakeup (pi_Fingerprint id) (Some route) (Some now) (aw_quiet_until req)));
          mret (match failed with
                | Some e => inr (mk_rpc_error CodeInternal e)
                | None => inl (mk_AnnounceWakeupResponse true emp)
                end)
      end
  end.

End Requester.

(** ** Knocking *)

(** A call to a relay; while it is out the rest of the program runs, so it acts
    on the store too. *)
Class Relay (R : Type) :=
  rl_Wake : string -> string -> WakeStyle -> WakeSubject -> state (wakeups * R) (result WakeOutcome).

Section Knocking.
Context {R : Type} `{!Relay R}.

Definition noteWoken (fingerprint : string) (outcome : WakeOutcome) : state wakeups unit :=
  match outcome with
  | WAKE_OUTCOME_UNREGISTERED | WAKE_OUTCOME_UNKNOWN => _ ← DropPeerWakeup fingerprint; mret tt
  | _ => mret tt
  end.

Definition sendWake (wakeup : PeerWakeup) (fingerprint : string) (style : WakeStyle) (subject : WakeSubject)
    : state (wakeups * R) unit :=
  let route := pw_route wakeup in
  answer ← rl_Wake route⇢wr_relay_url route⇢wr_instance_id style subject;
  match answer with
  | Err _ => mret tt
  | Ok outcome => here (noteWoken fingerprint outcome)
  end.

Definition quiet (wakeup : PeerWakeup) (now : time) : bool :=
  match pw_quiet_until wakeup with None => false | Some until => After until now end.

(** [stopped] says whether the node shuts down within the grace, [settled]
    whether the request is no longer parked after it. *)
Definition runWake (now : time) (stopped settled : bool) (wakeup : PeerWakeup) (fingerprint : string)
    : state (wakeups * R) unit :=
  if negb (quiet wakeup now) then sendWake wakeup fingerprint WAKE_STYLE_ALERT WAKE_SUBJECT_APPROVAL
  else
    _ ← sendWake wakeup fingerprint WAKE_STYLE_SILENT WAKE_SUBJECT_APPROVAL;
    if stopped then mret tt
    else if settled then mret tt
    else sendWake wakeup fingerprint WAKE_STYLE_ALERT WAKE_SUBJECT_APPROVAL.

(** What is started, if anything. *)
Definition wakePeer (keeps : bool) (fingerprint : string) (w : wakeups) : option PeerWakeup :=
  if negb keeps then None
  else
    match PeerWakeup_of fingerprint w with
    | Some wakeup => if bool_decide (is_Some (pw_route wakeup)) then Some wakeup else None
    | None => None
    end.

Definition wakeForKey (keeps : bool) (fingerprint : string) : state (wakeups * R) unit :=
  found ← here (gets (wakePeer keeps fingerprint));
  match found with
  | None => mret tt
  | Some wakeup => sendWake wakeup fingerprint WAKE_STYLE_ALERT WAKE_SUBJECT_KEY_OFFER
  end.

End Knocking.

(** ** The approver *)

Definition announceRefresh : duration := 6 * Hour.

(** What was last said to one requester. *)
Record announced := mk_announced { ad_at : time; ad_route : string; ad_quiet : time }.

(** The part of the approver's node that announcing works on. *)
Record announcer := mk_announcer {
  an_wakeups : wakeups;
  an_peers : list TrustRecord;
  an_said : gmap string announced;
  an_clock : nat -> time;
  an_ticks : nat
}.
Definition set_an_wakeups (w : wakeups) (a : announcer) : announcer :=
  mk_announcer w (an_peers a) (an_said a) (an_clock a) (an_ticks a).
Definition set_said (m : gmap string announced) (a : announcer) : announcer :=
  mk_announcer (an_wakeups a) (an_peers a) m (an_clock a) (an_ticks a).
Definition an_now : state announcer time := fun a =>
  (an_clock a (an_ticks a), mk_announcer (an_wakeups a) (an_peers a) (an_said a) (an_clock a) (S (an_ticks a))).

Definition routeKey (route : option WakeupRoute) : string :=
  match route with
  | None => emp
  | Some r => wr_relay_url r +:+ String (ascii_of_N 0) emp +:+ wr_instance_id r
  end.

(** [n.call] to a peer's wake-up service. *)
Class WakePeers (W : Type) := wp_AnnounceWakeup : TrustRecord -> AnnounceWakeupRequest -> state W (result AnnounceWakeupResponse).

Section Approver.
(** The tunnel version of this build, and the engine's [QuietUntil]. *)
Variables (ours : Z) (QuietUntil : string -> time).

Definition requesters (peers : list TrustRecord) : list TrustRecord :=
  List.filter (fun r => tr_may_request r && Dialable (Some r) ours) peers.

Definition ownRoute (fingerprint : string) (w : wakeups) : option WakeupRoute * time :=
  let settings := WakeupSettings_of w in
  if negb (ws_enabled settings) || bool_decide (ws_instance_id settings = emp) || bool_decide (ws_device_token settings = emp)
  then (None, zero_time)
  else (Some (mk_WakeupRoute WAKEUP_KIND_RELAY (ws_relay_url settings) (ws_instance_id settings)), QuietUntil fingerprint).

(** Whether what was last said still says it. *)
Definition said_already (route : option WakeupRoute) (quiet : time) (last : announced) : bool :=
  bool_decide (ad_route last = routeKey route) && (ad_quiet last =? quiet).

Definition say (fingerprint : string) (route : option WakeupRoute) (quiet : time) : state announcer bool :=
  at_ ← an_now;
  _ ← modify (fun a => set_said (<[fingerprint := mk_announced at_ (routeKey route) quiet]> (an_said a)) a);
  mret true.

Definition shouldAnnounce (fingerprint : string) (route : option WakeupRoute) (quiet : time) : state announcer bool :=
  last ← gets (fun a => an_said a !! fingerprint);
  match last with
  | None => match route with None => mret false | Some _ => say fingerprint route quiet end
  | Some last =>
    if said_already route quiet last
    then now ← an_now; if Sub now (ad_at last) <? announceRefresh then mret false else say fingerprint route quiet
    else say fingerprint route quiet
  end.

Definition forgetAnnouncement (fingerprint : string) : state announcer unit :=
  modify (fun a => set_said (delete fingerprint (an_said a)) a).

Context {W : Type} `{!WakePeers W}.

Definition announceTo (record : TrustRecord) (route : option WakeupRoute) (quiet : time) : state (announcer * W) unit :=
  answer ← there (wp_AnnounceWakeup record
             (mk_AnnounceWakeupRequest route (if IsZero quiet then None else Some quiet)));
  match answer with
  | Err _ => here (forgetAnnouncement (tr_fingerprint record))
  | Ok _ => mret tt
  end.

(** One turn of the loop. *)
Definition announce_one (record : TrustRecord) : state (announcer * W) unit :=
  '(route, quiet) ← here (gets (fun a => ownRoute (tr_fingerprint record) (an_wakeups a)));
  due ← here (shouldAnnounce (tr_fingerprint record) route quiet);
  if (due : bool) then announceTo record route quiet else mret tt.

(** [live] is how many turns the context lets through. *)
Fixpoint announce_each (live : nat) (records : list TrustRecord) : state (announcer * W) unit :=
  match records, live with
  | record :: records', S live' => _ ← announce_one record; announce_each live' records'
  | _, _ => mret tt
  end.

Definition AnnounceWakeups (keeps : bool) (live : nat) : state (announcer * W) unit :=
  if negb keeps then mret tt
  else records ← here (gets (fun a => requesters (an_peers a))); announce_each live records.

Definition stale (a : announced) : announced := mk_announced zero_time (ad_route a) (ad_quiet a).

Definition SetWakeups (keeps : bool) (live : nat) (settings : option WakeupSettings) : state (announcer * W) (option error) :=
  if negb keeps then mret (Some (errors_New "peer: this instance does not do wake-ups"))
  else
    failed ← here (fun a => let '(e, w) := SetWakeupSettings settings (an_wakeups a) in (e, set_an_wakeups w a));
    match failed with
    | Some e => mret (Some e)
    | None =>
      _ ← here (modify (fun a => set_said (stale <$> an_said a) a));
      _ ← AnnounceWakeups keeps live;
      mret None
    end.

End Approver.
