(* ===== verification/WakeupsSpec.v ===== *)
(** * WakeupsSpec: what a requester is told it holds

    The theorems about [Wakeups].  What an approver has written down as said
    to a requester is what that requester holds, whatever becomes of the calls;
    a round whose calls get through leaves every requester with the route there
    is to announce; and this instance's identifier at a relay changes only with
    the relay. *)

From S2P Require Import Prelude.
From S2P Require Import Rules.
From S2P Require Import GoText.
From S2P Require Import Proto.
From S2P Require Import Ssh.
From S2P Require Import Rpc.
From S2P Require Import Trust.
From S2P Require Import Regions.
From S2P Require Import Vault.
From S2P Require Import Access.
From S2P Require Import Wakeups.

Local Open Scope Z_scope.
Local Open Scope ladulas_scope.

(** ** The store *)

Lemma replace_route_Some stored l old l' : replace_route stored l = Some (old, l') ->
  find_first (of_peer (pw_peer_fingerprint stored)) l = Some old /\
  find_first (of_peer (pw_peer_fingerprint stored)) l' = Some stored /\
  forall fp, fp <> pw_peer_fingerprint stored -> find_first (of_peer fp) l' = find_first (of_peer fp) l.
Proof.
  revert old l'. induction l as [|e l IH]; intros old l'; cbn; [done|].
  destruct (of_peer (pw_peer_fingerprint stored) e) eqn:He.
  - intros [= <- <-]. cbn. unfold of_peer at 1. rewrite bool_decide_eq_true_2 by done. split_and!; [done..|].
    intros fp Hfp. unfold of_peer in He. bool_prop. unfold of_peer. rewrite !bool_decide_eq_false_2 by congruence. done.
  - destruct (replace_route stored l) as [[o l'']|]; [|done]. intros [= <- <-].
    destruct (IH o l'' eq_refl) as (H1 & H2 & H3). cbn. rewrite He. split_and!; [done..|].
    intros fp Hfp. by rewrite H3.
Qed.

Lemma replace_route_None stored l : replace_route stored l = None ->
  find_first (of_peer (pw_peer_fingerprint stored)) l = None.
Proof.
  induction l as [|e l IH]; cbn; [done|]. destruct (of_peer _ e); [done|].
  destruct (replace_route stored l) as [[o l'']|]; [done|]. intros _. by apply IH.
Qed.

Lemma find_first_filter {A} (p q : A -> bool) l :
  (forall x, p x = true -> q x = true) -> find_first p (List.filter q l) = find_first p l.
Proof.
  intros Hq. induction l as [|x l IH]; cbn; [done|]. destruct (p x) eqn:Hp.
  - rewrite (Hq x Hp). cbn. by rewrite Hp.
  - destruct (q x); cbn; [by rewrite Hp|done].
Qed.

(** The route on file for a peer says this. *)
Definition holds_route (fingerprint : string) (route : WakeupRoute) (quiet : option time) (w : wakeups) : Prop :=
  exists u, PeerWakeup_of fingerprint w = Some u /\ pw_route u = Some route /\ AsTime (pw_quiet_until u) = AsTime quiet.

(** Nobody else's route is touched. *)
Definition others_kept (fingerprint : string) (w w' : wakeups) : Prop :=
  forall fp, fp <> fingerprint -> PeerWakeup_of fp w' = PeerWakeup_of fp w.

Lemma PutPeerWakeup_run u route w failed w' :
  pw_route u = Some route -> PutPeerWakeup u w = (failed, w') ->
  (failed = None -> holds_route (pw_peer_fingerprint u) route (pw_quiet_until u) w') /\
  others_kept (pw_peer_fingerprint u) w w'.
Proof.
  intros Hr. unfold PutPeerWakeup. case_bool_decide as He; [by intros [= <- <-]|].
  rewrite state_bind_unfold. cbn [gets fst snd]. unfold holds_route, others_kept, PeerWakeup_of.
  destruct (replace_route u (wk_routes w)) as [[old l]|] eqn:Hre.
  - apply replace_route_Some in Hre as (Ho & Hn & Hk). destruct (sameRoute old u) eqn:Hs.
    + intros [= <- <-]. split; [|done]. intros _. exists old. unfold sameRoute in Hs. bool_prop. split; [done|]. split; [congruence|done].
    + intros [= <- <-]. cbn [wk_routes set_routes wk_save modify fst snd]. split; [|done]. intros _. by exists u.
  - apply replace_route_None in Hre. intros [= <- <-]. cbn [wk_routes set_routes wk_save modify fst snd]. split.
    + intros _. exists u. rewrite find_first_snoc, Hre. unfold of_peer. by rewrite bool_decide_eq_true_2.
    + intros fp Hfp. rewrite find_first_snoc. replace (of_peer fp u) with false by (symmetry; by apply bool_decide_eq_false_2, not_eq_sym). by case_match.
Qed.

Lemma DropPeerWakeup_run fp w r w' : DropPeerWakeup fp w = (r, w') ->
  PeerWakeup_of fp w' = None /\ others_kept fp w w'.
Proof.
  unfold DropPeerWakeup, PeerWakeup_of, others_kept. rewrite state_bind_unfold. cbn [gets fst snd].
  destruct (existsb (of_peer fp) (wk_routes w)) eqn:He; cbn [negb].
  - intros [= _ <-]. cbn [wk_routes set_routes]. split.
    + apply find_first_None, Forall_forall. intros x [_ Hx]%elem_of_filter_bool. by apply negb_true_iff in Hx.
    + intros fp' Hne. unfold PeerWakeup_of. cbn [wk_routes set_routes wk_save modify fst snd]. apply find_first_filter.
      intros x Hx. unfold of_peer in *. bool_prop. subst. by apply negb_true_iff, bool_decide_eq_false_2.
  - intros [= _ <-]. split; [|done]. apply find_first_None, Forall_forall. intros x Hx.
    destruct (of_peer fp x) eqn:Hx'; [|done]. assert (existsb (of_peer fp) (wk_routes w) = true) as Hc; [|congruence].
    apply existsb_exists. exists x. by rewrite <- list_elem_of_In.
Qed.

(** ** What a requester answers *)

Section Announcing.
Context `{Unicode} `{Ssh} `{UrlParser} {R : Type}.

(** A route the requester will not keep. *)
Definition refuses (keeps : bool) (route : WakeupRoute) : Prop :=
  keeps = false \/ checkRelayURL (wr_relay_url route) <> emp \/ wr_instance_id route = emp.

Lemma AnnounceWakeup_run keeps id req (n : node (wakeups * R)) resp n' :
  AnnounceWakeup keeps (Some id) req n = (inl resp, n') ->
  others_kept (pi_Fingerprint id) (n_rest n).1 (n_rest n').1 /\
  match aw_route req with
  | None => if ar_accepted resp then PeerWakeup_of (pi_Fingerprint id) (n_rest n').1 = None else keeps = false
  | Some route =>
    if ar_accepted resp
    then ~ refuses keeps route /\ holds_route (pi_Fingerprint id) route (aw_quiet_until req) (n_rest n').1
    else refuses keeps route /\ (n_rest n').1 = (n_rest n).1
  end.
Proof.
  unfold AnnounceWakeup. rewrite state_bind_unfold.
  destruct (publisherFor (Some id) n) as [[[id' record]|e] n1] eqn:Hp; [|done].
  apply publisherFor_let_in in Hp as ([= <-] & _ & _ & ->). cbn [fst snd].
  destruct keeps; cbn [negb].
  2:{ intros [= <- <-]. cbn. split; [done|]. destruct (aw_route req); [|done]. split; [by left|done]. }
  destruct (aw_route req) as [route|].
  - case_bool_decide as Hu; [|case_bool_decide as Hi].
    + intros [= <- <-]. cbn. split; [done|]. split; [by right; left|done].
    + intros [= <- <-]. cbn. split; [done|]. split; [by right; right|done].
    + rewrite !state_bind_unfold. unfold on_vault, on_wakeups, here. cbn [n_vault].
      destruct (Now (Now (n_vault n)).2) as [t v]. cbn [n_rest fst snd]. destruct (n_rest n) as [w r]. cbn [fst snd]. match goal with |- context [PutPeerWakeup ?u w] => destruct (PutPeerWakeup u w) as [[e|] w'] eqn:Hput end; [done|].
      intros [= <- <-]. eapply PutPeerWakeup_run in Hput as [Hh Ho]; [|done]. cbn in *. split; [done|].
      split; [|by apply Hh]. unfold refuses. intros [?|[Hn|?]]; done.
  - rewrite state_bind_unfold. unfold on_wakeups, here. cbn [n_rest fst snd]. destruct (n_rest n) as [w r].
    destruct (DropPeerWakeup _ w) as [[b|e] w'] eqn:Hd; [|done]. intros [= <- <-]. by apply DropPeerWakeup_run in Hd as [? ?].
Qed.

(** ** The calls *)

(** The requesters, each under the fingerprint its record at the approver
    goes by; how the approver appears to them; which of them keep routes; and
    what becomes of each call. *)
Context (id : PeerIdentity) (keeping : string -> bool) (fates : nat -> fate) (ours : Z).

Abbreviation net := (nat * gmap string (node (wakeups * R)))%type.

Definition announce_call (record : TrustRecord) (req : AnnounceWakeupRequest) : state net (result AnnounceWakeupResponse) :=
  fun '(k, m) =>
  let fp := tr_fingerprint record in
  match m !! fp with
  | None => (Err unavailable, (S k, m))
  | Some n =>
    let '(r, n') := AnnounceWakeup (keeping fp) (Some id) req n in
    match fates k with
    | Arrived => (match r with inl a => Ok a | inr e => Err (rpc_as_error e) end, (S k, <[fp := n']> m))
    | AnswerLost => (Err unavailable, (S k, <[fp := n']> m))
    | NeverArrived => (Err unavailable, (S k, m))
    end
  end.
#[local] Instance announce_wire : WakePeers net := announce_call.

(** The requester holds what was last said to it, or refuses to. *)
Definition in_step (m : gmap string (node (wakeups * R))) (fp : string) (said : announced) : Prop :=
  exists n route, m !! fp = Some n /\ routeKey route = ad_route said /\
    match route with
    | None => keeping fp = false \/ PeerWakeup_of (pi_Fingerprint id) (n_rest n).1 = None
    | Some r => refuses (keeping fp) r \/
        holds_route (pi_Fingerprint id) r (if IsZero (ad_quiet said) then None else Some (ad_quiet said)) (n_rest n).1
    end.

Definition all_in_step (s : announcer * net) : Prop :=
  forall fp said, an_said s.1 !! fp = Some said -> in_step s.2.2 fp said.

(** A call that was answered leaves the requester in step; one that was not
    changes at most the requester it was made to. *)
Lemma announce_call_run record route q k m answer k' m' :
  announce_call record (mk_AnnounceWakeupRequest route (if IsZero q then None else Some q)) (k, m) = (answer, (k', m')) ->
  (forall fp, fp <> tr_fingerprint record -> m' !! fp = m !! fp) /\
  (is_ok answer = true -> forall at_, in_step m' (tr_fingerprint record) (mk_announced at_ (routeKey route) q)).
Proof.
  unfold announce_call. set (fp := tr_fingerprint record). destruct (m !! fp) as [n|] eqn:Hm; [|by intros [= <- <- <-]].
  match goal with |- context [AnnounceWakeup ?a ?b ?c n] => destruct (AnnounceWakeup a b c n) as [r n'] eqn:Ha end.
  assert (forall fp', fp' <> fp -> <[fp := n']> m !! fp' = m !! fp') as Hins.
  { intros fp' Hne. by rewrite lookup_insert_ne. }
  destruct (fates k).
  2,3: by intros [= <- <- <-].
  destruct r as [resp|e]; intros [= <- <- <-]; [|done]. split; [done|]. intros _ at_.
  exists n', route. rewrite lookup_insert_eq. split; [done|]. split; [done|].
  apply AnnounceWakeup_run in Ha as [_ Ha]. cbn [aw_route aw_quiet_until] in Ha.
  destruct route as [route|]; destruct (ar_accepted resp); cbn [ad_quiet]; [right|left|right|left]; tauto.
Qed.

(** What there is to say to a requester has been said. *)
Definition up_to_date (QuietUntil : string -> time) (s : announcer) (fp : string) : Prop :=
  let '(route, q) := ownRoute QuietUntil fp (an_wakeups s) in
  match an_said s !! fp with None => True | Some said => said_already route q said = true end.

Lemma shouldAnnounce_run fp route q s due s' :
  shouldAnnounce fp route q s = (due, s') ->
  an_wakeups s' = an_wakeups s /\ an_peers s' = an_peers s /\
  (forall fp', fp' <> fp -> an_said s' !! fp' = an_said s !! fp') /\
  if due then exists at_, an_said s' !! fp = Some (mk_announced at_ (routeKey route) q)
  else an_said s' = an_said s /\
    match an_said s !! fp with None => route = None | Some said => said_already route q said = true end.
Proof.
  assert (forall d t, say fp route q t = (d, s') -> d = true /\ an_wakeups s' = an_wakeups t /\ an_peers s' = an_peers t /\
    (forall fp', fp' <> fp -> an_said s' !! fp' = an_said t !! fp') /\ exists at_, an_said s' !! fp = Some (mk_announced at_ (routeKey route) q)) as Hsay.
  { intros d t [= <- <-]. cbn. split_and!; [done..| |eexists; by rewrite lookup_insert_eq]. intros fp' Hne. by rewrite lookup_insert_ne. }
  unfold shouldAnnounce. rewrite state_bind_unfold. cbn [gets fst snd]. destruct (an_said s !! fp) as [last|] eqn:Hl.
  - destruct (said_already route q last) eqn:Hs.
    + rewrite state_bind_unfold. destruct (Sub _ _ <? announceRefresh).
      * by intros [= <- <-].
      * intros (-> & ? & ? & ? & ?)%Hsay. done.
    + intros (-> & ? & ? & ? & ?)%Hsay. done.
  - destruct route as [route|]; [by intros (-> & ? & ? & ? & ?)%Hsay|]. by intros [= <- <-].
Qed.

Lemma announce_one_run Q record s s' u :
  announce_one Q record s = (u, s') -> all_in_step s ->
  all_in_step s' /\ an_wakeups s'.1 = an_wakeups s.1 /\ an_peers s'.1 = an_peers s.1 /\
  up_to_date Q s'.1 (tr_fingerprint record) /\
  (forall fp, up_to_date Q s.1 fp -> up_to_date Q s'.1 fp).
Proof.
  intros Hrun Hall. destruct s as [a [k m]]. set (fp := tr_fingerprint record). unfold announce_one in Hrun.
  rewrite state_bind_unfold in Hrun. cbn [here gets fst snd] in Hrun. fold fp in Hrun.
  destruct (ownRoute Q fp (an_wakeups a)) as [route q] eqn:Ho. rewrite state_bind_unfold in Hrun.
  destruct (shouldAnnounce fp route q a) as [due a1] eqn:Hs. erewrite here_at in Hrun by exact Hs. cbn [fst snd] in Hrun.
  apply shouldAnnounce_run in Hs as (Hw & Hp & Hoth & Hdue).
  assert (forall a2, an_wakeups a2 = an_wakeups a -> (forall fp', fp' <> fp -> an_said a2 !! fp' = an_said a !! fp') ->
    up_to_date Q a2 fp -> forall fp', up_to_date Q a fp' -> up_to_date Q a2 fp') as Hkeep.
  { intros a2 Hw2 Ho2 Hfp fp' Hu. destruct (decide (fp' = fp)) as [->|Hne]; [done|]. unfold up_to_date in *. by rewrite Hw2, Ho2. }
  assert (forall at_, said_already route q (mk_announced at_ (routeKey route) q) = true) as Hself.
  { intros at_. unfold said_already. cbn. rewrite bool_decide_eq_true_2 by done. by rewrite Z.eqb_refl. }
  destruct due.
  - destruct Hdue as [at_ Hsaid]. unfold announceTo in Hrun. rewrite state_bind_unfold in Hrun.
    match type of Hrun with context [there ?c (a1, (k, m))] => destruct (there c (a1, (k, m))) as [answer [a2 [k' m']]] eqn:Hc end.
    unfold there in Hc. unfold wp_AnnounceWakeup, announce_wire in Hc.
    destruct (announce_call record _ (k, m)) as [answer' [k2 m2]] eqn:Hc' in Hc. injection Hc as <- <- <- <-.
    apply announce_call_run in Hc' as [Hm Hok]. cbn [fst snd] in Hrun. destruct answer' as [resp|e].
    + injection Hrun as <- <-. cbn [fst snd]. split; [|split_and!; [done|done| |]].
      * intros fp' said Hl. cbn [fst snd] in *. destruct (decide (fp' = fp)) as [->|Hne].
        -- rewrite Hsaid in Hl. injection Hl as <-. by apply Hok.
        -- rewrite Hoth in Hl by done. destruct (Hall fp' said Hl) as (n & r & Hn & Hr). exists n, r. cbn. by rewrite Hm.
      * unfold up_to_date. rewrite Hw, Ho, Hsaid. apply Hself.
      * apply Hkeep; [done..|]. unfold up_to_date. rewrite Hw, Ho, Hsaid. apply Hself.
    + injection Hrun as <- <-. cbn [fst snd set_said an_wakeups an_peers an_said]. split; [|split_and!; [done|done| |]].
      * intros fp' said Hl. cbn [fst snd set_said an_said] in *. destruct (decide (fp' = fp)) as [->|Hne].
        -- by rewrite lookup_delete_eq in Hl.
        -- rewrite lookup_delete_ne, Hoth in Hl by done. destruct (Hall fp' said Hl) as (n & r & Hn & Hr). exists n, r. cbn. by rewrite Hm.
      * unfold up_to_date. cbn [set_said an_said an_wakeups]. rewrite Hw, Ho. by rewrite lookup_delete_eq.
      * apply Hkeep; [done| |].
        -- intros fp' Hne. cbn. by rewrite lookup_delete_ne, Hoth.
        -- unfold up_to_date. cbn [set_said an_said an_wakeups]. rewrite Hw, Ho. by rewrite lookup_delete_eq.
  - injection Hrun as <- <-. cbn [fst snd]. destruct Hdue as [Hsame Hd].
    assert (up_to_date Q a1 fp) as Hfp.
    { unfold up_to_date. rewrite Hw, Ho, Hsame. by destruct (an_said a !! fp). }
    split; [|split_and!; [done|done|done|by apply Hkeep]].
    intros fp' said Hl. cbn [fst snd] in *. rewrite Hsame in Hl. by apply Hall.
Qed.

Lemma announce_each_run Q records live s s' u :
  announce_each Q live records s = (u, s') -> all_in_step s ->
  all_in_step s' /\ an_wakeups s'.1 = an_wakeups s.1 /\ an_peers s'.1 = an_peers s.1 /\
  (forall fp, up_to_date Q s.1 fp -> up_to_date Q s'.1 fp) /\
  ((length records <= live)%nat -> forall r, r ∈ records -> up_to_date Q s'.1 (tr_fingerprint r)).
Proof.
  revert live s. induction records as [|record records IH]; intros live s.
  { destruct live; intros [= <- <-] Hs; (split_and!; try done); intros _ r Hr; by apply elem_of_nil in Hr. }
  destruct live as [|live]; cbn [announce_each].
  { intros [= <- <-] Hs. split_and!; try done. cbn. intros Hlen. lia. }
  rewrite state_bind_unfold. destruct (announce_one Q record s) as [[] s1] eqn:Hone. cbn [fst snd]. intros Hrun Hs.
  destruct (announce_one_run _ _ _ _ _ Hone Hs) as (Hs1 & Hw1 & Hp1 & Hu & Hk1).
  destruct (IH live s1 Hrun Hs1) as (Hs' & Hw & Hp & Hk & Hall). split_and!; [done|congruence|congruence| |].
  - intros fp Hfp. by apply Hk, Hk1.
  - intros Hlen r [->|Hr]%elem_of_cons; [by apply Hk|]. apply Hall; [cbn in Hlen; lia|done].
Qed.

Lemma AnnounceWakeups_run Q keeps live s s' u :
  AnnounceWakeups ours Q keeps live s = (u, s') -> all_in_step s ->
  all_in_step s' /\ an_wakeups s'.1 = an_wakeups s.1 /\ an_peers s'.1 = an_peers s.1 /\
  (keeps = true -> (length (requesters ours (an_peers s.1)) <= live)%nat ->
   forall r, r ∈ requesters ours (an_peers s.1) -> up_to_date Q s'.1 (tr_fingerprint r)).
Proof.
  unfold AnnounceWakeups. destruct keeps; cbn [negb]; [|by intros [= <- <-]].
  rewrite state_bind_unfold. destruct s as [a n]. cbn [here gets fst snd]. intros Hrun Hs.
  destruct (announce_each_run _ _ _ _ _ _ Hrun Hs) as (? & ? & ? & _ & Hup). split_and!; [done..|]. intros _. apply Hup.
Qed.

(** ** What an approver does about its route *)

Inductive announcer_op :=
| OpRound (QuietUntil : string -> time) (live : nat)
| OpConfigure (QuietUntil : string -> time) (live : nat) (settings : option WakeupSettings)
| OpPeers (peers : list TrustRecord).

Definition announcer_step (o : announcer_op) (s : announcer * net) : announcer * net :=
  match o with
  | OpRound Q live => (AnnounceWakeups ours Q true live s).2
  | OpConfigure Q live settings => (SetWakeups ours Q true live settings s).2
  | OpPeers l => (mk_announcer (an_wakeups s.1) l (an_said s.1) (an_clock s.1) (an_ticks s.1), s.2)
  end.
Definition announcer_run (ops : list announcer_op) (s : announcer * net) : announcer * net :=
  foldl (fun s o => announcer_step o s) s ops.

Lemma in_step_stale m fp said : in_step m fp said -> in_step m fp (stale said).
Proof. done. Qed.

Lemma announcer_step_in_step o s : all_in_step s -> all_in_step (announcer_step o s).
Proof.
  destruct o as [Q live|Q live settings|l]; cbn [announcer_step]; intros Hs.
  - destruct (AnnounceWakeups ours Q true live s) as [u s'] eqn:Hr. by apply AnnounceWakeups_run in Hr as [? _].
  - unfold SetWakeups. cbn [negb]. rewrite state_bind_unfold. destruct s as [a n]. cbn [here fst snd].
    destruct (SetWakeupSettings settings (an_wakeups a)) as [[e|] w]; cbn [fst snd]; [done|].
    rewrite state_bind_unfold. cbn [here modify fst snd]. rewrite state_bind_unfold.
    destruct (AnnounceWakeups _ _ _ _ _) as [u s'] eqn:Hr. cbn [fst snd mret state_ret].
    apply AnnounceWakeups_run in Hr as [? _]; [done|]. intros fp said. cbn [fst snd an_said set_said set_an_wakeups].
    rewrite lookup_fmap. destruct (an_said a !! fp) as [old|] eqn:Ho; [|done]. intros [= <-]. apply in_step_stale. by apply Hs.
  - exact Hs.
Qed.

Lemma announcer_run_in_step ops s : all_in_step s -> all_in_step (announcer_run ops s).
Proof. revert s. induction ops as [|o ops IH]; intros s Hs; [done|]. by apply IH, announcer_step_in_step. Qed.

(** Whatever rounds, settings and pairings went before, and whatever became of
    the calls they made: after a round that was not cut short, each requester
    whose call was heard holds exactly the route there is to announce, with
    the moment until which it may be woken quietly, or holds none when there
    is none; or it is one that keeps no routes, or refuses this one. *)
Theorem announced_everywhere ops (a : announcer) (n : net) Q live r :
  an_said a = ∅ ->
  let s := announcer_run ops (a, n) in
  r ∈ requesters ours (an_peers s.1) -> (length (requesters ours (an_peers s.1)) <= live)%nat ->
  let s' := announcer_step (OpRound Q live) s in
  let fp := tr_fingerprint r in
  let '(route, q) := ownRoute Q fp (an_wakeups s.1) in
  an_said s'.1 !! fp = None \/
  exists m route', s'.2.2 !! fp = Some m /\ routeKey route' = routeKey route /\
    match route' with
    | None => keeping fp = false \/ PeerWakeup_of (pi_Fingerprint id) (n_rest m).1 = None
    | Some r' => refuses (keeping fp) r' \/
        holds_route (pi_Fingerprint id) r' (if IsZero q then None else Some q) (n_rest m).1
    end.
Proof.
  cbv zeta. intros Ha Hr Hlen. assert (all_in_step (announcer_run ops (a, n))) as Hs.
  { apply announcer_run_in_step. intros fp said. cbn. by rewrite Ha, lookup_empty. }
  cbn [announcer_step]. destruct (AnnounceWakeups ours Q true live _) as [u s'] eqn:Hrun.
  apply AnnounceWakeups_run in Hrun as (Hs' & Hw & _ & Hup); [|done]. specialize (Hup eq_refl Hlen r Hr). cbn [snd].
  unfold up_to_date in Hup. rewrite Hw in Hup. destruct (ownRoute Q (tr_fingerprint r) _) as [route q].
  destruct (an_said s'.1 !! tr_fingerprint r) as [said|] eqn:Hl; [|by left]. right.
  unfold said_already in Hup. bool_prop. destruct (Hs' _ _ Hl) as (m & route' & Hm & Hk & Hh).
  exists m, route'. split; [done|]. split; [congruence|]. by subst q.
Qed.

(** A requester that has not heard of a route is called in the next round. *)
Lemma unheard_is_called fp route q a :
  an_said a !! fp = None -> (shouldAnnounce fp (Some route) q a).1 = true.
Proof. intros Hn. unfold shouldAnnounce. rewrite state_bind_unfold. cbn [gets fst snd]. by rewrite Hn. Qed.

End Announcing.

(** ** The identifier at a relay *)

(** Recording settings keeps every field that was given; the identifier is the
    one given, or else the one this instance already has when the relay is the
    same, and is drawn afresh only when there is none or the relay is another;
    when there is no randomness nothing is recorded. *)
Theorem identifier_follows_the_relay given (w : wakeups) failed w' :
  let current := WakeupSettings_of w in
  let stored := default no_settings given in
  SetWakeupSettings given w = (failed, w') ->
  wk_routes w' = wk_routes w /\
  ((exists id, WakeupSettings_of w' = set_instance_id id stored /\
      (ws_instance_id stored <> emp -> id = ws_instance_id stored) /\
      (ws_instance_id stored = emp -> ws_instance_id current <> emp -> ws_relay_url current = ws_relay_url stored ->
         id = ws_instance_id current)) \/
   (wk_own w' = wk_own w /\ is_Some failed /\ wk_random w (wk_draws w) = None)).
Proof.
  cbv zeta. unfold SetWakeupSettings. rewrite state_bind_unfold. cbn [gets fst snd].
  set (stored := default no_settings given).
  assert (forall s (x : wakeups) f x', store_settings s x = (f, x') -> wk_routes x' = wk_routes x /\ WakeupSettings_of x' = s) as Hst.
  { intros s x f x'. unfold store_settings. rewrite state_bind_unfold. cbn [gets fst snd]. case_bool_decide as Hc.
    - intros [= <- <-]. split; [done|]. unfold WakeupSettings_of. by rewrite Hc.
    - by intros [= <- <-]. }
  case_bool_decide as Hgiven; [intros [Hr Hw]%Hst|].
  { split; [done|]. left. exists (ws_instance_id stored). rewrite Hw. split; [by destruct stored|]. done. }
  destruct (bool_decide _ && bool_decide _) eqn:Hs.
  - bool_prop. intros [Hr Hw]%Hst. split; [done|]. left. exists (ws_instance_id (WakeupSettings_of w)). rewrite Hw.
    split_and!; [done| |done]. intros Hne. by destruct Hgiven.
  - rewrite state_bind_unfold. unfold NewWakeupInstanceID. cbn [fst snd]. destruct (wk_random w (wk_draws w)) as [b|] eqn:Hb.
    2:{ intros [= <- <-]. split; [done|]. right. split_and!; [done|eauto|done]. }
    intros [Hr Hw]%Hst. split; [exact Hr|]. left. exists (b32_lower b). rewrite Hw. split; [done|].
    split; [intros Hne; by destruct Hgiven|]. intros _ Hc Hu. apply andb_false_iff in Hs as [Hs|Hs]; bool_prop; done.
Qed.

(** ** Knocking *)

(** A relay that writes down how it is knocked at. *)
Definition knocks := list (WakeStyle * WakeSubject).
Section Knocks.
Context (answers : nat -> result WakeOutcome).
#[local] Instance noted : Relay knocks := fun _ _ style subject '(w, l) => (answers (length l), (w, l ++ [(style, subject)])).

(** A peer is woken quietly only while the moment it named lies ahead, and then
    still loudly after the grace unless the request was settled or the node
    is stopping; otherwise it is woken loudly at once, and once. *)
Theorem quiet_then_loud now stopped settled wakeup fp (w : wakeups) (l : knocks) :
  (runWake now stopped settled wakeup fp (w, l)).2.2 =
  l ++ if quiet wakeup now
       then (WAKE_STYLE_SILENT, WAKE_SUBJECT_APPROVAL) ::
            (if stopped || settled then [] else [(WAKE_STYLE_ALERT, WAKE_SUBJECT_APPROVAL)])
       else [(WAKE_STYLE_ALERT, WAKE_SUBJECT_APPROVAL)].
Proof.
  assert (forall style subject x (k : knocks), (sendWake wakeup fp style subject (x, k)).2.2 = k ++ [(style, subject)]) as Hsend.
  { intros style subject x k. unfold sendWake. rewrite state_bind_unfold. cbn. destruct (answers _) as [o|e]; [|done].
    unfold here. cbn [fst snd]. by destruct (noteWoken fp o x). }
  unfold runWake. destruct (quiet wakeup now); cbn [negb]; [|apply Hsend].
  rewrite state_bind_unfold. pose proof (Hsend WAKE_STYLE_SILENT WAKE_SUBJECT_APPROVAL w l) as Hfirst. revert Hfirst.
  destruct (sendWake wakeup fp WAKE_STYLE_SILENT WAKE_SUBJECT_APPROVAL (w, l)) as [u [w1 l1]]. cbn [fst snd]. intros ->.
  destruct stopped, settled; cbn [orb]; try done. by rewrite Hsend, <- app_assoc.
Qed.

End Knocks.

(** ** A phone and a box *)

Import Toy.

Module ToyWake.

#[export] Instance any_url : UrlParser := fun raw => Ok ("https"%string, raw, raw).

Definition phone_identity : PeerIdentity := mk_PeerIdentity (of_string "phone") "SHA256:phone" "10.0.0.9:1".
Definition phone_record : TrustRecord := mk_TrustRecord "SHA256:phone" "phone" [] [] true false [] None false false emp None None.
Definition box_record : TrustRecord := mk_TrustRecord "SHA256:box" "box" [] ["10.0.0.2:7777"%string] false true [] None false false emp None None.

Definition no_wakeups : wakeups := mk_wakeups [] None (fun _ => None) 0 (fun _ => Some (of_string "sixteen bytes.  ")) 0.

(** The box approves nothing and asks the phone. *)
Definition the_box : node (wakeups * unit) :=
  mk_node _ (mk_vault [] [] [] [] [phone_record] [] (fun _ => 100) 0 (fun _ => None) 0) ∅ ∅ [] (no_wakeups, tt).
Definition the_phone : announcer := mk_announcer no_wakeups [box_record] ∅ (fun n => Z.of_nat n * Second) 0.

Definition on : option WakeupSettings := Some (mk_WakeupSettings true "relay" emp PUSH_PLATFORM_APNS "token" None).
Definition off : option WakeupSettings := Some (mk_WakeupSettings false "relay" emp PUSH_PLATFORM_APNS "token" None).
Definition never (_ : string) : time := zero_time.

Definition lost (l : list nat) (k : nat) : fate := if bool_decide (k ∈ l) then NeverArrived else Arrived.

Abbreviation after fates ops :=
  (announcer_run (R := unit) phone_identity (fun _ => true) fates 1 ops (the_phone, (0%nat, {[ "SHA256:box"%string := the_box ]}))).
Definition held_by_the_box (s : announcer * (nat * gmap string (node (wakeups * unit)))) : option (option string) :=
  match s.2.2 !! "SHA256:box"%string with
  | Some n => (fun u => wr_instance_id <$> pw_route u) <$> PeerWakeup_of "SHA256:phone" (n_rest n).1
  | None => None
  end.

End ToyWake.
Import ToyWake.

(** A route is announced when wake-ups go on and withdrawn when they go off;
    one whose announcement is lost is announced again. *)
Example announced_and_withdrawn :
  held_by_the_box (after (lost []) [OpConfigure never 1 on]) = Some (Some "onuxq5dfmvxcaytzorsxglraea"%string) /\
  held_by_the_box (after (lost []) [OpConfigure never 1 on; OpConfigure never 1 off]) = None /\
  held_by_the_box (after (lost [0%nat]) [OpConfigure never 1 on; OpRound never 1]) =
    Some (Some "onuxq5dfmvxcaytzorsxglraea"%string).
Proof. vm_compute. repeat split. Qed.

(** A withdrawal that does not get through is never repeated: forgetting that
    it was said also forgets that there was anything to take back, and with
    nothing to announce and nothing announced no round calls again. *)
Example lost_withdrawal_is_never_repeated :
  held_by_the_box (after (lost [1%nat])
    [OpConfigure never 1 on; OpConfigure never 1 off; OpRound never 1; OpRound never 1; OpRound never 1]) =
  Some (Some "onuxq5dfmvxcaytzorsxglraea"%string).
Proof. vm_compute. reflexivity. Qed.

(** The relay answers that nothing is registered under a route the peer has
    meanwhile replaced: the new route is forgotten. *)
Definition route_of (id : string) : WakeupRoute := mk_WakeupRoute WAKEUP_KIND_RELAY "relay" id.
Definition said_by_phone (id : string) : PeerWakeup := mk_PeerWakeup "SHA256:phone" (Some (route_of id)) (Some 0) None.
#[local] Instance slow_relay : Relay unit := fun _ _ _ _ '(w, u) =>
  (Ok WAKE_OUTCOME_UNREGISTERED, ((PutPeerWakeup (said_by_phone "new") w).2, u)).

Example dead_answer_forgets_new_route :
  let before := (PutPeerWakeup (said_by_phone "old") no_wakeups).2 in
  PeerWakeup_of "SHA256:phone" (runWake 0 false false (said_by_phone "old") "SHA256:phone" (before, tt)).2.1 = None.
Proof. vm_compute. reflexivity. Qed.

(** ** Witnesses *)

Lemma announced_everywhere_witness :
  let s' := after (lost []) [OpConfigure never 1 on; OpRound never 1] in
  an_said s'.1 !! "SHA256:box"%string = None \/
  exists m route', s'.2.2 !! "SHA256:box"%string = Some m /\
    routeKey route' = routeKey (Some (route_of "onuxq5dfmvxcaytzorsxglraea")) /\
    match route' with
    | None => true = false \/ PeerWakeup_of "SHA256:phone" (n_rest m).1 = None
    | Some r' => refuses true r' \/ holds_route "SHA256:phone" r' None (n_rest m).1
    end.
Proof.
  refine (announced_everywhere phone_identity (fun _ => true) (lost []) 1 [OpConfigure never 1 on] the_phone
    (0%nat, {[ "SHA256:box"%string := the_box ]}) never 1 box_record _ _ _).
  - reflexivity.
  - vm_compute. left.
  - vm_compute. lia.
Defined.

Lemma identifier_follows_the_relay_witness :
  let w := (SetWakeupSettings on no_wakeups).2 in
  let '(failed, w') := SetWakeupSettings off w in
  wk_routes w' = wk_routes w /\
  ((exists id, WakeupSettings_of w' = set_instance_id id (default no_settings off) /\
      (ws_instance_id (default no_settings off) <> emp -> id = ws_instance_id (default no_settings off)) /\
      (ws_instance_id (default no_settings off) = emp -> ws_instance_id (WakeupSettings_of w) <> emp ->
         ws_relay_url (WakeupSettings_of w) = ws_relay_url (default no_settings off) ->
         id = ws_instance_id (WakeupSettings_of w))) \/
   (wk_own w' = wk_own w /\ is_Some failed /\ wk_random w (wk_draws w) = None)).
Proof.
  cbv zeta. destruct (SetWakeupSettings off _) as [failed w'] eqn:Hs.
  apply (identifier_follows_the_relay off _ failed w' Hs).
Defined.
