(* ===== verification/Holder.v ===== *)
(** * Holder: signing for a machine that holds no key

    The key holder's half of [pkg/peer/keys.go] - [ListKeys], [RemoteSign] and
    everything they go through - with the two other doors a peer's request
    comes in by: [RequestApproval] of [service.go] and [decideFor] of
    [collect.go].  The engine behind them is the class [PeerEngine], the keys
    are [Agent.KeyStore]; the request is one object the handler and the engine
    both write to, so the engine answers with the request as it leaves it. *)

From S2P Require Import Prelude.
From S2P Require Import Rules.
From S2P Require Import GoText.
From S2P Require Import Proto.
From S2P Require Import Ssh.
From S2P Require Import Sshsig.
From S2P Require Import Identity.
From S2P Require Import Classify.
From S2P Require Import Agent.
From S2P Require Import Rpc.
From S2P Require Import Trust.
From S2P Require Import Vault.
From S2P Require Import Access.
From S2P Require Import Promises.

Local Open Scope Z_scope.
Local Open Scope ladulas_scope.

(** ** The interface to the engine *)

(** [SubmitPeer] and [SubmitPeerSigning], and [Signed].  While a question is
    out the rest of the program runs, so these act on the store too. *)
Class PeerEngine (P : Type) := {
  pe_SubmitPeer : ApprovalRequest -> bytes ->
    state (vault * P) (result (ApprovalResponse * option SignedApproval) * ApprovalRequest);
  pe_SubmitPeerSigning : ApprovalRequest -> bytes ->
    state (vault * P) (result (ApprovalResponse * option SignedApproval) * ApprovalRequest);
  pe_Signed : ApprovalRequest -> KeyRef -> state (vault * P) unit
}.

(** ** Messages *)

Record RemoteSignRequest := mk_RemoteSignRequest {
  rm_request : bytes;
  rm_payload : bytes;
  rm_wrap_sshsig : bool;
  rm_endorsement : option SignedEndorsement
}.

Record PendingApproval := mk_PendingApproval {
  pn_request_id : string;
  pn_request : bytes;
  pn_waiting_since : option time;
  pn_expires_in : option duration;
  pn_payload : bytes;
  pn_wrap_sshsig : bool;
  pn_endorsement : option SignedEndorsement
}.

Inductive ApprovalEvent :=
| EventAccepted (at_ : time)
| EventDecided (at_ : time) (approval : option SignedApproval).

(** [given]: a decision made, and the signature that goes with it. *)
Record given := mk_given { gv_approval : option SignedApproval; gv_signature : bytes }.

(** ** The request, as the handlers write it *)

Definition set_kind (k : RequestKind) (r : ApprovalRequest) : ApprovalRequest :=
  mk_ApprovalRequest (rq_request_id r) (rq_created_at r) (rq_requester r) k (rq_key r) (rq_timeout r)
    (rq_signature_flags r) (rq_signature_algorithm r) (rq_payload_sha256 r) (rq_grant_only r)
    (rq_requested_grant_ttl r) (rq_local_key r) (rq_operation r).
Definition set_key (k : option KeyRef) (r : ApprovalRequest) : ApprovalRequest :=
  mk_ApprovalRequest (rq_request_id r) (rq_created_at r) (rq_requester r) (rq_kind r) k (rq_timeout r)
    (rq_signature_flags r) (rq_signature_algorithm r) (rq_payload_sha256 r) (rq_grant_only r)
    (rq_requested_grant_ttl r) (rq_local_key r) (rq_operation r).
Definition set_requester (i : option RequesterInfo) (r : ApprovalRequest) : ApprovalRequest :=
  mk_ApprovalRequest (rq_request_id r) (rq_created_at r) i (rq_kind r) (rq_key r) (rq_timeout r)
    (rq_signature_flags r) (rq_signature_algorithm r) (rq_payload_sha256 r) (rq_grant_only r)
    (rq_requested_grant_ttl r) (rq_local_key r) (rq_operation r).
Definition set_payload_sha256 (d : bytes) (r : ApprovalRequest) : ApprovalRequest :=
  mk_ApprovalRequest (rq_request_id r) (rq_created_at r) (rq_requester r) (rq_kind r) (rq_key r) (rq_timeout r)
    (rq_signature_flags r) (rq_signature_algorithm r) d (rq_grant_only r)
    (rq_requested_grant_ttl r) (rq_local_key r) (rq_operation r).

Definition no_git_context : GitContext := mk_GitContext emp emp emp emp None emp emp [] None false emp.
Definition with_object (payload : bytes) (g : GitContext) : GitContext :=
  mk_GitContext (gc_repository_path g) (gc_origin_url g) (gc_branch g) (gc_operation g) (gc_diff g) (gc_project_id g)
    (gc_object_type g) payload (gc_parsed g) (gc_verified_against_payload g) (gc_verification_error g).
Definition with_context (git : option GitContext) (s : SshsigRequest) : SshsigRequest :=
  mk_SshsigRequest (sg_namespace s) (sg_hash_algorithm s) (sg_message_digest s) git.

Definition invalid (text : string) : rpc_error := mk_rpc_error CodeInvalidArgument (errors_New text).

Section Holder.
Context `{Unicode} `{Hashes} `{Ssh} `{Codec ApprovalRequest} `{Codec Delegation} `{Codec Endorsement} `{Codec Retraction}.

(** ** The bytes *)

Definition blobFor (payload : bytes) (wrap : bool) (sig : option SshsigRequest) : result bytes :=
  if bool_decide (payload = []) then Err (errors_New "nothing to sign")
  else if negb wrap then Ok payload
  else
    let namespace := sig⇢sg_namespace in
    if bool_decide (namespace = emp) then Err (errors_New "no SSHSIG namespace to wrap the payload in")
    else SigningBlobFor namespace sig⇢sg_hash_algorithm payload.

Definition signingBlob (payload : bytes) (wrap : bool) (msg : ApprovalRequest) : reply (bytes * ApprovalRequest) :=
  match blobFor payload wrap (rq_sshsig msg) with
  | Err e => inr (mk_rpc_error CodeInvalidArgument e)
  | Ok blob =>
    let digest := sha256 blob in
    let claimed := rq_payload_sha256 msg in
    if bool_decide (claimed <> []) && bool_decide (claimed <> digest)
    then inr (invalid "the request describes a different payload from the one sent")
    else inl (blob, set_payload_sha256 digest msg)
  end.

(** ** The request's account of itself, replaced *)

Definition rebuildSshsig (msg : ApprovalRequest) (sig : SshsigRequest) (payload : bytes) (wrap : bool) : ApprovalRequest :=
  let git := (rq_sshsig msg)⇢sg_git_context in
  let git :=
    if bool_decide (sg_namespace sig <> GitNamespace) then None
    else if wrap then Some (with_object payload (default no_git_context git))
    else git in
  set_operation (OpSshsig (with_context git sig)) msg.

(** What of a login comes from the request: the session's bindings and the
    names. *)
Definition with_claims (claimed : option SshAuthRequest) (auth : SshAuthRequest) : SshAuthRequest :=
  mk_SshAuthRequest (sa_username auth) (sa_service auth) (sa_method auth) (sa_session_id auth)
    claimed⇢sa_bound claimed⇢sa_forwarded claimed⇢sa_destination claimed⇢sa_binding_chain
    claimed⇢sa_destination_label claimed⇢sa_forwarded_hops (sa_payload_destination auth).
Definition with_destination (host : HostKey) (auth : SshAuthRequest) : SshAuthRequest :=
  mk_SshAuthRequest (sa_username auth) (sa_service auth) (sa_method auth) (sa_session_id auth) (sa_bound auth)
    (sa_forwarded auth) (Some host) (sa_binding_chain auth) (hk_fingerprint host) (sa_forwarded_hops auth)
    (sa_payload_destination auth).

Definition rebuildSSHAuth (msg : ApprovalRequest) (auth : SshAuthRequest) : reply ApprovalRequest :=
  let claimed := rq_ssh_auth msg in
  if bool_decide (is_Some claimed) && bool_decide (claimed⇢sa_session_id <> []) &&
     bool_decide (claimed⇢sa_session_id <> sa_session_id auth)
  then inr (invalid "the request describes a different login from the one signed")
  else
    let auth := with_claims claimed auth in
    match sa_payload_destination auth with
    | None => inl (set_operation (OpSshAuth auth) msg)
    | Some payload =>
      match claimed⇢sa_destination with
      | Some named =>
        if bool_decide (hk_fingerprint named <> hk_fingerprint payload)
        then inr (invalid "the request describes a different destination from the one signed")
        else inl (set_operation (OpSshAuth auth) msg)
      | None => inl (set_operation (OpSshAuth (with_destination payload auth)) msg)
      end
    end.

Definition rebuildOperation (msg : ApprovalRequest) (payload : bytes) (wrap : bool) : reply ApprovalRequest :=
  match blobFor payload wrap (rq_sshsig msg) with
  | Err e => inr (mk_rpc_error CodeInvalidArgument e)
  | Ok blob =>
    let class := Classify blob in
    let msg := set_kind (cl_Kind class) msg in
    match cl_Sshsig class, cl_SSHAuth class with
    | Some sig, _ => inl (rebuildSshsig msg sig payload wrap)
    | None, Some auth => rebuildSSHAuth msg auth
    | None, None =>
      inl (set_operation (match cl_Opaque class with Some o => OpOpaqueSign o | None => OpNone end) msg)
    end
  end.

Definition parseSignRequest (body : bytes) : reply ApprovalRequest :=
  if bool_decide (body = []) then inr (invalid "the request is empty")
  else
    match Unmarshal body with
    | Err e => inr (mk_rpc_error CodeInvalidArgument (wrap_w "the request does not parse: " e emp))
    | Ok msg => inl msg
    end.

Definition signBlob (signer : Signer) (blob : bytes) (algorithm : string) : result Signature :=
  if bool_decide (algorithm = emp) then SignBlob signer blob
  else
    match signer_SignWithAlgorithm signer with
    | None => Err (errors_New ("peer: the key cannot sign with " +:+ algorithm))
    | Some sign => err_ctx ("sign with " +:+ algorithm +:+ ": ") (sign blob algorithm)
    end.

(** ** Which keys *)

Definition usable (record : TrustRecord) (refs : list KeyRef) : list KeyRef :=
  List.filter (fun ref => MayUseKey (Some record) (kr_fingerprint ref)) refs.

Definition named_key (named : option KeyRef) (ref : KeyRef) : bool :=
  let blob := named⇢kr_public_key in
  let fingerprint := named⇢kr_fingerprint in
  (bool_decide (blob <> []) && bool_decide (kr_public_key ref = blob)) ||
  (bool_decide (blob = []) && bool_decide (fingerprint <> emp) && bool_decide (kr_fingerprint ref = fingerprint)).

Definition borrowableKey (record : TrustRecord) (named : option KeyRef) (refs : list KeyRef) : reply KeyRef :=
  match find_first (named_key named) refs with
  | None => inr (mk_rpc_error CodeNotFound (errors_New ("no key " +:+ named⇢kr_fingerprint +:+ " in the store")))
  | Some ref =>
    if negb (MayUseKey (Some record) (kr_fingerprint ref))
    then inr (mk_rpc_error CodePermissionDenied
           (errors_New (quote (tr_name record) +:+ " may not sign with " +:+ kr_label ref)))
    else inl ref
  end.

(** ** The doors *)

Context {P : Type} `{!KeyStore P} `{!PeerEngine P}.
(** Whether [n.keys] and [n.endorsements] are set. *)
Variables (keys endorsements : bool).

Definition keysFor (record : TrustRecord) (n : node P) : list KeyRef :=
  if negb keys then [] else usable record (ks_KeyRefs (n_rest n)).

Definition ListKeys (peer : option PeerIdentity) : state (node P) (reply (list KeyRef)) :=
  found ← authorize peer;
  match found with
  | inr e => mret (inr e)
  | inl (_, record) => refs ← gets (keysFor record); mret (inl refs)
  end.

Definition internal (e : error) : rpc_error := mk_rpc_error CodeInternal e.

(** The artifact and the signature; a denial has no signature. *)
Definition signForPeer (record : TrustRecord) (requester : RequesterInfo) (msg : ApprovalRequest)
    (body payload : bytes) (wrap : bool) : state (node P) (reply (option SignedApproval * bytes)) :=
  if negb keys
  then mret (inr (mk_rpc_error CodeUnimplemented (errors_New "this instance holds no keys to sign with")))
  else
    refs ← gets (fun n => ks_KeyRefs (n_rest n));
    match borrowableKey record (rq_key msg) refs with
    | inr e => mret (inr e)
    | inl ref =>
      match signingBlob payload wrap msg with
      | inr e => mret (inr e)
      | inl (blob, msg) =>
        match rebuildOperation msg payload wrap with
        | inr e => mret (inr e)
        | inl msg =>
          let msg := set_requester (Some requester) (set_key (Some ref) msg) in
          '(answer, msg) ← on_engine (pe_SubmitPeerSigning msg body);
          match answer with
          | Err e => mret (inr (internal (wrap_w "decide the request: " e emp)))
          | Ok (resp, signed) =>
            if bool_decide (rs_decision resp <> DECISION_APPROVE) then mret (inl (signed, []))
            else
              signer ← gets (fun n => ks_Signer (kr_fingerprint ref) (n_rest n));
              match signer with
              | Err e => mret (inr (internal (wrap_w "load key: " e emp)))
              | Ok signer =>
                match signBlob signer blob (rq_signature_algorithm msg) with
                | Err e => mret (inr (internal e))
                | Ok signature =>
                  _ ← on_engine (pe_Signed msg ref);
                  mret (inl (signed, MarshalSignature signature))
                end
              end
          end
        end
      end
    end.

(** Who is asking, from the channel and the trust record. *)
Definition asked_by (fingerprint : string) (record : TrustRecord) (address : string) (msg : ApprovalRequest) : RequesterInfo :=
  mk_RequesterInfo fingerprint (tr_name record) false (rq_requester msg)⇢ri_headless address
    (rq_requester msg)⇢ri_process.

Definition RemoteSign (peer : option PeerIdentity) (req : RemoteSignRequest)
    : state (node P) (reply (option SignedApproval * bytes)) :=
  found ← authorize peer;
  match found with
  | inr e => mret (inr e)
  | inl (id, record) =>
    admitted ← acquire (pi_Fingerprint id);
    if negb admitted then mret (inr too_many)
    else
      answer ← (match parseSignRequest (rm_request req) with
                | inr e => mret (inr e)
                | inl msg =>
                  _ ← on_vault (acceptPresented endorsements (pi_Fingerprint id) (rm_endorsement req));
                  signForPeer record (asked_by (pi_Fingerprint id) record (pi_RemoteAddr id) msg) msg
                    (rm_request req) (rm_payload req) (rm_wrap_sshsig req)
                end);
      _ ← release (pi_Fingerprint id);
      mret answer
  end.

(** [send] is what writing each event to the stream comes to; the events are
    the ones handed to it. *)
Definition RequestApproval (send : nat -> option error) (peer : option PeerIdentity) (body : bytes)
    : state (node P) (list ApprovalEvent * option rpc_error) :=
  found ← authorize peer;
  match found with
  | inr e => mret ([], Some e)
  | inl (id, record) =>
    admitted ← acquire (pi_Fingerprint id);
    if negb admitted then mret ([], Some too_many)
    else
      answer ← (match parseSignRequest body with
                | inr e => mret ([], Some e)
                | inl msg =>
                  if bool_decide (rq_kind msg = KIND_PAIRING)
                  then mret ([], Some (mk_rpc_error CodePermissionDenied
                         (errors_New "pairing changes are not requested this way")))
                  else
                    let msg := set_requester (Some (asked_by (pi_Fingerprint id) record (pi_RemoteAddr id) msg)) msg in
                    accepted ← on_vault Now;
                    match send 0%nat with
                    | Some e => mret ([EventAccepted accepted],
                        Some (mk_rpc_error CodeUnknown (wrap_w "acknowledge the request: " e emp)))
                    | None =>
                      '(decided, _) ← on_engine (pe_SubmitPeer msg body);
                      match decided with
                      | Err e => mret ([EventAccepted accepted], Some (internal (wrap_w "decide the request: " e emp)))
                      | Ok (_, signed) =>
                        at_ ← on_vault Now;
                        mret ([EventAccepted accepted; EventDecided at_ signed],
                          (fun e => mk_rpc_error CodeUnknown (wrap_w "send the decision: " e emp)) <$> send 1%nat)
                      end
                    end
                end);
      _ ← release (pi_Fingerprint id);
      mret answer
  end.

(** A request collected out of a requester's inbox. *)
Definition decideFor (record : TrustRecord) (item : PendingApproval) : state (node P) (result given) :=
  let body := pn_request item in
  if bool_decide (body = []) then mret (Err (errors_New "peer: the collected request is empty"))
  else
    match Unmarshal body with
    | Err e => mret (Err (wrap_w "peer: the collected request does not parse: " e emp))
    | Ok msg =>
      if bool_decide (rq_request_id msg <> pn_request_id item)
      then mret (Err (errors_New "peer: the collected request is not the one it was listed as"))
      else if bool_decide (rq_kind msg = KIND_PAIRING)
      then mret (Err (errors_New "peer: pairing changes are not requested this way"))
      else
        let requester := asked_by (tr_fingerprint record) record emp msg in
        if bool_decide (pn_payload item <> [])
        then
          _ ← on_vault (acceptPresented endorsements (tr_fingerprint record) (pn_endorsement item));
          answer ← signForPeer record requester msg body (pn_payload item) (pn_wrap_sshsig item);
          mret (match answer with
                | inr e => Err (wrap_w "peer: sign a collected request: " (rpc_as_error e) emp)
                | inl (signed, signature) => Ok (mk_given signed signature)
                end)
        else
          '(decided, _) ← on_engine (pe_SubmitPeer (set_requester (Some requester) msg) body);
          mret (match decided with
                | Err e => Err (wrap_w "peer: decide a collected request: " e emp)
                | Ok (_, signed) => Ok (mk_given signed [])
                end)
    end.

End Holder.
