(* ===== verification/HolderSpec.v ===== *)
(** * HolderSpec: what a holder signs for somebody else

    The theorems about [Holder].  A signature leaves for a peer only over
    bytes this machine put together and classified itself, with a key its own
    trust record lends that peer, after its own engine approved a request that
    says what those bytes are and who is asking; a denial carries none; and
    one peer never has more than sixteen decisions in flight. *)

From S2P Require Import Prelude.
From S2P Require Import Rules.
From S2P Require Import GoText.
From S2P Require Import Proto.
From S2P Require Import Ssh.
From S2P Require Import Sshsig.
From S2P Require Import Identity.
From S2P Require Import Classify.
From S2P Require Import Agent.
From S2P Require Import Rpc.
From S2P Require Import Trust.
From S2P Require Import Vault.
From S2P Require Import Access.
From S2P Require Import Promises.
From S2P Require Import Holder.

Local Open Scope Z_scope.
Local Open Scope ladulas_scope.

(** ** [load.go] *)

Definition load_ok (m : gmap string Z) : Prop := map_Forall (fun _ c => 1 <= c <= maxDecisionsPerPeer) m.

Lemma load_acquire_release fingerprint m m' :
  load_ok m -> load_acquire fingerprint m = (true, m') -> load_release fingerprint m' = m.
Proof.
  intros Hm. unfold load_acquire, load_release. destruct (_ <=? _); [done|]. intros [= <-].
  rewrite lookup_insert_eq. cbn [default]. destruct (m !! fingerprint) as [c|] eqn:Hc; cbn.
  - destruct (Hm _ _ Hc). destruct (Z.leb_spec (c + 1) 1); [lia|]. rewrite insert_insert_eq.
    apply insert_id. rewrite Hc. f_equal. lia.
  - rewrite delete_insert_eq. by apply delete_id.
Qed.

(** The decisions under way, by who asked for each: a handler begins one and
    ends it, and any number of handlers run at once. *)
Inductive load_event := Begins (fingerprint : string) | Ends (fingerprint : string).

Definition under_way (fingerprint : string) (l : list string) : Z := Z.of_nat (count_occ string_dec l fingerprint).
Fixpoint one_less (fingerprint : string) (l : list string) : list string :=
  match l with
  | [] => []
  | x :: l => if bool_decide (x = fingerprint) then l else x :: one_less fingerprint l
  end.

Definition load_step (s : gmap string Z * list string) (ev : load_event) : gmap string Z * list string :=
  match ev with
  | Begins fp => let '(b, m) := load_acquire fp s.1 in (m, if (b : bool) then fp :: s.2 else s.2)
  | Ends fp => if bool_decide (fp ∈ s.2) then (load_release fp s.1, one_less fp s.2) else s
  end.

Definition load_counts (s : gmap string Z * list string) : Prop :=
  forall fp, default 0 (s.1 !! fp) = under_way fp s.2 /\ under_way fp s.2 <= maxDecisionsPerPeer /\ s.1 !! fp <> Some 0.

Lemma under_way_cons fp x l : under_way fp (x :: l) = under_way fp l + (if bool_decide (x = fp) then 1 else 0).
Proof. unfold under_way. cbn. case_bool_decide; destruct (string_dec x fp); try done; lia. Qed.

Lemma under_way_less fp x l : x ∈ l -> under_way fp (one_less x l) = under_way fp l - (if bool_decide (x = fp) then 1 else 0).
Proof.
  induction l as [|y l IH]; [by intros ?%elem_of_nil|]. cbn [one_less]. intros Hin.
  destruct (bool_decide_reflect (y = x)) as [->|Hy]; rewrite !under_way_cons.
  - destruct (bool_decide (x = fp)); lia.
  - rewrite IH; [destruct (bool_decide (y = fp)); lia|]. by apply elem_of_cons in Hin as [Hx|?]; [subst x|].
Qed.

Lemma load_counts_step s ev : load_counts s -> load_counts (load_step s ev).
Proof.
  destruct s as [m l], ev as [x|x]; cbn [load_step fst snd]; intros Hc fp; destruct (Hc fp) as (Hd & Hb & Hz); cbn [fst snd] in *.
  - destruct (Hc x) as (Hx & _ & _). cbn [fst snd] in Hx. unfold load_acquire. destruct (Z.leb_spec maxDecisionsPerPeer (default 0 (m !! x))); [done|].
    cbn [fst snd]. rewrite under_way_cons. case_bool_decide as He.
    + subst x. rewrite lookup_insert_eq. cbn [default]. unfold under_way in *. split_and!; [cbn; lia..|]. intros [= Hn]. lia.
    + rewrite lookup_insert_ne by done. rewrite Z.add_0_r. done.
  - case_bool_decide as Hin; [|done]. cbn [fst snd]. rewrite (under_way_less fp x l) by done. unfold load_release.
    case_bool_decide as He.
    + subst x. destruct (Z.leb_spec (default 0 (m !! fp)) 1).
      * rewrite lookup_delete_eq. cbn. assert (under_way fp l <> 0).
        { apply list_elem_of_In, count_occ_In with (eq_dec := string_dec) in Hin. unfold under_way. lia. }
        split_and!; try done; unfold under_way in *; lia.
      * rewrite lookup_insert_eq. cbn. split_and!; [lia..|]. intros [= Hn]. lia.
    + rewrite Z.sub_0_r. destruct (Z.leb_spec (default 0 (m !! x)) 1).
      * rewrite lookup_delete_ne by done. done.
      * rewrite lookup_insert_ne by done. done.
Qed.

(** However the calls of the peers interleave, each peer has at most sixteen
    decisions under way, and the count kept for it is exactly how many: every
    decision that ends gives its place back, and none is given back twice. *)
Theorem one_peer_at_most_sixteen events fp :
  let s := foldl load_step (∅, []) events in
  default 0 (s.1 !! fp) = under_way fp s.2 /\ under_way fp s.2 <= maxDecisionsPerPeer.
Proof.
  cut (load_counts (foldl load_step (∅, []) events)); [intros Hc; by destruct (Hc fp) as (? & ? & _)|].
  assert (load_counts (∅, [])) as H0 by (intros x; cbn; by rewrite lookup_empty).
  revert H0. generalize (∅ : gmap string Z, [] : list string). induction events as [|ev l IH]; intros s Hs; [done|].
  cbn [foldl]. by apply IH, load_counts_step.
Qed.

Section HolderSpec.
Context `{Unicode} `{Hashes} `{Ssh} `{Codec ApprovalRequest} `{Codec Delegation} `{Codec Endorsement} `{Codec Retraction}.

(** ** The request says what the bytes are *)

(** A request rebuilt from the bytes: its kind is theirs, its digest is
    theirs, and of its operation everything the bytes say is theirs - for a
    commit the object shown is the payload, in any other namespace there is no
    git context, and a login whose bytes name a host goes to that host. *)
Definition proven (payload blob : bytes) (wrap : bool) (req : ApprovalRequest) : Prop :=
  rq_kind req = cl_Kind (Classify blob) /\ rq_payload_sha256 req = sha256 blob /\
  match cl_Sshsig (Classify blob), cl_SSHAuth (Classify blob) with
  | Some sig, _ => exists git, rq_operation req = OpSshsig (with_context git sig) /\
      (sg_namespace sig <> GitNamespace -> git = None) /\
      (sg_namespace sig = GitNamespace -> wrap = true -> exists g, git = Some g /\ gc_object g = payload)
  | None, Some auth => exists a, rq_operation req = OpSshAuth a /\ sa_username a = sa_username auth /\
      sa_service a = sa_service auth /\ sa_method a = sa_method auth /\ sa_session_id a = sa_session_id auth /\
      sa_payload_destination a = sa_payload_destination auth /\
      (forall host, sa_payload_destination auth = Some host ->
         exists d, sa_destination a = Some d /\ hk_fingerprint d = hk_fingerprint host)
  | None, None => rq_operation req = match cl_Opaque (Classify blob) with Some o => OpOpaqueSign o | None => OpNone end
  end.

Lemma proven_asked payload blob wrap req requester ref :
  proven payload blob wrap req -> proven payload blob wrap (set_requester requester (set_key ref req)).
Proof. done. Qed.

Lemma signingBlob_inl payload wrap msg blob msg' : signingBlob payload wrap msg = inl (blob, msg') ->
  blobFor payload wrap (rq_sshsig msg) = Ok blob /\ msg' = set_payload_sha256 (sha256 blob) msg.
Proof.
  unfold signingBlob. destruct (blobFor _ _ _) as [b|e]; [|done]. destruct (_ && _); [done|]. by intros [= <- <-].
Qed.

Lemma rebuildSSHAuth_inl msg auth req : rebuildSSHAuth msg auth = inl req ->
  exists a, req = set_operation (OpSshAuth a) msg /\ sa_username a = sa_username auth /\
    sa_service a = sa_service auth /\ sa_method a = sa_method auth /\ sa_session_id a = sa_session_id auth /\
    sa_payload_destination a = sa_payload_destination auth /\
    (forall host, sa_payload_destination auth = Some host ->
       exists d, sa_destination a = Some d /\ hk_fingerprint d = hk_fingerprint host).
Proof.
  unfold rebuildSSHAuth. destruct (_ && _ && _); [done|]. cbn [sa_payload_destination with_claims].
  destruct (sa_payload_destination auth) as [host|] eqn:Hp.
  - destruct ((rq_ssh_auth msg)⇢sa_destination) as [named|] eqn:Hd.
    + case_bool_decide as Hf; [done|]. intros [= <-]. eexists. split; [done|]. cbn. rewrite Hd, Hp. split_and!; try done.
      intros h [= <-]. by exists named.
    + intros [= <-]. eexists. split; [done|]. cbn. rewrite Hp. split_and!; try done. intros h [= <-]. by exists host.
  - intros [= <-]. eexists. split; [done|]. cbn. by rewrite Hp.
Qed.

Lemma rebuilt_proven payload wrap msg blob req :
  blobFor payload wrap (rq_sshsig msg) = Ok blob ->
  rebuildOperation (set_payload_sha256 (sha256 blob) msg) payload wrap = inl req ->
  proven payload blob wrap req /\ rq_request_id req = rq_request_id msg /\
  rq_signature_algorithm req = rq_signature_algorithm msg.
Proof.
  intros Hb. unfold rebuildOperation.
  change (rq_sshsig (set_payload_sha256 (sha256 blob) msg)) with (rq_sshsig msg). rewrite Hb.
  unfold proven. destruct (cl_Sshsig (Classify blob)) as [sig|].
  - intros [= <-]. unfold rebuildSshsig. cbn. split; [|done]. split; [done|]. split; [done|]. eexists. split; [done|].
    repeat case_bool_decide; (split; [done|]); intros Hn Hw; try done. rewrite Hw. eexists. by split.
  - destruct (cl_SSHAuth (Classify blob)) as [auth|].
    + intros (a & -> & Ha)%rebuildSSHAuth_inl. cbn. split; [|done]. split; [done|]. split; [done|]. by exists a.
    + by intros [= <-].
Qed.

(** ** Which key *)

Lemma borrowableKey_inl record named refs ref : borrowableKey record named refs = inl ref ->
  ref ∈ refs /\ named_key named ref = true /\ MayUseKey (Some record) (kr_fingerprint ref) = true.
Proof.
  unfold borrowableKey. destruct (find_first _ _) as [r|] eqn:Hf; [|done]. apply find_first_elem in Hf as [Hin Hn].
  destruct (MayUseKey _ _) eqn:Hm; [|done]. by intros [= <-].
Qed.

Context {P : Type} `{!KeyStore P} `{!PeerEngine P}.

Abbreviation behind n := (n_vault n, n_rest n).

Lemma on_engine_at {A} (m : state (vault * P) A) (n : node P) a v p :
  m (behind n) = (a, (v, p)) -> on_engine m n = (a, mk_node P v (n_seen n) (n_load n) (n_gossip n) p).
Proof. intros Hm. unfold on_engine. by rewrite Hm. Qed.

(** What an answer to a borrowed signature is made of. *)
Definition answered (record : TrustRecord) (requester : RequesterInfo) (msg : ApprovalRequest) (body payload : bytes)
    (wrap : bool) (n : node P) (signed : option SignedApproval) (out : bytes) (q' : vault * P) : Prop :=
  exists ref blob req resp req' q,
    ref ∈ ks_KeyRefs (n_rest n) /\ named_key (rq_key msg) ref = true /\
    MayUseKey (Some record) (kr_fingerprint ref) = true /\
    blobFor payload wrap (rq_sshsig msg) = Ok blob /\ proven payload blob wrap req /\
    rq_key req = Some ref /\ rq_requester req = Some requester /\
    pe_SubmitPeerSigning req body (behind n) = ((Ok (resp, signed), req'), q) /\
    ((rs_decision resp <> DECISION_APPROVE /\ out = [] /\ q' = q) \/
     (rs_decision resp = DECISION_APPROVE /\ exists signer sig,
        ks_Signer (kr_fingerprint ref) q.2 = Ok signer /\
        signBlob signer blob (rq_signature_algorithm req') = Ok sig /\ out = MarshalSignature sig /\
        q' = (pe_Signed req' ref q).2)).

Lemma signForPeer_run record requester msg body payload wrap (n n' : node P) signed out :
  signForPeer true record requester msg body payload wrap n = (inl (signed, out), n') ->
  answered record requester msg body payload wrap n signed out (behind n') /\
  n_seen n' = n_seen n /\ n_load n' = n_load n.
Proof.
  unfold signForPeer. cbn [negb]. rewrite state_bind_unfold. cbn [gets fst snd].
  destruct (borrowableKey _ _ _) as [ref|e] eqn:Hk; [|done]. apply borrowableKey_inl in Hk as (Hin & Hn & Hm).
  destruct (signingBlob _ _ _) as [[blob msg1]|e] eqn:Hb; [|done]. apply signingBlob_inl in Hb as [Hb ->].
  destruct (rebuildOperation _ _ _) as [req|e] eqn:Hr; [|done]. apply (rebuilt_proven _ _ _ _ _ Hb) in Hr as (Hp & _ & _).
  rewrite state_bind_unfold.
  destruct (pe_SubmitPeerSigning (set_requester (Some requester) (set_key (Some ref) req)) body (behind n))
    as [[answer req'] [v p]] eqn:Hs. rewrite (on_engine_at _ _ _ _ _ Hs). cbn [fst snd].
  destruct answer as [[resp sa]|e]; [|done].
  case_bool_decide as Hd.
  - intros [= <- <- <-]. split; [|done].
    exists ref, blob, (set_requester (Some requester) (set_key (Some ref) req)), resp, req', (v, p). split_and!; try done. by left.
  - rewrite state_bind_unfold. cbn [gets fst snd n_rest]. destruct (ks_Signer _ p) as [signer|e] eqn:Hsig; [|done].
    destruct (signBlob _ _ _) as [sig|e] eqn:Hsb; [|done]. rewrite state_bind_unfold.
    destruct (pe_Signed req' ref (v, p)) as [[] [v2 p2]] eqn:Hsn. erewrite on_engine_at by exact Hsn.
    cbn [fst snd n_seen n_load n_gossip mret state_ret]. intros [= <- <- <-]. split; [|done].
    exists ref, blob, (set_requester (Some requester) (set_key (Some ref) req)), resp, req', (v, p).
    split_and!; try done. right. split; [done|]. exists signer, sig. cbn [snd n_vault n_rest]. by rewrite Hsn.
Qed.

(** [RemoteSign] answers with a signature only for a paired machine that may
    ask; the request it sent parses; and nothing but the store, the clocks and
    the engine has moved when it answers. *)
Lemma RemoteSign_run endorsements peer rq (n n' : node P) signed out :
  load_ok (n_load n) ->
  RemoteSign true endorsements peer rq n = (inl (signed, out), n') ->
  exists id record msg n1, let_in tr_may_request peer id record n n1 /\ Unmarshal (rm_request rq) = Ok msg /\
    n_load n' = n_load n /\
    let n2 := (on_vault (acceptPresented endorsements (pi_Fingerprint id) (rm_endorsement rq)) n1).2 in
    answered record (asked_by (pi_Fingerprint id) record (pi_RemoteAddr id) msg) msg (rm_request rq) (rm_payload rq)
      (rm_wrap_sshsig rq) n2 signed out (behind n').
Proof.
  intros Hl. unfold RemoteSign. rewrite state_bind_unfold. destruct (authorize peer n) as [[[id record]|e] n1] eqn:Ha; [|done].
  apply authorize_let_in in Ha. cbn [fst snd]. rewrite state_bind_unfold.
  assert (n_load n1 = n_load n) as Hl1 by (destruct Ha as (_ & _ & _ & ->); done).
  destruct (acquire (pi_Fingerprint id) n1) as [b n2] eqn:Hq. unfold acquire in Hq.
  destruct (load_acquire _ _) as [b' m] eqn:Hm in Hq. injection Hq as <- <-. cbn [fst snd].
  destruct b'; [|done]. cbn [negb]. rewrite state_bind_unfold.
  match goal with |- context [(?work (set_load m n1)).1] => destruct (work (set_load m n1)) as [ans n4] eqn:Hw end.
  cbn [fst snd mret state_ret release modify]. rewrite state_bind_unfold. cbn [fst snd]. intros [= -> <-].
  unfold parseSignRequest in Hw. case_bool_decide as Hb; [done|].
  destruct (Unmarshal (rm_request rq)) as [msg|e] eqn:Hu; [|done].
  rewrite state_bind_unfold in Hw. apply signForPeer_run in Hw as (Hs & _ & Hload).
  exists id, record, msg, n1. split; [done|]. split; [done|]. unfold on_vault in Hs, Hload |- *. cbn [n_vault set_load] in *.
  destruct (acceptPresented _ _ _ _) as [o v]. cbn [fst snd n_load set_load n_rest n_vault] in *. split; [|exact Hs].
  rewrite Hload, <- Hl1. eapply load_acquire_release; [|exact Hm]. by rewrite Hl1.
Qed.

End HolderSpec.
