(* ===== verification/HolderEngine.v ===== *)
(** * HolderEngine: signing for others under the approval engine

    The engine of [Engine], over the store of [Vault], as what stands behind
    the handlers of [Holder].  What the race between the approvers comes to,
    and what the rest of the program does to the store while a question is
    out, are given by an oracle. *)

From S2P Require Import Prelude.
From S2P Require Import Rules.
From S2P Require Import GoText.
From S2P Require Import Proto.
From S2P Require Import Ssh.
From S2P Require Import Sshsig.
From S2P Require Import Identity.
From S2P Require Import GitObject.
From S2P Require Import Asker.
From S2P Require Import Policy.
From S2P Require Import Grants.
From S2P Require Import Prompt.
From S2P Require Import Inflight.
From S2P Require Import Engine.
From S2P Require Import EngineSpec.
From S2P Require Import Classify.
From S2P Require Import Agent.
From S2P Require Import AgentEngine.
From S2P Require Import Rpc.
From S2P Require Import Trust.
From S2P Require Import Vault.
From S2P Require Import VaultSpec.
From S2P Require Import Access.
From S2P Require Import Promises.
From S2P Require Import Holder.
From S2P Require Import HolderSpec.

Local Open Scope Z_scope.
Local Open Scope ladulas_scope.

Section HolderEngine.
Context `{Unicode} `{LocalTime} `{Hashes} `{Ssh}.
Context `{Codec ApprovalRequest} `{response : Codec ApprovalResponse} `{Codec Delegation} `{Codec Endorsement} `{Codec Retraction}.
Context {R : Type}.
Context (e : Options).

(** The program behind the handlers; the store it works on is the node's. *)
Record Holding := mk_Holding {
  hd_engine : world (S := vault);
  hd_race : nat -> verdict;
  hd_shown : nat -> option PresentedProject;
  hd_meanwhile : nat -> list vault_op;
  hd_asked : nat;
  hd_rest : R
}.

Definition with_store (v : vault) (w : world (S := vault)) : world (S := vault) :=
  mk_world v (w_policy w) (w_handlers w) (w_softLocked w) (w_clock w) (w_ticks w) (w_random w) (w_draws w) (w_trace w).
Definition then_asked (w : world (S := vault)) (p : Holding) : Holding :=
  mk_Holding w (hd_race p) (hd_shown p) (hd_meanwhile p) (Datatypes.S (hd_asked p)) (hd_rest p).
Definition then_logged (w : world (S := vault)) (p : Holding) : Holding :=
  mk_Holding w (hd_race p) (hd_shown p) (hd_meanwhile p) (hd_asked p) (hd_rest p).

(** A question put to the engine, and what else happens to the store. *)
Definition put_to_engine (origin : Origin) (req : ApprovalRequest) (body : bytes)
    : state (vault * Holding) (result (ApprovalResponse * option SignedApproval) * ApprovalRequest) := fun '(v, p) =>
  let n := hd_asked p in
  let w := with_store v (hd_engine p) in
  let '(r, w') := submit e (Some req) (Some body) origin (hd_race p n) (hd_shown p n) w in
  ((r, prepared w req), (vault_run_ops (w_store w') (hd_meanwhile p n), then_asked w' p)).

#[export] Instance engine_for_peers : PeerEngine Holding := {|
  pe_SubmitPeer := put_to_engine OriginPeer;
  pe_SubmitPeerSigning := put_to_engine OriginPeerSigning;
  pe_Signed req ref := fun '(v, p) =>
    let w := (Signed req (Some ref) (with_store v (hd_engine p))).2 in (tt, (w_store w, then_logged w p))
|}.

(** ** The engine leaves the question alone *)

Lemma Verify_keeps_object g hash digest g' err :
  Verify (Some g) hash digest = (Some g', err) -> gc_object g' = gc_object g.
Proof.
  unfold Verify. case_bool_decide; [by intros [= <- _]|]. case_bool_decide; [by intros [= <- _]|].
  destruct (Hash _ _) as [c|x]; [|by intros [= <- _]]. case_bool_decide; [by intros [= <- _]|].
  unfold GitObject.Describe. cbn. repeat case_match; cbn; intros; by simplify_eq/=.
Qed.

Lemma Verify_Some g hash digest : exists g', (Verify (Some g) hash digest).1 = Some g' /\ gc_object g' = gc_object g.
Proof.
  destruct (Verify (Some g) hash digest) as [[g'|] err] eqn:Hv.
  - exists g'. split; [done|]. by eapply Verify_keeps_object.
  - exfalso. revert Hv. unfold Verify, GitObject.Describe. cbn. repeat case_match; cbn; intros; by simplify_eq/=.
Qed.

Lemma VerifyRequest_proven payload blob wrap req :
  proven payload blob wrap req -> proven payload blob wrap (VerifyRequest req).1.
Proof.
  unfold VerifyRequest. destruct (rq_sshsig req) as [s|] eqn:Es; [|done].
  destruct (sg_git_context s) as [g|] eqn:Eg; [|done].
  destruct (Verify_Some g (sg_hash_algorithm s) (sg_message_digest s)) as (g' & Hg' & Ho).
  destruct (Verify _ _ _) as [git' err]. cbn [fst] in Hg'. subst git'.
  unfold rq_sshsig in Es. destruct (rq_operation req) as [| | s' | | |] eqn:Eo; try done. injection Es as ->.
  intros (Hk & Hp & Hop). assert (proven payload blob wrap (set_git_context (Some g') req)) as Hr.
  { unfold set_git_context. rewrite Eo. split; [done|]. split; [done|]. cbn [rq_operation].
    destruct (cl_Sshsig (Classify blob)) as [sig|].
    - destruct Hop as (git & Hop & Hn & Hw). rewrite Eo in Hop. injection Hop as ->. cbn [with_context sg_git_context] in Eg. subst git.
      exists (Some g'). split; [done|]. split; [intros Hne; by specialize (Hn Hne)|].
      intros Hg Hwr. destruct (Hw Hg Hwr) as (? & [= <-] & <-). by exists g'.
    - destruct (cl_SSHAuth (Classify blob)) as [auth|].
      + destruct Hop as (a & Hop & _). by rewrite Eo in Hop.
      + destruct (cl_Opaque (Classify blob)); by rewrite Eo in Hop. }
  by destruct err.
Qed.

Lemma prepared_proven payload blob wrap w req :
  proven payload blob wrap req -> proven payload blob wrap (prepared (S := vault) w req).
Proof.
  intros Hp. unfold prepared, numbered. apply VerifyRequest_proven. destruct (rq_created_at _), (bool_decide (rq_request_id req = emp)); exact Hp.
Qed.

Lemma prepared_requester w req : rq_requester (prepared (S := vault) w req) = rq_requester req.
Proof.
  unfold prepared, numbered. assert (forall r, rq_requester (VerifyRequest r).1 = rq_requester r) as Hv.
  { intros r. unfold VerifyRequest. destruct (rq_sshsig r); [|done]. destruct (sg_git_context _); [|done].
    destruct (Verify _ _ _) as [git x]. destruct x; unfold set_git_context; by destruct (rq_operation r). }
  rewrite Hv. repeat (case_bool_decide || case_match); done.
Qed.

(** ** What stands behind a borrowed signature *)

Context `{!KeyStore Holding}.

Lemma submitted_run req body (v : vault) (p : Holding) resp signed req' q :
  pe_SubmitPeerSigning req body (v, p) = ((Ok (resp, signed), req'), q) -> rs_decision resp = DECISION_APPROVE ->
  req' = prepared (with_store v (hd_engine p)) req /\ rq_kind req' <> KIND_OPAQUE_SIGN /\
  (mustPrompt req' <> emp -> exists h an, hd_race p (hd_asked p) = Answered h (Some an) /\ an_Decision an = DECISION_APPROVE) /\
  q.2 = then_asked (hd_engine q.2) p /\
  exists remote text mid,
    w_trace (hd_engine q.2) = w_trace (hd_engine p) ++ [EfAudit (entry_request req')] ++ mid ++
      [EfAudit (entry_decision req' resp signed remote text (hd_shown p (hd_asked p)))].
Proof.
  unfold pe_SubmitPeerSigning, engine_for_peers, put_to_engine.
  destruct (submit _ _ _ _ _ _ _) as [r w'] eqn:Es. intros [= -> <- <-] Hd.
  destruct (submit_run _ _ _ _ _ _ _ _ _ _ Es Hd) as (problem & rq & policy & w3 & r0 & rem0 & rq' & w4 & remote & text & mid
    & _ & Hm & _ & Hdec & Hd0 & Ht).
  destruct (approved_by_answer _ _ _ _ _ _ _ _ _ _ Hdec Hd0) as [Hk Hans]. rewrite Hm in *.
  split; [done|]. split; [done|]. split; [done|]. split; [done|]. by exists remote, text, mid.
Qed.

(** C5. A signature made for another machine is made for a machine this one is
    paired with and lets ask, with a key its trust record lends it - by the
    signer the store has for that key's fingerprint once the engine has
    approved - over bytes this machine put together; the engine approved a request that says what
    those bytes are - kind, digest and every fact the bytes prove - names that
    key, and names the machine on the channel as the one asking; the approval
    and the signature stand in the log, in that order; bytes that are no login
    and no SSHSIG are never signed, and a request that must be put to somebody
    was answered with yes.  When the engine did not approve, no signature
    leaves. *)
Theorem borrowed_signature_in_the_log endorsements peer rq (n n' : node Holding) signed out :
  load_ok (n_load n) ->
  RemoteSign true endorsements peer rq n = (inl (signed, out), n') ->
  exists id record msg ref blob resp,
    peer = Some id /\ trust_Peer (pi_Fingerprint id) (n_vault n) = Some record /\ tr_may_request record = true /\
    Unmarshal (rm_request rq) = Ok msg /\ n_load n' = n_load n /\
    ref ∈ ks_KeyRefs (n_rest n) /\ named_key (rq_key msg) ref = true /\
    MayUseKey (Some record) (kr_fingerprint ref) = true /\
    blobFor (rm_payload rq) (rm_wrap_sshsig rq) (rq_sshsig msg) = Ok blob /\
    ((rs_decision resp <> DECISION_APPROVE /\ out = []) \/
     (exists req' w signer sig remote text mid,
        rs_decision resp = DECISION_APPROVE /\ proven (rm_payload rq) blob (rm_wrap_sshsig rq) req' /\
        rq_key req' = Some ref /\
        rq_requester req' = Some (asked_by (pi_Fingerprint id) record (pi_RemoteAddr id) msg) /\
        rq_kind req' <> KIND_OPAQUE_SIGN /\
        (mustPrompt req' <> emp -> exists h an,
           hd_race (n_rest n) (hd_asked (n_rest n)) = Answered h (Some an) /\ an_Decision an = DECISION_APPROVE) /\
        ks_Signer (kr_fingerprint ref) (then_asked w (n_rest n)) = Ok signer /\
        signBlob signer blob (rq_signature_algorithm req') = Ok sig /\ out = MarshalSignature sig /\
        w_trace w = w_trace (hd_engine (n_rest n)) ++ [EfAudit (entry_request req')] ++ mid ++
          [EfAudit (entry_decision req' resp signed remote text (hd_shown (n_rest n) (hd_asked (n_rest n))))] /\
        w_trace (hd_engine (n_rest n')) = w_trace w ++
          [EfAudit (mk_AuditEntry EVENT_SIGNATURE (rq_request_id req') None None None None emp None
             (RequestKind_String (rq_kind req')) (kr_fingerprint ref) None)])).
Proof.
  intros Hl (id & record & msg & n1 & (-> & Ht & Hr & ->) & Hu & Hload & Ha)%RemoteSign_run; [|done]. cbn zeta in Ha.
  unfold on_vault in Ha. cbn [n_vault] in Ha. destruct (acceptPresented _ _ _ _) as [o v].
  destruct Ha as (ref & blob & req & resp & req' & [v' p'] & Hin & Hn & Hm & Hb & Hp & Hk & Hq & Hs & Hc).
  cbn [fst snd n_vault n_rest] in *. exists id, record, msg, ref, blob, resp. do 9 (split; [done|]).
  destruct Hc as [(Hd & -> & _)|(Hd & signer & sig & Hks & Hsb & -> & Hend)]; [by left|right].
  destruct (submitted_run _ _ _ _ _ _ _ _ Hs Hd) as (-> & Hop & Hans & Hp' & remote & text & mid & Htr). cbn [snd] in Htr, Hp'.
  exists (prepared (with_store v (hd_engine (n_rest n))) req), (hd_engine p'), signer, sig, remote, text, mid.
  split; [done|]. split; [by apply prepared_proven|].
  split; [by destruct (prepared_keeps (with_store v (hd_engine (n_rest n))) req) as ((_ & -> & _) & _)|].
  split; [by rewrite prepared_requester|]. do 2 (split; [done|]). split; [by rewrite <- Hp'|]. do 3 (split; [done|]).
  apply (f_equal snd) in Hend. cbn [snd] in Hend. rewrite Hend. cbn [pe_Signed engine_for_peers fst snd then_logged hd_engine].
  unfold Signed. by rewrite logEntry_run.
Qed.

End HolderEngine.

(** ** A concrete holder *)

Import Toy.

Module ToyHolder.

(** A desk that holds one key, and a box that may ask for it. *)
Definition lent : KeyRef := mk_KeyRef "SHA256:k" "toy" [x6b] "work" emp None.
Definition box : TrustRecord :=
  mk_TrustRecord "SHA256:box" "box" [] [] false true ["SHA256:k"%string] None false false emp None None.
Definition on_the_channel : option PeerIdentity := Some (mk_PeerIdentity (of_string "box") "SHA256:box" "10.0.0.2:7777").

(** The box asks under another name, and calls the login something else. *)
Definition asked : ApprovalRequest :=
  mk_ApprovalRequest "r1" (Some 0) (Some (mk_RequesterInfo "SHA256:desk" "desk" true false emp None))
    KIND_OPAQUE_SIGN (Some (mk_KeyRef "SHA256:k" "toy" [x6b] "other" emp None)) None 0 emp [] false None None
    (OpOpaqueSign (mk_OpaqueSignRequest 0 [] emp [])).

(** One request ever crosses: it is what any body parses to. *)
#[export] Instance one_request : Codec ApprovalRequest | 0 := {| Marshal _ := Ok [x01]; Unmarshal _ := Ok asked |}.
#[export] Instance some_response : Codec ApprovalResponse | 0 := toy_any.
#[export] Instance some_delegation : Codec Delegation | 0 := toy_any.
#[export] Instance some_endorsement : Codec Endorsement | 0 := toy_any.
#[export] Instance some_retraction : Codec Retraction | 0 := toy_any.

Abbreviation holding := (Holding (R := unit)).

#[export] Instance one_key : KeyStore holding := {|
  ks_KeyRefs _ := [lent];
  ks_Signer fp _ := if bool_decide (fp = "SHA256:k"%string) then Ok (Toy.signer [x6b]) else Err (errors_New "no key") |}.

#[export] Instance the_engine : PeerEngine holding := engine_for_peers toy_options.

Definition empty_vault (peers : list TrustRecord) : vault := mk_vault [] [] [] [] peers [] (fun _ => 100) 0 (fun _ => None) 0.
Definition says (d : Decision) : Answer := mk_Answer d emp 0 GrantReachSession None SOURCE_UNSPECIFIED None.
Definition desk_node (peers : list TrustRecord) (d : Decision) : node holding :=
  mk_node holding (empty_vault peers) ∅ ∅ []
    (mk_Holding (mk_world (empty_vault peers) DefaultPolicy [desk; phone] false (fun n => Z.of_nat n) 0
       (fun n => of_string "0123456789") 0 []) (fun _ => Answered desk (Some (says d))) (fun _ => None) (fun _ => []) 0 tt).

Definition wants (payload : bytes) : RemoteSignRequest := mk_RemoteSignRequest [x01] payload false None.
Definition borrow (peers : list TrustRecord) (d : Decision) (payload : bytes) :=
  RemoteSign true true on_the_channel (wants payload) (desk_node peers d).

(** The parts of a reply that is one. *)
Definition reply_value {A W} (d : A) (x : reply A * W) : A := match x.1 with inl a => a | inr _ => d end.
Definition is_reply {A W} (x : reply A * W) : bool := match x.1 with inl _ => true | inr _ => false end.
Lemma reply_value_run {A W} (d : A) (x : reply A * W) : is_reply x = true -> x = (inl (reply_value d x), x.2).
Proof. by destruct x as [[a|e] w]. Qed.

End ToyHolder.
Import ToyHolder.

(** What the box is given for a login: a signature when the desk says yes,
    none when it says no, none at all for bytes that are no login, or when the
    key is not lent, or when it is not paired. *)
Definition outcome (x : reply (option SignedApproval * bytes) * node holding) : option (bool * bool) :=
  match x.1 with inl (s, out) => Some (bool_decide (is_Some s), bool_decide (out <> [])) | inr _ => None end.

Example what_the_box_is_given :
  outcome (borrow [box] DECISION_APPROVE toy_hostbound) = Some (true, true) /\
  outcome (borrow [box] DECISION_DENY toy_hostbound) = Some (true, false) /\
  outcome (borrow [box] DECISION_APPROVE (of_string "anything else")) = Some (true, false) /\
  outcome (borrow [mk_TrustRecord "SHA256:box" "box" [] [] false true [] None false false emp None None] DECISION_APPROVE toy_hostbound) = None /\
  outcome (borrow [] DECISION_APPROVE toy_hostbound) = None.
Proof. vm_compute. repeat split. Qed.

Abbreviation borrowed := (borrow [box] DECISION_APPROVE toy_hostbound).

Lemma borrowed_signature_in_the_log_witness :
  exists record ref blob, trust_Peer "SHA256:box" (empty_vault [box]) = Some record /\ ref ∈ [lent] /\
    MayUseKey (Some record) (kr_fingerprint ref) = true /\
    blobFor toy_hostbound false None = Ok blob.
Proof.
  destruct (borrowed_signature_in_the_log toy_options true on_the_channel (wants toy_hostbound) (desk_node [box] DECISION_APPROVE)
    borrowed.2 (reply_value (None, []) borrowed).1 (reply_value (None, []) borrowed).2)
    as (id & record & msg & ref & blob & resp & Hid & Ht & _ & Hu & _ & Hin & _ & Hm & Hb & _).
  - apply map_Forall_empty.
  - rewrite <- surjective_pairing. apply (reply_value_run (None, []) borrowed). vm_compute. reflexivity.
  - injection Hid as <-. injection Hu as <-. exists record, ref, blob. repeat split; done.
Defined.
