(* ===== verification/Lenders.v ===== *)
(** * Lenders: the peers a requester can ask

    Which paired peers hold a link and which an inbox ([Reconcile] of
    [pkg/peer/peer.go]), what they offer to sign with - remembered by
    [pkg/keystore/borrowed.go], told by [announcekeys.go] and [learnKeys] of
    [link.go] - and which of it an agent may offer ([BorrowedKeys] and what
    reads it, [keys.go]).  A link here is its trust record, the key it pins
    and what its presence loop has learned; the loop itself and the paths it
    takes are outside. *)

From S2P Require Import Prelude.
From S2P Require Import Sorting.
From S2P Require Import GoText.
From S2P Require Import Proto.
From S2P Require Import Ssh.
From S2P Require Import Prompt.
From S2P Require Import Rpc.
From S2P Require Import Trust.
From S2P Require Import Vault.
From S2P Require Import Access.
From S2P Require Import Agent.
From S2P Require Import Wakeups.
From S2P Require Import Promises.
From S2P Require Import Holder.

Local Open Scope Z_scope.
Local Open Scope ladulas_scope.

(** ** What is remembered *)

Record BorrowedKey := mk_BorrowedKey {
  bk_peer_fingerprint : string;
  bk_key : KeyRef;
  bk_last_seen_at : option time
}.

(** The part of the document, with what each save comes to. *)
Record lenders := mk_lenders {
  le_borrowed : list BorrowedKey;
  le_disk : nat -> option error;
  le_writes : nat
}.
Definition set_borrowed (l : list BorrowedKey) (s : lenders) : lenders := mk_lenders l (le_disk s) (le_writes s).
Definition le_save : state lenders (option error) := fun s =>
  (le_disk s (le_writes s), mk_lenders (le_borrowed s) (le_disk s) (S (le_writes s))).

Definition lent_by (fingerprint : string) (b : BorrowedKey) : bool := bool_decide (bk_peer_fingerprint b = fingerprint).

Fixpoint sameBorrowed (a b : list BorrowedKey) : bool :=
  match a, b with
  | [], [] => true
  | x :: a', y :: b' =>
    bool_decide (bk_peer_fingerprint x = bk_peer_fingerprint y) &&
    bool_decide (kr_fingerprint (bk_key x) = kr_fingerprint (bk_key y)) && sameBorrowed a' b'
  | _, _ => false
  end.

Definition borrowedSeenResolution : duration := 5 * Minute.
Definition staleBorrowed (current : list BorrowedKey) (fingerprint : string) (seen : time) : bool :=
  existsb (fun b => lent_by fingerprint b && (borrowedSeenResolution <? Sub seen (AsTime (bk_last_seen_at b)))) current.

Definition SetBorrowedKeys (fingerprint : string) (keys : list KeyRef) (seen : time) : state lenders (option error) :=
  current ← gets le_borrowed;
  let kept := List.filter (fun b => negb (lent_by fingerprint b)) current ++
              map (fun key => mk_BorrowedKey fingerprint key (Some seen)) keys in
  if sameBorrowed current kept && negb (staleBorrowed current fingerprint seen) then mret None
  else _ ← modify (set_borrowed kept); le_save.

Definition DropBorrowedKeys (fingerprint : string) : state lenders (result Z) :=
  current ← gets le_borrowed;
  let dropped := Z.of_nat (length (List.filter (lent_by fingerprint) current)) in
  if dropped =? 0 then mret (Ok 0)
  else
    _ ← modify (set_borrowed (List.filter (fun b => negb (lent_by fingerprint b)) current));
    failed ← le_save;
    mret (match failed with Some e => Err e | None => Ok dropped end).

Section Lenders.
Context `{Unicode} `{Hashes} `{Ssh}.

(** [trust.PublicKey]. *)
Definition trust_PublicKey (record : TrustRecord) : result PublicKey :=
  match ParsePublicKey (tr_identity_public_key record) with
  | Err e => Err (wrap_w ("trust: unusable identity key for " +:+ quote (tr_name record) +:+ ": ") e emp)
  | Ok pub =>
    if bool_decide (FingerprintSHA256 pub <> tr_fingerprint record)
    then Err (errors_New ("trust: record for " +:+ quote (tr_name record) +:+ " claims " +:+ tr_fingerprint record +:+
                          " but holds " +:+ FingerprintSHA256 pub))
    else Ok pub
  end.

(** ** Links and inboxes *)

Record link := mk_link {
  lk_record : TrustRecord;
  lk_key : PublicKey;
  lk_lastSeen : time;
  lk_offered : list KeyRef
}.
Definition Name (l : link) : string := tr_name (lk_record l).
Definition link_Fingerprint (l : link) : string := tr_fingerprint (lk_record l).

(** [update], and a link just made. *)
Definition update_link (record : TrustRecord) (l : link) : link := mk_link record (lk_key l) (lk_lastSeen l) (lk_offered l).
Definition newLink (record : TrustRecord) : result link :=
  key ← trust_PublicKey record; Ok (mk_link record key zero_time []).

(** [for _, record := range records { m[record.GetFingerprint()] = record }]. *)
Definition by_fingerprint (records : list TrustRecord) : gmap string TrustRecord :=
  foldl (fun m r => <[tr_fingerprint r := r]> m) ∅ records.

Record reachables := mk_reachables {
  re_links : gmap string link;
  re_inboxes : gmap string string   (** the name each collecting approver is registered under *)
}.

Definition reconcile_links (wanted : gmap string TrustRecord) (links : gmap string link) : gmap string link :=
  merge (fun record existing =>
    match record, existing with
    | Some record, Some l => Some (update_link record l)
    | Some record, None => match newLink record with Ok l => Some l | Err _ => None end
    | None, _ => None
    end) wanted links.
Definition reconcileInboxes (collectors : gmap string TrustRecord) (inboxes : gmap string string) : gmap string string :=
  merge (fun record existing =>
    match record, existing with
    | Some record, Some name => Some name
    | Some record, None => Some (tr_name record)
    | None, _ => None
    end) collectors inboxes.

(** [ours] is the tunnel version of this build. *)
Variable ours : Z.

Definition Reconcile (peers : list TrustRecord) (r : reachables) : reachables :=
  let approvers := List.filter tr_may_approve peers in
  mk_reachables
    (reconcile_links (by_fingerprint (List.filter (fun p => Dialable (Some p) ours) approvers)) (re_links r))
    (reconcileInboxes (by_fingerprint (List.filter (fun p => negb (Dialable (Some p) ours)) approvers)) (re_inboxes r)).

Definition Disconnect (fingerprint : string) (r : reachables) : reachables :=
  mk_reachables (delete fingerprint (re_links r)) (re_inboxes r).

Definition sortedLinks (links : gmap string link) : list link :=
  SliceStable (fun a b => String.ltb (link_Fingerprint a) (link_Fingerprint b)) (map snd (map_to_list links)).

(** ** What a peer says it offers *)

Definition validKeys (keys : list KeyRef) : list KeyRef :=
  List.filter (fun ref =>
    match ParsePublicKey (kr_public_key ref) with
    | Err _ => false
    | Ok pub => bool_decide (kr_fingerprint ref = FingerprintSHA256 pub)
    end) keys.

Definition refused (c : Code) : bool :=
  bool_decide (c ∈ [CodePermissionDenied; CodeUnauthenticated; CodeUnimplemented; CodeNotFound; CodeFailedPrecondition]).

Definition setOffered (keys : list KeyRef) (l : link) : link := mk_link (lk_record l) (lk_key l) (lk_lastSeen l) keys.

(** [rememberKeys]: what the store makes of it is only logged. *)
Definition rememberKeys (fingerprint : string) (keys : list KeyRef) (now : time) : state lenders unit :=
  _ ← SetBorrowedKeys fingerprint keys now; mret tt.

(** [learnKeys] once the path is there: the answer of [ListKeys] at [now]. *)
Definition learnKeys (answer : list KeyRef + rpc_error) (now : time) (l : link) : state lenders link :=
  match answer with
  | inr e => mret (if refused (re_code e) then setOffered [] l else l)
  | inl keys =>
    let keys := validKeys keys in
    _ ← rememberKeys (link_Fingerprint l) keys now;
    mret (setOffered keys l)
  end.

Record AnnounceKeysResponse := mk_AnnounceKeysResponse { ak_accepted : bool; ak_reason : string }.

Section Announced.
Context {R : Type}.

Definition on_lenders {A} (m : state lenders A) : state (node (lenders * R)) A := fun n =>
  let '(a, p) := here m (n_rest n) in (a, mk_node _ (n_vault n) (n_seen n) (n_load n) (n_gossip n) p).

Definition AnnounceKeys (peer : option PeerIdentity) (keys : list KeyRef)
    : state (node (lenders * R)) (reply AnnounceKeysResponse) :=
  found ← publisherFor peer;
  match found with
  | inr e => mret (inr e)
  | inl (id, _) =>
    now ← on_vault Now;
    _ ← on_lenders (rememberKeys (pi_Fingerprint id) (validKeys keys) now);
    mret (inl (mk_AnnounceKeysResponse true emp))
  end.

End Announced.

(** ** What an agent may offer *)

Record BorrowedKeyStatus := mk_BorrowedKeyStatus {
  bs_key : KeyRef;
  bs_peer : string;
  bs_peer_fingerprint : string;
  bs_available : bool;
  bs_last_seen_at : option time;
  bs_held_here : bool
}.

(** Everything the listing reads. *)
Record sight := mk_sight {
  si_peers : list TrustRecord;
  si_borrowed : list BorrowedKey;
  si_links : gmap string link;
  si_polling : string -> bool;           (** whether a peer has a poll open *)
  si_wakeups : option wakeups;           (** [n.wakeups], nil without one *)
  si_keys : option (list KeyRef)         (** [n.keys.KeyRefs()], nil without a store *)
}.

Definition heldHere (s : sight) : list string := map kr_fingerprint (default [] (si_keys s)).

Definition canCollectFor (s : sight) (record : TrustRecord) : bool :=
  if negb (tr_may_approve record) then false
  else if si_polling s (tr_fingerprint record) then true
  else
    match si_wakeups s with
    | None => false
    | Some w =>
      match PeerWakeup_of (tr_fingerprint record) w with
      | Some wakeup => bool_decide (is_Some (pw_route wakeup))
      | None => false
      end
    end.

Definition offers (l : link) (fingerprint : string) : bool :=
  existsb (fun ref => bool_decide (kr_fingerprint ref = fingerprint)) (lk_offered l).

(** The row for one remembered key, when its peer is still paired. *)
Definition borrowed_status (s : sight) (b : BorrowedKey) : option BorrowedKeyStatus :=
  record ← by_fingerprint (si_peers s) !! bk_peer_fingerprint b;
  let dialled := si_links s !! bk_peer_fingerprint b in
  let available :=
    match dialled with
    | Some l => offers l (kr_fingerprint (bk_key b))
    | None => canCollectFor s record
    end in
  let seen :=
    match dialled with
    | Some l => if available && negb (IsZero (lk_lastSeen l)) then Some (lk_lastSeen l) else bk_last_seen_at b
    | None => bk_last_seen_at b
    end in
  Some (mk_BorrowedKeyStatus (bk_key b) (tr_name record) (bk_peer_fingerprint b) available seen
    (bool_decide (kr_fingerprint (bk_key b) ∈ heldHere s))).

(** The source sorts with [sort.Slice], which leaves the order of rows with one
    peer and label open; here they stay as they were. *)
Definition status_less (a b : BorrowedKeyStatus) : bool :=
  if bool_decide (bs_peer a <> bs_peer b) then String.ltb (bs_peer a) (bs_peer b)
  else String.ltb (kr_label (bs_key a)) (kr_label (bs_key b)).

Definition BorrowedKeys (s : sight) : list BorrowedKeyStatus :=
  SliceStable status_less (omap (borrowed_status s) (si_borrowed s)).

Definition RemoteKeyRefs (s : sight) : list KeyRef :=
  map bs_key (List.filter (fun b => bs_available b && negb (bs_held_here b)) (BorrowedKeys s)).

Definition peer_named (s : sight) (ref : string) : option TrustRecord :=
  find_first (fun r => MatchesRef r ref) (si_peers s).

Definition collectingHoldersOf (s : sight) (fingerprint : string) : list TrustRecord :=
  omap (fun b =>
    if bool_decide (kr_fingerprint (bs_key b) <> fingerprint) || negb (bs_available b) then None
    else
      match peer_named s (bs_peer_fingerprint b) with
      | Some record => if Dialable (Some record) ours then None else Some record
      | None => None
      end) (BorrowedKeys s).

Definition BorrowedKey_of (s : sight) (blob : bytes) : option KeyRef :=
  bs_key <$> find_first (fun b => bool_decide (kr_public_key (bs_key b) = blob)) (BorrowedKeys s).

(** ** The ways to have a key signed with *)

Inductive holderRoute := over_link (l : link) | through_inbox (record : TrustRecord).

Definition holderRoutes (s : sight) (fingerprint : string) : list holderRoute :=
  map over_link (List.filter (fun l => offers l fingerprint) (sortedLinks (si_links s))) ++
  map through_inbox (collectingHoldersOf s fingerprint).

Definition ErrNoRemoteKey : error := sentinel "peer.ErrNoRemoteKey" "peer: no paired instance offers that key".
Definition ErrHolderUnreachable : error :=
  sentinel "peer.ErrHolderUnreachable" "peer: the instance holding that key cannot be reached".

Definition describeKey (key : KeyRef) : string :=
  if bool_decide (kr_label key <> emp) then kr_label key else kr_fingerprint key.

Definition lastSeenPhrase `{LocalTime} (b : BorrowedKeyStatus) : string :=
  match bs_last_seen_at b with
  | None => "and has not been reachable since it was paired"
  | Some at_ => "and was last reachable " +:+ Local_RFC1123 at_
  end.

Definition noHolder `{LocalTime} (s : sight) (fingerprint : string) : error :=
  match find_first (fun b => bool_decide (kr_fingerprint (bs_key b) = fingerprint)) (BorrowedKeys s) with
  | Some b => wrap_w emp ErrHolderUnreachable
      (": " +:+ bs_peer b +:+ " holds " +:+ describeKey (bs_key b) +:+ ", " +:+ lastSeenPhrase b)
  | None => wrap_w emp ErrNoRemoteKey (": " +:+ fingerprint)
  end.

End Lenders.

(** ** The holder says it *)

(** What was last announced to one requester. *)
Record announcedList := mk_announcedList { al_at : time; al_digest : string }.

Record key_announcer := mk_key_announcer {
  ka_peers : list TrustRecord;
  ka_refs : list KeyRef;            (** [n.keys.KeyRefs()] *)
  ka_said : gmap string announcedList;
  ka_clock : nat -> time;
  ka_ticks : nat
}.
Definition set_ka_said (m : gmap string announcedList) (a : key_announcer) : key_announcer :=
  mk_key_announcer (ka_peers a) (ka_refs a) m (ka_clock a) (ka_ticks a).
Definition ka_now : state key_announcer time := fun a =>
  (ka_clock a (ka_ticks a), mk_key_announcer (ka_peers a) (ka_refs a) (ka_said a) (ka_clock a) (S (ka_ticks a))).

(** Calls to a requester's key service. *)
Class KeyListPeers (W : Type) := kl_AnnounceKeys : TrustRecord -> list KeyRef -> state W (result AnnounceKeysResponse).

Section KeyAnnouncer.
Context `{Hashes}.
Variable ours : Z.

(** What one key adds to the digest. *)
Definition digest_of (ref : KeyRef) : bytes :=
  of_string (kr_fingerprint ref) ++ of_string (kr_label ref) ++ of_string (kr_comment ref) ++
  (if negb (RefAgentUse ref) then x00 :: of_string "hidden" else []) ++ [x00].
Definition keyListDigest (keys : list KeyRef) : string := hex (sha256 (concat (map digest_of keys))).

Definition say_keys (fingerprint digest : string) : state key_announcer bool :=
  at_ ← ka_now;
  _ ← modify (fun a => set_ka_said (<[fingerprint := mk_announcedList at_ digest]> (ka_said a)) a);
  mret true.

Definition shouldAnnounceKeys (fingerprint : string) (keys : list KeyRef) : state key_announcer bool :=
  let digest := keyListDigest keys in
  last ← gets (fun a => ka_said a !! fingerprint);
  match last with
  | None => if bool_decide (keys = []) then mret false else say_keys fingerprint digest
  | Some last =>
    if bool_decide (al_digest last = digest)
    then now ← ka_now; if Sub now (al_at last) <? announceRefresh then mret false else say_keys fingerprint digest
    else say_keys fingerprint digest
  end.

Definition forgetKeyAnnouncement (fingerprint : string) : state key_announcer unit :=
  modify (fun a => set_ka_said (delete fingerprint (ka_said a)) a).

Context {W : Type} `{!KeyListPeers W}.

Definition announceKeysTo (record : TrustRecord) (keys : list KeyRef) : state (key_announcer * W) unit :=
  answer ← there (kl_AnnounceKeys record keys);
  match answer with
  | Err _ => here (forgetKeyAnnouncement (tr_fingerprint record))
  | Ok _ => mret tt
  end.

Definition announce_keys_one (record : TrustRecord) : state (key_announcer * W) unit :=
  keys ← here (gets (fun a => usable record (ka_refs a)));
  due ← here (shouldAnnounceKeys (tr_fingerprint record) keys);
  if (due : bool) then announceKeysTo record keys else mret tt.

Fixpoint announce_keys_each (live : nat) (records : list TrustRecord) : state (key_announcer * W) unit :=
  match records, live with
  | record :: records', S live' => _ ← announce_keys_one record; announce_keys_each live' records'
  | _, _ => mret tt
  end.

(** [AnnounceKeys] of the poll loop; [keys] says whether there is a store. *)
Definition announce_keys (keys : bool) (live : nat) : state (key_announcer * W) unit :=
  if negb keys then mret tt
  else records ← here (gets (fun a => requesters ours (ka_peers a))); announce_keys_each live records.

End KeyAnnouncer.
