(* ===== verification/LendersSpec.v ===== *)
(** * LendersSpec: what is offered can be asked for

    The theorems about [Lenders].  After a reconciliation every paired
    approver is dialled or collects, never both, and nobody else is either;
    what is remembered of a peer is what it last said; and a key the agent
    offers is one some paired approver can be asked to sign with. *)

From S2P Require Import Prelude.
From S2P Require Import Rules.
From S2P Require Import Sorting.
From S2P Require Import GoText.
From S2P Require Import Proto.
From S2P Require Import Ssh.
From S2P Require Import Rpc.
From S2P Require Import Trust.
From S2P Require Import Vault.
From S2P Require Import Access.
From S2P Require Import Agent.
From S2P Require Import Wakeups.
From S2P Require Import Promises.
From S2P Require Import Holder.
From S2P Require Import Lenders.

Local Open Scope Z_scope.
Local Open Scope ladulas_scope.

(** ** Records by fingerprint *)

Lemma by_fingerprint_lookup_gen (l : list TrustRecord) (m : gmap string TrustRecord) fp r :
  foldl (fun m r => <[tr_fingerprint r := r]> m) m l !! fp = Some r ->
  (r ∈ l /\ tr_fingerprint r = fp) \/ m !! fp = Some r.
Proof.
  revert m. induction l as [|x l IH]; intros m; cbn; [by right|]. intros [[Hin Hfp]|Hm]%IH.
  - left. split; [by right|done].
  - destruct (decide (fp = tr_fingerprint x)) as [->|Hne].
    + rewrite lookup_insert_eq in Hm. injection Hm as ->. left. split; [by left|done].
    + rewrite lookup_insert_ne in Hm by done. by right.
Qed.

Lemma by_fingerprint_Some l fp r : by_fingerprint l !! fp = Some r -> r ∈ l /\ tr_fingerprint r = fp.
Proof. intros [?|He]%by_fingerprint_lookup_gen; [done|]. by rewrite lookup_empty in He. Qed.

Lemma by_fingerprint_elem l r :
  NoDup (map tr_fingerprint l) -> r ∈ l -> by_fingerprint l !! tr_fingerprint r = Some r.
Proof.
  intros Hnd Hin. destruct (by_fingerprint l !! tr_fingerprint r) as [r'|] eqn:Hl.
  - apply by_fingerprint_Some in Hl as [Hin' Hfp]. f_equal.
    induction l as [|x l IH]; [by apply elem_of_nil in Hin|]. cbn in Hnd. apply NoDup_cons in Hnd as [Hx Hnd].
    apply elem_of_cons in Hin as [->|Hin], Hin' as [->|Hin']; [done| | |by apply IH];
      destruct Hx; apply list_elem_of_fmap; eauto.
  - exfalso. revert Hl. unfold by_fingerprint. generalize (∅ : gmap string TrustRecord). clear Hnd.
    induction l as [|x l IH]; intros m; cbn; [by apply elem_of_nil in Hin|].
    apply elem_of_cons in Hin as [->|Hin]; [|by apply IH].
    assert (forall l (m : gmap string TrustRecord) fp, is_Some (m !! fp) -> is_Some (foldl (fun m r => <[tr_fingerprint r := r]> m) m l !! fp)) as Hk.
    { clear. induction l as [|y l IH]; intros m fp Hm; cbn; [done|]. apply IH.
      destruct (decide (fp = tr_fingerprint y)) as [->|Hne]; [by rewrite lookup_insert_eq|by rewrite lookup_insert_ne]. }
    intros Hl. destruct (Hk l (<[tr_fingerprint x:=x]> m) (tr_fingerprint x)) as [? He]; [by rewrite lookup_insert_eq|congruence].
Qed.

Lemma NoDup_map_filter_bool {A B} (f : A -> B) p (l : list A) : NoDup (map f l) -> NoDup (map f (List.filter p l)).
Proof.
  induction l as [|x l IH]; cbn; [done|]. intros [Hx Hl]%NoDup_cons. destruct (p x); cbn; [|by apply IH].
  apply NoDup_cons. split; [|by apply IH]. intros (y & Hy & [Hin _]%elem_of_filter_bool)%list_elem_of_fmap.
  apply Hx, list_elem_of_fmap. eauto.
Qed.

Section LendersSpec.
Context `{Unicode} `{Hashes} `{Ssh}.
Variable ours : Z.

(** ** A reconciliation *)

Lemma Reconcile_links peers r fp :
  re_links (Reconcile ours peers r) !! fp =
  match by_fingerprint (List.filter (fun p => Dialable (Some p) ours) (List.filter tr_may_approve peers)) !! fp with
  | Some p => match re_links r !! fp with
              | Some l => Some (update_link p l)
              | None => match newLink p with Ok l => Some l | Err _ => None end
              end
  | None => None
  end.
Proof.
  cbn [Reconcile re_links]. unfold reconcile_links. rewrite lookup_merge. unfold diag_None.
  by destruct (by_fingerprint _ !! fp), (re_links r !! fp).
Qed.

Lemma Reconcile_inboxes peers r fp :
  re_inboxes (Reconcile ours peers r) !! fp =
  match by_fingerprint (List.filter (fun p => negb (Dialable (Some p) ours)) (List.filter tr_may_approve peers)) !! fp with
  | Some p => match re_inboxes r !! fp with Some name => Some name | None => Some (tr_name p) end
  | None => None
  end.
Proof.
  cbn [Reconcile re_inboxes]. unfold reconcileInboxes. rewrite lookup_merge. unfold diag_None.
  by destruct (by_fingerprint _ !! fp), (re_inboxes r !! fp).
Qed.

(** After a reconciliation, whatever there was before: a paired approver that
    can be dialled has a link working from its record, and no inbox, if its
    identity key is usable; one that cannot be dialled has an inbox and no
    link; and there is nothing for anybody else. *)
Theorem Reconcile_spec peers (r : reachables) fp :
  NoDup (map tr_fingerprint peers) ->
  let r' := Reconcile ours peers r in
  (forall p, p ∈ peers -> tr_fingerprint p = fp -> tr_may_approve p = true ->
     if Dialable (Some p) ours
     then re_inboxes r' !! fp = None /\
          (re_links r !! fp <> None \/ is_ok (trust_PublicKey p) = true ->
             exists l, re_links r' !! fp = Some l /\ lk_record l = p)
     else re_links r' !! fp = None /\ re_inboxes r' !! fp <> None) /\
  ((forall p, p ∈ peers -> tr_fingerprint p = fp -> tr_may_approve p = false) ->
     re_links r' !! fp = None /\ re_inboxes r' !! fp = None).
Proof.
  intros Hnd. cbv zeta. rewrite Reconcile_links, Reconcile_inboxes.
  set (approvers := List.filter tr_may_approve peers).
  assert (NoDup (map tr_fingerprint approvers)) as Hnda by by apply NoDup_map_filter_bool.
  assert (forall (q : TrustRecord -> bool) p, p ∈ approvers -> q p = true ->
    by_fingerprint (List.filter q approvers) !! tr_fingerprint p = Some p) as Hin.
  { intros q p Hp Hq. apply by_fingerprint_elem; [by apply NoDup_map_filter_bool|]. by apply elem_of_filter_bool. }
  assert (forall (q : TrustRecord -> bool) p, p ∈ approvers -> q p = false ->
    by_fingerprint (List.filter q approvers) !! tr_fingerprint p = None) as Hout.
  { intros q p Hp Hq. destruct (_ !! _) as [p'|] eqn:Hl; [|done]. apply by_fingerprint_Some in Hl as [Hp' Hfp].
    apply elem_of_filter_bool in Hp' as [Hp' Hq']. assert (p' = p) as ->; [|congruence].
    apply (by_fingerprint_elem approvers) in Hp, Hp'; [|done..]. congruence. }
  split.
  - intros p Hp <- Ha. assert (p ∈ approvers) as Hpa by by apply elem_of_filter_bool.
    destruct (Dialable (Some p) ours) eqn:Hd.
    + rewrite (Hin (fun p => Dialable (Some p) ours) p Hpa Hd), (Hout (fun p => negb (Dialable (Some p) ours)) p Hpa) by by rewrite Hd.
      split; [done|]. destruct (re_links r !! _) as [l|]; [eauto|]. intros [?|Hk]; [done|].
      unfold newLink. destruct (trust_PublicKey p) as [key|e]; [cbn; eauto|done].
    + rewrite (Hout (fun p => Dialable (Some p) ours) p Hpa Hd), (Hin (fun p => negb (Dialable (Some p) ours)) p Hpa) by by rewrite Hd.
      split; [done|]. by destruct (re_inboxes r !! _).
  - intros Hno. assert (forall q, by_fingerprint (List.filter q approvers) !! fp = None) as Hn.
    { intros q. destruct (_ !! _) as [p|] eqn:Hl; [|done]. apply by_fingerprint_Some in Hl as [Hp Hfp].
      apply elem_of_filter_bool in Hp as [Hp _]. apply elem_of_filter_bool in Hp as [Hp Ha]. rewrite Hno in Ha; done. }
    by rewrite !Hn.
Qed.

(** ** What is remembered *)

(** The fingerprints of what is remembered of a peer, in order. *)
Definition remembered_of (fp : string) (s : lenders) : list string :=
  map (fun b => kr_fingerprint (bk_key b)) (List.filter (lent_by fp) (le_borrowed s)).

Lemma sameBorrowed_of fp a b : sameBorrowed a b = true ->
  map (fun b => kr_fingerprint (bk_key b)) (List.filter (lent_by fp) a) =
  map (fun b => kr_fingerprint (bk_key b)) (List.filter (lent_by fp) b).
Proof.
  revert b. induction a as [|x a IH]; intros [|y b]; cbn; try done. intros Hs. bool_prop.
  assert (lent_by fp x = lent_by fp y) as -> by (unfold lent_by; match goal with He : bk_peer_fingerprint x = _ |- _ => by rewrite He end).
  destruct (lent_by fp y); cbn; [f_equal; [done|]|]; by apply IH.
Qed.

Lemma kept_of fp fp' l (news : list KeyRef) seen :
  List.filter (lent_by fp') (List.filter (fun b => negb (lent_by fp b)) l ++ map (fun key => mk_BorrowedKey fp key (Some seen)) news) =
  if bool_decide (fp' = fp) then map (fun key => mk_BorrowedKey fp key (Some seen)) news
  else List.filter (lent_by fp') l.
Proof.
  rewrite List.filter_app. destruct (bool_decide_reflect (fp' = fp)) as [->|Hne].
  - replace (List.filter (lent_by fp) (List.filter _ l)) with ([] : list BorrowedKey).
    + cbn. induction news as [|k news IH]; cbn; [done|]. unfold lent_by at 1. cbn. rewrite bool_decide_eq_true_2 by done. by rewrite IH.
    + symmetry. induction l as [|x l IH]; cbn; [done|]. destruct (lent_by fp x) eqn:Hx; cbn; [done|]. by rewrite Hx.
  - replace (List.filter (lent_by fp') (map _ news)) with ([] : list BorrowedKey).
    + rewrite app_nil_r. induction l as [|x l IH]; cbn; [done|]. destruct (lent_by fp x) eqn:Hx; cbn; [|by rewrite IH].
      unfold lent_by in Hx |- *. bool_prop. rewrite bool_decide_eq_false_2 by congruence. exact IH.
    + symmetry. induction news as [|k news IH]; cbn; [done|]. unfold lent_by at 1. cbn. by rewrite bool_decide_eq_false_2.
Qed.

(** Whatever a peer says it offers, what is remembered of it afterwards is those
    keys in that order, by fingerprint, whether or not the document was
    written; and of every other peer what was remembered before. *)
Theorem SetBorrowedKeys_spec fp keys seen (s s' : lenders) failed :
  SetBorrowedKeys fp keys seen s = (failed, s') ->
  remembered_of fp s' = map kr_fingerprint keys /\
  forall fp', fp' <> fp -> remembered_of fp' s' = remembered_of fp' s.
Proof.
  unfold SetBorrowedKeys. rewrite state_bind_unfold. cbn [gets fst snd].
  set (kept := List.filter _ (le_borrowed s) ++ _).
  assert (forall fp', map (fun b => kr_fingerprint (bk_key b)) (List.filter (lent_by fp') kept) =
    if bool_decide (fp' = fp) then map kr_fingerprint keys else remembered_of fp' s) as Hk.
  { intros fp'. unfold kept. rewrite kept_of. case_bool_decide; [|done]. by rewrite map_map. }
  assert (forall t, (forall fp', remembered_of fp' t = map (fun b => kr_fingerprint (bk_key b)) (List.filter (lent_by fp') kept)) ->
    remembered_of fp t = map kr_fingerprint keys /\ forall fp', fp' <> fp -> remembered_of fp' t = remembered_of fp' s) as Hdone.
  { intros t Ht. split.
    - rewrite Ht, Hk. by rewrite bool_decide_eq_true_2.
    - intros fp' Hne. rewrite Ht, Hk. by rewrite bool_decide_eq_false_2. }
  destruct (sameBorrowed _ _ && _) eqn:Hs.
  - intros [= _ <-]. apply Hdone. intros fp'. bool_prop. by apply sameBorrowed_of.
  - intros [= _ <-]. by apply Hdone.
Qed.

(** ** What an agent may offer *)

(** What reconciling leaves: distinct identities, no name that is another's
    identity, links under their own fingerprints to peers that can be dialled,
    and one for every approver that can be. *)
Definition in_order (s : sight) : Prop :=
  NoDup (map tr_fingerprint (si_peers s)) /\
  (forall p q, p ∈ si_peers s -> q ∈ si_peers s -> MatchesRef q (tr_fingerprint p) = true -> q = p) /\
  (forall fp l, si_links s !! fp = Some l -> link_Fingerprint l = fp /\
     exists p, p ∈ si_peers s /\ tr_fingerprint p = fp /\ Dialable (Some p) ours = true) /\
  (forall p, p ∈ si_peers s -> tr_may_approve p = true -> Dialable (Some p) ours = true -> si_links s !! tr_fingerprint p <> None).

(** Somebody to ask: a peer dialled that offers the key now, or an approver
    that collects and can be told there is something to collect. *)
Definition askable (s : sight) (fingerprint : string) (route : holderRoute) : Prop :=
  match route with
  | over_link l => si_links s !! link_Fingerprint l = Some l /\ offers l fingerprint = true
  | through_inbox p => p ∈ si_peers s /\ tr_may_approve p = true /\ Dialable (Some p) ours = false /\ canCollectFor s p = true
  end.

Lemma BorrowedKeys_elem s st : st ∈ BorrowedKeys s <-> exists b, b ∈ si_borrowed s /\ borrowed_status s b = Some st.
Proof. unfold BorrowedKeys. rewrite SliceStable_perm. by rewrite list_elem_of_omap. Qed.

Lemma borrowed_status_Some s b st : borrowed_status s b = Some st ->
  exists p, by_fingerprint (si_peers s) !! bk_peer_fingerprint b = Some p /\ bs_key st = bk_key b /\
    bs_peer_fingerprint st = bk_peer_fingerprint b /\
    bs_held_here st = bool_decide (kr_fingerprint (bk_key b) ∈ heldHere s) /\
    bs_available st = match si_links s !! bk_peer_fingerprint b with
                      | Some l => offers l (kr_fingerprint (bk_key b))
                      | None => canCollectFor s p
                      end.
Proof.
  unfold borrowed_status. destruct (by_fingerprint _ !! _) as [p|]; [|done]. intros [= <-]. exists p. cbn.
  by destruct (si_links s !! bk_peer_fingerprint b).
Qed.

Lemma canCollectFor_approves s p : canCollectFor s p = true -> tr_may_approve p = true.
Proof. unfold canCollectFor. by destruct (tr_may_approve p). Qed.

Lemma sortedLinks_elem links l : l ∈ sortedLinks links <-> exists fp, links !! fp = Some l.
Proof.
  unfold sortedLinks. rewrite SliceStable_perm. rewrite list_elem_of_fmap. split.
  - intros ([fp l'] & -> & Hin). exists fp. by apply elem_of_map_to_list in Hin.
  - intros [fp Hl]. exists (fp, l). split; [done|]. by apply elem_of_map_to_list.
Qed.

(** A key the agent socket offers on behalf of a peer is not held here, and there
    is a way to have it signed with: some route leads to a peer that is up and
    offers it, or to an approver that collects and can be woken; and no route
    leads anywhere else. *)
Theorem offered_can_be_asked s ref :
  in_order s -> ref ∈ RemoteKeyRefs s ->
  (kr_fingerprint ref ∉ heldHere s) /\
  (exists route, route ∈ holderRoutes ours s (kr_fingerprint ref)) /\
  forall route, route ∈ holderRoutes ours s (kr_fingerprint ref) -> askable s (kr_fingerprint ref) route.
Proof.
  intros (Hnd & Hnames & Hfps & Hdialled) (st & -> & [Hst Hav]%elem_of_filter_bool)%list_elem_of_fmap. bool_prop.
  assert (forall p fp, p ∈ si_peers s -> tr_fingerprint p = fp -> peer_named s fp = Some p) as Hnamed.
  { intros p fp Hp <-. unfold peer_named. destruct (find_first _ _) as [q|] eqn:Hq.
    - apply find_first_elem in Hq as [Hq Hm]. f_equal. by apply Hnames.
    - exfalso. apply find_first_None in Hq. eapply Forall_forall in Hq; [|exact Hp]. cbv beta in Hq. unfold MatchesRef in Hq.
      rewrite bool_decide_eq_true_2 in Hq by done. done. }
  assert (forall st, st ∈ BorrowedKeys s -> bs_available st = true -> si_links s !! bs_peer_fingerprint st = None ->
    exists p, p ∈ si_peers s /\ tr_fingerprint p = bs_peer_fingerprint st /\ tr_may_approve p = true /\
      Dialable (Some p) ours = false /\ canCollectFor s p = true) as Hcollects.
  { intros x (b & _ & Hb)%BorrowedKeys_elem Ha Hl. apply borrowed_status_Some in Hb as (p & Hp & _ & Hf & _ & Hv).
    rewrite Hf in Hl |- *. rewrite Hl, Ha in Hv. apply by_fingerprint_Some in Hp as [Hp Hfp]. exists p.
    assert (tr_may_approve p = true) as Hm by by eapply canCollectFor_approves. split_and!; try done.
    destruct (Dialable (Some p) ours) eqn:Hd; [|done]. destruct (Hdialled p Hp Hm Hd). by rewrite Hfp. }
  split; [|split].
  - apply BorrowedKeys_elem in Hst as (b & _ & Hb). apply borrowed_status_Some in Hb as (p & _ & -> & _ & Hh & _).
    match goal with Hx : bs_held_here st = false |- _ => rewrite Hx in Hh end. symmetry in Hh. by apply bool_decide_eq_false in Hh.
  - unfold holderRoutes. destruct (si_links s !! bs_peer_fingerprint st) as [l|] eqn:Hl.
    + exists (over_link l). apply elem_of_app. left. apply list_elem_of_fmap. exists l. split; [done|].
      apply elem_of_filter_bool. split; [apply sortedLinks_elem; by exists (bs_peer_fingerprint st)|].
      apply BorrowedKeys_elem in Hst as (b & _ & Hb). apply borrowed_status_Some in Hb as (p & _ & -> & Hf & _ & Hv).
      rewrite Hf in Hl. rewrite Hl in Hv. congruence.
    + destruct (Hcollects st Hst) as (p & Hp & Hfp & _ & Hd & _); [done..|]. exists (through_inbox p).
      apply elem_of_app. right. apply list_elem_of_fmap. exists p. split; [done|]. unfold collectingHoldersOf.
      apply list_elem_of_omap. exists st. split; [done|]. rewrite bool_decide_eq_false_2 by (intros Hn; by destruct Hn).
      match goal with Hx : bs_available st = true |- _ => rewrite Hx end. cbn. by rewrite (Hnamed p), Hd.
  - intros route [Hr|Hr]%elem_of_app.
    + apply list_elem_of_fmap in Hr as (l & -> & [Hin Ho]%elem_of_filter_bool). apply sortedLinks_elem in Hin as [fp Hl].
      cbn. by destruct (Hfps fp l Hl) as [-> _].
    + apply list_elem_of_fmap in Hr as (q & -> & Hr). unfold collectingHoldersOf in Hr.
      apply list_elem_of_omap in Hr as (x & Hx & Hq). destruct (_ || _) eqn:Hc; [done|]. bool_prop.
      destruct (peer_named s _) as [p|] eqn:Hn; [|done]. destruct (Dialable (Some p) ours) eqn:Hd; [done|]. injection Hq as ->.
      destruct (si_links s !! bs_peer_fingerprint x) as [l|] eqn:Hl.
      * destruct (Hfps _ _ Hl) as (_ & q' & Hq' & Hfq & Hdq). rewrite (Hnamed q') in Hn by done. injection Hn as ->. congruence.
      * destruct (Hcollects x Hx) as (p & Hp & Hfp & Hm & _ & Hcan); [done..|]. rewrite (Hnamed p) in Hn by done. injection Hn as ->. done.
Qed.

End LendersSpec.

(** ** Concrete lenders *)

Import Toy.

Module ToyLenders.

Definition key_ref (fp label : string) (use : option bool) : KeyRef := mk_KeyRef fp "toy" (of_string fp) emp label use.
Definition none_yet : lenders := mk_lenders [] (fun _ => None) 0.
Definition writes (s : lenders) : nat := le_writes s.

(** One heartbeat after another: who says what, and when. *)
Definition beats (l : list (string * list KeyRef * time)) (s : lenders) : lenders :=
  foldl (fun s '(fp, keys, seen) => (SetBorrowedKeys fp keys seen s).2) s l.

Definition desk_keys : list KeyRef := [key_ref "SHA256:d" "desk key" None].
Definition phone_keys (use : option bool) : list KeyRef := [key_ref "SHA256:p" "phone key" use].

Definition phone : TrustRecord := mk_TrustRecord "SHA256:phone" "phone" [] [] true false [] None false false emp None None.
Definition polls (fp : string) : bool := bool_decide (fp = "SHA256:phone"%string).
Definition seen_from_here : sight :=
  mk_sight [phone] [mk_BorrowedKey "SHA256:phone" (key_ref "SHA256:p" "phone key" None) (Some 0)] ∅ polls None (Some []).

End ToyLenders.
Import ToyLenders.

(** The same answer from one peer is not written again; from two peers it is
    written at every heartbeat of either, since each goes to the end of the
    list in turn. *)
Example one_lender_is_quiet : writes (beats [("SHA256:desk"%string, desk_keys, 0); ("SHA256:desk"%string, desk_keys, Second);
  ("SHA256:desk"%string, desk_keys, 2 * Second)] none_yet) = 1%nat.
Proof. vm_compute. reflexivity. Qed.
Example two_lenders_rewrite_every_time : writes (beats [("SHA256:desk"%string, desk_keys, 0); ("SHA256:phone"%string, phone_keys None, 0);
  ("SHA256:desk"%string, desk_keys, Second); ("SHA256:phone"%string, phone_keys None, Second);
  ("SHA256:desk"%string, desk_keys, 2 * Second); ("SHA256:phone"%string, phone_keys None, 2 * Second)] none_yet) = 6%nat.
Proof. vm_compute. reflexivity. Qed.

(** A key the holder has stopped offering to agents goes on being offered: the
    list is the same by fingerprint, so what was said about it is not kept. *)
Example hidden_key_stays_offered :
  map (fun b => RefAgentUse (bk_key b)) (le_borrowed (beats
    [("SHA256:phone"%string, phone_keys None, 0); ("SHA256:phone"%string, phone_keys (Some false), Minute)] none_yet)) = [true].
Proof. vm_compute. reflexivity. Qed.

(** And moving text from the label to the comment is not announced at all. *)
Example moved_text_is_not_news :
  keyListDigest [mk_KeyRef "SHA256:p" "toy" [] "key" "phone" None] = keyListDigest [mk_KeyRef "SHA256:p" "toy" [] emp "phonekey" None].
Proof. vm_compute. reflexivity. Qed.

(** A requester that could not be told that no key is lent to it any more is
    never told: the first call gets through, the second does not, and after
    that there is nothing to say. *)
#[local] Instance second_lost : KeyListPeers (nat * list nat) := fun _ keys '(k, heard) =>
  if bool_decide (k = 1%nat) then (Err unavailable, (S k, heard))
  else (Ok (mk_AnnounceKeysResponse true emp), (S k, heard ++ [length keys])).

Example emptied_list_is_never_said_again :
  let lent (l : list string) := [mk_TrustRecord "SHA256:box" "box" [] ["10.0.0.2:7777"%string] false true l None false false emp None None] in
  let a := mk_key_announcer (lent ["SHA256:p"%string]) (phone_keys None) ∅ (fun n => Z.of_nat n * Second) 0 in
  let taken_back (s : key_announcer * (nat * list nat)) :=
    (mk_key_announcer (lent []) (ka_refs s.1) (ka_said s.1) (ka_clock s.1) (ka_ticks s.1), s.2) in
  let round (s : key_announcer * (nat * list nat)) := (announce_keys 1 true 1 s).2 in
  (round (round (round (taken_back (round (a, (0%nat, []))))))).2 = (2%nat, [1%nat]).
Proof. vm_compute. reflexivity. Qed.

(** ** Witnesses *)

Lemma Reconcile_spec_witness :
  re_inboxes (Reconcile 1 [phone] (mk_reachables ∅ ∅)) !! "SHA256:phone"%string <> None.
Proof.
  destruct (Reconcile_spec 1 [phone] (mk_reachables ∅ ∅) "SHA256:phone") as [Hp _].
  - apply NoDup_singleton.
  - refine (proj2 (Hp phone _ eq_refl eq_refl)). left.
Defined.

Lemma SetBorrowedKeys_spec_witness :
  remembered_of "SHA256:phone" (SetBorrowedKeys "SHA256:phone" (phone_keys None) 0 none_yet).2 = ["SHA256:p"%string].
Proof.
  destruct (SetBorrowedKeys "SHA256:phone" (phone_keys None) 0 none_yet) as [failed s'] eqn:Hs.
  exact (proj1 (SetBorrowedKeys_spec "SHA256:phone" (phone_keys None) 0 none_yet s' failed Hs)).
Defined.

Lemma offered_can_be_asked_witness :
  exists route, route ∈ holderRoutes 1 seen_from_here "SHA256:p" /\ askable 1 seen_from_here "SHA256:p" route.
Proof.
  destruct (offered_can_be_asked 1 seen_from_here (key_ref "SHA256:p" "phone key" None)) as (_ & [route Hr] & Hall).
  - split_and!.
    + apply NoDup_singleton.
    + intros p q ->%list_elem_of_singleton ->%list_elem_of_singleton _. done.
    + done.
    + intros p ->%list_elem_of_singleton _ Hd. vm_compute in Hd. discriminate Hd.
  - vm_compute. left.
  - exists route. split; [exact Hr|]. by apply Hall.
Defined.
