(* ===== verification/Inbox.v ===== *)
(** * Inbox: requests waiting to be collected

    The requester's half of poll-on-open, [pkg/peer/inbox.go], and the check of
    an answer, [answerFromPeer] of [approver.go].  A parked entry is shared by
    the call that waits on it and the handlers that find it, so it has a
    channel of its own - a number, drawn when it is parked - and the answer is
    kept under that.  A poll is the phases of [collect], so that others may
    run between any two of them. *)

From S2P Require Import Prelude.
From S2P Require Import Sorting.
From S2P Require Import GoText.
From S2P Require Import Proto.
From S2P Require Import Ssh.
From S2P Require Import Identity.
From S2P Require Import Asker.
From S2P Require Import Inflight.
From S2P Require Import Rpc.
From S2P Require Import Trust.
From S2P Require Import Vault.
From S2P Require Import Access.
From S2P Require Import Promises.
From S2P Require Import Holder.
From S2P Require Import Lenders.

Local Open Scope Z_scope.
Local Open Scope ladulas_scope.

(** ** The check of an answer *)

Section Answers.
Context `{Unicode} `{Hashes} `{Ssh} `{Codec ApprovalResponse}.

Definition set_an_GrantTTL (ttl : duration) (a : Answer) : Answer :=
  mk_Answer (an_Decision a) (an_Reason a) ttl (an_GrantReach a) (an_Approver a) (an_Source a) (an_Signed a).

(** [answer] of [approval.Answer]: what is recorded names the trust record. *)
Definition answer_named (record : TrustRecord) (signed : SignedApproval) (resp : ApprovalResponse) : Answer :=
  mk_Answer (rs_decision resp) (tr_name record +:+ ": " +:+ rs_reason resp) 0 GrantReachSession
    (Some (mk_ApproverInfo (tr_fingerprint record) (tr_name record) false)) (rs_source resp) (Some signed).

Definition answerFromPeer (record : TrustRecord) (key : PublicKey) (signed : option SignedApproval)
    (requestID : string) (digest : bytes) : result (Answer * ApprovalResponse) :=
  let name := tr_name record in
  match signed with
  | None => Err (errors_New ("peer: " +:+ name +:+ " decided without saying what"))
  | Some sa =>
    match VerifyApproval signed with
    | Err e => Err (wrap_w ("peer: " +:+ name +:+ " sent an unverifiable decision: ") e emp)
    | Ok (resp, pub) =>
      if bool_decide (ssh_Marshal pub <> ssh_Marshal key)
      then Err (errors_New ("peer: the decision from " +:+ name +:+ " was signed by " +:+ sap_approver_fingerprint sa +:+
                            ", which is not the paired key"))
      else if bool_decide (rs_request_id resp <> requestID)
      then Err (errors_New ("peer: " +:+ name +:+ " answered request " +:+ quote (rs_request_id resp) +:+ ", not " +:+ quote requestID))
      else if bool_decide (rs_request_digest resp <> digest)
      then Err (errors_New ("peer: " +:+ name +:+ " answered a request whose contents differ from the one sent"))
      else Ok (answer_named record sa resp, resp)
    end
  end.

End Answers.

(** ** What is parked *)

Record parked := mk_parked {
  pk_peer : string;
  pk_id : string;
  pk_body : bytes;
  pk_digest : bytes;
  pk_since : time;
  pk_deadline : time;              (** the zero time without one *)
  pk_payload : bytes;
  pk_wrapSSHSIG : bool;
  pk_endorsement : option SignedEndorsement;
  pk_channel : nat
}.

Record collectedAnswer := mk_collectedAnswer {
  co_answer : Answer;
  co_decision : ApprovalResponse;
  co_signature : bytes
}.

Definition wantsSignature (p : parked) : bool := negb (bool_decide (pk_payload p = [])).

(** The entries, what has been put on their channels, the polls each peer has
    open and which of those have been released, and the wake-ups sent. *)
Record inbox := mk_inbox {
  ib_parked : gmap string parked;
  ib_answers : gmap nat collectedAnswer;
  ib_waiters : gmap string (gset nat);
  ib_closed : gset nat;
  ib_next : nat;
  ib_wakes : list (string * string)
}.

Definition set_ib_parked (m : gmap string parked) (b : inbox) : inbox :=
  mk_inbox m (ib_answers b) (ib_waiters b) (ib_closed b) (ib_next b) (ib_wakes b).
Definition set_waiters (m : gmap string (gset nat)) (b : inbox) : inbox :=
  mk_inbox (ib_parked b) (ib_answers b) m (ib_closed b) (ib_next b) (ib_wakes b).

(** [make(chan ...)]. *)
Definition fresh_channel : state inbox nat := fun b =>
  (ib_next b, mk_inbox (ib_parked b) (ib_answers b) (ib_waiters b) (ib_closed b) (S (ib_next b)) (ib_wakes b)).

Definition settle (entry : parked) (answer : collectedAnswer) : state inbox bool := fun b =>
  match ib_answers b !! pk_channel entry with
  | Some _ => (false, b)
  | None => (true, mk_inbox (ib_parked b) (<[pk_channel entry := answer]> (ib_answers b)) (ib_waiters b) (ib_closed b)
                     (ib_next b) (ib_wakes b))
  end.
Definition taken (b : inbox) (entry : parked) : bool := bool_decide (is_Some (ib_answers b !! pk_channel entry)).

Definition parkKey (fingerprint id : string) : string := fingerprint +:+ String (ascii_of_N 0) emp +:+ id.

Definition parkedFor (id fingerprint : string) (b : inbox) : option parked := ib_parked b !! parkKey fingerprint id.

Definition wake (fingerprint : string) : state inbox bool := fun b =>
  let waiting := default ∅ (ib_waiters b !! fingerprint) in
  (bool_decide (waiting <> ∅),
   mk_inbox (ib_parked b) (ib_answers b) (delete fingerprint (ib_waiters b)) (ib_closed b ∪ waiting) (ib_next b) (ib_wakes b)).

(** [wakePeer] is started: what it does is in [Wakeups]. *)
Definition go_wakePeer (fingerprint id : string) : state inbox unit := modify (fun b =>
  mk_inbox (ib_parked b) (ib_answers b) (ib_waiters b) (ib_closed b) (ib_next b) (ib_wakes b ++ [(fingerprint, id)])).

(** [park], which is two steps under the lock with others in between: the entry
    is written down, and what waits for its peer is woken - or, when nobody
    does, the peer itself. *)
Definition put (entry : parked) : state inbox unit := modify (fun b =>
  set_ib_parked (<[parkKey (pk_peer entry) (pk_id entry) := entry]> (ib_parked b)) b).
Definition announce (fingerprint id : string) : state inbox unit :=
  listening ← wake fingerprint;
  if (listening : bool) then mret tt else go_wakePeer fingerprint id.
Definition park (entry : parked) : state inbox unit :=
  _ ← put entry; announce (pk_peer entry) (pk_id entry).

Definition unpark (fingerprint id : string) : state inbox unit := modify (fun b =>
  set_ib_parked (delete (parkKey fingerprint id) (ib_parked b)) b).

Definition waiter (fingerprint : string) : state inbox nat :=
  created ← fresh_channel;
  _ ← modify (fun b => set_waiters (<[fingerprint := {[created]} ∪ default ∅ (ib_waiters b !! fingerprint)]> (ib_waiters b)) b);
  mret created.

Definition abandon (fingerprint : string) (waiting : nat) : state inbox unit := modify (fun b =>
  match ib_waiters b !! fingerprint with
  | None => b
  | Some waiters =>
    let left := waiters ∖ {[waiting]} in
    set_waiters (if bool_decide (left = ∅) then delete fingerprint (ib_waiters b) else <[fingerprint := left]> (ib_waiters b)) b
  end).

(** Oldest first; entries of one moment come in the order of the map, which the
    source leaves open. *)
Definition pendingFor (fingerprint : string) (b : inbox) : list parked :=
  SliceStable (fun x y => pk_since x <? pk_since y)
    (List.filter (fun p => bool_decide (pk_peer p = fingerprint)) (map snd (map_to_list (ib_parked b)))).

Definition pending_of (entry : parked) (expires : option duration) : PendingApproval :=
  mk_PendingApproval (pk_id entry) (pk_body entry) (Some (pk_since entry)) expires (pk_payload entry) (pk_wrapSSHSIG entry)
    (pk_endorsement entry).

Definition offer_entry (now : time) (b : inbox) (entry : parked) : option PendingApproval :=
  if taken b entry then None
  else if IsZero (pk_deadline entry) then Some (pending_of entry None)
  else
    let remaining := Sub (pk_deadline entry) now in
    if remaining <=? 0 then None else Some (pending_of entry (Some remaining)).

Definition pendingApprovals (fingerprint : string) (now : time) (b : inbox) : list PendingApproval :=
  omap (offer_entry now b) (pendingFor fingerprint b).

(** ** Answering *)

Record AnswerPendingRequest := mk_AnswerPendingRequest {
  ap_request_id : string;
  ap_approval : option SignedApproval;
  ap_signature : bytes
}.

Section Answering.
Context `{Unicode} `{Hashes} `{Ssh} `{Codec ApprovalResponse} `{Codec Delegation} {R : Type}.
Context (self : Identity) (delegations : bool).

Definition on_inbox {A} (m : state inbox A) : state (node (inbox * R)) A := fun n =>
  let '(a, p) := here m (n_rest n) in (a, mk_node _ (n_vault n) (n_seen n) (n_load n) (n_gossip n) p).

Definition AnswerPending (peer : option PeerIdentity) (req : AnswerPendingRequest)
    : state (node (inbox * R)) (reply bool) :=
  found ← publisherFor peer;
  match found with
  | inr e => mret (inr e)
  | inl (id, record) =>
    entry ← on_inbox (gets (parkedFor (ap_request_id req) (pi_Fingerprint id)));
    match entry with
    | None => mret (inl false)
    | Some entry =>
      match trust_PublicKey record with
      | Err e => mret (inr (internal e))
      | Ok key =>
        match answerFromPeer record key (ap_approval req) (pk_id entry) (pk_digest entry) with
        | Err e => mret (inr (mk_rpc_error CodePermissionDenied e))
        | Ok (answer, decision) =>
          if wantsSignature entry && bool_decide (ap_signature req = []) && bool_decide (an_Decision answer = DECISION_APPROVE)
          then mret (inr (mk_rpc_error CodeInvalidArgument
                 (errors_New "this request asked for a signature, and the approval carries none")))
          else
            _ ← on_vault (acceptDelegation self delegations record key decision);
            accepted ← on_inbox (settle entry (mk_collectedAnswer (set_an_GrantTTL 0 answer) decision (ap_signature req)));
            mret (inl accepted)
        end
      end
    end
  end.

End Answering.

(** ** A poll *)

(** The phases of [collect], each up to the next point where another call may
    run: the first look, taking a waiter, the second look, the wait, the last
    look, giving the waiter back, done. *)
Inductive phase :=
| FirstLook | Taking | SecondLook (c : nat) | Waiting (c : nat) | LastLook (c : nat)
| GivingBack (c : nat) (pending : list PendingApproval) | Answered_ (pending : list PendingApproval).

Record poll := mk_poll { po_peer : string; po_wait : duration; po_phase : phase }.
Definition in_phase (ph : phase) (p : poll) : poll := mk_poll (po_peer p) (po_wait p) ph.

(** The next phase of a poll at [now]; a wait may end at any time, by the
    timer, by the connection, or by being released. *)
Definition collect_step (now : time) (p : poll) : state inbox poll :=
  match po_phase p with
  | FirstLook =>
    pending ← gets (pendingApprovals (po_peer p) now);
    mret (in_phase (if negb (bool_decide (length pending = 0%nat)) || (po_wait p <=? 0) then Answered_ pending else Taking) p)
  | Taking => c ← waiter (po_peer p); mret (in_phase (SecondLook c) p)
  | SecondLook c =>
    pending ← gets (pendingApprovals (po_peer p) now);
    mret (in_phase (if negb (bool_decide (length pending = 0%nat)) then GivingBack c pending else Waiting c) p)
  | Waiting c => mret (in_phase (LastLook c) p)
  | LastLook c => pending ← gets (pendingApprovals (po_peer p) now); mret (in_phase (GivingBack c pending) p)
  | GivingBack c pending => _ ← abandon (po_peer p) c; mret (in_phase (Answered_ pending) p)
  | Answered_ _ => mret p
  end.
