(* ===== verification/InboxSpec.v ===== *)
(** * InboxSpec: what is parked is heard of, and settled once

    The theorems about [Inbox]: the waiters are exactly the polls that are
    open, so a wake-up is left out only for a peer that is listening; an
    entry that stays parked was announced by a wake-up or reaches a poll; and
    an entry is settled once, by an answer that is proved to be the approver's
    and to be about that entry. *)

From S2P Require Import Prelude.
From S2P Require Import Rules.
From S2P Require Import Sorting.
From S2P Require Import GoText.
From S2P Require Import Proto.
From S2P Require Import Ssh.
From S2P Require Import Identity.
From S2P Require Import Asker.
From S2P Require Import Inflight.
From S2P Require Import Rpc.
From S2P Require Import Trust.
From S2P Require Import Vault.
From S2P Require Import Access.
From S2P Require Import Promises.
From S2P Require Import Holder.
From S2P Require Import Lenders.
From S2P Require Import Inbox.

Local Open Scope Z_scope.
Local Open Scope ladulas_scope.

(** ** Polls and parked requests, in any order *)

Record queue := mk_queue { qu_inbox : inbox; qu_polls : list poll }.

Inductive event :=
| EvPut (entry : parked)                     (** the first half of [park], *)
| EvAnnounce (fingerprint id : string)       (** and the second *)
| EvUnpark (fingerprint id : string)
| EvSettle (fingerprint id : string) (answer : collectedAnswer)
| EvPoll (fingerprint : string) (wait : duration)
| EvStep (i : nat) (now : time).

Definition on_channel (c : nat) (p : parked) : parked :=
  mk_parked (pk_peer p) (pk_id p) (pk_body p) (pk_digest p) (pk_since p) (pk_deadline p) (pk_payload p)
    (pk_wrapSSHSIG p) (pk_endorsement p) c.

Definition put_new (entry : parked) : state inbox parked :=
  c ← fresh_channel; _ ← put (on_channel c entry); mret (on_channel c entry).

Definition queue_step (ev : event) (s : queue) : queue :=
  match ev with
  | EvPut entry => mk_queue (put_new entry (qu_inbox s)).2 (qu_polls s)
  | EvAnnounce fp id => mk_queue (announce fp id (qu_inbox s)).2 (qu_polls s)
  | EvUnpark fp id => mk_queue (unpark fp id (qu_inbox s)).2 (qu_polls s)
  | EvSettle fp id answer =>
    match parkedFor id fp (qu_inbox s) with
    | Some entry => mk_queue (settle entry answer (qu_inbox s)).2 (qu_polls s)
    | None => s
    end
  | EvPoll fp wait => mk_queue (qu_inbox s) (qu_polls s ++ [mk_poll fp wait FirstLook])
  | EvStep i now =>
    match qu_polls s !! i with
    | Some p => let '(p', b) := collect_step now p (qu_inbox s) in mk_queue b (<[i := p']> (qu_polls s))
    | None => s
    end
  end.
Definition queue_run (evs : list event) (s : queue) : queue := foldl (fun s ev => queue_step ev s) s evs.

Definition empty_inbox : inbox := mk_inbox ∅ ∅ ∅ ∅ 0 [].
Definition empty_queue : queue := mk_queue empty_inbox [].

(** The waiter a poll is on. *)
Definition on_waiter (p : poll) : option nat :=
  match po_phase p with
  | SecondLook c | Waiting c | LastLook c | GivingBack c _ => Some c
  | _ => None
  end.

(** A poll of the peer is on the waiter. *)
Definition polled (l : list poll) (fp : string) (c : nat) : Prop :=
  exists i p, l !! i = Some p /\ po_peer p = fp /\ on_waiter p = Some c.

Definition waits (b : inbox) (fp : string) : gset nat := default ∅ (ib_waiters b !! fp).

Definition waiters_ok (s : queue) : Prop :=
  let b := qu_inbox s in
  (forall fp c, c ∈ waits b fp <-> polled (qu_polls s) fp c /\ c ∉ ib_closed b) /\
  (forall c, c ∈ ib_closed b -> (c < ib_next b)%nat) /\
  (forall i p c, qu_polls s !! i = Some p -> on_waiter p = Some c -> (c < ib_next b)%nat) /\
  (forall i j p q c, qu_polls s !! i = Some p -> qu_polls s !! j = Some q ->
     on_waiter p = Some c -> on_waiter q = Some c -> i = j).

(** Both, with nothing in between. *)
Definition park_new (entry : parked) : state inbox parked :=
  c ← fresh_channel; _ ← park (on_channel c entry); mret (on_channel c entry).

Lemma put_new_run entry b :
  let e := on_channel (ib_next b) entry in
  let b' := (put_new entry b).2 in
  ib_parked b' = <[parkKey (pk_peer entry) (pk_id entry) := e]> (ib_parked b) /\ ib_answers b' = ib_answers b /\
  ib_waiters b' = ib_waiters b /\ ib_closed b' = ib_closed b /\ ib_next b' = S (ib_next b) /\ ib_wakes b' = ib_wakes b.
Proof. done. Qed.

Lemma announce_run fp id b :
  let b' := (announce fp id b).2 in
  ib_parked b' = ib_parked b /\ ib_answers b' = ib_answers b /\
  ib_waiters b' = delete fp (ib_waiters b) /\ ib_closed b' = ib_closed b ∪ waits b fp /\ ib_next b' = ib_next b /\
  ib_wakes b' = ib_wakes b ++ (if bool_decide (waits b fp = ∅) then [(fp, id)] else []).
Proof.
  cbv zeta. destruct b as [m an w cl n wk]. unfold waits. cbn [ib_waiters ib_next].
  unfold announce, wake, modify, mbind, state_bind. cbn -[default bool_decide].
  generalize (default ∅ (w !! fp)). intros waiting.
  repeat case_bool_decide; cbn; rewrite ?app_nil_r; done.
Qed.

Lemma park_new_steps entry b : (park_new entry b).2 = (announce (pk_peer entry) (pk_id entry) (put_new entry b).2).2.
Proof.
  unfold park_new, park, put_new. rewrite !state_bind_unfold. by destruct (fresh_channel b).
Qed.

Lemma park_new_run entry b :
  let e := on_channel (ib_next b) entry in
  let b' := (park_new entry b).2 in
  ib_parked b' = <[parkKey (pk_peer entry) (pk_id entry) := e]> (ib_parked b) /\ ib_answers b' = ib_answers b /\
  ib_next b' = S (ib_next b).
Proof.
  cbv zeta. rewrite park_new_steps. destruct (announce_run (pk_peer entry) (pk_id entry) (put_new entry b).2) as (-> & -> & _ & _ & -> & _).
  by destruct (put_new_run entry b) as (-> & -> & _ & _ & -> & _).
Qed.

(** A poll that moves on without touching its waiter. *)
Lemma polled_insert l i p p' fp c : l !! i = Some p -> po_peer p' = po_peer p ->
  polled (<[i := p']> l) fp c <->
  (po_peer p = fp /\ on_waiter p' = Some c) \/ (exists j q, j <> i /\ l !! j = Some q /\ po_peer q = fp /\ on_waiter q = Some c).
Proof.
  intros Hi Hpeer. assert (i < length l)%nat as Hlen by by eapply lookup_lt_Some. split.
  - intros (j & q & Hj & Hq & Hc). destruct (decide (j = i)) as [->|Hne].
    + rewrite list_lookup_insert_eq in Hj by done. injection Hj as <-. left. by rewrite <- Hpeer.
    + rewrite list_lookup_insert_ne in Hj by done. right. eauto 10.
  - intros [[<- Hc]|(j & q & Hne & Hj & Hq & Hc)].
    + exists i, p'. by rewrite list_lookup_insert_eq.
    + exists j, q. by rewrite list_lookup_insert_ne.
Qed.

Lemma polled_split l i p fp c : l !! i = Some p ->
  polled l fp c <->
  (po_peer p = fp /\ on_waiter p = Some c) \/ (exists j q, j <> i /\ l !! j = Some q /\ po_peer q = fp /\ on_waiter q = Some c).
Proof.
  intros Hi. rewrite <- (polled_insert l i p p fp c Hi eq_refl). by rewrite list_insert_id.
Qed.

Lemma waiters_ok_same s b' l' :
  waiters_ok s -> ib_waiters b' = ib_waiters (qu_inbox s) -> ib_closed b' = ib_closed (qu_inbox s) ->
  ib_next b' = ib_next (qu_inbox s) ->
  (forall i p c, l' !! i = Some p -> on_waiter p = Some c ->
     exists q, qu_polls s !! i = Some q /\ po_peer q = po_peer p /\ on_waiter q = Some c) ->
  (forall i q c, qu_polls s !! i = Some q -> on_waiter q = Some c ->
     exists p, l' !! i = Some p /\ po_peer p = po_peer q /\ on_waiter p = Some c) ->
  waiters_ok (mk_queue b' l').
Proof.
  intros (Hw & Hc & Hn & Hu) Ew Ec En Hto Hfrom. unfold waiters_ok. cbn [qu_inbox qu_polls].
  unfold waits in *. rewrite Ew, Ec, En. split_and!; [|done| |].
  - intros fp c. rewrite Hw. split; intros [(i & p & Hi & <- & Hp) Hcl]; (split; [|done]).
    + destruct (Hfrom i p c Hi Hp) as (q & ? & ? & ?). by exists i, q.
    + destruct (Hto i p c Hi Hp) as (q & ? & ? & ?). by exists i, q.
  - intros i p c Hi Hp. destruct (Hto i p c Hi Hp) as (q & Hq & _ & Hqc). by eapply Hn.
  - intros i j p q c Hi Hj Hp Hq. destruct (Hto i p c Hi Hp) as (p' & ? & _ & ?).
    destruct (Hto j q c Hj Hq) as (q' & ? & _ & ?). by eapply Hu.
Qed.

Lemma waiters_ok_put entry s : waiters_ok s -> waiters_ok (queue_step (EvPut entry) s).
Proof.
  intros (Hw & Hc & Hn & Hu). cbn [queue_step].
  destruct (put_new_run entry (qu_inbox s)) as (_ & _ & Ew & Ec & En & _).
  unfold waiters_ok, waits in *. cbn [qu_inbox qu_polls]. rewrite Ew, Ec, En. split_and!; [exact Hw| | |exact Hu].
  - intros c Hcl. specialize (Hc c Hcl). lia.
  - intros i p c Hi Hpc. specialize (Hn i p c Hi Hpc). lia.
Qed.

Lemma waiters_ok_announce fp0 id s : waiters_ok s -> waiters_ok (queue_step (EvAnnounce fp0 id) s).
Proof.
  intros (Hw & Hc & Hn & Hu). cbn [queue_step]. destruct (announce_run fp0 id (qu_inbox s)) as (_ & _ & Ew & Ec & En & _).
  unfold waiters_ok. cbn [qu_inbox qu_polls]. unfold waits at 1. rewrite Ew, Ec, En.
  split_and!; [| |exact Hn|exact Hu].
  - intros fp c. destruct (decide (fp = fp0)) as [->|Hne].
    + rewrite lookup_delete_eq. cbn [default]. split; [by intros ?%elem_of_empty|]. intros [Hp Hcl].
      exfalso. apply Hcl, elem_of_union. destruct (decide (c ∈ ib_closed (qu_inbox s))) as [?|Hcc]; [by left|].
      right. by apply Hw.
    + rewrite lookup_delete_ne by done. fold (waits (qu_inbox s) fp). rewrite Hw.
      split; intros [Hp Hcl]; (split; [done|]); rewrite elem_of_union in *; [|tauto].
      intros [?|[Hp' _]%Hw]; [done|]. destruct Hp as (i & p & Hi & <- & Hpc), Hp' as (j & q & Hj & Hq & Hqc).
      apply Hne. assert (i = j) as -> by by eapply Hu. rewrite Hi in Hj. injection Hj as ->. done.
  - intros c [Hcl|[(i & p & Hi & _ & Hpc) _]%Hw]%elem_of_union; [by apply Hc|by eapply Hn].
Qed.

Lemma waiter_run fp b :
  let b' := (waiter fp b).2 in
  (waiter fp b).1 = ib_next b /\ ib_closed b' = ib_closed b /\ ib_next b' = S (ib_next b) /\
  ib_parked b' = ib_parked b /\ ib_answers b' = ib_answers b /\ ib_wakes b' = ib_wakes b /\
  forall fp' c, c ∈ waits b' fp' <-> (fp' = fp /\ c = ib_next b) \/ c ∈ waits b fp'.
Proof.
  cbv zeta. destruct b as [m an w cl n wk]. unfold waits.
  unfold waiter, fresh_channel, modify, set_waiters, mbind, state_bind. cbn -[default].
  split_and!; try done. intros fp' c. destruct (decide (fp' = fp)) as [->|Hne].
  - rewrite lookup_insert_eq. cbn [default from_option id]. rewrite elem_of_union, elem_of_singleton. tauto.
  - rewrite lookup_insert_ne by done. tauto.
Qed.

Lemma abandon_run fp w b :
  let b' := (abandon fp w b).2 in
  ib_closed b' = ib_closed b /\ ib_next b' = ib_next b /\
  ib_parked b' = ib_parked b /\ ib_answers b' = ib_answers b /\ ib_wakes b' = ib_wakes b /\
  forall fp' c, c ∈ waits b' fp' <-> c ∈ waits b fp' /\ ~ (fp' = fp /\ c = w).
Proof.
  cbv zeta. destruct b as [m an ws cl n wk]. unfold waits, abandon, modify, set_waiters. cbn [ib_waiters snd].
  destruct (ws !! fp) as [waiters|] eqn:Hw; cbn [ib_closed ib_next ib_parked ib_answers ib_wakes ib_waiters].
  - split_and!; try done. intros fp' c. case_bool_decide as He.
    + destruct (decide (fp' = fp)) as [->|Hne]; [|rewrite lookup_delete_ne by done; tauto].
      rewrite lookup_delete_eq, Hw. cbn [default from_option id]. split; [by intros ?%elem_of_empty|].
      intros [Hin Hno]. exfalso. assert (c ∈ waiters ∖ {[w]}) as Hd by (apply elem_of_difference; rewrite elem_of_singleton; tauto).
      rewrite He in Hd. by apply elem_of_empty in Hd.
    + destruct (decide (fp' = fp)) as [->|Hne]; [|rewrite lookup_insert_ne by done; tauto].
      rewrite lookup_insert_eq, Hw. cbn [default from_option id]. rewrite elem_of_difference, elem_of_singleton. tauto.
  - split_and!; try done. intros fp' c. split; [|tauto]. intros Hin. split; [done|]. intros [-> ->].
    rewrite Hw in Hin. by apply elem_of_empty in Hin.
Qed.

(** A look at the inbox moves the poll on and nothing else. *)
Lemma waiters_ok_moved s i p p' :
  waiters_ok s -> qu_polls s !! i = Some p -> po_peer p' = po_peer p -> on_waiter p' = on_waiter p ->
  waiters_ok (mk_queue (qu_inbox s) (<[i := p']> (qu_polls s))).
Proof.
  intros Hok Hi Hpeer Hon. apply waiters_ok_same with (s := s); try done.
  - intros j q c Hj Hq. destruct (decide (j = i)) as [->|Hne].
    + rewrite list_lookup_insert_eq in Hj by by eapply lookup_lt_Some. injection Hj as <-.
      exists p. rewrite <- Hon, Hpeer. done.
    + rewrite list_lookup_insert_ne in Hj by done. by exists q.
  - intros j q c Hj Hq. destruct (decide (j = i)) as [->|Hne].
    + exists p'. rewrite list_lookup_insert_eq by by eapply lookup_lt_Some.
      assert (q = p) as -> by congruence. rewrite Hon, Hpeer. done.
    + exists q. by rewrite list_lookup_insert_ne.
Qed.

Lemma waiters_ok_taking s i p :
  waiters_ok s -> qu_polls s !! i = Some p -> po_phase p = Taking ->
  let '(c, b) := waiter (po_peer p) (qu_inbox s) in
  waiters_ok (mk_queue b (<[i := in_phase (SecondLook c) p]> (qu_polls s))).
Proof.
  intros (Hw & Hc & Hn & Hu) Hi Hph. destruct (waiter_run (po_peer p) (qu_inbox s)) as (E1 & Ec & En & _ & _ & _ & Hin).
  destruct (waiter _ _) as [c b]. cbn [fst snd] in *. subst c.
  assert (on_waiter p = None) as Hnone by (unfold on_waiter; by rewrite Hph).
  unfold waiters_ok. cbn [qu_inbox qu_polls]. rewrite Ec, En. split_and!.
  - intros fp c. rewrite Hin, (polled_insert _ _ p) by done. rewrite Hw, (polled_split _ i p) by done. rewrite Hnone.
    cbn [on_waiter in_phase po_phase po_peer]. split.
    + intros [[-> ->]|[[[_ ?]|Hq] Hcl]]; [|done|tauto]. split; [by left|]. intros Hcl%Hc. lia.
    + intros [[[<- [= <-]]|Hq] Hcl]; [by left|]. tauto.
  - intros c Hcl%Hc. lia.
  - intros j q c Hj Hq. destruct (decide (j = i)) as [->|Hne].
    + rewrite list_lookup_insert_eq in Hj by by eapply lookup_lt_Some. injection Hj as <-. injection Hq as <-. lia.
    + rewrite list_lookup_insert_ne in Hj by done. specialize (Hn j q c Hj Hq). lia.
  - assert (forall j q, j <> i -> qu_polls s !! j = Some q -> on_waiter q <> Some (ib_next (qu_inbox s))) as Hfresh
      by (intros j q _ Hj Hq; specialize (Hn j q _ Hj Hq); lia).
    intros j k q r c Hj Hk Hq Hr. destruct (decide (j = i)) as [->|Hji], (decide (k = i)) as [->|Hki]; [done| | |].
    + rewrite list_lookup_insert_eq in Hj by by eapply lookup_lt_Some. injection Hj as <-. injection Hq as <-.
      rewrite list_lookup_insert_ne in Hk by done. by destruct (Hfresh k r).
    + rewrite list_lookup_insert_eq in Hk by by eapply lookup_lt_Some. injection Hk as <-. injection Hr as <-.
      rewrite list_lookup_insert_ne in Hj by done. by destruct (Hfresh j q).
    + rewrite list_lookup_insert_ne in Hj, Hk by done. by eapply Hu.
Qed.

Lemma waiters_ok_back s i p w pending :
  waiters_ok s -> qu_polls s !! i = Some p -> po_phase p = GivingBack w pending ->
  waiters_ok (mk_queue (abandon (po_peer p) w (qu_inbox s)).2 (<[i := in_phase (Answered_ pending) p]> (qu_polls s))).
Proof.
  intros (Hw & Hc & Hn & Hu) Hi Hph. destruct (abandon_run (po_peer p) w (qu_inbox s)) as (Ec & En & _ & _ & _ & Hin).
  assert (on_waiter p = Some w) as Hon by (unfold on_waiter; by rewrite Hph).
  unfold waiters_ok. cbn [qu_inbox qu_polls]. rewrite Ec, En. split_and!; [|exact Hc| |].
  - intros fp c. rewrite Hin, (polled_insert _ _ p) by done. rewrite Hw, (polled_split _ i p) by done. rewrite Hon.
    cbn [on_waiter in_phase po_phase]. split.
    + intros [[[[<- [= <-]]|Hq] Hcl] Hno]; [by destruct Hno|]. tauto.
    + intros [[[_ ?]|Hq] Hcl]; [done|]. split; [tauto|]. intros [-> ->].
      destruct Hq as (j & q & Hne & Hj & _ & Hq). by apply Hne, (Hu j i q p w).
  - intros j q c Hj Hq. destruct (decide (j = i)) as [->|Hne].
    + rewrite list_lookup_insert_eq in Hj by by eapply lookup_lt_Some. by injection Hj as <-.
    + rewrite list_lookup_insert_ne in Hj by done. by eapply Hn.
  - intros j k q r c Hj Hk Hq Hr.
    destruct (decide (j = i)) as [->|Hji], (decide (k = i)) as [->|Hki]; [done| | |].
    + rewrite list_lookup_insert_eq in Hj by by eapply lookup_lt_Some. by injection Hj as <-.
    + rewrite list_lookup_insert_eq in Hk by by eapply lookup_lt_Some. by injection Hk as <-.
    + rewrite list_lookup_insert_ne in Hj, Hk by done. by eapply Hu.
Qed.

Lemma waiters_ok_step ev s : waiters_ok s -> waiters_ok (queue_step ev s).
Proof.
  intros Hok. destruct ev as [entry|fp id|fp id|fp id answer|fp wait|i now].
  - by apply waiters_ok_put.
  - by apply waiters_ok_announce.
  - by apply waiters_ok_same with (s := s); eauto.
  - cbn [queue_step]. destruct (parkedFor id fp (qu_inbox s)) as [entry|]; [|done].
    unfold settle. destruct (ib_answers _ !! _); by apply waiters_ok_same with (s := s); eauto.
  - apply waiters_ok_same with (s := s); try done; cbn [queue_step qu_polls].
    + intros j q c [Hj|(_ & Hj)]%lookup_app_Some Hq; [by exists q|]. by apply list_lookup_singleton_Some in Hj as [_ <-].
    + intros j q c Hj Hq. exists q. by rewrite (lookup_app_l_Some _ _ _ _ Hj).
  - cbn [queue_step]. destruct (qu_polls s !! i) as [p|] eqn:Hi; [|done]. unfold collect_step.
    destruct (po_phase p) as [| |w|w|w|w pending|pending] eqn:Hph.
    + cbn. apply waiters_ok_moved with p; try done. unfold on_waiter. rewrite Hph. cbn. by destruct (negb _ || _).
    + rewrite state_bind_unfold. pose proof (waiters_ok_taking s i p Hok Hi Hph) as Ht. by destruct (waiter _ _).
    + cbn. apply waiters_ok_moved with p; try done. unfold on_waiter. rewrite Hph. cbn. by destruct (negb _).
    + cbn. apply waiters_ok_moved with p; try done. unfold on_waiter. by rewrite Hph.
    + cbn. apply waiters_ok_moved with p; try done. unfold on_waiter. by rewrite Hph.
    + rewrite state_bind_unfold. by apply (waiters_ok_back s i p w pending).
    + cbn. rewrite list_insert_id by done. by destruct s.
Qed.

(** Channels are drawn once. *)
Definition channels_ok (b : inbox) : Prop :=
  (forall k p, ib_parked b !! k = Some p -> (pk_channel p < ib_next b)%nat) /\
  (forall c a, ib_answers b !! c = Some a -> (c < ib_next b)%nat).

Lemma collect_step_keeps now p b : let b' := (collect_step now p b).2 in
  ib_parked b' = ib_parked b /\ ib_answers b' = ib_answers b /\ ib_wakes b' = ib_wakes b /\ (ib_next b <= ib_next b')%nat.
Proof.
  cbv zeta. unfold collect_step. destruct (po_phase p); try (cbn; done).
  - destruct (waiter_run (po_peer p) b) as (_ & _ & En & Ep & Ea & Ew & _). rewrite state_bind_unfold.
    destruct (waiter _ _). cbn in *. rewrite En. auto.
  - destruct (abandon_run (po_peer p) c b) as (_ & En & Ep & Ea & Ew & _). rewrite state_bind_unfold.
    destruct (abandon _ _ _). cbn in *. rewrite En. auto.
Qed.

Lemma channels_ok_step ev s : channels_ok (qu_inbox s) -> channels_ok (qu_inbox (queue_step ev s)).
Proof.
  intros [Hp Ha]. unfold channels_ok. destruct ev as [entry|fp id|fp id|fp id answer|fp wait|i now]; cbn [queue_step].
  - cbn [qu_inbox]. destruct (put_new_run entry (qu_inbox s)) as (Ep & Ea & _ & _ & En & _). rewrite Ep, Ea, En. split.
    + intros k p [[_ <-]|[_ Hk]]%lookup_insert_Some; [cbn; lia|]. specialize (Hp k p Hk). lia.
    + intros c a Hc. specialize (Ha c a Hc). lia.
  - cbn [qu_inbox]. destruct (announce_run fp id (qu_inbox s)) as (Ep & Ea & _ & _ & En & _). by rewrite Ep, Ea, En.
  - cbn. split; [|done]. intros k p [_ Hk]%lookup_delete_Some. by eapply Hp.
  - unfold parkedFor. destruct (ib_parked (qu_inbox s) !! _) as [entry|] eqn:He; [|done]. unfold settle.
    destruct (ib_answers _ !! _) eqn:Hs; cbn; [done|]. split; [done|].
    intros c a [[<- _]|[_ Hc]]%lookup_insert_Some; [|by eapply Ha]. by eapply Hp.
  - done.
  - destruct (qu_polls s !! i) as [p|]; [|done].
    destruct (collect_step_keeps now p (qu_inbox s)) as (Ep & Ea & _ & En). destruct (collect_step _ _ _). cbn in *.
    rewrite Ep, Ea. split; [intros k q Hk; specialize (Hp k q Hk)|intros c a Hc; specialize (Ha c a Hc)]; lia.
Qed.

Lemma queue_run_ok evs s : waiters_ok s /\ channels_ok (qu_inbox s) ->
  waiters_ok (queue_run evs s) /\ channels_ok (qu_inbox (queue_run evs s)).
Proof.
  unfold queue_run. revert s. induction evs as [|ev evs IH]; cbn; [done|]. intros s [Hw Hc]. apply IH.
  split; [by apply waiters_ok_step|by apply channels_ok_step].
Qed.

Lemma empty_queue_ok : waiters_ok empty_queue /\ channels_ok (qu_inbox empty_queue).
Proof.
  split; [|split; intros ?? Hk; cbn in Hk; by rewrite lookup_empty in Hk].
  split_and!; cbn.
  - intros fp c. unfold waits. cbn. rewrite lookup_empty. split; [by intros ?%elem_of_empty|].
    intros [(i & p & Hi & _) _]. by rewrite lookup_nil in Hi.
  - by intros c ?%elem_of_empty.
  - intros i p c Hi. by rewrite lookup_nil in Hi.
  - intros i j p q c Hi. by rewrite lookup_nil in Hi.
Qed.

(** C17. A wake-up is left out only for somebody who is
    listening.  In every order of parking - the entry written down and its
    peer's polls woken being two steps, with anything in between -, unparking,
    answering and polling, the waiters of a peer are exactly the polls of that peer which have taken
    one, have not given it back, and have not been released already - so a
    poll that ended leaves nothing behind - and parking a request sends a
    wake-up exactly when there is no such poll. *)
Theorem waiters_are_polls evs : let s := queue_run evs empty_queue in
  (forall fp c, c ∈ waits (qu_inbox s) fp <-> polled (qu_polls s) fp c /\ c ∉ ib_closed (qu_inbox s)) /\
  (forall entry, ib_wakes (qu_inbox (queue_step (EvPut entry) s)) = ib_wakes (qu_inbox s)) /\
  (forall fp id, ib_wakes (qu_inbox (queue_step (EvAnnounce fp id) s)) =
     ib_wakes (qu_inbox s) ++ (if bool_decide (waits (qu_inbox s) fp = ∅) then [(fp, id)] else [])).
Proof.
  cbv zeta. destruct (queue_run_ok evs empty_queue empty_queue_ok) as [(Hw & _) _]. split; [exact Hw|]. split; [done|].
  intros fp id. by destruct (announce_run fp id (qu_inbox (queue_run evs empty_queue))) as (_ & _ & _ & _ & _ & E).
Qed.

(** ** A request reaches the poll that stood in for its wake-up *)

Definition entry_key (e : parked) : string := parkKey (pk_peer e) (pk_id e).

Definition in_time (e : parked) (now : time) : Prop := IsZero (pk_deadline e) = true \/ 0 < Sub (pk_deadline e) now.

(** The entry is listed among what a poll returns. *)
Definition listed (e : parked) (pending : list PendingApproval) : Prop := exists expires, pending_of e expires ∈ pending.

(** [e] is parked, unanswered, and no other entry has its channel. *)
Definition standing (e : parked) (b : inbox) : Prop :=
  ib_parked b !! entry_key e = Some e /\ ib_answers b !! pk_channel e = None /\ (pk_channel e < ib_next b)%nat /\
  forall k p, ib_parked b !! k = Some p -> k <> entry_key e -> pk_channel p <> pk_channel e.

(** The event leaves [e] where it is, and happens before its deadline. *)
Definition spares (e : parked) (ev : event) : Prop :=
  match ev with
  | EvPut p => entry_key p <> entry_key e
  | EvUnpark fp id | EvSettle fp id _ => parkKey fp id <> entry_key e
  | EvAnnounce _ _ | EvPoll _ _ => True
  | EvStep _ now => in_time e now
  end.

Definition steps_of (i : nat) (evs : list event) : nat :=
  length (List.filter (fun ev => match ev with EvStep j _ => bool_decide (j = i) | _ => false end) evs).

(** How many steps a poll that hears of [e] is from its answer; none is one
    that does not. *)
Definition hears (e : parked) (ph : phase) (n : nat) : Prop :=
  match ph with
  | Waiting _ => (3 <= n)%nat
  | SecondLook _ | LastLook _ => (2 <= n)%nat
  | GivingBack _ pending => (1 <= n)%nat /\ listed e pending
  | Answered_ pending => listed e pending
  | _ => False
  end.

Lemma pendingApprovals_lists e now b :
  standing e b -> in_time e now -> listed e (pendingApprovals (pk_peer e) now b).
Proof.
  intros (Hp & Ha & _) Hin. unfold listed, pendingApprovals.
  assert (e ∈ pendingFor (pk_peer e) b) as Hmem.
  { unfold pendingFor. rewrite SliceStable_perm. apply elem_of_filter_bool. split; [|by apply bool_decide_true].
    apply list_elem_of_fmap. exists (entry_key e, e). split; [done|]. by apply elem_of_map_to_list. }
  exists (if IsZero (pk_deadline e) then None else Some (Sub (pk_deadline e) now)).
  apply list_elem_of_omap. exists e. split; [done|]. unfold offer_entry, taken. rewrite Ha.
  rewrite bool_decide_false by by intros [? ?]. destruct Hin as [-> |Hin]; [done|].
  destruct (IsZero (pk_deadline e)); [done|]. by destruct (Z.leb_spec (Sub (pk_deadline e) now) 0); [lia|].
Qed.

Lemma standing_step e ev s : channels_ok (qu_inbox s) ->
  standing e (qu_inbox s) -> spares e ev -> standing e (qu_inbox (queue_step ev s)).
Proof.
  intros [Hch _] (Hp & Ha & Hn & Hu) Hev. unfold standing.
  destruct ev as [entry|fp id|fp id|fp id answer|fp wait|i now]; cbn [queue_step spares] in *.
  - cbn [qu_inbox]. destruct (put_new_run entry (qu_inbox s)) as (Ep & Ea & _ & _ & En & _). rewrite Ep, Ea, En.
    split_and!; [by rewrite lookup_insert_ne|done|lia|].
    intros k p [[_ <-]|[_ Hk]]%lookup_insert_Some Hne; [cbn; lia|by eapply Hu].
  - cbn [qu_inbox]. destruct (announce_run fp id (qu_inbox s)) as (Ep & Ea & _ & _ & En & _). by rewrite Ep, Ea, En.
  - cbn. split_and!; [by rewrite lookup_delete_ne|done|done|]. intros k p [_ Hk]%lookup_delete_Some. by eapply Hu.
  - unfold parkedFor. destruct (ib_parked (qu_inbox s) !! parkKey fp id) as [entry|] eqn:He; [|done]. unfold settle.
    destruct (ib_answers _ !! pk_channel entry) eqn:Hs; cbn; [done|]. split_and!; [done| |done|done].
    rewrite lookup_insert_ne; [done|]. by eapply Hu.
  - done.
  - destruct (qu_polls s !! i) as [p|]; [|done].
    destruct (collect_step_keeps now p (qu_inbox s)) as (Ep & Ea & _ & En). destruct (collect_step _ _ _). cbn in *.
    rewrite Ep, Ea. split_and!; [done|done|lia|done].
Qed.

Lemma hears_step e now p b n : standing e b -> in_time e now -> po_peer p = pk_peer e ->
  hears e (po_phase p) n ->
  let p' := (collect_step now p b).1 in po_peer p' = pk_peer e /\ hears e (po_phase p') (n - 1).
Proof.
  intros Hs Hin Hpeer Hh. cbv zeta. pose proof (pendingApprovals_lists e now b Hs Hin) as Hl.
  unfold collect_step. destruct (po_phase p) eqn:Hph; cbn [hears] in *; try done.
  - rewrite state_bind_unfold. cbn [gets fst snd mret state_ret in_phase po_phase po_peer]. split; [done|].
    rewrite Hpeer. destruct Hl as [x Hl]. rewrite bool_decide_false.
    + cbn. split; [lia|by exists x].
    + intros Hz%nil_length_inv. rewrite Hz in Hl. by apply elem_of_nil in Hl.
  - cbn. split; [done|lia].
  - cbn. split; [done|]. rewrite Hpeer. split; [lia|done].
  - cbn. split; [done|tauto].
  - cbn. rewrite Hph. done.
Qed.

Lemma steps_of_cons i ev evs : steps_of i (ev :: evs) = (steps_of i [ev] + steps_of i evs)%nat.
Proof. unfold steps_of. rewrite <- length_app, <- List.filter_app. done. Qed.

Lemma hears_run e i evs s n : waiters_ok s /\ channels_ok (qu_inbox s) -> standing e (qu_inbox s) ->
  Forall (spares e) evs ->
  (exists p, qu_polls s !! i = Some p /\ po_peer p = pk_peer e /\ hears e (po_phase p) n) ->
  exists p, qu_polls (queue_run evs s) !! i = Some p /\ po_peer p = pk_peer e /\ hears e (po_phase p) (n - steps_of i evs).
Proof.
  unfold queue_run. revert s n. induction evs as [|ev evs IH]; intros s n Hok Hs Hev Hp.
  - cbn. by rewrite Nat.sub_0_r.
  - apply Forall_cons in Hev as [Hev Hevs]. destruct Hok as [Hw Hc]. cbn [foldl].
    assert (standing e (qu_inbox (queue_step ev s))) as Hs' by by apply standing_step.
    assert (waiters_ok (queue_step ev s) /\ channels_ok (qu_inbox (queue_step ev s))) as Hok'
      by (split; [by apply waiters_ok_step|by apply channels_ok_step]).
    rewrite steps_of_cons, Nat.sub_add_distr.
    apply IH; try done. destruct Hp as (p & Hi & Hpeer & Hh).
    destruct ev as [entry|fp id|fp id|fp id answer|fp wait|j now]; cbn [queue_step]; cbn -[minus].
    + exists p. by rewrite Nat.sub_0_r.
    + exists p. by rewrite Nat.sub_0_r.
    + exists p. by rewrite Nat.sub_0_r.
    + exists p. rewrite Nat.sub_0_r. by destruct (parkedFor id fp (qu_inbox s)).
    + exists p. rewrite Nat.sub_0_r. by rewrite (lookup_app_l_Some _ _ _ _ Hi).
    + case_bool_decide as Hj.
      * subst j. cbn [length]. rewrite Hi. destruct (hears_step e now p (qu_inbox s) n Hs Hev Hpeer Hh) as [Hp' Hh'].
        destruct (collect_step now p (qu_inbox s)) as [p' b]. cbn in *. exists p'.
        by rewrite list_lookup_insert_eq by by eapply lookup_lt_Some.
      * cbn [length]. rewrite Nat.sub_0_r. exists p. destruct (qu_polls s !! j) as [q|] eqn:Hq; [|done].
        destruct (collect_step now q (qu_inbox s)). cbn. by rewrite list_lookup_insert_ne.
Qed.

Lemma standing_new entry s : channels_ok (qu_inbox s) ->
  standing (on_channel (ib_next (qu_inbox s)) entry) (qu_inbox (queue_step (EvPut entry) s)).
Proof.
  intros [Hp Ha]. unfold standing. cbn [queue_step qu_inbox].
  destruct (put_new_run entry (qu_inbox s)) as (Ep & Ea & _ & _ & En & _). rewrite Ep, Ea, En. cbn [on_channel pk_channel].
  split_and!.
  - by rewrite lookup_insert_eq.
  - destruct (ib_answers (qu_inbox s) !! ib_next (qu_inbox s)) eqn:Hc; [|done]. specialize (Ha _ _ Hc). lia.
  - lia.
  - intros k p [[<- _]|[_ Hk]]%lookup_insert_Some Hne; [done|]. specialize (Hp k p Hk). lia.
Qed.

Lemma standing_run e evs s : waiters_ok s /\ channels_ok (qu_inbox s) -> standing e (qu_inbox s) -> Forall (spares e) evs ->
  standing e (qu_inbox (queue_run evs s)).
Proof.
  unfold queue_run. intros Hok Hs Hev. revert s Hok Hs. induction Hev as [|ev evs Hev _ IH]; intros s [Hw Hc] Hs; [done|].
  cbn [foldl]. apply IH; [|by apply standing_step]. split; [by apply waiters_ok_step|by apply channels_ok_step].
Qed.

(** C18. A request that waits to be collected is announced or is on its way.
    Whatever was parked and polled before a request is written down, and
    whatever happens before its peer's polls are woken: unless at that moment
    a poll of that peer is between a last look that missed the request and
    giving its waiter back, either a wake-up for it is sent, or some poll of
    that peer is open, is released by it, and within three steps of its own
    has answered with a list the request is on - as long as the request is
    neither answered nor withdrawn, nor its identifier parked again, and the
    clock of every step is ahead of its deadline. *)
Theorem parked_is_heard before entry between after :
  let s0 := queue_run before empty_queue in
  let e := on_channel (ib_next (qu_inbox s0)) entry in
  let s := queue_run between (queue_step (EvPut entry) s0) in
  let s1 := queue_step (EvAnnounce (pk_peer entry) (pk_id entry)) s in
  (forall i p c pending, qu_polls s !! i = Some p -> po_peer p = pk_peer entry -> po_phase p = GivingBack c pending ->
     listed e pending) ->
  Forall (spares e) between -> Forall (spares e) after ->
  ib_wakes (qu_inbox s1) = ib_wakes (qu_inbox s) ++ [(pk_peer entry, pk_id entry)] \/
  (exists i p c, qu_polls s !! i = Some p /\ po_peer p = pk_peer entry /\ on_waiter p = Some c /\
     c ∈ ib_closed (qu_inbox s1) /\
     ((3 <= steps_of i after)%nat ->
      exists q pending, qu_polls (queue_run after s1) !! i = Some q /\ po_phase q = Answered_ pending /\ listed e pending)).
Proof.
  cbv zeta. intros Hback Hbetween Hafter. set (s0 := queue_run before empty_queue) in *. set (e := on_channel _ entry) in *.
  assert (waiters_ok s0 /\ channels_ok (qu_inbox s0)) as [Hw0 Hc0] by apply queue_run_ok, empty_queue_ok.
  assert (waiters_ok (queue_step (EvPut entry) s0) /\ channels_ok (qu_inbox (queue_step (EvPut entry) s0))) as Hok0
    by (split; [by apply waiters_ok_step|by apply channels_ok_step]).
  pose proof (standing_run e between _ Hok0 (standing_new entry s0 Hc0) Hbetween) as Hnew.
  pose proof (queue_run_ok between _ Hok0) as [Hw Hc]. set (s := queue_run between _) in *.
  set (ev := EvAnnounce (pk_peer entry) (pk_id entry)).
  assert (waiters_ok (queue_step ev s) /\ channels_ok (qu_inbox (queue_step ev s))) as Hok1
    by (split; [by apply waiters_ok_step|by apply channels_ok_step]).
  assert (standing e (qu_inbox (queue_step ev s))) as Hs1 by by apply standing_step.
  pose proof Hw as (Hwait & _). destruct (announce_run (pk_peer entry) (pk_id entry) (qu_inbox s)) as (_ & _ & _ & Ec & _ & Ek).
  unfold ev in *. cbn [queue_step qu_inbox] in *. rewrite Ek, Ec. case_bool_decide as Hempty; [by left|]. right.
  apply set_choose_L in Hempty as [c Hin]. pose proof Hin as [(i & p & Hi & Hpeer & Hon) _]%Hwait.
  exists i, p, c. split_and!; try done; [apply elem_of_union; by right|]. intros Hsteps.
  destruct (hears_run e i after _ 3 Hok1 Hs1 Hafter) as (q & Hq & _ & Hh).
  { exists p. split_and!; try done. specialize (Hback i p). unfold on_waiter in Hon.
    destruct (po_phase p) eqn:Hph; cbn; try done; try lia. injection Hon as ->. split; [lia|by eapply Hback]. }
  replace (3 - steps_of i after)%nat with 0%nat in Hh by lia. exists q.
  destruct (po_phase q) as [| | | | |w pending|pending]; cbn in Hh; try done; try lia. by exists pending.
Qed.

(** ** An answer is the approver's, and is taken once *)

Section Settling.
Context `{Unicode} `{Hashes} `{Ssh} `{Codec ApprovalResponse} `{Codec Delegation} {R : Type}.
Context (self : Identity) (delegations : bool).

(** The decision is signed by the paired key, for that request and over those
    contents, and the answer is what it says. *)
Definition proves (record : TrustRecord) (key : PublicKey) (signed : option SignedApproval) (requestID : string)
    (digest : bytes) (answer : Answer) (resp : ApprovalResponse) : Prop :=
  exists sa pub, signed = Some sa /\ VerifyApproval signed = Ok (resp, pub) /\ ssh_Marshal pub = ssh_Marshal key /\
    rs_request_id resp = requestID /\ rs_request_digest resp = digest /\ answer = answer_named record sa resp.

Lemma answerFromPeer_Ok record key signed requestID digest answer resp :
  answerFromPeer record key signed requestID digest = Ok (answer, resp) <->
  proves record key signed requestID digest answer resp.
Proof.
  unfold answerFromPeer, proves. split.
  - destruct signed as [sa|]; [|done]. destruct (VerifyApproval (Some sa)) as [[r pub]|] eqn:Ev; [|done].
    repeat (case_bool_decide; [done|]). intros [= <- <-]. by exists sa, pub.
  - intros (sa & pub & -> & -> & Hk & Hi & Hd & ->). by rewrite !bool_decide_false by tauto.
Qed.

Definition inbox_of (n : node (inbox * R)) : inbox := fst (n_rest n).

(** What was given before still stands, and whatever is new was given by the
    call, for an entry waiting on the caller, by a decision that is the
    caller's own. *)
Definition settles (peer : option PeerIdentity) (req : AnswerPendingRequest) (n n' : node (inbox * R)) (r : reply bool) : Prop :=
  (forall c a, ib_answers (inbox_of n) !! c = Some a -> ib_answers (inbox_of n') !! c = Some a) /\
  ib_parked (inbox_of n') = ib_parked (inbox_of n) /\
  (forall c a, ib_answers (inbox_of n') !! c = Some a -> ib_answers (inbox_of n) !! c = None ->
     r = inl true /\
     exists id record key entry answer resp,
       peer = Some id /\ record ∈ v_peers (n_vault n) /\ MatchesRef record (pi_Fingerprint id) = true /\
       tr_may_approve record = true /\ trust_PublicKey record = Ok key /\
       parkedFor (ap_request_id req) (pi_Fingerprint id) (inbox_of n) = Some entry /\ pk_channel entry = c /\
       proves record key (ap_approval req) (pk_id entry) (pk_digest entry) answer resp /\
       a = mk_collectedAnswer (set_an_GrantTTL 0 answer) resp (ap_signature req) /\
       (wantsSignature entry = true -> an_Decision answer = DECISION_APPROVE -> ap_signature req <> [])) /\
  (r = inl true -> exists c, ib_answers (inbox_of n) !! c = None /\ is_Some (ib_answers (inbox_of n') !! c)).

Lemma settles_nothing peer req n n' r : n_rest n' = n_rest n -> r <> inl true -> settles peer req n n' r.
Proof.
  intros E Hr. unfold settles, inbox_of. rewrite E. split_and!; [done|done| |done]. intros c a Hs Hn. congruence.
Qed.

Lemma on_inbox_at {A} (m : state inbox A) v seen load gossip b (rest : R) a b' :
  m b = (a, b') ->
  on_inbox m (mk_node (inbox * R) v seen load gossip (b, rest)) = (a, mk_node (inbox * R) v seen load gossip (b', rest)).
Proof. intros Hm. unfold on_inbox. cbn. by rewrite Hm. Qed.

Lemma AnswerPending_settles peer req n :
  let '(r, n') := AnswerPending self delegations peer req n in settles peer req n n' r.
Proof.
  unfold AnswerPending. rewrite state_bind_unfold.
  destruct (publisherFor peer n) as [[[id record]|e] n1] eqn:Hp; cbn [fst snd]; [|].
  2:{ apply publisherFor_refused in Hp as ->. by apply settles_nothing. }
  apply publisherFor_let_in in Hp as (-> & Hr & Hm & ->). apply trust_Peer_Some in Hr as [Hr Href].
  rewrite state_bind_unfold. destruct n as [v seen load gossip [b rest]]. cbn [n_rest n_vault n_seen n_load n_gossip] in *.
  erewrite on_inbox_at by (cbn; reflexivity). cbn [gets fst snd].
  destruct (parkedFor _ _ _) as [entry|] eqn:He; [|by apply settles_nothing].
  destruct (trust_PublicKey record) as [key|e] eqn:Hk; [|by apply settles_nothing].
  destruct (answerFromPeer _ _ _ _ _) as [[answer resp]|e] eqn:Ha; [|by apply settles_nothing].
  apply answerFromPeer_Ok in Ha.
  destruct (wantsSignature entry && _ && _) eqn:Hw; [by apply settles_nothing|].
  rewrite state_bind_unfold. unfold on_vault. cbn [n_rest n_vault n_seen n_load n_gossip].
  destruct (acceptDelegation _ _ _ _ _ _) as [[] v']. cbn [fst snd]. rewrite state_bind_unfold.
  destruct (ib_answers b !! pk_channel entry) eqn:Hs;
    (erewrite on_inbox_at by (unfold settle; rewrite Hs; reflexivity)); cbn [fst snd]; [by apply settles_nothing|].
  unfold settles, inbox_of. cbn [n_rest fst snd mret state_ret ib_answers ib_parked n_vault]. split_and!; [|done| |].
  - intros c a Hc. rewrite lookup_insert_ne; [done|]. intros <-. congruence.
  - intros c a [[<- <-]|[_ Hc]]%lookup_insert_Some Hnone; [|congruence]. split; [done|].
    exists id, record, key, entry, answer, resp. split_and!; try done. intros Hwant Hdec Hsig.
    rewrite Hwant, Hdec, Hsig in Hw. by cbn in Hw.
  - intros _. exists (pk_channel entry). by rewrite lookup_insert_eq.
Qed.

(** C15. A parked request is settled once, by its
    approver.  Whoever calls and whatever is sent: an answer already given
    stays; an answer the call adds goes to a request parked for the caller,
    who is paired and may approve, and is what a decision says that verifies,
    by the key of the pairing, for that request and over the contents it was
    offered with - with the signature beside it when the request was for one,
    and without a lifetime for a grant here; and the approver is told its
    answer was accepted only when it was. *)
Theorem answers_are_the_approvers peer req n :
  let '(r, n') := AnswerPending self delegations peer req n in settles peer req n n' r.
Proof. apply AnswerPending_settles. Qed.

End Settling.

(** ** Cases *)

Module ToyInbox.

Definition phone_key : PublicKey := signer_PublicKey (Toy.signer (of_string "phone")).
Definition phone : Identity := mk_Identity "phone" (Toy.signer (of_string "phone")).
Definition fp : string := Fingerprint phone.
Definition phone_record : TrustRecord :=
  mk_TrustRecord fp "phone" (ssh_Marshal phone_key) [] true false [] None false true emp None None.

Definition waiting_entry : parked := mk_parked fp "r1" [x01] [x02] 10 90 [x07] false None 0.
Definition approve : ApprovalResponse :=
  mk_ApprovalResponse "r1" [x02] DECISION_APPROVE SOURCE_USER None None emp None None None false.
#[export] Instance toy_approvals : Codec ApprovalResponse | 0 := Toy.table [approve].

Definition answer (sig : bytes) : AnswerPendingRequest :=
  mk_AnswerPendingRequest "r1" (Some (ok_or (mk_SignedApproval [] [] emp emp []) (SignApproval phone (Some approve)))) sig.

Definition after_polls : queue := queue_run [EvPoll fp 30; EvStep 0 5; EvStep 0 5; EvStep 0 5] empty_queue.
Definition parks (entry : parked) : list event := [EvPut entry; EvAnnounce (pk_peer entry) (pk_id entry)].
Definition three_steps : list event := [EvStep 0 20; EvStep 0 21; EvStep 0 22].

Definition asker (b : inbox) : node (inbox * unit) :=
  mk_node _ (mk_vault [] [] [] [] [phone_record] [] (fun _ => 100) 0 (fun _ => None) 0) ∅ ∅ [] (b, tt).
Definition posts (sig : bytes) (b : inbox) :=
  AnswerPending (R := unit) phone true (Some (mk_PeerIdentity phone_key fp "10.0.0.3:7777")) (answer sig) (asker b).
Definition one_parked : inbox := qu_inbox (queue_run (parks waiting_entry) empty_queue).

End ToyInbox.

Import ToyInbox.

(** Between the two steps of the parking the poll's own second look finds the
    request already: it gives its waiter back with the request on its list. *)
Lemma parked_is_heard_witness :
  let s0 := queue_run [EvPoll fp 30; EvStep 0 5; EvStep 0 5] empty_queue in
  let s := queue_run [EvStep 0 11] (queue_step (EvPut waiting_entry) s0) in
  let s1 := queue_step (EvAnnounce fp "r1") s in
  steps_of 0 three_steps = 3%nat /\
  exists i p c, qu_polls s !! i = Some p /\ po_peer p = fp /\ on_waiter p = Some c /\
    ((3 <= steps_of i three_steps)%nat ->
     exists q pending, qu_polls (queue_run three_steps s1) !! i = Some q /\
       po_phase q = Answered_ pending /\ listed (on_channel (ib_next (qu_inbox s0)) waiting_entry) pending).
Proof.
  cbv zeta. split; [reflexivity|].
  destruct (parked_is_heard [EvPoll fp 30; EvStep 0 5; EvStep 0 5] waiting_entry [EvStep 0 11] three_steps) as [Hw|Hp].
  - intros i p c pending Hi _ Hph. set (l := qu_polls _) in Hi.
    assert (l = [mk_poll fp 30 (GivingBack 0 [pending_of (on_channel 1 waiting_entry) (Some 79)])]) as E by (vm_compute; reflexivity).
    rewrite E in Hi. apply list_lookup_singleton_Some in Hi as [_ <-]. injection Hph as _ <-. exists (Some 79). vm_compute. left.
  - repeat constructor; right; vm_compute; reflexivity.
  - repeat constructor; right; vm_compute; reflexivity.
  - exfalso. vm_compute in Hw. done.
  - destruct Hp as (i & p & c & Hi & Hpeer & Hon & _ & Hq). exists i, p, c. done.
Defined.

(** A poll whose wait has ended has already looked for the last time, and its
    waiter still stands in for a wake-up: what is parked then is not pushed,
    and not in the answer either. *)
Example parked_after_the_last_look :
  let s := queue_run [EvPoll fp 30; EvStep 0 5; EvStep 0 5; EvStep 0 5; EvStep 0 35; EvStep 0 35;
                      EvPut waiting_entry; EvAnnounce fp "r1"; EvStep 0 36] empty_queue in
  (ib_wakes (qu_inbox s), po_phase <$> qu_polls s, bool_decide (is_Some (ib_parked (qu_inbox s) !! entry_key waiting_entry))) =
  ([], [Answered_ []], true).
Proof. vm_compute. reflexivity. Qed.

Example settled_by_the_phone :
  let '(r, n') := posts [x09] one_parked in
  (r, bool_decide (is_Some (ib_answers (inbox_of n') !! 0%nat))) = (inl true, true) /\
  (posts [x0a] (inbox_of n')).1 = inl false.
Proof. vm_compute. done. Qed.

Example approval_without_its_signature :
  let '(r, n') := posts [] one_parked in (bool_decide (is_Some (ib_answers (inbox_of n') !! 0%nat)), match r with inl _ => false | inr e => bool_decide (re_code e = CodeInvalidArgument) end) = (false, true).
Proof. vm_compute. reflexivity. Qed.
