(* ===== verification/Collect.v ===== *)
(** * Collect: requests taken out of a requester's inbox

    The approver's half of poll-on-open, [pkg/peer/collect.go]: what has been
    done about a request that was collected ([handled]), and the calls that
    decide one, deliver the answer, and deliver it again.  [handleCollected]
    starts a task per request; between two steps of a task other tasks and
    other polls may run. *)

From S2P Require Import Prelude.
From S2P Require Import GoText.
From S2P Require Import Proto.
From S2P Require Import Ssh.
From S2P Require Import Identity.
From S2P Require Import Rpc.
From S2P Require Import Trust.
From S2P Require Import Vault.
From S2P Require Import Access.
From S2P Require Import Agent.
From S2P Require Import Promises.
From S2P Require Import Holder.
From S2P Require Import Lenders.
From S2P Require Import Inbox.

Local Open Scope Z_scope.
Local Open Scope ladulas_scope.

(** ** What has been done about a request *)

Record handledRequest := mk_handledRequest {
  hr_answer : option given;        (** none while somebody is looking at it *)
  hr_delivered : bool;
  hr_delivering : bool;
  hr_until : time
}.
Definition set_answer (a : given) (h : handledRequest) : handledRequest :=
  mk_handledRequest (Some a) (hr_delivered h) (hr_delivering h) (hr_until h).
Definition set_delivered (h : handledRequest) : handledRequest :=
  mk_handledRequest (hr_answer h) true false (hr_until h).
Definition set_delivering (b : bool) (h : handledRequest) : handledRequest :=
  mk_handledRequest (hr_answer h) (hr_delivered h) b (hr_until h).

Record collector := mk_collector {
  cl_handled : gmap string handledRequest;
  cl_clock : nat -> time;
  cl_ticks : nat
}.
Definition on_handled (f : gmap string handledRequest -> gmap string handledRequest) (c : collector) : collector :=
  mk_collector (f (cl_handled c)) (cl_clock c) (cl_ticks c).

(** [time.Now]. *)
Definition cl_Now : state collector time := fun c =>
  (cl_clock c (cl_ticks c), mk_collector (cl_handled c) (cl_clock c) (S (cl_ticks c))).

Definition forgetStale : state collector unit :=
  now ← cl_Now;
  modify (on_handled (filter (fun '(_, entry) => After (hr_until entry) now = true))).

Definition claim (id : string) (until : time) : state collector bool :=
  _ ← forgetStale;
  known ← gets (fun c => cl_handled c !! id);
  match known with
  | Some _ => mret false
  | None => _ ← modify (on_handled <[id := mk_handledRequest None false false until]>); mret true
  end.

Definition forget (id : string) : state collector unit := modify (on_handled (delete id)).
Definition answerGiven (id : string) (answer : given) : state collector unit := modify (on_handled (alter (set_answer answer) id)).
Definition answerDelivered (id : string) : state collector unit := modify (on_handled (alter set_delivered id)).

Definition answerToRedeliver (id : string) : state collector (option given) :=
  known ← gets (fun c => cl_handled c !! id);
  match known with
  | Some entry =>
    match hr_answer entry with
    | Some answer =>
      if hr_delivered entry || hr_delivering entry then mret None
      else _ ← modify (on_handled <[id := set_delivering true entry]>); mret (Some answer)
    | None => mret None
    end
  | None => mret None
  end.

Definition redeliveryDone (id : string) : state collector unit := modify (on_handled (alter (set_delivering false) id)).

Definition maxCollectedTimeout : duration := Hour.

Definition collectedTimeout (item : PendingApproval) : duration :=
  let remaining := AsDuration (pn_expires_in item) in
  if (remaining <=? 0) || (maxCollectedTimeout <? remaining) then maxCollectedTimeout else remaining.

(** ** The tasks *)

(** Where a task is: the person is asked, the answer is on its way, it is
    over - with the answer it carried - or nobody could be asked. *)
Inductive stage := Deciding (item : PendingApproval) | Telling (answer : given) | Told (answer : given) | Undecided.

(** [decideCollected] and [redeliver] of one request. *)
Record task := mk_task { tk_record : TrustRecord; tk_id : string; tk_again : bool; tk_stage : stage }.
Definition at_stage (st : stage) (t : task) : task := mk_task (tk_record t) (tk_id t) (tk_again t) st.

(** [go n.decideCollected(...)] and [go n.redeliver(...)], in order. *)
Fixpoint handleCollected (record : TrustRecord) (pending : list PendingApproval) : state collector (bool * list task) :=
  match pending with
  | [] => mret (false, [])
  | item :: rest =>
    let id := pn_request_id item in
    now ← cl_Now;
    claimed ← claim id (now + collectedTimeout item);
    if (claimed : bool) then
      '(withheld, tasks) ← handleCollected record rest;
      mret (withheld, mk_task record id false (Deciding item) :: tasks)
    else
      answer ← answerToRedeliver id;
      '(_, tasks) ← handleCollected record rest;
      mret (true, match answer with
                  | Some answer => mk_task record id true (Telling answer) :: tasks
                  | None => tasks
                  end)
  end.

(** The call on the requester's inbox. *)
Class Requesters (W : Type) := { rq_AnswerPending : TrustRecord -> AnswerPendingRequest -> state W (option error) }.

Section Tasks.
Context `{Unicode} `{Hashes} `{Ssh} `{Codec ApprovalRequest} `{Codec Delegation} `{Codec Endorsement} `{Codec Retraction}.
Context {P : Type} `{!KeyStore P} `{!PeerEngine P} `{!Requesters (node P)}.
Variables (keys endorsements : bool).

Definition answerCollected (record : TrustRecord) (requestID : string) (answer : given) : state (node P) (option error) :=
  rq_AnswerPending record (mk_AnswerPendingRequest requestID (gv_approval answer) (gv_signature answer)).

Definition task_step (t : task) : state (collector * node P) task :=
  match tk_stage t with
  | Deciding item =>
    decided ← there (decideFor keys endorsements (tk_record t) item);
    match decided with
    | Err _ => _ ← here (forget (tk_id t)); mret (at_stage Undecided t)
    | Ok answer => _ ← here (answerGiven (tk_id t) answer); mret (at_stage (Telling answer) t)
    end
  | Telling answer =>
    failed ← there (answerCollected (tk_record t) (tk_id t) answer);
    _ ← (match failed with Some _ => mret tt | None => here (answerDelivered (tk_id t)) end);
    _ ← (if tk_again t then here (redeliveryDone (tk_id t)) else mret tt);
    mret (at_stage (Told answer) t)
  | Told _ | Undecided => mret t
  end.

(** Polls that came back and tasks that moved, in any order. *)
Inductive happening := Polled (record : TrustRecord) (pending : list PendingApproval) | Moved (i : nat).

Record desk := mk_desk { dk_collector : collector; dk_node : node P; dk_tasks : list task }.

Definition happen (h : happening) (d : desk) : desk :=
  match h with
  | Polled record pending =>
    let '((_, started), c) := handleCollected record pending (dk_collector d) in
    mk_desk c (dk_node d) (dk_tasks d ++ started)
  | Moved i =>
    match dk_tasks d !! i with
    | None => d
    | Some t => let '(t', (c, n)) := task_step t (dk_collector d, dk_node d) in mk_desk c n (<[i := t']> (dk_tasks d))
    end
  end.
Definition happens (l : list happening) (d : desk) : desk := foldl (fun d h => happen h d) d l.

End Tasks.
