(* ===== verification/CollectSpec.v ===== *)
(** * CollectSpec: a collected request is decided once

    The theorems about [Collect]: while a request is remembered, the polls
    that offer it again lead to nothing but the delivery of the answer that
    was given, one at a time. *)

From S2P Require Import Prelude.
From S2P Require Import GoText.
From S2P Require Import Proto.
From S2P Require Import Ssh.
From S2P Require Import Identity.
From S2P Require Import Rpc.
From S2P Require Import Trust.
From S2P Require Import Vault.
From S2P Require Import Access.
From S2P Require Import Agent.
From S2P Require Import Promises.
From S2P Require Import Holder.
From S2P Require Import Lenders.
From S2P Require Import Inbox.
From S2P Require Import Collect.

Local Open Scope Z_scope.
Local Open Scope ladulas_scope.

Definition live (t : task) : bool := match tk_stage t with Deciding _ | Telling _ => true | _ => false end.
Definition telling (t : task) : bool := match tk_stage t with Telling _ => true | _ => false end.
(** The answer a task has. *)
Definition carried (t : task) : option given :=
  match tk_stage t with Telling a | Told a => Some a | _ => None end.

Definition about (id : string) (l : list task) : list task := List.filter (fun t => bool_decide (tk_id t = id)) l.
Definition tellings (id : string) (l : list task) : nat := length (List.filter telling (about id l)).

(** The clock readings between two states are before [u]. *)
Definition reads_before (u : time) (c c' : collector) : Prop :=
  forall k, (cl_ticks c <= k < cl_ticks c')%nat -> cl_clock c k < u.

Lemma about_app id l k : about id (l ++ k) = about id l ++ about id k.
Proof. apply List.filter_app. Qed.
Lemma tellings_app id l k : tellings id (l ++ k) = (tellings id l + tellings id k)%nat.
Proof. unfold tellings. by rewrite about_app, List.filter_app, length_app. Qed.
Lemma about_cons id t l : about id (t :: l) = (if bool_decide (tk_id t = id) then [t] else []) ++ about id l.
Proof. unfold about. cbn. by case_bool_decide. Qed.
Lemma tellings_cons id t l :
  tellings id (t :: l) = ((if bool_decide (tk_id t = id) && telling t then 1 else 0) + tellings id l)%nat.
Proof. unfold tellings. rewrite about_cons. case_bool_decide; cbn; [|done]. by destruct (telling t). Qed.

(** ** What a poll does to a request that is remembered *)

Lemma claim_run id until c :
  claim id until c =
  let now := cl_clock c (cl_ticks c) in
  let kept := filter (fun '(_, entry) => After (hr_until entry) now = true) (cl_handled c) in
  match kept !! id with
  | Some _ => (false, mk_collector kept (cl_clock c) (S (cl_ticks c)))
  | None => (true, mk_collector (<[id := mk_handledRequest None false false until]> kept) (cl_clock c) (S (cl_ticks c)))
  end.
Proof.
  unfold claim, forgetStale, cl_Now, on_handled, gets, modify, mbind, state_bind. cbn.
  by destruct (filter _ (cl_handled c) !! id).
Qed.

Lemma kept_fresh c id h now : cl_handled c !! id = Some h -> now < hr_until h ->
  filter (fun '(_, entry) => After (hr_until entry) now = true) (cl_handled c) !! id = Some h.
Proof. intros Hh Hn. apply map_lookup_filter_Some. split; [done|]. unfold After. by apply Z.ltb_lt. Qed.

Lemma answerToRedeliver_run id c :
  answerToRedeliver id c =
  match cl_handled c !! id with
  | Some entry =>
    match hr_answer entry with
    | Some answer =>
      if hr_delivered entry || hr_delivering entry then (None, c)
      else (Some answer, on_handled <[id := set_delivering true entry]> c)
    | None => (None, c)
    end
  | None => (None, c)
  end.
Proof.
  unfold answerToRedeliver, gets, modify, mbind, state_bind. cbn.
  destruct (cl_handled c !! id) as [entry|]; [|done]. destruct (hr_answer entry); [|done]. by destruct (_ || _).
Qed.

(** The entry of [id] after a poll, and the tasks about it the poll started. *)
Definition polled_again (id : string) (h h' : handledRequest) (started : list task) : Prop :=
  (h' = h /\ about id started = []) \/
  (hr_delivered h = false /\ hr_delivering h = false /\ h' = set_delivering true h /\
   exists a record, hr_answer h = Some a /\ about id started = [mk_task record id true (Telling a)]).

Lemma polled_again_until id h h' started : polled_again id h h' started -> hr_until h' = hr_until h /\ hr_answer h' = hr_answer h.
Proof. by intros [[-> _]|(_ & _ & -> & _)]. Qed.

Lemma handleCollected_cons record item rest c :
  handleCollected record (item :: rest) c =
  let id := pn_request_id item in
  let '(claimed, c1) := claim id (cl_clock c (cl_ticks c) + collectedTimeout item)
                          (mk_collector (cl_handled c) (cl_clock c) (S (cl_ticks c))) in
  if (claimed : bool) then
    let '((withheld, tasks), c2) := handleCollected record rest c1 in
    ((withheld, mk_task record id false (Deciding item) :: tasks), c2)
  else
    let '(answer, c2) := answerToRedeliver id c1 in
    let '((_, tasks), c3) := handleCollected record rest c2 in
    ((true, match answer with Some a => mk_task record id true (Telling a) :: tasks | None => tasks end), c3).
Proof.
  cbn [handleCollected]. rewrite state_bind_unfold. cbn [cl_Now fst snd]. rewrite state_bind_unfold. cbv zeta.
  destruct (claim _ _ _) as [[|] c1]; cbn [fst snd]; rewrite state_bind_unfold.
  - by destruct (handleCollected record rest c1) as [[w tasks] c2].
  - destruct (answerToRedeliver _ c1) as [answer c2]. cbn [fst snd]. rewrite state_bind_unfold.
    by destruct (handleCollected record rest c2) as [[w tasks] c3].
Qed.

Lemma answerToRedeliver_clock id c :
  let c' := (answerToRedeliver id c).2 in cl_clock c' = cl_clock c /\ cl_ticks c' = cl_ticks c.
Proof.
  cbv zeta. rewrite answerToRedeliver_run. destruct (cl_handled c !! id) as [e|]; [|done].
  destruct (hr_answer e); [|done]. by destruct (_ || _).
Qed.

Lemma handleCollected_ticks record pending c :
  let c' := (handleCollected record pending c).2 in cl_clock c' = cl_clock c /\ (cl_ticks c <= cl_ticks c')%nat.
Proof.
  cbv zeta. revert c. induction pending as [|item pending IH]; intros c; [done|].
  rewrite handleCollected_cons. cbv zeta. rewrite claim_run. cbv zeta. cbn [cl_handled cl_clock cl_ticks].
  destruct (filter _ _ !! _).
  - set (c1 := mk_collector _ _ _). assert (cl_clock c1 = cl_clock c /\ cl_ticks c1 = S (S (cl_ticks c))) as [Ec Lc] by done.
    clearbody c1. pose proof (answerToRedeliver_clock (pn_request_id item) c1) as [E L].
    destruct (answerToRedeliver _ _) as [a c2]. specialize (IH c2). destruct (handleCollected _ _ _) as [[w ts] c3].
    cbn in *. split; [destruct IH; congruence|lia].
  - set (c1 := mk_collector _ _ _). assert (cl_clock c1 = cl_clock c /\ cl_ticks c1 = S (S (cl_ticks c))) as [Ec Lc] by done.
    clearbody c1. specialize (IH c1). destruct (handleCollected _ _ _) as [[w ts] c3].
    cbn in *. split; [destruct IH; congruence|lia].
Qed.

(** One item of a poll. *)
Lemma polled_again_trans id h h1 h2 l k :
  polled_again id h h1 l -> polled_again id h1 h2 k -> polled_again id h h2 (l ++ k).
Proof.
  unfold polled_again. rewrite about_app. intros [[-> ->]|(Hd & Hg & -> & a & r & Ha & ->)]; [done|].
  intros [[-> ->]|(_ & Hg' & _)]; [|done]. right. split_and!; try done. by exists a, r.
Qed.

Lemma handleCollected_again record pending id h c : cl_handled c !! id = Some h ->
  let '((_, started), c') := handleCollected record pending c in
  reads_before (hr_until h) c c' ->
  exists h', cl_handled c' !! id = Some h' /\ polled_again id h h' started.
Proof.
  revert h c. induction pending as [|item pending IH]; intros h c Hh.
  { cbn. intros _. exists h. split; [done|]. by left. }
  rewrite handleCollected_cons. cbv zeta. rewrite claim_run. cbv zeta. cbn [cl_handled cl_clock cl_ticks].
  set (now := cl_clock c (S (cl_ticks c))). set (kept := filter _ _).
  destruct (kept !! pn_request_id item) as [h0|] eqn:Hk.
  - set (c1 := mk_collector _ _ _). pose proof (answerToRedeliver_clock (pn_request_id item) c1) as [E L].
    pose proof (answerToRedeliver_run (pn_request_id item) c1) as Hr. cbn [c1 cl_handled] in Hr. rewrite Hk in Hr.
    destruct (answerToRedeliver _ _) as [a c2]. cbn [fst snd] in *.
    pose proof (handleCollected_ticks record pending c2) as [E3 L3].
    destruct (handleCollected record pending c2) as [[w ts] c3] eqn:Hgo. cbn [snd] in *. intros Hb.
    assert (now < hr_until h) as Hnow by (apply Hb; cbn in *; lia).
    assert (kept !! id = Some h) as Hkh by by apply kept_fresh.
    assert (exists h2, cl_handled c2 !! id = Some h2 /\
      polled_again id h h2 (match a with Some a => [mk_task record (pn_request_id item) true (Telling a)] | None => [] end)) as (h2 & Hh2 & Hp).
    { destruct (decide (pn_request_id item = id)) as [<-|Hne].
      - assert (h0 = h) as -> by congruence. destruct (hr_answer h) as [a0|] eqn:Ha.
        + destruct (hr_delivered h) eqn:Hd; [|destruct (hr_delivering h) eqn:Hg]; injection Hr as -> ->.
          * exists h. split; [done|by left].
          * exists h. split; [done|by left].
          * exists (set_delivering true h). split; [by cbn; rewrite lookup_insert_eq|]. right. split_and!; try done.
            exists a0, record. split; [done|]. rewrite about_cons. cbn. by rewrite bool_decide_true.
        + injection Hr as -> ->. exists h. split; [done|by left].
      - exists h. split.
        + destruct (hr_answer h0); [destruct (_ || _)|]; injection Hr as -> ->; [done| |done]. cbn. by rewrite lookup_insert_ne.
        + left. split; [done|]. destruct a; [|done]. rewrite about_cons. cbn. by rewrite bool_decide_false. }
    specialize (IH h2 c2 Hh2). rewrite Hgo in IH. destruct IH as (h3 & Hh3 & Hp3).
    { rewrite (proj1 (polled_again_until _ _ _ _ Hp)). intros k Hk2. rewrite E. apply Hb. cbn in *. lia. }
    exists h3. split; [done|]. pose proof (polled_again_trans _ _ _ _ _ _ Hp Hp3) as Ht. by destruct a.
  - set (c1 := mk_collector _ _ _). pose proof (handleCollected_ticks record pending c1) as [E3 L3].
    destruct (handleCollected record pending c1) as [[w ts] c3] eqn:Hgo. cbn [snd] in *. intros Hb.
    assert (now < hr_until h) as Hnow by (apply Hb; cbn in *; lia).
    assert (kept !! id = Some h) as Hkh by by apply kept_fresh.
    assert (pn_request_id item <> id) as Hne by congruence.
    specialize (IH h c1). rewrite Hgo in IH. destruct IH as (h3 & Hh3 & Hp3).
    { cbn. by rewrite lookup_insert_ne. }
    { intros k Hk2. cbn. apply Hb. cbn in *. lia. }
    exists h3. split; [done|]. unfold polled_again. rewrite about_cons. cbn [tk_id]. by rewrite bool_decide_false.
Qed.

(** ** The tasks of a request *)

Section Decided.
Context `{Unicode} `{Hashes} `{Ssh} `{Codec ApprovalRequest} `{Codec Delegation} `{Codec Endorsement} `{Codec Retraction}.
Context {P : Type} `{!KeyStore P} `{!PeerEngine P} `{!Requesters (node P)}.
Context (keys endorsements : bool).

Abbreviation step := (task_step (P := P) keys endorsements).
Abbreviation run := (happens (P := P) keys endorsements).

(** What a step does to the entries: only to those of its own request. *)
Definition steps_to (t t' : task) (m m' : gmap string handledRequest) : Prop :=
  match tk_stage t with
  | Deciding _ => (tk_stage t' = Undecided /\ m' = delete (tk_id t) m) \/
                  (exists a, tk_stage t' = Telling a /\ m' = alter (set_answer a) (tk_id t) m)
  | Telling a =>
    tk_stage t' = Told a /\
    exists heard : bool, m' =
      let m1 := if heard then alter set_delivered (tk_id t) m else m in
      if tk_again t then alter (set_delivering false) (tk_id t) m1 else m1
  | _ => t' = t /\ m' = m
  end.

Lemma task_step_run t c n : let '(t', (c', n')) := step t (c, n) in
  tk_id t' = tk_id t /\ tk_again t' = tk_again t /\ tk_record t' = tk_record t /\
  cl_clock c' = cl_clock c /\ cl_ticks c' = cl_ticks c /\ steps_to t t' (cl_handled c) (cl_handled c').
Proof.
  unfold task_step, steps_to. destruct (tk_stage t) eqn:Hs.
  - rewrite state_bind_unfold. cbn [there]. destruct (decideFor _ _ _ _ n) as [[a|e] n']; cbn [fst snd];
      rewrite state_bind_unfold; cbn; split_and!; try done; [right; by exists a|by left].
  - rewrite state_bind_unfold. cbn [there]. destruct (answerCollected _ _ _ n) as [[e|] n']; cbn [fst snd];
      rewrite state_bind_unfold; cbn; destruct (tk_again t) eqn:Hag; cbn; split_and!; try done;
      first [by exists true|by exists false].
  - cbn. done.
  - cbn. done.
Qed.

Lemma steps_to_other id t t' m m' : steps_to t t' m m' -> tk_id t <> id -> m' !! id = m !! id.
Proof.
  unfold steps_to. destruct (tk_stage t); intros Hs Hne.
  - destruct Hs as [[_ ->]|(a & _ & ->)]; [by rewrite lookup_delete_ne|by rewrite lookup_alter_ne].
  - destruct Hs as (_ & heard & ->). destruct heard, (tk_again t); cbn; by rewrite ?lookup_alter_ne.
  - by destruct Hs as [_ ->].
  - by destruct Hs as [_ ->].
Qed.

(** The request is in hand: remembered, with one task that decides or has
    decided it, nothing older still running, and everything newer repeating
    its answer, one at a time. *)
Definition in_hand (id : string) (u : time) (record : TrustRecord) (i : nat) (c : collector) (l : list task) : Prop :=
  exists h t before after,
    l = before ++ t :: after /\ length before = i /\ cl_handled c !! id = Some h /\ hr_until h = u /\
    tk_id t = id /\ tk_record t = record /\ tk_again t = false /\ tk_stage t <> Undecided /\ hr_answer h = carried t /\
    Forall (fun t => live t = false) (about id before) /\
    Forall (fun t' => tk_again t' = true /\ is_Some (carried t') /\ carried t' = carried t) (about id after) /\
    (tellings id after <= if hr_delivered h || hr_delivering h then 1 else 0)%nat.

(** Nobody could be asked. *)
Definition given_up (id : string) (record : TrustRecord) (i : nat) (l : list task) : Prop :=
  exists t, l !! i = Some t /\ tk_stage t = Undecided /\ tk_id t = id /\ tk_record t = record /\ tk_again t = false.

Lemma about_insert id l k t t' : l !! k = Some t -> tk_id t' = tk_id t -> tk_id t <> id -> about id (<[k := t']> l) = about id l.
Proof.
  intros Hk Hid Hne. rewrite (insert_take_drop l k t') by by eapply lookup_lt_Some.
  rewrite <- (take_drop_middle l k t Hk) at 3. rewrite !about_app, !about_cons. by rewrite Hid, bool_decide_false.
Qed.

Lemma in_hand_polled id u record i c l r pending : in_hand id u record i c l ->
  let '((_, started), c') := handleCollected r pending c in
  reads_before u c c' -> in_hand id u record i c' (l ++ started).
Proof.
  intros (h & t & before & after & -> & Hi & Hh & <- & Hid & Hrec & Hag & Hst & Ha & Hb & Haf & Hn).
  pose proof (handleCollected_again r pending id h c Hh) as Hp.
  destruct (handleCollected r pending c) as [[w started] c']. intros Hr. destruct (Hp Hr) as (h' & Hh' & Hpa).
  destruct (polled_again_until _ _ _ _ Hpa) as [Eu Ea].
  exists h', t, before, (after ++ started). rewrite <- app_assoc, about_app, tellings_app, Eu, Ea. cbn [app].
  split_and!; try done.
  - apply Forall_app. split; [done|]. destruct Hpa as [[_ ->]|(_ & _ & _ & a & r0 & Hsa & ->)]; [done|].
    apply Forall_cons. split; [|by apply Forall_nil]. cbn. split_and!; [done|by eexists|congruence].
  - unfold tellings at 2. destruct Hpa as [[-> ->]|(Hd & Hg & -> & a & r0 & _ & ->)]; cbn; [lia|].
    rewrite Hd, Hg in Hn. cbn in Hn. rewrite orb_true_r. lia.
Qed.

(** A step of a task that came after. *)
Lemma after_step id after k t t' m m' h a :
  after !! k = Some t -> tk_id t' = tk_id t -> tk_again t' = tk_again t -> steps_to t t' m m' -> m !! id = Some h ->
  Forall (fun t' => tk_again t' = true /\ is_Some (carried t') /\ carried t' = a) (about id after) ->
  (tellings id after <= if hr_delivered h || hr_delivering h then 1 else 0)%nat ->
  exists h', m' !! id = Some h' /\ hr_until h' = hr_until h /\ hr_answer h' = hr_answer h /\
    Forall (fun t' => tk_again t' = true /\ is_Some (carried t') /\ carried t' = a) (about id (<[k := t']> after)) /\
    (tellings id (<[k := t']> after) <= if hr_delivered h' || hr_delivering h' then 1 else 0)%nat.
Proof.
  intros Hk Hid Hag Hs Hh Haf Hn. destruct (decide (tk_id t = id)) as [E|Hne].
  2:{ exists h. rewrite (steps_to_other _ _ _ _ _ Hs Hne). unfold tellings. by rewrite (about_insert id after k t t'). }
  rewrite (insert_take_drop after k t') by by eapply lookup_lt_Some.
  rewrite <- (take_drop_middle after k t Hk) in Haf, Hn.
  rewrite about_app, about_cons in Haf |- *. rewrite tellings_app, tellings_cons in Hn |- *.
  rewrite Hid, E in *. rewrite bool_decide_true in * by done. cbn [app] in *.
  apply Forall_app in Haf as [Hf1 Hf2]. apply Forall_cons in Hf2 as [(Ht & Hc & Hca) Hf2]. cbn [andb] in *.
  unfold steps_to in Hs. unfold carried, telling in *. rewrite Ht in Hs. destruct (tk_stage t) as [|a0|a0|] eqn:Hst; try by destruct Hc.
  - destruct Hs as (Hst' & heard & ->). rewrite Hst'.
    assert (forall d, exists h', (alter (set_delivering false) (tk_id t) (if heard then alter set_delivered (tk_id t) m else m)) !! id = Some h' /\
      hr_until h' = hr_until h /\ hr_answer h' = hr_answer h /\ (d = 0%nat -> d = 0%nat)) as Hh'.
    { intros d. rewrite E. rewrite lookup_alter_eq. destruct heard; [rewrite lookup_alter_eq|]; rewrite Hh; by eexists. }
    destruct (Hh' 0%nat) as (h' & Hh1 & Hu & Ha & _). exists h'. split_and!; try done.
    + apply Forall_app. split; [done|]. apply Forall_cons. split; [|done]. rewrite Hst'. split; [congruence|done].
    + destruct (hr_delivered h || hr_delivering h); cbn in Hn; [|lia]. destruct (hr_delivered h' || _); lia.
  - destruct Hs as [-> ->]. exists h. split_and!; try done.
    + apply Forall_app. split; [done|]. apply Forall_cons. split; [|done]. by rewrite Hst.
    + rewrite Hst. exact Hn.
Qed.

Lemma quiet_step t t' m m' : steps_to t t' m m' -> live t = false -> t' = t /\ m' = m.
Proof. unfold steps_to, live. by destruct (tk_stage t). Qed.

Lemma in_hand_moved id u record i k d : in_hand id u record i (dk_collector d) (dk_tasks d) ->
  let d' := happen keys endorsements (Moved k) d in
  given_up id record i (dk_tasks d') \/
  in_hand id u record i (dk_collector d') (dk_tasks d').
Proof.
  intros Hin. cbn [happen]. destruct (dk_tasks d !! k) as [tk|] eqn:Hk; [|by right].
  pose proof (task_step_run tk (dk_collector d) (dk_node d)) as Hs. destruct (step tk _) as [tk' [c' n']].
  destruct Hs as (Eid & Eag & Erec & _ & _ & Hs). cbn [dk_tasks dk_collector].
  destruct Hin as (h & t & before & after & El & Hi & Hh & Hu & Hid & Hrec & Hag & Hst & Ha & Hb & Haf & Hn).
  rewrite El in Hk |- *. apply lookup_app_Some in Hk as [Hk|[Hge Hk]].
  - right. assert (k < length before)%nat by by eapply lookup_lt_Some. rewrite insert_app_l by done.
    destruct (decide (tk_id tk = id)) as [E|Hne].
    + assert (live tk = false) as Hl.
      { rewrite Forall_forall in Hb. apply Hb. unfold about. apply elem_of_filter_bool.
        split; [by eapply list_elem_of_lookup_2|by apply bool_decide_true]. }
      destruct (quiet_step _ _ _ _ Hs Hl) as [-> Em]. exists h, t, before, after.
      rewrite list_insert_id, Em by done. done.
    + exists h, t, (<[k := tk']> before), after. rewrite length_insert, (about_insert id before k tk tk') by done.
      rewrite (steps_to_other _ _ _ _ _ Hs Hne). done.
  - rewrite insert_app_r_alt by done. destruct (k - length before)%nat as [|j] eqn:Ej.
    + injection Hk as <-. cbn [list_insert insert]. assert (k = i) as -> by lia.
      unfold steps_to in Hs. destruct (tk_stage t) as [item|a|a|] eqn:Est; [| | |done].
      * destruct Hs as [[Hun _]|(a & Hst' & Em)].
        { left. exists tk'. rewrite lookup_app_r, Hi, Nat.sub_diag by lia. by rewrite Eid, Erec, Eag. }
        right. exists (set_answer a h), tk', before, after. rewrite Em, Hid, lookup_alter_eq, Hh.
        unfold carried in *. rewrite Est in *. rewrite Hst'. split_and!; try done; try congruence.
        eapply Forall_impl; [exact Haf|]. cbn. intros t' (_ & [x Hx] & Hx'). congruence.
      * destruct Hs as (Hst' & heard & Em). right. rewrite Hag in Em. cbn zeta in Em.
        exists (if heard then set_delivered h else h), tk', before, after.
        rewrite Em. unfold carried in *. rewrite Est in *. rewrite Hst', Eid, Erec, Eag.
        split_and!; try done; [destruct heard; rewrite ?Hid, ?lookup_alter_eq, Hh; done|by destruct heard..|].
        destruct heard; cbn; [|done]. by destruct (hr_delivered h || hr_delivering h); lia.
      * destruct Hs as [-> Em]. right. exists h, t, before, after. rewrite Em. by rewrite Est.
    + cbn [lookup list_lookup] in Hk. cbn [insert list_insert]. right.
      destruct (after_step id after j tk tk' _ _ h (carried t) Hk Eid Eag Hs Hh Haf Hn) as (h' & Hh' & Eu & Ea & Haf' & Hn').
      exists h', t, before, (<[j := tk']> after). by rewrite Eu, Ea.
Qed.

Lemma happen_clock h d : let d' := happen keys endorsements h d in
  cl_clock (dk_collector d') = cl_clock (dk_collector d) /\ (cl_ticks (dk_collector d) <= cl_ticks (dk_collector d'))%nat.
Proof.
  destruct h as [r pending|k]; cbn [happen].
  - pose proof (handleCollected_ticks r pending (dk_collector d)) as Hc. by destruct (handleCollected _ _ _) as [[w l] c'].
  - destruct (dk_tasks d !! k) as [t|]; [|by split]. pose proof (task_step_run t (dk_collector d) (dk_node d)) as Hs.
    destruct (step t _) as [t' [c' n']]. destruct Hs as (_ & _ & _ & Ec & Et & _). cbn. rewrite Et. auto.
Qed.

Lemma happens_clock l d : let d' := run l d in
  cl_clock (dk_collector d') = cl_clock (dk_collector d) /\ (cl_ticks (dk_collector d) <= cl_ticks (dk_collector d'))%nat.
Proof.
  unfold happens. revert d. induction l as [|h l IH]; intros d; cbn [foldl]; [by split|].
  destruct (IH (happen keys endorsements h d)) as [E L]. destruct (happen_clock h d) as [E1 L1].
  cbv zeta in *. split; [congruence|lia].
Qed.

Lemma undecided_stays i t h d : dk_tasks d !! i = Some t -> tk_stage t = Undecided ->
  dk_tasks (happen keys endorsements h d) !! i = Some t.
Proof.
  intros Hi Hu. destruct h as [r pending|k]; cbn [happen].
  - destruct (handleCollected _ _ _) as [[w l] c']. cbn. by rewrite (lookup_app_l_Some _ _ _ _ Hi).
  - destruct (dk_tasks d !! k) as [tk|] eqn:Hk; [|done].
    pose proof (task_step_run tk (dk_collector d) (dk_node d)) as Hs. destruct (step tk _) as [t' [c' n']]. cbn.
    destruct (decide (k = i)) as [->|Hne]; [|by rewrite list_lookup_insert_ne].
    assert (tk = t) as -> by congruence. destruct Hs as (_ & _ & _ & _ & _ & Hs). unfold steps_to in Hs. rewrite Hu in Hs.
    destruct Hs as [-> _]. by rewrite list_insert_id.
Qed.

Lemma undecided_run i t l d : dk_tasks d !! i = Some t -> tk_stage t = Undecided -> dk_tasks (run l d) !! i = Some t.
Proof.
  unfold happens. revert d. induction l as [|h l IH]; intros d Ht Hu; [done|].
  cbn [foldl]. apply IH; [|done]. by apply undecided_stays.
Qed.

Lemma in_hand_run id u record i l d : in_hand id u record i (dk_collector d) (dk_tasks d) ->
  reads_before u (dk_collector d) (dk_collector (run l d)) ->
  given_up id record i (dk_tasks (run l d)) \/
  in_hand id u record i (dk_collector (run l d)) (dk_tasks (run l d)).
Proof.
  unfold happens. revert d. induction l as [|h l IH]; intros d Hin Hr; cbn [foldl] in *; [by right|].
  set (d1 := happen keys endorsements h d) in *.
  destruct (happen_clock h d) as [E1 L1]. destruct (happens_clock l d1) as [E2 L2]. unfold happens in *. cbv zeta in *. fold d1 in E1, L1.
  assert (reads_before u (dk_collector d) (dk_collector d1)) as Hr1 by (intros k Hk; apply Hr; lia).
  assert (reads_before u (dk_collector d1) (dk_collector (foldl (fun d h => happen keys endorsements h d) d1 l))) as Hr2
    by (intros k Hk; rewrite E1; apply Hr; lia).
  assert (given_up id record i (dk_tasks d1) \/ in_hand id u record i (dk_collector d1) (dk_tasks d1))
    as [(t & Ht & Hu & Hrest)|Hin1].
  - destruct h as [r pending|k]; [|by apply in_hand_moved]. right. subst d1. cbn [happen] in *.
    pose proof (in_hand_polled id u record i (dk_collector d) (dk_tasks d) r pending Hin) as Hp.
    destruct (handleCollected _ _ _) as [[w started] c']. by apply Hp.
  - left. exists t. split; [|done]. by apply (undecided_run i t l d1).
  - by apply IH.
Qed.


End Decided.

(** ** Cases *)

Module ToyCollect.
Import Toy.

(** The decisions given, and whom the answers were brought to, or not. *)
Record answering := mk_answering { an_asked : list string; an_brought : list (string * string); an_reachable : list bool }.

#[export] Instance no_keys : KeyStore answering := {| ks_KeyRefs _ := []; ks_Signer _ _ := Err (errors_New "no key") |}.

Definition artifact : SignedApproval := mk_SignedApproval [x01] [] emp emp [].
Definition approved (req : ApprovalRequest) : ApprovalResponse :=
  mk_ApprovalResponse (rq_request_id req) [] DECISION_APPROVE SOURCE_USER None None emp None None None false.

Definition asks (req : ApprovalRequest) (body : bytes) :
    state (vault * answering) (result (ApprovalResponse * option SignedApproval) * ApprovalRequest) := fun '(v, a) =>
  ((Ok (approved req, Some artifact), req), (v, mk_answering (an_asked a ++ [rq_request_id req]) (an_brought a) (an_reachable a))).

#[export] Instance somebody : PeerEngine answering := {|
  pe_SubmitPeer := asks; pe_SubmitPeerSigning := asks; pe_Signed _ _ := mret tt |}.

#[export] Instance over_the_net : Requesters (node answering) := {|
  rq_AnswerPending record req := fun n =>
    let a := n_rest n in
    let brought := an_brought a ++ [(tr_name record, ap_request_id req)] in
    (match an_reachable a with false :: _ => Some (errors_New "unreachable") | _ => None end,
     mk_node _ (n_vault n) (n_seen n) (n_load n) (n_gossip n) (mk_answering (an_asked a) brought (tail (an_reachable a)))) |}.

Definition commit : ApprovalRequest :=
  mk_ApprovalRequest "r1" (Some 0) None KIND_OPAQUE_SIGN None None 0 emp [] false None None
    (OpOpaqueSign (mk_OpaqueSignRequest 0 [] emp [])).
#[export] Instance one_commit : Codec ApprovalRequest | 0 := {| Marshal _ := Ok [x01]; Unmarshal _ := Ok commit |}.
#[export] Instance a_delegation : Codec Delegation | 0 := {| Marshal _ := Ok []; Unmarshal _ := Err (errors_New "none") |}.
#[export] Instance an_endorsement : Codec Endorsement | 0 := {| Marshal _ := Ok []; Unmarshal _ := Err (errors_New "none") |}.
#[export] Instance a_retraction : Codec Retraction | 0 := {| Marshal _ := Ok []; Unmarshal _ := Err (errors_New "none") |}.

Definition requester (name : string) : TrustRecord :=
  mk_TrustRecord ("SHA256:" +:+ name) name [] [] false true [] None false false emp None None.
Definition box : TrustRecord := requester "box".
Definition laptop : TrustRecord := requester "laptop".
Definition item : PendingApproval := mk_PendingApproval "r1" [x01] (Some 0) (Some Minute) [] false None.

Definition phone (reachable : list bool) : desk (P := answering) :=
  mk_desk (mk_collector ∅ (fun _ => 100) 0)
    (mk_node _ (mk_vault [] [] [] [] [box; laptop] [] (fun _ => 100) 0 (fun _ => None) 0) ∅ ∅ [] (mk_answering [] [] reachable)) [].

Abbreviation plays := (happens (P := answering) true false).
Definition outcome (d : desk (P := answering)) := (an_asked (n_rest (dk_node d)), an_brought (n_rest (dk_node d))).

End ToyCollect.

Import Toy ToyCollect.


(** Asked once, although the first delivery failed and two more polls offered
    the request: the answer is brought again, until it is heard. *)
Example brought_until_heard :
  outcome (plays [Polled box [item]; Moved 0; Moved 0; Polled box [item]; Moved 1; Polled box [item]] (phone [false]))
  = (["r1"], [("box", "r1"); ("box", "r1")])%string.
Proof. vm_compute. reflexivity. Qed.

(** The first delivery does not say that it is under way: a poll that comes
    back in the meantime starts another beside it. *)
Example two_deliveries_under_way :
  length (List.filter telling (dk_tasks (plays [Polled box [item]; Moved 0; Polled box [item]] (phone [])))) = 2%nat.
Proof. vm_compute. reflexivity. Qed.

(** What was handled is kept by the request alone: another requester that
    offers the same identifier is brought the answer the first one got, and
    its own request is put to nobody. *)
Example another_requester_gets_the_answer :
  outcome (plays [Polled box [item]; Moved 0; Polled laptop [item]; Moved 1] (phone []))
  = (["r1"], [("laptop", "r1")])%string.
Proof. vm_compute. reflexivity. Qed.
