(* ===== verification/Raise.v ===== *)
(** * Raise: the client side of a tunnel

    [tunnelPath] of [pkg/peer/raise.go]: one raised client to one peer, what is
    known about it, and the raises that run beside it.  A raise is started by
    [kick] and ends later ([raise_ends]), so that anything may happen between
    the two; a channel is a number, and a raised client is the number of the
    raw client it was built on. *)

From S2P Require Import Prelude.
From S2P Require Import GoText.
From S2P Require Import Proto.
From S2P Require Import Trust.

Local Open Scope Z_scope.
Local Open Scope ladulas_scope.

Record tunnelPath := mk_tunnelPath {
  tp_address : string;            (** empty without an offer to raise against *)
  tp_raw : option nat;
  tp_client : option nat;
  tp_raising : bool;
  tp_finished : option nat;
  tp_established : time;          (** the zero time while it is not *)
  tp_relayed : bool;
  tp_relay : string;
  tp_tainted : time;
  tp_fallback : string;
  tp_backoff : duration;
  tp_next : time;
  tp_lastErr : string;
  tp_reoffer : bool;
  tp_lastUsed : time;
  tp_closed : bool
}.

(** What [TunnelPathReport] says. *)
Record TunnelPathReport := mk_TunnelPathReport { tq_connected : bool; tq_relayed : bool; tq_relay : string }.

Record tunnelSnapshot := mk_tunnelSnapshot {
  ts_usable : bool;
  ts_up : bool;
  ts_preferred : bool;
  ts_relayed : bool;
  ts_finished : option nat
}.

(** What a raise came back with: the raw client, when one was made, and the
    pinned client over it with the far end's report. *)
Record attempted := mk_attempted { at_raw : option nat; at_result : result (nat * option TunnelPathReport) }.

(** The path, the raises under way, the channels and raw clients drawn, the
    channels and clients closed, and the clock. *)
Record raiser := mk_raiser {
  rg_path : tunnelPath;
  rg_running : list (string * nat);
  rg_channels : nat;
  rg_ended : list nat;
  rg_shut : list nat;
  rg_clock : nat -> time;
  rg_ticks : nat
}.

Definition on_path (f : tunnelPath -> tunnelPath) (r : raiser) : raiser :=
  mk_raiser (f (rg_path r)) (rg_running r) (rg_channels r) (rg_ended r) (rg_shut r) (rg_clock r) (rg_ticks r).

(** [time.Now]. *)
Definition rg_Now : state raiser time := fun r =>
  (rg_clock r (rg_ticks r),
   mk_raiser (rg_path r) (rg_running r) (rg_channels r) (rg_ended r) (rg_shut r) (rg_clock r) (S (rg_ticks r))).

Definition closeRaw (raw : option nat) : state raiser unit := modify (fun r =>
  match raw with
  | None => r
  | Some c => mk_raiser (rg_path r) (rg_running r) (rg_channels r) (rg_ended r) (rg_shut r ++ [c]) (rg_clock r) (rg_ticks r)
  end).

(** [close(finished)]. *)
Definition end_channel (c : nat) : state raiser unit := modify (fun r =>
  mk_raiser (rg_path r) (rg_running r) (rg_channels r) (rg_ended r ++ [c]) (rg_shut r) (rg_clock r) (rg_ticks r)).

(** ** The fields a step writes *)

Definition set_used (t : time) (p : tunnelPath) : tunnelPath :=
  mk_tunnelPath (tp_address p) (tp_raw p) (tp_client p) (tp_raising p) (tp_finished p) (tp_established p) (tp_relayed p)
    (tp_relay p) (tp_tainted p) (tp_fallback p) (tp_backoff p) (tp_next p) (tp_lastErr p) (tp_reoffer p) t (tp_closed p).
Definition set_address (a : string) (p : tunnelPath) : tunnelPath :=
  mk_tunnelPath a (tp_raw p) (tp_client p) (tp_raising p) (tp_finished p) (tp_established p) (tp_relayed p)
    (tp_relay p) (tp_tainted p) (tp_fallback p) (tp_backoff p) (tp_next p) (tp_lastErr p) (tp_reoffer p) (tp_lastUsed p) (tp_closed p).
Definition set_raising (b : bool) (f : option nat) (p : tunnelPath) : tunnelPath :=
  mk_tunnelPath (tp_address p) (tp_raw p) (tp_client p) b f (tp_established p) (tp_relayed p)
    (tp_relay p) (tp_tainted p) (tp_fallback p) (tp_backoff p) (tp_next p) (tp_lastErr p) (tp_reoffer p) (tp_lastUsed p) (tp_closed p).
Definition set_pace (backoff : duration) (next : time) (p : tunnelPath) : tunnelPath :=
  mk_tunnelPath (tp_address p) (tp_raw p) (tp_client p) (tp_raising p) (tp_finished p) (tp_established p) (tp_relayed p)
    (tp_relay p) (tp_tainted p) (tp_fallback p) backoff next (tp_lastErr p) (tp_reoffer p) (tp_lastUsed p) (tp_closed p).
Definition set_taint (tainted : time) (fallback : string) (p : tunnelPath) : tunnelPath :=
  mk_tunnelPath (tp_address p) (tp_raw p) (tp_client p) (tp_raising p) (tp_finished p) (tp_established p) (tp_relayed p)
    (tp_relay p) tainted fallback (tp_backoff p) (tp_next p) (tp_lastErr p) (tp_reoffer p) (tp_lastUsed p) (tp_closed p).
Definition set_lastErr (e : string) (p : tunnelPath) : tunnelPath :=
  mk_tunnelPath (tp_address p) (tp_raw p) (tp_client p) (tp_raising p) (tp_finished p) (tp_established p) (tp_relayed p)
    (tp_relay p) (tp_tainted p) (tp_fallback p) (tp_backoff p) (tp_next p) e (tp_reoffer p) (tp_lastUsed p) (tp_closed p).
Definition set_reoffer (b : bool) (p : tunnelPath) : tunnelPath :=
  mk_tunnelPath (tp_address p) (tp_raw p) (tp_client p) (tp_raising p) (tp_finished p) (tp_established p) (tp_relayed p)
    (tp_relay p) (tp_tainted p) (tp_fallback p) (tp_backoff p) (tp_next p) (tp_lastErr p) b (tp_lastUsed p) (tp_closed p).
Definition set_closed (p : tunnelPath) : tunnelPath :=
  mk_tunnelPath (tp_address p) (tp_raw p) (tp_client p) (tp_raising p) (tp_finished p) (tp_established p) (tp_relayed p)
    (tp_relay p) (tp_tainted p) (tp_fallback p) (tp_backoff p) (tp_next p) (tp_lastErr p) (tp_reoffer p) (tp_lastUsed p) true.
Definition set_up (raw client : option nat) (established : time) (p : tunnelPath) : tunnelPath :=
  mk_tunnelPath (tp_address p) raw client (tp_raising p) (tp_finished p) established (tp_relayed p)
    (tp_relay p) (tp_tainted p) (tp_fallback p) (tp_backoff p) (tp_next p) (tp_lastErr p) (tp_reoffer p) (tp_lastUsed p) (tp_closed p).
Definition set_relay (relayed : bool) (relay : string) (p : tunnelPath) : tunnelPath :=
  mk_tunnelPath (tp_address p) (tp_raw p) (tp_client p) (tp_raising p) (tp_finished p) (tp_established p) relayed
    relay (tp_tainted p) (tp_fallback p) (tp_backoff p) (tp_next p) (tp_lastErr p) (tp_reoffer p) (tp_lastUsed p) (tp_closed p).

Definition newTunnelPath (now : time) : tunnelPath :=
  mk_tunnelPath emp None None false None zero_time true emp zero_time emp 0 zero_time emp false now false.

(** [dropLocked]: the raw client it hands back, and the path without it. *)
Definition dropLocked (p : tunnelPath) : option nat * tunnelPath :=
  let p1 := set_relay true emp (set_up None None zero_time p) in
  (tp_raw p, if tp_raising p then set_raising false None p1 else p1).

Definition drop_client : state raiser (option nat) := fun r =>
  let '(stale, p) := dropLocked (rg_path r) in (stale, on_path (fun _ => p) r).

Definition learnLocked (report : option TunnelPathReport) (p : tunnelPath) : tunnelPath :=
  match report with
  | Some q => if tq_connected q then set_relay (tq_relayed q) (tq_relay q) p else p
  | None => p
  end.

(** What follows the last ": ", when something does. *)
Fixpoint after_last_colon (s : string) : option string :=
  match s with
  | EmptyString => None
  | String c s' =>
    match after_last_colon s' with
    | Some r => Some r
    | None => if bool_decide (c = ":"%char) then (match s' with String d r => if bool_decide (d = " "%char) then Some r else None
                                                 | EmptyString => None end)
              else None
    end
  end.

Definition tunnelReason (err : option error) : string :=
  match err with
  | None => "the tunnel stopped"
  | Some e =>
    match after_last_colon (e_msg e) with
    | Some (String c r) => String c r
    | _ => e_msg e
    end
  end.

(** ** Whether an offer can be raised against *)

(** What direct contacts have said about the peers' offers. *)
Record staleness := mk_staleness {
  st_contradicted : gmap string time;
  st_seen : gmap string time;
  st_stale : duration
}.

Definition tunnelContradictionGrace : duration := 10 * Minute.

Definition tunnelStaleFor (s : staleness) (now : time) (record : TrustRecord) : bool :=
  let seen := default zero_time (st_seen s !! tr_fingerprint record) in
  let updated := AsTime (tr_tunnel_updated_at record) in
  if bool_decide (tr_addresses record = []) then false
  else if match st_contradicted s !! tr_fingerprint record with
          | Some contradicted => tunnelContradictionGrace <? Sub now contradicted
          | None => false
          end then true
  else st_stale s <? Sub now (if After updated seen then updated else seen).

Definition raisable (ours : Z) (s : staleness) (now : time) (record : TrustRecord) : bool :=
  TunnelRaisable (tr_tunnel record) ours && negb (tunnelStaleFor s now record).

(** ** The operations *)

Section Tunnel.
(** The presence loop's floor and ceiling, and the configured dwell. *)
Variables (floor ceiling tunnelDwell : duration).

Definition DefaultTunnelDwell : duration := 3 * Minute.
Definition dwell : duration := if tunnelDwell <=? 0 then DefaultTunnelDwell else tunnelDwell.

Definition paced (backoff : duration) : duration := Z.min (Z.max (backoff * 2) floor) ceiling.

Definition forgiven (p : tunnelPath) : tunnelPath := set_pace 0 zero_time (set_taint zero_time emp p).

Definition snapshotLocked (now : time) (p : tunnelPath) : tunnelSnapshot * tunnelPath :=
  let up := negb (IsZero (tp_established p)) in
  let preferred := up && (IsZero (tp_tainted p) || (dwell <=? Sub now (tp_established p))) in
  (mk_tunnelSnapshot (bool_decide (tp_address p <> emp) && negb (tp_closed p)) up preferred (tp_relayed p)
     (if tp_raising p then tp_finished p else None),
   if preferred && negb (IsZero (tp_tainted p)) then forgiven p else p).

Definition snapshot : state raiser tunnelSnapshot :=
  now ← rg_Now;
  p ← gets rg_path;
  let '(snap, p) := snapshotLocked now p in
  _ ← modify (on_path (fun _ => p)); mret snap.

(** Whether [kick] starts a raise. *)
Definition may_raise (now : time) (p : tunnelPath) : bool :=
  negb (tp_closed p || bool_decide (tp_address p = emp) || tp_raising p || negb (IsZero (tp_established p)) || (now <? tp_next p)).

Definition kick : state raiser unit :=
  now ← rg_Now;
  modify (fun r =>
    let p := rg_path r in
    if negb (may_raise now p) then r
    else
      mk_raiser (set_raising true (Some (rg_channels r)) p) (rg_running r ++ [(tp_address p, rg_channels r)])
        (S (rg_channels r)) (rg_ended r) (rg_shut r) (rg_clock r) (rg_ticks r)).

Definition sync (ours : Z) (s : staleness) (record : TrustRecord) : state raiser unit :=
  now ← rg_Now;
  let wanted := if raisable ours s now record then (tr_tunnel record)⇢to_server_address else emp in
  closed ← gets (fun r => tp_closed (rg_path r));
  if (closed : bool) then mret tt
  else
    current ← gets (fun r => tp_address (rg_path r));
    _ ← (if bool_decide (wanted <> current) then
           stale ← drop_client;
           _ ← modify (on_path (fun p => set_lastErr emp (forgiven (set_address wanted p))));
           closeRaw stale
         else mret tt);
    kick.

(** The end of the raise that was started on channel [finished]. *)
Definition raise_ends (address : string) (finished : nat) (outcome : attempted) : state raiser unit :=
  _ ← modify (fun r => mk_raiser (rg_path r) (List.filter (fun x => negb (bool_decide (snd x = finished))) (rg_running r))
                         (rg_channels r) (rg_ended r) (rg_shut r) (rg_clock r) (rg_ticks r));
  p ← gets rg_path;
  if negb (bool_decide (tp_address p = address) && negb (tp_closed p) && bool_decide (tp_finished p = Some finished))
  then _ ← end_channel finished; closeRaw (at_raw outcome)
  else
    _ ← modify (on_path (fun p => set_raising false (tp_finished p) p));
    match at_result outcome with
    | Err e =>
      now ← rg_Now;
      _ ← modify (on_path (fun p =>
            let backoff := paced (tp_backoff p) in
            set_reoffer true (set_lastErr (e_msg e) (set_pace backoff (Add now backoff) p))));
      _ ← end_channel finished;
      closeRaw (at_raw outcome)
    | Ok (client, report) =>
      now ← rg_Now;
      _ ← modify (on_path (fun p => learnLocked report (set_lastErr emp (set_up (at_raw outcome) (Some client) now p))));
      end_channel finished
    end.

Definition establishedClient : state raiser (option nat) :=
  p ← gets rg_path;
  if IsZero (tp_established p) then mret None
  else now ← rg_Now; _ ← modify (on_path (set_used now)); mret (tp_client p).

Definition failed (err : option error) : state raiser unit :=
  p ← gets rg_path;
  if IsZero (tp_established p) then mret tt
  else
    stale ← drop_client;
    tainted ← rg_Now;
    now ← rg_Now;
    _ ← modify (on_path (fun p =>
          let backoff := paced (tp_backoff p) in
          set_reoffer true (set_pace backoff (Add now backoff) (set_taint tainted (tunnelReason err) p))));
    closeRaw stale.

Definition learn (report : option TunnelPathReport) : state raiser unit := modify (on_path (learnLocked report)).

Definition presence : state raiser unit :=
  _ ← modify (on_path (set_pace 0 zero_time)); kick.

Definition takeReoffer : state raiser bool :=
  want ← gets (fun r => tp_reoffer (rg_path r));
  _ ← modify (on_path (set_reoffer false)); mret want.

Definition word (p : tunnelPath) : string := TunnelPath (tp_relayed p) (tp_relay p).

Definition reapIfIdle (d : duration) : state raiser bool :=
  p ← gets rg_path;
  if tp_raising p || IsZero (tp_established p) then mret false
  else
    now ← rg_Now;
    if Sub now (tp_lastUsed p) <=? d then mret false
    else stale ← drop_client; _ ← closeRaw stale; mret true.

Definition reset : state raiser unit :=
  stale ← drop_client;
  _ ← modify (on_path (fun p => set_lastErr emp (forgiven (set_address emp p))));
  closeRaw stale.

Definition drop : state raiser unit :=
  stale ← drop_client;
  _ ← modify (on_path (fun p => set_lastErr emp (forgiven p)));
  closeRaw stale.

Definition close : state raiser unit :=
  stale ← drop_client;
  _ ← modify (on_path set_closed);
  closeRaw stale.

End Tunnel.

(** [attempt], from what the tunnel, the region rule, the raw client, its MEOW
    and the pinned Ping say. *)
Record surroundings := mk_surroundings {
  su_tunnel : bool;
  su_refused : string;
  su_Raise : result nat;
  su_pin : option error;
  su_MEOW : option error;
  su_Ping : result (option TunnelPathReport)
}.

Definition attempt (s : surroundings) : attempted :=
  if negb (su_tunnel s) then mk_attempted None (Err (errors_New "the tunnel is off here"))
  else if bool_decide (su_refused s <> emp) then mk_attempted None (Err (errors_New (su_refused s)))
  else
    match su_Raise s with
    | Err e => mk_attempted None (Err (wrap_w "raise a client: " e emp))
    | Ok raw =>
      mk_attempted (Some raw)
        (match su_pin s with
         | Some e => Err e
         | None =>
           match su_MEOW s with
           | Some e => Err (wrap_w "the tunnel server did not answer: " e emp)
           | None =>
             match su_Ping s with
             | Err e => Err (wrap_w "the pinned Ping through the tunnel failed: " e emp)
             | Ok report => Ok (raw, report)
             end
           end
         end)
    end.

(** [parseClientPath]. *)
Definition ClientPathDirect : string := "direct".
Definition ClientPathRelayed : string := "relayed".

Definition parseClientPath (path : string) : option TunnelPathReport :=
  if bool_decide (path = emp) then None
  else if bool_decide (path = ClientPathDirect) then Some (mk_TunnelPathReport true false emp)
  else Some (mk_TunnelPathReport true true (TrimSpace (TrimPrefix path ClientPathRelayed))).
