(* ===== verification/RaiseSpec.v ===== *)
(** * RaiseSpec: every raised client is held or closed

    The theorems about [Raise], over any order of calls, reports, failures and
    raises that end late: a client that was raised is the one in use or has
    been closed, and the one in use was raised against the address the peer
    offers now; a raise is paced; and a tunnel that failed in use is not
    preferred again before it has held. *)

From S2P Require Import Prelude.
From S2P Require Import GoText.
From S2P Require Import Proto.
From S2P Require Import Trust.
From S2P Require Import Raise.

Local Open Scope Z_scope.
Local Open Scope ladulas_scope.

Section Raising.
Context (floor ceiling tunnelDwell : duration) (ours : Z) (stale : staleness).

(** What can happen to a path; a raise that ends is one of those under way. *)
Inductive tunnel_event :=
| EvSync (record : TrustRecord) | EvKick | EvEnds (i : nat) (s : surroundings) | EvSnapshot | EvUse
| EvFailed (err : option error) | EvLearn (report : option TunnelPathReport) | EvPresence | EvReoffer
| EvReap (d : duration) | EvReset | EvDrop | EvClose.

Definition tunnel_step (ev : tunnel_event) (r : raiser) : raiser :=
  match ev with
  | EvSync record => (sync ours stale record r).2
  | EvKick => (kick r).2
  | EvEnds i s =>
    match rg_running r !! i with
    | Some (address, c) => (raise_ends floor ceiling address c (attempt s) r).2
    | None => r
    end
  | EvSnapshot => (snapshot tunnelDwell r).2
  | EvUse => (establishedClient r).2
  | EvFailed err => (failed floor ceiling err r).2
  | EvLearn report => (learn report r).2
  | EvPresence => (presence r).2
  | EvReoffer => (takeReoffer r).2
  | EvReap d => (reapIfIdle d r).2
  | EvReset => (reset r).2
  | EvDrop => (drop r).2
  | EvClose => (close r).2
  end.

(** The clients raises have made, each with the address it was raised against. *)
Definition made_by (ev : tunnel_event) (r : raiser) : list (string * nat) :=
  match ev with
  | EvEnds i s =>
    match rg_running r !! i, at_raw (attempt s) with Some (address, _), Some raw => [(address, raw)] | _, _ => [] end
  | _ => []
  end.

Definition tunnel_run (evs : list tunnel_event) (x : raiser * list (string * nat)) : raiser * list (string * nat) :=
  foldl (fun '(r, made) ev => (tunnel_step ev r, made ++ made_by ev r)) x evs.

Definition new_raiser (clock : nat -> time) (now : time) : raiser := mk_raiser (newTunnelPath now) [] 0 [] [] clock 0.

Definition held (r : raiser) : list nat := option_list (tp_raw (rg_path r)).

(** The path and the raises under way agree. *)
Record path_ok (r : raiser) : Prop := mk_path_ok {
  po_distinct : NoDup (map snd (rg_running r));
  po_drawn : Forall (fun x => (snd x < rg_channels r)%nat) (rg_running r);
  po_finished c : tp_finished (rg_path r) = Some c -> (c < rg_channels r)%nat;
  po_raising : tp_raising (rg_path r) = true ->
    IsZero (tp_established (rg_path r)) = true /\ tp_closed (rg_path r) = false /\ tp_address (rg_path r) <> emp;
  po_current a c : (a, c) ∈ rg_running r -> tp_finished (rg_path r) = Some c ->
    tp_raising (rg_path r) = true /\ a = tp_address (rg_path r);
  po_client : tp_client (rg_path r) = tp_raw (rg_path r);
  po_up : tp_raw (rg_path r) = None <-> IsZero (tp_established (rg_path r)) = true;
  po_usable : tp_closed (rg_path r) = true \/ tp_address (rg_path r) = emp -> tp_raw (rg_path r) = None
}.

(** Every client made is held or has been closed, and the one held was raised
    against the path's address. *)
Definition accounted (r : raiser) (made : list (string * nat)) : Prop :=
  map snd made ≡ₚ rg_shut r ++ held r /\
  forall raw, tp_raw (rg_path r) = Some raw -> (tp_address (rg_path r), raw) ∈ made.

Definition clock_runs (r : raiser) : Prop := forall k, IsZero (rg_clock r k) = false.

Definition tunnel_ok (x : raiser * list (string * nat)) : Prop := path_ok x.1 /\ accounted x.1 x.2 /\ clock_runs x.1.

(** A step that keeps what the raises look at. *)
Lemma tunnel_ok_same r r' made :
  tunnel_ok (r, made) -> rg_running r' = rg_running r -> rg_channels r' = rg_channels r -> rg_shut r' = rg_shut r ->
  rg_clock r' = rg_clock r ->
  tp_raising (rg_path r') = tp_raising (rg_path r) -> tp_finished (rg_path r') = tp_finished (rg_path r) ->
  tp_established (rg_path r') = tp_established (rg_path r) -> tp_closed (rg_path r') = tp_closed (rg_path r) ->
  tp_address (rg_path r') = tp_address (rg_path r) -> tp_raw (rg_path r') = tp_raw (rg_path r) ->
  tp_client (rg_path r') = tp_client (rg_path r) ->
  tunnel_ok (r', made).
Proof.
  destruct r as [[] ? ? ? ? ? ?], r' as [[] ? ? ? ? ? ?]. cbn. intros ([] & [Ha Hh] & Hc). cbn in *.
  intros. subst. split_and!; [by constructor|by split|done].
Qed.

(** The client let go of, whatever else is written. *)
Lemma tunnel_ok_dropped r r' made :
  tunnel_ok (r, made) -> rg_running r' = rg_running r -> rg_channels r' = rg_channels r ->
  rg_shut r' = rg_shut r ++ option_list (tp_raw (rg_path r)) -> rg_clock r' = rg_clock r ->
  tp_raising (rg_path r') = false ->
  tp_finished (rg_path r') = (if tp_raising (rg_path r) then None else tp_finished (rg_path r)) ->
  tp_established (rg_path r') = zero_time -> tp_raw (rg_path r') = None -> tp_client (rg_path r') = None ->
  tunnel_ok (r', made).
Proof.
  destruct r as [[] ? ? ? ? ? ?], r' as [[] ? ? ? ? ? ?]. cbn. intros ([] & [Ha Hh] & Hc). cbn in *.
  intros. subst. split_and!; [constructor|split|done]; cbn; try done.
  - destruct tp_raising; [done|auto].
  - intros a c Hin Hf. destruct tp_raising; [done|]. by destruct (po_current0 a c Hin Hf).
  - unfold held in *. cbn in *. by rewrite app_nil_r.
Qed.

Lemma kick_run r : kick r =
  let now := rg_clock r (rg_ticks r) in let p := rg_path r in
  (tt, if may_raise now p
       then mk_raiser (set_raising true (Some (rg_channels r)) p) (rg_running r ++ [(tp_address p, rg_channels r)])
              (S (rg_channels r)) (rg_ended r) (rg_shut r) (rg_clock r) (S (rg_ticks r))
       else mk_raiser p (rg_running r) (rg_channels r) (rg_ended r) (rg_shut r) (rg_clock r) (S (rg_ticks r))).
Proof. unfold kick, rg_Now, modify, mbind, state_bind. cbn. by destruct (may_raise _ _). Qed.

Lemma may_raise_true now p : may_raise now p = true ->
  tp_closed p = false /\ tp_address p <> emp /\ tp_raising p = false /\ IsZero (tp_established p) = true /\ tp_next p <= now.
Proof.
  unfold may_raise. destruct (tp_closed p), (tp_raising p), (IsZero (tp_established p)); case_bool_decide; cbn; try done.
  destruct (Z.ltb_spec now (tp_next p)); [done|]. intros _. split_and!; done.
Qed.

Lemma kick_ok r made : tunnel_ok (r, made) -> tunnel_ok ((kick r).2, made).
Proof.
  rewrite kick_run. cbv zeta. cbn [snd]. intros Hok. destruct (may_raise _ _) eqn:Hm.
  - apply may_raise_true in Hm as (Hcl & Hadr & _ & Hz & _). destruct r as [[] ? ? ? ? ? ?].
    destruct Hok as ([] & [Ha Hh] & Hc). cbn in *. split_and!; [constructor|by split|done]; cbn; try done.
    + rewrite map_app. apply NoDup_app. split_and!; [done| |apply NoDup_singleton].
      cbn. intros c Hin ->%list_elem_of_singleton. apply list_elem_of_fmap in Hin as ([a c] & -> & Hin).
      rewrite Forall_forall in po_drawn0. specialize (po_drawn0 _ Hin). cbn in *. lia.
    + apply Forall_app. split; [eapply Forall_impl; [exact po_drawn0|]; cbn; lia|]. by repeat constructor.
    + intros c [= <-]. lia.
    + intros a c Hin [= <-]. split; [done|]. apply elem_of_app in Hin as [Hin|Hin].
      * rewrite Forall_forall in po_drawn0. specialize (po_drawn0 _ Hin). cbn in *. lia.
      * by apply list_elem_of_singleton in Hin as [= ->].
  - apply (tunnel_ok_same _ _ _ Hok); done.
Qed.

Lemma attempt_made s client report : at_result (attempt s) = Ok (client, report) -> at_raw (attempt s) = Some client.
Proof.
  unfold attempt. destruct (su_tunnel s); [|done]. cbn. case_bool_decide; [done|].
  destruct (su_Raise s) as [raw|]; [|done]. cbn. destruct (su_pin s); [done|]. destruct (su_MEOW s); [done|].
  destruct (su_Ping s); [|done]. by intros [= -> _].
Qed.

Definition without (c : nat) (l : list (string * nat)) : list (string * nat) :=
  List.filter (fun x => negb (bool_decide (snd x = c))) l.

Lemma elem_of_without x c l : x ∈ without c l <-> x ∈ l /\ snd x <> c.
Proof. unfold without. rewrite elem_of_filter_bool. case_bool_decide; cbn; naive_solver. Qed.

Lemma without_distinct c l : NoDup (map snd l) -> NoDup (map snd (without c l)).
Proof.
  induction l as [|x l IH]; cbn; [done|]. intros [Hx Hl]%NoDup_cons. destruct (negb _); cbn; [|by apply IH].
  apply NoDup_cons. split; [|by apply IH]. intros Hin. apply Hx. apply list_elem_of_fmap in Hin as (y & -> & Hy).
  apply elem_of_without in Hy as [Hy _]. apply list_elem_of_fmap. by exists y.
Qed.

(** What a raise that ends leaves: given up, failed, or in use. *)
Lemma raise_ends_run address c o r :
  (raise_ends floor ceiling address c o r).2 =
  let p := rg_path r in
  let current := bool_decide (tp_address p = address) && negb (tp_closed p) && bool_decide (tp_finished p = Some c) in
  let now := rg_clock r (rg_ticks r) in
  let shut := rg_shut r ++ option_list (at_raw o) in
  if negb current then mk_raiser p (without c (rg_running r)) (rg_channels r) (rg_ended r ++ [c]) shut (rg_clock r) (rg_ticks r)
  else
    let p := set_raising false (tp_finished p) p in
    match at_result o with
    | Err e =>
      let backoff := paced floor ceiling (tp_backoff p) in
      mk_raiser (set_reoffer true (set_lastErr (e_msg e) (set_pace backoff (Add now backoff) p)))
        (without c (rg_running r)) (rg_channels r) (rg_ended r ++ [c]) shut (rg_clock r) (S (rg_ticks r))
    | Ok (client, report) =>
      mk_raiser (learnLocked report (set_lastErr emp (set_up (at_raw o) (Some client) now p)))
        (without c (rg_running r)) (rg_channels r) (rg_ended r ++ [c]) (rg_shut r) (rg_clock r) (S (rg_ticks r))
    end.
Proof.
  unfold raise_ends, without, modify, gets, end_channel, closeRaw, on_path, rg_Now, mbind, state_bind. cbn. destruct r as [p]; cbn.
  destruct (negb (_ && _)); cbn.
  - destruct (at_raw o); cbn; by rewrite ?app_nil_r.
  - destruct (at_result o) as [[client report]|e]; cbn; [done|]. destruct (at_raw o); cbn; by rewrite ?app_nil_r.
Qed.

Lemma learned report p : let p' := learnLocked report p in
  tp_raising p' = tp_raising p /\ tp_finished p' = tp_finished p /\ tp_established p' = tp_established p /\
  tp_closed p' = tp_closed p /\ tp_address p' = tp_address p /\ tp_raw p' = tp_raw p /\ tp_client p' = tp_client p.
Proof. destruct report as [q|]; [|done]. cbn. by destruct (tq_connected q). Qed.

Lemma ends_ok i s r made : tunnel_ok (r, made) -> tunnel_ok (tunnel_step (EvEnds i s) r, made ++ made_by (EvEnds i s) r).
Proof.
  intros Hok. cbn [tunnel_step made_by]. destruct (rg_running r !! i) as [[address c]|] eqn:Hi.
  2:{ by rewrite app_nil_r. }
  rewrite raise_ends_run. cbv zeta. apply list_elem_of_lookup_2 in Hi.
  assert (forall r', rg_running r' = without c (rg_running r) -> rg_channels r' = rg_channels r ->
    rg_shut r' = rg_shut r ++ option_list (at_raw (attempt s)) -> rg_clock r' = rg_clock r ->
    (tp_finished (rg_path r) = Some c -> tp_raising (rg_path r') = false) ->
    (tp_finished (rg_path r) <> Some c -> tp_raising (rg_path r') = tp_raising (rg_path r)) ->
    tp_finished (rg_path r') = tp_finished (rg_path r) -> tp_established (rg_path r') = tp_established (rg_path r) ->
    tp_closed (rg_path r') = tp_closed (rg_path r) -> tp_address (rg_path r') = tp_address (rg_path r) ->
    tp_raw (rg_path r') = tp_raw (rg_path r) -> tp_client (rg_path r') = tp_client (rg_path r) ->
    tunnel_ok (r', made ++ match at_raw (attempt s) with Some raw => [(address, raw)] | None => [] end)) as Hgone.
  { destruct r as [[] running ? ? ? ? ?]. destruct Hok as ([] & [Ha Hh] & Hc). intros [[] ? ? ? ? ? ?]. cbn in *. intros. subst.
    split_and!; [constructor|split|done]; cbn; try done.
    - by apply without_distinct.
    - apply Forall_forall. intros x [Hx _]%elem_of_without. by eapply Forall_forall in po_drawn0.
    - intros Hr. apply po_raising0. destruct (decide (tp_finished = Some c)) as [E|E]; [|by rewrite <- H4].
      by rewrite (H3 E) in Hr.
    - intros a c' [Hin Hne]%elem_of_without Hf. cbn in Hne. rewrite H4 by congruence. by eapply po_current0.
    - rewrite map_app, Ha. unfold held. cbn. destruct (at_raw (attempt s)); cbn; rewrite ?app_nil_r, <- ?app_assoc; [|done].
      f_equiv. apply Permutation_app_comm.
    - intros raw Hraw. apply elem_of_app. left. by apply Hh. }
  destruct (bool_decide_reflect (tp_address (rg_path r) = address)) as [Had|Had]; cbn [andb negb]; [|].
  2:{ apply Hgone; try done. intros Hf. destruct Hok as ([] & _). cbn in *. by destruct (po_current0 _ _ Hi Hf). }
  destruct (tp_closed (rg_path r)) eqn:Hcl; cbn [andb negb].
  { apply Hgone; try done. intros Hf. destruct Hok as ([] & _). cbn in *. destruct (po_current0 _ _ Hi Hf) as [Hr _].
    destruct (po_raising0 Hr) as (_ & ? & _). congruence. }
  destruct (bool_decide_reflect (tp_finished (rg_path r) = Some c)) as [Hf|Hf]; cbn [andb negb]; [|by apply Hgone].
  destruct (at_result (attempt s)) as [[client report]|e] eqn:Hres; [|by apply Hgone].
  rewrite (attempt_made s client report Hres). destruct (learned report
    (set_lastErr emp (set_up (Some client) (Some client) (rg_clock r (rg_ticks r)) (set_raising false (tp_finished (rg_path r)) (rg_path r)))))
    as (E1 & E2 & E3 & E4 & E5 & E6 & E7).
  destruct (learnLocked report _) as []. destruct r as [[] running ? ? ? ? ?]. destruct Hok as ([] & [Ha Hh] & Hc). cbn in *. subst.
  destruct (po_current0 _ _ Hi eq_refl) as [-> _]. destruct (po_raising0 eq_refl) as (Hz & _ & Hadr).
  split_and!; [constructor|split|done]; cbn; try done.
  - by apply without_distinct.
  - apply Forall_forall. intros x [Hx _]%elem_of_without. by eapply Forall_forall in po_drawn0.
  - intros a c' [Hin Hne]%elem_of_without [= <-]. done.
  - split; [done|]. by rewrite Hc.
  - by intros [?|?].
  - rewrite map_app, Ha. unfold held. cbn. apply po_up0 in Hz as ->. cbn. by rewrite app_nil_r.
  - intros raw [= <-]. apply elem_of_app. right. by apply list_elem_of_singleton.
Qed.

Lemma let_go_run (f : tunnelPath -> tunnelPath) r :
  (stale ← drop_client; _ ← modify (on_path f); closeRaw stale) r =
  (tt, mk_raiser (f (dropLocked (rg_path r)).2) (rg_running r) (rg_channels r) (rg_ended r)
         (rg_shut r ++ option_list (tp_raw (rg_path r))) (rg_clock r) (rg_ticks r)).
Proof.
  destruct r as [p running ch ended shut clk tk]. unfold drop_client, on_path, modify, closeRaw, mbind, state_bind. cbn.
  destruct (tp_raw p); cbn; by rewrite ?app_nil_r.
Qed.

Lemma let_go_ok (f : tunnelPath -> tunnelPath) r made : tunnel_ok (r, made) ->
  (forall p, tp_raising (f p) = tp_raising p /\ tp_finished (f p) = tp_finished p /\ tp_established (f p) = tp_established p /\
     tp_raw (f p) = tp_raw p /\ tp_client (f p) = tp_client p) ->
  tunnel_ok (((stale ← drop_client; _ ← modify (on_path f); closeRaw stale) r).2, made).
Proof.
  intros Hok Hf. rewrite let_go_run. cbn [snd]. destruct (Hf (dropLocked (rg_path r)).2) as (E1 & E2 & E3 & E4 & E5).
  apply (tunnel_ok_dropped _ _ _ Hok); cbn [rg_running rg_channels rg_shut rg_clock rg_path]; try done;
    rewrite ?E1, ?E2, ?E3, ?E4, ?E5; unfold dropLocked; destruct (tp_raising (rg_path r)) eqn:Hr; try done.
Qed.

Lemma sync_ok record r made : tunnel_ok (r, made) -> tunnel_ok ((sync ours stale record r).2, made).
Proof.
  intros Hok. unfold sync. rewrite state_bind_unfold. cbn [rg_Now fst snd]. rewrite state_bind_unfold. cbn [gets fst snd rg_path].
  set (wanted := if raisable _ _ _ _ then _ else _). set (r1 := mk_raiser _ _ _ _ _ _ _).
  assert (tunnel_ok (r1, made)) as Hok1 by (by apply (tunnel_ok_same _ _ _ Hok)).
  destruct (tp_closed (rg_path r)); [done|]. rewrite state_bind_unfold. cbn [gets fst snd].
  rewrite state_bind_unfold. apply kick_ok. case_bool_decide; [|done].
  by apply let_go_ok.
Qed.

Lemma snapshot_run r :
  let x := snapshotLocked tunnelDwell (rg_clock r (rg_ticks r)) (rg_path r) in
  snapshot tunnelDwell r =
  (x.1, mk_raiser x.2 (rg_running r) (rg_channels r) (rg_ended r) (rg_shut r) (rg_clock r) (S (rg_ticks r))).
Proof. done. Qed.

Lemma tunnel_step_ok ev r made : tunnel_ok (r, made) -> tunnel_ok (tunnel_step ev r, made ++ made_by ev r).
Proof.
  intros Hok. destruct ev as [record| |i s| | |err|report| | |d| | |]; [|..]; try (by apply ends_ok);
    cbn [made_by tunnel_step]; rewrite app_nil_r.
  - by apply sync_ok.
  - by apply kick_ok.
  - rewrite snapshot_run. cbn [snd]. apply (tunnel_ok_same _ _ _ Hok); try done; cbn [rg_path snapshotLocked snd]; by case_match.
  - unfold establishedClient, gets, rg_Now, modify, mbind, state_bind. cbn. destruct (IsZero _); [done|].
    apply (tunnel_ok_same _ _ _ Hok); done.
  - unfold failed. rewrite state_bind_unfold. cbn [gets fst snd]. destruct (IsZero _); [done|].
    apply (tunnel_ok_dropped _ _ _ Hok); unfold drop_client, rg_Now, on_path, modify, closeRaw, mbind, state_bind; cbn;
      destruct (tp_raw (rg_path r)), (tp_raising (rg_path r)) eqn:Hr; cbn; rewrite ?app_nil_r; done.
  - destruct (learned report (rg_path r)) as (E1 & E2 & E3 & E4 & E5 & E6 & E7). by apply (tunnel_ok_same _ _ _ Hok).
  - unfold presence. rewrite state_bind_unfold. apply kick_ok. by apply (tunnel_ok_same _ _ _ Hok).
  - by apply (tunnel_ok_same _ _ _ Hok).
  - unfold reapIfIdle. rewrite state_bind_unfold. cbn [gets fst snd]. destruct (tp_raising _ || _) eqn:Hr; [done|].
    apply orb_false_iff in Hr as [Hr _]. rewrite state_bind_unfold. cbn [rg_Now fst snd].
    case_match; [by apply (tunnel_ok_same _ _ _ Hok)|].
    apply (tunnel_ok_dropped _ _ _ Hok); unfold drop_client, on_path, modify, closeRaw, mbind, state_bind; cbn;
      rewrite ?Hr; destruct (tp_raw (rg_path r)); cbn; rewrite ?app_nil_r; done.
  - by apply let_go_ok.
  - by apply let_go_ok.
  - by apply let_go_ok.
Qed.

Lemma new_ok clock now : (forall k, IsZero (clock k) = false) -> tunnel_ok (new_raiser clock now, []).
Proof.
  intros Hc. split_and!; [constructor|split|exact Hc]; cbn; try done; try constructor.
Qed.

Lemma tunnel_run_ok evs x : tunnel_ok x -> tunnel_ok (tunnel_run evs x).
Proof.
  unfold tunnel_run. revert x. induction evs as [|ev evs IH]; intros [r made] Hok; [done|]. cbn [foldl]. by apply IH, tunnel_step_ok.
Qed.

(** No raised client is lost, and none is used
    past its address.  Whatever happens to a path, in whatever order - the
    peer's offer changing, calls that use or fail the tunnel, raises that end
    long after they were given up - the clients its raises have made are,
    each exactly as often as it was made, the one the path holds and those
    that have been closed; the one it holds was raised against the address the
    path has now; and a path that is closed, or has nothing to raise against,
    holds none. *)
Theorem raised_clients_accounted evs clock now :
  (forall k, IsZero (clock k) = false) ->
  let '(r, made) := tunnel_run evs (new_raiser clock now, []) in
  map snd made ≡ₚ rg_shut r ++ held r /\
  (forall raw, tp_raw (rg_path r) = Some raw -> (tp_address (rg_path r), raw) ∈ made) /\
  (tp_closed (rg_path r) = true \/ tp_address (rg_path r) = emp -> held r = []).
Proof.
  intros Hc. pose proof (tunnel_run_ok evs _ (new_ok clock now Hc)) as Hok. destruct (tunnel_run _ _) as [r made].
  destruct Hok as ([] & [Ha Hh] & _). cbn in *. split_and!; [done|done|]. intros Hu. unfold held. by rewrite po_usable0.
Qed.

(** ** A tunnel that failed in use *)

(** The events that leave the offer and the path as they are. *)
Definition in_service (ev : tunnel_event) : bool :=
  match ev with EvSync _ | EvReset | EvDrop | EvClose => false | _ => true end.

(** Between two readings the dwell went by. *)
Definition dwelt (k0 : nat) (r : raiser) : Prop :=
  exists k1 k2, (k0 <= k1)%nat /\ (k2 <= rg_ticks r)%nat /\ dwell tunnelDwell <= Sub (rg_clock r k2) (rg_clock r k1).

Definition held_back (k0 : nat) (r : raiser) : Prop :=
  (IsZero (tp_tainted (rg_path r)) = false /\
   (IsZero (tp_established (rg_path r)) = true \/ exists k1, (k0 <= k1)%nat /\ tp_established (rg_path r) = rg_clock r k1)) \/
  dwelt k0 r.

Lemma held_back_same k0 r r' : held_back k0 r -> rg_clock r' = rg_clock r -> (rg_ticks r <= rg_ticks r')%nat ->
  tp_tainted (rg_path r') = tp_tainted (rg_path r) ->
  (tp_established (rg_path r') = tp_established (rg_path r) \/ tp_established (rg_path r') = zero_time) ->
  held_back k0 r'.
Proof.
  intros [[Ht He]|(k1 & k2 & H1 & H2 & H3)] Ec Et Eta Ee.
  - left. rewrite Eta. split; [done|]. destruct Ee as [-> | ->]; [|by left]. by rewrite Ec.
  - right. exists k1, k2. rewrite Ec. split_and!; [done|lia|done].
Qed.

Lemma held_back_snapshot k0 r : held_back k0 r -> held_back k0 (snapshot tunnelDwell r).2.
Proof.
  intros Hh. rewrite snapshot_run. cbn [snd snapshotLocked].
  destruct (_ && _) eqn:Hp; [|by apply (held_back_same _ _ _ Hh); cbn; auto].
  apply andb_prop in Hp as [Hp Ht]. apply negb_true_iff in Ht. rewrite Ht in Hp. cbn [orb] in Hp.
  apply andb_prop in Hp as [Hup Hd]. apply negb_true_iff in Hup. apply Z.leb_le in Hd.
  destruct Hh as [[_ [He|(k1 & Hk & He)]]|(k1 & k2 & H1 & H2 & H3)]; [congruence| |].
  - right. exists k1, (rg_ticks r). cbn. rewrite <- He. auto.
  - right. exists k1, k2. cbn. auto.
Qed.

Ltac same_step Hh :=
  split_and!; [apply (held_back_same _ _ _ Hh)|..]; cbn; first [done | lia | by left | by right | idtac].

Lemma held_back_step k0 ev r : clock_runs r -> (k0 <= rg_ticks r)%nat -> in_service ev = true ->
  held_back k0 r ->
  held_back k0 (tunnel_step ev r) /\ rg_clock (tunnel_step ev r) = rg_clock r /\ (rg_ticks r <= rg_ticks (tunnel_step ev r))%nat.
Proof.
  intros Hc Hk Hev Hh. destruct ev as [record| |i s| | |err|report| | |d| | |]; try done; cbn [tunnel_step].
  - rewrite kick_run. cbv zeta. destruct (may_raise _ _); same_step Hh.
  - destruct (rg_running r !! i) as [[address c]|]; [|done]. rewrite raise_ends_run. cbv zeta.
    destruct (negb _); [same_step Hh|].
    destruct (at_result _) as [[client report]|e]; [|same_step Hh].
    split_and!; cbn; [|done|lia]. destruct Hh as [[Ht He]|(k1 & k2 & H1 & H2 & H3)].
    + left. cbn. split; [by destruct report as [[[] ? ?]|]|]. right. exists (rg_ticks r). split; [done|].
      by destruct report as [[[] ? ?]|].
    + right. exists k1, k2. cbn. auto.
  - split_and!; [by apply held_back_snapshot|..]; rewrite snapshot_run; cbn; auto.
  - unfold establishedClient, gets, rg_Now, modify, mbind, state_bind. cbn. destruct (IsZero _); [done|].
    same_step Hh.
  - unfold failed. rewrite state_bind_unfold. cbn [gets fst snd]. destruct (IsZero (tp_established _)); [done|].
    unfold drop_client, rg_Now, on_path, modify, closeRaw, mbind, state_bind. cbn.
    destruct (tp_raw (rg_path r)), (tp_raising (rg_path r)); cbn; (split_and!; [|done|lia]);
      left; cbn; (split; [apply Hc|by left]).
  - same_step Hh; destruct report as [[[] ? ?]|]; auto.
  - unfold presence. rewrite state_bind_unfold, kick_run. cbv zeta. cbn [modify fst snd].
    destruct (may_raise _ _); same_step Hh.
  - unfold reapIfIdle. rewrite state_bind_unfold. cbn [gets fst snd]. destruct (tp_raising _ || _); [done|].
    rewrite state_bind_unfold. cbn [rg_Now fst snd]. case_match; [same_step Hh|].
    unfold drop_client, on_path, modify, closeRaw, mbind, state_bind. cbn.
    destruct (tp_raw (rg_path r)), (tp_raising (rg_path r)); cbn; same_step Hh.
Qed.

Lemma held_back_run k0 evs r made : clock_runs r -> (k0 <= rg_ticks r)%nat -> forallb in_service evs = true ->
  held_back k0 r -> held_back k0 (tunnel_run evs (r, made)).1.
Proof.
  unfold tunnel_run. revert r made. induction evs as [|ev evs IH]; intros r made Hc Hk Hevs Hh; [done|].
  cbn in Hevs. apply andb_prop in Hevs as [Hev Hevs]. cbn [foldl].
  destruct (held_back_step k0 ev r Hc Hk Hev Hh) as (Hh' & Ec & Et). apply IH; try done; [|lia].
  intros k. rewrite Ec. apply Hc.
Qed.

(** A tunnel that failed in use does not drag
    traffic back and forth.  When a tunnel that was up fails, then - as long
    as the peer's offer stays and the path is not reset - no snapshot says it
    is preferred before a time at least as long as the dwell has gone by
    since the failure: however often it is raised again in between, whatever
    the far end reports, and however the peer's presence comes and goes. *)
Theorem failed_tunnel_held_back evs err r :
  clock_runs r -> IsZero (tp_established (rg_path r)) = false -> forallb in_service evs = true ->
  let r0 := tunnel_step (EvFailed err) r in
  let r1 := (tunnel_run evs (r0, [])).1 in
  ts_preferred (snapshot tunnelDwell r1).1 = true ->
  exists k1 k2, (rg_ticks r0 <= k1)%nat /\ (k2 <= rg_ticks r1)%nat /\ dwell tunnelDwell <= Sub (rg_clock r1 k2) (rg_clock r1 k1).
Proof.
  cbv zeta. intros Hc Hup Hevs. set (r0 := tunnel_step (EvFailed err) r).
  assert (rg_clock r0 = rg_clock r /\ IsZero (tp_tainted (rg_path r0)) = false /\ IsZero (tp_established (rg_path r0)) = true)
    as (Ec & Ht & He).
  { subst r0. cbn [tunnel_step]. unfold failed. rewrite state_bind_unfold. cbn [gets fst snd]. rewrite Hup.
    unfold drop_client, rg_Now, on_path, modify, closeRaw, mbind, state_bind. cbn.
    destruct (tp_raw (rg_path r)), (tp_raising (rg_path r)); cbn; auto. }
  assert (clock_runs r0) as Hc0 by (intros k; rewrite Ec; apply Hc).
  assert (held_back (rg_ticks r0) (tunnel_run evs (r0, [])).1) as Hh
    by (apply held_back_run; try done; left; auto).
  set (r1 := (tunnel_run evs (r0, [])).1) in *. rewrite snapshot_run. cbn [fst snapshotLocked ts_preferred]. intros Hp.
  destruct Hh as [[Ht1 He1]|(k1 & k2 & H1 & H2 & H3)]; [|by exists k1, k2].
  rewrite Ht1 in Hp. cbn [orb] in Hp. apply andb_prop in Hp as [Hup1 Hd]. apply Z.leb_le in Hd.
  destruct He1 as [He1|(k1 & Hk & He1)]; [by rewrite He1 in Hup1|]. exists k1, (rg_ticks r1). by rewrite <- He1.
Qed.

(** ** The pace of the raises *)

Lemma step_backoff ev r : let b := tp_backoff (rg_path r) in let b' := tp_backoff (rg_path (tunnel_step ev r)) in
  b' = b \/ b' = 0 \/ b' = paced floor ceiling b.
Proof.
  cbv zeta. destruct ev as [record| |i s| | |err|report| | |d| | |]; cbn [tunnel_step]; try (by left).
  - unfold sync. rewrite state_bind_unfold. cbn [rg_Now fst snd]. rewrite state_bind_unfold. cbn [gets fst snd rg_path].
    destruct (tp_closed (rg_path r)); [by left|]. rewrite state_bind_unfold. cbn [gets fst snd].
    rewrite state_bind_unfold, kick_run. cbv zeta. case_bool_decide.
    + rewrite let_go_run. cbn. destruct (may_raise _ _); by auto.
    + cbn. destruct (may_raise _ _); by auto.
  - rewrite kick_run. cbv zeta. destruct (may_raise _ _); by left.
  - destruct (rg_running r !! i) as [[address c]|]; [|by left]. rewrite raise_ends_run. cbv zeta.
    destruct (negb _); [by left|]. destruct (at_result _) as [[client report]|e]; [|by auto].
    left. by destruct report as [[[] ? ?]|].
  - rewrite snapshot_run. cbn. case_match; by auto.
  - unfold establishedClient, gets, rg_Now, modify, mbind, state_bind. cbn. destruct (IsZero _); by left.
  - unfold failed. rewrite state_bind_unfold. cbn [gets fst snd]. destruct (IsZero (tp_established _)); [by left|].
    unfold drop_client, rg_Now, on_path, modify, closeRaw, mbind, state_bind. cbn.
    destruct (tp_raw (rg_path r)), (tp_raising (rg_path r)); cbn; by auto.
  - left. by destruct report as [[[] ? ?]|].
  - unfold presence. rewrite state_bind_unfold, kick_run. cbv zeta. cbn. destruct (may_raise _ _); by auto.
  - left. unfold reapIfIdle. rewrite state_bind_unfold. cbn [gets fst snd]. destruct (tp_raising _ || _); [done|].
    rewrite state_bind_unfold. cbn [rg_Now fst snd]. case_match; [done|].
    unfold drop_client, on_path, modify, closeRaw, mbind, state_bind. cbn.
    by destruct (tp_raw (rg_path r)), (tp_raising (rg_path r)).
  - unfold reset. rewrite let_go_run. cbn. by auto.
  - unfold drop. rewrite let_go_run. cbn. by auto.
  - unfold close. rewrite let_go_run. cbn. destruct (tp_raising _); by left.
Qed.

Lemma paced_bounds b : floor <= ceiling -> floor <= paced floor ceiling b <= ceiling.
Proof. unfold paced. lia. Qed.

(** The backoff stays within the presence loop's floor
    and ceiling, and nothing is raised before it is over: for whatever
    happens to a path, it is either none or at least the floor and at most the
    ceiling; and a kick starts a raise only when there is an offer, none is up
    or under way, and the time the last failure set has come. *)
Theorem raises_are_paced evs clock now : 0 < floor <= ceiling ->
  let r := (tunnel_run evs (new_raiser clock now, [])).1 in
  (tp_backoff (rg_path r) = 0 \/ floor <= tp_backoff (rg_path r) <= ceiling) /\
  (rg_running (kick r).2 <> rg_running r ->
     tp_next (rg_path r) <= rg_clock r (rg_ticks r) /\ tp_raising (rg_path r) = false /\
     IsZero (tp_established (rg_path r)) = true /\ tp_address (rg_path r) <> emp /\ tp_closed (rg_path r) = false).
Proof.
  intros Hf. cbv zeta. split.
  - assert (forall x, (tp_backoff (rg_path x.1) = 0 \/ floor <= tp_backoff (rg_path x.1) <= ceiling) ->
      let r := (tunnel_run evs x).1 in tp_backoff (rg_path r) = 0 \/ floor <= tp_backoff (rg_path r) <= ceiling) as Hrun.
    { unfold tunnel_run. induction evs as [|ev evs IH]; intros [r made] Hb; [done|]. cbn [foldl]. apply IH. cbn [fst] in *.
      pose proof (paced_bounds (tp_backoff (rg_path r)) (proj2 Hf)). destruct (step_backoff ev r) as [-> |[-> | ->]]; auto. }
    apply Hrun. by left.
  - set (r := (tunnel_run evs _).1). rewrite kick_run. cbv zeta. cbn [snd]. destruct (may_raise _ _) eqn:Hm; [|done].
    apply may_raise_true in Hm. tauto.
Qed.

End Raising.

(** ** Cases *)

Module ToyTunnel.

Definition offer (address : string) : TunnelOffer := mk_TunnelOffer [1] address [x01].
Definition peer (address : string) : TrustRecord :=
  mk_TrustRecord "SHA256:p" "desk" [] [] true true [] None false false emp (Some (offer address)) (Some 100).
Definition fresh : staleness := mk_staleness ∅ ∅ Hour.

(** A minute between any two readings. *)
Definition minutes (k : nat) : time := (100 + Z.of_nat k) * Minute.
Definition answers (raw : nat) : surroundings := mk_surroundings true emp (Ok raw) None None (Ok (Some (mk_TunnelPathReport true false emp))).
Definition silent (raw : nat) : surroundings :=
  mk_surroundings true emp (Ok raw) None (Some (errors_New "tunnel: read: timed out")) (Ok None).

Definition step := tunnel_step Second Minute (3 * Minute) 1 fresh.
Definition run := tunnel_run Second Minute (3 * Minute) 1 fresh.
Definition start : raiser := new_raiser minutes 0.

(** The raise against the first address ends after the peer moved to another. *)
Definition moved : list tunnel_event :=
  [EvSync (peer "a"); EvSync (peer "b"); EvEnds 0 (answers 7); EvEnds 0 (answers 8)].

Definition raised : raiser := (run [EvSync (peer "a"); EvEnds 0 (answers 7)] (start, [])).1.
Definition again : list tunnel_event := [EvKick; EvEnds 0 (answers 8); EvSnapshot; EvSnapshot; EvSnapshot].

End ToyTunnel.

Import ToyTunnel.

Lemma minutes_run k : IsZero (minutes k) = false.
Proof. apply Z.eqb_neq. unfold minutes, zero_time, Minute, Second. lia. Qed.

Lemma raised_clients_accounted_witness :
  let '(r, made) := run moved (start, []) in
  made = [("a", 7%nat); ("b", 8%nat)]%string /\ rg_shut r = [7%nat] /\ held r = [8%nat] /\ map snd made ≡ₚ rg_shut r ++ held r.
Proof.
  pose proof (raised_clients_accounted Second Minute (3 * Minute) 1 fresh moved minutes 0 minutes_run) as H.
  change (tunnel_run _ _ _ _ _ moved _) with (run moved (start, [])) in H.
  destruct (run moved (start, [])) as [r made] eqn:E. destruct H as [H _].
  assert (made = (run moved (start, [])).2 /\ r = (run moved (start, [])).1) as [-> ->] by (by rewrite E).
  split_and!; [vm_compute; reflexivity..|exact H].
Defined.

Lemma failed_tunnel_held_back_witness :
  let r0 := step (EvFailed None) raised in
  let r1 := (run again (r0, [])).1 in
  exists k1 k2, (rg_ticks r0 <= k1)%nat /\ (k2 <= rg_ticks r1)%nat /\ dwell (3 * Minute) <= Sub (rg_clock r1 k2) (rg_clock r1 k1).
Proof.
  refine (failed_tunnel_held_back Second Minute (3 * Minute) 1 fresh again None raised _ _ _ _).
  - exact minutes_run.
  - vm_compute. reflexivity.
  - reflexivity.
  - vm_compute. reflexivity.
Defined.

Lemma raises_are_paced_witness :
  let r := (run [EvSync (peer "a"); EvEnds 0 (silent 7)] (start, [])).1 in
  tp_backoff (rg_path r) = 0 \/ Second <= tp_backoff (rg_path r) <= Minute.
Proof.
  refine (proj1 (raises_are_paced Second Minute (3 * Minute) 1 fresh [EvSync (peer "a"); EvEnds 0 (silent 7)] minutes 0 _)).
  unfold Minute, Second. lia.
Defined.

(** Raises that failed before the tunnel first came up are not forgiven when
    it has held for the dwell: only a failure in use is, so a tunnel that has
    been up and preferred for an hour still has the backoff of its first
    minutes. *)
Example backoff_outlives_the_dwell :
  let r := (run ([EvSync (peer "a"); EvEnds 0 (silent 7); EvKick; EvEnds 0 (silent 8); EvKick; EvEnds 0 (answers 9)]
                 ++ replicate 60 EvUse) (start, [])).1 in
  (ts_preferred (snapshot (3 * Minute) r).1, tp_backoff (rg_path (snapshot (3 * Minute) r).2)) = (true, 2 * Second) /\
  tp_backoff (rg_path (step (EvFailed None) r)) = 4 * Second.
Proof. vm_compute. done. Qed.

Example reason_of_a_failure :
  (tunnelReason (Some (errors_New "peer: reach the tunnel: timed out")), tunnelReason (Some (errors_New "gone: ")), tunnelReason None)
  = ("timed out", "gone: ", "the tunnel stopped")%string.
Proof. vm_compute. reflexivity. Qed.
