(* ===== verification/Paths.v ===== *)
(** * Paths: which way a call to a peer goes

    [pkg/peer/path.go], [route.go] and [dial.go]: the routes and targets, the
    order a call tries them in ([onPath], and [arrange] with its race), the
    call itself ([callOver]), and what is remembered of the route it took - by
    a link ([link.go]) and by a dialer ([dialer.go]).  A link's or a dialer's
    targets share one direct client and one tunnel, so a target is its route;
    the tunnel is the [raiser] of [Raise].

    An error that [errors.As] finds a type in has the type's name among what
    it is: "transport.TunnelError", "net.DNSError", "net.Error". *)

From S2P Require Import Prelude.
From S2P Require Import GoText.
From S2P Require Import Proto.
From S2P Require Import Rpc.
From S2P Require Import Trust.
From S2P Require Import Raise.

Local Open Scope Z_scope.
Local Open Scope ladulas_scope.

Inductive pathKind := pathNone | pathDirect | pathTunnel.

#[export] Instance pathKind_eq_dec : EqDecision pathKind.
Proof. solve_decision. Defined.

Definition path_word (k : pathKind) : string :=
  match k with pathDirect => PathDirect | pathTunnel => PathTunnelDirect | pathNone => emp end.

Record route := mk_route { rt_kind : pathKind; rt_address : string }.

#[export] Instance route_eq_dec : EqDecision route.
Proof. solve_decision. Defined.

Definition direct (address : string) : route := mk_route pathDirect address.
Definition tunnelRoute : route := mk_route pathTunnel emp.
Definition no_route : route := mk_route pathNone emp.

(** [directTargets], and [tunnelTarget] of a tunnel there is or is not. *)
Definition directTargets (addresses : list string) : list route := map direct addresses.
Definition tunnelTarget (tunnel : bool) : list route := if tunnel then [tunnelRoute] else [].

Definition target_String (t : route) : string :=
  if bool_decide (rt_kind t = pathTunnel) then "the tunnel" else rt_address t.

(** ** The order *)

Definition promote (targets : list route) (address : string) : list route :=
  if bool_decide (address = emp) then targets
  else
    let winner t := bool_decide (rt_kind t = pathDirect) && bool_decide (rt_address t = address) in
    List.filter winner targets ++ List.filter (fun t => negb (winner t)) targets.

Definition reachableFirst (first : string) (addresses : list string) : list string :=
  if (Z.of_nat (length addresses) <? 2) || bool_decide (first = emp) then addresses
  else first :: List.filter (fun a => negb (bool_decide (a = first))) addresses.

(** [raceDirect], with the address the probe found. *)
Definition raceDirect (winner : string) (direct : list route) : list route :=
  if Z.of_nat (length direct) <? 2 then direct else promote direct winner.

(** [tunnel] says whether there is a tunnel; its snapshot is empty without. *)
Definition no_snapshot : tunnelSnapshot := mk_tunnelSnapshot false false false false None.

Definition onPath (current : pathKind) (tunnel : bool) (snap : tunnelSnapshot) (direct : list route) : list route :=
  if bool_decide (current = pathTunnel) then tunnelTarget tunnel ++ direct
  else if ts_preferred snap && negb (ts_relayed snap) then tunnelTarget tunnel ++ direct
  else if ts_usable snap then direct ++ tunnelTarget tunnel
  else direct.

(** What the race waits for: the probe's answer, the end of the raise under
    way, the end of the window, the caller giving up; with the snapshot taken
    then. *)
Inductive race_event :=
| Probed (winner : string) (snap : tunnelSnapshot)
| Finished (snap : tunnelSnapshot)
| WindowClosed (snap : tunnelSnapshot)
| GaveUp.

(** The loop; [None] while it is still waiting.  The probe answers once, and
    a raise that has ended is not waited for again. *)
Fixpoint race (direct : list route) (finished probeDone : bool) (evs : list race_event) : option (list route) :=
  let tunnelFirst := tunnelRoute :: direct in
  let directFirst winner := promote direct winner ++ [tunnelRoute] in
  match evs with
  | [] => None
  | Probed winner snap :: rest =>
    if probeDone then race direct finished probeDone rest
    else if bool_decide (winner <> emp) then Some (directFirst winner)
    else if ts_up snap then Some tunnelFirst
    else if negb finished then Some (directFirst emp)
    else race direct finished true rest
  | Finished snap :: rest =>
    if negb finished then race direct finished probeDone rest
    else if ts_up snap && ts_preferred snap && negb (ts_relayed snap) then Some tunnelFirst
    else if ts_up snap && probeDone then Some tunnelFirst
    else if negb (ts_up snap) && probeDone then Some (directFirst emp)
    else race direct false probeDone rest
  | WindowClosed snap :: _ => Some (if ts_up snap && probeDone then tunnelFirst else directFirst emp)
  | GaveUp :: _ => Some (directFirst emp)
  end.

(** [arrange], with the snapshot taken first, the one after [kick], what the
    direct race would find, and what happens during the race. *)
Definition arrange (snap kicked : tunnelSnapshot) (first : string) (direct : list route) (evs : list race_event) : option (list route) :=
  if negb (ts_usable snap) then Some (raceDirect first direct)
  else if ts_preferred snap && negb (ts_relayed snap) then Some (tunnelRoute :: direct)
  else race direct (bool_decide (is_Some (ts_finished kicked))) false evs.

(** ** The call *)

Definition errors_As (e : error) (type : string) : bool := bool_decide (type ∈ e_is e).

Definition ErrNoAddress : error := sentinel "peer.ErrNoAddress" "peer: the peer advertises no address".
Definition ErrSelfAddress : error := sentinel "transport.ErrSelfAddress" "transport: that address is this instance".
Definition ErrUnknownPeer : error := sentinel "transport.ErrUnknownPeer" "transport: the peer is not the expected identity".
Definition errTunnelDown : error := sentinel "peer.errTunnelDown" "the tunnel is not up".
Definition TunnelError (e : error) : error := mk_error ("through the tunnel: " +:+ e_msg e) ("transport.TunnelError"%string :: e_is e).

(** One of the sentinels is in the tree. *)
Definition is_one_of (e : error) (names : list string) : bool := existsb (fun n => errors_As e n) names.

Definition transportFailure (e : rpc_error) : bool :=
  is_one_of (re_err e) ["transport.TunnelError"; "net.Error"; "context.DeadlineExceeded"; "io.EOF"; "io.ErrUnexpectedEOF"]%string ||
  bool_decide (re_code e = CodeUnavailable \/ re_code e = CodeDeadlineExceeded).

Definition failureRank (e : error) : Z :=
  if errors_Is e ErrUnknownPeer then 5
  else
    let rank :=
      if errors_As e "net.DNSError" then 1
      else if is_one_of e ["syscall.ECONNREFUSED"; "syscall.EHOSTUNREACH"; "syscall.ENETUNREACH"; "context.DeadlineExceeded";
                           "os.ErrDeadlineExceeded"; "peer.errTunnelDown"]%string then 2
      else 4 in
    if errors_As e "transport.TunnelError" && (rank <? 3) then 3 else rank.

Section Call.
Context {W : Type}.
Variables (floor ceiling : duration).
(** The call on a target that resolved, and [ctx.Err() != nil]. *)
Variables (fn : route -> state (raiser * W) (option rpc_error)) (gave_up : raiser * W -> bool).

Definition resolve (t : route) : state (raiser * W) (option error) :=
  if negb (bool_decide (rt_kind t = pathTunnel)) then mret None
  else
    client ← here establishedClient;
    mret (match client with None => Some (TunnelError errTunnelDown) | Some _ => None end).

(** The failure to report so far with its rank, how many targets failed, and
    how many turned out to be this instance. *)
Record failures := mk_failures { fa_best : option (error * Z); fa_attempted : Z; fa_ourselves : Z }.

(** A failure of one target. *)
Definition weigh (t : route) (err : error) (f : failures) : failures :=
  if errors_Is err ErrSelfAddress then mk_failures (fa_best f) (fa_attempted f) (fa_ourselves f + 1)
  else
    let err := if bool_decide (rt_kind t = pathTunnel) && negb (errors_As err "transport.TunnelError") then TunnelError err else err in
    let rank := failureRank err in
    let better := match fa_best f with None => true | Some (_, bestRank) => bestRank <=? rank end in
    mk_failures (if better then Some (wrap_w ("peer: reach " +:+ target_String t +:+ ": ") err emp, rank) else fa_best f)
      (fa_attempted f + 1) (fa_ourselves f).

Definition report (f : failures) : error :=
  match fa_best f with
  | Some (best, _) =>
    if 1 <? fa_attempted f then wrap_w emp best (" (" +:+ itoa (fa_attempted f - 1) +:+ " more paths also failed)") else best
  | None =>
    if 0 <? fa_ourselves f
    then wrap_w "peer: every address recorded for this peer is one of ours, so it was never dialled: " ErrSelfAddress emp
    else ErrNoAddress
  end.

(** [many] is [len(targets) > 1]. *)
Fixpoint try_targets (many : bool) (targets : list route) (f : failures) : state (raiser * W) (route * option error) :=
  match targets with
  | [] => mret (no_route, Some (report f))
  | t :: rest =>
    down ← resolve t;
    let failing err :=
      stop ← gets gave_up;
      if (stop : bool) then mret (no_route, Some err) else try_targets many rest (weigh t err f) in
    match down with
    | Some err => if many then try_targets many rest f else failing err
    | None =>
      answer ← fn t;
      match answer with
      | None => mret (t, None)
      | Some e =>
        stop ← gets gave_up;
        _ ← (if bool_decide (rt_kind t = pathTunnel) && negb stop && transportFailure e
             then here (Raise.failed floor ceiling (Some (rpc_as_error e))) else mret tt);
        failing (rpc_as_error e)
      end
    end
  end.

Definition callOver (targets : list route) : state (raiser * W) (route * option error) :=
  if bool_decide (targets = []) then mret (no_route, Some ErrNoAddress)
  else try_targets (1 <? Z.of_nat (length targets)) targets (mk_failures None 0 0).

End Call.

(** ** What a link remembers *)

(** The fields of [link] its calls and its presence stream write. *)
Record line := mk_line {
  ln_addresses : list string;     (** the record's *)
  ln_preferred : string;
  ln_unverified : bool;
  ln_path : pathKind;
  ln_misses : Z;
  ln_online : bool;
  ln_lastErr : string;
  ln_lastSeen : time;
  ln_offered : list KeyRef
}.

Definition new_line (addresses : list string) : line := mk_line addresses emp false pathNone 0 false emp zero_time [].

Definition directAddress (l : line) : string := if ln_unverified l then emp else ln_preferred l.
Definition currentPath (l : line) : pathKind := if ln_online l then ln_path l else pathNone.

Definition addresses (l : line) : list string :=
  let first := directAddress l in
  (if bool_decide (first <> emp) then [first] else []) ++ List.filter (fun a => negb (bool_decide (a = first))) (ln_addresses l).

Definition presenceMisses : Z := 3.
Definition presenceOrder (l : line) : list string :=
  if bool_decide (ln_preferred l <> emp) && negb (ln_unverified l) && (ln_misses l <? presenceMisses)
  then [ln_preferred l] else addresses l.

(** [reached], and whether the link came up with it. *)
Definition reached (now : time) (via : route) (l : line) : bool * line :=
  let isDirect := bool_decide (rt_kind via = pathDirect) in
  (negb (ln_online l),
   mk_line (ln_addresses l) (if isDirect then rt_address via else ln_preferred l) (negb isDirect) (rt_kind via) 0 true emp now
     (ln_offered l)).

Definition called (now : time) (via : route) (l : line) : bool * line :=
  if bool_decide (rt_kind via = pathNone) then (false, l)
  else if ln_online l then
    let isDirect := bool_decide (rt_kind via = pathDirect) in
    (false, mk_line (ln_addresses l) (if isDirect then rt_address via else ln_preferred l)
              (if isDirect then false else ln_unverified l) (ln_path l) 0 true (ln_lastErr l) now (ln_offered l))
  else reached now via l.

Definition link_failed (err : option error) (l : line) : line :=
  mk_line (ln_addresses l) (ln_preferred l) (ln_unverified l) pathNone (ln_misses l + 1) false
    (match err with Some e => e_msg e | None => ln_lastErr l end) (ln_lastSeen l) [].

Definition update (record : TrustRecord) (l : line) : line :=
  mk_line (tr_addresses record) (ln_preferred l) (ln_unverified l) (ln_path l) (ln_misses l) (ln_online l) (ln_lastErr l)
    (ln_lastSeen l) (ln_offered l).

(** [targets] of a link; [raced] is what [arrange] gives when it is down. *)
Definition link_targets (snap : tunnelSnapshot) (raced : list route) (l : line) : list route :=
  if bool_decide (currentPath l <> pathNone) then onPath (currentPath l) true snap (directTargets (addresses l)) else raced.

(** [better], with what the probe of the addresses finds. *)
Definition better (current : route) (snap : tunnelSnapshot) (probe : string) : option route :=
  match rt_kind current with
  | pathDirect => if ts_up snap && ts_preferred snap && negb (ts_relayed snap) then Some tunnelRoute else None
  | pathTunnel => if ts_up snap && ts_relayed snap && bool_decide (probe <> emp) then Some (direct probe) else None
  | pathNone => None
  end.

(** The targets [fallback] tries after a path broke. *)
Definition fallback_targets (broken : route) (snap : tunnelSnapshot) (l : line) : list route :=
  match rt_kind broken with
  | pathTunnel => directTargets (addresses l)
  | pathDirect => if ts_up snap then [tunnelRoute] else []
  | pathNone => []
  end.

(** ** What a dialer remembers *)

Record dialer := mk_dialer { di_preferred : string; di_onTunnel : bool; di_checked : time }.

Definition rememberRoute (via : route) (d : dialer) : dialer :=
  mk_dialer (if bool_decide (rt_kind via = pathDirect) then rt_address via else emp) (bool_decide (rt_kind via = pathTunnel)) (di_checked d).
Definition dialer_forget (d : dialer) : dialer := mk_dialer emp false (di_checked d).

(** [order], with what the race of the addresses gives. *)
Definition order (race : list string -> list string) (addresses : list string) (d : dialer) : list string :=
  if bool_decide (di_preferred d = emp) then race addresses
  else if bool_decide (di_preferred d ∈ addresses)
  then di_preferred d :: List.filter (fun a => negb (bool_decide (a = di_preferred d))) addresses
  else race addresses.

(** [targets] of a dialer: the tunnel's snapshot before and after it was asked
    again ([None] when it did not answer), and what [arrange] gives. *)
Definition dialer_targets (now heartbeat : time) (tunnel : bool) (snap : tunnelSnapshot) (refreshed : option tunnelSnapshot)
    (addresses : list string) (raced : list route) (d : dialer) : list route * dialer :=
  let direct := directTargets addresses in
  let recent := Sub now (di_checked d) <? heartbeat in
  let checked := mk_dialer (di_preferred d) (di_onTunnel d) now in
  if di_onTunnel d && ts_up snap && recent then (onPath pathTunnel tunnel snap direct, d)
  else if di_onTunnel d && ts_up snap then
    match refreshed with
    | Some snap' => if negb (ts_relayed snap') then (onPath pathTunnel tunnel snap' direct, checked) else (raced, checked)
    | None => (raced, checked)
    end
  else if bool_decide (di_preferred d <> emp) && bool_decide (di_preferred d ∈ addresses)
  then (onPath pathDirect tunnel snap (promote direct (di_preferred d)), d)
  else (raced, checked).
