(* ===== verification/PathsSpec.v ===== *)
(** * PathsSpec: what is tried, and what is reported

    The theorems about [Paths]: the order in which a race leaves the ways to a
    peer loses none of them and respects the precedence, and a call tries them
    in that order, at most once each, until one works - and otherwise reports
    the failure that got furthest. *)

From S2P Require Import Prelude.
From S2P Require Import Rules.
From S2P Require Import GoText.
From S2P Require Import Proto.
From S2P Require Import Rpc.
From S2P Require Import Trust.
From S2P Require Import Raise.
From S2P Require Import Paths.

Local Open Scope Z_scope.
Local Open Scope ladulas_scope.

(** ** The order *)

Lemma filter_both {A} (p : A -> bool) l : List.filter p l ++ List.filter (fun x => negb (p x)) l ≡ₚ l.
Proof.
  induction l as [|x l IH]; cbn; [done|]. destruct (p x); cbn; [by rewrite IH|].
  by rewrite <- Permutation_middle, IH.
Qed.

Lemma promote_perm l a : promote l a ≡ₚ l.
Proof. unfold promote. case_bool_decide; [done|]. apply filter_both. Qed.

Definition directs (l : list route) : Prop := Forall (fun t => rt_kind t = pathDirect) l.

(** The events of a race in which the probe found nothing. *)
Definition nothing_direct (evs : list race_event) : Prop := exists snap, Probed emp snap ∈ evs.

(** A tunnel that was seen up, and punched and preferred. *)
Definition punched (snap : tunnelSnapshot) : Prop := ts_preferred snap = true /\ ts_relayed snap = false.
Definition seen (evs : list race_event) (snap : tunnelSnapshot) : Prop :=
  exists w, Probed w snap ∈ evs \/ Finished snap ∈ evs \/ WindowClosed snap ∈ evs.

Lemma seen_cons ev evs snap : seen evs snap -> seen (ev :: evs) snap.
Proof. intros (w & Hs). exists w. rewrite !elem_of_cons. tauto. Qed.

Lemma race_spec direct finished probeDone evs l :
  race direct finished probeDone evs = Some l ->
  (exists winner, l = promote direct winner ++ [tunnelRoute]) \/
  (l = tunnelRoute :: direct /\ exists snap, seen evs snap /\ ts_up snap = true /\
     (punched snap \/ probeDone = true \/ nothing_direct evs)).
Proof.
  assert (forall ev evs (b : bool), b = true \/ nothing_direct evs -> b = true \/ nothing_direct (ev :: evs)) as Hmore.
  { intros ev evs' b [?|[s Hs]]; [by left|right]. exists s. rewrite elem_of_cons. tauto. }
  revert finished probeDone. induction evs as [|ev evs IH]; intros finished probeDone; cbn [race]; [done|].
  assert (forall f p, race direct f p evs = Some l -> (p = true -> probeDone = true \/ nothing_direct (ev :: evs)) ->
    (exists winner, l = promote direct winner ++ [tunnelRoute]) \/
    (l = tunnelRoute :: direct /\ exists snap, seen (ev :: evs) snap /\ ts_up snap = true /\
       (punched snap \/ probeDone = true \/ nothing_direct (ev :: evs)))) as Hgo.
  { intros f p Hr Hp. destruct (IH f p Hr) as [?|(-> & snap & Hs & Hu & Hd)]; [by left|right]. split; [done|].
    exists snap. split_and!; [by apply seen_cons|done|]. destruct Hd as [?|[Hd|[s Hs']]]; [by left|right; by apply Hp|].
    right; right. exists s. rewrite elem_of_cons. tauto. }
  destruct ev as [winner snap|snap|snap|].
  - destruct probeDone; [intros Hr; apply (Hgo _ _ Hr); auto|]. case_bool_decide as Hw; [by intros [= <-]; left; eexists|].
    assert (nothing_direct (Probed winner snap :: evs)) as Hn.
    { subst winner. exists snap. by left. }
    destruct (ts_up snap) eqn:Hu.
    { intros [= <-]. right. split; [done|]. exists snap. split_and!; [|done|by auto]. exists winner. left. by left. }
    destruct finished; cbn [negb]; [|by intros [= <-]; left; eexists]. intros Hr. apply (Hgo _ _ Hr). auto.
  - destruct finished; cbn [negb]; [|intros Hr; apply (Hgo _ _ Hr); auto].
    assert (seen (Finished snap :: evs) snap) as Hs by (exists emp; right; left; by left).
    destruct (ts_up snap) eqn:Hu; cbn [andb negb].
    + destruct (ts_preferred snap && negb (ts_relayed snap)) eqn:Hp.
      { apply andb_prop in Hp as [Hp Hr]. apply negb_true_iff in Hr. intros [= <-]. right. split; [done|].
        exists snap. split_and!; try done. by left. }
      destruct probeDone; [|intros Hr; apply (Hgo _ _ Hr); auto]. intros [= <-]. right. split; [done|]. exists snap. auto.
    + destruct probeDone; [by intros [= <-]; left; eexists|]. intros Hr. apply (Hgo _ _ Hr). auto.
  - destruct (ts_up snap) eqn:Hu; cbn [andb]; [|by intros [= <-]; left; eexists].
    destruct probeDone; [|by intros [= <-]; left; eexists]. intros [= <-]. right. split; [done|]. exists snap.
    split_and!; [|done|by auto]. exists emp. right; right. by left.
  - intros [= <-]. left. by eexists.
Qed.

(** The race ends when its window does. *)
Lemma race_ends direct finished probeDone evs :
  (exists snap, WindowClosed snap ∈ evs) \/ GaveUp ∈ evs -> is_Some (race direct finished probeDone evs).
Proof.
  revert finished probeDone. induction evs as [|ev evs IH]; intros finished probeDone Hev.
  { destruct Hev as [[s Hs]|Hs]; by apply elem_of_nil in Hs. }
  cbn [race]. destruct ev as [winner snap|snap|snap|]; [| |by eexists|by eexists].
  - assert (forall f p, is_Some (race direct f p evs)) as Hgo.
    { intros f p. apply IH. destruct Hev as [[s Hs]|Hs]; [left; exists s|right]; by apply elem_of_cons in Hs as [?|?]. }
    repeat case_match; by eauto.
  - assert (forall f p, is_Some (race direct f p evs)) as Hgo.
    { intros f p. apply IH. destruct Hev as [[s Hs]|Hs]; [left; exists s|right]; by apply elem_of_cons in Hs as [?|?]. }
    repeat case_match; by eauto.
Qed.

(** The order a call without an established path tries its
    ways in.  However the probe, the raise and the window come in, the race
    ends when its window does, and then: nothing is left out, the direct
    addresses are all there and the tunnel as well exactly when there is one
    to raise; the tunnel is put first only when it was seen up and either
    punched and preferred or with every direct address silent - a relayed
    tunnel, or one on probation, never goes before an address that answered;
    and an address that answers while nothing is decided goes first. *)
Theorem arrange_order snap kicked first direct evs :
  directs direct ->
  ((exists s, WindowClosed s ∈ evs) \/ GaveUp ∈ evs -> is_Some (arrange snap kicked first direct evs)) /\
  (forall l, arrange snap kicked first direct evs = Some l ->
     l ≡ₚ direct ++ (if ts_usable snap then [tunnelRoute] else []) /\
     (head l = Some tunnelRoute -> direct <> [] ->
        punched snap \/ exists s, seen evs s /\ ts_up s = true /\ (punched s \/ nothing_direct evs))) /\
  (forall before winner s after,
     evs = before ++ Probed winner s :: after -> winner <> emp -> ts_usable snap = true -> ~ punched snap ->
     Forall (fun ev => match ev with Finished s => ts_up s = true -> ~ punched s | _ => False end) before ->
     arrange snap kicked first direct evs = Some (promote direct winner ++ [tunnelRoute])).
Proof.
  intros Hd. unfold arrange. split_and!.
  - intros Hev. destruct (negb _); [by eexists|]. destruct (_ && _); [by eexists|]. by apply race_ends.
  - intros l. destruct (ts_usable snap); cbn [negb].
    2:{ intros [= <-]. rewrite app_nil_r. split.
        - unfold raceDirect. case_match; [done|]. apply promote_perm.
        - intros Hh Hne. exfalso.
          assert (tunnelRoute ∈ direct) as Hin.
          { rewrite <- (promote_perm direct first). unfold raceDirect in Hh. case_match.
            - rewrite promote_perm. by apply head_Some_elem_of.
            - by apply head_Some_elem_of. }
          unfold directs in Hd. rewrite Forall_forall in Hd. by specialize (Hd _ Hin). }
    destruct (ts_preferred snap && negb (ts_relayed snap)) eqn:Hp.
    { intros [= <-]. split; [by rewrite <- Permutation_cons_append|]. intros _ _. left.
      apply andb_prop in Hp as [? ?]. split; [done|]. by apply negb_true_iff. }
    intros Hr. destruct (race_spec _ _ _ _ _ Hr) as [[w ->]|(-> & s & Hs & Hu & Hw)].
    + split; [by rewrite promote_perm|]. intros Hh Hne. exfalso.
      assert (tunnelRoute ∈ direct) as Hin.
      { rewrite <- (promote_perm direct w). destruct (promote direct w) as [|x l'] eqn:E.
        - exfalso. apply Hne. pose proof (promote_perm direct w) as Hpp. rewrite E in Hpp. symmetry. by apply Permutation_nil_l.
        - cbn in Hh. injection Hh as ->. by left. }
      unfold directs in Hd. rewrite Forall_forall in Hd. by specialize (Hd _ Hin).
    + split; [by rewrite <- Permutation_cons_append|]. intros _ _. right. exists s. split_and!; try done.
      destruct Hw as [?|[?|?]]; auto. done.
  - intros before winner s after -> Hw -> Hnp Hb. cbn [negb].
    destruct (ts_preferred snap && negb (ts_relayed snap)) eqn:Hp.
    { apply andb_prop in Hp as [? Hr]. destruct Hnp. split; [done|]. by apply negb_true_iff. }
    generalize (bool_decide (is_Some (ts_finished kicked))). induction Hb as [|ev before Hev Hb IH]; intros f; cbn [app race].
    { by rewrite bool_decide_true. }
    destruct ev as [| s0 | |]; try done. rewrite !andb_false_r. destruct f; cbn [negb]; [|by apply IH].
    destruct (ts_up s0 && ts_preferred s0 && negb (ts_relayed s0)) eqn:Hs0; [|by apply IH].
    apply andb_prop in Hs0 as [Hs0 Hr]. apply andb_prop in Hs0 as [Hu Hpr]. destruct (Hev Hu). split; [done|]. by apply negb_true_iff.
Qed.

(** ** The call *)

(** A failure as it is ranked and reported. *)
Definition dressed (t : route) (e : error) : error :=
  if bool_decide (rt_kind t = pathTunnel) && negb (errors_As e "transport.TunnelError") then TunnelError e else e.
Definition reach (t : route) (e : error) : error := wrap_w ("peer: reach " +:+ target_String t +:+ ": ") (dressed t e) emp.

(** The failures that are not this instance answering itself. *)
Definition real (fails : list (route * error)) : list (route * error) :=
  List.filter (fun x => negb (errors_Is x.2 ErrSelfAddress)) fails.

Lemma weigh_all fails : let f := foldl (fun f x => weigh x.1 x.2 f) (mk_failures None 0 0) fails in
  fa_attempted f = Z.of_nat (length (real fails)) /\
  fa_ourselves f = Z.of_nat (length fails - length (real fails)) /\
  match fa_best f with
  | None => real fails = []
  | Some (best, rank) => exists t e, (t, e) ∈ real fails /\ best = reach t e /\ rank = failureRank (dressed t e) /\
      forall t' e', (t', e') ∈ real fails -> failureRank (dressed t' e') <= rank
  end.
Proof.
  cbv zeta. induction fails as [|[t e] fails IH] using rev_ind; [done|].
  rewrite foldl_app. cbn [foldl fst snd]. set (f := foldl _ _ fails) in *. destruct IH as (Ha & Ho & Hb).
  assert (length (real fails) <= length fails)%nat as Hle by apply List.filter_length_le.
  unfold real. rewrite List.filter_app, !length_app. fold (real fails). cbn [List.filter snd length]. unfold weigh.
  destruct (errors_Is e ErrSelfAddress) eqn:Hs; cbn [fa_attempted fa_ourselves fa_best negb length].
  { rewrite app_nil_r. split_and!; [lia|lia|done]. }
  split_and!; [lia|lia|]. fold (dressed t e). fold (reach t e).
  destruct (fa_best f) as [[best rank]|].
  - destruct Hb as (t0 & e0 & Hin & -> & -> & Hmax). destruct (Z.leb_spec (failureRank (dressed t0 e0)) (failureRank (dressed t e))).
    + exists t, e. split_and!; [apply elem_of_app; right; by left|done|done|].
      intros t' e' [Hin'|[= -> ->]%list_elem_of_singleton]%elem_of_app; [|lia]. specialize (Hmax _ _ Hin'). lia.
    + exists t0, e0. split_and!; [apply elem_of_app; by left|done|done|].
      intros t' e' [Hin'|[= -> ->]%list_elem_of_singleton]%elem_of_app; [by apply Hmax|lia].
  - exists t, e. split_and!; [apply elem_of_app; right; by left|done|done|].
    intros t' e' [Hin'|[= -> ->]%list_elem_of_singleton]%elem_of_app; [|lia]. rewrite Hb in Hin'. by apply elem_of_nil in Hin'.
Qed.

(** What is reported is the failure that got furthest, with the number of the
    others; or that every address is one of this instance's own. *)
Definition reported (fails : list (route * error)) (err : error) : Prop :=
  (real fails = [] /\ fails = [] /\ err = ErrNoAddress) \/
  (real fails = [] /\ fails <> [] /\ errors_Is err ErrSelfAddress = true) \/
  (exists t e, (t, e) ∈ real fails /\
     (forall t' e', (t', e') ∈ real fails -> failureRank (dressed t' e') <= failureRank (dressed t e)) /\
     err = wrap_w emp (reach t e) (match Z.of_nat (length (real fails)) - 1 with
                                   | 0 => emp | n => " (" +:+ itoa n +:+ " more paths also failed)" end)).

Lemma wrap_nothing e : wrap_w emp e emp = e.
Proof.
  destruct e as [msg l]. unfold wrap_w. f_equal. change (msg +:+ emp = msg). induction msg as [|c msg IH]; [done|].
  change (String c (msg +:+ emp) = String c msg). by rewrite IH.
Qed.

Lemma report_spec fails :
  reported fails (report (foldl (fun f x => weigh x.1 x.2 f) (mk_failures None 0 0) fails)).
Proof.
  destruct (weigh_all fails) as (Ha & Ho & Hb). set (f := foldl _ _ fails) in *. unfold report, reported.
  destruct (fa_best f) as [[best rank]|].
  - right; right. destruct Hb as (t & e & Hin & -> & -> & Hmax). exists t, e. split_and!; try done. rewrite Ha.
    assert (0 < length (real fails))%nat by (destruct (real fails); [by apply elem_of_nil in Hin|cbn; lia]).
    destruct (Z.ltb_spec 1 (Z.of_nat (length (real fails)))) as [Hlt|Hge].
    + destruct (Z.of_nat (length (real fails)) - 1) eqn:E; [lia|done|done].
    + replace (Z.of_nat (length (real fails)) - 1) with 0 by lia. by rewrite wrap_nothing.
  - rewrite Hb in Ho. cbn in Ho. destruct fails as [|x fails']; [by left|]. right; left. split_and!; [done|done|].
    rewrite Ho. cbn [length]. destruct (Z.ltb_spec 0 (Z.of_nat (S (length fails') - 0))); [|lia]. vm_compute. done.
Qed.

Section Call.
Context {W : Type} (floor ceiling : duration) (fn : route -> state (raiser * W) (option rpc_error)) (gave_up : raiser * W -> bool).

(** The call, with what it was answered written down. *)
Definition logged (t : route) : state (raiser * (W * list (route * option rpc_error))) (option rpc_error) := fun '(r, (w, log)) =>
  let '(answer, (r', w')) := fn t (r, w) in (answer, (r', (w', log ++ [(t, answer)]))).
Definition gave_up_logged (x : raiser * (W * list (route * option rpc_error))) : bool := gave_up (x.1, x.2.1).

(** How a call over these targets went. *)
Definition went (targets : list route) (tried : list (route * option rpc_error)) (via : route) (err : option error) : Prop :=
  map fst tried `sublist_of` targets /\
  match err with
  | None => exists before, tried = before ++ [(via, None)] /\ Forall (fun x => is_Some x.2) before
  | Some e => via = no_route /\ Forall (fun x => is_Some x.2) tried
  end.

(** The failures are what the paths answered, and a tunnel that was down. *)
Definition failed_with (targets : list route) (fails : list (route * error)) (tried : list (route * option rpc_error)) : Prop :=
  (forall t e, (t, Some e) ∈ tried -> (t, rpc_as_error e) ∈ fails) /\
  (forall t x, (t, x) ∈ fails -> (exists e, (t, Some e) ∈ tried /\ x = rpc_as_error e) \/ (t ∈ targets /\ x = TunnelError errTunnelDown)).

Lemma failed_with_none targets : failed_with targets [] [].
Proof. by split; intros ? ? ?%elem_of_nil. Qed.
Lemma failed_with_called t e targets fails tried : failed_with targets fails tried ->
  failed_with (t :: targets) ((t, rpc_as_error e) :: fails) ((t, Some e) :: tried).
Proof.
  intros [Hf Hg]. split.
  - intros t' e' [[= -> ->]|Hin]%elem_of_cons; [by left|right; by apply Hf].
  - intros t' x [[= -> ->]|Hin]%elem_of_cons; [left; exists e; split; [by left|done]|].
    destruct (Hg _ _ Hin) as [(e' & ? & ?)|[? ?]]; [left; exists e'; split; [by right|done]|right; split; [by right|done]].
Qed.
Lemma failed_with_skipped t targets fails tried : failed_with targets fails tried -> failed_with (t :: targets) fails tried.
Proof. intros [Hf Hg]. split; [done|]. intros t' x Hin. destruct (Hg _ _ Hin) as [?|[? ?]]; [by left|right; split; [by right|done]]. Qed.
Lemma failed_with_down t targets fails tried : failed_with targets fails tried ->
  failed_with (t :: targets) ((t, TunnelError errTunnelDown) :: fails) tried.
Proof.
  intros Hw. apply (failed_with_skipped t) in Hw as [Hf Hg]. split.
  - intros t' e Hin. right. by apply Hf.
  - intros t' x [[= -> ->]|Hin]%elem_of_cons; [right; split; [by left|done]|by apply Hg].
Qed.

Lemma resolve_run {V} t (s : raiser * V) : exists r', resolve t s = ((resolve t s).1, (r', s.2)) /\
  ((resolve t s).1 = None \/ (resolve t s).1 = Some (TunnelError errTunnelDown)).
Proof.
  destruct s as [r w]. unfold resolve. case_bool_decide; cbn [negb].
  - rewrite state_bind_unfold. cbn [here]. destruct (establishedClient r) as [[c|] r']; cbn; exists r'; auto.
  - exists r. cbn. auto.
Qed.

Lemma logged_run t r w log : let x := fn t (r, w) in logged t (r, (w, log)) = (x.1, (x.2.1, (x.2.2, log ++ [(t, x.1)]))).
Proof. unfold logged. by destruct (fn t (r, w)) as [a [r' w']]. Qed.

Lemma try_targets_went many targets f r w log :
  let '((via, err), (r', (w', log'))) := try_targets floor ceiling logged gave_up_logged many targets f (r, (w, log)) in
  exists tried, log' = log ++ tried /\ went targets tried via err /\
    ((forall x, gave_up x = false) -> forall e, err = Some e ->
      exists fails, failed_with targets fails tried /\ e = report (foldl (fun f x => weigh x.1 x.2 f) f fails) /\
        (fails = [] -> tried = [] /\ (many = true \/ targets = []))).
Proof.
  revert f r w log. induction targets as [|t rest IH]; intros f r w log.
  { cbn. exists []. rewrite app_nil_r. split; [done|split; [split; [constructor|by split; [|constructor]]|]].
    intros _ e [= <-]. exists []. split_and!; [apply failed_with_none|done|by auto]. }
  cbn [try_targets]. rewrite state_bind_unfold.
  destruct (resolve_run t (r, (w, log))) as (r1 & -> & [-> | ->]); cbn [fst snd].
  - rewrite state_bind_unfold, logged_run. destruct (fn t (r1, w)) as [[e|] [r2 w2]]; cbn [fst snd].
    2:{ cbn. exists [(t, None)]. split; [done|split; [split|by intros _ ? [=]]].
        - cbn. apply sublist_skip, sublist_nil_l.
        - exists []. by split; [|constructor]. }
    rewrite state_bind_unfold. cbn [gets fst snd]. rewrite state_bind_unfold.
    set (torn := (if (_ && _ && _)%bool then _ else _)). assert (exists r3, torn (r2, (w2, log ++ [(t, Some e)])) = (tt, (r3, (w2, log ++ [(t, Some e)])))) as [r3 ->].
    { subst torn. destruct (_ && _); [|by eexists]. cbn [here]. destruct (Raise.failed _ _ _ r2) as [[] r3]. by exists r3. }
    cbn [fst snd]. rewrite state_bind_unfold. cbn [gets fst snd].
    destruct (gave_up_logged (r3, _)) eqn:Hg.
    { cbn. exists [(t, Some e)]. split; [done|split; [split; [cbn; apply sublist_skip, sublist_nil_l|split; [done|by repeat constructor]]|]].
      intros Hno. unfold gave_up_logged in Hg. by rewrite Hno in Hg. }
    specialize (IH (weigh t (rpc_as_error e) f) r3 w2 (log ++ [(t, Some e)])).
    destruct (try_targets _ _ _ _ _ rest _ _) as [[via err] [r' [w' log']]].
    destruct IH as (tried & -> & [Hsub Hres] & Hfails). exists ((t, Some e) :: tried). rewrite <- app_assoc. split; [done|split].
    + split; [cbn; by apply sublist_skip|]. destruct err as [e'|].
      * destruct Hres as [-> Hall]. split; [done|]. by constructor.
      * destruct Hres as (before & -> & Hall). exists ((t, Some e) :: before). split; [done|]. by constructor.
    + intros Hno e' He'. destruct (Hfails Hno e' He') as (fails & Hf & -> & Hnil). exists ((t, rpc_as_error e) :: fails).
      split_and!; [by apply failed_with_called|done|done].
  - destruct many.
    + specialize (IH f r1 w log). destruct (try_targets _ _ _ _ _ rest _ _) as [[via err] [r' [w' log']]].
      destruct IH as (tried & -> & [Hsub Hres] & Hfails). exists tried. split; [done|split; [split; [by apply sublist_cons|done]|]].
      intros Hno e He. destruct (Hfails Hno e He) as (fails & Hf & -> & Hnil). exists fails. split_and!; [by apply failed_with_skipped|done|].
      intros Hn. destruct (Hnil Hn) as [? _]. auto.
    + rewrite state_bind_unfold. cbn [gets fst snd]. destruct (gave_up_logged _) eqn:Hg.
      { cbn. exists []. rewrite app_nil_r. split; [done|split; [split; [apply sublist_nil_l|by split; [|constructor]]|]].
        intros Hno. unfold gave_up_logged in Hg. by rewrite Hno in Hg. }
      specialize (IH (weigh t (TunnelError errTunnelDown) f) r1 w log).
      destruct (try_targets _ _ _ _ _ rest _ _) as [[via err] [r' [w' log']]].
      destruct IH as (tried & -> & [Hsub Hres] & Hfails). exists tried. split; [done|split; [split; [by apply sublist_cons|done]|]].
      intros Hno e He. destruct (Hfails Hno e He) as (fails & Hf & -> & Hnil).
      exists ((t, TunnelError errTunnelDown) :: fails). split_and!; [by apply failed_with_down|done|done].
Qed.

(** A call over several paths.  Whatever the paths
    answer: they are called in the order of the targets, each at most once,
    none after the first that worked - so nothing is done at the peer twice
    by a call that succeeded - and the route reported is the one that worked.
    If none did and the caller had not given up, the error is the failure
    that got furthest, the last of those, with the number of the others; an
    address that was this instance itself is not one of them, and if there
    was nothing else the error says so. *)
Theorem callOver_reports targets r w :
  let '((via, err), (r', (w', tried))) := callOver floor ceiling logged gave_up_logged targets (r, (w, [])) in
  went targets tried via err /\
  ((forall x, gave_up x = false) -> forall e, err = Some e ->
     exists fails, failed_with targets fails tried /\ reported fails e).
Proof.
  unfold callOver. case_bool_decide as Ht.
  { cbn. split; [split; [apply sublist_nil_l|by split; [|constructor]]|]. intros _ e [= <-]. exists [].
    split; [apply failed_with_none|by left]. }
  pose proof (try_targets_went (1 <? Z.of_nat (length targets)) targets (mk_failures None 0 0) r w []) as Hw.
  destruct (try_targets _ _ _ _ _ targets _ _) as [[via err] [r' [w' log']]]. destruct Hw as (tried & -> & Hw & Hf).
  cbn [app]. split; [done|]. intros Hno e He. destruct (Hf Hno e He) as (fails & Hfails & -> & _). exists fails.
  split; [done|]. apply report_spec.
Qed.

End Call.

(** ** What a link remembers *)

(** What the calls and the presence stream do to a link. *)
Inductive line_event := LReached (now : time) (via : route) | LCalled (now : time) (via : route) | LFailed (err : option error) | LUpdated (record : TrustRecord).

Definition line_step (ev : line_event) (l : line) : line :=
  match ev with
  | LReached now via => (reached now via l).2
  | LCalled now via => (called now via l).2
  | LFailed err => link_failed err l
  | LUpdated record => update record l
  end.

(** The addresses direct routes have reported. *)
Definition told (ev : line_event) : list string :=
  match ev with
  | LReached _ via | LCalled _ via => if bool_decide (rt_kind via = pathDirect) then [rt_address via] else []
  | _ => []
  end.

Lemma line_step_preferred ev l : ln_preferred (line_step ev l) = ln_preferred l \/ ln_preferred (line_step ev l) ∈ told ev.
Proof.
  destruct ev as [now via|now via|err|record]; cbn; [| |by left..].
  - case_bool_decide; [right; by left|by left].
  - unfold called. case_bool_decide as Hn; [by left|]. destruct (ln_online l); cbn; (case_bool_decide; [right; by left|by left]).
Qed.

(** A tunnel is never an address: what a link prefers, and calls the peer's
    direct address, is what a direct route reported; a path that changes under
    a link that is up does not bring it up again and keeps what is offered;
    and after three misses in a row the presence loop tries every address of
    the record. *)
Lemma line_spec l0 evs : ln_preferred l0 = emp ->
  let l := foldl (fun l ev => line_step ev l) l0 evs in
  (ln_preferred l = emp \/ ln_preferred l ∈ concat (map told evs)) /\
  (forall now via, ln_online l = true -> (reached now via l).1 = false /\ ln_offered (reached now via l).2 = ln_offered l) /\
  (forall a, a <> emp -> a ∈ ln_addresses l -> a ∈ addresses l) /\
  (3 <= ln_misses l -> presenceOrder l = addresses l).
Proof.
  intros Hp. cbv zeta. split_and!.
  - induction evs as [|ev evs IH] using rev_ind; [by left|]. rewrite foldl_app, map_app, concat_app. cbn [foldl map concat].
    rewrite app_nil_r. destruct (line_step_preferred ev (foldl (fun l ev => line_step ev l) l0 evs)) as [-> |Hin];
      [destruct IH as [?|?]; [by left|right; apply elem_of_app; by left]|right; apply elem_of_app; by right].
  - intros now via Hon. unfold reached. cbn. by rewrite Hon.
  - set (l := foldl _ _ _). intros a Hne Ha. unfold addresses. destruct (decide (a = directAddress l)) as [E|Hd].
    + rewrite E in Hne |- *. rewrite bool_decide_true by done. by left.
    + apply elem_of_app. right. apply elem_of_filter_bool. split; [done|]. by rewrite bool_decide_false.
  - unfold presenceOrder, presenceMisses. intros Hm. destruct (Z.ltb_spec (ln_misses (foldl (fun l ev => line_step ev l) l0 evs)) 3); [lia|].
    by rewrite andb_false_r.
Qed.

(** ** Cases *)

Definition two_addresses : list route := directTargets ["10.0.0.2:7777"; "192.168.1.2:7777"]%string.
Definition relayed_up : tunnelSnapshot := mk_tunnelSnapshot true true true true None.
Definition raise_under_way : tunnelSnapshot := mk_tunnelSnapshot true false false true (Some 0%nat).

Lemma arrange_order_witness :
  directs two_addresses /\
  arrange raise_under_way raise_under_way emp two_addresses [Finished relayed_up; Probed "192.168.1.2:7777" relayed_up]
  = Some (promote two_addresses "192.168.1.2:7777" ++ [tunnelRoute]).
Proof.
  assert (directs two_addresses) as Hd by by repeat constructor. split; [exact Hd|].
  refine (proj2 (proj2 (arrange_order raise_under_way raise_under_way emp two_addresses
    [Finished relayed_up; Probed "192.168.1.2:7777" relayed_up] Hd)) [Finished relayed_up] "192.168.1.2:7777"%string relayed_up [] eq_refl _ eq_refl _ _).
  - done.
  - by intros [? _].
  - apply Forall_cons. split; [by intros _ [_ ?]|constructor].
Defined.

(** Nothing on the direct addresses: the refusal on the second address is the
    failure worth reporting, not the name that did not resolve before it, and
    the tunnel that is not up is passed over. *)
Definition answers_by (t : route) : state (raiser * unit) (option rpc_error) := mret (Some (mk_rpc_error CodeUnavailable
  (if bool_decide (rt_address t = "desk.local:7777"%string) then mk_error "no such host" ["net.DNSError"%string]
   else mk_error "connection refused" ["syscall.ECONNREFUSED"%string]))).

Example refusal_is_reported :
  (callOver Second Minute answers_by (fun _ => false) (directTargets ["10.0.0.2:7777"; "desk.local:7777"]%string ++ [tunnelRoute])
     (mk_raiser (newTunnelPath 0) [] 0 [] [] (fun _ => 1) 0, tt)).1
  = (no_route, Some (mk_error "peer: reach 10.0.0.2:7777: unavailable: connection refused (1 more paths also failed)"
                       ["syscall.ECONNREFUSED"%string])).
Proof. vm_compute. reflexivity. Qed.

Example three_misses_sweep :
  let l := (reached 5 (direct "b") (new_line ["a"; "b"]%string)).2 in
  (presenceOrder l, presenceOrder (Nat.iter 3 (link_failed None) l), presenceOrder (reached 6 tunnelRoute l).2)
  = (["b"], ["b"; "a"], ["a"; "b"])%string.
Proof. vm_compute. reflexivity. Qed.
