(* ===== verification/Borrower.v ===== *)
(** * Borrower: asking other machines, for a signature or a decision

    The requester's half of [pkg/peer/keys.go] - [RemoteSign] and everything it
    goes through - with [RemoteApprover] of [approver.go], [InboxApprover] of
    [inbox.go], and [diff.go], which says who may read the rest of a diff while
    a request is out.  The state is the node of [Access] with the inbox of
    [Inbox] and the links; what crosses the network is the class [FarSide],
    and what comes in while a request is parked is a list of calls on
    [Inbox.AnswerPending]. *)

From S2P Require Import Prelude.
From S2P Require Import GoText.
From S2P Require Import Proto.
From S2P Require Import Ssh.
From S2P Require Import Identity.
From S2P Require Import Asker.
From S2P Require Import Policy.
From S2P Require Import Inflight.
From S2P Require Import Prompt.
From S2P Require Import Rpc.
From S2P Require Import Trust.
From S2P Require Import Vault.
From S2P Require Import Access.
From S2P Require Import Promises.
From S2P Require Import Holder.
From S2P Require Import Wakeups.
From S2P Require Import Lenders.
From S2P Require Import Inbox.
From S2P Require Import Raise.
From S2P Require Import Paths.

Local Open Scope Z_scope.
Local Open Scope ladulas_scope.

(** ** The state *)

(** [outgoing] of [diff.go]: a request that is in front of a peer. *)
Record outgoing_entry := mk_outgoing { og_peer : string; og_git : GitContext }.

Section Borrower.
Context `{Unicode} `{Hashes} `{Ssh} `{LocalTime}.
Context `{Codec ApprovalRequest} `{Codec ApprovalResponse} `{Codec Delegation} `{Codec Endorsement}.

(** A link with what it remembers of its paths. *)
Record linked := mk_linked { ld_record : TrustRecord; ld_key : PublicKey; ld_line : line; ld_raiser : raiser }.
Definition link_of (l : linked) : link := mk_link (ld_record l) (ld_key l) (ln_lastSeen (ld_line l)) (ln_offered (ld_line l)).
Definition on_line (f : line -> line) (l : linked) : linked := mk_linked (ld_record l) (ld_key l) (f (ld_line l)) (ld_raiser l).
Definition set_raiser (r : raiser) (l : linked) : linked := mk_linked (ld_record l) (ld_key l) (ld_line l) r.

Record borrowing := mk_borrowing {
  bo_inflight : gmap string outgoing_entry;
  bo_linked : gmap string linked;
  bo_borrowed : list BorrowedKey;
  bo_wakeups : option wakeups;
  bo_keys : option (list KeyRef)
}.

Context {R : Type}.
Abbreviation N := (node (inbox * (borrowing * R))).

Definition borrowing_of (n : N) : borrowing := fst (snd (n_rest n)).
Definition on_borrowing (f : borrowing -> borrowing) : state N unit := modify (fun n =>
  let '(b, (w, r)) := n_rest n in mk_node _ (n_vault n) (n_seen n) (n_load n) (n_gossip n) (b, (f w, r))).
Definition on_inflight (f : gmap string outgoing_entry -> gmap string outgoing_entry) : state N unit := on_borrowing (fun w =>
  mk_borrowing (f (bo_inflight w)) (bo_linked w) (bo_borrowed w) (bo_wakeups w) (bo_keys w)).
Definition on_linked (fingerprint : string) (f : linked -> linked) : state N unit := on_borrowing (fun w =>
  mk_borrowing (bo_inflight w) (alter f fingerprint (bo_linked w)) (bo_borrowed w) (bo_wakeups w) (bo_keys w)).

(** What a listing reads, of this node. *)
Definition sight_of (n : N) : sight :=
  let w := borrowing_of n in
  mk_sight (v_peers (n_vault n)) (bo_borrowed w) (link_of <$> bo_linked w)
    (fun fp => negb (bool_decide (default ∅ (ib_waiters (fst (n_rest n)) !! fp) = ∅)))
    (bo_wakeups w) (bo_keys w).

(** The far side: the calls, the order [arrange] comes to for a link that is
    down, and the audit log of the engine ([Delegated]). *)
Class FarSide := {
  fs_RemoteSign : linked -> route -> RemoteSignRequest -> state N (reply (option SignedApproval * bytes));
  fs_RequestApproval : linked -> route -> bytes -> state N (reply (list ApprovalEvent * option rpc_error));
  fs_arrange : linked -> state N (list route);
  fs_Delegated : ApprovalRequest -> ApprovalResponse -> option SignedApproval -> state N unit
}.
Context `{!FarSide}.

(** This instance, the stores it has, the tunnel version it speaks, the
    presence loop's floor and ceiling and the dwell, [ctx.Err() != nil], and
    the error it is then. *)
Variables (self : Identity) (headless delegations endorsements : bool) (ours : Z) (floor ceiling tunnelDwell : duration).
Variables (gave_up : N -> bool) (ctx_Err : error).

(** ** [diff.go] *)

(** The request is taken off the list by whoever put it there. *)
Definition tracks (requestID : string) (git : option GitContext) : bool :=
  bool_decide (requestID <> emp) && bool_decide (is_Some git).

Definition track (requestID peer : string) (git : option GitContext) : state N unit :=
  match git with
  | Some g => if bool_decide (requestID = emp) then mret tt else on_inflight <[requestID := mk_outgoing peer g]>
  | None => mret tt
  end.
Definition untrack (requestID : string) (git : option GitContext) : state N unit :=
  if tracks requestID git then on_inflight (delete requestID) else mret tt.

Definition tracked (requestID peer : string) (n : N) : option outgoing_entry :=
  match bo_inflight (borrowing_of n) !! requestID with
  | Some request => if bool_decide (og_peer request = peer) then Some request else None
  | None => None
  end.

Definition requestedPaths (git : GitContext) (name : string) : reply (list string) :=
  if bool_decide (name = emp) then inl []
  else if existsb (fun f => bool_decide (gf_new_path f = name) || bool_decide (gf_old_path f = name)) (gc_diff git)⇢gd_files
  then inl [name]
  else inr (mk_rpc_error CodeNotFound (errors_New ("the request's diff does not name " +:+ quote name))).

(** [FetchDiff] up to [CollectDiff]: the object, the directory and the paths
    git is asked about. *)
Definition FetchDiff (peer : option PeerIdentity) (requestID path : string) : state N (reply (bytes * string * list string)) :=
  found ← publisherFor peer;
  match found with
  | inr e => mret (inr e)
  | inl (id, _) =>
    request ← gets (tracked requestID (pi_Fingerprint id));
    mret (match request with
          | None => inr (mk_rpc_error CodeNotFound (errors_New "this instance is not waiting on that request from you"))
          | Some request =>
            match requestedPaths (og_git request) path with
            | inr e => inr e
            | inl paths => inl (gc_object (og_git request), gc_repository_path (og_git request), paths)
            end
          end)
  end.

(** ** What is sent *)

Definition set_timeout (t : option duration) (r : ApprovalRequest) : ApprovalRequest :=
  mk_ApprovalRequest (rq_request_id r) (rq_created_at r) (rq_requester r) (rq_kind r) (rq_key r) t (rq_signature_flags r)
    (rq_signature_algorithm r) (rq_payload_sha256 r) (rq_grant_only r) (rq_requested_grant_ttl r) (rq_local_key r) (rq_operation r).

Definition DeadlineExceeded : error := sentinel "context.DeadlineExceeded" "context deadline exceeded".

(** What is left of a deadline goes on the request. *)
Definition with_deadline (deadline : option time) (out : ApprovalRequest) : state N (result ApprovalRequest) :=
  match deadline with
  | None => mret (Ok out)
  | Some d =>
    now ← on_vault Now;
    let remaining := Sub d now in
    mret (if remaining <=? 0 then Err DeadlineExceeded else Ok (set_timeout (Some remaining) out))
  end.

Definition serialized (out : ApprovalRequest) : result (ApprovalRequest * bytes) :=
  body ← err_ctx "peer: serialize the request: " (Marshal out); Ok (out, body).

Definition outgoingSign (deadline : option time) (msg : ApprovalRequest) : state N (result (ApprovalRequest * bytes)) :=
  let requester := mk_RequesterInfo (Fingerprint self) (id_name self) false headless emp (rq_requester msg)⇢ri_process in
  out ← with_deadline deadline (set_requester (Some requester) msg);
  mret (out ← out; serialized out).

(** [outgoing], with the publication of the project on the way past left
    out. *)
Definition outgoing (deadline : option time) (msg : ApprovalRequest) : state N (result (ApprovalRequest * bytes)) :=
  let r := (rq_requester msg) in
  let requester := mk_RequesterInfo (Fingerprint self) (id_name self) false headless r⇢ri_remote_address r⇢ri_process in
  out ← with_deadline deadline (set_requester (Some requester) msg);
  mret (out ← out; serialized out).

Definition waitFor (msg : ApprovalRequest) : duration :=
  let requested := AsDuration (rq_timeout msg) in
  if bool_decide (is_Some (rq_timeout msg)) && (0 <? requested) then requested
  else if bool_decide (rq_kind msg = KIND_SSH_AUTH) then DefaultSSHAuthTimeout
  else DefaultSignTimeout.

(** [context.WithTimeout]: the earlier of the two deadlines. *)
Definition WithTimeout (parent : option time) (d : duration) : state N time :=
  now ← on_vault Now;
  mret (match parent with Some p => Z.min p (Add now d) | None => Add now d end).

(** ** What is accepted *)

Definition verifySignature (key : option KeyRef) (payload : bytes) (wrap : bool) (sig : option SshsigRequest) (signature : bytes)
    : result unit :=
  pub ← err_ctx "parse the key: " (ParsePublicKey key⇢kr_public_key);
  blob ← blobFor payload wrap sig;
  parsed ← err_ctx "parse the signature: " (UnmarshalSignature signature);
  match ssh_Verify pub blob parsed with
  | Some e => Err (wrap_w "the signature does not verify: " e emp)
  | None => Ok tt
  end.

(** [RemoteSignResponse]. *)
Abbreviation response := (option SignedApproval * bytes)%type.

Definition set_reason (reason : string) (r : ApprovalResponse) : ApprovalResponse :=
  mk_ApprovalResponse (rs_request_id r) (rs_request_digest r) (rs_decision r) (rs_source r) (rs_decided_at r) (rs_approver r) reason
    (rs_grant r) (rs_delegation r) (rs_endorsement r) (rs_notify_only r).
Definition set_decider (a : option ApproverInfo) (r : ApprovalResponse) : ApprovalResponse :=
  mk_ApprovalResponse (rs_request_id r) (rs_request_digest r) (rs_decision r) (rs_source r) (rs_decided_at r) a (rs_reason r)
    (rs_grant r) (rs_delegation r) (rs_endorsement r) (rs_notify_only r).

Definition acceptBorrowedSignature (holder : string) (msg : ApprovalRequest) (payload : bytes) (wrap : bool)
    (answer : Answer) (decision : ApprovalResponse) (signature : bytes) : state N (result response) :=
  let decision := set_reason (an_Reason answer) (set_decider (an_Approver answer) decision) in
  _ ← fs_Delegated msg decision (an_Signed answer);
  _ ← on_vault (acceptEndorsement self endorsements (rs_endorsement decision));
  mret (if bool_decide (an_Decision answer <> DECISION_APPROVE) then Ok (an_Signed answer, signature)
        else if bool_decide (signature = []) then Err (errors_New ("peer: " +:+ holder +:+ " approved without signing"))
        else
          match verifySignature (rq_key msg) payload wrap (rq_sshsig msg) signature with
          | Err e => Err (wrap_w ("peer: the signature from " +:+ holder +:+ " is not usable: ") e emp)
          | Ok _ => Ok (an_Signed answer, signature)
          end).

(** ** Over a link *)

(** The link as it is now, by the fingerprint it was chosen by. *)
Definition current (l : linked) (n : N) : linked := default l (bo_linked (borrowing_of n) !! tr_fingerprint (ld_record l)).

(** A call on the link's tunnel, or on its line. *)
Definition on_tunnel {A} (l : linked) (m : state raiser A) : state N A :=
  l ← gets (current l);
  let '(a, r) := m (ld_raiser l) in
  _ ← on_linked (tr_fingerprint (ld_record l)) (set_raiser r);
  mret a.
Definition on_the_line (l : linked) (f : line -> line) : state N unit := on_linked (tr_fingerprint (ld_record l)) (on_line f).

Definition targets (l : linked) : state N (list route) :=
  l' ← gets (current l);
  if bool_decide (currentPath (ld_line l') <> pathNone) then
    snap ← on_tunnel l (Raise.snapshot tunnelDwell);
    mret (link_targets snap [] (ld_line l'))
  else fs_arrange l'.

Definition resolves (l : linked) (t : route) : state N bool :=
  if negb (bool_decide (rt_kind t = pathTunnel)) then mret true
  else client ← on_tunnel l establishedClient; mret (bool_decide (is_Some client)).

Definition pathFailed (l : linked) (t : route) (e : rpc_error) : state N unit :=
  if bool_decide (rt_kind t = pathTunnel) && transportFailure e
  then on_tunnel l (Raise.failed floor ceiling (Some (rpc_as_error e))) else mret tt.

Definition link_called (l : linked) (via : route) : state N unit :=
  now ← on_vault Now; on_the_line l (fun ln => (called now via ln).2).

Definition answerFrom (l : linked) (signed : option SignedApproval) (requestID : string) (digest : bytes) (n : N)
    : result (Answer * ApprovalResponse) :=
  answerFromPeer (ld_record (current l n)) (ld_key l) signed requestID digest.

Definition checkSignature (l : linked) (msg : ApprovalRequest) (body payload : bytes) (wrap : bool) (resp : response)
    : state N (result response) :=
  checked ← gets (answerFrom l resp.1 (rq_request_id msg) (Digest body));
  match checked with
  | Err e => mret (Err e)
  | Ok (answer, decision) =>
    name ← gets (fun n => tr_name (ld_record (current l n)));
    acceptBorrowedSignature name msg payload wrap answer decision resp.2
  end.

(** The targets in order, with the last failure. *)
Fixpoint sign_on (l : linked) (msg : ApprovalRequest) (body payload : bytes) (wrap : bool) (request : RemoteSignRequest)
    (ts : list route) (lastErr : option error) : state N (result response) :=
  match ts with
  | [] =>
    match lastErr with
    | None =>
      name ← gets (fun n => tr_name (ld_record (current l n)));
      mret (Err (wrap_ww ErrHolderUnreachable (": " +:+ name +:+ ": ") (TunnelError errTunnelDown)))
    | Some e => _ ← on_the_line l (link_failed (Some e)); mret (Err e)
    end
  | t :: rest =>
    up ← resolves l t;
    if negb up then sign_on l msg body payload wrap request rest lastErr
    else
      answer ← fs_RemoteSign l t request;
      match answer with
      | inr e =>
        name ← gets (fun n => tr_name (ld_record (current l n)));
        let err := wrap_w ("peer: ask " +:+ name +:+ " to sign: ") (rpc_as_error e) emp in
        stop ← gets gave_up;
        if (stop : bool) then mret (Err err)
        else _ ← pathFailed l t e; sign_on l msg body payload wrap request rest (Some err)
      | inl resp =>
        _ ← link_called l t;
        checkSignature l msg body payload wrap resp
      end
  end.

Definition signOverLink (parent : option time) (l : linked) (msg : ApprovalRequest) (payload : bytes) (wrap : bool)
    : state N (result response) :=
  deadline ← WithTimeout parent (waitFor msg);
  out ← outgoingSign (Some deadline) msg;
  match out with
  | Err e => mret (Err e)
  | Ok (out, body) =>
    ts ← targets l;
    if bool_decide (ts = []) then mret (Err (errors_New "peer: the key holder has no address to dial"))
    else
      endorsement ← on_vault (endorsementFor self endorsements (rq_key msg)⇢kr_fingerprint);
      let git := (rq_sshsig out) ≫= sg_git_context in
      _ ← track (rq_request_id out) (tr_fingerprint (ld_record l)) git;
      answer ← sign_on l out body payload wrap (mk_RemoteSignRequest body payload wrap endorsement) ts None;
      _ ← untrack (rq_request_id out) git;
      mret answer
  end.

(** ** Through the inbox *)

(** What comes in while an entry is parked: calls on [AnswerPending], and
    whether the caller's context ended the wait. *)
Record waiting := mk_waiting { wg_calls : list (option PeerIdentity * AnswerPendingRequest); wg_ended : bool }.

Fixpoint comes_in (calls : list (option PeerIdentity * AnswerPendingRequest)) : state N unit :=
  match calls with
  | [] => mret tt
  | (peer, req) :: rest => _ ← AnswerPending self delegations peer req; comes_in rest
  end.

(** Parks the entry and waits; the channel is made with it. *)
Definition wait_on (entry : nat -> parked) (during : nat -> waiting) : state N (result collectedAnswer) :=
  c ← on_inbox fresh_channel;
  let entry := entry c in
  _ ← on_inbox (park entry);
  _ ← comes_in (wg_calls (during c));
  answer ← on_inbox (gets (fun b => ib_answers b !! c));
  _ ← on_inbox (unpark (pk_peer entry) (pk_id entry));
  mret (match answer with
        | Some a => if wg_ended (during c) then Err ctx_Err else Ok a
        | None => Err ctx_Err
        end).

Definition signThroughInbox (during : nat -> waiting) (parent : option time) (record : TrustRecord) (msg : ApprovalRequest)
    (payload : bytes) (wrap : bool) : state N (result response) :=
  deadline ← WithTimeout parent (waitFor msg);
  out ← outgoingSign (Some deadline) msg;
  match out with
  | Err e => mret (Err e)
  | Ok (out, body) =>
    let fingerprint := tr_fingerprint record in
    since ← on_vault Now;
    endorsement ← on_vault (endorsementFor self endorsements (rq_key msg)⇢kr_fingerprint);
    let git := (rq_sshsig out) ≫= sg_git_context in
    _ ← track (rq_request_id out) fingerprint git;
    answer ← wait_on (mk_parked fingerprint (rq_request_id out) body (Digest body) since deadline payload wrap endorsement) during;
    accepted ← (match answer with
                | Err e => mret (Err (wrap_w ("peer: " +:+ tr_name record +:+ " did not answer: ") e emp))
                | Ok a => acceptBorrowedSignature (tr_name record) out payload wrap (co_answer a) (co_decision a) (co_signature a)
                end);
    _ ← untrack (rq_request_id out) git;
    mret accepted
  end.

(** ** Every way there is *)

Definition reportedNoApprover (resp : response) : bool :=
  match VerifyApproval resp.1 with
  | Err _ => false
  | Ok (decision, _) =>
    bool_decide (rs_decision decision <> DECISION_APPROVE) && bool_decide (rs_source decision = SOURCE_NO_APPROVER)
  end.

(** The link a route names, as the node holds it. *)
Definition held_link (l : link) (n : N) : linked :=
  default (mk_linked (lk_record l) (lk_key l) (new_line (tr_addresses (lk_record l)))
             (mk_raiser (newTunnelPath zero_time) [] 0 [] [] (fun _ => zero_time) 0))
    (bo_linked (borrowing_of n) !! link_Fingerprint l).

Definition route_sign (during : nat -> waiting) (parent : option time) (r : holderRoute) (msg : ApprovalRequest) (payload : bytes)
    (wrap : bool) : state N (result response) :=
  match r with
  | over_link l => h ← gets (held_link l); signOverLink parent h msg payload wrap
  | through_inbox record => signThroughInbox during parent record msg payload wrap
  end.

Fixpoint ask_holders (during : nat -> waiting) (parent : option time) (routes : list holderRoute) (msg : ApprovalRequest)
    (payload : bytes) (wrap : bool) : state N (result response) :=
  match routes with
  | [] => mret (Err ctx_Err)
  | r :: rest =>
    answer ← route_sign during parent r msg payload wrap;
    match answer with
    | Err e =>
      stop ← gets gave_up;
      if bool_decide (rest = []) || stop then mret (Err e) else ask_holders during parent rest msg payload wrap
    | Ok resp =>
      if bool_decide (rest = []) || negb (reportedNoApprover resp) then mret (Ok resp)
      else ask_holders during parent rest msg payload wrap
    end
  end.

Definition RemoteSign (during : nat -> waiting) (parent : option time) (msg : ApprovalRequest) (payload : bytes) (wrap : bool)
    : state N (result response) :=
  s ← gets sight_of;
  let fingerprint := (rq_key msg)⇢kr_fingerprint in
  let routes := holderRoutes ours s fingerprint in
  if bool_decide (routes = []) then mret (Err (noHolder s fingerprint))
  else ask_holders during parent routes msg payload wrap.

(** ** Asking for a decision *)

Fixpoint first_decision (events : list ApprovalEvent) : option (option SignedApproval) :=
  match events with
  | [] => None
  | EventDecided _ approval :: _ => Some approval
  | EventAccepted _ :: rest => first_decision rest
  end.

Definition ask (l : linked) (t : route) (requestID : string) (body digest : bytes) : state N (result Answer * rpc_error) :=
  let none := mk_rpc_error CodeUnknown (errors_New emp) in
  up ← resolves l t;
  if negb up then mret (Err (TunnelError errTunnelDown), none)
  else
    stream ← fs_RequestApproval l t body;
    name ← gets (fun n => tr_name (ld_record (current l n)));
    match stream with
    | inr e => mret (Err (wrap_w ("peer: ask " +:+ name +:+ ": ") (rpc_as_error e) emp), e)
    | inl (events, broke) =>
      match first_decision events with
      | Some approval =>
        checked ← gets (answerFrom l approval requestID digest);
        match checked with
        | Err e => mret (Err e, none)
        | Ok (answer, decision) =>
          record ← gets (fun n => ld_record (current l n));
          _ ← on_vault (acceptDelegation self delegations record (ld_key l) decision);
          mret (Ok answer, none)
        end
      | None =>
        mret (match broke with
              | Some e => (Err (wrap_w ("peer: ask " +:+ name +:+ ": ") (rpc_as_error e) emp), e)
              | None => (Err (errors_New ("peer: " +:+ name +:+ " closed the stream without deciding")), none)
              end)
      end
    end.

Fixpoint ask_on (l : linked) (requestID : string) (body : bytes) (ts : list route) (lastErr : option error) : state N (result Answer) :=
  match ts with
  | [] =>
    match lastErr with
    | None => mret (Err (TunnelError errTunnelDown))
    | Some e => _ ← on_the_line l (link_failed (Some e)); mret (Err e)
    end
  | t :: rest =>
    '(answer, code) ← ask l t requestID body (Digest body);
    match answer with
    | Ok answer => _ ← link_called l t; mret (Ok answer)
    | Err e =>
      stop ← gets gave_up;
      if (stop : bool) then mret (Err e)
      else if bool_decide (rt_kind t = pathTunnel) && errors_Is e errTunnelDown then ask_on l requestID body rest lastErr
      else _ ← pathFailed l t (mk_rpc_error (re_code code) e); ask_on l requestID body rest (Some e)
    end
  end.

(** [Decide] of a [RemoteApprover]. *)
Definition RemoteApprover_Decide (deadline : option time) (l : linked) (req : ApprovalRequest) : state N (result Answer) :=
  out ← outgoing deadline req;
  match out with
  | Err e => mret (Err e)
  | Ok (msg, body) =>
    let git := (rq_sshsig msg) ≫= sg_git_context in
    _ ← track (rq_request_id msg) (tr_fingerprint (ld_record l)) git;
    ts ← targets l;
    answer ← (if bool_decide (ts = []) then mret (Err (errors_New "peer: the peer has no address to dial"))
              else ask_on l (rq_request_id msg) body ts None);
    _ ← untrack (rq_request_id msg) git;
    mret answer
  end.

(** [Decide] of an [InboxApprover]. *)
Definition InboxApprover_Decide (during : nat -> waiting) (deadline : option time) (fingerprint : string) (req : ApprovalRequest)
    : state N (result Answer) :=
  out ← outgoing deadline req;
  match out with
  | Err e => mret (Err e)
  | Ok (msg, body) =>
    let git := (rq_sshsig msg) ≫= sg_git_context in
    since ← on_vault Now;
    _ ← track (rq_request_id msg) fingerprint git;
    answer ← wait_on (mk_parked fingerprint (rq_request_id msg) body (Digest body) since (default zero_time deadline) [] false None) during;
    _ ← untrack (rq_request_id msg) git;
    mret (a ← answer; Ok (co_answer a))
  end.

End Borrower.
