(* ===== verification/BorrowerSpec.v ===== *)
(** * BorrowerSpec: whose decision, whose signature

    The theorems about [Borrower]: a signature that is handed on verifies, over
    the bytes that were asked for, and comes with a decision a paired approver
    made on that very request - whichever road it came by; and holders are
    asked in turn, each only after the one before had nobody to ask or could
    not be reached. *)

From S2P Require Import Prelude.
From S2P Require Import Rules.
From S2P Require Import GoText.
From S2P Require Import Proto.
From S2P Require Import Ssh.
From S2P Require Import Identity.
From S2P Require Import Asker.
From S2P Require Import Policy.
From S2P Require Import Inflight.
From S2P Require Import Prompt.
From S2P Require Import Rpc.
From S2P Require Import Trust.
From S2P Require Import Vault.
From S2P Require Import Access.
From S2P Require Import Promises.
From S2P Require Import VaultSpec.
From S2P Require Import PromisesSpec.
From S2P Require Import Holder.
From S2P Require Import Wakeups.
From S2P Require Import Lenders.
From S2P Require Import LendersSpec.
From S2P Require Import Inbox.
From S2P Require Import InboxSpec.
From S2P Require Import Raise.
From S2P Require Import Paths.
From S2P Require Import Borrower.

Local Open Scope Z_scope.
Local Open Scope ladulas_scope.

Section Borrowed.
Context `{Unicode} `{Hashes} `{Ssh} `{LocalTime}.
Context `{Codec ApprovalRequest} `{Codec ApprovalResponse} `{Codec Delegation} `{Codec Endorsement}.
Context {R : Type} `{!FarSide (R := R)}.
Context (self : Identity) (headless delegations endorsements : bool) (ours : Z) (floor ceiling tunnelDwell : duration).
Abbreviation N := (node (inbox * (borrowing * R))).
Context (gave_up : N -> bool) (ctx_Err : error).

(** The keys decisions are accepted from. *)
Context (trusted : PublicKey -> Prop).

(** Channels are drawn once, and the keys of the links and of the peers that
    may approve are trusted. *)
Definition orderly (n : N) : Prop :=
  channels_ok (inbox_of n) /\
  (forall fp l, bo_linked (borrowing_of n) !! fp = Some l -> trusted (ld_key l)) /\
  (forall r key, r ∈ v_peers (n_vault n) -> tr_may_approve r = true -> trust_PublicKey r = Ok key -> trusted key).

Definition keeps {A} (m : state N A) : Prop := forall n, orderly n -> orderly (m n).2.

(** What else the program does while the far side is called keeps things in
    order: nobody is paired and no link is made whose key is not trusted. *)
Class FarSideLaws : Prop := {
  fs_RemoteSign_keeps l t req : keeps (fs_RemoteSign l t req);
  fs_arrange_keeps l : keeps (fs_arrange l);
  fs_Delegated_keeps msg resp signed : keeps (fs_Delegated msg resp signed)
}.
Context `{!FarSideLaws}.

Lemma keeps_ret {A} (a : A) : keeps (mret a).
Proof. by intros n Hn. Qed.
Lemma keeps_bind {A B} (m : state N A) (f : A -> state N B) : keeps m -> (forall a, keeps (f a)) -> keeps (m ≫= f).
Proof. intros Hm Hf n Hn. rewrite state_bind_unfold. apply Hf, Hm, Hn. Qed.
Lemma keeps_gets {A} (f : N -> A) : keeps (gets f).
Proof. by intros n Hn. Qed.

(** Who is paired is not what a call on the store here changes. *)
Definition same_peers {A} (m : state vault A) : Prop := forall v, v_peers (m v).2 = v_peers v.

Definition people_stay (o : vault_op) : Prop := match o with OpPeers _ | OpKeys _ => False | _ => True end.

Lemma respects_same_peers {A} (m : state vault A) : respects (runs people_stay) m -> same_peers m.
Proof.
  intros Hm v. destruct (Hm v) as (os & Ho & ->). revert v. induction Ho as [|o os Ho _ IH]; intros v; [done|].
  change (vault_run_ops v (o :: os)) with (vault_run_ops (vault_step v o) os). rewrite IH. apply step_peers. by right.
Qed.
Lemma kept_stay o : PromisesSpec.keeps o -> people_stay o.
Proof. by destruct o. Qed.
Lemma same_peers_Now : same_peers Now.
Proof. done. Qed.
Lemma same_peers_endorsementFor key : same_peers (endorsementFor self endorsements key).
Proof.
  apply respects_same_peers. unfold endorsementFor. destruct (_ || _); [apply respects_ret, _|].
  apply respects_bind; [apply _|apply runs_Endorsements, kept_stay|]. intros [l|e]; [|apply respects_ret, _].
  apply respects_bind; [apply _|apply runs_Now, kept_stay|]. intros t. apply respects_ret, _.
Qed.
Lemma same_peers_acceptEndorsement signed : same_peers (acceptEndorsement self endorsements signed).
Proof.
  apply respects_same_peers. unfold acceptEndorsement, accept_about. destruct signed as [signed|]; [|apply respects_ret, _].
  destruct (negb endorsements); [apply respects_ret, _|]. destruct (VerifyEndorsement _) as [e|]; [|apply respects_ret, _].
  case_bool_decide; [apply respects_ret, _|].
  apply respects_bind; [apply _| |intros; apply respects_ret, _].
  apply respects_bind; [apply _| |intros; apply respects_ret, _].
  by apply (respects_op _ _ (OpAddEndorsement (Some signed) e false)).
Qed.
Lemma same_peers_acceptDelegation record key resp : same_peers (acceptDelegation self delegations record key resp).
Proof.
  intros v. unfold acceptDelegation. destruct (rs_delegation resp) as [signed|]; [|done]. destruct (negb delegations); [done|].
  destruct (VerifyDelegation _) as [[d pub]|]; [|done]. repeat (case_bool_decide; [done|]). destruct (negb _); [done|].
  rewrite state_bind_unfold. apply (step_peers v (OpAddDelegation (Some signed) d)). by right.
Qed.

Lemma keeps_on_vault {A} (m : state vault A) : same_peers m -> keeps (on_vault m).
Proof.
  intros Hm n (Hc & Hl & Hp). unfold on_vault. pose proof (Hm (n_vault n)) as E. destruct (m (n_vault n)) as [a v]. cbn [snd] in *.
  split_and!; [done|done|]. cbn [n_vault]. by rewrite E.
Qed.
Lemma keeps_on_borrowing f :
  (forall w, (forall fp l, bo_linked w !! fp = Some l -> trusted (ld_key l)) ->
     forall fp l, bo_linked (f w) !! fp = Some l -> trusted (ld_key l)) -> keeps (on_borrowing f).
Proof. intros Hf [v s l g [b [w r]]] (Hc & Hl & Hp). split_and!; [exact Hc| |exact Hp]. by apply Hf. Qed.

Create HintDb keeps.
#[local] Hint Resolve keeps_ret keeps_gets keeps_on_vault same_peers_Now same_peers_endorsementFor same_peers_acceptEndorsement
  fs_RemoteSign_keeps fs_arrange_keeps fs_Delegated_keeps : keeps.

(** Follow a call through its steps and branches. *)
Ltac keep :=
  repeat first
    [ progress auto with keeps
    | apply keeps_bind; [|intros ?]
    | match goal with |- keeps (match ?x with _ => _ end) => destruct x eqn:? end
    | match goal with |- keeps (let '(_, _) := ?x in _) => destruct x end ].

Lemma keeps_with_deadline d out : keeps (with_deadline d out).
Proof. unfold with_deadline. keep. Qed.
Lemma keeps_outgoingSign d msg : keeps (outgoingSign self headless d msg).
Proof. unfold outgoingSign. keep. apply keeps_with_deadline. Qed.
Lemma keeps_WithTimeout p d : keeps (WithTimeout p d).
Proof. unfold WithTimeout. keep. Qed.
Lemma keeps_on_linked fp f : (forall l, ld_key (f l) = ld_key l) -> keeps (on_linked fp f).
Proof.
  intros Hf. apply keeps_on_borrowing. intros w Hw fp' l. cbn [bo_linked].
  destruct (decide (fp = fp')) as [->|Hne]; [|rewrite lookup_alter_ne by done; apply Hw].
  rewrite lookup_alter_eq. intros (l0 & Hl0 & ->)%fmap_Some_1. rewrite Hf. by eapply Hw.
Qed.
Lemma keeps_set_raiser fp r : keeps (on_linked fp (set_raiser r)).
Proof. by apply keeps_on_linked. Qed.
Lemma keeps_on_line fp f : keeps (on_linked fp (on_line f)).
Proof. by apply keeps_on_linked. Qed.
Lemma keeps_on_inflight f : keeps (on_inflight f).
Proof. by apply keeps_on_borrowing. Qed.
#[local] Hint Resolve keeps_outgoingSign keeps_WithTimeout keeps_set_raiser keeps_on_line keeps_on_inflight : keeps.
Lemma keeps_on_tunnel {A} l (m : state raiser A) : keeps (on_tunnel l m).
Proof. unfold on_tunnel. keep. Qed.
Lemma keeps_on_the_line l f : keeps (on_the_line l f).
Proof. unfold on_the_line. keep. Qed.
#[local] Hint Resolve keeps_on_tunnel keeps_on_the_line : keeps.
Lemma keeps_track id peer git : keeps (track id peer git).
Proof. unfold track. keep. Qed.
Lemma keeps_untrack id git : keeps (untrack id git).
Proof. unfold untrack. keep. Qed.
Lemma keeps_targets l : keeps (targets tunnelDwell l).
Proof. unfold targets. keep. Qed.
Lemma keeps_resolves l t : keeps (resolves l t).
Proof. unfold resolves. keep. Qed.
Lemma keeps_pathFailed l t e : keeps (pathFailed floor ceiling l t e).
Proof. unfold pathFailed. keep. Qed.
Lemma keeps_link_called l via : keeps (link_called l via).
Proof. unfold link_called. keep. Qed.
#[local] Hint Resolve keeps_track keeps_untrack keeps_targets keeps_resolves keeps_pathFailed keeps_link_called : keeps.
Lemma keeps_accept h msg payload wrap a d s : keeps (acceptBorrowedSignature self endorsements h msg payload wrap a d s).
Proof. unfold acceptBorrowedSignature. keep. Qed.
#[local] Hint Resolve keeps_accept : keeps.
Lemma keeps_checkSignature l msg body payload wrap resp : keeps (checkSignature self endorsements l msg body payload wrap resp).
Proof. unfold checkSignature. keep. Qed.
#[local] Hint Resolve keeps_checkSignature : keeps.
Lemma keeps_sign_on l msg body payload wrap req ts e :
  keeps (sign_on self endorsements floor ceiling gave_up l msg body payload wrap req ts e).
Proof. revert e. induction ts as [|t ts IH]; intros e; cbn [sign_on]; keep. Qed.
#[local] Hint Resolve keeps_sign_on : keeps.
Lemma keeps_signOverLink p l msg payload wrap :
  keeps (signOverLink self headless endorsements floor ceiling tunnelDwell gave_up p l msg payload wrap).
Proof. unfold signOverLink. keep. Qed.
#[local] Hint Resolve keeps_signOverLink : keeps.

(** ** Waiting in the inbox *)

Lemma on_inbox_run {A} (m : state inbox A) (n : N) :
  on_inbox m n = ((m (inbox_of n)).1,
    mk_node _ (n_vault n) (n_seen n) (n_load n) (n_gossip n) ((m (inbox_of n)).2, snd (n_rest n))).
Proof. destruct n as [v s l g [b w]]. unfold on_inbox, inbox_of. cbn. by destruct (m b). Qed.

Lemma inbox_of_on_inbox {A} (m : state inbox A) (n : N) : inbox_of (on_inbox m n).2 = (m (inbox_of n)).2.
Proof. by rewrite on_inbox_run. Qed.

(** What a call does: to the inbox nothing, or one entry is settled; to the
    links and to who is paired nothing. *)
Lemma AnswerPending_inbox peer req (n : N) :
  let n' := (AnswerPending self delegations peer req n).2 in
  v_peers (n_vault n') = v_peers (n_vault n) /\ snd (n_rest n') = snd (n_rest n) /\
  (inbox_of n' = inbox_of n \/
   exists fp entry a, parkedFor (ap_request_id req) fp (inbox_of n) = Some entry /\ inbox_of n' = (settle entry a (inbox_of n)).2).
Proof.
  cbv zeta. unfold AnswerPending. rewrite state_bind_unfold.
  destruct (publisherFor peer n) as [[[id record]|e] n1] eqn:Hp; cbn [fst snd].
  2:{ apply publisherFor_refused in Hp as ->. by auto. }
  apply publisherFor_let_in in Hp as (_ & _ & _ & ->). destruct n as [v seen load gossip [b w]].
  cbn [n_rest n_vault n_seen n_load n_gossip]. unfold inbox_of. cbn [n_rest fst].
  rewrite state_bind_unfold. erewrite on_inbox_at by (cbn; reflexivity). cbn [gets fst snd].
  destruct (parkedFor _ _ _) as [entry|] eqn:He; [|by auto].
  destruct (trust_PublicKey record) as [key|]; [|by auto]. destruct (answerFromPeer _ _ _ _ _) as [[answer resp]|]; [|by auto].
  destruct (wantsSignature entry && _ && _); [by auto|].
  rewrite state_bind_unfold. unfold on_vault. cbn [n_rest n_vault n_seen n_load n_gossip].
  pose proof (same_peers_acceptDelegation record key resp (Now v).2) as Ev.
  destruct (acceptDelegation _ _ _ _ _ _) as [[] v']. cbn [fst snd] in *. rewrite state_bind_unfold.
  set (given := mk_collectedAnswer _ _ _). destruct (settle entry given b) as [acc b'] eqn:Hs.
  erewrite on_inbox_at by exact Hs. cbn. split_and!; [by rewrite Ev|done|].
  right. exists (pi_Fingerprint id), entry, given. by rewrite Hs.
Qed.

Lemma keeps_AnswerPending peer req : keeps (AnswerPending (R := borrowing * R) self delegations peer req).
Proof.
  intros n (Hc & Hl & Hp). destruct (AnswerPending_inbox peer req n) as (Ep & Er & Hi). unfold orderly, borrowing_of.
  rewrite Ep, Er. split_and!; [|exact Hl|exact Hp].
  destruct Hi as [-> |(fp & entry & a & He & ->)]; [exact Hc|].
  pose proof (channels_ok_step (EvSettle fp (ap_request_id req) a) (mk_queue (inbox_of n) []) Hc) as Hs.
  cbn [queue_step qu_inbox] in Hs. by rewrite He in Hs.
Qed.

(** An answer a paired approver gave to an entry. *)
Definition given_to (e : parked) (a : collectedAnswer) : Prop :=
  exists record key signed answer resp signature,
    trusted key /\ proves record key signed (pk_id e) (pk_digest e) answer resp /\
    a = mk_collectedAnswer (set_an_GrantTTL 0 answer) resp signature.

(** Only [e] has the channel, and what is on it was given to [e]. *)
Definition waits_for (c : nat) (e : parked) (n : N) : Prop :=
  (forall k p, ib_parked (inbox_of n) !! k = Some p -> pk_channel p = c -> p = e) /\
  (forall a, ib_answers (inbox_of n) !! c = Some a -> given_to e a).

Lemma AnswerPending_waits c e peer req n : orderly n -> waits_for c e n -> waits_for c e (AnswerPending self delegations peer req n).2.
Proof.
  intros (_ & _ & Htr) [Hp Ha]. pose proof (AnswerPending_settles self delegations peer req n) as Hs.
  destruct (AnswerPending self delegations peer req n) as [r n']. destruct Hs as (Hold & Ep & Hnew & _). split; cbn [snd].
  - rewrite Ep. exact Hp.
  - intros a Hc. destruct (ib_answers (inbox_of n) !! c) as [a0|] eqn:Hc0.
    + apply Ha. apply Hold in Hc0 as Hc'. congruence.
    + destruct (Hnew c a Hc Hc0) as (_ & id & record & key & entry & answer & resp & _ & Hr & _ & Hm & Hk & He & Hch & Hpr & -> & _).
      assert (entry = e) as -> by by eapply Hp. exists record, key, (ap_approval req), answer, resp, (ap_signature req).
      split_and!; try done. by eapply Htr.
Qed.

Lemma comes_in_waits calls c e n : orderly n -> waits_for c e n ->
  let n' := (comes_in self delegations calls n).2 in orderly n' /\ waits_for c e n'.
Proof.
  cbv zeta. revert n. induction calls as [|[peer req] calls IH]; intros n Hn Hw; [done|]. cbn [comes_in].
  rewrite state_bind_unfold. pose proof (keeps_AnswerPending peer req n Hn) as Hk.
  pose proof (AnswerPending_waits c e peer req n Hn Hw) as Hw'.
  destruct (AnswerPending self delegations peer req n) as [r n1]. by apply IH.
Qed.

(** The entry is parked on a channel nobody has. *)
Lemma parked_waits entry n : orderly n -> (forall c, pk_channel (entry c) = c) ->
  let c := ib_next (inbox_of n) in
  let n' := (on_inbox (park (entry c)) (on_inbox fresh_channel n).2).2 in
  orderly n' /\ waits_for c (entry c) n'.
Proof.
  cbv zeta. intros Hn Hent. set (c := ib_next (inbox_of n)). set (n1 := (on_inbox fresh_channel n).2).
  assert (on_channel c (entry c) = entry c) as Eon.
  { pose proof (Hent c) as Hc. destruct (entry c). cbn in Hc. subst. done. }
  assert (inbox_of (on_inbox (park (entry c)) n1).2 = (park_new (entry c) (inbox_of n)).2) as E.
  { rewrite inbox_of_on_inbox. subst n1. rewrite inbox_of_on_inbox. unfold park_new. rewrite state_bind_unfold.
    cbn [fresh_channel fst snd]. fold c. rewrite state_bind_unfold. by rewrite Eon. }
  pose proof (park_new_run (entry c) (inbox_of n)) as Hrun. cbv zeta in Hrun. fold c in Hrun. rewrite Eon in Hrun.
  destruct Hrun as (Ep & Ea & En). destruct Hn as ([Hp Ha] & Hl & Hpe). unfold orderly, waits_for. rewrite E. split.
  - split; [|].
    { rewrite park_new_steps. apply (channels_ok_step (EvAnnounce (pk_peer (entry c)) (pk_id (entry c))) (mk_queue _ [])).
      exact (channels_ok_step (EvPut (entry c)) (mk_queue (inbox_of n) []) (conj Hp Ha)). }
    subst n1. rewrite !on_inbox_run. by split.
  - rewrite Ep, Ea. split.
    + intros k p [[_ <-]|[_ Hk]]%lookup_insert_Some; [done|]. intros Hch. specialize (Hp k p Hk). subst c. lia.
    + intros a Hc. specialize (Ha _ _ Hc). subst c. lia.
Qed.

Lemma wait_on_given entry during n : orderly n -> (forall c, pk_channel (entry c) = c) ->
  orderly (wait_on self delegations ctx_Err entry during n).2 /\
  forall a, (wait_on self delegations ctx_Err entry during n).1 = Ok a -> exists c, given_to (entry c) a.
Proof.
  intros Hn Hent. unfold wait_on. rewrite state_bind_unfold, (on_inbox_run fresh_channel). cbn [fresh_channel fst].
  set (c := ib_next (inbox_of n)). rewrite state_bind_unfold.
  pose proof (parked_waits entry n Hn Hent) as Hpark. cbv zeta in Hpark. fold c in Hpark.
  rewrite (on_inbox_run fresh_channel) in Hpark. cbn [fst snd fresh_channel] in *.
  set (n1 := (on_inbox (park (entry c)) _).2) in *. destruct Hpark as [Hk Hw].
  rewrite state_bind_unfold. destruct (comes_in_waits (wg_calls (during c)) c (entry c) n1 Hk Hw) as [Hk2 [_ Hw2]].
  set (n2 := (comes_in _ _ _ n1).2) in *. rewrite state_bind_unfold, (on_inbox_run (gets _)). cbn [gets fst snd].
  rewrite state_bind_unfold, (on_inbox_run (unpark _ _)). cbn [fst snd mret state_ret].
  assert (forall m, inbox_of (mk_node (inbox * (borrowing * R)) (n_vault n2) (n_seen n2) (n_load n2) (n_gossip n2) (m, snd (n_rest n2))) = m) as Ein by done.
  split.
  - destruct Hk2 as (Hc2 & Hl2 & Hp2). split; [|by split].
    rewrite !Ein. apply (channels_ok_step (EvUnpark (pk_peer (entry c)) (pk_id (entry c))) (mk_queue (inbox_of n2) []) Hc2).
  - intros a. destruct (ib_answers (inbox_of n2) !! c) as [a0|] eqn:Hc; [|done]. destruct (wg_ended _); [done|].
    intros [= <-]. exists c. by apply Hw2.
Qed.

(** ** What is handed on *)

(** The signature is one, by the key that was asked for, over the bytes this
    side asked to have signed. *)
Definition signs (msg : ApprovalRequest) (payload : bytes) (wrap : bool) (signature : bytes) : Prop :=
  exists pub blob sig, ParsePublicKey (rq_key msg)⇢kr_public_key = Ok pub /\ blobFor payload wrap (rq_sshsig msg) = Ok blob /\
    UnmarshalSignature signature = Ok sig /\ ssh_Verify pub blob sig = None.

Lemma verifySignature_Ok key payload wrap sig signature :
  verifySignature key payload wrap sig signature = Ok tt ->
  exists pub blob parsed, ParsePublicKey key⇢kr_public_key = Ok pub /\ blobFor payload wrap sig = Ok blob /\
    UnmarshalSignature signature = Ok parsed /\ ssh_Verify pub blob parsed = None.
Proof.
  unfold verifySignature. intros (pub & Hp & Hv)%result_bind_Ok. apply err_ctx_Ok in Hp.
  apply result_bind_Ok in Hv as (blob & Hb & Hv). apply result_bind_Ok in Hv as (parsed & Hs & Hv). apply err_ctx_Ok in Hs.
  exists pub, blob, parsed. split_and!; try done. by destruct (ssh_Verify pub blob parsed).
Qed.

(** The decision is about [out], as it was sent, and with an approval comes a
    signature. *)
Definition accepted (msg : ApprovalRequest) (payload : bytes) (wrap : bool) (resp : option SignedApproval * bytes) : Prop :=
  exists record key answer dec out body,
    trusted key /\ proves record key resp.1 (rq_request_id msg) (Digest body) answer dec /\
    Marshal out = Ok body /\
    rq_request_id out = rq_request_id msg /\ rq_operation out = rq_operation msg /\ rq_key out = rq_key msg /\
    (rs_decision dec = DECISION_APPROVE -> resp.2 <> [] /\ signs msg payload wrap resp.2).

Lemma outgoingSign_sent d msg (n : N) out body :
  (outgoingSign self headless d msg n).1 = Ok (out, body) ->
  Marshal out = Ok body /\ rq_request_id out = rq_request_id msg /\ rq_operation out = rq_operation msg /\ rq_key out = rq_key msg.
Proof.
  unfold outgoingSign. rewrite state_bind_unfold. cbn [mret state_ret fst].
  intros (o & Ho & Hs)%result_bind_Ok. unfold serialized in Hs. apply result_bind_Ok in Hs as (b & Hb & [= -> ->]).
  apply err_ctx_Ok in Hb. split; [done|]. revert Ho. unfold with_deadline. destruct d as [d|].
  - rewrite state_bind_unfold. cbn [fst mret state_ret]. destruct (_ <=? 0); [done|]. intros [= <-]. by destruct msg.
  - cbn. intros [= <-]. by destruct msg.
Qed.

Lemma accept_sound holder out payload wrap answer dec sig (n : N) resp :
  (acceptBorrowedSignature self endorsements holder out payload wrap answer dec sig n).1 = Ok resp ->
  resp = (an_Signed answer, sig) /\
  (an_Decision answer = DECISION_APPROVE -> sig <> [] /\ signs out payload wrap sig).
Proof.
  unfold acceptBorrowedSignature. rewrite !state_bind_unfold. cbn [mret state_ret fst].
  case_bool_decide as Hd; [by intros [= <-]|]. case_bool_decide as Hs; [done|].
  destruct (verifySignature _ _ _ _ _) as [[]|] eqn:Hv; [|done]. intros [= <-]. split; [done|]. intros _. split; [done|].
  by apply verifySignature_Ok.
Qed.

Lemma answer_named_fields record sa resp :
  an_Signed (answer_named record sa resp) = Some sa /\ an_Decision (answer_named record sa resp) = rs_decision resp.
Proof. done. Qed.

Lemma checkSignature_sound l out body payload wrap resp (n : N) got :
  (checkSignature self endorsements l out body payload wrap resp n).1 = Ok got ->
  exists record answer dec, proves record (ld_key l) got.1 (rq_request_id out) (Digest body) answer dec /\
    (rs_decision dec = DECISION_APPROVE -> got.2 <> [] /\ signs out payload wrap got.2).
Proof.
  unfold checkSignature. rewrite state_bind_unfold. cbn [gets fst snd]. unfold answerFrom.
  destruct (answerFromPeer _ _ _ _ _) as [[answer dec]|e] eqn:Ha; [|done]. rewrite state_bind_unfold. cbn [gets fst snd].
  intros Hacc. apply accept_sound in Hacc as [-> Hs]. apply answerFromPeer_Ok in Ha.
  exists (ld_record (current l n)), answer, dec. pose proof Ha as (sa & pub & Hsa & _ & _ & _ & _ & ->). cbn [fst snd] in *.
  rewrite (proj1 (answer_named_fields _ _ _)), <- Hsa. split; [exact Ha|exact Hs].
Qed.

Lemma sign_on_sound l out body payload wrap req ts e (n : N) got :
  (sign_on self endorsements floor ceiling gave_up l out body payload wrap req ts e n).1 = Ok got ->
  exists record answer dec, proves record (ld_key l) got.1 (rq_request_id out) (Digest body) answer dec /\
    (rs_decision dec = DECISION_APPROVE -> got.2 <> [] /\ signs out payload wrap got.2).
Proof.
  revert e n. induction ts as [|t ts IH]; intros e n; cbn [sign_on].
  - destruct e as [e|]; rewrite state_bind_unfold; done.
  - rewrite state_bind_unfold. destruct (resolves l t n) as [up n1]. cbn [fst snd]. destruct (negb up); [apply IH|].
    rewrite state_bind_unfold. destruct (fs_RemoteSign l t req n1) as [[resp|err] n2]; cbn [fst snd].
    + rewrite state_bind_unfold. apply checkSignature_sound.
    + rewrite state_bind_unfold. cbn [gets fst snd]. rewrite state_bind_unfold. cbn [gets fst snd].
      destruct (gave_up n2); [done|]. rewrite state_bind_unfold. apply IH.
Qed.

Lemma signs_same msg out payload wrap sig : rq_operation out = rq_operation msg -> rq_key out = rq_key msg ->
  signs out payload wrap sig -> signs msg payload wrap sig.
Proof. unfold signs, rq_sshsig. by intros -> ->. Qed.

Lemma signOverLink_sound parent l msg payload wrap (n : N) got :
  (signOverLink self headless endorsements floor ceiling tunnelDwell gave_up parent l msg payload wrap n).1 = Ok got ->
  trusted (ld_key l) -> accepted msg payload wrap got.
Proof.
  unfold signOverLink. rewrite state_bind_unfold. destruct (WithTimeout _ _ n) as [deadline n1]. cbn [fst snd].
  rewrite state_bind_unfold. destruct (outgoingSign self headless (Some deadline) msg n1) as [[[out body]|e] n2] eqn:Ho; cbn [fst snd]; [|done].
  pose proof (outgoingSign_sent (Some deadline) msg n1 out body) as Hsent. rewrite Ho in Hsent.
  destruct (Hsent eq_refl) as (Hb & Eid & Eop & Ekey).
  rewrite state_bind_unfold. destruct (targets tunnelDwell l n2) as [ts n3]. cbn [fst snd]. case_bool_decide; [done|].
  rewrite state_bind_unfold. destruct (on_vault _ n3) as [endorsement n4]. cbn [fst snd]. rewrite state_bind_unfold.
  destruct (track _ _ _ n4) as [[] n5]. cbn [fst snd]. rewrite state_bind_unfold.
  destruct (sign_on _ _ _ _ _ _ _ _ _ _ _ _ _ n5) as [answer n6] eqn:Hs. cbn [fst snd]. rewrite state_bind_unfold.
  cbn [mret state_ret fst]. intros -> Htr.
  pose proof (sign_on_sound l out body payload wrap (mk_RemoteSignRequest body payload wrap endorsement) ts None n5 got) as Hso.
  rewrite Hs in Hso. destruct (Hso eq_refl) as (record & ans & dec & Hpr & Hsig).
  exists record, (ld_key l), ans, dec, out, body. rewrite <- Eid. split_and!; try done.
  intros Hd. destruct (Hsig Hd) as [Hne Hsg]. split; [done|]. by eapply signs_same.
Qed.

Lemma signThroughInbox_sound during parent record msg payload wrap (n : N) got : orderly n ->
  let x := signThroughInbox self headless delegations endorsements ctx_Err during parent record msg payload wrap n in
  orderly x.2 /\ (x.1 = Ok got -> accepted msg payload wrap got).
Proof.
  cbv zeta. intros Hn. unfold signThroughInbox. rewrite state_bind_unfold.
  pose proof (keeps_WithTimeout parent (waitFor msg) n Hn) as Hn1.
  destruct (WithTimeout _ _ n) as [deadline n1]. cbn [fst snd] in *.
  rewrite state_bind_unfold. pose proof (keeps_outgoingSign (Some deadline) msg n1 Hn1) as Hn2.
  destruct (outgoingSign self headless (Some deadline) msg n1) as [[[out body]|e] n2] eqn:Ho; cbn [fst snd] in *; [|done].
  pose proof (outgoingSign_sent (Some deadline) msg n1 out body) as Hsent. rewrite Ho in Hsent.
  destruct (Hsent eq_refl) as (Hb & Eid & Eop & Ekey).
  rewrite state_bind_unfold. pose proof (keeps_on_vault Now same_peers_Now n2 Hn2) as Hn3. destruct (on_vault Now n2) as [since n3]. cbn [fst snd] in *.
  rewrite state_bind_unfold. pose proof (keeps_on_vault _ (same_peers_endorsementFor (rq_key msg)⇢kr_fingerprint) n3 Hn3) as Hn4.
  destruct (on_vault _ n3) as [endorsement n4]. cbn [fst snd] in *. rewrite state_bind_unfold.
  pose proof (keeps_track (rq_request_id out) (tr_fingerprint record) ((rq_sshsig out) ≫= sg_git_context) n4 Hn4) as Hn5.
  destruct (track _ _ _ n4) as [[] n5]. cbn [fst snd] in *. rewrite state_bind_unfold.
  set (entry := mk_parked _ _ _ _ _ _ _ _ _). destruct (wait_on_given entry during n5 Hn5 (fun c => eq_refl)) as [Hn6 Hg].
  destruct (wait_on _ _ _ _ _ n5) as [answer n6]. cbn [fst snd] in *. rewrite state_bind_unfold.
  destruct answer as [a|e].
  - pose proof (keeps_accept (tr_name record) out payload wrap (co_answer a) (co_decision a) (co_signature a) n6 Hn6) as Hn7.
    destruct (acceptBorrowedSignature _ _ _ _ _ _ _ _ _ n6) as [acc n7] eqn:Hacc. cbn [fst snd] in *.
    rewrite state_bind_unfold. cbn [mret state_ret fst snd]. split; [by apply keeps_untrack|]. intros ->.
    destruct (Hg a eq_refl) as (c & rec & key & signed & ans & dec & sig & Htr & Hpr & ->).
    pose proof (accept_sound (tr_name record) out payload wrap (set_an_GrantTTL 0 ans) dec sig n6 got) as Hs.
    cbn [co_answer co_decision co_signature] in Hacc. rewrite Hacc in Hs. destruct (Hs eq_refl) as [-> Hsig].
    exists rec, key, ans, dec, out, body. pose proof Hpr as (sa & pub & Hsa & _ & _ & _ & _ & Ean).
    cbn [fst snd] in *. subst ans. cbn [an_Signed set_an_GrantTTL answer_named]. cbn [pk_id pk_digest entry] in Hpr.
    rewrite <- Eid. split_and!; try done; [by rewrite <- Hsa|].
    intros Hd. destruct (Hsig Hd) as [Hne Hsg]. split; [done|]. by eapply signs_same.
  - cbn [mret state_ret fst snd]. rewrite state_bind_unfold. cbn [mret state_ret fst snd]. split; [by apply keeps_untrack|done].
Qed.

(** A way over a link pins a trusted key. *)
Definition route_ok (r : holderRoute) : Prop := match r with over_link l => trusted (lk_key l) | through_inbox _ => True end.

Lemma held_link_trusted l n : orderly n -> trusted (lk_key l) -> trusted (ld_key (held_link l n)).
Proof. intros (_ & Hl & _) Hk. unfold held_link. destruct (_ !! _) as [h|] eqn:Hh; [by eapply Hl|done]. Qed.

Lemma route_sign_sound during parent r msg payload wrap (n : N) got : orderly n -> route_ok r ->
  let x := route_sign self headless delegations endorsements floor ceiling tunnelDwell gave_up ctx_Err during parent r msg payload wrap n in
  orderly x.2 /\ (x.1 = Ok got -> accepted msg payload wrap got).
Proof.
  intros Hn Hr. destruct r as [l|record]; cbn [route_sign].
  - cbv zeta. rewrite state_bind_unfold. cbn [gets fst snd]. split; [by apply keeps_signOverLink|]. intros Hs.
    eapply signOverLink_sound; [exact Hs|by apply held_link_trusted].
  - by apply signThroughInbox_sound.
Qed.

(** ** In turn *)

(** The holders that were asked and settled nothing: they could not be
    reached and the caller had not given up, or had nobody to ask. *)
Inductive passed during parent msg payload wrap : list holderRoute -> N -> N -> Prop :=
| passed_none n : passed during parent msg payload wrap [] n n
| passed_failed r rest n n1 n2 e :
    route_sign self headless delegations endorsements floor ceiling tunnelDwell gave_up ctx_Err during parent r msg payload wrap n = (Err e, n1) ->
    gave_up n1 = false -> passed during parent msg payload wrap rest n1 n2 -> passed during parent msg payload wrap (r :: rest) n n2
| passed_nobody r rest n n1 n2 resp :
    route_sign self headless delegations endorsements floor ceiling tunnelDwell gave_up ctx_Err during parent r msg payload wrap n = (Ok resp, n1) ->
    reportedNoApprover resp = true -> passed during parent msg payload wrap rest n1 n2 -> passed during parent msg payload wrap (r :: rest) n n2.

Lemma ask_holders_turns during parent routes msg payload wrap n : routes <> [] ->
  let '(answer, n') := ask_holders self headless delegations endorsements floor ceiling tunnelDwell gave_up ctx_Err during parent routes msg payload wrap n in
  exists before r after m, routes = before ++ r :: after /\ passed during parent msg payload wrap before n m /\
    route_sign self headless delegations endorsements floor ceiling tunnelDwell gave_up ctx_Err during parent r msg payload wrap m = (answer, n') /\
    (after = [] \/ match answer with Ok resp => reportedNoApprover resp = false | Err _ => gave_up n' = true end).
Proof.
  revert n. induction routes as [|r routes IH]; intros n Hne; [done|]. cbn [ask_holders]. rewrite state_bind_unfold.
  destruct (route_sign _ _ _ _ _ _ _ _ _ _ _ r _ _ _ n) as [[resp|e] n1] eqn:Hr; cbn [fst snd].
  - destruct (bool_decide_reflect (routes = [])) as [->|Hrest]; cbn [orb].
    { cbn. exists [], r, [], n. split_and!; [done|constructor|done|by left]. }
    destruct (reportedNoApprover resp) eqn:Hno; cbn [negb].
    + specialize (IH n1 Hrest). destruct (ask_holders _ _ _ _ _ _ _ _ _ _ _ routes _ _ _ n1) as [answer n'].
      destruct IH as (before & r0 & after & m & -> & Hp & Hs & Hl). exists (r :: before), r0, after, m.
      split_and!; try done. by eapply passed_nobody.
    + cbn. exists [], r, routes, n. split_and!; [done|constructor|done|by right].
  - rewrite state_bind_unfold. cbn [gets fst snd]. destruct (bool_decide_reflect (routes = [])) as [->|Hrest]; cbn [orb].
    { cbn. exists [], r, [], n. split_and!; [done|constructor|done|by left]. }
    destruct (gave_up n1) eqn:Hg.
    + cbn. exists [], r, routes, n. split_and!; [done|constructor|done|by right].
    + specialize (IH n1 Hrest). destruct (ask_holders _ _ _ _ _ _ _ _ _ _ _ routes _ _ _ n1) as [answer n'].
      destruct IH as (before & r0 & after & m & -> & Hp & Hs & Hl). exists (r :: before), r0, after, m.
      split_and!; try done. by eapply passed_failed.
Qed.

Lemma ask_holders_sound during parent routes msg payload wrap n got : orderly n -> Forall route_ok routes ->
  (ask_holders self headless delegations endorsements floor ceiling tunnelDwell gave_up ctx_Err during parent routes msg payload wrap n).1 = Ok got ->
  accepted msg payload wrap got.
Proof.
  revert n. induction routes as [|r routes IH]; intros n Hn Hok; cbn [ask_holders]; [done|]. rewrite state_bind_unfold.
  apply Forall_cons in Hok as [Hr Hok]. destruct (route_sign_sound during parent r msg payload wrap n got Hn Hr) as [Hn1 Hs].
  destruct (route_sign _ _ _ _ _ _ _ _ _ _ _ r _ _ _ n) as [[resp|e] n1]; cbn [fst snd] in *.
  - destruct (_ || _); [|by apply IH]. cbn. by intros [= ->]; apply Hs.
  - rewrite state_bind_unfold. cbn [gets fst snd]. destruct (_ || _); [done|]. by apply IH.
Qed.

Lemma holderRoutes_ok fingerprint n : orderly n -> Forall route_ok (holderRoutes ours (sight_of n) fingerprint).
Proof.
  intros (_ & Hl & _). unfold holderRoutes. apply Forall_app. split; apply Forall_map; apply Forall_forall; [|done].
  intros l [Hin _]%elem_of_filter_bool. apply sortedLinks_elem in Hin as [fp Hin]. cbn [si_links sight_of] in Hin.
  rewrite lookup_fmap in Hin. apply fmap_Some_1 in Hin as (h & Hh & ->). by eapply Hl.
Qed.

Lemma RemoteSign_sound during parent msg payload wrap n resp n' :
  orderly n ->
  RemoteSign self headless delegations endorsements ours floor ceiling tunnelDwell gave_up ctx_Err during parent msg payload wrap n = (Ok resp, n') ->
  accepted msg payload wrap resp.
Proof.
  unfold RemoteSign. rewrite state_bind_unfold. cbn [gets fst snd]. intros Hn. case_bool_decide; [done|]. intros Hr.
  eapply (ask_holders_sound during parent); [exact Hn|by apply holderRoutes_ok|]. by rewrite Hr.
Qed.

(** Nothing is approved without the signature that was asked for: what a client
    of [RemoteKeys] relies on. *)
Lemma RemoteSign_signs during parent msg payload n resp n' dec pub :
  orderly n ->
  RemoteSign self headless delegations endorsements ours floor ceiling tunnelDwell gave_up ctx_Err during parent msg payload true n = (Ok resp, n') ->
  VerifyApproval resp.1 = Ok (dec, pub) -> rs_decision dec = DECISION_APPROVE -> signs msg payload true resp.2.
Proof.
  intros Hn Hr Hv Hd. destruct (RemoteSign_sound _ _ _ _ _ _ _ _ Hn Hr)
    as (record & key & answer & dec' & out & body & _ & (sa & pub' & _ & Hv' & _) & _ & _ & _ & _ & Hs).
  rewrite Hv in Hv'. injection Hv' as -> ->. by apply Hs.
Qed.

(** C6. Whatever comes back from a holder - over a
    link, or out of the inbox after whatever calls came in meanwhile - what is
    handed on to the caller carries a decision that verifies, by a trusted key -
    any set of keys will do that holds those of the links and of the peers
    that are paired and may approve, while the call lasts - for this very
    request and over the bytes that were sent, which ask for the same operation with
    the same key; and when it approves, a signature by the key that was asked
    for that verifies over the bytes this side wanted signed. *)
Theorem borrowed_signature_sound during parent msg payload wrap n resp n' :
  orderly n ->
  RemoteSign self headless delegations endorsements ours floor ceiling tunnelDwell gave_up ctx_Err during parent msg payload wrap n = (Ok resp, n') ->
  accepted msg payload wrap resp.
Proof. apply RemoteSign_sound. Qed.

(** Holders are asked in turn, and the first
    decision settles it.  The ways to a key's holders are tried in the order
    of the list; a holder is asked only when everyone before it could not be
    reached, with the caller still waiting, or said it had nobody to ask; and
    the answer - a denial, a refusal or an approval alike - is the answer of
    the first that decided, or of the last there was.  With no way to any
    holder nothing is asked and nothing changes. *)
Theorem first_decision_stands during parent msg payload wrap n :
  let routes := holderRoutes ours (sight_of n) (rq_key msg)⇢kr_fingerprint in
  let '(answer, n') := RemoteSign self headless delegations endorsements ours floor ceiling tunnelDwell gave_up ctx_Err during parent msg payload wrap n in
  (routes = [] -> answer = Err (noHolder (sight_of n) (rq_key msg)⇢kr_fingerprint) /\ n' = n) /\
  (routes <> [] ->
     exists before r after m, routes = before ++ r :: after /\ passed during parent msg payload wrap before n m /\
       route_sign self headless delegations endorsements floor ceiling tunnelDwell gave_up ctx_Err during parent r msg payload wrap m = (answer, n') /\
       (after = [] \/ match answer with Ok resp => reportedNoApprover resp = false | Err _ => gave_up n' = true end)).
Proof.
  cbv zeta. unfold RemoteSign. rewrite state_bind_unfold. cbn [gets fst snd]. case_bool_decide as Hr; [by split|].
  pose proof (ask_holders_turns during parent _ msg payload wrap n Hr) as Ht. destruct (ask_holders _ _ _ _ _ _ _ _ _ _ _ _ _ _ _ n).
  split; [done|]. by intros _.
Qed.

End Borrowed.

(** ** A desk that borrows the phone's key *)

Import Toy.
Import ToyInbox.

Module ToyBorrower.

Definition body : bytes := [x01].
Definition approved : ApprovalResponse :=
  mk_ApprovalResponse "r1" (Digest body) DECISION_APPROVE SOURCE_USER None None emp None None None false.
Definition denied : ApprovalResponse :=
  mk_ApprovalResponse "r1" (Digest body) DECISION_DENY SOURCE_NO_APPROVER None None emp None None None false.
#[export] Instance two_answers : Codec ApprovalResponse | 0 := table [approved; denied].
#[export] Instance one_body : Codec ApprovalRequest | 0 := {| Marshal _ := Ok body; Unmarshal _ := Err (errors_New "not read here") |}.

Definition lent : KeyRef := mk_KeyRef "SHA256:k" "toy" [x6b] "work" emp None.
Definition touched : GitContext :=
  mk_GitContext "/home/me/code" emp emp emp None emp "commit" [x07] None false emp.
Definition wanted (key : KeyRef) : ApprovalRequest :=
  mk_ApprovalRequest "r1" (Some 0) None KIND_GIT_SIGN (Some key) None 0 emp [] false None None
    (OpSshsig (mk_SshsigRequest "git" "sha512" [] (Some touched))).

Definition sign_with (k payload : bytes) : bytes := MarshalSignature (mk_Signature "toy" (k ++ payload) []).
Definition says (d : ApprovalResponse) : option SignedApproval :=
  Some (ok_or (mk_SignedApproval [] [] emp emp []) (SignApproval phone (Some d))).

#[export] Instance utc : LocalTime := fun _ => "then"%string.
Abbreviation desk_state := (node (inbox * (borrowing * unit))).

(** What the phone answers, and the rest leaves everything as it is. *)
Definition phone_answers (d : ApprovalResponse) (sig : bytes) : FarSide (R := unit) := {|
  fs_RemoteSign l t req := mret (inl (says d, sig));
  fs_RequestApproval l t b := mret (inl ([EventDecided 5 (says d)], None));
  fs_arrange l := mret [];
  fs_Delegated msg resp signed := mret tt |}.

Definition up : linked :=
  mk_linked phone_record phone_key (mk_line ["10.0.0.3:7777"%string] emp false pathDirect 0 true emp 10 [lent])
    (mk_raiser (newTunnelPath zero_time) [] 0 [] [] (fun _ => 100) 0).
Definition here : desk_state :=
  mk_node _ (mk_vault [] [] [] [] [phone_record] [] (fun _ => 100) 0 (fun _ => None) 0) ∅ ∅ []
    (empty_inbox, (mk_borrowing ∅ {[fp := up]} [] None None, tt)).

Definition none_waiting (c : nat) : waiting := mk_waiting [] false.
Definition borrows (d : ApprovalResponse) (sig : bytes) :=
  RemoteSign (H7 := phone_answers d sig) toy_identity false true true 1 Second Minute Minute (fun _ => false)
    DeadlineExceeded none_waiting None (wanted lent) [x07] false here.

End ToyBorrower.
Import ToyBorrower.

Definition handed_on (x : result (option SignedApproval * bytes) * desk_state) : option (bool * bytes) :=
  match x.1 with Ok (s, sig) => Some (bool_decide (is_Some s), sig) | Err _ => None end.

(** A signature by the key that was asked for is handed on, one by another key
    is not, and a denial comes without any. *)
Example what_comes_back :
  handed_on (borrows approved (sign_with [x6b] [x07])) = Some (true, sign_with [x6b] [x07]) /\
  handed_on (borrows approved (sign_with [x6c] [x07])) = None /\
  handed_on (borrows approved (sign_with [x6b] [x08])) = None /\
  handed_on (borrows approved []) = None /\
  handed_on (borrows denied []) = Some (true, []).
Proof. vm_compute. repeat split. Qed.

(** The keys there are here: the phone's. *)
Lemma here_orderly : orderly (R := unit) (eq phone_key) here.
Proof.
  split_and!.
  - exact (proj2 empty_queue_ok).
  - intros f l Hl. change (bo_linked (borrowing_of here)) with ({[fp := up]} : gmap string linked) in Hl.
    apply lookup_singleton_Some in Hl as [_ <-]. reflexivity.
  - intros r key Hr _ Hk. change (v_peers (n_vault here)) with [phone_record] in Hr. apply list_elem_of_singleton in Hr as ->.
    injection Hk as <-. reflexivity.
Qed.

#[export] Instance phone_answers_laws d sig : FarSideLaws (FarSide0 := phone_answers d sig) (eq phone_key).
Proof. split; repeat intro; assumption. Qed.

Lemma borrowed_signature_sound_witness :
  accepted (eq phone_key) (wanted lent) [x07] false (says approved, sign_with [x6b] [x07]).
Proof.
  apply (borrowed_signature_sound (FarSide0 := phone_answers approved (sign_with [x6b] [x07])) toy_identity false true true 1 Second Minute Minute
    (fun _ => false) DeadlineExceeded (eq phone_key) none_waiting None (wanted lent) [x07] false here
    (says approved, sign_with [x6b] [x07]) (borrows approved (sign_with [x6b] [x07])).2).
  - apply here_orderly.
  - apply first_is. vm_compute. reflexivity.
Defined.

(** What is out is kept by the request's id alone.  Asked of two approvers at
    once, a request's diff may be read by the later one only, and by neither
    once either has been asked. *)
Definition asked_of (peers : list string) : desk_state :=
  foldl (fun n p => (track "r1" p (Some touched) n).2) here peers.
Example one_reader_at_a_time :
  let readers n := map (fun p => bool_decide (is_Some (tracked "r1" p n))) ["SHA256:phone"%string; "SHA256:tablet"%string] in
  readers (asked_of ["SHA256:phone"%string]) = [true; false] /\
  readers (asked_of ["SHA256:phone"%string; "SHA256:tablet"%string]) = [false; true] /\
  readers (untrack "r1" (Some touched) (asked_of ["SHA256:phone"%string; "SHA256:tablet"%string])).2 = [false; false].
Proof. vm_compute. repeat split. Qed.
