(* ===== verification/Relay.v ===== *)
(** * Relay: the wake-up relay

    [pkg/relay]: the service a device registers its token with and a requester
    knocks at ([relay.go]), the two stores of registrations ([store.go]), and
    the caller's half ([client.go]).  A store is the class [DeviceStore] with
    its laws; the push services are the parameter [Push].  [Register] and
    [Wake] are cut where another call may run in between - before the
    registration is written, and while the push is out - so that the pieces
    can be run in any order.  The counting of calls is left out, and so is the
    log. *)

From S2P Require Import Prelude.
From S2P Require Import GoText.
From S2P Require Import Proto.
From S2P Require Import Ssh.
From S2P Require Import Identity.
From S2P Require Import Rpc.

Local Open Scope Z_scope.
Local Open Scope ladulas_scope.

(** ** Registrations *)

Record Device := mk_Device {
  dv_InstanceID : string;
  dv_Platform : string;
  dv_Token : string;
  dv_PublicKey : bytes;
  dv_Registered : time
}.

#[export] Instance Device_eq_dec : EqDecision Device.
Proof. solve_decision. Defined.

(** [Store]. *)
Class DeviceStore (S : Type) := {
  ds_Device : string -> S -> option Device;
  ds_Put : Device -> state S (option error);
  ds_Drop : string -> state S (option error)
}.

(** What is looked up next follows what was written, whether or not it could
    be kept. *)
Class DeviceStoreLaws (S : Type) `{!DeviceStore S} : Prop := {
  ds_Put_Device d id s : ds_Device id (ds_Put d s).2 = if bool_decide (dv_InstanceID d = id) then Some d else ds_Device id s;
  ds_Drop_Device id id' s : ds_Device id' (ds_Drop id s).2 = if bool_decide (id = id') then None else ds_Device id' s
}.

(** *** In memory *)

Definition MemoryStore := gmap string Device.

Definition Memory_Put (d : Device) : state MemoryStore (option error) := fun m => (None, <[dv_InstanceID d := d]> m).
Definition Memory_Drop (id : string) : state MemoryStore (option error) := fun m => (None, delete id m).
Definition Memory_Len (m : MemoryStore) : Z := Z.of_nat (size m).

#[export] Instance memory_store : DeviceStore MemoryStore := {|
  ds_Device id m := m !! id; ds_Put := Memory_Put; ds_Drop := Memory_Drop |}.

(** *** In a file

    The directory and the writes may fail, one outcome per save; what is in the
    file is the list that was written last.  [encoding/json] of a list of
    registrations is a [Codec]. *)

Section FileStore.
Context `{Codec (list Device)}.

Record FileStore := mk_FileStore {
  fs_devices : gmap string Device;
  fs_file : option bytes;
  fs_disk : nat -> option error;
  fs_saves : nat
}.

Definition OpenFileStore (file : result (option bytes)) (disk : nat -> option error) : result FileStore :=
  match file with
  | Err e => Err (wrap_w "read the device registrations: " e emp)
  | Ok None => Ok (mk_FileStore ∅ None disk 0)
  | Ok (Some body) =>
    devices ← err_ctx "parse the device registrations: " (Unmarshal body);
    Ok (mk_FileStore (foldl (fun m d => <[dv_InstanceID d := d]> m) ∅ devices) (Some body) disk 0)
  end.

Definition save : state FileStore (option error) := fun f =>
  match Marshal (map snd (map_to_list (fs_devices f))) with
  | Err e => (Some (wrap_w "encode the device registrations: " e emp), f)
  | Ok body =>
    match fs_disk f (fs_saves f) with
    | Some e => (Some e, mk_FileStore (fs_devices f) (fs_file f) (fs_disk f) (S (fs_saves f)))
    | None => (None, mk_FileStore (fs_devices f) (Some body) (fs_disk f) (S (fs_saves f)))
    end
  end.

Definition set_devices (m : gmap string Device) (f : FileStore) : FileStore :=
  mk_FileStore m (fs_file f) (fs_disk f) (fs_saves f).

Definition File_Put (d : Device) : state FileStore (option error) :=
  _ ← modify (fun f => set_devices (<[dv_InstanceID d := d]> (fs_devices f)) f); save.
Definition File_Drop (id : string) : state FileStore (option error) :=
  known ← gets (fun f => fs_devices f !! id);
  match known with
  | None => mret None
  | Some _ => _ ← modify (fun f => set_devices (delete id (fs_devices f)) f); save
  end.
Definition File_Len (f : FileStore) : Z := Z.of_nat (size (fs_devices f)).

#[export] Instance file_store : DeviceStore FileStore := {|
  ds_Device id f := fs_devices f !! id; ds_Put := File_Put; ds_Drop := File_Drop |}.

End FileStore.

(** ** The service *)

Record Throttle := mk_Throttle { th_Alert : duration; th_Silent : duration }.
Definition DefaultThrottle : Throttle := mk_Throttle (5 * Second) (60 * Second).

(** What [New] makes of the throttle it is given. *)
Definition with_defaults (t : Throttle) : Throttle :=
  mk_Throttle (if th_Alert t =? 0 then th_Alert DefaultThrottle else th_Alert t)
    (if th_Silent t =? 0 then th_Silent DefaultThrottle else th_Silent t).

Record WakeResponse := mk_WakeResponse { wp_outcome : WakeOutcome; wp_retry_after : option time }.
Definition outcome (kind : WakeOutcome) (retry : time) : WakeResponse :=
  mk_WakeResponse kind (if IsZero retry then None else Some retry).

Definition ErrUnregistered : error := sentinel "relay.ErrUnregistered" "relay: the device token is no longer registered".

(** [PushPlatform.String], and the table back; a name that is not in it is the
    zero value. *)
Definition platform_String (p : PushPlatform) : string :=
  match p with
  | PUSH_PLATFORM_UNSPECIFIED => "PUSH_PLATFORM_UNSPECIFIED"
  | PUSH_PLATFORM_APNS => "PUSH_PLATFORM_APNS"
  | PUSH_PLATFORM_FCM => "PUSH_PLATFORM_FCM"
  end.
Definition platformOf (name : string) : PushPlatform :=
  if bool_decide (name = "PUSH_PLATFORM_APNS"%string) then PUSH_PLATFORM_APNS
  else if bool_decide (name = "PUSH_PLATFORM_FCM"%string) then PUSH_PLATFORM_FCM
  else PUSH_PLATFORM_UNSPECIFIED.

Definition keysEqual (a b : bytes) : bool := bool_decide (a = b).

(** A push on its way. *)
Record push := mk_push { pu_id : string; pu_platform : PushPlatform; pu_token : string; pu_silent : bool; pu_subject : WakeSubject }.

Section Service.
Context `{Hashes} `{Ssh} `{Codec RelayCall}.
Context {S : Type} `{!DeviceStore S}.

(** The service: its store, when each identifier was last woken in each style,
    the clock, and - what a test of the source would count - the pushes sent
    with the moment each was paid for. *)
Record relay := mk_relay {
  ry_store : S;
  ry_last : gmap string time;
  ry_clock : nat -> time;
  ry_ticks : nat;
  ry_sent : list (time * push)
}.
Definition set_last (m : gmap string time) (r : relay) : relay := mk_relay (ry_store r) m (ry_clock r) (ry_ticks r) (ry_sent r).
Definition sent (t : time) (p : push) : state relay unit := modify (fun r =>
  mk_relay (ry_store r) (ry_last r) (ry_clock r) (ry_ticks r) (ry_sent r ++ [(t, p)])).
Definition ry_now : state relay time := fun r =>
  (ry_clock r (ry_ticks r), mk_relay (ry_store r) (ry_last r) (ry_clock r) (Datatypes.S (ry_ticks r)) (ry_sent r)).
Definition on_store {A} (m : state S A) : state relay A := fun r =>
  let '(a, s) := m (ry_store r) in (a, mk_relay s (ry_last r) (ry_clock r) (ry_ticks r) (ry_sent r)).

(** The throttle, and the platforms there is a push service for. *)
Variables (throttle : Throttle) (pushers : PushPlatform -> bool).

Definition verify (signed : option SignedRelayCall) : state relay (reply (RelayCall * PublicKey)) :=
  match VerifyRelayCall signed with
  | Err e => mret (inr (mk_rpc_error CodeUnauthenticated e))
  | Ok (call, key) =>
    if bool_decide (rc_instance_id call = emp)
    then mret (inr (mk_rpc_error CodeInvalidArgument (errors_New "the call names no instance")))
    else
      now ← ry_now;
      let drift := Sub now (AsTime (rc_issued_at call)) in
      mret (if (drift <? - RelayClockSkew) || (RelayClockSkew <? drift)
            then inr (mk_rpc_error CodeUnauthenticated (errors_New "that call was issued too far from now; check the clock"))
            else inl (call, key))
  end.

(** [Register] up to the registration that is to be written. *)
Definition Register_checks (signed : option SignedRelayCall) : state relay (reply Device) :=
  verified ← verify signed;
  match verified with
  | inr e => mret (inr e)
  | inl (call, key) =>
    match rc_register call with
    | None => mret (inr (mk_rpc_error CodeInvalidArgument (errors_New "that call is not a registration")))
    | Some registration =>
      if bool_decide (dr_device_token registration = emp)
      then mret (inr (mk_rpc_error CodeInvalidArgument (errors_New "the registration carries no device token")))
      else if negb (pushers (dr_platform registration))
      then mret (inr (mk_rpc_error CodeUnimplemented
             (errors_New ("this relay does not send " +:+ platform_String (dr_platform registration) +:+ " pushes"))))
      else
        let blob := ssh_Marshal key in
        existing ← gets (fun r => ds_Device (rc_instance_id call) (ry_store r));
        if match existing with Some d => negb (keysEqual (dv_PublicKey d) blob) | None => false end
        then mret (inr (mk_rpc_error CodePermissionDenied (errors_New "that instance id belongs to another identity")))
        else
          now ← ry_now;
          mret (inl (mk_Device (rc_instance_id call) (platform_String (dr_platform registration))
                      (dr_device_token registration) blob now))
    end
  end.

Definition Register_writes (device : Device) : state relay (reply unit) :=
  failed ← on_store (ds_Put device);
  mret (match failed with Some e => inr (mk_rpc_error CodeInternal e) | None => inl tt end).

Definition Register (signed : option SignedRelayCall) : state relay (reply unit) :=
  checked ← Register_checks signed;
  match checked with inr e => mret (inr e) | inl device => Register_writes device end.

Definition spend_key (instanceID : string) (silent : bool) : string :=
  if silent then instanceID +:+ String (ascii_of_N 0) "silent" else instanceID.
Definition gap (silent : bool) : duration := if silent then th_Silent throttle else th_Alert throttle.

(** When it may be tried again, or the moment it was paid for. *)
Definition spend (instanceID : string) (silent : bool) : state relay (time + time) :=
  now ← ry_now;
  last ← gets (fun r => ry_last r !! spend_key instanceID silent);
  match last with
  | Some last =>
    if Sub now last <? gap silent then mret (inl (Add last (gap silent)))
    else _ ← modify (fun r => set_last (<[spend_key instanceID silent := now]> (ry_last r)) r); mret (inr now)
  | None => _ ← modify (fun r => set_last (<[spend_key instanceID silent := now]> (ry_last r)) r); mret (inr now)
  end.

(** [Wake] up to the push: the answer there already is, or the push, which is
    sent.  The registration is read and the knock paid for in one step; the
    source does the one after the other, and neither looks at what the other
    changes. *)
Definition Wake_starts (signed : option SignedRelayCall) : state relay (reply WakeResponse + push) :=
  verified ← verify signed;
  match verified with
  | inr e => mret (inl (inr e))
  | inl (call, _) =>
    match rc_wake call with
    | None => mret (inl (inr (mk_rpc_error CodeInvalidArgument (errors_New "that call is not a wake-up"))))
    | Some wake =>
      let silent := bool_decide (wk_style wake = WAKE_STYLE_SILENT) in
      known ← gets (fun r => ds_Device (rc_instance_id call) (ry_store r));
      match known with
      | None => mret (inl (inl (outcome WAKE_OUTCOME_UNKNOWN zero_time)))
      | Some device =>
        paid ← spend (rc_instance_id call) silent;
        match paid with
        | inl retry => mret (inl (inl (outcome WAKE_OUTCOME_THROTTLED retry)))
        | inr at_ =>
          let platform := platformOf (dv_Platform device) in
          if negb (pushers platform)
          then mret (inl (inr (mk_rpc_error CodeUnimplemented
                 (errors_New ("this relay no longer sends " +:+ dv_Platform device +:+ " pushes")))))
          else
            let p := mk_push (rc_instance_id call) platform (dv_Token device) silent (wk_subject wake) in
            _ ← ry_now;
            _ ← sent at_ p;
            mret (inr p)
        end
      end
    end
  end.

(** What the platform answered. *)
Definition Wake_ends (p : push) (err : option error) : state relay (reply WakeResponse) :=
  _ ← ry_now;
  match err with
  | None => mret (inl (outcome WAKE_OUTCOME_DELIVERED zero_time))
  | Some e =>
    if negb (errors_Is e ErrUnregistered) then mret (inr (mk_rpc_error CodeUnavailable e))
    else
      _ ← on_store (ds_Drop (pu_id p));
      mret (inl (outcome WAKE_OUTCOME_UNREGISTERED zero_time))
  end.

(** [Push] runs while other calls do. *)
Definition Wake (Push : push -> state relay (option error)) (signed : option SignedRelayCall) : state relay (reply WakeResponse) :=
  started ← Wake_starts signed;
  match started with
  | inl answer => mret answer
  | inr p => err ← Push p; Wake_ends p err
  end.

End Service.

(** ** The caller's half *)

Section Client.
Context `{Ssh} `{Codec RelayCall}.
Variable self : Identity.

(** The call, signed. *)
Definition register_call (now : time) (random : bytes) (instanceID : string) (platform : PushPlatform) (token : string)
    : result SignedRelayCall :=
  let call := NewRelayCall now random instanceID in
  SignRelayCall self (Some (mk_RelayCall (rc_issued_at call) (rc_nonce call) (rc_instance_id call)
    (RelayRegister (mk_DeviceRegistration platform token)))).
Definition wake_call (now : time) (random : bytes) (instanceID : string) (style : WakeStyle) (subject : WakeSubject)
    : result SignedRelayCall :=
  let call := NewRelayCall now random instanceID in
  SignRelayCall self (Some (mk_RelayCall (rc_issued_at call) (rc_nonce call) (rc_instance_id call)
    (RelayWake (mk_Wake style subject)))).

Definition Client_Register (relayURL : string) (service : option SignedRelayCall -> reply unit) (now : time) (random : bytes)
    (instanceID : string) (platform : PushPlatform) (token : string) : result unit :=
  signed ← register_call now random instanceID platform token;
  match service (Some signed) with
  | inr e => Err (wrap_w ("register with the relay at " +:+ relayURL +:+ ": ") (rpc_as_error e) emp)
  | inl _ => Ok tt
  end.

Definition Client_Wake (relayURL : string) (service : option SignedRelayCall -> reply WakeResponse) (now : time) (random : bytes)
    (instanceID : string) (style : WakeStyle) (subject : WakeSubject) : result WakeOutcome :=
  signed ← wake_call now random instanceID style subject;
  match service (Some signed) with
  | inr e => Err (wrap_w ("wake through the relay at " +:+ relayURL +:+ ": ") (rpc_as_error e) emp)
  | inl resp => Ok (wp_outcome resp)
  end.

End Client.
