(* ===== verification/RelaySpec.v ===== *)
(** * RelaySpec: who owns an identifier, and how often it is knocked at

    The theorems about [Relay], over every order in which registrations are
    checked and written and pushes are sent and answered, and for every store
    that keeps its laws; both stores of the source do. *)

From S2P Require Import Prelude.
From S2P Require Import GoText.
From S2P Require Import Proto.
From S2P Require Import Ssh.
From S2P Require Import Identity.
From S2P Require Import Rpc.
From S2P Require Import Relay.

Local Open Scope Z_scope.
Local Open Scope ladulas_scope.

(** ** The stores *)

#[export] Instance memory_store_laws : DeviceStoreLaws MemoryStore.
Proof.
  split; intros *; cbn; case_bool_decide as E; subst;
    [by apply lookup_insert_eq|by apply lookup_insert_ne|by apply lookup_delete_eq|by apply lookup_delete_ne].
Qed.

Section File.
Context `{Codec (list Device)}.

Lemma save_devices f : fs_devices (save f).2 = fs_devices f.
Proof. unfold save. destruct (Marshal _); [|done]. by destruct (fs_disk f _). Qed.

#[export] Instance file_store_laws : DeviceStoreLaws FileStore.
Proof.
  split; cbn [ds_Device ds_Put ds_Drop file_store].
  - intros d id f. unfold File_Put. rewrite state_bind_unfold. cbn [modify fst snd]. rewrite save_devices. cbn.
    case_bool_decide as E; subst; [by apply lookup_insert_eq|by apply lookup_insert_ne].
  - intros id id' f. unfold File_Drop. rewrite state_bind_unfold. cbn [gets fst snd].
    destruct (fs_devices f !! id) as [d|] eqn:Hd.
    + rewrite state_bind_unfold. cbn [modify fst snd]. rewrite save_devices. cbn.
      case_bool_decide as E; subst; [by apply lookup_delete_eq|by apply lookup_delete_ne].
    + cbn. by case_bool_decide as E; subst.
Qed.

(** Every registration stands under its own identifier. *)
Definition keyed (m : gmap string Device) : Prop := forall id d, m !! id = Some d -> dv_InstanceID d = id.

Lemma keyed_insert d m : keyed m -> keyed (<[dv_InstanceID d := d]> m).
Proof. intros Hm id d' [[<- <-]|[_ Hd]]%lookup_insert_Some; [done|by apply Hm]. Qed.
Lemma keyed_delete id m : keyed m -> keyed (delete id m).
Proof. intros Hm id' d [_ Hd]%lookup_delete_Some. by apply Hm. Qed.

Lemma foldl_keyed l (m : gmap string Device) : keyed m -> keyed (foldl (fun m d => <[dv_InstanceID d := d]> m) m l).
Proof. revert m. induction l as [|d l IH]; intros m Hm; [done|]. cbn. by apply IH, keyed_insert. Qed.

(** Reading the list of a map whose registrations stand under their own
    identifiers gives the map back. *)
Lemma foldl_list_to_map l (m : gmap string Device) : NoDup (map dv_InstanceID l) -> Forall (fun d => m !! dv_InstanceID d = None) l ->
  foldl (fun m d => <[dv_InstanceID d := d]> m) m l = list_to_map (map (fun d => (dv_InstanceID d, d)) l) ∪ m.
Proof.
  revert m. induction l as [|d l IH]; intros m Hn Hm; [cbn; by rewrite map_empty_union|].
  apply NoDup_cons in Hn as [Hd Hn]. apply Forall_cons in Hm as [Hdm Hm]. cbn [foldl map list_to_map]. rewrite IH; [|done|].
  - cbn [map]. rewrite list_to_map_cons.
    apply map_eq. intros id. destruct (decide (id = dv_InstanceID d)) as [->|Hne].
    + assert ((list_to_map (map (fun d0 => (dv_InstanceID d0, d0)) l) : gmap string Device) !! dv_InstanceID d = None) as Hno.
      { apply not_elem_of_list_to_map. by rewrite <- list_fmap_compose. }
      rewrite !lookup_union, !lookup_insert_eq, Hdm, Hno. reflexivity.
    + by rewrite !lookup_union, !lookup_insert_ne by auto.
  - apply Forall_forall. intros e He. rewrite lookup_insert_ne.
    + by eapply (Forall_forall _ l) in Hm.
    + intros E. apply Hd. rewrite E. by apply list_elem_of_fmap_2.
Qed.

Lemma read_back (m : gmap string Device) : keyed m -> foldl (fun m d => <[dv_InstanceID d := d]> m) ∅ (map snd (map_to_list m)) = m.
Proof.
  intros Hm.
  assert (map (fun d => (dv_InstanceID d, d)) (map snd (map_to_list m)) = map_to_list m) as E.
  { rewrite map_map. rewrite <- (list_fmap_id (map_to_list m)) at 2. apply list_fmap_ext. intros i [id d] Hi.
    apply list_elem_of_lookup_2, elem_of_map_to_list in Hi. cbn. by rewrite (Hm _ _ Hi). }
  rewrite foldl_list_to_map.
  - rewrite E, list_to_map_to_list. by rewrite map_union_empty.
  - pose proof (NoDup_fst_map_to_list m) as Hn. rewrite <- E in Hn at 1. by rewrite <- list_fmap_compose in Hn.
  - apply Forall_forall. intros d _. apply lookup_empty.
Qed.

End File.

(** ** Runs of the service *)

Section Runs.
Context `{Hashes} `{Ssh} `{Codec RelayCall}.
Context {S : Type} `{!DeviceStore S} `{!DeviceStoreLaws S}.
Variables (throttle : Throttle) (pushers : PushPlatform -> bool).

(** What happens at the service: a whole registration; the checks of one and,
    later, its writing; a knock up to its push and, later, what the platform
    answered. *)
Inductive relay_event :=
| EvRegister (signed : option SignedRelayCall)
| EvChecks (signed : option SignedRelayCall)
| EvWrites (i : nat)
| EvWake (signed : option SignedRelayCall)
| EvPushed (i : nat) (err : option error).

(** The service with the registrations checked and not yet written, and the
    pushes sent and not yet answered, in the order they came. *)
Record relay_run := mk_run { rr_relay : relay (S := S); rr_checked : list Device; rr_pushes : list push }.

Definition relay_step (ev : relay_event) (x : relay_run) : relay_run :=
  match ev with
  | EvRegister signed => mk_run (Register pushers signed (rr_relay x)).2 (rr_checked x) (rr_pushes x)
  | EvChecks signed =>
    match Register_checks pushers signed (rr_relay x) with
    | (inl d, r) => mk_run r (rr_checked x ++ [d]) (rr_pushes x)
    | (inr _, r) => mk_run r (rr_checked x) (rr_pushes x)
    end
  | EvWrites i =>
    match rr_checked x !! i with
    | Some d => mk_run (Register_writes d (rr_relay x)).2 (rr_checked x) (rr_pushes x)
    | None => x
    end
  | EvWake signed =>
    match Wake_starts throttle pushers signed (rr_relay x) with
    | (inr p, r) => mk_run r (rr_checked x) (rr_pushes x ++ [p])
    | (inl _, r) => mk_run r (rr_checked x) (rr_pushes x)
    end
  | EvPushed i err =>
    match rr_pushes x !! i with
    | Some p => mk_run (Wake_ends p err (rr_relay x)).2 (rr_checked x) (rr_pushes x)
    | None => x
    end
  end.
Definition relay_runs (evs : list relay_event) (x : relay_run) : relay_run := foldl (fun x ev => relay_step ev x) x evs.

Definition device_of (x : relay_run) (id : string) : option Device := ds_Device id (ry_store (rr_relay x)).

(** *** What the pieces do *)

Lemma verify_run signed (r : relay (S := S)) :
  match verify signed r with
  | (inl (call, key), r') => VerifyRelayCall signed = Ok (call, key) /\ rc_instance_id call <> emp /\
      (exists now, - RelayClockSkew <= Sub now (AsTime (rc_issued_at call)) <= RelayClockSkew) /\
      ry_store r' = ry_store r /\ ry_last r' = ry_last r /\ ry_sent r' = ry_sent r
  | (inr _, r') => ry_store r' = ry_store r /\ ry_last r' = ry_last r /\ ry_sent r' = ry_sent r
  end.
Proof.
  unfold verify. destruct (VerifyRelayCall signed) as [[call key]|e]; [|by cbn]. case_bool_decide as Hid; [by cbn|].
  rewrite state_bind_unfold. cbn [ry_now fst snd mret state_ret]. destruct (_ || _) eqn:Hd; [by cbn|].
  apply orb_false_iff in Hd as [Hlo Hhi]. split_and!; try done.
  exists (ry_clock r (ry_ticks r)). apply Z.ltb_ge in Hlo, Hhi. lia.
Qed.

(** Where a registration comes from: a call that verifies, by the key that is
    written down. *)
Definition registered_by (d : Device) : Prop :=
  exists signed call key registration, VerifyRelayCall signed = Ok (call, key) /\ rc_register call = Some registration /\
    dv_InstanceID d = rc_instance_id call /\ dv_PublicKey d = ssh_Marshal key /\
    dv_Token d = dr_device_token registration /\ dv_Token d <> emp /\ dv_Platform d = platform_String (dr_platform registration).

Lemma checks_run signed (r : relay (S := S)) :
  let x := Register_checks pushers signed r in
  ry_store x.2 = ry_store r /\ ry_last x.2 = ry_last r /\ ry_sent x.2 = ry_sent r /\
  match x.1 with
  | inl d => registered_by d /\ (forall d', ds_Device (dv_InstanceID d) (ry_store r) = Some d' -> dv_PublicKey d' = dv_PublicKey d)
  | inr _ => True
  end.
Proof.
  cbv zeta. unfold Register_checks. rewrite state_bind_unfold. pose proof (verify_run signed r) as Hv.
  destruct (verify signed r) as [[[call key]|e] r']; cbn [fst snd]; [|by cbn; naive_solver].
  destruct Hv as (Hv & _ & _ & Es & El & En). destruct (rc_register call) as [reg|] eqn:Hr; [|by cbn].
  case_bool_decide as Ht; [by cbn|]. destruct (negb _); [by cbn|]. rewrite state_bind_unfold. cbn [gets fst snd].
  destruct (match ds_Device (rc_instance_id call) (ry_store r') with Some d => _ | None => false end) eqn:Hk; [by cbn|].
  rewrite state_bind_unfold. cbn. split_and!; try done.
  - exists signed, call, key, reg. by split_and!.
  - intros d' Hd'. rewrite Es, Hd' in Hk. unfold keysEqual in Hk. by apply negb_false_iff, bool_decide_eq_true in Hk.
Qed.

Lemma writes_run d (r : relay (S := S)) :
  let r' := (Register_writes d r).2 in
  ry_last r' = ry_last r /\ ry_sent r' = ry_sent r /\
  forall id, ds_Device id (ry_store r') = if bool_decide (dv_InstanceID d = id) then Some d else ds_Device id (ry_store r).
Proof.
  cbv zeta. unfold Register_writes. rewrite state_bind_unfold. unfold on_store. pose proof (ds_Put_Device d) as Hp.
  destruct (ds_Put d (ry_store r)) as [failed s'] eqn:E. cbn. split_and!; [done|done|].
  intros id. specialize (Hp id (ry_store r)). by rewrite E in Hp.
Qed.

Lemma ends_run p err (r : relay (S := S)) :
  let r' := (Wake_ends p err r).2 in
  ry_last r' = ry_last r /\ ry_sent r' = ry_sent r /\
  forall id, ds_Device id (ry_store r') = ds_Device id (ry_store r) \/
    (exists e, err = Some e /\ errors_Is e ErrUnregistered = true /\ pu_id p = id /\ ds_Device id (ry_store r') = None).
Proof.
  cbv zeta. unfold Wake_ends. rewrite state_bind_unfold. cbn [ry_now fst snd]. destruct err as [e|]; [|by cbn; auto].
  destruct (errors_Is e ErrUnregistered) eqn:He; [|by cbn; auto]. cbn [negb]. rewrite state_bind_unfold. unfold on_store. cbn [ry_store].
  pose proof (ds_Drop_Device (pu_id p)) as Hp. destruct (ds_Drop (pu_id p) (ry_store r)) as [failed s'] eqn:E. cbn.
  split_and!; [done|done|]. intros id. specialize (Hp id (ry_store r)). rewrite E in Hp. cbn in Hp. rewrite Hp.
  case_bool_decide as Ei; [right; by exists e|by left].
Qed.

Lemma spend_run id silent (r : relay (S := S)) :
  let key := spend_key id silent in
  let x := spend throttle id silent r in
  ry_store x.2 = ry_store r /\ ry_sent x.2 = ry_sent r /\
  match x.1 with
  | inr now => ry_last x.2 = <[key := now]> (ry_last r) /\
      (forall last, ry_last r !! key = Some last -> gap throttle silent <= Sub now last)
  | inl retry => ry_last x.2 = ry_last r /\
      exists last, ry_last r !! key = Some last /\ retry = Add last (gap throttle silent)
  end.
Proof.
  cbv zeta. unfold spend. rewrite state_bind_unfold. cbn [ry_now fst snd]. rewrite state_bind_unfold. cbn [gets fst snd ry_last].
  destruct (ry_last r !! spend_key id silent) as [last|] eqn:Hl.
  - destruct (Z.ltb_spec (Sub (ry_clock r (ry_ticks r)) last) (gap throttle silent)) as [Hg|Hg].
    + cbn. split_and!; try done. by exists last.
    + rewrite state_bind_unfold. cbn. split_and!; try done. by intros ? [= <-].
  - rewrite state_bind_unfold. cbn. by split_and!.
Qed.

Lemma starts_run signed (r : relay (S := S)) :
  let x := Wake_starts throttle pushers signed r in
  ry_store x.2 = ry_store r /\
  match x.1 with
  | inr p => exists at_ d, ry_sent x.2 = ry_sent r ++ [(at_, p)] /\
      ry_last x.2 = <[spend_key (pu_id p) (pu_silent p) := at_]> (ry_last r) /\
      (forall last, ry_last r !! spend_key (pu_id p) (pu_silent p) = Some last -> gap throttle (pu_silent p) <= Sub at_ last) /\
      ds_Device (pu_id p) (ry_store r) = Some d /\ pu_token p = dv_Token d /\ pu_platform p = platformOf (dv_Platform d)
  | inl _ => ry_sent x.2 = ry_sent r /\
      (ry_last x.2 = ry_last r \/
       exists id silent now, ry_last x.2 = <[spend_key id silent := now]> (ry_last r) /\
         (forall last, ry_last r !! spend_key id silent = Some last -> gap throttle silent <= Sub now last))
  end.
Proof.
  cbv zeta. unfold Wake_starts. rewrite state_bind_unfold. pose proof (verify_run signed r) as Hv.
  destruct (verify signed r) as [[[call key]|e] r']; cbn [fst snd]; [|by cbn; naive_solver].
  destruct Hv as (_ & _ & _ & Es & El & En). destruct (rc_wake call) as [w|]; [|by cbn; auto].
  set (silent := bool_decide _). rewrite state_bind_unfold. cbn [gets fst snd].
  destruct (ds_Device (rc_instance_id call) (ry_store r')) as [d|] eqn:Hd; [|by cbn; auto].
  rewrite state_bind_unfold. pose proof (spend_run (rc_instance_id call) silent r') as Hs.
  destruct (spend throttle (rc_instance_id call) silent r') as [[retry|at_] r'']; cbn [fst snd] in *.
  - destruct Hs as (E1 & E2 & E3 & _). cbn. split_and!; [congruence|congruence|left; congruence].
  - destruct Hs as (E1 & E2 & E3 & Hg). rewrite El in E3, Hg. destruct (negb _).
    + cbn. split_and!; [congruence|congruence|right]. by exists (rc_instance_id call), silent, at_.
    + rewrite !state_bind_unfold. cbn. split; [congruence|]. exists at_, d.
      split_and!; [by rewrite E2, En|done|done|by rewrite <- Es|done|done].
Qed.

(** *** Who is registered *)

(** Everything held, and everything about to be written, was asked for by the
    key it is written down with. *)
Definition all_registered (x : relay_run) : Prop :=
  (forall id d, device_of x id = Some d -> dv_InstanceID d = id /\ registered_by d) /\ Forall registered_by (rr_checked x).

Lemma all_registered_writes x d : (forall id d', device_of x id = Some d' -> dv_InstanceID d' = id /\ registered_by d') ->
  registered_by d -> forall id d', ds_Device id (ry_store (Register_writes d (rr_relay x)).2) = Some d' ->
  dv_InstanceID d' = id /\ registered_by d'.
Proof.
  intros Hx Hd id d'. destruct (writes_run d (rr_relay x)) as (_ & _ & ->). case_bool_decide as E; [|by apply Hx].
  by intros [= <-].
Qed.

Lemma all_registered_step ev x : all_registered x -> all_registered (relay_step ev x).
Proof.
  intros [Hx Hc]. destruct ev as [signed|signed|i|signed|i err]; cbn [relay_step].
  - pose proof (checks_run signed (rr_relay x)) as (Es & _ & _ & Hr). unfold Register. split; [|exact Hc].
    unfold device_of. cbn [rr_relay]. rewrite state_bind_unfold.
    destruct (Register_checks _ _ _) as [[d|e] r]; cbn [fst snd] in *; [|cbn; rewrite Es; exact Hx].
    apply (all_registered_writes (mk_run r [] [])); [|by destruct Hr]. intros id d'. unfold device_of. cbn. rewrite Es. apply Hx.
  - pose proof (checks_run signed (rr_relay x)) as (Es & _ & _ & Hr).
    destruct (Register_checks _ _ _) as [[d|e] r]; cbn [fst snd] in *; split; cbn; unfold device_of; cbn; try (by rewrite Es).
    + apply Forall_app. split; [done|]. constructor; [by destruct Hr|done].
    + done.
  - destruct (rr_checked x !! i) as [d|] eqn:Hi; [|by split]. split; [|exact Hc]. apply all_registered_writes; [exact Hx|].
    by eapply Forall_lookup in Hc.
  - pose proof (starts_run signed (rr_relay x)) as [Es _].
    destruct (Wake_starts _ _ _ _) as [[a|p] r]; cbn [fst snd] in *; (split; [|exact Hc]); unfold device_of; cbn; by rewrite Es.
  - destruct (rr_pushes x !! i) as [p|]; [|by split]. split; [|exact Hc]. intros id d. unfold device_of. cbn.
    destruct (ends_run p err (rr_relay x)) as (_ & _ & Hd). destruct (Hd id) as [-> |(e & _ & _ & _ & ->)]; [apply Hx|done].
Qed.

(** C36. An identifier belongs to the first key that claims it.  Whatever else is
    registered and knocked at, as long as registrations are made one at a
    time: who is registered under an identifier afterwards has the key of who
    was before, unless the platform has said in between that the token is
    dead; and every registration was asked for by a call that verifies with
    the key it is written down with, and carries the token that call named. *)
Theorem first_key_owns_the_id evs x id d :
  all_registered x -> Forall (fun ev => match ev with EvChecks _ | EvWrites _ => False | _ => True end) evs ->
  device_of x id = Some d ->
  let x' := relay_runs evs x in
  (exists before i e after p, evs = before ++ EvPushed i (Some e) :: after /\ errors_Is e ErrUnregistered = true /\
     rr_pushes (relay_runs before x) !! i = Some p /\ pu_id p = id) \/
  (exists d', device_of x' id = Some d' /\ dv_PublicKey d' = dv_PublicKey d /\ registered_by d').
Proof.
  cbv zeta. revert x d. induction evs as [|ev evs IH]; intros x d Hx Hevs Hd.
  { right. exists d. split_and!; [done|done|]. by eapply (proj1 Hx). }
  apply Forall_cons in Hevs as [Hev Hevs]. cbn [relay_runs foldl].
  assert ((exists i e p, ev = EvPushed i (Some e) /\ errors_Is e ErrUnregistered = true /\ rr_pushes x !! i = Some p /\ pu_id p = id) \/
          exists d', device_of (relay_step ev x) id = Some d' /\ dv_PublicKey d' = dv_PublicKey d) as Hstep.
  { destruct ev as [signed|signed|i|signed|i err]; try done; cbn [relay_step].
    - right. unfold Register, device_of. cbn [rr_relay]. rewrite state_bind_unfold.
      pose proof (checks_run signed (rr_relay x)) as (Es & _ & _ & Hr).
      destruct (Register_checks _ _ _) as [[d1|e] r]; cbn [fst snd] in *.
      + destruct Hr as [_ Hr]. destruct (writes_run d1 r) as (_ & _ & ->). case_bool_decide as E.
        * exists d1. split; [done|]. subst id. symmetry. by apply Hr.
        * exists d. by rewrite Es.
      + exists d. cbn; by rewrite Es.
    - right. exists d. pose proof (starts_run signed (rr_relay x)) as [Es _].
      destruct (Wake_starts _ _ _ _) as [[a|p] r]; cbn [fst snd] in *; unfold device_of; cbn; by rewrite Es.
    - destruct (rr_pushes x !! i) as [p|] eqn:Hp; [|right; by exists d].
      destruct (ends_run p err (rr_relay x)) as (_ & _ & Hds). destruct (Hds id) as [E|(e & -> & He & Hid & _)].
      + right. exists d. unfold device_of. cbn. by rewrite E.
      + left. by exists i, e, p. }
  destruct Hstep as [(i & e & p & -> & He & Hp & Hid)|(d' & Hd' & Hk)].
  { left. by exists [], i, e, evs, p. }
  destruct (IH (relay_step ev x) d') as [(before & i & e & after & p & -> & He & Hp & Hid)|(d2 & Hd2 & Hk2 & Hr2)]; try done.
  - by apply all_registered_step.
  - left. by exists (ev :: before), i, e, after, p.
  - right. exists d2. split_and!; [done|congruence|done].
Qed.

(** *** How often a device is knocked at *)

(** The moments of two pushes of one kind to one device. *)
Definition paced_apart (l : list (time * push)) : Prop :=
  forall i j ti tj pi pj, (i < j)%nat -> l !! i = Some (ti, pi) -> l !! j = Some (tj, pj) ->
    pu_id pi = pu_id pj -> pu_silent pi = pu_silent pj -> gap throttle (pu_silent pi) <= tj - ti.

(** Every push sent has been paid for no later than the last payment. *)
Definition paid_up (r : relay (S := S)) : Prop :=
  forall i t p, ry_sent r !! i = Some (t, p) -> exists last, ry_last r !! spend_key (pu_id p) (pu_silent p) = Some last /\ t <= last.

Hypothesis gaps : forall silent, 0 <= gap throttle silent < 2 ^ 63.

Lemma Sub_apart now last silent : gap throttle silent <= Sub now last -> gap throttle silent <= now - last.
Proof. pose proof (gaps silent). unfold Sub. lia. Qed.

Lemma paid_up_last (r r' : relay (S := S)) key now g :
  paid_up r -> ry_sent r' = ry_sent r -> ry_last r' = <[key := now]> (ry_last r) ->
  (forall last, ry_last r !! key = Some last -> gap throttle g <= Sub now last) -> paid_up r'.
Proof.
  intros Hp En El Hg i t p. rewrite En, El. intros Hi. destruct (Hp i t p Hi) as (last & Hl & Ht).
  destruct (decide (key = spend_key (pu_id p) (pu_silent p))) as [->|Hne].
  - rewrite lookup_insert_eq. exists now. split; [done|]. pose proof (Sub_apart _ _ _ (Hg _ Hl)). pose proof (gaps g). lia.
  - rewrite lookup_insert_ne by done. by exists last.
Qed.

Lemma paced_step ev x : paid_up (rr_relay x) /\ paced_apart (ry_sent (rr_relay x)) ->
  paid_up (rr_relay (relay_step ev x)) /\ paced_apart (ry_sent (rr_relay (relay_step ev x))).
Proof.
  intros [Hp Ha].
  assert (forall r', ry_sent r' = ry_sent (rr_relay x) -> ry_last r' = ry_last (rr_relay x) -> paid_up r' /\ paced_apart (ry_sent r')) as Hsame.
  { intros r' En El. unfold paid_up. rewrite En, El. by split. }
  destruct ev as [signed|signed|i|signed|i err]; cbn [relay_step].
  - pose proof (checks_run signed (rr_relay x)) as (_ & El & En & _). unfold Register. cbn [rr_relay]. rewrite state_bind_unfold.
    destruct (Register_checks _ _ _) as [[d|e] r]; cbn [fst snd] in *; [|by apply Hsame].
    destruct (writes_run d r) as (E1 & E2 & _). apply Hsame; congruence.
  - pose proof (checks_run signed (rr_relay x)) as (_ & El & En & _).
    destruct (Register_checks _ _ _) as [[d|e] r]; cbn [fst snd] in *; by apply Hsame.
  - destruct (rr_checked x !! i) as [d|]; [|done]. destruct (writes_run d (rr_relay x)) as (E1 & E2 & _). by apply Hsame.
  - pose proof (starts_run signed (rr_relay x)) as [_ Hs].
    destruct (Wake_starts _ _ _ _) as [[a|p] r]; cbn [fst snd rr_relay] in *.
    + destruct Hs as [En [El|(id & silent & now & El & Hg)]]; [by apply Hsame|]. split; [by eapply paid_up_last|by rewrite En].
    + destruct Hs as (at_ & d & En & El & Hg & _ & _ & _). split.
      * intros i t q. rewrite En, El. intros [Hi|[_ Hi]]%lookup_app_Some.
        -- pose proof (paid_up_last (rr_relay x) (mk_relay (ry_store r) (ry_last r) (ry_clock r) (ry_ticks r) (ry_sent (rr_relay x)))
             _ _ _ Hp eq_refl El Hg i t q Hi) as Hq. cbn in Hq. by rewrite El in Hq.
        -- apply list_lookup_singleton_Some in Hi as [_ [= <- <-]]. rewrite lookup_insert_eq. exists at_. by split.
      * rewrite En. intros i j ti tj pi pj Hij Hi Hj Eid Esil.
        apply lookup_app_Some in Hj as [Hj|[Hlen Hj]].
        -- rewrite lookup_app_l in Hi by (apply lookup_lt_Some in Hj; lia). by eapply Ha.
        -- apply list_lookup_singleton_Some in Hj as [Hj [= <- <-]]. rewrite lookup_app_l in Hi by lia.
           destruct (Hp i ti pi Hi) as (last & Hl & Ht). rewrite Eid, Esil in Hl. rewrite Esil.
           pose proof (Sub_apart _ _ _ (Hg _ Hl)). lia.
  - destruct (rr_pushes x !! i) as [p|]; [|done]. destruct (ends_run p err (rr_relay x)) as (E1 & E2 & _). by apply Hsame.
Qed.

(** C38. However often a device is knocked at, and by whomever: any two pushes of
    one kind that went out to it are as far apart as the throttle says, by the
    service's own clock - whatever the clock does, and in whatever order calls
    are taken and pushes answered. *)
Theorem knocks_are_apart evs (r : relay (S := S)) :
  ry_sent r = [] -> paced_apart (ry_sent (rr_relay (relay_runs evs (mk_run r [] [])))).
Proof.
  intros Hr. assert (forall x, paid_up (rr_relay x) /\ paced_apart (ry_sent (rr_relay x)) ->
    paced_apart (ry_sent (rr_relay (relay_runs evs x)))) as Hgo.
  { induction evs as [|ev evs IH]; intros x Hx; [apply Hx|]. cbn [relay_runs foldl]. by apply IH, paced_step. }
  apply Hgo. cbn. unfold paid_up, paced_apart. rewrite Hr. split; intros *; by rewrite lookup_nil.
Qed.

End Runs.

(** ** A knock from end to end *)

Section Knock.
Context `{Hashes} `{SshLaws} `{CodecLaws RelayCall}.
Context {S : Type} `{!DeviceStore S} `{!DeviceStoreLaws S}.
Variables (throttle : Throttle) (pushers : PushPlatform -> bool).

Lemma verify_signed self call signed (r : relay (S := S)) :
  sound_signer (id_signer self) -> SignRelayCall self (Some call) = Ok signed -> rc_instance_id call <> emp ->
  - RelayClockSkew <= Sub (ry_clock r (ry_ticks r)) (AsTime (rc_issued_at call)) <= RelayClockSkew ->
  verify (Some signed) r = (inl (call, Identity_PublicKey self), (ry_now r).2).
Proof.
  intros Hs Hc Hid Hd. unfold verify. rewrite (SignRelayCall_verifies self call signed) by done.
  rewrite bool_decide_eq_false_2 by done. rewrite state_bind_unfold. cbn [ry_now fst snd].
  rewrite orb_false_intro by (apply Z.ltb_ge; lia). done.
Qed.

(** A knock gets through.  When somebody registered the identifier, the relay
    has a push service for the device, the caller's clock is within the skew
    of the relay's, and the last push of the kind is long enough ago, then a
    call signed by any identity sends one push, with the token that was
    registered and the subject asked for, and is told it was delivered when
    the platform takes it. *)
Theorem knock_gets_through self url Push now random id style subject signed d (r : relay (S := S)) :
  sound_signer (id_signer self) ->
  wake_call self now random id style subject = Ok signed ->
  id <> emp -> ds_Device id (ry_store r) = Some d -> pushers (platformOf (dv_Platform d)) = true ->
  - RelayClockSkew <= Sub (ry_clock r (ry_ticks r)) now <= RelayClockSkew ->
  let silent := bool_decide (style = WAKE_STYLE_SILENT) in
  let paid := ry_clock r (Datatypes.S (ry_ticks r)) in
  let knock := mk_push id (platformOf (dv_Platform d)) (dv_Token d) silent subject in
  (forall last, ry_last r !! spend_key id silent = Some last -> gap throttle silent <= Sub paid last) ->
  (forall r', (Push knock r').1 = None) ->
  (Wake_starts throttle pushers (Some signed) r).1 = inr knock /\
  ry_sent (Wake_starts throttle pushers (Some signed) r).2 = ry_sent r ++ [(paid, knock)] /\
  Client_Wake self url (fun s => (Wake throttle pushers Push s r).1) now random id style subject = Ok WAKE_OUTCOME_DELIVERED.
Proof.
  intros Hs Hc Hid Hd Hp Hclock silent paid knock Hlast Hpush.
  assert (exists r', Wake_starts throttle pushers (Some signed) r = (inr knock, r') /\ ry_sent r' = ry_sent r ++ [(paid, knock)])
    as (r' & Hstart & Hsent).
  { unfold Wake_starts. rewrite state_bind_unfold.
    set (call := mk_RelayCall (Some now) (NewRequestID random) id (RelayWake (mk_Wake style subject))).
    rewrite (verify_signed self call signed) by (try done; exact Hclock). cbn [fst snd ry_now rc_wake call rc_operation wk_style rc_instance_id].
    rewrite state_bind_unfold. cbn [gets fst snd ry_store]. rewrite Hd. rewrite state_bind_unfold.
    assert (spend throttle id silent (ry_now r).2 = (inr paid,
      mk_relay (ry_store r) (<[spend_key id silent := paid]> (ry_last r)) (ry_clock r) (Datatypes.S (Datatypes.S (ry_ticks r))) (ry_sent r))) as Es.
    { unfold spend. rewrite state_bind_unfold. cbn [ry_now fst snd ry_clock ry_ticks ry_last]. rewrite state_bind_unfold. cbn [gets fst snd ry_last].
      destruct (ry_last r !! spend_key id silent) as [last|]; [|done]. specialize (Hlast last eq_refl). fold paid.
      by rewrite (proj2 (Z.ltb_ge _ _) Hlast). }
    cbn [ry_now snd] in Es. fold silent. rewrite Es. cbn [fst snd]. rewrite Hp. cbn [negb]. rewrite !state_bind_unfold. by eexists. }
  rewrite Hstart. cbn [fst snd]. split_and!; [done|done|]. unfold Client_Wake. rewrite Hc. cbn [mbind result_bind].
  unfold Wake. rewrite state_bind_unfold, Hstart. cbn [fst snd]. rewrite state_bind_unfold, Hpush. unfold Wake_ends. done.
Qed.

End Knock.

(** ** What a file store remembers *)

(** A relay that is started again knows every device it had told it was
    registered: when a registration or a dead token has been written out, the
    file reads back to exactly the registrations held. *)
Theorem file_store_reopens `{CodecLaws (list Device)} (f : FileStore) d id disk :
  keyed (fs_devices f) ->
  let reopened f' := fs_devices <$> OpenFileStore (Ok (fs_file f')) disk in
  ((File_Put d f).1 = None -> reopened (File_Put d f).2 = Ok (<[dv_InstanceID d := d]> (fs_devices f))) /\
  (is_Some (fs_devices f !! id) -> (File_Drop id f).1 = None -> reopened (File_Drop id f).2 = Ok (delete id (fs_devices f))).
Proof.
  intros Hk. cbv zeta.
  assert (forall f0, keyed (fs_devices f0) -> (save f0).1 = None ->
    fs_devices <$> OpenFileStore (Ok (fs_file (save f0).2)) disk = Ok (fs_devices f0)) as Hsave.
  { intros f0 Hk0. unfold save. destruct (Marshal _) as [body|e] eqn:Hm; [|done]. destruct (fs_disk f0 _); [done|]. intros _. cbn.
    apply Unmarshal_Marshal in Hm. rewrite Hm. cbn. by rewrite read_back. }
  split.
  - unfold File_Put. rewrite state_bind_unfold. cbn [modify fst snd]. intros Hw. rewrite Hsave; [done|by apply keyed_insert|done].
  - intros [x Hx]. unfold File_Drop. rewrite state_bind_unfold. cbn [gets fst snd]. rewrite Hx. rewrite state_bind_unfold.
    cbn [modify fst snd]. intros Hw. rewrite Hsave; [done|by apply keyed_delete|done].
Qed.

(** ** Concrete calls *)

Import Toy.

Module ToyRelay.

Definition phone : Identity := mk_Identity "phone" (signer (of_string "phone")).
Definition thief : Identity := mk_Identity "thief" (signer (of_string "thief")).
Definition box : Identity := mk_Identity "box" (signer (of_string "box")).

Definition call (op : RelayOperation) : RelayCall := mk_RelayCall (Some 0) (NewRequestID []) "id1" op.
Definition registers (token : string) : RelayCall := call (RelayRegister (mk_DeviceRegistration PUSH_PLATFORM_APNS token)).
Definition knocks : RelayCall := call (RelayWake (mk_Wake WAKE_STYLE_ALERT WAKE_SUBJECT_APPROVAL)).
#[export] Instance calls : Codec RelayCall | 0 := table [registers "old"; registers "new"; knocks].
#[export] Instance calls_laws : CodecLaws RelayCall | 0 := table_laws _.

Definition no_call : SignedRelayCall := mk_SignedRelayCall [] [] emp [].
Definition by_ (i : Identity) (c : RelayCall) : option SignedRelayCall := Some (ok_or no_call (SignRelayCall i (Some c))).

Definition apns (p : PushPlatform) : bool := bool_decide (p = PUSH_PLATFORM_APNS).
(** A clock that moves four seconds with every reading. *)
Definition empty_relay : relay (S := MemoryStore) := mk_relay ∅ ∅ (fun k => Z.of_nat k * (4 * Second)) 0 [].
Definition start : relay_run (S := MemoryStore) := mk_run empty_relay [] [].
Definition run (evs : list relay_event) : relay_run := relay_runs DefaultThrottle apns evs start.
Definition holder (x : relay_run (S := MemoryStore)) : option (bytes * string) :=
  (fun d => (dv_PublicKey d, dv_Token d)) <$> device_of x "id1".

Definition registered_phone : Device := mk_Device "id1" "PUSH_PLATFORM_APNS" "old" (of_string "phone") (4 * Second).

End ToyRelay.
Import ToyRelay.

(** One after the other, the second key is refused. *)
Example second_key_is_refused :
  holder (run [EvRegister (by_ phone (registers "old")); EvRegister (by_ thief (registers "new"))]) = Some (of_string "phone", "old"%string).
Proof. vm_compute. reflexivity. Qed.

(** Side by side both are let in, and the later one has the identifier: the
    check and the write are two calls on the store. *)
Example two_claims_of_one_id :
  holder (run [EvChecks (by_ phone (registers "old")); EvChecks (by_ thief (registers "new")); EvWrites 0; EvWrites 1])
    = Some (of_string "thief", "new"%string).
Proof. vm_compute. reflexivity. Qed.

(** One captured call is worth more than one notification: nobody looks at its
    nonce. *)
Example captured_call_pushes_again :
  length (ry_sent (rr_relay (run [EvRegister (by_ phone (registers "old"));
    EvWake (by_ box knocks); EvPushed 0 None; EvWake (by_ box knocks); EvPushed 1 None; EvWake (by_ box knocks); EvPushed 2 None]))) = 3%nat.
Proof. vm_compute. reflexivity. Qed.

(** A token the platform calls dead takes the registration along that was made
    while the push was out. *)
Example newer_registration_is_forgotten :
  holder (run [EvRegister (by_ phone (registers "old")); EvWake (by_ box knocks); EvRegister (by_ phone (registers "new"));
    EvPushed 0 (Some ErrUnregistered)]) = None.
Proof. vm_compute. reflexivity. Qed.

Definition theft : list relay_event :=
  [EvRegister (by_ thief (registers "new")); EvWake (by_ thief knocks); EvPushed 0 None].

Lemma first_key_owns_the_id_witness :
  exists d', device_of (relay_runs DefaultThrottle apns theft (run [EvRegister (by_ phone (registers "old"))])) "id1" = Some d' /\
    dv_PublicKey d' = of_string "phone" /\ registered_by d'.
Proof.
  destruct (first_key_owns_the_id DefaultThrottle apns theft (run [EvRegister (by_ phone (registers "old"))]) "id1" registered_phone)
    as [(before & i & e & after & p & E & _)|Hd].
  - apply all_registered_step. split; [|constructor]. intros id d Hd. change (device_of start id) with ((∅ : gmap string Device) !! id) in Hd. by rewrite lookup_empty in Hd.
  - by repeat constructor.
  - vm_compute. reflexivity.
  - exfalso. assert (EvPushed i (Some e) ∈ theft) as Hin by (rewrite E; apply elem_of_app; right; left).
    unfold theft in Hin. rewrite !elem_of_cons, elem_of_nil in Hin. naive_solver.
  - exact Hd.
Defined.

Lemma knocks_are_apart_witness :
  paced_apart DefaultThrottle (ry_sent (rr_relay (run [EvRegister (by_ phone (registers "old")); EvWake (by_ box knocks); EvWake (by_ box knocks)]))).
Proof.
  apply knocks_are_apart.
  - intros []; vm_compute; done.
  - reflexivity.
Defined.

Lemma knock_gets_through_witness :
  Client_Wake box "https://relay" (fun s => (Relay.Wake DefaultThrottle apns (fun _ => mret None) s
    (rr_relay (run [EvRegister (by_ phone (registers "old"))]))).1) 0 [] "id1" WAKE_STYLE_ALERT WAKE_SUBJECT_APPROVAL = Ok WAKE_OUTCOME_DELIVERED.
Proof.
  apply (knock_gets_through DefaultThrottle apns box "https://relay" (fun _ => mret None) 0 [] "id1" WAKE_STYLE_ALERT WAKE_SUBJECT_APPROVAL
    (ok_or no_call (SignRelayCall box (Some knocks))) registered_phone (rr_relay (run [EvRegister (by_ phone (registers "old"))]))).
  - apply signer_sound.
  - vm_compute. reflexivity.
  - done.
  - vm_compute. reflexivity.
  - vm_compute. reflexivity.
  - vm_compute. done.
  - intros last Hl. vm_compute in Hl. done.
  - done.
Defined.

#[local] Instance one_list : Codec (list Device) | 0 := table [[registered_phone]].
#[local] Instance one_list_laws : CodecLaws (list Device) | 0 := table_laws _.

Lemma file_store_reopens_witness :
  fs_devices <$> OpenFileStore (Ok (fs_file (File_Put registered_phone (mk_FileStore ∅ None (fun _ => None) 0)).2)) (fun _ => None) =
    Ok (<[dv_InstanceID registered_phone := registered_phone]> ∅).
Proof.
  apply (file_store_reopens (mk_FileStore ∅ None (fun _ => None) 0) registered_phone "id1" (fun _ => None)).
  - intros id d Hd. cbn in Hd. by apply lookup_empty_Some in Hd.
  - vm_compute. reflexivity.
Defined.
