(* ===== verification/Threads.v ===== *)
(** * Threads: calls that take turns

    A call that takes locks is a program: a tree of single steps, each one
    critical section or one access, between which other calls run.  Running a
    program by itself is the sequential meaning; a pool of programs run by a
    list of turns is every interleaving.

    [good] is the rule the proofs about pools use: what every step keeps is an
    invariant over the state and a ledger of what the calls still owe - a
    channel taken off its list and not yet closed, say - and each program is
    followed with its own part of the ledger, whatever the others owe. *)

From S2P Require Import Prelude.

Local Unset Elimination Schemes.
Inductive prog (S A : Type) : Type :=
| Done (a : A)
| Step (s : S -> prog S A * S).
Local Set Elimination Schemes.
Arguments Done {S A} a.
Arguments Step {S A} s.

Fixpoint prog_bind {S A B} (f : A -> prog S B) (p : prog S A) : prog S B :=
  match p with
  | Done a => f a
  | Step s => Step (fun w => let '(p', w') := s w in (prog_bind f p', w'))
  end.

#[export] Instance prog_mret S : MRet (prog S) := fun A a => Done a.
#[export] Instance prog_mbind S : MBind (prog S) := fun A B f p => prog_bind f p.

(** One step. *)
Definition atomic {S A} (m : state S A) : prog S A := Step (fun w => let '(a, w') := m w in (Done a, w')).

(** Nobody else runs. *)
Fixpoint run {S A} (p : prog S A) (w : S) : A * S :=
  match p with
  | Done a => (a, w)
  | Step s => let '(p', w') := s w in run p' w'
  end.

Lemma prog_ind' {S A} (P : prog S A -> Prop) :
  (forall a, P (Done a)) -> (forall s, (forall w, P (s w).1) -> P (Step s)) -> forall p, P p.
Proof.
  intros HD HS. fix IH 1. intros [a|s]; [apply HD|]. apply HS. intros w. apply IH.
Qed.

Lemma run_bind {S A B} (p : prog S A) (f : A -> prog S B) w :
  run (p ≫= f) w = let '(a, w') := run p w in run (f a) w'.
Proof.
  revert w. induction p as [a|s IH] using prog_ind'; intros w; [done|].
  cbn. specialize (IH w). destruct (s w) as [p' w']. exact (IH w').
Qed.

Lemma run_atomic {S A} (m : state S A) w : run (atomic m) w = m w.
Proof. cbn. by destruct (m w). Qed.

Lemma run_mret {S A} (a : A) (w : S) : run (mret a) w = (a, w).
Proof. done. Qed.

(** ** Turns *)

(** A turn of one of the calls, or something the surroundings do. *)
Inductive move (X : Type) :=
| Turn (i : nat)
| Outside (x : X).
Arguments Turn {X} i.
Arguments Outside {X} x.

Section Pool.
Context {S E X : Type}.
(** What is beside the calls - the goroutines that only wait, for one - and
    what a move of theirs does. *)
Variable env : X -> E * S -> E * S.

Record pool := mk_pool { po_calls : list (prog S unit); po_around : E; po_state : S }.

Definition move_step (x : pool) (m : move X) : pool :=
  match m with
  | Turn i =>
    match po_calls x !! i with
    | Some (Step s) => let '(p, w) := s (po_state x) in mk_pool (<[i := p]> (po_calls x)) (po_around x) w
    | _ => x
    end
  | Outside o => let '(e, w) := env o (po_around x, po_state x) in mk_pool (po_calls x) e w
  end.

Definition moves (x : pool) (l : list (move X)) : pool := foldl move_step x l.

Definition is_done {A} (p : prog S A) : bool := match p with Done _ => true | Step _ => false end.
Definition all_done (x : pool) : bool := forallb is_done (po_calls x).

(** ** The ledger *)

Section Ledger.
Context {D : Type}.
Variable I : E -> list D -> S -> Prop.

(** Whatever the others owe, each step keeps the invariant and leaves the
    program with what it owes from there on; what it owes at the end is in
    [Q]. *)
Fixpoint good {A} (owed : list D) (Q : A -> list D -> Prop) (p : prog S A) : Prop :=
  match p with
  | Done a => Q a owed
  | Step s => forall e others w, I e (owed ++ others) w ->
      let '(p', w') := s w in
      exists owed', I e (owed' ++ others) w' /\ good owed' Q p'
  end.

Lemma good_bind {A B} owed Q R (p : prog S A) (f : A -> prog S B) :
  good owed Q p -> (forall a owed', Q a owed' -> good owed' R (f a)) -> good owed R (p ≫= f).
Proof.
  intros Hp Hf. revert owed Hp. induction p as [a|s IH] using prog_ind'; intros owed Hp; [by apply Hf|].
  cbn. intros e others w Hw. specialize (Hp e others w Hw). specialize (IH w). destruct (s w) as [p' w'].
  destruct Hp as (owed' & HI & Hp). exists owed'. split; [done|]. by apply IH.
Qed.

Lemma good_mret {A} owed (Q : A -> list D -> Prop) a : Q a owed -> good owed Q (mret a).
Proof. done. Qed.

Lemma good_atomic {A} owed (Q : A -> list D -> Prop) (m : state S A) :
  (forall e others w, I e (owed ++ others) w -> exists owed', I e (owed' ++ others) (m w).2 /\ Q (m w).1 owed') ->
  good owed Q (atomic m).
Proof.
  intros Hm e others w Hw. specialize (Hm e others w Hw). cbn. destruct (m w) as [a w']. exact Hm.
Qed.

(** A step that owes nothing new, and whose answer does not matter. *)
Lemma good_quiet {A} owed (m : state S A) :
  (forall e others w, I e (owed ++ others) w -> I e (owed ++ others) (m w).2) ->
  good owed (fun _ owed' => owed' = owed) (atomic m).
Proof. intros Hm. apply good_atomic. intros e others w Hw. exists owed. split; [by apply Hm|done]. Qed.

Lemma good_weaken {A} owed (Q R : A -> list D -> Prop) (p : prog S A) :
  good owed Q p -> (forall a owed', Q a owed' -> R a owed') -> good owed R p.
Proof.
  intros Hp HQR. revert owed Hp. induction p as [a|s IH] using prog_ind'; intros owed Hp; [by apply HQR|].
  cbn in *. intros e others w Hw. specialize (Hp e others w Hw). specialize (IH w). destruct (s w) as [p' w'].
  destruct Hp as (owed' & HI & Hp). eauto.
Qed.

(** Part of what is owed is passed on. *)
Lemma good_frame {A} owed kept (Q : A -> list D -> Prop) (p : prog S A) :
  good owed Q p -> good (owed ++ kept) (fun a d => exists d', d = d' ++ kept /\ Q a d') p.
Proof.
  revert owed. induction p as [a|s IH] using prog_ind'; intros owed Hp; cbn; [by exists owed|].
  intros e others w Hw. rewrite <-app_assoc in Hw. specialize (Hp e (kept ++ others) w Hw).
  specialize (IH w). destruct (s w) as [p' w']. destruct Hp as (owed' & HI & Hp).
  exists (owed' ++ kept). rewrite <-app_assoc. split; [done|]. by apply IH.
Qed.

(** By itself a program does what it does among others. *)
Lemma good_run {A} owed (Q : A -> list D -> Prop) (p : prog S A) e others w :
  good owed Q p -> I e (owed ++ others) w -> exists owed', I e (owed' ++ others) (run p w).2 /\ Q (run p w).1 owed'.
Proof.
  revert owed w. induction p as [a|s IH] using prog_ind'; intros owed w Hp HI; cbn in *; [by exists owed|].
  specialize (Hp e others w HI). specialize (IH w). destruct (s w) as [p' w']. destruct Hp as (owed' & HI' & Hp).
  by apply (IH owed').
Qed.

(** What a pool's calls may leave owed when they end, and the calls they are. *)
Variable left_over : D -> Prop.

Definition ends_clear {A} (_ : A) (d : list D) : Prop := Forall left_over d.

Definition pool_ok (x : pool) : Prop := exists ledger : list (list D),
  Forall2 (fun d p => good d ends_clear p) ledger (po_calls x) /\ I (po_around x) (concat ledger) (po_state x).

Lemma pool_starts calls e w : I e [] w -> Forall (good [] ends_clear) calls -> pool_ok (mk_pool calls e w).
Proof.
  intros HI Hcalls. exists (map (fun _ => []) calls). split; cbn.
  - induction Hcalls; constructor; done.
  - assert (concat (map (fun _ : prog S unit => @nil D) calls) = []) as ->; [|done]. induction calls; [done|].
    apply Forall_cons in Hcalls as [_ Hcalls]. exact (IHcalls Hcalls).
Qed.

Hypothesis I_permutes : forall e d d' w, Permutation d d' -> I e d w -> I e d' w.
Hypothesis I_around : forall o e d w, I e d w -> I (env o (e, w)).1 d (env o (e, w)).2.

Lemma concat_middle (l1 l2 : list (list D)) d : Permutation (concat (l1 ++ d :: l2)) (d ++ concat (l1 ++ l2)).
Proof. rewrite !concat_app. cbn. by rewrite !app_assoc, (Permutation_app_comm (concat l1) d). Qed.

Lemma pool_ok_step x m : pool_ok x -> pool_ok (move_step x m).
Proof.
  intros (ledger & Hall & HI). destruct m as [i|o]; cbn.
  2: { specialize (I_around o _ _ _ HI). destruct (env o (po_around x, po_state x)) as [e w].
       by exists ledger. }
  destruct (po_calls x !! i) as [[a|s]|] eqn:Hi; [by exists ledger| |by exists ledger].
  destruct (Forall2_lookup_r _ _ _ _ _ Hall Hi) as (d & Hd & Hgood).
  apply list_elem_of_split_length in Hd as (l1 & l2 & -> & Hlen).
  cbn in Hgood. specialize (Hgood _ _ _ (I_permutes _ _ _ _ (concat_middle l1 l2 d) HI)).
  destruct (s (po_state x)) as [p w]. destruct Hgood as (d' & HI' & Hgood).
  exists (l1 ++ d' :: l2). cbn. split.
  - replace (l1 ++ d' :: l2) with (<[i := d']> (l1 ++ d :: l2)) by (by rewrite Hlen, <-(Nat.add_0_r (length l1)), insert_app_r).
    by apply Forall2_insert.
  - eapply I_permutes; [|exact HI']. symmetry. apply concat_middle.
Qed.

Lemma pool_ok_moves l x : pool_ok x -> pool_ok (moves x l).
Proof. revert x. induction l as [|m l IH]; intros x Hx; [done|]. apply IH. by apply pool_ok_step. Qed.

(** In the middle of it the invariant holds for some ledger; at the end there
    is nothing on it but what may be left. *)
Lemma pool_invariant x : pool_ok x -> exists d, I (po_around x) d (po_state x).
Proof. intros (ledger & _ & HI). eauto. Qed.

Lemma pool_ends x : pool_ok x -> all_done x = true -> exists d, Forall left_over d /\ I (po_around x) d (po_state x).
Proof.
  intros (ledger & Hall & HI) Hdone. exists (concat ledger). split; [|done].
  unfold all_done in Hdone. clear HI. induction Hall as [|d p ledger calls Hd Hall IH]; cbn; [constructor|].
  cbn in Hdone. apply andb_prop in Hdone as [Hp Hdone]. apply Forall_app_2; [|by apply IH].
  destruct p; [exact Hd|done].
Qed.

End Ledger.
End Pool.
