(* ===== verification/Lock.v ===== *)
(** * Lock: the lock states of an instance

    [internal/app/lock.go], with [startPeer] and [stopPeer] of [app.go] and
    [listen.go]: unsealing builds the half of the instance that needs the store,
    sealing takes it down, and the soft lock only takes the prompts away.  A
    call is a program of [Threads]: every critical section under [a.mu], every
    access outside it and every call of the store is one step.

    Opening and creating a store, building a core around it, checking a
    passphrase and binding the listener are parameters, one outcome per call.
    An engine is the approvers registered with it, its soft lock and the hooks
    to its peer node; a channel is a number.  Reading a peer node that is gone
    and closing a channel twice are panics, which end the call and are kept.
    Wiping the passphrase a call was given is left out, and so are the log and
    the reading of documents from peers. *)

From S2P Require Import Prelude.
From S2P Require Import GoText.
From S2P Require Import Ssh.
From S2P Require Import Proto.
From S2P Require Import Prompt.
From S2P Require Import Parked.
From S2P Require Import Threads.

Local Open Scope Z_scope.
Local Open Scope ladulas_scope.

(** ** The states *)

Inductive LockState :=
| LOCK_STATE_UNSPECIFIED | LOCK_STATE_SEALED | LOCK_STATE_UNLOCKED | LOCK_STATE_LOCKED | LOCK_STATE_UNINITIALIZED.

#[export] Instance LockState_eq_dec : EqDecision LockState.
Proof. solve_decision. Defined.

(** [bridge.StateWord]. *)
Definition StateWord (state : LockState) : string :=
  match state with
  | LOCK_STATE_SEALED => "sealed"
  | LOCK_STATE_UNLOCKED => "unlocked"
  | LOCK_STATE_LOCKED => "locked"
  | LOCK_STATE_UNINITIALIZED => "not created yet"
  | LOCK_STATE_UNSPECIFIED => "unknown"
  end.

Definition ErrSealed : error := sentinel "app.ErrSealed" "ladulas: the store is sealed; run `ladulas unlock`".
Definition ErrPeeringOff : error := sentinel "app.ErrPeeringOff" "ladulas: peering is switched off here".
Definition ErrNotInitialised : error := sentinel "app.ErrNotInitialised"
  "ladulas: this instance has no store yet; run `ladulas init` to create one".
Definition ErrExists : error := sentinel "keystore.ErrExists" "keystore: store already exists".

Definition errSealedOrNoPeering (state : LockState) : error :=
  if bool_decide (state = LOCK_STATE_SEALED) then ErrSealed else ErrPeeringOff.

Definition withReason (what reason : string) : string :=
  if bool_decide (reason = emp) then what else what +:+ ": " +:+ reason.

(** ** The instance *)

(** The engine, as far as the lock reaches into it. *)
Record engine := mk_engine { en_approvers : list nat; en_softLocked : bool; en_hooks : bool }.

(** [type core]: the store by its number, whether there is a peer node, the
    channel that serves, and whether the local network is being listed. *)
Record core := mk_core {
  co_vault : nat;
  co_engine : engine;
  co_peer : bool;
  co_stop : option nat;
  co_nearby : bool
}.

(** A goroutine that serves the peer channel of a core. *)
Record serving := mk_serving { sv_core : nat; sv_begun : bool; sv_stopped : bool }.

Inductive panic := NilNode | ClosedTwice.

(** A call that may panic; the rest of the goroutine is then not run. *)
Inductive outcome A :=
| Ended (a : A)
| Panicked.
Arguments Ended {A} a.
Arguments Panicked {A}.

Section App.
Context `{Unicode} `{keys : PrivateKeys} {Handler : Type}.

(** [type approverSlot]; what detaches it is the core it is attached to. *)
Record approverSlot := mk_slot { sl_handler : Handler; sl_detach : option nat }.

(** [type App], in four parts: what is said about the lock, what comes and goes
    with the store, who waits, and the rest. *)
Record line := mk_line { ln_state : LockState; ln_since : time; ln_reason : string; ln_prompt : string }.
Record half := mk_half {
  hf_core : option nat;
  hf_cores : list core;
  hf_slots : list approverSlot;
  hf_approvers : list nat
}.
Record waits := mk_waits { wt_unseal : list nat; wt_state : list nat; wt_made : nat; wt_closed : list nat }.
Record rest := mk_rest {
  rs_serveCtx : bool;
  rs_serving : list serving;
  rs_vaults : list bool;
  rs_parked : LocalKeys;
  rs_audit : list string;
  rs_panics : list panic;
  rs_clock : nat -> time;
  rs_ticks : nat
}.
Record App := mk_App { ap_line : line; ap_half : half; ap_waits : waits; ap_rest : rest }.

Definition set_line (x : line) (w : App) : App := mk_App x (ap_half w) (ap_waits w) (ap_rest w).
Definition set_half (x : half) (w : App) : App := mk_App (ap_line w) x (ap_waits w) (ap_rest w).
Definition set_waits (x : waits) (w : App) : App := mk_App (ap_line w) (ap_half w) x (ap_rest w).
Definition set_rest (x : rest) (w : App) : App := mk_App (ap_line w) (ap_half w) (ap_waits w) x.

Definition set_serving (l : list serving) (r : rest) : rest :=
  mk_rest (rs_serveCtx r) l (rs_vaults r) (rs_parked r) (rs_audit r) (rs_panics r) (rs_clock r) (rs_ticks r).
Definition set_vaults (l : list bool) (r : rest) : rest :=
  mk_rest (rs_serveCtx r) (rs_serving r) l (rs_parked r) (rs_audit r) (rs_panics r) (rs_clock r) (rs_ticks r).
Definition set_parked (k : LocalKeys) (r : rest) : rest :=
  mk_rest (rs_serveCtx r) (rs_serving r) (rs_vaults r) k (rs_audit r) (rs_panics r) (rs_clock r) (rs_ticks r).
Definition add_audit (detail : string) (r : rest) : rest :=
  mk_rest (rs_serveCtx r) (rs_serving r) (rs_vaults r) (rs_parked r) (rs_audit r ++ [detail]) (rs_panics r) (rs_clock r) (rs_ticks r).
Definition add_panic (p : panic) (r : rest) : rest :=
  mk_rest (rs_serveCtx r) (rs_serving r) (rs_vaults r) (rs_parked r) (rs_audit r) (rs_panics r ++ [p]) (rs_clock r) (rs_ticks r).
Definition tick (r : rest) : rest :=
  mk_rest (rs_serveCtx r) (rs_serving r) (rs_vaults r) (rs_parked r) (rs_audit r) (rs_panics r) (rs_clock r) (S (rs_ticks r)).

Definition on_rest (f : rest -> rest) (w : App) : App := set_rest (f (ap_rest w)) w.

(** *** Cores and slots *)

Definition set_engine (e : engine) (k : core) : core := mk_core (co_vault k) e (co_peer k) (co_stop k) (co_nearby k).
Definition in_core (c : nat) (f : core -> core) (h : half) : half :=
  mk_half (hf_core h) (alter f c (hf_cores h)) (hf_slots h) (hf_approvers h).
Definition in_engine (c : nat) (f : engine -> engine) (h : half) : half :=
  in_core c (fun k => set_engine (f (co_engine k)) k) h.
Definition set_detach (s : nat) (d : option nat) (h : half) : half :=
  mk_half (hf_core h) (hf_cores h) (alter (fun slot => mk_slot (sl_handler slot) d) s (hf_slots h)) (hf_approvers h).

(** [slot.detach = engine.Register(slot.handler)], and running what it is. *)
Definition attach (c s : nat) (h : half) : half :=
  set_detach s (Some c) (in_engine c (fun e => mk_engine (en_approvers e ++ [s]) (en_softLocked e) (en_hooks e)) h).
Definition without (s : nat) (l : list nat) : list nat := filter (fun s' => s' <> s) l.
Definition detach (c s : nat) (h : half) : half :=
  in_engine c (fun e => mk_engine (without s (en_approvers e)) (en_softLocked e) (en_hooks e)) h.
Definition slot_detach (s : nat) (h : half) : option nat := slot ← hf_slots h !! s; sl_detach slot.

(** A list without the first of its elements that is [x]. *)
Fixpoint splice (x : nat) (l : list nat) : list nat :=
  match l with
  | [] => []
  | y :: l' => if bool_decide (y = x) then l' else y :: splice x l'
  end.

(** ** The calls *)

(** The store and the listener. *)
Variables (Open : nat -> bytes -> result string) (Create : nat -> string -> bytes -> result string)
  (MakePolicy : nat -> option error)
  (VerifyPassphrase : nat -> bytes -> option error) (buildCore : nat -> result bool) (Listen : nat -> option error)
  (StoreInKeyring : nat -> option error) (ForgetKeyring : nat -> option error).

Definition outside {A} (f : nat -> A) : state App A := fun w => (f (rs_ticks (ap_rest w)), on_rest tick w).

Definition State : prog App LockState := atomic (gets (fun w => ln_state (ap_line w))).
Definition StateDetail : prog App (LockState * time * string) :=
  atomic (gets (fun w => (ln_state (ap_line w), ln_since (ap_line w), ln_reason (ap_line w)))).
Definition Initialised : prog App bool := st ← State; mret (bool_decide (st <> LOCK_STATE_UNINITIALIZED)).
Definition Unsealed : prog App bool :=
  st ← State; mret (bool_decide (st = LOCK_STATE_UNLOCKED) || bool_decide (st = LOCK_STATE_LOCKED)).
Definition currentCore : prog App (option nat) := atomic (gets (fun w => hf_core (ap_half w))).

Definition LogLifecycle (detail : string) : prog App unit := atomic (modify (on_rest (add_audit detail))).
Definition lifecycle (detail : string) : prog App unit := LogLifecycle detail.

Definition noStoreError : prog App error :=
  initialised ← Initialised;
  mret (if (initialised : bool) then ErrSealed else ErrNotInitialised).

(** *** Approvers *)

Definition RegisterApprover (h : Handler) : prog App nat := atomic (fun w =>
  let x := ap_half w in
  let s := length (hf_slots x) in
  let x := mk_half (hf_core x) (hf_cores x) (hf_slots x ++ [mk_slot h None]) (hf_approvers x ++ [s]) in
  (s, set_half (match hf_core x with Some c => attach c s x | None => x end) w)).

(** What [RegisterApprover] returns. *)
Definition unregister (s : nat) : prog App unit :=
  d ← atomic (fun w =>
    let x := set_detach s None (ap_half w) in
    (slot_detach s (ap_half w), set_half (mk_half (hf_core x) (hf_cores x) (hf_slots x) (splice s (hf_approvers x))) w));
  match d with
  | Some c => atomic (modify (fun w => set_half (detach c s (ap_half w)) w))
  | None => mret tt
  end.

(** *** The state, and who waits for it *)

Definition close (ch : nat) : prog App unit := atomic (modify (fun w =>
  if bool_decide (ch ∈ wt_closed (ap_waits w)) then on_rest (add_panic ClosedTwice) w
  else let x := ap_waits w in set_waits (mk_waits (wt_unseal x) (wt_state x) (wt_made x) (ch :: wt_closed x)) w)).

Fixpoint close_all (l : list nat) : prog App unit :=
  match l with
  | [] => mret tt
  | ch :: l' => _ ← close ch; close_all l'
  end.

(** The critical section of [setState]. *)
Definition enter (st : LockState) (reason : string) : state App (list nat * list nat) := fun w =>
  let now := rs_clock (ap_rest w) (rs_ticks (ap_rest w)) in
  let unsealed := bool_decide (st = LOCK_STATE_UNLOCKED) || bool_decide (st = LOCK_STATE_LOCKED) in
  let x := ap_waits w in
  ((if unsealed then wt_unseal x else [], wt_state x),
   mk_App (mk_line st now reason (ln_prompt (ap_line w))) (ap_half w)
     (mk_waits (if unsealed then [] else wt_unseal x) [] (wt_made x) (wt_closed x)) (tick (ap_rest w))).

Definition setState (st : LockState) (reason : string) : prog App unit :=
  taken ← atomic (enter st reason);
  _ ← close_all taken.1;
  close_all taken.2.

Definition UnsealNotify : prog App nat :=
  waiter ← atomic (fun w =>
    let x := ap_waits w in
    let ch := wt_made x in
    if bool_decide (ln_state (ap_line w) <> LOCK_STATE_SEALED)
    then ((ch, true), set_waits (mk_waits (wt_unseal x) (wt_state x) (S ch) (wt_closed x)) w)
    else ((ch, false), set_waits (mk_waits (wt_unseal x ++ [ch]) (wt_state x) (S ch) (wt_closed x)) w));
  _ ← (if (waiter.2 : bool) then close waiter.1 else mret tt);
  mret waiter.1.

(** What [UnsealNotify] returns to give the interest up. *)
Definition stop_waiting (ch : nat) : prog App unit := atomic (modify (fun w =>
  let x := ap_waits w in set_waits (mk_waits (splice ch (wt_unseal x)) (wt_state x) (wt_made x) (wt_closed x)) w)).

Definition forgetStateWaiter (ch : nat) : state App unit := modify (fun w =>
  let x := ap_waits w in set_waits (mk_waits (wt_unseal x) (splice ch (wt_state x)) (wt_made x) (wt_closed x)) w).

(** [AwaitState], a step at a time: it looks, and sleeps on a channel; woken it
    looks again, and when its context ends it takes its channel back and reads
    the state once more. *)
Inductive awaiting :=
| Looking
| Asleep (ch : nat)
| GivingUp
| Returned (state : LockState) (reached : bool).

Record awaiter := mk_awaiter { aw_want : LockState -> bool; aw_phase : awaiting }.

Definition AwaitState (ctx_done : bool) (want : LockState -> bool) (phase : awaiting) : state App awaiting := fun w =>
  match phase with
  | Looking =>
    let state := ln_state (ap_line w) in
    if want state then (Returned state true, w)
    else let x := ap_waits w in
      (Asleep (wt_made x), set_waits (mk_waits (wt_unseal x) (wt_state x ++ [wt_made x]) (S (wt_made x)) (wt_closed x)) w)
  | Asleep ch =>
    if ctx_done then let '(_, w') := forgetStateWaiter ch w in (GivingUp, w')
    else if bool_decide (ch ∈ wt_closed (ap_waits w)) then (Looking, w) else (Asleep ch, w)
  | GivingUp => (Returned (ln_state (ap_line w)) false, w)
  | Returned _ _ => (phase, w)
  end.

Definition SetUnsealPrompt (how : string) : prog App unit := atomic (modify (fun w =>
  let x := ap_line w in set_line (mk_line (ln_state x) (ln_since x) (ln_reason x) how) w)).
Definition UnsealPrompt : prog App string := atomic (gets (fun w => ln_prompt (ap_line w))).

(** *** The peer channel *)

Definition core_at (c : nat) (w : App) : option core := hf_cores (ap_half w) !! c.
Definition has_peer (c : nat) (w : App) : bool := match core_at c w with Some k => co_peer k | None => false end.

(** A goroutine of [startPeer] begins: it serves the node, if there is one. *)
Definition serve_begins (i : nat) : state App unit := modify (fun w =>
  match rs_serving (ap_rest w) !! i with
  | Some sv =>
    if sv_begun sv then w
    else
      let w := on_rest (fun r => set_serving (<[i := mk_serving (sv_core sv) true (sv_stopped sv)]> (rs_serving r)) r) w in
      if has_peer (sv_core sv) w then w else on_rest (add_panic NilNode) w
  | None => w
  end).

Definition panics {A} : prog App (outcome A) := _ ← atomic (modify (on_rest (add_panic NilNode))); mret Panicked.

Definition startPeer (c : nat) : prog App (outcome (option error)) :=
  node ← atomic (gets (has_peer c));
  if negb node then mret (Ended None)
  else
    node ← atomic (gets (has_peer c));
    if negb node then panics
    else
      failed ← atomic (outside Listen);
      match failed with
      | Some e => mret (Ended (Some e))
      | None =>
        i ← atomic (fun w => (length (rs_serving (ap_rest w)),
          on_rest (fun r => set_serving (rs_serving r ++ [mk_serving c false false]) r) w));
        _ ← atomic (modify (fun w => set_half (in_core c (fun k =>
          mk_core (co_vault k) (co_engine k) (co_peer k) (Some i) (co_nearby k)) (ap_half w)) w));
        mret (Ended None)
      end.

Definition stopPeer (c : nat) : prog App unit :=
  taken ← atomic (fun w => (match core_at c w with Some k => (co_peer k, co_stop k) | None => (false, None) end,
    set_half (in_core c (fun k => mk_core (co_vault k) (co_engine k) false None (co_nearby k)) (ap_half w)) w));
  if negb taken.1 then mret tt
  else
    _ ← atomic (modify (fun w => set_half (in_engine c (fun e =>
      mk_engine (en_approvers e) (en_softLocked e) false) (ap_half w)) w));
    match taken.2 with
    | None => mret tt
    | Some i => atomic (modify (on_rest (fun r => set_serving (alter (fun sv =>
        mk_serving (sv_core sv) (sv_begun sv) true) i (rs_serving r)) r)))
    end.

(** *** Unsealing *)

Definition SuspendLocalPrompts (c : nat) (suspended : bool) : prog App unit := atomic (modify (fun w =>
  set_half (in_engine c (fun e => mk_engine (en_approvers e) suspended (en_hooks e)) (ap_half w)) w)).

Definition lift (passphrase : bytes) : prog App (option error) :=
  current ← currentCore;
  match current with
  | None => e ← noStoreError; mret (Some e)
  | Some c =>
    failed ← atomic (outside (fun n => VerifyPassphrase n passphrase));
    match failed with
    | Some e => mret (Some e)
    | None =>
      _ ← SuspendLocalPrompts c false;
      _ ← setState LOCK_STATE_UNLOCKED emp;
      _ ← lifecycle "the store was unlocked";
      mret None
    end
  end.

Definition already : string := "the store was already unlocked".

(** The critical section of [adopt]: the core is the instance's unless there is
    one. *)
Definition publish (vault : nat) (peering : bool) : state App (option (nat * bool)) := fun w =>
  let x := ap_half w in
  match hf_core x with
  | Some _ => (None, w)
  | None =>
    let c := length (hf_cores x) in
    let k := mk_core vault (mk_engine [] false peering) peering None true in
    (Some (c, rs_serveCtx (ap_rest w)),
     set_half (foldl (fun h s => attach c s h) (mk_half (Some c) (hf_cores x ++ [k]) (hf_slots x) (hf_approvers x))
       (hf_approvers x)) w)
  end.

Definition adopt (vault : nat) (fingerprint : string) : prog App (outcome (result string)) :=
  built ← atomic (outside buildCore);
  match built with
  | Err e => mret (Ended (Err e))
  | Ok peering =>
    published ← atomic (publish vault peering);
    match published with
    | None => mret (Ended (Ok already))
    | Some (c, serving) =>
      _ ← setState LOCK_STATE_UNLOCKED emp;
      started ← (if (serving : bool) then startPeer c else mret (Ended None));
      match started with
      | Panicked => mret Panicked
      | Ended failed =>
        _ ← lifecycle ("the store was unlocked as " +:+ fingerprint);
        mret (Ended (Ok (match failed with
                         | Some e => "the peer channel could not start: " +:+ e_msg e
                         | None => emp
                         end)))
      end
    end
  end.

(** A store that opens is in memory from then on. *)
Definition opened (f : nat -> result string) : state App (result (nat * string)) := fun w =>
  let '(r, w) := outside f w in
  match r with
  | Err e => (Err e, w)
  | Ok fingerprint =>
    (Ok (length (rs_vaults (ap_rest w)), fingerprint), on_rest (fun r => set_vaults (rs_vaults r ++ [false]) r) w)
  end.

Definition Unlock (passphrase : bytes) : prog App (outcome (result string)) :=
  st ← State;
  match st with
  | LOCK_STATE_UNLOCKED => mret (Ended (Ok already))
  | LOCK_STATE_LOCKED =>
    failed ← lift passphrase;
    mret (Ended (match failed with Some e => Err e | None => Ok emp end))
  | LOCK_STATE_UNINITIALIZED => mret (Ended (Err ErrNotInitialised))
  | LOCK_STATE_SEALED | LOCK_STATE_UNSPECIFIED =>
    vault ← atomic (opened (fun n => Open n passphrase));
    match vault with
    | Err e => mret (Ended (Err e))
    | Ok (v, fingerprint) => adopt v fingerprint
    end
  end.

(** [keystore.Create] with what is configured; making the configuration
    directory and the first policy is one outcome. *)
Definition Initialise (name : string) (passphrase : bytes) : prog App (outcome (result string)) :=
  st ← State;
  if bool_decide (st <> LOCK_STATE_UNINITIALIZED) then mret (Ended (Err ErrExists))
  else
    vault ← atomic (opened (fun n => Create n name passphrase));
    match vault with
    | Err e => mret (Ended (Err e))
    | Ok (v, fingerprint) =>
      failed ← atomic (outside MakePolicy);
      match failed with
      | Some e => mret (Ended (Err e))
      | None => adopt v fingerprint
      end
    end.

Definition TryKeyring : prog App (outcome bool) :=
  st ← State;
  match st with
  | LOCK_STATE_UNINITIALIZED => mret (Ended false)
  | LOCK_STATE_UNLOCKED | LOCK_STATE_LOCKED => mret (Ended true)
  | LOCK_STATE_SEALED | LOCK_STATE_UNSPECIFIED =>
    unlocked ← Unlock [];
    mret (match unlocked with
          | Panicked => Panicked
          | Ended (Err _) => Ended false
          | Ended (Ok _) => Ended true
          end)
  end.

(** *** Locking and sealing *)

Definition SoftLock (reason : string) : prog App (option error) :=
  current ← currentCore;
  match current with
  | None => e ← noStoreError; mret (Some e)
  | Some c =>
    _ ← SuspendLocalPrompts c true;
    _ ← setState LOCK_STATE_LOCKED reason;
    _ ← lifecycle (withReason "local approval was suspended" reason);
    mret None
  end.

(** A slot lets go of the engine it is attached to. *)
Definition release (s : nat) (h : half) : half :=
  match slot_detach s h with
  | Some c => set_detach s None (detach c s h)
  | None => h
  end.

Definition takeCore : prog App (option nat) := atomic (fun w =>
  let x := ap_half w in
  (hf_core x, set_half (foldl (fun h s => release s h)
    (mk_half None (hf_cores x) (hf_slots x) (hf_approvers x)) (hf_approvers x)) w)).

Definition wipe_vault (c : nat) (w : App) : App :=
  match core_at c w with
  | Some k => on_rest (fun r => set_vaults (<[co_vault k := true]> (rs_vaults r)) r) w
  | None => w
  end.

Definition dropped_reason : string := "dropped with the seal".

Definition tearDown (c : nat) : prog App unit :=
  _ ← stopPeer c;
  _ ← atomic (modify (fun w => set_half (in_core c (fun k =>
        mk_core (co_vault k) (co_engine k) (co_peer k) (co_stop k) false) (ap_half w)) w));
  _ ← atomic (modify (on_rest (fun r => set_parked (LocalKeys_Wipe dropped_reason (rs_parked r)).2 r)));
  atomic (modify (wipe_vault c)).

Definition Seal (reason : string) : prog App (option error) :=
  current ← takeCore;
  match current with
  | None => mret None
  | Some c =>
    _ ← setState LOCK_STATE_SEALED reason;
    _ ← lifecycle (withReason "the store was sealed" reason);
    _ ← tearDown c;
    mret None
  end.

Definition Lock (seal : bool) (reason : string) : prog App (option error) :=
  if seal then Seal reason else SoftLock reason.

(** The part of [Close] that takes the store down. *)
Definition Close : prog App unit :=
  current ← takeCore;
  match current with Some c => tearDown c | None => mret tt end.

Definition UnlockAtLogin (enrol : bool) : prog App (option error) :=
  vault ← currentCore;
  match vault with
  | None => e ← noStoreError; mret (Some e)
  | Some _ =>
    failed ← atomic (outside (if enrol then StoreInKeyring else ForgetKeyring));
    match failed with
    | Some e => mret (Some e)
    | None =>
      _ ← lifecycle ("unlock at login was switched " +:+ (if enrol then "on" else "off"));
      mret None
    end
  end.

(** *** Parking a key

    [LocalKeys.Add] asks whether it may before it takes its own lock; [Accept]
    is what [build] gives it. *)
Definition Park (added : AddedKey) (by_ : option ClientProcess) : prog App (option error) :=
  unsealed ← Unsealed;
  if negb unsealed then mret (Some ErrSealed)
  else atomic (fun w =>
    let '(failed, l) := LocalKeys_Add added by_ (rs_parked (ap_rest w)) in (failed, on_rest (set_parked l) w)).

(** ** What is called *)

Inductive call :=
| CState
| CRegister (h : Handler)
| CUnregister (s : nat)
| CUnlock (passphrase : bytes)
| CInitialise (name : string) (passphrase : bytes)
| CTryKeyring
| CLock (seal : bool) (reason : string)
| CUnlockAtLogin (enrol : bool)
| CClose
| CUnsealNotify
| CStopWaiting (ch : nat)
| CPrompt (how : string)
| CPark (added : AddedKey) (by_ : option ClientProcess).

Definition ignore {A} (p : prog App A) : prog App unit := _ ← p; mret tt.

Definition call_prog (c : call) : prog App unit :=
  match c with
  | CState => ignore State
  | CRegister h => ignore (RegisterApprover h)
  | CUnregister s => unregister s
  | CUnlock p => ignore (Unlock p)
  | CInitialise n p => ignore (Initialise n p)
  | CTryKeyring => ignore TryKeyring
  | CLock seal r => ignore (Lock seal r)
  | CUnlockAtLogin b => ignore (UnlockAtLogin b)
  | CClose => Close
  | CUnsealNotify => ignore UnsealNotify
  | CStopWaiting ch => stop_waiting ch
  | CPrompt how => SetUnsealPrompt how
  | CPark added by_ => ignore (Park added by_)
  end.

(** Beside the calls: who waits in [AwaitState], and the goroutines that serve. *)
Inductive beside :=
| Awaits (i : nat) (ctx_done : bool)
| Begins (i : nat).

Definition around (o : beside) (x : list awaiter * App) : list awaiter * App :=
  let '(e, w) := x in
  match o with
  | Awaits i ctx_done =>
    match e !! i with
    | Some a => let '(phase, w') := AwaitState ctx_done (aw_want a) (aw_phase a) w in (<[i := mk_awaiter (aw_want a) phase]> e, w')
    | None => (e, w)
    end
  | Begins i => (e, (serve_begins i w).2)
  end.

(** [build]: no core yet, and a store there is or is not. *)
Definition built (exists_ : bool) (parked : LocalKeys) (clock : nat -> time) : App :=
  mk_App (mk_line (if exists_ then LOCK_STATE_SEALED else LOCK_STATE_UNINITIALIZED) (clock 0%nat) emp emp)
    (mk_half None [] [] []) (mk_waits [] [] 0 []) (mk_rest false [] [] parked [] [] clock 1).

(** [Serve] as it begins. *)
Definition serves (w : App) : App :=
  on_rest (fun r => mk_rest true (rs_serving r) (rs_vaults r) (rs_parked r) (rs_audit r) (rs_panics r) (rs_clock r) (rs_ticks r)) w.

End App.
