(* ===== verification/LockSpec.v ===== *)
(** * LockSpec: what holds of the lock states

    Three views of [Lock].  One call at a time, the calls are an abstract
    machine of three phases.  In every interleaving, what the calls leave
    behind when they have all ended is accounted for: approvers are attached
    to the engine of the store that is open and to no other, every other
    store's keys are wiped, and nobody sleeps through a state they wait for.
    And what no interleaving repairs: an instance whose state says that a store
    is open while there is none keeps saying so. *)

From S2P Require Import Prelude.
From S2P Require Import GoText.
From S2P Require Import Ssh.
From S2P Require Import Proto.
From S2P Require Import Prompt.
From S2P Require Import Parked.
From S2P Require Import ParkedSpec.
From S2P Require Import Threads.
From S2P Require Import Lock.

Local Open Scope Z_scope.
Local Open Scope ladulas_scope.

(** ** The ledger

    What a call has taken on and not yet done: a channel off its list to close,
    a core taken to wipe, a slot that was removed and is still attached, a
    store that was opened. *)

Inductive owes :=
| OwesClose (ch : nat)
| OwesWipe (c : nat)
| OwesDetach (c s : nat)
| HasVault (v : nat).

#[export] Instance owes_eq_dec : EqDecision owes.
Proof. solve_decision. Defined.

#[export] Instance OwesClose_inj : Inj eq eq OwesClose.
Proof. by intros ch ch' [= ->]. Qed.

Definition closes (d : list owes) : list nat :=
  omap (fun x => match x with OwesClose ch => Some ch | _ => None end) d.

Lemma elem_of_closes ch d : ch ∈ closes d <-> OwesClose ch ∈ d.
Proof.
  unfold closes. rewrite list_elem_of_omap. split.
  - intros (x & Hx & Heq). destruct x; try done. by injection Heq as ->.
  - intros Hd. by exists (OwesClose ch).
Qed.

Lemma closes_cons ch d : closes (OwesClose ch :: d) = ch :: closes d.
Proof. done. Qed.

Lemma closes_app d d' : closes (d ++ d') = closes d ++ closes d'.
Proof. apply omap_app. Qed.

Lemma closes_map l : closes (map OwesClose l) = l.
Proof. induction l as [|ch l IH]; [done|]. cbn. f_equal. exact IH. Qed.

Lemma elem_of_splice x y l : x ∈ splice y l -> x ∈ l.
Proof.
  induction l as [|z l IH]; [done|]. cbn. case_bool_decide; rewrite !elem_of_cons; [by right|]. naive_solver.
Qed.

Lemma splice_other x y l : x <> y -> x ∈ l -> x ∈ splice y l.
Proof.
  intros Hne. induction l as [|z l IH]; [done|]. cbn. case_bool_decide; rewrite !elem_of_cons; naive_solver.
Qed.

Lemma NoDup_splice y l : NoDup l -> NoDup (splice y l).
Proof.
  induction 1 as [|z l Hz Hl IH]; [constructor|]. cbn. case_bool_decide; [done|]. constructor; [|done].
  by intros ?%elem_of_splice.
Qed.

Lemma splice_gone y l : NoDup l -> y ∉ splice y l.
Proof.
  induction 1 as [|z l Hz Hl IH]; [by apply not_elem_of_nil|]. cbn. case_bool_decide as Hzy; [by subst|].
  rewrite not_elem_of_cons. split; [congruence|done].
Qed.

Lemma splice_sublist y l : sublist (splice y l) l.
Proof. induction l as [|z l IH]; [constructor|]. cbn. case_bool_decide; constructor; done. Qed.

Section Ledger.
Context `{Unicode} `{keys : PrivateKeys} {Handler : Type}.

(** ** The half that comes and goes *)

Record half_ok (d : list owes) (h : half (Handler := Handler)) : Prop := {
  ho_core c : hf_core h = Some c -> (c < length (hf_cores h))%nat;
  ho_approvers : NoDup (hf_approvers h);
  ho_slot s : s ∈ hf_approvers h -> (s < length (hf_slots h))%nat;
  ho_detach s slot : hf_slots h !! s = Some slot ->
    sl_detach slot = if bool_decide (s ∈ hf_approvers h) then hf_core h else None;
  ho_engine c k s : hf_cores h !! c = Some k ->
    s ∈ en_approvers (co_engine k) <-> (s ∈ hf_approvers h /\ hf_core h = Some c) \/ OwesDetach c s ∈ d;
  ho_removed c s : OwesDetach c s ∈ d -> (s ∉ hf_approvers h) /\ (s < length (hf_slots h))%nat /\ (c < length (hf_cores h))%nat
}.

Record vaults_ok (d : list owes) (h : half (Handler := Handler)) (vaults : list bool) : Prop := {
  vo_core c k : hf_cores h !! c = Some k ->
    vaults !! co_vault k = Some (bool_decide (hf_core h <> Some c /\ (OwesWipe c ∉ d)));
  vo_own c c' k k' : hf_cores h !! c = Some k -> hf_cores h !! c' = Some k' -> co_vault k = co_vault k' -> c = c';
  vo_held v : HasVault v ∈ d -> vaults !! v = Some false /\ forall c k, hf_cores h !! c = Some k -> co_vault k <> v;
  vo_taken c : OwesWipe c ∈ d -> (c < length (hf_cores h))%nat /\ hf_core h <> Some c
}.

(** ** Who waits *)

Record waits_ok (e : list awaiter) (d : list owes) (st : LockState) (x : waits) : Prop := {
  wo_apart : NoDup (wt_state x ++ wt_unseal x ++ closes d);
  wo_made ch : ch ∈ wt_state x ++ wt_unseal x ++ closes d ++ wt_closed x -> (ch < wt_made x)%nat;
  wo_open ch : ch ∈ wt_closed x -> ch ∉ wt_state x ++ wt_unseal x ++ closes d;
  wo_sealed : wt_unseal x <> [] -> st = LOCK_STATE_SEALED;
  wo_asleep i a ch : e !! i = Some a -> aw_phase a = Asleep ch ->
    ch ∈ wt_closed x \/ OwesClose ch ∈ d \/ (ch ∈ wt_state x /\ aw_want a st = false);
  wo_alone i j a b ch : e !! i = Some a -> e !! j = Some b -> aw_phase a = Asleep ch -> aw_phase b = Asleep ch -> i = j
}.

Record tidy (e : list awaiter) (d : list owes) (w : App (Handler := Handler)) : Prop := {
  ti_ledger : NoDup d;
  ti_half : half_ok d (ap_half w);
  ti_vaults : vaults_ok d (ap_half w) (rs_vaults (ap_rest w));
  ti_waits : waits_ok e d (ln_state (ap_line w)) (ap_waits w);
  ti_panics : ClosedTwice ∉ rs_panics (ap_rest w)
}.

(** *** What each part looks at *)

Lemma half_ok_ext d d' h : (forall c s, OwesDetach c s ∈ d <-> OwesDetach c s ∈ d') -> half_ok d h -> half_ok d' h.
Proof.
  intros Hd [Hc Ha Hs Hdet He Hr]. split; try done.
  - intros c k s Hk. rewrite <-Hd. by apply He.
  - intros c s Hcs. apply (Hr c). by apply Hd.
Qed.

Lemma vaults_ok_ext d d' h vaults : (forall c, OwesWipe c ∈ d <-> OwesWipe c ∈ d') ->
  (forall v, HasVault v ∈ d' -> HasVault v ∈ d) -> vaults_ok d h vaults -> vaults_ok d' h vaults.
Proof.
  intros Hd Hv [Hc Ho Hh Ht]. split; try done.
  - intros c k Hk. rewrite (Hc c k Hk). f_equal. apply bool_decide_ext. by rewrite Hd.
  - intros v Hin. by apply Hh, Hv.
  - intros c Hin. by apply Ht, Hd.
Qed.

Lemma waits_ok_perm e d d' st x : closes d ≡ₚ closes d' -> waits_ok e d st x -> waits_ok e d' st x.
Proof.
  intros Hd [Ha Hm Ho Hs Hw Hl]. split; try done.
  - by rewrite <-Hd.
  - intros ch. rewrite <-Hd. apply Hm.
  - intros ch Hch. rewrite <-Hd. by apply Ho.
  - intros i a ch Hi Hch. rewrite <-(elem_of_closes ch d'), <-Hd, elem_of_closes. by eapply Hw.
Qed.

Lemma tidy_permutes e d d' w : Permutation d d' -> tidy e d w -> tidy e d' w.
Proof.
  intros Hd [Hn Hh Hv Hw Hp]. split; try done.
  - by rewrite <-Hd.
  - eapply half_ok_ext; [|done]. intros. by rewrite Hd.
  - eapply vaults_ok_ext; [| |done]; intros; [by rewrite Hd|]. by rewrite Hd.
  - eapply waits_ok_perm; [|done]. unfold closes. by rewrite Hd.
Qed.

(** ** Cores and slots *)

Lemma lookup_alter_if {A} (f : A -> A) i j (l : list A) :
  alter f i l !! j = (fun x => if bool_decide (i = j) then f x else x) <$> l !! j.
Proof.
  case_bool_decide as Hij.
  - subst j. rewrite list_lookup_alter. by case_decide.
  - rewrite list_lookup_alter_ne by done. by destruct (l !! j).
Qed.

Definition with_approvers (f : list nat -> list nat) (k : core) : core :=
  set_engine (mk_engine (f (en_approvers (co_engine k))) (en_softLocked (co_engine k)) (en_hooks (co_engine k))) k.

Lemma with_approvers_id f k : f (en_approvers (co_engine k)) = en_approvers (co_engine k) -> with_approvers f k = k.
Proof. destruct k as [v [l so hooks] p st nb]. cbn. intros Hf. unfold with_approvers. cbn. by rewrite Hf. Qed.

(** A change of a core that leaves its approvers and its store. *)
Definition minds_own (f : core -> core) : Prop := forall k,
  co_vault (f k) = co_vault k /\ en_approvers (co_engine (f k)) = en_approvers (co_engine k).

Lemma in_core_lookup c f (h : half (Handler := Handler)) c' :
  hf_cores (in_core c f h) !! c' = (fun k => if bool_decide (c = c') then f k else k) <$> hf_cores h !! c'.
Proof. apply lookup_alter_if. Qed.

Lemma in_core_was c f (h : half (Handler := Handler)) c' k : minds_own f -> hf_cores (in_core c f h) !! c' = Some k ->
  exists k', hf_cores h !! c' = Some k' /\ co_vault k = co_vault k' /\ en_approvers (co_engine k) = en_approvers (co_engine k').
Proof.
  intros Hf Hk. rewrite in_core_lookup in Hk. destruct (hf_cores h !! c') as [k'|]; [|done]. cbn in Hk. simplify_eq.
  exists k'. split; [done|]. case_bool_decide; [apply Hf|done].
Qed.

Lemma half_ok_in_core d c f h : minds_own f -> half_ok d h -> half_ok d (in_core c f h).
Proof.
  intros Hf [Hc Ha Hs Hdet He Hr]. split; try done.
  - intros c' Hc'. cbn. rewrite length_alter. by apply Hc.
  - intros c' k s Hk. destruct (in_core_was _ _ _ _ _ Hf Hk) as (k' & Hk' & _ & Heq). rewrite Heq. by apply He.
  - intros c' s Hcs. cbn. rewrite length_alter. by apply Hr.
Qed.

Lemma vaults_ok_in_core d c f h vaults : minds_own f -> vaults_ok d h vaults -> vaults_ok d (in_core c f h) vaults.
Proof.
  intros Hf [Hc Ho Hh Ht]. split.
  - intros c' k Hk. destruct (in_core_was _ _ _ _ _ Hf Hk) as (k' & Hk' & Heq & _). rewrite Heq. by apply Hc.
  - intros c1 c2 k1 k2 H1 H2. destruct (in_core_was _ _ _ _ _ Hf H1) as (k1' & H1' & -> & _).
    destruct (in_core_was _ _ _ _ _ Hf H2) as (k2' & H2' & -> & _). by apply Ho.
  - intros v Hv. destruct (Hh v Hv) as [Hw Hno]. split; [done|]. intros c' k Hk.
    destruct (in_core_was _ _ _ _ _ Hf Hk) as (k' & Hk' & -> & _). by eapply Hno.
  - intros c' Hc'. cbn. rewrite length_alter. by apply Ht.
Qed.

(** *** Many slots at once *)

Lemma attach_all_spec c l (h : half (Handler := Handler)) :
  let h' := foldl (fun h s => attach c s h) h l in
  hf_core h' = hf_core h /\ hf_approvers h' = hf_approvers h /\
  length (hf_slots h') = length (hf_slots h) /\ length (hf_cores h') = length (hf_cores h) /\
  (forall s, hf_slots h' !! s =
     (fun slot => mk_slot (sl_handler slot) (if bool_decide (s ∈ l) then Some c else sl_detach slot)) <$> hf_slots h !! s) /\
  (forall c', hf_cores h' !! c' =
     (fun k => if bool_decide (c = c') then with_approvers (fun x => x ++ l) k else k) <$> hf_cores h !! c').
Proof.
  cbv zeta. revert h. induction l as [|s l IH]; intros h; cbn [foldl].
  - split_and!; try done.
    + intros s. destruct (hf_slots h !! s) as [[hd det]|]; done.
    + intros c'. destruct (hf_cores h !! c') as [k|]; [|done]. cbn. case_bool_decide; [|done].
      by rewrite with_approvers_id by apply app_nil_r.
  - destruct (IH (attach c s h)) as (-> & -> & -> & -> & Hslots & Hcores). cbn [attach set_detach in_engine in_core hf_core hf_approvers hf_slots hf_cores].
    rewrite !length_alter. split_and!; try done.
    + intros s'. rewrite Hslots. cbn [attach set_detach hf_slots in_engine in_core]. rewrite lookup_alter_if, <-option_fmap_compose.
      apply option_fmap_ext. intros slot. cbn. repeat case_bool_decide; set_solver.
    + intros c'. rewrite Hcores. cbn [attach set_detach hf_cores in_engine in_core]. rewrite lookup_alter_if, <-option_fmap_compose.
      apply option_fmap_ext. intros k. cbn. case_bool_decide; [|done]. unfold with_approvers. cbn.
      by rewrite <-app_assoc.
Qed.

Lemma without_spec s l x : x ∈ without s l <-> x ∈ l /\ x <> s.
Proof. unfold without. rewrite list_elem_of_filter. naive_solver. Qed.

(** Each of the slots lets go of what it is attached to. *)
Definition let_go (l : list nat) (h : half (Handler := Handler)) (c : nat) (x : list nat) : list nat :=
  filter (fun s => ~ (s ∈ l /\ slot_detach s h = Some c)) x.

Lemma release_spec s (h : half (Handler := Handler)) :
  let h' := release s h in
  hf_core h' = hf_core h /\ hf_approvers h' = hf_approvers h /\
  length (hf_slots h') = length (hf_slots h) /\ length (hf_cores h') = length (hf_cores h) /\
  (forall s', hf_slots h' !! s' =
     (fun slot => mk_slot (sl_handler slot) (if bool_decide (s' = s) then None else sl_detach slot)) <$> hf_slots h !! s') /\
  (forall c', hf_cores h' !! c' =
     with_approvers (fun x => if bool_decide (slot_detach s h = Some c') then without s x else x) <$> hf_cores h !! c').
Proof.
  cbv zeta. unfold release. destruct (slot_detach s h) as [c|] eqn:Hs.
  - cbn. rewrite !length_alter. split_and!; try done.
    + intros s'. rewrite lookup_alter_if. apply option_fmap_ext. intros [hd det]. cbn. repeat case_bool_decide; naive_solver.
    + intros c'. rewrite lookup_alter_if. apply option_fmap_ext. intros k. repeat case_bool_decide; try congruence; [done|].
      by rewrite with_approvers_id.
  - split_and!; try done.
    + intros s'. destruct (hf_slots h !! s') as [[hd det]|] eqn:Hs'; [|done]. cbn. case_bool_decide; [|done].
      subst s'. unfold slot_detach in Hs. rewrite Hs' in Hs. cbn in Hs. by rewrite Hs.
    + intros c'. destruct (hf_cores h !! c') as [k|]; [|done]. cbn. by rewrite with_approvers_id.
Qed.

Lemma release_all_spec l (h : half (Handler := Handler)) :
  let h' := foldl (fun h s => release s h) h l in
  hf_core h' = hf_core h /\ hf_approvers h' = hf_approvers h /\
  length (hf_slots h') = length (hf_slots h) /\ length (hf_cores h') = length (hf_cores h) /\
  (forall s, hf_slots h' !! s =
     (fun slot => mk_slot (sl_handler slot) (if bool_decide (s ∈ l) then None else sl_detach slot)) <$> hf_slots h !! s) /\
  (forall c', hf_cores h' !! c' = with_approvers (let_go l h c') <$> hf_cores h !! c').
Proof.
  cbv zeta. revert h. induction l as [|s l IH]; intros h; cbn [foldl].
  - split_and!; try done.
    + intros s. destruct (hf_slots h !! s) as [[hd det]|]; done.
    + intros c'. destruct (hf_cores h !! c') as [k|]; [|done]. cbn. rewrite with_approvers_id; [done|].
      apply list_filter_all, Forall_forall. intros x _ [Hx _]. by apply not_elem_of_nil in Hx.
  - destruct (release_spec s h) as (R1 & R2 & R3 & R4 & Rs & Rc).
    destruct (IH (release s h)) as (-> & -> & -> & -> & Hslots & Hcores). split_and!; try done.
    + intros s'. rewrite Hslots, Rs, <-option_fmap_compose. apply option_fmap_ext. intros slot. cbn.
      repeat case_bool_decide; set_solver.
    + intros c'. rewrite Hcores, Rc, <-option_fmap_compose. apply option_fmap_ext.
      intros [v [x0 so hk] pe st nb]. unfold compose, with_approvers, set_engine.
      cbn [co_engine co_vault co_peer co_stop co_nearby en_approvers en_softLocked en_hooks].
      f_equal. f_equal. unfold let_go.
      assert (forall x, slot_detach x (release s h) = if bool_decide (x = s) then None else slot_detach x h) as Hdet.
      { intros x. unfold slot_detach. rewrite Rs. destruct (hf_slots h !! x) as [slot|]; cbn; by destruct (bool_decide (x = s)). }
      assert ((if bool_decide (slot_detach s h = Some c') then without s x0 else x0)
        = filter (fun x => ~ (x = s /\ slot_detach s h = Some c')) x0) as ->.
      { case_bool_decide as Hsc; [unfold without; apply list_filter_iff; naive_solver|].
        symmetry. apply list_filter_all, Forall_forall. intros x _ [_ Hx]. done. }
      rewrite list_filter_filter. apply list_filter_iff. intros x. rewrite Hdet, elem_of_cons.
      case_bool_decide; naive_solver.
Qed.

(** ** Every step keeps the account *)

Lemma tidy_rest e d f (w : App (Handler := Handler)) : rs_vaults (f (ap_rest w)) = rs_vaults (ap_rest w) ->
  (ClosedTwice ∈ rs_panics (f (ap_rest w)) -> ClosedTwice ∈ rs_panics (ap_rest w)) -> tidy e d w -> tidy e d (on_rest f w).
Proof. intros Hv Hp [Hn Hh Hvs Hw Hno]. split; cbn; try done; [by rewrite Hv|]. naive_solver. Qed.

Lemma tidy_in_core e d c f (w : App (Handler := Handler)) : minds_own f -> tidy e d w -> tidy e d (set_half (in_core c f (ap_half w)) w).
Proof.
  intros Hf [Hn Hh Hv Hw Hp]. split; cbn; try done; [by apply half_ok_in_core|by apply vaults_ok_in_core].
Qed.

Lemma tidy_line e d l (w : App (Handler := Handler)) : ln_state l = ln_state (ap_line w) -> tidy e d w -> tidy e d (set_line l w).
Proof. intros Hl [Hn Hh Hv Hw Hp]. split; cbn; try done. by rewrite Hl. Qed.

Abbreviation follows := (good (S := App (Handler := Handler)) tidy).
Definition same {A} (d : list owes) (_ : A) (d' : list owes) : Prop := d' = d.

(** A step that changes nothing the account looks at. *)
Lemma follows_quiet {A} d (m : state (App (Handler := Handler)) A) :
  (forall e d w, tidy e d w -> tidy e d (m w).2) -> follows d (same d) (atomic m).
Proof. intros Hm. apply good_quiet. intros e others w. apply Hm. Qed.

Lemma follows_gets {A} d (f : App (Handler := Handler) -> A) : follows d (same d) (atomic (gets f)).
Proof. by apply follows_quiet. Qed.

Lemma follows_outside {A} d (f : nat -> A) : follows d (same d) (atomic (outside (Handler := Handler) f)).
Proof. apply follows_quiet. intros e d' w Hw. by apply tidy_rest. Qed.

Lemma follows_same_bind {A B} d (Q : B -> list owes -> Prop) (p : prog (App (Handler := Handler)) A) (f : A -> prog (App (Handler := Handler)) B) :
  follows d (same d) p -> (forall a, follows d Q (f a)) -> follows d Q (p ≫= f).
Proof. intros Hp Hf. eapply good_bind; [exact Hp|]. intros a d' ->. apply Hf. Qed.

Lemma follows_mret {A} d (a : A) : follows d (same d) (mret a).
Proof. done. Qed.

(** *** Channels *)

Lemma waits_moved e d d' st st' x x' :
  wt_state x' ++ wt_unseal x' ++ closes d' ≡ₚ wt_state x ++ wt_unseal x ++ closes d ->
  wt_closed x' = wt_closed x -> wt_made x' = wt_made x -> (wt_unseal x' <> [] -> st' = LOCK_STATE_SEALED) ->
  (forall i a ch, e !! i = Some a -> aw_phase a = Asleep ch -> ch ∈ wt_closed x \/ OwesClose ch ∈ d \/ (ch ∈ wt_state x /\ aw_want a st = false) ->
     ch ∈ wt_closed x' \/ OwesClose ch ∈ d' \/ (ch ∈ wt_state x' /\ aw_want a st' = false)) ->
  waits_ok e d st x -> waits_ok e d' st' x'.
Proof.
  intros Hperm Hcl Hmade Hs Has [Ha Hm Ho Hse Hw Hl]. split; try done.
  - by rewrite Hperm.
  - intros ch. rewrite Hcl, Hmade. intros Hch. apply Hm. revert Hch.
    rewrite !app_assoc, <-(app_assoc (wt_state x')), <-(app_assoc (wt_state x)), !elem_of_app, <-!elem_of_app, Hperm. done.
  - intros ch. rewrite Hcl, Hperm. apply Ho.
  - intros i a ch Hi Hch. eapply Has; [done|done|]. by eapply Hw.
Qed.

Lemma close_follows d ch : follows (OwesClose ch :: d) (same d) (close ch).
Proof.
  apply good_atomic. intros e others w [Hn Hh Hv Hw Hp]. exists d. split; [|done]. cbn in *.
  apply NoDup_cons in Hn as [Hnew Hn].
  assert (ch ∉ wt_closed (ap_waits w)) as Hopen.
  { intros Hc. apply (wo_open _ _ _ _ Hw _ Hc). rewrite !elem_of_app, elem_of_closes. right. right. by left. }
  rewrite bool_decide_eq_false_2 by done. split; cbn; try done.
  - eapply half_ok_ext; [|exact Hh]. intros. rewrite elem_of_cons. naive_solver.
  - eapply vaults_ok_ext; [| |exact Hv]; intros; rewrite elem_of_cons; naive_solver.
  - destruct Hw as [Ha Hm Ho Hs Hw Hl]. cbn in Ha, Hm, Ho.
    assert (Permutation (wt_state (ap_waits w) ++ wt_unseal (ap_waits w) ++ ch :: closes (d ++ others))
      (ch :: wt_state (ap_waits w) ++ wt_unseal (ap_waits w) ++ closes (d ++ others))) as Hperm.
    { rewrite !app_assoc. by rewrite <-Permutation_middle. }
    change (closes (OwesClose ch :: d ++ others)) with (ch :: closes (d ++ others)) in Ha, Hm, Ho.
    rewrite Hperm in Ha. apply NoDup_cons in Ha as [Hnew' Ha]. split; cbn; try done.
    + intros ch' Hch'. apply Hm. revert Hch'. rewrite !elem_of_app, !elem_of_cons, !elem_of_app. tauto.
    + intros ch' [->|Hch']%elem_of_cons; [done|]. specialize (Ho ch' Hch'). rewrite Hperm, not_elem_of_cons in Ho. tauto.
    + intros i a ch' Hi Hch'. destruct (Hw i a ch' Hi Hch') as [Hc|[Hc|Hc]]; [by left; right| |by right; right].
      apply elem_of_cons in Hc as [[= ->]|Hc]; [left; by left|by right; left].
Qed.

Lemma close_all_follows l d : follows (map OwesClose l ++ d) (same d) (close_all l).
Proof.
  induction l as [|ch l IH]; [done|]. cbn [close_all map app].
  eapply good_bind; [apply close_follows|]. intros [] d' ->. exact IH.
Qed.

Lemma enter_follows d st reason : st = LOCK_STATE_UNLOCKED \/ st = LOCK_STATE_LOCKED \/ st = LOCK_STATE_SEALED ->
  follows d (fun taken d' => d' = map OwesClose taken.1 ++ map OwesClose taken.2 ++ d) (atomic (enter st reason)).
Proof.
  intros Hst. apply good_atomic. intros e others w [Hn Hh Hv Hw Hp].
  set (taken := (enter st reason w).1).
  exists (map OwesClose taken.1 ++ map OwesClose taken.2 ++ d). split; [|done].
  assert (closes ((map OwesClose taken.1 ++ map OwesClose taken.2 ++ d) ++ others) = taken.1 ++ taken.2 ++ closes (d ++ others)) as Hcl.
  { by rewrite !closes_app, !closes_map, !app_assoc. }
  assert (forall x, x ∈ (map OwesClose taken.1 ++ map OwesClose taken.2 ++ d) ++ others <->
    (exists ch, x = OwesClose ch /\ ch ∈ taken.1 ++ taken.2) \/ x ∈ d ++ others) as Hin.
  { intros x. rewrite !elem_of_app, !list_elem_of_fmap. split.
    - intros [[(ch & -> & Hc)|[(ch & -> & Hc)|Hd]]|Ho]; [| |tauto|tauto]; left; exists ch; rewrite elem_of_app; tauto.
    - intros [(ch & -> & [Hc|Hc]%elem_of_app)|[Hd|Ho]]; eauto 8. }
  assert (taken.2 ++ taken.1 ⊆ wt_state (ap_waits w) ++ wt_unseal (ap_waits w)) as Htaken.
  { intros x. unfold taken, enter. cbn. destruct (_ || _); rewrite !elem_of_app; [tauto|]. intros [?|?%not_elem_of_nil]; [by left|done]. }
  split; cbn [ap_half ap_line ap_rest ap_waits enter snd ln_state]; try done.
  - rewrite <-!app_assoc. rewrite app_assoc. apply NoDup_app. split_and!; [|intros x Hx Hd|done].
    + rewrite <-map_app. apply (NoDup_fmap_2 OwesClose).
      pose proof (wo_apart _ _ _ _ Hw) as Ha. rewrite app_assoc in Ha. apply NoDup_app in Ha as (Ha & _ & _).
      unfold taken, enter. cbn. destruct (_ || _); cbn; [by rewrite Permutation_app_comm|by apply NoDup_app in Ha as [Ha _]].
    + rewrite <-map_app in Hx. apply list_elem_of_fmap in Hx as (ch & -> & Hch). apply elem_of_closes in Hd.
      pose proof (wo_apart _ _ _ _ Hw) as Ha. rewrite app_assoc in Ha. apply NoDup_app in Ha as (_ & Ha & _).
      apply (Ha ch); [|done]. apply Htaken. rewrite elem_of_app. rewrite elem_of_app in Hch. tauto.
  - eapply half_ok_ext; [|exact Hh]. intros c s. rewrite Hin. split; [by right|]. by intros [(ch & [=] & _)|?].
  - eapply vaults_ok_ext; [| |exact Hv]; intros x; rewrite Hin; [split; [by right|]|]; by intros [(ch & [=] & _)|?].
  - eapply waits_moved; [..|exact Hw]; cbn [enter snd ap_waits wt_state wt_unseal wt_closed wt_made]; try done.
    + rewrite Hcl. unfold taken, enter. cbn. destruct (_ || _); cbn; solve_Permutation.
    + destruct Hst as [Hst|[Hst|Hst]]; subst st; cbn; naive_solver.
    + intros i a ch Hi Hch [Hc|[Hc|[Hc _]]]; [by left| |]; right; left; apply Hin; [by right|].
      left. exists ch. split; [done|]. apply elem_of_app. right. exact Hc.
Qed.

Lemma setState_follows d st reason : st = LOCK_STATE_UNLOCKED \/ st = LOCK_STATE_LOCKED \/ st = LOCK_STATE_SEALED ->
  follows d (same d) (setState st reason).
Proof.
  intros Hst. eapply good_bind; [by apply enter_follows|]. intros taken d' ->.
  eapply good_bind; [apply close_all_follows|]. intros [] d' ->. apply close_all_follows.
Qed.

(** *** Approvers *)

Lemma slot_detach_ok d h s : half_ok d h ->
  slot_detach s h = if bool_decide (s ∈ hf_approvers h) then hf_core h else None.
Proof.
  intros Ho. unfold slot_detach. destruct (hf_slots h !! s) as [slot|] eqn:Hs; cbn; [by apply (ho_detach _ _ Ho)|].
  case_bool_decide as Hin; [|done]. apply (ho_slot _ _ Ho) in Hin. apply lookup_ge_None in Hs. lia.
Qed.

(** A slot more, attached when there is something to attach it to. *)
Definition registered (h : Handler) (x : half (Handler := Handler)) : half (Handler := Handler) :=
  let s := length (hf_slots x) in
  let x := mk_half (hf_core x) (hf_cores x) (hf_slots x ++ [mk_slot h None]) (hf_approvers x ++ [s]) in
  match hf_core x with Some c => attach c s x | None => x end.

Lemma registered_lookups h x : let x' := registered h x in let s := length (hf_slots x) in
  hf_core x' = hf_core x /\ hf_approvers x' = hf_approvers x ++ [s] /\ length (hf_cores x') = length (hf_cores x) /\
  length (hf_slots x') = S s /\
  (forall s', hf_slots x' !! s' = if bool_decide (s' = s) then Some (mk_slot h (hf_core x)) else hf_slots x !! s') /\
  (forall c, hf_cores x' !! c = with_approvers (fun l => if bool_decide (hf_core x = Some c) then l ++ [s] else l) <$> hf_cores x !! c).
Proof.
  cbv zeta. unfold registered. cbn [hf_core].
  assert (forall s' a, (hf_slots x ++ [a]) !! s' = if bool_decide (s' = length (hf_slots x)) then Some a else hf_slots x !! s') as Hsnoc.
  { intros s' a. case_bool_decide as Hs.
    - subst s'. by rewrite lookup_app_r, Nat.sub_diag by lia.
    - destruct (decide (s' < length (hf_slots x))%nat); [by rewrite lookup_app_l|].
      rewrite !lookup_ge_None_2; [done|lia|]. rewrite length_app. cbn. lia. }
  destruct (hf_core x) as [c0|] eqn:Hc0; cbn [attach set_detach in_engine in_core hf_core hf_cores hf_slots hf_approvers].
  - rewrite !length_alter, length_app. cbn [length]. split_and!; try done; [lia| |].
    + intros s'. rewrite lookup_alter_if, Hsnoc. repeat case_bool_decide; try congruence; cbn; by destruct (hf_slots x !! s').
    + intros c. rewrite lookup_alter_if. apply option_fmap_ext. intros k.
      repeat case_bool_decide; try congruence; [done|]. by rewrite with_approvers_id.
  - rewrite length_app. cbn [length]. split_and!; try done; [lia|].
    intros c. destruct (hf_cores x !! c) as [k|]; [|done]. cbn. by rewrite with_approvers_id.
Qed.

(** What is written down of a core but its approvers. *)
Lemma with_approvers_vault f k : co_vault (with_approvers f k) = co_vault k.
Proof. done. Qed.

Lemma vaults_ok_approvers d h h' vaults f : hf_core h' = hf_core h -> length (hf_cores h') = length (hf_cores h) ->
  (forall c, hf_cores h' !! c = with_approvers (f c) <$> hf_cores h !! c) -> vaults_ok d h vaults -> vaults_ok d h' vaults.
Proof.
  intros Hcore Hlen Hcores [Hc Ho Hh Ht].
  assert (forall c k, hf_cores h' !! c = Some k -> exists k', hf_cores h !! c = Some k' /\ co_vault k = co_vault k') as Hback.
  { intros c k Hk. rewrite Hcores in Hk. destruct (hf_cores h !! c) as [k'|]; [|done]. injection Hk as <-. by exists k'. }
  split.
  - intros c k (k' & Hk & ->)%Hback. rewrite Hcore. by apply Hc.
  - intros c1 c2 k1 k2 (k1' & H1 & ->)%Hback (k2' & H2 & ->)%Hback. by apply Ho.
  - intros v Hv. destruct (Hh v Hv) as [Hw Hno]. split; [done|]. intros c k (k' & Hk & ->)%Hback. by eapply Hno.
  - intros c Hin. rewrite Hcore, Hlen. by apply Ht.
Qed.

Lemma RegisterApprover_follows d h : follows d (same d) (RegisterApprover h).
Proof.
  apply follows_quiet. intros e d' w [Hn Hh Hv Hw Hp].
  enough (tidy e d' (set_half (registered h (ap_half w)) w)) by done.
  destruct (registered_lookups h (ap_half w)) as (E1 & E2 & E3 & E4 & E5 & E6).
  split; cbn [set_half ap_half ap_line ap_waits ap_rest]; try done;
    [|exact (vaults_ok_approvers _ _ _ _ (fun c l => if bool_decide (hf_core (ap_half w) = Some c) then l ++ [length (hf_slots (ap_half w))] else l) E1 E3 E6 Hv)].
  destruct Hh as [Hc Ha Hs Hdet He Hr].
  assert (length (hf_slots (ap_half w)) ∉ hf_approvers (ap_half w)) as Hfresh.
  { intros Hin%Hs. lia. }
  split.
  - intros c. rewrite E1, E3. apply Hc.
  - rewrite E2. apply NoDup_app. split_and!; [done| |by apply NoDup_singleton]. by intros s Hin ->%list_elem_of_singleton.
  - intros s. rewrite E2, E4, elem_of_app, list_elem_of_singleton. intros [Hin%Hs|Heq]; lia.
  - intros s slot. rewrite E1, E2, E5. case_bool_decide as Heq.
    + intros [= <-]. subst s. rewrite bool_decide_eq_true_2; [done|]. apply elem_of_app. right. by left.
    + intros Hslot. rewrite (Hdet s slot Hslot). erewrite bool_decide_ext; [done|].
      rewrite elem_of_app, list_elem_of_singleton. tauto.
  - intros c k s. rewrite E1, E2, E6. destruct (hf_cores (ap_half w) !! c) as [k'|] eqn:Hk'; [|done].
    intros [= <-]. cbn. specialize (He c k' s Hk'). rewrite elem_of_app, list_elem_of_singleton.
    destruct (decide (s = length (hf_slots (ap_half w)))) as [Hs0|Hs0].
    + subst s. assert (OwesDetach c (length (hf_slots (ap_half w))) ∉ d') as Hno.
      { intros (_ & Hlt & _)%Hr. lia. }
      case_bool_decide; [rewrite elem_of_app, list_elem_of_singleton|]; tauto.
    + case_bool_decide; [rewrite elem_of_app, list_elem_of_singleton|]; tauto.
  - intros c s Hcs. destruct (Hr c s Hcs) as (Hno & Hlt & Hc0). rewrite E2, E3, E4, not_elem_of_app, not_elem_of_cons.
    split_and!; [done|lia|apply not_elem_of_nil|lia|done].
Qed.

(** The slot is off the list, and still attached to what it was attached to. *)
Definition still_attached (s : nat) (h : half (Handler := Handler)) : list owes :=
  match slot_detach s h with Some c => [OwesDetach c s] | None => [] end.

Lemma elem_of_still_attached s h y : y ∈ still_attached s h <-> exists c, y = OwesDetach c s /\ slot_detach s h = Some c.
Proof.
  unfold still_attached. destruct (slot_detach s h) as [c|].
  - rewrite list_elem_of_singleton. naive_solver.
  - rewrite elem_of_nil. naive_solver.
Qed.

Lemma half_ok_attached d s c h : half_ok d h -> slot_detach s h = Some c -> s ∈ hf_approvers h /\ hf_core h = Some c.
Proof. intros Hh Hc. pose proof (slot_detach_ok _ _ s Hh) as Hdet. rewrite Hc in Hdet. by case_bool_decide. Qed.

Lemma half_ok_unregister d s h : half_ok d h ->
  half_ok (still_attached s h ++ d)
    (mk_half (hf_core h) (hf_cores h) (hf_slots (set_detach s None h)) (splice s (hf_approvers h))).
Proof.
  intros Hh. pose proof (slot_detach_ok _ _ s Hh) as Hdet. pose proof (half_ok_attached d s) as Hatt.
  destruct Hh as [Hc Ha Hs Hdt He Hr] eqn:Eh. clear Eh. pose proof (splice_gone s _ Ha) as Hgone.
  split; cbn [hf_core hf_cores hf_slots hf_approvers set_detach].
  - done.
  - by apply NoDup_splice.
  - intros s' Hs'%elem_of_splice. rewrite length_alter. by apply Hs.
  - intros s' slot. rewrite lookup_alter_if. destruct (hf_slots h !! s') as [slot'|] eqn:Hslot; [|done].
    intros [= <-]. destruct (decide (s = s')) as [Heq|Heq];
      [rewrite (bool_decide_eq_true_2 (s = s')) by done|rewrite (bool_decide_eq_false_2 (s = s')) by done]; cbn.
    + subst s'. by rewrite bool_decide_eq_false_2.
    + rewrite (Hdt s' slot' Hslot). erewrite bool_decide_ext; [done|]. split; [by apply splice_other|apply elem_of_splice].
  - intros c k s' Hk. rewrite (He c k s' Hk), elem_of_app, elem_of_still_attached. destruct (decide (s' = s)) as [Heq|Heq].
    + subst s'. split.
      * intros [[Hin1 Hc1]|Ho]; [|tauto]. right. left. exists c. split; [done|]. by rewrite Hdet, bool_decide_eq_true_2.
      * intros [[Hin1 _]|[(c' & [= ->] & Hc')|Ho]]; [done| |tauto]. left. by apply Hatt.
    + assert (s' ∈ splice s (hf_approvers h) <-> s' ∈ hf_approvers h) as ->.
      { split; [apply elem_of_splice|by apply splice_other]. }
      naive_solver.
  - intros c s'. rewrite elem_of_app, elem_of_still_attached, length_alter. intros [(c' & [= -> ->] & Hc')|Hcs].
    + destruct (Hatt c' h) as [Hin' Hcur]; [by split|done|]. split_and!; [done|by apply Hs|by apply Hc].
    + destruct (Hr c s' Hcs) as (Hno & Hlt & Hc0). split_and!; try done. by intros ?%elem_of_splice.
Qed.

Lemma half_ok_detached d c s h : NoDup (OwesDetach c s :: d) -> half_ok (OwesDetach c s :: d) h -> half_ok d (detach c s h).
Proof.
  intros [Hnew Hn]%NoDup_cons Hh. destruct (ho_removed _ _ Hh c s) as (Hout & Hlt & _); [by left|].
  destruct Hh as [Hc Ha Hs Hdt He Hr]. split; cbn; try done.
  - intros c'. rewrite length_alter. apply Hc.
  - intros c' k s'. rewrite lookup_alter_if. destruct (hf_cores h !! c') as [k'|] eqn:Hk'; [|done].
    intros [= <-]. specialize (He c' k' s' Hk'). rewrite elem_of_cons in He.
    case_bool_decide as Heq; cbn; [rewrite without_spec|]; rewrite He; [|naive_solver].
    subst c'. destruct (decide (s' = s)) as [Hs'|Hs']; [subst s'; tauto|]. naive_solver.
  - intros c' s' Hcs. rewrite length_alter. apply (Hr c'). by right.
Qed.

Lemma unregister_follows s : follows [] (fun _ d => d = []) (unregister (Handler := Handler) s).
Proof.
  unfold unregister.
  eapply (good_bind tidy [] (fun a d => d = match a with Some c => [OwesDetach c s] | None => [] end)).
  - apply good_atomic. intros e others w [Hn Hh Hv Hw Hp]. cbn [app] in *.
    exists (still_attached s (ap_half w)). split; [|done].
    assert (closes (still_attached s (ap_half w) ++ others) = closes others) as Hcl
      by (unfold still_attached; by destruct (slot_detach s (ap_half w))).
    split; cbn [snd set_half ap_half ap_line ap_waits ap_rest]; try done.
    + unfold still_attached. destruct (slot_detach s (ap_half w)) as [c|] eqn:Hc; [|done]. cbn. constructor; [|done].
      intros (Hno & _)%(ho_removed _ _ Hh). by destruct (half_ok_attached _ _ _ _ Hh Hc).
    + exact (half_ok_unregister others s (ap_half w) Hh).
    + assert (vaults_ok (still_attached s (ap_half w) ++ others) (ap_half w) (rs_vaults (ap_rest w))) as [V1 V2 V3 V4]; [|by split].
      eapply vaults_ok_ext; [| |exact Hv]; intros y; rewrite elem_of_app, elem_of_still_attached; [split; [by right|]|]; by intros [(c & [=] & _)|?].
    + eapply waits_ok_perm; [|exact Hw]. by rewrite Hcl.
  - intros [c|] d' ->; [|done]. apply good_atomic. intros e others w [Hn Hh Hv Hw Hp]. exists []. split; [|done].
    cbn [app modify snd] in *. split; cbn [set_half ap_half ap_line ap_waits ap_rest]; try done.
    + by apply NoDup_cons in Hn as [_ Hn].
    + by apply half_ok_detached.
    + assert (vaults_ok others (ap_half w) (rs_vaults (ap_rest w))) as Hv'.
      { eapply vaults_ok_ext; [| |exact Hv]; intros y; rewrite elem_of_cons; naive_solver. }
      apply (vaults_ok_approvers _ _ _ _ (fun c' l => if bool_decide (c = c') then without s l else l)) with (4 := Hv'); [done|apply length_alter|].
      intros c'. cbn. rewrite lookup_alter_if. apply option_fmap_ext. intros k. case_bool_decide; [done|]. by rewrite with_approvers_id.
    + eapply waits_ok_perm; [|exact Hw]. done.
Qed.

(** *** Stores and cores *)

Lemma in_one {A} (x y : A) d : y <> x -> y ∈ x :: d <-> y ∈ d.
Proof. intros Hne. rewrite elem_of_cons. tauto. Qed.

Lemma opened_follows d f : follows d
  (fun r d' => d' = match r with Ok (v, _) => HasVault v :: d | Err _ => d end) (atomic (opened (Handler := Handler) f)).
Proof.
  apply good_atomic. intros e others w [Hn Hh Hv Hw Hp]. unfold opened, outside. cbn.
  destruct (f (rs_ticks (ap_rest w))) as [fingerprint|err]; (eexists; split; [|done]); [|by split].
  assert (HasVault (length (rs_vaults (ap_rest w))) ∉ d ++ others) as Hfresh.
  { intros [Hlook _]%(vo_held _ _ _ Hv). apply lookup_lt_Some in Hlook. lia. }
  split; cbn; try done.
  - by constructor.
  - eapply half_ok_ext; [|exact Hh]. intros. by rewrite in_one.
  - destruct Hv as [Hc Ho Hheld Ht]. split; try done.
    + intros c k Hk. pose proof (Hc c k Hk) as Hlook. rewrite lookup_app_l by (by eapply lookup_lt_Some).
      rewrite Hlook. f_equal. apply bool_decide_ext. by rewrite in_one.
    + intros v [[= ->]|Hv]%elem_of_cons.
      * rewrite lookup_app_r, Nat.sub_diag by lia. split; [done|]. intros c k Hk Heq.
        pose proof (Hc c k Hk) as Hlook. apply lookup_lt_Some in Hlook. lia.
      * destruct (Hheld v Hv) as [Hlook Hno]. split; [|done]. rewrite lookup_app_l; [done|by eapply lookup_lt_Some].
    + intros c Hin. apply Ht. by rewrite in_one in Hin.
  - eapply waits_ok_perm; [|exact Hw]. done.
Qed.

Section Published.
Variables (d : list owes) (v : nat) (k0 : core) (h : half (Handler := Handler)).
Hypotheses (no_core : hf_core h = None) (no_approvers : en_approvers (co_engine k0) = []) (its_vault : co_vault k0 = v).

(** The instance with a core more, which is the one it has. *)
Definition with_core : half (Handler := Handler) :=
  mk_half (Some (length (hf_cores h))) (hf_cores h ++ [k0]) (hf_slots h) (hf_approvers h).
Definition published : half (Handler := Handler) :=
  foldl (fun h' s => attach (length (hf_cores h)) s h') with_core (hf_approvers h).

Lemma published_cores c k : hf_cores published !! c = Some k ->
  (c = length (hf_cores h) /\ co_vault k = v /\ en_approvers (co_engine k) = hf_approvers h) \/
  (c <> length (hf_cores h) /\ hf_cores h !! c = Some k).
Proof.
  destruct (attach_all_spec (length (hf_cores h)) (hf_approvers h) with_core) as (_ & _ & _ & _ & _ & E6).
  unfold published. rewrite E6. cbn [with_core hf_cores]. destruct (decide (c = length (hf_cores h))) as [->|Hc].
  - rewrite lookup_app_r, Nat.sub_diag by lia. cbn. rewrite bool_decide_eq_true_2 by done. intros [= <-]. left. cbn.
    by rewrite no_approvers.
  - rewrite bool_decide_eq_false_2 by congruence. intros Hk. right. split; [done|].
    destruct (decide (c < length (hf_cores h))%nat).
    + rewrite lookup_app_l in Hk by done. by destruct (hf_cores h !! c).
    + rewrite lookup_ge_None_2 in Hk; [done|]. rewrite length_app. cbn. lia.
Qed.

Lemma half_ok_published : half_ok d h -> half_ok d published.
Proof.
  intros [Hc Ha Hs Hdet He Hr].
  destruct (attach_all_spec (length (hf_cores h)) (hf_approvers h) with_core) as (E1 & E2 & E3 & E4 & E5 & _).
  fold published in E1, E2, E3, E4, E5. split; rewrite ?E1, ?E2, ?E3, ?E4; cbn [with_core hf_core hf_cores hf_slots hf_approvers]; try done.
  - intros c [= <-]. rewrite length_app. cbn. lia.
  - intros s slot. rewrite E5. cbn [with_core hf_slots].
    destruct (hf_slots h !! s) as [slot'|] eqn:Hslot; [|done]. intros [= <-]. cbn.
    case_bool_decide; [done|]. rewrite (Hdet s slot' Hslot). by rewrite bool_decide_eq_false_2.
  - intros c k s [(-> & _ & ->)|[Hne Hk]]%published_cores.
    + split; [by left|]. intros [[? _]|Ho]; [done|]. destruct (Hr _ s Ho) as (_ & _ & Hlt). lia.
    + rewrite (He c k s Hk), no_core. naive_solver.
  - intros c s Hcs. destruct (Hr c s Hcs) as (Hno & Hlt & Hc'). rewrite length_app. split_and!; [done|done|]. lia.
Qed.

Lemma vaults_ok_published vaults : HasVault v ∉ d -> vaults_ok (HasVault v :: d) h vaults -> vaults_ok d published vaults.
Proof.
  intros Hnew [Hc Ho Hheld Ht]. destruct (Hheld v) as [Hfalse Hfree]; [by left|].
  destruct (attach_all_spec (length (hf_cores h)) (hf_approvers h) with_core) as (E1 & _ & _ & E4 & _). fold published in E1, E4.
  split.
  - intros c k [(-> & -> & _)|[Hne Hk]]%published_cores; rewrite E1.
    + rewrite Hfalse. f_equal. symmetry. apply bool_decide_eq_false_2. cbn. tauto.
    + rewrite (Hc c k Hk). f_equal. apply bool_decide_ext. rewrite no_core, in_one by done. cbn. naive_solver.
  - intros c1 c2 k1 k2 [(-> & -> & _)|[Hne1 Hk1]]%published_cores [(-> & -> & _)|[Hne2 Hk2]]%published_cores; try done.
    + intros Heq. by destruct (Hfree c2 k2 Hk2).
    + intros Heq. by destruct (Hfree c1 k1 Hk1).
    + by apply Ho.
  - intros v' Hin. destruct (Hheld v') as [Hlook Hno]; [by right|]. split; [done|].
    intros c k [(-> & -> & _)|[Hne Hk]]%published_cores; [by intros <-|by eapply Hno].
  - intros c Hin. destruct (Ht c) as [Hlt _]; [by right|]. rewrite E1, E4. cbn. rewrite length_app. split; [lia|]. intros [= <-]. lia.
Qed.

End Published.

Lemma publish_follows v peering d : follows (HasVault v :: d)
  (fun r d' => d' = match r with Some _ => d | None => HasVault v :: d end) (atomic (publish (Handler := Handler) v peering)).
Proof.
  apply good_atomic. intros e others w Ht. unfold publish. cbn [app] in Ht.
  destruct (hf_core (ap_half w)) as [c0|] eqn:Hcore; [by exists (HasVault v :: d)|]. exists d. split; [|done].
  destruct Ht as [Hn Hh Hv Hw Hp]. apply NoDup_cons in Hn as [Hnew Hn].
  set (k0 := mk_core v (mk_engine [] false peering) peering None true).
  change (tidy e (d ++ others) (set_half (published k0 (ap_half w)) w)).
  split; cbn [set_half ap_half ap_line ap_waits ap_rest]; try done.
  - eapply half_ok_published; [done|done|done|]. eapply half_ok_ext; [|exact Hh]. intros c s. by rewrite in_one.
  - by eapply vaults_ok_published.
  - eapply waits_ok_perm; [|exact Hw]. done.
Qed.

(** The instance without its core, and its slots let go. *)
Definition without_core (h : half (Handler := Handler)) : half (Handler := Handler) :=
  mk_half None (hf_cores h) (hf_slots h) (hf_approvers h).
Definition taken_from (h : half (Handler := Handler)) : half (Handler := Handler) :=
  foldl (fun h s => release s h) (without_core h) (hf_approvers h).
Definition to_wipe (h : half (Handler := Handler)) : list owes :=
  match hf_core h with Some c => [OwesWipe c] | None => [] end.

Lemma elem_of_to_wipe h y : y ∈ to_wipe h <-> exists c, y = OwesWipe c /\ hf_core h = Some c.
Proof.
  unfold to_wipe. destruct (hf_core h) as [c|].
  - rewrite list_elem_of_singleton. naive_solver.
  - rewrite elem_of_nil. naive_solver.
Qed.

Lemma half_ok_taken d h : half_ok d h -> half_ok (to_wipe h ++ d) (taken_from h).
Proof.
  intros Hh. destruct (release_all_spec (hf_approvers h) (without_core h)) as (E1 & E2 & E3 & E4 & E5 & E6).
  fold (taken_from h) in E1, E2, E3, E4, E5, E6.
  pose proof (fun s => slot_detach_ok _ _ s Hh) as Hsd. destruct Hh as [Hc Ha Hs Hdet He Hr].
  split; rewrite ?E1, ?E2, ?E3, ?E4; cbn [without_core hf_core hf_cores hf_slots hf_approvers]; try done.
  - intros s slot. rewrite E5. cbn [without_core hf_slots].
    destruct (hf_slots h !! s) as [slot'|] eqn:Hslot; [|done]. intros [= <-]. cbn.
    case_bool_decide; [done|]. rewrite (Hdet s slot' Hslot). by rewrite bool_decide_eq_false_2.
  - intros c k s. rewrite E6. cbn [without_core hf_cores].
    destruct (hf_cores h !! c) as [k'|] eqn:Hk'; [|done]. intros [= <-]. cbn. unfold let_go.
    rewrite list_elem_of_filter, (He c k' s Hk'), elem_of_app, elem_of_to_wipe.
    change (slot_detach s (without_core h)) with (slot_detach s h). rewrite Hsd. split.
    + intros [Hno [[Hin' Hcur]|Ho]]; [|tauto]. destruct Hno. by rewrite bool_decide_eq_true_2.
    + intros [[_ [=]]|[(c' & [=] & _)|Ho]]. split; [|tauto]. intros [Hin' _]. by destruct (Hr c s Ho).
  - intros c s. rewrite elem_of_app, elem_of_to_wipe. intros [(c' & [=] & _)|Ho]. by apply (Hr c s).
Qed.

Lemma vaults_ok_taken d h vaults : half_ok d h -> vaults_ok d h vaults -> vaults_ok (to_wipe h ++ d) (taken_from h) vaults.
Proof.
  intros Hh Hv. destruct (release_all_spec (hf_approvers h) (without_core h)) as (E1 & _ & _ & E4 & _ & E6).
  fold (taken_from h) in E1, E4, E6.
  apply (vaults_ok_approvers _ (without_core h) _ _ (let_go (hf_approvers h) (without_core h)) E1 E4 E6).
  destruct Hv as [Hc Ho Hheld Ht]. split; cbn [without_core hf_core hf_cores].
  - intros c k Hk. rewrite (Hc c k Hk). f_equal. apply bool_decide_ext. rewrite elem_of_app, elem_of_to_wipe. naive_solver.
  - done.
  - intros v. rewrite elem_of_app, elem_of_to_wipe. intros [(c & [=] & _)|Hin]. by apply Hheld.
  - intros c. rewrite elem_of_app, elem_of_to_wipe.
    intros [(c' & [= <-] & Hc')|Hin]; (split; [|done]); [by apply (ho_core _ _ Hh)|by apply Ht].
Qed.

Lemma takeCore_follows d : follows d
  (fun r d' => d' = match r with Some c => OwesWipe c :: d | None => d end) (takeCore (Handler := Handler)).
Proof.
  apply good_atomic. intros e others w [Hn Hh Hv Hw Hp]. cbn [fst snd]. exists (to_wipe (ap_half w) ++ d).
  split; [|unfold to_wipe; by destruct (hf_core (ap_half w))].
  change (tidy e ((to_wipe (ap_half w) ++ d) ++ others) (set_half (taken_from (ap_half w)) w)). rewrite <-app_assoc.
  split; cbn [set_half ap_half ap_line ap_waits ap_rest]; try done.
  - unfold to_wipe. destruct (hf_core (ap_half w)) as [c|] eqn:Hc; [|done]. cbn. constructor; [|done].
    intros [_ Hno]%(vo_taken _ _ _ Hv). done.
  - by apply half_ok_taken.
  - by apply vaults_ok_taken.
  - eapply waits_ok_perm; [|exact Hw]. rewrite (closes_app (to_wipe _)). unfold to_wipe. by destruct (hf_core (ap_half w)).
Qed.

Lemma wipe_follows d c : follows (OwesWipe c :: d) (same d) (atomic (modify (wipe_vault (Handler := Handler) c))).
Proof.
  apply good_atomic. intros e others w [Hn Hh Hv Hw Hp]. exists d. split; [|done]. cbn [modify snd app] in *.
  apply NoDup_cons in Hn as [Hnew Hn].
  destruct (vo_taken _ _ _ Hv c) as [Hlt Hcur]; [by left|].
  destruct (lookup_lt_is_Some_2 _ _ Hlt) as [k Hk]. unfold wipe_vault, core_at. rewrite Hk.
  split; cbn [on_rest set_rest set_vaults ap_half ap_line ap_waits ap_rest rs_vaults rs_panics]; try done.
  - eapply half_ok_ext; [|exact Hh]. intros. by rewrite in_one.
  - destruct Hv as [Hc Ho Hheld Ht]. split; try done.
    + intros c' k' Hk'. destruct (decide (c' = c)) as [->|Hne].
      * simplify_eq. rewrite list_lookup_insert_eq by (eapply lookup_lt_Some; by apply (Hc c k)).
        f_equal. symmetry. by apply bool_decide_eq_true_2.
      * rewrite list_lookup_insert_ne by (intros Heq; apply Hne; by eapply Ho).
        rewrite (Hc c' k' Hk'). f_equal. apply bool_decide_ext. rewrite in_one by congruence. done.
    + intros v Hin. destruct (Hheld v) as [Hlook Hno]; [by right|]. split; [|done].
      rewrite list_lookup_insert_ne; [done|]. by eapply Hno.
    + intros c' Hin. apply Ht. by right.
  - eapply waits_ok_perm; [|exact Hw]. done.
Qed.

(** *** The calls *)

Lemma follows_in_core d c f : minds_own f -> follows d (same d) (atomic (modify (fun w => set_half (in_core c f (ap_half w)) w))).
Proof. intros Hf. apply follows_quiet. intros e d' w Hw. by apply tidy_in_core. Qed.

Lemma follows_rest d f : (forall r, rs_vaults (f r) = rs_vaults r /\ (ClosedTwice ∈ rs_panics (f r) -> ClosedTwice ∈ rs_panics r)) ->
  follows d (same d) (atomic (modify (on_rest (Handler := Handler) f))).
Proof. intros Hf. apply follows_quiet. intros e d' w Hw. apply tidy_rest; [apply Hf|apply Hf|done]. Qed.

Lemma follows_line d f : (forall w, ln_state (f w) = ln_state (ap_line w)) ->
  follows d (same d) (atomic (modify (fun w : App (Handler := Handler) => set_line (f w) w))).
Proof. intros Hf. apply follows_quiet. intros e d' w Hw. by apply tidy_line. Qed.

Lemma LogLifecycle_follows d detail : follows d (same d) (LogLifecycle detail).
Proof. by apply follows_rest. Qed.

Lemma noStoreError_follows d : follows d (same d) noStoreError.
Proof.
  apply follows_same_bind; [|intros b; apply follows_mret].
  apply follows_same_bind; [apply follows_gets|intros st; apply follows_mret].
Qed.

Lemma SuspendLocalPrompts_follows d c b : follows d (same d) (SuspendLocalPrompts c b).
Proof. by apply follows_in_core. Qed.

Lemma panics_follows {A} d : follows d (same d) (panics (A := A) (Handler := Handler)).
Proof.
  apply follows_same_bind; [|intros []; apply follows_mret]. apply follows_rest. intros r. split; [done|]. cbn.
  rewrite elem_of_app, list_elem_of_singleton. by intros [?|[=]].
Qed.

Lemma stopPeer_follows d c : follows d (same d) (stopPeer c).
Proof.
  unfold stopPeer. apply follows_same_bind.
  { apply follows_quiet. intros e d' w Hw. by apply tidy_in_core. }
  intros [node stop]. cbn [fst snd]. destruct (negb node); [done|].
  apply follows_same_bind; [by apply follows_in_core|]. intros [].
  destruct stop; [|done]. by apply follows_rest.
Qed.

Lemma tearDown_follows d c : follows (OwesWipe c :: d) (same d) (tearDown c).
Proof.
  unfold tearDown.
  do 3 (apply follows_same_bind; [first [apply stopPeer_follows | by apply follows_in_core | by apply follows_rest]|intros []]).
  apply wipe_follows.
Qed.

Lemma UnsealNotify_follows d : follows d (same d) UnsealNotify.
Proof.
  eapply (good_bind tidy d (fun (r : nat * bool) d' => d' = if r.2 then OwesClose r.1 :: d else d)).
  - apply good_atomic. intros e others w [Hn Hh Hv Hw Hp].
    set (ch := wt_made (ap_waits w)).
    assert (forall y, y ∈ wt_state (ap_waits w) ++ wt_unseal (ap_waits w) ++ closes (d ++ others) ++ wt_closed (ap_waits w) -> y <> ch) as Hfresh.
    { intros y Hy%(wo_made _ _ _ _ Hw) ->. unfold ch in Hy. lia. }
    assert (ch ∉ wt_state (ap_waits w) ++ wt_unseal (ap_waits w) ++ closes (d ++ others)) as Hnew.
    { intros Hin. apply (Hfresh ch); [|done]. rewrite !elem_of_app in *. tauto. }
    assert (forall i a y, e !! i = Some a -> aw_phase a = Asleep y -> y <> ch) as Hawake.
    { intros i a y Hi Hy. apply Hfresh. rewrite !elem_of_app, elem_of_closes. destruct (wo_asleep _ _ _ _ Hw i a y Hi Hy); tauto. }
    case_bool_decide as Hst; (eexists; split; [|done]); cbn [fst snd set_waits].
    + assert (OwesClose ch ∉ d ++ others) as Hnd.
      { rewrite <-elem_of_closes. rewrite !elem_of_app in Hnew. tauto. }
      split; cbn [ap_half ap_line ap_rest ap_waits set_waits app]; try done.
      * by constructor.
      * eapply half_ok_ext; [|exact Hh]. intros. by rewrite in_one.
      * eapply vaults_ok_ext; [| |exact Hv]; intros; by rewrite ?in_one in *.
      * destruct Hw as [Ha Hm Ho Hs Has Hl].
        split; cbn [wt_state wt_unseal wt_made wt_closed]; rewrite ?closes_cons; try done.
        -- rewrite !app_assoc, <-Permutation_middle, <-app_assoc. by constructor.
        -- intros y Hy. destruct (decide (y = ch)) as [->|Hne]; [unfold ch; lia|].
           assert (y < wt_made (ap_waits w))%nat; [|lia]. apply Hm. revert Hy. rewrite !elem_of_app, elem_of_cons. tauto.
        -- intros y Hy. pose proof (Ho y Hy) as Hno. rewrite !not_elem_of_app, not_elem_of_cons in *.
           split_and!; try tauto. apply Hfresh. rewrite !elem_of_app. tauto.
        -- intros i a y Hi Hy. destruct (Has i a y Hi Hy) as [?|[?|?]]; [by left|right; left; by right|by right; right].
    + split; cbn [ap_half ap_line ap_rest ap_waits set_waits]; try done.
      destruct Hw as [Ha Hm Ho Hs Has Hl]. split; cbn [wt_state wt_unseal wt_made wt_closed]; try done.
      * rewrite <-!app_assoc. cbn. rewrite !app_assoc, <-Permutation_middle, <-app_assoc. by constructor.
      * intros y Hy. destruct (decide (y = ch)) as [->|Hne]; [unfold ch; lia|].
        assert (y < wt_made (ap_waits w))%nat; [|unfold ch; lia]. apply Hm. revert Hy.
        rewrite !elem_of_app, list_elem_of_singleton. tauto.
      * intros y Hy. pose proof (Ho y Hy) as Hno. rewrite !not_elem_of_app in *. rewrite not_elem_of_cons.
        split_and!; try tauto; [|apply not_elem_of_nil]. apply Hfresh. rewrite !elem_of_app. tauto.
  - intros [ch b] d' ->. cbn [fst snd]. destruct b; [|done].
    eapply good_bind; [apply close_follows|]. by intros [] d' ->.
Qed.

Lemma waits_less e d st x x' : sublist (wt_state x' ++ wt_unseal x') (wt_state x ++ wt_unseal x) -> wt_made x' = wt_made x ->
  wt_closed x' = wt_closed x -> (wt_unseal x' <> [] -> wt_unseal x <> []) ->
  (forall i a ch, e !! i = Some a -> aw_phase a = Asleep ch -> ch ∈ wt_state x -> ch ∈ wt_state x') ->
  waits_ok e d st x -> waits_ok e d st x'.
Proof.
  intros Hsub Hmade Hcl Hun Has [Ha Hm Ho Hs Hw Hl].
  assert (forall ch, ch ∈ wt_state x' ++ wt_unseal x' -> ch ∈ wt_state x ++ wt_unseal x) as Hin.
  { intros ch Hch. by eapply elem_of_sublist. }
  split; try done.
  - rewrite app_assoc in *. apply NoDup_app in Ha as (Ha & Hx & Hd). apply NoDup_app. split_and!; [eapply sublist_NoDup; [exact Ha|exact Hsub]| |done].
    intros y Hy. by apply Hx, Hin.
  - intros ch Hch. rewrite Hmade. apply Hm. rewrite Hcl in Hch. specialize (Hin ch). rewrite !elem_of_app in *. tauto.
  - intros ch Hch. rewrite Hcl in Hch. specialize (Ho ch Hch). specialize (Hin ch). rewrite !not_elem_of_app in *. rewrite !elem_of_app in Hin. tauto.
  - intros Hne. by apply Hs, Hun.
  - intros i a ch Hi Hch. rewrite Hcl. destruct (Hw i a ch Hi Hch) as [?|[?|[? ?]]]; [tauto|tauto|]. right. right. split; [by eapply Has|done].
Qed.

Lemma stop_waiting_follows d ch : follows d (same d) (stop_waiting ch).
Proof.
  apply follows_quiet. intros e d' w [Hn Hh Hv Hw Hp]. split; cbn; try done.
  eapply waits_less; [..|exact Hw]; cbn; try done.
  - apply sublist_app; [done|apply splice_sublist].
  - intros Hne Heq. by rewrite Heq in Hne.
Qed.

Lemma Park_follows d added by_ : follows d (same d) (Park added by_).
Proof.
  unfold Park, Unsealed. apply follows_same_bind.
  { apply follows_same_bind; [apply follows_gets|]. intros st. apply follows_mret. }
  intros b. destruct (negb b); [done|]. apply follows_quiet. intros e d' w Hw.
  destruct (LocalKeys_Add added by_ (rs_parked (ap_rest w))) as [failed l]. by apply tidy_rest.
Qed.

(** The store and the listener, as in [Lock]. *)
Variables (Open : nat -> bytes -> result string) (Create : nat -> string -> bytes -> result string)
  (MakePolicy : nat -> option error)
  (VerifyPassphrase : nat -> bytes -> option error) (buildCore : nat -> result bool) (Listen : nat -> option error)
  (StoreInKeyring : nat -> option error) (ForgetKeyring : nat -> option error).

Abbreviation callProg := (call_prog (Handler := Handler) Open Create MakePolicy VerifyPassphrase buildCore Listen StoreInKeyring ForgetKeyring).

Lemma startPeer_follows d c : follows d (same d) (startPeer Listen c).
Proof.
  unfold startPeer. apply follows_same_bind; [apply follows_gets|]. intros node. destruct (negb node); [done|].
  apply follows_same_bind; [apply follows_gets|]. intros node'. destruct (negb node'); [apply panics_follows|].
  apply follows_same_bind; [apply follows_outside|]. intros [err|]; [done|].
  apply follows_same_bind; [apply follows_quiet; intros e d' w Hw; by apply tidy_rest|]. intros i.
  apply follows_same_bind; [by apply follows_in_core|]. by intros [].
Qed.

Lemma lift_follows d passphrase : follows d (same d) (lift VerifyPassphrase passphrase).
Proof.
  unfold lift. apply follows_same_bind; [apply follows_gets|]. intros [c|].
  - apply follows_same_bind; [apply follows_outside|]. intros [err|]; [done|].
    apply follows_same_bind; [apply SuspendLocalPrompts_follows|]. intros [].
    apply follows_same_bind; [apply setState_follows; by left|]. intros [].
    apply follows_same_bind; [apply LogLifecycle_follows|]. by intros [].
  - apply follows_same_bind; [apply noStoreError_follows|]. done.
Qed.

(** The store that was opened is in a core, or was not needed. *)
Definition may_hold {A} (d : list owes) (_ : A) (d' : list owes) : Prop := d' = d \/ exists v, d' = HasVault v :: d.

Lemma adopt_follows v fingerprint d : follows (HasVault v :: d) (may_hold d) (adopt buildCore Listen v fingerprint).
Proof.
  unfold adopt. apply follows_same_bind; [apply follows_outside|].
  intros [peering|err]; [|right; by exists v]. eapply good_bind; [apply publish_follows|].
  intros [[c serving]|] d' ->; [|right; by exists v].
  apply follows_same_bind; [apply setState_follows; by left|]. intros [].
  apply follows_same_bind; [destruct serving; [apply startPeer_follows|done]|]. intros [failed|]; [|by left].
  apply follows_same_bind; [apply LogLifecycle_follows|]. intros []. by left.
Qed.

Lemma same_may_hold {A} d (p : prog (App (Handler := Handler)) A) : follows d (same d) p -> follows d (may_hold d) p.
Proof. intros Hp. eapply good_weaken; [exact Hp|]. intros a d' ->. by left. Qed.

Lemma Unlock_follows d passphrase : follows d (may_hold d) (Unlock Open VerifyPassphrase buildCore Listen passphrase).
Proof.
  assert (follows d (may_hold d) ((vault ← atomic (opened (fun n => Open n passphrase));
    match vault with Err e => mret (Ended (Err e)) | Ok (v, fingerprint) => adopt buildCore Listen v fingerprint end)
    : prog (App (Handler := Handler)) (outcome (result string)))) as Hopen.
  { eapply good_bind; [apply opened_follows|]. intros [[v fingerprint]|err] d' ->; [apply adopt_follows|by left]. }
  unfold Unlock. apply follows_same_bind; [apply follows_gets|]. intros [| | | |]; try exact Hopen; try by left.
  apply follows_same_bind; [apply lift_follows|]. intros failed. by left.
Qed.

Lemma Initialise_follows d name passphrase : follows d (may_hold d) (Initialise Create MakePolicy buildCore Listen name passphrase).
Proof.
  unfold Initialise. apply follows_same_bind; [apply follows_gets|]. intros st. destruct (bool_decide _); [by left|].
  eapply good_bind; [apply opened_follows|]. intros [[v fingerprint]|err] d' ->; [|by left].
  apply follows_same_bind; [apply follows_outside|]. intros [err|]; [right; by exists v|]. apply adopt_follows.
Qed.

Lemma Seal_follows d reason : follows d (same d) (Seal (Handler := Handler) reason).
Proof.
  unfold Seal. eapply good_bind; [apply takeCore_follows|]. intros [c|] d' ->; [|done].
  apply follows_same_bind; [apply setState_follows; by right; right|]. intros [].
  apply follows_same_bind; [apply LogLifecycle_follows|]. intros [].
  eapply good_bind; [apply tearDown_follows|]. by intros [] d' ->.
Qed.

Lemma SoftLock_follows d reason : follows d (same d) (SoftLock (Handler := Handler) reason).
Proof.
  unfold SoftLock. apply follows_same_bind; [apply follows_gets|]. intros [c|].
  - apply follows_same_bind; [apply SuspendLocalPrompts_follows|]. intros [].
    apply follows_same_bind; [apply setState_follows; by right; left|]. intros [].
    apply follows_same_bind; [apply LogLifecycle_follows|]. by intros [].
  - apply follows_same_bind; [apply noStoreError_follows|]. done.
Qed.

Lemma UnlockAtLogin_follows d enrol : follows d (same d) (UnlockAtLogin (Handler := Handler) StoreInKeyring ForgetKeyring enrol).
Proof.
  unfold UnlockAtLogin. apply follows_same_bind; [apply follows_gets|]. intros [c|].
  - apply follows_same_bind; [apply follows_outside|]. intros [err|]; [done|].
    apply follows_same_bind; [apply LogLifecycle_follows|]. by intros [].
  - apply follows_same_bind; [apply noStoreError_follows|]. done.
Qed.

Definition left_over (x : owes) : Prop := match x with HasVault _ => True | _ => False end.
Abbreviation clear := (ends_clear left_over).

Lemma ignored {A} (p : prog (App (Handler := Handler)) A) : follows [] (may_hold []) p -> follows [] clear (ignore p).
Proof.
  intros Hp. eapply good_bind; [exact Hp|]. intros a d [->|[v ->]]; [constructor|]. by repeat constructor.
Qed.

Lemma call_follows c : follows [] clear (callProg c).
Proof.
  assert (forall p : prog (App (Handler := Handler)) unit, follows [] (same []) p -> follows [] clear p) as Hsame.
  { intros p Hp. eapply good_weaken; [exact Hp|]. intros a d ->. constructor. }
  destruct c; cbn [call_prog].
  - apply ignored, same_may_hold, follows_gets.
  - apply ignored, same_may_hold, RegisterApprover_follows.
  - eapply good_weaken; [apply unregister_follows|]. intros a d ->. constructor.
  - apply ignored, Unlock_follows.
  - apply ignored, Initialise_follows.
  - apply ignored. unfold TryKeyring. apply follows_same_bind; [apply follows_gets|]. intros [| | | |]; try (by left);
      (eapply good_bind; [apply Unlock_follows|]; intros r d' Hd'; exact Hd').
  - destruct seal; apply ignored, same_may_hold; [apply Seal_follows|apply SoftLock_follows].
  - apply ignored, same_may_hold, UnlockAtLogin_follows.
  - apply Hsame. unfold Close. eapply good_bind; [apply takeCore_follows|]. intros [c|] d' ->; [apply tearDown_follows|done].
  - apply ignored, same_may_hold, UnsealNotify_follows.
  - apply Hsame, stop_waiting_follows.
  - apply Hsame. by apply follows_line.
  - apply ignored, same_may_hold, Park_follows.
Qed.

(** *** What goes on beside the calls *)

Lemma serve_begins_tidy e d i (w : App (Handler := Handler)) : tidy e d w -> tidy e d (serve_begins i w).2.
Proof.
  intros Hw. cbn. destruct (rs_serving (ap_rest w) !! i) as [sv|]; [|done]. destruct (sv_begun sv); [done|].
  assert (forall w' : App (Handler := Handler), tidy e d w' -> tidy e d (if has_peer (sv_core sv) w' then w' else on_rest (add_panic NilNode) w')) as Hend.
  { intros w' Hw'. destruct (has_peer _ _); [done|]. apply tidy_rest; [done| |done]. cbn.
    rewrite elem_of_app, list_elem_of_singleton. by intros [?|[=]]. }
  apply Hend. by apply tidy_rest.
Qed.

Lemma waits_awake e d st x i a phase : e !! i = Some a -> (forall ch, phase <> Asleep ch) ->
  waits_ok e d st x -> waits_ok (<[i := mk_awaiter (aw_want a) phase]> e) d st x.
Proof.
  intros Hi Hp [Ha Hm Ho Hs Hw Hl].
  assert (forall j b ch, <[i := mk_awaiter (aw_want a) phase]> e !! j = Some b -> aw_phase b = Asleep ch -> e !! j = Some b) as Hback.
  { intros j b ch. destruct (decide (i = j)) as [<-|Hne]; [|by rewrite list_lookup_insert_ne].
    rewrite list_lookup_insert_eq by (by eapply lookup_lt_Some). intros [= <-] Hch. by destruct (Hp ch). }
  split; try done.
  - intros j b ch Hj Hch. eapply Hw; [by eapply Hback|done].
  - intros j j' b b' ch Hj Hj' Hch Hch'. eapply Hl; [by eapply Hback|by eapply Hback|done|done].
Qed.

Lemma waits_sleeps e d st x i a : e !! i = Some a -> aw_want a st = false -> waits_ok e d st x ->
  waits_ok (<[i := mk_awaiter (aw_want a) (Asleep (wt_made x))]> e) d st
    (mk_waits (wt_unseal x) (wt_state x ++ [wt_made x]) (S (wt_made x)) (wt_closed x)).
Proof.
  intros Hi Hwant [Ha Hm Ho Hs Hw Hl]. set (ch := wt_made x).
  assert (forall y, y ∈ wt_state x ++ wt_unseal x ++ closes d ++ wt_closed x -> y <> ch) as Hfresh.
  { intros y Hy%Hm ->. unfold ch in Hy. lia. }
  assert (ch ∉ wt_state x ++ wt_unseal x ++ closes d) as Hnew.
  { intros Hin. apply (Hfresh ch); [|done]. rewrite !elem_of_app in *. tauto. }
  assert (forall j b y, e !! j = Some b -> aw_phase b = Asleep y -> y <> ch) as Hawake.
  { intros j b y Hj Hy. apply Hfresh. rewrite !elem_of_app, elem_of_closes. destruct (Hw j b y Hj Hy); tauto. }
  assert (forall j b, <[i := mk_awaiter (aw_want a) (Asleep ch)]> e !! j = Some b ->
    (j = i /\ b = mk_awaiter (aw_want a) (Asleep ch)) \/ (j <> i /\ e !! j = Some b)) as Hback.
  { intros j b. destruct (decide (i = j)) as [<-|Hne].
    - rewrite list_lookup_insert_eq by (by eapply lookup_lt_Some). intros [= <-]. by left.
    - rewrite list_lookup_insert_ne by done. by right. }
  split; cbn [wt_state wt_unseal wt_made wt_closed]; try done.
  - rewrite <-!app_assoc. cbn. rewrite <-Permutation_middle. by constructor.
  - intros y Hy. destruct (decide (y = ch)) as [->|Hne]; [unfold ch; lia|].
    assert (y < wt_made x)%nat; [|lia]. apply Hm. revert Hy. rewrite !elem_of_app, list_elem_of_singleton. tauto.
  - intros y Hy. pose proof (Ho y Hy) as Hno. rewrite !not_elem_of_app in *. rewrite not_elem_of_cons.
    split_and!; try tauto; [|apply not_elem_of_nil]. apply Hfresh. rewrite !elem_of_app. tauto.
  - intros j b y [[-> ->]|[Hne Hj]]%Hback Hy.
    + injection Hy as <-. right. right. cbn. split; [|done]. apply elem_of_app. right. by left.
    + rewrite elem_of_app. destruct (Hw j b y Hj Hy); tauto.
  - intros j j' b b' y [[-> ->]|[Hne Hj]]%Hback [[-> ->]|[Hne' Hj']]%Hback Hy Hy'; [done| | |by eapply Hl].
    + injection Hy as <-. by destruct (Hawake j' b' ch).
    + injection Hy' as <-. by destruct (Hawake j b ch).
Qed.

Lemma waits_gives_up e d st x i a ch : e !! i = Some a -> aw_phase a = Asleep ch -> waits_ok e d st x ->
  waits_ok (<[i := mk_awaiter (aw_want a) GivingUp]> e) d st
    (mk_waits (wt_unseal x) (splice ch (wt_state x)) (wt_made x) (wt_closed x)).
Proof.
  intros Hi Hch Hw. eapply waits_less; [..|by apply waits_awake]; cbn [wt_state wt_unseal wt_made wt_closed]; try done.
  - apply sublist_app; [apply splice_sublist|done].
  - intros j b y Hj Hy Hin. apply splice_other; [|done]. intros ->.
    destruct (decide (i = j)) as [<-|Hne].
    + rewrite list_lookup_insert_eq in Hj by (by eapply lookup_lt_Some). by injection Hj as <-.
    + rewrite list_lookup_insert_ne in Hj by done. apply Hne. by eapply (wo_alone _ _ _ _ Hw).
Qed.

Lemma tidy_waits e e' d x (w : App (Handler := Handler)) :
  (waits_ok e d (ln_state (ap_line w)) (ap_waits w) -> waits_ok e' d (ln_state (ap_line w)) x) ->
  tidy e d w -> tidy e' d (set_waits x w).
Proof. intros Hx [Hn Hh Hv Hw Hp]. split; cbn; try done. by apply Hx. Qed.

Lemma around_tidy o e d (w : App (Handler := Handler)) : tidy e d w -> tidy (around o (e, w)).1 d (around o (e, w)).2.
Proof.
  intros Hw. destruct o as [i ctx_done|i]; cbn; [|by apply serve_begins_tidy].
  destruct (e !! i) as [a|] eqn:Hi; [|done].
  assert (forall phase, (forall ch, phase <> Asleep ch) -> tidy (<[i := mk_awaiter (aw_want a) phase]> e) d w) as Hawake.
  { intros phase Hp. destruct Hw as [Hn Hh Hv Hws Hno]. split; try done. by apply waits_awake. }
  unfold AwaitState. destruct (aw_phase a) as [|ch| |st reached] eqn:Hphase; [| |by apply Hawake|by apply Hawake].
  - destruct (aw_want a (ln_state (ap_line w))) eqn:Hwant; cbn; [by apply Hawake|].
    eapply tidy_waits; [|exact Hw]. by apply waits_sleeps.
  - destruct ctx_done; cbn.
    + eapply tidy_waits; [|exact Hw]. by apply waits_gives_up.
    + case_bool_decide; cbn; [by apply Hawake|]. replace (mk_awaiter (aw_want a) (Asleep ch)) with a.
      * by rewrite list_insert_id.
      * destruct a as [want phase]. cbn in *. by rewrite Hphase.
Qed.

(** ** In every interleaving *)

Lemma around_tidy_run o e d (w : App (Handler := Handler)) :
  tidy e d w -> tidy (around o (e, w)).1 d (around o (e, w)).2.
Proof. apply around_tidy. Qed.

(** An instance as it is built, before or after it begins to serve, with
    nobody waiting yet. *)
Definition booted (serving exists_ : bool) (parked : LocalKeys) (clock : nat -> time) : App (Handler := Handler) :=
  if serving then serves (built exists_ parked clock) else built exists_ parked clock.

Definition looking (wants : list (LockState -> bool)) : list awaiter := map (fun want => mk_awaiter want Looking) wants.

Definition starts (serving exists_ : bool) (parked : LocalKeys) (clock : nat -> time) (wants : list (LockState -> bool))
    (calls : list call) : pool :=
  mk_pool (map callProg calls) (looking wants) (booted serving exists_ parked clock).

Lemma booted_tidy serving exists_ parked clock wants : tidy (looking wants) [] (booted serving exists_ parked clock).
Proof.
  assert (forall i a, looking wants !! i = Some a -> aw_phase a = Looking) as Hlook.
  { intros i a Hi. apply list_elem_of_lookup_2, list_elem_of_fmap in Hi as (want & -> & _). done. }
  assert (tidy (looking wants) [] (built (Handler := Handler) exists_ parked clock)) as Hbuilt.
  { split; cbn; try (by constructor); try apply not_elem_of_nil.
    - split; cbn; try done; [constructor|..]; by intros ?? ?%elem_of_nil || intros ? ?%elem_of_nil.
    - split; cbn; try done; by intros ? ?%elem_of_nil.
    - split; cbn; try done; try (by intros ? ?%elem_of_nil).
      + constructor.
      + intros i a ch Hi Hch. rewrite (Hlook i a Hi) in Hch. done.
      + intros i j a b ch Hi _ Hch. rewrite (Hlook i a Hi) in Hch. done. }
  destruct serving; [|done]. by apply tidy_rest.
Qed.

Lemma starts_ok serving exists_ parked clock wants calls :
  pool_ok tidy left_over (starts serving exists_ parked clock wants calls).
Proof.
  apply pool_starts; [apply booted_tidy|]. apply Forall_fmap, Forall_true. intros c. apply call_follows.
Qed.

Lemma runs_ok serving exists_ parked clock wants calls l :
  pool_ok tidy left_over (moves around (starts serving exists_ parked clock wants calls) l).
Proof.
  apply pool_ok_moves; [intros e d d' w; apply tidy_permutes|intros o e d w; apply around_tidy_run|apply starts_ok].
Qed.

(** At every moment of every interleaving of calls, an approver that is
    registered with the instance is registered with the engine of the store
    that is open and with no other engine, and the keys of the store that is
    open are not wiped. *)
Theorem approvers_follow_the_store serving exists_ parked clock wants calls l c k :
  let h := ap_half (po_state (moves around (starts serving exists_ parked clock wants calls) l)) in
  let vaults := rs_vaults (ap_rest (po_state (moves around (starts serving exists_ parked clock wants calls) l))) in
  hf_cores h !! c = Some k ->
  (forall s, s ∈ hf_approvers h -> s ∈ en_approvers (co_engine k) <-> hf_core h = Some c) /\
  (hf_core h = Some c -> vaults !! co_vault k = Some false).
Proof.
  cbv zeta. destruct (pool_invariant _ _ _ (runs_ok serving exists_ parked clock wants calls l)) as (d & [Hn Hh Hv Hw Hp]).
  intros Hk. split.
  - intros s Hs. rewrite (ho_engine _ _ Hh c k s Hk). split; [|tauto]. intros [[_ Hc]|Ho]; [done|].
    by destruct (ho_removed _ _ Hh c s Ho).
  - intros Hc. rewrite (vo_core _ _ _ Hv c k Hk). f_equal. apply bool_decide_eq_false_2. tauto.
Qed.

(** C14. When every call has returned, however they ran: an engine has exactly the
    registered approvers when it is the one of the store that is open and
    none otherwise; the keys of every store whose core was ever published are
    wiped unless it is the one that is open - which says nothing of a store
    that was opened beside another and whose core was never published (Example
    [second_store_is_never_wiped]);
    somebody who still waits for a state is not in one they wait for, unless
    they have been woken; only a sealed instance has anybody waiting for it to
    be unsealed; and no channel was closed twice. *)
Theorem calls_leave_no_trace serving exists_ parked clock wants calls l :
  let x := moves around (starts serving exists_ parked clock wants calls) l in
  let w := po_state x in
  all_done x = true ->
  (forall c k s, hf_cores (ap_half w) !! c = Some k ->
     s ∈ en_approvers (co_engine k) <-> s ∈ hf_approvers (ap_half w) /\ hf_core (ap_half w) = Some c) /\
  (forall c k, hf_cores (ap_half w) !! c = Some k ->
     rs_vaults (ap_rest w) !! co_vault k = Some (bool_decide (hf_core (ap_half w) <> Some c))) /\
  (forall i a ch, po_around x !! i = Some a -> aw_phase a = Asleep ch ->
     ch ∈ wt_closed (ap_waits w) \/ aw_want a (ln_state (ap_line w)) = false) /\
  (wt_unseal (ap_waits w) <> [] -> ln_state (ap_line w) = LOCK_STATE_SEALED) /\
  (ClosedTwice ∉ rs_panics (ap_rest w)).
Proof.
  cbv zeta. intros Hdone.
  destruct (pool_ends _ _ _ (runs_ok serving exists_ parked clock wants calls l) Hdone) as (d & Hleft & [Hn Hh Hv Hw Hp]).
  rewrite Forall_forall in Hleft.
  assert (forall c, OwesWipe c ∉ d) as Hwipe by (intros c; exact (Hleft _)).
  assert (forall c s, OwesDetach c s ∉ d) as Hdetach by (intros c s; exact (Hleft _)).
  assert (forall ch, OwesClose ch ∉ d) as Hclose by (intros ch; exact (Hleft _)).
  split_and!; [| | |apply (wo_sealed _ _ _ _ Hw)|done].
  - intros c k s Hk. rewrite (ho_engine _ _ Hh c k s Hk). split; [|tauto]. intros [?|Ho]; [done|by destruct (Hdetach c s)].
  - intros c k Hk. rewrite (vo_core _ _ _ Hv c k Hk). f_equal. apply bool_decide_ext. split; [tauto|]. intros Hc. by split.
  - intros i a ch Hi Hch. destruct (wo_asleep _ _ _ _ Hw i a ch Hi Hch) as [?|[Ho|[_ ?]]]; [tauto| |tauto].
    by destruct (Hclose ch).
Qed.

(** ** One call at a time

    The abstract machine: a state and what put it there. *)

Record said := mk_said { sa_state : LockState; sa_reason : string }.

Inductive request :=
| RUnlock (passphrase : bytes)
| RInitialise (name : string) (passphrase : bytes)
| RLock (seal : bool) (reason : string)
| RPark (added : AddedKey) (by_ : option ClientProcess).

Definition refused_or {A} (r : result A) : option error := match r with Ok _ => None | Err e => Some e end.

Definition request_prog (r : request) : prog (App (Handler := Handler)) (outcome (option error)) :=
  match r with
  | RUnlock p =>
    o ← Unlock Open VerifyPassphrase buildCore Listen p;
    mret (match o with Ended r => Ended (refused_or r) | Panicked => Panicked end)
  | RInitialise name p =>
    o ← Initialise Create MakePolicy buildCore Listen name p;
    mret (match o with Ended r => Ended (refused_or r) | Panicked => Panicked end)
  | RLock seal reason => e ← Lock seal reason; mret (Ended e)
  | RPark added by_ => e ← Park added by_; mret (Ended e)
  end.

(** A store that opens, and a core that can be built around it. *)
Definition comes_up (opened : result string) (made : option error) (core : result bool) (x : said) : option error * said :=
  match opened with
  | Err e => (Some e, x)
  | Ok _ =>
    match made with
    | Some e => (Some e, x)
    | None =>
      match core with
      | Err e => (Some e, x)
      | Ok _ => (None, mk_said LOCK_STATE_UNLOCKED emp)
      end
    end
  end.

Definition no_store (st : LockState) : error := if bool_decide (st = LOCK_STATE_UNINITIALIZED) then ErrNotInitialised else ErrSealed.

(** What each request answers and where it leads, when the store and the
    listener are asked for the [n]th time and [parks] is what the set of parked
    keys says. *)
Definition contract (n : nat) (parks : AddedKey -> option ClientProcess -> option error) (r : request) (x : said) : option error * said :=
  match r, sa_state x with
  | RUnlock _, LOCK_STATE_UNLOCKED => (None, x)
  | RUnlock p, LOCK_STATE_LOCKED =>
    match VerifyPassphrase n p with Some e => (Some e, x) | None => (None, mk_said LOCK_STATE_UNLOCKED emp) end
  | RUnlock _, LOCK_STATE_UNINITIALIZED => (Some ErrNotInitialised, x)
  | RUnlock p, _ => comes_up (Open n p) None (buildCore (S n)) x
  | RInitialise name p, LOCK_STATE_UNINITIALIZED => comes_up (Create n name p) (MakePolicy (S n)) (buildCore (S (S n))) x
  | RInitialise _ _, _ => (Some ErrExists, x)
  | RLock true reason, LOCK_STATE_UNLOCKED | RLock true reason, LOCK_STATE_LOCKED => (None, mk_said LOCK_STATE_SEALED reason)
  | RLock true _, _ => (None, x)
  | RLock false reason, LOCK_STATE_UNLOCKED | RLock false reason, LOCK_STATE_LOCKED => (None, mk_said LOCK_STATE_LOCKED reason)
  | RLock false _, st => (Some (no_store st), x)
  | RPark added by_, LOCK_STATE_UNLOCKED | RPark added by_, LOCK_STATE_LOCKED => (parks added by_, x)
  | RPark _ _, _ => (Some ErrSealed, x)
  end.

(** *** What the state has to do with the store *)

Definition said_of (w : App (Handler := Handler)) : said := mk_said (ln_state (ap_line w)) (ln_reason (ap_line w)).

(** Whether the prompts of the engine of the store that is open are suspended. *)
Definition suspended (h : half (Handler := Handler)) : option bool :=
  c ← hf_core h; k ← hf_cores h !! c; Some (en_softLocked (co_engine k)).

Definition linked (st : LockState) (h : half (Handler := Handler)) (parked : LocalKeys) : Prop :=
  match st with
  | LOCK_STATE_UNLOCKED => suspended h = Some false
  | LOCK_STATE_LOCKED => suspended h = Some true
  | LOCK_STATE_SEALED | LOCK_STATE_UNINITIALIZED => hf_core h = None /\ lo_keys parked = []
  | LOCK_STATE_UNSPECIFIED => False
  end.

(** The state is the store's, nothing is parked without one, and the account
    is in order. *)
Definition coherent (w : App (Handler := Handler)) : Prop :=
  linked (ln_state (ap_line w)) (ap_half w) (rs_parked (ap_rest w)) /\
  exists e d, Forall left_over d /\ tidy e d w.

(** *** Running the pieces *)

(** What a request looks at, and what the other pieces leave alone. *)
Definition keeps (w w' : App (Handler := Handler)) : Prop :=
  ap_line w' = ap_line w /\ hf_core (ap_half w') = hf_core (ap_half w) /\ suspended (ap_half w') = suspended (ap_half w) /\
  rs_parked (ap_rest w') = rs_parked (ap_rest w).

Lemma keeps_refl w : keeps w w.
Proof. done. Qed.

Lemma keeps_trans w w' w'' : keeps w w' -> keeps w' w'' -> keeps w w''.
Proof. intros (A1 & A2 & A3 & A4) (B1 & B2 & B3 & B4). unfold keeps. by rewrite B1, B2, B3, B4. Qed.

Lemma keeps_linked st w w' : keeps w w' -> linked st (ap_half w) (rs_parked (ap_rest w)) -> linked st (ap_half w') (rs_parked (ap_rest w')).
Proof. intros (A1 & A2 & A3 & A4). by destruct st; cbn; rewrite ?A2, ?A3, ?A4. Qed.

Lemma keeps_rest f (w : App (Handler := Handler)) : rs_parked (f (ap_rest w)) = rs_parked (ap_rest w) -> keeps w (on_rest f w).
Proof. intros Hf. done. Qed.

Lemma keeps_in_core c f (w : App (Handler := Handler)) : (forall k, en_softLocked (co_engine (f k)) = en_softLocked (co_engine k)) ->
  keeps w (set_half (in_core c f (ap_half w)) w).
Proof.
  intros Hf. split_and!; try done. unfold suspended. cbn. destruct (hf_core (ap_half w)) as [c'|]; [|done]. cbn.
  rewrite lookup_alter_if. destruct (hf_cores (ap_half w) !! c') as [k|]; [|done]. cbn. case_bool_decide; [by rewrite Hf|done].
Qed.

Lemma run_close_all l (w : App (Handler := Handler)) : exists w', run (close_all l) w = (tt, w') /\ keeps w w'.
Proof.
  revert w. induction l as [|ch l IH]; intros w; [by exists w|]. cbn [close_all]. rewrite run_bind. unfold close. rewrite run_atomic. cbn [modify].
  case_bool_decide.
  - destruct (IH (on_rest (add_panic ClosedTwice) w)) as (w' & -> & Hk). exists w'. split; [done|].
    eapply keeps_trans; [|exact Hk]. by apply keeps_rest.
  - destruct (IH (set_waits (mk_waits (wt_unseal (ap_waits w)) (wt_state (ap_waits w)) (wt_made (ap_waits w)) (ch :: wt_closed (ap_waits w))) w))
      as (w' & -> & Hk). exists w'. split; [done|]. eapply keeps_trans; [|exact Hk]. done.
Qed.

Lemma run_setState st reason (w : App (Handler := Handler)) : exists w', run (setState st reason) w = (tt, w') /\
  said_of w' = mk_said st reason /\ hf_core (ap_half w') = hf_core (ap_half w) /\
  suspended (ap_half w') = suspended (ap_half w) /\ rs_parked (ap_rest w') = rs_parked (ap_rest w).
Proof.
  unfold setState. rewrite run_bind, run_atomic. destruct (enter st reason w) as [taken w1] eqn:Henter.
  rewrite run_bind. destruct (run_close_all taken.1 w1) as (w2 & -> & K1).
  destruct (run_close_all taken.2 w2) as (w3 & -> & K2). exists w3. split; [done|].
  destruct (keeps_trans _ _ _ K1 K2) as (A1 & A2 & A3 & A4). unfold said_of. rewrite A1, A2, A3, A4.
  unfold enter in Henter. injection Henter as <- <-. done.
Qed.

Lemma run_startPeer c (w : App (Handler := Handler)) : exists r w', run (startPeer Listen c) w = (Ended r, w') /\ keeps w w'.
Proof.
  unfold startPeer. rewrite run_bind, run_atomic. cbn [gets]. destruct (has_peer c w) eqn:Hp; cbn [negb]; [|by eexists _, w].
  rewrite run_bind, run_atomic. cbn [gets]. rewrite Hp. cbn [negb]. rewrite run_bind, run_atomic. unfold outside.
  destruct (Listen (rs_ticks (ap_rest w))) as [err|]; [eexists _, _; split; [done|by apply keeps_rest]|].
  rewrite run_bind, run_atomic, run_bind, run_atomic. cbn [modify]. eexists _, _. split; [done|].
  eapply keeps_trans; [|by apply keeps_in_core]. eapply keeps_trans; by apply keeps_rest.
Qed.

Lemma run_stopPeer c (w : App (Handler := Handler)) : exists w', run (stopPeer c) w = (tt, w') /\ keeps w w'.
Proof.
  unfold stopPeer. rewrite run_bind, run_atomic.
  set (w1 := set_half _ w). set (taken := match core_at c w with Some k => _ | None => _ end).
  assert (keeps w w1) as K1 by by apply keeps_in_core.
  destruct (negb taken.1); [by exists w1|]. rewrite run_bind, run_atomic. cbn [modify].
  set (w2 := set_half _ w1). assert (keeps w w2) as K2 by (eapply keeps_trans; [exact K1|by apply keeps_in_core]).
  destruct taken.2 as [i|]; [|by exists w2]. rewrite run_atomic. cbn [modify]. eexists. split; [done|].
  eapply keeps_trans; [exact K2|]. by apply keeps_rest.
Qed.

Lemma run_tearDown c (w : App (Handler := Handler)) : exists w', run (tearDown c) w = (tt, w') /\
  ap_line w' = ap_line w /\ hf_core (ap_half w') = hf_core (ap_half w) /\ lo_keys (rs_parked (ap_rest w')) = [].
Proof.
  unfold tearDown. rewrite run_bind. destruct (run_stopPeer c w) as (w1 & -> & A1 & A2 & A3 & A4).
  rewrite run_bind, run_atomic. cbn [modify]. rewrite run_bind, run_atomic. cbn [modify]. rewrite run_atomic. cbn [modify].
  eexists. split; [done|]. unfold wipe_vault, core_at.
  assert (lo_keys (LocalKeys_Wipe dropped_reason (rs_parked (ap_rest w1))).2 = []) as Hempty by apply dropAll_empty.
  destruct (hf_cores _ !! c) as [k|]; cbn; by rewrite ?A1, ?A2.
Qed.

Lemma suspended_publish v peering (w : App (Handler := Handler)) : hf_core (ap_half w) = None ->
  exists c serving w', publish v peering w = (Some (c, serving), w') /\ ap_line w' = ap_line w /\
    suspended (ap_half w') = Some false /\ rs_parked (ap_rest w') = rs_parked (ap_rest w).
Proof.
  intros Hcore. unfold publish. rewrite Hcore. eexists _, _, _. split; [done|]. cbn [set_half ap_line ap_half ap_rest].
  split_and!; try done. set (c := length _). set (k0 := mk_core v _ _ _ _). set (h0 := mk_half _ _ _ _).
  destruct (attach_all_spec c (hf_approvers (ap_half w)) h0) as (E1 & _ & _ & _ & _ & E6).
  unfold suspended. rewrite E1. cbn [h0 hf_core mbind option_bind]. rewrite E6. cbn [h0 hf_cores].
  unfold c. rewrite lookup_app_r, Nat.sub_diag by lia. cbn. by rewrite bool_decide_eq_true_2.
Qed.

Lemma run_adopt v fingerprint (w : App (Handler := Handler)) : hf_core (ap_half w) = None ->
  exists r w', run (adopt buildCore Listen v fingerprint) w = (Ended r, w') /\
    (refused_or r, said_of w') = comes_up (Ok emp) None (buildCore (rs_ticks (ap_rest w))) (said_of w) /\
    match r with
    | Ok _ => suspended (ap_half w') = Some false
    | Err _ => ap_half w' = ap_half w /\ rs_parked (ap_rest w') = rs_parked (ap_rest w)
    end.
Proof.
  intros Hcore. unfold adopt. rewrite run_bind, run_atomic. unfold outside.
  destruct (buildCore (rs_ticks (ap_rest w))) as [peering|err]; [|by eexists _, _].
  rewrite run_bind, run_atomic. destruct (suspended_publish v peering (on_rest tick w)) as (c & serving & w1 & -> & B1 & B2 & B3); [done|].
  rewrite run_bind. destruct (run_setState LOCK_STATE_UNLOCKED emp w1) as (w2 & -> & C1 & C2 & C3 & C4).
  rewrite run_bind.
  assert (exists failed w3, run (if serving then startPeer Listen c else mret (Ended None)) w2 = (Ended failed, w3) /\ keeps w2 w3)
    as (failed & w3 & -> & D1 & D2 & D3 & D4).
  { destruct serving; [apply run_startPeer|by eexists _, _]. }
  rewrite run_bind. unfold lifecycle, LogLifecycle. rewrite run_atomic. cbn [modify]. eexists _, _. split; [done|].
  cbn [refused_or comes_up]. split; [|cbn; by rewrite D3, C3].
  f_equal. rewrite <-C1. unfold said_of. cbn. by rewrite D1.
Qed.

Lemma run_noStoreError (w : App (Handler := Handler)) : run noStoreError w = (no_store (ln_state (ap_line w)), w).
Proof. cbn. unfold no_store. by destruct (ln_state (ap_line w)). Qed.

Lemma linked_core st h parked : linked st h parked ->
  match st with
  | LOCK_STATE_UNLOCKED | LOCK_STATE_LOCKED => exists c k, hf_core h = Some c /\ hf_cores h !! c = Some k
  | _ => hf_core h = None
  end.
Proof.
  unfold linked, suspended. destruct st; try done; try tauto;
    (destruct (hf_core h) as [c|]; [|done]); cbn; (destruct (hf_cores h !! c) as [k|] eqn:Hk; [|done]); by exists c, k.
Qed.

Lemma run_Suspend c b k (w : App (Handler := Handler)) : hf_core (ap_half w) = Some c -> hf_cores (ap_half w) !! c = Some k ->
  exists w', run (SuspendLocalPrompts c b) w = (tt, w') /\ ap_line w' = ap_line w /\ suspended (ap_half w') = Some b /\
    rs_parked (ap_rest w') = rs_parked (ap_rest w).
Proof.
  intros Hc Hk. unfold SuspendLocalPrompts. rewrite run_atomic. cbn [modify]. eexists. split; [done|]. cbn.
  split_and!; try done. unfold suspended. cbn. rewrite Hc. cbn. rewrite lookup_alter_if, Hk. cbn. by rewrite bool_decide_eq_true_2.
Qed.

(** What is left to show of a request once it is run. *)
Definition answers (n : nat) (r : request) (w : App (Handler := Handler)) (out : outcome (option error) * App (Handler := Handler)) : Prop :=
  exists e, out.1 = Ended e /\
    (e, said_of out.2) = contract n (fun a b => (LocalKeys_Add a b (rs_parked (ap_rest w))).1) r (said_of w) /\
    linked (ln_state (ap_line out.2)) (ap_half out.2) (rs_parked (ap_rest out.2)).

Lemma said_state w w' : ap_line w' = ap_line w -> said_of w' = said_of w.
Proof. unfold said_of. by intros ->. Qed.

Lemma opened_run f (w : App (Handler := Handler)) : exists w', (opened f w).2 = w' /\ keeps w w' /\ rs_ticks (ap_rest w') = S (rs_ticks (ap_rest w)) /\
  (opened f w).1 = match f (rs_ticks (ap_rest w)) with Ok fp => Ok (length (rs_vaults (ap_rest w)), fp) | Err e => Err e end.
Proof. unfold opened, outside. destruct (f (rs_ticks (ap_rest w))); by eexists. Qed.

Lemma unlock_answers p w : linked (ln_state (ap_line w)) (ap_half w) (rs_parked (ap_rest w)) ->
  answers (rs_ticks (ap_rest w)) (RUnlock p) w (run (request_prog (RUnlock p)) w).
Proof.
  intros Hl. unfold answers. cbn [request_prog]. rewrite run_bind. unfold Unlock. rewrite run_bind. unfold State. rewrite run_atomic. cbn [gets].
  pose proof (linked_core _ _ _ Hl) as Hcore. unfold contract. change (ln_state (ap_line w)) with (sa_state (said_of w)) in *.
  destruct (sa_state (said_of w)) eqn:Hst.
  - done.
  - rewrite run_bind, run_atomic. destruct (opened_run (fun n => Open n p) w) as (w1 & E1 & K & E2 & E3).
    destruct (opened (fun n => Open n p) w) as [r w1'] eqn:Hop. cbn [fst snd] in E1, E3. subst w1' r.
    pose proof (said_state w w1 (proj1 K)) as Hsaid.
    destruct (Open (rs_ticks (ap_rest w)) p) as [fp|err].
    + destruct (run_adopt (length (rs_vaults (ap_rest w))) fp w1) as (r & w2 & -> & F1 & F2).
      { destruct K as (_ & -> & _). done. }
      rewrite run_mret. cbn [fst snd]. exists (refused_or r). rewrite E2, Hsaid in F1. split_and!; [done|exact F1|].
      cbn [comes_up] in F1. change (ln_state (ap_line w2)) with (sa_state (said_of w2)).
      destruct (buildCore (S (rs_ticks (ap_rest w)))) as [b|err].
      * apply pair_equal_spec in F1 as [Hr Hs]. rewrite Hs. by destruct r.
      * apply pair_equal_spec in F1 as [Hr Hs]. rewrite Hs, Hst. destruct r as [msg|err']; [done|]. destruct F2 as [-> ->].
        exact (keeps_linked LOCK_STATE_SEALED _ _ K Hl).
    + rewrite !run_mret. cbn [fst snd comes_up]. exists (Some err). split_and!; [done|by rewrite Hsaid|].
      change (ln_state (ap_line w1)) with (sa_state (said_of w1)). rewrite Hsaid, Hst.
      exact (keeps_linked LOCK_STATE_SEALED _ _ K Hl).
  - rewrite !run_mret. cbn [fst snd]. change (ln_state (ap_line w)) with (sa_state (said_of w)). rewrite Hst. by eexists.
  - destruct Hcore as (c & k & Hc & Hk). rewrite run_bind. unfold lift. rewrite run_bind. unfold currentCore. rewrite run_atomic. cbn [gets].
    rewrite Hc, run_bind, run_atomic. unfold outside.
    destruct (VerifyPassphrase (rs_ticks (ap_rest w)) p) as [err|].
    + rewrite !run_mret. cbn [fst snd]. change (ln_state (ap_line (on_rest tick w))) with (sa_state (said_of w)). rewrite Hst. by eexists.
    + rewrite run_bind. destruct (run_Suspend c false k (on_rest tick w) Hc Hk) as (w1 & -> & A1 & A2 & A3).
      rewrite run_bind. destruct (run_setState LOCK_STATE_UNLOCKED emp w1) as (w2 & -> & B1 & B2 & B3 & B4).
      rewrite run_bind. unfold lifecycle, LogLifecycle. rewrite run_atomic. cbn [modify]. rewrite !run_mret. cbn [fst snd].
      exists None. split_and!; [done| |].
      * f_equal. rewrite <-B1. done.
      * change (ln_state (ap_line (on_rest _ w2))) with (sa_state (said_of w2)). rewrite B1. cbn. by rewrite B3.
  - rewrite !run_mret. cbn [fst snd]. change (ln_state (ap_line w)) with (sa_state (said_of w)). rewrite Hst. by eexists.
Qed.

Lemma initialise_answers name p w : linked (ln_state (ap_line w)) (ap_half w) (rs_parked (ap_rest w)) ->
  answers (rs_ticks (ap_rest w)) (RInitialise name p) w (run (request_prog (RInitialise name p)) w).
Proof.
  intros Hl. unfold answers. cbn [request_prog]. rewrite run_bind. unfold Initialise. rewrite run_bind. unfold State. rewrite run_atomic. cbn [gets].
  unfold contract. change (ln_state (ap_line w)) with (sa_state (said_of w)) in *.
  destruct (decide (sa_state (said_of w) = LOCK_STATE_UNINITIALIZED)) as [Hst|Hst].
  2: { rewrite bool_decide_eq_true_2 by done. rewrite !run_mret. cbn [fst snd]. exists (Some ErrExists).
       split_and!; [done|by destruct (sa_state (said_of w))|exact Hl]. }
  rewrite bool_decide_eq_false_2 by (intros Hne; by apply Hne). rewrite Hst in *.
  rewrite run_bind, run_atomic. destruct (opened_run (fun n => Create n name p) w) as (w1 & E1 & K & E2 & E3).
  destruct (opened (fun n => Create n name p) w) as [r w1'] eqn:Hop. cbn [fst snd] in E1, E3. subst w1' r.
  pose proof (said_state w w1 (proj1 K)) as Hsaid.
  destruct (Create (rs_ticks (ap_rest w)) name p) as [fp|err]; cbn [comes_up].
  2: { rewrite !run_mret. cbn [fst snd]. exists (Some err). split_and!; [done|by rewrite Hsaid|].
       change (ln_state (ap_line w1)) with (sa_state (said_of w1)). rewrite Hsaid, Hst.
       exact (keeps_linked LOCK_STATE_UNINITIALIZED _ _ K Hl). }
  rewrite run_bind, run_atomic. unfold outside. rewrite E2.
  destruct (MakePolicy (S (rs_ticks (ap_rest w)))) as [err|].
  { rewrite !run_mret. cbn [fst snd]. exists (Some err). split_and!; [done|by rewrite <-Hsaid|].
    change (ln_state (ap_line (on_rest tick w1))) with (sa_state (said_of w1)). rewrite Hsaid, Hst.
    exact (keeps_linked LOCK_STATE_UNINITIALIZED _ _ K Hl). }
  destruct (run_adopt (length (rs_vaults (ap_rest w))) fp (on_rest tick w1)) as (r & w2 & -> & F1 & F2).
  { destruct K as (_ & K & _). cbn. rewrite K. exact (proj1 Hl). }
  rewrite run_mret. cbn [fst snd]. exists (refused_or r).
  change (said_of (on_rest tick w1)) with (said_of w1) in F1. change (rs_ticks (ap_rest (on_rest tick w1))) with (S (rs_ticks (ap_rest w1))) in F1.
  rewrite E2, Hsaid in F1. split_and!; [done|exact F1|].
  cbn [comes_up] in F1. change (ln_state (ap_line w2)) with (sa_state (said_of w2)).
  destruct (buildCore (S (S (rs_ticks (ap_rest w))))) as [b|err].
  - apply pair_equal_spec in F1 as [Hr Hs]. rewrite Hs. by destruct r.
  - apply pair_equal_spec in F1 as [Hr Hs]. rewrite Hs, Hst. destruct r as [msg|err']; [done|]. destruct F2 as [-> ->].
    exact (keeps_linked LOCK_STATE_UNINITIALIZED _ _ K Hl).
Qed.

Lemma takeCore_run (w : App (Handler := Handler)) : exists w', run takeCore w = (hf_core (ap_half w), w') /\ ap_line w' = ap_line w /\
  hf_core (ap_half w') = None /\ rs_parked (ap_rest w') = rs_parked (ap_rest w).
Proof.
  unfold takeCore. rewrite run_atomic. eexists. split; [done|]. cbn [set_half ap_line ap_half ap_rest]. split_and!; try done.
  destruct (release_all_spec (hf_approvers (ap_half w))
    (mk_half None (hf_cores (ap_half w)) (hf_slots (ap_half w)) (hf_approvers (ap_half w)))) as (-> & _). done.
Qed.

Lemma seal_answers reason w : linked (ln_state (ap_line w)) (ap_half w) (rs_parked (ap_rest w)) ->
  answers (rs_ticks (ap_rest w)) (RLock true reason) w (run (request_prog (RLock true reason)) w).
Proof.
  intros Hl. unfold answers. cbn [request_prog Lock]. rewrite run_bind. unfold Seal. rewrite run_bind.
  destruct (takeCore_run w) as (w1 & -> & A1 & A2 & A3).
  pose proof (linked_core _ _ _ Hl) as Hcore. unfold contract. change (ln_state (ap_line w)) with (sa_state (said_of w)) in *.
  destruct (hf_core (ap_half w)) as [c|] eqn:Hc.
  - rewrite run_bind. destruct (run_setState LOCK_STATE_SEALED reason w1) as (w2 & -> & B1 & B2 & B3 & B4).
    rewrite run_bind. unfold lifecycle, LogLifecycle. rewrite run_atomic. cbn [modify].
    rewrite run_bind. destruct (run_tearDown c (on_rest (add_audit (withReason "the store was sealed" reason)) w2)) as (w3 & -> & C1 & C2 & C3).
    rewrite !run_mret. cbn [fst snd]. exists None.
    assert (said_of w3 = mk_said LOCK_STATE_SEALED reason) as Hsaid by (rewrite <-B1; by apply said_state).
    split_and!; [done| |].
    + rewrite Hsaid. destruct (sa_state (said_of w)); try done; by destruct Hl.
    + change (ln_state (ap_line w3)) with (sa_state (said_of w3)). rewrite Hsaid. cbn. split; [|done]. rewrite C2. cbn. by rewrite B2.
  - rewrite !run_mret. cbn [fst snd]. exists None.
    assert (said_of w1 = said_of w) as Hsaid by by apply said_state. rewrite Hsaid.
    change (ln_state (ap_line w1)) with (sa_state (said_of w1)). rewrite Hsaid.
    destruct (sa_state (said_of w)) eqn:Hst; try done; try (by destruct Hcore as (c & k & [=] & _));
      (split_and!; [done|done|]; cbn; rewrite A2, A3; split; [done|]; exact (proj2 Hl)).
Qed.

Lemma softlock_answers reason w : linked (ln_state (ap_line w)) (ap_half w) (rs_parked (ap_rest w)) ->
  answers (rs_ticks (ap_rest w)) (RLock false reason) w (run (request_prog (RLock false reason)) w).
Proof.
  intros Hl. unfold answers. cbn [request_prog Lock]. rewrite run_bind. unfold SoftLock. rewrite run_bind. unfold currentCore. rewrite run_atomic. cbn [gets].
  pose proof (linked_core _ _ _ Hl) as Hcore. unfold contract. change (ln_state (ap_line w)) with (sa_state (said_of w)) in *.
  assert (forall c k, hf_core (ap_half w) = Some c -> hf_cores (ap_half w) !! c = Some k -> exists w',
    run (_ ← SuspendLocalPrompts c true; _ ← setState LOCK_STATE_LOCKED reason;
         _ ← lifecycle (withReason "local approval was suspended" reason); mret None) w = (@None error, w') /\
    said_of w' = mk_said LOCK_STATE_LOCKED reason /\ suspended (ap_half w') = Some true) as Hrun.
  { intros c k Hc Hk. rewrite run_bind. destruct (run_Suspend c true k w Hc Hk) as (w1 & -> & A1 & A2 & A3).
    rewrite run_bind. destruct (run_setState LOCK_STATE_LOCKED reason w1) as (w2 & -> & B1 & B2 & B3 & B4).
    rewrite run_bind. unfold lifecycle, LogLifecycle. rewrite run_atomic. cbn [modify]. rewrite run_mret. eexists. split; [done|].
    split; [by rewrite <-B1|]. cbn. by rewrite B3. }
  destruct (sa_state (said_of w)) eqn:Hst; try done;
    try (destruct Hcore as (c & k & Hc & Hk); rewrite Hc; destruct (Hrun c k Hc Hk) as (w' & -> & Hs & Hsus);
      rewrite run_mret; cbn [fst snd]; exists None; split_and!; [done|by rewrite Hs|];
      change (ln_state (ap_line w')) with (sa_state (said_of w')); by rewrite Hs).
  - rewrite Hcore, run_bind, run_noStoreError, !run_mret. cbn [fst snd]. change (ln_state (ap_line w)) with (sa_state (said_of w)). rewrite Hst.
    eexists. split_and!; [done|done|exact Hl].
  - rewrite Hcore, run_bind, run_noStoreError, !run_mret. cbn [fst snd]. change (ln_state (ap_line w)) with (sa_state (said_of w)). rewrite Hst.
    eexists. split_and!; [done|done|exact Hl].
Qed.

Lemma park_answers added by_ w : linked (ln_state (ap_line w)) (ap_half w) (rs_parked (ap_rest w)) ->
  answers (rs_ticks (ap_rest w)) (RPark added by_) w (run (request_prog (RPark added by_)) w).
Proof.
  intros Hl. unfold answers. cbn [request_prog]. rewrite run_bind. unfold Park, Unsealed, State. rewrite run_bind, run_bind, run_atomic. cbn [gets].
  rewrite run_mret. unfold contract. change (ln_state (ap_line w)) with (sa_state (said_of w)) in *.
  assert (bool_decide (sa_state (said_of w) = LOCK_STATE_UNLOCKED) || bool_decide (sa_state (said_of w) = LOCK_STATE_LOCKED) =
    match sa_state (said_of w) with LOCK_STATE_UNLOCKED | LOCK_STATE_LOCKED => true | _ => false end) as ->
    by by destruct (sa_state (said_of w)).
  destruct (sa_state (said_of w)) eqn:Hst; cbn [negb]; try done;
    try (rewrite !run_mret; cbn [fst snd]; change (ln_state (ap_line w)) with (sa_state (said_of w)); rewrite Hst;
         eexists; split_and!; [done|done|exact Hl]);
    (rewrite run_atomic; destruct (LocalKeys_Add added by_ (rs_parked (ap_rest w))) as [failed l];
     rewrite run_mret; cbn [fst snd]; exists failed; split_and!; try done;
     change (ln_state (ap_line (on_rest (set_parked l) w))) with (sa_state (said_of w)); rewrite Hst; exact Hl).
Qed.

Lemma request_follows r d : follows d (may_hold d) (request_prog r).
Proof.
  destruct r; cbn [request_prog].
  - eapply good_bind; [apply Unlock_follows|]. intros o d' Hd'. exact Hd'.
  - eapply good_bind; [apply Initialise_follows|]. intros o d' Hd'. exact Hd'.
  - apply same_may_hold, follows_same_bind; [|done]. destruct seal; [apply Seal_follows|apply SoftLock_follows].
  - apply same_may_hold, follows_same_bind; [apply Park_follows|done].
Qed.

(** C13. One request at a time, the instance is the abstract machine: from a
    coherent instance every request ends without a panic, answers what the
    machine answers and leaves a coherent instance that says what the machine
    says - one that says there is a store has one, with the prompts suspended
    exactly when it says locked, and one that is sealed has none and no parked
    key either. *)
Theorem lock_refines r w :
  coherent w ->
  let '(o, w') := run (request_prog r) w in
  coherent w' /\ exists e, o = Ended e /\
    (e, said_of w') = contract (rs_ticks (ap_rest w)) (fun a b => (LocalKeys_Add a b (rs_parked (ap_rest w))).1) r (said_of w).
Proof.
  intros [Hl (e & d & Hd & Ht)].
  destruct (good_run tidy d (may_hold d) (request_prog r) e [] w (request_follows r d)) as (d' & Ht' & Hd'); [by rewrite app_nil_r|].
  assert (answers (rs_ticks (ap_rest w)) r w (run (request_prog r) w)) as (res & Hres & Hsays & Hl').
  { destruct r as [p|name p|[|] reason|added by_];
      [by apply unlock_answers|by apply initialise_answers|by apply seal_answers|by apply softlock_answers|by apply park_answers]. }
  destruct (run (request_prog r) w) as [o w']. cbn [fst snd] in *. split; [|by exists res].
  split; [done|]. exists e, d'. rewrite app_nil_r in Ht'. split; [|done].
  destruct Hd' as [->|[v ->]]; [done|]. by constructor.
Qed.

(** ** A store that is lost *)

Section Lost.
Variable st : LockState.
Hypothesis says_open : st = LOCK_STATE_UNLOCKED \/ st = LOCK_STATE_LOCKED.

Definition lost (_ : list awaiter) (_ : list unit) (w : App (Handler := Handler)) : Prop :=
  ln_state (ap_line w) = st /\ hf_core (ap_half w) = None.

Abbreviation stays := (good (S := App (Handler := Handler)) lost).
Definition any {A} (_ : A) (_ : list unit) : Prop := True.

Lemma stays_atomic {A} (m : state (App (Handler := Handler)) A) (Q : A -> list unit -> Prop) :
  (forall w, ln_state (ap_line w) = st -> hf_core (ap_half w) = None ->
     Q (m w).1 [] /\ ln_state (ap_line (m w).2) = st /\ hf_core (ap_half (m w).2) = None) -> stays [] Q (atomic m).
Proof. intros Hm. apply good_atomic. intros e others w [H1 H2]. destruct (Hm w H1 H2) as (HQ & H3 & H4). by exists []. Qed.

Lemma stays_State : stays [] (fun a d => a = st /\ d = []) State.
Proof. by apply stays_atomic. Qed.

Lemma stays_currentCore : stays [] (fun a d => a = None /\ d = []) currentCore.
Proof. by apply stays_atomic. Qed.

Lemma stays_then {A B} (P : A -> Prop) (Q : B -> list unit -> Prop) (p : prog (App (Handler := Handler)) A) (f : A -> prog (App (Handler := Handler)) B) :
  stays [] (fun a d => P a /\ d = []) p -> (forall a, P a -> stays [] Q (f a)) -> stays [] Q (p ≫= f).
Proof. intros Hp Hf. eapply good_bind; [exact Hp|]. intros a d [Ha ->]. by apply Hf. Qed.

Lemma stays_takeCore : stays [] (fun a d => a = None /\ d = []) takeCore.
Proof.
  apply stays_atomic. intros w Hs Hc. cbn [fst snd set_half ap_line ap_half]. split_and!; try done.
  destruct (release_all_spec (hf_approvers (ap_half w))
    (mk_half None (hf_cores (ap_half w)) (hf_slots (ap_half w)) (hf_approvers (ap_half w)))) as (-> & _). done.
Qed.

Lemma stays_noStoreError : stays [] (fun _ d => True /\ d = []) noStoreError.
Proof. do 2 (apply (stays_then (fun _ => True)); [by apply stays_atomic || (apply (stays_then (fun _ => True)); [by apply stays_atomic|done])|intros ? _]; try done). Qed.

Lemma stays_Unlock p : stays [] (fun _ d => True /\ d = []) (Unlock Open VerifyPassphrase buildCore Listen p).
Proof.
  apply (stays_then (fun a => a = st)); [apply stays_State|]. intros a ->.
  destruct says_open as [Hst|Hst]; rewrite Hst; [done|].
  apply (stays_then (fun _ => True)); [|done]. apply (stays_then (fun a => a = None)); [apply stays_currentCore|]. intros a ->.
  apply (stays_then (fun _ => True)); [apply stays_noStoreError|done].
Qed.

Lemma stays_call c : stays [] any (callProg c).
Proof.
  destruct c; cbn [call_prog]; unfold ignore.
  - apply (stays_then (fun _ => True)); [by apply stays_atomic|done].
  - apply (stays_then (fun _ => True)); [|done]. apply stays_atomic. intros w Hs Hc. cbn. by rewrite Hc.
  - unfold unregister. apply (stays_then (fun _ => True)); [by apply stays_atomic|]. intros [c|] _; [by apply stays_atomic|done].
  - apply (stays_then (fun _ => True)); [apply stays_Unlock|done].
  - apply (stays_then (fun _ => True)); [|done]. unfold Initialise. apply (stays_then (fun a => a = st)); [apply stays_State|].
    intros a ->. rewrite bool_decide_eq_true_2; [done|]. destruct says_open as [Hst|Hst]; by rewrite Hst.
  - apply (stays_then (fun _ => True)); [|done]. unfold TryKeyring. apply (stays_then (fun a => a = st)); [apply stays_State|].
    intros a ->. destruct says_open as [Hst|Hst]; by rewrite Hst.
  - destruct seal; (apply (stays_then (fun _ => True)); [|done]).
    + apply (stays_then (fun a => a = None)); [apply stays_takeCore|]. by intros a ->.
    + apply (stays_then (fun a => a = None)); [apply stays_currentCore|]. intros a ->.
      apply (stays_then (fun _ => True)); [apply stays_noStoreError|done].
  - apply (stays_then (fun _ => True)); [|done]. apply (stays_then (fun a => a = None)); [apply stays_currentCore|]. intros a ->.
    apply (stays_then (fun _ => True)); [apply stays_noStoreError|done].
  - apply (stays_then (fun a => a = None)); [apply stays_takeCore|]. by intros a ->.
  - apply (stays_then (fun _ => True)); [|done]. apply (stays_then (fun _ => True)).
    + apply stays_atomic. intros w Hs Hc. by case_bool_decide.
    + intros [ch b] _. apply (stays_then (fun _ => True)); [|done]. cbn [fst snd]. destruct b; [|done].
      apply stays_atomic. intros w Hs Hc. cbn. by case_bool_decide.
  - by apply stays_atomic.
  - by apply stays_atomic.
  - apply (stays_then (fun _ => True)); [|done]. unfold Park. apply (stays_then (fun _ => True)).
    + apply (stays_then (fun a => a = st)); [apply stays_State|done].
    + intros b _. destruct (negb b); [done|]. apply stays_atomic. intros w Hs Hc.
      by destruct (LocalKeys_Add added by_ (rs_parked (ap_rest w))).
Qed.

Lemma lost_around o e d (w : App (Handler := Handler)) : lost e d w -> lost (around o (e, w)).1 d (around o (e, w)).2.
Proof.
  intros [Hs Hc]. destruct o as [i ctx_done|i]; cbn.
  - destruct (e !! i) as [a|]; [|done]. unfold AwaitState. destruct (aw_phase a); cbn; try done.
    + by destruct (aw_want a _).
    + destruct ctx_done; [done|]. by case_bool_decide.
  - destruct (rs_serving (ap_rest w) !! i) as [sv|]; [|done]. destruct (sv_begun sv); [done|]. by destruct (has_peer _ _).
Qed.

End Lost.


End Ledger.

(** ** Instances that run

    A store whose passphrase is one byte, and a listener that binds. *)

Module ToyLock.
Import Toy.
Import ToyKeys.

Definition toy_open (n : nat) (p : bytes) : result string :=
  if bool_decide (p = [x01]) then Ok "SHA256:self"%string else Err (errors_New "wrong passphrase").
Definition toy_create (n : nat) (name : string) (p : bytes) : result string := Ok "SHA256:self"%string.
Definition toy_verify (n : nat) (p : bytes) : option error :=
  if bool_decide (p = [x01]) then None else Some (errors_New "wrong passphrase").
Definition never (n : nat) : option error := None.
Definition toy_core (n : nat) : result bool := Ok true.

Abbreviation toy_pool := (starts (Handler := string) toy_open toy_create never toy_verify toy_core never never never).
Abbreviation toy_parked := (NewLocalKeys 0 None toy_clock).

Definition unlock_it : call (Handler := string) := CUnlock [x01].
Definition lock_it : call (Handler := string) := CLock false "idle".
Definition seal_it : call (Handler := string) := CLock true "suspended".

(** [n] turns of a call; [all_of], as many as any of them needs. *)
Definition turns (i n : nat) : list (move beside) := replicate n (Turn i).
Definition all_of (i : nat) : list (move beside) := turns i 40.

Definition after (calls : list (call (Handler := string))) (l : list (move beside)) : App (Handler := string) :=
  po_state (moves around (toy_pool true true toy_parked toy_clock [] calls) l).

(** What there is to see without looking into functions. *)
Definition seen (w : App (Handler := string)) : LockState * option nat * option bool * list bool :=
  (ln_state (ap_line w), hf_core (ap_half w), suspended (ap_half w), rs_vaults (ap_rest w)).
End ToyLock.
Import ToyLock.
Import Toy.
Import ToyKeys.

(** One after the other they do what they say. *)
Example calls_in_turn :
  seen (after [unlock_it; lock_it; seal_it] (all_of 0)) = (LOCK_STATE_UNLOCKED, Some 0%nat, Some false, [false]) /\
  seen (after [unlock_it; lock_it; seal_it] (all_of 0 ++ all_of 1)) = (LOCK_STATE_LOCKED, Some 0%nat, Some true, [false]) /\
  seen (after [unlock_it; lock_it; seal_it] (all_of 0 ++ all_of 1 ++ all_of 2)) = (LOCK_STATE_SEALED, None, None, [true]).
Proof. vm_compute. done. Qed.

(** A soft lock has read the core, a seal takes it, and the soft lock then
    writes its state: locked, with no store to lock. *)
Example seal_under_a_soft_lock :
  let w := after [unlock_it; lock_it; seal_it] (all_of 0 ++ turns 1 2 ++ all_of 2 ++ all_of 1) in
  ln_state (ap_line w) = LOCK_STATE_LOCKED /\ hf_core (ap_half w) = None.
Proof. vm_compute. done. Qed.

(** A seal between the two critical sections of an unlock: unlocked, with no
    store. *)
Example seal_under_an_unlock :
  let w := after [unlock_it; seal_it] (turns 0 4 ++ all_of 1 ++ all_of 0) in
  ln_state (ap_line w) = LOCK_STATE_UNLOCKED /\ hf_core (ap_half w) = None.
Proof. vm_compute. done. Qed.

(** A soft lock and the lifting of one: the instance says that it is locked,
    and its prompts are not suspended. *)
Example locked_with_prompts :
  seen (after [unlock_it; lock_it; unlock_it; lock_it] (all_of 0 ++ all_of 1 ++ turns 2 3 ++ turns 3 2 ++ all_of 2 ++ all_of 3)) =
    (LOCK_STATE_LOCKED, Some 0%nat, Some false, [false]).
Proof. vm_compute. done. Qed.

(** Two unlocks open the store twice; the second core is dropped, and its keys
    are not wiped when the instance is sealed. *)
Example second_store_is_never_wiped :
  seen (after [unlock_it; unlock_it; seal_it] (turns 0 1 ++ all_of 1 ++ all_of 0 ++ all_of 2)) =
    (LOCK_STATE_SEALED, None, None, [true; false]).
Proof. vm_compute. done. Qed.

(** A key whose program was let in before the seal is parked after it. *)
Example parked_through_the_seal :
  let w := after [unlock_it; CPark (bare [x01] "tsh" 0) None; seal_it] (all_of 0 ++ turns 1 1 ++ all_of 2 ++ all_of 1) in
  ln_state (ap_line w) = LOCK_STATE_SEALED /\ length (lo_keys (rs_parked (ap_rest w))) = 1%nat.
Proof. vm_compute. done. Qed.

(** The node is gone between two readings of it, or before the goroutine that
    serves it has begun. *)
Example serving_a_node_that_is_gone :
  rs_panics (ap_rest (after [unlock_it; seal_it] (turns 0 6 ++ all_of 1 ++ all_of 0))) = [NilNode] /\
  rs_panics (ap_rest (after [unlock_it; seal_it] (all_of 0 ++ all_of 1 ++ [Outside (Begins 0)]))) = [NilNode].
Proof. vm_compute. done. Qed.

(** *** Witnesses *)

Definition crowd : list (call (Handler := string)) := [CRegister "tray"%string; unlock_it; CUnsealNotify; seal_it; CUnregister 0].
Definition crowded : list (move beside) :=
  [Turn 2; Outside (Awaits 0 false)] ++ turns 1 4 ++ all_of 0 ++ turns 1 2 ++ all_of 3 ++ turns 4 1 ++ all_of 1 ++ all_of 2 ++ all_of 4.

Lemma approvers_follow_the_store_witness :
  let x := moves around (toy_pool true true toy_parked toy_clock [] crowd) (all_of 0 ++ all_of 1) in
  exists k, hf_cores (ap_half (po_state x)) !! 0%nat = Some k /\
    (forall s, s ∈ hf_approvers (ap_half (po_state x)) -> s ∈ en_approvers (co_engine k) <-> hf_core (ap_half (po_state x)) = Some 0%nat) /\
    (hf_core (ap_half (po_state x)) = Some 0%nat -> rs_vaults (ap_rest (po_state x)) !! co_vault k = Some false).
Proof.
  eexists. split; [vm_compute; reflexivity|].
  exact (approvers_follow_the_store toy_open toy_create never toy_verify toy_core never never never
    true true toy_parked toy_clock [] crowd (all_of 0 ++ all_of 1) 0 _ ltac:(vm_compute; reflexivity)).
Defined.

Lemma calls_leave_no_trace_witness :
  let x := moves around (toy_pool true true toy_parked toy_clock [fun st => bool_decide (st = LOCK_STATE_UNLOCKED)] crowd) crowded in
  all_done x = true /\ ClosedTwice ∉ rs_panics (ap_rest (po_state x)).
Proof.
  cbv zeta. split; [vm_compute; reflexivity|].
  apply (calls_leave_no_trace toy_open toy_create never toy_verify toy_core never never never
    true true toy_parked toy_clock [fun st => bool_decide (st = LOCK_STATE_UNLOCKED)] crowd crowded). vm_compute. reflexivity.
Defined.

Lemma lock_refines_witness :
  exists w', run (request_prog (Handler := string) toy_open toy_create never toy_verify toy_core never (RUnlock [x01]))
      (built true toy_parked toy_clock) = (Ended None, w') /\ coherent w'.
Proof.
  assert (coherent (built (Handler := string) true toy_parked toy_clock)) as Hc.
  { split; [done|]. exists (looking []), []. split; [done|]. exact (booted_tidy false true toy_parked toy_clock []). }
  pose proof (lock_refines toy_open toy_create never toy_verify toy_core never (RUnlock [x01]) _ Hc) as Hr.
  destruct (run _ _) as [o w'] eqn:Hrun. destruct Hr as (Hc' & e & -> & Hsays). exists w'. split; [|done].
  f_equal. f_equal. by injection Hsays.
Defined.

