(* ===== verification/LocalApi.v ===== *)
(** * LocalApi: signing a payload for a local program

    [internal/localapi/server.go]'s signing service: a caller on this machine
    hands over the whole message, and this side builds the bytes to sign, puts
    the request to the approver and writes the armoured signature.  The store,
    the approver and the keys of peers are the interfaces of [Agent]; the
    socket and who may connect to it are outside. *)

From S2P Require Import Prelude.
From S2P Require Import GoText.
From S2P Require Import Proto.
From S2P Require Import Ssh.
From S2P Require Import Sshsig.
From S2P Require Import Armour.
From S2P Require Import Identity.
From S2P Require Import KnownHosts.
From S2P Require Import Rpc.
From S2P Require Import Agent.

Local Open Scope Z_scope.
Local Open Scope ladulas_scope.

Record SignPayloadRequest := mk_SignPayloadRequest {
  sp_public_key : bytes;
  sp_payload : bytes;
  sp_namespace : string;
  sp_hash_algorithm : string;
  sp_git_context : option GitContext;
  sp_timeout : option duration
}.

Record SignPayloadResponse := mk_SignPayloadResponse {
  so_request_id : string;
  so_approved : bool;
  so_source : DecisionSource;
  so_reason : string;
  so_armored_signature : string;
  so_approval : option SignedApproval
}.

(** [Approver]: the decision with the artifact behind it, and the request as
    the approver leaves it. *)
Class SignedApprover (P : Type) :=
  sa_SubmitSigned : ApprovalRequest -> state P (result (ApprovalResponse * option SignedApproval) * ApprovalRequest).

Class SignedApproverLaws (P : Type) `{SignedApprover P} : Prop :=
  sa_Submit_keeps req p : same_question req (sa_SubmitSigned req p).1.2.

Definition set_object (payload : bytes) (g : GitContext) : GitContext :=
  mk_GitContext (gc_repository_path g) (gc_origin_url g) (gc_branch g) (gc_operation g) (gc_diff g) (gc_project_id g)
    (gc_object_type g) payload (gc_parsed g) (gc_verified_against_payload g) (gc_verification_error g).
Definition no_context : GitContext := mk_GitContext emp emp emp emp None emp emp [] None false emp.

Definition refused_by (code : Code) (e : error) : SignPayloadResponse + rpc_error := inr (mk_rpc_error code e).
Definition set_signature (armored : string) (out : SignPayloadResponse) : SignPayloadResponse :=
  mk_SignPayloadResponse (so_request_id out) (so_approved out) (so_source out) (so_reason out) armored (so_approval out).

Section LocalApi.
Context `{Unicode} `{Hashes} `{Ssh} `{Codec ApprovalResponse}.
Context {P : Type} `{!HostSystem P} `{!Process P} `{store : !KeyStore P} `{peers : !RemoteKeys P P}.
Context `{approver : !SignedApprover P}.

(** Whether it has peers, and the process on the other end of the socket. *)
Variables (remote : bool) (peer : option ClientProcess).

(** The program around it, and the signatures it reported. *)
Record Server := mk_Server { sv_rest : P; sv_signed : list (ApprovalRequest * KeyRef) }.

Definition on_server {A} (m : state P A) : state Server A := fun s =>
  let '(a, p) := m (sv_rest s) in (a, mk_Server p (sv_signed s)).

Definition report_signed (req : ApprovalRequest) (key : KeyRef) : state Server unit :=
  modify (fun s => mk_Server (sv_rest s) (sv_signed s ++ [(req, key)])).

(** ** Which key *)

Definition not_held (blob : bytes) : error :=
  match ParsePublicKey blob with
  | Err _ => errors_New "the key is not one this instance holds"
  | Ok pub => errors_New ("no key " +:+ FingerprintSHA256 pub +:+ " here or on a paired instance")
  end.

Definition on_peers_or (blob : bytes) : state P (result (KeyRef * bool)) :=
  refs ← gets rk_RemoteKeyRefs;
  match findRemote refs blob with
  | Some ref => mret (Ok (ref, false))
  | None =>
    _ ← rk_RefreshKeys;
    refs ← gets rk_RemoteKeyRefs;
    match findRemote refs blob with
    | Some ref => mret (Ok (ref, false))
    | None =>
      borrowed ← gets (rk_BorrowedKey blob);
      match borrowed with
      | Some ref => mret (Ok (ref, false))
      | None => mret (Err (not_held blob))
      end
    end
  end.

Definition find_key (blob : bytes) : state P (result (KeyRef * bool)) :=
  if bool_decide (blob = []) then mret (Err (errors_New "no key was named"))
  else
    own ← gets ks_KeyRefs;
    match findRemote own blob with
    | Some ref => mret (Ok (ref, true))
    | None => if remote then on_peers_or blob else mret (Err (not_held blob))
    end.

(** ** The request *)

Definition local_requester : state P RequesterInfo :=
  info ← gets pc_identity;
  let info := default (mk_RequesterInfo emp emp false false emp None) info in
  mret (mk_RequesterInfo (ri_instance_id info) (ri_name info) true (ri_headless info) (ri_remote_address info) peer).

Definition is_git (msg : SignPayloadRequest) : bool := bool_decide (sp_namespace msg = GitNamespace).

Definition context_of (msg : SignPayloadRequest) : option GitContext :=
  if is_git msg then Some (set_object (sp_payload msg) (default no_context (sp_git_context msg))) else None.

Definition digest_of (msg : SignPayloadRequest) : bytes :=
  match Hash (sp_hash_algorithm msg) (sp_payload msg) with Ok digest => digest | Err _ => [] end.

Definition build_request (msg : SignPayloadRequest) (key : KeyRef) (blob : bytes) : state P ApprovalRequest :=
  info ← local_requester;
  random ← pc_random;
  t ← sys_now;
  mret (mk_ApprovalRequest (NewRequestID random) (Some t) (Some info) (if is_git msg then KIND_GIT_SIGN else KIND_SSHSIG)
    (Some key) (sp_timeout msg) 0 emp (sha256 blob) false None None
    (OpSshsig (mk_SshsigRequest (sp_namespace msg) (NormaliseHash (sp_hash_algorithm msg)) (digest_of msg) (context_of msg)))).

(** ** Signing *)

Definition armoured (pub : PublicKey) (msg : SignPayloadRequest) (inner : Signature) : string :=
  Armored (mk_SshSignature pub (sp_namespace msg) (NormaliseHash (sp_hash_algorithm msg)) inner).

Definition remoteSignCode (key : KeyRef) (p : P) : Code :=
  match rk_BorrowedKey (kr_public_key key) p with Some _ => CodeFailedPrecondition | None => CodeUnavailable end.

Definition sign_remotely (msg : SignPayloadRequest) (req : ApprovalRequest) (key : KeyRef)
    : state Server (SignPayloadResponse + rpc_error) :=
  resp ← on_server (rk_RemoteSign req (sp_payload msg) true);
  match resp with
  | Err e => code ← gets (fun s => remoteSignCode key (sv_rest s)); mret (refused_by code (wrap_w "remote signing: " e emp))
  | Ok resp =>
    match VerifyApproval (rsr_approval resp) with
    | Err e => mret (refused_by CodeInternal (wrap_w "remote signing: " e emp))
    | Ok (decision, _) =>
      let out := mk_SignPayloadResponse (rq_request_id req) (bool_decide (rs_decision decision = DECISION_APPROVE))
        (rs_source decision) (rs_reason decision) emp (rsr_approval resp) in
      if negb (so_approved out) then mret (inl out)
      else
        match ParsePublicKey (kr_public_key key) with
        | Err e => mret (refused_by CodeInternal (wrap_w "parse the borrowed key: " e emp))
        | Ok pub =>
          match UnmarshalSignature (rsr_signature resp) with
          | Err e => mret (refused_by CodeInternal (wrap_w "remote signing: parse the signature: " e emp))
          | Ok inner => _ ← report_signed req key; mret (inl (set_signature (armoured pub msg inner) out))
          end
        end
    end
  end.

Definition sign_locally (msg : SignPayloadRequest) (req : ApprovalRequest) (key : KeyRef) (blob : bytes)
    : state Server (SignPayloadResponse + rpc_error) :=
  '(resp, req) ← on_server (sa_SubmitSigned req);
  match resp with
  | Err e => mret (refused_by CodeInternal (wrap_w "approval: " e emp))
  | Ok (resp, signed) =>
    let out := mk_SignPayloadResponse (rq_request_id req) (bool_decide (rs_decision resp = DECISION_APPROVE))
      (rs_source resp) (rs_reason resp) emp signed in
    if negb (so_approved out) then mret (inl out)
    else
      signer ← gets (fun s => ks_Signer (kr_fingerprint key) (sv_rest s));
      match signer with
      | Err e => mret (refused_by CodeInternal (wrap_w "load key: " e emp))
      | Ok signer =>
        match SignBlob signer blob with
        | Err e => mret (refused_by CodeInternal e)
        | Ok inner =>
          _ ← report_signed req key;
          mret (inl (set_signature (armoured (signer_PublicKey signer) msg inner) out))
        end
      end
  end.

Definition SignPayload (msg : SignPayloadRequest) : state Server (SignPayloadResponse + rpc_error) :=
  if bool_decide (sp_payload msg = []) then mret (refused_by CodeInvalidArgument (errors_New "nothing to sign"))
  else if bool_decide (sp_namespace msg = emp) then mret (refused_by CodeInvalidArgument (errors_New "no SSHSIG namespace"))
  else
    found ← on_server (find_key (sp_public_key msg));
    match found with
    | Err e => mret (refused_by CodeNotFound e)
    | Ok (key, own) =>
      match SigningBlobFor (sp_namespace msg) (sp_hash_algorithm msg) (sp_payload msg) with
      | Err e => mret (refused_by CodeInvalidArgument e)
      | Ok blob =>
        req ← on_server (build_request msg key blob);
        if (own : bool) then sign_locally msg req key blob else sign_remotely msg req key
      end
    end.

End LocalApi.
Arguments mk_Server {P} _ _.
Arguments sv_rest {P} _.
Arguments sv_signed {P} _.
Arguments Server : clear implicits.
