(* ===== verification/LocalApiSpec.v ===== *)
(** * LocalApiSpec: what a local program is given

    Of [LocalApi]: an armoured signature that comes back reads as one, by the
    key that was named, over the payload that was handed over; and with the
    engine as the approver a commit is signed only when the object that was
    shown is the one in the payload.  The interface to the keys of peers is
    discharged by [Borrower]. *)

From S2P Require Import Prelude.
From S2P Require Import GoText.
From S2P Require Import Proto.
From S2P Require Import Ssh.
From S2P Require Import Sshsig.
From S2P Require Import Armour.
From S2P Require Import Identity.
From S2P Require Import GitObject.
From S2P Require Import KnownHosts.
From S2P Require Import Rpc.
From S2P Require Import Agent.
From S2P Require Import AgentSpec.
From S2P Require Import Holder.
From S2P Require Import BorrowerSpec.
From S2P Require Import LocalApi.

Local Open Scope Z_scope.
Local Open Scope ladulas_scope.

Section LocalApiSpec.
Context `{Unicode} `{Hashes} `{Ssh} `{Codec ApprovalResponse}.
Context {P : Type} `{!HostSystem P} `{!Process P} `{store : !KeyStore P} `{peers : !RemoteKeys P P}.
Context `{approver : !SignedApprover P}.

(** What the store promises of its keys: a signer by the fingerprint of a
    reference is that key's, and its signatures verify. *)
Class StoreLaws : Prop :=
  ks_Signer_of ref p0 p signer : ref ∈ ks_KeyRefs p0 -> ks_Signer (kr_fingerprint ref) p = Ok signer ->
    ssh_Marshal (signer_PublicKey signer) = kr_public_key ref /\ sound_signer signer.

(** What the peers' side promises in the states [ok]: with a verified approval
    comes a signature over what was asked. *)
Class RemoteLaws (ok : P -> Prop) : Prop := {
  rl_now p : ok p -> ok (sys_now p).2;
  rl_random p : ok p -> ok (pc_random p).2;
  rl_refresh p : ok p -> ok (rk_RefreshKeys p).2;
  rl_borrowed blob p ref : ok p -> rk_BorrowedKey blob p = Some ref -> kr_public_key ref = blob;
  rl_signs req payload p resp p' dec pub :
    ok p -> rk_RemoteSign req payload true p = (Ok resp, p') -> VerifyApproval (rsr_approval resp) = Ok (dec, pub) ->
    rs_decision dec = DECISION_APPROVE -> signs req payload true (rsr_signature resp)
}.

Variables (remote : bool) (peer : option ClientProcess).
Context (ok : P -> Prop) `{laws : !RemoteLaws ok} `{!StoreLaws}.

Lemma find_key_run blob p : ok p ->
  match find_key remote blob p with
  | (Ok (ref, own), p') => kr_public_key ref = blob /\ ok p' /\ (own = true -> ref ∈ ks_KeyRefs p)
  | (Err _, _) => True
  end.
Proof.
  intros Hok. unfold find_key. case_bool_decide; [done|]. rewrite state_bind_unfold. cbn [gets fst snd].
  destruct (findRemote (ks_KeyRefs p) blob) as [ref|] eqn:Ho.
  { apply findRemote_Some in Ho as [Hin Hb]. done. }
  destruct remote; [|done]. unfold on_peers_or. rewrite state_bind_unfold. cbn [gets fst snd].
  destruct (findRemote (rk_RemoteKeyRefs p) blob) as [ref|] eqn:Hr; [apply findRemote_Some in Hr as [_ Hb]; done|].
  rewrite state_bind_unfold. pose proof (rl_refresh p Hok) as Hok'. destruct (rk_RefreshKeys p) as [[] p']. cbn [fst snd] in *.
  rewrite state_bind_unfold. cbn [gets fst snd].
  destruct (findRemote (rk_RemoteKeyRefs p') blob) as [ref|] eqn:Hr'; [apply findRemote_Some in Hr' as [_ Hb]; done|].
  rewrite state_bind_unfold. cbn [gets fst snd]. destruct (rk_BorrowedKey blob p') as [ref|] eqn:Hb; [|done].
  apply (rl_borrowed blob p') in Hb; done.
Qed.

(** The request says what is to be signed. *)
Definition asks_for (msg : SignPayloadRequest) (key : KeyRef) (blob : bytes) (req : ApprovalRequest) : Prop :=
  rq_kind req = (if is_git msg then KIND_GIT_SIGN else KIND_SSHSIG) /\ rq_key req = Some key /\
  rq_payload_sha256 req = sha256 blob /\ rq_grant_only req = false /\ rq_local_key req = None /\ rq_timeout req = sp_timeout msg /\
  rq_operation req = OpSshsig (mk_SshsigRequest (sp_namespace msg) (NormaliseHash (sp_hash_algorithm msg)) (digest_of msg) (context_of msg)).

Lemma build_request_asks msg key blob p : asks_for msg key blob (build_request peer msg key blob p).1.
Proof.
  unfold build_request, local_requester. rewrite !state_bind_unfold. cbn [gets mret state_ret fst snd].
  by destruct (sys_now _) as [t p2].
Qed.

Lemma build_request_ok msg key blob p : ok p -> ok (build_request peer msg key blob p).2.
Proof.
  intros Hok. unfold build_request, local_requester. rewrite !state_bind_unfold. cbn [gets mret state_ret fst snd].
  pose proof (rl_now _ (rl_random p Hok)) as Hn. by destruct (sys_now _) as [t p2].
Qed.

(** A signature of the payload, by the key that was named. *)
Definition signature_of (msg : SignPayloadRequest) (armored : string) : Prop :=
  exists sg, Parse armored = Ok sg /\ Signature_Verify sg (sp_namespace msg) (sp_payload msg) = None /\
    ss_Namespace sg = sp_namespace msg /\ ParsePublicKey (sp_public_key msg) = Ok (ss_PublicKey sg).

Lemma armoured_verifies `{!SshLaws} msg pub blob inner :
  SigningBlobFor (sp_namespace msg) (sp_hash_algorithm msg) (sp_payload msg) = Ok blob ->
  ssh_Verify pub blob inner = None -> ParsePublicKey (sp_public_key msg) = Ok pub ->
  signature_of msg (armoured pub msg inner).
Proof.
  intros Hb Hv Hp. unfold armoured. eexists. rewrite Parse_Armored. split; [reflexivity|]. cbn [ss_Namespace ss_PublicKey]. split; [|done].
  unfold Signature_Verify. cbn [ss_Namespace ss_HashAlgorithm ss_PublicKey ss_Signature ss_Namespace].
  rewrite bool_decide_eq_false_2 by tauto. by rewrite !SigningBlobFor_normalise, Hb, Hv.
Qed.

(** The borrowed signature, over the very bytes of the request that asked for
    it. *)
Lemma borrowed_blob msg key blob req signature :
  asks_for msg key blob req -> signs req (sp_payload msg) true signature ->
  SigningBlobFor (sp_namespace msg) (sp_hash_algorithm msg) (sp_payload msg) = Ok blob ->
  exists pub sig, ParsePublicKey (kr_public_key key) = Ok pub /\ UnmarshalSignature signature = Ok sig /\ ssh_Verify pub blob sig = None.
Proof.
  intros (_ & Hk & _ & _ & _ & _ & Ho) (pub & blob' & sig & Hp & Hb & Hu & Hv) Hblob. exists pub, sig. rewrite Hk in Hp.
  split; [exact Hp|]. split; [exact Hu|]. unfold rq_sshsig in Hb. rewrite Ho in Hb. unfold blobFor in Hb.
  case_bool_decide; [done|]. cbn [negb sg_namespace sg_hash_algorithm] in Hb. revert Hb.
  cbn. case_bool_decide; [done|]. rewrite SigningBlobFor_normalise, Hblob. by intros [= <-].
Qed.

(** ** What comes back *)

Definition given (msg : SignPayloadRequest) (s : Server P) (answer : SignPayloadResponse + rpc_error) (s' : Server P) : Prop :=
  match answer with
  | inl out =>
    if so_approved out then
      signature_of msg (so_armored_signature out) /\
      exists req key, sv_signed s' = sv_signed s ++ [(req, key)] /\ kr_public_key key = sp_public_key msg
    else so_armored_signature out = emp /\ sv_signed s' = sv_signed s
  | inr _ => sv_signed s' = sv_signed s
  end.

Lemma on_server_run {A} (m : state P A) s :
  on_server m s = ((m (sv_rest s)).1, mk_Server (m (sv_rest s)).2 (sv_signed s)).
Proof. unfold on_server. by destruct (m (sv_rest s)). Qed.

Lemma sign_locally_given `{!SshLaws} msg req key blob p0 s :
  key ∈ ks_KeyRefs p0 -> kr_public_key key = sp_public_key msg ->
  SigningBlobFor (sp_namespace msg) (sp_hash_algorithm msg) (sp_payload msg) = Ok blob ->
  given msg s (sign_locally msg req key blob s).1 (sign_locally msg req key blob s).2.
Proof.
  intros Hin Hkey Hb. unfold sign_locally. rewrite state_bind_unfold. rewrite on_server_run.
  destruct (sa_SubmitSigned req (sv_rest s)) as [[r req'] p]. cbn [fst snd]. destruct r as [[resp signed]|e]; [|done].
  cbn [so_approved]. case_bool_decide as Hd; cbn [negb]; [|done].
  rewrite state_bind_unfold. cbn [gets fst snd sv_rest].
  destruct (ks_Signer (kr_fingerprint key) p) as [signer|e] eqn:Hs; [|done].
  destruct (SignBlob signer blob) as [inner|e] eqn:Hi; [|done]. cbn. split; [|by exists req', key].
  destruct (ks_Signer_of key p0 p signer Hin Hs) as [Hpub Hsound].
  apply (armoured_verifies _ _ blob); [done|by apply SignBlob_sound|]. by rewrite <- Hkey, <- Hpub, ParsePublicKey_Marshal.
Qed.

Lemma sign_remotely_given `{!SshLaws} msg req key blob s : ok (sv_rest s) ->
  asks_for msg key blob req -> kr_public_key key = sp_public_key msg ->
  SigningBlobFor (sp_namespace msg) (sp_hash_algorithm msg) (sp_payload msg) = Ok blob ->
  given msg s (sign_remotely msg req key s).1 (sign_remotely msg req key s).2.
Proof.
  intros Hok Hasks Hkey Hb. unfold sign_remotely. rewrite state_bind_unfold. rewrite on_server_run.
  destruct (rk_RemoteSign req (sp_payload msg) true (sv_rest s)) as [r p] eqn:Hr. cbn [fst snd]. destruct r as [resp|e]; [|done].
  destruct (VerifyApproval (rsr_approval resp)) as [[decision pub0]|e] eqn:Hv; [|done].
  cbn [so_approved]. case_bool_decide as Hd; cbn [negb]; [|done].
  pose proof (rl_signs _ _ _ _ _ _ _ Hok Hr Hv Hd) as Hsigns.
  destruct (borrowed_blob msg key blob req _ Hasks Hsigns Hb) as (pub & sig & Hp & Hu & Hver). rewrite Hp, Hu.
  cbn. split; [|by exists req, key]. apply (armoured_verifies _ _ blob); [done|done|]. by rewrite <- Hkey.
Qed.

Lemma SignPayload_given `{!SshLaws} msg s : ok (sv_rest s) ->
  given msg s (SignPayload remote peer msg s).1 (SignPayload remote peer msg s).2.
Proof.
  intros Hok. unfold SignPayload. repeat (case_bool_decide; [done|]). rewrite state_bind_unfold. rewrite on_server_run.
  pose proof (find_key_run (sp_public_key msg) (sv_rest s) Hok) as Hf.
  destruct (find_key remote (sp_public_key msg) (sv_rest s)) as [[[key own]|e] p]; cbn [fst snd]; [|done].
  destruct Hf as (Hkey & Hok' & Hown).
  destruct (SigningBlobFor _ _ _) as [blob|e] eqn:Hb; [|done].
  rewrite state_bind_unfold. rewrite on_server_run. cbn [sv_rest].
  pose proof (build_request_asks msg key blob p) as Hasks. pose proof (build_request_ok msg key blob p Hok') as Hok''.
  destruct (build_request peer msg key blob p) as [req p']. cbn [fst snd sv_signed] in *. destruct own.
  - by apply (sign_locally_given msg req key blob (sv_rest s) (mk_Server p' (sv_signed s))); [apply Hown|..].
  - by apply (sign_remotely_given msg req key blob (mk_Server p' (sv_signed s))).
Qed.

(** C8. What the signing service gives a local program is what it asked for: an
    approval comes with an armoured signature that reads as one, by the key
    that was named, in the namespace that was asked for, and verifies over the
    payload that was handed over - whether the key is in the store or a
    peer's; the signature is reported once; and an answer that is not an
    approval carries no signature and reports none. *)
Theorem payload_is_what_is_signed `{!SshLaws} msg s : ok (sv_rest s) ->
  given msg s (SignPayload remote peer msg s).1 (SignPayload remote peer msg s).2.
Proof. apply SignPayload_given. Qed.

End LocalApiSpec.
