(* ===== verification/LocalApiEngine.v ===== *)
(** * LocalApiEngine: the signing service over the approval engine

    The engine of [Engine] as the approver behind [LocalApi].  A commit is
    signed with a key held here only after its object was checked against the
    payload: what was put to the approvers, and what stands in the log, is the
    object that was signed. *)

From S2P Require Import Prelude.
From S2P Require Import GoText.
From S2P Require Import Proto.
From S2P Require Import Ssh.
From S2P Require Import Sshsig.
From S2P Require Import Armour.
From S2P Require Import Identity.
From S2P Require Import GitObject.
From S2P Require Import Asker.
From S2P Require Import Grants.
From S2P Require Import Prompt.
From S2P Require Import Inflight.
From S2P Require Import Engine.
From S2P Require Import EngineSpec.
From S2P Require Import Parked.
From S2P Require Import ParkedSpec.
From S2P Require Import KnownHosts.
From S2P Require Import Rpc.
From S2P Require Import Agent.
From S2P Require Import AgentEngine.
From S2P Require Import LocalApi.
From S2P Require Import LocalApiSpec.

Local Open Scope Z_scope.
Local Open Scope ladulas_scope.

Section LocalApiEngine.
Context `{Unicode} `{LocalTime} `{Hashes} `{keys : PrivateKeys}.
Context `{Codec ApprovalRequest} `{response : Codec ApprovalResponse} `{Codec Delegation} `{Codec Endorsement}.
Context {S : Type} `{GrantStore S} `{GrantUses S} `{DelegationStore S} `{EndorsementStore S}.
Context {R : Type}.
Context (e : Options).

#[export] Instance engine_signed_approver : SignedApprover (Program (S := S) (R := R)) := fun req p =>
  let n := pg_asked p in
  let '(r, w) := SubmitSigned e req (pg_race p n) (pg_shown p n) (pg_engine p) in
  ((r, prepared (pg_engine p) req), asked_once w p).

#[export] Instance engine_signed_laws : SignedApproverLaws (Program (S := S) (R := R)).
Proof.
  intros req p. unfold sa_SubmitSigned, engine_signed_approver. destruct (SubmitSigned _ _ _ _ _) as [r w]. apply prepared_keeps.
Qed.

(** A context that raised no problem is proven, or there is no object in it. *)
Lemma unproblematic_context req sig g :
  rq_operation req = OpSshsig sig -> sg_git_context sig = Some g -> gc_object g <> [] -> (VerifyRequest req).2 = emp ->
  exists g' o, rq_operation (VerifyRequest req).1 =
      OpSshsig (mk_SshsigRequest (sg_namespace sig) (sg_hash_algorithm sig) (sg_message_digest sig) (Some g')) /\
    object_signed g (sg_hash_algorithm sig) (sg_message_digest sig) o /\
    gc_verified_against_payload g' = true /\ gc_parsed g' = Some o /\ gc_object g' = gc_object g.
Proof.
  intros Ho Hg Hne. unfold VerifyRequest, rq_sshsig. rewrite Ho, Hg.
  destruct (Verify_cases g (sg_hash_algorithm sig) (sg_message_digest sig)) as (g' & err & -> & _ & Hc).
  destruct Hc as [(Hobj & _)|[(_ & [x ->] & _ & Hve & _)|(o & Hs & -> & ->)]]; [done| |].
  - cbn [snd]. intros Hp. exfalso. revert Hp. cbn. by case_bool_decide.
  - intros _. eexists _, o. split; [unfold set_git_context; by rewrite Ho|]. by split.
Qed.

Context `{!HostSystem (Program (S := S) (R := R))} `{!Process (Program (S := S) (R := R))}
  `{store : !KeyStore (Program (S := S) (R := R))} `{peers : !RemoteKeys (Program (S := S) (R := R)) (Program (S := S) (R := R))}.
Variables (remote : bool) (peer : option ClientProcess).

(** The request put to the approvers shows the object in the payload. *)
Definition shows_object (msg : SignPayloadRequest) (object : GitObject) (req : ApprovalRequest) : Prop :=
  rq_kind req = KIND_GIT_SIGN /\
  exists sig git, rq_operation req = OpSshsig sig /\ sg_namespace sig = GitNamespace /\ sg_git_context sig = Some git /\
    gc_verified_against_payload git = true /\ gc_parsed git = Some object /\ gc_object git = sp_payload msg.

Lemma prepared_shows msg key blob (w : world (S := S)) req :
  asks_for msg key blob req -> is_git msg = true -> sp_payload msg <> [] -> (VerifyRequest (numbered w req)).2 = emp ->
  exists object, ParseObject (sp_payload msg) = Ok object /\ shows_object msg object (prepared w req).
Proof.
  intros (Hk & _ & _ & _ & _ & _ & Ho) Hgit Hne Hp. rewrite Hgit in Hk. unfold context_of in Ho. rewrite Hgit in Ho.
  assert (rq_operation (numbered w req) = rq_operation req /\ rq_kind (numbered w req) = rq_kind req) as [Hno Hnk].
  { unfold numbered. split; repeat (case_bool_decide || case_match); done. }
  rewrite Ho in Hno.
  destruct (unproblematic_context _ _ _ Hno eq_refl Hne Hp) as (g' & object & Hop & (_ & _ & _ & Hparse) & Hv & Hpar & Hobj).
  exists object. split; [exact Hparse|]. split.
  - unfold prepared. destruct (VerifyRequest_keeps (numbered w req)) as [(Hq & _) _]. congruence.
  - eexists _, g'. split; [exact Hop|]. split; [by apply bool_decide_eq_true in Hgit|]. by split_and!.
Qed.

(** C7. A commit or a tag signed with a key held here was shown as what it is: the
    payload reads as a git object, the request that was decided shows that
    very object as proven by the digest that was signed, under that request
    the approval stands in the engine's log, and the signature is reported for
    that request. *)
Theorem commit_shown_is_commit_signed msg (s : Server (Program (S := S) (R := R))) out s' key p :
  sp_namespace msg = GitNamespace -> find_key remote (sp_public_key msg) (sv_rest s) = (Ok (key, true), p) ->
  SignPayload remote peer msg s = (inl out, s') -> so_approved out = true ->
  exists object req resp signed remote0 text mid blob p1,
    ParseObject (sp_payload msg) = Ok object /\ shows_object msg object req /\
    SigningBlobFor GitNamespace (sp_hash_algorithm msg) (sp_payload msg) = Ok blob /\ rq_payload_sha256 req = sha256 blob /\
    rq_key req = Some key /\ so_request_id out = rq_request_id req /\ so_approval out = signed /\
    p1 = (build_request peer msg key blob p).2 /\ rs_decision resp = DECISION_APPROVE /\
    w_trace (pg_engine (sv_rest s')) = w_trace (pg_engine p1) ++ [EfAudit (entry_request req)] ++ mid ++
      [EfAudit (entry_decision req resp signed remote0 text (pg_shown p1 (pg_asked p1)))] /\
    sv_signed s' = sv_signed s ++ [(req, key)].
Proof.
  intros Hns Hf Hs Happ. assert (is_git msg = true) as Hgit by by apply bool_decide_eq_true.
  revert Hs. unfold SignPayload. case_bool_decide as Hne; [by intros [= <- <-]|]. case_bool_decide; [by intros [= <- <-]|].
  rewrite state_bind_unfold, on_server_run, Hf. cbn [fst snd]. rewrite Hns.
  destruct (SigningBlobFor GitNamespace _ _) as [blob|x] eqn:Hb; [|by intros [= <- <-]].
  rewrite state_bind_unfold, on_server_run. cbn [sv_rest sv_signed].
  pose proof (build_request_asks peer msg key blob p) as Hasks.
  destruct (build_request peer msg key blob p) as [req p1] eqn:Hreq. cbn [fst snd] in *.
  unfold sign_locally. rewrite state_bind_unfold, on_server_run. cbn [sv_rest sv_signed].
  unfold sa_SubmitSigned, engine_signed_approver.
  destruct (SubmitSigned e req (pg_race p1 (pg_asked p1)) (pg_shown p1 (pg_asked p1)) (pg_engine p1)) as [r w] eqn:Es. cbn [fst snd].
  destruct r as [[resp signed]|x]; [|by intros [= <- <-]]. cbn [so_approved].
  case_bool_decide as Hd; cbn [negb]; [|intros [= <- <-]; done].
  rewrite state_bind_unfold. cbn [gets fst snd sv_rest].
  destruct (ks_Signer _ _) as [signer|x]; [|by intros [= <- <-]].
  destruct (SignBlob signer blob) as [inner|x]; [|by intros [= <- <-]]. cbn. intros [= <- <-].
  destruct (submit_run _ _ _ _ _ _ _ _ _ _ Es Hd) as (problem & rq & policy & w3 & r0 & rem0 & rq' & w4 & remote0 & text & mid
    & Hpr & Hm & _ & Hdec & Hd0 & Ht).
  apply approved_unproblematic in Hdec; [|done]. rewrite Hpr in Hdec.
  destruct (prepared_shows msg key blob (pg_engine p1) req Hasks Hgit Hne Hdec) as (object & Hparse & Hshows).
  destruct (prepared_keeps (pg_engine p1) req) as [(_ & Hk & _ & Hsha & _) _]. destruct Hasks as (_ & Hk' & Hsha' & _).
  exists object, (prepared (pg_engine p1) req), resp, signed, remote0, text, mid, blob, p1.
  split_and!; try done; try congruence. by rewrite Hreq.
Qed.

End LocalApiEngine.

(** ** A concrete program *)

Import Toy.
Import ToyKeys.
Import ToyAgent.

Module ToyLocal.

#[export] Instance nobody_lends : RemoteKeys program program := {|
  rk_RemoteKeyRefs _ := [];
  rk_RefreshKeys p := (tt, p);
  rk_BorrowedKey _ _ := None;
  rk_RemoteSign _ _ _ p := (Err (errors_New "nobody"), p) |}.

#[export] Instance nobody_laws : RemoteLaws (P := program) (fun _ => True).
Proof. by split. Qed.

#[export] Instance stored_laws : StoreLaws (P := program).
Proof.
  intros ref p0 p signer Hin Hs. apply list_elem_of_singleton in Hin as ->. unfold ks_Signer, key_store in Hs. cbn in Hs.
  injection Hs as <-. split; [done|]. apply signer_sound.
Qed.

Definition commit : bytes := of_string
  ("tree 4b825dc6" +:+ nl +:+ "author Ada <ada@example.org> 1786209283 +0200" +:+ nl +:+ nl +:+ "subject" +:+ nl).
Definition asked (payload : bytes) (namespace : string) : SignPayloadRequest :=
  mk_SignPayloadRequest [x6b] payload namespace emp None None.
Definition serving : Server program := mk_Server (toy_program []) [].
Definition sign_payload (payload : bytes) (namespace : string) :=
  SignPayload (approver := engine_signed_approver toy_options) true None (asked payload namespace) serving.

End ToyLocal.
Import ToyLocal.

Definition answered (payload : bytes) (namespace : string) : option (bool * bool * nat) :=
  match sign_payload payload namespace with
  | (inl out, s') => Some (so_approved out, is_ok (Parse (so_armored_signature out)), length (sv_signed s'))
  | (inr _, _) => None
  end.

(** A commit is signed; what is not an object is not, under the namespace of
    git; under another it is a file like any other; and nothing at all is
    refused. *)
Example what_is_answered :
  answered commit "git" = Some (true, true, 1%nat) /\ answered (of_string "not a commit") "git" = Some (false, false, 0%nat) /\
  answered (of_string "not a commit") "file" = Some (true, true, 1%nat) /\ answered [] "git" = None /\ answered commit emp = None.
Proof. vm_compute. done. Qed.

Lemma payload_is_what_is_signed_witness :
  given (asked commit "git") serving (sign_payload commit "git").1 (sign_payload commit "git").2.
Proof. exact (payload_is_what_is_signed true None (fun _ => True) (asked commit "git") serving I). Defined.

(** What a run answered, when it did. *)
Definition answer_of (x : (SignPayloadResponse + rpc_error) * Server program) : SignPayloadResponse :=
  match x.1 with inl out => out | inr _ => mk_SignPayloadResponse emp false SOURCE_UNSPECIFIED emp emp None end.
Lemma answer_of_ok x : match x.1 with inl _ => true | inr _ => false end = true -> x = (inl (answer_of x), x.2).
Proof. by destruct x as [[out|err] s]. Qed.

Lemma commit_shown_is_commit_signed_witness :
  exists object, ParseObject commit = Ok object /\ exists req, shows_object (asked commit "git") object req.
Proof.
  destruct (commit_shown_is_commit_signed toy_options true None (asked commit "git") serving (answer_of (sign_payload commit "git"))
    (sign_payload commit "git").2 stored (toy_program [])) as (object & req & _ & _ & _ & _ & _ & _ & _ & Hp & Hs & _).
  - reflexivity.
  - reflexivity.
  - unfold sign_payload. apply answer_of_ok. vm_compute. reflexivity.
  - vm_compute. reflexivity.
  - exists object. split; [exact Hp|]. exists req. exact Hs.
Defined.
