(* ===== verification/Diff.v ===== *)
(** * Diff: the context of a commit and the change it makes

    [pkg/gitctx/diff.go] and [collect.go]: the output of [git diff] read line
    by line into files, hunks and lines under limits, the counts of
    [git diff --numstat -z], which commits a diff is taken between, and the
    context that goes with a signing request.  Running git is the parameter [run]: its output for a list of
    arguments, or that it failed. *)

From S2P Require Import Prelude.
From S2P Require Import GoText.
From S2P Require Import Ssh.
From S2P Require Import Proto.
From S2P Require Import Identity.
From S2P Require Import GitObject.

Local Open Scope Z_scope.
Local Open Scope ladulas_scope.

Definition NL : ascii := ascii_of_N 10.
Definition TAB : ascii := ascii_of_N 9.
Definition NUL : ascii := ascii_of_N 0.

(** ** Limits *)

Record Limits := mk_Limits { lm_Bytes : Z; lm_Files : Z; lm_LinesPerFile : Z; lm_TotalLines : Z; lm_LineLength : Z }.

#[export] Instance Limits_eq_dec : EqDecision Limits.
Proof. solve_decision. Defined.

Definition DefaultLimits : Limits := mk_Limits (Z.shiftl 1 20) 200 2000 20000 2000.
Definition FullLimits : Limits := mk_Limits (Z.shiftl 8 20) 2000 100000 400000 4000.

Definition withDefaults (l : Limits) : Limits :=
  mk_Limits (if lm_Bytes l <=? 0 then lm_Bytes DefaultLimits else lm_Bytes l)
    (if lm_Files l <=? 0 then lm_Files DefaultLimits else lm_Files l)
    (if lm_LinesPerFile l <=? 0 then lm_LinesPerFile DefaultLimits else lm_LinesPerFile l)
    (if lm_TotalLines l <=? 0 then lm_TotalLines DefaultLimits else lm_TotalLines l)
    (if lm_LineLength l <=? 0 then lm_LineLength DefaultLimits else lm_LineLength l).

(** ** The parser

    [dp_hunk] is whether the last hunk of the file is open. *)

Record diffParser := mk_diffParser {
  dp_files : list GitDiffFile;
  dp_file : option GitDiffFile;
  dp_hunk : bool;
  dp_fileLines : Z;
  dp_totalLines : Z;
  dp_droppedFiles : Z;
  dp_droppedLines : Z;
  dp_lineTruncated : bool
}.

Definition set_file (f : GitDiffFile) (p : diffParser) : diffParser :=
  mk_diffParser (dp_files p) (Some f) (dp_hunk p) (dp_fileLines p) (dp_totalLines p) (dp_droppedFiles p) (dp_droppedLines p) (dp_lineTruncated p).
Definition set_hunk (h : bool) (p : diffParser) : diffParser :=
  mk_diffParser (dp_files p) (dp_file p) h (dp_fileLines p) (dp_totalLines p) (dp_droppedFiles p) (dp_droppedLines p) (dp_lineTruncated p).
Definition drop_line (p : diffParser) : diffParser :=
  mk_diffParser (dp_files p) (dp_file p) (dp_hunk p) (dp_fileLines p) (dp_totalLines p) (dp_droppedFiles p) (dp_droppedLines p + 1) (dp_lineTruncated p).
Definition count_line (p : diffParser) : diffParser :=
  mk_diffParser (dp_files p) (dp_file p) (dp_hunk p) (dp_fileLines p + 1) (dp_totalLines p + 1) (dp_droppedFiles p) (dp_droppedLines p) (dp_lineTruncated p).
Definition note_clipped (b : bool) (p : diffParser) : diffParser :=
  mk_diffParser (dp_files p) (dp_file p) (dp_hunk p) (dp_fileLines p) (dp_totalLines p) (dp_droppedFiles p) (dp_droppedLines p) (dp_lineTruncated p || b).

Definition set_paths (old new : string) (f : GitDiffFile) : GitDiffFile :=
  mk_GitDiffFile old new (gf_status f) (gf_insertions f) (gf_deletions f) (gf_binary f) (gf_mode_change f) (gf_hunks f) (gf_truncated f).
Definition set_status (s : string) (f : GitDiffFile) : GitDiffFile :=
  mk_GitDiffFile (gf_old_path f) (gf_new_path f) s (gf_insertions f) (gf_deletions f) (gf_binary f) (gf_mode_change f) (gf_hunks f) (gf_truncated f).
Definition set_mode (s : string) (f : GitDiffFile) : GitDiffFile :=
  mk_GitDiffFile (gf_old_path f) (gf_new_path f) (gf_status f) (gf_insertions f) (gf_deletions f) (gf_binary f) s (gf_hunks f) (gf_truncated f).
Definition set_binary (b : bool) (f : GitDiffFile) : GitDiffFile :=
  mk_GitDiffFile (gf_old_path f) (gf_new_path f) (gf_status f) (gf_insertions f) (gf_deletions f) b (gf_mode_change f) (gf_hunks f) (gf_truncated f).
Definition set_hunks (l : list GitDiffHunk) (f : GitDiffFile) : GitDiffFile :=
  mk_GitDiffFile (gf_old_path f) (gf_new_path f) (gf_status f) (gf_insertions f) (gf_deletions f) (gf_binary f) (gf_mode_change f) l (gf_truncated f).
Definition set_truncated (f : GitDiffFile) : GitDiffFile :=
  mk_GitDiffFile (gf_old_path f) (gf_new_path f) (gf_status f) (gf_insertions f) (gf_deletions f) (gf_binary f) (gf_mode_change f) (gf_hunks f) true.
Definition set_counts (ins del : Z) (f : GitDiffFile) : GitDiffFile :=
  mk_GitDiffFile (gf_old_path f) (gf_new_path f) (gf_status f) ins del (gf_binary f) (gf_mode_change f) (gf_hunks f) (gf_truncated f).

Definition added : string := "added".
Definition removed : string := "removed".
Definition modified : string := "modified".
Definition renamed : string := "renamed".
Definition copied : string := "copied".

Definition splitDiffHeader (line : string) : string * string :=
  let rest := TrimPrefix line "diff --git " in
  match CutAt rest " b/" with
  | Some (before, after) => (TrimPrefix before "a/", TrimPrefix (from_ 1 after) "b/")
  | None => (rest, rest)
  end.

(** [utf8.RuneStart]. *)
Definition RuneStart (c : ascii) : bool := negb (is_cont (Z.of_N (N_of_ascii c))).

(** The cut of [clip], moved back to where a rune starts. *)
Fixpoint cut_back (text : string) (cut : nat) : nat :=
  match cut with
  | O => O
  | S cut' =>
    match String.get cut text with
    | Some c => if RuneStart c then cut else cut_back text cut'
    | None => cut
    end
  end.

(** An entry of the path table: the last file of a path. *)
Fixpoint last_of (path : string) (l : list GitDiffFile) : option nat :=
  match l with
  | [] => None
  | f :: l' =>
    match last_of path l' with
    | Some i => Some (S i)
    | None => if bool_decide (gf_new_path f = path) then Some O else None
    end
  end.

Section Parser.
Variable limits : Limits.

(** What is left of a line, and whether it was cut. *)
Definition clip (text : string) : string * bool :=
  if str_len text <=? lm_LineLength limits then (text, false)
  else (upto (cut_back text (Z.to_nat (lm_LineLength limits))) text +:+ "…", true).

Definition closeFile (p : diffParser) : diffParser :=
  match dp_file p with
  | None => p
  | Some f => mk_diffParser (dp_files p ++ [f]) None false (dp_fileLines p) (dp_totalLines p) (dp_droppedFiles p) (dp_droppedLines p) (dp_lineTruncated p)
  end.

Definition new_file (old current : string) : GitDiffFile := mk_GitDiffFile old current modified 0 0 false emp [] false.

Definition startFile (line : string) (p : diffParser) : diffParser :=
  let p := closeFile p in
  if lm_Files limits <=? Z.of_nat (length (dp_files p))
  then mk_diffParser (dp_files p) None (dp_hunk p) (dp_fileLines p) (dp_totalLines p) (dp_droppedFiles p + 1) (dp_droppedLines p) (dp_lineTruncated p)
  else
    let '(old, current) := splitDiffHeader line in
    mk_diffParser (dp_files p) (Some (new_file old current)) false 0 (dp_totalLines p) (dp_droppedFiles p) (dp_droppedLines p) (dp_lineTruncated p).

Definition fileHeaderLine (line : string) (f : GitDiffFile) : GitDiffFile :=
  if HasPrefix line "new file mode " then set_status added f
  else if HasPrefix line "deleted file mode " then set_status removed f
  else if HasPrefix line "rename to " then set_paths (gf_old_path f) (TrimPrefix line "rename to ") (set_status renamed f)
  else if HasPrefix line "rename from " then set_paths (TrimPrefix line "rename from ") (gf_new_path f) (set_status renamed f)
  else if HasPrefix line "copy to " then set_paths (gf_old_path f) (TrimPrefix line "copy to ") (set_status copied f)
  else if HasPrefix line "copy from " then set_paths (TrimPrefix line "copy from ") (gf_new_path f) (set_status copied f)
  else if HasPrefix line "old mode " then set_mode (TrimPrefix line "old mode ") f
  else if HasPrefix line "new mode " then set_mode (TrimSpace (gf_mode_change f +:+ " → " +:+ TrimPrefix line "new mode ")) f
  else if HasPrefix line "Binary files " || HasPrefix line "GIT binary patch" then set_binary true f
  else f.

(** No more lines fit, in the file or in all. *)
Definition full (p : diffParser) : bool :=
  (lm_LinesPerFile limits <=? dp_fileLines p) || (lm_TotalLines limits <=? dp_totalLines p).

Definition startHunk (line : string) (f : GitDiffFile) (p : diffParser) : diffParser :=
  if full p then set_hunk false (set_file (set_truncated f) p)
  else
    let '(header, cut) := clip line in
    note_clipped cut (set_hunk true (set_file (set_hunks (gf_hunks f ++ [mk_GitDiffHunk header []]) f) p)).

Definition add_line (l : GitDiffLine) (hunks : list GitDiffHunk) : list GitDiffHunk :=
  match last hunks with
  | Some h => removelast hunks ++ [mk_GitDiffHunk (dh_header h) (dh_lines h ++ [l])]
  | None => hunks
  end.

(** What kind of line it is and its text, or that it belongs to no hunk. *)
Definition line_kind (line : string) : option (GitDiffLineKind * string) :=
  if HasPrefix line "+" then Some (LINE_ADDED, from_ 1 line)
  else if HasPrefix line "-" then Some (LINE_REMOVED, from_ 1 line)
  else if HasPrefix line " " then Some (LINE_CONTEXT, from_ 1 line)
  else if HasPrefix line "\" then Some (LINE_NOTE, TrimSpace (from_ 1 line))
  else None.

Definition hunkLine (line : string) (f : GitDiffFile) (p : diffParser) : diffParser :=
  if full p then drop_line (set_file (set_truncated f) p)
  else
    match line_kind line with
    | None => set_hunk false p
    | Some (kind, text) =>
      let '(text, cut) := clip text in
      note_clipped cut (count_line (set_file (set_hunks (add_line (mk_GitDiffLine kind text) (gf_hunks f)) f) p))
    end.

Definition line (p : diffParser) (line : string) : diffParser :=
  if HasPrefix line "diff --git " then startFile line p
  else
    match dp_file p with
    | None => p
    | Some f =>
      if HasPrefix line "@@" then startHunk line f p
      else if dp_hunk p then hunkLine line f p
      else set_file (fileHeaderLine line f) p
    end.

Definition run (raw : string) (p : diffParser) : diffParser :=
  foldl line p (Split (TrimSuffix raw (String NL EmptyString)) NL).

Definition finish (p : diffParser) : GitDiff :=
  let p := closeFile p in
  let notes :=
    (if 0 <? dp_droppedFiles p then [itoa (dp_droppedFiles p) +:+ " more files are not shown"] else []) ++
    (if 0 <? dp_droppedLines p then [itoa (dp_droppedLines p) +:+ " lines were left out to keep the diff a readable size"] else []) ++
    (if dp_lineTruncated p then ["some very long lines were cut"%string] else []) in
  mk_GitDiff (dp_files p) 0 0 0
    ((0 <? dp_droppedFiles p) || (0 <? dp_droppedLines p) || dp_lineTruncated p) (Join notes "; ") emp emp.

End Parser.

Definition new_parser : diffParser := mk_diffParser [] None false 0 0 0 0 false.

Definition ParseDiff (raw : bytes) (limits : Limits) : GitDiff :=
  let limits := withDefaults limits in
  finish (run limits (to_string raw) new_parser).

(** ** Counts *)

Record numstatEntry := mk_numstatEntry { ne_insertions : Z; ne_deletions : Z; ne_binary : bool; ne_path : string }.

Section Numstat.
Context `{Unicode}.

(** [strconv.ParseInt(field, 10, 32)], or zero. *)
Definition countOr (field : string) : Z :=
  match ParseInt64 field with
  | Ok n => if (- 2 ^ 31 <=? n) && (n <? 2 ^ 31) then n else 0
  | Err _ => 0
  end.

(** [strings.SplitN(s, "\t", 3)] when it has three parts. *)
Definition three_parts (s : string) : option (string * string * string) :=
  '(a, rest) ← Cut s TAB; '(b, c) ← Cut rest TAB; Some (a, b, c).

(** The fields from one on: a rename takes three. *)
Fixpoint entries (fields : list string) : list numstatEntry :=
  match fields with
  | [] => []
  | field :: rest =>
    match three_parts field with
    | None => entries rest
    | Some (ins, del, path) =>
      let entry := mk_numstatEntry (countOr ins) (countOr del) (bool_decide (ins = "-"%string) && bool_decide (del = "-"%string)) in
      match rest with
      | _ :: new :: rest' => if bool_decide (path = emp) then entry new :: entries rest' else entry path :: entries rest
      | _ => entry path :: entries rest
      end
    end
  end.

Definition parseNumstat (raw : bytes) : list numstatEntry :=
  entries (Split (TrimSuffix (to_string raw) (String NUL EmptyString)) NUL).

(** One entry: the totals, and the file of the path if there is one. *)
Definition apply_entry (d : GitDiff) (e : numstatEntry) : GitDiff :=
  mk_GitDiff
    (match last_of (ne_path e) (gd_files d) with
     | Some i => alter (fun f => set_binary (gf_binary f || ne_binary e) (set_counts (ne_insertions e) (ne_deletions e) f)) i (gd_files d)
     | None => gd_files d
     end)
    (i32 (gd_files_changed d + 1)) (i32 (gd_insertions d + ne_insertions e)) (i32 (gd_deletions d + ne_deletions e))
    (gd_truncated d) (gd_truncation_note d) (gd_range d) (gd_error d).

Definition applyNumstat (d : GitDiff) (raw : bytes) : GitDiff := foldl apply_entry d (parseNumstat raw).

(** ** Collecting *)

Variable run_git : list string -> option bytes.

Definition git_line (args : list string) : string :=
  match run_git args with Some out => TrimSpace (to_string out) | None => emp end.

Definition emptyTree : string := git_line ["hash-object"; "-t"; "tree"; "/dev/null"]%string.

Definition empty_and (to : string) : result (string * string) :=
  let empty := emptyTree in
  if bool_decide (empty = emp) then Err (errors_New "could not resolve the empty tree") else Ok (empty, to).

Definition diffRange (object : GitObject) : result (string * string) :=
  if bool_decide (go_type object = TypeCommit)
  then
    match go_parents object with
    | parent :: _ => Ok (parent, go_tree object)
    | [] => empty_and (go_tree object)
    end
  else if bool_decide (go_type object = TypeTag)
  then
    let target := go_tagged_object object in
    if bool_decide (go_tagged_type object <> TypeCommit)
    then Err (errors_New ("a tag on a " +:+ go_tagged_type object +:+ " has no diff"))
    else
      let parent := git_line ["rev-parse"; "--verify"; "--quiet"; target +:+ "^"]%string in
      if bool_decide (parent = emp) then empty_and target else Ok (parent, target)
  else Err (errors_New ("no diff for a " +:+ quote (go_type object) +:+ " object")).

Definition diffArgs (from to : string) (paths : list string) (extra : list string) : list string :=
  ["--no-pager"; "-c"; "core.quotePath=false"; "diff"; "--no-color"; "--no-ext-diff"; "--no-textconv";
    "--find-renames"; "--src-prefix=a/"; "--dst-prefix=b/"]%string ++ extra ++ [from; to; "--"%string] ++ paths.

Definition short (rev : string) : string := if 10 <? str_len rev then upto 10 rev else rev.
Definition shortRange (from to : string) : string := short from +:+ ".." +:+ short to.

Definition byteSize (n : Z) : string :=
  if Z.shiftl 1 20 <=? n then itoa (Z.shiftr n 20) +:+ " MiB"
  else if Z.shiftl 1 10 <=? n then itoa (Z.shiftr n 10) +:+ " KiB"
  else itoa n +:+ " bytes".

Definition failed_diff (range msg : string) : GitDiff := mk_GitDiff [] 0 0 0 false emp range msg.

Definition set_range (range : string) (d : GitDiff) : GitDiff :=
  mk_GitDiff (gd_files d) (gd_files_changed d) (gd_insertions d) (gd_deletions d) (gd_truncated d) (gd_truncation_note d) range (gd_error d).
Definition cut_off (n : Z) (d : GitDiff) : GitDiff :=
  mk_GitDiff (gd_files d) (gd_files_changed d) (gd_insertions d) (gd_deletions d) true
    (TrimPrefix (gd_truncation_note d +:+ "; the diff was cut off at " +:+ byteSize n) "; ") (gd_range d) (gd_error d).

Definition diff (object : GitObject) (limits : Limits) (paths : list string) : GitDiff :=
  match diffRange object with
  | Err e => failed_diff emp (e_msg e)
  | Ok (from, to) =>
    let limits := withDefaults limits in
    match run_git (diffArgs from to paths ["--patch"%string]) with
    | None => failed_diff (shortRange from to) "the diff could not be collected"
    | Some patch =>
      let capped := lm_Bytes limits <? Z.of_nat (length patch) in
      let patch := if capped then take (Z.to_nat (lm_Bytes limits)) patch else patch in
      let d := set_range (shortRange from to) (ParseDiff patch limits) in
      let d := if capped then cut_off (lm_Bytes limits) d else d in
      match run_git (diffArgs from to paths ["--numstat"; "-z"]%string) with
      | Some numstat => applyNumstat d numstat
      | None => d
      end
    end
  end.

Definition CollectDiff (payload : bytes) (limits : Limits) (paths : list string) : GitDiff :=
  match ParseObject payload with
  | Err e => failed_diff emp ("the object does not parse: " +:+ e_msg e)
  | Ok object => diff object (if bool_decide (limits = mk_Limits 0 0 0 0 0) then FullLimits else limits) paths
  end.

(** ** The context *)

Definition branch : string :=
  let name := git_line ["symbolic-ref"; "--short"; "HEAD"]%string in
  if bool_decide (name <> emp) then name
  else
    let head := git_line ["rev-parse"; "--short"; "HEAD"]%string in
    if bool_decide (head <> emp) then "detached at " +:+ head else emp.

Record Repository := mk_Repository { rp_Path : string; rp_OriginURL : string; rp_Branch : string; rp_Head : string }.

Definition InspectRepository : Repository :=
  mk_Repository (git_line ["rev-parse"; "--show-toplevel"]%string) (git_line ["config"; "--get"; "remote.origin.url"]%string)
    branch (git_line ["rev-parse"; "HEAD"]%string).

Context `{Hashes}.

Definition ProjectID (originURL path : string) : string :=
  let sum := sha256 (of_string ("ladulas-project-v1" +:+ String NUL originURL +:+ String NUL path)) in
  ToLower (base32_Encode (take 10 sum)).

(** What it is told besides where git runs: [Operation], [Limits], [SkipDiff]
    and [Paths]. *)
Record Options := mk_Options { op_Operation : string; op_Limits : Limits; op_SkipDiff : bool; op_Paths : list string }.

Definition set_diff (d : GitDiff) (g : GitContext) : GitContext :=
  mk_GitContext (gc_repository_path g) (gc_origin_url g) (gc_branch g) (gc_operation g) (Some d) (gc_project_id g)
    (gc_object_type g) (gc_object g) (gc_parsed g) (gc_verified_against_payload g) (gc_verification_error g).

Definition Collect (payload : bytes) (opts : Options) : GitContext :=
  let repository := git_line ["rev-parse"; "--show-toplevel"]%string in
  let origin := git_line ["config"; "--get"; "remote.origin.url"]%string in
  let project := if bool_decide (repository <> emp) then ProjectID origin repository else emp in
  let git := mk_GitContext repository origin branch (op_Operation opts) None project emp payload None false emp in
  match ParseObject payload with
  | Err _ => git
  | Ok object =>
    if op_SkipDiff opts then git
    else set_diff (diff object (op_Limits opts) (op_Paths opts)) git
  end.

End Numstat.
