(* ===== verification/DiffSpec.v ===== *)
(** * DiffSpec: what a diff that is shown leaves out

    Of [Diff]: a parsed diff stays within its limits whatever git printed; one
    that carries no mark of anything left out is the one that larger limits
    would have given; a change printed the way git prints it is read back as it
    was; and the totals are those of the counts git gives, whatever was capped. *)

From S2P Require Import Prelude.
From S2P Require Import GoText.
From S2P Require Import Ssh.
From S2P Require Import Sshsig.
From S2P Require Import Proto.
From S2P Require Import GitObject.
From S2P Require Import Diff.

Local Open Scope Z_scope.
Local Open Scope ladulas_scope.

(** ** Within the limits *)

(** The lines a file keeps, and those of all files. *)
Definition body (f : GitDiffFile) : list GitDiffLine := concat (map dh_lines (gf_hunks f)).
Definition bodies (l : list GitDiffFile) : list GitDiffLine := concat (map body l).

Definition fits_hunk (len : Z) (h : GitDiffHunk) : Prop :=
  str_len (dh_header h) <= len + 3 /\ Forall (fun l => str_len (dl_text l) <= len + 3) (dh_lines h).

Record positive (l : Limits) : Prop := {
  po_Files : 0 < lm_Files l;
  po_LinesPerFile : 0 < lm_LinesPerFile l;
  po_TotalLines : 0 < lm_TotalLines l;
  po_LineLength : 0 < lm_LineLength l
}.

Lemma withDefaults_positive l : positive (withDefaults l).
Proof. split; cbn; (case_match; [done|]); lia. Qed.

Lemma withDefaults_idem l : withDefaults (withDefaults l) = withDefaults l.
Proof.
  destruct (withDefaults_positive l) as [H1 H2 H3 H4].
  assert (0 < lm_Bytes (withDefaults l)) as H0 by (cbn; (case_match; [done|]); lia).
  destruct (withDefaults l) as [b f lpf t len]. unfold withDefaults. cbn in *.
  repeat match goal with |- context [?x <=? 0] => replace (x <=? 0) with false by (symmetry; lia) end. done.
Qed.

Lemma str_len_app a b : str_len (a +:+ b) = str_len a + str_len b.
Proof.
  unfold str_len. rewrite <-Nat2Z.inj_add. f_equal. induction a as [|c a IH]; [done|]. rewrite string_app_cons. cbn. by rewrite IH.
Qed.

Lemma length_upto n s : (String.length (upto n s) <= n)%nat.
Proof.
  unfold upto. revert s. induction n as [|n IH]; intros s; destruct s as [|c s]; cbn; try lia. specialize (IH s). lia.
Qed.

Lemma cut_back_le s n : (cut_back s n <= n)%nat.
Proof.
  induction n as [|n IH]; [done|]. cbn [cut_back]. destruct (String.get (S n) s) as [c|]; [|done]. destruct (RuneStart c); lia.
Qed.

Ltac parts := cbn [set_file set_hunk drop_line count_line note_clipped dp_files dp_file dp_hunk dp_fileLines dp_totalLines
  dp_droppedFiles dp_droppedLines dp_lineTruncated].

Section Bounds.
Variable limits : Limits.
Hypothesis limits_positive : positive limits.

Lemma clip_fits text : str_len (clip limits text).1 <= lm_LineLength limits + 3.
Proof.
  unfold clip. case_match eqn:Hlen; cbn [fst]; [lia|]. rewrite str_len_app.
  pose proof (length_upto (cut_back text (Z.to_nat (lm_LineLength limits))) text).
  pose proof (cut_back_le text (Z.to_nat (lm_LineLength limits))). destruct limits_positive.
  change (str_len "…") with 3. unfold str_len. lia.
Qed.

Definition fits_file (f : GitDiffFile) : Prop :=
  Z.of_nat (length (body f)) <= lm_LinesPerFile limits /\ Forall (fits_hunk (lm_LineLength limits)) (gf_hunks f).

Record within (p : diffParser) : Prop := {
  wi_files : Z.of_nat (length (dp_files p)) <= lm_Files limits;
  wi_fit : Forall fits_file (dp_files p);
  wi_open f : dp_file p = Some f -> Z.of_nat (length (dp_files p)) < lm_Files limits /\
    Z.of_nat (length (body f)) <= dp_fileLines p /\ Forall (fits_hunk (lm_LineLength limits)) (gf_hunks f);
  wi_file : dp_fileLines p <= lm_LinesPerFile limits;
  wi_counted : Z.of_nat (length (bodies (dp_files p ++ option_list (dp_file p)))) <= dp_totalLines p;
  wi_total : dp_totalLines p <= lm_TotalLines limits
}.

Lemma bodies_app a b : bodies (a ++ b) = bodies a ++ bodies b.
Proof. unfold bodies. by rewrite map_app, concat_app. Qed.

Lemma length_bodies l o :
  length (bodies (l ++ option_list o)) = (length (bodies l) + match o with Some f => length (body f) | None => 0 end)%nat.
Proof.
  rewrite bodies_app, length_app. f_equal. destruct o as [f|]; [|done]. unfold bodies. cbn. by rewrite app_nil_r.
Qed.

Lemma within_close p : within p -> within (closeFile p).
Proof.
  intros Hp. unfold closeFile. destruct (dp_file p) as [f|] eqn:Hf; [|exact Hp]. destruct Hp as [H1 H2 H3 H4 H5 H6].
  destruct (H3 f) as (Hlt & Hlen & Hfit); [done|]. split; parts; try done.
  - rewrite length_app. cbn. lia.
  - apply Forall_app. split; [done|]. constructor; [|done]. split; [lia|done].
  - rewrite Hf in H5. cbn in H5. by rewrite app_nil_r.
Qed.

(** The open file is another, with as many lines. *)
Lemma within_file p f f' : within p -> dp_file p = Some f -> gf_hunks f' = gf_hunks f -> within (set_file f' p).
Proof.
  intros [H1 H2 H3 H4 H5 H6] Hf Hh. assert (body f' = body f) as Hb by (unfold body; by rewrite Hh).
  split; parts; try done.
  - intros f0 [= <-]. rewrite Hb, Hh. by apply H3.
  - rewrite length_bodies, Hf in H5. rewrite length_bodies. by rewrite Hb.
Qed.

Lemma header_hunks line f : gf_hunks (fileHeaderLine line f) = gf_hunks f.
Proof. unfold fileHeaderLine. by repeat case_match. Qed.

Lemma within_hunk p h : within p -> within (set_hunk h p).
Proof. by intros [H1 H2 H3 H4 H5 H6]. Qed.
Lemma within_noted p b : within p -> within (note_clipped b p).
Proof. by intros [H1 H2 H3 H4 H5 H6]. Qed.
Lemma within_dropped p : within p -> within (drop_line p).
Proof. by intros [H1 H2 H3 H4 H5 H6]. Qed.

Lemma add_line_hunks l hunks : add_line l hunks = hunks \/ exists before h, hunks = before ++ [h] /\
  add_line l hunks = before ++ [mk_GitDiffHunk (dh_header h) (dh_lines h ++ [l])].
Proof.
  unfold add_line. destruct (last hunks) as [h|] eqn:Hlast; [|by left].
  apply last_Some in Hlast as [before ->]. right. exists before, h. by rewrite removelast_last.
Qed.

Lemma within_line p f h : within p -> dp_file p = Some f -> full limits p = false -> str_len (dl_text h) <= lm_LineLength limits + 3 ->
  within (count_line (set_file (set_hunks (add_line h (gf_hunks f)) f) p)).
Proof.
  intros [H1 H2 H3 H4 H5 H6] Hf Hroom Hlen. destruct (H3 f Hf) as (Hlt & Hbody & Hfit). unfold full in Hroom.
  assert (Z.of_nat (length (body (set_hunks (add_line h (gf_hunks f)) f))) <= Z.of_nat (length (body f)) + 1 /\
    Forall (fits_hunk (lm_LineLength limits)) (add_line h (gf_hunks f))) as [Hb Hh].
  { unfold body. cbn [set_hunks gf_hunks]. destruct (add_line_hunks h (gf_hunks f)) as [-> | (before & k & Hk & ->)].
    - split; [lia|done].
    - rewrite Hk in *. apply Forall_app in Hfit as [Hb Hk']. apply Forall_singleton in Hk' as [Hh Hl]. split.
      + rewrite !map_app, !concat_app, !length_app. cbn. rewrite !app_nil_r, length_app. cbn. lia.
      + apply Forall_app. split; [done|]. apply Forall_singleton. split; [done|]. apply Forall_app. split; [done|]. by apply Forall_singleton. }
  rewrite length_bodies, Hf in H5.
  split; parts; try done; try lia.
  - intros f0 [= <-]. parts. split_and!; [done|lia|done].
  - rewrite length_bodies. lia.
Qed.

Lemma within_step p l : within p -> within (line limits p l).
Proof.
  intros Hp. unfold line. case_match.
  { unfold startFile. pose proof (within_close p Hp) as [H1 H2 H3 H4 H5 H6].
    destruct (dp_file (closeFile p)) eqn:Hnone; [unfold closeFile in Hnone; by destruct (dp_file p) eqn:?; cbn in *; simplify_eq|].
    rewrite length_bodies, ?Hnone in H5. case_match.
    - split; parts; try done. rewrite app_nil_r. lia.
    - destruct (splitDiffHeader l) as [old current]. destruct limits_positive. split; parts; try done; try lia.
      + intros f [= <-]. cbn. split_and!; [lia|done|constructor].
      + rewrite length_bodies. cbn. lia. }
  destruct (dp_file p) as [f|] eqn:Hf; [|done]. case_match.
  { unfold startHunk. case_match; [by apply within_hunk, (within_file _ f)|].
    destruct (clip limits l) as [header cut] eqn:Hclip. apply within_noted, within_hunk.
    pose proof (clip_fits l) as Hlen. rewrite Hclip in Hlen. destruct Hp as [B1 B2 B3 B4 B5 B6].
    destruct (B3 f Hf) as (Hlt & Hbody & Hfit).
    assert (body (set_hunks (gf_hunks f ++ [mk_GitDiffHunk header []]) f) = body f) as Hb.
    { unfold body. cbn. rewrite map_app, concat_app. cbn. by rewrite app_nil_r. }
    split; parts; try done.
    - intros f0 [= <-]. rewrite Hb. split_and!; [done|done|]. cbn. apply Forall_app. split; [done|].
      apply Forall_singleton. split; [exact Hlen|constructor].
    - rewrite length_bodies, Hf in B5. rewrite length_bodies. by rewrite Hb. }
  case_match; [|by apply (within_file _ f); [..|apply header_hunks]].
  unfold hunkLine. case_match; [by apply within_dropped, (within_file _ f)|].
  destruct (line_kind l) as [[kind text]|]; [|by apply within_hunk].
  destruct (clip limits text) as [text' cut] eqn:Hclip. apply within_noted, within_line; try done.
  cbn. pose proof (clip_fits text) as Hlen. by rewrite Hclip in Hlen.
Qed.

Lemma within_lines l p : within p -> within (foldl (line limits) p l).
Proof. revert p. induction l as [|x l IH]; intros p Hp; [done|]. apply IH. by apply within_step. Qed.

Lemma within_new : within new_parser.
Proof. destruct limits_positive. split; cbn; try done; lia. Qed.

End Bounds.

(** Whatever git printed, and whatever limits were asked for, a parsed diff has
    no more files than the limits in force, no file more lines, all of them
    together no more lines, and no header or line is longer than a line may be
    and the ellipsis that marks a cut. *)
Theorem diff_stays_within raw limits : let d := ParseDiff raw limits in let l := withDefaults limits in
  Z.of_nat (length (gd_files d)) <= lm_Files l /\
  Z.of_nat (length (bodies (gd_files d))) <= lm_TotalLines l /\
  (forall f, f ∈ gd_files d -> Z.of_nat (length (body f)) <= lm_LinesPerFile l /\ Forall (fits_hunk (lm_LineLength l)) (gf_hunks f)).
Proof.
  cbv zeta. pose proof (withDefaults_positive limits) as Hpos.
  destruct (within_close _ _ (within_lines _ Hpos (Split (TrimSuffix (to_string raw) (String NL EmptyString)) NL) _ (within_new _ Hpos)))
    as [H1 H2 H3 H4 H5 H6].
  unfold ParseDiff, finish, run. cbn [gd_files]. split_and!; [done| |].
  - assert (forall q, dp_file (closeFile q) = None) as Hnone by (intros q; unfold closeFile; by destruct (dp_file q) eqn:?).
    rewrite Hnone, app_nil_r in H5. lia.
  - intros f Hf. rewrite Forall_forall in H2. by apply H2.
Qed.

(** ** What is left out is marked *)

(** The mark a reader of a diff can see. *)
Definition left_out (d : GitDiff) : bool := gd_truncated d || existsb gf_truncated (gd_files d).

Definition no_smaller (l l' : Limits) : Prop :=
  lm_Files l <= lm_Files l' /\ lm_LinesPerFile l <= lm_LinesPerFile l' /\
  lm_TotalLines l <= lm_TotalLines l' /\ lm_LineLength l <= lm_LineLength l'.

(** The parser has left something out. *)
Definition marked (p : diffParser) : Prop :=
  Exists (fun f => gf_truncated f = true) (dp_files p ++ option_list (dp_file p)) \/
  0 < dp_droppedFiles p \/ 0 < dp_droppedLines p \/ dp_lineTruncated p = true.

Definition counting (p : diffParser) : Prop := 0 <= dp_droppedFiles p /\ 0 <= dp_droppedLines p.

Lemma marked_file p f f' : dp_file p = Some f -> (gf_truncated f = true -> gf_truncated f' = true) -> marked p -> marked (set_file f' p).
Proof.
  intros Hf Ht [Hm|Hm]; [left|by right]. parts. rewrite Hf in Hm. cbn [option_list] in *.
  apply Exists_app in Hm as [Hm|Hm]; apply Exists_app; [by left|right]. apply Exists_cons in Hm as [Hm|Hm%Exists_nil]; [|done].
  apply Exists_cons. left. by apply Ht.
Qed.

Lemma marked_truncated p f : marked (set_file (set_truncated f) p).
Proof. left. parts. apply Exists_app. right. by apply Exists_cons; left. Qed.

Lemma closeFile_marked p : marked (closeFile p) <-> marked p.
Proof.
  unfold closeFile, marked. destruct (dp_file p) as [f|] eqn:Hf; [|by rewrite Hf]. parts. cbn [option_list]. by rewrite app_nil_r.
Qed.

Lemma header_truncated line f : gf_truncated (fileHeaderLine line f) = gf_truncated f.
Proof. unfold fileHeaderLine. by repeat case_match. Qed.

Lemma marked_noted b p : marked p -> marked (note_clipped b p).
Proof. intros [Hm|[Hm|[Hm|Hm]]]; [by left|by right; left|by right; right; left|]. right. right. right. parts. by rewrite Hm. Qed.

Lemma marked_stays limits p l : counting p -> marked p -> marked (line limits p l).
Proof.
  intros [Hc1 Hc2] Hm. unfold line. case_match.
  { unfold startFile. apply closeFile_marked in Hm.
    assert (dp_file (closeFile p) = None) as Hnone by (unfold closeFile; by destruct (dp_file p) eqn:?).
    assert (dp_droppedFiles (closeFile p) = dp_droppedFiles p) as Hd by (unfold closeFile; by destruct (dp_file p)).
    unfold marked in Hm. rewrite Hnone in Hm. case_match.
    - right. left. parts. lia.
    - destruct (splitDiffHeader l) as [old current]. destruct Hm as [Hm|Hm]; [left|by right]. parts.
      cbn [option_list] in *. rewrite app_nil_r in Hm. apply Exists_app. by left. }
  destruct (dp_file p) as [f|] eqn:Hf; [|done]. case_match.
  { unfold startHunk. case_match; [exact (marked_truncated (set_hunk false p) f)|].
    destruct (clip limits l) as [header cut]. apply marked_noted. by apply (marked_file (set_hunk true p) f). }
  case_match; [|by apply (marked_file _ f); [done|rewrite header_truncated|]].
  unfold hunkLine. case_match; [exact (marked_truncated (drop_line p) f)|].
  destruct (line_kind l) as [[kind text]|]; [|done].
  destruct (clip limits text) as [text' cut]. apply marked_noted. by apply (marked_file (count_line p) f).
Qed.

Lemma counting_step limits p l : counting p -> counting (line limits p l).
Proof.
  intros Hc. unfold line, startFile, startHunk, hunkLine, closeFile. repeat case_match; unfold counting in *; parts; try done; cbn in *; lia.
Qed.

Lemma full_larger limits limits' p : no_smaller limits limits' -> full limits p = false -> full limits' p = false.
Proof. unfold full. intros (_ & H1 & H2 & _). lia. Qed.

Lemma clip_larger limits limits' text : no_smaller limits limits' -> (clip limits text).2 = false -> clip limits' text = clip limits text.
Proof.
  intros (_ & _ & _ & Hlen). unfold clip. destruct (str_len text <=? lm_LineLength limits) eqn:Hl; [|done]. intros _.
  by replace (str_len text <=? lm_LineLength limits') with true by (symmetry; lia).
Qed.

Lemma line_larger limits limits' p l : no_smaller limits limits' -> counting p ->
  marked (line limits p l) \/ line limits' p l = line limits p l.
Proof.
  intros Hle Hc. unfold line. case_match.
  { unfold startFile. case_match.
    - left. right. left. parts. unfold counting, closeFile in *. case_match; parts; cbn in *; lia.
    - right. replace (lm_Files limits' <=? Z.of_nat (length (dp_files (closeFile p)))) with false; [done|].
      symmetry. destruct Hle. lia. }
  destruct (dp_file p) as [f|] eqn:Hf; [|by right]. case_match.
  { unfold startHunk. destruct (full limits p) eqn:Hfull; [left; exact (marked_truncated (set_hunk false p) f)|].
    rewrite (full_larger limits limits') by done.
    destruct (clip limits l) as [header [|]] eqn:Hclip; [left; right; right; right; apply orb_true_r|].
    right. rewrite (clip_larger limits limits') by (try done; by rewrite Hclip). by rewrite Hclip. }
  case_match; [|by right]. unfold hunkLine.
  destruct (full limits p) eqn:Hfull; [left; exact (marked_truncated (drop_line p) f)|]. rewrite (full_larger limits limits') by done.
  destruct (line_kind l) as [[kind text]|]; [|by right].
  destruct (clip limits text) as [text' [|]] eqn:Hclip; [left; right; right; right; apply orb_true_r|].
  right. rewrite (clip_larger limits limits') by (try done; by rewrite Hclip). by rewrite Hclip.
Qed.

Lemma lines_larger limits limits' l p : no_smaller limits limits' -> counting p ->
  marked (foldl (line limits) p l) \/ foldl (line limits') p l = foldl (line limits) p l.
Proof.
  intros Hle. revert p. induction l as [|x l IH]; intros p Hc; [by right|]. cbn [foldl].
  assert (counting (line limits p x)) as Hc' by by apply counting_step.
  destruct (line_larger limits limits' p x Hle Hc) as [Hm| ->]; [left|by apply IH].
  clear IH. revert Hm Hc'. generalize (line limits p x). clear Hc p. induction l as [|y l IH]; intros p Hm Hc; [done|].
  cbn. apply IH; [by apply marked_stays|by apply counting_step].
Qed.

Lemma finish_marked p : marked p -> left_out (finish p) = true.
Proof.
  intros Hm%closeFile_marked. unfold left_out, finish. cbn [gd_truncated gd_files].
  assert (dp_file (closeFile p) = None) as Hnone by (unfold closeFile; by destruct (dp_file p) eqn:?).
  unfold marked in Hm. rewrite Hnone in Hm. cbn [option_list] in Hm. rewrite app_nil_r in Hm.
  destruct Hm as [Hm|[Hm|[Hm|Hm]]].
  - apply orb_true_intro. right. apply existsb_exists. apply Exists_exists in Hm as (f & Hf & Ht). exists f. by rewrite list_elem_of_In in Hf.
  - replace (0 <? dp_droppedFiles (closeFile p)) with true by (symmetry; lia). done.
  - replace (0 <? dp_droppedLines (closeFile p)) with true by (symmetry; lia). by rewrite orb_true_r.
  - by rewrite Hm, orb_true_r.
Qed.

Lemma parse_larger raw limits limits' :
  no_smaller (withDefaults limits) (withDefaults limits') ->
  left_out (ParseDiff raw limits) = false ->
  ParseDiff raw limits' = ParseDiff raw limits.
Proof.
  intros Hle Hout. unfold ParseDiff in *. unfold run in *.
  destruct (lines_larger _ _ (Split (TrimSuffix (to_string raw) (String NL EmptyString)) NL) new_parser Hle) as [Hm| ->]; [by split| |done].
  apply finish_marked in Hm. congruence.
Qed.

Section Collected.
Context `{Unicode}.
Variable run_git : list string -> option bytes.

Lemma left_out_entry d e : left_out (apply_entry d e) = left_out d.
Proof.
  unfold left_out, apply_entry. cbn. f_equal. destruct (last_of (ne_path e) (gd_files d)) as [i|]; [|done].
  generalize (gd_files d). clear. induction i as [|i IH]; intros [|f l]; cbn; try done. f_equal. apply IH.
Qed.

Lemma left_out_numstat d raw : left_out (applyNumstat d raw) = left_out d.
Proof.
  unfold applyNumstat. generalize (parseNumstat raw). intros l. revert d. induction l as [|e l IH]; intros d; [done|].
  cbn. by rewrite IH, left_out_entry.
Qed.

(** C39. A diff that was collected with no mark on it, on itself or on any of its
    files, is whole: with larger limits, those of the bytes read from git
    included, it would have been the same. *)
Theorem unmarked_diff_is_whole object limits limits' paths :
  no_smaller (withDefaults limits) (withDefaults limits') -> lm_Bytes (withDefaults limits) <= lm_Bytes (withDefaults limits') ->
  left_out (diff run_git object limits paths) = false ->
  diff run_git object limits' paths = diff run_git object limits paths.
Proof.
  intros Hle Hbytes. unfold diff. destruct (diffRange run_git object) as [[from to]|e]; [|done].
  destruct (run_git (diffArgs from to paths ["--patch"%string])) as [patch|]; [|done].
  destruct (lm_Bytes (withDefaults limits) <? Z.of_nat (length patch)) eqn:Hcap.
  - destruct (run_git _) as [numstat|]; [rewrite left_out_numstat|]; done.
  - replace (lm_Bytes (withDefaults limits') <? Z.of_nat (length patch)) with false by (symmetry; lia). intros Hout.
    assert (left_out (ParseDiff patch (withDefaults limits)) = false) as Hparsed.
    { destruct (run_git (diffArgs from to paths ["--numstat"; "-z"]%string)); [rewrite left_out_numstat in Hout|]; exact Hout. }
    rewrite (parse_larger patch (withDefaults limits) (withDefaults limits')); [done| |done].
    by rewrite !withDefaults_idem.
Qed.

(** The counts are git's, whatever was capped: the totals are those of the
    entries git gave, and do not depend on the limits. *)
Lemma numstat_totals d raw : let d' := applyNumstat d raw in
  gd_files_changed d' = foldl (fun n _ => i32 (n + 1)) (gd_files_changed d) (parseNumstat raw) /\
  gd_insertions d' = foldl (fun n e => i32 (n + ne_insertions e)) (gd_insertions d) (parseNumstat raw) /\
  gd_deletions d' = foldl (fun n e => i32 (n + ne_deletions e)) (gd_deletions d) (parseNumstat raw).
Proof.
  unfold applyNumstat. generalize (parseNumstat raw). intros l. revert d. induction l as [|e l IH]; intros d; [done|]. cbn [foldl].
  apply IH.
Qed.

Context `{Hashes}.

Lemma Collect_object payload opts : gc_object (Collect run_git payload opts) = payload.
Proof. unfold Collect. destruct (ParseObject payload); [|done]. by destruct (op_SkipDiff opts). Qed.

Lemma digest_is_not_empty `{!HashLaws} alg m d : Hash alg m = Ok d -> d <> [].
Proof.
  unfold Hash. intros Hd ->. repeat case_match; try done; injection Hd as Hd.
  - pose proof (sha512_length m) as Hl. by rewrite Hd in Hl.
  - pose proof (sha256_length m) as Hl. by rewrite Hd in Hl.
Qed.

(** What the requesting side collects for a payload is what the approving side
    finds proven by the digest of that payload: the check says yes, and the
    object shown is the one read from the payload, with the repository, the
    branch and the diff as they were collected beside it. *)
Theorem collected_context_verifies `{!HashLaws} payload opts object alg digest :
  ParseObject payload = Ok object -> Hash alg payload = Ok digest ->
  exists git, Verify (Some (Collect run_git payload opts)) alg digest = (Some git, None) /\
    gc_verified_against_payload git = true /\ gc_verification_error git = emp /\
    gc_parsed git = Some object /\ gc_object_type git = go_type object /\ gc_object git = payload /\
    gc_diff git = (if op_SkipDiff opts then None else Some (diff run_git object (op_Limits opts) (op_Paths opts))) /\
    gc_project_id git =
      (if bool_decide (gc_repository_path git = emp) then emp else ProjectID (gc_origin_url git) (gc_repository_path git)).
Proof.
  intros Hparse Hd.
  assert (payload <> []) as Hne by (intros ->; vm_compute in Hparse; discriminate).
  unfold Verify. rewrite (bool_decide_eq_false_2 (gc_object _ = [])) by (cbn; by rewrite Collect_object).
  rewrite (bool_decide_eq_false_2 (digest = [])) by (by eapply digest_is_not_empty).
  cbn [gc_object gc_verdict]. rewrite Collect_object, Hd, bool_decide_eq_false_2 by (by intros []).
  unfold Describe. cbn [gc_object gc_described gc_verdict]. rewrite Collect_object, Hparse. eexists. split; [reflexivity|].
  cbn. rewrite Collect_object. unfold Collect. rewrite Hparse.
  destruct (op_SkipDiff opts); cbn; split_and!; try done;
    by destruct (git_line run_git ["rev-parse"; "--show-toplevel"]%string).
Qed.

End Collected.

(** ** Reading back what git prints

    A change, as git prints one with the options the source pins: the header
    of a file with its paths, the lines that say what became of the file, and
    its hunks. *)

Inductive git_change :=
| Modified
| Added (mode : string)
| Deleted (mode : string)
| Renamed (similarity : string)
| Copied (similarity : string).

Record git_file := mk_git_file {
  pf_old : string;
  pf_new : string;
  pf_change : git_change;
  pf_modes : option (string * string);
  pf_binary : bool;
  pf_hunks : list GitDiffHunk
}.

Definition print_line (l : GitDiffLine) : string :=
  match dl_kind l with
  | LINE_ADDED => "+" +:+ dl_text l
  | LINE_REMOVED => "-" +:+ dl_text l
  | LINE_NOTE => "\ " +:+ dl_text l
  | LINE_CONTEXT | LINE_UNSPECIFIED => " " +:+ dl_text l
  end.
Definition print_hunk (h : GitDiffHunk) : list string := dh_header h :: map print_line (dh_lines h).

Definition print_change (f : git_file) : list string :=
  match pf_change f with
  | Modified => []
  | Added mode => ["new file mode " +:+ mode]
  | Deleted mode => ["deleted file mode " +:+ mode]
  | Renamed s => ["similarity index " +:+ s; "rename from " +:+ pf_old f; "rename to " +:+ pf_new f]
  | Copied s => ["similarity index " +:+ s; "copy from " +:+ pf_old f; "copy to " +:+ pf_new f]
  end.

Definition print_modes (f : git_file) : list string :=
  match pf_modes f with Some (a, b) => ["old mode " +:+ a; "new mode " +:+ b] | None => [] end.

Definition old_side (f : git_file) : string :=
  match pf_change f with Added _ => "/dev/null"%string | _ => "a/" +:+ pf_old f end.
Definition new_side (f : git_file) : string :=
  match pf_change f with Deleted _ => "/dev/null"%string | _ => "b/" +:+ pf_new f end.

Definition one_line (s : string) : Prop := byte_of_ascii NL ∉ of_string s.

(** A name on a line of its own; a tab marks the end of one with blanks. *)
Definition ends_name (name text : string) : Prop := text = name \/ text = name +:+ String TAB EmptyString.

(** What stands between what became of a file and its hunks: nothing when its
    contents are the same, as for a change of mode or a rename alone; the blobs
    only when there is nothing to compare line by line, as for an empty file;
    that the contents differ, for binary ones; or the names of the two sides. *)
Inductive git_content (f : git_file) : list string -> Prop :=
| content_same : pf_hunks f = [] -> pf_binary f = false -> git_content f []
| content_empty index : pf_hunks f = [] -> pf_binary f = false -> one_line index -> git_content f ["index " +:+ index]
| content_binary index : pf_hunks f = [] -> pf_binary f = true -> one_line index ->
    git_content f ["index " +:+ index; "Binary files " +:+ old_side f +:+ " and " +:+ new_side f +:+ " differ"]
| content_text index a b : pf_hunks f <> [] -> pf_binary f = false -> one_line index ->
    ends_name (old_side f) a -> ends_name (new_side f) b ->
    git_content f ["index " +:+ index; "--- " +:+ a; "+++ " +:+ b].

Definition git_prints (f : git_file) (lines : list string) : Prop :=
  exists content, git_content f content /\
    lines = ("diff --git a/" +:+ pf_old f +:+ " b/" +:+ pf_new f) ::
      (print_modes f ++ print_change f ++ content) ++ concat (map print_hunk (pf_hunks f)).

Definition git_diff (fs : list git_file) (out : bytes) : Prop :=
  exists printed, Forall2 git_prints fs printed /\
    out = of_string (Join (concat printed) (String NL EmptyString) +:+ String NL EmptyString).

(** What an approver is to see of a file. *)
Definition status_of (c : git_change) : string :=
  match c with
  | Modified => modified | Added _ => added | Deleted _ => removed | Renamed _ => renamed | Copied _ => copied
  end.
Definition shown (f : git_file) : GitDiffFile :=
  mk_GitDiffFile (pf_old f) (pf_new f) (status_of (pf_change f)) 0 0 (pf_binary f)
    (match pf_modes f with Some (a, b) => a +:+ " → " +:+ b | None => emp end) (pf_hunks f) false.

(** *** What can be read back *)

(** A path git writes as it is, with [core.quotePath] off: no control
    character, no quotation mark and no backslash. *)
Definition unquoted (path : string) : Prop :=
  Forall (fun c => 32 <= byte_val c /\ byte_val c <> 34 /\ byte_val c <> 92 /\ byte_val c <> 127) (of_string path).

Record line_ok (limits : Limits) (l : GitDiffLine) : Prop := {
  lo_kind : dl_kind l <> LINE_UNSPECIFIED;
  lo_one : one_line (dl_text l);
  lo_short : str_len (dl_text l) <= lm_LineLength limits;
  lo_note : dl_kind l = LINE_NOTE -> TrimSpace (" " +:+ dl_text l) = dl_text l
}.

Record hunk_ok (limits : Limits) (h : GitDiffHunk) : Prop := {
  ko_header : HasPrefix (dh_header h) "@@" = true;
  ko_one : one_line (dh_header h);
  ko_short : str_len (dh_header h) <= lm_LineLength limits;
  ko_lines : Forall (line_ok limits) (dh_lines h)
}.

(** The paths are written as they are, the old one has nothing that looks like
    the end of the first path of the header, and the modes no space around
    them. *)
Record file_ok (limits : Limits) (f : git_file) : Prop := {
  fo_old : unquoted (pf_old f);
  fo_new : unquoted (pf_new f);
  fo_path : CutAt ("a/" +:+ pf_old f) " b/" = None;
  fo_change : match pf_change f with Modified => True | Added s | Deleted s | Renamed s | Copied s => one_line s end;
  fo_modes : match pf_modes f with
             | Some (a, b) => one_line a /\ one_line b /\ TrimSpace (a +:+ " → " +:+ b) = a +:+ " → " +:+ b
             | None => True
             end;
  fo_hunks : Forall (hunk_ok limits) (pf_hunks f);
  fo_room : Z.of_nat (length (concat (map dh_lines (pf_hunks f)))) < lm_LinesPerFile limits
}.

Lemma substring_all s : String.substring 0 (String.length s) s = s.
Proof. induction s as [|c s IH]; [done|]. cbn. by rewrite IH. Qed.

Lemma from_1 c s : from_ 1 (String c s) = s.
Proof. unfold from_. cbn [String.length]. rewrite Nat.sub_succ, Nat.sub_0_r. cbn. apply substring_all. Qed.

Lemma substring_app_l a b : String.substring 0 (String.length a) (a +:+ b) = a.
Proof. induction a as [|c a IH]; [by destruct b|]. rewrite string_app_cons. cbn. by rewrite IH. Qed.

Lemma substring_app_r a b : String.substring (String.length a) (String.length b) (a +:+ b) = b.
Proof. induction a as [|c a IH]; [apply substring_all|]. rewrite string_app_cons. cbn. exact IH. Qed.

Lemma length_string_app a b : String.length (a +:+ b) = (String.length a + String.length b)%nat.
Proof. induction a as [|c a IH]; [done|]. rewrite string_app_cons. cbn. by rewrite IH. Qed.

Lemma TrimSuffix_app s suffix : TrimSuffix (s +:+ suffix) suffix = s.
Proof.
  unfold TrimSuffix. rewrite length_string_app, Nat.add_sub, substring_app_r, substring_app_l.
  rewrite !bool_decide_eq_true_2; [done|done|lia].
Qed.

(** The first path of a header ends where the second begins. *)
Lemma CutAt_header s t : CutAt s " b/" = None -> CutAt (s +:+ " b/" +:+ t) " b/" = Some (s, " b/" +:+ t).
Proof.
  induction s as [|c s IH].
  { intros _. change (EmptyString +:+ ?x) with x. pose proof (HasPrefix_app " b/" t) as Hp. rewrite string_app_cons in *. cbn [CutAt]. by rewrite Hp. }
  rewrite string_app_cons. intros Hs.
  assert (HasPrefix (String c s) " b/" = false) as Hno by (cbn in Hs |- *; by case_match).
  assert (HasPrefix (String c (s +:+ " b/" +:+ t)) " b/" = false) as Hno'.
  { destruct s as [|c1 [|c2 s]]; rewrite ?string_app_cons; cbn in Hno |- *; [by rewrite andb_false_r|by rewrite !andb_false_r|].
    by rewrite HasPrefix_nil in *. }
  cbn [CutAt] in *. rewrite Hno in Hs. rewrite Hno'. destruct (CutAt s " b/") as [[]|]; [done|]. by rewrite IH.
Qed.

Section ReadBack.
Variable limits : Limits.

(** The open file of a parser, with room for more lines. *)
Definition reading (p : diffParser) (f : GitDiffFile) (n : Z) : Prop :=
  dp_file p = Some f /\ dp_fileLines p + n < lm_LinesPerFile limits /\ dp_totalLines p + n < lm_TotalLines limits.

(** The parser some lines on: the file is another, its hunk is open or not,
    and so many lines were counted. *)
Definition moved (f : GitDiffFile) (h : bool) (n : Z) (p : diffParser) : diffParser :=
  mk_diffParser (dp_files p) (Some f) h (dp_fileLines p + n) (dp_totalLines p + n) (dp_droppedFiles p) (dp_droppedLines p) (dp_lineTruncated p).

Lemma moved_moved f h n f' h' n' p : moved f' h' n' (moved f h n p) = moved f' h' (n + n') p.
Proof. unfold moved. cbn. by rewrite !Z.add_assoc. Qed.

Lemma set_file_moved f p : set_file f p = moved f (dp_hunk p) 0 p.
Proof. unfold moved, set_file. by rewrite !Z.add_0_r. Qed.

Lemma header_line p f l : dp_file p = Some f -> dp_hunk p = false -> HasPrefix l "diff --git " = false -> HasPrefix l "@@" = false ->
  line limits p l = moved (fileHeaderLine l f) false 0 p.
Proof. intros Hf Hh H1 H2. unfold line. rewrite H1, Hf, H2, Hh, set_file_moved. by rewrite Hh. Qed.

Lemma clip_short text : str_len text <= lm_LineLength limits -> clip limits text = (text, false).
Proof. intros Hlen. unfold clip. by replace (str_len text <=? lm_LineLength limits) with true by (symmetry; lia). Qed.

Lemma line_kind_print l : line_ok limits l -> line_kind (print_line l) = Some (dl_kind l, dl_text l) /\
  HasPrefix (print_line l) "diff --git " = false /\ HasPrefix (print_line l) "@@" = false.
Proof.
  intros [Hk _ _ Hnote]. destruct l as [kind text]. unfold print_line, line_kind. cbn [dl_kind dl_text] in *.
  destruct kind; try done; rewrite !string_app_cons; change (EmptyString +:+ ?x) with x; cbn [HasPrefix];
    rewrite ?HasPrefix_nil, ?from_1; (split; [|done]); cbn; rewrite ?HasPrefix_nil; try done.
  do 2 f_equal. exact (Hnote eq_refl).
Qed.

Lemma add_line_snoc l before h : add_line l (before ++ [h]) = before ++ [mk_GitDiffHunk (dh_header h) (dh_lines h ++ [l])].
Proof. unfold add_line. by rewrite last_snoc, removelast_last. Qed.

Lemma note_false p : note_clipped false p = p.
Proof. destruct p. unfold note_clipped. cbn. by rewrite orb_false_r. Qed.

Lemma not_full p f n : reading p f n -> 0 <= n -> full limits p = false.
Proof. intros (_ & H1 & H2) Hn. unfold full. lia. Qed.

Lemma body_line p f before h l : reading p f 1 -> dp_hunk p = true -> gf_hunks f = before ++ [h] -> line_ok limits l ->
  line limits p (print_line l) = moved (set_hunks (before ++ [mk_GitDiffHunk (dh_header h) (dh_lines h ++ [l])]) f) true 1 p.
Proof.
  intros Hr Hh Hf Hl. destruct (line_kind_print l Hl) as (Hk & H1 & H2). destruct (Hl) as [_ _ Hlen _].
  unfold line. rewrite H1. destruct (Hr) as (-> & _). rewrite H2, Hh. unfold hunkLine. rewrite (not_full p f 1) by done.
  rewrite Hk, clip_short, note_false, Hf, add_line_snoc by done. unfold moved, count_line, set_file. cbn. destruct l. by rewrite Hh.
Qed.

Lemma body_lines ls p f before h : reading p f (Z.of_nat (length ls)) -> dp_hunk p = true -> gf_hunks f = before ++ [h] ->
  Forall (line_ok limits) ls ->
  foldl (line limits) p (map print_line ls) =
    moved (set_hunks (before ++ [mk_GitDiffHunk (dh_header h) (dh_lines h ++ ls)]) f) true (Z.of_nat (length ls)) p.
Proof.
  revert p f h. induction ls as [|l ls IH]; intros p f h (Hr1 & Hr2 & Hr3) Hh Hf Hls.
  - cbn. rewrite app_nil_r. destruct p as [fs [f0|] hk fl tl df dl lt], f as [o n s ins del b m hs t], h as [hd hl]; [|done].
    cbn in *. simplify_eq. unfold moved. cbn. by rewrite !Z.add_0_r.
  - apply Forall_cons in Hls as [Hl Hls]. cbn [length map foldl] in *. rewrite (body_line p f before h l); [|split; [done|lia]|done|done|done].
    rewrite (IH _ (set_hunks (before ++ [mk_GitDiffHunk (dh_header h) (dh_lines h ++ [l])]) f)
      (mk_GitDiffHunk (dh_header h) (dh_lines h ++ [l]))); try done; [|unfold reading, moved; cbn; split_and!; [done|lia|lia]].
    rewrite moved_moved. cbn [dh_header dh_lines]. rewrite <-app_assoc. f_equal. lia.
Qed.

Lemma one_hunk p f h : reading p f (Z.of_nat (length (dh_lines h))) -> hunk_ok limits h ->
  foldl (line limits) p (print_hunk h) = moved (set_hunks (gf_hunks f ++ [h]) f) true (Z.of_nat (length (dh_lines h))) p.
Proof.
  intros (Hr1 & Hr2 & Hr3) [Hhd _ Hlen Hls]. unfold print_hunk. cbn [foldl].
  assert (HasPrefix (dh_header h) "diff --git " = false) as Hno.
  { destruct (dh_header h) as [|c s]; [done|]. cbn in Hhd |- *. apply andb_prop in Hhd as [Hc _]. apply bool_decide_eq_true in Hc. by subst c. }
  assert (line limits p (dh_header h) = moved (set_hunks (gf_hunks f ++ [mk_GitDiffHunk (dh_header h) []]) f) true 0 p) as ->.
  { unfold line. rewrite Hno, Hr1, Hhd. unfold startHunk. rewrite (not_full p f (Z.of_nat (length (dh_lines h)))) by first [lia | by split].
    rewrite clip_short, note_false by done. unfold moved, set_hunk, set_file. cbn. by rewrite !Z.add_0_r. }
  rewrite (body_lines _ _ (set_hunks (gf_hunks f ++ [mk_GitDiffHunk (dh_header h) []]) f) (gf_hunks f) (mk_GitDiffHunk (dh_header h) []));
    try done; [|unfold reading, moved; cbn; split_and!; [done|lia|lia]].
  rewrite moved_moved. cbn. by destruct h.
Qed.

Lemma hunks_back hs p f : reading p f (Z.of_nat (length (concat (map dh_lines hs)))) -> Forall (hunk_ok limits) hs ->
  foldl (line limits) p (concat (map print_hunk hs)) =
    moved (set_hunks (gf_hunks f ++ hs) f) (match hs with [] => dp_hunk p | _ => true end) (Z.of_nat (length (concat (map dh_lines hs)))) p.
Proof.
  revert p f. induction hs as [|h hs IH]; intros p f (Hr1 & Hr2 & Hr3) Hhs.
  - cbn. rewrite app_nil_r. destruct p as [fs [f0|] hk fl tl df dl lt], f; [|done]. cbn in *. simplify_eq.
    unfold moved. cbn. by rewrite !Z.add_0_r.
  - apply Forall_cons in Hhs as [Hh Hhs]. cbn [map concat] in *. rewrite length_app, Nat2Z.inj_add in *. rewrite foldl_app.
    rewrite (one_hunk p f h); [|split; [done|lia]|done].
    rewrite (IH _ (set_hunks (gf_hunks f ++ [h]) f)); [|unfold reading, moved; cbn; split_and!; [done|lia|lia]|done].
    rewrite moved_moved. cbn. rewrite <-app_assoc. by destruct hs.
Qed.

(** The lines between the header of a file and its hunks, one at a time. *)
Definition all_headers (ls : list string) : Prop :=
  Forall (fun l => HasPrefix l "diff --git " = false /\ HasPrefix l "@@" = false) ls.

Lemma headers_back ls p f : dp_file p = Some f -> dp_hunk p = false -> all_headers ls ->
  foldl (line limits) p ls = moved (foldl (fun f l => fileHeaderLine l f) f ls) false 0 p.
Proof.
  intros Hf Hh Hls. revert p f Hf Hh. induction Hls as [|l ls [H1 H2] Hls IH]; intros p f Hf Hh.
  - destruct p as [fs [f0|] hk fl tl df dl lt]; [|done]. cbn in *. simplify_eq. unfold moved. cbn. by rewrite !Z.add_0_r.
  - cbn [foldl]. rewrite (header_line p f l) by done. rewrite (IH _ (fileHeaderLine l f)) by done. by rewrite moved_moved.
Qed.

Lemma head_headers f content : git_content f content -> all_headers (print_modes f ++ print_change f ++ content).
Proof.
  intros Hc. unfold all_headers. apply Forall_app. split; [unfold print_modes; destruct (pf_modes f) as [[a b]|]; repeat constructor|].
  apply Forall_app. split; [unfold print_change; destruct (pf_change f); repeat constructor|].
  destruct Hc; repeat constructor.
Qed.

(** The prefixes of a line whose first characters are known. *)
Ltac prefixes := repeat match goal with
  | |- context [HasPrefix ?l ?p] => first [change (HasPrefix l p) with false | rewrite (HasPrefix_app p)]
  end.

(** What the lines of the head make of a new file. *)
Lemma head_back f content : file_ok limits f -> git_content f content ->
  foldl (fun f l => fileHeaderLine l f) (new_file (pf_old f) (pf_new f)) (print_modes f ++ print_change f ++ content) = set_hunks [] (shown f).
Proof.
  intros [_ _ _ _ Hm _ _] Hc. unfold print_modes. rewrite !foldl_app.
  set (f1 := foldl _ (new_file _ _) _).
  assert (f1 = set_mode (match pf_modes f with Some (a, b) => a +:+ " → " +:+ b | None => emp end) (new_file (pf_old f) (pf_new f))) as ->.
  { unfold f1. destruct (pf_modes f) as [[a b]|]; [|done]. cbn [foldl]. unfold fileHeaderLine.
    destruct Hm as (_ & _ & Hm). prefixes. rewrite !TrimPrefix_app. cbn [set_mode gf_mode_change]. by rewrite Hm. }
  set (m := match pf_modes f with Some _ => _ | None => _ end). unfold shown. fold m.
  set (f2 := foldl _ (set_mode m _) _).
  assert (f2 = set_status (status_of (pf_change f)) (set_mode m (new_file (pf_old f) (pf_new f)))) as ->.
  { unfold f2, print_change. destruct (pf_change f); cbn [foldl]; unfold fileHeaderLine; prefixes; rewrite ?TrimPrefix_app; done. }
  destruct Hc as [_ ->|index _ -> _|index _ -> _|index a b _ -> _ _ _]; cbn [foldl]; unfold fileHeaderLine; by prefixes.
Qed.

Lemma closed_files p : dp_file (closeFile p) = None /\ dp_totalLines (closeFile p) = dp_totalLines p /\
  dp_droppedFiles (closeFile p) = dp_droppedFiles p /\ dp_droppedLines (closeFile p) = dp_droppedLines p /\
  dp_lineTruncated (closeFile p) = dp_lineTruncated p.
Proof. unfold closeFile. by destruct (dp_file p) eqn:Hf. Qed.

Definition kept (f : git_file) : list GitDiffLine := concat (map dh_lines (pf_hunks f)).

Lemma file_back p f printed : git_prints f printed -> Z.of_nat (length (dp_files (closeFile p))) < lm_Files limits ->
  dp_totalLines p + Z.of_nat (length (kept f)) < lm_TotalLines limits -> file_ok limits f ->
  let q := foldl (line limits) p printed in
  dp_files (closeFile q) = dp_files (closeFile p) ++ [shown f] /\ dp_totalLines q = dp_totalLines p + Z.of_nat (length (kept f)) /\
  dp_droppedFiles q = dp_droppedFiles p /\ dp_droppedLines q = dp_droppedLines p /\ dp_lineTruncated q = dp_lineTruncated p.
Proof.
  intros (content & Hc & ->) Hfiles Htotal Hok. cbv zeta. cbn [foldl].
  destruct (closed_files p) as (Hnone & C1 & C2 & C3 & C4).
  set (p1 := mk_diffParser (dp_files (closeFile p)) (Some (new_file (pf_old f) (pf_new f))) false 0 (dp_totalLines (closeFile p))
    (dp_droppedFiles (closeFile p)) (dp_droppedLines (closeFile p)) (dp_lineTruncated (closeFile p))).
  assert (line limits p ("diff --git a/" +:+ pf_old f +:+ " b/" +:+ pf_new f) = p1) as ->.
  { assert ("diff --git a/" +:+ pf_old f +:+ " b/" +:+ pf_new f = "diff --git " +:+ (("a/" +:+ pf_old f) +:+ " b/" +:+ pf_new f)) as -> by done.
    unfold line. rewrite HasPrefix_app. unfold startFile, splitDiffHeader.
    replace (lm_Files limits <=? Z.of_nat (length (dp_files (closeFile p)))) with false by (symmetry; lia).
    rewrite TrimPrefix_app, CutAt_header by apply (fo_path _ _ Hok). rewrite TrimPrefix_app.
    rewrite (string_app_cons " "%char "b/"), from_1. by rewrite TrimPrefix_app. }
  rewrite foldl_app, (headers_back _ p1 (new_file (pf_old f) (pf_new f))) by (done || by apply head_headers).
  rewrite (head_back f content Hok Hc). pose proof (fo_room _ _ Hok). unfold kept in *.
  rewrite (hunks_back _ _ (set_hunks [] (shown f))); [| |exact (fo_hunks _ _ Hok)].
  - rewrite moved_moved. unfold moved, closeFile at 1. cbn [dp_file dp_files p1 dp_totalLines dp_droppedFiles dp_droppedLines dp_lineTruncated].
    rewrite C1, C2, C3, C4. by split_and!.
  - unfold reading, moved. cbn [dp_file dp_fileLines dp_totalLines p1]. rewrite C1. split_and!; [done|lia|lia].
Qed.

Lemma files_back fs printed p : Forall2 git_prints fs printed ->
  Z.of_nat (length (dp_files (closeFile p)) + length fs) <= lm_Files limits ->
  dp_totalLines p + Z.of_nat (length (concat (map kept fs))) < lm_TotalLines limits -> Forall (file_ok limits) fs ->
  let q := foldl (line limits) p (concat printed) in
  dp_files (closeFile q) = dp_files (closeFile p) ++ map shown fs /\
  dp_droppedFiles q = dp_droppedFiles p /\ dp_droppedLines q = dp_droppedLines p /\ dp_lineTruncated q = dp_lineTruncated p.
Proof.
  cbv zeta. intros Hp. revert p. induction Hp as [|f l fs printed Hf2 Hp IH]; intros p Hfiles Htotal Hfs; [by rewrite app_nil_r|].
  apply Forall_cons in Hfs as [Hf Hfs]. cbn [map concat length] in *. rewrite length_app in Htotal. rewrite foldl_app.
  destruct (file_back p f l Hf2) as (B1 & B2 & B3 & B4 & B5); [lia|lia|done|].
  destruct (IH (foldl (line limits) p l)) as (D1 & D2 & D3 & D4); [rewrite B1, length_app; cbn; lia|lia|done|].
  rewrite D1, D2, D3, D4, B1, B3, B4, B5. by rewrite <-app_assoc.
Qed.

(** *** One line each *)

Lemma one_line_app a b : one_line a -> one_line b -> one_line (a +:+ b).
Proof. unfold one_line. rewrite of_string_app, not_elem_of_app. done. Qed.

Lemma one_line_literal s : bool_decide (byte_of_ascii NL ∉ of_string s) = true -> one_line s.
Proof. intros Hs. by apply bool_decide_eq_true in Hs. Qed.

Lemma one_line_unquoted path : unquoted path -> one_line path.
Proof. unfold unquoted, one_line. rewrite Forall_forall. intros Hp Hin. destruct (Hp _ Hin) as [Hc _]. by vm_compute in Hc. Qed.

Lemma one_line_name name text : one_line name -> ends_name name text -> one_line text.
Proof. intros Hn [->| ->]; [done|]. apply one_line_app; [done|by apply one_line_literal]. Qed.

Lemma one_line_file f printed : file_ok limits f -> git_prints f printed -> Forall one_line printed.
Proof.
  intros [Ho Hn _ Hc Hm Hh _] (content & Hcon & ->). apply one_line_unquoted in Ho, Hn.
  assert (forall a b, bool_decide (byte_of_ascii NL ∉ of_string a) = true -> one_line b -> one_line (a +:+ b)) as Happ
    by (intros a b Ha Hb; by apply one_line_app; [apply one_line_literal|]).
  assert (one_line (old_side f) /\ one_line (new_side f)) as [Hos Hns].
  { unfold old_side, new_side. split; destruct (pf_change f); (by apply one_line_literal) || by apply Happ. }
  apply Forall_cons. split; [apply Happ; [done|]; apply one_line_app; [done|]; by apply Happ|].
  apply Forall_app. split.
  - repeat (apply Forall_app; split).
    + unfold print_modes. destruct (pf_modes f) as [[a b]|]; [|constructor]. destruct Hm as (Ha & Hb & _). repeat constructor; by apply Happ.
    + unfold print_change. destruct (pf_change f); repeat constructor; by apply Happ.
    + destruct Hcon as [|index _ _ Hi|index _ _ Hi|index a b _ _ Hi Ha Hb]; repeat constructor; try (by apply Happ).
      * apply Happ; [done|]. apply one_line_app; [done|]. apply Happ; [done|]. apply one_line_app; [done|by apply one_line_literal].
      * apply Happ; [done|]. exact (one_line_name _ _ Hos Ha).
      * apply Happ; [done|]. exact (one_line_name _ _ Hns Hb).
  - induction Hh as [|h hs [_ Hone _ Hls] Hh IH]; [constructor|]. cbn [map concat]. apply Forall_app. split; [|exact IH].
    constructor; [done|]. apply Forall_fmap. eapply Forall_impl; [exact Hls|]. intros [kind text] [_ Hl _ _].
    unfold compose, print_line. cbn [dl_kind dl_text] in *. destruct kind; by apply Happ.
Qed.

End ReadBack.

(** C40. What git prints of a change is read back as the change.  For files whose
    paths git writes without quoting them and whose old path holds no
    " b/", that fit the limits - the lines below the cap, each within its
    length - whichever of the forms git documents a file takes (text, binary,
    empty, or the same contents under another mode or name): every file comes
    back with its paths, what became of it, its modes and every line of every
    hunk, and nothing is marked as left out. *)
Theorem change_reads_back fs out limits :
  fs <> [] -> git_diff fs out -> Forall (file_ok (withDefaults limits)) fs ->
  Z.of_nat (length fs) <= lm_Files (withDefaults limits) ->
  Z.of_nat (length (concat (map kept fs))) < lm_TotalLines (withDefaults limits) ->
  ParseDiff out limits = mk_GitDiff (map shown fs) 0 0 0 false emp emp emp.
Proof.
  intros Hne (printed & Hp & ->) Hok Hfiles Htotal. unfold ParseDiff, run. rewrite to_of_string, TrimSuffix_app, Split_Join.
  - destruct (files_back (withDefaults limits) fs printed new_parser Hp) as (B1 & B2 & B3 & B4);
      [exact Hfiles|exact Htotal|done|].
    unfold finish. rewrite B1. destruct (closed_files (foldl (line (withDefaults limits)) new_parser (concat printed)))
      as (_ & _ & -> & -> & ->). by rewrite B2, B3, B4.
  - destruct Hp as [|f l fs printed (content & _ & ->) _]; [done|]. by cbn.
  - apply Forall_concat. clear Hfiles Htotal Hne. induction Hp as [|f l fs printed Hf _ IH]; [constructor|].
    apply Forall_cons in Hok as [Hk Hok]. constructor; [by eapply one_line_file|auto].
Qed.

(** ** Instances that run *)

Module ToyDiff.
Import Toy.

Definition no_limits : Limits := mk_Limits 0 0 0 0 0.
Definition lines_of (l : list string) : bytes := of_string (Join l (String NL EmptyString)).

(** A file renamed and changed, one made executable, an image, an empty file,
    and one only moved; and what git prints of them. *)
Definition toy_change : list git_file := [
  mk_git_file "docs/old name.md" "docs/new name.md" (Renamed "90%") None false
    [mk_GitDiffHunk "@@ -1,2 +1,2 @@ heading"
       [mk_GitDiffLine LINE_CONTEXT "same"; mk_GitDiffLine LINE_REMOVED "-- old"; mk_GitDiffLine LINE_ADDED "++ new";
        mk_GitDiffLine LINE_NOTE "No newline at end of file"]];
  mk_git_file "run.sh" "run.sh" Modified (Some ("100644", "100755")%string) false [];
  mk_git_file "logo.png" "logo.png" (Added "100644") None true [];
  mk_git_file ".keep" ".keep" (Added "100644") None false [];
  mk_git_file "a.txt" "b.txt" (Renamed "100%") None false []]%string.
Definition toy_printed : list (list string) := [
  ["diff --git a/docs/old name.md b/docs/new name.md"; "similarity index 90%"; "rename from docs/old name.md";
   "rename to docs/new name.md"; "index 1f..2e 100644"; "--- a/docs/old name.md" +:+ String TAB EmptyString;
   "+++ b/docs/new name.md" +:+ String TAB EmptyString; "@@ -1,2 +1,2 @@ heading"; " same"; "--- old"; "+++ new";
   "\ No newline at end of file"];
  ["diff --git a/run.sh b/run.sh"; "old mode 100644"; "new mode 100755"];
  ["diff --git a/logo.png b/logo.png"; "new file mode 100644"; "index 00..bb"; "Binary files /dev/null and b/logo.png differ"];
  ["diff --git a/.keep b/.keep"; "new file mode 100644"; "index 00..e6"];
  ["diff --git a/a.txt b/b.txt"; "similarity index 100%"; "rename from a.txt"; "rename to b.txt"]]%string.

(** A repository whose one commit has a file of four lines in two hunks. *)
Definition toy_patch : bytes := lines_of
  ["diff --git a/x b/x"; "index 1..2 100644"; "--- a/x"; "+++ b/x"; "@@ -1 +1,2 @@"; "+a"; "+b"; "@@ -9 +10 @@"; "-c"; "+d"]%string.
Definition toy_git (args : list string) : option bytes :=
  if bool_decide ("--patch"%string ∈ args) then Some toy_patch
  else if bool_decide ("--numstat"%string ∈ args)
  then Some (of_string ("3" +:+ String TAB "1" +:+ String TAB "x" +:+ String NUL EmptyString))
  else None.
Definition toy_commit : GitObject := mk_GitObject TypeCommit "tree" ["parent"%string] None None emp emp emp None emp emp [].
End ToyDiff.
Import Toy.
Import ToyDiff.

(** The cap on the lines of a file falls between two hunks: the second is left
    out, the file says so, and the diff - which is what the rest can be fetched
    for - does not. *)
Example hunk_left_out_without_a_note :
  let d := diff toy_git toy_commit (mk_Limits 0 0 2 0 0) [] in
  gd_truncated d = false /\ gd_truncation_note d = emp /\ map gf_truncated (gd_files d) = [true] /\
  map (fun f => length (body f)) (gd_files d) = [2%nat].
Proof. vm_compute. done. Qed.

(** Git does not quote a path for a space in it: one with " b/" in it is taken
    apart in the wrong place, and its counts do not find it. *)
Example path_taken_apart :
  let d := applyNumstat (ParseDiff (lines_of ["diff --git a/x b/y b/x b/y"; "@@ -1 +1 @@"; "+a"]%string) no_limits)
    (of_string ("1" +:+ String TAB "0" +:+ String TAB "x b/y" +:+ String NUL EmptyString)) in
  map (fun f => (gf_old_path f, gf_new_path f, gf_insertions f)) (gd_files d) = [("x", "y b/x b/y", 0)%string] /\ gd_insertions d = 1.
Proof. vm_compute. done. Qed.

(** The totals are 32 bits wide. *)
Example totals_wrap :
  gd_insertions (applyNumstat (ParseDiff [] no_limits)
    (of_string ("2147483647" +:+ String TAB "0" +:+ String TAB "x" +:+ String NUL ("1" +:+ String TAB "0" +:+ String TAB "y")))) = - 2 ^ 31.
Proof. vm_compute. done. Qed.

Lemma unmarked_diff_is_whole_witness :
  left_out (diff toy_git toy_commit (mk_Limits 0 0 4 0 0) []) = false /\
  diff toy_git toy_commit FullLimits [] = diff toy_git toy_commit (mk_Limits 0 0 4 0 0) [].
Proof.
  assert (left_out (diff toy_git toy_commit (mk_Limits 0 0 4 0 0) []) = false) as Hout by (vm_compute; reflexivity).
  split; [exact Hout|].
  apply (unmarked_diff_is_whole toy_git toy_commit (mk_Limits 0 0 4 0 0) FullLimits []); [|vm_compute; congruence|exact Hout].
  split_and!; vm_compute; congruence.
Defined.

Lemma toy_change_ok : Forall (file_ok (withDefaults no_limits)) toy_change.
Proof.
  pose proof one_line_literal as Hlit.
  assert (forall path, bool_decide (unquoted path) = true -> unquoted path) as Hun by (intros path Hp; by apply bool_decide_eq_true in Hp).
  repeat apply Forall_cons_2; try apply Forall_nil_2; split; cbn [pf_old pf_new pf_change pf_modes pf_hunks];
    try (by apply Hun); try (by apply Hlit); try (by vm_compute); try exact I.
  - repeat apply Forall_cons_2; try apply Forall_nil_2. split; cbn [dh_header dh_lines]; [done|by apply Hlit|by vm_compute|].
    repeat apply Forall_cons_2; try apply Forall_nil_2; split; cbn [dl_kind dl_text]; try done; try (by apply Hlit); by vm_compute.
  - split_and!; [by apply Hlit|by apply Hlit|by vm_compute].
Qed.

Lemma toy_change_printed : Forall2 git_prints toy_change toy_printed.
Proof.
  pose proof one_line_literal as Hlit.
  repeat apply Forall2_cons_2; try apply Forall2_nil_2.
  - eexists. split; [apply (content_text _ "1f..2e 100644"); [done|done|by apply Hlit|by right|by right]|done].
  - eexists. split; [by apply content_same|done].
  - eexists. split; [apply (content_binary _ "00..bb"); [done|done|by apply Hlit]|done].
  - eexists. split; [apply (content_empty _ "00..e6"); [done|done|by apply Hlit]|done].
  - eexists. split; [by apply content_same|done].
Qed.

Lemma change_reads_back_witness :
  ParseDiff (lines_of (concat toy_printed ++ [EmptyString])) no_limits = mk_GitDiff (map shown toy_change) 0 0 0 false emp emp emp.
Proof.
  apply (change_reads_back toy_change _ no_limits); [done| |exact toy_change_ok|by vm_compute|by vm_compute].
  exists toy_printed. split; [exact toy_change_printed|by vm_compute].
Defined.
