(* ===== verification/SignCli.v ===== *)
(** * SignCli: the program git runs to sign

    [internal/signcli]: the command line git builds for [gpg.ssh.program], and
    what becomes of it - a signature asked of the running instance, or the
    command line handed over to the real [ssh-keygen].  The files, the standard
    input, the instance at the socket, the parsers of key files and the program
    handed over to are parameters; the line about waiting that a slow answer
    causes is left out. *)

From S2P Require Import Prelude.
From S2P Require Import GoText.
From S2P Require Import Proto.
From S2P Require Import Ssh.
From S2P Require Import Sshsig.
From S2P Require Import GitObject.
From S2P Require Import Rpc.
From S2P Require Import Diff.
From S2P Require Import LocalApi.

Local Open Scope Z_scope.
Local Open Scope ladulas_scope.

(** ** The command line *)

Definition ErrUnsupportedInvocation : error :=
  sentinel "signcli.ErrUnsupportedInvocation" "signcli: not a signing invocation".

Record invocation := mk_invocation {
  iv_namespace : string;
  iv_keyFile : string;
  iv_useAgent : bool;
  iv_files : list string;
  iv_options : list string
}.

#[export] Instance invocation_eq_dec : EqDecision invocation.
Proof. solve_decision. Defined.

Definition add_file (f : string) (i : invocation) : invocation :=
  mk_invocation (iv_namespace i) (iv_keyFile i) (iv_useAgent i) (iv_files i ++ [f]) (iv_options i).
Definition add_files (fs : list string) (i : invocation) : invocation :=
  mk_invocation (iv_namespace i) (iv_keyFile i) (iv_useAgent i) (iv_files i ++ fs) (iv_options i).
Definition use_agent (i : invocation) : invocation :=
  mk_invocation (iv_namespace i) (iv_keyFile i) true (iv_files i) (iv_options i).
Definition set_namespace (n : string) (i : invocation) : invocation :=
  mk_invocation n (iv_keyFile i) (iv_useAgent i) (iv_files i) (iv_options i).
Definition set_keyFile (k : string) (i : invocation) : invocation :=
  mk_invocation (iv_namespace i) k (iv_useAgent i) (iv_files i) (iv_options i).
Definition add_option (o : string) (i : invocation) : invocation :=
  mk_invocation (iv_namespace i) (iv_keyFile i) (iv_useAgent i) (iv_files i) (iv_options i ++ [o]).

Definition signFlagsWithValue (c : ascii) : bool := bool_decide (c ∈ ["Y"; "n"; "f"; "O"]%char).
Definition signFlagsBoolean (c : ascii) : bool := bool_decide (c ∈ ["q"; "v"]%char).

Fixpoint operationOf (args : list string) : string * bool :=
  match args with
  | [] => (emp, false)
  | arg :: rest =>
    if bool_decide (arg = "--"%string) then (emp, false)
    else if negb (HasPrefix arg "-Y") then operationOf rest
    else if 2 <? str_len arg then (from_ 2 arg, true)
    else match rest with next :: _ => (next, true) | [] => (emp, true) end
  end.

Definition helpRequests (s : string) : bool := bool_decide (s ∈ ["-h"; "-help"; "--help"; "-?"; "help"]%string).
Definition isHelpRequest (args : list string) : bool :=
  match args with [arg] => helpRequests arg | _ => false end.

Section Parse.
Context `{Unicode}.

Definition unsupported {A} (text : string) : result A := Err (wrap_w emp ErrUnsupportedInvocation (": " +:+ text)).

(** What a flag with a value does. *)
Definition take_value (name : ascii) (value : string) (inv : invocation) : result invocation :=
  if bool_decide (name = "Y"%char)
  then if bool_decide (value <> "sign"%string) then unsupported ("-Y " +:+ value) else Ok inv
  else if bool_decide (name = "n"%char) then Ok (set_namespace value inv)
  else if bool_decide (name = "f"%char) then Ok (set_keyFile value inv)
  else Ok (add_option value inv).

(** The arguments from one on. *)
Fixpoint parse_args (args : list string) (inv : invocation) : result invocation :=
  match args with
  | [] => Ok inv
  | arg :: rest =>
    if bool_decide (arg = "--"%string) then Ok (add_files rest inv)
    else if bool_decide (arg = "-"%string) || negb (HasPrefix arg "-") then parse_args rest (add_file arg inv)
    else
      match String.get 1 arg with
      | None => unsupported (quote arg)
      | Some name =>
        if signFlagsBoolean name && (str_len arg =? 2) then parse_args rest inv
        else if bool_decide (name = "U"%char) && (str_len arg =? 2) then parse_args rest (use_agent inv)
        else if negb (signFlagsWithValue name) then unsupported ("unknown flag " +:+ quote arg)
        else if bool_decide (from_ 2 arg <> emp)
        then inv ← take_value name (from_ 2 arg) inv; parse_args rest inv
        else
          match rest with
          | [] => unsupported (quote arg +:+ " wants a value")
          | value :: rest' => inv ← take_value name value inv; parse_args rest' inv
          end
      end
  end.

Definition parseSign (args : list string) : result invocation :=
  inv ← parse_args args (mk_invocation emp emp false [] []);
  if bool_decide (iv_namespace inv = emp) then unsupported "no namespace"
  else if bool_decide (iv_keyFile inv = emp) then unsupported "no key"
  else
    let inv := if bool_decide (iv_files inv = []) then add_files ["-"%string] inv else inv in
    if bool_decide (iv_options inv <> []) then unsupported ("signing options " +:+ Join (iv_options inv) ", ")
    else Ok inv.

End Parse.

(** ** The world of a run *)

(** An answer the instance did not give: nothing listens, or the call failed
    with a code. *)
Inductive call_error := NoInstance | CallFailed (e : rpc_error).

Definition ErrNoInstance : error := sentinel "localapi.ErrNoInstance" "localapi: no Ladulås instance is listening".

(** [Client.SignPayload]'s error, as an error. *)
Definition client_error (e : call_error) : error :=
  match e with
  | NoInstance => ErrNoInstance
  | CallFailed r => wrap_w "ask the local instance to sign: " (rpc_as_error r) emp
  end.

Definition message (e : call_error) : string :=
  match e with NoInstance => e_msg ErrNoInstance | CallFailed r => e_msg (re_err r) end.

Definition isFallbackWorthy (e : call_error) : bool :=
  match e with
  | NoInstance => true
  | CallFailed r => bool_decide (re_code r ∈ [CodeNotFound; CodeUnimplemented; CodeUnavailable])
  end.

(** What the run did: what it wrote and asked. *)
Inductive act :=
| Asked (msg : SignPayloadRequest)
| WroteFile (path : string) (text : string)
| WroteOut (text : string)
| WroteErr (text : string)
| WroteUsage
| TriedExec (path : string) (argv : list string).

(** How a run ends: with a status, or as another program. *)
Inductive ending := Exits (status : Z) | Becomes (path : string) (argv : list string).

#[export] Instance ending_eq_dec : EqDecision ending.
Proof. solve_decision. Defined.

(** What is around a run. *)
Class Machine (P : Type) := {
  mc_ReadFile : string -> P -> result bytes;
  mc_WriteFile : string -> string -> state P (option error);
  mc_stdin : P -> result bytes;
  mc_drained : P -> P;
  mc_stdout : string -> state P (option error);
  mc_SignPayload : SignPayloadRequest -> state P (SignPayloadResponse + call_error);
  mc_LookPath : P -> result string;
  (** [syscall.Exec]: [None] when the process is replaced. *)
  mc_Exec : string -> list string -> P -> option error;
  mc_git : P -> list string -> option bytes
}.

(** [ssh.ParseAuthorizedKey] and [ssh.ParsePrivateKey] with its public half. *)
Class KeyFiles `{Ssh} := {
  kf_ParseAuthorizedKey : bytes -> result PublicKey;
  kf_ParsePrivateKey : bytes -> result PublicKey
}.

(** [Options], with the environment already in it. *)
Record RunOptions := mk_RunOptions { ro_SSHKeygen : string; ro_Timeout : duration; ro_Limits : Limits; ro_NoDiff : bool }.

Section Run.
Context `{Unicode} `{Hashes} `{Ssh} `{kf : !KeyFiles}.
Context {P : Type} `{machine : !Machine P}.
Context (opts : RunOptions).

(** The world and the acts of the run so far. *)
Record Run_state := mk_Run { rn_world : P; rn_acts : list act }.

Definition doing (a : act) : state Run_state unit := modify (fun r => mk_Run (rn_world r) (rn_acts r ++ [a])).
Definition on_world {A} (m : state P A) : state Run_state A := fun r =>
  let '(a, p) := m (rn_world r) in (a, mk_Run p (rn_acts r)).
Definition complain (text : string) : state Run_state unit := doing (WroteErr ("ladulas-sign: " +:+ text +:+ nl)).

Definition keygenPath (p : P) : result string :=
  if bool_decide (ro_SSHKeygen opts <> emp) then Ok (ro_SSHKeygen opts)
  else err_ctx "no ssh-keygen to fall back to: " (mc_LookPath p).

Definition handOver (args : list string) (why : string) : state Run_state ending :=
  path ← gets (fun r => keygenPath (rn_world r));
  match path with
  | Err e => _ ← complain (e_msg e); mret (Exits 1)
  | Ok path =>
    _ ← when (bool_decide (why <> emp)) (complain (why +:+ "; using " +:+ path));
    _ ← doing (TriedExec path (path :: args));
    failed ← gets (fun r => mc_Exec path (path :: args) (rn_world r));
    match failed with
    | Some e => _ ← complain ("run " +:+ path +:+ ": exec " +:+ path +:+ ": " +:+ e_msg e); mret (Exits 1)
    | None => mret (Becomes path (path :: args))
    end
  end.

(** The command line of one payload. *)
Definition one_payload (inv : invocation) (file : string) : list string :=
  ["-Y"; "sign"; "-n"; iv_namespace inv; "-f"; iv_keyFile inv]%string ++
  (if iv_useAgent inv then ["-U"%string] else []) ++ [file].

Definition handOverOne (inv : invocation) (file why : string) : state Run_state ending := handOver (one_payload inv file) why.

(** ** One signature *)

Definition readPublicKeyFile (p : P) (path : string) : result PublicKey :=
  body ← err_ctx ("read " +:+ path +:+ ": ") (mc_ReadFile path p);
  err_ctx ("parse " +:+ path +:+ ": ") (kf_ParseAuthorizedKey body).

Definition resolvePublicKey (p : P) (path : string) : result PublicKey :=
  body ← err_ctx ("read the key " +:+ path +:+ ": ") (mc_ReadFile path p);
  match kf_ParseAuthorizedKey body with
  | Ok pub => Ok pub
  | Err _ =>
    match readPublicKeyFile p (path +:+ ".pub") with
    | Ok pub => Ok pub
    | Err _ => err_ctx ("the key " +:+ path +:+ " is not one this program can identify: ") (kf_ParsePrivateKey body)
    end
  end.

Definition readPayload (file : string) : state P (result bytes) := fun p =>
  if bool_decide (file = "-"%string)
  then (err_ctx "read the payload from standard input: " (mc_stdin p), mc_drained p)
  else (err_ctx "read the payload: " (mc_ReadFile file p), p).

Definition operationName (payload : bytes) : string :=
  match ParseObject payload with Ok object => go_type object | Err _ => emp end.

Definition collectContext (p : P) (payload : bytes) (namespace : string) : option GitContext :=
  if bool_decide (namespace <> GitNamespace) then None
  else Some (Collect (mc_git p) payload (Diff.mk_Options (operationName payload) (ro_Limits opts) (ro_NoDiff opts) [])).

Definition write_failed (e : error) : error := wrap_w "write the signature: " e emp.

Definition writeSignature (file armoured : string) : state Run_state (option error) :=
  if bool_decide (file = "-"%string)
  then
    _ ← doing (WroteOut armoured); failed ← on_world (mc_stdout armoured);
    mret (write_failed <$> failed)
  else
    _ ← doing (WroteFile (file +:+ ".sig") armoured); failed ← on_world (mc_WriteFile (file +:+ ".sig") armoured);
    mret (write_failed <$> failed).

Definition request_for (p : P) (inv : invocation) (pub : PublicKey) (payload : bytes) : SignPayloadRequest :=
  mk_SignPayloadRequest (ssh_Marshal pub) payload (iv_namespace inv) emp (collectContext p payload (iv_namespace inv))
    (if 0 <? ro_Timeout opts then Some (ro_Timeout opts) else None).

Definition signFile (inv : invocation) (pub : PublicKey) (file : string) : state Run_state ending :=
  payload ← on_world (readPayload file);
  match payload with
  | Err e => _ ← complain (e_msg e); mret (Exits 1)
  | Ok payload =>
    request ← gets (fun r => request_for (rn_world r) inv pub payload);
    _ ← doing (Asked request);
    answer ← on_world (mc_SignPayload request);
    match answer with
    | inr e =>
      if isFallbackWorthy e then handOverOne inv file (e_msg (client_error e))
      else _ ← complain (message e); mret (Exits 1)
    | inl resp =>
      if negb (so_approved resp)
      then _ ← complain ("the signature was refused: " +:+ so_reason resp); mret (Exits 1)
      else
        failed ← writeSignature file (so_armored_signature resp);
        match failed with
        | Some e => _ ← complain (e_msg e); mret (Exits 1)
        | None => mret (Exits 0)
        end
    end
  end.

(** The files in turn, until one does not end with 0. *)
Fixpoint sign_files (inv : invocation) (pub : PublicKey) (files : list string) : state Run_state ending :=
  match files with
  | [] => mret (Exits 0)
  | file :: rest =>
    status ← signFile inv pub file;
    if bool_decide (status = Exits 0) then sign_files inv pub rest else mret status
  end.

(** ** The whole program *)

Definition Usage : state Run_state unit := doing WroteUsage.

Definition not_gits (args : list string) : state Run_state ending :=
  if isHelpRequest args then _ ← Usage; mret (Exits 0)
  else
    _ ← when (bool_decide (args <> []))
          (complain (Join args " " +:+ " is not a command line git builds, and is not passed on to ssh-keygen — run ssh-keygen itself for that." +:+ nl));
    _ ← Usage; mret (Exits 1).

Definition Run (args : list string) : state Run_state ending :=
  let '(operation, carriesOperation) := operationOf args in
  if negb carriesOperation then not_gits args
  else if bool_decide (operation <> "sign"%string) then handOver args emp
  else
    match parseSign args with
    | Err e => handOver args (e_msg e)
    | Ok inv =>
      key ← gets (fun r => resolvePublicKey (rn_world r) (iv_keyFile inv));
      match key with
      | Err e => handOver args (e_msg e)
      | Ok pub => sign_files inv pub (iv_files inv)
      end
    end.

End Run.
Arguments mk_Run {P} _ _.
Arguments rn_world {P} _.
Arguments rn_acts {P} _.
Arguments Run_state : clear implicits.
