(* ===== verification/SignCliSpec.v ===== *)
(** * SignCliSpec: what becomes of a command line

    Of [SignCli]: which command lines reach [ssh-keygen] and as what, that a
    run that ends well has written for every file a signature of what is in
    it, by the key that was named, and that a command line handed over for one
    payload says what the one it came from said.  The interface to the
    instance is discharged by [LocalApi]. *)

From S2P Require Import Prelude.
From S2P Require Import GoText.
From S2P Require Import Proto.
From S2P Require Import Ssh.
From S2P Require Import Sshsig.
From S2P Require Import Armour.
From S2P Require Import GitObject.
From S2P Require Import KnownHosts.
From S2P Require Import Rpc.
From S2P Require Import Agent.
From S2P Require Import Diff.
From S2P Require Import LocalApi.
From S2P Require Import LocalApiSpec.
From S2P Require Import SignCli.

Local Open Scope Z_scope.
Local Open Scope ladulas_scope.

(** ** Reading back a command line *)

Section ReadBack.
Context `{Unicode}.

(** It cannot be taken for a flag. *)
Definition plain (file : string) : Prop := file = "-"%string \/ HasPrefix file "-" = false.

Lemma parse_value flag name value rest inv :
  flag = String "-" (String name emp) -> signFlagsWithValue name = true ->
  parse_args (flag :: value :: rest) inv = inv' ← take_value name value inv; parse_args rest inv'.
Proof.
  intros -> Hname. assert (name <> "-"%char /\ name <> "U"%char /\ signFlagsBoolean name = false) as (Hd & Hu & Hb).
  { apply bool_decide_eq_true in Hname. rewrite !elem_of_cons, elem_of_nil in Hname.
    by destruct Hname as [->|[->|[->|[->|[]]]]]. }
  cbn [parse_args]. rewrite !(bool_decide_eq_false_2 (String "-" _ = _)) by congruence. cbn [orb HasPrefix negb].
  rewrite (bool_decide_eq_true_2 ("-"%char = "-"%char)) by done. cbn [andb negb String.get].
  rewrite Hb, (bool_decide_eq_false_2 (name = _)) by done. cbn [andb]. by rewrite Hname.
Qed.

Lemma parse_file file rest inv : plain file -> file <> "--"%string -> parse_args (file :: rest) inv = parse_args rest (add_file file inv).
Proof.
  intros Hp Hd. cbn [parse_args]. rewrite (bool_decide_eq_false_2 (file = "--"%string)) by done.
  destruct Hp as [->|Hp]; [done|]. rewrite Hp. by rewrite orb_true_r.
Qed.

(** C35. A command line handed over for one payload, whose name cannot be taken
    for a flag - it is a single dash or starts with none -, is one that this
    program would read as signing that payload with the same key, in the same
    namespace and as much through an agent. *)
Theorem handed_over_reads_back args inv file :
  parseSign args = Ok inv -> plain file ->
  operationOf (one_payload inv file) = ("sign"%string, true) /\
  parseSign (one_payload inv file) = Ok (mk_invocation (iv_namespace inv) (iv_keyFile inv) (iv_useAgent inv) [file] []).
Proof.
  intros Hparse Hfile. split; [done|].
  assert (iv_namespace inv <> emp /\ iv_keyFile inv <> emp) as [Hns Hkey].
  { unfold parseSign in Hparse. apply result_bind_Ok in Hparse as (i & _ & Hi). repeat (case_bool_decide; try done);
      injection Hi as <-; done. }
  assert (file <> "--"%string) as Hd by (destruct Hfile as [->|Hf]; [done|by intros ->]).
  unfold parseSign, one_payload. cbn [app].
  rewrite (parse_value _ "Y") by done. change (take_value "Y" "sign" ?i) with (Ok i). cbn [mbind result_bind].
  rewrite (parse_value _ "n") by done. change (take_value "n" ?v ?i) with (Ok (set_namespace v i)). cbn [mbind result_bind].
  rewrite (parse_value _ "f") by done. change (take_value "f" ?v ?i) with (Ok (set_keyFile v i)).
  cbn [mbind result_bind]. destruct (iv_useAgent inv); cbn [app].
  - change (parse_args ("-U"%string :: ?l) ?i) with (parse_args l (use_agent i)). rewrite parse_file by done.
    cbn [parse_args mbind result_bind]. unfold set_namespace, set_keyFile, use_agent, add_file. cbn.
    by rewrite !bool_decide_eq_false_2 by done.
  - rewrite parse_file by done. cbn [parse_args mbind result_bind]. unfold set_namespace, set_keyFile, use_agent, add_file. cbn.
    by rewrite !bool_decide_eq_false_2 by done.
Qed.

End ReadBack.

(** ** Runs *)

Section Runs.
Context `{Unicode} `{Hashes} `{Ssh} `{kf : !KeyFiles}.
Context {P : Type} `{machine : !Machine P}.
Context (opts : RunOptions).

Definition is_question (a : act) : bool := match a with Asked _ => true | _ => false end.
Definition asks_nothing (l : list act) : Prop := Forall (fun a => is_question a = false) l.

Lemma on_world_run {A} (m : state P A) r : on_world m r = ((m (rn_world r)).1, mk_Run (m (rn_world r)).2 (rn_acts r)).
Proof. unfold on_world. by destruct (m (rn_world r)). Qed.

(** The command line is handed over as it is, or the run ends with 1. *)
Lemma handOver_run args why (r : Run_state P) :
  let '(ending, r') := handOver opts args why r in
  rn_world r' = rn_world r /\ (exists l, rn_acts r' = rn_acts r ++ l /\ asks_nothing l) /\
  (ending = Exits 1 \/ exists path, keygenPath opts (rn_world r) = Ok path /\ ending = Becomes path (path :: args)).
Proof.
  unfold handOver. rewrite state_bind_unfold. cbn [gets fst snd].
  destruct (keygenPath opts (rn_world r)) as [path|x]; [|cbn; split; [done|]; split; [|by left]; eexists; split; [done|by repeat constructor]].
  rewrite state_bind_unfold. case_bool_decide; cbn [when fst snd mret state_ret].
  all: rewrite !state_bind_unfold; cbn [doing gets modify complain fst snd rn_world rn_acts].
  all: match goal with |- context [mc_Exec ?x ?y ?z] => destruct (mc_Exec x y z) end; rewrite ?state_bind_unfold; cbn; (split; [done|]); (split; [|(by left) || (right; by exists path)]).
  all: eexists; rewrite <- ?app_assoc; (split; [done|by repeat constructor]).
Qed.

Definition wrote (file text : string) : act :=
  if bool_decide (file = "-"%string) then WroteOut text else WroteFile (file +:+ ".sig") text.

Lemma writeSignature_run file text (r : Run_state P) :
  let '(failed, r') := writeSignature file text r in rn_acts r' = rn_acts r ++ [wrote file text].
Proof. unfold writeSignature, wrote. case_bool_decide; rewrite !state_bind_unfold, !on_world_run; cbn; done. Qed.

(** What becomes of one file: what was in it and what was asked, when it was
    read, with the answer. *)
Variant file_run (inv : invocation) (pub : PublicKey) (file : string) (r : Run_state P) : ending -> list act -> Prop :=
| fr_unread text : file_run inv pub file r (Exits 1) [WroteErr text]
| fr_signed payload w w' resp :
    readPayload file (rn_world r) = (Ok payload, w) ->
    mc_SignPayload (request_for opts w inv pub payload) w = (inl resp, w') -> so_approved resp = true ->
    file_run inv pub file r (Exits 0) [Asked (request_for opts w inv pub payload); wrote file (so_armored_signature resp)]
| fr_stopped req l : asks_nothing l -> file_run inv pub file r (Exits 1) (Asked req :: l)
| fr_handed payload w w' e path l :
    readPayload file (rn_world r) = (Ok payload, w) ->
    mc_SignPayload (request_for opts w inv pub payload) w = (inr e, w') -> isFallbackWorthy e = true -> asks_nothing l ->
    file_run inv pub file r (Becomes path (path :: one_payload inv file)) (Asked (request_for opts w inv pub payload) :: l).

Lemma signFile_run inv pub file (r : Run_state P) :
  let '(ending, r') := signFile opts inv pub file r in
  exists l, rn_acts r' = rn_acts r ++ l /\ file_run inv pub file r ending l.
Proof.
  unfold signFile. rewrite state_bind_unfold, on_world_run.
  destruct (readPayload file (rn_world r)) as [[payload|x] w] eqn:Hread; cbn [fst snd].
  2: { rewrite state_bind_unfold. cbn. eexists. split; [done|constructor]. }
  rewrite state_bind_unfold. cbn [gets fst snd rn_world]. rewrite state_bind_unfold. cbn [doing modify fst snd rn_world rn_acts].
  rewrite state_bind_unfold, on_world_run. cbn [rn_world rn_acts].
  destruct (mc_SignPayload (request_for opts w inv pub payload) w) as [[resp|e] w'] eqn:Hask; cbn [fst snd].
  - destruct (so_approved resp) eqn:Happ; cbn [negb].
    + rewrite state_bind_unfold. pose proof (writeSignature_run file (so_armored_signature resp)
        (mk_Run w' (rn_acts r ++ [Asked (request_for opts w inv pub payload)]))) as Hw.
      destruct (writeSignature _ _ _) as [[x|] r1]; cbn [fst snd rn_acts] in *.
      * rewrite state_bind_unfold. cbn. rewrite Hw, <- !app_assoc. eexists. split; [done|]. constructor.
        constructor; [|by repeat constructor]. unfold wrote. by case_bool_decide.
      * cbn. rewrite Hw, <- !app_assoc. eexists. split; [done|]. by eapply fr_signed.
    + rewrite state_bind_unfold. cbn. rewrite <- app_assoc. eexists. split; [done|]. apply fr_stopped. by repeat constructor.
  - destruct (isFallbackWorthy e) eqn:Hf.
    + pose proof (handOver_run (one_payload inv file) (e_msg (client_error e))
        (mk_Run w' (rn_acts r ++ [Asked (request_for opts w inv pub payload)]))) as Hh.
      unfold handOverOne. destruct (handOver _ _ _ _) as [ending r1].
      destruct Hh as (_ & (l & Hl & Hq) & Hend). cbn [rn_acts] in Hl. rewrite Hl, <- app_assoc. eexists. split; [done|].
      destruct Hend as [->|(path & _ & ->)]; [by apply fr_stopped|by eapply fr_handed].
    + rewrite state_bind_unfold. cbn. rewrite <- app_assoc. eexists. split; [done|]. apply fr_stopped. by repeat constructor.
Qed.

(** The files in turn: those before the last one looked at were signed. *)
Inductive in_turn (inv : invocation) (pub : PublicKey) : list string -> Run_state P -> ending -> list act -> Prop :=
| it_none r : in_turn inv pub [] r (Exits 0) []
| it_signed file files r r1 l1 ending l :
    signFile opts inv pub file r = (Exits 0, r1) -> file_run inv pub file r (Exits 0) l1 -> in_turn inv pub files r1 ending l ->
    in_turn inv pub (file :: files) r ending (l1 ++ l)
| it_last file files r ending l :
    ending <> Exits 0 -> file_run inv pub file r ending l -> in_turn inv pub (file :: files) r ending l.

Lemma sign_files_run inv pub files (r : Run_state P) :
  let '(ending, r') := sign_files opts inv pub files r in
  exists l, rn_acts r' = rn_acts r ++ l /\ in_turn inv pub files r ending l.
Proof.
  revert r. induction files as [|file files IH]; intros r; cbn [sign_files].
  { exists []. split; [by rewrite app_nil_r|constructor]. }
  rewrite state_bind_unfold. pose proof (signFile_run inv pub file r) as Hf.
  destruct (signFile opts inv pub file r) as [ending r1] eqn:Hsign. cbn [fst snd]. destruct Hf as (l1 & Hl1 & Hf).
  case_bool_decide as He.
  - subst ending. specialize (IH r1). destruct (sign_files opts inv pub files r1) as [ending r2].
    destruct IH as (l & Hl & Hin). exists (l1 ++ l). split; [by rewrite Hl, Hl1, app_assoc|]. by eapply it_signed.
  - exists l1. split; [exact Hl1|]. by apply it_last.
Qed.

(** What the instance promises in the states [ok]: what it approves comes with a
    signature of what was asked. *)
Class InstanceLaws (ok : P -> Prop) : Prop := {
  il_drained p : ok p -> ok (mc_drained p);
  il_WriteFile path text p : ok p -> ok (mc_WriteFile path text p).2;
  il_stdout text p : ok p -> ok (mc_stdout text p).2;
  il_SignPayload msg p : ok p -> ok (mc_SignPayload msg p).2;
  il_signed msg p resp p' : ok p -> mc_SignPayload msg p = (inl resp, p') -> so_approved resp = true ->
    signature_of msg (so_armored_signature resp)
}.

(** ** Handing over *)

(** One file signed: it was read, the instance was asked for a signature of what
    was in it, and approved. *)
Definition signed_at (inv : invocation) (pub : PublicKey) (file : string) (answer : SignPayloadRequest * string) : Prop :=
  exists (p w w' : P) payload resp, readPayload file p = (Ok payload, w) /\ answer.1 = request_for opts w inv pub payload /\
    mc_SignPayload answer.1 w = (inl resp, w') /\ so_approved resp = true /\ answer.2 = so_armored_signature resp.

(** What was done about the files that were signed, in their order. *)
Definition signing_acts (files : list string) (answers : list (SignPayloadRequest * string)) : list act :=
  concat (zip_with (fun file answer => [Asked answer.1; wrote file answer.2]) files answers).

Lemma in_turn_handed inv pub files (r : Run_state P) path argv l : in_turn inv pub files r (Becomes path argv) l ->
  exists done file rest answers payload q w w' e l2, files = done ++ file :: rest /\ argv = path :: one_payload inv file /\
    Forall2 (signed_at inv pub) done answers /\
    l = signing_acts done answers ++ Asked (request_for opts w inv pub payload) :: l2 /\ asks_nothing l2 /\
    (readPayload file q : result bytes * P) = (Ok payload, w) /\
    mc_SignPayload (request_for opts w inv pub payload) w = (inr e, w') /\ isFallbackWorthy e = true.
Proof.
  intros Hin. remember (Becomes path argv) as ending eqn:He.
  induction Hin as [|file files r0 r1 l1 ending l _ Hf _ IH|file files r0 ending l _ Hf]; [done| |].
  - destruct (IH He) as (done & file' & rest & answers & payload & q & w & w' & e & l2 & -> & Hargv & Hall & -> & Hrest).
    inversion Hf as [|payload1 w1 w1' resp Hread Hask Happ| |]; subst.
    exists (file :: done), file', rest, ((request_for opts w1 inv pub payload1, so_armored_signature resp) :: answers), payload, q, w, w', e, l2.
    split; [done|]. split; [done|]. split.
    { constructor; [|done]. by exists (rn_world r0), w1, w1', payload1, resp. }
    split; [done|exact Hrest].
  - subst ending. inversion Hf as [| | |payload w w' e path' l' Hread Hask Hfall Hq]; subst.
    by exists [], file, files, [], payload, (rn_world r0), w, w', e, l'.
Qed.

(** C10. Something is handed over to [ssh-keygen] only from a command line that names
    an operation: the whole line, when it is not one this program signs for and
    before anything was asked; or the line of one payload, when the instance
    could not be asked for this one or has no way to the key - and then every
    payload before it was asked for, approved and its signature written, in
    the order of the line, and nothing after it was asked for.  What was
    refused never is, and a person's own command line never is. *)
Theorem only_gits_lines_are_handed_over args (r : Run_state P) path argv r' :
  Run opts args r = (Becomes path argv, r') ->
  (operationOf args).2 = true /\ exists args' l, argv = path :: args' /\ rn_acts r' = rn_acts r ++ l /\
    ((args' = args /\ asks_nothing l /\
      ((operationOf args).1 = "sign"%string -> forall inv, parseSign args = Ok inv -> exists e, resolvePublicKey (rn_world r) (iv_keyFile inv) = Err e)) \/
     (exists inv pub done file rest answers payload q w w' e l2, (operationOf args).1 = "sign"%string /\ parseSign args = Ok inv /\
        resolvePublicKey (rn_world r) (iv_keyFile inv) = Ok pub /\ iv_files inv = done ++ file :: rest /\ args' = one_payload inv file /\
        Forall2 (signed_at inv pub) done answers /\
        l = signing_acts done answers ++ Asked (request_for opts w inv pub payload) :: l2 /\ asks_nothing l2 /\
        (readPayload file q : result bytes * P) = (Ok payload, w) /\
        mc_SignPayload (request_for opts w inv pub payload) w = (inr e, w') /\ isFallbackWorthy e = true)).
Proof.
  unfold Run. destruct (operationOf args) as [operation carries]. cbn [fst snd].
  destruct carries; cbn [negb].
  2: { unfold not_gits. destruct (isHelpRequest args); rewrite !state_bind_unfold; by cbn. }
  assert (forall why, handOver opts args why r = (Becomes path argv, r') ->
    exists l, argv = path :: args /\ rn_acts r' = rn_acts r ++ l /\ asks_nothing l) as Hwhole.
  { intros why Hh. pose proof (handOver_run args why r) as Hr. rewrite Hh in Hr.
    destruct Hr as (_ & (l & Hl & Hq) & [?|(path' & _ & [= <- ->])]); [done|]. by exists l. }
  case_bool_decide as Hop.
  { intros (l & -> & Hl & Hq)%Hwhole. split; [done|]. exists args, l. split; [done|]. split; [done|]. left. by split_and!. }
  destruct (parseSign args) as [inv|x].
  2: { intros (l & -> & Hl & Hq)%Hwhole. split; [done|]. exists args, l. split; [done|]. split; [done|]. left. by split_and!. }
  rewrite state_bind_unfold. cbn [gets fst snd]. destruct (resolvePublicKey (rn_world r) (iv_keyFile inv)) as [pub|x] eqn:Hkey.
  2: { intros (l & -> & Hl & Hq)%Hwhole. split; [done|]. exists args, l. split; [done|]. split; [done|]. left. split_and!; try done.
       intros _ inv' [= <-]. by exists x. }
  pose proof (sign_files_run inv pub (iv_files inv) r) as Hs. intros Hr. rewrite Hr in Hs. destruct Hs as (l & Hl & Hin).
  destruct (in_turn_handed _ _ _ _ _ _ _ Hin)
    as (done & file & rest & answers & payload & q & w & w' & e & l2 & Hfiles & -> & Hsigned & Hacts & Hq & Hrest).
  split; [done|]. exists (one_payload inv file), l. split; [done|]. split; [exact Hl|]. right.
  by exists inv, pub, done, file, rest, answers, payload, q, w, w', e, l2.
Qed.

(** ** Signing *)

Section Signed.
Context (ok : P -> Prop) `{laws : !InstanceLaws ok}.

Lemma readPayload_ok file p : ok p -> ok (readPayload file p).2.
Proof. unfold readPayload. case_bool_decide; [apply il_drained|done]. Qed.

Lemma writeSignature_ok file text (r : Run_state P) : ok (rn_world r) -> ok (rn_world (writeSignature file text r).2).
Proof.
  intros Hok. unfold writeSignature. case_bool_decide; rewrite !state_bind_unfold, !on_world_run; cbn; by (apply il_stdout || apply il_WriteFile).
Qed.

Lemma handOver_ok args why (r : Run_state P) : ok (rn_world r) -> ok (rn_world (handOver opts args why r).2).
Proof.
  intros Hok. pose proof (handOver_run args why r) as Hh. destruct (handOver opts args why r) as [ending r']. destruct Hh as (Hw & _). cbn. by rewrite Hw.
Qed.

Lemma signFile_ok inv pub file (r : Run_state P) : ok (rn_world r) -> ok (rn_world (signFile opts inv pub file r).2).
Proof.
  intros Hok. unfold signFile. rewrite state_bind_unfold, on_world_run.
  pose proof (readPayload_ok file _ Hok) as Hok1. destruct (readPayload file (rn_world r)) as [[payload|x] w]; cbn [fst snd] in *.
  2: by rewrite state_bind_unfold.
  rewrite state_bind_unfold. cbn [gets fst snd rn_world]. rewrite state_bind_unfold. cbn [doing modify fst snd rn_world rn_acts].
  rewrite state_bind_unfold, on_world_run. cbn [rn_world rn_acts].
  pose proof (il_SignPayload (request_for opts w inv pub payload) w Hok1) as Hok2.
  destruct (mc_SignPayload _ w) as [[resp|e] w']; cbn [fst snd] in *.
  - destruct (so_approved resp); cbn [negb]; [|by rewrite state_bind_unfold].
    rewrite state_bind_unfold. match goal with |- context [writeSignature ?f ?t ?r1] =>
      pose proof (writeSignature_ok f t r1 Hok2) as Hok3; destruct (writeSignature f t r1) as [[x|] r2] end; cbn [fst snd] in *;
      [by rewrite state_bind_unfold|done].
  - destruct (isFallbackWorthy e); [by apply handOver_ok|by rewrite state_bind_unfold].
Qed.

(** One file, done: what was read from it was asked for in the namespace and by
    the key of the command line, and what was written is a signature of it. *)
Definition done_with (inv : invocation) (pub : PublicKey) (file : string) (req : SignPayloadRequest) (text : string) : Prop :=
  (exists p p', ok p /\ (readPayload file p : result bytes * P) = (Ok (sp_payload req), p')) /\
  sp_namespace req = iv_namespace inv /\ sp_public_key req = ssh_Marshal pub /\ signature_of req text.

Lemma in_turn_done inv pub files (r : Run_state P) l : ok (rn_world r) -> in_turn inv pub files r (Exits 0) l ->
  exists answers, l = concat (zip_with (fun file '(req, text) => [Asked req; wrote file text]) files answers) /\
    Forall2 (fun file '(req, text) => done_with inv pub file req text) files answers.
Proof.
  intros Hok Hin. remember (Exits 0) as ending eqn:He. revert Hok. induction Hin as [r|file files r r1 l1 ending l Hsign Hf _ IH|]; intros Hok.
  - exists []. by split.
  - pose proof (signFile_ok inv pub file r Hok) as Hok1. rewrite Hsign in Hok1. destruct (IH He Hok1) as (answers & -> & Hall).
    inversion Hf as [|payload w w' resp Hread Hask Happ| |]; subst.
    exists ((request_for opts w inv pub payload, so_armored_signature resp) :: answers). split; [done|].
    constructor; [|done]. split; [by exists (rn_world r), w|]. split; [done|]. split; [done|].
    eapply il_signed; [|exact Hask|exact Happ]. pose proof (readPayload_ok file _ Hok) as Hw. by rewrite Hread in Hw.
  - done.
Qed.

(** C9. A run of git's command line that ends with 0 has signed: it was one this
    program understands, the key was identified, and for every file in the
    order of the line one signature was asked for - of what was read from it,
    in the namespace and by the key of the line - and what was written beside
    it, or to the output for the standard input, reads as a signature by that
    key over exactly that; nothing else was asked or written. *)
Theorem finished_is_signed args (r r' : Run_state P) :
  ok (rn_world r) -> (operationOf args).2 = true -> Run opts args r = (Exits 0, r') ->
  exists inv pub answers, parseSign args = Ok inv /\ resolvePublicKey (rn_world r) (iv_keyFile inv) = Ok pub /\
    rn_acts r' = rn_acts r ++ concat (zip_with (fun file '(req, text) => [Asked req; wrote file text]) (iv_files inv) answers) /\
    Forall2 (fun file '(req, text) => done_with inv pub file req text) (iv_files inv) answers.
Proof.
  intros Hok Hc. unfold Run. destruct (operationOf args) as [operation carries]. cbn [fst snd] in Hc. subst carries. cbn [negb].
  assert (forall why, handOver opts args why r <> (Exits 0, r')) as Hnot.
  { intros why Hh. pose proof (handOver_run args why r) as Hr. rewrite Hh in Hr. by destruct Hr as (_ & _ & [?|(? & _ & ?)]). }
  case_bool_decide; [by intros ?%Hnot|]. destruct (parseSign args) as [inv|x]; [|by intros ?%Hnot].
  rewrite state_bind_unfold. cbn [gets fst snd]. destruct (resolvePublicKey (rn_world r) (iv_keyFile inv)) as [pub|x] eqn:Hkey; [|by intros ?%Hnot].
  pose proof (sign_files_run inv pub (iv_files inv) r) as Hs. intros Hr. rewrite Hr in Hs. destruct Hs as (l & Hl & Hin).
  destruct (in_turn_done inv pub _ r l Hok Hin) as (answers & -> & Hall). by exists inv, pub, answers.
Qed.

End Signed.

End Runs.
