(* ===== verification/SignCliRuns.v ===== *)
(** * SignCliRuns: the signing program and the instance together

    The signing service of [LocalApi] as the instance behind the socket of
    [SignCli], and concrete runs: git's command line signed from end to end,
    and what the program does with lines git does not build. *)

From S2P Require Import Prelude.
From S2P Require Import GoText.
From S2P Require Import Proto.
From S2P Require Import Ssh.
From S2P Require Import Sshsig.
From S2P Require Import Armour.
From S2P Require Import Parked.
From S2P Require Import ParkedSpec.
From S2P Require Import EngineSpec.
From S2P Require Import KnownHosts.
From S2P Require Import Rpc.
From S2P Require Import Agent.
From S2P Require Import AgentEngine.
From S2P Require Import Diff.
From S2P Require Import LocalApi.
From S2P Require Import LocalApiSpec.
From S2P Require Import LocalApiEngine.
From S2P Require Import SignCli.
From S2P Require Import SignCliSpec.

Local Open Scope Z_scope.
Local Open Scope ladulas_scope.

(** ** The instance at the socket *)

Section Socket.
Context `{Unicode} `{Hashes} `{Ssh} `{Codec ApprovalResponse}.
Context {P : Type} `{!HostSystem P} `{!Process P} `{store : !KeyStore P} `{peers : !RemoteKeys P P} `{approver : !SignedApprover P}.
Context {F : Type} (remote : bool) (peer : option ClientProcess).

(** A call over the socket: the server of the instance, and the rest of the
    machine. *)
Definition over_the_socket (msg : SignPayloadRequest) : state (Server P * F) (SignPayloadResponse + call_error) := fun '(s, f) =>
  let '(answer, s') := SignPayload remote peer msg s in
  (match answer with inl resp => inl resp | inr e => inr (CallFailed e) end, (s', f)).

(** What [SignCli] relies on is what [LocalApi] promises. *)
Lemma over_the_socket_signs `{!SshLaws} (ok : P -> Prop) `{!RemoteLaws ok} `{!StoreLaws} msg (q : Server P * F) resp q' :
  ok (sv_rest q.1) -> over_the_socket msg q = (inl resp, q') -> so_approved resp = true ->
  signature_of msg (so_armored_signature resp).
Proof.
  destruct q as [s f]. intros Hok. unfold over_the_socket.
  pose proof (SignPayload_given remote peer ok msg s Hok) as Hg. destruct (SignPayload remote peer msg s) as [[out|e] s']; [|done].
  cbn in Hg. intros [= -> <-] Happ. rewrite Happ in Hg. exact (proj1 Hg).
Qed.

End Socket.

(** ** A machine *)

Import Toy.
Import ToyKeys.
Import ToyAgent.
Import ToyLocal.

Module ToyMachine.

(** The files by name, what waits on the standard input, and whether an
    instance runs. *)
Record disk := mk_disk { dk_files : list (string * bytes); dk_stdin : bytes; dk_running : bool }.
Abbreviation machine := (Server program * disk)%type.

Definition read (name : string) (files : list (string * bytes)) : result bytes :=
  match find (fun f => bool_decide (f.1 = name)) files with Some f => Ok f.2 | None => Err (errors_New "no such file") end.

#[export] Instance toy_machine : Machine machine := {|
  mc_ReadFile name q := read name (dk_files q.2);
  mc_WriteFile name text q := (None, (q.1, mk_disk ((name, of_string text) :: dk_files q.2) (dk_stdin q.2) (dk_running q.2)));
  mc_stdin q := Ok (dk_stdin q.2);
  mc_drained q := (q.1, mk_disk (dk_files q.2) [] (dk_running q.2));
  mc_stdout text q := (None, q);
  mc_SignPayload msg q :=
    if dk_running q.2
    then over_the_socket (approver := engine_signed_approver toy_options) true None msg q
    else (inr NoInstance, q);
  mc_LookPath q := Ok "/usr/bin/ssh-keygen"%string;
  mc_Exec path argv q := None;
  mc_git q args := None |}.

(** A key file holds the public half as it is. *)
#[export] Instance toy_key_files : KeyFiles := {|
  kf_ParseAuthorizedKey body := Ok body;
  kf_ParsePrivateKey body := Err (errors_New "no private key") |}.

#[export] Instance toy_machine_laws : InstanceLaws (P := machine) (fun _ => True).
Proof.
  split; try done. intros msg [s d] resp q' _ Hs Happ. cbn in Hs. destruct (dk_running d); [|done].
  by apply (over_the_socket_signs (approver := engine_signed_approver toy_options) true None (fun _ => True) msg (s, d) resp q').
Qed.

Definition defaults : RunOptions := mk_RunOptions emp 0 DefaultLimits false.
Definition desk (running : bool) : Run_state machine :=
  mk_Run (serving, mk_disk [("key.pub", [x6b]); ("COMMIT", commit); ("NOTES", of_string "notes")]%string (of_string "piped") running) [].
Definition git_line (file : string) : list string := ["-Y"; "sign"; "-n"; "git"; "-f"; "key.pub"; "-U"; file]%string.
Definition file_line (files : list string) : list string := ["-Y"; "sign"; "-n"; "file"; "-f"; "key.pub"]%string ++ files.

End ToyMachine.
Import ToyMachine.

(** Git's command line, from end to end: the signature is beside the commit. *)
Example commit_signed_for_git :
  let '(ending, r) := Run defaults (git_line "COMMIT") (desk true) in
  ending = Exits 0 /\ is_ok (mc_ReadFile "COMMIT.sig" (rn_world r)) = true.
Proof. vm_compute. done. Qed.

(** What is no commit is refused, and not handed to anybody. *)
Example refused_for_git :
  (Run defaults (git_line "NOTES") (desk true)).1 = Exits 1.
Proof. vm_compute. done. Qed.

(** A person's command line goes nowhere. *)
Example typed_by_a_person :
  (Run defaults [] (desk true)).1 = Exits 1 /\ (Run defaults ["-t"; "ed25519"]%string (desk true)).1 = Exits 1 /\
  (Run defaults ["--help"%string] (desk true)).1 = Exits 0 /\
  (Run defaults ["-Y"; "verify"; "-n"; "git"]%string (desk true)).1 =
    Becomes "/usr/bin/ssh-keygen" ["/usr/bin/ssh-keygen"; "-Y"; "verify"; "-n"; "git"]%string.
Proof. vm_compute. done. Qed.

(** When nothing answers for the first of two files, this process becomes the
    one that signs it, and the second is signed by nobody. *)
Example second_file_is_dropped :
  (Run defaults (file_line ["COMMIT"; "NOTES"]%string) (desk false)).1 =
    Becomes "/usr/bin/ssh-keygen" ["/usr/bin/ssh-keygen"; "-Y"; "sign"; "-n"; "file"; "-f"; "key.pub"; "COMMIT"]%string.
Proof. vm_compute. done. Qed.

(** The standard input was read to be shown to the instance: what [ssh-keygen]
    is told to sign of it then is nothing. *)
Example nothing_left_to_sign :
  let '(ending, r) := Run defaults (file_line []) (desk false) in
  ending = Becomes "/usr/bin/ssh-keygen" ["/usr/bin/ssh-keygen"; "-Y"; "sign"; "-n"; "file"; "-f"; "key.pub"; "-"]%string /\
  mc_stdin (rn_world (desk false)) = Ok (of_string "piped") /\ mc_stdin (rn_world r) = Ok [].
Proof. vm_compute. done. Qed.

(** A file whose name starts with a dash is named after "--", and handed over
    without it. *)
Example dashed_file_becomes_a_flag :
  let line := file_line ["--"; "-x"]%string in
  (iv_files <$> parseSign line) = Ok ["-x"%string] /\
  match parseSign line with Ok inv => is_ok (parseSign (one_payload inv "-x")) = false | Err _ => False end.
Proof. vm_compute. done. Qed.

(** ** Witnesses *)

Lemma handed_over_reads_back_witness :
  parseSign (one_payload (mk_invocation "git" "key.pub" true ["COMMIT"%string] []) "COMMIT") =
    Ok (mk_invocation "git" "key.pub" true ["COMMIT"%string] []).
Proof.
  refine (proj2 (handed_over_reads_back (git_line "COMMIT") (mk_invocation "git" "key.pub" true ["COMMIT"%string] []) "COMMIT" _ _)).
  - vm_compute. reflexivity.
  - right. reflexivity.
Defined.

Lemma only_gits_lines_are_handed_over_witness :
  exists args', ["/usr/bin/ssh-keygen"; "-Y"; "sign"; "-n"; "git"; "-f"; "key.pub"; "-U"; "COMMIT"]%string = "/usr/bin/ssh-keygen"%string :: args'.
Proof.
  destruct (only_gits_lines_are_handed_over defaults (git_line "COMMIT") (desk false) "/usr/bin/ssh-keygen"
    ["/usr/bin/ssh-keygen"; "-Y"; "sign"; "-n"; "git"; "-f"; "key.pub"; "-U"; "COMMIT"]%string
    (Run defaults (git_line "COMMIT") (desk false)).2) as (_ & args' & l & Heq & _).
  - apply first_is. vm_compute. reflexivity.
  - exists args'. exact Heq.
Defined.

Lemma finished_is_signed_witness :
  exists inv pub answers, parseSign (git_line "COMMIT") = Ok inv /\
    Forall2 (fun file '(req, text) => done_with (P := machine) (fun _ => True) inv pub file req text) (iv_files inv) answers.
Proof.
  destruct (finished_is_signed defaults (fun _ => True) (git_line "COMMIT") (desk true) (Run defaults (git_line "COMMIT") (desk true)).2)
    as (inv & pub & answers & Hp & _ & _ & Hall).
  - exact I.
  - reflexivity.
  - apply first_is. vm_compute. reflexivity.
  - exists inv, pub, answers. split; [exact Hp|exact Hall].
Defined.
