(* ===== verification/Keyring.v ===== *)
(** * Keyring: the SSH keys the store holds, and the ones on their way

    [pkg/keystore/sshkeys.go], [handover.go], [opensshcomment.go] and
    [gate.go]: importing, making, adopting, listing, using and removing keys;
    the queue of keys this instance has decided to hand to a peer; and the
    offers of keys peers have handed to it.  The store is the part of the
    document those operations read and write, with what the last [save] that
    succeeded put on disk, and a stream each for what a [save] comes to, what
    [crypto/rand] gives and what the clock answers.  A failed [save] leaves
    the change in memory, as in the source.

    Private keys are [golang.org/x/crypto/ssh], [crypto/ed25519] and
    [encoding/pem], the class [KeyFiles]. *)

From S2P Require Import Prelude.
From S2P Require Import GoText.
From S2P Require Import Proto.
From S2P Require Import Ssh.
From S2P Require Import Pairings.
From S2P Require Import Wakeups.

Local Open Scope Z_scope.
Local Open Scope ladulas_scope.

(** ** Key files *)

(** [pem.Block], whose headers nothing here uses. *)
Record Block := mk_Block { bk_Type : string; bk_Bytes : bytes }.

(** What reads from [rand.Reader] is given what there was to read; [None] when
    reading failed. *)
Class KeyFiles `{Ssh} := {
  RawKey : Type;
  ed25519_GenerateKey : option bytes -> result RawKey;
  ParseRawPrivateKey : bytes -> result RawKey;
  ParseRawPrivateKeyWithPassphrase : bytes -> string -> result RawKey;
  MarshalPrivateKey : option bytes -> RawKey -> string -> result Block;
  ParsePrivateKey : bytes -> result Signer;
  MarshalAuthorizedKey : PublicKey -> string;
  pem_Decode : bytes -> option Block;
  pem_EncodeToMemory : Block -> bytes
}.

(** [errors.As(err, &missing)] for [ssh.PassphraseMissingError]. *)
Definition PassphraseMissing (e : error) : bool := bool_decide ("ssh.PassphraseMissingError"%string ∈ e_is e).

(** ** Messages *)

Inductive KeyOrigin :=
| KEY_ORIGIN_UNSPECIFIED | KEY_ORIGIN_IMPORTED | KEY_ORIGIN_GENERATED | KEY_ORIGIN_RECEIVED | KEY_ORIGIN_ADOPTED.
Record KeyTransfer := mk_KeyTransfer {
  kt_peer_fingerprint : string;
  kt_peer_name : string;
  kt_at : option time
}.
Record StoredKey := mk_StoredKey {
  sk_label : string;
  sk_fingerprint : string;
  sk_algorithm : string;
  sk_comment : string;
  sk_public_key : bytes;
  sk_private_key : bytes;
  sk_added_at : option time;
  sk_origin : KeyOrigin;
  sk_disabled : bool;
  sk_hardware_handle : string;
  sk_handed_to : list KeyTransfer;
  sk_received_from : option KeyTransfer;
  sk_agent_use : option bool
}.
Record PendingKeyOffer := mk_PendingKeyOffer {
  po_id : string;
  po_peer_fingerprint : string;
  po_peer_name : string;
  po_label : string;
  po_comment : string;
  po_algorithm : string;
  po_fingerprint : string;
  po_public_key : bytes;
  po_private_key : bytes;
  po_received_at : option time;
  po_handover_id : string
}.
Record QueuedKeyHandover := mk_QueuedKeyHandover {
  qh_id : string;
  qh_peer_fingerprint : string;
  qh_peer_name : string;
  qh_label : string;
  qh_comment : string;
  qh_fingerprint : string;
  qh_private_key : bytes;
  qh_queued_at : option time
}.

(** What the management surface shows of a key; it has its own copy of the
    origins, which [keyOrigin] maps one to one. *)
Record KeyInfo := mk_KeyInfo {
  ki_label : string;
  ki_fingerprint : string;
  ki_algorithm : string;
  ki_comment : string;
  ki_public_key : bytes;
  ki_origin : KeyOrigin;
  ki_disabled : bool;
  ki_agent_use : option bool;
  ki_added_at : option time;
  ki_hardware : bool;
  ki_handed_to : list KeyTransfer;
  ki_received_from : option KeyTransfer
}.

#[export] Instance KeyOrigin_eq_dec : EqDecision KeyOrigin.
Proof. solve_decision. Defined.
#[export] Instance KeyTransfer_eq_dec : EqDecision KeyTransfer.
Proof. solve_decision. Defined.
#[export] Instance StoredKey_eq_dec : EqDecision StoredKey.
Proof. solve_decision. Defined.
#[export] Instance PendingKeyOffer_eq_dec : EqDecision PendingKeyOffer.
Proof. solve_decision. Defined.
#[export] Instance QueuedKeyHandover_eq_dec : EqDecision QueuedKeyHandover.
Proof. solve_decision. Defined.

Definition set_handed_to (l : list KeyTransfer) (k : StoredKey) : StoredKey :=
  mk_StoredKey (sk_label k) (sk_fingerprint k) (sk_algorithm k) (sk_comment k) (sk_public_key k) (sk_private_key k)
    (sk_added_at k) (sk_origin k) (sk_disabled k) (sk_hardware_handle k) l (sk_received_from k) (sk_agent_use k).
Definition set_disabled (b : bool) (k : StoredKey) : StoredKey :=
  mk_StoredKey (sk_label k) (sk_fingerprint k) (sk_algorithm k) (sk_comment k) (sk_public_key k) (sk_private_key k)
    (sk_added_at k) (sk_origin k) b (sk_hardware_handle k) (sk_handed_to k) (sk_received_from k) (sk_agent_use k).
Definition set_agent_use (b : bool) (k : StoredKey) : StoredKey :=
  mk_StoredKey (sk_label k) (sk_fingerprint k) (sk_algorithm k) (sk_comment k) (sk_public_key k) (sk_private_key k)
    (sk_added_at k) (sk_origin k) (sk_disabled k) (sk_hardware_handle k) (sk_handed_to k) (sk_received_from k) (Some b).

(** ** The comment of a key file *)

Definition openSSHMagic : bytes := of_string "openssh-key-v1" ++ [x00].

Definition readString (b : bytes) : option (bytes * bytes) :=
  if bool_decide (length b < 4)%nat then None
  else
    let n := get_u32 (take 4 b) in
    if Z.of_nat (length b) - 4 <? n then None
    else Some (take (Z.to_nat n) (drop 4 b), drop (4 + Z.to_nat n) b).

Definition validPadding (pad : bytes) : bool :=
  bool_decide (length pad < 8)%nat && bool_decide (map byte_val pad = seqZ 1 (Z.of_nat (length pad))).

(** The strings of a private section: the last one read, and what is left. *)
Fixpoint last_field (fuel : nat) (last fields : bytes) : bytes * bytes :=
  match fuel with
  | O => (last, fields)
  | S n => match readString fields with
           | None => (last, fields)
           | Some (field, remainder) => last_field n field remainder
           end
  end.

(** [numKeys], the public key, and the private section after its two check
    integers. *)
Definition privateFields (rest : bytes) : option bytes :=
  if bool_decide (length rest < 4)%nat then None
  else if negb (get_u32 (take 4 rest) =? 1) then None
  else
    '(_, rest) ← readString (drop 4 rest);
    '(priv, _) ← readString rest;
    if bool_decide (length priv < 8)%nat then None else Some (drop 8 priv).

Definition bodyComment (body : bytes) : option bytes :=
  if negb (bool_decide (take (length openSSHMagic) body = openSSHMagic)) then None
  else
    '(cipherName, rest) ← readString (drop (length openSSHMagic) body);
    if negb (bool_decide (cipherName = of_string "none")) then None
    else
      '(_, rest) ← readString rest;
      '(_, rest) ← readString rest;
      fields ← privateFields rest;
      let '(last, tail) := last_field (length fields) [] fields in
      if validPadding tail then Some last else None.

Definition keyComment `{KeyFiles} (keyPEM : bytes) : string :=
  match pem_Decode keyPEM with
  | None => emp
  | Some block =>
    if negb (bool_decide (bk_Type block = "OPENSSH PRIVATE KEY"%string)) then emp
    else to_string (default [] (bodyComment (bk_Bytes block)))
  end.

(** ** The store *)

Record document := mk_document {
  dc_keys : list StoredKey;
  dc_offers : list PendingKeyOffer;
  dc_queued : list QueuedKeyHandover
}.
Record keyring := mk_keyring {
  kg_doc : document;
  kg_saved : document;
  kg_disk : nat -> option error;
  kg_writes : nat;
  kg_random : nat -> option bytes;
  kg_draws : nat;
  kg_clock : nat -> time;
  kg_ticks : nat
}.
Definition set_doc (d : document) (g : keyring) : keyring :=
  mk_keyring d (kg_saved g) (kg_disk g) (kg_writes g) (kg_random g) (kg_draws g) (kg_clock g) (kg_ticks g).
Definition kg_keys (g : keyring) : list StoredKey := dc_keys (kg_doc g).
Definition kg_offers (g : keyring) : list PendingKeyOffer := dc_offers (kg_doc g).
Definition kg_queued (g : keyring) : list QueuedKeyHandover := dc_queued (kg_doc g).
Definition set_keys (l : list StoredKey) (g : keyring) : keyring :=
  set_doc (mk_document l (kg_offers g) (kg_queued g)) g.
Definition set_offers (l : list PendingKeyOffer) (g : keyring) : keyring :=
  set_doc (mk_document (kg_keys g) l (kg_queued g)) g.
Definition set_queued (l : list QueuedKeyHandover) (g : keyring) : keyring :=
  set_doc (mk_document (kg_keys g) (kg_offers g) l) g.

Definition kg_save : state keyring (option error) := fun g =>
  let failed := kg_disk g (kg_writes g) in
  (failed,
   mk_keyring (kg_doc g) (match failed with None => kg_doc g | Some _ => kg_saved g end) (kg_disk g) (S (kg_writes g))
     (kg_random g) (kg_draws g) (kg_clock g) (kg_ticks g)).
Definition kg_read : state keyring (option bytes) := fun g =>
  (kg_random g (kg_draws g),
   mk_keyring (kg_doc g) (kg_saved g) (kg_disk g) (kg_writes g) (kg_random g) (S (kg_draws g)) (kg_clock g) (kg_ticks g)).
Definition kg_now : state keyring time := fun g =>
  (kg_clock g (kg_ticks g),
   mk_keyring (kg_doc g) (kg_saved g) (kg_disk g) (kg_writes g) (kg_random g) (kg_draws g) (kg_clock g) (S (kg_ticks g))).

(** A store opened again: the document is the one on disk. *)
Definition reopened (g : keyring) : keyring := set_doc (kg_saved g) g.

(** What a [save] answers, in front of what the operation returns. *)
Definition saved {A} (a : A) : state keyring (result A) :=
  failed ← kg_save; mret (match failed with Some e => Err e | None => Ok a end).

Definition newKeyHandle : state keyring (result string) :=
  buf ← kg_read;
  mret (match buf with
        | None => Err (errors_New "keystore: no randomness for a key handle")
        | Some buf => Ok ("ladulas-key-" +:+ b32_lower buf)
        end).

Definition newOfferID : state keyring (result string) :=
  handle ← newKeyHandle;
  mret (handle ← handle; Ok (TrimPrefix handle "ladulas-key-")).

Definition ErrHardwareKey : error := sentinel "keystore.ErrHardwareKey"
  "keystore: the key is in the secure element and cannot be handed over".
Definition ErrNoSuchOffer : error := sentinel "keystore.ErrNoSuchOffer" "keystore: no key offer with that id".
Definition ErrNoSuchHandover : error := sentinel "keystore.ErrNoSuchHandover"
  "keystore: no queued key handover with that id".
Definition ErrPassphraseRequired : error := sentinel "keystore.ErrPassphraseRequired"
  "keystore: private key is passphrase protected".
Definition ErrDuplicateKey : error := sentinel "keystore.ErrDuplicateKey" "keystore: key already in the store".

Definition MaxPendingKeyOffers : Z := 8.
Definition ErrTooManyOffers : error := errors_New
  ("keystore: " +:+ itoa MaxPendingKeyOffers +:+ " key offers are already waiting to be answered").

Section Keyring.
Context `{Unicode} `{KeyFiles}.

(** The first key with the fingerprint, or - where a reference is taken - the
    label. *)
Definition has_fingerprint (fingerprint : string) (k : StoredKey) : bool := bool_decide (sk_fingerprint k = fingerprint).
Definition is_ref (ref : string) (k : StoredKey) : bool :=
  bool_decide (sk_fingerprint k = ref) || EqualFold (sk_label k) ref.
Definition no_such_key (ref : string) : error := wrap_w emp ErrNoSuchKey (": " +:+ ref).
Definition hardware_key (k : StoredKey) : error := wrap_w emp ErrHardwareKey (": " +:+ sk_label k).
Definition duplicate_key (k : StoredKey) : error := wrap_w emp ErrDuplicateKey (" as " +:+ quote (sk_label k)).

(** *** Adding keys *)

Definition parsePrivateKey (keyPEM : bytes) (passphrase : string) : state keyring (result (Signer * bytes)) :=
  let raw :=
    if bool_decide (passphrase = emp) then ParseRawPrivateKey keyPEM
    else ParseRawPrivateKeyWithPassphrase keyPEM passphrase in
  match raw with
  | Err e =>
    mret (Err (if bool_decide (passphrase = emp) && PassphraseMissing e then ErrPassphraseRequired
               else wrap_w "parse private key: " e emp))
  | Ok raw =>
    entropy ← kg_read;
    match MarshalPrivateKey entropy raw (keyComment keyPEM) with
    | Err e => mret (Err (wrap_w "normalize private key: " e emp))
    | Ok block =>
      let normalized := pem_EncodeToMemory block in
      match ParsePrivateKey normalized with
      | Err e => mret (Err (wrap_w "reparse private key: " e emp))
      | Ok signer => mret (Ok (signer, normalized))
      end
    end
  end.

Definition defaultLabel (pub : PublicKey) (n : nat) : string :=
  let algo := TrimPrefix (TrimPrefix (ssh_Type pub) "ssh-") "ecdsa-sha2-" in
  if bool_decide (n = 0%nat) then algo else algo +:+ "-" +:+ itoa (Z.of_nat n + 1).

Definition addKeyLocked (signer : Signer) (keyPEM : bytes) (label : string) (origin : KeyOrigin)
    (from : option KeyTransfer) : state keyring (result StoredKey) :=
  let pub := signer_PublicKey signer in
  let fingerprint := FingerprintSHA256 pub in
  keys ← gets kg_keys;
  match find_first (has_fingerprint fingerprint) keys with
  | Some k => mret (Err (duplicate_key k))
  | None =>
    let label := if bool_decide (label = emp) then defaultLabel pub (length keys) else label in
    if existsb (fun k => EqualFold (sk_label k) label) keys
    then mret (Err (errors_New ("keystore: label " +:+ quote label +:+ " is already in use")))
    else
      now ← kg_now;
      let key := mk_StoredKey label fingerprint (ssh_Type pub) (keyComment keyPEM) (ssh_Marshal pub) keyPEM (Some now)
        origin false emp [] from None in
      _ ← modify (set_keys (keys ++ [key]));
      saved key
  end.

Definition addKey (signer : Signer) (keyPEM : bytes) (label : string) (origin : KeyOrigin)
    : state keyring (result StoredKey) := addKeyLocked signer keyPEM label origin None.

Definition ImportKey (keyPEM : bytes) (passphrase label : string) : state keyring (result StoredKey) :=
  parsed ← parsePrivateKey keyPEM passphrase;
  match parsed with
  | Err e => mret (Err e)
  | Ok (signer, normalized) => addKey signer normalized label KEY_ORIGIN_IMPORTED
  end.

(** Writing a key as a file and reading it back, [what] naming the key in the
    errors. *)
Definition add_marshalled (private : RawKey) (comment label : string) (what reparsed : string) (origin : KeyOrigin)
    : state keyring (result StoredKey) :=
  entropy ← kg_read;
  match MarshalPrivateKey entropy private comment with
  | Err e => mret (Err (wrap_w ("marshal " +:+ what +:+ ": ") e emp))
  | Ok block =>
    let keyPEM := pem_EncodeToMemory block in
    match ParsePrivateKey keyPEM with
    | Err e => mret (Err (wrap_w ("reparse " +:+ reparsed +:+ ": ") e emp))
    | Ok signer => addKey signer keyPEM label origin
    end
  end.

Definition GenerateKey (label comment : string) : state keyring (result StoredKey) :=
  let comment := if bool_decide (comment = emp) then label else comment in
  entropy ← kg_read;
  match ed25519_GenerateKey entropy with
  | Err e => mret (Err (wrap_w "generate key: " e emp))
  | Ok priv => add_marshalled priv comment label "key" "generated key" KEY_ORIGIN_GENERATED
  end.

Definition AdoptKey (private : RawKey) (comment label : string) : state keyring (result StoredKey) :=
  if bool_decide (label = emp) then mret (Err (errors_New "keystore: an adopted key needs a label"))
  else add_marshalled private comment label "the parked key" "the parked key" KEY_ORIGIN_ADOPTED.

(** *** Reading keys *)

Definition AgentUse (k : StoredKey) : bool := default true (sk_agent_use k).
Definition RefAgentUse (ref : KeyRef) : bool := default true (kr_agent_use ref).

Definition KeyRef_of (k : StoredKey) : KeyRef :=
  mk_KeyRef (sk_fingerprint k) (sk_algorithm k) (sk_public_key k) (sk_comment k) (sk_label k) (Some (AgentUse k)).

Definition KeyInfo_of (k : StoredKey) : KeyInfo :=
  mk_KeyInfo (sk_label k) (sk_fingerprint k) (sk_algorithm k) (sk_comment k) (sk_public_key k) (sk_origin k)
    (sk_disabled k) (Some (AgentUse k)) (sk_added_at k) (negb (bool_decide (sk_hardware_handle k = emp)))
    (sk_handed_to k) (sk_received_from k).

Definition KeyRefs (g : keyring) : list KeyRef :=
  map KeyRef_of (List.filter (fun k => negb (sk_disabled k)) (kg_keys g)).

Definition AuthorizedKeyLine (k : StoredKey) : result string :=
  match ParsePublicKey (sk_public_key k) with
  | Err e => Err (wrap_w ("parse the public key of " +:+ quote (sk_label k) +:+ ": ") e emp)
  | Ok pub =>
    let line := TrimSpace (MarshalAuthorizedKey pub) in
    Ok (if bool_decide (sk_comment k = emp) then line else line +:+ " " +:+ sk_comment k)
  end.

(** *** Using and changing keys *)

(** What [Signer] returns: a signer, with the reason its gate is asked with
    when there is one. *)
Inductive storeSigner :=
| plainSigner (s : Signer)
| gatedSigner (s : Signer) (reason : string).

Definition signingReason (label : string) : string := "Sign with " +:+ label.

(** [hardwareSigner] reaches into the secure element; [gate] is whether the
    platform installed one. *)
Definition Signer_of (hardwareSigner : StoredKey -> result Signer) (gate : bool) (fingerprint : string) (g : keyring)
    : result (storeSigner * StoredKey) :=
  match find_first (fun k => has_fingerprint fingerprint k && negb (sk_disabled k)) (kg_keys g) with
  | None => Err (no_such_key fingerprint)
  | Some k =>
    if negb (bool_decide (sk_hardware_handle k = emp))
    then (s ← hardwareSigner k; Ok (plainSigner s, k))
    else
      match ParsePrivateKey (sk_private_key k) with
      | Err e => Err (wrap_w ("load key " +:+ quote (sk_label k) +:+ ": ") e emp)
      | Ok s => Ok (if gate then gatedSigner s (signingReason (sk_label k)) else plainSigner s, k)
      end
  end.

(** [hardware] deletes a key by its handle, on an instance with a secure
    element. *)
Definition RemoveKey (hardware : option (string -> option error)) (ref : string) : state keyring (option error) :=
  keys ← gets kg_keys;
  match last (List.filter (is_ref ref) keys) with
  | None => mret (Some (no_such_key ref))
  | Some removed =>
    _ ← modify (set_keys (List.filter (fun k => negb (is_ref ref k)) keys));
    failed ← kg_save;
    mret (match failed with
          | Some e => Some e
          | None =>
            match hardware with
            | Some Delete =>
              if bool_decide (sk_hardware_handle removed = emp) then None
              else
                match Delete (sk_hardware_handle removed) with
                | Some e => Some (wrap_w ("keystore: " +:+ quote (sk_label removed) +:+
                    " was removed from the store, but the secure element still holds it: ") e emp)
                | None => None
                end
            | None => None
            end
          end)
  end.

(** The first key a test picks, changed. *)
Fixpoint change_first (p : StoredKey -> bool) (f : StoredKey -> StoredKey) (l : list StoredKey)
    : option (StoredKey * list StoredKey) :=
  match l with
  | [] => None
  | k :: l' =>
    if p k then Some (f k, f k :: l')
    else '(k', l'') ← change_first p f l'; Some (k', k :: l'')
  end.

Definition change_key (ref : string) (f : StoredKey -> StoredKey) : state keyring (result StoredKey) :=
  keys ← gets kg_keys;
  match change_first (is_ref ref) f keys with
  | None => mret (Err (no_such_key ref))
  | Some (k, changed) => _ ← modify (set_keys changed); saved k
  end.

Definition SetKeyDisabled (ref : string) (disabled : bool) : state keyring (option error) :=
  changed ← change_key ref (set_disabled disabled);
  mret (match changed with Ok _ => None | Err e => Some e end).

Definition SetKeyAgentUse (ref : string) (use : bool) : state keyring (result StoredKey) :=
  change_key ref (set_agent_use use).

(** *** Handing keys over: the sender *)

Definition PortableKey (ref : string) (g : keyring) : result StoredKey :=
  match find_first (is_ref ref) (kg_keys g) with
  | None => Err (no_such_key ref)
  | Some k => if negb (bool_decide (sk_hardware_handle k = emp)) then Err (hardware_key k) else Ok k
  end.

Definition handed (done : QueuedKeyHandover) (at_ : time) (k : StoredKey) : StoredKey :=
  set_handed_to
    (List.filter (fun t => negb (bool_decide (kt_peer_fingerprint t = qh_peer_fingerprint done))) (sk_handed_to k) ++
     [mk_KeyTransfer (qh_peer_fingerprint done) (qh_peer_name done) (Some at_)]) k.

Definition noteHandoverLocked (done : QueuedKeyHandover) (at_ : time) (l : list StoredKey) : list StoredKey :=
  match change_first (has_fingerprint (qh_fingerprint done)) (handed done at_) l with
  | Some (_, changed) => changed
  | None => l
  end.

Definition same_handover (peer fingerprint : string) (q : QueuedKeyHandover) : bool :=
  bool_decide (qh_peer_fingerprint q = peer) && bool_decide (qh_fingerprint q = fingerprint).

Definition QueueHandover (peerFingerprint peerName : string) (key : StoredKey) (at_ : time)
    : state keyring (result QueuedKeyHandover) :=
  if negb (bool_decide (sk_hardware_handle key = emp)) then mret (Err (hardware_key key))
  else
    id ← newOfferID;
    match id with
    | Err e => mret (Err e)
    | Ok id =>
      queued ← gets kg_queued;
      let kept := List.filter (fun q => negb (same_handover peerFingerprint (sk_fingerprint key) q)) queued in
      let handover := mk_QueuedKeyHandover id peerFingerprint peerName (sk_label key) (sk_comment key)
        (sk_fingerprint key) (sk_private_key key) (Some at_) in
      _ ← modify (set_queued (kept ++ [handover]));
      saved handover
    end.

Definition has_id (id : string) (q : QueuedKeyHandover) : bool := bool_decide (qh_id q = id).

Definition CompleteHandover (id : string) (at_ : time) : state keyring (option error) :=
  queued ← gets kg_queued;
  match last (List.filter (has_id id) queued) with
  | None => mret (Some (wrap_w emp ErrNoSuchHandover (": " +:+ id)))
  | Some done =>
    _ ← modify (set_queued (List.filter (fun q => negb (has_id id q)) queued));
    keys ← gets kg_keys;
    _ ← modify (set_keys (noteHandoverLocked done at_ keys));
    kg_save
  end.

Definition for_peer (fingerprint : string) (q : QueuedKeyHandover) : bool :=
  bool_decide (qh_peer_fingerprint q = fingerprint).

Definition DropPeerHandovers (peerFingerprint : string) : state keyring (option error) :=
  queued ← gets kg_queued;
  if negb (existsb (for_peer peerFingerprint) queued) then mret None
  else _ ← modify (set_queued (List.filter (fun q => negb (for_peer peerFingerprint q)) queued)); kg_save.

(** *** Handing keys over: the receiver *)

Definition same_offer (peer fingerprint : string) (o : PendingKeyOffer) : bool :=
  bool_decide (po_peer_fingerprint o = peer) && bool_decide (po_fingerprint o = fingerprint).

Definition AddKeyOffer (peerFingerprint peerName label comment handoverID : string) (keyPEM : bytes) (at_ : time)
    : state keyring (result PendingKeyOffer) :=
  parsed ← parsePrivateKey keyPEM emp;
  match parsed with
  | Err e => mret (Err e)
  | Ok (signer, normalized) =>
    let public := signer_PublicKey signer in
    let fingerprint := FingerprintSHA256 public in
    let comment := if bool_decide (comment = emp) then keyComment normalized else comment in
    id ← newOfferID;
    match id with
    | Err e => mret (Err e)
    | Ok id =>
      keys ← gets kg_keys;
      match find_first (has_fingerprint fingerprint) keys with
      | Some k => mret (Err (duplicate_key k))
      | None =>
        offers ← gets kg_offers;
        let kept := List.filter (fun o => negb (same_offer peerFingerprint fingerprint o)) offers in
        if MaxPendingKeyOffers <=? Z.of_nat (length kept) then mret (Err ErrTooManyOffers)
        else
          let offer := mk_PendingKeyOffer id peerFingerprint peerName label comment (ssh_Type public) fingerprint
            (ssh_Marshal public) normalized (Some at_) handoverID in
          _ ← modify (set_offers (kept ++ [offer]));
          saved offer
      end
    end
  end.

Definition offer_is (id : string) (o : PendingKeyOffer) : bool := bool_decide (po_id o = id).

Definition takeOffer (offers : list PendingKeyOffer) (id : string) : option PendingKeyOffer * list PendingKeyOffer :=
  (last (List.filter (offer_is id) offers), List.filter (fun o => negb (offer_is id o)) offers).

Definition no_such_offer (id : string) : error := wrap_w emp ErrNoSuchOffer (": " +:+ id).

Definition AcceptKeyOffer (id label : string) : state keyring (result StoredKey) :=
  before ← gets kg_offers;
  match takeOffer before id with
  | (None, _) => mret (Err (no_such_offer id))
  | (Some offer, kept) =>
    match ParsePrivateKey (po_private_key offer) with
    | Err e => mret (Err (wrap_w "load the offered key: " e emp))
    | Ok signer =>
      let label := if bool_decide (label = emp) then po_label offer else label in
      _ ← modify (set_offers kept);
      key ← addKeyLocked signer (po_private_key offer) label KEY_ORIGIN_RECEIVED
        (Some (mk_KeyTransfer (po_peer_fingerprint offer) (po_peer_name offer) (po_received_at offer)));
      match key with
      | Err e => _ ← modify (set_offers before); mret (Err e)
      | Ok key => mret (Ok key)
      end
    end
  end.

Definition RefuseKeyOffer (id : string) : state keyring (option error) :=
  offers ← gets kg_offers;
  match takeOffer offers id with
  | (None, _) => mret (Some (no_such_offer id))
  | (Some _, kept) => _ ← modify (set_offers kept); kg_save
  end.

Definition from_peer (fingerprint : string) (o : PendingKeyOffer) : bool :=
  bool_decide (po_peer_fingerprint o = fingerprint).

Definition DropPeerKeyOffers (peerFingerprint : string) : state keyring (option error) :=
  offers ← gets kg_offers;
  if negb (existsb (from_peer peerFingerprint) offers) then mret None
  else _ ← modify (set_offers (List.filter (fun o => negb (from_peer peerFingerprint o)) offers)); kg_save.

End Keyring.

(** ** The gate in front of a signature *)

(** Asks the person at the device, which takes the rest of the program along. *)
Class SignGate (P : Type) := Authorize : string -> state P (option error).

Section Gate.
Context `{Ssh} {P : Type} `{!SignGate P}.

Definition gated_Sign (signer : Signer) (reason : string) (data : bytes) : state P (result Signature) :=
  refused ← Authorize reason;
  mret (match refused with
        | Some e => Err e
        | None => err_ctx "sign: " (signer_Sign signer data)
        end).

Definition gated_SignWithAlgorithm (signer : Signer) (reason : string) (data : bytes) (algorithm : string)
    : state P (result Signature) :=
  match signer_SignWithAlgorithm signer with
  | None => mret (Err (errors_New ("keystore: this key cannot sign with " +:+ algorithm)))
  | Some as_ =>
    refused ← Authorize reason;
    mret (match refused with
          | Some e => Err e
          | None => err_ctx ("sign with " +:+ algorithm +:+ ": ") (as_ data algorithm)
          end)
  end.

End Gate.
