(* ===== verification/KeyringSpec.v ===== *)
(** * KeyringSpec: what the store keeps of its keys

    The theorems about [Keyring]: every run of its operations, a store opened
    again included, leaves one key a fingerprint and a label, at most eight
    offers, and one offer and one queued handover for a peer and a key; an
    offered key is in the store only once it has been accepted; and the
    comment of a key file is read back. *)

From S2P Require Import Prelude.
From S2P Require Import Rules.
From S2P Require Import GoText.
From S2P Require Import Proto.
From S2P Require Import Ssh.
From S2P Require Import Pairings.
From S2P Require Import Wakeups.
From S2P Require Import Vault.
From S2P Require Import VaultSpec.
From S2P Require Import Keyring.

Local Open Scope Z_scope.
Local Open Scope ladulas_scope.

(** ** Every run *)

Section Runs.
Context `{Unicode} `{KeyFiles}.

Definition folded (k : StoredKey) : list rune := map uni_fold (runes (sk_label k)).
Definition offered_by (o : PendingKeyOffer) : string * string := (po_peer_fingerprint o, po_fingerprint o).
Definition queued_for (q : QueuedKeyHandover) : string * string := (qh_peer_fingerprint q, qh_fingerprint q).

Record document_ok (d : document) : Prop := {
  dk_prints : NoDup (map sk_fingerprint (dc_keys d));
  dk_labels : NoDup (map folded (dc_keys d));
  dk_bound : Z.of_nat (length (dc_offers d)) <= MaxPendingKeyOffers;
  dk_offers : NoDup (map offered_by (dc_offers d));
  dk_queued : NoDup (map queued_for (dc_queued d))
}.
Definition ring_ok (g : keyring) : Prop := document_ok (kg_doc g) /\ document_ok (kg_saved g).
Definition stays_ok : relation keyring := fun g g' => ring_ok g -> ring_ok g'.

#[export] Instance stays_ok_preorder : PreOrder stays_ok.
Proof. split; unfold stays_ok; [by intros g Hg|]. intros g1 g2 g3. auto. Qed.

Lemma stays_ok_save : respects stays_ok kg_save.
Proof. intros g [Hd Hs]. unfold kg_save. cbn. split; cbn; [done|]. by destruct (kg_disk g (kg_writes g)). Qed.
Lemma stays_ok_read : respects stays_ok kg_read.
Proof. by intros g Hg. Qed.
Lemma stays_ok_now : respects stays_ok kg_now.
Proof. by intros g Hg. Qed.
Hint Resolve stays_ok_save stays_ok_read stays_ok_now : respects.

Lemma stays_ok_saved {A} (a : A) : respects stays_ok (saved a).
Proof. unfold saved. follow. Qed.
Hint Resolve @stays_ok_saved : respects.

Lemma stays_ok_newOfferID : respects stays_ok newOfferID.
Proof. unfold newOfferID, newKeyHandle. follow. Qed.
Lemma stays_ok_parsePrivateKey pem pass : respects stays_ok (parsePrivateKey pem pass).
Proof. unfold parsePrivateKey. destruct (if bool_decide _ then _ else _); follow. Qed.
Hint Resolve stays_ok_newOfferID stays_ok_parsePrivateKey : respects.

(** What an operation reads before it writes. *)
Lemma respects_reads {A B} (f : keyring -> A) (m : A -> state keyring B) :
  (forall g, stays_ok g (m (f g) g).2) -> respects stays_ok (a ← gets f; m a).
Proof. intros Hm g. rewrite state_bind_unfold. apply Hm. Qed.

Lemma respects_writes {B} (f : keyring -> keyring) (m : state keyring B) g :
  stays_ok g (f g) -> respects stays_ok m -> stays_ok g ((_ ← modify f; m) g).2.
Proof. intros Hf Hm Hg. rewrite state_bind_unfold. by apply Hm, Hf. Qed.

Lemma set_keys_ok l g :
  (ring_ok g -> NoDup (map sk_fingerprint l) /\ NoDup (map folded l)) -> stays_ok g (set_keys l g).
Proof. intros Hl Hg. destruct (Hl Hg). destruct Hg as [[] Hs]. by split; [split|]. Qed.
Lemma set_offers_ok l g :
  (ring_ok g -> Z.of_nat (length l) <= MaxPendingKeyOffers /\ NoDup (map offered_by l)) -> stays_ok g (set_offers l g).
Proof. intros Hl Hg. destruct (Hl Hg). destruct Hg as [[] Hs]. by split; [split|]. Qed.
Lemma set_queued_ok l g : (ring_ok g -> NoDup (map queued_for l)) -> stays_ok g (set_queued l g).
Proof. intros Hl Hg. pose proof (Hl Hg). destruct Hg as [[] Hs]. by split; [split|]. Qed.

Lemma length_filter_bool {A} (p : A -> bool) l : (length (List.filter p l) <= length l)%nat.
Proof. induction l as [|x l IH]; cbn; [done|]. destruct (p x); cbn; lia. Qed.

Lemma drop_keys_ok p g : stays_ok g (set_keys (List.filter p (kg_keys g)) g).
Proof. apply set_keys_ok. intros [[] _]. split; by apply NoDup_map_filter. Qed.
Lemma drop_offers_ok p g : stays_ok g (set_offers (List.filter p (kg_offers g)) g).
Proof.
  apply set_offers_ok. intros [[] _]. split; [|by apply NoDup_map_filter].
  pose proof (length_filter_bool p (kg_offers g)). unfold kg_offers in *. lia.
Qed.
Lemma drop_queued_ok p g : stays_ok g (set_queued (List.filter p (kg_queued g)) g).
Proof. apply set_queued_ok. intros [[] _]. by apply NoDup_map_filter. Qed.

(** Adding. *)
Lemma stays_ok_addKeyLocked signer pem label origin from : respects stays_ok (addKeyLocked signer pem label origin from).
Proof.
  apply respects_reads. intros g. destruct (find_first _ _) as [k|] eqn:Hprint; [done|].
  set (l := if bool_decide (label = emp) then _ else _). cbv zeta beta. match goal with |- context [existsb ?p ?q] => destruct (existsb p q) eqn:Hlabel end; [done|].
  rewrite state_bind_unfold. cbn [kg_now fst snd]. intros Hg. apply respects_writes; [|apply stays_ok_saved|by apply stays_ok_now].
  apply set_keys_ok. intros [[] _]. split; apply NoDup_map_snoc; try done.
  - intros (k & Hk & Hin)%list_elem_of_fmap. rewrite find_first_None, Forall_forall in Hprint. specialize (Hprint k Hin).
    unfold has_fingerprint in Hprint. by apply bool_decide_eq_false in Hprint.
  - intros (k & Hk & Hin)%list_elem_of_fmap. apply not_true_iff_false in Hlabel. apply Hlabel.
    apply existsb_exists. exists k. split; [by apply list_elem_of_In|]. unfold EqualFold. apply bool_decide_eq_true. done.
Qed.
Hint Resolve stays_ok_addKeyLocked : respects.

Lemma change_first_map {B} (h : StoredKey -> B) p f l k l' :
  (forall k, h (f k) = h k) -> change_first p f l = Some (k, l') -> map h l' = map h l.
Proof.
  intros Hf. revert l'. induction l as [|x l IH]; intros l'; cbn; [done|]. destruct (p x).
  - intros [= <- <-]. cbn. by rewrite Hf.
  - destruct (change_first p f l) as [[k' l'']|]; [|done]. intros [= <- <-]. cbn. by rewrite (IH l'').
Qed.

Lemma changed_ok p f k l' g : (forall k, sk_fingerprint (f k) = sk_fingerprint k /\ sk_label (f k) = sk_label k) ->
  change_first p f (kg_keys g) = Some (k, l') -> stays_ok g (set_keys l' g).
Proof.
  intros Hf Hl. apply set_keys_ok. intros [[] _].
  rewrite (change_first_map sk_fingerprint _ _ _ _ _ (fun x => proj1 (Hf x)) Hl).
  rewrite (change_first_map folded p f (kg_keys g) k l'); [done| |done]. intros x. unfold folded. by destruct (Hf x) as [_ ->].
Qed.

Lemma stays_ok_change_key ref f : (forall k, sk_fingerprint (f k) = sk_fingerprint k /\ sk_label (f k) = sk_label k) ->
  respects stays_ok (change_key ref f).
Proof.
  intros Hf. apply respects_reads. intros g. destruct (change_first _ _ _) as [[k l']|] eqn:Hl; [|done].
  apply respects_writes; [by eapply changed_ok|apply stays_ok_saved].
Qed.

(** ** The operations *)

Inductive ring_op :=
| RImport (pem : bytes) (passphrase label : string)
| RGenerate (label comment : string)
| RAdopt (private : RawKey) (comment label : string)
| RRemove (hardware : option (string -> option error)) (ref : string)
| RDisable (ref : string) (disabled : bool)
| RAgentUse (ref : string) (use : bool)
| RQueue (peer name : string) (key : StoredKey) (at_ : time)
| RComplete (id : string) (at_ : time)
| RDropHandovers (peer : string)
| ROffer (peer name label comment handover : string) (pem : bytes) (at_ : time)
| RAccept (id label : string)
| RRefuse (id : string)
| RDropOffers (peer : string)
| RReopen.

Definition ring_step (g : keyring) (o : ring_op) : keyring :=
  match o with
  | RImport pem pass label => (ImportKey pem pass label g).2
  | RGenerate label comment => (GenerateKey label comment g).2
  | RAdopt private comment label => (AdoptKey private comment label g).2
  | RRemove hardware ref => (RemoveKey hardware ref g).2
  | RDisable ref b => (SetKeyDisabled ref b g).2
  | RAgentUse ref b => (SetKeyAgentUse ref b g).2
  | RQueue peer name key at_ => (QueueHandover peer name key at_ g).2
  | RComplete id at_ => (CompleteHandover id at_ g).2
  | RDropHandovers peer => (DropPeerHandovers peer g).2
  | ROffer peer name label comment handover pem at_ => (AddKeyOffer peer name label comment handover pem at_ g).2
  | RAccept id label => (AcceptKeyOffer id label g).2
  | RRefuse id => (RefuseKeyOffer id g).2
  | RDropOffers peer => (DropPeerKeyOffers peer g).2
  | RReopen => reopened g
  end.
Definition ring_run (g : keyring) (os : list ring_op) : keyring := foldl ring_step g os.

Lemma stays_ok_add_marshalled private comment label what reparsed origin :
  respects stays_ok (add_marshalled private comment label what reparsed origin).
Proof. unfold add_marshalled, addKey. follow. Qed.
Hint Resolve stays_ok_add_marshalled : respects.

Lemma stays_ok_RemoveKey hardware ref : respects stays_ok (RemoveKey hardware ref).
Proof.
  apply respects_reads. intros g. destruct (last _); [|done].
  apply respects_writes; [apply drop_keys_ok|]. follow.
Qed.

Lemma stays_ok_QueueHandover peer name key at_ : respects stays_ok (QueueHandover peer name key at_).
Proof.
  unfold QueueHandover. destruct (negb _); [follow|]. apply respects_bind; [apply _|follow|].
  intros [id|e]; [|follow]. apply respects_reads. intros g. apply respects_writes; [|follow].
  apply set_queued_ok. intros [[] _]. apply NoDup_map_snoc; [by apply NoDup_map_filter|].
  intros (q & Hq & [_ Hin]%elem_of_filter_bool)%list_elem_of_fmap. unfold queued_for in Hq. cbn in Hq.
  injection Hq as Hp Hf. unfold same_handover in Hin. by rewrite Hp, Hf, !bool_decide_eq_true_2 in Hin.
Qed.

Lemma stays_ok_CompleteHandover id at_ : respects stays_ok (CompleteHandover id at_).
Proof.
  apply respects_reads. intros g. destruct (last _) as [d|]; [|done].
  apply respects_writes; [apply drop_queued_ok|]. apply respects_reads. intros g1. apply respects_writes; [|follow].
  unfold noteHandoverLocked. destruct (change_first _ _ _) as [[k l']|] eqn:Hl.
  - by eapply changed_ok; [|exact Hl].
  - apply set_keys_ok. by intros [[] _].
Qed.

Lemma stays_ok_AddKeyOffer peer name label comment handover pem at_ :
  respects stays_ok (AddKeyOffer peer name label comment handover pem at_).
Proof.
  unfold AddKeyOffer. apply respects_bind; [apply _|follow|]. intros [[signer normalized]|e]; [|follow].
  apply respects_bind; [apply _|follow|]. intros [id|e]; [|follow].
  apply respects_reads. intros g. destruct (find_first _ _); [done|].
  rewrite state_bind_unfold. cbn [gets fst snd].
  set (kept := List.filter _ _). destruct (MaxPendingKeyOffers <=? _) eqn:Hfull; [done|].
  apply respects_writes; [|follow]. apply set_offers_ok. intros [[] _]. split.
  - rewrite length_app. cbn. lia.
  - apply NoDup_map_snoc; [by apply NoDup_map_filter|].
    intros (o & Ho & [_ Hin]%elem_of_filter_bool)%list_elem_of_fmap. unfold offered_by in Ho. cbn in Ho.
    injection Ho as Hp Hf. unfold same_offer in Hin. by rewrite Hp, Hf, !bool_decide_eq_true_2 in Hin.
Qed.

Lemma stays_ok_AcceptKeyOffer id label : respects stays_ok (AcceptKeyOffer id label).
Proof.
  apply respects_reads. intros g Hg. unfold takeOffer. destruct (last _) as [offer|]; [|done].
  destruct (ParsePrivateKey _) as [s|e]; [|done]. rewrite state_bind_unfold. cbn [modify fst snd].
  set (l := if bool_decide _ then _ else _). rewrite state_bind_unfold.
  pose proof (stays_ok_addKeyLocked s (po_private_key offer) l KEY_ORIGIN_RECEIVED
    (Some (mk_KeyTransfer (po_peer_fingerprint offer) (po_peer_name offer) (po_received_at offer)))
    (set_offers (List.filter (fun o => negb (offer_is id o)) (kg_offers g)) g) (drop_offers_ok _ g Hg)) as Hadd.
  destruct (addKeyLocked _ _ _ _ _ _) as [[key|e] g1]; cbn [fst snd] in *; [done|].
  rewrite state_bind_unfold. cbn [modify fst snd mret state_ret]. apply set_offers_ok; [|done].
  intros _. destruct Hg as [[] _]. done.
Qed.

Lemma stays_ok_RefuseKeyOffer id : respects stays_ok (RefuseKeyOffer id).
Proof.
  apply respects_reads. intros g. unfold takeOffer. destruct (last _); [|done].
  apply respects_writes; [apply drop_offers_ok|follow].
Qed.

Lemma stays_ok_step o g : stays_ok g (ring_step g o).
Proof.
  destruct o; cbn [ring_step]; revert g; match goal with |- forall g, stays_ok g (?m g).2 => change (respects stays_ok m) | _ => idtac end.
  - unfold ImportKey, addKey. follow.
  - unfold GenerateKey. follow.
  - unfold AdoptKey. follow.
  - apply stays_ok_RemoveKey.
  - unfold SetKeyDisabled. apply respects_bind; [apply _|by apply stays_ok_change_key|intros []; follow].
  - by apply stays_ok_change_key.
  - apply stays_ok_QueueHandover.
  - apply stays_ok_CompleteHandover.
  - apply respects_reads. intros g. destruct (negb _); [done|]. apply respects_writes; [apply drop_queued_ok|follow].
  - apply stays_ok_AddKeyOffer.
  - apply stays_ok_AcceptKeyOffer.
  - apply stays_ok_RefuseKeyOffer.
  - apply respects_reads. intros g. destruct (negb _); [done|]. apply respects_writes; [apply drop_offers_ok|follow].
  - intros g [_ Hs]. by split.
Qed.

(** However the keys are made, adopted, handed over, offered, accepted and
    removed, whichever writes fail, and however often the store is opened
    again: one key a fingerprint, one a label, at most eight offers waiting,
    one of a peer's for a key, and one handover of a key to a peer - in memory
    and on disk. *)
Theorem ring_ok_run g os : ring_ok g -> ring_ok (ring_run g os).
Proof.
  revert g. induction os as [|o os IH]; intros g Hg; [done|]. by apply IH, stays_ok_step.
Qed.

End Runs.

(** ** Offers *)

Section Offers.
Context `{Unicode} `{KeyFiles}.

Lemma same_keys_save : respects (same kg_keys) kg_save.
Proof. by intros g. Qed.
Lemma same_keys_read : respects (same kg_keys) kg_read.
Proof. by intros g. Qed.
Lemma same_keys_offers f : respects (same kg_keys) (modify (fun g => set_offers (f g) g)).
Proof. by intros g. Qed.
Lemma same_keys_set_offers l : respects (same kg_keys) (modify (set_offers l)).
Proof. by intros g. Qed.
Hint Resolve same_keys_save same_keys_read same_keys_set_offers : respects.

(** A key that arrives is not a key of this store: offering it, refusing it and
    dropping what a peer offered leave the keys as they are. *)
Theorem an_offer_is_no_key :
  (forall peer name label comment handover pem at_,
     respects (same kg_keys) (AddKeyOffer peer name label comment handover pem at_)) /\
  (forall id, respects (same kg_keys) (RefuseKeyOffer id)) /\
  (forall peer, respects (same kg_keys) (DropPeerKeyOffers peer)).
Proof.
  split_and!.
  - intros. unfold AddKeyOffer, parsePrivateKey, newOfferID, newKeyHandle, saved.
    destruct (if bool_decide (emp = emp) then _ else _); follow.
  - intros. unfold RefuseKeyOffer, takeOffer. follow.
  - intros. unfold DropPeerKeyOffers. follow.
Qed.

(** Accepting an offer: the key that was offered under the identifier is the
    last of the keys, with where it came from, the offer is gone, and both are
    on disk; nobody held the key before. *)
Theorem AcceptKeyOffer_spec id label g key g' :
  AcceptKeyOffer id label g = (Ok key, g') ->
  exists offer signer, offer ∈ kg_offers g /\ po_id offer = id /\
    ParsePrivateKey (po_private_key offer) = Ok signer /\
    kg_keys g' = kg_keys g ++ [key] /\ kg_offers g' = List.filter (fun o => negb (offer_is id o)) (kg_offers g) /\
    kg_queued g' = kg_queued g /\ kg_saved g' = kg_doc g' /\
    sk_private_key key = po_private_key offer /\ sk_fingerprint key = FingerprintSHA256 (signer_PublicKey signer) /\
    sk_origin key = KEY_ORIGIN_RECEIVED /\ sk_disabled key = false /\
    sk_received_from key = Some (mk_KeyTransfer (po_peer_fingerprint offer) (po_peer_name offer) (po_received_at offer)) /\
    (label <> emp -> sk_label key = label) /\
    Forall (fun k => sk_fingerprint k <> sk_fingerprint key) (kg_keys g).
Proof.
  unfold AcceptKeyOffer, takeOffer. rewrite state_bind_unfold. cbn [gets fst snd].
  destruct (last _) as [offer|] eqn:Hoffer; [|done]. apply last_Some_elem_of, elem_of_filter_bool in Hoffer as [Hin Hid].
  destruct (ParsePrivateKey _) as [signer|] eqn:Hparse; [|done]. rewrite state_bind_unfold. cbn [modify fst snd].
  rewrite state_bind_unfold. unfold addKeyLocked. rewrite state_bind_unfold. cbn [gets fst snd].
  change (kg_keys (set_offers ?l g)) with (kg_keys g). destruct (find_first _ _) as [k|] eqn:Hnone; [done|].
  cbv zeta beta. match goal with |- context [existsb ?p ?q] => destruct (existsb p q) end; [done|].
  rewrite state_bind_unfold. cbn [kg_now fst snd]. rewrite state_bind_unfold. cbn [modify fst snd].
  unfold saved, kg_save. rewrite state_bind_unfold. cbn [fst snd kg_disk kg_writes set_keys set_offers set_doc].
  destruct (kg_disk g (kg_writes g)); cbn [mret state_ret fst snd]; [done|]. intros [= <- <-].
  exists offer, signer. split_and!; try done.
  - by apply bool_decide_eq_true in Hid.
  - cbn. intros Hl. rewrite (bool_decide_eq_false_2 (label = emp)) by done. by rewrite bool_decide_eq_false_2.
  - apply find_first_None in Hnone. eapply Forall_impl; [exact Hnone|]. intros k Hk. by apply bool_decide_eq_false in Hk.
Qed.

End Offers.

(** ** The comment of a key file *)

Definition short (b : bytes) : Prop := Z.of_nat (length b) < 2 ^ 32.

Lemma readString_put b rest : short b -> readString (put_string b ++ rest) = Some (b, rest).
Proof.
  intros Hb. unfold put_string, readString. rewrite <-app_assoc, length_app, length_put_u32.
  rewrite bool_decide_eq_false_2 by lia. rewrite (take_app_length' _ _ 4) by by rewrite length_put_u32.
  unfold short in Hb. rewrite get_put_u32 by lia. match goal with |- context [if ?c then None else _] => replace c with false by (rewrite ?length_app; symmetry; apply Z.ltb_ge; lia) end.
  rewrite Nat2Z.id. assert (forall a : bytes, drop (4 + length b) (a ++ b ++ rest) = drop (4 + length b) ((a ++ b) ++ rest)) as Ha
    by (intros a; by rewrite app_assoc).
  rewrite Ha, (drop_app_length' (_ ++ b)) by by rewrite length_app, length_put_u32.
  rewrite (drop_app_length' _ _ 4) by by rewrite length_put_u32. by rewrite take_app_length.
Qed.

Definition padding (n : nat) : bytes := map byte_of (seqZ 1 (Z.of_nat n)).

Lemma readString_padding n : (n < 8)%nat -> readString (padding n) = None.
Proof. intros Hn. do 8 (destruct n as [|n]; [vm_compute; reflexivity|]). lia. Qed.

Lemma validPadding_padding n : (n < 8)%nat -> validPadding (padding n) = true.
Proof. intros Hn. do 8 (destruct n as [|n]; [vm_compute; reflexivity|]). lia. Qed.

Lemma length_put_string b : length (put_string b) = (4 + length b)%nat.
Proof. unfold put_string. by rewrite length_app, length_put_u32. Qed.

(** The strings of a private section are read to the end, whatever the kind of
    key, and the last of them is the comment. *)
Lemma last_field_strings fields last comment n fuel : Forall short fields -> short comment -> (n < 8)%nat ->
  (length fields + 2 <= fuel)%nat ->
  last_field fuel last (concat (map put_string fields) ++ put_string comment ++ padding n) = (comment, padding n).
Proof.
  intros Hf Hc Hn. revert fuel last. induction Hf as [|f fields Hs Hf IH]; intros fuel last Hfuel; cbn [length map concat] in *.
  - destruct fuel as [|[|fuel]]; try lia. cbn [app last_field]. rewrite readString_put by done.
    by rewrite readString_padding.
  - destruct fuel as [|fuel]; [lia|]. cbn [last_field]. rewrite <-app_assoc, readString_put by done. apply IH. lia.
Qed.

Lemma length_strings fields : (length fields <= length (concat (map put_string fields)))%nat.
Proof. induction fields as [|f fields IH]; cbn [length map concat]; [lia|]. rewrite length_app, length_put_string. lia. Qed.

(** The private section of a key file: two check integers, the key's own
    fields, its comment and the padding. *)
Definition private_section (check : bytes) (fields : list bytes) (comment : bytes) (n : nat) : bytes :=
  check ++ concat (map put_string fields) ++ put_string comment ++ padding n.

Definition key_body (kdf options pub section : bytes) : bytes :=
  openSSHMagic ++ put_string (of_string "none") ++ put_string kdf ++ put_string options ++ put_u32 1 ++ put_string pub ++
  put_string section.

(** The comment of an unencrypted key file with one key is read back, whatever
    the kind of key and its fields. *)
Theorem bodyComment_reads_back kdf options pub check fields comment n :
  short kdf -> short options -> short pub -> short (private_section check fields comment n) ->
  length check = 8%nat -> Forall short fields -> short comment -> (n < 8)%nat -> 
  bodyComment (key_body kdf options pub (private_section check fields comment n)) = Some comment.
Proof.
  intros Hk Ho Hp Hs Hc Hf Hcom Hn. unfold bodyComment, key_body.
  rewrite take_app_length, bool_decide_eq_true_2 by done. cbn [negb]. rewrite drop_app_length.
  rewrite readString_put by done. cbn [mbind option_bind]. rewrite bool_decide_eq_true_2 by done. cbn [negb].
  rewrite readString_put by done. cbn [mbind option_bind]. rewrite readString_put by done. cbn [mbind option_bind].
  assert (privateFields (put_u32 1 ++ put_string pub ++ put_string (private_section check fields comment n)) =
    Some (concat (map put_string fields) ++ put_string comment ++ padding n)) as ->.
  { unfold privateFields. rewrite length_app, length_put_u32, bool_decide_eq_false_2 by lia.
    rewrite (take_app_length' _ _ 4), (drop_app_length' _ _ 4) by by rewrite length_put_u32. rewrite get_put_u32 by lia. cbn [negb Z.eqb Pos.eqb].
    rewrite readString_put by done. cbn [mbind option_bind].
    rewrite <-(app_nil_r (put_string (private_section _ _ _ _))), readString_put by done. cbn [mbind option_bind].
    unfold private_section. rewrite length_app, bool_decide_eq_false_2 by lia. by rewrite drop_app_length'. }
  cbn [mbind option_bind]. rewrite last_field_strings; try done.
  - by rewrite validPadding_padding.
  - rewrite !length_app, length_put_string. pose proof (length_strings fields). lia.
Qed.

(** ** Concrete stores *)

Module ToyRing.
Import Toy.

(** A private key is its seed, and a file the seed as it is. *)
#[export] Instance toy_files : KeyFiles := {|
  RawKey := bytes;
  ed25519_GenerateKey r := match r with Some b => Ok b | None => Err (errors_New "no randomness") end;
  ParseRawPrivateKey := Ok;
  ParseRawPrivateKeyWithPassphrase b _ := Ok b;
  MarshalPrivateKey _ raw _ := Ok (mk_Block "OPENSSH PRIVATE KEY" raw);
  ParsePrivateKey b := Ok (signer b);
  MarshalAuthorizedKey _ := emp;
  pem_Decode b := Some (mk_Block "OPENSSH PRIVATE KEY" b);
  pem_EncodeToMemory := bk_Bytes
|}.

Definition nothing : document := mk_document [] [] [].
(** The second write fails. *)
Definition toy_ring : keyring :=
  mk_keyring nothing nothing (fun n => if bool_decide (n = 1%nat) then Some (errors_New "disk full") else None) 0
    (fun n => Some [byte_of (Z.of_nat n)]) 0 (fun n => Z.of_nat n) 0.
Definition key_arrives : ring_op := ROffer "SHA256:phone" "phone" "work" emp "h1" (of_string "seed") 5.
Definition offered_ring : keyring := ring_step toy_ring key_arrives.
Definition offered_id : string := default emp (po_id <$> head (kg_offers offered_ring)).
End ToyRing.
Import Toy.
Import ToyRing.

(** An acceptance that could not be written down leaves the key both held and
    offered: the offer is put back, the key is not taken out.  The next write
    that succeeds puts both on disk, and from then on the offer can only be
    refused. *)
Example held_and_offered :
  let '(r, g) := AcceptKeyOffer offered_id emp offered_ring in
  let g' := ring_step g (RAgentUse "work" false) in
  (is_ok r, length (kg_keys g), length (kg_offers g)) = (false, 1%nat, 1%nat) /\
  (length (dc_keys (kg_saved g')), length (dc_offers (kg_saved g'))) = (1%nat, 1%nat) /\
  is_ok (AcceptKeyOffer offered_id emp g').1 = false.
Proof. vm_compute. done. Qed.

(** A label may be what another key's fingerprint is, and a key that was handed
    over brings its label along: removing the one by its fingerprint removes
    both. *)
Example named_like_a_fingerprint :
  let g := ring_step toy_ring (RImport (of_string "first") emp "first") in
  let print := default emp (sk_fingerprint <$> head (kg_keys g)) in
  let g := ring_step g (ROffer "SHA256:phone" "phone" print emp "h1" (of_string "second") 5) in
  let g := ring_step g (RAccept (default emp (po_id <$> head (kg_offers g))) emp) in
  length (kg_keys g) = 2%nat /\ kg_keys (ring_step g (RRemove None print)) = [].
Proof. vm_compute. done. Qed.

(** The comment of an ed25519 key, with three bytes of padding. *)
Example toy_comment :
  bodyComment (key_body [] [] (of_string "ssh-ed25519") (private_section (of_string "checkche")
    [of_string "ssh-ed25519"; [x01]; [x02]] (of_string "me@desk") 3)) = Some (of_string "me@desk").
Proof. vm_compute. reflexivity. Qed.

Lemma toy_ring_ok : ring_ok (ring_run toy_ring [key_arrives; key_arrives; RAccept offered_id emp; RReopen]).
Proof. apply ring_ok_run. split; split; cbn; try constructor; vm_compute; congruence. Qed.
